(* ===== verification/_CoqProject ===== *)
-Q . S2P
Prelude.v
Aka.v
AkaSpec.v
AkaCorrect.v
UsimApdu.v
UsimApduSpec.v
UsimScript.v
UsimFcp.v
UsimFiles.v
UsimCard.v
UsimLib.v
UsimLibCorrect.v
UsimAuth.v
UsimAuthCorrect.v
UsimDriver.v
UsimDriverCorrect.v
UsimEvent.v
UsimEventCorrect.v
GulMsi.v
GulIpc.v
GulIpcAlloc.v
GulIpcIrq.v
GulImage.v
GulScratch.v
GulBoot.v
GulBootCorrect.v
GulBootTest.v
GulTti.v
GulBase.v
GulBaseCorrect.v
GulHif.v
GulIrqMux.v
GulPci.v
GulPciCorrect.v
GulTtiDev.v
GulWdog.v
GulWdogCorrect.v
GulWdogLib.v
GulTvd.v
GulTvdCorrect.v
GulDcs.v
GulDcsCorrect.v
GulText.v
GulLog.v
GulLogCorrect.v
GulCli.v
GulCliCorrect.v
GulModinfo.v
GulModinfoCorrect.v
GulDump.v
GulStatsText.v
AppCli.v
AppCalTable.v
GulL3.v
GulGpio.v
GulUserLibs.v
GulIpcDev.v
GulIpcDevCorrect.v
GulFr1.v
GulFr1Correct.v
UsimProbe.v
UsimProbeCorrect.v
GulVspa.v
GulVspaCorrect.v
GulRfic.v
GulRficCorrect.v
GulHawk.v
GulHawkCorrect.v
GulModules.v
GulSysfs.v
GulSubCalls.v
GulSysfsCorrect.v
AppDevmem.v
AppTools.v
AppUsim.v
AppTti.v
AppWdog.v
AppShbuf.v
AppTvd.v
AppShell.v
