(* ===== verification/Prelude.v ===== *)
(** * LA12xx host software: a verification library

    The repository is the host side of the NXP LA12xx modem: Linux drivers
    (kernel_driver/), user libraries over them (lib/), and programs (app/).
    This library models all three, and proves what makes them correct.  All paths
    below are relative to the repository's src/.

    ** The parts of the program

    - The modem is a PCI device.  kernel_driver/yami/gul_pci.c finds it, maps its
      regions and shares its interrupt lines out; gul_base.c then brings it up: it
      shares a piece of host memory with it (the scratch memory, cut into a region
      per sub-driver), loads its firmware (gul_boot.c), waits for its handshake and
      probes the sub-drivers.  A module has up to four modems, and much state (minor
      numbers, classes, instances) is shared by all of them.
    - The sub-drivers, a character or miscellaneous device per modem each: IPC
      (gul_ipc.c), timing (gul_tti.c), command line (gul_cli.c), RF mailbox
      (gul_rfic.c, gul_rf_dspi.c), performance monitor (gul_hawk.c), vector processors
      (gul_main_vspa.c), data converters (gul_dcs.c), thermal and voltage sensors
      (gul_tvd.c), watchdog (gul_wdog.c), card reader (gul_usim.c), modem information
      (gul_modinfo.c), pins (gul_modem_gpio.c), interrupt demultiplexer
      (gul_irq_mux.c), the RF chips of one kind of board (gul_fr1_rfic.c), the
      statistics and the files in sysfs (gul_stats.c, gul_sysfs.c).  A module of its
      own locks cache ways (kernel_driver/l3_cache_locking/).
    - User libraries (lib/): over the requests of a driver (cli, wdog, tvd, tti), over
      mapped registers (modemgpio, mpic), and the subscriber-card stack
      (usim_library): the file API of usim_lib.c reads and writes files of a card
      through usim_apdu.c, which encodes ISO 7816-4 commands and sends each by one
      request of usim_ioctl.c to the card reader; usim_event.c finds out that a card
      changed; authentication runs on the card or, off chip, with the MILENAGE
      functions of aka_functions.c.
    - Programs (app/): a shell for the modem and a program that trains at its events
      (app/cli), a tool that saves and restores the calibration table of an RF chip
      (app/rfic), tools for memory, pins, cache ways and test files (app/devmem,
      app/modemgpio, app/l3locking, app/bincreate), and test programs for the card, the
      timing devices, the watchdog, the sensors and the shared memory (app/usim_app,
      app/tti, app/wdog, app/tvd, app/modem_info).  They reach the drivers through the
      libraries, or by their own requests.

    ** The files

    A file [XCorrect] holds the theorems on the definitions of [X]; a file without
    one has its theorems at its end.
    - Prelude: machine integers, C memory, the state monad and its tactics.
    - Aka: aka_functions.c, with FIPS-197 and TS 35.206 written out as Module
      Spec.  AkaSpec relates the two; AkaCorrect checks the tables against
      GF(2^8) and inverts the cipher.
    - UsimApdu: usim_ioctl.c and usim_apdu.c.  The record [lib] holds the globals
      [sim], [aid], [aid_len].  UsimApduSpec: the encoding of commands and the
      frame and select-back lemmas; UsimScript: two concrete readers; UsimFcp:
      the FCP parser; UsimFiles: the four file operations; UsimCard: commands,
      EF_DIR scan, PIN and on-chip authentication.
    - UsimLib, UsimLibCorrect: the files of usim_lib.c, on the record [vtq] of its
      globals.  UsimAuth, UsimAuthCorrect: its two authentications.
    - UsimDriver, UsimDriverCorrect: transfers and requests of gul_usim.c over its
      registers, and the instance of the interface of UsimApdu.  UsimProbe,
      UsimProbeCorrect: its probe, removal, read, poll and timer.  UsimEvent,
      UsimEventCorrect: usim_event.c and the session calls of usim_lib.c.
    - GulMsi: the interrupt table of gul_pci.c and the registers of gul_base.c.
      GulIpc: gul_ipc.c on the record [ipc_world].  GulIpcAlloc: the allocator
      refines a stack of mappings; GulIpcIrq: the channels own their lines.
      GulIpcDev, GulIpcDevCorrect: its devices and texts.
    - GulImage: the ELF structures of gul_base.h.  GulScratch: the sizing and
      allocation of the scratch memory.  GulBoot, GulBootCorrect: gul_boot.c;
      GulBootTest: its build that tests the boot ROM.  GulHif: the host interface,
      the message window and the board.  GulBase, GulBaseCorrect: probe and removal
      of a modem.  GulPci, GulPciCorrect: probe and removal of a PCI device, and the
      module.  GulModules: the parts of three sub-drivers that come with the module.
    - GulTti, GulTtiDev: the timing devices.  GulIrqMux: gul_irq_mux.c.
      GulWdog, GulWdogCorrect, GulWdogLib: the watchdog and lib/wdog.
      GulTvd, GulTvdCorrect: the sensors.  GulDcs, GulDcsCorrect: the converters.
      GulRfic, GulRficCorrect: the RF mailbox.  GulHawk, GulHawkCorrect: the monitor.
      GulVspa, GulVspaCorrect: the vector processors.  GulFr1, GulFr1Correct:
      gul_fr1_rfic.c.  GulGpio: the pins, lib/modemgpio and lib/mpic.  GulL3: the
      cache-locking module.
    - GulText: text and its length.  GulLog, GulLogCorrect: the log ring of a core and
      the statistics device.  GulStatsText: the texts of three sub-drivers.
      GulCli, GulCliCorrect: gul_cli.c and lib/cli.  GulModinfo, GulModinfoCorrect:
      gul_modinfo.c.  GulDump: the dump of a device and of memory.
      GulSysfs, GulSubCalls, GulSysfsCorrect: the files in sysfs, the sub-drivers they
      reach, and the theorems.
    - GulUserLibs: lib/tvd and lib/tti.
    - AppCli, AppShell: app/cli, the command and the loop.  AppCalTable: app/rfic.
      AppDevmem: app/devmem.  AppTools: app/l3locking, app/modemgpio, app/bincreate.
      AppUsim: app/usim_app over the card library.  AppTti and AppTvd: the two programs
      over GulUserLibs, the second also against the driver of GulTvd.  AppWdog: that
      over GulWdogLib.  AppShbuf: the shared-memory test over GulModinfo.

    A C function is a definition of the same name.  A loop or a block shared by
    several functions is a definition of its own, named in the doc comment.

    ** How C is modelled

    An array is a list of cells, [None] for an indeterminate one.  A result
    [None] of a definition is undefined behaviour: an index outside the object, the
    use of an indeterminate value, of NULL, or of an object that was freed.  So a
    theorem that a run is [Some] also says the run is safe.  Integers are [Z] with the
    wrap-around written where the code converts.  Out-parameters are returned.
    Globals are threaded by the monad [M], or passed and returned.  A structure that
    several pointers reach lives in a heap of the state, by its address.

    Calls that leave the modelled code come in two forms.  Hardware is an interface
    with a state of its own, whose reads and writes are made in the order of the code.
    The kernel is a log: each call with its answer, the answers being a function of
    the log so far, so that they may be anything; what the program holds is then read
    off the log by a ledger.  Interrupts, work items, threads and user processes are
    steps of a relation, taken in any order; a request or a probe is one step.

    ** Interfaces

    - [UsimApdu.Env] is what the card library takes from the system: the transfer
      request, the flash device, malloc; [UsimApdu.UsimDev] states the laws of the
      reader driver, which UsimDriverCorrect proves of the model of gul_usim.c over
      any hardware [UsimHw] for the transfers that stay in the driver's arrays (of the
      others it has to be assumed, [dev_env_lawful]), and UsimScript of two scripted
      readers.
      [UsimEvent.SessEnv] and [Dries]: the mapped registers, and a receiver that runs
      dry.
    - Headers the repository does not contain give numbers: [GulMsi.HostIf],
      [ScratchIf], [BootIf], [HifIf], [PciIf], [MuxIf], [DcsIf], [TvdIf], [RficIf],
      [HawkIf], [ModinfoIf], [DumpIf], [RfCounts], [SysfsIf], [CliMsgs]; what is relied
      on is [HifLaws], [RficLaws], [HawkLaws], each with an instance.
    - Hardware: [UsimHw], [Handshake], [DcsEnv] with [DcsMem], [VspaHw], [RfEnv],
      [HawkEnv], and [AppDevmem.Bus], of which memory is an instance.
    - The kernel's and the system's answers: [GulIpc.kernel], [BaseCalls], [PciCalls],
      [WdogCalls], [TvdCalls], [CliCalls], [UsimCalls], [IpcDevCalls], [Fr1Env],
      [L3Calls], [GpioSys], [UserCalls], [TvdSys].
    - Between components: [GulWdogLib.WdogUser], of which the driver of GulWdog is an
      instance and AppWdog a client; [GulSysfs.SubCalls] with [SysText], which
      GulSubCalls instantiates with the models of the sub-drivers.  AppCli and
      GulModinfo use the scratch memory of GulScratch, GulDcs the loader of GulBoot,
      GulFr1 the pins of GulGpio, GulModules the checks of GulBase, GulCli the log of
      GulLog.

    ** What the theorems show

    - Card files: the exact commands sent and data returned on a card that answers
      ([read_transparent_usim], [write_linearfixed_usim] and siblings); on every run the
      home application is selected again, with one exception ([file_op_selects_back]).
      The FCP parser accepts exactly well-formed templates; NAS structures round-trip.
      The reader driver answers every request in range over any hardware
      ([ioctl_answers]), transfers the bytes of a card on a reader that keeps up, if no
      byte of the reply looks like an acknowledgement ([xfer_reply]), and keeps the laws
      the library is proved against, unless it leaves its arrays ([driver_is_lawful]). A
      changed card is told by its ICCID ([card_change_reported]).
    - Cryptography: the key schedule and cipher are FIPS-197, f1 to f5* are TS 35.206
      ([aes_encrypt_is_fips197], [aes_tables], [milenage_is_ts35206]), and the off-chip
      authentication is determined on every input, those included on which it reads past
      a list ([offchip_answer]).
    - Owning things: mappings of the IPC driver are a stack and fully reclaimed
      ([pci_map_refines]); interrupt lines have one owner ([msi_exclusive],
      [channels_hold_lines]); probes hold everything or nothing, but for the cases their
      theorems name ([probe_holds_or_releases], [probe_is_ladder],
      [vspa_probe_all_or_nothing]), and removal gives back what is held
      ([remove_releases], [tti_lifecycle], [cli_contexts_sound], [wdog_irq_once],
      [ipc_minors_exclusive]).
    - Memory: the regions of the modems do not overlap ([scratch_layout]), user space
      maps what it shares with a modem and nothing else ([modinfo_mmap_isolated]), and
      the shell leaves its command where host and modem both look for it, if there is a
      shared region ([command_in_overlay]).
    - Talking to the modem: firmware is complete before the modem runs it
      ([boot_release]), an image loads as it stands although its load writes over it, as
      long as it is read before ([vspa_image_loads]); both RF chips are reset, loaded
      and started in order ([fr1_probe_starts]); mailbox commands return on any modem
      ([rf_command_returns], [command_outcome]) and get its answer when it is in time
      ([rf_modem_answers]).
    - Arguments and texts: limits of the sensors ([thermal_limits]), the types of the
      calls sysfs makes ([store_calls_in_range]), the limits of the firmware calls
      ([l3_calls_sound]); the log is a queue ([log_is_fifo]), statistics are delivered
      once ([stats_cat]).
    - Programs and what is below them: a pin is driven and shown as asked
      ([gpio_tool_drives]); a saved calibration table is restored
      ([cal_table_roundtrip]); memory that is written is what is read
      ([devmem_readback]), never outside its pages ([devmem_ends]); a typed security
      context comes back from the card ([context_comes_back]); the driver takes every
      threshold the sensor test asks for ([thresholds_accepted]); the memory test stays
      in the shared memory ([shbuf_in_share]); a typed command is stored as typed
      ([plain_line_stored]).
    - Where the code goes wrong, that is a theorem too: for instance
      [failed_probe_removes_modem_0], [failed_dcs_probe_frees_twice],
      [hawk_needs_core_0], [tmon_outlives_module], [large_table_hangs],
      [networks_never_written], [interrupt_forgotten].

    ** Fuel

    Most Fixpoints are bounded by the counter of the C loop, or by the list they walk.
    The others:
    - Loops over memory get the length of it: [fcp_loop] the template and one more
      ([parse_fcp_terminates]), [GulVspa.mw_loop] the bytes of the section,
      [GulFr1.text_lines] the memory of the text; each turn moves by a byte at least.
      [GulVspa.dma_loop] gets the number of pieces; sixteen digits print any number in
      [GulText.hex].
    - Polls that have no bound in the code take fuel as an argument: a run without
      enough is [None].  The activation of the card needs the number of bytes the
      receiver has left ([card_activation]); [GulWdog.wait_removed] waits for ever
      for a device that is not removed, whatever the fuel ([wait_forever]); the loops
      that print a log ([GulCli.emit_rest], [tty_rest]) need a turn per piece the
      kernel takes.
    - [GulLogCorrect.cat], a process that reads to the end, needs a turn per byte, and
      [AppCalTable.write_loop] one per page and one more; with a larger table no fuel
      is enough.
    - Loops over the terminal or over events need a turn each: [AppUsim.commands], which
      has no end at the end of the input ([end_never_seen]), [AppTvd.poll] (one turn when
      it polls once, [poll_ends]), [AppTvd.event_loop], [AppShell.await].
      [AppShbuf.borrow] needs two ([time_diff_exact]).

    ** What is not modelled

    Printing to the kernel log or the terminal: the arguments of such calls are not
    evaluated, also where they read memory.  [free] and [kfree] only use their pointer,
    unless the object lives in a heap.  Locks, except where their order or balance is
    the point: a request is one step.  Delays, but for their place between accesses.
    Code that is compiled out.  Two kinds of message interrupts of gul_base.c, whose
    registers come from a missing header.  Structure layouts of absent headers: a field
    is its value.  Two programs that only print what a library answers (modem_info.c,
    get_timestamp.c), the declarations of the headers, and the scripts.  The threads of
    gul_tvd_app.c are modelled one by one, not interleaved. *)
From stdpp Require Export prelude.
From stdpp Require Export list_numbers.
From Stdlib Require Export ZArith Lia.

#[global] Open Scope Z_scope.

(** ** Machine integers

    C's unsigned conversions reduce modulo a power of two; [i32] is the
    two's-complement reading of the low 32 bits. *)
Definition u8 (x : Z) : Z := x mod 256.
Definition u16 (x : Z) : Z := x mod 65536.
Definition u32 (x : Z) : Z := x mod 4294967296.
Definition u64 (x : Z) : Z := x mod 18446744073709551616.
Definition i32 (x : Z) : Z := (x + 2147483648) mod 4294967296 - 2147483648.

Definition is_byte (x : Z) : Prop := 0 ≤ x < 256.

(** ** Memory

    A C array is a list of cells.  A cell is [Some v] when the byte was
    stored, [None] when its value is indeterminate (a local array or malloc
    block not written yet).  The [option] results are [None] exactly when the
    C code has undefined behaviour: an index out of the object, or the use of
    an indeterminate byte. *)
Abbreviation buffer := (list (option Z)).

Definition zlen {A} (l : list A) : Z := Z.of_nat (length l).

(** [b[i]], read for its value. *)
Definition rd (b : buffer) (i : Z) : option Z :=
  if decide (0 ≤ i) then mjoin (b !! Z.to_nat i) else None.

(** [b[i] = v]. *)
Definition wr (b : buffer) (i v : Z) : option buffer :=
  if decide (0 ≤ i < zlen b) then Some (<[Z.to_nat i := Some v]> b) else None.

(** The [n] cells at [b+i]. *)
Definition sub (b : buffer) (i n : Z) : option buffer :=
  if decide (0 ≤ i ∧ 0 ≤ n ∧ i + n ≤ zlen b)
  then Some (take (Z.to_nat n) (drop (Z.to_nat i) b)) else None.

(** Storing the cells [src] at [b+i]. *)
Definition blit (b : buffer) (i : Z) (src : buffer) : option buffer :=
  if decide (0 ≤ i ∧ i + zlen src ≤ zlen b)
  then Some (take (Z.to_nat i) b ++ src ++ drop (Z.to_nat i + length src) b)
  else None.

(** [memcpy(dst + i, src + j, n)]. *)
Definition memcpy (dst : buffer) (i : Z) (src : buffer) (j n : Z) : option buffer :=
  c ← sub src j n; blit dst i c.

(** [memset(dst + i, v, n)]. *)
Definition memset (dst : buffer) (i v n : Z) : option buffer :=
  if decide (0 ≤ n) then blit dst i (replicate (Z.to_nat n) (Some v)) else None.

(** The values of [n] bytes at [b+i], all of them initialised. *)
Definition rd_bytes (b : buffer) (i n : Z) : option (list Z) :=
  c ← sub b i n; mapM id c.

Definition init (l : list Z) : buffer := Some <$> l.
Definition undef (n : Z) : buffer := replicate (Z.to_nat n) None.
Definition zeros (n : Z) : buffer := replicate (Z.to_nat n) (Some 0).

(** ** The state monad of the stateful C code

    [None] is undefined behaviour, as above. *)
Definition M (W A : Type) : Type := W → option (A * W).

#[global] Instance M_ret {W} : MRet (M W) := λ A a w, Some (a, w).
#[global] Instance M_bind {W} : MBind (M W) :=
  λ A B (k : A → M W B) (m : M W A) w,
    match m w with Some (a, w') => k a w' | None => None end.

(** A pure access that can be undefined. *)
Definition lift {W A} (o : option A) : M W A :=
  λ w, match o with Some a => Some (a, w) | None => None end.
Definition gets {W A} (f : W → A) : M W A := λ w, Some (f w, w).
Definition modify {W} (f : W → W) : M W unit := λ w, Some (tt, f w).

(** ** Shared lemmas *)
Create HintDb cmem.
Create Rewrite HintDb cmem.

Lemma zlen_nonneg {A} (l : list A) : 0 ≤ zlen l.
Proof. unfold zlen; lia. Qed.
#[export] Hint Resolve zlen_nonneg : cmem.

Lemma zlen_app {A} (l k : list A) : zlen (l ++ k) = zlen l + zlen k.
Proof. unfold zlen; rewrite length_app; lia. Qed.

Lemma zlen_cons {A} (x : A) l : zlen (x :: l) = 1 + zlen l.
Proof. unfold zlen; simpl; lia. Qed.

Lemma zlen_nil {A} : zlen (@nil A) = 0.
Proof. reflexivity. Qed.

Lemma zlen_init l : zlen (init l) = zlen l.
Proof. unfold zlen, init; by rewrite length_fmap. Qed.

Lemma length_init l : length (init l) = length l.
Proof. apply length_fmap. Qed.

Lemma zlen_undef n : 0 ≤ n → zlen (undef n) = n.
Proof. intros; unfold zlen, undef; rewrite length_replicate; lia. Qed.

Lemma zlen_zeros n : 0 ≤ n → zlen (zeros n) = n.
Proof. intros; unfold zlen, zeros; rewrite length_replicate; lia. Qed.

#[export] Hint Rewrite @zlen_app @zlen_cons @zlen_nil zlen_init : cmem.

Lemma init_app l k : init (l ++ k) = init l ++ init k.
Proof. apply fmap_app. Qed.

Lemma mapM_id_init l : mapM id (init l) = Some l.
Proof. induction l as [|x l IH]; [done|]; simpl. by rewrite IH. Qed.

#[export] Instance init_inj : Inj (=) (=) init.
Proof. intros l k H. apply (f_equal (mapM id)) in H. rewrite !mapM_id_init in H. by injection H. Qed.

Lemma insert_mid {A} (l : list A) (i : nat) x y r :
  length l = i → <[i := x]> (l ++ y :: r) = l ++ x :: r.
Proof. intros <-. rewrite <- (Nat.add_0_r (length l)), insert_app_r. done. Qed.

(** Reading inside a concatenation. *)
Lemma rd_app_r b c i : zlen b ≤ i → rd (b ++ c) i = rd c (i - zlen b).
Proof.
  unfold rd, zlen; intros Hi. rewrite !decide_True by lia.
  rewrite lookup_app_r by lia. do 2 f_equal; lia.
Qed.

Lemma rd_app_l b c i : i < zlen b → rd (b ++ c) i = rd b i.
Proof.
  unfold rd, zlen; intros Hi. case_decide; [|done].
  by rewrite lookup_app_l by lia.
Qed.

Lemma rd_cons_0 x b : rd (x :: b) 0 = x.
Proof. done. Qed.

Lemma rd_cons_S x b i : 0 < i → rd (x :: b) i = rd b (i - 1).
Proof. intros. rewrite (rd_app_r [x] b) by (unfold zlen; simpl; lia). done. Qed.

(** Slicing a concatenation at its seams. *)
Lemma sub_exact a c d i n :
  i = zlen a → n = zlen c → sub (a ++ c ++ d) i n = Some c.
Proof.
  intros -> ->. unfold sub. rewrite decide_True.
  - unfold zlen. rewrite !Nat2Z.id, drop_app_length, take_app_length; done.
  - rewrite !zlen_app. pose proof (zlen_nonneg a); pose proof (zlen_nonneg c);
      pose proof (zlen_nonneg d); lia.
Qed.

Lemma sub_all b : sub b 0 (zlen b) = Some b.
Proof.
  rewrite <- (app_nil_l b) at 1. rewrite <- (app_nil_r b) at 1.
  by apply sub_exact.
Qed.

Lemma blit_exact a c d x i :
  i = zlen a → length x = length c → blit (a ++ c ++ d) i x = Some (a ++ x ++ d).
Proof.
  intros -> Hx. unfold blit. rewrite decide_True.
  - unfold zlen. rewrite Nat2Z.id, take_app_length, Hx.
    rewrite drop_app, drop_ge by lia.
    replace (length a + length c - length a)%nat with (length c) by lia.
    by rewrite drop_app_length.
  - rewrite !zlen_app. unfold zlen in *; lia.
Qed.

(** Overwriting the front of a buffer. *)
Lemma blit_0 b x :
  zlen x ≤ zlen b → blit b 0 x = Some (x ++ drop (length x) b).
Proof.
  intros H. unfold blit. rewrite decide_True by lia. done.
Qed.

Lemma blit_length b i x b' : blit b i x = Some b' → length b' = length b.
Proof.
  unfold blit; case_decide as H; [intros [= <-]|done].
  rewrite !length_app, length_take, length_drop. unfold zlen in *; lia.
Qed.

Lemma wr_length b i v b' : wr b i v = Some b' → length b' = length b.
Proof. unfold wr; case_decide; [intros [= <-]; apply length_insert|done]. Qed.

Lemma memcpy_length d i s j n d' :
  memcpy d i s j n = Some d' → length d' = length d.
Proof.
  unfold memcpy. destruct (sub s j n) as [c|]; simpl; [apply blit_length|done].
Qed.

Lemma memset_length d i v n d' : memset d i v n = Some d' → length d' = length d.
Proof. unfold memset; case_decide; [apply blit_length|done]. Qed.

#[export] Hint Resolve blit_length wr_length memcpy_length memset_length : cmem.

Lemma M_bind_Some {W A B} (m : M W A) (k : A → M W B) w r :
  (m ≫= k) w = Some r → ∃ a w', m w = Some (a, w') ∧ k a w' = Some r.
Proof. unfold mbind, M_bind. destruct (m w) as [[a w']|]; naive_solver. Qed.

Lemma M_bind_eq {W A B} (m : M W A) (k : A → M W B) w :
  (m ≫= k) w = match m w with Some (a, w') => k a w' | None => None end.
Proof. done. Qed.

Lemma M_bind_run {W A B} (m : M W A) (k : A → M W B) w a w' :
  m w = Some (a, w') → (m ≫= k) w = k a w'.
Proof. intros H. by rewrite M_bind_eq, H. Qed.

Lemma lift_Some {W A} (o : option A) (w : W) a : o = Some a → lift o w = Some (a, w).
Proof. by intros ->. Qed.

Lemma rd_init l (i : nat) x : l !! i = Some x → rd (init l) (Z.of_nat i) = Some x.
Proof.
  intros Hx. unfold rd. rewrite decide_True by lia.
  by rewrite Nat2Z.id; unfold init; rewrite list_lookup_fmap, Hx.
Qed.

Lemma rd_bytes_init l : rd_bytes (init l) 0 (zlen l) = Some l.
Proof.
  unfold rd_bytes. rewrite <- zlen_init, sub_all. cbn [mbind option_bind]. apply mapM_id_init.
Qed.

Lemma rd_bytes_prefix l b : rd_bytes (init l ++ b) 0 (zlen l) = Some l.
Proof.
  unfold rd_bytes. rewrite (sub_exact [] (init l) b) by (by rewrite ?zlen_init).
  apply mapM_id_init.
Qed.

Lemma rd_init_app pre l k : 0 ≤ k → rd (init (pre ++ l)) (zlen pre + k) = rd (init l) k.
Proof.
  intros Hk. rewrite init_app, rd_app_r by (rewrite zlen_init; lia).
  f_equal. rewrite zlen_init. lia.
Qed.

Lemma byte_testbit b i : is_byte b → 8 ≤ i → Z.testbit b i = false.
Proof.
  intros [Hb1 Hb2] Hi. destruct (decide (b = 0)) as [->|Hn]; [apply Z.bits_0|].
  apply Z.bits_above_log2; [lia|]. apply Z.log2_lt_pow2; [lia|].
  eapply Z.lt_le_trans; [apply Hb2|]. change 256 with (2 ^ 8). apply Z.pow_le_mono_r; lia.
Qed.

(** Big-endian pairs: [(a << 8) | b]. *)
Lemma lor_shiftl_8 a b : is_byte b → Z.lor (Z.shiftl a 8) b = a * 256 + b.
Proof.
  intros Hb. assert (Hl : Z.land (Z.shiftl a 8) b = 0).
  { apply Z.bits_inj'. intros i Hi. rewrite Z.land_spec, Z.bits_0.
    destruct (decide (i < 8)); [by rewrite Z.shiftl_spec_low by lia|].
    rewrite (byte_testbit b i) by (done || lia). apply andb_false_r. }
  rewrite <- Z.lxor_lor by done. rewrite <- Z.add_nocarry_lxor by done.
  by rewrite Z.shiftl_mul_pow2 by lia.
Qed.

(** ** Tactics *)

(** Split a successful monadic run in the hypotheses into its steps. *)
Ltac run_inv :=
  repeat match goal with
  | H : (mret _) _ = Some _ |- _ => injection H as H; subst
  | H : Some _ = Some _ |- _ => injection H as H; subst
  | H : None = Some _ |- _ => discriminate H
  | H : (_, _) = (_, _) |- _ => injection H as H; subst
  | H : (_ ≫= _) _ = Some _ |- _ =>
      apply M_bind_Some in H; destruct H as (? & ? & ? & H)
  end.

(** Evaluate the reads [rd b k] of the goal at a literal index of an explicit
    front of a buffer. *)
Ltac rd_eval :=
  cbn [init fmap list_fmap app];
  repeat match goal with
  | |- context [rd ?b ?k] =>
      let r := eval cbv -[zlen fmap list_fmap app init replicate u8 Z.add Z.mul Z.sub] in (rd b k) in
      lazymatch r with Some _ => change (rd b k) with r end
  end; cbn [mbind option_bind mjoin option_join].

(** Linear arithmetic over the C wrap-around functions. *)
Ltac wrap_lia :=
  unfold u8, u16, u32, u64, i32, is_byte in *; Z.to_euclidean_division_equations; lia.

(** ** Step relations *)

(** What every step preserves holds in every state reached. *)
Lemma rtc_invariant {A} (R : relation A) (P : A → Prop) x y :
  rtc R x y → (∀ a b, R a b → P a → P b) → P x → P y.
Proof. intros Hr HP. induction Hr; eauto. Qed.

(** ** Runs that keep a part of the state *)
Section Keeps.
Context {W X : Type} (f : W → X).

Definition keeps {A} (m : M W A) : Prop := ∀ w a w', m w = Some (a, w') → f w' = f w.

Lemma keeps_ret {A} (a : A) : keeps (mret a).
Proof. by intros w a' w' [= _ <-]. Qed.

Lemma keeps_bind {A B} (m : M W A) (k : A → M W B) :
  keeps m → (∀ a, keeps (k a)) → keeps (m ≫= k).
Proof.
  intros Hm Hk w b w' (a & w1 & H1 & H2)%M_bind_Some.
  rewrite (Hk _ _ _ _ H2). by eapply Hm.
Qed.

Lemma keeps_lift {A} (o : option A) : keeps (lift o).
Proof. intros w a w'. unfold lift. destruct o; [by intros [= _ <-]|done]. Qed.

Lemma keeps_gets {A} (g : W → A) : keeps (gets g).
Proof. by intros w a w' [= _ <-]. Qed.

Lemma keeps_modify (g : W → W) : (∀ w, f (g w) = f w) → keeps (modify g).
Proof. intros Hg w a w' [= _ <-]. apply Hg. Qed.

End Keeps.

Create HintDb keeps.
#[export] Hint Resolve keeps_ret keeps_lift keeps_gets : keeps.

(** One step per construct; a component adds its operations as hints. *)
Ltac keeps_tac :=
  repeat first
  [ solve [auto with keeps]
  | apply keeps_modify; intros ?; reflexivity
  | apply keeps_bind; [|intros ?]
  | match goal with |- keeps _ (if ?b then _ else _) => destruct b end
  | match goal with |- keeps _ (match ?x with _ => _ end) => destruct x end ].

(** ** Polling loops

    [until step n]: at most [n] steps, stopping at the first that returns
    [inr].  The count is binary, so that a bound of a million costs nothing when
    the loop ends early. *)
Section Until.
Context {W S R : Type} (step : S → M W (S + R)).

Definition or_else (r : S + R) (k : S → M W (S + R)) : M W (S + R) :=
  match r with inl s => k s | inr r => mret (inr r) end.

Fixpoint until (n : positive) (s : S) : M W (S + R) :=
  match n with
  | xH => step s
  | xO p => r ← until p s; or_else r (until p)
  | xI p => r ← step s; r ← or_else r (until p); or_else r (until p)
  end.

(** [P k s w]: the invariant, with [k] bounding the steps left; [ub] says whether
    undefined behaviour is accepted. *)
Lemma until_spec (ub : Prop) (P : Z → S → W → Prop) (Q : R → W → Prop) :
  (∀ k s w, 0 < k → P k s w →
    match step s w with
    | Some (inl s', w') => P (k - 1) s' w' | Some (inr r, w') => Q r w' | None => ub end) →
  ∀ n k s w, Zpos n ≤ k → P k s w →
    match until n s w with
    | Some (inl s', w') => P (k - Zpos n) s' w' | Some (inr r, w') => Q r w' | None => ub end.
Proof.
  intros Hstep.
  assert (Hor : ∀ n, (∀ k s w, Zpos n ≤ k → P k s w → match until n s w with
      | Some (inl s', w') => P (k - Zpos n) s' w' | Some (inr r, w') => Q r w' | None => ub end) →
    ∀ k r w, Zpos n ≤ k → match r with inl s => P k s w | inr r => Q r w end →
    match or_else r (until n) w with
    | Some (inl s', w') => P (k - Zpos n) s' w' | Some (inr r, w') => Q r w' | None => ub end).
  { intros n IH k [s|r] w Hk Hr; [by apply IH|exact Hr]. }
  induction n as [p IH|p IH|]; intros k s w Hk HP; cbn [until].
  - rewrite M_bind_eq. assert (H1 := Hstep k s w ltac:(lia) HP).
    destruct (step s w) as [[r w1]|]; [|done]. rewrite M_bind_eq.
    assert (H2 := Hor p IH (k - 1) r w1 ltac:(lia)).
    destruct (or_else r (until p) w1) as [[r2 w2]|]; [|by destruct r; apply H2].
    assert (H3 := Hor p IH (k - 1 - Zpos p) r2 w2 ltac:(lia)).
    replace (k - Zpos p~1) with (k - 1 - Zpos p - Zpos p) by lia.
    apply H3. destruct r; by apply H2.
  - rewrite M_bind_eq. assert (H1 := IH k s w ltac:(lia) HP).
    destruct (until p s w) as [[r w1]|]; [|done].
    replace (k - Zpos p~0) with (k - Zpos p - Zpos p) by lia.
    apply Hor; [done|lia|done].
  - by apply Hstep; [lia|].
Qed.

(** A loop that stops at its first step. *)
Lemma until_now n s w r w' : step s w = Some (inr r, w') → until n s w = Some (inr r, w').
Proof.
  intros Hs. induction n as [p IH|p IH|]; cbn [until]; [| |done].
  - by rewrite M_bind_eq, Hs.
  - by rewrite M_bind_eq, IH.
Qed.

End Until.

(** ** Triples

    From [P], a run ends in [Q], or is undefined when [ub] accepts it: with
    [ub := False] the run is also defined. *)
Definition hoare {W A} (ub : Prop) (P : W → Prop) (m : M W A) (Q : A → W → Prop) : Prop :=
  ∀ w, P w → match m w with Some (a, w') => Q a w' | None => ub end.

Section Hoare.
Context {W : Type} (ub : Prop).

Lemma hoare_ret {A} (a : A) (P : W → Prop) : hoare ub P (mret a) (λ b w, b = a ∧ P w).
Proof. by intros w Hw. Qed.

Lemma hoare_bind {A B} (R : A → W → Prop) P (m : M W A) (k : A → M W B) Q :
  hoare ub P m R → (∀ a, hoare ub (R a) (k a) Q) → hoare ub P (m ≫= k) Q.
Proof.
  intros Hm Hk w Hw. rewrite M_bind_eq. specialize (Hm w Hw).
  destruct (m w) as [[a w']|]; [by apply Hk|done].
Qed.

Lemma hoare_weaken {A} P P' (m : M W A) Q Q' :
  (∀ w, P' w → P w) → (∀ a w, Q a w → Q' a w) → hoare ub P m Q → hoare ub P' m Q'.
Proof.
  intros HP HQ Hm w Hw. specialize (Hm w (HP w Hw)). destruct (m w) as [[a w']|]; auto.
Qed.

Lemma hoare_pre {A} (φ : Prop) P (m : M W A) Q :
  (φ → hoare ub P m Q) → hoare ub (λ w, φ ∧ P w) m Q.
Proof. intros Hm w [Hφ Hw]. by apply Hm. Qed.

Lemma hoare_lift {A} (o : option A) (P : W → Prop) :
  (∀ w, P w → o = None → ub) → hoare ub P (lift o) (λ a w, o = Some a ∧ P w).
Proof. intros Ho w Hw. unfold lift. destruct o; [done|by eapply Ho]. Qed.

Lemma hoare_gets {A} (f : W → A) P : hoare ub P (gets f) (λ a w, a = f w ∧ P w).
Proof. by intros w Hw. Qed.

Lemma hoare_until {S R} (step : S → M W (S + R)) (P : Z → S → W → Prop) (Q : R → W → Prop) n s :
  (∀ k s, 0 < k → hoare ub (P k s) (step s)
     (λ r w, match r with inl s' => P (k - 1) s' w | inr r => Q r w end)) →
  hoare ub (P (Zpos n) s) (until step n s)
    (λ r w, match r with inl s' => P 0 s' w | inr r => Q r w end).
Proof.
  intros Hstep w Hw.
  assert (Hu := until_spec step ub P Q).
  assert (Hn : ∀ r w', match r with inl s' => P (Zpos n - Zpos n) s' w' | inr r => Q r w' end →
    match r with inl s' => P 0 s' w' | inr r => Q r w' end) by (intros [s'|r] w'; rewrite ?Z.sub_diag; done).
  specialize (Hu ltac:(intros k s' w' Hk HP; specialize (Hstep k s' Hk w' HP);
    destruct (step s' w') as [[[?|?] ?]|]; exact Hstep) n (Zpos n) s w ltac:(lia) Hw).
  destruct (until step n s w) as [[[s'|r] w']|]; [by apply (Hn (inl s'))|done..].
Qed.

End Hoare.

(** Runs that always end, from a state with the property to one with it. *)
Section Stays.
Context {W : Type}.
Definition stays {A} (P : W → Prop) (m : M W A) : Prop := hoare False P m (λ _, P).

Lemma stays_bind {A B} P (m : M W A) (k : A → M W B) :
  stays P m → (∀ a, stays P (k a)) → stays P (m ≫= k).
Proof. intros Hm Hk. eapply hoare_bind; [exact Hm|exact Hk]. Qed.
Lemma stays_ret {A} P (a : A) : stays P (mret a).
Proof. by intros w Hw. Qed.
Lemma stays_gets {A} P (f : W → A) : stays P (gets f).
Proof. by intros w Hw. Qed.
Lemma stays_modify P f : (∀ w, P w → P (f w)) → stays P (modify f).
Proof. intros Hf w Hw. by apply Hf. Qed.
End Stays.

Create HintDb stays.
#[export] Hint Resolve stays_ret stays_gets : stays.

(** One step per construct; a component adds its operations as hints. *)
Ltac stays_tac :=
  repeat first
  [ solve [auto with stays]
  | apply stays_bind; [|intros ?]
  | match goal with |- stays _ (if ?b then _ else _) => destruct b end
  | match goal with |- stays _ (match ?x with _ => _ end) => destruct x end ].
