(* ===== verification/Aka.v ===== *)
(** * MILENAGE and AES-128 (lib/usim_library/aka_functions.c)

    [Tables]: the two constant tables.  [Rijndael]: the cipher, loop by loop.
    [Milenage]: f1, f1*, f2-f5, f5*, OPc.  [Spec]: FIPS-197 and 3GPP TS 35.206
    written from the standards, on which the refinement theorems are stated.

    The file-scope array [roundKeys] is passed explicitly: the key schedule
    takes its old content and returns the new one.  Every array here has a
    constant size and every loop a constant range; the only data-dependent
    subscripts are [S[...]] and [Xtime[...]], whose arguments are [u8] values. *)
From S2P Require Import Prelude.

(** [l[i]] and [l[i] = v] for the fixed-size arrays of this file. *)
Definition at_ (l : list Z) (i : nat) : Z := nth i l 0.
Definition set_ (l : list Z) (i : nat) (v : Z) : list Z := <[i := v]> l.

(** [m[i][j]] and [m[i][j] = v] for the 4x4 byte matrices. *)
Abbreviation mat := (list (list Z)).
Definition mat_at (m : mat) (i j : nat) : Z := at_ (nth i m []) j.
Definition mat_set (m : mat) (i j : nat) (v : Z) : mat := alter (λ r, set_ r j v) i m.

(** [for (i = a; i < a + n; i++) s = f(i, s)]. *)
Definition for_ {A} (a n : nat) (f : nat → A → A) (s : A) : A :=
  foldl (λ s i, f i s) s (seq a n).

Module Tables.

Definition Sbox : list Z := [
  99; 124; 119; 123; 242; 107; 111; 197; 48; 1; 103; 43; 254; 215; 171; 118;
  202; 130; 201; 125; 250; 89; 71; 240; 173; 212; 162; 175; 156; 164; 114; 192;
  183; 253; 147; 38; 54; 63; 247; 204; 52; 165; 229; 241; 113; 216; 49; 21;
  4; 199; 35; 195; 24; 150; 5; 154; 7; 18; 128; 226; 235; 39; 178; 117;
  9; 131; 44; 26; 27; 110; 90; 160; 82; 59; 214; 179; 41; 227; 47; 132;
  83; 209; 0; 237; 32; 252; 177; 91; 106; 203; 190; 57; 74; 76; 88; 207;
  208; 239; 170; 251; 67; 77; 51; 133; 69; 249; 2; 127; 80; 60; 159; 168;
  81; 163; 64; 143; 146; 157; 56; 245; 188; 182; 218; 33; 16; 255; 243; 210;
  205; 12; 19; 236; 95; 151; 68; 23; 196; 167; 126; 61; 100; 93; 25; 115;
  96; 129; 79; 220; 34; 42; 144; 136; 70; 238; 184; 20; 222; 94; 11; 219;
  224; 50; 58; 10; 73; 6; 36; 92; 194; 211; 172; 98; 145; 149; 228; 121;
  231; 200; 55; 109; 141; 213; 78; 169; 108; 86; 244; 234; 101; 122; 174; 8;
  186; 120; 37; 46; 28; 166; 180; 198; 232; 221; 116; 31; 75; 189; 139; 138;
  112; 62; 181; 102; 72; 3; 246; 14; 97; 53; 87; 185; 134; 193; 29; 158;
  225; 248; 152; 17; 105; 217; 142; 148; 155; 30; 135; 233; 206; 85; 40; 223;
  140; 161; 137; 13; 191; 230; 66; 104; 65; 153; 45; 15; 176; 84; 187; 22].

Definition Xtime : list Z := [
  0; 2; 4; 6; 8; 10; 12; 14; 16; 18; 20; 22; 24; 26; 28; 30;
  32; 34; 36; 38; 40; 42; 44; 46; 48; 50; 52; 54; 56; 58; 60; 62;
  64; 66; 68; 70; 72; 74; 76; 78; 80; 82; 84; 86; 88; 90; 92; 94;
  96; 98; 100; 102; 104; 106; 108; 110; 112; 114; 116; 118; 120; 122; 124; 126;
  128; 130; 132; 134; 136; 138; 140; 142; 144; 146; 148; 150; 152; 154; 156; 158;
  160; 162; 164; 166; 168; 170; 172; 174; 176; 178; 180; 182; 184; 186; 188; 190;
  192; 194; 196; 198; 200; 202; 204; 206; 208; 210; 212; 214; 216; 218; 220; 222;
  224; 226; 228; 230; 232; 234; 236; 238; 240; 242; 244; 246; 248; 250; 252; 254;
  27; 25; 31; 29; 19; 17; 23; 21; 11; 9; 15; 13; 3; 1; 7; 5;
  59; 57; 63; 61; 51; 49; 55; 53; 43; 41; 47; 45; 35; 33; 39; 37;
  91; 89; 95; 93; 83; 81; 87; 85; 75; 73; 79; 77; 67; 65; 71; 69;
  123; 121; 127; 125; 115; 113; 119; 117; 107; 105; 111; 109; 99; 97; 103; 101;
  155; 153; 159; 157; 147; 145; 151; 149; 139; 137; 143; 141; 131; 129; 135; 133;
  187; 185; 191; 189; 179; 177; 183; 181; 171; 169; 175; 173; 163; 161; 167; 165;
  219; 217; 223; 221; 211; 209; 215; 213; 203; 201; 207; 205; 195; 193; 199; 197;
  251; 249; 255; 253; 243; 241; 247; 245; 235; 233; 239; 237; 227; 225; 231; 229].

(** [S[x]] and [Xtime[x]]. *)
Definition S_at (x : Z) : Z := at_ Sbox (Z.to_nat x).
Definition Xtime_at (x : Z) : Z := at_ Xtime (Z.to_nat x).

End Tables.
Import Tables.

Module Rijndael.

(** [u8 roundKeys[11][4][4]]. *)
Abbreviation roundKeys_t := (list (list (list Z))).
Definition rk_at (rk : roundKeys_t) (r i j : nat) : Z := mat_at (nth r rk []) i j.
Definition rk_set (rk : roundKeys_t) (r i j : nat) (v : Z) : roundKeys_t :=
  alter (λ m, mat_set m i j v) r rk.

(** One iteration of the schedule loop: row [i] of [roundKeys]. *)
Definition schedule_round (i : nat) (rc : Z) (rk : roundKeys_t) : roundKeys_t :=
  let p := (i - 1)%nat in
  let rk := rk_set rk i 0 0 (Z.lxor (Z.lxor (S_at (rk_at rk p 1 3)) (rk_at rk p 0 0)) rc) in
  let rk := rk_set rk i 1 0 (Z.lxor (S_at (rk_at rk p 2 3)) (rk_at rk p 1 0)) in
  let rk := rk_set rk i 2 0 (Z.lxor (S_at (rk_at rk p 3 3)) (rk_at rk p 2 0)) in
  let rk := rk_set rk i 3 0 (Z.lxor (S_at (rk_at rk p 0 3)) (rk_at rk p 3 0)) in
  for_ 0 4 (λ j rk,
    let rk := rk_set rk i j 1 (Z.lxor (rk_at rk p j 1) (rk_at rk i j 0)) in
    let rk := rk_set rk i j 2 (Z.lxor (rk_at rk p j 2) (rk_at rk i j 1)) in
    rk_set rk i j 3 (Z.lxor (rk_at rk p j 3) (rk_at rk i j 2))) rk.

Definition RijndaelKeySchedule (rk : roundKeys_t) (key : list Z) : roundKeys_t :=
  let rk := for_ 0 16 (λ i rk, rk_set rk 0 (i mod 4) (i / 4) (at_ key i)) rk in
  fst (for_ 1 10 (λ i st, (schedule_round i (snd st) (fst st), Xtime_at (snd st))) (rk, 1)).

Definition KeyAdd (st : mat) (rk : roundKeys_t) (round : nat) : mat :=
  for_ 0 4 (λ i st, for_ 0 4 (λ j st,
    mat_set st i j (Z.lxor (mat_at st i j) (rk_at rk round i j))) st) st.

Definition ByteSub (st : mat) : mat :=
  for_ 0 4 (λ i st, for_ 0 4 (λ j st, mat_set st i j (S_at (mat_at st i j))) st) st.

Definition ShiftRow (st : mat) : mat :=
  (* left rotate row 1 by 1 *)
  let temp := mat_at st 1 0 in
  let st := mat_set st 1 0 (mat_at st 1 1) in
  let st := mat_set st 1 1 (mat_at st 1 2) in
  let st := mat_set st 1 2 (mat_at st 1 3) in
  let st := mat_set st 1 3 temp in
  (* left rotate row 2 by 2 *)
  let temp := mat_at st 2 0 in
  let st := mat_set st 2 0 (mat_at st 2 2) in
  let st := mat_set st 2 2 temp in
  let temp := mat_at st 2 1 in
  let st := mat_set st 2 1 (mat_at st 2 3) in
  let st := mat_set st 2 3 temp in
  (* left rotate row 3 by 3 *)
  let temp := mat_at st 3 0 in
  let st := mat_set st 3 0 (mat_at st 3 3) in
  let st := mat_set st 3 3 (mat_at st 3 2) in
  let st := mat_set st 3 2 (mat_at st 3 1) in
  mat_set st 3 1 temp.

Definition MixColumn (st : mat) : mat :=
  for_ 0 4 (λ i st,
    let temp := Z.lxor (Z.lxor (Z.lxor (mat_at st 0 i) (mat_at st 1 i)) (mat_at st 2 i)) (mat_at st 3 i) in
    let tmp0 := mat_at st 0 i in
    let tmp := Xtime_at (Z.lxor (mat_at st 0 i) (mat_at st 1 i)) in
    let st := mat_set st 0 i (Z.lxor (mat_at st 0 i) (Z.lxor temp tmp)) in
    let tmp := Xtime_at (Z.lxor (mat_at st 1 i) (mat_at st 2 i)) in
    let st := mat_set st 1 i (Z.lxor (mat_at st 1 i) (Z.lxor temp tmp)) in
    let tmp := Xtime_at (Z.lxor (mat_at st 2 i) (mat_at st 3 i)) in
    let st := mat_set st 2 i (Z.lxor (mat_at st 2 i) (Z.lxor temp tmp)) in
    let tmp := Xtime_at (Z.lxor (mat_at st 3 i) tmp0) in
    mat_set st 3 i (Z.lxor (mat_at st 3 i) (Z.lxor temp tmp))) st.

(** A 4x4 local array; its indeterminate content is overwritten entirely. *)
Definition zero44 : mat := replicate 4 (replicate 4 0).

Definition RijndaelEncrypt (rk : roundKeys_t) (input : list Z) : list Z :=
  let st := for_ 0 16 (λ i st, mat_set st (i mod 4) (i / 4) (at_ input i)) zero44 in
  let st := KeyAdd st rk 0 in
  let st := for_ 1 9 (λ r st, KeyAdd (MixColumn (ShiftRow (ByteSub st))) rk r) st in
  let st := ByteSub st in
  let st := ShiftRow st in
  let st := KeyAdd st rk 10 in
  for_ 0 16 (λ i out, set_ out i (mat_at st (i mod 4) (i / 4))) (replicate 16 0).

End Rijndael.
Import Rijndael.

Module Milenage.

(** A local [u8 x[16]], entirely written before it is read. *)
Definition arr16 : list Z := replicate 16 0.

(** [RijndaelEncrypt(rand ^ op_c)], the first step of every function. *)
Definition mil_temp (rk : roundKeys_t) (rand op_c : list Z) : list Z :=
  RijndaelEncrypt rk
    (for_ 0 16 (λ i inp, set_ inp i (Z.lxor (at_ rand i) (at_ op_c i))) arr16).

(** [in1 = SQN || AMF || SQN || AMF]. *)
Definition mil_in1 (sqn amf : list Z) : list Z :=
  let in1 := for_ 0 6 (λ i in1, set_ (set_ in1 i (at_ sqn i)) (i + 8) (at_ sqn i)) arr16 in
  for_ 0 2 (λ i in1, set_ (set_ in1 (i + 6) (at_ amf i)) (i + 14) (at_ amf i)) in1.

(** The statements f1 and f1star share, up to [out1[i] ^= op_c[i]]. *)
Definition mil_out1 (rk : roundKeys_t) (rand sqn amf op_c : list Z) : list Z :=
  let temp := mil_temp rk rand op_c in
  let in1 := mil_in1 sqn amf in
  let inp := for_ 0 16 (λ i inp,
    set_ inp ((i + 8) mod 16) (Z.lxor (at_ in1 i) (at_ op_c i))) arr16 in
  let inp := for_ 0 16 (λ i inp, set_ inp i (Z.lxor (at_ inp i) (at_ temp i))) inp in
  let out1 := RijndaelEncrypt rk inp in
  for_ 0 16 (λ i out1, set_ out1 i (Z.lxor (at_ out1 i) (at_ op_c i))) out1.

(** The statements behind OUT2..OUT5: rotate by [sh], flip [c] in the last
    byte, encrypt, add OPc. *)
Definition mil_out (rk : roundKeys_t) (temp op_c : list Z) (sh : nat) (c : Z) : list Z :=
  let inp := for_ 0 16 (λ i inp,
    set_ inp ((i + sh) mod 16) (Z.lxor (at_ temp i) (at_ op_c i))) arr16 in
  let inp := set_ inp 15 (Z.lxor (at_ inp 15) c) in
  let out := RijndaelEncrypt rk inp in
  for_ 0 16 (λ i out, set_ out i (Z.lxor (at_ out i) (at_ op_c i))) out.

Definition f1 (rk : roundKeys_t) (k rand sqn amf op_c : list Z) : roundKeys_t * list Z :=
  let rk := RijndaelKeySchedule rk k in
  let out1 := mil_out1 rk rand sqn amf op_c in
  (rk, for_ 0 8 (λ i mac_a, set_ mac_a i (at_ out1 i)) (replicate 8 0)).

Definition f1star (rk : roundKeys_t) (k rand sqn amf op_c : list Z) : roundKeys_t * list Z :=
  let rk := RijndaelKeySchedule rk k in
  let out1 := mil_out1 rk rand sqn amf op_c in
  (rk, for_ 0 8 (λ i mac_s, set_ mac_s i (at_ out1 (i + 8))) (replicate 8 0)).

(** The outputs of [f2345]. *)
Record f2345_t := F2345 { f_res : list Z; f_ck : list Z; f_ik : list Z; f_ak : list Z }.

Definition f2345 (rk : roundKeys_t) (k rand op_c : list Z) : roundKeys_t * f2345_t :=
  let rk := RijndaelKeySchedule rk k in
  let temp := mil_temp rk rand op_c in
  let out := mil_out rk temp op_c 0 1 in
  let res := for_ 0 8 (λ i res, set_ res i (at_ out (i + 8))) (replicate 8 0) in
  let ak := for_ 0 6 (λ i ak, set_ ak i (at_ out i)) (replicate 6 0) in
  let out := mil_out rk temp op_c 12 2 in
  let ck := for_ 0 16 (λ i ck, set_ ck i (at_ out i)) arr16 in
  let out := mil_out rk temp op_c 8 4 in
  let ik := for_ 0 16 (λ i ik, set_ ik i (at_ out i)) arr16 in
  (rk, F2345 res ck ik ak).

Definition f5star (rk : roundKeys_t) (k rand op_c : list Z) : roundKeys_t * list Z :=
  let rk := RijndaelKeySchedule rk k in
  let temp := mil_temp rk rand op_c in
  let out := mil_out rk temp op_c 4 8 in
  (rk, for_ 0 6 (λ i ak, set_ ak i (at_ out i)) (replicate 6 0)).

(** Uses the round keys left by an earlier key schedule. *)
Definition ComputeOPc (rk : roundKeys_t) (OP : list Z) : list Z :=
  for_ 0 16 (λ i op_c, set_ op_c i (Z.lxor (at_ op_c i) (at_ OP i))) (RijndaelEncrypt rk OP).

End Milenage.
Import Milenage.

(** ** Specifications written from the standards *)
Module Spec.

(** FIPS-197, 4.2: multiplication in GF(2^8) modulo x^8+x^4+x^3+x+1. *)
Definition xtime (a : Z) : Z := if decide (a < 128) then 2 * a else Z.lxor (2 * a) 0x11b.

Fixpoint gmul (n : nat) (a b : Z) : Z :=
  match n with
  | O => 0
  | Datatypes.S n => Z.lxor (if Z.odd b then a else 0) (gmul n (xtime a) (b / 2))
  end.
Definition gf_mul (a b : Z) : Z := gmul 8 a b.

(** FIPS-197, 5.1.1: the affine map, bit by bit, with constant 0x63. *)
Definition affine_bit (a : Z) (i : Z) : Z :=
  Z.b2z (xorb (Z.testbit 0x63 i)
    (foldl xorb (Z.testbit a i)
       [Z.testbit a ((i + 4) mod 8); Z.testbit a ((i + 5) mod 8);
        Z.testbit a ((i + 6) mod 8); Z.testbit a ((i + 7) mod 8)])).
Definition affine (a : Z) : Z :=
  foldl (λ acc i, acc + Z.shiftl (affine_bit a i) i) 0 (seqZ 0 8).

(** [y] is the S-box image of [x]: the affine image of the inverse of [x]
    (of 0 for 0). *)
Definition is_sbox (x y : Z) : Prop :=
  ∃ inv, is_byte inv ∧ y = affine inv ∧
    (if decide (x = 0) then inv = 0 else gf_mul x inv = 1).

(** A 4x4 matrix from its entries. *)
Definition tab (f : nat → nat → Z) : mat :=
  (λ r, (λ c, f r c) <$> seq 0 4) <$> seq 0 4.

Definition AddRoundKey (st k : mat) : mat := tab (λ r c, Z.lxor (mat_at st r c) (mat_at k r c)).
Definition SubBytes (st : mat) : mat := tab (λ r c, S_at (mat_at st r c)).
Definition ShiftRows (st : mat) : mat := tab (λ r c, mat_at st r ((c + r) mod 4)).
(** FIPS-197, 5.1.3: each column times 03 x^3 + 01 x^2 + 01 x + 02. *)
Definition MixColumns (st : mat) : mat := tab (λ r c,
  Z.lxor (Z.lxor (gf_mul (mat_at st r c) 2) (gf_mul (mat_at st ((r + 1) mod 4) c) 3))
         (Z.lxor (mat_at st ((r + 2) mod 4) c) (mat_at st ((r + 3) mod 4) c))).

(** FIPS-197, 5.2: one round key from the one before; column 0 takes
    SubWord(RotWord(last column)) and the round constant. *)
Fixpoint next_col (p : mat) (rc : Z) (r c : nat) : Z :=
  Z.lxor (mat_at p r c)
    (match c with
     | O => Z.lxor (S_at (mat_at p ((r + 1) mod 4) 3)) (if decide (r = 0%nat) then rc else 0)
     | Datatypes.S c' => next_col p rc r c'
     end).
Definition next_key (p : mat) (rc : Z) : mat := tab (next_col p rc).
Definition mat_of (l : list Z) : mat := tab (λ r c, at_ l (4 * c + r)).
Definition of_mat (m : mat) : list Z := (λ i, mat_at m (i mod 4) (i / 4)) <$> seq 0 16.

(** The round constant x^(i-1) and the round key of round [i]. *)
Fixpoint rcon (i : nat) : Z :=
  match i with O => 1 | Datatypes.S i => xtime (rcon i) end.
Fixpoint round_key (key : list Z) (i : nat) : mat :=
  match i with O => mat_of key | Datatypes.S i => next_key (round_key key i) (rcon i) end.

(** FIPS-197, figure 5. *)
Definition Cipher (key input : list Z) : list Z :=
  let st := AddRoundKey (mat_of input) (round_key key 0) in
  let st := foldl (λ st r, AddRoundKey (MixColumns (ShiftRows (SubBytes st))) (round_key key r))
              st (seq 1 9) in
  of_mat (AddRoundKey (ShiftRows (SubBytes st)) (round_key key 10)).

(** TS 35.206, 4.1: [rot(x, 8*n)] on a 16-byte string, [xor], and the
    constants c1..c5 whose only non-zero byte is the last. *)
Definition rot (n : nat) (x : list Z) : list Z := drop n x ++ take n x.
Definition xor_ (x y : list Z) : list Z := zip_with Z.lxor x y.
Definition const_ (c : Z) : list Z := replicate 15 0 ++ [c].

Definition TEMP (E : list Z → list Z) (rand opc : list Z) : list Z := E (xor_ rand opc).
Definition OUT (E : list Z → list Z) (rand opc : list Z) (r : nat) (c : Z) : list Z :=
  xor_ (E (xor_ (rot r (xor_ (TEMP E rand opc) opc)) (const_ c))) opc.
Definition OUT1 (E : list Z → list Z) (rand opc sqn amf : list Z) : list Z :=
  let in1 := sqn ++ amf ++ sqn ++ amf in
  xor_ (E (xor_ (TEMP E rand opc) (rot 8 (xor_ in1 opc)))) opc.

End Spec.
