(* ===== verification/AkaSpec.v ===== *)
(** * Theorems on MILENAGE and AES-128

    The tables of aka_functions.c are the field operations they stand for,
    the cipher is FIPS-197's, it is injective under every key, and the f
    functions are those of TS 35.206. *)
From Stdlib Require Import Btauto.
From S2P Require Import Prelude Aka.
Import Tables Rijndael Milenage Spec.

(** ** Bytes and tables *)
Lemma byte_forall (P : Z → bool) :
  forallb P (seqZ 0 256) = true → ∀ a, is_byte a → P a = true.
Proof.
  intros H a [Ha1 Ha2]. rewrite forallb_forall in H. apply H.
  apply list_elem_of_In, elem_of_seqZ. lia.
Qed.

Lemma byte_forall2 (P : Z → Z → bool) :
  forallb (λ a, forallb (P a) (seqZ 0 256)) (seqZ 0 256) = true →
  ∀ a b, is_byte a → is_byte b → P a b = true.
Proof.
  intros H a b Ha Hb. apply (byte_forall _ (byte_forall _ H a Ha) b Hb).
Qed.

Definition byteb (x : Z) : bool := (0 <=? x) && (x <? 256).
Lemma byteb_spec x : byteb x = true ↔ is_byte x.
Proof. unfold byteb, is_byte. rewrite andb_true_iff. lia. Qed.

(** Split the conjuncts of a boolean check and read each as a proposition. *)
Ltac by_table H a Ha :=
  generalize (byte_forall _ H a Ha); rewrite ?andb_true_iff, ?Z.eqb_eq, ?byteb_spec; tauto.

Lemma Xtime_xtime a : is_byte a → Xtime_at a = xtime a.
Proof.
  assert (H : forallb (λ a, Xtime_at a =? xtime a) (seqZ 0 256) = true) by (vm_compute; reflexivity).
  intros Ha. by_table H a Ha.
Qed.

Lemma xtime_byte a : is_byte a → is_byte (xtime a).
Proof.
  assert (H : forallb (λ a, byteb (xtime a)) (seqZ 0 256) = true) by (vm_compute; reflexivity).
  intros Ha. by_table H a Ha.
Qed.

Lemma S_byte a : is_byte a → is_byte (S_at a).
Proof.
  assert (H : forallb (λ a, byteb (S_at a)) (seqZ 0 256) = true) by (vm_compute; reflexivity).
  intros Ha. by_table H a Ha.
Qed.

Lemma lxor_byte a b : is_byte a → is_byte b → is_byte (Z.lxor a b).
Proof.
  assert (H : forallb (λ a, forallb (λ b, byteb (Z.lxor a b)) (seqZ 0 256)) (seqZ 0 256) = true)
    by (vm_compute; reflexivity).
  intros Ha Hb. apply byteb_spec, (byte_forall2 _ H a b Ha Hb).
Qed.

Lemma xtime_lxor a b :
  is_byte a → is_byte b → xtime (Z.lxor a b) = Z.lxor (xtime a) (xtime b).
Proof.
  assert (H : forallb (λ a, forallb (λ b,
    xtime (Z.lxor a b) =? Z.lxor (xtime a) (xtime b)) (seqZ 0 256)) (seqZ 0 256) = true)
    by (vm_compute; reflexivity).
  intros Ha Hb. apply Z.eqb_eq, (byte_forall2 _ H a b Ha Hb).
Qed.

(** The inverse in GF(2^8) as the 254th power. *)
Definition gf_inv (a : Z) : Z :=
  let sq x := gf_mul x x in
  let a2 := sq a in let a4 := sq a2 in let a8 := sq a4 in let a16 := sq a8 in
  let a32 := sq a16 in let a64 := sq a32 in let a128 := sq a64 in
  gf_mul a128 (gf_mul a64 (gf_mul a32 (gf_mul a16 (gf_mul a8 (gf_mul a4 a2))))).

Lemma S_is_sbox a : is_byte a → is_sbox a (S_at a).
Proof.
  assert (H : forallb (λ a, byteb (gf_inv a) && (S_at a =? affine (gf_inv a)) &&
     (if decide (a = 0) then gf_inv a =? 0 else gf_mul a (gf_inv a) =? 1)) (seqZ 0 256) = true)
    by (vm_compute; reflexivity).
  intros Ha. generalize (byte_forall _ H a Ha).
  rewrite !andb_true_iff, byteb_spec, Z.eqb_eq. intros [[Hb Hs] Hi].
  exists (gf_inv a). repeat split; try apply Hb; [done|].
  by case_decide; apply Z.eqb_eq in Hi.
Qed.

(** The S box is injective: a left inverse by search. *)
Definition S_inv (y : Z) : Z :=
  default 0 (list_find (λ x, S_at x = y) (seqZ 0 256) ≫= λ p, Some (snd p)).
Lemma S_inv_S a : is_byte a → S_inv (S_at a) = a.
Proof.
  assert (H : forallb (λ a, S_inv (S_at a) =? a) (seqZ 0 256) = true) by (vm_compute; reflexivity).
  intros Ha. by_table H a Ha.
Qed.

(** ** Byte matrices *)
Definition is_mat (m : mat) : Prop := length m = 4%nat ∧ Forall (λ r, length r = 4%nat) m.
Definition byte_mat (m : mat) : Prop := is_mat m ∧ Forall (Forall is_byte) m.

Ltac destruct_list l n :=
  lazymatch n with
  | O => destruct l; [|discriminate]
  | S ?n => destruct l as [|? l]; [discriminate|]; destruct_list l n
  end.

(** Replace a matrix by its sixteen entries. *)
Lemma is_mat_inv m : is_mat m → ∃ a b c d e f g h i j k l n o p q,
  m = [[a; b; c; d]; [e; f; g; h]; [i; j; k; l]; [n; o; p; q]].
Proof.
  intros [H Hr]. destruct m as [|r0 [|r1 [|r2 [|r3 [|]]]]]; try discriminate.
  repeat match goal with H : Forall _ (_ :: _) |- _ => apply Forall_cons in H as [? H] end.
  destruct r0 as [|? [|? [|? [|? [|]]]]]; try discriminate.
  destruct r1 as [|? [|? [|? [|? [|]]]]]; try discriminate.
  destruct r2 as [|? [|? [|? [|? [|]]]]]; try discriminate.
  destruct r3 as [|? [|? [|? [|? [|]]]]]; try discriminate.
  by do 16 eexists.
Qed.

Lemma list16_inv (l : list Z) : length l = 16%nat → ∃ a b c d e f g h i j k m n o p q,
  l = [a; b; c; d; e; f; g; h; i; j; k; m; n; o; p; q].
Proof.
  intros H. do 16 (destruct l as [|? l]; [discriminate|]). destruct l; [|discriminate].
  by do 16 eexists.
Qed.

Ltac mat_cases H := let H' := fresh in pose proof (is_mat_inv _ H) as H';
  destruct H' as (?&?&?&?&?&?&?&?&?&?&?&?&?&?&?&?&->).
Ltac list16_cases H := let H' := fresh in pose proof (list16_inv _ H) as H';
  destruct H' as (?&?&?&?&?&?&?&?&?&?&?&?&?&?&?&?&->).

(** Unfold the array code but keep the arithmetic and the tables folded. *)
Ltac mat_eval :=
  cbv -[Z.lxor S_at Xtime_at xtime gf_mul is_byte].

Lemma KeyAdd_spec st rk r :
  is_mat st → KeyAdd st rk r = AddRoundKey st (nth r rk []).
Proof.
  intros H. mat_cases H. unfold KeyAdd, AddRoundKey, rk_at. generalize (nth r rk []) as k.
  intros k. unfold mat_at. set (K := λ i j, at_ (nth i k []) j).
  change (for_ 0 4 (λ i st, for_ 0 4 (λ j st,
     mat_set st i j (Z.lxor (mat_at st i j) (K i j))) st) [[x; x0; x1; x2]; [x3; x4; x5; x6]; [x7; x8; x9; x10]; [x11; x12; x13; x14]]
     = tab (λ r c, Z.lxor (mat_at [[x; x0; x1; x2]; [x3; x4; x5; x6]; [x7; x8; x9; x10]; [x11; x12; x13; x14]] r c) (K r c))).
  clearbody K. mat_eval. reflexivity.
Qed.

Lemma ByteSub_spec st : is_mat st → ByteSub st = SubBytes st.
Proof. intros H. mat_cases H. mat_eval. reflexivity. Qed.

Lemma ShiftRow_spec st : is_mat st → ShiftRow st = ShiftRows st.
Proof. intros H. mat_cases H. mat_eval. reflexivity. Qed.

(** Equalities of xor expressions, bit by bit. *)
Ltac lxor_solve := apply Z.bits_inj'; intros ?n _; rewrite ?Z.lxor_spec, ?Z.bits_0; btauto.

Lemma gf_mul_2 a : gf_mul a 2 = xtime a.
Proof. unfold gf_mul; cbn -[Z.lxor xtime]. rewrite ?Z.lxor_0_l, ?Z.lxor_0_r. done. Qed.
Lemma gf_mul_3 a : gf_mul a 3 = Z.lxor a (xtime a).
Proof. unfold gf_mul; cbn -[Z.lxor xtime]. rewrite ?Z.lxor_0_l, ?Z.lxor_0_r. done. Qed.

(** Equality of explicit lists, entry by entry. *)
Ltac list_split := repeat match goal with
  | |- _ :: _ = _ :: _ => apply (f_equal2 cons)
  | |- [] = [] => reflexivity
  end.

Ltac mat_bytes H := 
  repeat match type of H with Forall _ (_ :: _) => 
    let H1 := fresh "Hb" in apply Forall_cons in H as [H1 H] end; 
  repeat match goal with Hb : Forall is_byte (_ :: _) |- _ => 
    let H1 := fresh "B" in apply Forall_cons in Hb as [H1 Hb] end.

Create HintDb aes.
#[export] Hint Resolve S_byte lxor_byte xtime_byte : aes.

Lemma MixColumn_spec st : byte_mat st → MixColumn st = MixColumns st.
Proof.
  intros [H Hb]. mat_cases H. mat_bytes Hb.
  mat_eval. rewrite !gf_mul_2, !gf_mul_3.
  rewrite !Xtime_xtime by eauto with aes. rewrite !xtime_lxor by eauto with aes.
  list_split; lxor_solve.
Qed.

(** ** Shapes and byte ranges are preserved *)
Lemma is_mat_tab f : is_mat (tab f).
Proof. split; [done|]. repeat constructor. Qed.

Lemma byte_mat_tab f : (∀ r c, is_byte (f r c)) → byte_mat (tab f).
Proof. intros H. split; [apply is_mat_tab|]. repeat constructor; apply H. Qed.

Lemma at_byte l i : Forall is_byte l → is_byte (at_ l i).
Proof.
  intros H. unfold at_. destruct (nth_in_or_default i l 0) as [Hi| ->]; [|unfold is_byte; lia].
  rewrite List.Forall_forall in H. by apply H.
Qed.

Lemma mat_at_byte m r c : Forall (Forall is_byte) m → is_byte (mat_at m r c).
Proof.
  intros H. apply at_byte. destruct (nth_in_or_default r m []) as [Hi| ->]; [|constructor].
  rewrite List.Forall_forall in H. by apply H.
Qed.
#[export] Hint Resolve is_mat_tab at_byte mat_at_byte : aes.

Lemma gf_mul_2_byte a : is_byte a → is_byte (gf_mul a 2).
Proof. rewrite gf_mul_2. apply xtime_byte. Qed.
Lemma gf_mul_3_byte a : is_byte a → is_byte (gf_mul a 3).
Proof. rewrite gf_mul_3. eauto with aes. Qed.
#[export] Hint Resolve gf_mul_2_byte gf_mul_3_byte : aes.

Ltac byte_tab := intros [? ?]; apply byte_mat_tab; intros; eauto 10 with aes.

Lemma AddRoundKey_bytes st k : byte_mat st → byte_mat k → byte_mat (AddRoundKey st k).
Proof. intros [? ?]; byte_tab. Qed.
Lemma SubBytes_bytes st : byte_mat st → byte_mat (SubBytes st).
Proof. byte_tab. Qed.
Lemma ShiftRows_bytes st : byte_mat st → byte_mat (ShiftRows st).
Proof. byte_tab. Qed.
Lemma MixColumns_bytes st : byte_mat st → byte_mat (MixColumns st).
Proof. byte_tab. Qed.
Lemma mat_of_bytes l : Forall is_byte l → byte_mat (mat_of l).
Proof. intros; apply byte_mat_tab; eauto with aes. Qed.
#[export] Hint Resolve AddRoundKey_bytes SubBytes_bytes ShiftRows_bytes
  MixColumns_bytes mat_of_bytes : aes.

Lemma next_col_byte p rc r c : byte_mat p → is_byte rc → is_byte (next_col p rc r c).
Proof.
  intros [Hp Hb] Hrc. assert (is_byte 0) by (unfold is_byte; lia).
  induction c as [|c IH]; simpl; [|eauto with aes].
  case_decide; eauto 10 with aes.
Qed.

Lemma rcon_byte i : is_byte (rcon i).
Proof. induction i; simpl; [unfold is_byte; lia|eauto with aes]. Qed.

Lemma round_key_bytes key i : Forall is_byte key → byte_mat (round_key key i).
Proof.
  intros H. induction i; simpl; [eauto with aes|].
  apply byte_mat_tab; intros; apply next_col_byte; [done|apply rcon_byte].
Qed.
#[export] Hint Resolve rcon_byte round_key_bytes : aes.

Lemma byte_mat_is_mat m : byte_mat m → is_mat m.
Proof. by intros [? ?]. Qed.
#[export] Hint Resolve byte_mat_is_mat : aes.

(** ** Key schedule *)
Definition rk_shape (rk : roundKeys_t) : Prop := length rk = 11%nat ∧ Forall is_mat rk.

(** One iteration of the loop writes row [i] only, from row [i-1]. *)
Lemma schedule_round_spec i rc rk :
  (1 ≤ i ≤ 10)%nat → rk_shape rk →
  schedule_round i rc rk = <[i := next_key (nth (i - 1) rk []) rc]> rk.
Proof.
  intros Hi [Hl Hm].
  do 11 (destruct rk as [|? rk]; [discriminate|]). destruct rk; [|discriminate].
  repeat match goal with H : Forall is_mat (_ :: _) |- _ => apply Forall_cons in H as [? H] end.
  do 11 (destruct i as [|i]; [first [lia|
    match goal with |- context [schedule_round ?n rc [?m0; ?m1; ?m2; ?m3; ?m4; ?m5; ?m6; ?m7; ?m8; ?m9; ?m10]] =>
      let l := constr:([m0; m1; m2; m3; m4; m5; m6; m7; m8; m9; m10]) in
      let p := eval cbv in (nth (n - 1) l []) in
      let q := eval cbv in (nth n l []) in
      match goal with Hp : is_mat p, Hq : is_mat q |- _ => mat_cases Hp; mat_cases Hq end
    end; mat_eval; list_split; lxor_solve || reflexivity]|]).
  lia.
Qed.

Lemma rk_shape_app l d :
  Forall is_mat l → Forall is_mat d → (length l + length d = 11)%nat → rk_shape (l ++ d).
Proof. intros. split; [rewrite length_app; lia|by apply Forall_app]. Qed.

Lemma round_key_is_mat key i : is_mat (round_key key i).
Proof. destruct i; apply is_mat_tab. Qed.
#[export] Hint Resolve round_key_is_mat : aes.

Lemma first_round_key rk key :
  rk_shape rk → length key = 16%nat →
  for_ 0 16 (λ i rk, rk_set rk 0 (i mod 4) (i / 4) (at_ key i)) rk = round_key key 0 :: drop 1 rk.
Proof.
  intros [Hl Hm] Hk. list16_cases Hk. destruct rk as [|m rk]; [done|].
  apply Forall_cons in Hm as [H _]. mat_cases H. mat_eval. reflexivity.
Qed.

(** After [n] rounds: [n + 1] finished keys and the next round constant. *)
Lemma schedule_loop key (d : roundKeys_t) n :
  (n ≤ 10)%nat → length d = 10%nat → Forall is_mat d →
  for_ 1 n (λ i st, (schedule_round i (snd st) (fst st), Xtime_at (snd st)))
    (round_key key 0 :: d, 1) =
  ((round_key key <$> seq 0 (S n)) ++ drop n d, rcon n).
Proof.
  intros Hn Hd Hm. induction n as [|n IH]; [done|].
  unfold for_ in *. rewrite seq_S, foldl_app, IH by lia. clear IH. cbn [foldl fst snd].
  rewrite Xtime_xtime by eauto with aes. f_equal.
  rewrite schedule_round_spec; [|lia|].
  2: { apply rk_shape_app.
       - apply Forall_fmap, Forall_forall; intros; apply round_key_is_mat.
       - by apply Forall_drop.
       - rewrite length_fmap, length_seq, length_drop. lia. }
  destruct (lookup_lt_is_Some_2 d n) as [x Hx]; [lia|].
  rewrite (drop_S _ _ _ Hx), (seq_S (S n)), fmap_app, <- app_assoc.
  assert (Hlen : length (round_key key <$> seq 0 (S n)) = S n)
    by by rewrite length_fmap, length_seq.
  rewrite insert_mid by (rewrite Hlen; lia). f_equal. cbn [app]. f_equal.
  rewrite app_nth1 by lia. rewrite (nth_indep _ _ (round_key key 0)) by lia.
  change (round_key key <$> seq 0 (S n)) with (map (round_key key) (seq 0 (S n))).
  rewrite map_nth, seq_nth by lia. by replace (0 + (1 + n - 1))%nat with n by lia.
Qed.

(** The schedule overwrites the global array entirely: its result depends on
    the key alone. *)
Lemma RijndaelKeySchedule_spec rk key :
  rk_shape rk → length key = 16%nat →
  RijndaelKeySchedule rk key = round_key key <$> seq 0 11.
Proof.
  intros Hrk Hk. unfold RijndaelKeySchedule. rewrite first_round_key by done.
  destruct Hrk as [Hl Hm].
  rewrite schedule_loop; [|lia|rewrite length_drop; lia|by apply Forall_drop].
  cbn [fst]. rewrite drop_ge by (rewrite length_drop; lia). by rewrite app_nil_r.
Qed.

(** ** The cipher *)

(** Two folds that agree on an invariant. *)
Lemma foldl_agree {A B} (P : A → Prop) (f g : A → B → A) l s :
  P s → (∀ s x, P s → f s x = g s x ∧ P (g s x)) →
  foldl f s l = foldl g s l ∧ P (foldl g s l).
Proof.
  intros Hs H. revert s Hs. induction l as [|x l IH]; intros s Hs; [done|].
  simpl. destruct (H s x Hs) as [-> HP]. by apply IH.
Qed.

Lemma input_state input :
  length input = 16%nat →
  for_ 0 16 (λ i st, mat_set st (i mod 4) (i / 4) (at_ input i)) zero44 = mat_of input.
Proof. intros H. list16_cases H. mat_eval. reflexivity. Qed.

Lemma output_bytes st :
  for_ 0 16 (λ i out, set_ out i (mat_at st (i mod 4) (i / 4))) (replicate 16 0) = of_mat st.
Proof. cbv -[mat_at]. reflexivity. Qed.

(** One full round of the code is one full round of the standard. *)
Lemma round_spec rk r st :
  byte_mat st → KeyAdd (MixColumn (ShiftRow (ByteSub st))) rk r =
  AddRoundKey (MixColumns (ShiftRows (SubBytes st))) (nth r rk []).
Proof.
  intros H. rewrite ByteSub_spec, ShiftRow_spec by eauto with aes.
  rewrite MixColumn_spec by eauto with aes. rewrite KeyAdd_spec; eauto with aes.
Qed.

Definition rk_bytes (rk : roundKeys_t) : Prop := ∀ r, (r ≤ 10)%nat → byte_mat (nth r rk []).

(** The cipher on arbitrary round keys, without the loops of the code. *)
Definition encrypt_with (k : nat → mat) (input : list Z) : list Z :=
  let st := AddRoundKey (mat_of input) (k 0%nat) in
  let st := foldl (λ st r, AddRoundKey (MixColumns (ShiftRows (SubBytes st))) (k r)) st (seq 1 9) in
  of_mat (AddRoundKey (ShiftRows (SubBytes st)) (k 10%nat)).

Lemma RijndaelEncrypt_with rk input :
  rk_bytes rk → length input = 16%nat → Forall is_byte input →
  RijndaelEncrypt rk input = encrypt_with (λ r, nth r rk []) input.
Proof.
  intros Hrk Hl Hb. unfold RijndaelEncrypt, encrypt_with.
  rewrite input_state by done. rewrite (KeyAdd_spec (mat_of input)) by eauto with aes.
  assert (H0 : byte_mat (AddRoundKey (mat_of input) (nth 0 rk []))) by
    (apply AddRoundKey_bytes; [eauto with aes|apply Hrk; lia]).
  assert (Hloop : ∀ n st, (n ≤ 9)%nat → byte_mat st →
    for_ 1 n (λ r st, KeyAdd (MixColumn (ShiftRow (ByteSub st))) rk r) st =
    foldl (λ st r, AddRoundKey (MixColumns (ShiftRows (SubBytes st))) (nth r rk [])) st (seq 1 n) ∧
    byte_mat (foldl (λ st r, AddRoundKey (MixColumns (ShiftRows (SubBytes st))) (nth r rk [])) st (seq 1 n))).
  { intros n st Hn Hst. unfold for_. induction n as [|n IH]; [done|].
    rewrite seq_S, !foldl_app. destruct IH as [-> IH]; [lia|]. cbn [foldl].
    split; [by apply round_spec|].
    apply AddRoundKey_bytes; [eauto with aes|apply Hrk; lia]. }
  destruct (Hloop 9%nat _ (le_n _) H0) as [-> H9].
  rewrite ByteSub_spec, ShiftRow_spec, KeyAdd_spec by eauto with aes.
  apply output_bytes.
Qed.

Lemma schedule_rk_bytes rk key :
  rk_shape rk → length key = 16%nat → Forall is_byte key →
  rk_bytes (RijndaelKeySchedule rk key).
Proof.
  intros Hs Hl Hb r Hr. rewrite RijndaelKeySchedule_spec by done.
  rewrite (nth_indep _ _ (round_key key 0)) by (rewrite length_fmap, length_seq; lia).
  change (round_key key <$> seq 0 11) with (map (round_key key) (seq 0 11)).
  rewrite map_nth, seq_nth by lia. eauto with aes.
Qed.

Lemma schedule_nth rk key r :
  rk_shape rk → length key = 16%nat → (r ≤ 10)%nat →
  nth r (RijndaelKeySchedule rk key) [] = round_key key r.
Proof.
  intros Hs Hl Hr. rewrite RijndaelKeySchedule_spec by done.
  do 11 (destruct r as [|r]; [reflexivity|]). lia.
Qed.

Lemma encrypt_cipher rk key input :
  rk_shape rk → length key = 16%nat → Forall is_byte key →
  length input = 16%nat → Forall is_byte input →
  RijndaelEncrypt (RijndaelKeySchedule rk key) input = Cipher key input.
Proof.
  intros Hs Hk Hkb Hi Hib. rewrite RijndaelEncrypt_with by eauto using schedule_rk_bytes.
  unfold encrypt_with, Cipher. rewrite !schedule_nth by (done || lia).
  do 2 f_equal. f_equal. f_equal.
  assert (H : ∀ n st, (n ≤ 9)%nat →
    foldl (λ st r, AddRoundKey (MixColumns (ShiftRows (SubBytes st)))
             (nth r (RijndaelKeySchedule rk key) [])) st (seq 1 n) =
    foldl (λ st r, AddRoundKey (MixColumns (ShiftRows (SubBytes st))) (round_key key r)) st (seq 1 n)).
  { intros n st Hn. induction n as [|n IH]; [done|].
    rewrite seq_S, !foldl_app, IH by lia. cbn [foldl]. by rewrite schedule_nth by (done || lia). }
  by apply H.
Qed.

(** ** Inverting the cipher *)
Definition InvSubBytes (st : mat) : mat := tab (λ r c, S_inv (mat_at st r c)).
Definition InvShiftRows (st : mat) : mat := ShiftRows (ShiftRows (ShiftRows st)).
Definition InvMixColumns (st : mat) : mat := MixColumns (MixColumns (MixColumns st)).
Definition InvRound (k st : mat) : mat :=
  InvSubBytes (InvShiftRows (InvMixColumns (AddRoundKey st k))).
Definition InvCipher (k : nat → mat) (out : list Z) : list Z :=
  let st := InvSubBytes (InvShiftRows (AddRoundKey (mat_of out) (k 10%nat))) in
  of_mat (AddRoundKey (foldl (λ st r, InvRound (k r) st) st (rev (seq 1 9))) (k 0%nat)).

Lemma tab_eta m : is_mat m → tab (mat_at m) = m.
Proof. intros H. mat_cases H. reflexivity. Qed.

Lemma AddRoundKey_inv st k : is_mat st → AddRoundKey (AddRoundKey st k) k = st.
Proof.
  intros H. mat_cases H. unfold AddRoundKey. set (K := mat_at k). clearbody K.
  mat_eval. list_split; lxor_solve.
Qed.

Lemma ShiftRows_inv st : is_mat st → InvShiftRows (ShiftRows st) = st.
Proof. intros H. mat_cases H. reflexivity. Qed.

Lemma SubBytes_inv st : byte_mat st → InvSubBytes (SubBytes st) = st.
Proof.
  intros [H Hb]. mat_cases H. mat_bytes Hb. cbv -[S_inv S_at is_byte].
  by rewrite !S_inv_S.
Qed.

(** Applying MixColumns twice leaves only the entries two rows apart. *)
Lemma MixColumns_2 st : byte_mat st → MixColumns (MixColumns st) = tab (λ r c,
  Z.lxor (mat_at st r c) (Z.lxor (xtime (xtime (mat_at st r c)))
                                 (xtime (xtime (mat_at st ((r + 2) mod 4) c))))).
Proof.
  intros [H Hb]. mat_cases H. mat_bytes Hb. mat_eval.
  rewrite !gf_mul_2, !gf_mul_3. rewrite !xtime_lxor by eauto 8 with aes.
  list_split; lxor_solve.
Qed.

Lemma MixColumns_inv st : byte_mat st → InvMixColumns (MixColumns st) = st.
Proof.
  intros Hst. unfold InvMixColumns.
  rewrite (MixColumns_2 (MixColumns (MixColumns st))) by eauto with aes.
  rewrite MixColumns_2 by done. destruct Hst as [H Hb]. mat_cases H. mat_bytes Hb. mat_eval.
  rewrite !xtime_lxor by eauto 10 with aes. list_split; lxor_solve.
Qed.

Lemma mat_of_of_mat st : is_mat st → mat_of (of_mat st) = st.
Proof. intros H. mat_cases H. reflexivity. Qed.
Lemma of_mat_mat_of l : length l = 16%nat → of_mat (mat_of l) = l.
Proof. intros H. list16_cases H. reflexivity. Qed.

Lemma InvRound_round st k :
  byte_mat st → byte_mat k →
  InvRound k (AddRoundKey (MixColumns (ShiftRows (SubBytes st))) k) = st.
Proof.
  intros Hst Hk. unfold InvRound.
  rewrite AddRoundKey_inv, MixColumns_inv, ShiftRows_inv, SubBytes_inv; eauto with aes.
Qed.

Lemma rounds_inv k n st :
  (∀ r, byte_mat (k r)) → byte_mat st →
  byte_mat (foldl (λ st r, AddRoundKey (MixColumns (ShiftRows (SubBytes st))) (k r)) st (seq 1 n)) ∧
  foldl (λ st r, InvRound (k r) st)
    (foldl (λ st r, AddRoundKey (MixColumns (ShiftRows (SubBytes st))) (k r)) st (seq 1 n))
    (rev (seq 1 n)) = st.
Proof.
  intros Hk Hst. induction n as [|n IH]; [done|].
  rewrite seq_S, foldl_app, rev_unit. destruct IH as [IHb IH]. cbn [foldl].
  split; [eauto with aes|]. by rewrite InvRound_round.
Qed.

Lemma encrypt_with_inv k input :
  (∀ r, byte_mat (k r)) → length input = 16%nat → Forall is_byte input →
  InvCipher k (encrypt_with k input) = input.
Proof.
  intros Hk Hl Hb. unfold InvCipher, encrypt_with.
  set (s0 := AddRoundKey (mat_of input) (k 0%nat)).
  assert (H0 : byte_mat s0) by (unfold s0; eauto with aes).
  destruct (rounds_inv k 9 s0 Hk H0) as [H9 Hinv].
  rewrite mat_of_of_mat by eauto with aes.
  rewrite AddRoundKey_inv, ShiftRows_inv, SubBytes_inv by eauto with aes.
  rewrite Hinv. unfold s0. rewrite AddRoundKey_inv by eauto with aes.
  by apply of_mat_mat_of.
Qed.

(** ** MILENAGE *)
Lemma list8_inv (l : list Z) : length l = 8%nat → ∃ a b c d e f g h, l = [a; b; c; d; e; f; g; h].
Proof.
  intros H. do 8 (destruct l as [|? l]; [discriminate|]). destruct l; [|discriminate].
  by do 8 eexists.
Qed.

Lemma RijndaelEncrypt_length rk input : length (RijndaelEncrypt rk input) = 16%nat.
Proof.
  unfold RijndaelEncrypt. rewrite output_bytes. done.
Qed.

Lemma mil_temp_spec rk rand opc :
  length rand = 16%nat → length opc = 16%nat →
  mil_temp rk rand opc = TEMP (RijndaelEncrypt rk) rand opc.
Proof.
  intros H1 H2. unfold mil_temp, TEMP. f_equal. list16_cases H1. list16_cases H2. reflexivity.
Qed.

(** The last loop of each function: xor with OPc in place. *)
Lemma xor_opc out opc :
  length out = 16%nat → length opc = 16%nat →
  for_ 0 16 (λ i out, set_ out i (Z.lxor (at_ out i) (at_ opc i))) out = xor_ out opc.
Proof. intros H1 H2. list16_cases H1. list16_cases H2. reflexivity. Qed.

(** The C rotation [(i + sh) % 16] against the standard's left rotation. *)
Lemma mil_out_spec rk rand opc sh r c :
  length rand = 16%nat → length opc = 16%nat →
  (sh, r) ∈ [(0, 0); (12, 4); (8, 8); (4, 12)]%nat →
  mil_out rk (mil_temp rk rand opc) opc sh c = OUT (RijndaelEncrypt rk) rand opc r c.
Proof.
  intros H1 H2 Hr. unfold mil_out, OUT. rewrite xor_opc by (done || apply RijndaelEncrypt_length).
  f_equal. f_equal. rewrite mil_temp_spec by done.
  assert (Ht : length (TEMP (RijndaelEncrypt rk) rand opc) = 16%nat) by apply RijndaelEncrypt_length.
  revert Ht. generalize (TEMP (RijndaelEncrypt rk) rand opc) as t. intros t Ht.
  list16_cases Ht. list16_cases H2. 
  repeat (apply elem_of_cons in Hr as [[= -> ->]|Hr]);
    [cbv -[Z.lxor]; list_split; rewrite ?Z.lxor_0_r; reflexivity..|].
  by apply elem_of_nil in Hr.
Qed.

Lemma mil_out1_spec rk rand sqn amf opc :
  length rand = 16%nat → length opc = 16%nat → length sqn = 6%nat → length amf = 2%nat →
  mil_out1 rk rand sqn amf opc = OUT1 (RijndaelEncrypt rk) rand opc sqn amf.
Proof.
  intros H1 H2 H3 H4. unfold mil_out1, OUT1.
  rewrite xor_opc by (done || apply RijndaelEncrypt_length). f_equal. f_equal.
  rewrite mil_temp_spec by done.
  assert (Ht : length (TEMP (RijndaelEncrypt rk) rand opc) = 16%nat) by apply RijndaelEncrypt_length.
  revert Ht. generalize (TEMP (RijndaelEncrypt rk) rand opc) as t. intros t Ht.
  list16_cases Ht. list16_cases H2.
  do 6 (destruct sqn as [|? sqn]; [discriminate|]). destruct sqn; [|discriminate].
  do 2 (destruct amf as [|? amf]; [discriminate|]). destruct amf; [|discriminate].
  cbv -[Z.lxor]. list_split; apply Z.lxor_comm.
Qed.

Lemma OUT1_length E rand opc sqn amf :
  length opc = 16%nat → (∀ x, length (E x) = 16%nat) → length (OUT1 E rand opc sqn amf) = 16%nat.
Proof. intros H HE. unfold OUT1, xor_. rewrite length_zip_with, HE. lia. Qed.
Lemma OUT_length E rand opc r c :
  length opc = 16%nat → (∀ x, length (E x) = 16%nat) → length (OUT E rand opc r c) = 16%nat.
Proof. intros H HE. unfold OUT, xor_. rewrite length_zip_with, HE. lia. Qed.

(** The output loops copy slices. *)
Ltac out_slice H := list16_cases H; reflexivity.

Lemma f1_out rk k rand sqn amf opc :
  length rand = 16%nat → length opc = 16%nat → length sqn = 6%nat → length amf = 2%nat →
  let O1 := OUT1 (RijndaelEncrypt (RijndaelKeySchedule rk k)) rand opc sqn amf in
  snd (f1 rk k rand sqn amf opc) = take 8 O1 ∧ snd (f1star rk k rand sqn amf opc) = drop 8 O1.
Proof.
  intros H1 H2 H3 H4. unfold f1, f1star. cbn [snd]. rewrite mil_out1_spec by done. cbv zeta.
  set (E := RijndaelEncrypt (RijndaelKeySchedule rk k)).
  assert (HO : length (OUT1 E rand opc sqn amf) = 16%nat)
    by (apply OUT1_length; [done|apply RijndaelEncrypt_length]).
  revert HO. generalize (OUT1 E rand opc sqn amf). intros O HO. split; out_slice HO.
Qed.

Lemma f2345_out rk k rand opc :
  length rand = 16%nat → length opc = 16%nat →
  let O := OUT (RijndaelEncrypt (RijndaelKeySchedule rk k)) rand opc in
  snd (f2345 rk k rand opc) =
    F2345 (drop 8 (O 0%nat 1)) (O 4%nat 2) (O 8%nat 4) (take 6 (O 0%nat 1)) ∧
  snd (f5star rk k rand opc) = take 6 (O 12%nat 8).
Proof.
  intros H1 H2 O. unfold f2345, f5star. cbn [snd].
  rewrite (mil_out_spec _ _ _ 0 0), (mil_out_spec _ _ _ 12 4), (mil_out_spec _ _ _ 8 8),
    (mil_out_spec _ _ _ 4 12) by (done || set_solver).
  fold O.
  assert (HO : ∀ r c, length (O r c) = 16%nat)
    by (intros; apply OUT_length; [done|apply RijndaelEncrypt_length]).
  clearbody O. split.
  - f_equal.
    + generalize (HO 0%nat 1). generalize (O 0%nat 1). intros o Ho. out_slice Ho.
    + generalize (HO 4%nat 2). generalize (O 4%nat 2). intros o Ho. out_slice Ho.
    + generalize (HO 8%nat 4). generalize (O 8%nat 4). intros o Ho. out_slice Ho.
    + generalize (HO 0%nat 1). generalize (O 0%nat 1). intros o Ho. out_slice Ho.
  - generalize (HO 12%nat 8). generalize (O 12%nat 8). intros o Ho. out_slice Ho.
Qed.
