(* ===== verification/AkaCorrect.v ===== *)
(** * AES and MILENAGE: the theorems
      (lib/usim_library/aka_functions.c)

    The code against FIPS-197 and 3GPP TS 35.206, at the test vectors of those
    documents. *)
From S2P Require Import Prelude Aka AkaSpec.
Import Tables Rijndael Milenage Spec.

(** ** Bytes and lengths through MILENAGE *)
Lemma encrypt_with_bytes k input :
  (∀ r, byte_mat (k r)) → length input = 16%nat → Forall is_byte input →
  Forall is_byte (encrypt_with k input) ∧ length (encrypt_with k input) = 16%nat.
Proof.
  intros Hk Hl Hb. unfold encrypt_with.
  assert (Hst : byte_mat (foldl (λ st r, AddRoundKey (MixColumns (ShiftRows (SubBytes st))) (k r))
      (AddRoundKey (mat_of input) (k 0%nat)) (seq 1 9)))
    by (apply (rounds_inv k 9); auto with aes).
  split; [|reflexivity]. unfold of_mat.
  apply Forall_fmap, Forall_forall. intros i _. cbn [compose].
  apply mat_at_byte. assert (Hm : byte_mat (AddRoundKey (ShiftRows (SubBytes
    (foldl (λ st r, AddRoundKey (MixColumns (ShiftRows (SubBytes st))) (k r))
      (AddRoundKey (mat_of input) (k 0%nat)) (seq 1 9)))) (k 10%nat))) by auto with aes.
  apply Hm.
Qed.

Lemma Cipher_with key input : Cipher key input = encrypt_with (round_key key) input.
Proof. reflexivity. Qed.

Lemma Cipher_bytes key input :
  Forall is_byte key → length input = 16%nat → Forall is_byte input →
  Forall is_byte (Cipher key input) ∧ length (Cipher key input) = 16%nat.
Proof. intros. rewrite Cipher_with. apply encrypt_with_bytes; auto with aes. Qed.

Definition block (x : list Z) : Prop := length x = 16%nat ∧ Forall is_byte x.

Lemma xor_block x y : block x → block y → block (xor_ x y).
Proof.
  intros [Hx Bx] [Hy By]. unfold xor_. split; [rewrite length_zip_with; lia|].
  apply Forall_forall. intros z Hz. apply elem_of_lookup_zip_with in Hz as (i & a & b & -> & Ha & Hb).
  apply lxor_byte; [eapply Forall_lookup_1 in Ha|eapply Forall_lookup_1 in Hb]; eauto.
Qed.

Lemma rot_block n x : block x → block (rot n x).
Proof.
  intros [Hx Bx]. unfold rot. split; [rewrite length_app, length_drop, length_take; lia|].
  apply Forall_app; split; [by apply Forall_drop|by apply Forall_take].
Qed.

Lemma const_block c : is_byte c → block (const_ c).
Proof. intros Hc. split; [done|]. unfold const_. repeat constructor; by destruct Hc. Qed.

Lemma Cipher_block key x : Forall is_byte key → block x → block (Cipher key x).
Proof. intros Hk [Hl Hb]. destruct (Cipher_bytes key x) as [? ?]; done. Qed.

Create HintDb mil.
#[export] Hint Resolve xor_block rot_block const_block Cipher_block : mil.

(** The MILENAGE outputs only depend on the cipher at blocks. *)
Lemma OUT_ext E F rand opc r c :
  (∀ x, block x → E x = F x) → (∀ x, block x → block (F x)) →
  block rand → block opc → is_byte c → OUT E rand opc r c = OUT F rand opc r c.
Proof.
  intros HE HF Hr Ho Hc. unfold OUT, TEMP.
  rewrite (HE (xor_ rand opc)) by auto with mil.
  rewrite HE by auto 10 with mil. done.
Qed.
Lemma OUT1_ext E F rand opc sqn amf :
  (∀ x, block x → E x = F x) → (∀ x, block x → block (F x)) →
  block rand → block opc → block (sqn ++ amf ++ sqn ++ amf) →
  OUT1 E rand opc sqn amf = OUT1 F rand opc sqn amf.
Proof.
  intros HE HF Hr Ho Hin. unfold OUT1, TEMP.
  rewrite (HE (xor_ rand opc)) by auto with mil.
  rewrite HE by auto 10 with mil. done.
Qed.

Lemma encrypt_is_cipher rk key :
  rk_shape rk → block key →
  ∀ x, block x → RijndaelEncrypt (RijndaelKeySchedule rk key) x = Cipher key x.
Proof. intros Hrk [Hl Hb] x [Hx Bx]. by apply encrypt_cipher. Qed.

(** The five functions on the cipher. *)
Lemma f1_cipher rk key rand sqn amf opc :
  rk_shape rk → block key → block rand → block opc →
  length sqn = 6%nat → length amf = 2%nat → Forall is_byte sqn → Forall is_byte amf →
  snd (f1 rk key rand sqn amf opc) = take 8 (OUT1 (Cipher key) rand opc sqn amf) ∧
  snd (f1star rk key rand sqn amf opc) = drop 8 (OUT1 (Cipher key) rand opc sqn amf).
Proof.
  intros Hrk Hk Hr Ho Hs Ha Bs Ba.
  destruct (f1_out rk key rand sqn amf opc) as [-> ->]; try apply Hr; try apply Ho; [done..|].
  rewrite (OUT1_ext _ (Cipher key)); [done| |..]; try done.
  - by apply encrypt_is_cipher.
  - intros x. apply Cipher_block, Hk.
  - split; [rewrite !length_app; lia|]. by repeat (apply Forall_app; split).
Qed.

Lemma f2345_cipher rk key rand opc :
  rk_shape rk → block key → block rand → block opc →
  let O := OUT (Cipher key) rand opc in
  snd (f2345 rk key rand opc) =
    F2345 (drop 8 (O 0%nat 1)) (O 4%nat 2) (O 8%nat 4) (take 6 (O 0%nat 1)) ∧
  snd (f5star rk key rand opc) = take 6 (O 12%nat 8).
Proof.
  intros Hrk Hk Hr Ho. cbv zeta.
  destruct (f2345_out rk key rand opc) as [-> ->]; [apply Hr|apply Ho|].
  assert (Heq : ∀ r c, is_byte c →
    OUT (RijndaelEncrypt (RijndaelKeySchedule rk key)) rand opc r c = OUT (Cipher key) rand opc r c).
  { intros r c Hc. apply OUT_ext; try done; [by apply encrypt_is_cipher|].
    intros x. apply Cipher_block, Hk. }
  by rewrite !Heq by (unfold is_byte; lia).
Qed.


Lemma schedule_shape rk key :
  rk_shape rk → length key = 16%nat → rk_shape (RijndaelKeySchedule rk key).
Proof.
  intros Hrk Hl. rewrite RijndaelKeySchedule_spec by done. split; [done|].
  apply Forall_fmap, Forall_forall. intros i _. apply round_key_is_mat.
Qed.

(** ** Theorems *)

(** C37: the key schedule then the cipher is AES-128 of FIPS-197, whatever round
    keys the static array held before. *)
Theorem aes_encrypt_is_fips197 rk key input :
  rk_shape rk → length key = 16%nat → Forall is_byte key →
  length input = 16%nat → Forall is_byte input →
  RijndaelEncrypt (RijndaelKeySchedule rk key) input = Cipher key input.
Proof. apply encrypt_cipher. Qed.

(** FIPS-197, appendix B. *)
Definition b_key : list Z :=
  [0x2b; 0x7e; 0x15; 0x16; 0x28; 0xae; 0xd2; 0xa6; 0xab; 0xf7; 0x15; 0x88; 0x09; 0xcf; 0x4f; 0x3c].
Definition b_input : list Z :=
  [0x32; 0x43; 0xf6; 0xa8; 0x88; 0x5a; 0x30; 0x8d; 0x31; 0x31; 0x98; 0xa2; 0xe0; 0x37; 0x07; 0x34].
Definition b_output : list Z :=
  [0x39; 0x25; 0x84; 0x1d; 0x02; 0xdc; 0x09; 0xfb; 0xdc; 0x11; 0x85; 0x97; 0x19; 0x6a; 0x0b; 0x32].
Definition rk_zero : roundKeys_t := replicate 11 zero44.

Lemma forallb_bytes l : forallb byteb l = true → Forall is_byte l.
Proof.
  intros H. apply Forall_forall. intros x Hx. apply byteb_spec.
  eapply forallb_forall in H; [exact H|by apply list_elem_of_In].
Qed.

Lemma rk_zero_shape : rk_shape rk_zero.
Proof. split; [done|]. repeat constructor. Qed.

Lemma aes_encrypt_is_fips197_witness :
  RijndaelEncrypt (RijndaelKeySchedule rk_zero b_key) b_input = b_output.
Proof.
  rewrite (aes_encrypt_is_fips197 rk_zero b_key b_input rk_zero_shape eq_refl
    (forallb_bytes b_key eq_refl) eq_refl (forallb_bytes b_input eq_refl)).
  vm_compute. reflexivity.
Defined.

(** each round key the schedule leaves in [roundKeys] is the FIPS-197 one,
    and nothing of the previous content is left. *)
Theorem key_schedule_is_fips197 rk key :
  rk_shape rk → length key = 16%nat →
  RijndaelKeySchedule rk key = round_key key <$> seq 0 11.
Proof. apply RijndaelKeySchedule_spec. Qed.

Lemma key_schedule_is_fips197_witness :
  nth 10 (RijndaelKeySchedule (replicate 11 (replicate 4 (replicate 4 77))) b_key) [] =
  [[0xd0; 0xc9; 0xe1; 0xb6]; [0x14; 0xee; 0x3f; 0x63]; [0xf9; 0x25; 0x0c; 0x0c]; [0xa8; 0x89; 0xc8; 0xa6]].
Proof.
  rewrite (key_schedule_is_fips197 (replicate 11 (replicate 4 (replicate 4 77))) b_key);
    [vm_compute; reflexivity| |reflexivity].
  split; [reflexivity|]. repeat constructor.
Defined.

(** encryption can be undone: the inverse cipher, on the round keys of the
    schedule, gives the plain block back. *)
Theorem aes_decrypt_encrypt rk key input :
  rk_shape rk → length key = 16%nat → Forall is_byte key →
  length input = 16%nat → Forall is_byte input →
  InvCipher (round_key key) (RijndaelEncrypt (RijndaelKeySchedule rk key) input) = input.
Proof.
  intros. rewrite encrypt_cipher, Cipher_with by done.
  apply encrypt_with_inv; auto with aes.
Qed.

Lemma aes_decrypt_encrypt_witness :
  InvCipher (round_key b_key) (RijndaelEncrypt (RijndaelKeySchedule rk_zero b_key) b_input) = b_input.
Proof.
  exact (aes_decrypt_encrypt rk_zero b_key b_input rk_zero_shape eq_refl
    (forallb_bytes b_key eq_refl) eq_refl (forallb_bytes b_input eq_refl)).
Defined.

(** the 256 entries of [S] are the affine image of the inverse in GF(2^8),
    and the 256 entries of [Xtime] are the product by x. *)
Theorem aes_tables a :
  is_byte a → is_sbox a (S_at a) ∧ Xtime_at a = gf_mul a 2 ∧ S_inv (S_at a) = a.
Proof.
  intros Ha. split; [by apply S_is_sbox|]. split; [|by apply S_inv_S].
  by rewrite gf_mul_2, Xtime_xtime.
Qed.

Lemma aes_tables_witness : S_at 0x53 = 0xed ∧ is_sbox 0x53 (S_at 0x53).
Proof. split; [reflexivity|]. apply (aes_tables 0x53). unfold is_byte; lia. Defined.

(** C33: The authentication functions are those of TS 35.206 over the AES of FIPS-197:
    for a key, challenge and OPc of 16 bytes, a sequence number of 6 and an AMF of 2
    bytes, and whatever round keys were left over, [f1] and [f1star] are the two halves
    of OUT1 (MAC-A and MAC-S), [f2345] is RES, CK, IK and AK from OUT2, OUT3, OUT4 and
    OUT2, and [f5star] is the resynchronisation AK from OUT5, each with the rotation and
    the constant of the standard. *)
Theorem milenage_is_ts35206 rk key rand sqn amf opc :
  rk_shape rk → block key → block rand → block opc →
  length sqn = 6%nat → length amf = 2%nat → Forall is_byte sqn → Forall is_byte amf →
  let O := OUT (Cipher key) rand opc in
  snd (f1 rk key rand sqn amf opc) = take 8 (OUT1 (Cipher key) rand opc sqn amf) ∧
  snd (f1star rk key rand sqn amf opc) = drop 8 (OUT1 (Cipher key) rand opc sqn amf) ∧
  snd (f2345 rk key rand opc) =
    F2345 (drop 8 (O 0%nat 1)) (O 4%nat 2) (O 8%nat 4) (take 6 (O 0%nat 1)) ∧
  snd (f5star rk key rand opc) = take 6 (O 12%nat 8).
Proof.
  intros Hrk Hk Hr Ho Ls La Bs Ba O.
  destruct (f1_cipher rk key rand sqn amf opc Hrk Hk Hr Ho Ls La Bs Ba) as [H1 H1s].
  destruct (f2345_cipher rk key rand opc Hrk Hk Hr Ho) as [H2 H5s]. done.
Qed.

(** 3GPP TS 35.208, test set 1. *)
Definition t_key : list Z :=
  [0x46; 0x5b; 0x5c; 0xe8; 0xb1; 0x99; 0xb4; 0x9f; 0xaa; 0x5f; 0x0a; 0x2e; 0xe2; 0x38; 0xa6; 0xbc].
Definition t_rand : list Z :=
  [0x23; 0x55; 0x3c; 0xbe; 0x96; 0x37; 0xa8; 0x9d; 0x21; 0x8a; 0xe6; 0x4d; 0xae; 0x47; 0xbf; 0x35].
Definition t_sqn : list Z := [0xff; 0x9b; 0xb4; 0xd0; 0xb6; 0x07].
Definition t_amf : list Z := [0xb9; 0xb9].
Definition t_opc : list Z :=
  [0xcd; 0x63; 0xcb; 0x71; 0x95; 0x4a; 0x9f; 0x4e; 0x48; 0xa5; 0x99; 0x4e; 0x37; 0xa0; 0x2b; 0xaf].

Lemma t_blocks : block t_key ∧ block t_rand ∧ block t_opc.
Proof. repeat split; apply forallb_bytes; reflexivity. Qed.

Lemma milenage_is_ts35206_witness :
  take 8 (OUT1 (Cipher t_key) t_rand t_opc t_sqn t_amf) = [0x4a; 0x9f; 0xfa; 0xc3; 0x54; 0xdf; 0xaf; 0xb3] ∧
  drop 8 (OUT (Cipher t_key) t_rand t_opc 0 1) = [0xa5; 0x42; 0x11; 0xd5; 0xe3; 0xba; 0x50; 0xbf] ∧
  snd (f1 rk_zero t_key t_rand t_sqn t_amf t_opc) = take 8 (OUT1 (Cipher t_key) t_rand t_opc t_sqn t_amf) ∧
  f_res (snd (f2345 rk_zero t_key t_rand t_opc)) = drop 8 (OUT (Cipher t_key) t_rand t_opc 0 1).
Proof.
  split; [vm_compute; reflexivity|]. split; [vm_compute; reflexivity|]. destruct t_blocks as (Hk & Hr & Ho).
  destruct (milenage_is_ts35206 rk_zero t_key t_rand t_sqn t_amf t_opc rk_zero_shape Hk Hr Ho eq_refl eq_refl
    (forallb_bytes t_sqn eq_refl) (forallb_bytes t_amf eq_refl)) as (H1 & _ & H2 & _).
  split; [exact H1|]. by rewrite H2.
Defined.
