(* ===== verification/UsimApdu.v ===== *)
(** * APDU layer of the USIM library
      (lib/usim_library/usim_ioctl.c, usim_apdu.c)

    The card commands, the EF_DIR scan for the USIM application, the FCP
    template parser, and the four file operations.  The reader driver and the
    operating system are the class [Env]; the laws the driver guarantees are
    [UsimDev]. *)
From S2P Require Import Prelude.
From stdpp Require Import strings.
#[global] Open Scope Z_scope.

(** ** The environment: ioctl, flash device, malloc *)
Class Env (E : Type) := {
  (** [ioctl(usim_fd, SIM_IOCTL_XFER, &tpdu)]: command bytes and receive
      length in; return value and the bytes stored at [rcv_buffer] out. *)
  xfer : E → list Z → Z → E * Z * list Z;
  (** [open(path, flags)], [lseek(fd, off, SEEK_SET)], [read(fd, buf, n)] with
      the bytes stored, [close(fd)]. *)
  os_open : E → string → E * Z;
  os_lseek : E → Z → Z → E * Z;
  os_read : E → Z → Z → E * Z * list Z;
  os_close : E → Z → E;
  (** [malloc(n) == NULL]. *)
  malloc_null : E → Z → bool;
}.

(** What the library relies on from the driver's SIM_IOCTL_XFER: it stores at
    most the requested bytes; on success it stores all of them; it refuses a
    receive length over its own 256-byte buffer. *)
Class UsimDev (E : Type) `{Env E} := {
  xfer_fits : ∀ e cmd n e' r out, xfer e cmd n = (e', r, out) →
    zlen out ≤ Z.max 0 n ∧ Forall is_byte out;
  xfer_ret : ∀ e cmd n e' r out, xfer e cmd n = (e', r, out) → r = 0 ∨ r = -1;
  xfer_full : ∀ e cmd n e' out, xfer e cmd n = (e', 0, out) → zlen out = n ∧ 1 ≤ n ≤ 256;
}.

(** ** Globals of the library *)
Definition GSM_SIM_TYPE : Z := 0.
Definition USIM_TYPE : Z := 1.
Definition USIM_FILE_EF_DIR : Z := 0x2F00.
Definition VTQ_USIM_FILE_NOT_SUPPORTED : Z := -2.
Definition USIM_SPI_ADMIN_PIN_ADD : Z := 0x3E000F8.

Record sim_t := Sim { sim_type : Z; sim_dir_fileid : Z }.

(** [sim], [aid], [aid_len]; the environment; and, for the statements only,
    the list of the commands sent so far. *)
Record lib (E : Type) := Lib {
  sim : sim_t; aid : buffer; aid_len : Z; env : E; wire : list (list Z) }.
Arguments Lib {E}. Arguments sim {E}. Arguments aid {E}. Arguments aid_len {E}.
Arguments env {E}. Arguments wire {E}.

Section Apdu.
Context {E : Type} `{Env E}.
Local Abbreviation U := (M (lib E)).

Definition with_env (e : E) (w : lib E) : lib E := Lib (sim w) (aid w) (aid_len w) e (wire w).
Definition with_aid (a : buffer) (n : Z) (w : lib E) : lib E :=
  Lib (sim w) a n (env w) (wire w).

(** The ioctl itself: the reply is stored in the caller's buffer, and storing
    past its end is undefined. *)
Definition ioctl_xfer (cmd : list Z) (resp : buffer) (resplen : Z) : U (Z * buffer) := λ w,
  let '(e, errval, out) := xfer (env w) cmd resplen in
  match blit resp 0 (init out) with
  | Some resp' => Some ((errval, resp'), Lib (sim w) (aid w) (aid_len w) e (wire w ++ [cmd]))
  | None => None
  end.

(** [cmd] is the local array, of which [cmdlen] bytes are sent. *)
Definition SendReceiveAPDU (cmd : buffer) (cmdlen : Z) (resp : buffer) (resplen : Z)
  : U (Z * buffer) :=
  bytes ← lift (rd_bytes cmd 0 cmdlen);
  ioctl_xfer bytes resp resplen.

(** [cmd[0] = 0xa0], set to 0 for a USIM: the class byte of every command. *)
Definition cla : U Z := gets (λ w, if decide (sim_type (sim w) = USIM_TYPE) then 0x00 else 0xa0).

(** A local array [byte cmd[n] = {l...}]. *)
Definition cmd_array (n : nat) (l : list Z) : buffer := init (l ++ replicate (n - length l) 0).

(** ** Flash *)
Definition os {A} (f : E → E * A) : U A := λ w, let '(e, a) := f (env w) in Some (a, with_env e w).

Definition read_from_flash (fd offset len : Z) (buf : buffer) : U (Z * buffer) :=
  off ← os (λ e, os_lseek e fd offset);
  if decide (offset ≠ off) then mret (-1, buf) else
  '(n, out) ← os (λ e, let '(e, n, out) := os_read e fd len in (e, (n, out)));
  buf ← lift (blit buf 0 (init out));
  if decide (n < 0) then mret (-1, buf) else mret (0, buf).

Definition usim_read_adminpin (admin_pin : buffer) : U (Z * buffer) :=
  fd ← os (λ e, os_open e "/dev/mtd0"%string);
  if decide (fd = -1) then mret (-1, admin_pin) else
  '(r, admin_pin) ← read_from_flash fd USIM_SPI_ADMIN_PIN_ADD 8 admin_pin;
  _ ← os (λ e, (os_close e fd, tt));
  if decide (r = -1) then mret (-1, admin_pin) else mret (0, admin_pin).

(** ** Commands *)
Definition usim_select_file_byaid (a : buffer) (alen : Z) (buf : buffer) (len : Z)
  : U (Z * buffer) :=
  cmd ← lift (memcpy (cmd_array 50 [0x00; 0xa4; 0x04; 0x00; u8 alen; 0x00; 0x00]) 5 a 0 alen);
  SendReceiveAPDU cmd (5 + alen) buf len.

(** [fileid] is a [word]. *)
Definition usim_select_file_byid (fileid : Z) (buf : buffer) (len : Z) : U (Z * buffer) :=
  c ← cla;
  t ← gets (λ w, sim_type (sim w));
  let p2 := if decide (t = USIM_TYPE) then 0x04 else 0x00 in
  let cmd := cmd_array 7 [c; 0xa4; 0x00; p2; 0x02;
    Z.land (Z.shiftr (u16 fileid) 8) 0xff; Z.land (Z.shiftr (u16 fileid) 0) 0xff] in
  SendReceiveAPDU cmd 7 buf len.

Definition usim_get_response (len : Z) (buf : buffer) : U (Z * buffer) :=
  c ← cla;
  SendReceiveAPDU (cmd_array 5 [c; 0xc0; 0x00; 0x00; u8 len]) 5 buf (len + 3).

Definition usim_read_binary (len : Z) (buf : buffer) : U (Z * buffer) :=
  c ← cla;
  SendReceiveAPDU (cmd_array 5 [c; 0xb0; 0; 0; u8 len]) 5 buf (len + 3).

Definition usim_read_record (id len : Z) (buf : buffer) : U (Z * buffer) :=
  c ← cla;
  SendReceiveAPDU (cmd_array 5 [c; 0xb2; u8 id; 0x04; u8 len]) 5 buf (len + 3).

Definition usim_update_record (id len : Z) (buf : buffer) (resp_len : Z) (resp_buf : buffer)
  : U (Z * buffer) :=
  c ← cla;
  cmd ← lift (memcpy (cmd_array 256 [c; 0xdc; u8 id; 0x04; u8 len]) 5 buf 0 len);
  SendReceiveAPDU cmd (5 + len) resp_buf resp_len.

Definition usim_get_identity (len : Z) (buf : buffer) : U (Z * buffer) :=
  c ← cla;
  SendReceiveAPDU (cmd_array 5 [c; 0x78; 0x00; 0x02; u8 len]) 5 buf 4.

Definition usim_update_binary (len : Z) (buf : buffer) (off_high off_low resp_len : Z)
  (resp_buf : buffer) : U (Z * buffer) :=
  c ← cla;
  cmd ← lift (memcpy (cmd_array 256 [c; 0xD6; u8 off_high; u8 off_low; u8 len]) 5 buf 0 len);
  SendReceiveAPDU cmd (5 + len) resp_buf resp_len.

(** [strlen(buf)]: undefined without a terminator. *)
Fixpoint strlen (b : buffer) : option Z :=
  match b with
  | Some c :: b => if decide (c = 0) then Some 0 else n ← strlen b; Some (1 + n)
  | _ => None
  end.

Definition usim_authenticate (len : Z) (buf resp_buf : buffer) (res_len : Z) : U (Z * buffer) :=
  c ← cla;
  n ← lift (strlen buf);
  if decide (34 < n) then mret (-1, resp_buf) else
  cmd ← lift (memcpy (cmd_array 39 [c; 0x88; 0x00; 0x81; u8 len]) 5 buf 0 len);
  SendReceiveAPDU cmd (5 + len) resp_buf res_len.

Definition usim_admin_verify (len : Z) (resp_buff : buffer) : U (Z * buffer) :=
  c ← cla;
  '(ret, buf) ← usim_read_adminpin (undef 8);
  if decide (ret < 0) then mret (-1, resp_buff) else
  cmd ← lift (memcpy (cmd_array 13 ([c; 0x20; 0x00; 0x0a; 0x08] ++ replicate 8 48)) 5 buf 0 8);
  SendReceiveAPDU cmd 13 resp_buff len.

(** The response pointer and length are both 0. *)
Definition usim_verify (chv : Z) (buf : buffer) : U Z :=
  c ← cla;
  n ← lift (strlen buf);
  if decide (8 < n) then mret (-1) else
  cmd ← lift (memcpy (cmd_array 13 ([c; 0x20; 0x00; u8 chv; 0x08] ++ replicate 8 48)) 5 buf 0 n);
  cmd ← lift (memset cmd (5 + n) 0xff (8 - n));
  '(ret, _) ← SendReceiveAPDU cmd 13 [] 0;
  mret ret.

Definition usim_verify_pin (pin_no : Z) (pin : buffer) : U Z := usim_verify (u8 pin_no) pin.

(** The command asks for 127 bytes so that the card answers with the right
    length in its status word; the ioctl's return value is not looked at. *)
Definition usim_get_record_len (recnum : Z) : U Z :=
  c ← cla;
  '(_, buf) ← SendReceiveAPDU (cmd_array 5 [c; 0xb2; u8 recnum; 0x04; 127]) 5 (undef 127) 127;
  b0 ← lift (rd buf 0);
  if decide (b0 ≠ 0x6c ∧ b0 ≠ 0x67) then mret (-1) else lift (rd buf 1).

Definition usim_get_suci (len : Z) (buf : buffer) : U (Z * buffer) :=
  '(_, buf) ← usim_get_identity len buf;
  b0 ← lift (rd buf 0);
  if decide (b0 ≠ 0x90) then mret (0, buf) else
  b1 ← lift (rd buf 1);
  if decide (b1 ≠ 0x00) then mret (0, buf) else mret (1, buf).

(** ** Status words

    C's [&&] and [||] read [resp[2]] only when [resp[1]] does not decide. *)

(** [(resp[1] == a) && (resp[2] == b)] *)
Definition sw_is (resp : buffer) (a b : Z) : option bool :=
  s1 ← rd resp 1;
  if decide (s1 = a) then s2 ← rd resp 2; Some (bool_decide (s2 = b)) else Some false.

(** [((resp[1] != 0x90) || (resp[2] != 0x00)) && (resp[1] != 0x61) &&
    (resp[1] != 0x9F)] *)
Definition select_failed (resp : buffer) : option bool :=
  ok ← sw_is resp 0x90 0x00;
  s1 ← rd resp 1;
  Some (negb ok && bool_decide (s1 ≠ 0x61) && bool_decide (s1 ≠ 0x9F)).

(** [((resp[1] != 0x90) || (resp[2] != 0x00)) &&
    ((resp[1] != 0x60) || (resp[2] != 0x90))] *)
Definition update_failed (resp : buffer) : option bool :=
  ok ← sw_is resp 0x90 0x00;
  if (ok : bool) then Some false else proc ← sw_is resp 0x60 0x90; Some (negb proc).

(** ** EF_DIR scan *)

(** How one turn of the record loop ends: the function returns, the loop
    breaks, or it goes on (by [continue] or by reaching its end). *)
Inductive scan := ScanReturn (r : Z) | ScanBreak | ScanNext.

(** One turn: [record_buf] is the 127-byte local the [efdir] struct overlays
    from its second byte. *)
Definition aid_record (rec : Z) (record_buf : buffer) : U (scan * buffer) :=
  rlen ← usim_get_record_len rec;
  if decide (rlen < 0) then mret (ScanReturn (-1), record_buf) else
  if decide (125 ≤ rlen) then mret (ScanReturn (-1), record_buf) else
  '(ret, record_buf) ← usim_read_record rec rlen record_buf;
  if decide (ret < 0) then mret (ScanReturn (-1), record_buf) else
  sw1 ← lift (rd record_buf (rlen + 1));
  if decide (sw1 ≠ 0x90) then mret (ScanReturn (-1), record_buf) else
  sw2 ← lift (rd record_buf (rlen + 2));
  if decide (sw2 ≠ 0x00) then mret (ScanReturn (-1), record_buf) else
  template_tag ← lift (rd record_buf 1);
  if decide (template_tag ≠ 0x61) then mret (ScanNext, record_buf) else
  template_len ← lift (rd record_buf 2);
  if decide (template_len > rlen - 2) then mret (ScanNext, record_buf) else
  id_tag ← lift (rd record_buf 3);
  if decide (id_tag ≠ 0x4f) then mret (ScanNext, record_buf) else
  alen ← lift (rd record_buf 4);
  if decide (alen < 1 ∨ alen > 16) then mret (ScanNext, record_buf) else
  code0 ← lift (rd record_buf 10);
  if decide (code0 ≠ 0x10) then mret (ScanNext, record_buf) else
  code1 ← lift (rd record_buf 11);
  if decide (code1 ≠ 0x02) then mret (ScanNext, record_buf) else
  mret (ScanBreak, record_buf).

(** [for (rec = 1; rec < 10; rec++)], [n] turns left: [None] when the loop ran
    out ([rec >= 10]). *)
Fixpoint aid_loop (n : nat) (rec : Z) (record_buf : buffer) : U (option scan * buffer) :=
  match n with
  | O => mret (None, record_buf)
  | S n =>
      '(s, record_buf) ← aid_record rec record_buf;
      match s with
      | ScanNext => aid_loop n (rec + 1) record_buf
      | s => mret (Some s, record_buf)
      end
  end.

Definition usim_get_aid (aid_out : buffer) (len : Z) : U (Z * buffer) :=
  '(ret, resp) ← usim_select_file_byid USIM_FILE_EF_DIR (undef 3) 3;
  if decide (ret < 0) then mret (ret, aid_out) else
  bad ← lift (select_failed resp);
  if (bad : bool) then mret (-1, aid_out) else
  '(s, record_buf) ← aid_loop 9 1 (zeros 127);
  match s with
  | Some (ScanReturn r) => mret (r, aid_out)
  | None => mret (-1, aid_out)
  | Some _ =>
      alen ← lift (rd record_buf 4);
      if decide (alen > len) then mret (-1, aid_out) else
      aid_out ← lift (memcpy aid_out 0 record_buf 5 alen);
      mret (alen, aid_out)
  end.

Definition usim_select_gsm : U Z :=
  df ← gets (λ w, sim_dir_fileid (sim w));
  '(ret, resp) ← usim_select_file_byid df (undef 3) 3;
  if decide (ret < 0) then mret ret else
  bad ← lift (select_failed resp);
  mret (if (bad : bool) then -1 else 0).

Definition usim_select_aid : U Z :=
  a0 ← gets aid;
  '(n, a1) ← usim_get_aid a0 32;
  _ ← (if decide (n < 0) then
         (* the standard 3G RID *)
         a2 ← lift (blit a1 0 (init [0xa0; 0x00; 0x00; 0x00; 0x87]));
         modify (with_aid a2 5)
       else modify (with_aid a1 n));
  a ← gets aid;
  alen ← gets aid_len;
  '(ret, resp) ← usim_select_file_byaid a alen (undef 3) 3;
  if decide (ret < 0) then mret ret else
  bad ← lift (select_failed resp);
  mret (if (bad : bool) then -1 else 0).

(** ** FCP templates *)
Definition USIM_FCP_TMPL_TAG : Z := 0x62.
Definition USIM_TLV_FILE_DESC : Z := 0x82.
Definition USIM_TLV_FILE_SIZE : Z := 0x80.

(** [usim_rec_t]; a field not assigned yet is [None]. *)
Record usim_rec_t := Rec { rec_len : option Z; rec_count : option Z }.
Definition rec_unset : usim_rec_t := Rec None None.

(** The [switch] of the parser, on the TLV at [pos]: only two tags have an
    effect.  [file_len] and [usim_rec] are the out-parameters; each is [None]
    when the caller passed NULL. *)
Definition fcp_tlv (buf : buffer) (pos : Z) (file_len : option (option Z))
    (usim_rec : option usim_rec_t) : option (option (option Z) * option usim_rec_t) :=
  tag ← rd buf pos;
  if decide (tag = USIM_TLV_FILE_DESC) then
    match usim_rec with
    | Some _ =>
        p4 ← rd buf (pos + 4); p5 ← rd buf (pos + 5); p6 ← rd buf (pos + 6);
        Some (file_len, Some (Rec (Some (Z.lor (Z.shiftl p4 8) p5)) (Some p6)))
    | None => Some (file_len, usim_rec)
    end
  else if decide (tag = USIM_TLV_FILE_SIZE) then
    match file_len with
    | Some _ =>
        l ← rd buf (pos + 1);
        if decide (l = 1) then p2 ← rd buf (pos + 2); Some (Some (Some p2), usim_rec)
        else if decide (l = 2) then
          p2 ← rd buf (pos + 2); p3 ← rd buf (pos + 3);
          Some (Some (Some (Z.lor (Z.shiftl p2 8) p3)), usim_rec)
        else Some (file_len, usim_rec)
    | None => Some (file_len, usim_rec)
    end
  else Some (file_len, usim_rec).

(** [while (pos + 1 < end)]: the bound [fuel] is on the number of turns. *)
Fixpoint fcp_loop (fuel : nat) (buf : buffer) (pos fin : Z) (file_len : option (option Z))
    (usim_rec : option usim_rec_t) : option (Z * option (option Z) * option usim_rec_t) :=
  match fuel with
  | O => None
  | S fuel =>
      if decide (pos + 1 < fin) then
        '(file_len, usim_rec) ← fcp_tlv buf pos file_len usim_rec;
        l ← rd buf (pos + 1);
        let pos := pos + (2 + l) in
        if decide (pos = fin) then Some (0, file_len, usim_rec)
        else fcp_loop fuel buf pos fin file_len usim_rec
      else Some (-1, file_len, usim_rec)
  end.

Definition usim_parse_fcp_tmpl (buf : buffer) (file_len : option (option Z))
    (usim_rec : option usim_rec_t) : option (Z * option (option Z) * option usim_rec_t) :=
  tag ← rd buf 1;
  if decide (tag ≠ USIM_FCP_TMPL_TAG) then Some (-1, file_len, usim_rec) else
  l ← rd buf 2;
  let fin := 2 + 1 + l in
  fcp_loop (Z.to_nat l + 1) buf 3 fin file_len usim_rec.

(** ** Files *)

(** Where a function body went: on to its common end, to the [error] label, or
    out by [return]. *)
Inductive exit := Fall | GotoError | Return (r : Z).

(** The [if (dir_fileid)] prologue of the four file functions, with
    [select_back]. *)
Definition enter_dir (dir_fileid : Z) (resp : buffer) : U (exit * buffer * bool) :=
  if decide (dir_fileid = 0) then mret (Fall, resp, false) else
  '(ret, resp) ← usim_select_file_byid dir_fileid (zeros 3) 3;
  if decide (ret < 0) then mret (Return ret, resp, false) else
  unsup ← lift (sw_is resp 0x6a 0x82);
  if (unsup : bool) then mret (Return VTQ_USIM_FILE_NOT_SUPPORTED, resp, false) else
  bad ← lift (select_failed resp);
  if (bad : bool) then mret (Return (-1), resp, false) else
  mret (Fall, resp, true).

(** Selecting the elementary file itself. *)
Definition select_ef (fileid : Z) (resp : buffer) : U (exit * buffer) :=
  '(ret, resp) ← usim_select_file_byid fileid resp 3;
  if decide (ret < 0) then mret (GotoError, resp) else
  unsup ← lift (sw_is resp 0x6a 0x82);
  if (unsup : bool) then mret (Return VTQ_USIM_FILE_NOT_SUPPORTED, resp) else
  bad ← lift (select_failed resp);
  mret (if (bad : bool) then GotoError else Fall, resp).

(** The [if (select_back)] epilogue, written twice in each function. *)
Definition go_back (select_back : bool) (resp : buffer) : U unit :=
  if select_back then
    s ← gets sim;
    if decide (sim_type s = 0) then
      _ ← usim_select_file_byid (sim_dir_fileid s) resp 3; mret tt
    else if decide (sim_type s = 1) then
      a ← gets aid; n ← gets aid_len;
      _ ← usim_select_file_byaid a n resp 3; mret tt
    else mret tt
  else mret tt.

Definition conclude (x : exit) (select_back : bool) (resp : buffer) : U Z :=
  match x with
  | Return r => mret r
  | Fall => _ ← go_back select_back resp; mret 0
  | GotoError => _ ← go_back select_back resp; mret (-1)
  end.

(** [usim_write_transparent] after the two selects. *)
Definition write_transparent_body (len : Z) (buf : buffer) (low high : Z) (resp : buffer)
  : U (exit * buffer) :=
  '(ret, resp) ← usim_update_binary len buf high low 3 resp;
  if decide (ret < 0) then mret (GotoError, resp) else
  denied ← lift (sw_is resp 0x69 0x82);
  '(x, resp) ←
    (if (denied : bool) then
       '(_, resp) ← usim_admin_verify 3 (zeros 3);
       ok ← lift (sw_is resp 0x90 0x00);
       if negb ok then mret (GotoError, resp) else
       '(ret, resp) ← usim_update_binary len buf high low 3 (zeros 3);
       mret (if decide (ret < 0) then GotoError else Fall, resp)
     else mret (Fall, resp));
  match x with
  | Fall => bad ← lift (update_failed resp); mret (if (bad : bool) then GotoError else Fall, resp)
  | x => mret (x, resp)
  end.

Definition usim_write_transparent (fileid len : Z) (buf : buffer) (low high dir_fileid : Z) : U Z :=
  '(x, resp, back) ← enter_dir dir_fileid (undef 3);
  match x with
  | Fall =>
      '(x, resp) ← select_ef fileid (zeros 3);
      '(x, resp) ← match x with
                   | Fall => write_transparent_body len buf low high resp
                   | x => mret (x, resp)
                   end;
      conclude x back resp
  | x => conclude x back resp
  end.

(** GET RESPONSE into a zeroed 256-byte local, and the check of its status. *)
Definition fetch_fcp (resp : buffer) : U (exit * buffer) :=
  blen ← lift (rd resp 2);
  '(ret, buffer) ← usim_get_response blen (zeros 256);
  if decide (ret < 0) then mret (GotoError, buffer) else
  sw1 ← lift (rd buffer (blen + 1));
  if decide (sw1 ≠ 0x90) then mret (GotoError, buffer) else
  sw2 ← lift (rd buffer (blen + 2));
  mret (if decide (sw2 ≠ 0x00) then GotoError else Fall, buffer).

(** [*len]: the size TLV of the FCP for a USIM (indeterminate when there is
    none), bytes 3 and 4 of the response for a GSM SIM. *)
Definition transparent_len (len : Z) (buffer : buffer) : U (exit * Z) :=
  t ← gets (λ w, sim_type (sim w));
  if decide (t = USIM_TYPE) then
    '(ret, file_len, _) ← lift (usim_parse_fcp_tmpl buffer (Some None) None);
    if decide (ret < 0) then mret (GotoError, len) else
    file_size ← lift (mjoin file_len);
    mret (Fall, file_size)
  else
    b3 ← lift (rd buffer 3); b4 ← lift (rd buffer 4);
    mret (Fall, Z.lor (Z.shiftl b3 8) b4).

(** READ BINARY into a block of [*len + 3] bytes, copied out past its first
    byte. *)
Definition read_transparent_data (len : Z) (buf : buffer) : U (exit * buffer) :=
  null ← gets (λ w, malloc_null (env w) (len + 3));
  if (null : bool) then mret (GotoError, buf) else
  '(ret, pData) ← usim_read_binary len (undef (len + 3));
  if decide (ret < 0) then mret (GotoError, buf) else
  sw1 ← lift (rd pData (len + 1));
  if decide (sw1 ≠ 0x90) then mret (GotoError, buf) else
  sw2 ← lift (rd pData (len + 2));
  if decide (sw2 ≠ 0x00) then mret (GotoError, buf) else
  buf ← lift (memcpy buf 0 pData 1 len);
  mret (Fall, buf).

(** [usim_read_transparent] after the two selects; [len] is [*len]. *)
Definition read_transparent_body (len : Z) (buf resp : buffer) : U (exit * Z * buffer) :=
  '(x, buffer) ← fetch_fcp resp;
  match x with
  | Fall =>
      '(x, len) ← transparent_len len buffer;
      match x with
      | Fall => '(x, buf) ← read_transparent_data len buf; mret (x, len, buf)
      | x => mret (x, len, buf)
      end
  | x => mret (x, len, buf)
  end.

Definition usim_read_transparent (fileid len : Z) (buf : buffer) (dir_fileid : Z)
  : U (Z * Z * buffer) :=
  '(x, resp, back) ← enter_dir dir_fileid (undef 3);
  match x with
  | Fall =>
      '(x, resp) ← select_ef fileid (zeros 3);
      '(x, len, buf) ← match x with
                       | Fall => read_transparent_body len buf resp
                       | x => mret (x, len, buf)
                       end;
      r ← conclude x back resp;
      mret (r, len, buf)
  | x => r ← conclude x back resp; mret (r, len, buf)
  end.

(** The record length and count of a linear fixed file.  For a GSM SIM the
    response is overlaid with [gsm_fci_ef_t] from its first byte; the count is
    a [uint8_t], and a zero record size divides by zero. *)
Definition record_layout (buffer : buffer) : U (exit * usim_rec_t) :=
  t ← gets (λ w, sim_type (sim w));
  if decide (t = GSM_SIM_TYPE) then
    recordsize ← lift (rd buffer 14);
    hi ← lift (rd buffer 2); lo ← lift (rd buffer 3);
    if decide (recordsize = 0) then lift None else
    mret (Fall, Rec (Some recordsize) (Some (u8 ((Z.shiftl hi 8 + lo) / recordsize))))
  else
    '(ret, _, usim_rec) ← lift (usim_parse_fcp_tmpl buffer None (Some rec_unset));
    usim_rec ← lift usim_rec;
    mret (if decide (ret < 0) then GotoError else Fall, usim_rec).

(** [for (i = 1; i <= count; i++)]: the same data in every record. *)
Fixpoint write_records (n : nat) (i len : Z) (buf resp : buffer) : U (exit * buffer) :=
  match n with
  | O => mret (Fall, resp)
  | S n =>
      '(ret, resp) ← usim_update_record i len buf 3 (zeros 3);
      if decide (ret < 0) then mret (GotoError, resp) else
      bad ← lift (update_failed resp);
      if (bad : bool) then mret (GotoError, resp) else
      write_records n (i + 1) len buf resp
  end.

Definition write_linearfixed_body (len : Z) (buf resp : buffer) : U (exit * buffer) :=
  '(x, buffer) ← fetch_fcp resp;
  match x with
  | Fall =>
      '(x, r) ← record_layout buffer;
      match x with
      | Fall => count ← lift (rec_count r); write_records (Z.to_nat count) 1 len buf resp
      | x => mret (x, resp)
      end
  | x => mret (x, resp)
  end.

(** No [memset] of [resp] before the second select here. *)
Definition usim_write_linearfixed (fileid len : Z) (buf : buffer) (dir_fileid : Z) : U Z :=
  '(x, resp, back) ← enter_dir dir_fileid (undef 3);
  match x with
  | Fall =>
      '(x, resp) ← select_ef fileid resp;
      '(x, resp) ← match x with
                   | Fall => write_linearfixed_body len buf resp
                   | x => mret (x, resp)
                   end;
      conclude x back resp
  | x => conclude x back resp
  end.

(** [for (i = 1; i <= count; i++)]: each record is copied over the one before;
    [buffer_rec] is the 256-byte local. *)
Fixpoint read_records (n : nat) (i reclen : Z) (len : Z) (buf buffer_rec : buffer)
  : U (exit * Z * buffer) :=
  match n with
  | O => mret (Fall, len, buf)
  | S n =>
      '(ret, buffer_rec) ← usim_read_record i reclen buffer_rec;
      if decide (ret < 0) then mret (GotoError, len, buf) else
      sw1 ← lift (rd buffer_rec (reclen + 1));
      if decide (sw1 ≠ 0x90) then mret (GotoError, len, buf) else
      sw2 ← lift (rd buffer_rec (reclen + 2));
      if decide (sw2 ≠ 0x00) then mret (GotoError, len, buf) else
      buf ← lift (memcpy buf 0 buffer_rec 1 reclen);
      read_records n (i + 1) reclen reclen buf buffer_rec
  end.

Definition read_linearfixed_body (len : Z) (buf resp : buffer) : U (exit * Z * buffer) :=
  '(x, buffer) ← fetch_fcp resp;
  match x with
  | Fall =>
      '(x, r) ← record_layout buffer;
      match x with
      | Fall =>
          count ← lift (rec_count r);
          (* the length is used by the first turn of the loop *)
          if decide (count = 0) then mret (Fall, len, buf) else
          reclen ← lift (rec_len r);
          read_records (Z.to_nat count) 1 reclen len buf (undef 256)
      | x => mret (x, len, buf)
      end
  | x => mret (x, len, buf)
  end.

Definition usim_read_linearfixed (fileid len : Z) (buf : buffer) (dir_fileid : Z)
  : U (Z * Z * buffer) :=
  '(x, resp, back) ← enter_dir dir_fileid (undef 3);
  match x with
  | Fall =>
      '(x, resp) ← select_ef fileid (zeros 3);
      '(x, len, buf) ← match x with
                       | Fall => read_linearfixed_body len buf resp
                       | x => mret (x, len, buf)
                       end;
      r ← conclude x back resp;
      mret (r, len, buf)
  | x => r ← conclude x back resp; mret (r, len, buf)
  end.

(** ** On-chip authentication *)

(** [vtq_usim_lv_t]: a length and a caller-supplied block. *)
Record lv := Lv { lv_length : Z; lv_value : buffer }.

(** [lv->length = l; memcpy(lv->value, buf + p, lv->length)]. *)
Definition lv_fill (buf : buffer) (p l : Z) (v : lv) : option lv :=
  b ← memcpy (lv_value v) 0 buf p l; Some (Lv l b).

(** The output parameters.  [o_ak] is [None] when the object behind the
    pointer is too small to hold a [vtq_usim_lv_t]: using its [value] member is
    then undefined. *)
Record auth_out := AuthOut { o_auts : lv; o_res : lv; o_ck : lv; o_ak : option lv }.

(** The response parser: RES, CK and AK after tag 0xDB, AUTS after 0xDC. *)
Definition parse_auth_response (buf : buffer) (o : auth_out) : option (Z * auth_out) :=
  tag ← rd buf 0;
  if decide (tag = 0xDB) then
    rl ← rd buf 1;
    res ← lv_fill buf 2 rl (o_res o);
    cl ← rd buf (2 + rl + 1);
    ck ← lv_fill buf (2 + rl + 1) cl (o_ck o);
    al ← rd buf (2 + rl + 1 + cl + 1);
    ak0 ← o_ak o;
    ak ← lv_fill buf (2 + rl + 1 + cl + 1) al ak0;
    Some (0, AuthOut (o_auts o) res ck (Some ak))
  else if decide (tag = 0xDC) then
    al ← rd buf 1;
    auts ← lv_fill buf 2 al (o_auts o);
    Some (2, AuthOut auts (o_res o) (o_ck o) (o_ak o))
  else Some (1, o).

Definition usim_onchip_auth (rand_chal autn : lv) (o : auth_out) : U (Z * auth_out) :=
  let rl := lv_length rand_chal in
  let al := lv_length autn in
  let len := i32 (u32 (rl + al + 2)) in
  buf ← lift (wr (zeros 256) 0 (u8 rl));
  buf ← lift (memcpy buf 1 (lv_value rand_chal) 0 rl);
  buf ← lift (wr buf (rl + 1) (u8 al));
  buf ← lift (memcpy buf (rl + 2) (lv_value autn) 0 al);
  '(ret, _) ← usim_authenticate len buf (zeros 3) 3;
  if decide (ret < 0) then mret (ret, o) else
  '(ret, buf) ← usim_get_response 256 (zeros 256);
  if decide (ret < 0) then mret (ret, o) else
  lift (parse_auth_response buf o).

End Apdu.
