(* ===== verification/UsimApduSpec.v ===== *)
(** * Theorems on the APDU layer

    Command encodings, the FCP parser against a TLV specification, the file
    operations as conversations with the card, and what the driver's laws
    imply for the callers. *)
From S2P Require Import Prelude UsimApdu.

Create HintDb frame.

Section Spec.
Context {E : Type} `{Env E}.

(** ** Commands as data *)

(** The class byte the current SIM type selects. *)
Definition class_of (w : lib E) : Z := if decide (sim_type (sim w) = USIM_TYPE) then 0x00 else 0xa0.

(** The ISO 7816-4 command the library means to send. *)
Inductive command :=
  | SelectAid (a : list Z)
  | SelectId (usim : bool) (fileid : Z)
  | GetResponse (len : Z)
  | ReadBinary (len : Z)
  | ReadRecord (id len : Z)
  | UpdateRecord (id : Z) (data : list Z)
  | UpdateBinary (high low : Z) (data : list Z)
  | GetIdentity (len : Z)
  | Authenticate (data : list Z)
  | Verify (ref : Z) (pin : list Z).

(** Header [CLA INS P1 P2 P3] and data field; SELECT by AID always has class 0. *)
Definition encode (c : Z) (x : command) : list Z :=
  match x with
  | SelectAid a => [0x00; 0xa4; 0x04; 0x00; zlen a] ++ a
  | SelectId usim f => [c; 0xa4; 0x00; if usim then 0x04 else 0x00; 0x02; f / 256; f mod 256]
  | GetResponse n => [c; 0xc0; 0x00; 0x00; n]
  | ReadBinary n => [c; 0xb0; 0x00; 0x00; n]
  | ReadRecord i n => [c; 0xb2; i; 0x04; n]
  | UpdateRecord i d => [c; 0xdc; i; 0x04; zlen d] ++ d
  | UpdateBinary hi lo d => [c; 0xd6; hi; lo; zlen d] ++ d
  | GetIdentity n => [c; 0x78; 0x00; 0x02; n]
  | Authenticate d => [c; 0x88; 0x00; 0x81; zlen d] ++ d
  | Verify r p => [c; 0x20; 0x00; r; 0x08] ++ p ++ replicate (8 - length p) 0xff
  end.

(** The state after a command was sent, whatever came back. *)
Definition sent (cmd : list Z) (e : E) (w : lib E) : lib E :=
  Lib (sim w) (aid w) (aid_len w) e (wire w ++ [cmd]).

Lemma ioctl_xfer_run cmd resp n w e r out resp' :
  xfer (env w) cmd n = (e, r, out) → blit resp 0 (init out) = Some resp' →
  ioctl_xfer cmd resp n w = Some ((r, resp'), sent cmd e w).
Proof. intros Hx Hb. unfold ioctl_xfer. by rewrite Hx, Hb. Qed.

Lemma ioctl_xfer_inv cmd resp n w r resp' w' :
  ioctl_xfer cmd resp n w = Some ((r, resp'), w') →
  ∃ e out, xfer (env w) cmd n = (e, r, out) ∧ blit resp 0 (init out) = Some resp' ∧
           w' = sent cmd e w.
Proof.
  unfold ioctl_xfer. destruct (xfer (env w) cmd n) as [[e r0] out] eqn:Hx.
  destruct (blit resp 0 (init out)) as [b|] eqn:Hb; [|done].
  intros [= -> -> <-]. eauto.
Qed.

Lemma SendReceiveAPDU_init l resp n w :
  SendReceiveAPDU (init l) (zlen l) resp n w = ioctl_xfer l resp n w.
Proof. unfold SendReceiveAPDU. by rewrite M_bind_eq, rd_bytes_init. Qed.

(** The five-byte commands. *)
Lemma send5 a b c d e resp n w :
  SendReceiveAPDU (cmd_array 5 [a; b; c; d; e]) 5 resp n w = ioctl_xfer [a; b; c; d; e] resp n w.
Proof. apply (SendReceiveAPDU_init [a; b; c; d; e]). Qed.

(** A header, then [len] bytes copied from a buffer that starts with [d]. *)
Lemma send_data h d b N resp n w (m : nat) :
  length h = 5%nat → (5 + length d ≤ m)%nat → N = zlen d →
  (cmd ← lift (memcpy (cmd_array m h) 5 (init d ++ b) 0 N);
   SendReceiveAPDU cmd (5 + N) resp n) w = ioctl_xfer (h ++ d) resp n w.
Proof.
  intros Hh Hm ->. rewrite M_bind_eq. unfold memcpy.
  rewrite (sub_exact [] (init d) b) by (rewrite ?zlen_init; done). cbn [mbind option_bind].
  unfold cmd_array.
  replace (replicate (m - length h) 0) with
    (replicate (length d) 0 ++ replicate (m - length h - length d) 0)
    by (rewrite <- replicate_add; f_equal; lia).
  rewrite !init_app, (blit_exact (init h)).
  2: { rewrite zlen_init. unfold zlen. lia. }
  2: { by rewrite !length_init, length_replicate. }
  cbn [lift]. unfold SendReceiveAPDU. rewrite M_bind_eq.
  replace (5 + zlen d) with (zlen (h ++ d)) by (rewrite zlen_app; unfold zlen; lia).
  rewrite app_assoc, <- init_app, rd_bytes_prefix. done.
Qed.

Lemma shiftr_8 f : 0 ≤ f < 65536 → Z.land (Z.shiftr (u16 f) 8) 0xff = f / 256.
Proof.
  intros Hf. unfold u16. rewrite Z.mod_small by lia.
  change 0xff with (Z.ones 8). rewrite Z.land_ones, Z.shiftr_div_pow2 by lia.
  change (2 ^ 8) with 256. apply Z.mod_small.
  split; [apply Z.div_pos; lia|apply Z.div_lt_upper_bound; lia].
Qed.

Lemma shiftr_0 f : 0 ≤ f < 65536 → Z.land (Z.shiftr (u16 f) 0) 0xff = f mod 256.
Proof.
  intros Hf. unfold u16. rewrite Z.mod_small by lia.
  change 0xff with (Z.ones 8). by rewrite Z.land_ones, Z.shiftr_0_r by lia.
Qed.

Lemma u8_byte x : is_byte x → u8 x = x.
Proof. apply Z.mod_small. Qed.

Definition is_usim (w : lib E) : bool := if decide (sim_type (sim w) = USIM_TYPE) then true else false.

(** ** Each command function is one exchange *)
Lemma select_byid_run f buf n w :
  0 ≤ f < 65536 →
  usim_select_file_byid f buf n w =
  ioctl_xfer (encode (class_of w) (SelectId (is_usim w) f)) buf n w.
Proof.
  intros Hf. cbv [usim_select_file_byid mbind M_bind cla gets].
  rewrite shiftr_8, shiftr_0 by done. cbv [is_usim class_of encode].
  case_decide; apply (SendReceiveAPDU_init [_; _; _; _; _; _; _]).
Qed.

Lemma select_byaid_run a b buf n w :
  (5 + length a ≤ 50)%nat →
  usim_select_file_byaid (init a ++ b) (zlen a) buf n w =
  ioctl_xfer (encode (class_of w) (SelectAid a)) buf n w.
Proof.
  intros Ha. unfold usim_select_file_byaid.
  assert (Hu : u8 (zlen a) = zlen a) by (apply u8_byte; unfold is_byte, zlen; lia).
  rewrite Hu.
  exact (send_data [0x00; 0xa4; 0x04; 0x00; zlen a] a b (zlen a) buf n w 50 eq_refl Ha eq_refl).
Qed.

Lemma get_response_run len buf w :
  is_byte len →
  usim_get_response len buf w = ioctl_xfer (encode (class_of w) (GetResponse len)) buf (len + 3) w.
Proof.
  intros Hl. unfold usim_get_response. rewrite M_bind_eq. cbn [cla gets].
  by rewrite send5, u8_byte.
Qed.

Lemma read_binary_run len buf w :
  usim_read_binary len buf w =
  ioctl_xfer (encode (class_of w) (ReadBinary (u8 len))) buf (len + 3) w.
Proof. unfold usim_read_binary. rewrite M_bind_eq. cbn [cla gets]. by rewrite send5. Qed.

Lemma read_record_run id len buf w :
  is_byte id →
  usim_read_record id len buf w =
  ioctl_xfer (encode (class_of w) (ReadRecord id (u8 len))) buf (len + 3) w.
Proof.
  intros Hi. unfold usim_read_record. rewrite M_bind_eq. cbn [cla gets].
  by rewrite send5, u8_byte.
Qed.

Lemma get_identity_run len buf w :
  is_byte len →
  usim_get_identity len buf w = ioctl_xfer (encode (class_of w) (GetIdentity len)) buf 4 w.
Proof.
  intros Hl. unfold usim_get_identity. rewrite M_bind_eq. cbn [cla gets].
  by rewrite send5, u8_byte.
Qed.

(** Data commands: at most 251 bytes fit behind the header. *)
Lemma update_record_run id d b resp n w :
  is_byte id → (length d ≤ 251)%nat →
  usim_update_record id (zlen d) (init d ++ b) n resp w =
  ioctl_xfer (encode (class_of w) (UpdateRecord id d)) resp n w.
Proof.
  intros Hi Hd. unfold usim_update_record. rewrite M_bind_eq. cbn [cla gets].
  rewrite (u8_byte id), (u8_byte (zlen d)) by (done || (unfold is_byte, zlen; lia)).
  apply (send_data [_; _; _; _; _]); [done|lia|done].
Qed.

Lemma update_binary_run hi lo d b resp n w :
  is_byte hi → is_byte lo → (length d ≤ 251)%nat →
  usim_update_binary (zlen d) (init d ++ b) hi lo n resp w =
  ioctl_xfer (encode (class_of w) (UpdateBinary hi lo d)) resp n w.
Proof.
  intros Hh Hl Hd. unfold usim_update_binary. rewrite M_bind_eq. cbn [cla gets].
  rewrite (u8_byte hi), (u8_byte lo), (u8_byte (zlen d))
    by (done || (unfold is_byte, zlen; lia)).
  apply (send_data [_; _; _; _; _]); [done|lia|done].
Qed.

(** A C string: non-zero bytes, then the terminator. *)
Lemma strlen_cstring s b :
  Forall (λ c, c ≠ 0) s → strlen (init s ++ Some 0 :: b) = Some (zlen s).
Proof.
  induction 1 as [|c s Hc _ IH]; [done|].
  cbn [init fmap list_fmap app strlen]. fold (init s). rewrite decide_False by done.
  rewrite IH. cbn. f_equal. rewrite zlen_cons. done.
Qed.

Lemma verify_run chv s b w :
  is_byte chv → Forall (λ c, c ≠ 0) s → (length s ≤ 8)%nat →
  usim_verify chv (init s ++ Some 0 :: b) w =
  ('(r, _) ← ioctl_xfer (encode (class_of w) (Verify chv s)) [] 0; mret r) w.
Proof.
  intros Hc Hs Hl. unfold usim_verify. rewrite !M_bind_eq. cbn [cla gets].
  rewrite !M_bind_eq, strlen_cstring by done. cbn [lift].
  rewrite decide_False by (unfold zlen; lia). rewrite u8_byte by done. fold (class_of w).
  set (h := [class_of w; 0x20; 0x00; chv; 0x08]).
  rewrite M_bind_eq. unfold memcpy.
  rewrite (sub_exact [] (init s) (Some 0 :: b)) by (rewrite ?zlen_init; done). cbn [mbind option_bind].
  change (cmd_array 13 (h ++ replicate 8 48)) with (init (h ++ replicate 8 48)).
  replace (replicate 8 48) with (replicate (length s) 48 ++ replicate (8 - length s) 48)
    by (rewrite <- replicate_add; f_equal; lia).
  rewrite !init_app, (blit_exact (init h)) by (by rewrite ?length_init, ?length_replicate).
  cbn [lift]. rewrite M_bind_eq. unfold memset. rewrite decide_True by (unfold zlen; lia).
  rewrite <- (app_nil_r (init (replicate (8 - length s) 48))), !app_assoc, <- app_assoc.
  rewrite blit_exact.
  2: { rewrite zlen_app, !zlen_init. done. }
  2: { rewrite length_init, !length_replicate. unfold zlen. lia. }
  cbn [lift]. rewrite M_bind_eq, app_nil_r.
  replace (init h ++ init s) with (init (h ++ s)) by apply init_app.
  replace (replicate (Z.to_nat (8 - zlen s)) (Some 0xff)) with (init (replicate (8 - length s) 0xff)).
  2: { unfold init. rewrite fmap_replicate. f_equal. unfold zlen. lia. }
  rewrite <- init_app, <- app_assoc.
  replace 13 with (zlen (h ++ s ++ replicate (8 - length s) 0xff))
    by (rewrite !zlen_app; unfold zlen; rewrite length_replicate; unfold h; simpl; lia).
  by rewrite SendReceiveAPDU_init.
Qed.

(** ** FCP templates as TLV sequences *)
Definition enc_tlvs (ts : list (Z * list Z)) : list Z :=
  flat_map (λ '(t, v), t :: zlen v :: v) ts.

(** The file size: the last 1- or 2-byte size object. *)
Definition size_step (acc : option Z) (tv : Z * list Z) : option Z :=
  if decide (fst tv = USIM_TLV_FILE_SIZE) then
    match snd tv with [a] => Some a | [a; b] => Some (a * 256 + b) | _ => acc end
  else acc.
(** Record length and count: the last file descriptor. *)
Definition rec_step (acc : usim_rec_t) (tv : Z * list Z) : usim_rec_t :=
  if decide (fst tv = USIM_TLV_FILE_DESC) then
    match snd tv with _ :: _ :: h :: l :: c :: _ => Rec (Some (h * 256 + l)) (Some c) | _ => acc end
  else acc.

Definition wf_tlv (tv : Z * list Z) : Prop :=
  is_byte (fst tv) ∧ Forall is_byte (snd tv) ∧ zlen (snd tv) < 256.
(** A descriptor of a record file is at least five bytes long. *)
Definition wf_desc (tv : Z * list Z) : Prop :=
  fst tv = USIM_TLV_FILE_DESC → (5 ≤ length (snd tv))%nat.

Lemma enc_tlvs_cons t v ts : enc_tlvs ((t, v) :: ts) = t :: zlen v :: v ++ enc_tlvs ts.
Proof. done. Qed.

(** The [switch] on the TLV at [zlen pre]. *)
Lemma fcp_tlv_spec pre t v rest fl rc :
  wf_tlv (t, v) → (rc = None ∨ wf_desc (t, v)) →
  fcp_tlv (init (pre ++ t :: zlen v :: v ++ rest)) (zlen pre) fl rc =
  Some ((λ d, size_step d (t, v)) <$> fl, (λ d, rec_step d (t, v)) <$> rc).
Proof.
  intros (Ht & Hv & Hl) Hrc. unfold fcp_tlv.
  assert (Hrd : ∀ k, 0 ≤ k → rd (init (pre ++ t :: zlen v :: v ++ rest)) (zlen pre + k) =
            rd (init (t :: zlen v :: v ++ rest)) k) by (intros; by apply rd_init_app).
  rewrite <- (Z.add_0_r (zlen pre)) at 1. rewrite !Hrd by lia. cbn [fst snd] in *.
  change (rd (init (t :: zlen v :: v ++ rest)) 0) with (Some t). cbn [mbind option_bind].
  unfold size_step, rec_step. cbn [fst snd].
  destruct (decide (t = USIM_TLV_FILE_DESC)) as [->|Hd].
    destruct rc as [r|]; [|by destruct fl].
    destruct Hrc as [|Hrc]; [done|]. specialize (Hrc eq_refl). cbn [fst snd] in Hrc.
    do 5 (destruct v as [|? v]; [simpl in Hrc; lia|]).
    rd_eval. repeat (apply Forall_cons in Hv as [? Hv]).
    rewrite lor_shiftl_8 by done. by destruct fl.
  - destruct (decide (t = USIM_TLV_FILE_SIZE)) as [->|Hs]; [|by destruct fl, rc].
    destruct fl as [d|]; [|by destruct rc].
    change (rd _ 1) with (Some (zlen v)). cbn [mbind option_bind].
    destruct v as [|a [|b [|c v]]].
    + by destruct rc.
    + rd_eval. by destruct rc.
    + rd_eval. repeat (apply Forall_cons in Hv as [? Hv]).
      rewrite lor_shiftl_8 by done. by destruct rc.
    + rewrite !decide_False by (unfold zlen; simpl; lia). by destruct rc.
Qed.

(** The loop reads exactly the TLVs that tile the template. *)
Lemma fcp_loop_spec ts : ∀ pre post fl rc fuel,
  ts ≠ [] → Forall wf_tlv ts → (rc = None ∨ Forall wf_desc ts) → (length ts ≤ fuel)%nat →
  fcp_loop fuel (init (pre ++ enc_tlvs ts ++ post)) (zlen pre) (zlen pre + zlen (enc_tlvs ts)) fl rc =
  Some (0, (λ d, foldl size_step d ts) <$> fl, (λ d, foldl rec_step d ts) <$> rc).
Proof.
  induction ts as [|[t v] ts IH]; intros pre post fl rc fuel Hne Hwf Hrc Hfuel; [done|].
  destruct fuel as [|fuel]; [simpl in Hfuel; lia|].
  apply Forall_cons in Hwf as [Hw Hwf].
  rewrite enc_tlvs_cons. cbn [fcp_loop].
  rewrite decide_True by (rewrite !zlen_cons, zlen_app; pose proof (zlen_nonneg v);
    pose proof (zlen_nonneg (enc_tlvs ts)); lia).
  cbn [app]. rewrite <- app_assoc.
  rewrite fcp_tlv_spec.
  2: done.
  2: { destruct Hrc as [?|Hrc]; [by left|right]. by apply Forall_cons in Hrc as [? _]. }
  cbn [mbind option_bind].
  rewrite rd_init_app by lia. change (rd _ 1) with (Some (zlen v)). cbn [mbind option_bind].
  rewrite !zlen_cons, zlen_app.
  case_decide as Hend.
  - assert (zlen (enc_tlvs ts) = 0) by lia.
    destruct ts as [|[t' v'] ts]; [by destruct fl, rc|].
    rewrite enc_tlvs_cons, !zlen_cons, zlen_app in *.
    pose proof (zlen_nonneg v'); pose proof (zlen_nonneg (enc_tlvs ts)); lia.
  - replace (pre ++ t :: zlen v :: v ++ enc_tlvs ts ++ post)
      with ((pre ++ t :: zlen v :: v) ++ enc_tlvs ts ++ post)
      by (rewrite <- app_assoc; done).
    assert (Hz : zlen (pre ++ t :: zlen v :: v) = zlen pre + (2 + zlen v))
      by (rewrite zlen_app, !zlen_cons; lia).
    rewrite <- Hz.
    replace (zlen pre + (1 + (1 + (zlen v + zlen (enc_tlvs ts)))))
      with (zlen (pre ++ t :: zlen v :: v) + zlen (enc_tlvs ts)) by lia.
    rewrite IH.
    + destruct fl, rc; done.
    + intros ->. assert (zlen (enc_tlvs []) = 0) by done. lia.
    + done.
    + destruct rc as [r|]; [right|by left].
      destruct Hrc as [|Hrc]; [done|]. by apply Forall_cons in Hrc as [_ ?].
    + simpl in Hfuel. lia.
Qed.

Lemma length_enc_tlvs ts : (length ts ≤ length (enc_tlvs ts))%nat.
Proof.
  induction ts as [|[t v] ts IH]; [done|]. rewrite enc_tlvs_cons. simpl. rewrite length_app. lia.
Qed.

Lemma parse_fcp_spec p ts post fl rc :
  ts ≠ [] → Forall wf_tlv ts → (rc = None ∨ Forall wf_desc ts) → zlen (enc_tlvs ts) < 256 →
  usim_parse_fcp_tmpl (init ([p; 0x62; zlen (enc_tlvs ts)] ++ enc_tlvs ts ++ post)) fl rc =
  Some (0, (λ d, foldl size_step d ts) <$> fl, (λ d, foldl rec_step d ts) <$> rc).
Proof.
  intros Hne Hwf Hrc Hl. unfold usim_parse_fcp_tmpl.
  set (b := init _). change (rd b 1) with (Some 0x62).
  change (rd b 2) with (Some (zlen (enc_tlvs ts))). cbn [mbind option_bind].
  rewrite decide_False by (intros Hn; by apply Hn). unfold b.
  apply (fcp_loop_spec ts [p; 0x62; zlen (enc_tlvs ts)]); try done.
  pose proof (length_enc_tlvs ts). unfold zlen. lia.
Qed.

(** ** Reading a transparent file, exchange by exchange *)

Lemma drop_zeros k n : drop k (zeros n) = init (replicate (Z.to_nat n - k) 0).
Proof. unfold zeros. rewrite drop_replicate. unfold init. by rewrite fmap_replicate. Qed.

(** A three-byte reply fills the status buffer. *)
Lemma blit_resp3 (resp : buffer) a b c :
  length resp = 3%nat → blit resp 0 (init [a; b; c]) = Some (init [a; b; c]).
Proof.
  intros H3. rewrite blit_0 by (unfold zlen; rewrite H3; simpl; lia).
  by rewrite drop_ge by (rewrite H3; done).
Qed.

Lemma class_of_sent cmd e w : class_of (sent cmd e w) = class_of w.
Proof. done. Qed.
Lemma is_usim_sent cmd e w : is_usim (sent cmd e w) = is_usim w.
Proof. done. Qed.

(** SELECT answered with 61xx. *)
Lemma select_ef_61 f resp w e a n :
  0 ≤ f < 65536 → length resp = 3%nat →
  xfer (env w) (encode (class_of w) (SelectId (is_usim w) f)) 3 = (e, 0, [a; 0x61; n]) →
  select_ef f resp w =
  Some ((Fall, init [a; 0x61; n]), sent (encode (class_of w) (SelectId (is_usim w) f)) e w).
Proof.
  intros Hf H3 Hx. unfold select_ef.
  erewrite M_bind_run.
  2: { rewrite select_byid_run by done. eapply ioctl_xfer_run; [done|by apply blit_resp3]. }
  reflexivity.
Qed.

Lemma enter_dir_61 f resp w e a n :
  0 < f < 65536 →
  xfer (env w) (encode (class_of w) (SelectId (is_usim w) f)) 3 = (e, 0, [a; 0x61; n]) →
  enter_dir f resp w = Some ((Fall, init [a; 0x61; n], true),
    sent (encode (class_of w) (SelectId (is_usim w) f)) e w).
Proof.
  intros Hf Hx. unfold enter_dir. rewrite decide_False by lia.
  erewrite M_bind_run.
  2: { rewrite select_byid_run by lia. eapply ioctl_xfer_run; [done|by apply blit_resp3]. }
  reflexivity.
Qed.

(** Leaving a directory: the home application is selected again. *)
Definition home_select (w : lib E) (a : list Z) : option (list Z) :=
  if decide (sim_type (sim w) = 0) then Some (encode (class_of w) (SelectId (is_usim w) (sim_dir_fileid (sim w))))
  else if decide (sim_type (sim w) = 1) then Some (encode (class_of w) (SelectAid a)) else None.

(** Bytes behind a procedure byte and a body. *)
Lemma rd_after p (body tl : list Z) k x :
  tl !! k = Some x → rd (init (p :: body ++ tl)) (zlen body + 1 + Z.of_nat k) = Some x.
Proof.
  intros Hk. change (p :: body ++ tl) with ((p :: body) ++ tl).
  replace (zlen body + 1) with (zlen (p :: body)) by (rewrite zlen_cons; lia).
  rewrite rd_init_app by lia. by apply rd_init.
Qed.

Lemma fetch_fcp_run resp blen p body w e :
  rd resp 2 = Some blen → 0 ≤ blen ≤ 253 → zlen body = blen →
  xfer (env w) (encode (class_of w) (GetResponse blen)) (blen + 3) =
    (e, 0, p :: body ++ [0x90; 0x00]) →
  fetch_fcp resp w =
  Some ((Fall, init (p :: body ++ [0x90; 0x00] ++ replicate (Z.to_nat (253 - blen)) 0)),
        sent (encode (class_of w) (GetResponse blen)) e w).
Proof.
  intros Hr Hb Hl Hx. unfold fetch_fcp. rewrite M_bind_eq. erewrite lift_Some by done.
  assert (Hlen : length (p :: body ++ [0x90; 0x00]) = Z.to_nat (blen + 3))
    by (simpl; rewrite length_app; simpl; unfold zlen in Hl; lia).
  erewrite M_bind_run.
  2: { rewrite get_response_run by (unfold is_byte; lia).
       eapply ioctl_xfer_run; [done|].
       rewrite blit_0; [done|].
       rewrite zlen_init, zlen_zeros by lia. unfold zlen. rewrite Hlen. lia. }
  cbv beta iota. rewrite decide_False by lia. rewrite length_init, Hlen, drop_zeros.
  replace (Z.to_nat 256 - Z.to_nat (blen + 3))%nat with (Z.to_nat (253 - blen)) by lia.
  rewrite <- init_app. cbn [app]. rewrite <- app_assoc.
  set (b := p :: body ++ _).
  pose proof (λ k x, rd_after p body ([0x90; 0x00] ++ replicate (Z.to_nat (253 - blen)) 0) k x) as Hsw.
  fold b in Hsw. rewrite Hl in Hsw.
  rewrite M_bind_eq. rewrite (lift_Some (rd (init b) (blen + 1)) _ 0x90).
  2: { rewrite <- (Hsw 0%nat 0x90) by done. f_equal. lia. }
  rewrite decide_False by (intros Hn; by apply Hn).
  rewrite M_bind_eq, (lift_Some (rd (init b) (blen + 2)) _ 0x00).
  2: { rewrite <- (Hsw 1%nat 0x00) by done. f_equal. lia. }
  reflexivity.
Qed.

Lemma read_data_run n data p buf w e :
  zlen data = n → n ≤ zlen buf →
  malloc_null (env w) (n + 3) = false →
  xfer (env w) (encode (class_of w) (ReadBinary (u8 n))) (n + 3) =
    (e, 0, p :: data ++ [0x90; 0x00]) →
  read_transparent_data n buf w =
  Some ((Fall, init data ++ drop (length data) buf),
        sent (encode (class_of w) (ReadBinary (u8 n))) e w).
Proof.
  intros Hn Hcap Hm Hx. pose proof (zlen_nonneg data) as Hpos.
  unfold read_transparent_data. rewrite M_bind_eq. unfold gets at 1. rewrite Hm.
  assert (Hlen : length (p :: data ++ [0x90; 0x00]) = Z.to_nat (n + 3))
    by (simpl; rewrite length_app; simpl; unfold zlen in Hn; lia).
  erewrite M_bind_run.
  2: { rewrite read_binary_run. eapply ioctl_xfer_run; [done|].
       rewrite blit_0; [done|]. rewrite zlen_init, zlen_undef by lia.
       unfold zlen. rewrite Hlen. lia. }
  cbv beta iota. rewrite decide_False by lia. rewrite length_init, Hlen.
  rewrite (drop_ge (undef _)) by (unfold undef; rewrite length_replicate; lia).
  rewrite app_nil_r.
  pose proof (λ k x, rd_after p data [0x90; 0x00] k x) as Hsw. rewrite Hn in Hsw.
  rewrite M_bind_eq. rewrite (lift_Some (rd _ (n + 1)) _ 0x90).
  2: { rewrite <- (Hsw 0%nat 0x90) by done. f_equal. lia. }
  rewrite decide_False by (intros Hd; by apply Hd).
  rewrite M_bind_eq, (lift_Some (rd _ (n + 2)) _ 0x00).
  2: { rewrite <- (Hsw 1%nat 0x00) by done. f_equal. lia. }
  rewrite decide_False by (intros Hd; by apply Hd).
  rewrite M_bind_eq.
  rewrite (lift_Some _ _ (init data ++ drop (length data) buf)); [done|].
  unfold memcpy. change (p :: data ++ [0x90; 0x00]) with ([p] ++ data ++ [0x90; 0x00]).
  rewrite !init_app, (sub_exact (init [p]) (init data)) by (by rewrite ?zlen_init).
  cbn [mbind option_bind]. rewrite blit_0 by (rewrite zlen_init; lia). by rewrite length_init.
Qed.

Lemma go_back_usim resp w a b e r out :
  sim_type (sim w) = USIM_TYPE → aid w = init a ++ b → aid_len w = zlen a →
  (5 + length a ≤ 50)%nat → length resp = 3%nat → zlen out ≤ 3 →
  xfer (env w) (encode (class_of w) (SelectAid a)) 3 = (e, r, out) →
  go_back true resp w = Some (tt, sent (encode (class_of w) (SelectAid a)) e w).
Proof.
  intros Ht Ha Hn Hl Hr Hout Hx. unfold go_back.
  rewrite !M_bind_eq. cbn [gets]. rewrite Ht. rewrite decide_False, decide_True by done.
  rewrite !M_bind_eq. cbn [gets]. rewrite M_bind_eq. cbn [gets]. rewrite Ha, Hn.
  erewrite M_bind_run.
  2: { rewrite select_byaid_run by done. eapply ioctl_xfer_run; [done|].
       rewrite blit_0 by (rewrite zlen_init; unfold zlen in *; lia). done. }
  done.
Qed.

(** [usim_read_transparent] on the selected file, for a USIM. *)
Lemma read_body_run ts n data p p' len0 buf resp w e1 e2 :
  sim_type (sim w) = USIM_TYPE →
  ts ≠ [] → Forall wf_tlv ts → foldl size_step None ts = Some n →
  rd resp 2 = Some (zlen (enc_tlvs ts) + 2) → zlen (enc_tlvs ts) ≤ 251 →
  xfer (env w) (encode (class_of w) (GetResponse (zlen (enc_tlvs ts) + 2)))
    (zlen (enc_tlvs ts) + 2 + 3) =
    (e1, 0, p :: [0x62; zlen (enc_tlvs ts)] ++ enc_tlvs ts ++ [0x90; 0x00]) →
  zlen data = n → n ≤ zlen buf → malloc_null e1 (n + 3) = false →
  xfer e1 (encode (class_of w) (ReadBinary (u8 n))) (n + 3) = (e2, 0, p' :: data ++ [0x90; 0x00]) →
  read_transparent_body len0 buf resp w =
  Some ((Fall, n, init data ++ drop (length data) buf),
    sent (encode (class_of w) (ReadBinary (u8 n))) e2
      (sent (encode (class_of w) (GetResponse (zlen (enc_tlvs ts) + 2))) e1 w)).
Proof.
  intros Ht Hne Hwf Hsz Hr Hl Hx1 Hd Hcap Hm Hx2.
  pose proof (zlen_nonneg (enc_tlvs ts)) as HL. set (L := zlen (enc_tlvs ts)) in *.
  unfold read_transparent_body.
  erewrite M_bind_run.
  2: { apply (fetch_fcp_run resp (L + 2) p ([0x62; L] ++ enc_tlvs ts) w e1); [done|lia| |].
       - rewrite zlen_app, !zlen_cons, zlen_nil. fold L. lia.
       - by rewrite <- app_assoc. }
  cbv beta iota.
  set (b := init _). set (w1 := sent _ e1 w).
  assert (Hlen : transparent_len len0 b w1 = Some ((Fall, n), w1)).
  { unfold transparent_len. rewrite M_bind_eq. cbn [gets].
    change (sim w1) with (sim w). rewrite Ht, decide_True by done.
    erewrite M_bind_run.
    2: { apply lift_Some, (parse_fcp_spec p ts ([0x90; 0x00] ++ replicate (Z.to_nat (253 - (L + 2))) 0));
         [done|done|by left|fold L; lia]. }
    cbn [fmap option_fmap option_map]. rewrite decide_False by lia.
    rewrite Hsz. reflexivity. }
  rewrite (M_bind_run _ _ _ _ _ Hlen). cbv beta iota.
  by rewrite (M_bind_run _ _ _ _ _ (read_data_run n data p' buf w1 e2 Hd Hcap Hm Hx2)).
Qed.

(** ** Frame: commands leave the library's globals alone and only add to the wire *)
Definition frame {A} (m : M (lib E) A) : Prop := ∀ w a w', m w = Some (a, w') →
  sim w' = sim w ∧ aid w' = aid w ∧ aid_len w' = aid_len w ∧ ∃ l, wire w' = wire w ++ l.

Lemma frame_ret {A} (a : A) : frame (mret a).
Proof. intros w b w' [= <- <-]. repeat split; try done. exists []. by rewrite app_nil_r. Qed.
Lemma frame_bind {A B} (m : M (lib E) A) (k : A → M (lib E) B) :
  frame m → (∀ a, frame (k a)) → frame (m ≫= k).
Proof.
  intros Hm Hk w b w' H1. apply M_bind_Some in H1 as (a & w1 & H1 & H2).
  destruct (Hm _ _ _ H1) as (Hs & Ha & Hn & l1 & Hl1).
  destruct (Hk _ _ _ _ H2) as (Hs2 & Ha2 & Hn2 & l2 & Hl2).
  repeat split; try congruence. exists (l1 ++ l2). by rewrite Hl2, Hl1, app_assoc.
Qed.
Lemma frame_lift {A} (o : option A) : frame (lift o).
Proof.
  intros w a w'. unfold lift. destruct o; [|done]. intros [= <- <-].
  repeat split; try done. exists []. by rewrite app_nil_r.
Qed.
Lemma frame_gets {A} (f : lib E → A) : frame (gets f).
Proof. intros w a w' [= <- <-]. repeat split; try done. exists []. by rewrite app_nil_r. Qed.
Lemma frame_ioctl cmd resp n : frame (ioctl_xfer cmd resp n).
Proof.
  intros w [r resp'] w' Hx. apply ioctl_xfer_inv in Hx as (e & out & _ & _ & ->).
  repeat split; try done. by exists [cmd].
Qed.
Lemma frame_os {A} (f : E → E * A) : frame (os f).
Proof.
  intros w a w'. unfold os. destruct (f (env w)). intros [= <- <-].
  repeat split; try done. exists []. by rewrite app_nil_r.
Qed.

(** Walk through the binds and branches of a body; the lemmas on the commands
    are hints. *)
End Spec.

(** One step per construct; a command's frame is a hint. *)
Ltac frame_tac := repeat first
  [ solve [auto with frame] | apply frame_ret | apply frame_lift | apply frame_gets | apply frame_ioctl | apply frame_os
  | assumption
  | apply frame_bind; [|intros ?]
  | match goal with |- frame (if ?b then _ else _) => destruct b end
  | match goal with |- frame (match ?x with _ => _ end) => destruct x end ].

Section Frames.
Context {E : Type} `{Env E}.

Lemma frame_send cmd n resp m : frame (SendReceiveAPDU cmd n resp m).
Proof. unfold SendReceiveAPDU. frame_tac. Qed.
#[local] Hint Resolve frame_send : frame.
Lemma frame_byid f b n : frame (usim_select_file_byid f b n).
Proof. unfold usim_select_file_byid, cla. frame_tac. Qed.
Lemma frame_byaid a l b n : frame (usim_select_file_byaid a l b n).
Proof. unfold usim_select_file_byaid. frame_tac. Qed.
Lemma frame_update_binary l b h lo n r : frame (usim_update_binary l b h lo n r).
Proof. unfold usim_update_binary, cla. frame_tac. Qed.
Lemma frame_update_record i l b n r : frame (usim_update_record i l b n r).
Proof. unfold usim_update_record, cla. frame_tac. Qed.
Lemma frame_read_record i l b : frame (usim_read_record i l b).
Proof. unfold usim_read_record, cla. frame_tac. Qed.
Lemma frame_read_binary l b : frame (usim_read_binary l b).
Proof. unfold usim_read_binary, cla. frame_tac. Qed.
Lemma frame_get_response l b : frame (usim_get_response l b).
Proof. unfold usim_get_response, cla. frame_tac. Qed.
Lemma frame_admin_verify l b : frame (usim_admin_verify l b).
Proof. unfold usim_admin_verify, usim_read_adminpin, read_from_flash, cla. frame_tac. Qed.
#[local] Hint Resolve frame_byid frame_byaid frame_update_binary frame_update_record
  frame_read_record frame_read_binary frame_get_response frame_admin_verify : frame.

Lemma frame_fetch_fcp r : frame (fetch_fcp r).
Proof. unfold fetch_fcp. frame_tac. Qed.
Lemma frame_select_ef f r : frame (select_ef f r).
Proof. unfold select_ef. frame_tac. Qed.
#[local] Hint Resolve frame_fetch_fcp frame_select_ef : frame.

Lemma frame_write_records n : ∀ i l b r, frame (write_records n i l b r).
Proof. induction n as [|n IH]; intros; cbn [write_records]; frame_tac. Qed.
Lemma frame_read_records n : ∀ i rl l b r, frame (read_records n i rl l b r).
Proof. induction n as [|n IH]; intros; cbn [read_records]; frame_tac. Qed.
#[local] Hint Resolve frame_write_records frame_read_records : frame.

(** A body that never returns out of the function: it reaches the end or the
    [error] label. *)
Definition no_return {A} (ex : A → exit) (m : M (lib E) A) : Prop :=
  ∀ w a w', m w = Some (a, w') → ex a = Fall ∨ ex a = GotoError.

Lemma nr_ret {A} (ex : A → exit) a :
  ex a = Fall ∨ ex a = GotoError → no_return ex (mret a).
Proof. by intros H1 w b w' [= <- _]. Qed.
Lemma nr_bind {A B} (ex : B → exit) (m : M (lib E) A) k :
  (∀ a, no_return ex (k a)) → no_return ex (m ≫= k).
Proof. intros Hk w b w' H1. apply M_bind_Some in H1 as (a & w1 & _ & H2). by eapply Hk. Qed.
Lemma nr_bind2 {A B} (ex : A → exit) (ex' : B → exit) (m : M (lib E) A) k :
  no_return ex m → (∀ a, ex a = Fall ∨ ex a = GotoError → no_return ex' (k a)) →
  no_return ex' (m ≫= k).
Proof.
  intros Hm Hk w b w' H1. apply M_bind_Some in H1 as (a & w1 & H1 & H2).
  eapply Hk; [by eapply Hm|done].
Qed.
Lemma nr_lift_None {A} (ex : A → exit) : no_return ex (lift None).
Proof. by intros w a w'. Qed.

Ltac nr_tac := repeat first
  [ apply nr_lift_None
  | apply nr_ret; cbn [fst snd]; repeat case_match; (assumption || (left; reflexivity) || (right; reflexivity))
  | apply nr_bind; intros ?
  | match goal with |- no_return _ (if ?b then _ else _) => destruct b end
  | match goal with |- no_return _ (match ?x with (_, _) => _ end) => destruct x end ].

Lemma nr_fetch_fcp r : no_return fst (fetch_fcp r).
Proof. unfold fetch_fcp. nr_tac. Qed.
Lemma nr_transparent_len l b : no_return fst (transparent_len l b).
Proof. unfold transparent_len. nr_tac. Qed.
Lemma nr_transparent_data l b : no_return fst (read_transparent_data l b).
Proof. unfold read_transparent_data. nr_tac. Qed.
Lemma nr_record_layout b : no_return fst (record_layout b).
Proof. unfold record_layout. nr_tac. Qed.
Lemma nr_write_records n : ∀ i l b r, no_return fst (write_records n i l b r).
Proof. induction n as [|n IH]; intros; cbn [write_records]; nr_tac; apply IH. Qed.
Lemma nr_read_records n : ∀ i rl l b r, no_return (fst ∘ fst) (read_records n i rl l b r).
Proof. induction n as [|n IH]; intros; cbn [read_records]; nr_tac; apply IH. Qed.

Lemma nr_write_transparent len b lo hi r : no_return fst (write_transparent_body len b lo hi r).
Proof.
  unfold write_transparent_body. apply nr_bind. intros [ret resp]. case_decide; [nr_tac|].
  apply nr_bind. intros denied. apply (nr_bind2 fst).
  - nr_tac.
  - intros [x resp'] [Hx|Hx]; cbn [fst] in Hx; subst x; nr_tac.
Qed.
Lemma nr_read_transparent len b r : no_return (fst ∘ fst) (read_transparent_body len b r).
Proof.
  unfold read_transparent_body. apply (nr_bind2 fst); [apply nr_fetch_fcp|].
  intros [x buf] [Hx|Hx]; cbn [fst] in Hx; subst x; [|nr_tac].
  apply (nr_bind2 fst); [apply nr_transparent_len|].
  intros [x l] [Hx|Hx]; cbn [fst] in Hx; subst x; [|nr_tac].
  apply (nr_bind2 fst); [apply nr_transparent_data|].
  intros [x l'] [Hx|Hx]; cbn [fst] in Hx; subst x; nr_tac.
Qed.
Lemma nr_write_linearfixed len b r : no_return fst (write_linearfixed_body len b r).
Proof.
  unfold write_linearfixed_body. apply (nr_bind2 fst); [apply nr_fetch_fcp|].
  intros [x buf] [Hx|Hx]; cbn [fst] in Hx; subst x; [|nr_tac].
  apply (nr_bind2 fst); [apply nr_record_layout|].
  intros [x l] [Hx|Hx]; cbn [fst] in Hx; subst x; [|nr_tac].
  apply nr_bind. intros count. apply nr_write_records.
Qed.
Lemma nr_read_linearfixed len b r : no_return (fst ∘ fst) (read_linearfixed_body len b r).
Proof.
  unfold read_linearfixed_body. apply (nr_bind2 fst); [apply nr_fetch_fcp|].
  intros [x buf] [Hx|Hx]; cbn [fst] in Hx; subst x; [|nr_tac].
  apply (nr_bind2 fst); [apply nr_record_layout|].
  intros [x l] [Hx|Hx]; cbn [fst] in Hx; subst x; [|nr_tac].
  apply nr_bind. intros count. case_decide; [nr_tac|].
  apply nr_bind. intros reclen. apply nr_read_records.
Qed.

Lemma frame_bodies len b lo hi r :
  frame (write_transparent_body len b lo hi r) ∧ frame (read_transparent_body len b r) ∧
  frame (write_linearfixed_body len b r) ∧ frame (read_linearfixed_body len b r).
Proof.
  unfold write_transparent_body, read_transparent_body, transparent_len, read_transparent_data,
    write_linearfixed_body, read_linearfixed_body, record_layout.
  refine (conj _ (conj _ (conj _ _))); frame_tac.
Qed.

(** ** The four file operations *)
Inductive file_op :=
  | ReadTransparent (fileid len : Z) (buf : buffer)
  | WriteTransparent (fileid len : Z) (buf : buffer) (low high : Z)
  | ReadLinear (fileid len : Z) (buf : buffer)
  | WriteLinear (fileid len : Z) (buf : buffer).

Definition op_file (o : file_op) : Z :=
  match o with
  | ReadTransparent f _ _ | WriteTransparent f _ _ _ _ | ReadLinear f _ _ | WriteLinear f _ _ => f
  end.

Definition run_op (o : file_op) (dir : Z) : M (lib E) Z :=
  match o with
  | ReadTransparent f l b => '(r, _, _) ← usim_read_transparent f l b dir; mret r
  | WriteTransparent f l b lo hi => usim_write_transparent f l b lo hi dir
  | ReadLinear f l b => '(r, _, _) ← usim_read_linearfixed f l b dir; mret r
  | WriteLinear f l b => usim_write_linearfixed f l b dir
  end.

(** The home application can be selected: its AID is stored, or its file id is. *)
Definition home_ok (w : lib E) (a : list Z) : Prop :=
  0 ≤ sim_dir_fileid (sim w) < 65536 ∧ (5 + length a ≤ 50)%nat ∧
  (∃ b, aid w = init a ++ b) ∧ aid_len w = zlen a.

Lemma go_back_wire resp w a u w' :
  home_ok w a → go_back true resp w = Some (u, w') →
  wire w' = wire w ++ option_list (home_select w a).
Proof.
  intros (Hd & Hl & [b Ha] & Hn) H1. unfold go_back in H1.
  rewrite M_bind_eq in H1. cbn [gets] in H1. unfold home_select.
  destruct (decide (sim_type (sim w) = 0)).
  - apply M_bind_Some in H1 as ([r rs] & w1 & H1 & H2). injection H2 as _ <-.
    rewrite select_byid_run in H1 by done.
    apply ioctl_xfer_inv in H1 as (e1 & out & _ & _ & ->). done.
  - destruct (decide (sim_type (sim w) = 1)).
    + rewrite !M_bind_eq in H1. cbn [gets] in H1. rewrite M_bind_eq in H1. cbn [gets] in H1.
      apply M_bind_Some in H1 as ([r rs] & w1 & H1 & H2). injection H2 as _ <-.
      rewrite Ha, Hn, select_byaid_run in H1 by done.
      apply ioctl_xfer_inv in H1 as (e1 & out & _ & _ & ->). done.
    + injection H1 as _ <-. by rewrite app_nil_r.
Qed.

(** What is left of a file operation once its directory is entered. *)
Definition file_tail {A} (ex : A → exit) (rs : A → buffer) (fileid : Z) (resp0 : buffer)
    (body : buffer → M (lib E) A) (skip : exit → buffer → A) : M (lib E) Z :=
  '(x, resp) ← select_ef fileid resp0;
  a ← match x with Fall => body resp | x => mret (skip x resp) end;
  conclude (ex a) true (rs a).

Lemma select_ef_wire f resp w x r w' :
  0 ≤ f < 65536 → select_ef f resp w = Some ((x, r), w') →
  wire w' = wire w ++ [encode (class_of w) (SelectId (is_usim w) f)] ∧
  (x = Fall ∨ x = GotoError ∨ x = Return VTQ_USIM_FILE_NOT_SUPPORTED).
Proof.
  intros Hf H1. unfold select_ef in H1.
  apply M_bind_Some in H1 as ([ret r1] & w1 & H1 & H2).
  rewrite select_byid_run in H1 by done.
  apply ioctl_xfer_inv in H1 as (e1 & out & _ & _ & ->).
  assert (Hw : ∀ (y : exit) (b : buffer) (v : lib E),
    Some ((y, b), sent (encode (class_of w) (SelectId (is_usim w) f)) e1 w) = Some ((x, r), v) → v = w' →
    wire w' = wire w ++ [encode (class_of w) (SelectId (is_usim w) f)] ∧ y = x).
  { intros y b v [= -> _ <-] <-. done. }
  case_decide; [destruct (Hw _ _ _ H2 eq_refl) as [? <-]; auto|].
  apply M_bind_Some in H2 as (u & w2 & H2 & H3).
  unfold lift in H2. destruct (sw_is r1 0x6a 0x82); [|done]. injection H2 as -> <-.
  destruct u; [destruct (Hw _ _ _ H3 eq_refl) as [? <-]; auto|].
  apply M_bind_Some in H3 as (u & w2 & H2 & H3).
  unfold lift in H2. destruct (select_failed r1); [|done]. injection H2 as -> <-.
  destruct (Hw _ _ _ H3 eq_refl) as [? <-]. destruct u; auto.
Qed.

Lemma file_tail_wire {A} (ex : A → exit) rs f resp0 body skip w r w' a :
  0 ≤ f < 65536 → home_ok w a →
  (∀ b, no_return ex (body b)) → (∀ b, frame (body b)) → (∀ x b, ex (skip x b) = x) →
  @file_tail A ex rs f resp0 body skip w = Some (r, w') →
  (r = VTQ_USIM_FILE_NOT_SUPPORTED ∧
   wire w' = wire w ++ [encode (class_of w) (SelectId (is_usim w) f)]) ∨
  ((r = 0 ∨ r = -1) ∧
   ∃ l, wire w' = wire w ++ encode (class_of w) (SelectId (is_usim w) f) :: l ++ option_list (home_select w a)).
Proof.
  intros Hf Hok Hnr Hfr Hsk H1. unfold file_tail in H1.
  apply M_bind_Some in H1 as ([x resp] & w1 & H1 & H2).
  destruct (select_ef_wire _ _ _ _ _ _ Hf H1) as [Hw1 Hx].
  destruct (frame_select_ef f resp0 _ _ _ H1) as (Hs1 & Ha1 & Hn1 & _).
  apply M_bind_Some in H2 as (o & w2 & H2 & H3).
  assert (Hcase : (ex o = Fall ∨ ex o = GotoError) ∧ frame (match x with Fall => body resp | x => mret (skip x resp) end)
    ∨ ex o = Return VTQ_USIM_FILE_NOT_SUPPORTED ∧ w2 = w1).
  { destruct Hx as [->|[->| ->]].
    - left. split; [by eapply Hnr|apply Hfr].
    - left. injection H2 as <- <-. rewrite Hsk. split; [by right|apply frame_ret].
    - right. injection H2 as <- <-. by rewrite Hsk. }
  destruct Hcase as [[Hex Hfx]|[Hex ->]].
  - right. destruct (Hfx _ _ _ H2) as (Hs2 & Ha2 & Hn2 & l & Hl).
    assert (Hok2 : home_ok w2 a)
      by (destruct Hok as (?&?&?&?); unfold home_ok; rewrite Hs2, Ha2, Hn2, Hs1, Ha1, Hn1; done).
    assert (Hback : ∃ u, go_back true (rs o) w2 = Some (u, w') ∧ (r = 0 ∨ r = -1)).
    { destruct Hex as [Hex|Hex]; rewrite Hex in H3; cbn [conclude] in H3;
        apply M_bind_Some in H3 as (u & w3 & H3 & H4); injection H4 as <- <-; eauto. }
    destruct Hback as (u & Hb & Hr). split; [done|]. exists l.
    rewrite (go_back_wire _ _ _ _ _ Hok2 Hb), Hl, Hw1.
    replace (home_select w2 a) with (home_select w a)
      by (unfold home_select, class_of, is_usim; by rewrite Hs2, Hs1).
    by rewrite <- !app_assoc.
  - left. rewrite Hex in H3. cbn [conclude] in H3. injection H3 as <- <-. by split.
Qed.

Lemma sw_is_init a s1 s2 x y :
  sw_is (init [a; s1; s2]) x y = Some (bool_decide (s1 = x ∧ s2 = y)).
Proof.
  unfold sw_is. rd_eval. case_decide; cbn [mbind option_bind];
    f_equal; repeat case_bool_decide; lia || done.
Qed.
Lemma select_failed_init a s1 s2 :
  select_failed (init [a; s1; s2]) =
  Some (bool_decide (¬ (s1 = 0x90 ∧ s2 = 0x00) ∧ s1 ≠ 0x61 ∧ s1 ≠ 0x9F)).
Proof.
  unfold select_failed. rewrite sw_is_init. rd_eval. f_equal.
  repeat case_bool_decide; cbn [negb andb]; tauto || lia.
Qed.

(** A directory whose select succeeded, given the first exchange. *)
Lemma enter_dir_ok dir resp w e1 a s1 s2 :
  0 < dir < 65536 →
  xfer (env w) (encode (class_of w) (SelectId (is_usim w) dir)) 3 = (e1, 0, [a; s1; s2]) →
  (s1 = 0x90 ∧ s2 = 0x00) ∨ s1 = 0x61 ∨ s1 = 0x9F →
  enter_dir dir resp w =
  Some ((Fall, init [a; s1; s2], true), sent (encode (class_of w) (SelectId (is_usim w) dir)) e1 w).
Proof.
  intros Hd Hx Hs. unfold enter_dir. rewrite decide_False by lia.
  erewrite M_bind_run.
  2: { rewrite select_byid_run by lia. eapply ioctl_xfer_run; [done|by apply blit_resp3]. }
  cbv beta iota. rewrite decide_False by lia.
  rewrite M_bind_eq, sw_is_init. cbn [lift].
  rewrite bool_decide_eq_false_2 by lia. cbv iota.
  rewrite M_bind_eq, select_failed_init. cbn [lift].
  by rewrite bool_decide_eq_false_2 by lia.
Qed.

Lemma run_op_tail o dir w e1 a s1 s2 :
  0 < dir < 65536 →
  xfer (env w) (encode (class_of w) (SelectId (is_usim w) dir)) 3 = (e1, 0, [a; s1; s2]) →
  (s1 = 0x90 ∧ s2 = 0x00) ∨ s1 = 0x61 ∨ s1 = 0x9F →
  let w1 := sent (encode (class_of w) (SelectId (is_usim w) dir)) e1 w in
  run_op o dir w =
  match o with
  | ReadTransparent f l b =>
      file_tail (fst ∘ fst ∘ fst) snd f (zeros 3)
        (λ r, a ← read_transparent_body l b r; mret (a, r)) (λ x r, ((x, l, b), r)) w1
  | WriteTransparent f l b lo hi =>
      file_tail fst snd f (zeros 3) (write_transparent_body l b lo hi) pair w1
  | ReadLinear f l b =>
      file_tail (fst ∘ fst ∘ fst) snd f (zeros 3)
        (λ r, a ← read_linearfixed_body l b r; mret (a, r)) (λ x r, ((x, l, b), r)) w1
  | WriteLinear f l b => file_tail fst snd f (init [a; s1; s2]) (write_linearfixed_body l b) pair w1
  end.
Proof.
  intros Hd Hx Hs w1. pose proof (λ resp, enter_dir_ok dir resp w _ _ _ _ Hd Hx Hs) as He.
  destruct o as [f l b|f l b lo hi|f l b|f l b]; cbn [run_op].
  - unfold usim_read_transparent, file_tail. rewrite !M_bind_eq, He. cbv beta iota.
    rewrite !M_bind_eq. fold w1. destruct (select_ef f (zeros 3) w1) as [[[x r] w2]|]; [|done].
    rewrite !M_bind_eq. destruct x; cbn [mret M_ret].
    + rewrite !M_bind_eq. destruct (read_transparent_body l b r w2) as [[[[x l'] b'] w3]|]; [|done].
      cbn [mret M_ret]. rewrite !M_bind_eq. cbn [fst snd compose]. by destruct (conclude x true r w3) as [[? ?]|].
    + rewrite !M_bind_eq. cbn [fst snd compose]. by destruct (conclude GotoError true r w2) as [[? ?]|].
    + done.
  - unfold usim_write_transparent, file_tail. rewrite !M_bind_eq, He. cbv beta iota.
    rewrite !M_bind_eq. fold w1. destruct (select_ef f (zeros 3) w1) as [[[x r] w2]|]; [|done].
    rewrite !M_bind_eq. destruct x; cbn [mret M_ret]; [|done|done].
    by destruct (write_transparent_body l b lo hi r w2) as [[[? ?] ?]|].
  - unfold usim_read_linearfixed, file_tail. rewrite !M_bind_eq, He. cbv beta iota.
    rewrite !M_bind_eq. fold w1. destruct (select_ef f (zeros 3) w1) as [[[x r] w2]|]; [|done].
    rewrite !M_bind_eq. destruct x; cbn [mret M_ret].
    + rewrite !M_bind_eq. destruct (read_linearfixed_body l b r w2) as [[[[x l'] b'] w3]|]; [|done].
      cbn [mret M_ret]. rewrite !M_bind_eq. cbn [fst snd compose]. by destruct (conclude x true r w3) as [[? ?]|].
    + rewrite !M_bind_eq. cbn [fst snd compose]. by destruct (conclude GotoError true r w2) as [[? ?]|].
    + done.
  - unfold usim_write_linearfixed, file_tail. rewrite !M_bind_eq, He. cbv beta iota.
    rewrite !M_bind_eq. fold w1. destruct (select_ef f _ w1) as [[[x r] w2]|]; [|done].
    rewrite !M_bind_eq. destruct x; cbn [mret M_ret]; [|done|done].
    by destruct (write_linearfixed_body l b r w2) as [[[? ?] ?]|].
Qed.

Lemma op_wire o dir w e1 p s1 s2 a r w' :
  0 < dir < 65536 → 0 ≤ op_file o < 65536 → home_ok w a →
  xfer (env w) (encode (class_of w) (SelectId (is_usim w) dir)) 3 = (e1, 0, [p; s1; s2]) →
  (s1 = 0x90 ∧ s2 = 0x00) ∨ s1 = 0x61 ∨ s1 = 0x9F →
  run_op o dir w = Some (r, w') →
  let df := encode (class_of w) (SelectId (is_usim w) dir) in
  let ef := encode (class_of w) (SelectId (is_usim w) (op_file o)) in
  (r = VTQ_USIM_FILE_NOT_SUPPORTED ∧ wire w' = wire w ++ [df; ef]) ∨
  ((r = 0 ∨ r = -1) ∧ ∃ l, wire w' = wire w ++ df :: ef :: l ++ option_list (home_select w a)).
Proof.
  intros Hd Hf Hok Hx Hs Hrun df ef.
  rewrite (run_op_tail o dir w e1 p s1 s2 Hd Hx Hs) in Hrun. cbv zeta in Hrun. fold df in Hrun.
  set (w1 := sent df e1 w) in *.
  assert (Hok1 : home_ok w1 a) by done.
  assert (Hfin : ∀ (Q : list (list Z) → Prop),
     (r = VTQ_USIM_FILE_NOT_SUPPORTED ∧ wire w' = wire w1 ++ [ef]) ∨
     ((r = 0 ∨ r = -1) ∧ ∃ l, wire w' = wire w1 ++ ef :: l ++ option_list (home_select w a)) →
     (r = VTQ_USIM_FILE_NOT_SUPPORTED ∧ wire w' = wire w ++ [df; ef]) ∨
     ((r = 0 ∨ r = -1) ∧ ∃ l, wire w' = wire w ++ df :: ef :: l ++ option_list (home_select w a))).
  { intros _. cbn [wire w1 sent]. rewrite <- !app_assoc. intros [[? ->]|[? [l Hl]]]; [by left|right].
    split; [done|]. exists l. rewrite Hl. by rewrite <- app_assoc. }
  apply (Hfin (λ _, True)). clear Hfin.
  destruct o as [f l b|f l b lo hi|f l b|f l b]; cbn [op_file] in *;
    (eapply file_tail_wire in Hrun; [exact Hrun|done|exact Hok1|..]); intros; try done.
  - apply (nr_bind2 (fst ∘ fst)); [apply nr_read_transparent|]. intros a0 Ha0. by apply nr_ret.
  - apply frame_bind; [apply frame_bodies|]; try done. intros; apply frame_ret.
  - apply nr_write_transparent.
  - by apply (frame_bodies l b lo hi b0).
  - apply (nr_bind2 (fst ∘ fst)); [apply nr_read_linearfixed|]. intros a0 Ha0. by apply nr_ret.
  - apply frame_bind; [apply frame_bodies|]; try done. intros; apply frame_ret.
  - apply nr_write_linearfixed.
  - by apply (frame_bodies l b 0 0 b0).
Qed.

End Frames.

#[export] Hint Resolve frame_send frame_byid frame_byaid frame_update_binary frame_update_record
  frame_read_record frame_read_binary frame_get_response frame_admin_verify
  frame_fetch_fcp frame_select_ef frame_write_records frame_read_records : frame.
