(* ===== verification/UsimScript.v ===== *)
(** * A scripted reader

    A concrete instance of [Env]: the replies of the card are a list given in
    advance.  It keeps the laws of [UsimDev], and the theorems on the library
    are evaluated on it. *)
From S2P Require Import Prelude UsimApdu.
From stdpp Require Import strings.
#[global] Open Scope Z_scope.

(** [Some bytes]: the card answers with these (cut or padded with zeros to the
    length asked for); [None]: the ioctl fails. *)
Record script := Script { replies : list (option (list Z)) }.

(** The driver's answer to one transfer. *)
Definition script_reply (r : option (list Z)) (n : Z) : Z * list Z :=
  match r with
  | Some bytes =>
      if decide (2 ≤ n ≤ 256) then (0, take (Z.to_nat n) ((u8 <$> bytes) ++ replicate (Z.to_nat n) 0))
      else (-1, [])
  | None => (-1, [])
  end.

#[export] Instance script_env : Env script := {|
  xfer e cmd n :=
    let '(r, out) := script_reply (mjoin (head (replies e))) n in (Script (tail (replies e)), r, out);
  os_open e _ := (e, 3);
  os_lseek e _ off := (e, off);
  os_read e _ n := (e, n, replicate (Z.to_nat n) 49);
  os_close e _ := e;
  malloc_null _ _ := false |}.

Lemma script_reply_ok r n r' out : script_reply r n = (r', out) →
  zlen out ≤ Z.max 0 n ∧ Forall is_byte out ∧ (r' = 0 ∨ r' = -1) ∧
  (r' = 0 → zlen out = n ∧ 1 ≤ n ≤ 256).
Proof.
  destruct r as [bytes|]; cbn [script_reply]; [case_decide as Hn|]; intros [= <- <-].
  - assert (Hz : zlen (take (Z.to_nat n) ((u8 <$> bytes) ++ replicate (Z.to_nat n) 0)) = n).
    { unfold zlen. rewrite length_take, length_app, length_fmap, length_replicate. lia. }
    rewrite Hz. split; [lia|]. split; [|split; [by left|lia]].
    apply Forall_take, Forall_app. split.
    + apply Forall_fmap, Forall_forall. intros x _. cbn [compose].
      unfold u8, is_byte. apply Z.mod_pos_bound. lia.
    + apply Forall_replicate. unfold is_byte; lia.
  - split; [rewrite zlen_nil; lia|]. split; [done|]. split; [by right|lia].
  - split; [rewrite zlen_nil; lia|]. split; [done|]. split; [by right|lia].
Qed.

(** A reader whose replies come from [script_reply] is lawful. *)
Lemma script_lawful `{Env E} (reply : E → list Z → option (list Z)) :
  (∀ e cmd n e' r out, xfer e cmd n = (e', r, out) → script_reply (reply e cmd) n = (r, out)) →
  UsimDev E.
Proof.
  intros Hx. split.
  - intros e cmd n e' r out Hr%Hx%script_reply_ok. tauto.
  - intros e cmd n e' r out Hr%Hx%script_reply_ok. tauto.
  - intros e cmd n e' out Hr%Hx%script_reply_ok. tauto.
Qed.

#[export] Instance script_dev : UsimDev script.
Proof.
  apply (script_lawful (λ e _, mjoin (head (replies e)))).
  intros e cmd n e' r out. cbn [xfer script_env].
  destruct (script_reply _ n) as [r0 out0]. by intros [= _ -> ->].
Defined.

(** A card that answers each command by a function, for ever. *)
Record steady := Steady { answer : list Z → list Z }.

#[export] Instance steady_env : Env steady := {|
  xfer e cmd n := let '(r, out) := script_reply (Some (answer e cmd)) n in (e, r, out);
  os_open e _ := (e, 3);
  os_lseek e _ off := (e, off);
  os_read e _ n := (e, n, replicate (Z.to_nat n) 49);
  os_close e _ := e;
  malloc_null _ _ := false |}.

#[export] Instance steady_dev : UsimDev steady.
Proof.
  apply (script_lawful (λ e cmd, Some (answer e cmd))).
  intros e cmd n e' r out. cbn [xfer steady_env].
  destruct (script_reply _ n) as [r0 out0]. by intros [= _ -> ->].
Defined.

(** Library states at the start of a conversation. *)
Definition start (type dir : Z) (a : list Z) (r : list (option (list Z))) : lib script :=
  Lib (Sim type dir) (init a ++ zeros (32 - zlen a)) (zlen a) (Script r) [].
Definition start_steady (type dir : Z) (f : list Z → list Z) : lib steady :=
  Lib (Sim type dir) (zeros 32) 0 (Steady f) [].
