(* ===== verification/UsimFcp.v ===== *)
(** * The FCP template parser
      ([usim_parse_fcp_tmpl] of lib/usim_library/usim_apdu.c)

    Termination, memory accesses, and the inputs it accepts. *)
From S2P Require Import Prelude UsimApdu UsimApduSpec UsimScript.

(** ** FCP templates: termination, memory, and which inputs are accepted *)
Section Fcp.

Lemma rd_is_byte l i v : Forall is_byte l → rd (init l) i = Some v → is_byte v.
Proof.
  intros Hl. unfold rd. case_decide; [|done]. unfold init. rewrite list_lookup_fmap.
  destruct (l !! Z.to_nat i) as [x|] eqn:Hx; [|done]. intros [= <-].
  eapply Forall_lookup_1 in Hx; eauto.
Qed.

Lemma rd_in l i : 0 ≤ i < zlen l → is_Some (rd (init l) i).
Proof.
  intros Hi. unfold rd. rewrite decide_True by lia. unfold init. rewrite list_lookup_fmap.
  destruct (lookup_lt_is_Some_2 l (Z.to_nat i)) as [x ->]; [unfold zlen in *; lia|]. by eexists.
Qed.

(** [while] turns: a turn consumes two bytes or more. *)
Lemma fcp_loop_more bytes fin k fuel : ∀ pos fl rc,
  Forall is_byte bytes → (Z.to_nat (fin - pos) < fuel)%nat →
  fcp_loop (fuel + k) (init bytes) pos fin fl rc = fcp_loop fuel (init bytes) pos fin fl rc.
Proof.
  induction fuel as [|fuel IH]; intros pos fl rc Hb Hf; [lia|].
  cbn [Nat.add fcp_loop]. case_decide; [|done].
  destruct (fcp_tlv _ _ _ _) as [[fl' rc']|]; [|done]. cbn [mbind option_bind].
  destruct (rd (init bytes) (pos + 1)) as [l|] eqn:Hl; [|done]. cbn [mbind option_bind].
  apply rd_is_byte in Hl as [??]; [|done].
  case_decide; [done|]. apply IH; [done|]. lia.
Qed.

Lemma fcp_tlv_some bytes pos fl rc :
  0 ≤ pos → pos + 6 < zlen bytes → ∃ fl' rc', fcp_tlv (init bytes) pos fl rc = Some (fl', rc').
Proof.
  intros Hp Hl. unfold fcp_tlv.
  destruct (rd_in bytes pos) as [? ->]; [lia|]. destruct (rd_in bytes (pos + 1)) as [? ->]; [lia|].
  destruct (rd_in bytes (pos + 2)) as [? ->]; [lia|]. destruct (rd_in bytes (pos + 3)) as [? ->]; [lia|].
  destruct (rd_in bytes (pos + 4)) as [? ->]; [lia|]. destruct (rd_in bytes (pos + 5)) as [? ->]; [lia|].
  destruct (rd_in bytes (pos + 6)) as [? ->]; [lia|]. cbn [mbind option_bind].
  repeat case_decide; destruct rc, fl; eauto.
Qed.

Lemma fcp_loop_some bytes fin fuel : ∀ pos fl rc,
  Forall is_byte bytes → (Z.to_nat (fin - pos) < fuel)%nat → 0 ≤ pos → fin + 5 ≤ zlen bytes →
  ∃ r fl' rc', fcp_loop fuel (init bytes) pos fin fl rc = Some (r, fl', rc') ∧ (r = 0 ∨ r = -1).
Proof.
  induction fuel as [|fuel IH]; intros pos fl rc Hb Hf Hp Hl; [lia|].
  cbn [fcp_loop]. case_decide; [|by eauto 10].
  destruct (fcp_tlv_some bytes pos fl rc) as (fl' & rc' & ->); [lia..|]. cbn [mbind option_bind].
  destruct (rd_in bytes (pos + 1)) as [l Hr]; [lia|]. rewrite Hr. cbn [mbind option_bind].
  apply rd_is_byte in Hr as [??]; [|done].
  case_decide; [by eauto 10|]. apply IH; done || lia.
Qed.

(** Without a record structure none is filled in. *)
Lemma fcp_tlv_rec_none buf pos fl fl' rc' :
  fcp_tlv buf pos fl None = Some (fl', rc') → rc' = None.
Proof.
  unfold fcp_tlv. destruct (rd buf pos); [|done]. cbn [mbind option_bind].
  repeat case_decide; destruct fl;
    repeat (destruct (rd _ _); cbn [mbind option_bind]; try done);
    repeat case_decide; repeat (destruct (rd _ _); cbn [mbind option_bind]; try done); congruence.
Qed.
Lemma fcp_loop_rec_none fuel buf fin : ∀ pos fl r fl' rc',
  fcp_loop fuel buf pos fin fl None = Some (r, fl', rc') → rc' = None.
Proof.
  induction fuel as [|fuel IH]; intros pos fl r fl' rc'; [done|]. cbn [fcp_loop].
  case_decide; [|congruence].
  destruct (fcp_tlv _ _ _ _) as [[fl1 rc1]|] eqn:Htlv; [|done]. cbn [mbind option_bind].
  apply fcp_tlv_rec_none in Htlv as ->.
  destruct (rd buf (pos + 1)) as [n|]; [|done]. cbn [mbind option_bind].
  case_decide; [congruence|apply IH].
Qed.

(** What the loop accepts is a sequence of objects that ends at [fin]. *)
Lemma fcp_loop_tiles fuel : ∀ pre rest fin fl fl' rc',
  Forall is_byte rest → fin ≤ zlen (pre ++ rest) →
  fcp_loop fuel (init (pre ++ rest)) (zlen pre) fin fl None = Some (0, fl', rc') →
  ∃ ts post, rest = enc_tlvs ts ++ post ∧ ts ≠ [] ∧ Forall wf_tlv ts ∧
    zlen pre + zlen (enc_tlvs ts) = fin.
Proof.
  induction fuel as [|fuel IH]; intros pre rest fin fl fl' rc' Hb Hfin; [done|].
  cbn [fcp_loop]. case_decide as Hlt; [|done]. intros Hrun.
  rewrite zlen_app in Hfin.
  destruct rest as [|t [|n rest]]; [rewrite zlen_nil in Hfin; lia|rewrite zlen_cons, zlen_nil in Hfin; lia|].
  rewrite !zlen_cons in Hfin.
  inversion Hb as [|? ? Ht Hb1]; subst. inversion Hb1 as [|? ? Hn Hb2]; subst.
  destruct (fcp_tlv _ _ _ _) as [[fl1 rc1]|] eqn:Htlv; [|done]. cbn [mbind option_bind] in Hrun.
  apply fcp_tlv_rec_none in Htlv as ->.
  replace (rd (init (pre ++ t :: n :: rest)) (zlen pre + 1)) with (Some n) in Hrun
    by (rewrite (rd_init_app pre) by lia; done).
  cbn [mbind option_bind] in Hrun. destruct Hn as [Hn0 Hn1].
  assert (Hv : ∀ v post, rest = v ++ post → zlen v = n →
    pre ++ t :: n :: rest = (pre ++ t :: n :: v) ++ post ∧
    zlen (pre ++ t :: n :: v) = zlen pre + (2 + n) ∧ wf_tlv (t, v)).
  { intros v post -> Hv. rewrite <- !app_assoc. split; [done|].
    rewrite zlen_app, !zlen_cons. split; [lia|]. apply Forall_app in Hb2 as [? _].
    split; [done|]. cbn [fst snd]. split; [done|lia]. }
  case_decide as Heq.
  - set (v := take (Z.to_nat n) rest).
    assert (zlen v = n) by (unfold v, zlen in *; rewrite length_take; lia).
    destruct (Hv v (drop (Z.to_nat n) rest)) as (_ & _ & Hwf); [symmetry; apply take_drop|done|].
    exists [(t, v)], (drop (Z.to_nat n) rest). rewrite enc_tlvs_cons, app_nil_r, !zlen_cons.
    replace (zlen v) with n by done. cbn [app]. unfold v at 1. rewrite take_drop.
    split; [done|]. split; [done|]. split; [by constructor|lia].
  - assert (Hle : n ≤ zlen rest).
    { destruct fuel as [|fuel]; [done|]. cbn [fcp_loop] in Hrun. case_decide; [|done]. lia. }
    set (v := take (Z.to_nat n) rest).
    assert (Hzv : zlen v = n) by (unfold v, zlen in *; rewrite length_take; lia).
    destruct (Hv v (drop (Z.to_nat n) rest)) as (Hsplit & Hz & Hwf); [symmetry; apply take_drop|done|].
    rewrite Hsplit, <- Hz in Hrun.
    apply IH in Hrun as (ts & post & Hpost & _ & Hts & Hend); cycle 1.
    { by apply Forall_drop. }
    { rewrite <- Hsplit, zlen_app, !zlen_cons. lia. }
    exists ((t, v) :: ts), post. rewrite enc_tlvs_cons, Hzv. cbn [app].
    rewrite <- app_assoc, <- Hpost. unfold v at 1. rewrite take_drop.
    split; [done|]. split; [done|]. split; [by constructor|].
    rewrite !zlen_cons, zlen_app. lia.
Qed.

(** the FCP parser terminates and stays inside its buffer: when the buffer
    goes on for five bytes after the template, a call returns 0 or -1, and the
    bound on the number of turns plays no role in the result. *)
Theorem parse_fcp_terminates p tag l bytes fl rc k :
  Forall is_byte (p :: tag :: l :: bytes) → l + 5 ≤ zlen bytes →
  let buf := init (p :: tag :: l :: bytes) in
  (∃ r fl' rc', usim_parse_fcp_tmpl buf fl rc = Some (r, fl', rc') ∧ (r = 0 ∨ r = -1)) ∧
  fcp_loop (Z.to_nat l + 1 + k) buf 3 (2 + 1 + l) fl rc =
  fcp_loop (Z.to_nat l + 1) buf 3 (2 + 1 + l) fl rc.
Proof.
  intros Hb Hl buf.
  assert (0 ≤ l) by (pose proof Hb as Hb'; rewrite !Forall_cons in Hb'; apply Hb').
  split; [|apply fcp_loop_more; done || lia].
  unfold usim_parse_fcp_tmpl.
  change (rd buf 1) with (Some tag). change (rd buf 2) with (Some l). cbn [mbind option_bind].
  case_decide; [by eauto 10|]. apply fcp_loop_some; [done|lia..|].
  rewrite !zlen_cons. lia.
Qed.

Lemma parse_fcp_terminates_witness :
  let buf := init ([0; 0x62; 4; 0x80; 2; 1; 0] ++ replicate 5 0) in
  usim_parse_fcp_tmpl buf (Some None) None = Some (0, Some (Some 256), None) ∧
  fcp_loop (Z.to_nat 4 + 1 + 7) buf 3 (2 + 1 + 4) (Some None) None =
  fcp_loop (Z.to_nat 4 + 1) buf 3 (2 + 1 + 4) (Some None) None.
Proof.
  split; [reflexivity|].
  apply (parse_fcp_terminates 0 0x62 4 ([0x80; 2; 1; 0] ++ replicate 5 0) (Some None) None 7).
  - repeat constructor; unfold is_byte; lia.
  - vm_compute. discriminate.
Defined.

(** The template is a sequence of BER objects that ends where its length says. *)
Definition tiles (l : Z) (bytes : list Z) (ts : list (Z * list Z)) : Prop :=
  ts ≠ [] ∧ Forall wf_tlv ts ∧ zlen (enc_tlvs ts) = l ∧ ∃ post, bytes = enc_tlvs ts ++ post.

(** C36: the FCP parser accepts exactly the templates that are a sequence of
    tag-length-value objects, and the file size it stores is that of the last
    1- or 2-byte size object; any other template gives -1. *)
Theorem parse_fcp_complete p l bytes fl :
  Forall is_byte (p :: 0x62 :: l :: bytes) → l + 5 ≤ zlen bytes →
  let res := usim_parse_fcp_tmpl (init (p :: 0x62 :: l :: bytes)) (Some fl) None in
  (∃ ts, tiles l bytes ts ∧ res = Some (0, Some (foldl size_step fl ts), None)) ∨
  ((∀ ts, ¬ tiles l bytes ts) ∧ ∃ fl', res = Some (-1, fl', None)).
Proof.
  intros Hb Hl res.
  assert (Hl0 : is_byte l) by (pose proof Hb as Hb'; rewrite !Forall_cons in Hb'; apply Hb').
  assert (Hok : ∀ ts, tiles l bytes ts → res = Some (0, Some (foldl size_step fl ts), None)).
  { intros ts (Hne & Hwf & Hz & post & ->). unfold res.
    change (p :: 98 :: l :: enc_tlvs ts ++ post) with ([p; 0x62; l] ++ enc_tlvs ts ++ post).
    rewrite <- Hz. rewrite parse_fcp_spec; [done|done|done|by left|].
    rewrite Hz. apply Hl0. }
  assert (Hres : res = fcp_loop (Z.to_nat l + 1) (init (p :: 0x62 :: l :: bytes)) 3 (2 + 1 + l)
    (Some fl) None) by done.
  rewrite Hres in *. clear res Hres.
  destruct (fcp_loop_some (p :: 0x62 :: l :: bytes) (2 + 1 + l) (Z.to_nat l + 1) 3 (Some fl) None)
    as (r & fl' & rc' & Hrun & Hr); [done|lia..|rewrite !zlen_cons; lia|].
  assert (Htile : r = 0 → ∃ ts, tiles l bytes ts).
  { intros ->. change (p :: 0x62 :: l :: bytes) with ([p; 0x62; l] ++ bytes) in Hrun.
    apply (fcp_loop_tiles _ [p; 0x62; l]) in Hrun as (ts & post & -> & Hne & Hwf & Hend).
    - exists ts. rewrite !zlen_cons, zlen_nil in Hend. split; [done|]. split; [done|].
      split; [lia|by eexists].
    - rewrite !Forall_cons in Hb. apply Hb.
    - rewrite zlen_app, !zlen_cons, zlen_nil. lia. }
  destruct Hr as [-> | ->].
  - left. destruct Htile as [ts Hts]; [done|]. exists ts. split; [done|]. by apply Hok.
  - right. assert (Hno : ∀ ts, ¬ tiles l bytes ts).
    { intros ts Hts. specialize (Hok ts Hts). rewrite Hrun in Hok. discriminate. }
    split; [done|]. exists fl'. rewrite Hrun. do 2 f_equal.
    by apply fcp_loop_rec_none in Hrun.
Qed.

Lemma parse_fcp_complete_witness :
  usim_parse_fcp_tmpl (init ([0; 0x62; 5; 0x81; 0; 0x80; 1; 9] ++ replicate 5 0)) (Some None) None =
  Some (0, Some (Some 9), None).
Proof.
  destruct (parse_fcp_complete 0 5 ([0x81; 0; 0x80; 1; 9] ++ replicate 5 0) None)
    as [(ts & Hts & Hr)|[Hno _]].
  - repeat constructor; unfold is_byte; lia.
  - vm_compute. discriminate.
  - reflexivity.
  - reflexivity.
Defined.

(** a length byte the card chooses freely is not compared with the 256-byte
    local: with 255 the parser reads outside it. *)
Theorem parse_fcp_overruns :
  let buf := init ([0x90; 0x62; 255] ++ concat (replicate 126 [0x81; 0]) ++ [0x80]) in
  zlen buf = 256 ∧ usim_parse_fcp_tmpl buf (Some None) None = None.
Proof. split; vm_compute; reflexivity. Qed.

End Fcp.

