(* ===== verification/UsimFiles.v ===== *)
(** * File operations of the USIM library
      (lib/usim_library/usim_apdu.c)

    Each operation as a conversation with the card: the exchanges that have to
    succeed, the value returned and the commands sent. *)
From S2P Require Import Prelude UsimApdu UsimApduSpec UsimScript.
From stdpp Require Import strings.
#[global] Open Scope Z_scope.

(** ** Conversations *)
Section Talk.
Context {E : Type} `{Env E}.

(** The reader completes these exchanges, one after the other. *)
Fixpoint talk (e : E) (l : list (list Z * Z * list Z)) (e' : E) : Prop :=
  match l with
  | [] => e' = e
  | (cmd, n, out) :: l => ∃ e1, xfer e cmd n = (e1, 0, out) ∧ talk e1 l e'
  end.
Definition cmds (l : list (list Z * Z * list Z)) : list (list Z) := fst ∘ fst <$> l.

(** The state after a conversation. *)
Definition after (l : list (list Z * Z * list Z)) (e : E) (w : lib E) : lib E :=
  Lib (sim w) (aid w) (aid_len w) e (wire w ++ cmds l).

Lemma talk_app l1 l2 e e' : talk e (l1 ++ l2) e' ↔ ∃ e1, talk e l1 e1 ∧ talk e1 l2 e'.
Proof.
  revert e. induction l1 as [|[[cmd n] out] l1 IH]; intros e; cbn [talk app].
  - split; [intros Ht; by exists e|by intros (e1 & -> & Ht)].
  - split.
    + intros (e1 & Hx & (e2 & H1 & H2)%IH). eauto 10.
    + intros (e1 & (e2 & Hx & H1) & H2). exists e2. split; [done|]. apply IH. eauto.
Qed.

Lemma sent_after cmd e l e' w n out :
  after l e' (sent cmd e w) = after ((cmd, n, out) :: l) e' w.
Proof. unfold after, sent. cbn [sim aid aid_len wire cmds fmap list_fmap]. by rewrite <- app_assoc. Qed.

Lemma after_nil w : after [] (env w) w = w.
Proof. unfold after. cbn. rewrite app_nil_r. by destruct w. Qed.

Lemma after_after l1 e1 l2 e2 w : after l2 e2 (after l1 e1 w) = after (l1 ++ l2) e2 w.
Proof. unfold after, cmds. cbn [sim aid aid_len wire]. by rewrite fmap_app, app_assoc. Qed.

Lemma sent_is_after cmd e w n out : sent cmd e w = after [(cmd, n, out)] e w.
Proof. done. Qed.

Abbreviation sel f := (encode 0 (SelectId true f)).

(** A USIM with its application's AID stored. *)
Definition usim_ready (w : lib E) (a : list Z) : Prop :=
  sim_type (sim w) = USIM_TYPE ∧ (∃ b, aid w = init a ++ b) ∧ aid_len w = zlen a ∧
  (5 + length a ≤ 50)%nat.

Lemma usim_ready_after l e w a : usim_ready w a → usim_ready (after l e w) a.
Proof. done. Qed.
Lemma usim_class w a : usim_ready w a → class_of w = 0 ∧ is_usim w = true.
Proof. intros [Ht _]. unfold class_of, is_usim. by rewrite Ht. Qed.

Lemma enter_usim dir resp w a e1 q k :
  usim_ready w a → 0 < dir < 65536 →
  talk (env w) [(sel dir, 3, [q; 0x61; k])] e1 →
  enter_dir dir resp w = Some ((Fall, init [q; 0x61; k], true), after [(sel dir, 3, [q; 0x61; k])] e1 w).
Proof.
  intros [Hc Hu]%usim_class Hd (e2 & Hx & ->).
  rewrite (enter_dir_61 dir resp w e2 q k Hd); rewrite Hc, Hu; done.
Qed.

Lemma select_usim f resp w a e1 q k :
  usim_ready w a → 0 ≤ f < 65536 → length resp = 3%nat →
  talk (env w) [(sel f, 3, [q; 0x61; k])] e1 →
  select_ef f resp w = Some ((Fall, init [q; 0x61; k]), after [(sel f, 3, [q; 0x61; k])] e1 w).
Proof.
  intros [Hc Hu]%usim_class Hd Hr (e2 & Hx & ->).
  rewrite (select_ef_61 f resp w e2 q k Hd Hr); rewrite Hc, Hu; done.
Qed.

(** The common end of the file functions on a USIM. *)
Lemma conclude_usim x resp w a e1 out :
  usim_ready w a → length resp = 3%nat → zlen out ≤ 3 → x = Fall ∨ x = GotoError →
  talk (env w) [(encode 0 (SelectAid a), 3, out)] e1 →
  conclude x true resp w =
  Some (match x with Fall => 0 | _ => -1 end, after [(encode 0 (SelectAid a), 3, out)] e1 w).
Proof.
  intros Hw Hr Ho Hx (e2 & Ht & ->). destruct (usim_class w a Hw) as [Hc _].
  destruct Hw as (Hty & [b Hb] & Hn & Hl).
  assert (Hg : go_back true resp w = Some (tt, after [(encode 0 (SelectAid a), 3, out)] e2 w)).
  { rewrite (go_back_usim resp w a b e2 0 out); rewrite ?Hc; done. }
  destruct Hx as [-> | ->]; cbn [conclude]; by rewrite (M_bind_run _ _ _ _ _ Hg).
Qed.

(** GET RESPONSE and the template it returns. *)
Definition fcp_exchange (p : Z) (ts : list (Z * list Z)) : list Z * Z * list Z :=
  let n := zlen (enc_tlvs ts) in
  (encode 0 (GetResponse (n + 2)), n + 5, p :: [0x62; n] ++ enc_tlvs ts ++ [0x90; 0x00]).

Lemma fetch_usim resp ts p w a e1 :
  usim_ready w a → rd resp 2 = Some (zlen (enc_tlvs ts) + 2) → zlen (enc_tlvs ts) ≤ 251 →
  talk (env w) [fcp_exchange p ts] e1 →
  fetch_fcp resp w =
  Some ((Fall, init ([p; 0x62; zlen (enc_tlvs ts)] ++ enc_tlvs ts ++
                     [0x90; 0x00] ++ replicate (Z.to_nat (251 - zlen (enc_tlvs ts))) 0)),
        after [fcp_exchange p ts] e1 w).
Proof.
  intros [Hc _]%usim_class Hr Hl (e2 & Hx & ->). unfold fcp_exchange in *.
  pose proof (zlen_nonneg (enc_tlvs ts)) as HL. set (L := zlen (enc_tlvs ts)) in *.
  rewrite (fetch_fcp_run resp (L + 2) p ([0x62; L] ++ enc_tlvs ts) w e2); rewrite ?Hc.
  - replace (253 - (L + 2)) with (251 - L) by lia. cbn [app]. rewrite <- ?app_assoc. done.
  - done.
  - lia.
  - rewrite zlen_app, !zlen_cons, zlen_nil. fold L. lia.
  - rewrite <- ?app_assoc. replace (L + 2 + 3) with (L + 5) by lia. done.
Qed.

(** The record length and count of the last file descriptor. *)
Lemma layout_usim ts p post w a :
  usim_ready w a → ts ≠ [] → Forall wf_tlv ts → Forall wf_desc ts → zlen (enc_tlvs ts) < 256 →
  record_layout (init ([p; 0x62; zlen (enc_tlvs ts)] ++ enc_tlvs ts ++ post)) w =
  Some ((Fall, foldl rec_step rec_unset ts), w).
Proof.
  intros [Ht _] Hne Hwf Hd Hl. unfold record_layout.
  rewrite M_bind_eq. cbn [gets]. rewrite Ht, decide_False by done.
  rewrite M_bind_eq, parse_fcp_spec by (done || by right).
  cbn [lift fmap option_fmap option_map]. rewrite M_bind_eq. cbn [lift]. done.
Qed.

(** Reading the front of a buffer another one was stored over. *)
Lemma rd_front x b k : k < zlen x → rd (init x ++ b) k = rd (init x) k.
Proof. intros Hk. apply rd_app_l. by rewrite zlen_init. Qed.

(** ** Records *)
Definition update_exchange (d : list Z) (i : Z) (q : Z) : list Z * Z * list Z :=
  (encode 0 (UpdateRecord i d), 3, [q; 0x90; 0x00]).

Lemma write_records_usim d b qs : ∀ i resp w a e1,
  usim_ready w a → (length d ≤ 251)%nat → 0 ≤ i → i + zlen qs ≤ 256 → length resp = 3%nat →
  talk (env w) (imap (λ k q, update_exchange d (i + Z.of_nat k) q) qs) e1 →
  ∃ resp', length resp' = 3%nat ∧
  write_records (length qs) i (zlen d) (init d ++ b) resp w =
  Some ((Fall, resp'), after (imap (λ k q, update_exchange d (i + Z.of_nat k) q) qs) e1 w).
Proof.
  induction qs as [|q qs IH]; intros i resp w a e1 Hw Hd Hi Hn Hr; cbn [imap talk].
  - intros ->. rewrite after_nil. by eexists.
  - intros (e2 & Hx & Ht). rewrite zlen_cons in Hn. pose proof (zlen_nonneg qs).
    destruct (usim_class w a Hw) as [Hc _]. rewrite Z.add_0_r in *.
    rewrite imap_ext with (g := λ k q0, update_exchange d (i + 1 + Z.of_nat k) q0) in *
      by (intros; cbn [compose]; f_equal; lia).
    destruct (IH (i + 1) (init [q; 0x90; 0x00]) (sent (encode 0 (UpdateRecord i d)) e2 w) a e1)
      as (resp' & Hl' & Hrun); [done|done|lia|lia|done|done|].
    exists resp'. split; [done|]. cbn [length write_records].
    erewrite M_bind_run.
    2: { rewrite update_record_run by (done || (unfold is_byte; lia)). rewrite Hc.
         eapply ioctl_xfer_run; [done|]. by apply blit_resp3. }
    cbv beta iota. rewrite decide_False by lia.
    rewrite (M_bind_run _ _ _ false (sent (encode 0 (UpdateRecord i d)) e2 w)) by done.
    rewrite Hrun. by rewrite sent_after with (n := 3) (out := [q; 0x90; 0x00]).
Qed.

Definition read_exchange (n : Z) (i : Z) (r : Z * list Z) : list Z * Z * list Z :=
  (encode 0 (ReadRecord i (u8 n)), n + 3, fst r :: snd r ++ [0x90; 0x00]).

(** Every record replaces the one before at the start of the buffer. *)
Lemma read_records_usim n recs : ∀ i len buf buffer_rec w a e1,
  usim_ready w a → 0 ≤ i → i + zlen recs ≤ 256 → n + 3 ≤ zlen buffer_rec → n ≤ zlen buf →
  Forall (λ r, zlen (snd r) = n) recs →
  talk (env w) (imap (λ k r, read_exchange n (i + Z.of_nat k) r) recs) e1 →
  read_records (length recs) i n len buf buffer_rec w =
  Some ((Fall, (if decide (recs = []) then len else n),
         match last recs with Some r => init (snd r) ++ drop (Z.to_nat n) buf | None => buf end),
        after (imap (λ k r, read_exchange n (i + Z.of_nat k) r) recs) e1 w).
Proof.
  induction recs as [|[q d] recs IH]; intros i len buf brec w a e1 Hw Hi Hn Hb Hcap Hrec; cbn [imap talk].
  - intros ->. by rewrite after_nil.
  - intros (e2 & Hx & Ht). rewrite zlen_cons in Hn. pose proof (zlen_nonneg recs).
    apply Forall_cons in Hrec as [Hd Hrec]. cbn [snd] in Hd. pose proof (zlen_nonneg d).
    destruct (usim_class w a Hw) as [Hc _]. rewrite Z.add_0_r in *.
    rewrite imap_ext with (g := λ k r, read_exchange n (i + 1 + Z.of_nat k) r) in *
      by (intros; cbn [compose]; f_equal; lia).
    cbn [length read_records]. set (out := q :: d ++ [0x90; 0x00]) in *.
    assert (Hout : zlen out = n + 3) by (unfold out; rewrite zlen_cons, zlen_app, !zlen_cons, zlen_nil; lia).
    set (w1 := sent (encode 0 (ReadRecord i (u8 n))) e2 w).
    erewrite M_bind_run.
    2: { rewrite read_record_run by (unfold is_byte; lia). rewrite Hc.
         eapply ioctl_xfer_run; [exact Hx|]. cbn [fst snd]. fold out.
         apply blit_0. by rewrite zlen_init, Hout. }
    cbv beta iota. rewrite decide_False by lia. cbn [fst snd]. fold out w1.
    assert (Hsw : ∀ k x, [0x90; 0x00] !! k = Some x → ∀ b,
      rd (init out ++ b) (n + 1 + Z.of_nat k) = Some x).
    { intros k x Hk b. rewrite rd_front.
      - rewrite <- Hd. by apply rd_after.
      - apply lookup_lt_Some in Hk. cbn [length] in Hk. lia. }
    assert (Hs0 : ∀ b, rd (init out ++ b) (n + 1) = Some 0x90)
      by (intros b; rewrite <- (Hsw 0%nat 0x90 eq_refl b); f_equal; lia).
    assert (Hs1 : ∀ b, rd (init out ++ b) (n + 2) = Some 0x00)
      by (intros b; rewrite <- (Hsw 1%nat 0x00 eq_refl b); f_equal; lia).
    rewrite M_bind_eq, Hs0. cbn [lift]. rewrite decide_False by (intros Hf; by apply Hf).
    rewrite M_bind_eq, Hs1. cbn [lift]. rewrite decide_False by (intros Hf; by apply Hf).
    rewrite M_bind_eq, (lift_Some _ _ (init d ++ drop (Z.to_nat n) buf)).
    2: { unfold memcpy, out. change (q :: d ++ [0x90; 0x00]) with ([q] ++ d ++ [0x90; 0x00]).
         rewrite !init_app, <- !app_assoc, (sub_exact (init [q]) (init d)) by (by rewrite ?zlen_init).
         cbn [mbind option_bind]. rewrite blit_0 by (rewrite zlen_init; lia).
         rewrite length_init. do 3 f_equal. unfold zlen in Hd. lia. }
    rewrite (IH _ _ _ _ _ a e1); try done; try lia.
    + assert (Hdrop : drop (Z.to_nat n) (init d ++ drop (Z.to_nat n) buf) = drop (Z.to_nat n) buf).
      { replace (Z.to_nat n) with (length (init d)) at 1 by (rewrite length_init; unfold zlen in Hd; lia).
        by rewrite drop_app_length. }
      rewrite Hdrop. unfold w1. rewrite (sent_after _ _ _ _ _ (n + 3) out), last_cons.
      destruct (decide (recs = [])), (last recs); done.
    + rewrite zlen_app, zlen_init, Hout. unfold zlen. rewrite length_drop. lia.
    + rewrite zlen_app, zlen_init. unfold zlen in *. rewrite length_drop. lia.
Qed.

(** ** The operations *)

(** The two selects every operation starts with: the directory [d], then the
    elementary file [f], whose reply announces [k] bytes. *)
Definition opening (d f q1 k1 q2 k : Z) : list (list Z * Z * list Z) :=
  [(sel d, 3, [q1; 0x61; k1]); (sel f, 3, [q2; 0x61; k])].
Definition back (a out : list Z) : list Z * Z * list Z := (encode 0 (SelectAid a), 3, out).

Lemma opening_run d f q1 k1 q2 k w a e1 resp :
  usim_ready w a → 0 < d < 65536 → 0 ≤ f < 65536 →
  talk (env w) (opening d f q1 k1 q2 k) e1 →
  ∃ w1, enter_dir d resp w = Some ((Fall, init [q1; 0x61; k1], true), w1) ∧
  ∀ r, length r = 3%nat →
  select_ef f r w1 = Some ((Fall, init [q2; 0x61; k]), after (opening d f q1 k1 q2 k) e1 w).
Proof.
  intros Hw Hd Hf (e2 & Hx & Ht). exists (after [(sel d, 3, [q1; 0x61; k1])] e2 w). split.
  - apply (enter_usim d resp w a); [done|done|by exists e2].
  - intros r Hr. rewrite (select_usim f r _ a e1 q2 k); [|done..]. by rewrite after_after.
Qed.

Lemma read_transparent_run d f q1 k1 q2 p ts p' n data out a w len0 buf e' :
  usim_ready w a → 0 < d < 65536 → 0 ≤ f < 65536 →
  ts ≠ [] → Forall wf_tlv ts → zlen (enc_tlvs ts) ≤ 251 → foldl size_step None ts = Some n →
  zlen data = n → n ≤ zlen buf → (∀ e, malloc_null e (n + 3) = false) → zlen out ≤ 3 →
  let conv := opening d f q1 k1 q2 (zlen (enc_tlvs ts) + 2) ++
    [fcp_exchange p ts; (encode 0 (ReadBinary (u8 n)), n + 3, p' :: data ++ [0x90; 0x00]);
     back a out] in
  talk (env w) conv e' →
  usim_read_transparent f len0 buf d w =
  Some ((0, n, init data ++ drop (length data) buf), after conv e' w).
Proof.
  intros Hw Hd Hf Hne Hwf Hl Hsz Hdata Hcap Hm Hout conv Ht. unfold conv in *. clear conv.
  apply talk_app in Ht as (e1 & Hop & e2 & Hx2 & e3 & Hx3 & Hback).
  destruct (opening_run _ _ _ _ _ _ _ _ _ (undef 3) Hw Hd Hf Hop) as (w1 & He & Hs).
  destruct (usim_class w a Hw) as [Hc _].
  unfold usim_read_transparent. rewrite (M_bind_run _ _ _ _ _ He). cbv beta iota.
  rewrite (M_bind_run _ _ _ _ _ (Hs (zeros 3) eq_refl)). cbv beta iota.
  set (w2 := after _ e1 w). unfold fcp_exchange in Hx2.
  erewrite M_bind_run.
  2: { apply (read_body_run ts n data p p' len0 buf _ w2 e2 e3); try (done || apply Hw); change (class_of w2) with (class_of w);
       rewrite ?Hc; try done.
       by replace (zlen (enc_tlvs ts) + 2 + 3) with (zlen (enc_tlvs ts) + 5) by lia. }
  cbv beta iota. change (class_of w2) with (class_of w). rewrite Hc.
  erewrite M_bind_run.
  2: { apply (conclude_usim Fall _ _ a e' out); [done|done|done|by left|exact Hback]. }
  unfold w2. by rewrite !sent_is_after with (n := 0) (out := []), !after_after.
Qed.

(** C24: reading a transparent file of a USIM. When the card accepts both
    selects, describes the file, returns [n] bytes and takes the select back,
    the call returns 0, the length from the last size object and the file
    content at the start of the caller's buffer, and has sent these commands. *)
Theorem read_transparent_usim d f q1 k1 q2 p ts p' n data out a w len0 buf e' :
  usim_ready w a → 0 < d < 65536 → 0 ≤ f < 65536 →
  ts ≠ [] → Forall wf_tlv ts → zlen (enc_tlvs ts) ≤ 251 → foldl size_step None ts = Some n →
  zlen data = n → n ≤ zlen buf → (∀ e, malloc_null e (n + 3) = false) → zlen out ≤ 3 →
  let conv := opening d f q1 k1 q2 (zlen (enc_tlvs ts) + 2) ++
    [fcp_exchange p ts; (encode 0 (ReadBinary (u8 n)), n + 3, p' :: data ++ [0x90; 0x00]);
     back a out] in
  talk (env w) conv e' →
  usim_read_transparent f len0 buf d w =
  Some ((0, n, init data ++ drop (length data) buf), after conv e' w).
Proof. exact (read_transparent_run d f q1 k1 q2 p ts p' n data out a w len0 buf e'). Qed.

(** reading a linear fixed file of a USIM: the call asks for record 1 to
    the count of the file descriptor and hands the caller the last record only. *)
Theorem read_linearfixed_usim d f q1 k1 q2 p ts n recs out a w len0 buf e' :
  usim_ready w a → 0 < d < 65536 → 0 ≤ f < 65536 →
  ts ≠ [] → Forall wf_tlv ts → Forall wf_desc ts → zlen (enc_tlvs ts) ≤ 251 →
  foldl rec_step rec_unset ts = Rec (Some n) (Some (zlen recs)) →
  Forall (λ r, zlen (snd r) = n) recs → recs ≠ [] → zlen recs < 256 → 
  n ≤ 253 → n ≤ zlen buf → zlen out ≤ 3 →
  let conv := opening d f q1 k1 q2 (zlen (enc_tlvs ts) + 2) ++
    [fcp_exchange p ts] ++ imap (λ k r, read_exchange n (1 + Z.of_nat k) r) recs ++ [back a out] in
  talk (env w) conv e' →
  ∃ r, last recs = Some r ∧
  usim_read_linearfixed f len0 buf d w =
  Some ((0, n, init (snd r) ++ drop (Z.to_nat n) buf), after conv e' w).
Proof.
  intros Hw Hd Hf Hne Hwf Hdesc Hl Hrec Hrecs Hnil Hcnt Hn Hcap Hout conv Ht. unfold conv in *. clear conv.
  apply talk_app in Ht as (e1 & Hop & Ht). apply talk_app in Ht as (e2 & Hfcp & Ht).
  apply talk_app in Ht as (e3 & Hread & Hback).
  destruct (opening_run _ _ _ _ _ _ _ _ _ (undef 3) Hw Hd Hf Hop) as (w1 & He & Hs).
  unfold usim_read_linearfixed. rewrite (M_bind_run _ _ _ _ _ He). cbv beta iota.
  rewrite (M_bind_run _ _ _ _ _ (Hs (zeros 3) eq_refl)). cbv beta iota.
  set (w2 := after _ e1 w).
  destruct (last recs) as [r|] eqn:Hlast; [|by apply last_None in Hlast]. exists r. split; [done|].
  assert (Hbody : read_linearfixed_body len0 buf (init [q2; 0x61; zlen (enc_tlvs ts) + 2]) w2 =
    Some ((Fall, n, init (snd r) ++ drop (Z.to_nat n) buf),
          after (imap (λ k r, read_exchange n (1 + Z.of_nat k) r) recs) e3 (after [fcp_exchange p ts] e2 w2))).
  { unfold read_linearfixed_body.
    rewrite (M_bind_run _ _ _ _ _ (fetch_usim (init [q2; 0x61; zlen (enc_tlvs ts) + 2]) ts p w2 a e2 Hw eq_refl Hl Hfcp)). cbv beta iota.
    erewrite M_bind_run; [|apply (layout_usim ts p _ _ a); done || lia].
    cbv beta iota. rewrite Hrec. rewrite M_bind_eq. cbn [rec_count rec_len lift].
    assert (0 < zlen recs) by (destruct recs; [done|rewrite zlen_cons; pose proof (zlen_nonneg recs); lia]).
    rewrite decide_False by lia. rewrite M_bind_eq. cbn [lift].
    replace (Z.to_nat (zlen recs)) with (length recs) by (unfold zlen; lia).
    rewrite (read_records_usim n recs 1 len0 buf (undef 256) _ a e3); try done; try lia.
    - by rewrite Hlast, decide_False.
    - rewrite zlen_undef by lia. lia. }
  rewrite (M_bind_run _ _ _ _ _ Hbody). cbv beta iota.
  erewrite M_bind_run.
  2: { apply (conclude_usim Fall _ _ a e' out); [done|done|done|by left|exact Hback]. }
  unfold w2. rewrite !after_after, <- ?app_assoc. done.
Qed.

(** C23: Writing a linear fixed file of a USIM with a known AID, for a directory and a
    file identifier of 16 bits (the directory not 0), at most 251 bytes of data, and a
    file whose template is well-formed, fits the receive buffer and counts fewer than
    256 records: if the reader completes every transfer, and the card answers both
    selects with 61 and a length (of the file that of its template), GET RESPONSE with
    the template, every UPDATE RECORD with 90 00 and the last select with at most three
    bytes, the function returns 0 and has sent exactly the two selects, GET RESPONSE,
    one UPDATE RECORD with the caller's data for every record from 1 to the count of the
    template, in this order, and at the end the select that goes back to the
    application. *)
Theorem write_linearfixed_usim d f q1 k1 q2 p ts n data b qs out a w e' :
  usim_ready w a → 0 < d < 65536 → 0 ≤ f < 65536 →
  ts ≠ [] → Forall wf_tlv ts → Forall wf_desc ts → zlen (enc_tlvs ts) ≤ 251 →
  foldl rec_step rec_unset ts = Rec (Some n) (Some (zlen qs)) → zlen qs < 256 →
  (length data ≤ 251)%nat → zlen out ≤ 3 →
  let conv := opening d f q1 k1 q2 (zlen (enc_tlvs ts) + 2) ++
    [fcp_exchange p ts] ++ imap (λ k q, update_exchange data (1 + Z.of_nat k) q) qs ++ [back a out] in
  talk (env w) conv e' →
  usim_write_linearfixed f (zlen data) (init data ++ b) d w = Some (0, after conv e' w).
Proof.
  intros Hw Hd Hf Hne Hwf Hdesc Hl Hrec Hcnt Hdata Hout conv Ht. unfold conv in *. clear conv.
  apply talk_app in Ht as (e1 & Hop & Ht). apply talk_app in Ht as (e2 & Hfcp & Ht).
  apply talk_app in Ht as (e3 & Hupd & Hback).
  destruct (opening_run _ _ _ _ _ _ _ _ _ (undef 3) Hw Hd Hf Hop) as (w1 & He & Hs).
  unfold usim_write_linearfixed. rewrite (M_bind_run _ _ _ _ _ He). cbv beta iota.
  rewrite (M_bind_run _ _ _ _ _ (Hs (init [q1; 0x61; k1]) eq_refl)). cbv beta iota.
  set (w2 := after _ e1 w). set (resp := init [q2; 0x61; zlen (enc_tlvs ts) + 2]).
  destruct (write_records_usim data b qs 1 resp (after [fcp_exchange p ts] e2 w2) a e3)
    as (resp' & Hl' & Hrun); [done|done|lia|lia|done|done|].
  assert (Hbody : write_linearfixed_body (zlen data) (init data ++ b) resp w2 =
    Some ((Fall, resp'), after (imap (λ k q, update_exchange data (1 + Z.of_nat k) q) qs) e3
                           (after [fcp_exchange p ts] e2 w2))).
  { unfold write_linearfixed_body.
    rewrite (M_bind_run _ _ _ _ _ (fetch_usim (init [q2; 0x61; zlen (enc_tlvs ts) + 2]) ts p w2 a e2 Hw eq_refl Hl Hfcp)). cbv beta iota.
    erewrite M_bind_run; [|apply (layout_usim ts p _ _ a); done || lia].
    cbv beta iota. rewrite Hrec, M_bind_eq. cbn [rec_count lift].
    replace (Z.to_nat (zlen qs)) with (length qs) by (unfold zlen; lia). exact Hrun. }
  rewrite (M_bind_run _ _ _ _ _ Hbody). cbv beta iota.
  rewrite (conclude_usim Fall _ _ a e' out) by (done || by left).
  unfold w2. rewrite !after_after, <- ?app_assoc. done.
Qed.

(** ** Transparent files: writing, with the administrator's PIN when needed *)

(** The flash device opens, seeks and yields the eight bytes of the PIN. *)
Definition flash_pin (e : E) (pin : list Z) (e' : E) : Prop :=
  ∃ e1 e2 e3 fd n, os_open e "/dev/mtd0"%string = (e1, fd) ∧ fd ≠ -1 ∧
    os_lseek e1 fd USIM_SPI_ADMIN_PIN_ADD = (e2, USIM_SPI_ADMIN_PIN_ADD) ∧
    os_read e2 fd 8 = (e3, n, pin) ∧ 0 ≤ n ∧ zlen pin = 8 ∧ e' = os_close e3 fd.

Lemma read_adminpin_run w pin e' :
  flash_pin (env w) pin e' →
  usim_read_adminpin (undef 8) w = Some ((0, init pin), with_env e' w).
Proof.
  intros (e1 & e2 & e3 & fd & n & Ho & Hfd & Hl & Hr & Hn & Hpin & ->).
  unfold usim_read_adminpin. rewrite M_bind_eq. unfold os at 1. rewrite Ho.
  rewrite decide_False by done. unfold read_from_flash.
  erewrite M_bind_run.
  2: { rewrite M_bind_eq. unfold os at 1. cbn [env with_env]. rewrite Hl.
       rewrite decide_False by (intros Hf; by apply Hf).
       rewrite M_bind_eq. unfold os at 1. cbn [env with_env]. rewrite Hr. cbv beta iota.
       rewrite M_bind_eq, blit_0 by (rewrite zlen_init, zlen_undef by lia; lia).
       cbn [lift]. rewrite decide_False by lia. reflexivity. }
  cbv beta iota. rewrite M_bind_eq. unfold os at 1. rewrite decide_False by done.
  rewrite drop_ge by (rewrite length_init; unfold undef, zlen in *; rewrite length_replicate; lia).
  rewrite app_nil_r. done.
Qed.

Lemma admin_verify_run resp w a pin e1 e2 v s1 s2 :
  usim_ready w a → flash_pin (env w) pin e1 → length resp = 3%nat →
  xfer e1 (encode 0 (Verify 0x0a pin)) 3 = (e2, 0, [v; s1; s2]) →
  usim_admin_verify 3 resp w =
  Some ((0, init [v; s1; s2]), sent (encode 0 (Verify 0x0a pin)) e2 (with_env e1 w)).
Proof.
  intros Hw Hpin Hr Hx. destruct (usim_class w a Hw) as [Hc _].
  assert (Hlen : zlen pin = 8) by (destruct Hpin as (?&?&?&?&?&?&?&?&?&?&?&?); done).
  unfold usim_admin_verify. rewrite M_bind_eq. unfold cla at 1. cbn [gets].
  rewrite (M_bind_run _ _ _ _ _ (read_adminpin_run w pin e1 Hpin)). cbv beta iota.
  rewrite decide_False by lia. fold (class_of w). rewrite Hc.
  destruct pin as [|p0 [|p1 [|p2 [|p3 [|p4 [|p5 [|p6 [|p7 [|? ?]]]]]]]]];
    rewrite ?zlen_cons, ?zlen_nil in Hlen; try lia; [|pose proof (zlen_nonneg l); lia].
  change (lift (memcpy _ 5 _ 0 8)) with
    (@lift (lib E) _ (Some (init [0; 0x20; 0; 0x0a; 0x08; p0; p1; p2; p3; p4; p5; p6; p7]))).
  rewrite M_bind_eq. cbn [lift].
  etransitivity; [apply (SendReceiveAPDU_init [_; _; _; _; _; _; _; _; _; _; _; _; _])|].
  eapply ioctl_xfer_run; [exact Hx|]. by apply blit_resp3.
Qed.

Definition binary_exchange (hi lo : Z) (data : list Z) (q s1 s2 : Z) : list Z * Z * list Z :=
  (encode 0 (UpdateBinary hi lo data), 3, [q; s1; s2]).
Definition verify_exchange (pin : list Z) (v s1 s2 : Z) : list Z * Z * list Z :=
  (encode 0 (Verify 0x0a pin), 3, [v; s1; s2]).

Lemma update_binary_usim hi lo data b q s1 s2 resp w a e1 :
  usim_ready w a → is_byte hi → is_byte lo → (length data ≤ 251)%nat → length resp = 3%nat →
  talk (env w) [binary_exchange hi lo data q s1 s2] e1 →
  usim_update_binary (zlen data) (init data ++ b) hi lo 3 resp w =
  Some ((0, init [q; s1; s2]), after [binary_exchange hi lo data q s1 s2] e1 w).
Proof.
  intros [Hc _]%usim_class Hh Hlo Hd Hr (e2 & Hx & ->).
  rewrite update_binary_run, Hc by done.
  eapply ioctl_xfer_run; [exact Hx|]. by apply blit_resp3.
Qed.

(** The status of an update that the library takes for a success. *)
Definition updated (s1 s2 : Z) : Prop := (s1 = 0x90 ∧ s2 = 0x00) ∨ (s1 = 0x60 ∧ s2 = 0x90).

Lemma update_failed_init q s1 s2 : updated s1 s2 → update_failed (init [q; s1; s2]) = Some false.
Proof. intros [[-> ->]|[-> ->]]; reflexivity. Qed.

(** writing a transparent file the card lets anyone write is one UPDATE
    BINARY at the caller's offset, and the call returns 0. *)
Theorem write_transparent_usim d f q1 k1 q2 k data b hi lo q s1 s2 out a w e' :
  usim_ready w a → 0 < d < 65536 → 0 ≤ f < 65536 → is_byte hi → is_byte lo →
  (length data ≤ 251)%nat → updated s1 s2 → zlen out ≤ 3 →
  let conv := opening d f q1 k1 q2 k ++ [binary_exchange hi lo data q s1 s2; back a out] in
  talk (env w) conv e' →
  usim_write_transparent f (zlen data) (init data ++ b) lo hi d w = Some (0, after conv e' w).
Proof.
  intros Hw Hd Hf Hh Hlo Hdata Hsw Hout conv Ht. unfold conv in *. clear conv.
  apply talk_app in Ht as (e1 & Hop & Ht). apply (talk_app [_] [_]) in Ht as (e2 & Hupd & Hback).
  destruct (opening_run _ _ _ _ _ _ _ _ _ (undef 3) Hw Hd Hf Hop) as (w1 & He & Hs).
  unfold usim_write_transparent. rewrite (M_bind_run _ _ _ _ _ He). cbv beta iota.
  rewrite (M_bind_run _ _ _ _ _ (Hs (zeros 3) eq_refl)). cbv beta iota.
  set (w2 := after _ e1 w).
  assert (Hbody : write_transparent_body (zlen data) (init data ++ b) lo hi (init [q2; 0x61; k]) w2 =
    Some ((Fall, init [q; s1; s2]), after [binary_exchange hi lo data q s1 s2] e2 w2)).
  { unfold write_transparent_body.
    rewrite (M_bind_run _ _ _ _ _ (update_binary_usim hi lo data b q s1 s2 (init [q2; 0x61; k]) w2 a e2 Hw Hh Hlo Hdata eq_refl Hupd)).
    cbv beta iota. rewrite decide_False by lia.
    rewrite M_bind_eq, sw_is_init. cbn [lift].
    rewrite bool_decide_eq_false_2 by (destruct Hsw; lia).
    rewrite M_bind_eq. cbn [mret M_ret]. rewrite M_bind_eq, update_failed_init by done. done. }
  rewrite (M_bind_run _ _ _ _ _ Hbody). cbv beta iota.
  rewrite (conclude_usim Fall _ _ a e' out) by (done || by left).
  unfold w2. rewrite !after_after, <- ?app_assoc. done.
Qed.

(** writing a transparent file the card protects (status 6982): the
    library reads the administrator's PIN from flash, verifies it, and only if
    the card accepts it sends the update a second time. *)
Theorem write_transparent_admin d f q1 k1 q2 k data b hi lo q pin v v1 v2 q' s1 s2 out a w e1 e2 e' :
  usim_ready w a → 0 < d < 65536 → 0 ≤ f < 65536 → is_byte hi → is_byte lo →
  (length data ≤ 251)%nat → updated s1 s2 → zlen out ≤ 3 →
  let conv := opening d f q1 k1 q2 k ++ [binary_exchange hi lo data q 0x69 0x82] in
  let accepted := bool_decide (v1 = 0x90 ∧ v2 = 0x00) in
  let conv' := verify_exchange pin v v1 v2 ::
    (if accepted then [binary_exchange hi lo data q' s1 s2] else []) ++ [back a out] in
  talk (env w) conv e1 → flash_pin e1 pin e2 → talk e2 conv' e' →
  usim_write_transparent f (zlen data) (init data ++ b) lo hi d w =
  Some (if accepted then 0 else -1, after (conv ++ conv') e' w).
Proof.
  intros Hw Hd Hf Hh Hlo Hdata Hsw Hout conv accepted conv' Ht Hpin Ht'. unfold conv in *.
  apply talk_app in Ht as (e0 & Hop & Hupd).
  destruct Ht' as (e3 & Hv & Ht'). apply talk_app in Ht' as (e4 & Hretry & Hback).
  destruct (opening_run _ _ _ _ _ _ _ _ _ (undef 3) Hw Hd Hf Hop) as (w1 & He & Hs).
  unfold usim_write_transparent. rewrite (M_bind_run _ _ _ _ _ He). cbv beta iota.
  rewrite (M_bind_run _ _ _ _ _ (Hs (zeros 3) eq_refl)). cbv beta iota.
  set (w2 := after _ e0 w). set (w3 := after [verify_exchange pin v v1 v2] e3
    (with_env e2 (after [binary_exchange hi lo data q 0x69 0x82] e1 w2))).
  assert (Hbody : ∃ resp, length resp = 3%nat ∧
    write_transparent_body (zlen data) (init data ++ b) lo hi (init [q2; 0x61; k]) w2 =
    Some ((if accepted then Fall else GotoError, resp),
          after (if accepted then [binary_exchange hi lo data q' s1 s2] else []) e4 w3)).
  { exists (if accepted then init [q'; s1; s2] else init [v; v1; v2]).
    split; [by destruct accepted|].
    unfold write_transparent_body.
    rewrite (M_bind_run _ _ _ _ _ (update_binary_usim hi lo data b q 0x69 0x82 (init [q2; 0x61; k]) w2 a e1 Hw Hh Hlo Hdata eq_refl Hupd)).
    cbv beta iota. rewrite decide_False by lia.
    rewrite M_bind_eq. change (sw_is _ 0x69 0x82) with (Some true). cbn [lift]. cbv beta iota.
    rewrite M_bind_eq, M_bind_eq.
    rewrite (admin_verify_run (zeros 3) (after [binary_exchange hi lo data q 0x69 0x82] e1 w2) a pin e2 e3 v v1 v2 Hw Hpin eq_refl Hv).
    rewrite M_bind_eq, sw_is_init. cbn [lift]. fold accepted.
    change (sent _ e3 _) with w3. destruct accepted; cbn [negb].
    - rewrite M_bind_eq.
      rewrite (update_binary_usim hi lo data b q' s1 s2 (zeros 3) w3 a e4 Hw Hh Hlo Hdata eq_refl Hretry).
      rewrite decide_False by lia. cbn [mret M_ret].
      rewrite M_bind_eq, update_failed_init by done. done.
    - cbn [mret M_ret talk] in *. rewrite Hretry.
      by rewrite <- (after_nil w3) at 1. }
  destruct Hbody as (resp & Hr & Hbody).
  rewrite (M_bind_run _ _ _ _ _ Hbody). cbv beta iota.
  rewrite (conclude_usim (if accepted then Fall else GotoError) resp _ a e' out)
    by (done || destruct accepted; auto).
  unfold w3, w2, after, conv', cmds. rewrite !fmap_app. cbn [sim aid aid_len wire with_env fmap list_fmap app].
  rewrite <- !app_assoc. destruct accepted; done.
Qed.

(** C25: a file operation with a directory never leaves the card there: once the
    directory is entered, every run that finds the file supported ends with the
    select of the home application, whatever the card answered in between. The
    exception is status 6A82 on the file itself, where the call returns -2 and
    nothing is sent after the select of the file. *)
Theorem file_op_selects_back o dir w e1 p s1 s2 a r w' :
  0 < dir < 65536 → 0 ≤ op_file o < 65536 → home_ok w a →
  xfer (env w) (encode (class_of w) (SelectId (is_usim w) dir)) 3 = (e1, 0, [p; s1; s2]) →
  (s1 = 0x90 ∧ s2 = 0x00) ∨ s1 = 0x61 ∨ s1 = 0x9F →
  run_op o dir w = Some (r, w') →
  let df := encode (class_of w) (SelectId (is_usim w) dir) in
  let ef := encode (class_of w) (SelectId (is_usim w) (op_file o)) in
  (r = VTQ_USIM_FILE_NOT_SUPPORTED ∧ wire w' = wire w ++ [df; ef]) ∨
  ((r = 0 ∨ r = -1) ∧ ∃ l, wire w' = wire w ++ df :: ef :: l ++ option_list (home_select w a)).
Proof. apply op_wire. Qed.

End Talk.

(** ** At concrete conversations *)

(** Discharge a [talk] of the scripted reader. *)
Ltac run_talk := repeat (eexists; split; [reflexivity|]); reflexivity.

Definition t_aid : list Z := [0xa0; 0x00; 0x00; 0x00; 0x87; 0x10; 0x02].
Definition t_fcp : list (Z * list Z) := [(0x82, [0x42; 0x21; 0; 4; 2]); (0x80, [0; 4])].

Lemma t_fcp_wf : Forall wf_tlv t_fcp ∧ Forall wf_desc t_fcp.
Proof.
  split; repeat constructor; cbn; unfold is_byte, zlen, wf_desc; cbn; lia || discriminate.
Defined.

Lemma t_ready r : usim_ready (start 1 0x7f20 t_aid r) t_aid.
Proof. split; [reflexivity|]. split; [eexists; reflexivity|]. split; [reflexivity|cbn; lia]. Defined.

(** Replies: both selects, the template, then those of the operation. *)
Definition t_opening (k : Z) : list (option (list Z)) := [Some [0; 0x61; 0x1d]; Some [0; 0x61; k]].
Definition t_fcp_reply : option (list Z) := Some ([0; 0x62; 11] ++ enc_tlvs t_fcp ++ [0x90; 0x00]).

Lemma read_transparent_usim_witness :
  ∃ w', usim_read_transparent 0x6f07 0 (undef 9) 0x7f20
    (start 1 0x7f20 t_aid (t_opening 13 ++ [t_fcp_reply; Some [0xb0; 1; 2; 3; 4; 0x90; 0x00]; Some [0; 0x61; 9]]))
  = Some ((0, 4, init [1; 2; 3; 4] ++ undef 5), w').
Proof.
  destruct t_fcp_wf as [Hwf Hd].
  eexists. apply (read_transparent_usim 0x7f20 0x6f07 0 0x1d 0 0 t_fcp 0xb0 4 [1; 2; 3; 4] [0; 0x61; 9] t_aid _ 0 (undef 9) (Script []));
    [apply t_ready|lia|lia|done|exact Hwf|vm_compute; discriminate|reflexivity|reflexivity
    |vm_compute; discriminate|reflexivity|vm_compute; discriminate|]. 
  run_talk.
Defined.

Lemma read_linearfixed_usim_witness :
  ∃ w', usim_read_linearfixed 0x6f40 0 (undef 9) 0x7f20
    (start 1 0x7f20 t_aid (t_opening 13 ++ [t_fcp_reply; Some [0xb2; 1; 2; 3; 4; 0x90; 0x00];
       Some [0xb2; 5; 6; 7; 8; 0x90; 0x00]; Some [0; 0x61; 9]]))
  = Some ((0, 4, init [5; 6; 7; 8] ++ undef 5), w').
Proof.
  destruct t_fcp_wf as [Hwf Hd].
  destruct (read_linearfixed_usim 0x7f20 0x6f40 0 0x1d 0 0 t_fcp 4 [(0xb2, [1; 2; 3; 4]); (0xb2, [5; 6; 7; 8])]
    [0; 0x61; 9] t_aid (start 1 0x7f20 t_aid (t_opening 13 ++ [t_fcp_reply; Some [0xb2; 1; 2; 3; 4; 0x90; 0x00];
       Some [0xb2; 5; 6; 7; 8; 0x90; 0x00]; Some [0; 0x61; 9]])) 0 (undef 9) (Script [])) as (r & Hr & Hrun);
    [apply t_ready|lia|lia|done|exact Hwf|exact Hd|vm_compute; discriminate|reflexivity
    |repeat constructor|done|vm_compute; reflexivity|lia|vm_compute; discriminate|vm_compute; discriminate|run_talk|].
  injection Hr as <-. eexists. exact Hrun.
Defined.

Lemma write_linearfixed_usim_witness :
  ∃ w', usim_write_linearfixed 0x6f40 4 (init [1; 2; 3; 4]) 0x7f20
    (start 1 0x7f20 t_aid (t_opening 13 ++ [t_fcp_reply; Some [0; 0x90; 0x00]; Some [0; 0x90; 0x00]; Some [0; 0x61; 9]]))
  = Some (0, w').
Proof.
  destruct t_fcp_wf as [Hwf Hd].
  eexists. apply (write_linearfixed_usim 0x7f20 0x6f40 0 0x1d 0 0 t_fcp 4 [1; 2; 3; 4] [] [0; 0] [0; 0x61; 9] t_aid _ (Script []));
    [apply t_ready|lia|lia|done|exact Hwf|exact Hd|vm_compute; discriminate|reflexivity
    |vm_compute; reflexivity|cbn; lia|vm_compute; discriminate|run_talk].
Defined.

Lemma write_transparent_usim_witness :
  ∃ w', usim_write_transparent 0x6f07 2 (init [1; 2]) 7 0 0x7f20
    (start 1 0x7f20 t_aid (t_opening 13 ++ [Some [0; 0x90; 0x00]; Some [0; 0x61; 9]])) = Some (0, w').
Proof.
  eexists. apply (write_transparent_usim 0x7f20 0x6f07 0 0x1d 0 13 [1; 2] [] 0 7 0 0x90 0x00 [0; 0x61; 9] t_aid _ (Script []));
    [apply t_ready|lia|lia|unfold is_byte; lia|unfold is_byte; lia|cbn; lia|by left|vm_compute; discriminate|run_talk].
Defined.

Lemma t_pin r : flash_pin (Script r) (replicate 8 49) (Script r).
Proof. exists (Script r), (Script r), (Script r), 3, 8. repeat split; lia. Defined.

Lemma write_transparent_admin_witness :
  ∃ w', usim_write_transparent 0x6f07 2 (init [1; 2]) 7 0 0x7f20
    (start 1 0x7f20 t_aid (t_opening 13 ++ [Some [0; 0x69; 0x82]; Some [0; 0x69; 0x83]; Some [0; 0x61; 9]]))
  = Some (-1, w').
Proof.
  eexists. apply (write_transparent_admin 0x7f20 0x6f07 0 0x1d 0 13 [1; 2] [] 0 7 0 (replicate 8 49) 0 0x69 0x83
    0 0x90 0x00 [0; 0x61; 9] t_aid _ (Script [Some [0; 0x69; 0x83]; Some [0; 0x61; 9]])
    (Script [Some [0; 0x69; 0x83]; Some [0; 0x61; 9]]) (Script []));
    [apply t_ready|lia|lia|unfold is_byte; lia|unfold is_byte; lia|cbn; lia|by left|vm_compute; discriminate
    |run_talk|apply t_pin|run_talk].
Defined.

Lemma file_op_selects_back_witness :
  let w := start 1 0x7f20 t_aid
    (t_opening 13 ++ [t_fcp_reply; Some [0xb0; 1; 2; 3; 4; 0x69; 0x81]; Some [0; 0x61; 9]]) in
  match run_op (ReadTransparent 0x6f07 0 (undef 9)) 0x7f20 w with
  | Some (r, w') =>
    (r = VTQ_USIM_FILE_NOT_SUPPORTED ∧ wire w' = [[0; 0xa4; 0; 4; 2; 0x7f; 0x20]; [0; 0xa4; 0; 4; 2; 0x6f; 7]]) ∨
    ((r = 0 ∨ r = -1) ∧ ∃ l, wire w' =
      [0; 0xa4; 0; 4; 2; 0x7f; 0x20] :: [0; 0xa4; 0; 4; 2; 0x6f; 7] :: l ++ [[0; 0xa4; 4; 0; 7] ++ t_aid])
  | None => False
  end.
Proof.
  intros w. destruct (run_op _ _ w) as [[r w']|] eqn:Hrun; [|vm_compute in Hrun; discriminate Hrun].
  refine (file_op_selects_back (ReadTransparent 0x6f07 0 (undef 9)) 0x7f20 w
    (Script (tail (replies (env w)))) 0 0x61 0x1d t_aid r w' _ _ _ _ _ Hrun);
    [lia|cbn; lia|split; [cbn; lia|]; split; [cbn; lia|]; split; [eexists; reflexivity|reflexivity]
    |reflexivity|by right; left].
Defined.
