(* ===== verification/UsimCard.v ===== *)
(** * Commands, application selection and authentication
      (lib/usim_library/usim_apdu.c)

    The bytes of every command; the EF_DIR scan on a reader that answers; what
    the response lengths of the on-chip authentication and of PIN verification
    lead to. *)
From S2P Require Import Prelude UsimApdu UsimApduSpec UsimScript.

Section Card.
Context {E : Type} `{Env E}.

(** ** Commands *)

(** The library function that sends the command. *)
Definition issue (x : command) (tl resp : buffer) (n : Z) : M (lib E) (Z * buffer) :=
  match x with
  | SelectAid a => usim_select_file_byaid (init a ++ tl) (zlen a) resp n
  | SelectId _ f => usim_select_file_byid f resp n
  | GetResponse l => usim_get_response l resp
  | ReadBinary l => usim_read_binary l resp
  | ReadRecord i l => usim_read_record i l resp
  | UpdateRecord i d => usim_update_record i (zlen d) (init d ++ tl) n resp
  | UpdateBinary hi lo d => usim_update_binary (zlen d) (init d ++ tl) hi lo n resp
  | GetIdentity l => usim_get_identity l resp
  | Authenticate d => usim_authenticate (zlen d) (init d ++ tl) resp n
  | Verify c p => r ← usim_verify c (init p ++ Some 0 :: tl); mret (r, resp)
  end.

(** The number of bytes asked from the reader: data, status and one more. *)
Definition reply_len (x : command) (n : Z) : Z :=
  match x with
  | GetResponse l | ReadBinary l | ReadRecord _ l => l + 3
  | GetIdentity _ => 4
  | _ => n
  end.

Definition wf_command (w : lib E) (x : command) (tl : buffer) : Prop :=
  match x with
  | SelectAid a => (length a ≤ 45)%nat
  | SelectId u f => u = is_usim w ∧ 0 ≤ f < 65536
  | GetResponse l | ReadBinary l | GetIdentity l => is_byte l
  | ReadRecord i l => is_byte i ∧ is_byte l
  | UpdateRecord i d => is_byte i ∧ (length d ≤ 251)%nat
  | UpdateBinary hi lo d => is_byte hi ∧ is_byte lo ∧ (length d ≤ 251)%nat
  | Authenticate d => (length d ≤ 34)%nat ∧ ∃ m, strlen (init d ++ tl) = Some m ∧ m ≤ 34
  | Verify c p => is_byte c ∧ Forall (λ x, x ≠ 0) p ∧ (length p ≤ 8)%nat
  end.

(** One exchange of the encoded command; VERIFY has no response buffer. *)
Definition exchange (x : command) (resp : buffer) (n : Z) (w : lib E) : option (Z * buffer * lib E) :=
  match x with
  | Verify _ _ => ('(r, _) ← ioctl_xfer (encode (class_of w) x) [] 0; mret (r, resp)) w
  | _ => ioctl_xfer (encode (class_of w) x) resp (reply_len x n) w
  end.

(** every command function is one transfer to the reader, of the ISO 7816-4
    bytes of its command under the class of the SIM type. *)
Theorem commands_encoded x tl resp n w :
  wf_command w x tl → issue x tl resp n w = exchange x resp n w.
Proof.
  intros Hx. destruct x; cbn [wf_command issue exchange reply_len] in *.
  - apply select_byaid_run. lia.
  - destruct Hx as [-> Hf]. apply (select_byid_run fileid resp n w Hf).
  - by apply get_response_run.
  - by rewrite read_binary_run, u8_byte.
  - destruct Hx as [Hi Hl]. by rewrite read_record_run, u8_byte.
  - destruct Hx as [Hi Hl]. apply (update_record_run id data tl resp n w Hi Hl).
  - destruct Hx as (Hh & Hl & Hd). by apply update_binary_run.
  - by apply get_identity_run.
  - destruct Hx as [Hd (m & Hm & Hle)]. unfold usim_authenticate.
    rewrite M_bind_eq. cbn [cla gets]. rewrite M_bind_eq, Hm. cbn [lift].
    rewrite decide_False by lia. rewrite u8_byte by (unfold is_byte, zlen; lia).
    apply (send_data [_; _; _; _; _]); [done|lia|done].
  - destruct Hx as (Hc & Hp & Hl). rewrite M_bind_eq, verify_run by done.
    rewrite !M_bind_eq. by destruct (ioctl_xfer _ _ _ w) as [[[??] ?]|].
Qed.

(** ** Replies of a lawful reader *)
Lemma byid_inv f buf n w r b w' :
  0 ≤ f < 65536 → usim_select_file_byid f buf n w = Some ((r, b), w') →
  ∃ e out, xfer (env w) (encode (class_of w) (SelectId (is_usim w) f)) n = (e, r, out) ∧
    blit buf 0 (init out) = Some b ∧ w' = sent (encode (class_of w) (SelectId (is_usim w) f)) e w.
Proof. intros Hf. rewrite select_byid_run by done. apply ioctl_xfer_inv. Qed.

Context `{!UsimDev E}.

(** PIN verification asks for a response of no bytes, which the reader
    never completes: the call cannot return 0. *)
Theorem verify_pin_never_succeeds pin_no buf w r w' :
  usim_verify_pin pin_no buf w = Some (r, w') → r = -1.
Proof.
  unfold usim_verify_pin, usim_verify. intros H1.
  apply M_bind_Some in H1 as (c & w1 & _ & H1).
  apply M_bind_Some in H1 as (n & w2 & _ & H1).
  case_decide; [by injection H1 as <- _|].
  apply M_bind_Some in H1 as (c1 & w3 & _ & H1).
  apply M_bind_Some in H1 as (c2 & w4 & _ & H1).
  apply M_bind_Some in H1 as ([r1 b] & w5 & H1 & H2). injection H2 as <- _.
  unfold SendReceiveAPDU in H1. apply M_bind_Some in H1 as (l & w6 & _ & H1).
  apply ioctl_xfer_inv in H1 as (e & out & Hx & _ & _).
  destruct (xfer_ret _ _ _ _ _ _ Hx) as [-> | ->]; [|done].
  apply xfer_full in Hx as [_ ?]. lia.
Qed.

(** on-chip authentication asks for 259 bytes, more than the reader's 256:
    every call that returns gives -1 and leaves the output parameters alone. *)
Theorem onchip_auth_never_succeeds rand_chal autn o w r o' w' :
  usim_onchip_auth rand_chal autn o w = Some ((r, o'), w') → r = -1 ∧ o' = o.
Proof.
  unfold usim_onchip_auth. intros H1. cbv zeta in H1.
  do 4 (apply M_bind_Some in H1 as (? & ? & _ & H1)).
  apply M_bind_Some in H1 as ([r1 b1] & w1 & Hauth & H1).
  assert (Hr1 : r1 = 0 ∨ r1 = -1).
  { unfold usim_authenticate in Hauth.
    do 2 (apply M_bind_Some in Hauth as (? & ? & _ & Hauth)).
    destruct (decide (34 < _)); [injection Hauth as <- _ _; by right|].
    apply M_bind_Some in Hauth as (? & ? & _ & Hauth).
    unfold SendReceiveAPDU in Hauth. apply M_bind_Some in Hauth as (? & ? & _ & Hauth).
    apply ioctl_xfer_inv in Hauth as (e & out & Hx & _ & _). by eapply xfer_ret. }
  case_decide; [injection H1 as <- <- _; split; [lia|done]|].
  apply M_bind_Some in H1 as ([r2 b2] & w2 & Hget & H1).
  assert (r2 = -1) as ->.
  { unfold usim_get_response in Hget. apply M_bind_Some in Hget as (c & w3 & _ & Hget).
    rewrite send5 in Hget. apply ioctl_xfer_inv in Hget as (e & out & Hx & _ & _).
    destruct (xfer_ret _ _ _ _ _ _ Hx) as [-> | ->]; [|done].
    apply xfer_full in Hx as [_ ?]. lia. }
  by injection H1 as <- <- _.
Qed.

(** ** Selecting the application *)

(** A card that answers every transfer of an acceptable length. *)
Definition live : Prop :=
  ∀ e cmd n, 2 ≤ n ≤ 256 → ∃ e' out, xfer e cmd n = (e', 0, out).

(** One exchange with such a card into a buffer long enough. *)
Lemma live_exchange cmd buf n w :
  live → 2 ≤ n ≤ 256 → n ≤ zlen buf →
  ∃ out e, zlen out = n ∧ Forall is_byte out ∧
    ioctl_xfer cmd buf n w = Some ((0, init out ++ drop (length out) buf), sent cmd e w).
Proof.
  intros Hlive Hn Hcap. destruct (Hlive (env w) cmd n Hn) as (e & out & Hx).
  destruct (xfer_full _ _ _ _ _ Hx) as [Hz _]. destruct (xfer_fits _ _ _ _ _ _ Hx) as [_ Hb].
  exists out, e. split; [done|]. split; [done|].
  erewrite ioctl_xfer_run; [done|exact Hx|]. rewrite blit_0 by (rewrite zlen_init; lia).
  by rewrite length_init.
Qed.

Lemma rd_front_in x b i : 0 ≤ i < zlen x → ∃ v, rd (init x ++ b) i = Some v ∧ v ∈ x.
Proof.
  intros Hi. destruct (lookup_lt_is_Some_2 x (Z.to_nat i)) as [v Hv]; [unfold zlen in Hi; lia|].
  exists v. split; [|by eapply list_elem_of_lookup_2].
  rewrite rd_app_l by (rewrite zlen_init; lia).
  replace i with (Z.of_nat (Z.to_nat i)) by lia. by apply rd_init.
Qed.

(** A response of three bytes, read for its status. *)
Lemma status_some buf out :
  length buf = 3%nat → zlen out = 3 →
  ∃ b, select_failed (init out ++ drop (length out) buf) = Some b.
Proof.
  intros Hb Ho. destruct (rd_front_in out (drop (length out) buf) 1) as (s1 & H1 & _); [lia|].
  destruct (rd_front_in out (drop (length out) buf) 2) as (s2 & H2 & _); [lia|].
  unfold select_failed, sw_is. rewrite H1, H2. cbn [mbind option_bind].
  case_decide; cbn [mbind option_bind]; eauto.
Qed.

Lemma record_len_live rec w :
  live → ∃ r w', usim_get_record_len rec w = Some (r, w') ∧ (r = -1 ∨ is_byte r).
Proof.
  intros Hlive. unfold usim_get_record_len. rewrite M_bind_eq. cbn [cla gets].
  destruct (live_exchange [class_of w; 0xb2; u8 rec; 0x04; 127] (undef 127) 127 w Hlive)
    as (out & e & Hz & Hb & Hrun); [lia|rewrite zlen_undef; lia|].
  erewrite M_bind_run; [|rewrite send5; exact Hrun]. cbv beta iota.
  destruct (rd_front_in out (drop (length out) (undef 127)) 0) as (b0 & H0 & _); [lia|].
  destruct (rd_front_in out (drop (length out) (undef 127)) 1) as (b1 & H1 & Hin); [lia|].
  rewrite M_bind_eq, H0. cbn [lift]. case_decide.
  - eexists _, _. split; [reflexivity|by left].
  - rewrite H1. eexists _, _. split; [reflexivity|]. right. rewrite Forall_forall in Hb. by apply Hb.
Qed.

(** The state of the record buffer between turns. *)
Definition full127 (b : buffer) : Prop := ∃ l, b = init l ∧ length l = 127%nat.

Lemma rd_full b i : full127 b → 0 ≤ i < 127 → ∃ v, rd b i = Some v.
Proof.
  intros (l & -> & Hl) Hi. destruct (rd_front_in l [] i) as (v & Hv & _); [unfold zlen; lia|].
  rewrite app_nil_r in Hv. eauto.
Qed.

(** The next read of the scan is defined; [tac] closes the branch its test takes. *)
Ltac scan_read H k tac :=
  let v := fresh "v" in let Hv := fresh "Hv" in
  destruct (rd_full _ k H) as [v Hv]; [lia|]; rewrite M_bind_eq, Hv; cbn [lift]; clear Hv;
  case_decide; [tac|].

Lemma aid_record_live rec b w :
  live → 1 ≤ rec < 10 → full127 b →
  ∃ s b' w', aid_record rec b w = Some ((s, b'), w') ∧ full127 b' ∧
  (∀ r, s = ScanReturn r → r = -1) ∧
  (s = ScanBreak → ∃ alen, rd b' 4 = Some alen ∧ 1 ≤ alen ≤ 16).
Proof.
  intros Hlive Hrec Hb. unfold aid_record.
  destruct (record_len_live rec w Hlive) as (rlen & w1 & Hrl & Hr).
  rewrite (M_bind_run _ _ _ _ _ Hrl).
  case_decide; [eexists _, _, _; split; [reflexivity|]; split; [done|]; split; [by intros ? [= <-]|done]|].
  case_decide; [eexists _, _, _; split; [reflexivity|]; split; [done|]; split; [by intros ? [= <-]|done]|].
  assert (Hrb : is_byte rlen) by (destruct Hr; [lia|done]). destruct Hrb as [Hr0 _].
  destruct Hb as (l & -> & Hl).
  destruct (live_exchange (encode (class_of w1) (ReadRecord rec (u8 rlen))) (init l) (rlen + 3) w1 Hlive)
    as (out & e & Hz & Hbytes & Hrun); [lia|rewrite zlen_init; unfold zlen; lia|].
  erewrite M_bind_run; [|rewrite read_record_run by (unfold is_byte; lia); exact Hrun]. cbv beta iota.
  rewrite decide_False by lia.
  set (b' := init out ++ drop (length out) (init l)).
  assert (Hb' : full127 b').
  { exists (out ++ drop (length out) l). unfold b'. rewrite init_app. split.
    - f_equal. unfold init. by rewrite fmap_drop.
    - rewrite length_app, length_drop. unfold zlen in Hz. lia. }
  clearbody b'. clear Hrun Hz Hbytes out Hl l Hrl Hr.
  set (w2 := sent _ e w1). clearbody w2.
  assert (Hret : ∀ s, (s = ScanReturn (-1) ∨ s = ScanNext) → ∃ s0 b0 w0,
    (mret (s, b') : M (lib E) (scan * buffer)) w2 = Some ((s0, b0), w0) ∧ full127 b0 ∧
    (∀ r, s0 = ScanReturn r → r = -1) ∧ (s0 = ScanBreak → ∃ alen, rd b0 4 = Some alen ∧ 1 ≤ alen ≤ 16)).
  { intros s Hs. exists s, b', w2. split; [done|]. split; [done|].
    destruct Hs as [-> | ->]; (split; [by intros ? [= <-]|done]). }
  scan_read Hb' (rlen + 1) ltac:(by apply Hret; left).
  scan_read Hb' (rlen + 2) ltac:(by apply Hret; left).
  scan_read Hb' 1 ltac:(by apply Hret; right).
  scan_read Hb' 2 ltac:(by apply Hret; right).
  scan_read Hb' 3 ltac:(by apply Hret; right).
  destruct (rd_full b' 4 Hb') as [alen Ha]; [lia|]. rewrite M_bind_eq, Ha. cbn [lift].
  case_decide; [by apply Hret; right|].
  scan_read Hb' 10 ltac:(by apply Hret; right).
  scan_read Hb' 11 ltac:(by apply Hret; right).
  exists ScanBreak, b', w2. split; [done|]. split; [done|]. split; [done|].
  intros _. exists alen. split; [done|]. lia.
Qed.

Lemma aid_loop_live n : ∀ rec b w,
  live → 1 ≤ rec → rec + Z.of_nat n ≤ 10 → full127 b →
  ∃ s b' w', aid_loop n rec b w = Some ((s, b'), w') ∧ full127 b' ∧
  (∀ r, s = Some (ScanReturn r) → r = -1) ∧ s ≠ Some ScanNext ∧
  (s = Some ScanBreak → ∃ alen, rd b' 4 = Some alen ∧ 1 ≤ alen ≤ 16).
Proof.
  induction n as [|n IH]; intros rec b w Hlive H1 Hn Hb; cbn [aid_loop].
  - by exists None, b, w.
  - destruct (aid_record_live rec b w Hlive) as (s & b' & w' & Hrun & Hb' & Hret & Hbrk); [lia|done|].
    rewrite (M_bind_run _ _ _ _ _ Hrun). cbv beta iota.
    destruct s as [r| |].
    + exists (Some (ScanReturn r)), b', w'. split; [done|]. split; [done|].
      split; [intros r' [= ->]; by apply Hret|done].
    + exists (Some ScanBreak), b', w'. split; [done|]. split; [done|]. split; [done|].
      split; [done|]. intros _. by apply Hbrk.
    + apply IH; done || lia.
Qed.

(** The frame of the scan: it only sends commands. *)
Lemma frame_record_len rec : frame (usim_get_record_len rec).
Proof. unfold usim_get_record_len. frame_tac. Qed.
Lemma frame_aid_loop n : ∀ rec b, frame (aid_loop n rec b).
Proof.
  induction n as [|n IH]; intros rec b; cbn [aid_loop]; [apply frame_ret|].
  apply frame_bind; [|intros [[] ?]; auto using frame_ret].
  unfold aid_record. apply frame_bind; [apply frame_record_len|]. intros rlen.
  frame_tac.
Qed.
Lemma frame_get_aid a n : frame (usim_get_aid a n).
Proof.
  unfold usim_get_aid. apply frame_bind; [apply frame_byid|]. intros [ret resp].
  case_decide; [apply frame_ret|]. apply frame_bind; [apply frame_lift|]. intros [|]; [apply frame_ret|].
  apply frame_bind; [apply frame_aid_loop|]. intros [s b]. frame_tac.
Qed.

Lemma full_sub b n : full127 b → 1 ≤ n ≤ 16 → ∃ d, sub b 5 n = Some (init d) ∧ zlen d = n.
Proof.
  intros (l & -> & Hl) Hn. exists (take (Z.to_nat n) (drop 5 l)). split.
  - unfold sub. rewrite decide_True by (rewrite zlen_init; unfold zlen; lia).
    unfold init. rewrite fmap_take, fmap_drop. done.
  - unfold zlen. rewrite length_take, length_drop. lia.
Qed.

Lemma get_aid_run a w :
  live → zlen a = 32 →
  ∃ r a' w', usim_get_aid a 32 w = Some ((r, a'), w') ∧
  ((r = -1 ∧ a' = a) ∨
   (1 ≤ r ≤ 16 ∧ ∃ d, zlen d = r ∧ a' = init d ++ drop (length d) a)).
Proof.
  intros Hlive Ha. unfold usim_get_aid.
  destruct (live_exchange (encode (class_of w) (SelectId (is_usim w) 0x2f00)) (undef 3) 3 w Hlive)
    as (out & e & Hz & _ & Hrun); [lia|rewrite zlen_undef; lia|].
  erewrite M_bind_run; [|rewrite select_byid_run by (unfold USIM_FILE_EF_DIR; lia); exact Hrun].
  cbv beta iota. rewrite decide_False by lia.
  destruct (status_some (undef 3) out eq_refl Hz) as [bad Hbad]. rewrite M_bind_eq, Hbad. cbn [lift].
  destruct bad; [eexists _, _, _; split; [reflexivity|by left]|].
  set (w1 := sent _ e w).
  destruct (aid_loop_live 9 1 (zeros 127) w1 Hlive) as (s & b & w2 & Hl & Hb & Hret & Hnext & Hbrk);
    [lia|lia|by exists (replicate 127 0)|].
  rewrite (M_bind_run _ _ _ _ _ Hl). cbv beta iota.
  destruct s as [[r| |]|]; [rewrite (Hret r eq_refl) in *| |done|];
    [eexists _, _, _; split; [reflexivity|by left]| |eexists _, _, _; split; [reflexivity|by left]].
  destruct (Hbrk eq_refl) as (alen & Hal & Hrange).
  rewrite M_bind_eq, Hal. cbn [lift]. rewrite decide_False by lia.
  destruct (full_sub b alen Hb Hrange) as (d & Hd & Hzd).
  unfold memcpy. rewrite M_bind_eq, Hd. cbn [mbind option_bind].
  rewrite blit_0 by (rewrite zlen_init; lia). cbn [lift].
  eexists _, _, _. split; [reflexivity|]. right. split; [done|]. exists d. by rewrite length_init.
Qed.

(** looking for the USIM application: on a card that answers, whatever it
    answers, the scan of EF_DIR reads inside its buffers only, ends within nine
    records, and yields -1 with the AID buffer untouched or an AID of 1 to 16
    bytes at its start. *)
Theorem get_aid_safe a w :
  live → zlen a = 32 →
  ∃ r a' w', usim_get_aid a 32 w = Some ((r, a'), w') ∧
  ((r = -1 ∧ a' = a) ∨
   (1 ≤ r ≤ 16 ∧ ∃ d, zlen d = r ∧ a' = init d ++ drop (length d) a)).
Proof. apply get_aid_run. Qed.

(** on a card that answers, selecting the application returns 0 or -1 and
    leaves an AID the file operations can select back: the one found, of at
    most 16 bytes, or the standard 3G RID. *)
Theorem select_aid_stores_aid w :
  live → zlen (aid w) = 32 → 0 ≤ sim_dir_fileid (sim w) < 65536 →
  ∃ r w' d, usim_select_aid w = Some (r, w') ∧ (r = 0 ∨ r = -1) ∧
    home_ok w' d ∧ sim w' = sim w ∧ zlen (aid w') = 32 ∧
    ((1 ≤ zlen d ≤ 16) ∨ d = [0xa0; 0x00; 0x00; 0x00; 0x87]).
Proof.
  intros Hlive Ha Hdir. unfold usim_select_aid. rewrite M_bind_eq. cbn [gets].
  destruct (get_aid_run (aid w) w Hlive Ha) as (n & a1 & w1 & Hrun & Hres).
  rewrite (M_bind_run _ _ _ _ _ Hrun). cbv beta iota.
  destruct (frame_get_aid _ _ _ _ _ Hrun) as (Hs1 & _ & _ & _).
  assert (Hstore : ∃ d w2, (if decide (n < 0)
     then a2 ← lift (blit a1 0 (init [0xa0; 0; 0; 0; 0x87])); modify (with_aid a2 5)
     else modify (with_aid a1 n)) w1 = Some (tt, w2) ∧ sim w2 = sim w ∧
     (∃ b, aid w2 = init d ++ b) ∧ aid_len w2 = zlen d ∧ zlen (aid w2) = 32 ∧ zlen d ≤ 16 ∧
     (1 ≤ zlen d ≤ 16 ∨ d = [0xa0; 0x00; 0x00; 0x00; 0x87])).
  { destruct Hres as [[-> ->]|[Hn (d & Hd & ->)]].
    - exists [0xa0; 0; 0; 0; 0x87]. rewrite decide_True by lia.
      rewrite M_bind_eq, blit_0 by (rewrite Ha; done). cbn [lift].
      eexists. split; [reflexivity|]. cbn [sim aid aid_len with_aid].
      split; [done|]. split; [by eexists|]. split; [done|].
      split; [rewrite zlen_app, zlen_init; unfold zlen in *; rewrite length_drop; cbn; lia|].
      split; [done|by right].
    - exists d. rewrite decide_False by lia. eexists. split; [reflexivity|].
      cbn [sim aid aid_len with_aid]. split; [done|]. split; [by eexists|]. split; [done|].
      split; [rewrite zlen_app, zlen_init; unfold zlen in *; rewrite length_drop; lia|].
      split; [lia|left; lia]. }
  destruct Hstore as (d & w2 & Hst & Hs2 & [b Hb] & Hn2 & Hz2 & Hle & Hd).
  rewrite (M_bind_run _ _ _ _ _ Hst). rewrite M_bind_eq. cbn [gets]. rewrite M_bind_eq. cbn [gets].
  rewrite Hb, Hn2.
  assert (Hok : ∀ e, home_ok (sent (encode (class_of w2) (SelectAid d)) e w2) d).
  { intros e. split; [cbn [sim sent]; by rewrite Hs2|]. cbn [aid aid_len sent].
    split; [unfold zlen in Hle; lia|]. split; [by exists b|done]. }
  destruct (live_exchange (encode (class_of w2) (SelectAid d)) (undef 3) 3 w2 Hlive)
    as (out & e & Hz & _ & Hx); [lia|rewrite zlen_undef; lia|].
  erewrite M_bind_run; [|rewrite select_byaid_run by (unfold zlen in Hle; lia); exact Hx].
  cbv beta iota. rewrite decide_False by lia.
  destruct (status_some (undef 3) out eq_refl Hz) as [bad Hbad]. rewrite M_bind_eq, Hbad. cbn [lift].
  eexists _, _, d. split; [reflexivity|].
  split; [destruct bad; auto|]. split; [apply Hok|]. split; [done|]. split; [done|exact Hd].
Qed.

End Card.

(** ** At concrete cards *)
Lemma steady_live : @live steady steady_env.
Proof.
  intros e cmd n Hn. eexists _, _. cbn [xfer steady_env script_reply].
  rewrite decide_True by lia. reflexivity.
Qed.

(** One application record of 14 bytes; every other command gets status 61 or
    the length 6C 0E. *)
Definition t_record : list Z :=
  [0xb2; 0x61; 12; 0x4f; 7; 0xa0; 0; 0; 0; 0x87; 0x10; 0x02; 0x50; 1; 0x41; 0x90; 0x00].
Definition t_answer (cmd : list Z) : list Z :=
  match cmd with
  | [_; 0xb2; _; _; 127] => [0x6c; 14]
  | [_; 0xb2; _; _; 14] => t_record
  | _ => [0; 0x61; 0x1d]
  end.

Lemma commands_encoded_witness :
  let w := start 0 0x7f20 [] [Some [0; 0x90; 0x00]] in
  wf_command w (UpdateBinary 0 5 [7; 8]) [] ∧
  issue (UpdateBinary 0 5 [7; 8]) [] (undef 3) 3 w = exchange (UpdateBinary 0 5 [7; 8]) (undef 3) 3 w ∧
  encode (class_of w) (UpdateBinary 0 5 [7; 8]) = [0xa0; 0xd6; 0; 5; 2; 7; 8].
Proof.
  intros w. assert (Hw : wf_command w (UpdateBinary 0 5 [7; 8]) []) by (cbn; unfold is_byte; lia).
  split; [exact Hw|]. split; [|reflexivity]. by apply commands_encoded.
Defined.

Lemma verify_pin_never_succeeds_witness :
  let w := start 1 0x7f20 [] [Some [0; 0x90; 0x00]] in
  match usim_verify_pin 1 (init [0x31; 0x32; 0x33; 0x34; 0]) w with
  | Some (r, _) => r = -1
  | None => False
  end.
Proof.
  intros w. destruct (usim_verify_pin _ _ w) as [[r w']|] eqn:Hrun; [|vm_compute in Hrun; discriminate Hrun].
  exact (verify_pin_never_succeeds 1 (init [0x31; 0x32; 0x33; 0x34; 0]) w r w' Hrun).
Defined.

Lemma onchip_auth_never_succeeds_witness :
  let w := start 1 0x7f20 [] [Some [0; 0x61; 0x35]; Some [0xdb; 8]] in
  let v n := Lv n (init (replicate (Z.to_nat n) 1)) in
  match usim_onchip_auth (v 16) (v 16) (AuthOut (v 14) (v 8) (v 16) (Some (v 6))) w with
  | Some ((r, o'), _) => r = -1 ∧ o' = AuthOut (v 14) (v 8) (v 16) (Some (v 6))
  | None => False
  end.
Proof.
  intros w v. destruct (usim_onchip_auth _ _ _ w) as [[[r o'] w']|] eqn:Hrun;
    [|vm_compute in Hrun; discriminate Hrun].
  exact (onchip_auth_never_succeeds _ _ _ w r o' w' Hrun).
Defined.

Lemma get_aid_safe_witness :
  ∃ r a' w', usim_get_aid (zeros 32) 32 (start_steady 1 0x7f20 t_answer) = Some ((r, a'), w') ∧
  ((r = -1 ∧ a' = zeros 32) ∨
   (1 ≤ r ≤ 16 ∧ ∃ d, zlen d = r ∧ a' = init d ++ drop (length d) (zeros 32))).
Proof. apply (get_aid_safe (zeros 32) (start_steady 1 0x7f20 t_answer) steady_live eq_refl). Defined.

Lemma select_aid_stores_aid_witness :
  ∃ r w' d, usim_select_aid (start_steady 1 0x7f20 t_answer) = Some (r, w') ∧ (r = 0 ∨ r = -1) ∧
    home_ok w' d ∧ sim w' = Sim 1 0x7f20 ∧ zlen (aid w') = 32 ∧
    ((1 ≤ zlen d ≤ 16) ∨ d = [0xa0; 0x00; 0x00; 0x00; 0x87]).
Proof.
  apply (select_aid_stores_aid (start_steady 1 0x7f20 t_answer) steady_live eq_refl).
  cbn. lia.
Defined.

(** The record of [t_record] is found, and its AID stored. *)
Example select_aid_run :
  option_map (λ p, (fst p, aid_len (snd p))) (usim_select_aid (start_steady 1 0x7f20 t_answer)) = Some (0, 7).
Proof. vm_compute. reflexivity. Qed.
