(* ===== verification/UsimLib.v ===== *)
(** * File API of the USIM library (lib/usim_library/usim_lib.c)

    Every [vtq_usim_*] function that reads or writes a file of the card, over
    the operations of UsimApdu.v.  A caller's structure is a record whose arrays
    are buffers; a [malloc]ed block starts indeterminate; [free] has no effect
    on the model.  The lengths and file numbers are those of usim_library.h. *)
From S2P Require Import Prelude UsimApdu.
From stdpp Require Import strings.
#[global] Open Scope Z_scope.

(** ** Constants *)
Definition USIM_5GS_DIRFILEID : Z := 0x5FC0.
Definition USIM_NASCONFIG_FILEID : Z := 0x6FE8.
Definition USIM_SUCI_CALC_INFO_FILEID : Z := 0x4F07.
Definition USIM_RID_FILEID : Z := 0x4F0A.
Definition USIM_RID_LENGTH : Z := 2.
Definition USIM_IMSI_FILEID : Z := 0x6F07.
Definition USIM_IMSI_LENGTH : Z := 8.
Definition USIM_HPLMNACT_FILEID : Z := 0x6F62.
Definition USIM_EHPLMN_FILEID : Z := 0x6FD9.
Definition USIM_UPLMNACT_FILEID : Z := 0x6F60.
Definition USIM_OPCONTRLACT_FILEID : Z := 0x6F61.
Definition USIM_OPPLMN_LENGTH : Z := 10.
Definition USIM_OPPLMN_FILEID : Z := 0x4F08.
Definition USIM_FPLMN_FILEID : Z := 0x6F7B.
Definition USIM_UAC_LENGTH : Z := 4.
Definition USIM_UAC_FILEID : Z := 0x4F06.
Definition USIM_ACC_LENGTH : Z := 2.
Definition USIM_ACC_FILEID : Z := 0x6F78.
Definition USIM_5GS_LOCATION_INFO_LENGTH : Z := 20.
Definition USIM_5GS_LOCATION_INFO_FILEID : Z := 0x4F01.
Definition USIM_ADMIN_LENGTH : Z := 4.
Definition USIM_ADMIN_FILEID : Z := 0x6FAD.
Definition USIM_PLMN_NN_FILEID : Z := 0x6FC5.
Definition USIM_NASSECCTX_FILEID : Z := 0x4F03.
Definition USIM_NAS_AUTH_KEYS_FILEID : Z := 0x4F05.
Definition USIM_ACL_FILEID : Z := 0x6F57.
Definition USIM_UST_FILEID : Z := 0x6F38.
Definition UST_TABLE_MAX_LEN : Z := 20.
Definition USIM_PLMNID_LENGTH : Z := 3.
Definition USIM_ACTID_LENGTH : Z := 2.
Definition USIM_GUTI_LENGTH : Z := 13.
Definition USIM_TAC_LENGTH : Z := 3.
Definition USIM_PLMN_MAX_LENGTH : Z := 300.
Definition ACL_MAX_LIST : Z := 8.
Definition ACL_TAG : Z := 0xDD.
Definition USIM_STATE_INVALIDATED : Z := 2.

(** ** State *)

(** One row of a PLMN table: [plmn_id], and [act_id] (empty in the tables that
    have none). *)
Record plmn_row := Row { plmn_id : buffer; act_id : buffer }.

(** The five file-scope tables of [USIM_PLMN_MAX_COUNT] rows. *)
Inductive plmn_tab := Hplmnact | Eqhplmn | Uplmnact | Oplmnact | Forbplmn.
#[export] Instance plmn_tab_eq : EqDecision plmn_tab.
Proof. solve_decision. Defined.

(** The state of the APDU layer, the tables, [imeisv_flash_offset] and the
    current state of the event handle. *)
Record vtq (E : Type) := Vtq {
  core : lib E; tabs : plmn_tab → list plmn_row; imeisv_flash_offset : Z; state_cur : Z }.
Arguments Vtq {E}. Arguments core {E}. Arguments tabs {E}.
Arguments imeisv_flash_offset {E}. Arguments state_cur {E}.

(** [vtq_usim_tlv_t]; [value] is a block of the caller. *)
Record tlv := Tlv { t_tag : Z; t_length : Z; t_value : buffer }.

(** ** Parsers and builders, on the bytes of a file *)

(** One optional field of a NAS structure at the cursor [p]: the tag is stored
    whatever it is; when it is [expected] the length and value follow and the
    cursor moves.  [skip] is how far the cursor moves past the length byte. *)
Definition tlv_field (expected skip : Z) (data : buffer) (p : Z) (t : tlv) : option (tlv * Z) :=
  tag ← rd data p;
  if decide (tag = expected) then
    len ← rd data (p + 1);
    v ← memcpy (t_value t) 0 data (p + 1 + skip) len;
    Some (Tlv tag len v, p + 1 + skip + len)
  else Some (Tlv tag (t_length t) (t_value t), p).

(** The fields of a structure, in order. *)
Fixpoint tlv_fields (fs : list (Z * Z)) (data : buffer) (p : Z) (ts : list tlv)
  : option (list tlv * Z) :=
  match fs, ts with
  | (expected, skip) :: fs, t :: ts =>
      '(t, p) ← tlv_field expected skip data p t;
      '(ts, p) ← tlv_fields fs data p ts;
      Some (t :: ts, p)
  | _, _ => Some (ts, p)
  end.

(** [vtq_usim_nasconfig_t]: fourteen fields, tags 0x80 to 0x8D; the code does
    not move past the length byte of the tenth. *)
Definition nasconfig_fields : list (Z * Z) :=
  [(0x80, 1); (0x81, 1); (0x82, 1); (0x83, 1); (0x84, 1); (0x85, 1); (0x86, 1); (0x87, 1);
   (0x88, 1); (0x89, 0); (0x8A, 1); (0x8B, 1); (0x8C, 1); (0x8D, 1)].
Definition plmn_nn_fields : list (Z * Z) := [(0x43, 1); (0x45, 1)].
Definition nas_sec_ctx_fields : list (Z * Z) :=
  [(0x80, 1); (0x81, 1); (0x82, 1); (0x83, 1); (0x84, 1); (0x85, 1)].

(** [vtq_usim_nas_security_ctx_t]: the outer tag and length, and six fields. *)
Record nas_sec_ctx := SecCtx { sec_tag : Z; sec_len : Z; sec_fields : list tlv }.
Definition NAS_SEC_CTX_TAG : Z := 0xA0.

Definition parse_nas_sec_ctx (data : buffer) (c : nas_sec_ctx) : option nas_sec_ctx :=
  tag ← rd data 0;
  if decide (tag = NAS_SEC_CTX_TAG) then
    len ← rd data 1;
    '(fs, _) ← tlv_fields nas_sec_ctx_fields data 2 (sec_fields c);
    Some (SecCtx tag len fs)
  else Some (SecCtx tag (sec_len c) (sec_fields c)).

(** [buffer[len] = tag; buffer[len + 1] = length; memcpy(buffer + len + 2,
    value, length)]; the length is stored as a byte. *)
Definition put_field (b : buffer) (len : Z) (t : tlv) : option (buffer * Z) :=
  b ← wr b len (u8 (t_tag t));
  b ← wr b (len + 1) (u8 (t_length t));
  b ← memcpy b (len + 2) (t_value t) 0 (t_length t);
  Some (b, len + 2 + t_length t).
Fixpoint put_fields (b : buffer) (len : Z) (ts : list tlv) : option (buffer * Z) :=
  match ts with
  | [] => Some (b, len)
  | t :: ts => '(b, len) ← put_field b len t; put_fields b len ts
  end.

(** The second byte of the block is written last. *)
Definition build_nas_sec_ctx (b : buffer) (c : nas_sec_ctx) : option (buffer * Z) :=
  b ← wr b 0 (u8 (sec_tag c));
  '(b, len) ← put_fields b 2 (sec_fields c);
  b ← wr b 1 (u8 (len - 1 - 1));
  Some (b, len).

(** The sum of [n] bytes from [p]: the long form of a length, as the code reads it. *)
Fixpoint sum_bytes (n : nat) (data : buffer) (p acc : Z) : option Z :=
  match n with
  | O => Some acc
  | S n => x ← rd data p; sum_bytes n data (p + 1) (acc + x)
  end.

(** [vtq_usim_nas_auth_keys_t]. *)
Record nas_auth_keys := AuthKeys { kausf : tlv; kseaf : tlv }.

(** One key at the cursor.  [cnt] is [len_octets_count], which keeps its value
    from one key to the next; [from] is where the long form's bytes are read,
    counted from the length byte. *)
Definition auth_key (expected from : Z) (data : buffer) (p cnt : Z) (t : tlv)
  : option (tlv * Z * Z) :=
  tag ← rd data p;
  if decide (tag = expected) then
    let p := p + 1 in
    l0 ← rd data p;
    '(len, cnt) ← (if decide (127 < l0) then
                     let cnt := Z.land l0 0x7F in
                     len ← sum_bytes (Z.to_nat cnt) data (p + from) 0; Some (len, cnt)
                   else Some (l0, cnt));
    v ← memcpy (t_value t) 0 data (p + 1 + cnt) len;
    Some (Tlv tag len v, p + 1 + cnt + len, cnt)
  else Some (Tlv tag (t_length t) (t_value t), p, cnt).

Definition parse_nas_auth_keys (data : buffer) (k : nas_auth_keys) : option nas_auth_keys :=
  '(a, p, cnt) ← auth_key 0x80 1 data 0 0 (kausf k);
  '(s, _, _) ← auth_key 0x81 2 data p cnt (kseaf k);
  Some (AuthKeys a s).

Definition build_nas_auth_keys (b : buffer) (k : nas_auth_keys) : option (buffer * Z) :=
  put_fields b 0 [kausf k; kseaf k].

(** [vtq_usim_acl_t]: the loop over the list; an entry without the tag does not
    move the cursor. *)
Record acl := Acl { acl_count : Z; acl_list : list tlv }.

Fixpoint acl_loop (n : nat) (data : buffer) (p : Z) (ts : list tlv) : option (list tlv) :=
  match n with
  | O => Some ts
  | S n =>
      match ts with
      | t :: ts => '(t, p) ← tlv_field ACL_TAG 1 data p t; ts ← acl_loop n data p ts; Some (t :: ts)
      | [] => None
      end
  end.

Definition parse_acl (data : buffer) (a : acl) : option acl :=
  c ← rd data 0;
  let c := if decide (ACL_MAX_LIST ≤ c) then ACL_MAX_LIST else c in
  ts ← acl_loop (Z.to_nat c) data 1 (acl_list a);
  Some (Acl c ts).

(** [vtq_usim_suci_calc_info_t]. *)
Record suci_info := SuciInfo {
  num_schemes : Z; scheme_ids : buffer; pub_key_id : buffer; pub_key_len : buffer;
  pub_key : list buffer }.

(** The first loop: identifiers and key indices, [i] of [num] schemes. *)
Fixpoint scheme_loop (n : nat) (i : Z) (data : buffer) (cnt : Z) (key_index : buffer)
    (s : suci_info) : option (buffer * suci_info) :=
  match n with
  | O => Some (key_index, s)
  | S n =>
      x ← rd data (1 + cnt + i);
      ids ← wr (scheme_ids s) i x;
      k ← rd data (1 + cnt + i + 1);
      key_index ← wr key_index i k;
      '(pid, plen) ← (if decide (k = 0) then
                        pid ← wr (pub_key_id s) i 0; plen ← wr (pub_key_len s) i 0; Some (pid, plen)
                      else Some (pub_key_id s, pub_key_len s));
      scheme_loop n (i + 1) data cnt key_index
        (SuciInfo (num_schemes s) ids pid plen (pub_key s))
  end.

(** [memcpy(home_nw_public_key[k-1], ...)]. *)
Definition set_key (ks : list buffer) (i : Z) (data : buffer) (p n : Z) : option (list buffer) :=
  if decide (0 ≤ i < zlen ks) then
    k ← ks !! Z.to_nat i; k ← memcpy k 0 data p n; Some (<[Z.to_nat i := k]> ks)
  else None.

(** The second loop: the keys, [p] the list cursor, [cnt] the octet count of
    the last long length. *)
Fixpoint key_loop (n : nat) (i : Z) (data : buffer) (id_tag p cnt : Z) (key_index : buffer)
    (s : suci_info) : option suci_info :=
  match n with
  | O => Some s
  | S n =>
      k ← rd key_index i;
      if decide (k = 0) then key_loop n (i + 1) data id_tag p cnt key_index s else
      pid ← (if decide (id_tag = 0x80) then x ← rd data (p + 2); wr (pub_key_id s) (k - 1) x
             else Some (pub_key_id s));
      let s := SuciInfo (num_schemes s) (scheme_ids s) pid (pub_key_len s) (pub_key s) in
      let p := p + 3 in
      tag ← rd data p;
      if decide (tag = 0x81) then
        l0 ← rd data (p + 1);
        '(len, cnt) ← (if decide (127 < l0) then
                         let cnt := Z.land l0 0x7F in
                         len ← sum_bytes (Z.to_nat cnt) data (p + 5) 0; Some (len, cnt)
                       else Some (l0, cnt));
        plen ← wr (pub_key_len s) (k - 1) (u8 len);
        ks ← set_key (pub_key s) (k - 1) data (p + 2 + cnt) len;
        key_loop n (i + 1) data id_tag (p + 1 + cnt + len) cnt key_index
          (SuciInfo (num_schemes s) (scheme_ids s) (pub_key_id s) plen ks)
      else key_loop n (i + 1) data id_tag p cnt key_index s
  end.

Definition parse_suci_info (data : buffer) (s : suci_info) : option suci_info :=
  tag ← rd data 0;
  if decide (tag ≠ 0xA0) then Some s else
  l0 ← rd data 1;
  '(plen, cnt) ← (if decide (127 < l0) then
                    let cnt := Z.land l0 0x7F in
                    l ← sum_bytes (Z.to_nat cnt) data 2 l0; Some (u32 l, cnt)
                  else Some (l0, 1));
  let num := u8 (plen / 2) in
  '(key_index, s) ← scheme_loop (Z.to_nat num) 0 data cnt (undef 16)
    (SuciInfo num (scheme_ids s) (pub_key_id s) (pub_key_len s) (pub_key s));
  let p := 1 + cnt + plen in
  ltag ← rd data p;
  if decide (ltag ≠ 0xA1) then Some s else
  l1 ← rd data (p + 1);
  cnt2 ← (if decide (127 < l1) then
            let c := Z.land l1 0x7F in _ ← sum_bytes (Z.to_nat c) data (p + 2) l1; Some c
          else Some 0);
  let p := p + 1 + 1 + cnt2 in
  id_tag ← rd data p;
  key_loop (Z.to_nat num) 0 data id_tag p 0 key_index s.

(** [memcmp(b + p, {0xFF, 0xFF, 0xFF}, 3) != 0] and the copy of the rows that
    pass: [n] rows of [stride] bytes left, [j] rows kept so far. *)
Definition set_row (tab : list plmn_row) (j : Z) (r : plmn_row) : option (list plmn_row) :=
  if decide (0 ≤ j < zlen tab) then Some (<[Z.to_nat j := r]> tab) else None.
Fixpoint plmn_loop (n : nat) (stride : Z) (b : buffer) (p j : Z) (tab : list plmn_row) (count : Z)
  : option (list plmn_row * Z) :=
  match n with
  | O => Some (tab, count)
  | S n =>
      id ← rd_bytes b p 3;
      if decide (id = [0xFF; 0xFF; 0xFF]) then plmn_loop n stride b (p + stride) j tab count
      else
        ids ← sub b p USIM_PLMNID_LENGTH;
        act ← sub b (p + USIM_PLMNID_LENGTH) (stride - USIM_PLMNID_LENGTH);
        tab ← set_row tab j (Row ids act);
        plmn_loop n stride b (p + stride) (j + 1) tab (count + 1)
  end.

(** Copying [count] rows of a table into the caller's array. *)
Definition copy_rows (tab out : list plmn_row) (count : Z) : option (list plmn_row) :=
  let n := Z.to_nat count in
  if decide (count ≤ zlen tab ∧ count ≤ zlen out) then Some (take n tab ++ drop n out) else None.

(** [delete]: every occurrence of one PLMN in the list, [n] steps of three
    bytes from [j]; then all the caller's PLMNs. *)
Fixpoint blank_plmn (n : nat) (id : list Z) (b : buffer) (j : Z) : option buffer :=
  match n with
  | O => Some b
  | S n =>
      x ← rd_bytes b j 3;
      b ← (if decide (id = x) then blit b j (init [0xFF; 0xFF; 0xFF]) else Some b);
      blank_plmn n id b (j + 3)
  end.
Fixpoint blank_plmns (ids : list (list Z)) (len : Z) (b : buffer) : option buffer :=
  match ids with
  | [] => Some b
  | id :: ids => b ← blank_plmn (Z.to_nat ((len + 2) / 3)) id b 0; blank_plmns ids len b
  end.

(** [append]: the caller's PLMNs one after the other. *)
Fixpoint put_plmns (ids : list (list Z)) (b : buffer) (len : Z) : option (buffer * Z) :=
  match ids with
  | [] => Some (b, len)
  | id :: ids => b ← blit b len (init id); put_plmns ids b (len + USIM_PLMNID_LENGTH)
  end.

(** ** The API *)
Section Api.
Context {E : Type} `{Env E}.
Local Abbreviation V := (M (vtq E)).

Definition with_core (l : lib E) (w : vtq E) : vtq E :=
  Vtq l (tabs w) (imeisv_flash_offset w) (state_cur w).
Definition with_tab (t : plmn_tab) (rows : list plmn_row) (w : vtq E) : vtq E :=
  Vtq (core w) (λ t', if decide (t' = t) then rows else tabs w t') (imeisv_flash_offset w) (state_cur w).
Definition with_state_cur (s : Z) (w : vtq E) : vtq E :=
  Vtq (core w) (tabs w) (imeisv_flash_offset w) s.

(** An operation of the APDU layer. *)
Definition on_core {A} (m : M (lib E) A) : V A := λ w,
  match m (core w) with Some (a, l) => Some (a, with_core l w) | None => None end.

Definition malloc_fails (n : Z) : V bool := gets (λ w, malloc_null (env (core w)) n).

(** Reading a transparent file into a fresh block of [n] bytes, then [parse]
    on it: the shape of the readers that take a caller's length.  [over] is
    what they return when the file is longer than the block. *)
Definition read_parsed {A} (file dir n over : Z) (parse : buffer → option A) (out : A) : V (Z * A) :=
  null ← malloc_fails n;
  if (null : bool) then mret (-1, out) else
  '(ret, len, data) ← on_core (usim_read_transparent file 0 (undef n) dir);
  if decide (ret < 0) then mret (ret, out) else
  if decide (n < len) then mret (over, out) else
  out ← lift (parse data);
  mret (0, out).
Definition read_parsed_record {A} (file dir n : Z) (parse : buffer → option A) (out : A) : V (Z * A) :=
  null ← malloc_fails n;
  if (null : bool) then mret (-1, out) else
  '(ret, len, data) ← on_core (usim_read_linearfixed file 0 (undef n) dir);
  if decide (ret < 0) then mret (ret, out) else
  if decide (n < len) then mret (-1, out) else
  out ← lift (parse data);
  mret (0, out).

(** A file longer than the block is a success here: [ret] is that of the read. *)
Definition vtq_usim_read_nasconfig (nasconfig : list tlv) (nas_len : Z) : V (Z * list tlv) :=
  read_parsed USIM_NASCONFIG_FILEID 0 nas_len 0
    (λ data, fst <$> tlv_fields nasconfig_fields data 0 nasconfig) nasconfig.

Definition vtq_usim_read_check_suci : V Z :=
  '(status, _) ← on_core (usim_get_suci 4 (undef 4)); mret status.

(** [vtq_usim_suci_t] is a length and a caller's block. *)
Definition vtq_usim_read_suci (suci : lv) (suci_len : Z) : V (Z * lv) :=
  null ← malloc_fails suci_len;
  if (null : bool) then mret (-1, suci) else
  '(status, buf) ← on_core (usim_get_suci suci_len (undef suci_len));
  if decide (status < 0) then mret (-1, suci) else
  l0 ← lift (rd buf 1);
  '(length, cnt) ← lift (if decide (127 < l0) then
                           let cnt := Z.land l0 0x7F in
                           l ← sum_bytes (Z.to_nat cnt) buf 2 l0; Some (l, cnt)
                         else Some (l0, 0));
  if decide (suci_len < length) then mret (-1, suci) else
  v ← lift (memcpy (lv_value suci) 0 buf (2 + cnt) length);
  mret (0, Lv length v).

Definition vtq_usim_read_suci_calc_info (s : suci_info) (n : Z) : V (Z * suci_info) :=
  read_parsed USIM_SUCI_CALC_INFO_FILEID USIM_5GS_DIRFILEID n (-1) (λ data, parse_suci_info data s) s.

(** The host is little-endian. *)
Definition vtq_usim_read_rid (rid : Z) : V (Z * Z) :=
  '(ret, _, b) ← on_core (usim_read_transparent USIM_RID_FILEID USIM_RID_LENGTH
                           (undef USIM_RID_LENGTH) USIM_5GS_DIRFILEID);
  if decide (ret < 0) then mret (ret, rid) else
  b0 ← lift (rd b 0); b1 ← lift (rd b 1);
  mret (0, b0 + 256 * b1).

(** [vtq_usim_imsi_t]: the value is an array of eight bytes. *)
Definition vtq_usim_read_imsi (imsi : lv) : V (Z * lv) :=
  '(ret, _, b) ← on_core (usim_read_transparent USIM_IMSI_FILEID (USIM_IMSI_LENGTH + 1)
                           (undef (USIM_IMSI_LENGTH + 1)) 0);
  if decide (ret < 0) then mret (ret, imsi) else
  len ← lift (rd b 0);
  v ← lift (memcpy (lv_value imsi) 0 b 1 len);
  mret (0, Lv len v).

Definition vqa_read_usim_imeisv (imeisv : lv) : V (Z * lv) :=
  fd ← on_core (os (λ e, os_open e "/dev/mtd0"%string));
  if decide (fd = -1) then mret (-1, imeisv) else
  off ← gets imeisv_flash_offset;
  '(r, v) ← on_core (read_from_flash fd off (lv_length imeisv) (lv_value imeisv));
  _ ← on_core (os (λ e, (os_close e fd, tt)));
  mret (if decide (r = -1) then -1 else 0, Lv (lv_length imeisv) v).

(** The five [..._list_count] functions: file, row stride, table. *)
Definition plmn_list_count (file stride : Z) (t : plmn_tab) (count : Z) : V (Z * Z) :=
  '(ret, len, b) ← on_core (usim_read_transparent file 0 (undef USIM_PLMN_MAX_LENGTH) 0);
  if decide (ret < 0) then mret (ret, count) else
  let len := if decide (USIM_PLMN_MAX_LENGTH < len) then USIM_PLMN_MAX_LENGTH else len in
  rows ← gets (λ w, tabs w t);
  '(rows, count) ← lift (plmn_loop (Z.to_nat (len / stride)) stride b 0 0 rows count);
  _ ← modify (with_tab t rows);
  mret (0, count).
Definition vtq_usim_read_hplmnact_list_count := plmn_list_count USIM_HPLMNACT_FILEID 5 Hplmnact.
Definition vtq_usim_read_ehplmn_list_count := plmn_list_count USIM_EHPLMN_FILEID 3 Eqhplmn.
Definition vtq_usim_read_user_plmnact_list_count := plmn_list_count USIM_UPLMNACT_FILEID 5 Uplmnact.
Definition vtq_usim_read_opc_plmnact_list_count := plmn_list_count USIM_OPCONTRLACT_FILEID 5 Oplmnact.
Definition vtq_usim_read_forbidden_plmn_list_count := plmn_list_count USIM_FPLMN_FILEID 3 Forbplmn.

(** The five readers of those tables. *)
Definition read_rows (t : plmn_tab) (out : list plmn_row) (count : Z) : V (Z * list plmn_row) :=
  rows ← gets (λ w, tabs w t);
  out ← lift (copy_rows rows out count);
  mret (0, out).
Definition vtq_usim_read_hplmnact := read_rows Hplmnact.
Definition vtq_usim_read_ehplmn := read_rows Eqhplmn.
Definition vtq_usim_read_uplmnact := read_rows Uplmnact.
Definition vtq_usim_read_opc_plmnact := read_rows Oplmnact.
Definition vtq_usim_read_forbidden_plmns := read_rows Forbplmn.

(** [vtq_usim_op_plmn_list_t]. *)
Record op_plmn := OpPlmn { op_plmn_id : buffer; start_tac : buffer; end_tac : buffer; pnn_id : Z }.
Definition vtq_usim_read_op_plmn (o : op_plmn) : V (Z * op_plmn) :=
  '(ret, _, b) ← on_core (usim_read_linearfixed USIM_OPPLMN_FILEID USIM_OPPLMN_LENGTH
                           (undef USIM_OPPLMN_LENGTH) USIM_5GS_DIRFILEID);
  if decide (ret < 0) then mret (ret, o) else
  id ← lift (memcpy (op_plmn_id o) 0 b 0 USIM_PLMNID_LENGTH);
  st ← lift (memcpy (start_tac o) 0 b USIM_PLMNID_LENGTH USIM_TAC_LENGTH);
  en ← lift (memcpy (end_tac o) 0 b (USIM_PLMNID_LENGTH + USIM_TAC_LENGTH) USIM_TAC_LENGTH);
  pnn ← lift (rd b (USIM_PLMNID_LENGTH + 2 * USIM_TAC_LENGTH));
  mret (0, OpPlmn id st en pnn).

(** [(resp[1] != 0x90) && (resp[2] != 0x00)]: both bytes have to differ. *)
Definition binary_rejected (resp : buffer) : option bool :=
  s1 ← rd resp 1;
  if decide (s1 = 0x90) then Some false else s2 ← rd resp 2; Some (bool_decide (s2 ≠ 0x00)).

(** The caller's PLMNs are [ids]; [count] is their number. *)
Definition vtq_usim_append_forbidden_plmns (ids : list (list Z)) : V Z :=
  '(ret, len, _) ← on_core (usim_read_transparent USIM_FPLMN_FILEID 0 (undef 256) 0);
  if decide (ret < 0) then mret ret else
  let lower_offset := len - USIM_PLMNID_LENGTH * zlen ids in
  '(b, len) ← lift (put_plmns ids (zeros 256) 0);
  '(_, resp) ← on_core (usim_update_binary len b 0 lower_offset 3 (undef 3));
  bad ← lift (binary_rejected resp);
  mret (if (bad : bool) then -1 else 0).

Definition vtq_usim_delete_forbidden_plmns (ids : list (list Z)) : V Z :=
  '(ret, len, b) ← on_core (usim_read_transparent USIM_FPLMN_FILEID 0 (undef 256) 0);
  if decide (ret < 0) then mret ret else
  b ← lift (blank_plmns ids len b);
  '(_, resp) ← on_core (usim_update_binary len b 0 0 3 (undef 3));
  bad ← lift (binary_rejected resp);
  if (bad : bool) then mret (-1) else
  _ ← modify (with_state_cur USIM_STATE_INVALIDATED);
  mret 0.

Definition vtq_usim_read_plmn_nn (names : list tlv) (n : Z) : V (Z * list tlv) :=
  read_parsed_record USIM_PLMN_NN_FILEID 0 n (λ data, fst <$> tlv_fields plmn_nn_fields data 0 names) names.

Definition vtq_usim_read_uac (uac_acc_id : buffer) : V (Z * buffer) :=
  '(ret, _, b) ← on_core (usim_read_transparent USIM_UAC_FILEID USIM_UAC_LENGTH
                           (undef USIM_UAC_LENGTH) USIM_5GS_DIRFILEID);
  if decide (ret < 0) then mret (ret, uac_acc_id) else
  u ← lift (memcpy uac_acc_id 0 b 0 USIM_UAC_LENGTH); mret (0, u).

Definition vtq_usim_read_acc (acc : buffer) : V (Z * buffer) :=
  '(ret, _, b) ← on_core (usim_read_transparent USIM_ACC_FILEID USIM_ACC_LENGTH
                           (undef USIM_ACC_LENGTH) 0);
  if decide (ret < 0) then mret (ret, acc) else
  a ← lift (memcpy acc 0 b 0 USIM_ACC_LENGTH); mret (0, a).

(** [vtq_usim_5gs_loc_info_t], packed: GUTI, PLMN, TAC, status. *)
Record loc_info := LocInfo { guti : buffer; tai_plmn : buffer; tai_tac : buffer; status_update : option Z }.
Definition vtq_usim_read_5gs_loc_info (l : loc_info) : V (Z * loc_info) :=
  '(ret, _, b) ← on_core (usim_read_transparent USIM_5GS_LOCATION_INFO_FILEID
     USIM_5GS_LOCATION_INFO_LENGTH (undef USIM_5GS_LOCATION_INFO_LENGTH) USIM_5GS_DIRFILEID);
  if decide (ret < 0) then mret (ret, l) else
  g ← lift (memcpy (guti l) 0 b 0 USIM_GUTI_LENGTH);
  pl ← lift (memcpy (tai_plmn l) 0 b USIM_GUTI_LENGTH USIM_PLMNID_LENGTH);
  ta ← lift (memcpy (tai_tac l) 0 b (USIM_GUTI_LENGTH + USIM_PLMNID_LENGTH) USIM_TAC_LENGTH);
  st ← lift (rd b (USIM_5GS_LOCATION_INFO_LENGTH - 1));
  mret (0, LocInfo g pl ta (Some st)).

Definition vtq_usim_read_nas_sec_ctx (c : nas_sec_ctx) (n : Z) : V (Z * nas_sec_ctx) :=
  read_parsed_record USIM_NASSECCTX_FILEID USIM_5GS_DIRFILEID n (λ data, parse_nas_sec_ctx data c) c.

Definition vtq_usim_invalidate_nas_sec_ctx : V Z :=
  '(ret, len, b) ← on_core (usim_read_linearfixed USIM_NASSECCTX_FILEID 0 (undef 256) USIM_5GS_DIRFILEID);
  if decide (ret < 0) then mret ret else
  b ← lift (wr b 4 0x07);
  on_core (usim_write_linearfixed USIM_NASSECCTX_FILEID len b USIM_5GS_DIRFILEID).

(** [vtq_usim_admin_data_t]. *)
Record admin_data := AdminData { ue_op_mode : Z; addnl_info : buffer; mnc_len : Z }.
Definition vtq_usim_read_admin_data (a : admin_data) : V (Z * admin_data) :=
  '(ret, _, b) ← on_core (usim_read_transparent USIM_ADMIN_FILEID USIM_ADMIN_LENGTH
                           (undef USIM_ADMIN_LENGTH) 0);
  if decide (ret < 0) then mret (ret, a) else
  m ← lift (rd b 0);
  i ← lift (memcpy (addnl_info a) 0 b 1 2);
  n ← lift (rd b 3);
  mret (0, AdminData m i n).

Definition vtq_usim_read_nas_auth_keys (k : nas_auth_keys) (n : Z) : V (Z * nas_auth_keys) :=
  read_parsed USIM_NAS_AUTH_KEYS_FILEID USIM_5GS_DIRFILEID n (-1) (λ data, parse_nas_auth_keys data k) k.

Definition vtq_usim_write_uac (uac_acc_id : buffer) : V Z :=
  b ← lift (memcpy (undef USIM_UAC_LENGTH) 0 uac_acc_id 0 USIM_UAC_LENGTH);
  on_core (usim_write_transparent USIM_UAC_FILEID USIM_UAC_LENGTH b 0 0 USIM_5GS_DIRFILEID).

(** The bytes of the packed structure. *)
Definition loc_info_bytes (l : loc_info) : buffer := guti l ++ tai_plmn l ++ tai_tac l ++ [status_update l].
Definition vtq_usim_write_5gs_loc_info (l : loc_info) : V Z :=
  b ← lift (memcpy (undef USIM_5GS_LOCATION_INFO_LENGTH) 0 (loc_info_bytes l) 0 USIM_5GS_LOCATION_INFO_LENGTH);
  on_core (usim_write_transparent USIM_5GS_LOCATION_INFO_FILEID USIM_5GS_LOCATION_INFO_LENGTH b 0 0
             USIM_5GS_DIRFILEID).

Definition vtq_usim_write_nas_sec_ctx (c : nas_sec_ctx) (n : Z) : V Z :=
  null ← malloc_fails n;
  if (null : bool) then mret (-1) else
  '(b, len) ← lift (build_nas_sec_ctx (undef n) c);
  on_core (usim_write_linearfixed USIM_NASSECCTX_FILEID len b USIM_5GS_DIRFILEID).

(** The result of the write is not returned. *)
Definition vtq_usim_write_nas_auth_keys (k : nas_auth_keys) : V Z :=
  '(b, len) ← lift (build_nas_auth_keys (undef 256) k);
  _ ← on_core (usim_write_transparent USIM_NAS_AUTH_KEYS_FILEID len b 0 0 USIM_5GS_DIRFILEID);
  mret 0.

Definition vtq_usim_read_acl (a : acl) (n : Z) : V (Z * acl) :=
  read_parsed USIM_ACL_FILEID 0 n (-1) (λ data, parse_acl data a) a.

Definition vtq_usim_write_rid (rid : Z) : V Z :=
  on_core (usim_write_transparent USIM_RID_FILEID USIM_RID_LENGTH
    (init [u16 rid mod 256; u16 rid / 256]) 0 0 USIM_5GS_DIRFILEID).

Definition vtq_usim_read_ust (ust_data : buffer) (length : Z) : V (Z * Z * buffer) :=
  '(ret, len, b) ← on_core (usim_read_transparent USIM_UST_FILEID UST_TABLE_MAX_LEN
                             (undef UST_TABLE_MAX_LEN) 0);
  if decide (ret < 0) then mret (ret, length, ust_data) else
  d ← lift (memcpy ust_data 0 b 0 len);
  mret (ret, len, d).

End Api.
