(* ===== verification/UsimLibCorrect.v ===== *)
(** * File API of the USIM library: the theorems
      (lib/usim_library/usim_lib.c)

    Round trips between the writers and the readers, the optional fields of the
    NAS structures, and the PLMN lists. *)
From S2P Require Import Prelude UsimApdu UsimApduSpec UsimScript UsimLib.

(** ** Optional fields *)

(** The bytes of the present fields, in the order of their tags. *)
Fixpoint enc_fields (tags : list Z) (vs : list (option (list Z))) : list Z :=
  match tags, vs with
  | tag :: tags, Some v :: vs => tag :: zlen v :: v ++ enc_fields tags vs
  | _ :: tags, None :: vs => enc_fields tags vs
  | _, _ => []
  end.
(** The byte that follows: the tag of the next present field, or [x]. *)
Fixpoint next_tag (tags : list Z) (vs : list (option (list Z))) (x : Z) : Z :=
  match tags, vs with
  | tag :: _, Some _ :: _ => tag
  | _ :: tags, None :: vs => next_tag tags vs x
  | _, _ => x
  end.
(** What the structure holds afterwards: an absent field keeps its length and
    value, and its tag member is the byte found in its place. *)
Fixpoint filled (tags : list Z) (vs : list (option (list Z))) (x : Z) (ts : list tlv) : list tlv :=
  match tags, vs, ts with
  | tag :: tags, Some v :: vs, t :: ts =>
      Tlv tag (zlen v) (init v ++ drop (length v) (t_value t)) :: filled tags vs x ts
  | _ :: tags, None :: vs, t :: ts =>
      Tlv (next_tag tags vs x) (t_length t) (t_value t) :: filled tags vs x ts
  | _, _, _ => ts
  end.

(** Every value fits the caller's block. *)
Definition fits (v : option (list Z)) (t : tlv) : Prop :=
  match v with Some v => zlen v ≤ zlen (t_value t) | None => True end.

Lemma next_tag_in tags vs x : next_tag tags vs x ∈ x :: tags.
Proof.
  revert vs. induction tags as [|tag tags IH]; intros [|[v|] vs]; cbn [next_tag]; try by left.
  - right. by left.
  - pose proof (IH vs) as Hin. apply elem_of_cons in Hin as [Heq|Hin]; [rewrite Heq; by left|by right; right].
Qed.

Lemma rd_at pre c b k : k = zlen pre → rd (init pre ++ Some c :: b) k = Some c.
Proof.
  intros ->. rewrite rd_app_r by (rewrite zlen_init; lia).
  by replace (zlen pre - zlen (init pre)) with 0 by (rewrite zlen_init; lia).
Qed.

Lemma tlv_field_hit tag v pre rest t :
  zlen v ≤ zlen (t_value t) →
  tlv_field tag 1 (init (pre ++ tag :: zlen v :: v) ++ rest) (zlen pre) t =
  Some (Tlv tag (zlen v) (init v ++ drop (length v) (t_value t)), zlen (pre ++ tag :: zlen v :: v)).
Proof.
  intros Hv. unfold tlv_field.
  replace (init (pre ++ tag :: zlen v :: v) ++ rest) with
    (init pre ++ Some tag :: (init (zlen v :: v) ++ rest)) by (rewrite init_app, <- app_assoc; done).
  rewrite (rd_at pre tag _ (zlen pre)) by done. cbn [mbind option_bind]. rewrite decide_True by done.
  replace (init pre ++ Some tag :: (init (zlen v :: v) ++ rest)) with
    (init (pre ++ [tag]) ++ Some (zlen v) :: (init v ++ rest)) by (rewrite init_app, <- app_assoc; done).
  rewrite rd_at by (rewrite zlen_app, zlen_cons, zlen_nil; lia). cbn [mbind option_bind].
  replace (init (pre ++ [tag]) ++ Some (zlen v) :: (init v ++ rest)) with
    (init (pre ++ [tag; zlen v]) ++ init v ++ rest) by (rewrite !init_app, <- !app_assoc; done).
  unfold memcpy. rewrite (sub_exact (init (pre ++ [tag; zlen v])) (init v) rest).
  2: { rewrite zlen_init, zlen_app, !zlen_cons, zlen_nil. lia. }
  2: { by rewrite zlen_init. }
  cbn [mbind option_bind]. rewrite blit_0 by (by rewrite zlen_init). cbn [mbind option_bind].
  rewrite length_init. do 2 f_equal. rewrite zlen_app, !zlen_cons. lia.
Qed.

Lemma tlv_field_miss tag skip data p t c :
  rd data p = Some c → c ≠ tag →
  tlv_field tag skip data p t = Some (Tlv c (t_length t) (t_value t), p).
Proof. intros Hr Hc. unfold tlv_field. rewrite Hr. cbn [mbind option_bind]. by rewrite decide_False. Qed.

(** The first byte of the encoding, or of what follows it. *)
Lemma rd_next tags vs pre x rest :
  rd (init (pre ++ enc_fields tags vs) ++ Some x :: rest) (zlen pre) = Some (next_tag tags vs x).
Proof.
  revert vs. induction tags as [|tag tags IH]; intros [|[v|] vs]; cbn [enc_fields next_tag];
    rewrite ?app_nil_r; try (by apply rd_at).
  - rewrite init_app, <- app_assoc. by apply rd_at.
  - apply IH.
Qed.

(** A present field moves past its length byte. *)
Definition skips (fs : list (Z * Z)) (vs : list (option (list Z))) : Prop :=
  Forall2 (λ f v, v = None ∨ snd f = 1) fs vs.

Lemma tlv_fields_spec fs : ∀ vs ts pre x rest,
  let tags := fst <$> fs in
  NoDup tags → x ∉ tags → Forall2 fits vs ts → skips fs vs →
  tlv_fields fs (init (pre ++ enc_fields tags vs) ++ Some x :: rest) (zlen pre) ts =
  Some (filled tags vs x ts, zlen (pre ++ enc_fields tags vs)).
Proof.
  induction fs as [|[tag skip] fs IH]; intros vs ts pre x rest tags Hnd Hx Hf Hl;
    inversion Hl as [|? v ? vs' Hs Hl']; subst.
  - cbn. by rewrite app_nil_r.
  - unfold tags in *. clear tags. cbn [fmap list_fmap fst snd] in *.
    apply NoDup_cons in Hnd as [Hin Hnd]. apply not_elem_of_cons in Hx as [Hxt Hx].
    inversion Hf as [|? t ? ts' Hfit Hf']; subst. rename vs' into vs. set (tags := fst <$> fs) in *.
    cbn [tlv_fields]. destruct v as [v|]; cbn [enc_fields filled].
    + destruct Hs as [| ->]; [done|].
      replace (init (pre ++ tag :: zlen v :: v ++ enc_fields tags vs) ++ Some x :: rest) with
        (init (pre ++ tag :: zlen v :: v) ++ (init (enc_fields tags vs) ++ Some x :: rest)).
      2: { rewrite app_assoc, <- init_app, <- app_assoc. done. }
      rewrite tlv_field_hit by done. cbn [mbind option_bind].
      rewrite app_assoc, <- init_app. unfold tags. rewrite IH by done. cbn [mbind option_bind].
      by rewrite <- app_assoc.
    + rewrite (tlv_field_miss _ _ _ _ _ (next_tag tags vs x)).
      * cbn [mbind option_bind]. unfold tags. by rewrite IH.
      * apply rd_next.
      * pose proof (next_tag_in tags vs x) as Hn. intros Heq. rewrite Heq in Hn.
        by apply elem_of_cons in Hn as [?|?].
Qed.

(** ** Builders *)
Definition field_of (tag : Z) (v : list Z) (b : buffer) : tlv := Tlv tag (zlen v) (init v ++ b).
Definition enc_tlv (f : Z * list Z) : list Z := fst f :: zlen (snd f) :: snd f.

Lemma wr_at (pre b : buffer) k c v : k = zlen pre → wr (pre ++ c :: b) k v = Some (pre ++ Some v :: b).
Proof.
  intros ->. unfold wr. rewrite decide_True.
  - by rewrite insert_mid by (unfold zlen; lia).
  - rewrite zlen_app, zlen_cons. pose proof (zlen_nonneg pre); pose proof (zlen_nonneg b). lia.
Qed.

Lemma put_field_spec (pre : buffer) tag v b rest (k : nat) :
  is_byte tag → zlen v < 256 → length rest = (2 + length v + k)%nat →
  put_field (pre ++ rest) (zlen pre) (field_of tag v b) =
  Some (pre ++ init (enc_tlv (tag, v)) ++ drop (2 + length v) rest, zlen pre + zlen (enc_tlv (tag, v))).
Proof.
  intros Ht Hv Hl. unfold put_field, field_of. cbn [t_tag t_length t_value].
  rewrite !u8_byte by (done || (split; [apply zlen_nonneg|done])).
  destruct rest as [|c0 [|c1 rest]]; try (cbn in Hl; lia).
  rewrite wr_at by done. cbn [mbind option_bind].
  replace (pre ++ Some tag :: c1 :: rest) with ((pre ++ [Some tag]) ++ c1 :: rest) by by rewrite <- app_assoc.
  rewrite wr_at by (rewrite zlen_app, zlen_cons, zlen_nil; lia). cbn [mbind option_bind].
  unfold memcpy. rewrite (sub_exact [] (init v) b) by (by rewrite ?zlen_init). cbn [mbind option_bind].
  replace ((pre ++ [Some tag]) ++ Some (zlen v) :: rest) with
    ((pre ++ [Some tag; Some (zlen v)]) ++ take (length v) rest ++ drop (length v) rest)
    by (by rewrite take_drop, <- !app_assoc).
  rewrite blit_exact.
  - cbn [mbind option_bind Nat.add drop]. unfold enc_tlv. cbn [fst snd].
    rewrite <- !app_assoc, !zlen_cons. do 2 f_equal. lia.
  - rewrite zlen_app, !zlen_cons, zlen_nil. lia.
  - rewrite length_init, length_take. cbn in Hl. lia.
Qed.

Lemma put_fields_spec fs : ∀ (pre : buffer) bs rest (k : nat),
  Forall (λ f, is_byte (fst f) ∧ zlen (snd f) < 256) fs → length bs = length fs →
  length rest = (length (flat_map enc_tlv fs) + k)%nat →
  put_fields (pre ++ rest) (zlen pre) (zip_with (λ f b, field_of (fst f) (snd f) b) fs bs) =
  Some (pre ++ init (flat_map enc_tlv fs) ++ drop (length (flat_map enc_tlv fs)) rest,
        zlen pre + zlen (flat_map enc_tlv fs)).
Proof.
  induction fs as [|[tag v] fs IH]; intros pre [|b bs] rest k Hf Hb Hl; try discriminate.
  - cbn [flat_map zip_with put_fields length drop init fmap list_fmap app]. by rewrite zlen_nil, Z.add_0_r.
  - apply Forall_cons in Hf as [[Ht Hv] Hf]. injection Hb as Hb. cbn [fst snd] in *.
    cbn [flat_map] in *. rewrite length_app in Hl. cbn [zip_with put_fields fst snd].
    assert (Hlen : length (enc_tlv (tag, v)) = (2 + length v)%nat) by done.
    rewrite (put_field_spec pre tag v b rest (length (flat_map enc_tlv fs) + k)) by (done || lia).
    cbn [mbind option_bind]. rewrite (app_assoc pre).
    replace (zlen pre + zlen (enc_tlv (tag, v))) with (zlen (pre ++ init (enc_tlv (tag, v))))
      by (rewrite zlen_app, zlen_init; done).
    rewrite (IH _ bs _ k) by (done || (rewrite length_drop; lia)).
    rewrite drop_drop, length_app, Hlen, init_app, !zlen_app, zlen_init, <- !app_assoc.
    do 2 f_equal. lia.
Qed.

(** All fields present: the encoding of [enc_fields] is that of [put_fields]. *)
Lemma enc_fields_all tags vs :
  length vs = length tags → enc_fields tags (Some <$> vs) = flat_map enc_tlv (zip tags vs).
Proof.
  revert vs. induction tags as [|tag tags IH]; intros [|v vs] Hl; try done.
  cbn [fmap list_fmap enc_fields zip zip_with flat_map]. rewrite IH by (by injection Hl).
  done.
Qed.

Definition sec_tags : list Z := [0x80; 0x81; 0x82; 0x83; 0x84; 0x85].
(** A security context with these six values, each in a block with [b] behind. *)
Definition sec_ctx_of (vs : list (list Z)) (bs : list buffer) (len : Z) : nas_sec_ctx :=
  SecCtx NAS_SEC_CTX_TAG len (zip_with (λ f b, field_of (fst f) (snd f) b) (zip sec_tags vs) bs).

Lemma sec_tags_nodup : NoDup sec_tags.
Proof. apply (bool_decide_unpack _). reflexivity. Qed.

(** The values of the fields of a structure. *)
Definition value_of (t : tlv) : option (list Z) := rd_bytes (t_value t) 0 (t_length t).
Lemma filled_values tags vs x ts :
  length vs = length tags → length ts = length tags →
  value_of <$> filled tags (Some <$> vs) x ts = Some <$> vs.
Proof.
  revert vs ts. induction tags as [|tag tags IH]; intros [|v vs] [|t ts] H1 H2; try done.
  cbn [fmap list_fmap filled]. f_equal.
  - unfold value_of. cbn [t_value t_length]. apply rd_bytes_prefix.
  - apply IH; [by injection H1|by injection H2].
Qed.

Lemma zip_tags_wf tags vs :
  Forall is_byte tags → Forall (λ v, zlen v < 256) vs →
  Forall (λ f : Z * list Z, is_byte (fst f) ∧ zlen (snd f) < 256) (zip tags vs).
Proof.
  intros Ht Hv. apply Forall_forall. intros [t v] Hin. cbn [fst snd]. split.
  - apply elem_of_zip_l in Hin. rewrite Forall_forall in Ht. by apply Ht.
  - apply elem_of_zip_r in Hin. rewrite Forall_forall in Hv. by apply Hv.
Qed.
Lemma sec_tags_bytes : Forall is_byte sec_tags.
Proof. repeat constructor; unfold is_byte; lia. Qed.

(** The file content of a security context. *)
Definition enc_sec_ctx (vs : list (list Z)) : list Z :=
  let body := flat_map enc_tlv (zip sec_tags vs) in [NAS_SEC_CTX_TAG; zlen body] ++ body.

Lemma build_sec_ctx_spec vs bs n room :
  length vs = 6%nat → length bs = 6%nat → Forall (λ v, zlen v < 256) vs →
  zlen (enc_sec_ctx vs) < 258 → zlen (enc_sec_ctx vs) ≤ room →
  build_nas_sec_ctx (undef room) (sec_ctx_of vs bs n) =
  Some (init (enc_sec_ctx vs) ++ undef (room - zlen (enc_sec_ctx vs)), zlen (enc_sec_ctx vs)).
Proof.
  intros Hvs Hbs Hlt Htot Hroom. unfold enc_sec_ctx in *. cbv zeta in *.
  set (body := flat_map enc_tlv (zip sec_tags vs)) in *.
  pose proof (zlen_nonneg body) as Hpos. rewrite zlen_app, !zlen_cons, zlen_nil in *.
  assert (Hzip : length (zip sec_tags vs) = 6%nat) by (by rewrite length_zip_with, Hvs).
  set (m := Z.to_nat (room - 2)).
  assert (Hund : undef room = [None; None] ++ replicate m None).
  { unfold undef, m. replace (Z.to_nat room) with (2 + Z.to_nat (room - 2))%nat by lia. done. }
  unfold build_nas_sec_ctx, sec_ctx_of. cbn [sec_tag sec_fields]. rewrite Hund.
  change (wr _ 0 _) with (Some ([Some NAS_SEC_CTX_TAG; None] ++ replicate m None)).
  cbn [mbind option_bind].
  assert (Hput := put_fields_spec (zip sec_tags vs) [Some NAS_SEC_CTX_TAG; None] bs (replicate m None)
    (m - length body)).
  fold body in Hput. change (zlen [Some NAS_SEC_CTX_TAG; None]) with 2 in Hput.
  rewrite Hput; clear Hput.
  - cbn [mbind option_bind]. change ([Some NAS_SEC_CTX_TAG; None] ++ ?x) with ([Some NAS_SEC_CTX_TAG] ++ None :: x).
    rewrite wr_at by done. cbn [mbind option_bind].
    replace (2 + zlen body - 1 - 1) with (zlen body) by lia. rewrite u8_byte by (unfold is_byte; lia).
    rewrite drop_replicate. unfold undef.
    replace (m - length body)%nat with (Z.to_nat (room - (1 + (1 + 0) + zlen body))) by (unfold m, zlen; lia).
    do 2 f_equal; try done; lia.
  - apply zip_tags_wf; [apply sec_tags_bytes|done].
  - lia.
  - rewrite length_replicate. unfold m, zlen in *. lia.
Qed.

Lemma parse_sec_ctx_spec vs x tl c' :
  length vs = 6%nat → length (sec_fields c') = 6%nat →
  Forall2 (λ v t, zlen v ≤ zlen (t_value t)) vs (sec_fields c') → x ∉ sec_tags →
  parse_nas_sec_ctx (init (enc_sec_ctx vs) ++ Some x :: tl) c' =
  Some (SecCtx NAS_SEC_CTX_TAG (zlen (enc_sec_ctx vs) - 2) (filled sec_tags (Some <$> vs) x (sec_fields c'))).
Proof.
  intros Hvs Hc Hfit Hx. unfold parse_nas_sec_ctx.
  assert (Hb : enc_sec_ctx vs = [NAS_SEC_CTX_TAG; zlen (enc_sec_ctx vs) - 2] ++ enc_fields sec_tags (Some <$> vs)).
  { unfold enc_sec_ctx at 1. cbv zeta. rewrite enc_fields_all by done. do 3 f_equal.
    unfold enc_sec_ctx. rewrite zlen_app, !zlen_cons, zlen_nil. lia. }
  set (L := zlen (enc_sec_ctx vs) - 2) in *. clearbody L. rewrite Hb.
  rewrite init_app, <- app_assoc.
  change (rd (init [NAS_SEC_CTX_TAG; L] ++ ?b) 0) with (Some NAS_SEC_CTX_TAG).
  change (rd (init [NAS_SEC_CTX_TAG; L] ++ ?b) 1) with (Some L).
  cbn [mbind option_bind]. rewrite decide_True by done.
  rewrite app_assoc, <- init_app.
  change sec_tags with (fst <$> nas_sec_ctx_fields) at 1.
  rewrite (tlv_fields_spec nas_sec_ctx_fields _ _ [NAS_SEC_CTX_TAG; L]); [done|apply sec_tags_nodup|done| |].
  - by apply Forall2_fmap_l.
  - destruct vs as [|? [|? [|? [|? [|? [|? [|? ?]]]]]]]; try discriminate.
    repeat (constructor; [by right|]). constructor.
Qed.

(** the bytes [vtq_usim_write_nas_sec_ctx] builds for a security context
    are those [vtq_usim_read_nas_sec_ctx] parses back into the same six values,
    whatever the reader's structure held. *)
Theorem nas_sec_ctx_roundtrip vs bs n room c' x tl :
  length vs = 6%nat → length bs = 6%nat → Forall (λ v, zlen v < 256) vs →
  zlen (enc_sec_ctx vs) < 258 → zlen (enc_sec_ctx vs) ≤ room →
  length (sec_fields c') = 6%nat →
  Forall2 (λ v t, zlen v ≤ zlen (t_value t)) vs (sec_fields c') → x ∉ sec_tags →
  ∃ b len c'', build_nas_sec_ctx (undef room) (sec_ctx_of vs bs n) = Some (b, len) ∧
    parse_nas_sec_ctx (take (Z.to_nat len) b ++ Some x :: tl) c' = Some c'' ∧
    (value_of <$> sec_fields c'') = Some <$> vs ∧ sec_len c'' = len - 2.
Proof.
  intros Hvs Hbs Hlt Htot Hroom Hc Hfit Hx.
  eexists _, _, _. split; [by apply build_sec_ctx_spec|].
  unfold zlen at 1. rewrite Nat2Z.id, take_app_length' by (by rewrite length_init).
  split; [by apply parse_sec_ctx_spec|]. cbn [sec_fields sec_len]. split; [by apply filled_values|done].
Qed.

Lemma nas_sec_ctx_roundtrip_witness :
  let vs := [[7]; replicate 32 1; [0; 0; 0; 9]; [0; 0; 0; 8]; [0x21]; [0x11]] in
  let blocks := replicate 6 (Tlv 0 0 (undef 32)) in
  ∃ b len c'', build_nas_sec_ctx (undef 60) (sec_ctx_of vs (replicate 6 []) 0) = Some (b, len) ∧
    parse_nas_sec_ctx (take (Z.to_nat len) b ++ Some 0xFF :: []) (SecCtx 0 0 blocks) = Some c'' ∧
    (value_of <$> sec_fields c'') = Some <$> vs ∧ sec_len c'' = len - 2.
Proof.
  intros vs blocks.
  apply (nas_sec_ctx_roundtrip vs (replicate 6 []) 0 60 (SecCtx 0 0 blocks) 0xFF []);
    try reflexivity.
  - repeat constructor; vm_compute; reflexivity.
  - vm_compute. discriminate.
  - repeat constructor; vm_compute; discriminate.
  - apply (bool_decide_unpack _). reflexivity.
Defined.

(** ** NAS configuration *)
Definition nas_tags : list Z := fst <$> nasconfig_fields.

(** a NAS configuration file is parsed field by field: for any choice of
    present fields among the fourteen, the tenth absent, each present value
    lands in its member with its length, and an absent field keeps its value. *)
Theorem nasconfig_fields_parsed vs ts x rest :
  length vs = 14%nat → vs !! 9%nat = Some None → x ∉ nas_tags → Forall2 fits vs ts →
  tlv_fields nasconfig_fields (init (enc_fields nas_tags vs) ++ Some x :: rest) 0 ts =
  Some (filled nas_tags vs x ts, zlen (enc_fields nas_tags vs)).
Proof.
  intros Hl Hten Hx Hf.
  apply (tlv_fields_spec nasconfig_fields vs ts [] x rest); [|done|done|].
  - apply (bool_decide_unpack _). reflexivity.
  - do 14 (destruct vs as [|? vs]; [discriminate|]). destruct vs; [|discriminate].
    injection Hten as ->.
    repeat (constructor; [first [by right|by left]|]). constructor.
Qed.

Definition t_nas_values : list (option (list Z)) :=
  [Some [1]; None; Some [1]; Some [5; 6]; None; None; None; None; Some [0]; None; Some [3; 3]; None; None; Some [1]].

Lemma nasconfig_fields_parsed_witness :
  let ts := replicate 14 (Tlv 0 0 (undef 4)) in
  tlv_fields nasconfig_fields (init (enc_fields nas_tags t_nas_values) ++ [Some 0xFF]) 0 ts =
  Some (filled nas_tags t_nas_values 0xFF ts, zlen (enc_fields nas_tags t_nas_values)).
Proof.
  intros ts. apply (nasconfig_fields_parsed t_nas_values ts 0xFF []); try reflexivity.
  - apply (bool_decide_unpack _). reflexivity.
  - repeat constructor; vm_compute; discriminate.
Defined.

(** with the tenth field present the cursor stays one byte behind: its
    value is read from its length byte on, and the fields after it are lost. *)
Theorem nasconfig_tenth_field_shifts :
  let vs := replicate 9 None ++ [Some [7]; Some [3]; None; None; None] in
  let ts := replicate 14 (Tlv 0 0 (zeros 4)) in
  option_map (λ p, (t_tag <$> fst p, value_of <$> take 2 (drop 9 (fst p))))
    (tlv_fields nasconfig_fields (init (enc_fields nas_tags vs) ++ [Some 0xFF]) 0 ts) =
  Some (replicate 10 0x89 ++ replicate 4 7, [Some [1]; Some []]).
Proof. vm_compute. reflexivity. Qed.

(** ** Authentication keys *)
Definition keys_of (a s : list Z) (ba bs : buffer) : nas_auth_keys :=
  AuthKeys (field_of 0x80 a ba) (field_of 0x81 s bs).
Definition enc_keys (a s : list Z) : list Z := flat_map enc_tlv [(0x80, a); (0x81, s)].

(** One key in the short form. *)
Lemma auth_key_short tag from v pre rest t :
  zlen v ≤ 127 → zlen v ≤ zlen (t_value t) →
  auth_key tag from (init (pre ++ enc_tlv (tag, v)) ++ rest) (zlen pre) 0 t =
  Some (Tlv tag (zlen v) (init v ++ drop (length v) (t_value t)), zlen (pre ++ enc_tlv (tag, v)), 0).
Proof.
  intros Hv Hcap. pose proof (tlv_field_hit tag v pre rest t Hcap) as Hf.
  unfold tlv_field in Hf. unfold auth_key, enc_tlv. cbn [fst snd].
  set (data := init (pre ++ tag :: zlen v :: v) ++ rest) in *.
  destruct (rd data (zlen pre)) as [tag'|]; [|done]. cbn [mbind option_bind] in *.
  destruct (decide (tag' = tag)) as [->|]; [|by injection Hf].
  assert (Hr : rd data (zlen pre + 1) = Some (zlen v)).
  { unfold data. replace (pre ++ tag :: zlen v :: v) with ((pre ++ [tag]) ++ zlen v :: v) by by rewrite <- app_assoc.
    rewrite init_app, <- app_assoc. cbn [init fmap list_fmap app].
    apply rd_at. rewrite zlen_app, zlen_cons, zlen_nil. lia. }
  rewrite Hr in *. cbn [mbind option_bind] in *. rewrite decide_False by lia. cbn [mbind option_bind].
  replace (zlen pre + 1 + 1 + 0) with (zlen pre + 1 + 1) by lia.
  destruct (memcpy _ 0 data (zlen pre + 1 + 1) (zlen v)) as [b|]; [|done]. cbn [mbind option_bind] in *.
  injection Hf as -> Hp. do 2 f_equal. f_equal. lia.
Qed.

(** the NAS authentication keys written by [vtq_usim_write_nas_auth_keys]
    are read back by [vtq_usim_read_nas_auth_keys] when each key is at most 127
    bytes long and both fit the 256-byte block. *)
Theorem nas_auth_keys_roundtrip a s ba bs k' tl :
  zlen a ≤ 127 → zlen s ≤ 127 → zlen a + zlen s ≤ 252 → zlen a ≤ zlen (t_value (kausf k')) → zlen s ≤ zlen (t_value (kseaf k')) →
  ∃ b k'', build_nas_auth_keys (undef 256) (keys_of a s ba bs) = Some (b, zlen (enc_keys a s)) ∧
    parse_nas_auth_keys (take (Z.to_nat (zlen (enc_keys a s))) b ++ tl) k' = Some k'' ∧
    value_of (kausf k'') = Some a ∧ value_of (kseaf k'') = Some s.
Proof.
  intros Ha Hs Hsum Hca Hcs.
  assert (Hlen : zlen (enc_keys a s) = 4 + zlen a + zlen s).
  { unfold enc_keys, enc_tlv. cbn [flat_map fst snd]. rewrite app_nil_r, zlen_app, !zlen_cons. lia. }
  pose proof (zlen_nonneg a); pose proof (zlen_nonneg s).
  eexists _, _. split.
  - unfold build_nas_auth_keys, keys_of.
    apply (put_fields_spec [(0x80, a); (0x81, s)] [] [ba; bs] (undef 256) (256 - length (enc_keys a s))).
    + repeat constructor; cbn [fst snd]; lia.
    + done.
    + fold (enc_keys a s). unfold undef. rewrite length_replicate. unfold zlen in *. lia.
  - fold (enc_keys a s). cbn [app].
    unfold zlen at 1. rewrite Nat2Z.id, take_app_length' by (by rewrite length_init).
    unfold enc_keys. cbn [flat_map]. rewrite app_nil_r. unfold parse_nas_auth_keys.
    replace (init (enc_tlv (128, a) ++ enc_tlv (129, s)) ++ tl) with
      (init ([] ++ enc_tlv (128, a)) ++ (init (enc_tlv (129, s)) ++ tl)) by (rewrite (init_app (enc_tlv _)), <- app_assoc; done).
    change 0 with (zlen (@nil Z)) at 1. rewrite auth_key_short by done. cbn [mbind option_bind].
    rewrite app_assoc, <- init_app. rewrite auth_key_short by done. cbn [mbind option_bind].
    split; [done|]. cbn [kausf kseaf]. unfold value_of. cbn [t_value t_length].
    split; apply rd_bytes_prefix.
Qed.

Lemma nas_auth_keys_roundtrip_witness :
  let k := replicate 32 9 in
  let out := AuthKeys (Tlv 0 0 (undef 32)) (Tlv 0 0 (undef 40)) in
  ∃ b k'', build_nas_auth_keys (undef 256) (keys_of k k [] []) = Some (b, zlen (enc_keys k k)) ∧
    parse_nas_auth_keys (take (Z.to_nat (zlen (enc_keys k k))) b ++ []) out = Some k'' ∧
    value_of (kausf k'') = Some k ∧ value_of (kseaf k'') = Some k.
Proof.
  intros k out. apply (nas_auth_keys_roundtrip k k [] [] out []); vm_compute; discriminate.
Defined.

(** a key of 128 bytes does not survive: the writer stores its length in
    one byte, which the reader takes for a count of length bytes. *)
Theorem nas_auth_keys_long :
  let a := replicate 128 1 in
  let out := AuthKeys (Tlv 0 0 (undef 128)) (Tlv 0 0 (undef 128)) in
  match build_nas_auth_keys (undef 256) (keys_of a [2] [] []) with
  | Some (b, len) =>
      option_map (λ k, (t_length (kausf k), t_length (kseaf k))) (parse_nas_auth_keys (take (Z.to_nat len) b) out)
        = Some (0, 0)
  | None => False
  end.
Proof. vm_compute. reflexivity. Qed.

(** ** PLMN lists *)

(** A list file: rows of three bytes and [m] bytes more. *)
Definition row_ok (m : nat) (r : list Z * list Z) : Prop := length (fst r) = 3%nat ∧ length (snd r) = m.
Definition row_bytes (r : list Z * list Z) : list Z := fst r ++ snd r.
Definition row_of (r : list Z * list Z) : plmn_row := Row (init (fst r)) (init (snd r)).
Definition used (r : list Z * list Z) : Prop := fst r ≠ [0xFF; 0xFF; 0xFF].
#[global] Instance used_dec r : Decision (used r).
Proof. unfold used. solve_decision. Defined.

Lemma rows_length m rows :
  Forall (row_ok m) rows → length (flat_map row_bytes rows) = (length rows * (3 + m))%nat.
Proof.
  induction 1 as [|[id act] rows [H1 H2] _ IH]; [done|].
  cbn [fst snd] in *. cbn [flat_map length]. unfold row_bytes at 1. cbn [fst snd].
  rewrite !length_app, IH, H1, H2. lia.
Qed.

Lemma plmn_loop_spec (m : nat) rows : ∀ pre rest (done_ : list plmn_row) tab count,
  Forall (row_ok m) rows → (length (filter used rows) ≤ length tab)%nat →
  plmn_loop (length rows) (3 + Z.of_nat m) (init (pre ++ flat_map row_bytes rows) ++ rest) (zlen pre)
    (zlen done_) (done_ ++ tab) count =
  Some (done_ ++ (row_of <$> filter used rows) ++ drop (length (filter used rows)) tab,
        count + zlen (filter used rows)).
Proof.
  induction rows as [|[id act] rows IH]; intros pre rest done_ tab count Hok Hcap.
  - cbn. rewrite drop_0, zlen_nil. do 2 f_equal. lia.
  - apply Forall_cons in Hok as [[Hid Hact] Hok]. cbn [fst snd] in *.
    cbn [length plmn_loop flat_map]. change (row_bytes (id, act)) with (id ++ act).
    assert (Hdata : init (pre ++ (id ++ act) ++ flat_map row_bytes rows) ++ rest =
      init pre ++ init id ++ (init act ++ init (flat_map row_bytes rows) ++ rest))
      by (rewrite !init_app, <- !app_assoc; done).
    assert (Hsub : sub (init (pre ++ (id ++ act) ++ flat_map row_bytes rows) ++ rest) (zlen pre) 3 = Some (init id)).
    { rewrite Hdata. apply sub_exact; rewrite ?zlen_init; unfold zlen; lia. }
    assert (Hsub1 : sub (init (pre ++ (id ++ act) ++ flat_map row_bytes rows) ++ rest) (zlen pre) USIM_PLMNID_LENGTH
      = Some (init id)) by exact Hsub.
    assert (Hsub2 : sub (init (pre ++ (id ++ act) ++ flat_map row_bytes rows) ++ rest)
      (zlen pre + USIM_PLMNID_LENGTH) (3 + Z.of_nat m - USIM_PLMNID_LENGTH) = Some (init act)).
    { rewrite Hdata, app_assoc. apply sub_exact; rewrite ?zlen_app, ?zlen_init; unfold zlen, USIM_PLMNID_LENGTH; lia. }
    unfold rd_bytes. rewrite Hsub. cbn [mbind option_bind]. rewrite mapM_id_init. cbn [mbind option_bind].
    assert (Hnext : zlen pre + (3 + Z.of_nat m) = zlen (pre ++ id ++ act))
      by (rewrite !zlen_app; unfold zlen; lia).
    assert (Hshift : pre ++ (id ++ act) ++ flat_map row_bytes rows = (pre ++ id ++ act) ++ flat_map row_bytes rows)
      by (by rewrite <- !app_assoc).
    rewrite filter_cons in *. destruct (decide (id = [0xFF; 0xFF; 0xFF])) as [->|Hne].
    + rewrite decide_False in * by (unfold used; tauto).
      rewrite Hnext, Hshift. by apply IH.
    + rewrite decide_True in * by done. cbn [length] in Hcap.
      rewrite Hsub1. cbn [mbind option_bind].
      rewrite Hsub2. cbn [mbind option_bind].
      destruct tab as [|r0 tab]; [cbn in Hcap; lia|].
      unfold set_row. rewrite decide_True.
      2: { rewrite zlen_app, zlen_cons. pose proof (zlen_nonneg done_); pose proof (zlen_nonneg tab). lia. }
      cbn [mbind option_bind]. rewrite insert_mid by (unfold zlen; lia).
      replace (done_ ++ Row (init id) (init act) :: tab) with
        ((done_ ++ [row_of (id, act)]) ++ tab) by (by rewrite <- app_assoc).
      replace (zlen done_ + 1) with (zlen (done_ ++ [row_of (id, act)]))
        by (rewrite zlen_app, zlen_cons, zlen_nil; lia).
      rewrite Hnext, Hshift, IH by (done || (cbn in Hcap; lia)).
      cbn [fmap list_fmap app drop length]. rewrite <- app_assoc, zlen_cons. cbn [app].
      do 2 f_equal. lia.
Qed.

(** Deleting: each row that is one of [ids] becomes FF FF FF. *)
Definition blanked (ids : list (list Z)) (r : list Z) : list Z :=
  if decide (r ∈ ids) then [0xFF; 0xFF; 0xFF] else r.

Lemma blank_plmn_spec id rows : ∀ pre rest,
  Forall (λ r, length r = 3%nat) rows →
  blank_plmn (length rows) id (init (pre ++ concat rows) ++ rest) (zlen pre) =
  Some (init (pre ++ concat ((λ r, if decide (id = r) then [0xFF; 0xFF; 0xFF] else r) <$> rows)) ++ rest).
Proof.
  induction rows as [|r rows IH]; intros pre rest Hok; [done|].
  apply Forall_cons in Hok as [Hr Hok]. cbn [length blank_plmn concat fmap list_fmap].
  assert (Hdata : init (pre ++ r ++ concat rows) ++ rest = init pre ++ init r ++ (init (concat rows) ++ rest))
    by (rewrite !init_app, <- !app_assoc; done).
  unfold rd_bytes. rewrite Hdata.
  rewrite (sub_exact (init pre) (init r)) by (rewrite ?zlen_init; unfold zlen; lia).
  cbn [mbind option_bind]. rewrite mapM_id_init. cbn [mbind option_bind].
  set (r' := if decide (id = r) then [0xFF; 0xFF; 0xFF] else r).
  assert (Hr' : length r' = 3%nat) by (unfold r'; by case_decide).
  assert (Hstep : (if decide (id = r) then blit (init pre ++ init r ++ init (concat rows) ++ rest) (zlen pre)
      (init [0xFF; 0xFF; 0xFF]) else Some (init pre ++ init r ++ init (concat rows) ++ rest)) =
    Some (init (pre ++ r') ++ init (concat rows) ++ rest)).
  { unfold r'. rewrite init_app, <- app_assoc. case_decide; [|done].
    apply blit_exact; [by rewrite zlen_init|by rewrite !length_init]. }
  rewrite Hstep. cbn [mbind option_bind].
  replace (zlen pre + 3) with (zlen (pre ++ r')) by (rewrite zlen_app; unfold zlen; lia).
  rewrite app_assoc, <- init_app, IH by done. do 3 f_equal. by rewrite <- app_assoc.
Qed.

Lemma concat_length rows : Forall (λ r : list Z, length r = 3%nat) rows → length (concat rows) = (3 * length rows)%nat.
Proof. induction 1 as [|r rows Hr _ IH]; [done|]. cbn [concat length]. rewrite length_app, IH. lia. Qed.

Lemma blank_plmns_spec ids : ∀ rows rest,
  Forall (λ r, length r = 3%nat) rows → [0xFF; 0xFF; 0xFF] ∉ ids →
  blank_plmns ids (zlen (concat rows)) (init (concat rows) ++ rest) =
  Some (init (concat (blanked ids <$> rows)) ++ rest).
Proof.
  induction ids as [|id ids IH]; intros rows rest Hok Hff; cbn [blank_plmns].
  - do 4 f_equal. rewrite <- (list_fmap_id rows) at 1. by apply list_fmap_ext.
  - apply not_elem_of_cons in Hff as [Hne Hff].
    assert (Hn : Z.to_nat ((zlen (concat rows) + 2) / 3) = length rows).
    { unfold zlen. rewrite concat_length by done.
      replace (Z.of_nat (3 * length rows) + 2) with (2 + Z.of_nat (length rows) * 3) by lia.
      rewrite Z.div_add by lia. change (2 / 3) with 0. lia. }
    rewrite Hn. pose proof (blank_plmn_spec id rows [] rest Hok) as Hb.
    change (zlen []) with 0 in Hb. cbn [app] in Hb. rewrite Hb. cbn [mbind option_bind].
    set (rows' := (λ r, if decide (id = r) then [0xFF; 0xFF; 0xFF] else r) <$> rows).
    assert (Hok' : Forall (λ r, length r = 3%nat) rows').
    { apply Forall_fmap. eapply Forall_impl; [exact Hok|]. intros r Hr. cbn. by case_decide. }
    replace (zlen (concat rows)) with (zlen (concat rows'))
      by (unfold zlen, rows'; by rewrite !concat_length, ?length_fmap).
    rewrite IH by done. do 4 f_equal. unfold rows'. rewrite <- list_fmap_compose.
    apply list_fmap_ext. intros i r _. cbn [compose]. unfold blanked.
    destruct (decide (id = r)) as [->|Hid].
    + rewrite decide_False by done. by rewrite decide_True by set_solver.
    + destruct (decide (r ∈ ids)); [by rewrite decide_True by set_solver|].
      rewrite decide_False; [done|]. intros [?|?]%elem_of_cons; [by apply Hid|done].
Qed.

Section Lists.
Context {E : Type} `{Env E}.

(** counting a PLMN list and reading it: after the card gave a list file of
    whole rows, the count grows by the number of rows that are not FF FF FF,
    and the reader returns exactly those rows, in the order of the file. *)
Theorem plmn_list_read file t (m : nat) rows b l count out w :
  usim_read_transparent file 0 (undef USIM_PLMN_MAX_LENGTH) 0 (core w) =
    Some ((0, zlen (flat_map row_bytes rows), init (flat_map row_bytes rows) ++ b), l) →
  Forall (row_ok m) rows → zlen (flat_map row_bytes rows) ≤ USIM_PLMN_MAX_LENGTH →
  length (tabs w t) = 100%nat → (length (filter used rows) ≤ length out)%nat →
  ∃ w', plmn_list_count file (3 + Z.of_nat m) t count w =
    Some ((0, count + zlen (filter used rows)), w') ∧
  read_rows t out (zlen (filter used rows)) w' =
    Some ((0, (row_of <$> filter used rows) ++ drop (length (filter used rows)) out), w').
Proof.
  intros Hread Hok Hmax Htab Hout. pose proof (rows_length m rows Hok) as Hlen.
  assert (Hn : (length rows ≤ 100)%nat) by (unfold zlen, USIM_PLMN_MAX_LENGTH in Hmax; nia).
  assert (Hcap : (length (filter used rows) ≤ length (tabs w t))%nat)
    by (rewrite Htab; pose proof (length_filter used rows); lia).
  assert (Hdiv : Z.to_nat (zlen (flat_map row_bytes rows) / (3 + Z.of_nat m)) = length rows).
  { unfold zlen. rewrite Hlen. replace (Z.of_nat (length rows * (3 + m))) with
      (Z.of_nat (length rows) * (3 + Z.of_nat m)) by lia.
    rewrite Z.div_mul by lia. lia. }
  set (kept := row_of <$> filter used rows).
  set (tab' := kept ++ drop (length (filter used rows)) (tabs w t)).
  exists (with_tab t tab' (with_core l w)). split.
  - unfold plmn_list_count. erewrite M_bind_run.
    2: { unfold on_core. rewrite Hread. reflexivity. }
    cbv beta iota. rewrite decide_False by lia. rewrite decide_False by lia.
    rewrite M_bind_eq. cbn [gets]. rewrite M_bind_eq, Hdiv.
    change (tabs (with_core l w) t) with ([] ++ tabs w t).
    pose proof (plmn_loop_spec m rows [] b [] (tabs w t) count Hok Hcap) as Hloop.
    cbn [app] in Hloop. change (zlen []) with 0 in Hloop. cbn [app]. rewrite Hloop. done.
  - unfold read_rows. rewrite M_bind_eq. cbn [gets].
    change (tabs (with_tab t tab' (with_core l w)) t) with (if decide (t = t) then tab' else tabs w t).
    rewrite decide_True by done. rewrite M_bind_eq. unfold copy_rows.
    assert (Hk : length kept = length (filter used rows)) by (unfold kept; by rewrite length_fmap).
    rewrite decide_True.
    + cbn [lift]. unfold zlen at 1 2. rewrite Nat2Z.id. unfold tab'. rewrite take_app_length' by done. done.
    + unfold tab', zlen in *. rewrite length_app, Hk. lia.
Qed.

(** deleting forbidden PLMNs: the list read from the card is sent back with
    every row among [ids] replaced by FF FF FF, and the call reports success
    and invalidates the USIM state whenever the first status byte is 90 or the
    second is 00. *)
Theorem delete_forbidden_run ids rows b l e q s1 s2 w :
  usim_read_transparent USIM_FPLMN_FILEID 0 (undef 256) 0 (core w) =
    Some ((0, zlen (concat rows), init (concat rows) ++ b), l) →
  Forall (λ r, length r = 3%nat) rows → zlen (concat rows) ≤ 251 → [0xFF; 0xFF; 0xFF] ∉ ids →
  let cmd := encode (class_of l) (UpdateBinary 0 0 (concat (blanked ids <$> rows))) in
  xfer (env l) cmd 3 = (e, 0, [q; s1; s2]) →
  vtq_usim_delete_forbidden_plmns ids w =
  Some (if decide (s1 = 0x90 ∨ s2 = 0x00)
        then (0, with_state_cur USIM_STATE_INVALIDATED (with_core (sent cmd e l) w))
        else (-1, with_core (sent cmd e l) w)).
Proof.
  intros Hread Hok Hmax Hff cmd Hx. unfold vtq_usim_delete_forbidden_plmns.
  erewrite M_bind_run; [|unfold on_core; rewrite Hread; reflexivity].
  cbv beta iota. rewrite decide_False by lia.
  rewrite M_bind_eq, blank_plmns_spec by done. cbn [lift].
  assert (Hl : zlen (concat rows) = zlen (concat (blanked ids <$> rows))).
  { unfold zlen. rewrite !concat_length, length_fmap; [done| |done].
    apply Forall_fmap. eapply Forall_impl; [exact Hok|]. intros r Hr. cbn. unfold blanked. by case_decide. }
  rewrite Hl. erewrite M_bind_run.
  2: { unfold on_core. change (core (with_core l w)) with l.
       rewrite update_binary_run by (unfold is_byte; unfold zlen in *; lia).
       rewrite (ioctl_xfer_run _ _ _ _ _ _ _ (init [q; s1; s2]) Hx) by done. reflexivity. }
  cbv beta iota. change (with_core _ (with_core l w)) with (with_core (sent cmd e l) w).
  rewrite M_bind_eq. unfold binary_rejected. rd_eval. destruct (decide (s1 = 0x90)) as [->|H1].
  - cbn [lift]. rewrite M_bind_eq. cbn [modify]. by rewrite decide_True by (by left).
  - cbn [lift]. destruct (decide (s2 = 0x00)) as [->|H2].
    + rewrite bool_decide_eq_false_2 by (intros Hn; by apply Hn). rewrite M_bind_eq. cbn [modify].
      by rewrite decide_True by (by right).
    + rewrite bool_decide_eq_true_2 by done. by rewrite decide_False by tauto.
Qed.

(** the 5GS location information the library writes to the card is what it
    reads back from those twenty bytes. *)
Theorem loc_info_roundtrip g pl tac st e w l0 :
  length g = 13%nat → length pl = 3%nat → length tac = 3%nat →
  length (guti l0) = 13%nat → length (tai_plmn l0) = 3%nat → length (tai_tac l0) = 3%nat →
  let l := LocInfo (init g) (init pl) (init tac) (Some st) in
  let file := init (g ++ pl ++ tac ++ [st]) in
  vtq_usim_write_5gs_loc_info l w =
    on_core (usim_write_transparent USIM_5GS_LOCATION_INFO_FILEID 20 file 0 0 USIM_5GS_DIRFILEID) w ∧
  (usim_read_transparent USIM_5GS_LOCATION_INFO_FILEID 20 (undef 20) USIM_5GS_DIRFILEID (core w) =
     Some ((0, 20, file), e) →
   vtq_usim_read_5gs_loc_info l0 w = Some ((0, l), with_core e w)).
Proof.
  intros Hg Hp Ht Hg0 Hp0 Ht0 l file.
  assert (Hfile : file = init g ++ init pl ++ init tac ++ [Some st]) by (unfold file; by rewrite !init_app).
  assert (Hz : zlen file = 20) by (rewrite Hfile, !zlen_app, !zlen_init; unfold zlen; cbn [length]; lia).
  split.
  - unfold vtq_usim_write_5gs_loc_info. rewrite M_bind_eq. unfold memcpy.
    change (loc_info_bytes l) with (init g ++ init pl ++ init tac ++ [Some st]). rewrite <- Hfile.
    unfold USIM_5GS_LOCATION_INFO_LENGTH.
    assert (Hs : sub file 0 20 = Some file) by (rewrite <- Hz; apply sub_all).
    rewrite Hs. cbn [mbind option_bind].
    rewrite blit_0 by (rewrite Hz, zlen_undef; lia). cbn [lift].
    rewrite drop_ge by (unfold undef; rewrite length_replicate; unfold zlen in Hz; lia).
    by rewrite app_nil_r.
  - intros Hread. unfold vtq_usim_read_5gs_loc_info. unfold USIM_5GS_LOCATION_INFO_LENGTH.
    erewrite M_bind_run; [|unfold on_core; rewrite Hread; reflexivity].
    cbv beta iota. rewrite decide_False by lia. rewrite Hfile. unfold memcpy.
    assert (Hfull : ∀ (dst : buffer) x, length dst = length x → blit dst 0 (init x) = Some (init x)).
    { intros dst x Hd. rewrite blit_0 by (rewrite zlen_init; unfold zlen; lia).
      rewrite drop_ge by (rewrite length_init; lia). by rewrite app_nil_r. }
    rewrite M_bind_eq, (sub_exact [] (init g) (init pl ++ init tac ++ [Some st]))
      by (done || (rewrite zlen_init; unfold zlen, USIM_GUTI_LENGTH; lia)).
    cbn [mbind option_bind]. rewrite Hfull by lia. cbn [lift].
    rewrite M_bind_eq, (sub_exact (init g) (init pl)) by (rewrite ?zlen_init; unfold zlen, USIM_GUTI_LENGTH, USIM_PLMNID_LENGTH; lia).
    cbn [mbind option_bind]. rewrite Hfull by lia. cbn [lift].
    rewrite (app_assoc (init g)).
    rewrite M_bind_eq, (sub_exact (init g ++ init pl) (init tac))
      by (rewrite ?zlen_app, ?zlen_init; unfold zlen, USIM_GUTI_LENGTH, USIM_PLMNID_LENGTH, USIM_TAC_LENGTH; lia).
    cbn [mbind option_bind]. rewrite Hfull by lia. cbn [lift].
    rewrite M_bind_eq.
    replace (rd ((init g ++ init pl) ++ init tac ++ [Some st]) (20 - 1)) with (Some st); [done|].
    rewrite rd_app_r by (rewrite zlen_app, !zlen_init; unfold zlen; lia).
    rewrite rd_app_r by (rewrite zlen_app, !zlen_init; unfold zlen; lia).
    rewrite zlen_app, !zlen_init. replace (20 - 1 - (zlen g + zlen pl) - zlen tac) with 0
      by (unfold zlen; lia). done.
Qed.
End Lists.

(** ** At concrete files *)
Definition t_vtq (r : list (option (list Z))) : vtq script :=
  Vtq (start 1 0 [] r) (λ _, replicate 100 (Row (zeros 3) (zeros 2))) 0 0.
(** The replies that deliver a transparent file with this content. *)
Definition t_file (data : list Z) : list (option (list Z)) :=
  [Some [0; 0x61; 5]; Some [0; 0x62; 3; 0x80; 1; zlen data; 0x90; 0x00]; Some (0xb0 :: data ++ [0x90; 0x00])].
(** The state once it is read with [usim_read_transparent file n (undef n) dir]. *)
Definition t_read (file len n dir : Z) (w : lib script) : lib script :=
  match usim_read_transparent file len (undef n) dir w with Some (_, l) => l | None => w end.

Definition t_rows : list (list Z * list Z) :=
  [([0x13; 0x00; 0x14], [0x40; 0x00]); ([0xFF; 0xFF; 0xFF], [0; 0]); ([0x13; 0x00; 0x62], [0x80; 0x00])].

Lemma plmn_list_read_witness :
  ∃ w', plmn_list_count USIM_HPLMNACT_FILEID (3 + 2) Hplmnact 0
      (t_vtq (t_file (flat_map row_bytes t_rows))) = Some ((0, 0 + 2), w') ∧
  read_rows Hplmnact (replicate 5 (Row (zeros 3) (zeros 2))) 2 w' =
    Some ((0, [Row (init [0x13; 0x00; 0x14]) (init [0x40; 0x00]); Row (init [0x13; 0x00; 0x62]) (init [0x80; 0x00])]
      ++ replicate 3 (Row (zeros 3) (zeros 2))), w').
Proof.
  apply (plmn_list_read USIM_HPLMNACT_FILEID Hplmnact 2 t_rows (undef 285)
    (t_read USIM_HPLMNACT_FILEID 0 300 0 (core (t_vtq (t_file (flat_map row_bytes t_rows))))) 0
    (replicate 5 (Row (zeros 3) (zeros 2))) (t_vtq (t_file (flat_map row_bytes t_rows)))).
  - vm_compute. reflexivity.
  - repeat constructor.
  - vm_compute. discriminate.
  - reflexivity.
  - vm_compute. lia.
Defined.

Lemma delete_forbidden_run_witness :
  let rows := [[0x13; 0x00; 0x14]; [0x13; 0x00; 0x62]] in
  ∃ w', vtq_usim_delete_forbidden_plmns [[0x13; 0x00; 0x62]] (t_vtq (t_file (concat rows) ++ [Some [0; 0x6F; 0x00]])) =
    Some (0, w') ∧ last (wire (core w')) = Some [0; 0xd6; 0; 0; 6; 0x13; 0x00; 0x14; 0xFF; 0xFF; 0xFF].
Proof.
  intros rows. set (w := t_vtq _).
  eexists. split.
  - rewrite (delete_forbidden_run [[0x13; 0x00; 0x62]] rows (undef 250)
      (t_read USIM_FPLMN_FILEID 0 256 0 (core w)) (Script []) 0 0x6F 0x00 w).
    + rewrite decide_True by (by right). reflexivity.
    + vm_compute. reflexivity.
    + repeat constructor.
    + vm_compute. discriminate.
    + apply (bool_decide_unpack _). reflexivity.
    + vm_compute. reflexivity.
  - vm_compute. reflexivity.
Defined.

Lemma loc_info_roundtrip_witness :
  let l := LocInfo (init (replicate 13 1)) (init [2; 2; 2]) (init [3; 3; 3]) (Some 0) in
  let file := init (replicate 13 1 ++ [2; 2; 2] ++ [3; 3; 3] ++ [0]) in
  let w := t_vtq [] in
  vtq_usim_write_5gs_loc_info l w =
    on_core (usim_write_transparent USIM_5GS_LOCATION_INFO_FILEID 20 file 0 0 USIM_5GS_DIRFILEID) w.
Proof.
  intros l file w.
  apply (loc_info_roundtrip (replicate 13 1) [2; 2; 2] [3; 3; 3] 0 (core w) w
    (LocInfo (zeros 13) (zeros 3) (zeros 3) None)); reflexivity.
Defined.
