(* ===== verification/UsimAuth.v ===== *)
(** * Authentication of the USIM library
      ([vqa_usim_api_check_sqn], [vtq_usim_offchip_authenticate],
      [vtq_usim_authenticate] of lib/usim_library/usim_lib.c)

    The off-chip variant runs MILENAGE on the host; its globals are the round
    keys of aka_functions.c, [auth_keys] and [usim_sqn_data]. *)
From S2P Require Import Prelude Aka UsimApdu UsimLib.
Import Rijndael Milenage.

Definition VQA_USIM_API_SQN_LIST_SIZE : Z := 32.

(** [usim_sqn_data] ([n_sqns] is never used), [auth_keys] and [roundKeys]. *)
Record auth_state := AuthState {
  sqn_ms : list Z; sqn_list : list Z;
  usim_api_k : list Z; opc_key : list Z; round_keys : roundKeys_t }.

(** [seq > usim_sqn_data.sqn[ind]]; the index is not checked. *)
Definition vqa_usim_api_check_sqn (s : auth_state) (seq ind : Z) : option Z :=
  if decide (0 ≤ ind < VQA_USIM_API_SQN_LIST_SIZE) then
    x ← sqn_list s !! Z.to_nat ind; Some (if decide (x < seq) then 0 else -1)
  else None.

(** The output parameters [auts], [res], [ck], [ik]. *)
Record off_out := OffOut { off_auts : lv; off_res : lv; off_ck : lv; off_ik : lv }.

(** Storing an array of bytes at the start of a caller's block. *)
Definition store (v : lv) (x : list Z) : option lv :=
  b ← blit (lv_value v) 0 (init x); Some (Lv (lv_length v) b).

(** A 4-byte read of a byte array on the little-endian host. *)
Definition le32 (l : list Z) : Z := at_ l 0 + 256 * (at_ l 1 + 256 * (at_ l 2 + 256 * at_ l 3)).

(** The synchronisation failure branch: AUTS from the stored SQNms.  The AMF
    argument of f1star is [&random_chal->value[6]]. *)
Definition sync_failure (s : auth_state) (rk : roundKeys_t) (key opc rand : list Z) (auts : lv)
  : option (roundKeys_t * lv) :=
  let '(rk, ak) := f5star rk key rand opc in
  let sqnms := zip_with Z.lxor (sqn_ms s) ak in
  let '(rk, macs) := f1star rk key rand (sqn_ms s) (take 2 (drop 6 rand)) opc in
  v ← blit (lv_value auts) 0 (init sqnms);
  v ← blit v 6 (init macs);
  Some (rk, Lv 14 v).

Definition vtq_usim_offchip_authenticate (key opc random_chal auth_token : buffer) (o : off_out)
    (s : auth_state) : option (Z * off_out * auth_state) :=
  key ← rd_bytes key 0 16;
  opc ← rd_bytes opc 0 16;
  rand ← rd_bytes random_chal 0 16;
  let '(rk, f) := f2345 (round_keys s) key rand opc in
  res ← store (off_res o) (f_res f);
  ck ← store (off_ck o) (f_ck f);
  ik ← store (off_ik o) (f_ik f);
  conc ← rd_bytes auth_token 0 6;
  let sqn := zip_with Z.lxor conc (f_ak f) in
  amf ← rd_bytes auth_token 6 2;
  let '(rk, xmac) := f1 rk key rand sqn amf opc in
  mac ← rd_bytes auth_token 8 8;
  ret ← (if decide (xmac ≠ mac) then Some 1
         else vqa_usim_api_check_sqn s (le32 sqn) (at_ sqn 5));
  if decide (ret ≠ 0) then
    '(rk, auts) ← sync_failure s rk key opc rand (off_auts o);
    Some (2, OffOut auts res ck ik, AuthState (sqn_ms s) (sqn_list s) key opc rk)
  else Some (0, OffOut (off_auts o) res ck ik, AuthState (sqn_ms s) (sqn_list s) key opc rk).

(** The on-chip variant hands [usim_onchip_auth] a 6-byte local cast to
    [vtq_usim_lv_t *] for the anonymity key. *)
Definition vtq_usim_authenticate {E} `{Env E} (random_chal auth_token : lv) (auts res ck ik : lv)
  : M (vtq E) (Z * (lv * lv * lv * lv)) :=
  '(ret, o) ← on_core (usim_onchip_auth random_chal auth_token (AuthOut auts res ck None));
  mret (if decide (ret < 0) then -1 else ret, (o_auts o, o_res o, o_ck o, ik)).
