(* ===== verification/UsimAuthCorrect.v ===== *)
(** * Off-chip authentication: the theorems
      ([vtq_usim_offchip_authenticate] of lib/usim_library/usim_lib.c)

    The host's answer to a challenge against TS 33.102 and TS 35.206. *)
From S2P Require Import Prelude Aka AkaSpec AkaCorrect UsimApdu UsimLib UsimAuth.
Import Rijndael Milenage Spec.

Lemma rd_bytes_seam a c d i n : i = zlen a → n = zlen c →
  rd_bytes (init a ++ init c ++ d) i n = Some c.
Proof.
  intros Hi Hn. unfold rd_bytes.
  rewrite (sub_exact (init a) (init c) d) by (by rewrite ?zlen_init).
  apply mapM_id_init.
Qed.

Lemma rd_bytes_front c d n : n = zlen c → rd_bytes (init c ++ d) 0 n = Some c.
Proof. intros ->. apply rd_bytes_prefix. Qed.

(** What the sender of the challenge computes (TS 33.102, 6.3). *)
Section Challenge.
Variables (k opc rand : list Z).
Definition AK : list Z := take 6 (OUT (Cipher k) rand opc 0 1).
Definition RES : list Z := drop 8 (OUT (Cipher k) rand opc 0 1).
Definition CK : list Z := OUT (Cipher k) rand opc 4 2.
Definition IK : list Z := OUT (Cipher k) rand opc 8 4.
Definition AKstar : list Z := take 6 (OUT (Cipher k) rand opc 12 8).
Definition MAC_A (sqn amf : list Z) : list Z := take 8 (OUT1 (Cipher k) rand opc sqn amf).
Definition MAC_S (sqn amf : list Z) : list Z := drop 8 (OUT1 (Cipher k) rand opc sqn amf).
Definition AUTN (sqn amf : list Z) : list Z := xor_ sqn AK ++ amf ++ MAC_A sqn amf.
(** AUTS, with the AMF the code takes from RAND. *)
Definition AUTS (sqnms : list Z) : list Z :=
  xor_ sqnms AKstar ++ MAC_S sqnms (take 2 (drop 6 rand)).
End Challenge.

(** [n] bytes. *)
Definition bytes (n : nat) (l : list Z) : Prop := length l = n ∧ Forall is_byte l.

Section Lengths.
Context (k opc rand : list Z) (Hk : block k) (Ho : block opc) (Hr : block rand).

Lemma OUT_bytes r c : is_byte c → bytes 16 (OUT (Cipher k) rand opc r c).
Proof.
  intros Hc. apply xor_block; [|done]. apply Cipher_block; [apply Hk|].
  apply xor_block; [|by apply const_block]. apply rot_block, xor_block; [|done].
  apply Cipher_block; [apply Hk|]. by apply xor_block.
Qed.
Lemma OUT1_bytes sqn amf : bytes 6 sqn → bytes 2 amf → bytes 16 (OUT1 (Cipher k) rand opc sqn amf).
Proof.
  intros [Hs Bs] [Ha Ba]. apply xor_block; [|done]. apply Cipher_block; [apply Hk|].
  apply xor_block; [apply Cipher_block; [apply Hk|by apply xor_block]|].
  apply rot_block, xor_block; [|done].
  split; [rewrite !length_app; lia|]. by repeat (apply Forall_app; split).
Qed.
Lemma AK_bytes : bytes 6 (AK k opc rand).
Proof.
  destruct (OUT_bytes 0 1) as [Hl Hb]; [unfold is_byte; lia|].
  split; [unfold AK; rewrite length_take; lia|by apply Forall_take].
Qed.
Lemma AKstar_bytes : bytes 6 (AKstar k opc rand).
Proof.
  destruct (OUT_bytes 12 8) as [Hl Hb]; [unfold is_byte; lia|].
  split; [unfold AKstar; rewrite length_take; lia|by apply Forall_take].
Qed.
Lemma xor_bytes n x y : bytes n x → bytes n y → bytes n (xor_ x y).
Proof.
  intros [Hx Bx] [Hy By]. unfold xor_. split; [rewrite length_zip_with; lia|].
  apply Forall_forall. intros z Hz. apply elem_of_lookup_zip_with in Hz as (i & a & b & -> & Ha & Hb).
  apply lxor_byte; [eapply Forall_lookup_1 in Ha|eapply Forall_lookup_1 in Hb]; eauto.
Qed.
Lemma MAC_A_length sqn amf : bytes 6 sqn → bytes 2 amf → length (MAC_A k opc rand sqn amf) = 8%nat.
Proof.
  intros Hs Ha. destruct (OUT1_bytes sqn amf Hs Ha) as [Hl _].
  unfold MAC_A. rewrite length_take. lia.
Qed.

(** The functions of aka_functions.c, whatever round keys they find. *)
Lemma f2345_run rk :
  rk_shape rk → f2345 rk k rand opc =
  (RijndaelKeySchedule rk k, F2345 (RES k opc rand) (CK k opc rand) (IK k opc rand) (AK k opc rand)).
Proof.
  intros Hrk. destruct (f2345_cipher rk k rand opc Hrk Hk Hr Ho) as [Hf _].
  rewrite (surjective_pairing (f2345 rk k rand opc)), Hf. done.
Qed.
Lemma f1_run rk sqn amf :
  rk_shape rk → bytes 6 sqn → bytes 2 amf →
  f1 rk k rand sqn amf opc = (RijndaelKeySchedule rk k, MAC_A k opc rand sqn amf).
Proof.
  intros Hrk [Hs Bs] [Ha Ba].
  destruct (f1_cipher rk k rand sqn amf opc Hrk Hk Hr Ho Hs Ha Bs Ba) as [Hf _].
  rewrite (surjective_pairing (f1 rk k rand sqn amf opc)), Hf. done.
Qed.
Lemma f1star_run rk sqn amf :
  rk_shape rk → bytes 6 sqn → bytes 2 amf →
  f1star rk k rand sqn amf opc = (RijndaelKeySchedule rk k, MAC_S k opc rand sqn amf).
Proof.
  intros Hrk [Hs Bs] [Ha Ba].
  destruct (f1_cipher rk k rand sqn amf opc Hrk Hk Hr Ho Hs Ha Bs Ba) as [_ Hf].
  rewrite (surjective_pairing (f1star rk k rand sqn amf opc)), Hf. done.
Qed.
Lemma f5star_run rk :
  rk_shape rk → f5star rk k rand opc = (RijndaelKeySchedule rk k, AKstar k opc rand).
Proof.
  intros Hrk. destruct (f2345_cipher rk k rand opc Hrk Hk Hr Ho) as [_ Hf].
  rewrite (surjective_pairing (f5star rk k rand opc)), Hf. done.
Qed.
End Lengths.

(** ** The answer to a challenge *)
#[local] Opaque RijndaelKeySchedule Cipher OUT OUT1.

Section Answer.
Context (k opc rand : list Z) (Hk : block k) (Ho : block opc) (Hr : block rand).

Definition wf_auth (s : auth_state) : Prop :=
  rk_shape (round_keys s) ∧ bytes 6 (sqn_ms s) ∧ length (sqn_list s) = 32%nat.
(** The caller's blocks are large enough. *)
Definition wf_out (o : off_out) : Prop :=
  14 ≤ zlen (lv_value (off_auts o)) ∧ 8 ≤ zlen (lv_value (off_res o)) ∧
  16 ≤ zlen (lv_value (off_ck o)) ∧ 16 ≤ zlen (lv_value (off_ik o)).
(** A block whose front is overwritten. *)
Definition put (v : lv) (x : list Z) : lv :=
  Lv (lv_length v) (init x ++ drop (length x) (lv_value v)).

Lemma store_put v x : zlen x ≤ zlen (lv_value v) → store v x = Some (put v x).
Proof. intros Hx. unfold store. rewrite blit_0 by (by rewrite zlen_init). cbn. by rewrite length_init. Qed.

Lemma sync_failure_run s rk auts :
  rk_shape rk → bytes 6 (sqn_ms s) → 14 ≤ zlen (lv_value auts) →
  ∃ rk', rk_shape rk' ∧
  sync_failure s rk k opc rand auts = Some (rk', Lv 14 (lv_value (put auts (AUTS k opc rand (sqn_ms s))))).
Proof.
  intros Hrk Hs Hcap. unfold sync_failure. rewrite f5star_run by done.
  set (rk1 := RijndaelKeySchedule rk k).
  assert (Hrk1 : rk_shape rk1) by (apply schedule_shape; [done|apply Hk]).
  destruct Hr as [Lr Br].
  assert (Hamf : bytes 2 (take 2 (drop 6 rand)))
    by (split; [rewrite length_take, length_drop; lia|by apply Forall_take, Forall_drop]).
  rewrite f1star_run by done. exists (RijndaelKeySchedule rk1 k).
  split; [apply schedule_shape; [done|apply Hk]|].
  destruct (AKstar_bytes k opc rand Hk Ho Hr) as [La Ba]. destruct Hs as [Ls Bs].
  destruct (OUT1_bytes k opc rand Hk Ho Hr (sqn_ms s) (take 2 (drop 6 rand))) as [Lm _];
    [by split|done|].
  assert (L1 : length (xor_ (sqn_ms s) (AKstar k opc rand)) = 6%nat)
    by (unfold xor_; rewrite length_zip_with; lia).
  assert (L2 : length (MAC_S k opc rand (sqn_ms s) (take 2 (drop 6 rand))) = 8%nat)
    by (unfold MAC_S; rewrite length_drop; lia).
  unfold AUTS, put. fold (xor_ (sqn_ms s) (AKstar k opc rand)).
  revert L1 L2. generalize (xor_ (sqn_ms s) (AKstar k opc rand)).
  generalize (MAC_S k opc rand (sqn_ms s) (take 2 (drop 6 rand))). intros m c L1 L2.
  rewrite blit_0 by (rewrite zlen_init; unfold zlen in *; lia). cbn [mbind option_bind].
  rewrite length_init, L1.
  rewrite <- (take_drop 8 (drop 6 (lv_value auts))), (blit_exact (init c)), drop_drop.
  - cbn [mbind option_bind lv_value]. rewrite init_app, <- app_assoc, length_app, L1, L2. reflexivity.
  - rewrite zlen_init. unfold zlen. lia.
  - rewrite length_init, length_take, length_drop. unfold zlen in Hcap. lia.
Qed.

(** The function once its inputs are read: what depends on the MAC and on SQN. *)
Definition answer (s : auth_state) (o : off_out) (rk : roundKeys_t) (sqn amf mac : list Z)
  : option (Z * off_out * auth_state) :=
  let res := put (off_res o) (RES k opc rand) in
  let ck := put (off_ck o) (CK k opc rand) in
  let ik := put (off_ik o) (IK k opc rand) in
  ret ← (if decide (MAC_A k opc rand sqn amf ≠ mac) then Some 1
         else vqa_usim_api_check_sqn s (le32 sqn) (at_ sqn 5));
  if decide (ret ≠ 0) then
    '(rk, auts) ← sync_failure s rk k opc rand (off_auts o);
    Some (2, OffOut auts res ck ik, AuthState (sqn_ms s) (sqn_list s) k opc rk)
  else Some (0, OffOut (off_auts o) res ck ik, AuthState (sqn_ms s) (sqn_list s) k opc rk).

Lemma offchip_head conc amf mac b1 b2 b3 b4 o s :
  bytes 6 conc → bytes 2 amf → bytes 8 mac → wf_auth s → wf_out o →
  ∃ rk, rk_shape rk ∧
  vtq_usim_offchip_authenticate (init k ++ b1) (init opc ++ b2) (init rand ++ b3)
    (init (conc ++ amf ++ mac) ++ b4) o s = answer s o rk (xor_ conc (AK k opc rand)) amf mac.
Proof.
  intros Hc Ha Hm (Hrk & Hms & Hsl) (C1 & C2 & C3 & C4).
  destruct Hk as [Lk Bk], Ho as [Lo Bo], Hr as [Lr Br], Hc as [Lc Bc], Ha as [La Ba], Hm as [Lm Bm].
  set (sqn := xor_ conc (AK k opc rand)).
  assert (Hsqn : bytes 6 sqn) by (apply xor_bytes; [by split|by apply AK_bytes]).
  set (rk1 := RijndaelKeySchedule (round_keys s) k).
  assert (Hrk1 : rk_shape rk1) by (by apply schedule_shape).
  exists (RijndaelKeySchedule rk1 k). split; [by apply schedule_shape|].
  unfold vtq_usim_offchip_authenticate.
  rewrite (rd_bytes_front k _ 16) by (unfold zlen; lia). cbn [mbind option_bind].
  rewrite (rd_bytes_front opc _ 16) by (unfold zlen; lia). cbn [mbind option_bind].
  rewrite (rd_bytes_front rand _ 16) by (unfold zlen; lia). cbn [mbind option_bind].
  rewrite f2345_run by done. fold rk1. cbn [f_res f_ck f_ik f_ak].
  destruct (OUT_bytes k opc rand Hk Ho Hr 4 2) as [Lck _]; [unfold is_byte; lia|].
  destruct (OUT_bytes k opc rand Hk Ho Hr 8 4) as [Lik _]; [unfold is_byte; lia|].
  destruct (OUT_bytes k opc rand Hk Ho Hr 0 1) as [Lo1 _]; [unfold is_byte; lia|].
  assert (Zres : zlen (RES k opc rand) = 8) by (unfold RES, zlen; rewrite length_drop; lia).
  assert (Zck : zlen (CK k opc rand) = 16) by (unfold CK, zlen; lia).
  assert (Zik : zlen (IK k opc rand) = 16) by (unfold IK, zlen; lia).
  rewrite store_put by lia. cbn [mbind option_bind].
  rewrite store_put by lia. cbn [mbind option_bind].
  rewrite store_put by lia. cbn [mbind option_bind].
  rewrite !init_app, <- !app_assoc.
  rewrite (rd_bytes_front conc _ 6) by (unfold zlen; lia). cbn [mbind option_bind].
  rewrite (rd_bytes_seam conc amf _ 6 2) by (unfold zlen; lia). cbn [mbind option_bind].
  fold (xor_ conc (AK k opc rand)). fold sqn.
  rewrite f1_run by (done || by split).
  rewrite (app_assoc (init conc)), <- init_app.
  rewrite (rd_bytes_seam (conc ++ amf) mac _ 8 8) by (rewrite ?zlen_app; unfold zlen; lia).
  reflexivity.
Qed.

(** The answer is a success exactly when the MAC is right and SQN is fresh. *)
Definition accepts (s : auth_state) (sqn amf mac : list Z) : bool :=
  bool_decide (mac = MAC_A k opc rand sqn amf ∧
               nth (Z.to_nat (at_ sqn 5)) (sqn_list s) 0 < le32 sqn).

Lemma answer_run s o rk sqn amf mac :
  rk_shape rk → wf_auth s → wf_out o → bytes 6 sqn →
  (mac = MAC_A k opc rand sqn amf → at_ sqn 5 < VQA_USIM_API_SQN_LIST_SIZE) →
  ∃ rk', rk_shape rk' ∧ answer s o rk sqn amf mac =
  Some (if accepts s sqn amf mac then 0 else 2,
        OffOut (if accepts s sqn amf mac then off_auts o
                else Lv 14 (lv_value (put (off_auts o) (AUTS k opc rand (sqn_ms s)))))
          (put (off_res o) (RES k opc rand)) (put (off_ck o) (CK k opc rand))
          (put (off_ik o) (IK k opc rand)),
        AuthState (sqn_ms s) (sqn_list s) k opc rk').
Proof.
  intros Hrk (Hrks & Hms & Hsl) (C1 & _) Hsqn Hind. unfold answer, accepts.
  destruct (sync_failure_run s rk (off_auts o) Hrk Hms C1) as (rk' & Hrk' & Hsync).
  destruct (decide (MAC_A k opc rand sqn amf = mac)) as [Hmac|Hmac].
  2: { exists rk'. split; [done|]. rewrite decide_True by done. cbn [mbind option_bind].
       rewrite decide_True by done. rewrite Hsync. cbn [mbind option_bind].
       by rewrite bool_decide_eq_false_2 by (intros [-> _]; done). }
  specialize (Hind (eq_sym Hmac)). rewrite decide_False by (intros Hn; by apply Hn).
  unfold vqa_usim_api_check_sqn.
  assert (0 ≤ at_ sqn 5) by (by apply at_byte, Hsqn). rewrite decide_True by done.
  destruct (lookup_lt_is_Some_2 (sqn_list s) (Z.to_nat (at_ sqn 5))) as [x Hx];
    [unfold VQA_USIM_API_SQN_LIST_SIZE in Hind; lia|].
  rewrite Hx. cbn [mbind option_bind]. rewrite (nth_lookup_Some _ _ _ _ Hx).
  destruct (decide (x < le32 sqn)) as [Hlt|Hlt]; cbn [mbind option_bind].
  - exists rk. split; [done|]. rewrite decide_False by (intros Hn; by apply Hn).
    by rewrite bool_decide_eq_true_2.
  - exists rk'. split; [done|]. rewrite decide_True by done. rewrite Hsync. cbn [mbind option_bind].
    by rewrite bool_decide_eq_false_2 by tauto.
Qed.

Lemma xor_cancel n x a : bytes n x → bytes n a → xor_ (xor_ x a) a = x.
Proof.
  intros [Hx _] [Ha _]. unfold xor_. apply list_eq. intros i.
  rewrite !lookup_zip_with.
  destruct (x !! i) as [xi|] eqn:Hxi; [|done].
  destruct (lookup_lt_is_Some_2 a i) as [ai Hai]; [apply lookup_lt_Some in Hxi; lia|].
  rewrite Hai. cbn. by rewrite Z.lxor_assoc, Z.lxor_nilpotent, Z.lxor_0_r.
Qed.



(** a network that builds AUTN as TS 33.102 says, with a fresh sequence
    number, is answered 0 with the RES, CK and IK it expects; the same
    challenge sent again is accepted again. *)
Theorem offchip_accepts_network sqn amf b1 b2 b3 b4 o s :
  bytes 6 sqn → bytes 2 amf → wf_auth s → wf_out o →
  at_ sqn 5 < VQA_USIM_API_SQN_LIST_SIZE → nth (Z.to_nat (at_ sqn 5)) (sqn_list s) 0 < le32 sqn →
  let run := vtq_usim_offchip_authenticate (init k ++ b1) (init opc ++ b2) (init rand ++ b3)
               (init (AUTN k opc rand sqn amf) ++ b4) o in
  let keys := OffOut (off_auts o) (put (off_res o) (RES k opc rand))
                (put (off_ck o) (CK k opc rand)) (put (off_ik o) (IK k opc rand)) in
  ∃ s1 s2, run s = Some (0, keys, s1) ∧ run s1 = Some (0, keys, s2).
Proof.
  intros Hq Ha Hs Hout Hind Hfresh run keys.
  pose proof (AK_bytes k opc rand Hk Ho Hr) as HAK.
  assert (Hmac : bytes 8 (MAC_A k opc rand sqn amf)).
  { destruct (OUT1_bytes k opc rand Hk Ho Hr sqn amf Hq Ha) as [Hl Hb].
    split; [unfold MAC_A; rewrite length_take; lia|by apply Forall_take]. }
  assert (Hrun : ∀ t, wf_auth t → sqn_list t = sqn_list s → sqn_ms t = sqn_ms s →
    ∃ rk, rk_shape rk ∧ run t = Some (0, keys, AuthState (sqn_ms s) (sqn_list s) k opc rk)).
  { intros t Ht Hl Hm. unfold run, AUTN.
    destruct (offchip_head (xor_ sqn (AK k opc rand)) amf (MAC_A k opc rand sqn amf) b1 b2 b3 b4 o t)
      as (rk & Hrk & ->); try done; [by apply xor_bytes|].
    rewrite (xor_cancel 6) by done.
    destruct (answer_run t o rk sqn amf (MAC_A k opc rand sqn amf)) as (rk' & Hrk' & ->); try done.
    unfold accepts. rewrite Hl, Hm, bool_decide_eq_true_2 by done. by exists rk'. }
  destruct (Hrun s Hs eq_refl eq_refl) as (rk & Hrk & H1).
  destruct (Hrun (AuthState (sqn_ms s) (sqn_list s) k opc rk)) as (rk' & _ & H2); try done;
    [split; [done|apply Hs]|].
  eexists _, _. split; [exact H1|exact H2].
Qed.

(** with the right MAC, a last SQN byte of 32 or more is used as an index
    past the 32 stored sequence numbers. *)
Theorem offchip_sqn_index conc amf b1 b2 b3 b4 o s :
  bytes 6 conc → bytes 2 amf → wf_auth s → wf_out o →
  let sqn := xor_ conc (AK k opc rand) in
  VQA_USIM_API_SQN_LIST_SIZE ≤ at_ sqn 5 →
  vtq_usim_offchip_authenticate (init k ++ b1) (init opc ++ b2) (init rand ++ b3)
    (init (conc ++ amf ++ MAC_A k opc rand sqn amf) ++ b4) o s = None.
Proof.
  intros Hc Ha Hs Hout sqn Hind.
  assert (Hsqn : bytes 6 sqn) by (apply xor_bytes; [done|by apply AK_bytes]).
  assert (Hmac : bytes 8 (MAC_A k opc rand sqn amf)).
  { destruct (OUT1_bytes k opc rand Hk Ho Hr sqn amf Hsqn Ha) as [Hl Hb].
    split; [unfold MAC_A; rewrite length_take; lia|by apply Forall_take]. }
  destruct (offchip_head conc amf _ b1 b2 b3 b4 o s Hc Ha Hmac Hs Hout) as (rk & Hrk & ->).
  unfold answer, vqa_usim_api_check_sqn. fold sqn.
  rewrite decide_False by (intros Hn; by apply Hn). by rewrite decide_False by lia.
Qed.
End Answer.
#[local] Transparent RijndaelKeySchedule Cipher OUT OUT1.

(** ** TS 35.208, test set 1, on a fresh USIM *)
Definition t_state : auth_state :=
  AuthState (replicate 6 0) (replicate 32 0) (replicate 16 0) (replicate 16 0) rk_zero.
Definition t_out : off_out :=
  let v n := Lv n (zeros n) in OffOut (v 14) (v 8) (v 16) (v 16).

Lemma t_state_wf : wf_auth t_state.
Proof.
  split; [apply rk_zero_shape|]. split; [|reflexivity].
  split; [reflexivity|by apply forallb_bytes].
Qed.
Lemma t_out_wf : wf_out t_out.
Proof. repeat split; vm_compute; discriminate. Qed.
Lemma t_sqn_amf : bytes 6 t_sqn ∧ bytes 2 t_amf.
Proof. repeat split; by apply forallb_bytes. Qed.


Lemma offchip_accepts_network_witness :
  ∃ s1 s2 o1,
  vtq_usim_offchip_authenticate (init t_key) (init t_opc) (init t_rand)
    (init (AUTN t_key t_opc t_rand t_sqn t_amf)) t_out t_state = Some (0, o1, s1) ∧
  vtq_usim_offchip_authenticate (init t_key) (init t_opc) (init t_rand)
    (init (AUTN t_key t_opc t_rand t_sqn t_amf)) t_out s1 = Some (0, o1, s2) ∧
  lv_value (off_res o1) = init (RES t_key t_opc t_rand).
Proof.
  destruct t_blocks as (Hk & Hr & Ho). destruct t_sqn_amf as [Hq Ha].
  destruct (offchip_accepts_network t_key t_opc t_rand Hk Ho Hr t_sqn t_amf [] [] [] [] t_out t_state
    Hq Ha t_state_wf t_out_wf) as (s1 & s2 & H1 & H2); [vm_compute; reflexivity|vm_compute; reflexivity|].
  rewrite !app_nil_r in H1, H2. eexists s1, s2, _. split; [exact H1|]. split; [exact H2|].
  vm_compute. reflexivity.
Defined.

Lemma offchip_sqn_index_witness :
  vtq_usim_offchip_authenticate (init t_key) (init t_opc) (init t_rand)
    (init (AUTN t_key t_opc t_rand [0; 0; 0; 0; 1; 32] t_amf)) t_out t_state = None.
Proof.
  destruct t_blocks as (Hk & Hr & Ho). destruct t_sqn_amf as [Hq Ha].
  assert (Hs : bytes 6 [0; 0; 0; 0; 1; 32]) by (split; [reflexivity|by apply forallb_bytes]).
  pose proof (AK_bytes t_key t_opc t_rand Hk Ho Hr) as HAK.
  pose proof (offchip_sqn_index t_key t_opc t_rand Hk Ho Hr (xor_ [0; 0; 0; 0; 1; 32] (AK t_key t_opc t_rand))
    t_amf [] [] [] [] t_out t_state (xor_bytes 6 _ _ Hs HAK) Ha t_state_wf t_out_wf) as Hrun.
  cbv zeta in Hrun. rewrite (xor_cancel 6 _ _ Hs HAK), !app_nil_r in Hrun. apply Hrun.
  vm_compute. discriminate.
Defined.
