(* ===== verification/UsimDriver.v ===== *)
(** * Card reader driver (kernel_driver/yami/gul_usim.c)

    The transfer of a command and its response over the reader's registers, the
    power sequences, and the ioctl handler.  The hardware is the class [UsimHw]:
    every register access goes through it, in the order of the code.  [None] is
    an access outside one of the driver's arrays, or a polling loop that the
    bounds written here would cut (none does). *)
From S2P Require Import Prelude.
#[global] Open Scope Z_scope.

(** ** The hardware *)

(** The registers of [struct usim_regs_map] the driver uses, and the clock
    register of the SCFG block. *)
Inductive usim_reg :=
  | usim_setup | usim_xmt_buff | usim_rcv_buff | usim_port0_cntl | usim_cntl
  | usim_clk_prescaler | usim_rcv_threshold | usim_enable | usim_xmt_status
  | usim_rcv_status | usim_int_mask | usim_port0_detect | usim_xmt_threshold
  | usim_guard_cntl | usim_od_config | usim_reset_cntl | usim_char_wait
  | usim_gpcnt | usim_divisor | scfg_config_ctrl1.
#[export] Instance usim_reg_eq : EqDecision usim_reg.
Proof. solve_decision. Defined.

(** A read may change the hardware (the receive FIFO, the passing of time). *)
Class UsimHw (C : Type) := {
  hw_read : C → usim_reg → C * Z;
  hw_write : C → usim_reg → Z → C;
  hw_sleep : C → Z → C }.

(** ** Constants *)
Definition SIM_XMT_BUFFER_SIZE : Z := 256.
Definition SIM_RCV_BUFFER_SIZE : Z := 256.
Definition SIM_ATR_LENGTH_MAX : Z := 32.
Definition SIM_XFER_TYPE_TPDU : Z := 0.
Definition SIM_XFER_TYPE_PTS : Z := 1.
Definition SIM_POWER_OFF : Z := 0.
Definition SIM_POWER_ON : Z := 1.
Definition SIM_PRESENT_REMOVED : Z := 0.
Definition SIM_PRESENT_DETECTED : Z := 1.
Definition SIM_PRESENT_OPERATIONAL : Z := 2.
Definition SIM_OK : Z := 0.
Definition SIM_E_ACCESS : Z := 1.
Definition SIM_E_TPDUSHORT : Z := 2.
Definition SIM_E_PTSEMPTY : Z := 3.
Definition SIM_E_INVALIDXFERTYPE : Z := 4.
Definition SIM_E_INVALIDXMTLENGTH : Z := 5.
Definition SIM_E_INVALIDRCVLENGTH : Z := 6.
Definition SIM_E_NOCARD : Z := 9.
Definition SIM_E_POWERED_ON : Z := 17.
Definition SIM_E_POWERED_OFF : Z := 18.
Definition USIM_STATE_CONNECTED : Z := 0.
Definition USIM_STATE_DISCONNECTED : Z := 1.
Definition USIM_STATE_INVALIDATED : Z := 2.
Definition SIM_STATE_REMOVED : Z := 0.
Definition SIM_STATE_OPERATIONAL_COMMAND : Z := 2.
Definition SIM_STATE_OPERATIONAL_PPSS : Z := 6.
Definition SIM_STATE_DETECTED_ATR_T0 : Z := 7.
Definition SIM_PORT_CNTL_3VOLT : Z := 64.
Definition SIM_PORT_CNTL_SCEN : Z := 16.
Definition SIM_PORT_CNTL_SRST : Z := 8.
Definition SIM_PORT_CNTL_STEN : Z := 4.
Definition SIM_PORT_CNTL_SVEN : Z := 2.
Definition SIM_OD_CONFIG_OD_P0 : Z := 1.
Definition SIM_ENABLE_RCVEN : Z := 1.
Definition SIM_INT_MASK_GPCM : Z := 256.
Definition SIM_INT_MASK_RIM : Z := 1.
Definition SIM_RCV_STATUS_RDRF : Z := 32.
Definition SIM_CNTL_SAMPLE12 : Z := 16.
Definition SIM_CNTL_ANACK : Z := 4.
Definition SIM_CNTL_ICM : Z := 2.
Definition SIM_PORT_DETECT_SPDS : Z := 8.
Definition SIM_PORT_DETECT_SPDP : Z := 4.
Definition SIM_PORT_DETECT_SDI : Z := 2.
Definition SIM_PORT_DETECT_SDIM : Z := 1.
Definition SCFG_CCSR_CONFIG_CTRL1_SIM_PER_CLK_RAT : Z := 0x00800000.

(** ** State *)

(** The fields of [struct sim_t] with an effect on its behaviour; the structure
    is [kzalloc]ed. *)
Record sim_t := SimT {
  present : Z; state : Z; status : Z; power : Z; clk_prescaler : Z;
  atr_size : Z; atr_t : buffer; rcv_buffer : buffer; xmt_buffer : buffer }.

Record driver (C : Type) := Driver { hw : C; sim : sim_t }.
Arguments Driver {C}. Arguments hw {C}. Arguments sim {C}.

Definition set_present (v : Z) (s : sim_t) : sim_t :=
  SimT v (state s) (status s) (power s) (clk_prescaler s) (atr_size s) (atr_t s) (rcv_buffer s) (xmt_buffer s).
Definition set_state (v : Z) (s : sim_t) : sim_t :=
  SimT (present s) v (status s) (power s) (clk_prescaler s) (atr_size s) (atr_t s) (rcv_buffer s) (xmt_buffer s).
Definition set_status (v : Z) (s : sim_t) : sim_t :=
  SimT (present s) (state s) v (power s) (clk_prescaler s) (atr_size s) (atr_t s) (rcv_buffer s) (xmt_buffer s).
Definition set_power (v : Z) (s : sim_t) : sim_t :=
  SimT (present s) (state s) (status s) v (clk_prescaler s) (atr_size s) (atr_t s) (rcv_buffer s) (xmt_buffer s).
Definition set_clk (v : Z) (s : sim_t) : sim_t :=
  SimT (present s) (state s) (status s) (power s) v (atr_size s) (atr_t s) (rcv_buffer s) (xmt_buffer s).
Definition set_atr (n : Z) (t : buffer) (s : sim_t) : sim_t :=
  SimT (present s) (state s) (status s) (power s) (clk_prescaler s) n t (rcv_buffer s) (xmt_buffer s).
Definition set_rcv (b : buffer) (s : sim_t) : sim_t :=
  SimT (present s) (state s) (status s) (power s) (clk_prescaler s) (atr_size s) (atr_t s) b (xmt_buffer s).
Definition set_xmt (b : buffer) (s : sim_t) : sim_t :=
  SimT (present s) (state s) (status s) (power s) (clk_prescaler s) (atr_size s) (atr_t s) (rcv_buffer s) b.

Section Usim.
Context {C : Type} `{UsimHw C}.
Local Abbreviation D := (M (driver C)).

Definition readl (r : usim_reg) : D Z := λ w,
  let '(c, v) := hw_read (hw w) r in Some (u32 v, Driver c (sim w)).
Definition writel (v : Z) (r : usim_reg) : D unit := λ w,
  Some (tt, Driver (hw_write (hw w) r (u32 v)) (sim w)).
Definition msleep (ms : Z) : D unit := λ w, Some (tt, Driver (hw_sleep (hw w) ms) (sim w)).
Definition on_sim (f : sim_t → sim_t) : D unit := modify (λ w, Driver (hw w) (f (sim w))).
Definition the_sim : D sim_t := gets sim.

(** [reg |= v] and [reg &= ~v] through a local. *)
Definition set_bits (v : Z) (r : usim_reg) : D unit := x ← readl r; writel (Z.lor x v) r.
Definition clear_bits (v : Z) (r : usim_reg) : D unit := x ← readl r; writel (Z.ldiff x v) r.

Definition has (value mask : Z) : bool := bool_decide (Z.land value mask = mask).

(** ** Polling *)

(** The loop gives up when [i] is 20000000, after one more read. *)
Definition bit_set_step (r : usim_reg) (req_value : Z) (s : Z * Z) : D (Z * Z + unit) :=
  let '(i, value) := s in
  if has value req_value then mret (inr tt) else
  value ← readl r;
  if decide (i = 20000000) then mret (inr tt) else mret (inl (i + 1, value)).
Definition bit_set_polling (r : usim_reg) (req_value i : Z) : D unit :=
  value ← readl r;
  x ← until (bit_set_step r req_value) 20000002 (i, value);
  lift (match x with inr u => Some u | inl _ => None end).

Definition wait_for_tc : D unit :=
  _ ← bit_set_polling usim_xmt_status 0x38 0;
  writel 0x38 usim_xmt_status.

(** ** Transfer *)

(** [for (k = from; k < cmd_len; k++)]: [n] bytes of the command are sent. *)
Fixpoint send_bytes (n : nat) (k : Z) (cmd_buff : buffer) : D unit :=
  match n with
  | O => mret tt
  | S n =>
      b ← lift (rd cmd_buff k);
      _ ← writel b usim_xmt_buff;
      _ ← wait_for_tc;
      send_bytes n (k + 1) cmd_buff
  end.

(** The wait for the next byte; [j] is never reset between bytes. *)
Definition rfd_step (s : Z * Z) : D (Z * Z + Z * Z) :=
  let '(j, value) := s in
  if has value 0x10 then mret (inr s) else
  if decide (j = 1000000) then mret (inr s) else
  value ← readl usim_rcv_status;
  mret (inl (j + 1, value)).
Definition rfd_polling (j value : Z) : D (Z * Z) :=
  x ← until rfd_step 1000002 (j, value);
  lift (match x with inr s => Some s | inl _ => None end).

(** Reading the response; the result is [i].  The buffer has 256 bytes, so no
    run has more than [fuel] = 257 turns. *)
Fixpoint rcv_loop (fuel : nat) (i j value : Z) (cmd_buff : buffer) (cmd_len rcv_len : Z) : D Z :=
  match fuel with
  | O => lift None
  | S fuel =>
      if negb (has value 0x10) then mret i else
      b ← readl usim_rcv_buff;
      s ← the_sim;
      rcv ← lift (wr (rcv_buffer s) i (u8 b));
      _ ← on_sim (set_rcv rcv);
      _ ← (if decide (u8 b = 0xA4) then send_bytes (Z.to_nat (cmd_len - 5)) 5 cmd_buff else mret tt);
      if decide (i = u32 (rcv_len - 1)) then mret i else
      value ← readl usim_rcv_status;
      '(j, value) ← rfd_polling j value;
      if decide (j = 1000000) then mret (i + 1) else
      rcv_loop fuel (i + 1) j value cmd_buff cmd_len rcv_len
  end.

(** [cmd_len] and [rcv_len] are unsigned; the two status bytes are looked up
    one index low. *)
Definition usim_xfer (cmd_buff : buffer) (cmd_len rcv_len : Z) : D Z :=
  _ ← writel 0x3 usim_enable;
  _ ← writel 0x3 usim_reset_cntl;
  _ ← writel 0x0 usim_reset_cntl;
  _ ← writel 0x1b9 usim_xmt_status;
  t ← readl usim_rcv_threshold;
  _ ← writel (Z.lor t (Z.land rcv_len 0x1FF)) usim_rcv_threshold;
  ins ← lift (rd cmd_buff 1);
  let select_cmd := if decide (ins = 0xA4) then 5 else cmd_len in
  _ ← send_bytes (Z.to_nat select_cmd) 0 cmd_buff;
  _ ← writel 0xf23 usim_rcv_status;
  _ ← bit_set_polling usim_rcv_status 0x10 0;
  value ← readl usim_rcv_status;
  i ← rcv_loop 257 0 0 value cmd_buff cmd_len rcv_len;
  if decide (i = 0) then mret SIM_E_NOCARD else
  if decide (i < u32 (rcv_len - 1)) then mret SIM_E_NOCARD else
  s ← the_sim;
  let rcv := rcv_buffer s in
  sw1 ← lift (rd rcv (u32 (i - 2)));
  sw2 ← (if decide (sw1 = 0x90) then lift (rd rcv (u32 (i - 1))) else mret 0);
  if decide (sw1 = 0x90 ∧ sw2 = 0x00) then mret SIM_OK else
  if decide (sw1 = 0x9f ∨ sw1 = 0x61) then mret SIM_OK else
  mret (- SIM_E_ACCESS).

(** ** Power *)

Definition usim_init_clk : D unit :=
  v ← readl scfg_config_ctrl1;
  _ ← writel (Z.lor v SCFG_CCSR_CONFIG_CTRL1_SIM_PER_CLK_RAT) scfg_config_ctrl1;
  on_sim (set_clk 0x1F).

(** The presence pin, shared by [usim_card_detect] and [sim_start]. *)
Definition detect_pin : D bool :=
  v ← readl usim_port0_detect;
  if decide (Z.land v SIM_PORT_DETECT_SPDP ≠ 0) then
    _ ← clear_bits SIM_PORT_DETECT_SPDS usim_port0_detect;
    _ ← on_sim (set_present SIM_PRESENT_REMOVED);
    _ ← on_sim (set_state SIM_STATE_REMOVED);
    mret false
  else
    _ ← set_bits SIM_PORT_DETECT_SPDS usim_port0_detect;
    _ ← on_sim (set_present SIM_PRESENT_DETECTED);
    _ ← on_sim (set_state SIM_STATE_DETECTED_ATR_T0);
    mret true.
Definition detect_interrupt : D unit :=
  v ← readl usim_port0_detect;
  writel (Z.ldiff (Z.lor v SIM_PORT_DETECT_SDI) SIM_PORT_DETECT_SDIM) usim_port0_detect.

Definition usim_card_detect : D unit :=
  inserted ← detect_pin;
  _ ← on_sim (set_status (if (inserted : bool) then USIM_STATE_CONNECTED else USIM_STATE_DISCONNECTED));
  detect_interrupt.

Definition sim_power_on : D unit :=
  _ ← set_bits SIM_PORT_CNTL_SVEN usim_port0_cntl;
  _ ← msleep 10;
  _ ← set_bits SIM_PORT_CNTL_SCEN usim_port0_cntl;
  _ ← msleep 10;
  _ ← writel 1 usim_rcv_threshold;
  _ ← writel SIM_RCV_STATUS_RDRF usim_rcv_status;
  _ ← clear_bits (Z.lor SIM_INT_MASK_RIM SIM_INT_MASK_GPCM) usim_int_mask;
  _ ← writel 31 usim_divisor;
  _ ← set_bits SIM_CNTL_SAMPLE12 usim_cntl;
  _ ← set_bits SIM_ENABLE_RCVEN usim_enable;
  _ ← set_bits SIM_PORT_CNTL_SRST usim_port0_cntl;
  on_sim (set_power SIM_POWER_ON).

Definition sim_power_off : D unit :=
  _ ← clear_bits SIM_PORT_CNTL_SCEN usim_port0_cntl;
  _ ← clear_bits SIM_ENABLE_RCVEN usim_enable;
  _ ← set_bits SIM_INT_MASK_RIM usim_int_mask;
  _ ← writel 0 usim_rcv_threshold;
  _ ← clear_bits SIM_PORT_CNTL_SRST usim_port0_cntl;
  _ ← clear_bits SIM_PORT_CNTL_SVEN usim_port0_cntl;
  on_sim (set_power SIM_POWER_OFF).

Definition sim_stop : D unit :=
  _ ← writel 0 usim_setup;
  _ ← writel 0 usim_enable;
  _ ← writel 0 usim_port0_cntl;
  _ ← writel 0x06 usim_cntl;
  _ ← writel 0 usim_clk_prescaler;
  _ ← writel 0 usim_setup;
  _ ← writel 0 usim_od_config;
  _ ← writel 0 usim_xmt_threshold;
  _ ← writel 0xb8 usim_xmt_status;
  _ ← writel 4 usim_reset_cntl;
  msleep 1.

(** The bits of [usim_cntl] that [sim_start] sets: baud select 7 and three flags. *)
Definition sim_start_cntl : Z :=
  Z.lor (Z.lor (Z.lor (Z.shiftl 7 6) SIM_CNTL_SAMPLE12) SIM_CNTL_ANACK) SIM_CNTL_ICM.

Definition sim_start : D unit :=
  _ ← on_sim (set_atr 0 (zeros SIM_ATR_LENGTH_MAX));
  _ ← usim_init_clk;
  _ ← writel 5 usim_xmt_threshold;
  _ ← writel 0 usim_setup;
  _ ← writel sim_start_cntl usim_cntl;
  _ ← writel 31 usim_divisor;
  _ ← set_bits SIM_OD_CONFIG_OD_P0 usim_od_config;
  _ ← set_bits (Z.lor SIM_PORT_CNTL_3VOLT SIM_PORT_CNTL_STEN) usim_port0_cntl;
  _ ← detect_pin;
  _ ← detect_interrupt;
  s ← the_sim;
  if decide (present s = SIM_PRESENT_DETECTED) then sim_power_on else mret tt.

(** The structure back to its defaults: no card, no power, empty buffers. *)
Definition sim_data_reset : D unit :=
  on_sim (λ s, SimT SIM_PRESENT_REMOVED SIM_STATE_REMOVED (status s) SIM_POWER_OFF (clk_prescaler s)
                 0 (zeros SIM_ATR_LENGTH_MAX) (zeros SIM_RCV_BUFFER_SIZE) (zeros SIM_XMT_BUFFER_SIZE)).

Definition sim_cold_reset : D unit :=
  s ← the_sim;
  if decide (present s ≠ SIM_PRESENT_REMOVED) then
    _ ← sim_power_off;
    _ ← sim_stop;
    _ ← sim_data_reset;
    _ ← on_sim (set_state SIM_STATE_DETECTED_ATR_T0);
    _ ← on_sim (set_present SIM_PRESENT_DETECTED);
    _ ← msleep 50;
    _ ← sim_start;
    sim_power_on
  else mret tt.

Definition sim_warm_reset : D unit :=
  s ← the_sim;
  if decide (present s ≠ SIM_PRESENT_REMOVED) then
    _ ← set_bits SIM_PORT_CNTL_SRST usim_port0_cntl;
    _ ← sim_data_reset;
    _ ← msleep 50;
    clear_bits SIM_PORT_CNTL_SRST usim_port0_cntl
  else mret tt.

Definition sim_card_lock : D Z :=
  s ← the_sim;
  mret (if decide (present s ≠ SIM_PRESENT_REMOVED) then SIM_OK else - SIM_E_NOCARD).
Definition sim_card_eject : D Z :=
  s ← the_sim;
  mret (if decide (present s ≠ SIM_PRESENT_REMOVED) then SIM_OK else - SIM_E_NOCARD).

(** ** Opening and closing the device *)

Definition sim_atr_add (data : Z) : D unit :=
  s ← the_sim;
  if decide (atr_size s < SIM_ATR_LENGTH_MAX) then
    t ← lift (wr (atr_t s) (atr_size s) (u8 data));
    on_sim (set_atr (atr_size s + 1) t)
  else mret tt.

Definition delay_clk (cycles : Z) : D unit :=
  v ← readl usim_cntl;
  _ ← writel (Z.land v 0xf9ff) usim_cntl;
  _ ← readl usim_xmt_status;
  _ ← writel 0x100 usim_xmt_status;
  _ ← writel cycles usim_gpcnt;
  set_bits 0x200 usim_cntl.

Definition clear_gpcnt_counter : D unit :=
  v ← readl usim_cntl;
  _ ← writel (Z.land v 0xf9ff) usim_cntl;
  writel 0x100 usim_xmt_status.

(** The wait for the next byte of the answer to reset; [i] starts at 0 for each. *)
Definition atr_step (s : Z * Z) : D (Z * Z + Z * Z) :=
  let '(i, value) := s in
  if has value 0x10 then mret (inr s) else
  if decide (i = 1000000) then mret (inr s) else
  value ← readl usim_rcv_status;
  mret (inl (i + 1, value)).
Definition atr_polling (value : Z) : D (Z * Z) :=
  x ← until atr_step 1000002 (0, value);
  lift (match x with inr s => Some s | inl _ => None end).

(** [atr] is a local array of 30 words, [j] its index; the count of bytes is not
    bounded, so a run has at most 31 turns. *)
Fixpoint atr_loop (fuel : nat) (j value : Z) (atr : buffer) : D unit :=
  match fuel with
  | O => lift None
  | S fuel =>
      if negb (has value 0x10) then mret tt else
      data ← readl usim_rcv_buff;
      atr ← lift (wr atr j data);
      _ ← sim_atr_add data;
      value ← readl usim_rcv_status;
      '(i, value) ← atr_polling value;
      if decide (i = 1000000) then mret tt else atr_loop fuel (j + 1) value atr
  end.

Definition sim_init : D unit :=
  s ← the_sim;
  let clk_pre := clk_prescaler s in
  _ ← usim_init_clk;
  _ ← usim_card_detect;
  _ ← writel 0x40 usim_port0_cntl;
  _ ← writel 0x42 usim_port0_cntl;
  _ ← writel 0x1 usim_od_config;
  _ ← writel clk_pre usim_clk_prescaler;
  _ ← writel 0x46 usim_port0_cntl;
  _ ← writel 0xfe usim_guard_cntl;
  _ ← writel 0x16 usim_cntl;
  _ ← writel 0x3 usim_xmt_threshold;
  _ ← writel 0xf23 usim_rcv_status;
  _ ← writel 0x56 usim_port0_cntl;
  _ ← delay_clk 0x190;
  _ ← bit_set_polling usim_xmt_status 0x100 0;
  _ ← clear_gpcnt_counter;
  _ ← writel 0x5e usim_port0_cntl;
  _ ← delay_clk 0x9c40;
  m ← readl usim_int_mask;
  _ ← writel (Z.land m 0x3dff) usim_int_mask;
  _ ← writel 0x2580 usim_char_wait;
  _ ← set_bits 0x800 usim_cntl;
  _ ← writel 0x01 usim_enable;
  _ ← readl usim_xmt_status;
  _ ← bit_set_polling usim_rcv_status 0x10 0;
  s ← the_sim;
  _ ← on_sim (set_atr 0 (atr_t s));
  value ← readl usim_rcv_status;
  atr_loop 31 0 value (undef 30).

(** The card is taken to be there, whatever [usim_card_detect] found. *)
Definition sim_open : D Z :=
  _ ← sim_init;
  _ ← on_sim (set_status USIM_STATE_CONNECTED);
  _ ← on_sim (set_present SIM_PRESENT_OPERATIONAL);
  mret SIM_OK.

Definition sim_release : D Z :=
  _ ← set_bits SIM_PORT_DETECT_SDIM usim_port0_detect;
  s ← the_sim;
  _ ← (if decide (present s ≠ SIM_PRESENT_REMOVED) then sim_power_off else mret tt);
  _ ← sim_stop;
  _ ← on_sim (set_status USIM_STATE_CONNECTED);
  mret 0.

(** ** The ioctl handler *)

(** [sim_xfer_t] as the caller passes it: the bytes at [xmt_buffer] (as many as
    [xmt_length] says), the receive length and the type. *)
Record sim_xfer_t := Xfer { x_xmt : list Z; x_rcv_length : Z; x_type : Z }.

(** Copies from and to the caller that fault. *)
Record user := User { from_user_fails : bool; to_user_fails : bool }.

Inductive sim_cmd :=
  | SIM_IOCTL_GET_ATR | SIM_IOCTL_POWER_ON | SIM_IOCTL_POWER_OFF | SIM_IOCTL_COLD_RESET
  | SIM_IOCTL_WARM_RESET | SIM_IOCTL_XFER (x : sim_xfer_t) | USIM_IOCTL_GET_PHY_ADD
  | SIM_IOCTL_CARD_LOCK | SIM_IOCTL_CARD_EJECT | USIM_IOCTL_STATUS | USIM_IOCTL_INVALIDATE
  | SIM_OTHER.

Definition card_here (s : sim_t) : bool :=
  bool_decide (present s = SIM_PRESENT_OPERATIONAL) || bool_decide (present s = SIM_PRESENT_DETECTED).

(** The transfer: the value returned, and the bytes stored at the caller's
    receive buffer.  The command is copied before its length is checked; a
    negative receive length makes the last copy fail. *)
Definition xfer_ioctl (u : user) (x : sim_xfer_t) : D (Z * list Z) :=
  s ← the_sim;
  if negb (card_here s) then mret (- SIM_E_NOCARD, []) else
  if from_user_fails u then mret (- SIM_E_ACCESS, []) else
  b ← lift (blit (xmt_buffer s) 0 (init (x_xmt x)));
  _ ← on_sim (set_xmt b);
  let n := zlen (x_xmt x) in
  if decide (x_type x = SIM_XFER_TYPE_TPDU ∧ n < 5) then mret (- SIM_E_TPDUSHORT, []) else
  if decide (x_type x = SIM_XFER_TYPE_PTS ∧ n = 0) then mret (- SIM_E_PTSEMPTY, []) else
  if decide (x_type x ≠ SIM_XFER_TYPE_TPDU ∧ x_type x ≠ SIM_XFER_TYPE_PTS)
  then mret (- SIM_E_INVALIDXFERTYPE, []) else
  _ ← on_sim (set_state (if decide (x_type x = SIM_XFER_TYPE_TPDU)
                         then SIM_STATE_OPERATIONAL_COMMAND else SIM_STATE_OPERATIONAL_PPSS));
  if decide (SIM_XMT_BUFFER_SIZE < n) then mret (- SIM_E_INVALIDXMTLENGTH, []) else
  if decide (SIM_XMT_BUFFER_SIZE < x_rcv_length x) then mret (- SIM_E_INVALIDRCVLENGTH, []) else
  ret ← usim_xfer b n (u32 (x_rcv_length x));
  let errval := if decide (ret = SIM_E_NOCARD) then - SIM_E_NOCARD else SIM_OK in
  if to_user_fails u then mret (- SIM_E_ACCESS, []) else
  if decide (x_rcv_length x < 0) then mret (- SIM_E_ACCESS, []) else
  s ← the_sim;
  out ← lift (rd_bytes (rcv_buffer s) 0 (x_rcv_length x));
  mret (errval, out).

(** The copies to the caller of the remaining requests: their data is not
    modelled but for its failure. *)
Definition copied (u : user) : Z := if to_user_fails u then - SIM_E_ACCESS else SIM_OK.

Definition sim_ioctl (c : sim_cmd) (u : user) : D (Z * list Z) :=
  s ← the_sim;
  match c with
  | SIM_IOCTL_GET_ATR => mret (if card_here s then copied u else - SIM_E_NOCARD, [])
  | SIM_IOCTL_POWER_ON =>
      if decide (power s = SIM_POWER_ON) then mret (- SIM_E_POWERED_ON, []) else
      _ ← sim_power_on; mret (SIM_OK, [])
  | SIM_IOCTL_POWER_OFF =>
      if decide (power s = SIM_POWER_OFF) then mret (- SIM_E_POWERED_OFF, []) else
      _ ← sim_power_off; mret (SIM_OK, [])
  | SIM_IOCTL_COLD_RESET =>
      if decide (power s = SIM_POWER_OFF) then mret (- SIM_E_POWERED_OFF, []) else
      _ ← sim_cold_reset; mret (SIM_OK, [])
  | SIM_IOCTL_WARM_RESET =>
      _ ← sim_warm_reset;
      s ← the_sim;
      mret (if decide (power s = SIM_POWER_OFF) then - SIM_E_POWERED_OFF else SIM_OK, [])
  | SIM_IOCTL_XFER x => xfer_ioctl u x
  | USIM_IOCTL_GET_PHY_ADD => mret (copied u, [])
  | SIM_IOCTL_CARD_LOCK => r ← sim_card_lock; mret (r, [])
  | SIM_IOCTL_CARD_EJECT => r ← sim_card_eject; mret (r, [])
  | USIM_IOCTL_STATUS => _ ← usim_card_detect; mret (copied u, [])
  | USIM_IOCTL_INVALIDATE => _ ← on_sim (set_status USIM_STATE_INVALIDATED); mret (SIM_OK, [])
  | SIM_OTHER => mret (SIM_OK, [])
  end.

End Usim.
