(* ===== verification/UsimDriverCorrect.v ===== *)
(** * Card reader driver: the theorems (kernel_driver/yami/gul_usim.c)

    Whatever the hardware does, the transfers the library asks for end, stay in
    the driver's arrays and keep the laws the library relies on; on a reader
    whose card answers by a script the bytes are those of the card. *)
From S2P Require Import Prelude UsimApdu UsimDriver.
From stdpp Require Import strings.
#[global] Open Scope Z_scope.

(** Run the next operation of a monadic goal by its triple. *)
Ltac hrun H := eapply hoare_bind; [apply H|]; cbn beta.

Section Safe.
Context {C : Type} `{UsimHw C}.
Variable ub : Prop.

(** A property of the driver's structure, not of the hardware. *)
Definition on (I : sim_t → Prop) (w : driver C) : Prop := I (sim w).

Lemma readl_on I r : hoare ub (on I) (readl r) (λ v w, 0 ≤ v < 4294967296 ∧ on I w).
Proof.
  intros w Hw. unfold readl. destruct (hw_read (hw w) r) as [c v]. split; [|done].
  apply Z.mod_pos_bound. lia.
Qed.
Lemma writel_on I v r : hoare ub (on I) (writel v r) (λ _, on I).
Proof. by intros w Hw. Qed.
Lemma msleep_on I ms : hoare ub (on I) (msleep ms) (λ _, on I).
Proof. by intros w Hw. Qed.
Lemma on_sim_on I J f : (∀ s, I s → J (f s)) → hoare ub (on I) (on_sim f) (λ _, on J).
Proof. intros Hf w Hw. by apply Hf. Qed.
Lemma the_sim_on I : hoare ub (on I) the_sim (λ s w, I s ∧ on I w).
Proof. by intros w Hw. Qed.

(** Polling ends within its bound. *)
Lemma bit_set_polling_on I r q : hoare ub (on I) (bit_set_polling r q 0) (λ _, on I).
Proof.
  unfold bit_set_polling.
  eapply hoare_bind; [apply readl_on|]. intros value. apply hoare_pre. intros _.
  set (P := λ (k : Z) (s : Z * Z) (w : driver C), on I w ∧ 0 ≤ fst s ≤ 20000000 ∧ 20000001 - fst s < k).
  eapply hoare_bind.
  - eapply (hoare_weaken _ (P 20000002 (0, value))); [|intros r' w' Hr; exact Hr|].
    + intros w Hw. split; [done|]. cbn. lia.
    + apply (hoare_until _ _ P (λ _, on I)). intros k [i v] Hk w (Hw & Hi & Hm). cbn [fst] in *.
      unfold bit_set_step. destruct (has v q); [done|].
      rewrite M_bind_eq. assert (Hr := readl_on I r w Hw). destruct (readl r w) as [[v' w1]|]; [|done].
      destruct Hr as [_ Hw1]. case_decide; [done|]. split; [done|]. cbn. lia.
  - intros [[i v]|u]; [intros w (_ & Hi & Hm); cbn in *; lia|]. by intros w Hw.
Qed.

Lemma rfd_polling_on I j value : 0 ≤ j ≤ 1000000 →
  hoare ub (on I) (rfd_polling j value) (λ s w, 0 ≤ fst s ≤ 1000000 ∧ on I w).
Proof.
  intros Hj. unfold rfd_polling.
  set (P := λ (k : Z) (s : Z * Z) (w : driver C), on I w ∧ 0 ≤ fst s ≤ 1000000 ∧ 1000001 - fst s < k).
  eapply hoare_bind.
  - eapply (hoare_weaken _ (P 1000002 (j, value))); [|intros r' w' Hr; exact Hr|].
    + intros w Hw. split; [done|]. cbn. lia.
    + apply (hoare_until _ _ P (λ s w, 0 ≤ fst s ≤ 1000000 ∧ on I w)).
      intros k [i v] Hk w (Hw & Hi & Hm). cbn [fst] in *.
      unfold rfd_step. destruct (has v 0x10); [done|]. case_decide; [done|].
      rewrite M_bind_eq. assert (Hr := readl_on I usim_rcv_status w Hw).
      destruct (readl usim_rcv_status w) as [[v' w1]|]; [|done].
      destruct Hr as [_ Hw1]. split; [done|]. cbn. lia.
  - intros [[i v]|s]; [intros w (_ & Hi & Hm); cbn in *; lia|]. by intros w Hw.
Qed.

Lemma wait_for_tc_on I : hoare ub (on I) wait_for_tc (λ _, on I).
Proof. eapply hoare_bind; [apply bit_set_polling_on|]. intros ?. apply writel_on. Qed.

(** Sending stays inside the command when it holds the bytes. *)
Lemma send_bytes_on I n k l : (ub ∨ (0 ≤ k ∧ k + Z.of_nat n ≤ zlen l)) →
  hoare ub (on I) (send_bytes n k (init l)) (λ _, on I).
Proof.
  revert k. induction n as [|n IH]; intros k Hk; cbn [send_bytes]; [by intros w Hw|].
  eapply hoare_bind.
  { apply hoare_lift. intros w _ Hn. destruct Hk as [?|Hk]; [done|].
    destruct (lookup_lt_is_Some_2 l (Z.to_nat k)) as [x Hx]; [unfold zlen in Hk; lia|].
    assert (Hrd := rd_init l (Z.to_nat k) x Hx). rewrite Z2Nat.id in Hrd by lia.
    by rewrite Hrd in Hn. }
  intros b. apply hoare_pre. intros _.
  eapply hoare_bind; [apply writel_on|]. intros ?.
  eapply hoare_bind; [apply wait_for_tc_on|]. intros ?. apply IH.
  destruct Hk as [?|Hk]; [by left|right; lia].
Qed.

(** Both buffers of the driver are 256 bytes, and the received bytes are bytes. *)
Definition rcv_ok (b : buffer) : Prop := ∃ l, b = init l ∧ length l = 256%nat ∧ Forall is_byte l.
Definition xmt_ok (b : buffer) : Prop := ∃ l, b = init l ∧ length l = 256%nat.
Definition bufs_ok (s : sim_t) : Prop := rcv_ok (rcv_buffer s) ∧ xmt_ok (xmt_buffer s).

Lemma rcv_ok_wr b i v b' : rcv_ok b → wr b i (u8 v) = Some b' → rcv_ok b'.
Proof.
  intros (l & Hl & Hlen & Hb) Hwr. unfold wr in Hwr. case_decide as Hi; [|done]. injection Hwr as <-.
  exists (<[Z.to_nat i := u8 v]> l). rewrite Hl. split; [|split].
  - unfold init. by rewrite list_fmap_insert.
  - by rewrite length_insert.
  - apply Forall_insert; [done|]. apply Z.mod_pos_bound. lia.
Qed.

Lemma rcv_ok_wr_some b i v : rcv_ok b → 0 ≤ i < 256 → wr b i v ≠ None.
Proof.
  intros (l & Hl & Hlen & _) Hi. unfold wr. rewrite Hl, zlen_init.
  rewrite decide_True by (unfold zlen; lia). done.
Qed.

(** The receive loop: the index it ends with, and the arrays it stays in. *)
Lemma rcv_loop_on fuel i j value l cmd_len rcv_len :
  ub ∨ (1 ≤ rcv_len ≤ 256 ∧ cmd_len ≤ zlen l ∧ 5 ≤ zlen l) →
  0 ≤ rcv_len < 4294967296 → 0 ≤ i → Z.of_nat fuel + i = 257 → (1 ≤ rcv_len → i ≤ rcv_len - 1) →
  0 ≤ j ≤ 1000000 →
  hoare ub (on bufs_ok) (rcv_loop fuel i j value (init l) cmd_len rcv_len)
    (λ r w, (0 ≤ r ≤ 257 ∧ (1 ≤ rcv_len → r ≤ rcv_len - 1)) ∧ on bufs_ok w).
Proof.
  intros Hub Hr. revert i j value. induction fuel as [|fuel IH]; intros i j value Hi Hf Hle Hj;
    cbn [rcv_loop].
  { intros w Hw. cbn. destruct Hub; [done|lia]. }
  destruct (negb (has value 16)); [intros w Hw; split; [lia|done]|].
  hrun readl_on. intros b. apply hoare_pre. intros Hb.
  hrun the_sim_on. intros s. apply hoare_pre. intros [Hs Hx].
  eapply hoare_bind.
  { apply hoare_lift. intros w Hw Hn. destruct Hub as [?|Hub]; [done|].
    exfalso. revert Hn. by apply rcv_ok_wr_some; [|lia]. }
  intros rcv. apply hoare_pre. intros Hrcv.
  assert (Hok := rcv_ok_wr _ _ _ _ Hs Hrcv).
  hrun (on_sim_on bufs_ok bufs_ok (set_rcv rcv)); [by intros s' [_ Hx']|]. intros ?.
  eapply (hoare_bind _ (λ _ : unit, on bufs_ok)).
  { case_decide; [|by intros w Hw]. apply send_bytes_on. destruct Hub; [by left|right; lia]. }
  intros ?. assert (Hu : 1 ≤ rcv_len → u32 (rcv_len - 1) = rcv_len - 1)
    by (intros; unfold u32; apply Z.mod_small; lia).
  case_decide as Hi1; [intros w Hw; split; [lia|done]|].
  hrun readl_on. intros v. apply hoare_pre. intros Hv.
  hrun rfd_polling_on; [done|]. intros [j' v']. apply hoare_pre. intros Hj'. cbn [fst] in Hj'.
  case_decide; [intros w Hw; split; [lia|done]|]. apply IH; lia.
Qed.

Lemma rcv_ok_rd b i : rcv_ok b → 0 ≤ i < 256 → rd b i ≠ None.
Proof.
  intros (l & -> & Hlen & _) Hi.
  destruct (lookup_lt_is_Some_2 l (Z.to_nat i)) as [x Hx]; [lia|].
  assert (Hrd := rd_init l (Z.to_nat i) x Hx). rewrite Z2Nat.id in Hrd by lia. by rewrite Hrd.
Qed.

Lemma rcv_ok_rd_bytes b n out : rcv_ok b → 0 ≤ n → rd_bytes b 0 n = Some out →
  zlen out = n ∧ Forall is_byte out ∧ n ≤ 256.
Proof.
  intros (l & -> & Hlen & Hb) Hn. unfold rd_bytes, sub. case_decide as Hd; [|done].
  rewrite zlen_init in Hd. cbn [mbind option_bind]. change (drop (Z.to_nat 0) (init l)) with (init l).
  unfold init. rewrite <- fmap_take. change (Some <$> ?l) with (init l). rewrite mapM_id_init.
  intros [= <-]. split; [|split; [by apply Forall_take|unfold zlen in Hd; lia]].
  unfold zlen in *. rewrite length_take. lia.
Qed.

(** What the transfer returns, for a receive length that is an unsigned word. *)
Lemma usim_xfer_on l cmd_len rcv_len :
  ub ∨ (3 ≤ rcv_len ≤ 256 ∧ cmd_len ≤ zlen l ∧ 5 ≤ zlen l) → 0 ≤ rcv_len < 4294967296 →
  hoare ub (on bufs_ok) (usim_xfer (init l) cmd_len rcv_len)
    (λ r w, (r ≠ SIM_E_NOCARD → 2 ≤ rcv_len) ∧ on bufs_ok w).
Proof.
  intros Hub Hr. unfold usim_xfer.
  do 4 (hrun writel_on; intros ?). hrun readl_on. intros t. apply hoare_pre. intros _.
  hrun writel_on. intros ?.
  eapply hoare_bind.
  { apply hoare_lift. intros w _ Hn. destruct Hub as [?|Hub]; [done|].
    destruct (lookup_lt_is_Some_2 l 1) as [x Hx]; [unfold zlen in Hub; lia|].
    assert (Hrd := rd_init l 1 x Hx). change (Z.of_nat 1) with 1 in Hrd. by rewrite Hrd in Hn. }
  intros ins. apply hoare_pre. intros _.
  hrun send_bytes_on; [destruct Hub; [by left|right; case_decide; lia]|]. intros ?.
  hrun writel_on. intros ?. hrun bit_set_polling_on. intros ?.
  hrun readl_on. intros value. apply hoare_pre. intros _.
  hrun rcv_loop_on; [destruct Hub; [by left|right; lia]|lia..|]. intros i. apply hoare_pre. intros [Hi Hi'].
  case_decide as Hi0; [intros w Hw; by split|].
  case_decide as Hi1; [intros w Hw; by split|].
  assert (Hlen : 2 ≤ rcv_len).
  { destruct (decide (rcv_len = 0)) as [->|]; [|lia]. change (u32 (0 - 1)) with 4294967295 in Hi1. lia. }
  hrun the_sim_on. intros s. apply hoare_pre. intros [Hs Hx].
  assert (Hrd : ∀ k, k = 1 ∨ k = 2 → ub ∨ rd (rcv_buffer s) (u32 (i - k)) ≠ None).
  { intros k Hk. destruct Hub as [?|Hub]; [by left|right]. apply rcv_ok_rd; [done|].
    assert (u32 (rcv_len - 1) = rcv_len - 1) as Hu by (apply Z.mod_small; lia).
    assert (i = rcv_len - 1) by lia. unfold u32. rewrite Z.mod_small; lia. }
  eapply hoare_bind.
  { apply hoare_lift. intros w _ Hn. destruct (Hrd 2) as [?|?]; [by right|done|done]. }
  intros sw1. apply hoare_pre. intros _.
  eapply (hoare_bind _ (λ _ : Z, on bufs_ok)).
  { case_decide; [|by intros w Hw]. eapply hoare_weaken; [| |apply (hoare_lift _ _ (on bufs_ok))].
    - intros w Hw. exact Hw.
    - intros ? ? [_ Hw]. exact Hw.
    - intros w _ Hn. destruct (Hrd 1) as [?|?]; [by left|done|done]. }
  intros sw2. by repeat case_decide; intros w Hw; split.
Qed.

(** The bytes handed to the caller, for any request. *)
Lemma xfer_ioctl_on u x :
  ub ∨ (zlen (x_xmt x) ≤ 256 ∧ 3 ≤ x_rcv_length x) →
  -2147483648 ≤ x_rcv_length x < 2147483648 →
  hoare ub (on bufs_ok) (xfer_ioctl u x)
    (λ r w, (fst r ≤ 0 ∧ zlen (snd r) ≤ Z.max 0 (x_rcv_length x) ∧ Forall is_byte (snd r) ∧
             (fst r = 0 → zlen (snd r) = x_rcv_length x ∧ 2 ≤ x_rcv_length x ≤ 256)) ∧ on bufs_ok w).
Proof.
  intros Hub Hr.
  assert (Herr : ∀ e w, e < 0 → on bufs_ok w → ((e, []) : Z * list Z).1 ≤ 0 ∧
    zlen (A:=Z) [] ≤ Z.max 0 (x_rcv_length x) ∧ Forall is_byte [] ∧
    (e = 0 → zlen (A:=Z) [] = x_rcv_length x ∧ 2 ≤ x_rcv_length x ≤ 256)).
  { intros e w He _. cbn. change (zlen []) with 0. split_and!; [lia|lia|constructor|lia]. }
  unfold xfer_ioctl. hrun the_sim_on. intros s. apply hoare_pre. intros [Hs (lx & Hx & Hlx)].
  destruct (negb (card_here s)); [intros w Hw; split; [by eapply Herr|done]|].
  destruct (from_user_fails u); [intros w Hw; split; [by eapply Herr|done]|].
  eapply hoare_bind.
  { apply hoare_lift. intros w _ Hn. destruct Hub as [?|Hub]; [done|].
    rewrite Hx, blit_0 in Hn; [done|]. rewrite !zlen_init. unfold zlen in *. lia. }
  intros b. apply hoare_pre. intros Hb.
  assert (Hxb : ∃ l, b = init l ∧ length l = 256%nat).
  { rewrite Hx in Hb. unfold blit in Hb. case_decide as Hd; [injection Hb as <-|done].
    change (take (Z.to_nat 0) (init lx)) with (@nil (option Z)). cbn [app].
    exists (x_xmt x ++ drop (Z.to_nat 0 + length (init (x_xmt x))) lx). split.
    - unfold init. rewrite fmap_app, fmap_drop. done.
    - rewrite !zlen_init in Hd. rewrite length_app, length_drop, length_init. unfold zlen in Hd. lia. }
  destruct Hxb as (l & -> & Hl).
  hrun (on_sim_on bufs_ok bufs_ok (set_xmt (init l))); [intros s' [? _]; split; [done|by exists l]|]. intros ?.
  do 3 (case_decide; [intros w Hw; split; [by eapply Herr|done]|]).
  hrun (on_sim_on bufs_ok bufs_ok); [by intros s' Hs'|]. intros ?.
  case_decide as Hn; [intros w Hw; split; [by eapply Herr|done]|].
  case_decide as Hrl; [intros w Hw; split; [by eapply Herr|done]|].
  unfold SIM_XMT_BUFFER_SIZE in *.
  hrun usim_xfer_on; [|by apply Z.mod_pos_bound|].
  { destruct Hub as [?|[Hc Hr3]]; [by left|right]. unfold u32. rewrite Z.mod_small by lia.
    unfold zlen in *. lia. }
  intros ret. apply hoare_pre. intros Hret.
  destruct (to_user_fails u); [intros w Hw; split; [by eapply Herr|done]|].
  case_decide as Hneg; [intros w Hw; split; [by eapply Herr|done]|].
  unfold u32 in Hret. rewrite Z.mod_small in Hret by lia.
  hrun the_sim_on. intros s'. apply hoare_pre. intros [Hs' _].
  eapply hoare_bind.
  { apply hoare_lift. intros w _ Hn'. exfalso. destruct Hs' as (l' & Hl' & Hlen' & _).
    rewrite Hl' in Hn'. unfold rd_bytes, sub in Hn'. rewrite decide_True in Hn' by
      (rewrite zlen_init; unfold zlen; lia). cbn [mbind option_bind] in Hn'.
    change (drop (Z.to_nat 0) (init l')) with (init l') in Hn'. unfold init in Hn'.
    rewrite <- fmap_take in Hn'. change (Some <$> ?l) with (init l) in Hn'. by rewrite mapM_id_init in Hn'. }
  intros out. apply hoare_pre. intros Hout. apply rcv_ok_rd_bytes in Hout as (Ho & Hob & Hn2); [|done|lia].
  intros w Hw. split; [|done]. cbn [fst snd]. split_and!; [case_decide; done|lia|done|].
  intros He. case_decide as Hc; [done|]. specialize (Hret Hc). lia.
Qed.

Lemma set_bits_on I v r : hoare ub (on I) (set_bits v r) (λ _, on I).
Proof. hrun readl_on. intros x. apply hoare_pre. intros _. apply writel_on. Qed.
Lemma clear_bits_on I v r : hoare ub (on I) (clear_bits v r) (λ _, on I).
Proof. hrun readl_on. intros x. apply hoare_pre. intros _. apply writel_on. Qed.

End Safe.

(** One step per register access or field store. *)
Ltac hoare_step :=
  first
  [ eapply hoare_bind; [first [apply writel_on | apply msleep_on | apply set_bits_on | apply clear_bits_on
      | apply (on_sim_on _ bufs_ok bufs_ok); intros s Hs; exact Hs]|]; cbn beta; intros ?
  | eapply hoare_bind; [first [apply readl_on | apply the_sim_on]|]; cbn beta; intros ?;
    apply hoare_pre; intros ?
  | first [apply writel_on | apply msleep_on | apply set_bits_on | apply clear_bits_on
      | apply (on_sim_on _ bufs_ok bufs_ok); intros s Hs; exact Hs] ].

Section Ioctl.
Context {C : Type} `{UsimHw C}.
Variable ub : Prop.

Lemma detect_pin_on : hoare ub (on bufs_ok) (detect_pin (C:=C)) (λ _, on bufs_ok).
Proof. unfold detect_pin. hoare_step. case_decide; repeat hoare_step; by intros w Hw. Qed.
Lemma detect_interrupt_on : hoare ub (on bufs_ok) (detect_interrupt (C:=C)) (λ _, on bufs_ok).
Proof. unfold detect_interrupt. repeat hoare_step. Qed.
Lemma usim_card_detect_on : hoare ub (on bufs_ok) (usim_card_detect (C:=C)) (λ _, on bufs_ok).
Proof.
  unfold usim_card_detect. hrun detect_pin_on. intros ?. hoare_step. apply detect_interrupt_on.
Qed.
Lemma usim_init_clk_on : hoare ub (on bufs_ok) (usim_init_clk (C:=C)) (λ _, on bufs_ok).
Proof. unfold usim_init_clk. repeat hoare_step. Qed.
Lemma sim_power_on_on : hoare ub (on bufs_ok) (sim_power_on (C:=C)) (λ _, on bufs_ok).
Proof. unfold sim_power_on. repeat hoare_step. Qed.
Lemma sim_power_off_on : hoare ub (on bufs_ok) (sim_power_off (C:=C)) (λ _, on bufs_ok).
Proof. unfold sim_power_off. repeat hoare_step. Qed.
Lemma sim_stop_on : hoare ub (on bufs_ok) (sim_stop (C:=C)) (λ _, on bufs_ok).
Proof. unfold sim_stop. repeat hoare_step. Qed.

Lemma zeros_ok n : length (zeros n) = 256%nat → rcv_ok (zeros n) ∧ xmt_ok (zeros n).
Proof.
  unfold zeros. rewrite length_replicate. intros Hn. rewrite Hn.
  assert (Hz : replicate 256 (Some 0) = init (replicate 256 0)) by (symmetry; apply fmap_replicate).
  rewrite Hz. split; exists (replicate 256 0); split_and?; rewrite ?length_replicate; try done.
  apply Forall_replicate. unfold is_byte. lia.
Qed.
Lemma sim_data_reset_on I : hoare ub (on I) (sim_data_reset (C:=C)) (λ _, on bufs_ok).
Proof.
  apply on_sim_on. intros s _. split; cbn [rcv_buffer xmt_buffer]; by apply zeros_ok.
Qed.

Lemma sim_start_on : hoare ub (on bufs_ok) (sim_start (C:=C)) (λ _, on bufs_ok).
Proof.
  unfold sim_start. hoare_step. hrun usim_init_clk_on. intros ?. do 6 hoare_step.
  hrun detect_pin_on. intros ?. hrun detect_interrupt_on. intros ?. hoare_step.
  case_decide; [apply sim_power_on_on|by intros w Hw].
Qed.
Lemma sim_cold_reset_on : hoare ub (on bufs_ok) (sim_cold_reset (C:=C)) (λ _, on bufs_ok).
Proof.
  unfold sim_cold_reset. hoare_step. case_decide; [|by intros w Hw].
  hrun sim_power_off_on. intros ?. hrun sim_stop_on. intros ?. hrun sim_data_reset_on. intros ?.
  do 3 hoare_step. hrun sim_start_on. intros ?. apply sim_power_on_on.
Qed.
Lemma sim_warm_reset_on : hoare ub (on bufs_ok) (sim_warm_reset (C:=C)) (λ _, on bufs_ok).
Proof.
  unfold sim_warm_reset. hoare_step. case_decide; [|by intros w Hw]. hoare_step.
  hrun sim_data_reset_on. intros ?. repeat hoare_step.
Qed.

(** The transfers the driver runs within its arrays: at most 256 command bytes
    and room for three response bytes. *)
Definition in_range (c : sim_cmd) : Prop :=
  match c with
  | SIM_IOCTL_XFER x => zlen (x_xmt x) ≤ 256 ∧ 3 ≤ x_rcv_length x < 2147483648
  | _ => True
  end.

Lemma sim_ioctl_on c u : in_range c →
  hoare ub (on bufs_ok) (sim_ioctl (C:=C) c u) (λ r w, fst r ≤ 0 ∧ on bufs_ok w).
Proof.
  intros Hc. unfold sim_ioctl. hoare_step. destruct c; cbn [in_range] in Hc.
  all: try (intros w Hw; split; [|done]; cbn; unfold copied; repeat case_match; done).
  - case_decide; [by intros w Hw|]. hrun sim_power_on_on. intros ?. by intros w Hw.
  - case_decide; [by intros w Hw|]. hrun sim_power_off_on. intros ?. by intros w Hw.
  - case_decide; [by intros w Hw|]. hrun sim_cold_reset_on. intros ?. by intros w Hw.
  - hrun sim_warm_reset_on. intros ?. hoare_step. intros w Hw. by case_decide.
  - eapply hoare_weaken; [| |apply xfer_ioctl_on]; [done| |right; lia|lia].
    intros r w [(Hr & _) Hw]. done.
  - hrun usim_card_detect_on. intros ?. intros w Hw. split; [|done]. cbn. unfold copied. by case_match.
Qed.

End Ioctl.

(** ** A reader with a card

    A card is the bytes it has sent by the time it has received some; the
    reader's FIFO never overflows and its flags are always up. *)
Record reader := Reader { card : list Z → list Z; sent : list Z; taken : nat }.

Definition pending (c : reader) : list Z := drop (taken c) (card c (sent c)).

#[export] Instance reader_hw : UsimHw reader := {|
  hw_read := λ c r, match r with
    | usim_rcv_status => (c, if decide (pending c = []) then 0 else 0x30)
    | usim_rcv_buff => match pending c with
        | b :: _ => (Reader (card c) (sent c) (S (taken c)), b) | [] => (c, 0) end
    | usim_xmt_status => (c, 0x138)
    | _ => (c, 0) end;
  hw_write := λ c r v, match r with
    | usim_xmt_buff => Reader (card c) (sent c ++ [v]) (taken c) | _ => c end;
  hw_sleep := λ c _, c |}.

Lemma bit_set_polling_reader r q (w : driver reader) : has (u32 (hw_read (hw w) r).2) q = true →
  (∀ c, (hw_read c r).1 = c) → bit_set_polling r q 0 w = Some (tt, w).
Proof.
  intros Hq Hr. unfold bit_set_polling. rewrite M_bind_eq. unfold readl at 1.
  specialize (Hr (hw w)). destruct (hw_read (hw w) r) as [c v]. cbn [fst snd] in *. subst c.
  destruct w as [c s]. cbn [hw sim].
  by rewrite M_bind_eq, (until_now _ _ _ _ tt (Driver c s)) by (unfold bit_set_step; by rewrite Hq).
Qed.

Lemma wait_for_tc_reader (w : driver reader) : wait_for_tc w = Some (tt, w).
Proof.
  unfold wait_for_tc. rewrite M_bind_eq, bit_set_polling_reader; [by destruct w|done|done].
Qed.

Lemma send_bytes_reader n k l (c : reader) s : Forall is_byte (take (k + n) l) → (k + n ≤ length l)%nat →
  send_bytes n (Z.of_nat k) (init l) (Driver c s) =
    Some (tt, Driver (Reader (card c) (sent c ++ take n (drop k l)) (taken c)) s).
Proof.
  revert k c. induction n as [|n IH]; intros k c Hl Hk; cbn [send_bytes].
  { rewrite take_0, app_nil_r. by destruct c. }
  destruct (lookup_lt_is_Some_2 l k) as [x Hx]; [lia|].
  rewrite (M_bind_run _ _ _ x (Driver c s)) by (by apply lift_Some, rd_init).
  rewrite M_bind_eq. unfold writel at 1. rewrite M_bind_eq, wait_for_tc_reader.
  replace (Z.of_nat k + 1) with (Z.of_nat (S k)) by lia.
  rewrite IH by (lia || by replace (S k + n)%nat with (k + S n)%nat by lia).
  cbn [hw hw_write reader_hw card sent taken sim].
  assert (Hb : is_byte x) by (eapply (Forall_lookup_1 _ _ k _ Hl); rewrite lookup_take_lt by lia; done).
  unfold is_byte in Hb. unfold u32. rewrite (Z.mod_small x) by lia.
  rewrite <- app_assoc. by rewrite (drop_S l x k Hx).
Qed.

Lemma pending_take b l (c : reader) : pending c = b :: l →
  pending (Reader (card c) (sent c) (S (taken c))) = l.
Proof.
  unfold pending; cbn [card sent taken]. intros Hp.
  replace (S (taken c)) with (taken c + 1)%nat by lia. by rewrite <- drop_drop, Hp.
Qed.

Lemma rfd_polling_now (w : driver reader) j : rfd_polling j 0x30 w = Some ((j, 0x30), w).
Proof. unfold rfd_polling. by rewrite M_bind_eq, (until_now _ _ _ _ (j, 0x30) w). Qed.

Lemma readl_status (c : reader) s : pending c ≠ [] →
  readl usim_rcv_status (Driver c s) = Some (0x30, Driver c s).
Proof. intros Hp. unfold readl; cbn [hw hw_read reader_hw]. by rewrite decide_False by done. Qed.

Lemma wr_mid pre x post v : wr (init (pre ++ x :: post)) (zlen pre) v = Some (init (pre ++ v :: post)).
Proof.
  unfold wr. rewrite decide_True by (rewrite zlen_init, zlen_app, zlen_cons; unfold zlen; lia).
  unfold zlen, init. by rewrite Nat2Z.id, <- list_fmap_insert, insert_mid.
Qed.

(** One turn stores the next byte and, at an acknowledgement, sends the tail. *)
Lemma rcv_turn fuel i j cmd cmd_len rcv_len b l pre x post (c : reader) s :
  pending c = b :: l → is_byte b → rcv_buffer s = init (pre ++ x :: post) → i = zlen pre →
  rcv_loop (S fuel) i j 0x30 cmd cmd_len rcv_len (Driver c s) =
  ((_ ← (if decide (b = 0xA4) then send_bytes (Z.to_nat (cmd_len - 5)) 5 cmd else mret tt);
    if decide (i = u32 (rcv_len - 1)) then mret i else
    value ← readl usim_rcv_status;
    '(j, value) ← rfd_polling j value;
    if decide (j = 1000000) then mret (i + 1) else
    rcv_loop fuel (i + 1) j value cmd cmd_len rcv_len)
   : M (driver reader) Z)
  (Driver (Reader (card c) (sent c) (S (taken c))) (set_rcv (init (pre ++ b :: post)) s)).
Proof.
  intros Hp Hb Hs ->. cbn [rcv_loop]. change (negb (has 48 16)) with false. cbn [negb].
  rewrite M_bind_eq. unfold readl at 1. cbn [hw hw_read reader_hw]. rewrite Hp.
  assert (Hu : u8 (u32 b) = b) by (unfold is_byte in Hb; wrap_lia). cbn [sim].
  rewrite M_bind_eq. unfold the_sim at 1, gets. cbn [sim]. rewrite Hs, Hu.
  by rewrite (M_bind_run _ _ _ _ _ (lift_Some _ _ _ (wr_mid pre x post b))).
Qed.

(** With nothing more to come, the wait runs to its end. *)
Lemma rfd_polling_timeout (c : reader) s j : pending c = [] → 0 ≤ j < 1000000 →
  rfd_polling j 0 (Driver c s) = Some ((1000000, 0), Driver c s).
Proof.
  intros Hp Hj. unfold rfd_polling.
  set (P := λ (k : Z) (x : Z * Z) (w : driver reader),
    w = Driver c s ∧ x.2 = 0 ∧ 0 ≤ x.1 ≤ 1000000 ∧ 1000001 - x.1 < k).
  assert (Hu := until_spec rfd_step False P (λ x w, w = Driver c s ∧ x = (1000000, 0))).
  refine (_ (Hu _ 1000002%positive 1000002 (j, 0) (Driver c s) ltac:(done) _)); [|clear Hu..].
  - rewrite M_bind_eq. destruct (until _ _ _ _) as [[[x|x] w]|]; [|by intros [-> ->]|done].
    intros (_ & _ & Hx & Hk). lia.
  - intros k [i v] w Hk (-> & Hv & Hi & Hm). cbn [fst snd] in *. subst v. unfold rfd_step.
    change (has 0 16) with false. cbn iota. case_decide as Hd; [by subst i|].
    rewrite M_bind_eq. unfold readl; cbn [hw hw_read reader_hw sim]. rewrite decide_True by done.
    split; [done|]. cbn [fst snd]. change (u32 0) with 0. lia.
  - split; [done|]. cbn [fst snd]. lia.
Qed.

(** The rest of a reply: all that is asked for, or all there is. *)
Lemma rcv_rest rest : ∀ fuel j cmd cmd_len rcv_len l pre mid post (c : reader) s,
  pending c = rest ++ l → rest ≠ [] → length mid = length rest → (length rest ≤ fuel)%nat →
  rcv_buffer s = init (pre ++ mid ++ post) → rcv_len ≤ 256 →
  zlen (pre ++ rest) = rcv_len ∨ zlen (pre ++ rest) < rcv_len ∧ l = [] →
  Forall is_byte rest → Forall (λ b, b ≠ 0xA4) rest → 0 ≤ j < 1000000 →
  rcv_loop fuel (zlen pre) j 0x30 cmd cmd_len rcv_len (Driver c s) =
    Some (if decide (zlen (pre ++ rest) = rcv_len) then rcv_len - 1 else zlen (pre ++ rest),
      Driver (Reader (card c) (sent c) (taken c + length rest)) (set_rcv (init (pre ++ rest ++ post)) s)).
Proof.
  induction rest as [|b rest IH];
    intros fuel j cmd cmd_len rcv_len l pre mid post c s Hp Hn Hm Hf Hs H256 Hl Hb Ha Hj; [done|].
  destruct fuel as [|fuel]; [cbn in Hf; lia|]. destruct mid as [|x mid]; [done|].
  apply Forall_cons in Hb as [Hb Hbs]. apply Forall_cons in Ha as [Ha Has].
  rewrite (rcv_turn _ _ _ _ _ _ b (rest ++ l) pre x (mid ++ post)) by done.
  rewrite (decide_False (P := b = 164)) by done. rewrite (M_bind_run _ _ _ tt _ eq_refl).
  assert (Hz : zlen (pre ++ b :: rest) = zlen pre + 1 + zlen rest) by (rewrite zlen_app, zlen_cons; lia).
  assert (Hpre := zlen_nonneg pre). assert (Hrest := zlen_nonneg rest).
  assert (Hu : u32 (rcv_len - 1) = rcv_len - 1) by (unfold u32; rewrite Z.mod_small; lia).
  rewrite Hu. assert (Hp' := pending_take _ _ _ Hp). set (c' := Reader _ _ (S _)) in *.
  destruct rest as [|b' rest].
  - destruct mid; [|done]. change (zlen []) with 0 in *. cbn [app length]. rewrite Hz.
    replace (taken c + 1)%nat with (S (taken c)) by lia. fold c'.
    destruct Hl as [Hl|[Hl ->]].
    + rewrite !decide_True by lia. by replace (rcv_len - 1) with (zlen pre) by lia.
    + rewrite !decide_False by lia. cbn [app] in Hp'.
      rewrite (M_bind_run _ _ _ 0 (Driver c' (set_rcv (init (pre ++ [b] ++ post)) s))).
      2:{ unfold readl; cbn [hw hw_read reader_hw]. by rewrite decide_True by done. }
      rewrite (M_bind_run _ _ _ _ _ (rfd_polling_timeout _ _ _ Hp' Hj)).
      rewrite (decide_True (P := 1000000 = 1000000)) by done.
      by replace (zlen pre + 1 + 0) with (zlen pre + 1) by lia.
  - rewrite (decide_False (P := zlen pre = _)) by (rewrite zlen_cons in Hz; pose proof (zlen_nonneg rest); lia).
    rewrite (M_bind_run _ _ _ _ _ (readl_status c' _ ltac:(by rewrite Hp'))).
    rewrite (M_bind_run _ _ _ _ _ (rfd_polling_now _ j)). rewrite decide_False by lia.
    change (b :: b' :: rest) with ([b] ++ b' :: rest). rewrite (app_assoc pre [b]).
    replace (zlen pre + 1) with (zlen (pre ++ [b])) by (rewrite zlen_app; done).
    cbn [length] in Hm, Hf. rewrite (IH fuel j cmd cmd_len rcv_len l (pre ++ [b]) mid post c') by
      (done || (cbn [length]; lia) || (cbn [rcv_buffer set_rcv]; by rewrite <- app_assoc)
       || (rewrite <- app_assoc; done)).
    do 3 f_equal; [|by rewrite <- (app_assoc pre [b])]. unfold c'. cbn [taken sent card app length].
    f_equal. lia.
Qed.

(** The transfer up to the reading of the response. *)
Lemma usim_xfer_reader (l : list Z) cmd_len rcv_len (c : reader) s ins :
  Forall is_byte (take (Z.to_nat cmd_len) l) → l !! 1%nat = Some ins → 5 ≤ cmd_len ≤ zlen l →
  let k := if decide (ins = 0xA4) then 5%nat else Z.to_nat cmd_len in
  let c' := Reader (card c) (sent c ++ take k l) (taken c) in
  pending c' ≠ [] →
  usim_xfer (init l) cmd_len rcv_len (Driver c s) =
  (i ← rcv_loop 257 0 0 0x30 (init l) cmd_len rcv_len;
   if decide (i = 0) then mret SIM_E_NOCARD else
   if decide (i < u32 (rcv_len - 1)) then mret SIM_E_NOCARD else
   s ← the_sim;
   let rcv := rcv_buffer s in
   sw1 ← lift (rd rcv (u32 (i - 2)));
   sw2 ← (if decide (sw1 = 0x90) then lift (rd rcv (u32 (i - 1))) else mret 0);
   if decide (sw1 = 0x90 ∧ sw2 = 0x00) then mret SIM_OK else
   if decide (sw1 = 0x9f ∨ sw1 = 0x61) then mret SIM_OK else
   mret (- SIM_E_ACCESS)) (Driver c' s).
Proof.
  intros Hl Hins Hlen k c' Hp. unfold usim_xfer.
  do 4 (rewrite (M_bind_run _ _ _ tt (Driver c s)) by reflexivity).
  rewrite (M_bind_run _ _ _ 0 (Driver c s)), (M_bind_run _ _ _ tt (Driver c s)) by reflexivity.
  assert (Hrd := rd_init l 1 ins Hins). change (Z.of_nat 1) with 1 in Hrd.
  rewrite (M_bind_run _ _ _ _ _ (lift_Some _ (Driver c s) _ Hrd)).
  replace (Z.to_nat (if decide (ins = 164) then 5 else cmd_len)) with k by (unfold k; by case_decide).
  assert (Hk : (k ≤ Z.to_nat cmd_len ≤ length l)%nat) by (unfold k, zlen in *; case_decide; lia).
  assert (Hs : Forall is_byte (take k l)).
  { replace k with (k `min` Z.to_nat cmd_len)%nat by lia. rewrite <- take_take. by apply Forall_take. }
  apply (send_bytes_reader k 0 l c s) in Hs; [|lia]. change (Z.of_nat 0) with 0 in Hs.
  rewrite (M_bind_run _ _ _ _ _ Hs), drop_0. fold c'.
  rewrite (M_bind_run _ _ _ tt (Driver c' s)) by reflexivity.
  rewrite (M_bind_run _ _ _ tt (Driver c' s)).
  2:{ apply bit_set_polling_reader; [|done]. cbn [hw hw_read reader_hw]. by rewrite decide_False by done. }
  by rewrite (M_bind_run _ _ _ _ _ (readl_status c' s Hp)).
Qed.

(** The status bytes are found, whatever they are. *)
Lemma xfer_status i rcv_len (w : driver reader) : rcv_ok (rcv_buffer (sim w)) →
  3 ≤ rcv_len ≤ 256 → i = rcv_len - 1 →
  ∃ r, r ≠ SIM_E_NOCARD ∧
  (if decide (i = 0) then mret SIM_E_NOCARD else
   if decide (i < u32 (rcv_len - 1)) then mret SIM_E_NOCARD else
   s ← the_sim;
   let rcv := rcv_buffer s in
   sw1 ← lift (rd rcv (u32 (i - 2)));
   sw2 ← (if decide (sw1 = 0x90) then lift (rd rcv (u32 (i - 1))) else mret 0);
   if decide (sw1 = 0x90 ∧ sw2 = 0x00) then mret SIM_OK else
   if decide (sw1 = 0x9f ∨ sw1 = 0x61) then mret SIM_OK else
   mret (- SIM_E_ACCESS) : M (driver reader) Z) w = Some (r, w).
Proof.
  intros Hok Hr ->. assert (Hu : u32 (rcv_len - 1) = rcv_len - 1) by (unfold u32; apply Z.mod_small; lia).
  rewrite Hu, !decide_False by lia.
  unfold u32. rewrite !Z.mod_small by lia.
  rewrite (M_bind_run _ _ _ (sim w) w) by (by destruct w). cbv zeta.
  destruct (rd (rcv_buffer (sim w)) (rcv_len - 1 - 2)) as [sw1|] eqn:H1;
    [|by apply (rcv_ok_rd _ _ Hok) in H1; [|lia]].
  destruct (rd (rcv_buffer (sim w)) (rcv_len - 1 - 1)) as [sw2|] eqn:H2;
    [|by apply (rcv_ok_rd _ _ Hok) in H2; [|lia]].
  rewrite (M_bind_run _ _ _ sw1 w) by done.
  eexists (if decide (sw1 = 144 ∧ (if decide (sw1 = 144) then sw2 else 0) = 0) then SIM_OK else
           if decide (sw1 = 159 ∨ sw1 = 97) then SIM_OK else - SIM_E_ACCESS).
  split; [by repeat case_decide|].
  rewrite (M_bind_run _ _ _ (if decide (sw1 = 144) then sw2 else 0) w) by (by case_decide).
  by repeat case_decide.
Qed.

(** What the card says to a command: [reply], then [more] which is not read.
    To a SELECT it first acknowledges the header, and the rest of the command
    asks for the rest of the reply.  No other byte of the reply is an
    acknowledgement. *)
Definition answers (c : reader) (cmd reply more : list Z) : Prop :=
  let at_ k := drop (taken c) (card c (sent c ++ take k cmd)) in
  at_ (length cmd) = reply ++ more ∧ Forall is_byte reply ∧
  if decide (cmd !! 1%nat = Some 0xA4)
  then at_ 5%nat = [0xA4] ∧ head reply = Some 0xA4 ∧ Forall (λ b, b ≠ 0xA4) (tail reply)
  else Forall (λ b, b ≠ 0xA4) reply.

(** The reader after the exchange. *)
Definition answered (c : reader) (cmd reply : list Z) : reader :=
  Reader (card c) (sent c ++ cmd) (taken c + length reply).

Section Answer.
Variables (cmd reply more rest old : list Z) (n : Z) (c : reader) (s : sim_t).
Hypotheses (Ha : answers c cmd reply more) (Hcmd : Forall is_byte cmd) (H5 : 5 ≤ zlen cmd)
  (Hlen : length (cmd ++ rest) = 256%nat) (Hr : 2 ≤ zlen reply) (Hn : n ≤ 256)
  (Hl : zlen reply = n ∨ zlen reply < n ∧ more = [])
  (Hs : rcv_buffer s = init old) (Hold : length old = 256%nat) (Hob : Forall is_byte old).

Let result : option (Z * driver reader) :=
  Some (if decide (zlen reply = n) then n - 1 else zlen reply,
    Driver (answered c cmd reply) (set_rcv (init (reply ++ drop (length reply) old)) s)).

Lemma rcv_answer_plain : cmd !! 1%nat ≠ Some 0xA4 →
  let c' := Reader (card c) (sent c ++ cmd) (taken c) in
  pending c' ≠ [] ∧ rcv_loop 257 0 0 0x30 (init (cmd ++ rest)) (zlen cmd) n (Driver c' s) = result.
Proof.
  intros HA c'. destruct Ha as (Hm & Hb & Hrep). rewrite decide_False in Hrep by done.
  rewrite firstn_all in Hm. assert (Hp : pending c' = reply ++ more) by exact Hm.
  assert (Hr0 : reply ≠ []) by (intros Hr0; rewrite Hr0 in Hr; change (zlen []) with 0 in Hr; lia).
  split; [rewrite Hp; by destruct reply|].
  assert (Hrest := rcv_rest reply 257 0 (init (cmd ++ rest)) (zlen cmd) n more []
    (take (length reply) old) (drop (length reply) old) c' s).
  change (zlen []) with 0 in Hrest. cbn [app] in Hrest. rewrite take_drop in Hrest.
  rewrite Hrest; try done; [|unfold zlen in *; lia].
  rewrite length_take. unfold zlen in *. lia.
Qed.

Lemma rcv_answer_select : cmd !! 1%nat = Some 0xA4 →
  let c' := Reader (card c) (sent c ++ take 5 cmd) (taken c) in
  pending c' ≠ [] ∧ rcv_loop 257 0 0 0x30 (init (cmd ++ rest)) (zlen cmd) n (Driver c' s) = result.
Proof.
  intros HA c'. destruct Ha as (Hm & Hb & Hrep). rewrite decide_True in Hrep by done.
  rewrite firstn_all in Hm. destruct Hrep as (H5' & Hh & Ht). unfold result. clear result Ha.
  destruct reply as [|b r]; [done|]. injection Hh as ->. cbn [tail] in Ht.
  inversion_clear Hb as [|? ? H164 Hbr]. rewrite zlen_cons in *.
  assert (Hp : pending c' = [164]) by exact H5'. split; [by rewrite Hp|].
  destruct old as [|x old']; [done|]. cbn [length drop] in *.
  rewrite (rcv_turn 256 0 0 _ _ _ 164 [] [] x old' c' s) by (done || lia).
  rewrite (decide_True (P := 164 = 164)) by done.
  assert (Hsend := send_bytes_reader (Z.to_nat (zlen cmd - 5)) 5 (cmd ++ rest)
    (Reader (card c') (sent c') (S (taken c'))) (set_rcv (init ([] ++ 164 :: old')) s)).
  change (Z.of_nat 5) with 5 in Hsend.
  assert (Hk : (5 + Z.to_nat (zlen cmd - 5) = length cmd)%nat) by (unfold zlen in *; lia).
  rewrite Hk in Hsend.
  rewrite (M_bind_run _ _ _ _ _ (Hsend ltac:(by rewrite take_app_length) ltac:(rewrite length_app; lia))).
  cbn [card sent taken c'].
  assert (Htail : take 5 cmd ++ take (Z.to_nat (zlen cmd - 5)) (drop 5 (cmd ++ rest)) = cmd).
  { rewrite drop_app_le by (unfold zlen in *; lia).
    rewrite take_app_le by (rewrite length_drop; unfold zlen in *; lia).
    rewrite (take_ge (drop 5 cmd)) by (rewrite length_drop; unfold zlen in *; lia). apply take_drop. }
  rewrite <- app_assoc, Htail. set (c2 := Reader _ (sent c ++ cmd) _).
  assert (Hp2 : pending c2 = r ++ more).
  { unfold pending, c2; cbn [card sent taken]. replace (S (taken c)) with (taken c + 1)%nat by lia.
    by rewrite <- drop_drop, Hm. }
  assert (Hr0 : r ≠ []) by (intros ->; change (zlen []) with 0 in Hr; lia).
  unfold u32. rewrite Z.mod_small, (decide_False (P := 0 = _)) by lia.
  rewrite (M_bind_run _ _ _ _ _ (readl_status c2 _ ltac:(rewrite Hp2; by destruct r))).
  rewrite (M_bind_run _ _ _ _ _ (rfd_polling_now _ 0)). rewrite (decide_False (P := 0 = 1000000)) by lia.
  assert (Hrest := rcv_rest r 256 0 (init (cmd ++ rest)) (zlen cmd) n more [164]
    (take (length r) old') (drop (length r) old') c2 (set_rcv (init ([] ++ 164 :: old')) s)).
  change (zlen [164]) with 1 in Hrest. change (0 + 1) with 1. cbn [app] in Hrest.
  rewrite zlen_cons, take_drop in Hrest. cbn [app]; rewrite Hrest; try done.
  - do 3 f_equal. unfold c2, answered; cbn [taken sent card length]. f_equal. lia.
  - rewrite length_take. unfold zlen in *. lia.
  - unfold zlen in *. lia.
Qed.

(** The whole exchange, but for the status. *)
Lemma usim_xfer_answer : 3 ≤ n →
  let rcv := init (reply ++ drop (length reply) old) in
  ∃ r, usim_xfer (init (cmd ++ rest)) (zlen cmd) n (Driver c s) =
         Some (r, Driver (answered c cmd reply) (set_rcv rcv s)) ∧
       (r = SIM_E_NOCARD ↔ zlen reply < n - 1).
Proof.
  intros H3 rcv.
  destruct (lookup_lt_is_Some_2 cmd 1) as [ins Hins]; [unfold zlen in *; lia|].
  assert (Hins' : (cmd ++ rest) !! 1%nat = Some ins) by by apply lookup_app_l_Some.
  assert (Ht : take (Z.to_nat (zlen cmd)) (cmd ++ rest) = cmd)
    by (unfold zlen; by rewrite Nat2Z.id, take_app_length).
  set (k := if decide (ins = 164) then 5%nat else Z.to_nat (zlen cmd)).
  set (c' := Reader (card c) (sent c ++ take k (cmd ++ rest)) (taken c)).
  assert (Hloop : pending c' ≠ [] ∧
    rcv_loop 257 0 0 0x30 (init (cmd ++ rest)) (zlen cmd) n (Driver c' s) = result).
  { unfold c', k. case_decide as HA.
    - subst ins. rewrite take_app_le by (unfold zlen in *; lia). by apply rcv_answer_select.
    - rewrite Ht. apply rcv_answer_plain. rewrite Hins. congruence. }
  destruct Hloop as [Hp Hloop].
  rewrite (usim_xfer_reader _ _ _ _ _ ins); [|by rewrite Ht|done| |exact Hp].
  2:{ split; [done|]. rewrite zlen_app. pose proof (zlen_nonneg rest). lia. }
  fold k. fold c'. rewrite (M_bind_run _ _ _ _ _ Hloop).
  set (w := Driver _ _). set (i := if decide (zlen reply = n) then n - 1 else zlen reply).
  assert (Hu : u32 (n - 1) = n - 1) by (unfold u32; rewrite Z.mod_small; lia).
  destruct (decide (zlen reply < n - 1)) as [Hshort|Hlong].
  - exists SIM_E_NOCARD. rewrite Hu. unfold i. rewrite (decide_False (P := zlen reply = n)) by lia.
    by rewrite decide_False, decide_True by lia.
  - destruct (xfer_status i n w) as (r & Hr' & Hrun).
    + exists (reply ++ drop (length reply) old). split_and!; [done| |].
      * rewrite length_app, length_drop. unfold zlen in *. lia.
      * apply Forall_app. split; [by destruct Ha as (_ & Hb & _)|by apply Forall_drop].
    + lia.
    + unfold i. case_decide; lia.
    + exists r. by split.
Qed.
End Answer.

(** The request as a caller with sound buffers makes it. *)
Definition no_faults : user := User false false.

Lemma xfer_ioctl_answer cmd reply more old n (c : reader) s :
  card_here s = true → bufs_ok s → rcv_buffer s = init old → answers c cmd reply more →
  Forall is_byte cmd → 5 ≤ zlen cmd ≤ 256 → 2 ≤ zlen reply → 3 ≤ n ≤ 256 →
  zlen reply = n ∨ zlen reply < n ∧ more = [] →
  ∃ s', xfer_ioctl no_faults (Xfer cmd n SIM_XFER_TYPE_TPDU) (Driver c s) =
    Some ((if decide (zlen reply < n - 1) then - SIM_E_NOCARD else SIM_OK,
           take (Z.to_nat n) (reply ++ drop (length reply) old)),
          Driver (answered c cmd reply) s') ∧ card_here s' = true.
Proof.
  intros Hc [(old' & Ho & Hold & Hob) (lx & Hx & Hlx)] Ho' Ha Hcmd Hlen Hr Hn Hl.
  rewrite Ho in Ho'. apply (inj init) in Ho'. subst old'.
  unfold xfer_ioctl. cbn [x_xmt x_type x_rcv_length from_user_fails to_user_fails no_faults].
  rewrite (M_bind_run _ _ _ s (Driver c s)) by reflexivity. rewrite Hc. cbn [negb].
  assert (Hblit : blit (xmt_buffer s) 0 (init cmd) = Some (init (cmd ++ drop (length cmd) lx))).
  { rewrite Hx, blit_0 by (rewrite !zlen_init; unfold zlen in *; lia).
    rewrite length_init, init_app. unfold init. by rewrite fmap_drop. }
  set (rest := drop (length cmd) lx) in *.
  rewrite (M_bind_run _ _ _ _ _ (lift_Some _ _ _ Hblit)).
  rewrite (M_bind_run _ _ _ tt _ eq_refl).
  rewrite !(decide_False (P := _ ∧ _)) by (unfold SIM_XFER_TYPE_TPDU, SIM_XFER_TYPE_PTS; lia).
  rewrite (M_bind_run _ _ _ tt _ eq_refl). cbn [hw sim].
  rewrite (decide_False (P := SIM_XMT_BUFFER_SIZE < zlen cmd)) by (unfold SIM_XMT_BUFFER_SIZE; lia).
  rewrite (decide_False (P := SIM_XMT_BUFFER_SIZE < n)) by (unfold SIM_XMT_BUFFER_SIZE; lia).
  set (s1 := set_state _ (set_xmt _ s)).
  assert (Hu : u32 n = n) by (unfold u32; rewrite Z.mod_small; lia). rewrite Hu.
  destruct (usim_xfer_answer cmd reply more rest old n c s1) as (r & Hrun & Hiff); try done; try lia.
  { unfold rest. rewrite length_app, length_drop. unfold zlen in *. lia. }
  rewrite (M_bind_run _ _ _ _ _ Hrun).
  rewrite (decide_False (P := n < 0)) by lia.
  set (w := Driver (answered c cmd reply) _). rewrite (M_bind_run _ _ _ (sim w) w) by (by destruct w).
  set (out := reply ++ drop (length reply) old).
  assert (Hout : rd_bytes (rcv_buffer (sim w)) 0 n = Some (take (Z.to_nat n) out)).
  { cbn [w sim set_rcv rcv_buffer]. fold out.
    assert (Hz : zlen (take (Z.to_nat n) out) = n).
    { unfold zlen. rewrite length_take. unfold out. rewrite length_app, length_drop. unfold zlen in *. lia. }
    assert (Hpre := rd_bytes_prefix (take (Z.to_nat n) out) (init (drop (Z.to_nat n) out))).
    by rewrite Hz, <- init_app, take_drop in Hpre. }
  rewrite (M_bind_run _ _ _ _ _ (lift_Some _ w _ Hout)).
  exists (sim w). split; [|done].
  by rewrite (decide_ext _ _ _ _ Hiff).
Qed.
(** ** The answer to reset *)

Lemma atr_polling_now (w : driver reader) : atr_polling 0x30 w = Some ((0, 0x30), w).
Proof. unfold atr_polling. by rewrite M_bind_eq, (until_now _ _ _ _ (0, 0x30) w). Qed.

(** The two polling loops of the driver are the same loop. *)
Lemma atr_polling_rfd value : atr_polling (C:=reader) value = rfd_polling 0 value.
Proof. unfold atr_polling, rfd_polling. by change (atr_step (C:=reader)) with (rfd_step (C:=reader)). Qed.

(** One byte of the answer: stored in both arrays. *)
Lemma atr_turn fuel b l pre x post t (c : reader) s :
  pending c = b :: l → is_byte b → atr_t s = t → atr_size s = zlen pre → zlen pre < 30 →
  t = init pre ++ x :: post →
  ∀ atr j, length atr = 30%nat → j = zlen pre →
  atr_loop (S fuel) j 0x30 atr (Driver c s) =
  ((value ← readl usim_rcv_status;
    '(i, value) ← atr_polling value;
    if decide (i = 1000000) then mret tt
    else atr_loop fuel (j + 1) value (<[Z.to_nat j := Some b]> atr)) : M (driver reader) unit)
  (Driver (Reader (card c) (sent c) (S (taken c)))
     (set_atr (zlen pre + 1) (init (pre ++ [b]) ++ post) s)).
Proof.
  intros Hp Hb Ht Hs H30 -> atr j Hatr ->. cbn [atr_loop].
  change (negb (has 48 16)) with false. cbn iota.
  rewrite M_bind_eq. unfold readl at 1. cbn [hw hw_read reader_hw sim]. rewrite Hp.
  assert (Hpre := zlen_nonneg pre).
  assert (Hu : u32 b = b) by (unfold is_byte in Hb; wrap_lia). rewrite Hu.
  set (w := Driver (Reader _ _ _) s).
  rewrite (M_bind_run _ _ _ (<[Z.to_nat (zlen pre) := Some b]> atr) w).
  2:{ apply lift_Some. unfold wr. by rewrite decide_True by (unfold zlen in *; lia). }
  erewrite M_bind_run; [reflexivity|]. unfold sim_atr_add.
  rewrite (M_bind_run _ _ _ s w) by done.
  rewrite decide_True by (rewrite Hs; unfold SIM_ATR_LENGTH_MAX; lia).
  assert (Hu8 : u8 b = b) by (unfold is_byte in Hb; wrap_lia).
  rewrite (M_bind_run _ _ _ (init (pre ++ [b]) ++ post) w).
  - unfold on_sim, modify. by rewrite Hs.
  - apply lift_Some. rewrite Ht, Hs, Hu8. unfold wr. rewrite decide_True
      by (rewrite zlen_app, zlen_cons, zlen_init; pose proof (zlen_nonneg post); lia).
    rewrite init_app, <- app_assoc. f_equal. unfold zlen. rewrite Nat2Z.id.
    by apply insert_mid, length_init.
Qed.

(** The whole answer, when it fits. *)
Lemma atr_loop_reader l : ∀ fuel pre mid post atr (c : reader) s,
  pending c = l → l ≠ [] → Forall is_byte l → (length l < fuel)%nat →
  atr_t s = init pre ++ mid ++ post → length mid = length l → atr_size s = zlen pre →
  zlen pre + zlen l ≤ 30 → length atr = 30%nat →
  ∃ c', atr_loop fuel (zlen pre) 0x30 atr (Driver c s) =
    Some (tt, Driver c' (set_atr (zlen (pre ++ l)) (init (pre ++ l) ++ post) s)).
Proof.
  induction l as [|b l IH]; intros fuel pre mid post atr c s Hp Hn Hb Hf Ht Hm Hs H30 Hatr; [done|].
  destruct fuel as [|fuel]; [lia|]. destruct mid as [|x mid]; [done|].
  apply Forall_cons in Hb as [Hb Hbs]. rewrite zlen_cons in H30. pose proof (zlen_nonneg l).
  rewrite (atr_turn fuel b l pre x (mid ++ post) _ c s Hp Hb eq_refl Hs ltac:(lia) Ht atr _ Hatr eq_refl).
  assert (Hp' := pending_take _ _ _ Hp). set (c' := Reader _ _ _) in *.
  destruct l as [|b' l].
  - destruct mid; [|done]. exists c'.
    rewrite (M_bind_run _ _ _ 0 (Driver c' (set_atr (zlen pre + 1) (init (pre ++ [b]) ++ [] ++ post) s))).
    2:{ unfold readl; cbn [hw hw_read reader_hw]. by rewrite decide_True by done. }
    rewrite atr_polling_rfd, (M_bind_run _ _ _ _ _ (rfd_polling_timeout _ _ 0 Hp' ltac:(lia))).
    by rewrite decide_True, zlen_app by done.
  - rewrite (M_bind_run _ _ _ _ _ (readl_status c' _ ltac:(by rewrite Hp'))).
    rewrite (M_bind_run _ _ _ _ _ (atr_polling_now _)). rewrite decide_False by lia.
    assert (Hz : zlen pre + 1 = zlen (pre ++ [b])) by by rewrite zlen_app. rewrite Hz.
    cbn [length] in *.
    destruct (IH fuel (pre ++ [b]) mid post (<[Z.to_nat (zlen pre) := Some b]> atr) c'
      (set_atr (zlen (pre ++ [b])) (init (pre ++ [b]) ++ mid ++ post) s)) as (c2 & Hrun);
      [done|done|done|lia|done|by injection Hm|done|lia|by rewrite length_insert|].
    exists c2. rewrite Hrun. by rewrite <- !(app_assoc pre [b]).
Qed.

(** An answer of more than 30 bytes leaves the local array. *)
Lemma atr_loop_overflow fuel : ∀ pre mid atr (c : reader) s,
  (Z.of_nat fuel + zlen pre = 31) → (length (pending c) ≥ fuel)%nat → Forall is_byte (pending c) →
  atr_t s = init pre ++ mid → zlen pre + zlen mid = 32 → atr_size s = zlen pre →
  length atr = 30%nat → atr_loop fuel (zlen pre) 0x30 atr (Driver c s) = None.
Proof.
  induction fuel as [|fuel IH]; intros pre mid atr c s Hf Hlen Hb Ht Hm Hs Hatr; [done|].
  destruct (pending c) as [|b l] eqn:Hp; [cbn in Hlen; lia|]. cbn [length] in Hlen.
  apply Forall_cons in Hb as [Hb Hbs].
  destruct mid as [|x mid]; [change (zlen []) with 0 in Hm; lia|]. rewrite zlen_cons in Hm.
  destruct (decide (zlen pre < 30)) as [H30|H30].
  - rewrite (atr_turn fuel b l pre x mid _ c s Hp Hb eq_refl Hs H30 Ht atr _ Hatr eq_refl).
    assert (Hp' := pending_take _ _ _ Hp). set (c' := Reader _ _ _) in *.
    destruct l as [|b' l]; [cbn in Hlen; lia|].
    rewrite (M_bind_run _ _ _ _ _ (readl_status c' _ ltac:(by rewrite Hp'))).
    rewrite (M_bind_run _ _ _ _ _ (atr_polling_now _)). rewrite decide_False by lia.
    assert (Hz : zlen pre + 1 = zlen (pre ++ [b])) by by rewrite zlen_app. rewrite Hz.
    apply (IH (pre ++ [b]) mid); rewrite ?Hp'; rewrite <- ?Hz; try done; try lia.
    by rewrite length_insert.
  - cbn [atr_loop]. change (negb (has 48 16)) with false. cbn iota.
    rewrite M_bind_eq. unfold readl at 1. cbn [hw hw_read reader_hw sim]. rewrite Hp.
    rewrite M_bind_eq. unfold lift, wr at 1. rewrite decide_False; [done|]. unfold zlen in *. lia.
Qed.

(** Opening runs to the answer to reset with the card detected. *)
Definition opened (s : sim_t) : sim_t :=
  SimT SIM_PRESENT_DETECTED SIM_STATE_DETECTED_ATR_T0 USIM_STATE_CONNECTED (power s) 0x1F
    0 (atr_t s) (rcv_buffer s) (xmt_buffer s).

Lemma sim_init_reader (c : reader) s : pending c ≠ [] →
  sim_init (Driver c s) = atr_loop 31 0 0x30 (undef 30) (Driver c (opened s)).
Proof.
  intros Hp. unfold sim_init. rewrite (M_bind_run _ _ _ s (Driver c s)) by done. cbv zeta.
  rewrite (M_bind_run _ _ _ tt (Driver c (set_clk 31 s))) by done.
  set (s1 := SimT SIM_PRESENT_DETECTED SIM_STATE_DETECTED_ATR_T0 USIM_STATE_CONNECTED (power s) 31
    (atr_size s) (atr_t s) (rcv_buffer s) (xmt_buffer s)).
  rewrite (M_bind_run _ _ _ tt (Driver c s1)) by done.
  do 10 rewrite (M_bind_run _ _ _ tt (Driver c s1)) by done.
  rewrite (M_bind_run _ _ _ tt (Driver c s1)) by done.
  rewrite (M_bind_run _ _ _ tt (Driver c s1)) by (by apply bit_set_polling_reader).
  do 3 rewrite (M_bind_run _ _ _ tt (Driver c s1)) by done.
  rewrite (M_bind_run _ _ _ 0 (Driver c s1)) by done.
  do 4 rewrite (M_bind_run _ _ _ tt (Driver c s1)) by done.
  rewrite (M_bind_run _ _ _ 0x138 (Driver c s1)) by done.
  rewrite (M_bind_run _ _ _ tt (Driver c s1)).
  2:{ apply bit_set_polling_reader; [|done]. cbn [hw hw_read reader_hw]. by rewrite decide_False by done. }
  rewrite (M_bind_run _ _ _ s1 (Driver c s1)) by done.
  rewrite (M_bind_run _ _ _ tt (Driver c (opened s))) by done.
  by rewrite (M_bind_run _ _ _ _ _ (readl_status c _ Hp)).
Qed.
(** ** Claims *)

(** C35: Every request the driver accepts is answered, whatever the hardware
    does: with a command of at most 256 bytes and room for three response bytes,
    the register polls are cut, no access leaves the driver's arrays, the result
    is zero or an error, and the buffers keep their shape for the next
    request. *)
Theorem ioctl_answers {C} `{UsimHw C} (c : sim_cmd) (u : user) (w : driver C) :
  in_range c → bufs_ok (sim w) →
  ∃ r out w', sim_ioctl c u w = Some ((r, out), w') ∧ r ≤ 0 ∧ bufs_ok (sim w').
Proof.
  intros Hc Hw. assert (Hh := sim_ioctl_on False c u Hc w Hw).
  destruct (sim_ioctl c u w) as [[[r out] w']|]; [|done]. destruct Hh as [Hr Hw'].
  by exists r, out, w'.
Qed.

(** C34: What the library relies on from the driver's transfer, over any hardware, with
    or without faults of the copies to and from user space, for a receive length that is
    an int. A transfer either stays within the driver's arrays: then it leaves the
    buffers in shape, returns 0 or an error, gives the caller no more bytes than asked
    for, all of them bytes, and exactly as many as asked for, between 2 and 256, when it
    returns 0. Or it leaves the arrays ([None]), which happens only for a command of
    more than 256 bytes or a receive length below 3, since these the driver does not
    refuse in time (findings gul_usim.c:745, 778 and 296). *)
Theorem driver_is_lawful {C} `{UsimHw C} (u : user) (cmd : list Z) (n : Z) (w : driver C) :
  bufs_ok (sim w) → -2147483648 ≤ n < 2147483648 →
  match xfer_ioctl u (Xfer cmd n SIM_XFER_TYPE_TPDU) w with
  | Some ((r, out), w') => bufs_ok (sim w') ∧ r ≤ 0 ∧ zlen out ≤ Z.max 0 n ∧ Forall is_byte out ∧
      (r = 0 → zlen out = n ∧ 2 ≤ n ≤ 256)
  | None => 256 < zlen cmd ∨ n < 3
  end.
Proof.
  intros Hw Hn. set (x := Xfer cmd n SIM_XFER_TYPE_TPDU).
  assert (Htrue := xfer_ioctl_on True u x (or_introl I) Hn w Hw).
  destruct (xfer_ioctl u x w) as [[[r out] w']|] eqn:E.
  - destruct Htrue as [(Hr & Hl & Hb & Hf) Hw']. by split_and!.
  - destruct (decide (zlen cmd ≤ 256)) as [Hc|Hc]; [|left; lia]. destruct (decide (3 ≤ n)) as [H3|H3]; [|right; lia].
    exfalso. assert (Hfalse := xfer_ioctl_on False u x (or_intror (conj Hc H3)) Hn w Hw). by rewrite E in Hfalse.
Qed.

(** *** The driver behind the library *)
Section Lawful.
Context {C F : Type} `{UsimHw C, Env F}.
Variable u : user.

(** The driver's structure with its buffers, beside the rest of the library's
    environment. *)
Definition dev : Type := {d : driver C | bufs_ok (sim d)} * F.
Local Abbreviation dev_reply := ({d : driver C | bufs_ok (sim d)} * Z * list Z)%type.

(** What a transfer the driver does not survive does, and what a length that is no
    [int] means: nothing is said of them but what [lawful_reply] asks. *)
Variable undefined : {d : driver C | bufs_ok (sim d)} → list Z → Z → dev_reply.

(** One request: [ioctl] returns -1 for a negative result of the handler. *)
Definition dev_xfer (d : {d : driver C | bufs_ok (sim d)}) (cmd : list Z) (n : Z) : dev_reply :=
  match decide (-2147483648 ≤ n < 2147483648) with
  | left Hn =>
      match xfer_ioctl u (Xfer cmd n SIM_XFER_TYPE_TPDU) (`d) as o return
        (match o with Some (_, w) => bufs_ok (sim w) | None => True end → _) with
      | Some ((r, out), w) => λ Hw, (w ↾ Hw, if decide (r < 0) then -1 else 0, out)
      | None => λ _, undefined d cmd n
      end (match xfer_ioctl u (Xfer cmd n SIM_XFER_TYPE_TPDU) (`d) as o return
        (match o with Some (a, w) => _ ∧ bufs_ok (sim w) | None => True end →
         match o with Some (_, w) => bufs_ok (sim w) | None => True end) with
        | Some (_, _) => λ Hw, proj2 Hw | None => λ _, I end
        (xfer_ioctl_on True u (Xfer cmd n SIM_XFER_TYPE_TPDU) (or_introl I) Hn (`d) (proj2_sig d)))
  | right _ => undefined d cmd n
  end.

Definition dev_env : Env dev := {|
  xfer := λ e cmd n, let '(d, r, out) := dev_xfer (fst e) cmd n in ((d, snd e), r, out);
  os_open := λ e p, let '(f, r) := os_open (snd e) p in ((fst e, f), r);
  os_lseek := λ e a b, let '(f, r) := os_lseek (snd e) a b in ((fst e, f), r);
  os_read := λ e a b, let '(f, r, out) := os_read (snd e) a b in ((fst e, f), r, out);
  os_close := λ e a, (fst e, os_close (snd e) a);
  malloc_null := λ e n, malloc_null (snd e) n |}.

Definition lawful_reply (n r : Z) (out : list Z) : Prop :=
  (r = 0 ∨ r = -1) ∧ zlen out ≤ Z.max 0 n ∧ Forall is_byte out ∧ (r = 0 → zlen out = n ∧ 2 ≤ n ≤ 256).

(** Every transfer the driver survives is lawful; those in range all are such. *)
Lemma dev_xfer_spec d cmd n d' r out : dev_xfer d cmd n = (d', r, out) →
  lawful_reply n r out ∨ (undefined d cmd n = (d', r, out) ∧ ¬ (zlen cmd ≤ 256 ∧ 3 ≤ n < 2147483648)).
Proof.
  unfold dev_xfer. destruct (decide _) as [Hn|Hn]; [|right; split; [done|lia]].
  assert (Hsafe : zlen cmd ≤ 256 ∧ 3 ≤ n < 2147483648 → xfer_ioctl u (Xfer cmd n SIM_XFER_TYPE_TPDU) (`d) ≠ None).
  { intros [Hc H3] E. assert (Hf := xfer_ioctl_on False u (Xfer cmd n SIM_XFER_TYPE_TPDU)
      (or_intror (conj Hc (proj1 H3))) Hn (`d) (proj2_sig d)). by rewrite E in Hf. }
  revert Hsafe.
  generalize (xfer_ioctl_on True u (Xfer cmd n SIM_XFER_TYPE_TPDU) (or_introl I) Hn (`d) (proj2_sig d)).
  cbn [x_rcv_length]. destruct (xfer_ioctl _ _ _) as [[[r0 out0] w]|].
  - intros [(Hr & Hl & Hb & Hf) Hw] _. intros [= _ <- <-]. left. unfold lawful_reply. cbn [fst snd] in *.
    case_decide; split_and!; [by right|done|done|done|by left|done|done|]. intros _. apply Hf. lia.
  - intros _ Hsafe Hu. right. split; [done|]. intros Hr. by apply Hsafe.
Qed.

(** With undefined transfers that happen to be lawful, the driver is an instance of the
    interface the library is proved against. *)
Lemma dev_env_lawful : (∀ d cmd n d' r out, undefined d cmd n = (d', r, out) → lawful_reply n r out) →
  @UsimDev dev dev_env.
Proof.
  intros Hund.
  assert (Hlaw : ∀ e cmd n e' r out, xfer (Env := dev_env) e cmd n = (e', r, out) → lawful_reply n r out).
  { cbn [xfer dev_env]. intros [d f] cmd n e' r out. cbn [fst snd].
    destruct (dev_xfer d cmd n) as [[d' r'] out'] eqn:Hx. intros Heq. injection Heq as _ <- <-.
    destruct (dev_xfer_spec _ _ _ _ _ _ Hx) as [|[Hu _]]; [done|by eapply Hund]. }
  split.
  - intros e cmd n e' r out (Hr & Hl & Hb & _)%Hlaw. by split.
  - by intros e cmd n e' r out (Hr & _)%Hlaw.
  - intros e cmd n e' out (_ & _ & _ & Hf)%Hlaw. specialize (Hf eq_refl). lia.
Qed.
End Lawful.

(** The reply reaches the caller: with a card in the reader that answers a
    command with [reply], the request for its length sends exactly the command
    (a SELECT in two parts, around the card's acknowledgement), succeeds, and
    returns the bytes of the card, whatever the driver's buffer held, as long as no other
    byte of the reply looks like an acknowledgement ([answers]). *)
Theorem xfer_reply (cmd reply more : list Z) (c : reader) (s : sim_t) :
  card_here s = true → bufs_ok s → answers c cmd reply more → Forall is_byte cmd →
  5 ≤ zlen cmd ≤ 256 → 3 ≤ zlen reply ≤ 256 →
  ∃ s', sim_ioctl (SIM_IOCTL_XFER (Xfer cmd (zlen reply) SIM_XFER_TYPE_TPDU)) no_faults (Driver c s) =
    Some ((SIM_OK, reply), Driver (answered c cmd reply) s') ∧ card_here s' = true ∧ bufs_ok s'.
Proof.
  intros Hc Hs Ha Hcmd Hlen Hr. assert (Hs' := Hs). destruct Hs' as [(old & Ho & Hold & _) _].
  destruct (xfer_ioctl_answer cmd reply more old (zlen reply) c s) as (s' & Hrun & Hc');
    try done; try lia.
  assert (Hok := xfer_ioctl_on False no_faults (Xfer cmd (zlen reply) SIM_XFER_TYPE_TPDU)
    (or_intror (conj (proj2 Hlen) (proj1 Hr))) ltac:(cbn; lia) (Driver c s) Hs).
  rewrite Hrun in Hok. exists s'. split; [|split; [done|apply Hok]].
  unfold sim_ioctl. rewrite (M_bind_run _ _ _ s (Driver c s)) by done. rewrite Hrun.
  rewrite decide_False by lia. unfold zlen at 1. by rewrite Nat2Z.id, take_app_length.
Qed.

(** A short reply: when the card stops early the request fails with
    -SIM_E_NOCARD if two bytes or more are missing; but one missing byte is not
    noticed, and the request succeeds with an old byte of the buffer at the
    end. *)
Theorem xfer_short_reply (cmd reply old : list Z) (n : Z) (c : reader) (s : sim_t) :
  card_here s = true → bufs_ok s → rcv_buffer s = init old → answers c cmd reply [] →
  Forall is_byte cmd → 5 ≤ zlen cmd ≤ 256 → 2 ≤ zlen reply < n → n ≤ 256 →
  ∃ s' out, sim_ioctl (SIM_IOCTL_XFER (Xfer cmd n SIM_XFER_TYPE_TPDU)) no_faults (Driver c s) =
    Some ((if decide (zlen reply = n - 1) then SIM_OK else - SIM_E_NOCARD, out),
          Driver (answered c cmd reply) s') ∧
    out = take (Z.to_nat n) (reply ++ drop (length reply) old).
Proof.
  intros Hc Hs Ho Ha Hcmd Hlen Hr Hn.
  destruct (xfer_ioctl_answer cmd reply [] old n c s) as (s' & Hrun & _); try done; try lia; [right; split; [lia|done]|].
  eexists s', _. split; [|done].
  unfold sim_ioctl. rewrite (M_bind_run _ _ _ s (Driver c s)) by done. rewrite Hrun.
  repeat case_decide; done || lia.
Qed.

(** The answer to reset: opening the device stores a card's answer of at
    most 30 bytes in the driver's structure, whole and in order; a longer one is
    written past the end of the local array, although the structure's own
    array is guarded. *)
Theorem open_stores_atr (c : reader) (s : sim_t) :
  zlen (atr_t s) = SIM_ATR_LENGTH_MAX → pending c ≠ [] → Forall is_byte (pending c) →
  match sim_open (Driver c s) with
  | Some (r, w) => zlen (pending c) ≤ 30 ∧ r = SIM_OK ∧ present (sim w) = SIM_PRESENT_OPERATIONAL ∧
      atr_size (sim w) = zlen (pending c) ∧
      rd_bytes (atr_t (sim w)) 0 (atr_size (sim w)) = Some (pending c)
  | None => 30 < zlen (pending c)
  end.
Proof.
  intros Ht Hp Hb. unfold sim_open. rewrite M_bind_eq, (sim_init_reader c s Hp).
  unfold SIM_ATR_LENGTH_MAX in Ht. destruct (decide (zlen (pending c) ≤ 30)) as [H30|H30].
  - set (l := pending c) in *.
    destruct (atr_loop_reader l 31 [] (take (length l) (atr_t s)) (drop (length l) (atr_t s))
      (undef 30) c (opened s)) as (c' & Hrun); try done.
    + unfold zlen in *. lia.
    + cbn [opened atr_t]. change (init []) with (@nil (option Z)). cbn [app]. by rewrite take_drop.
    + rewrite length_take. unfold zlen in *. lia.
    + change (zlen []) with 0 in Hrun. rewrite Hrun. cbn [app] in *.
      cbn iota beta. rewrite !M_bind_eq. cbn [on_sim modify sim set_status set_present set_atr
        present atr_size atr_t hw mret M_ret]. split_and!; try done. apply rd_bytes_prefix.
  - assert (Hrun := atr_loop_overflow 31 [] (atr_t s) (undef 30) c (opened s)).
    change (zlen []) with 0 in Hrun. rewrite Hrun; try done; [lia|unfold zlen in *; lia].
Qed.

(** A warm reset loses the card: with a card in the reader the request
    returns -SIM_E_POWERED_OFF, and every transfer after it is refused for want of
    a card, whatever the hardware. *)
Theorem warm_reset_loses_card {C} `{UsimHw C} (u : user) (w : driver C) :
  present (sim w) ≠ SIM_PRESENT_REMOVED →
  ∃ w', sim_ioctl SIM_IOCTL_WARM_RESET u w = Some ((- SIM_E_POWERED_OFF, []), w') ∧
  ∀ u' x, sim_ioctl (SIM_IOCTL_XFER x) u' w' = Some ((- SIM_E_NOCARD, []), w').
Proof.
  intros Hp. unfold sim_ioctl at 1. rewrite M_bind_eq. cbn [the_sim gets].
  unfold sim_warm_reset. rewrite !M_bind_eq. cbn [the_sim gets]. rewrite decide_True by done.
  unfold set_bits, clear_bits, readl, writel, msleep, sim_data_reset, on_sim, modify.
  repeat (rewrite !M_bind_eq || match goal with |- context [hw_read ?c ?r] =>
    destruct (hw_read c r) end || cbn [hw sim]).
  cbn [the_sim gets power]. eexists. split; [reflexivity|]. intros u' x. reflexivity.
Qed.

(** ** Witnesses: a card that knows two commands *)

(** READ BINARY of two bytes, SELECT of 3F00. *)
Definition demo_read : list Z := [0x00; 0xB0; 0x00; 0x00; 0x02].
Definition demo_select : list Z := [0x00; 0xA4; 0x00; 0x04; 0x02; 0x3F; 0x00].
Definition demo_card (l : list Z) : list Z :=
  if decide (take 2 l = [0x00; 0xA4])
  then if decide (length l = 7%nat) then [0xA4; 0x61; 0x1C] else if decide (length l = 5%nat) then [0xA4] else []
  else if decide (length l = 5%nat) then [0xB0; 0x12; 0x34; 0x90; 0x00] else [].
Definition demo_reader : reader := Reader demo_card [] 0.
Definition demo_sim : sim_t :=
  SimT SIM_PRESENT_OPERATIONAL SIM_STATE_DETECTED_ATR_T0 USIM_STATE_CONNECTED SIM_POWER_ON 0x1F 0
    (zeros SIM_ATR_LENGTH_MAX) (zeros SIM_RCV_BUFFER_SIZE) (zeros SIM_XMT_BUFFER_SIZE).
Definition demo_atr : list Z := [0x3B; 0x9F; 0x96; 0x80].

Lemma demo_sim_ok : bufs_ok demo_sim.
Proof. split; cbn [demo_sim rcv_buffer xmt_buffer]; by apply zeros_ok. Qed.

Example demo_read_runs :
  fst <$> sim_ioctl (SIM_IOCTL_XFER (Xfer demo_read 5 0)) no_faults (Driver demo_reader demo_sim) =
  Some (0, [0xB0; 0x12; 0x34; 0x90; 0x00]).
Proof. vm_compute. reflexivity. Qed.

Ltac bytes := repeat (apply Forall_cons; split; [unfold is_byte; lia|]); apply Forall_nil; exact I.

Lemma ioctl_answers_witness :
  ∃ r out w', sim_ioctl (SIM_IOCTL_XFER (Xfer demo_read 5 0)) no_faults (Driver demo_reader demo_sim) =
    Some ((r, out), w') ∧ r ≤ 0 ∧ bufs_ok (sim w').
Proof.
  apply (ioctl_answers (SIM_IOCTL_XFER (Xfer demo_read 5 0)) no_faults (Driver demo_reader demo_sim)).
  - split; [vm_compute; discriminate|split; vm_compute; [discriminate|reflexivity]].
  - exact demo_sim_ok.
Defined.

Lemma driver_is_lawful_witness :
  match xfer_ioctl no_faults (Xfer demo_read 5 0) (Driver demo_reader demo_sim) with
  | Some ((r, out), w') => bufs_ok (sim w') ∧ r ≤ 0 ∧ zlen out ≤ 5 ∧ Forall is_byte out ∧ (r = 0 → zlen out = 5 ∧ 2 ≤ 5 ≤ 256)
  | None => 256 < 5 ∨ 5 < 3
  end.
Proof.
  apply (driver_is_lawful no_faults demo_read 5 (Driver demo_reader demo_sim)).
  - exact demo_sim_ok.
  - split; vm_compute; [discriminate|reflexivity].
Defined.

Lemma xfer_reply_witness :
  ∃ s', sim_ioctl (SIM_IOCTL_XFER (Xfer demo_select 3 0)) no_faults (Driver demo_reader demo_sim) =
    Some ((0, [0xA4; 0x61; 0x1C]), Driver (answered demo_reader demo_select [0xA4; 0x61; 0x1C]) s') ∧
    card_here s' = true ∧ bufs_ok s'.
Proof.
  apply (xfer_reply demo_select [0xA4; 0x61; 0x1C] [] demo_reader demo_sim).
  - reflexivity.
  - exact demo_sim_ok.
  - split; [reflexivity|split; [bytes|]]. cbn. split; [reflexivity|split; [reflexivity|]].
    repeat (apply Forall_cons; split; [discriminate|]); apply Forall_nil; exact I.
  - bytes.
  - split; vm_compute; discriminate.
  - split; vm_compute; discriminate.
Defined.

Lemma xfer_short_reply_witness :
  ∃ s' out, sim_ioctl (SIM_IOCTL_XFER (Xfer demo_read 6 0)) no_faults (Driver demo_reader demo_sim) =
    Some ((0, out), Driver (answered demo_reader demo_read [0xB0; 0x12; 0x34; 0x90; 0x00]) s') ∧
    out = [0xB0; 0x12; 0x34; 0x90; 0x00; 0x00].
Proof.
  apply (xfer_short_reply demo_read [0xB0; 0x12; 0x34; 0x90; 0x00] (replicate 256 0) 6 demo_reader demo_sim).
  - reflexivity.
  - exact demo_sim_ok.
  - reflexivity.
  - split; [reflexivity|split; [bytes|]]. cbn.
    repeat (apply Forall_cons; split; [discriminate|]); apply Forall_nil; exact I.
  - bytes.
  - split; vm_compute; discriminate.
  - split; vm_compute; [discriminate|reflexivity].
  - vm_compute; discriminate.
Defined.

Lemma open_stores_atr_witness :
  match sim_open (Driver (Reader (λ _, demo_atr) [] 0) demo_sim) with
  | Some (r, w) => 4 ≤ 30 ∧ r = SIM_OK ∧ present (sim w) = SIM_PRESENT_OPERATIONAL ∧
      atr_size (sim w) = 4 ∧ rd_bytes (atr_t (sim w)) 0 (atr_size (sim w)) = Some demo_atr
  | None => 30 < 4
  end.
Proof.
  apply (open_stores_atr (Reader (λ _, demo_atr) [] 0) demo_sim).
  - reflexivity.
  - discriminate.
  - bytes.
Defined.

Lemma warm_reset_loses_card_witness :
  ∃ w', sim_ioctl SIM_IOCTL_WARM_RESET no_faults (Driver demo_reader demo_sim) =
    Some ((- SIM_E_POWERED_OFF, []), w') ∧
  ∀ u' x, sim_ioctl (SIM_IOCTL_XFER x) u' w' = Some ((- SIM_E_NOCARD, []), w').
Proof. apply (warm_reset_loses_card no_faults (Driver demo_reader demo_sim)). discriminate. Defined.
