(* ===== verification/UsimEvent.v ===== *)
(** * Card detection and registration
      (lib/usim_library/usim_event.c, usim_ioctl.c, the session calls of usim_lib.c)

    The library maps the registers of the reader through /dev/mem and works
    them from user space: it activates the card and reads away its answer to
    reset, polls the presence switch, and tells a changed card from the same
    card by its ICCID.  [SessEnv] is the rest of the system: the mapped
    registers, the driver's remaining ioctls, [mmap] and [munmap]. *)
From S2P Require Import Prelude UsimApdu UsimLib.
From stdpp Require Import strings.
#[global] Open Scope Z_scope.

(** [struct usim_regs_map], in the order of the structure. *)
Inductive usim_reg :=
  | usim_port1_cntl | usim_setup | usim_port1_detect | usim_xmt_buff | usim_rcv_buff
  | usim_port0_cntl | usim_cntl | usim_clk_prescaler | usim_rcv_threshold | usim_enable
  | usim_xmt_status | usim_rcv_status | usim_int_mask | usim_reserved1 | usim_reserved2
  | usim_port0_detect | usim_data_format | usim_xmt_threshold | usim_guard_cntl
  | usim_od_config | usim_reset_cntl | usim_char_wait | usim_gpcnt | usim_divisor
  | usim_bwt | usim_bgt | usim_bwt_h | usim_xmt_fifo_stat | usim_rcv_fifo_cnt
  | usim_rcv_fifo_wptr | usim_rcv_fifo_rptr.
#[export] Instance usim_reg_eq : EqDecision usim_reg.
Proof. solve_decision. Defined.

Definition SIM_PORT_DETECT_SPDS : Z := 8.
Definition SIM_PORT_DETECT_SPDP : Z := 4.
Definition SIM_PORT_DETECT_SDI : Z := 2.
Definition SIM_PORT_DETECT_SDIM : Z := 1.
Definition MAP_SIZE : Z := 4096.
Definition MAP_MASK : Z := MAP_SIZE - 1.
Definition USIM_STATE_CONNECTED : Z := 0.
Definition USIM_STATE_DISCONNECTED : Z := 1.
Definition USIM_STATE_CHANGED : Z := 3.
Definition USIM_ICCID_FILEID : Z := 0x2FE2.
Definition USIM_MF_FILEID : Z := 0x3F00.
Definition GSM_DF_GSM : Z := 0x7f20.
Definition USIM_SPI_IMEISV_ADD : Z := 0x3E00004.

Class SessEnv (E : Type) `{Env E} := {
  mmio_rd : E → usim_reg → E * Z;
  mmio_wr : E → usim_reg → Z → E;
  (** The ioctls with an out-parameter: the result and what is stored, if anything. *)
  ioctl_phy_add : E → Z → E * Z * option Z;
  ioctl_status : E → Z → E * Z * option Z;
  ioctl_invalidate : E → Z → E * Z;
  ioctl_power : E → Z → bool → E * Z;
  (** The mapping of one page of the descriptor at an offset; [None] is MAP_FAILED. *)
  os_mmap : E → Z → Z → E * option Z;
  os_munmap : E → option Z → E * Z;
}.

(** [event_handle_t] without [state_cur], which [vtq] has; [usim_regs] is the
    mapped page itself. *)
Record event_handle_t := EventHandle {
  usim_ccsr_map : option Z; usim_ccsr_phy : Z; state : Z;
  iccid_old : buffer; iccid_len_old : Z; iccid_new : buffer; iccid_len_new : Z }.
Definition event_handle_0 : event_handle_t :=
  EventHandle (Some 0) 0 0 (zeros 22) 0 (zeros 22) 0.

(** The library, the event handle, the descriptors, and [debug]; for the
    statements only, the values written to the port control register. *)
Record sess (E : Type) := Sess {
  vt : vtq E; handle : event_handle_t; usim_fd : Z; mem_fd : Z; debug : Z; port_log : list Z }.
Arguments Sess {E}. Arguments vt {E}. Arguments handle {E}. Arguments usim_fd {E}.
Arguments mem_fd {E}. Arguments debug {E}. Arguments port_log {E}.

Section Session.
Context {E : Type} `{SessEnv E}.
Local Abbreviation S := (M (sess E)).

Definition with_vt (v : vtq E) (w : sess E) : sess E :=
  Sess v (handle w) (usim_fd w) (mem_fd w) (debug w) (port_log w).
Definition with_handle (h : event_handle_t) (w : sess E) : sess E :=
  Sess (vt w) h (usim_fd w) (mem_fd w) (debug w) (port_log w).
Definition with_fds (u m : Z) (w : sess E) : sess E :=
  Sess (vt w) (handle w) u m (debug w) (port_log w).
Definition the_env (w : sess E) : E := env (core (vt w)).
Definition with_the_env (e : E) (w : sess E) : sess E :=
  with_vt (with_core (with_env e (core (vt w))) (vt w)) w.

Definition on_lib {A} (m : M (vtq E) A) : S A := λ w,
  match m (vt w) with Some (a, v) => Some (a, with_vt v w) | None => None end.
Definition sys {A} (f : E → E * A) : S A := λ w,
  let '(e, a) := f (the_env w) in Some (a, with_the_env e w).

(** The host is little-endian: [MOD_LE] swaps nothing. *)
Definition iord32 (r : usim_reg) : S Z := sys (λ e, let '(e, v) := mmio_rd e r in (e, u32 v)).
Definition iowr32 (v : Z) (r : usim_reg) : S unit := λ w,
  Some (tt, let w := with_the_env (mmio_wr (the_env w) r (u32 v)) w in
    Sess (vt w) (handle w) (usim_fd w) (mem_fd w) (debug w)
      (port_log w ++ if decide (r = usim_port0_cntl) then [u32 v] else [])).

(** ** usim_event.c *)
Definition set_handle (f : event_handle_t → event_handle_t) : S unit :=
  modify (λ w, with_handle (f (handle w)) w).
Definition get_state_cur : S Z := gets (λ w, state_cur (vt w)).
Definition set_state_cur (s : Z) : S unit := modify (λ w, with_vt (with_state_cur s (vt w)) w).

Definition usim_card_detect : S Z :=
  cur ← get_state_cur;
  _ ← set_handle (λ h, EventHandle (usim_ccsr_map h) (usim_ccsr_phy h) cur (iccid_old h)
                         (iccid_len_old h) (iccid_new h) (iccid_len_new h));
  d ← iord32 usim_port0_detect;
  _ ← (if decide (Z.land d SIM_PORT_DETECT_SPDP ≠ 0) then
         port_status ← iord32 usim_port0_detect;
         _ ← iowr32 (Z.ldiff port_status SIM_PORT_DETECT_SPDS) usim_port0_detect;
         set_state_cur USIM_STATE_DISCONNECTED
       else
         port_status ← iord32 usim_port0_detect;
         _ ← iowr32 (Z.lor port_status SIM_PORT_DETECT_SPDS) usim_port0_detect;
         set_state_cur USIM_STATE_CONNECTED);
  port_status ← iord32 usim_port0_detect;
  _ ← iowr32 (Z.ldiff (Z.lor port_status SIM_PORT_DETECT_SDI) SIM_PORT_DETECT_SDIM) usim_port0_detect;
  mret 0.

Definition delay_clk (cycles : Z) : S unit :=
  cntl_val ← iord32 usim_cntl;
  _ ← iowr32 (Z.land cntl_val 0xf9ff) usim_cntl;
  _ ← iord32 usim_xmt_status;
  _ ← iowr32 0x100 usim_xmt_status;
  _ ← iowr32 cycles usim_gpcnt;
  cntl_val ← iord32 usim_cntl;
  iowr32 (Z.lor cntl_val 0x200) usim_cntl.

(** One turn of the loop on [value_at_addr] and [i]: the new value is read
    before the count is looked at. *)
Definition bit_step (r : usim_reg) (req_value : Z) (s : Z * Z) : S (Z * Z + bool) :=
  let '(value_at_addr, i) := s in
  if decide (Z.land value_at_addr req_value = req_value) then mret (inr true) else
  v ← iord32 r;
  if decide (i = 20000000) then mret (inr false) else mret (inl (v, i + 1)).
(** Every caller starts the count at 0; the result says whether the bits came,
    which the callers are not told. *)
Definition bit_set_polling (r : usim_reg) (req_value : Z) : S (option bool) :=
  v ← iord32 r;
  res ← until (bit_step r req_value) 20000001 (v, 0);
  mret (match res with inr b => Some b | inl _ => None end).

Definition clear_gpcnt_counter : S unit :=
  c ← iord32 usim_cntl;
  _ ← iowr32 (Z.land c 0xf9ff) usim_cntl;
  iowr32 0x100 usim_xmt_status.

Definition wait_for_tc : S unit :=
  _ ← bit_set_polling usim_xmt_status 0x38;
  iowr32 0x38 usim_xmt_status.

(** The inner loop of the reading of the ATR, on [value] and [i]. *)
Definition next_step (s : Z * Z) : S (Z * Z + Z) :=
  let '(value, i) := s in
  if decide (Z.land value 0x10 = 0x10) then mret (inr i) else
  if decide (i = 1000000) then mret (inr i) else
  v ← iord32 usim_rcv_status;
  mret (inl (v, i + 1)).
(** [Some true]: another byte is there; [Some false]: the count ran out, even
    if the last look found a byte. *)
Definition next_byte : S (option bool) :=
  v ← iord32 usim_rcv_status;
  res ← until next_step 1000001 (v, 0);
  mret (match res with inr i => Some (negb (bool_decide (i = 1000000))) | inl _ => None end).
(** The outer loop has no bound of its own: [fuel] is on the bytes of the ATR,
    and running out of it is [None]. *)
Fixpoint atr_loop (fuel : nat) : S unit :=
  match fuel with
  | O => lift None
  | Datatypes.S fuel =>
      _ ← iord32 usim_rcv_buff;
      more ← next_byte;
      match more with
      | Some true => atr_loop fuel
      | Some false => mret tt
      | None => lift None
      end
  end.

Definition atr_us (fuel : nat) : S unit :=
  _ ← usim_card_detect;
  _ ← iowr32 0x40 usim_port0_cntl;
  _ ← iowr32 0x42 usim_port0_cntl;
  _ ← iowr32 0x1 usim_od_config;
  _ ← iowr32 0x1F usim_clk_prescaler;
  _ ← iowr32 0x46 usim_port0_cntl;
  _ ← iowr32 0xfe usim_guard_cntl;
  _ ← iowr32 0x16 usim_cntl;
  _ ← iowr32 0x3 usim_xmt_threshold;
  _ ← iowr32 0xf23 usim_rcv_status;
  _ ← iowr32 0x56 usim_port0_cntl;
  _ ← delay_clk 0x190;
  _ ← bit_set_polling usim_xmt_status 0x100;
  _ ← clear_gpcnt_counter;
  _ ← iowr32 0x5e usim_port0_cntl;
  _ ← delay_clk 0x9c40;
  m ← iord32 usim_int_mask;
  _ ← iowr32 (Z.land m 0x3dff) usim_int_mask;
  _ ← iowr32 0x2580 usim_char_wait;
  c ← iord32 usim_cntl;
  _ ← iowr32 (Z.lor c 0x800) usim_cntl;
  _ ← iowr32 0x01 usim_enable;
  _ ← iord32 usim_xmt_status;
  _ ← bit_set_polling usim_rcv_status 0x10;
  value ← iord32 usim_rcv_status;
  if decide (Z.land value 0x10 = 0x10) then atr_loop fuel else mret tt.

(** [memcmp(a, b, n) != 0]. *)
Definition memcmp_ne (a b : buffer) (n : Z) : option bool :=
  x ← rd_bytes a 0 n; y ← rd_bytes b 0 n; Some (bool_decide (x ≠ y)).

(** The ICCID of the card that is there, against the one before it. *)
Definition check_iccid : S unit :=
  h ← gets handle;
  old ← lift (memcpy (iccid_old h) 0 (iccid_new h) 0 (iccid_len_new h));
  _ ← set_handle (λ h, EventHandle (usim_ccsr_map h) (usim_ccsr_phy h) (state h) old
                         (iccid_len_new h) (iccid_new h) (iccid_len_new h));
  '(ret, len, new) ← on_lib (on_core (usim_read_transparent USIM_ICCID_FILEID 10 (iccid_new h) USIM_MF_FILEID));
  _ ← set_handle (λ h, EventHandle (usim_ccsr_map h) (usim_ccsr_phy h) (state h) (iccid_old h)
                         (iccid_len_old h) new
                         (if decide (ret = 0) then u8 len else iccid_len_new h));
  if decide (ret = 0) then
    ne ← lift (memcmp_ne old new (u8 len));
    if (ne : bool) then set_state_cur USIM_STATE_CHANGED else mret tt
  else mret tt.

Definition vtq_usim_get_status : S Z :=
  ret ← usim_card_detect;
  if decide (ret ≠ 0) then mret (-1) else
  cur ← get_state_cur;
  _ ← (if decide (cur ≠ USIM_STATE_DISCONNECTED) then check_iccid else mret tt);
  get_state_cur.

(** ** usim_ioctl.c and the session calls of usim_lib.c *)
Definition usim_poweron : S Z := fd ← gets usim_fd; sys (λ e, ioctl_power e fd true).
Definition usim_poweroff : S Z := fd ← gets usim_fd; sys (λ e, ioctl_power e fd false).

Definition vtq_usim_debug_set (enable : Z) : S unit :=
  modify (λ w, Sess (vt w) (handle w) (usim_fd w) (mem_fd w) enable (port_log w)).

Definition close_fd (fd : Z) : S unit := sys (λ e, (os_close e fd, tt)).

(** The selection at the end of the registration, and the descriptor it closes
    when it fails. *)
Definition select_or_close (select : M (lib E) Z) : S Z :=
  ret ← on_lib (on_core select);
  if decide (ret < 0) then
    fd ← gets usim_fd; _ ← close_fd fd; mret (-1)
  else mret 0.

Definition set_sim (sim_type : Z) : S unit :=
  modify (λ w, let l := core (vt w) in
    let l := Lib (Sim sim_type (if decide (sim_type = 0) then GSM_DF_GSM else 0)) (aid l) (aid_len l)
               (env l) (wire l) in
    with_vt (Vtq l (tabs (vt w)) USIM_SPI_IMEISV_ADD (state_cur (vt w))) w).

(** [sim_type] is an [int] stored in a field the code compares with 0 and 1. *)
Definition vtq_usim_register (fuel : nat) (sim_type : Z) : S Z :=
  fd ← sys (λ e, os_open e "/dev/usimdev0"%string);
  _ ← modify (λ w, with_fds fd (mem_fd w) w);
  if decide (fd < 0) then mret (-1) else
  _ ← set_sim sim_type;
  mfd ← sys (λ e, os_open e "/dev/mem"%string);
  _ ← modify (λ w, with_fds (usim_fd w) mfd w);
  if decide (mfd = -1) then mret (-1) else
  '(ret, phy) ← sys (λ e, let '(e, r, o) := ioctl_phy_add e fd in (e, (r, o)));
  _ ← set_handle (λ h, EventHandle (usim_ccsr_map h) (from_option u64 (usim_ccsr_phy h) phy) (state h)
                         (iccid_old h) (iccid_len_old h) (iccid_new h) (iccid_len_new h));
  if decide (ret ≠ 0) then mret (-1) else
  phy ← gets (λ w, usim_ccsr_phy (handle w));
  map ← sys (λ e, os_mmap e mfd (Z.ldiff phy MAP_MASK));
  _ ← set_handle (λ h, EventHandle map (usim_ccsr_phy h) (state h)
                         (iccid_old h) (iccid_len_old h) (iccid_new h) (iccid_len_new h));
  if decide (map = None) then mret (-1) else
  _ ← atr_us fuel;
  if decide (sim_type = GSM_SIM_TYPE) then select_or_close usim_select_gsm
  else if decide (sim_type = USIM_TYPE) then select_or_close usim_select_aid
  else mret 0.

Definition vtq_usim_deregister : S Z :=
  fd ← gets usim_fd;
  _ ← close_fd fd;
  mfd ← gets mem_fd;
  _ ← close_fd mfd;
  map ← gets (λ w, usim_ccsr_map (handle w));
  r ← sys (λ e, os_munmap e map);
  mret (if decide (r = -1) then -1 else 0).

Definition vtq_usim_get_cur_status : S Z :=
  status ← vtq_usim_get_status;
  mret (if decide (status < 0) then -1 else status).

(** [status] is indeterminate when the driver stores nothing. *)
Definition vtq_usim_check_status : S Z :=
  fd ← gets usim_fd;
  '(ret, status) ← sys (λ e, let '(e, r, o) := ioctl_status e fd in (e, (r, o)));
  if decide (ret ≠ 0) then mret (-1) else lift status.

Definition vtq_usim_invalidate : S Z :=
  fd ← gets usim_fd;
  ret ← sys (λ e, ioctl_invalidate e fd);
  mret (if decide (ret ≠ 0) then -1 else 0).

End Session.
