(* ===== verification/UsimEventCorrect.v ===== *)
(** * Card detection and registration: theorems

    What a poll reports is a refinement of the comparison of ICCIDs; the
    activation of the card comes to an end and drives the port through one
    sequence. *)
From S2P Require Import Prelude UsimApdu UsimApduSpec UsimScript UsimFcp UsimFiles UsimLib UsimEvent.
From stdpp Require Import strings.
#[global] Open Scope Z_scope.

(** ** The specification of a poll *)

(** What is in the slot: nothing; a card whose ICCID cannot be read; a card. *)
Inductive slot := Absent | Unread | Iccid (id : list Z).

(** The state reported and the ICCID remembered; ten zeros before the first card. *)
Definition poll_spec (prev : list Z) (s : slot) : Z * list Z :=
  match s with
  | Absent => (USIM_STATE_DISCONNECTED, prev)
  | Unread => (USIM_STATE_CONNECTED, prev)
  | Iccid id => (if decide (id = prev) then USIM_STATE_CONNECTED else USIM_STATE_CHANGED, id)
  end.

(** The handle remembers [prev]. *)
Definition known (h : event_handle_t) (prev : list Z) : Prop :=
  zlen prev = 10 ∧ zlen (iccid_old h) = 22 ∧ zlen (iccid_new h) = 22 ∧
  ((iccid_len_new h = 10 ∧ ∃ b, iccid_new h = init prev ++ b) ∨
   (iccid_len_new h = 0 ∧ prev = replicate 10 0 ∧ ∃ b, iccid_old h = init prev ++ b)).

Lemma known_0 : known event_handle_0 (replicate 10 0).
Proof. repeat split. right. repeat split. by exists (zeros 12). Qed.

(** ** Helpers *)
Section Helpers.
Context {E : Type} `{SessEnv E}.

Lemma init_inj l k : init l = init k → l = k.
Proof. revert k. induction l as [|x l IH]; intros [|y k] [=]; [done|]. f_equal; [done|by apply IH]. Qed.

Lemma memcmp_init x y a b : length x = length y →
  memcmp_ne (init x ++ a) (init y ++ b) (zlen x) = Some (bool_decide (x ≠ y)).
Proof.
  intros Hl. unfold memcmp_ne. rewrite rd_bytes_prefix. cbn.
  assert (zlen x = zlen y) as -> by (unfold zlen; by rewrite Hl). by rewrite rd_bytes_prefix.
Qed.

Lemma memcpy_front dst c b n : zlen c = n → n ≤ zlen dst →
  memcpy dst 0 (c ++ b) 0 n = Some (c ++ drop (length c) dst).
Proof.
  intros Hc Hd. unfold memcpy. assert (sub (c ++ b) 0 n = Some c) as -> by by apply (sub_exact []).
  cbn [mbind option_bind]. apply blit_0. lia.
Qed.

Lemma hoare_and {W A} ub (φ : Prop) P (m : M W A) Q :
  (φ → hoare ub P m Q) → hoare ub (λ w, P w ∧ φ) m Q.
Proof. intros Hm w [Hw Hφ]. by apply Hm. Qed.

(** Whatever comes first, when only what follows matters. *)
Lemma hoare_after {W A B} (m : M W A) (k : A → M W B) Q :
  (∀ a, hoare True (λ _, True) (k a) Q) → hoare True (λ _, True) (m ≫= k) Q.
Proof.
  intros Hk. apply (hoare_bind _ (λ _ _, True)); [|exact Hk].
  intros w _. by destruct (m w) as [[??]|].
Qed.

(** A failed read leaves the caller's block alone. *)
Lemma read_data_keeps l buf : hoare True (λ _ : lib E, True) (read_transparent_data l buf)
  (λ r _, r.1 = Fall ∨ r.2 = buf).
Proof.
  unfold read_transparent_data.
  repeat (apply hoare_after; intros ?; repeat case_match; try (intros ? _; by right)).
  intros ? _. by left.
Qed.

Lemma read_body_keeps n buf resp : hoare True (λ _ : lib E, True) (read_transparent_body n buf resp)
  (λ r _, r.1.1 = Fall ∨ r.2 = buf).
Proof.
  unfold read_transparent_body. apply hoare_after. intros [[| |] fcp]; [|intros ? _; by right..].
  apply hoare_after. intros [[| |] l]; [|intros ? _; by right..].
  eapply hoare_bind; [apply read_data_keeps|]. intros [x b0] ? Hx. exact Hx.
Qed.

Lemma conclude_keeps x back resp (l : Z) (b buf : buffer) : x = Fall ∨ b = buf →
  hoare True (λ _ : lib E, True) (r ← conclude x back resp; mret (r, l, b))
    (λ r _, r.1.1 = 0 ∨ r.2 = buf).
Proof.
  intros [-> | ->] w0 _; rewrite M_bind_eq.
  - cbn [conclude]. rewrite M_bind_eq. destruct (go_back _ _ _) as [[??]|]; [by left|done].
  - destruct (conclude _ _ _ _) as [[??]|]; [by right|done].
Qed.

Lemma read_transparent_keeps f n buf d w r len b w' :
  usim_read_transparent f n buf d w = Some ((r, len, b), w') → r ≠ 0 → b = buf.
Proof.
  intros Hr Hne.
  assert (Ha : hoare True (λ _ : lib E, True) (usim_read_transparent f n buf d)
    (λ r _, r.1.1 = 0 ∨ r.2 = buf)).
  { unfold usim_read_transparent. apply hoare_after. intros [[x resp] back].
    destruct x; [|apply conclude_keeps; by right..].
    apply hoare_after. intros [x resp']. apply (hoare_bind _ (λ r _, r.1.1 = Fall ∨ r.2 = buf)).
    - destruct x; [apply read_body_keeps|intros ? _; by right..].
    - intros [[y l] b0] w0 Hy. by apply (conclude_keeps y back resp' l b0 buf Hy). }
  specialize (Ha w I). rewrite Hr in Ha. destruct Ha as [Ha|Ha]; [done|exact Ha].
Qed.

#[local] Ltac steps :=
  cbv [mbind M_bind get_state_cur gets modify set_handle iord32 iowr32 sys set_state_cur with_the_env the_env];
  cbn -[u32 Z.land Z.lor Z.ldiff].
#[local] Ltac readings :=
  match goal with |- context [mmio_rd ?e ?r] => destruct (mmio_rd e r) as [? ?]; steps end.

(** [usim_card_detect]: the first reading of the switch decides. *)
Definition switch_open (e : E) : Prop := Z.land (u32 (mmio_rd e usim_port0_detect).2) SIM_PORT_DETECT_SPDP ≠ 0.

Lemma card_detect_run w : ∃ w1, usim_card_detect w = Some (0, w1) ∧
  state_cur (vt w1) = (if decide (switch_open (the_env w)) then USIM_STATE_DISCONNECTED else USIM_STATE_CONNECTED) ∧
  handle w1 = EventHandle (usim_ccsr_map (handle w)) (usim_ccsr_phy (handle w)) (state_cur (vt w))
                (iccid_old (handle w)) (iccid_len_old (handle w)) (iccid_new (handle w)) (iccid_len_new (handle w)).
Proof.
  destruct w as [[c t f s] h u m d lg]. unfold usim_card_detect, switch_open. steps.
  destruct (mmio_rd (env c) usim_port0_detect) as [e1 d0]. steps.
  destruct (decide (Z.land (u32 d0) SIM_PORT_DETECT_SPDP ≠ 0)); steps; repeat readings;
    (eexists; split; [reflexivity|by split]).
Qed.

End Helpers.

(** ** Polls *)
Section Polls.
Context {E : Type} `{SessEnv E}.

(** What the slot holds, as a poll finds it: from the library's state [l] after
    the look at the switch to [l'] after the exchanges with the card.  A card of
    the third kind accepts both selects, describes EF_ICCID as a file of ten
    bytes, returns them, and takes the select back. *)
Inductive finds (l : lib E) (buf : buffer) : slot → lib E → Prop :=
  | finds_unread r n b l' :
      usim_read_transparent USIM_ICCID_FILEID 10 buf USIM_MF_FILEID l = Some ((r, n, b), l') → r ≠ 0 →
      finds l buf Unread l'
  | finds_iccid id a q1 k1 q2 p ts p' out e' :
      usim_ready l a → zlen id = 10 →
      ts ≠ [] → Forall wf_tlv ts → zlen (enc_tlvs ts) ≤ 251 → foldl size_step None ts = Some 10 →
      (∀ e, malloc_null e (10 + 3) = false) → zlen out ≤ 3 →
      let conv := opening USIM_MF_FILEID USIM_ICCID_FILEID q1 k1 q2 (zlen (enc_tlvs ts) + 2) ++
        [fcp_exchange p ts; (encode 0 (ReadBinary (u8 10)), 13, p' :: id ++ [0x90; 0x00]);
         back a out] in
      talk (env l) conv e' →
      finds l buf (Iccid id) (after conv e' l).

(** A poll of the session: the switch, then the card if there is one. *)
Definition polled (w : sess E) (s : slot) (l' : lib E) : Prop :=
  ∀ r w1, usim_card_detect w = Some (r, w1) →
  match s with
  | Absent => switch_open (the_env w) ∧ l' = core (vt w1)
  | s => ¬ switch_open (the_env w) ∧ finds (core (vt w1)) (iccid_new (handle w)) s l'
  end.

Lemma known_new h prev : known h prev → zlen (iccid_old h) = 22 ∧ zlen (iccid_new h) = 22 ∧
  ∃ old, memcpy (iccid_old h) 0 (iccid_new h) 0 (iccid_len_new h) = Some old ∧
    zlen old = 22 ∧ ∃ b, old = init prev ++ b.
Proof.
  intros (Hp & Ho & Hn & [[-> [b Hb]]|(-> & -> & b & Hb)]); (split; [done|split; [done|]]).
  - assert (zlen (init prev) = 10) by (by rewrite zlen_init).
    exists (init prev ++ drop (length (init prev)) (iccid_old h)). rewrite Hb.
    rewrite memcpy_front by (done || lia). split; [done|]. split; [|by eexists].
    rewrite zlen_app. unfold zlen in *. rewrite length_drop. lia.
  - exists (iccid_old h). split; [|split; [done|by exists b]].
    apply (memcpy_front _ []); [done|lia].
Qed.

(** The read, in the two cases a card is there. *)
Lemma finds_read l buf s l' : finds l buf s l' → zlen buf = 22 → ∃ r n b,
  usim_read_transparent USIM_ICCID_FILEID 10 buf USIM_MF_FILEID l = Some ((r, n, b), l') ∧
  match s with
  | Absent => False
  | Unread => r ≠ 0 ∧ b = buf
  | Iccid id => r = 0 ∧ n = 10 ∧ zlen id = 10 ∧ zlen b = 22 ∧ ∃ c, b = init id ++ c
  end.
Proof.
  intros [r n b l1 Hr Hne | id a q1 k1 q2 p ts p' out e' Hu Hid Hts Hwf Hl Hsz Hm Hout conv Ht] Hb.
  - exists r, n, b. split; [done|]. split; [done|]. by eapply read_transparent_keeps.
  - exists 0, 10, (init id ++ drop (length id) buf). split.
    + apply (read_transparent_run USIM_MF_FILEID USIM_ICCID_FILEID q1 k1 q2 p ts p' 10 id out a l 10 buf e'); done || lia.
    + do 3 (split; [done|]). split; [|by eexists]. 
      rewrite zlen_app, zlen_init. unfold zlen in *. rewrite length_drop. lia.
Qed.

Lemma check_iccid_run w prev s l' :
  known (handle w) prev → finds (core (vt w)) (iccid_new (handle w)) s l' →
  state_cur (vt w) = USIM_STATE_CONNECTED →
  ∃ w', check_iccid w = Some (tt, w') ∧ known (handle w') (snd (poll_spec prev s)) ∧
    core (vt w') = l' ∧ state_cur (vt w') = fst (poll_spec prev s) ∧ state (handle w') = state (handle w).
Proof.
  intros Hk Hf Hst. destruct (known_new _ _ Hk) as (Ho & Hn & old & Hcpy & Hol & b & Hold).
  destruct (finds_read _ _ _ _ Hf Hn) as (r & n & d & Hr & Hs).
  unfold check_iccid. cbv [mbind M_bind gets]. unfold lift. rewrite Hcpy.
  cbv [set_handle modify on_lib on_core with_handle]. cbn [handle vt]. rewrite Hr.
  destruct Hk as (Hp & _ & _ & Hlast). destruct s as [| |id]; [done|..].
  - destruct Hs as [Hne ->]. rewrite !decide_False by done. eexists. split; [reflexivity|].
    repeat split; cbn [handle vt with_vt with_core core state_cur state iccid_old iccid_new iccid_len_new];
      try done. destruct Hlast as [[Hl Hb]|(Hl & Hz & Hb)]; [by left|right].
    repeat split; try done. subst old. by exists b.
  - destruct Hs as (-> & -> & Hid & Hd & c & ->). rewrite !decide_True by done. subst old.
    assert (Hne : memcmp_ne (init prev ++ b) (init id ++ c) (u8 10) = Some (bool_decide (prev ≠ id))).
    { change (u8 10) with 10. rewrite <- Hp. apply memcmp_init. unfold zlen in *; lia. }
    rewrite Hne. cbn [poll_spec fst snd]. case_bool_decide as He.
    + rewrite decide_False by congruence. eexists. split; [reflexivity|].
      repeat split; try done. left. split; [done|by exists c].
    + rewrite decide_True by (destruct (decide (id = prev)); congruence). eexists. split; [reflexivity|].
      repeat split; try done. left. split; [done|by exists c].
Qed.

(** C8: a poll reports what the specification says of what is in the slot,
    remembers the ICCID it has read, and keeps the state before it: a card is
    reported as changed exactly when its ICCID differs from the last one read,
    however often the card has been out or unreadable in between. *)
Theorem card_change_reported w prev s l' : known (handle w) prev → polled w s l' →
  ∃ w', vtq_usim_get_status w = Some (fst (poll_spec prev s), w') ∧
    known (handle w') (snd (poll_spec prev s)) ∧ core (vt w') = l' ∧
    state_cur (vt w') = fst (poll_spec prev s) ∧ state (handle w') = state_cur (vt w).
Proof.
  intros Hk Hp. destruct (card_detect_run w) as (w1 & Hd & Hst & Hh). specialize (Hp _ _ Hd).
  unfold vtq_usim_get_status. rewrite (M_bind_run _ _ _ _ _ Hd). cbn [decide].
  assert (Hk1 : known (handle w1) prev) by (rewrite Hh; exact Hk).
  assert (Hcur : get_state_cur w1 = Some (state_cur (vt w1), w1)) by done.
  assert (Hpre : state (handle w1) = state_cur (vt w)) by by rewrite Hh.
  rewrite decide_False by lia. rewrite (M_bind_run _ _ _ _ _ Hcur).
  destruct s as [| |id]; destruct Hp as [Hsw Hf];
    [rewrite decide_True in Hst by done|rewrite decide_False in Hst by done..]; rewrite Hst.
  - rewrite decide_False by tauto. exists w1. subst l'. split; [|done].
    rewrite M_bind_eq. cbn. unfold get_state_cur, gets. by rewrite Hst.
  - rewrite decide_True by done.
    destruct (check_iccid_run w1 prev Unread l') as (w' & Hc & Hk' & Hl & Hs & Hp); [done|by rewrite Hh|done|].
    exists w'. rewrite (M_bind_run _ _ _ _ _ Hc), <- Hs. rewrite Hp. done.
  - rewrite decide_True by done.
    destruct (check_iccid_run w1 prev (Iccid id) l') as (w' & Hc & Hk' & Hl & Hs & Hp); [done|by rewrite Hh|done|].
    exists w'. rewrite (M_bind_run _ _ _ _ _ Hc), <- Hs. rewrite Hp. done.
Qed.

End Polls.

(** ** Activation *)

(** A receiver that runs dry: [bytes] bounds those it has still to give.  A
    status with the data bit says there is one, and taking one leaves fewer. *)
Class Dries (E : Type) `{SessEnv E} (bytes : E → nat) := {
  rd_dries : ∀ e r, (bytes (mmio_rd e r).1 ≤ bytes e)%nat;
  wr_dries : ∀ e r v, (bytes (mmio_wr e r v) ≤ bytes e)%nat;
  rdrf_dries : ∀ e, Z.land (u32 (mmio_rd e usim_rcv_status).2) 0x10 = 0x10 →
    (0 < bytes (mmio_rd e usim_rcv_status).1)%nat;
  take_dries : ∀ e, (0 < bytes e)%nat → (bytes (mmio_rd e usim_rcv_buff).1 < bytes e)%nat;
}.

Section Activation.
Context {E : Type} `{Dries E bytes}.

Definition at_most (n : nat) (L : list Z) (w : sess E) : Prop :=
  (bytes (the_env w) ≤ n)%nat ∧ port_log w = L.

Lemma iord32_hoare n L r : hoare False (at_most n L) (iord32 r)
  (λ v w, at_most n L w ∧ (r = usim_rcv_status → Z.land v 0x10 = 0x10 → (0 < bytes (the_env w))%nat)).
Proof.
  intros w [Hn Hl]. unfold iord32, sys.
  pose proof (rd_dries (the_env w) r) as Hd. pose proof (rdrf_dries (the_env w)) as Hf.
  destruct (mmio_rd (the_env w) r) as [e v] eqn:He. cbn in Hd. split; [split; [cbn; lia|done]|].
  intros -> Hv. rewrite He in Hf. by apply Hf.
Qed.

Lemma rd_hoare n L r : hoare False (at_most n L) (iord32 r) (λ _, at_most n L).
Proof. eapply hoare_weaken; [done| |apply iord32_hoare]. by intros ?? [? _]. Qed.

Lemma wr_hoare n L v r : hoare False (at_most n L) (iowr32 v r)
  (λ _, at_most n (L ++ if decide (r = usim_port0_cntl) then [u32 v] else [])).
Proof.
  intros w [Hn Hl]. unfold iowr32. split; cbn.
  - pose proof (wr_dries (the_env w) r (u32 v)). lia.
  - by rewrite Hl.
Qed.

(** A write of another register. *)
Lemma wr_other n L v r : r ≠ usim_port0_cntl → hoare False (at_most n L) (iowr32 v r) (λ _, at_most n L).
Proof.
  intros Hr. eapply hoare_weaken; [done| |apply wr_hoare]. intros ? w. cbn.
  by rewrite decide_False, app_nil_r.
Qed.

Lemma wr_port n L v : hoare False (at_most n L) (iowr32 v usim_port0_cntl) (λ _, at_most n (L ++ [u32 v])).
Proof. apply wr_hoare. Qed.

Lemma mod_hoare n L (f : sess E → sess E) :
  (∀ w, the_env (f w) = the_env w ∧ port_log (f w) = port_log w) →
  hoare False (at_most n L) (modify f) (λ _, at_most n L).
Proof. intros Hf w [Hn Hl]. destruct (Hf w) as [He Hp]. split; cbn; [by rewrite He|by rewrite Hp]. Qed.

Local Ltac act :=
  repeat first
    [ eapply hoare_bind; [|intros ?; cbn beta iota]
    | apply rd_hoare
    | apply wr_other; done
    | apply wr_hoare
    | apply mod_hoare; intros []; by split
    | case_decide
    | by intros ? ? ].

Lemma detect_hoare n L : hoare False (at_most n L) usim_card_detect (λ _, at_most n L).
Proof.
  unfold usim_card_detect, get_state_cur, set_state_cur, set_handle.
  eapply (hoare_bind _ (λ _, at_most n L)); [by intros ?|]. intros cur.
  eapply (hoare_bind _ (λ _, at_most n L)); [by apply mod_hoare|]. intros [].
  eapply (hoare_bind _ (λ _, at_most n L)); [apply rd_hoare|]. intros d.
  eapply (hoare_bind _ (λ _, at_most n L)).
  { case_decide; act. }
  intros []. act.
Qed.

Lemma delay_hoare n L c : hoare False (at_most n L) (delay_clk c) (λ _, at_most n L).
Proof. unfold delay_clk. act. Qed.

Lemma clear_hoare n L : hoare False (at_most n L) clear_gpcnt_counter (λ _, at_most n L).
Proof. unfold clear_gpcnt_counter. act. Qed.

(** A poll ends within its count. *)
Lemma poll_hoare n L r v : hoare False (at_most n L) (bit_set_polling r v)
  (λ b w, b ≠ None ∧ at_most n L w).
Proof.
  unfold bit_set_polling. eapply hoare_bind; [apply rd_hoare|]. intros x. cbn beta.
  eapply hoare_bind.
  - eapply hoare_weaken; [|done|apply (hoare_until _ _
      (λ k s w, at_most n L w ∧ k = 20000001 - s.2 ∧ s.2 ≤ 20000000) (λ _, at_most n L))].
    + intros w Hw. by split; [exact Hw|cbn; lia].
    + intros k [y i] Hk. apply hoare_and. intros [Hi Hi']. cbn [snd] in *. unfold bit_step.
      case_decide; [by intros ??|]. eapply hoare_bind; [apply rd_hoare|]. intros z.
      case_decide; [by intros ??|]. intros w Hw. split; [exact Hw|cbn; lia].
  - intros [[y i]|b] w Hw; [destruct Hw as (_ & Hi & Hi'); cbn in *; lia|by split].
Qed.

Lemma poll_any n L r v : hoare False (at_most n L) (bit_set_polling r v) (λ _, at_most n L).
Proof. eapply hoare_weaken; [done| |apply poll_hoare]. by intros ?? [_ ?]. Qed.

Lemma next_byte_hoare n L : hoare False (at_most n L) next_byte
  (λ b w, b ≠ None ∧ at_most n L w ∧ (b = Some true → (0 < bytes (the_env w))%nat)).
Proof.
  unfold next_byte. eapply hoare_bind; [apply iord32_hoare|]. intros x. cbn beta.
  eapply hoare_bind.
  - eapply hoare_weaken; [|done|apply (hoare_until _ _
      (λ k s w, (at_most n L w ∧ (Z.land s.1 0x10 = 0x10 → (0 < bytes (the_env w))%nat)) ∧
                k = 1000001 - s.2 ∧ s.2 ≤ 1000000)
      (λ i w, at_most n L w ∧ (i ≠ 1000000 → (0 < bytes (the_env w))%nat)))].
    + intros w [Hw Hx]. split; [split; [exact Hw|intros Hv; by apply Hx]|cbn; lia].
    + intros k [y i] Hk. apply hoare_and. intros [Hi Hi']. cbn [fst snd] in *. unfold next_step.
      case_decide; [intros w [Hw Hx]; split; [exact Hw|intros _; by apply Hx]|].
      case_decide; [intros w [Hw Hx]; by split|].
      eapply hoare_bind; [eapply hoare_weaken; [by intros ? [? _]|done|apply iord32_hoare]|]. intros z w [Hw Hx].
      split; [split; [exact Hw|intros Hv; by apply Hx]|cbn; lia].
  - intros [[y i]|i] w Hw; [destruct Hw as (_ & Hi & Hi'); cbn in *; lia|].
    destruct Hw as [Hw Hx]. split; [done|]. split; [exact Hw|]. intros [= Hb].
    apply Hx. by case_bool_decide.
Qed.

Lemma atr_loop_hoare n L : hoare False (λ w, at_most n L w ∧ (0 < bytes (the_env w))%nat)
  (atr_loop n) (λ _ w, port_log w = L).
Proof.
  induction n as [|n IH]; [intros w [[Hn _] Hp]; cbn; lia|]. cbn [atr_loop].
  apply (hoare_bind _ (λ _, at_most n L)).
  - intros w [[Hn Hl] Hp]. unfold iord32, sys. pose proof (take_dries (the_env w) Hp) as Ht.
    destruct (mmio_rd (the_env w) usim_rcv_buff) as [e v]. split; cbn in *; [lia|done].
  - intros _. eapply hoare_bind; [apply next_byte_hoare|]. intros b.
    apply hoare_pre. intros Hb. destruct b as [[]|]; [|by intros w [[_ Hl] _]|done].
    intros w [Hw Hx]. apply IH. split; [exact Hw|by apply Hx].
Qed.

(** C9: activation.  However the registers answer, as long as the receiver
    runs dry the activation of the card comes to its end, and it drives the
    port through one sequence: 3 V, supply, transmit, clock, and the reset
    lifted last. *)
Theorem card_activation n w : (bytes (the_env w) ≤ n)%nat →
  ∃ w', atr_us n w = Some (tt, w') ∧ port_log w' = port_log w ++ [0x40; 0x42; 0x46; 0x56; 0x5e].
Proof.
  intros Hn.
  assert (Ha : hoare False (at_most n (port_log w)) (atr_us n)
    (λ _ w', port_log w' = port_log w ++ [0x40; 0x42; 0x46; 0x56; 0x5e])).
  { unfold atr_us.
    repeat (eapply hoare_bind; [first
      [ apply detect_hoare | apply delay_hoare | apply clear_hoare | apply poll_any
      | apply wr_other; done | apply wr_port | apply (iord32_hoare _ _ usim_rcv_status) | apply rd_hoare ]|intros ?; cbn beta]).
    rewrite <- !app_assoc. case_decide as Hv; [|by intros w' [[_ Hl] _]].
    intros w' [Hw Hp]. apply (atr_loop_hoare n _ w'). split; [exact Hw|by apply Hp]. }
  specialize (Ha w (conj Hn eq_refl)). destruct (atr_us n w) as [[[] w']|]; [by exists w'|done].
Qed.
End Activation.

(** ** A reader with a slot *)

(** The replies of the card, whether there is one, and the bytes of its answer
    to reset still to come. *)
Record slotted := Slotted { s_card : script; s_present : bool; s_fifo : nat }.

#[export] Instance slotted_env : Env slotted := {|
  xfer e cmd n := let '(c, r, out) := xfer (s_card e) cmd n in (Slotted c (s_present e) (s_fifo e), r, out);
  os_open e _ := (e, 3);
  os_lseek e _ off := (e, off);
  os_read e _ n := (e, n, replicate (Z.to_nat n) 49);
  os_close e _ := e;
  malloc_null _ _ := false |}.

#[export] Instance slotted_sess : SessEnv slotted := {|
  mmio_rd e r :=
    match r with
    | usim_port0_detect => (e, if s_present e then 0 else 4)
    | usim_xmt_status => (e, 0x138)
    | usim_rcv_status => (e, match s_fifo e with O => 0 | S _ => 0x10 end)
    | usim_rcv_buff => (Slotted (s_card e) (s_present e) (pred (s_fifo e)), 0x3b)
    | _ => (e, 0)
    end;
  mmio_wr e _ _ := e;
  ioctl_phy_add e _ := (e, 0, Some 0x504A2E0000);
  ioctl_status e _ := (e, 0, Some (if s_present e then 0 else 1));
  ioctl_invalidate e _ := (e, 0);
  ioctl_power e _ _ := (e, 0);
  os_mmap e _ off := (e, Some off);
  os_munmap e _ := (e, 0) |}.

#[export] Instance slotted_dries : Dries slotted s_fifo.
Proof.
  split.
  - intros e []; cbn; lia.
  - intros e r v. cbn. lia.
  - intros e. cbn. destruct (s_fifo e); [vm_compute; discriminate|intros _; lia].
  - intros e He. cbn. lia.
Qed.

Definition slotted_start (e : slotted) : sess slotted :=
  Sess (Vtq (Lib (Sim 1 0) (init t_aid ++ zeros 25) 7 e []) (λ _, []) 0 1) event_handle_0 3 3 0 [].

Lemma card_activation_witness : ∃ w',
  atr_us 25 (slotted_start (Slotted (Script []) true 25)) = Some (tt, w') ∧
  port_log w' = [0x40; 0x42; 0x46; 0x56; 0x5e].
Proof. apply (card_activation 25 (slotted_start (Slotted (Script []) true 25))). reflexivity. Defined.

Definition t_iccid : list Z := [0x98; 0x10; 0x32; 0x54; 0x76; 0x98; 0x10; 0x32; 0x54; 0x76].
Definition t_iccid_fcp : list (Z * list Z) := [(0x82, [0x41; 0x21]); (0x80, [0; 10])].
Lemma t_iccid_fcp_wf : Forall wf_tlv t_iccid_fcp.
Proof. repeat constructor; cbn; unfold is_byte, zlen; cbn; lia || discriminate. Defined.
Definition t_slot : slotted :=
  Slotted (Script (t_opening 10 ++
    [Some ([0; 0x62; 8] ++ enc_tlvs t_iccid_fcp ++ [0x90; 0x00]);
     Some (0xb0 :: t_iccid ++ [0x90; 0x00]); Some [0; 0x61; 9]])) true 0.

Lemma card_change_reported_witness : ∃ w',
  vtq_usim_get_status (slotted_start t_slot) = Some (USIM_STATE_CHANGED, w') ∧ known (handle w') t_iccid.
Proof.
  destruct (card_change_reported (slotted_start t_slot) (replicate 10 0) (Iccid t_iccid)
    (after (opening USIM_MF_FILEID USIM_ICCID_FILEID 0 0x1d 0 10 ++
       [fcp_exchange 0 t_iccid_fcp; (encode 0 (ReadBinary (u8 10)), 13, 0xb0 :: t_iccid ++ [0x90; 0x00]);
        back t_aid [0; 0x61; 9]]) (Slotted (Script []) true 0) (core (vt (slotted_start t_slot)))))
    as (w' & Hr & Hk & _).
  - apply known_0.
  - intros r w1 Hd. vm_compute in Hd. injection Hd as <- <-. split; [vm_compute; intros Hn; by apply Hn|].
    apply (finds_iccid _ _ t_iccid t_aid 0 0x1d 0 0 t_iccid_fcp 0xb0 [0; 0x61; 9] (Slotted (Script []) true 0));
      [|reflexivity|done|exact t_iccid_fcp_wf|vm_compute; discriminate|reflexivity|reflexivity|vm_compute; discriminate|run_talk].
    repeat split; [by exists (zeros 25)|cbn; lia].
  - exists w'. by split.
Defined.
