(* ===== verification/GulMsi.v ===== *)
(** * Interrupt lines and address windows of the PCI device
      (kernel_driver/yami/gul_pci.c, gul_base.c)

    The table of message-signalled interrupts the sub-drivers share, and the two
    register sequences the IPC driver uses: an outbound address window and an
    interrupt to the modem.  The numbers that come from headers outside this
    repository are the class [HostIf]. *)
From S2P Require Import Prelude.
#[global] Open Scope Z_scope.

(** Array sizes, window numbers and register fields of the host interface. *)
Class HostIf := {
  GUL_MSI_MAX_CNT : nat;
  IPC_MAX_CHANNEL_COUNT : nat;
  MAX_PCI_USER_ALLOC_COUNT : nat;
  GUL_OB_WIN_HUGE_PAGE_BUFS : Z;
  MPIC_MSIIR_SRS_BIT : Z;
  MPIC_MSIIR_IBS_BIT : Z;
  PCIE_ATU_REGION_OUTBOUND : Z;
  PCIE_ATU_TYPE_MEM : Z;
  PCIE_ATU_ENABLE : Z;
}.

(** ** Error numbers of the kernel *)
Definition ENOENT : Z := 2.
Definition ENOMEM : Z := 12.
Definition EFAULT : Z := 14.
Definition EBUSY : Z := 16.
Definition EINVAL : Z := 22.
Definition ENOTTY : Z := 25.

(** ** The table of interrupt lines *)
Definition GUL_MSI_IRQ_FREE : Z := 0x45455246.
Definition GUL_MSI_IRQ_BUSY : Z := 0x59535542.

Record irq_info := Irq { irq_val : Z; msi_val : Z; free : Z; core_id : Z }.

Definition set_free (f : Z) (e : irq_info) : irq_info := Irq (irq_val e) (msi_val e) f (core_id e).

(** The loop that fills the table once the vectors are allocated; [irq] is the
    device's first interrupt. *)
Definition gul_dev_set_interrupt_capability `{HostIf} (irq cpus : Z) : list irq_info :=
  (λ i, Irq (irq + Z.of_nat i) (Z.of_nat i) GUL_MSI_IRQ_FREE (Z.of_nat i mod cpus))
    <$> seq 0 GUL_MSI_MAX_CNT.

(** The two search loops, for the calling core first; [core] is
    [smp_processor_id()]. *)
Definition find_msi (core : Z) (t : list irq_info) : option nat :=
  match list_find (λ e, free e = GUL_MSI_IRQ_FREE ∧ core_id e = core) t with
  | Some (i, _) => Some i
  | None => fst <$> list_find (λ e, free e = GUL_MSI_IRQ_FREE) t
  end.

Definition gul_dev_get_msi (core : Z) (t : list irq_info) : Z * list irq_info :=
  match find_msi core t with
  | Some i => (Z.of_nat i, alter (set_free GUL_MSI_IRQ_BUSY) i t)
  | None => (- ENOENT, t)
  end.

Definition gul_dev_put_msi (index : Z) (t : list irq_info) : list irq_info :=
  if decide (0 ≤ index < zlen t) then
    match t !! Z.to_nat index with
    | Some e =>
        if decide (free e = GUL_MSI_IRQ_BUSY)
        then <[Z.to_nat index := set_free GUL_MSI_IRQ_FREE e]> t else t
    | None => t
    end
  else t.

(** ** Registers *)

(** The registers written, in the order of the writes. *)
Inductive reg :=
  | PCIE_ATU_VIEWPORT | PCIE_ATU_LOWER_BASE | PCIE_ATU_UPPER_BASE | PCIE_ATU_LIMIT
  | PCIE_ATU_LOWER_TARGET | PCIE_ATU_UPPER_TARGET | PCIE_ATU_CR1 | PCIE_ATU_CR2
  | MSIIR.

Definition lower_32_bits (x : Z) : Z := u32 x.
Definition upper_32_bits (x : Z) : Z := u32 (Z.shiftr (u64 x) 32).

Definition ls_pcie_iatu_outbound_set `{HostIf} (idx type cpu_addr pci_addr size : Z)
  : list (reg * Z) :=
  [(PCIE_ATU_VIEWPORT, u32 (Z.lor PCIE_ATU_REGION_OUTBOUND idx));
   (PCIE_ATU_LOWER_BASE, lower_32_bits cpu_addr);
   (PCIE_ATU_UPPER_BASE, upper_32_bits cpu_addr);
   (PCIE_ATU_LIMIT, lower_32_bits (cpu_addr + size - 1));
   (PCIE_ATU_LOWER_TARGET, lower_32_bits pci_addr);
   (PCIE_ATU_UPPER_TARGET, upper_32_bits pci_addr);
   (PCIE_ATU_CR1, u32 type);
   (PCIE_ATU_CR2, PCIE_ATU_ENABLE)].

(** [raise_modem_msi(gul_dev, MSI_TYPE_A, irq_no)]: the first of the three
    register banks. *)
Definition raise_modem_msi `{HostIf} (irq_no : Z) : list (reg * Z) :=
  [(MSIIR, u32 (Z.lor (Z.shiftl irq_no MPIC_MSIIR_SRS_BIT) (Z.shiftl irq_no MPIC_MSIIR_IBS_BIT)))].

(** ** Lemmas on the table *)
Create Rewrite HintDb msi.

Lemma free_ne_busy : GUL_MSI_IRQ_FREE ≠ GUL_MSI_IRQ_BUSY.
Proof. discriminate. Qed.

Lemma find_msi_some core t i : find_msi core t = Some i →
  ∃ e, t !! i = Some e ∧ free e = GUL_MSI_IRQ_FREE ∧
    (core_id e = core ∨ Forall (λ e', ¬ (free e' = GUL_MSI_IRQ_FREE ∧ core_id e' = core)) t).
Proof.
  unfold find_msi. destruct (list_find (λ e, _ ∧ _) t) as [[j e]|] eqn:Hc.
  - intros [= ->]. apply list_find_Some in Hc as (Hl & [Hf Hcore] & _). eauto.
  - apply list_find_None in Hc. destruct (list_find _ t) as [[j e]|] eqn:Ha; [|done].
    intros [= ->]. apply list_find_Some in Ha as (Hl & Hf & _). eauto.
Qed.

Lemma find_msi_none core t : find_msi core t = None →
  Forall (λ e, free e ≠ GUL_MSI_IRQ_FREE) t.
Proof.
  unfold find_msi. destruct (list_find (λ e, _ ∧ _) t) as [[j e]|]; [done|].
  destruct (list_find _ t) as [[j e]|] eqn:Ha; [done|]. intros _. by apply list_find_None in Ha.
Qed.

Lemma get_msi_find core t :
  match find_msi core t with
  | None => gul_dev_get_msi core t = (- ENOENT, t)
  | Some i => ∃ e, t !! i = Some e ∧ free e = GUL_MSI_IRQ_FREE ∧
      gul_dev_get_msi core t = (Z.of_nat i, <[i := set_free GUL_MSI_IRQ_BUSY e]> t)
  end.
Proof.
  unfold gul_dev_get_msi. destruct (find_msi core t) as [i|] eqn:Hf; [|done].
  apply find_msi_some in Hf as (e & Hl & Hfree & _). exists e. split; [done|]. split; [done|].
  f_equal. apply list_eq. intros j. destruct (decide (i = j)) as [->|Hne].
  - rewrite list_lookup_alter_eq, Hl. cbn.
    rewrite list_lookup_insert_eq; [done|by eapply lookup_lt_Some].
  - by rewrite list_lookup_alter_ne, list_lookup_insert_ne.
Qed.

Lemma get_msi_cases core t :
  (gul_dev_get_msi core t = (- ENOENT, t) ∧ Forall (λ e, free e ≠ GUL_MSI_IRQ_FREE) t) ∨
  ∃ i e, gul_dev_get_msi core t = (Z.of_nat i, <[i := set_free GUL_MSI_IRQ_BUSY e]> t) ∧
    t !! i = Some e ∧ free e = GUL_MSI_IRQ_FREE ∧
    (core_id e = core ∨ Forall (λ e', ¬ (free e' = GUL_MSI_IRQ_FREE ∧ core_id e' = core)) t).
Proof.
  assert (Hg := get_msi_find core t). destruct (find_msi core t) as [i|] eqn:Hf.
  - right. destruct Hg as (e & Hl & Hfree & Hg). apply find_msi_some in Hf as (e' & Hl' & _ & Hcore).
    rewrite Hl in Hl'. injection Hl' as <-. by exists i, e.
  - left. split; [done|]. by eapply find_msi_none.
Qed.

Lemma length_get_msi core t : length (snd (gul_dev_get_msi core t)) = length t.
Proof.
  destruct (get_msi_cases core t) as [[-> _]|(i & e & -> & _)]; [done|]. apply length_insert.
Qed.

Lemma put_msi_busy i t e : t !! i = Some e → free e = GUL_MSI_IRQ_BUSY →
  gul_dev_put_msi (Z.of_nat i) t = <[i := set_free GUL_MSI_IRQ_FREE e]> t.
Proof.
  intros Hl Hb. assert (Hi := lookup_lt_Some _ _ _ Hl). unfold gul_dev_put_msi, zlen.
  rewrite decide_True by lia. rewrite Nat2Z.id, Hl. by rewrite decide_True.
Qed.

Lemma length_put_msi i t : length (gul_dev_put_msi i t) = length t.
Proof.
  unfold gul_dev_put_msi. case_decide; [|done]. destruct (t !! _); [|done].
  case_decide; [apply length_insert|done].
Qed.
#[export] Hint Rewrite length_get_msi length_put_msi : msi.

(** Putting back the line just taken restores the table. *)
Lemma put_get_msi core t i : fst (gul_dev_get_msi core t) = Z.of_nat i →
  gul_dev_put_msi (Z.of_nat i) (snd (gul_dev_get_msi core t)) = t.
Proof.
  destruct (get_msi_cases core t) as [[-> _]|(j & e & -> & Hl & Hf & _)]; cbn [fst snd];
    [unfold ENOENT; lia|]. intros ->%Nat2Z.inj.
  assert (Hi := lookup_lt_Some _ _ _ Hl).
  rewrite (put_msi_busy i _ (set_free GUL_MSI_IRQ_BUSY e)) by (done || by apply list_lookup_insert_eq).
  rewrite list_insert_insert_eq. rewrite list_insert_id; [done|].
  rewrite Hl. f_equal. destruct e; cbn in *. by subst.
Qed.

(** ** Taking and giving back lines *)

(** The table with the list of the lines handed out: a driver takes one, or
    gives back one it has. *)
Inductive msi_step : list irq_info * list nat → list irq_info * list nat → Prop :=
  | msi_get core t hs i t' :
      gul_dev_get_msi core t = (Z.of_nat i, t') → msi_step (t, hs) (t', i :: hs)
  | msi_full core t hs t' :
      gul_dev_get_msi core t = (- ENOENT, t') → msi_step (t, hs) (t', hs)
  | msi_put t hs1 i hs2 :
      msi_step (t, hs1 ++ i :: hs2) (gul_dev_put_msi (Z.of_nat i) t, hs1 ++ hs2).

(** Every line is free or handed out, and none is handed out twice. *)
Definition msi_owned (t : list irq_info) (hs : list nat) : Prop :=
  NoDup hs ∧
  ∀ i e, t !! i = Some e →
    (free e = GUL_MSI_IRQ_BUSY ∧ i ∈ hs) ∨ (free e = GUL_MSI_IRQ_FREE ∧ i ∉ hs).
Definition msi_inv (s : list irq_info * list nat) : Prop :=
  msi_owned (fst s) (snd s) ∧ Forall (λ i, (i < length (fst s))%nat) (snd s).

Lemma msi_inv_get t hs i e : msi_inv (t, hs) → t !! i = Some e → free e = GUL_MSI_IRQ_FREE →
  (i ∉ hs) ∧ msi_inv ((<[i := set_free GUL_MSI_IRQ_BUSY e]> t), i :: hs).
Proof.
  intros [[Hnd Hown] Hlt] Hl Hf. cbn [fst snd] in *. assert (Hi := lookup_lt_Some _ _ _ Hl).
  destruct (Hown _ _ Hl) as [[Hb _]|[_ Hni]]; [rewrite Hf in Hb; discriminate|].
  split; [done|]. split; [split|]; cbn [fst snd].
  - by constructor.
  - intros j e' Hj. destruct (decide (i = j)) as [->|Hne].
    + rewrite list_lookup_insert_eq in Hj by done. injection Hj as <-. left. split; [done|left].
    + rewrite list_lookup_insert_ne in Hj by done. destruct (Hown _ _ Hj) as [[Hb Hin]|[Hb Hin]].
      * left. split; [done|by right].
      * right. split; [done|]. rewrite not_elem_of_cons. done.
  - rewrite length_insert. by constructor.
Qed.

Lemma msi_inv_put t hs1 i hs2 : msi_inv (t, hs1 ++ i :: hs2) →
  msi_inv (gul_dev_put_msi (Z.of_nat i) t, hs1 ++ hs2).
Proof.
  intros [[Hnd Hown] Hlt]. cbn [fst snd] in *.
  assert (Hi : (i < length t)%nat) by (rewrite Forall_app, Forall_cons in Hlt; tauto).
  destruct (lookup_lt_is_Some_2 t i Hi) as [e Hl].
  destruct (Hown _ _ Hl) as [[Hb _]|[_ Hni]]; [|exfalso; apply Hni, elem_of_app; right; left].
  rewrite (put_msi_busy i t e Hl Hb).
  rewrite NoDup_app, NoDup_cons in Hnd. destruct Hnd as (Hn1 & Hd & Hn2 & Hn3).
  split; [split|]; cbn [fst snd].
  - rewrite NoDup_app. split; [done|]. split; [|done]. intros x Hx1 Hx2.
    apply (Hd x Hx1). by right.
  - intros j e' Hj. destruct (decide (i = j)) as [->|Hne].
    + rewrite list_lookup_insert_eq in Hj by done. injection Hj as <-. right.
      split; [done|]. rewrite elem_of_app.
      intros [Hin|Hin]; [apply (Hd _ Hin); left|done].
    + rewrite list_lookup_insert_ne in Hj by done. specialize (Hown _ _ Hj). rewrite elem_of_app in *.
      rewrite elem_of_cons in Hown. intuition congruence.
  - rewrite length_insert. rewrite Forall_app, Forall_cons in *. tauto.
Qed.

Lemma msi_inv_step s s' : msi_step s s' → msi_inv s → msi_inv s'.
Proof.
  intros [core t hs i t' Hg|core t hs t' Hg|t hs1 i hs2] Hinv.
  - destruct (get_msi_cases core t) as [[Hc _]|(j & e & Hc & Hl & Hf & _)]; rewrite Hc in Hg;
      injection Hg as Hi <-; [unfold ENOENT in Hi; lia|].
    apply Nat2Z.inj in Hi as ->. by apply msi_inv_get.
  - destruct (get_msi_cases core t) as [[Hc _]|(j & e & Hc & Hl & Hf & _)]; rewrite Hc in Hg;
      [by injection Hg as <-|injection Hg as Hi <-; unfold ENOENT in Hi; lia].
  - by apply msi_inv_put.
Qed.

Lemma msi_inv_init `{HostIf} irq cpus : msi_inv (gul_dev_set_interrupt_capability irq cpus, []).
Proof.
  split; [|constructor]. split; [constructor|]. cbn [fst snd]. intros i e Hl.
  unfold gul_dev_set_interrupt_capability in Hl.
  apply list_lookup_fmap_Some in Hl as (j & -> & _). right. split; [done|apply not_elem_of_nil].
Qed.

Section Claims.
Context `{HostIf}.

(** from the table the driver builds, through any sequence of takes and
    gives, no interrupt line is handed out twice, a line is BUSY exactly while
    a driver has it, and taking fails only when every line is handed out; a
    line for the calling core is preferred. *)
Theorem msi_exclusive irq cpus t hs core :
  rtc msi_step (gul_dev_set_interrupt_capability irq cpus, []) (t, hs) →
  msi_owned t hs ∧
  match gul_dev_get_msi core t with
  | (r, t') =>
      (r = - ENOENT ∧ t' = t ∧ ∀ i, (i < length t)%nat → i ∈ hs) ∨
      ∃ i e, r = Z.of_nat i ∧ t !! i = Some e ∧ (i ∉ hs) ∧ msi_owned t' (i :: hs) ∧
        (core_id e = core ∨ ∀ j e', t !! j = Some e' → core_id e' = core → j ∈ hs)
  end.
Proof.
  intros Hrtc.
  assert (Hinv : msi_inv (t, hs)).
  { eapply (rtc_invariant _ msi_inv); [exact Hrtc|exact msi_inv_step|apply msi_inv_init]. }
  destruct Hinv as [[Hnd Hown] Hlt]. cbn [fst snd] in *. split; [done|].
  destruct (get_msi_cases core t) as [[-> Hall]|(i & e & -> & Hl & Hf & Hcore)].
  - left. split; [done|]. split; [done|]. intros i Hi.
    destruct (lookup_lt_is_Some_2 t i Hi) as [e Hl]. rewrite Forall_lookup in Hall.
    destruct (Hown _ _ Hl) as [[_ ?]|[Hf _]]; [done|]. by apply Hall in Hl.
  - right. exists i, e. split; [done|]. split; [done|].
    destruct (msi_inv_get t hs i e (conj (conj Hnd Hown) Hlt) Hl Hf) as [Hni [Hown' _]].
    split; [done|]. split; [done|]. destruct Hcore as [->|Hno]; [by left|right].
    intros j e' Hj Hc. rewrite Forall_lookup in Hno. destruct (Hown _ _ Hj) as [[_ ?]|[Hf' _]]; [done|].
    by destruct (Hno _ _ Hj).
Qed.

End Claims.

(** Example numbers for the statements that are evaluated. *)
Definition demo_host : HostIf :=
  {| GUL_MSI_MAX_CNT := 4; IPC_MAX_CHANNEL_COUNT := 4; MAX_PCI_USER_ALLOC_COUNT := 4;
     GUL_OB_WIN_HUGE_PAGE_BUFS := 8; MPIC_MSIIR_SRS_BIT := 29; MPIC_MSIIR_IBS_BIT := 24;
     PCIE_ATU_REGION_OUTBOUND := 0; PCIE_ATU_TYPE_MEM := 0; PCIE_ATU_ENABLE := 2147483648 |}.

Lemma msi_exclusive_witness :
  let t := snd (gul_dev_get_msi 1 (@gul_dev_set_interrupt_capability demo_host 60 2)) in
  msi_owned t [1%nat] ∧ ∃ i e, fst (gul_dev_get_msi 1 t) = Z.of_nat i ∧ t !! i = Some e ∧ i ∉ [1%nat].
Proof.
  intros t. assert (Hr : rtc msi_step (@gul_dev_set_interrupt_capability demo_host 60 2, []) (t, [1%nat])).
  { apply rtc_once, (msi_get 1). vm_compute. reflexivity. }
  destruct (@msi_exclusive demo_host 60 2 t [1%nat] 1 Hr) as [Ho Hg].
  split; [exact Ho|]. destruct (gul_dev_get_msi 1 t) as [r t'] eqn:Hget.
  destruct Hg as [(-> & _ & _)|(i & e & -> & Hl & Hn & _)]; [vm_compute in Hget; discriminate Hget|].
  exists i, e. done.
Defined.
