(* ===== verification/GulIpc.v ===== *)
(** * IPC driver (kernel_driver/yami/gul_ipc.c)

    The allocator of the modem's PCI space, the channels and their interrupts,
    and the ioctl handler over both.  What the kernel does during a call (the
    core it runs on, failing allocations, user copies that fault) is an argument
    of the operation. *)
From S2P Require Import Prelude GulMsi.
#[global] Open Scope Z_scope.

(** ** Data *)

(** [struct gul_pci_alloc_cb]: [size], [valid] and [iatu_idx] are [int]s. *)
Record gul_pci_alloc_cb := Cb { m_addr : Z; h_addr : Z; size : Z; valid : Z; iatu_idx : Z }.

Record gul_pci_allocator_s := Alctr {
  pci_avail_space : Z; pci_total_space : Z; pci_alloc_addr : Z; pci_alloc_cnt : Z;
  cbs : list gul_pci_alloc_cb; iatu_idx_map : list Z }.

(** [struct ipc_Irq] and [struct ipc_chan].  The driver never clears them:
    [None] is a field not assigned since [kmalloc]. *)
Record ipc_Irq := IpcIrq {
  irq_free : option Z; irq_num : option Z; msi_value : option Z; irq_index : option Z;
  irq_num_txt : option Z }.
Record ipc_chan := Chan { evt_fd_ctxt : option Z; ipc_irq : ipc_Irq }.

(** [mem_strt_addr_t]; [modem_phys] is 32 bits wide.  [sys_map_t]. *)
Record mem_strt_addr_t := MemDesc { host_phys : Z; modem_phys : Z; d_size : Z }.
Record sys_map_t := SysMap {
  mhif_start : mem_strt_addr_t; peb_start : mem_strt_addr_t;
  modem_ccsrbar : mem_strt_addr_t; hugepg_start : mem_strt_addr_t }.

(** The device: the interrupt table, the memory regions the handler reports, the
    kernel's list of requested interrupts (line, channel), the registers written
    so far, and the IPC device's own state. *)
Record ipc_world := World {
  irq : list irq_info;
  pebm : Z * Z; ccsr : Z * Z; hif_offset : Z; hif_size : Z;
  handlers : list (Z * Z);
  writes : list (reg * Z);
  host_ready_ipc : bool;
  asyn_chans : list ipc_chan;
  sys_map : sys_map_t;
  pci_allocator : gul_pci_allocator_s }.

(** What the kernel does during one call. *)
Record kernel := Kernel {
  smp_processor_id : Z;
  eventfd_ctx_fileget : Z;    (** 0 is NULL *)
  kmalloc_ptr : Z;            (** 0 is NULL *)
  request_irq_ret : Z;
  copy_to_user_fails : bool }.

Section Ipc.
Context `{HostIf}.
Local Abbreviation I := (M ipc_world).

(** ** The allocator of the modem's PCI space *)

Definition with_space (avail addr : Z) (a : gul_pci_allocator_s) : gul_pci_allocator_s :=
  Alctr avail (pci_total_space a) addr (pci_alloc_cnt a) (cbs a) (iatu_idx_map a).
Definition with_cnt (n : Z) (a : gul_pci_allocator_s) : gul_pci_allocator_s :=
  Alctr (pci_avail_space a) (pci_total_space a) (pci_alloc_addr a) n (cbs a) (iatu_idx_map a).
Definition with_cbs (l : list gul_pci_alloc_cb) (a : gul_pci_allocator_s) : gul_pci_allocator_s :=
  Alctr (pci_avail_space a) (pci_total_space a) (pci_alloc_addr a) (pci_alloc_cnt a) l (iatu_idx_map a).
Definition with_map (m : list Z) (a : gul_pci_allocator_s) : gul_pci_allocator_s :=
  Alctr (pci_avail_space a) (pci_total_space a) (pci_alloc_addr a) (pci_alloc_cnt a) (cbs a) m.

(** The first index of the map that is 0. *)
Definition gul_pci_get_iatu_idx (a : gul_pci_allocator_s) : Z * gul_pci_allocator_s :=
  match list_find (λ x, x = 0) (iatu_idx_map a) with
  | Some (i, _) => (Z.of_nat i, with_map (<[i := 1]> (iatu_idx_map a)) a)
  | None => (-1, a)
  end.

Definition gul_pci_put_iatu_idx (idx : Z) (a : gul_pci_allocator_s) : option gul_pci_allocator_s :=
  if decide (0 ≤ idx < zlen (iatu_idx_map a))
  then Some (with_map (<[Z.to_nat idx := 0]> (iatu_idx_map a)) a) else None.

(** The region's size and modem address are read from the shared memory. *)
Definition gul_setup_pci_space (size_l mod_phys_h mod_phys_l : Z) : gul_pci_allocator_s :=
  Alctr size_l size_l (Z.lor (Z.shiftl mod_phys_h 32) mod_phys_l) 0
    (replicate MAX_PCI_USER_ALLOC_COUNT (Cb 0 0 0 0 0)) (replicate MAX_PCI_USER_ALLOC_COUNT 0).

Definition gul_ipc_create_hugepage_outbound (idx pci_addr cpu_addr sz : Z) : list (reg * Z) :=
  ls_pcie_iatu_outbound_set idx PCIE_ATU_TYPE_MEM cpu_addr pci_addr (u32 sz).

(** [*addr] is 32 bits wide; [sz] is an [int], compared as unsigned; the space
    is taken before the window. *)
Definition gul_ipc_pci_map_alloc (host : Z) (addr sz : Z) (a : gul_pci_allocator_s)
  : option (Z * Z * gul_pci_allocator_s * list (reg * Z)) :=
  if decide (pci_avail_space a < u32 sz) then Some (-1, addr, a, []) else
  if decide (Z.of_nat MAX_PCI_USER_ALLOC_COUNT ≤ pci_alloc_cnt a) then Some (-1, addr, a, []) else
  let addr := u32 (pci_alloc_addr a) in
  let a := with_space (u32 (pci_avail_space a - sz)) (u64 (pci_alloc_addr a + sz)) a in
  let slot := Z.to_nat (pci_alloc_cnt a) in
  cb ← cbs a !! slot;
  let '(idx, a) := gul_pci_get_iatu_idx a in
  let a := with_cbs (<[slot := Cb (m_addr cb) (h_addr cb) (size cb) (valid cb) idx]> (cbs a)) a in
  if decide (idx < 0) then Some (-1, addr, a, []) else
  let a := with_cnt (pci_alloc_cnt a + 1) a in
  let a := with_cbs (<[slot := Cb addr host sz 1 idx]> (cbs a)) a in
  Some (0, addr, a, gul_ipc_create_hugepage_outbound (GUL_OB_WIN_HUGE_PAGE_BUFS + idx) host addr sz).

(** [while (ii)]: from the top of the stack down to a valid entry. *)
Fixpoint gc_loop (ii : nat) (a : gul_pci_allocator_s) : option (nat * gul_pci_allocator_s) :=
  match ii with
  | O => Some (O, a)
  | S jj =>
      cb ← cbs a !! jj;
      if decide (valid cb ≠ 0) then Some (ii, a) else
      if decide (u64 (m_addr cb + size cb) = pci_alloc_addr a) then
        let a := with_space (u32 (pci_avail_space a + size cb)) (m_addr cb) a in
        a ← gul_pci_put_iatu_idx (iatu_idx cb) a;
        gc_loop jj a
      else Some (ii, a)
  end.

Definition gul_ipc_pci_map_free_gc (a : gul_pci_allocator_s) : option gul_pci_allocator_s :=
  '(ii, a) ← gc_loop (Z.to_nat (pci_alloc_cnt a)) a;
  Some (with_cnt (Z.of_nat ii) a).

Definition gul_ipc_pci_map_free (addr : Z) (a : gul_pci_allocator_s) : option (Z * gul_pci_allocator_s) :=
  match list_find (λ cb, h_addr cb = addr ∧ valid cb ≠ 0) (take (Z.to_nat (pci_alloc_cnt a)) (cbs a)) with
  | Some (ii, cb) =>
      a ← gul_ipc_pci_map_free_gc
            (with_cbs (<[ii := Cb (m_addr cb) (h_addr cb) (size cb) 0 (iatu_idx cb)]> (cbs a)) a);
      Some (0, a)
  | None => Some (-1, a)
  end.

(** An end of the new range strictly inside the range of an entry; the sums are
    64 bits wide. *)
Definition cb_overlaps (addr sz : Z) (cb : gul_pci_alloc_cb) : Prop :=
  (h_addr cb < addr ∧ addr < u64 (h_addr cb + size cb)) ∨
  (h_addr cb < u64 (addr + sz) ∧ u64 (addr + sz) < u64 (h_addr cb + size cb)).
#[global] Instance cb_overlaps_dec addr sz cb : Decision (cb_overlaps addr sz cb).
Proof. unfold cb_overlaps. apply _. Defined.

Definition gul_ipc_pci_map_is_overlap (addr sz : Z) (a : gul_pci_allocator_s) : Z :=
  if decide (Exists (cb_overlaps addr sz) (take (Z.to_nat (pci_alloc_cnt a)) (cbs a))) then -1 else 0.

(** ** Channels *)

Definition with_irq (t : list irq_info) (w : ipc_world) : ipc_world :=
  World t (pebm w) (ccsr w) (hif_offset w) (hif_size w) (handlers w) (writes w) (host_ready_ipc w)
    (asyn_chans w) (sys_map w) (pci_allocator w).
Definition with_handlers (h : list (Z * Z)) (w : ipc_world) : ipc_world :=
  World (irq w) (pebm w) (ccsr w) (hif_offset w) (hif_size w) h (writes w) (host_ready_ipc w)
    (asyn_chans w) (sys_map w) (pci_allocator w).
Definition with_writes (l : list (reg * Z)) (w : ipc_world) : ipc_world :=
  World (irq w) (pebm w) (ccsr w) (hif_offset w) (hif_size w) (handlers w) (writes w ++ l)
    (host_ready_ipc w) (asyn_chans w) (sys_map w) (pci_allocator w).
Definition with_chans (c : list ipc_chan) (w : ipc_world) : ipc_world :=
  World (irq w) (pebm w) (ccsr w) (hif_offset w) (hif_size w) (handlers w) (writes w) (host_ready_ipc w)
    c (sys_map w) (pci_allocator w).
Definition with_sys_map (m : sys_map_t) (w : ipc_world) : ipc_world :=
  World (irq w) (pebm w) (ccsr w) (hif_offset w) (hif_size w) (handlers w) (writes w) (host_ready_ipc w)
    (asyn_chans w) m (pci_allocator w).
Definition with_host_ready (w : ipc_world) : ipc_world :=
  World (irq w) (pebm w) (ccsr w) (hif_offset w) (hif_size w) (handlers w) (writes w) true
    (asyn_chans w) (sys_map w) (pci_allocator w).
Definition with_allocator (a : gul_pci_allocator_s) (w : ipc_world) : ipc_world :=
  World (irq w) (pebm w) (ccsr w) (hif_offset w) (hif_size w) (handlers w) (writes w) (host_ready_ipc w)
    (asyn_chans w) (sys_map w) a.

Definition get_chan (ch : Z) : I ipc_chan := λ w,
  if decide (0 ≤ ch) then c ← asyn_chans w !! Z.to_nat ch; Some (c, w) else None.
Definition set_chan (ch : Z) (c : ipc_chan) : I unit :=
  modify (λ w, with_chans (<[Z.to_nat ch := c]> (asyn_chans w)) w).

(** Every exit but the last keeps what was taken before it; when [kmalloc]
    fails [ret] is still 0. *)
Definition register_ipc_channel_irq (k : kernel) (ch : Z) : I Z :=
  if decide (ch < 0 ∨ Z.of_nat IPC_MAX_CHANNEL_COUNT ≤ ch) then mret (- EINVAL) else
  c ← get_chan ch;
  t ← gets irq;
  let '(index, t) := gul_dev_get_msi (smp_processor_id k) t in
  _ ← modify (with_irq t);
  if decide (0 ≤ index < Z.of_nat GUL_MSI_MAX_CNT) then
    e ← lift (t !! Z.to_nat index);
    let fd := eventfd_ctx_fileget k in
    let txt := irq_num_txt (ipc_irq c) in
    let q := IpcIrq (Some (free e)) (Some (irq_val e)) (Some (msi_val e)) (Some index) in
    _ ← set_chan ch (Chan (Some fd) (q txt));
    if decide (fd ≠ 0) then
      _ ← set_chan ch (Chan (Some fd) (q (Some (kmalloc_ptr k))));
      if decide (kmalloc_ptr k = 0) then mret 0 else
      let ret := request_irq_ret k in
      if decide (ret < 0) then mret ret else
      hs ← gets handlers;
      _ ← modify (with_handlers ((irq_val e, ch) :: hs));
      mret ret
    else mret (- EINVAL)
  else mret (- EBUSY).

(** [free_irq] of a line the channel did not request has no effect but a
    warning; [kfree] needs a pointer that was assigned. *)
Definition deregister_ipc_channel_irq (ch : Z) : I unit :=
  if decide (ch < 0 ∨ Z.of_nat IPC_MAX_CHANNEL_COUNT ≤ ch) then mret tt else
  c ← get_chan ch;
  f ← lift (irq_free (ipc_irq c));
  if decide (f = GUL_MSI_IRQ_BUSY) then
    _ ← lift (irq_num_txt (ipc_irq c));
    num ← lift (irq_num (ipc_irq c));
    idx ← lift (irq_index (ipc_irq c));
    hs ← gets handlers;
    _ ← modify (with_handlers (filter (λ p, p ≠ (num, ch)) hs));
    t ← gets irq;
    let t := gul_dev_put_msi idx t in
    _ ← modify (with_irq t);
    e ← lift (t !! Z.to_nat idx);
    set_chan ch (Chan (evt_fd_ctxt c)
      (IpcIrq (Some (free e)) (irq_num (ipc_irq c)) (msi_value (ipc_irq c)) (Some 0)
         (irq_num_txt (ipc_irq c))))
  else mret tt.

(** ** The ioctl handler *)

(** The request; its argument is [None] when [copy_from_user] faults.  A
    registration carries the channel number and event descriptor. *)
Inductive ipc_cmd :=
  | IOCTL_GUL_IPC_QUERY_PCI_MAP
  | IOCTL_GUL_IPC_PUT_PCI_MAP (d : option mem_strt_addr_t)
  | IOCTL_GUL_IPC_GET_PCI_MAP (d : option mem_strt_addr_t)
  | IOCTL_GUL_IPC_GET_SYS_MAP (m : option sys_map_t)
  | IOCTL_GUL_IPC_CHANNEL_REGISTER (c : option Z)
  | IOCTL_GUL_IPC_CHANNEL_DEREGISTER (c : option Z)
  | IOCTL_GUL_IPC_CHANNEL_RAISE_INTERRUPT (id : option Z)
  | IOCTL_OTHER.

(** What is copied back to the caller. *)
Inductive ipc_out :=
  | OutNone
  | OutQuery (cur_addr mem_avail mem_total alloc_cnt : Z) (l : list mem_strt_addr_t)
  | OutDesc (d : mem_strt_addr_t)
  | OutSysMap (m : sys_map_t)
  | OutMsi (msi : Z).

(** [copy_to_user], and the common end. *)
Definition reply (k : kernel) (o : ipc_out) : I (Z * ipc_out) :=
  if copy_to_user_fails k then mret (- EFAULT, OutNone) else mret (0, o).

Definition query_pci_map (a : gul_pci_allocator_s) : ipc_out :=
  OutQuery (pci_alloc_addr a) (pci_avail_space a) (pci_total_space a) (pci_alloc_cnt a)
    ((λ cb, MemDesc (h_addr cb) (m_addr cb) (size cb)) <$> take (Z.to_nat (pci_alloc_cnt a)) (cbs a)).

Definition put_pci_map (d : mem_strt_addr_t) : I (Z * ipc_out) :=
  a ← gets pci_allocator;
  '(ret, a) ← lift (gul_ipc_pci_map_free (host_phys d) a);
  _ ← modify (with_allocator a);
  if decide (ret ≠ 0) then mret (- EFAULT, OutNone) else mret (0, OutNone).

Definition get_pci_map (k : kernel) (d : mem_strt_addr_t) : I (Z * ipc_out) :=
  if decide (d_size d < 0) then mret (- EINVAL, OutNone) else
  a ← gets pci_allocator;
  if decide (gul_ipc_pci_map_is_overlap (host_phys d) (u32 (d_size d)) a < 0)
  then mret (- EINVAL, OutNone) else
  '(ret, addr, a, ws) ← lift (gul_ipc_pci_map_alloc (host_phys d) (modem_phys d) (i32 (d_size d)) a);
  _ ← modify (with_allocator a);
  _ ← modify (with_writes ws);
  if decide (ret < 0) then mret (- ENOMEM, OutNone) else
  reply k (OutDesc (MemDesc (host_phys d) addr (d_size d))).

(** The fields the handler does not assign keep the caller's value. *)
Definition get_sys_map (k : kernel) (m : sys_map_t) : I (Z * ipc_out) :=
  w ← gets id;
  let m := SysMap
    (MemDesc (fst (pebm w) + hif_offset w) (modem_phys (mhif_start m)) (hif_size w))
    (MemDesc (fst (pebm w)) (modem_phys (peb_start m)) (snd (pebm w)))
    (MemDesc (fst (ccsr w)) (modem_phys (modem_ccsrbar m)) (snd (ccsr w)))
    (hugepg_start m) in
  _ ← modify (with_sys_map m);
  if copy_to_user_fails k then mret (- EFAULT, OutNone) else
  _ ← modify with_host_ready;
  mret (0, OutSysMap m).

Definition channel_register (k : kernel) (ch : Z) : I (Z * ipc_out) :=
  if decide (ch < 0) then mret (- EFAULT, OutNone) else
  ret ← register_ipc_channel_irq k ch;
  if decide (ret < 0) then mret (- EFAULT, OutNone) else
  c ← get_chan ch;
  v ← lift (msi_value (ipc_irq c));
  reply k (OutMsi v).

Definition gul_ipc_ioctl (cmd : ipc_cmd) (k : kernel) : I (Z * ipc_out) :=
  match cmd with
  | IOCTL_GUL_IPC_QUERY_PCI_MAP => a ← gets pci_allocator; reply k (query_pci_map a)
  | IOCTL_GUL_IPC_PUT_PCI_MAP (Some d) => put_pci_map d
  | IOCTL_GUL_IPC_GET_PCI_MAP (Some d) => get_pci_map k d
  | IOCTL_GUL_IPC_GET_SYS_MAP (Some m) => get_sys_map k m
  | IOCTL_GUL_IPC_CHANNEL_REGISTER (Some ch) => channel_register k ch
  | IOCTL_GUL_IPC_CHANNEL_DEREGISTER (Some ch) =>
      _ ← deregister_ipc_channel_irq ch; mret (0, OutNone)
  | IOCTL_GUL_IPC_CHANNEL_RAISE_INTERRUPT (Some id) =>
      _ ← modify (with_writes (raise_modem_msi id)); mret (0, OutNone)
  | IOCTL_OTHER => mret (- ENOTTY, OutNone)
  | _ => mret (- EFAULT, OutNone)
  end.

(** ** Probe and removal *)

(** The device state once [gul_ipc_probe] succeeded: [kmalloc]ed and not cleared
    but for the allocator. *)
Definition chan_unset : ipc_chan := Chan None (IpcIrq None None None None None).
Definition probed (t : list irq_info) (pebm ccsr : Z * Z) (off sz : Z) (garbage : sys_map_t)
    (size_l mod_phys_h mod_phys_l : Z) : ipc_world :=
  World t pebm ccsr off sz [] [] false (replicate IPC_MAX_CHANNEL_COUNT chan_unset) garbage
    (gul_setup_pci_space size_l mod_phys_h mod_phys_l).

(** The loop of [gul_ipc_remove] over the channels. *)
Fixpoint deregister_all (n : nat) (ch : Z) : I unit :=
  match n with
  | O => mret tt
  | S n => _ ← deregister_ipc_channel_irq ch; deregister_all n (ch + 1)
  end.
Definition gul_ipc_remove : I unit := deregister_all IPC_MAX_CHANNEL_COUNT 0.

End Ipc.
