(* ===== verification/GulIpcAlloc.v ===== *)
(** * The allocator of the IPC driver implements a stack of mappings

    The specification is a list of mappings, oldest first: a request appends
    one, a release marks the first live mapping of an address and drops the
    dead ones on top.  The allocator's addresses, counters and window indices
    are functions of that list. *)
From S2P Require Import Prelude GulMsi GulIpc.
#[global] Open Scope Z_scope.

(** ** Specification *)
Record mapping := Mapping { mp_host : Z; mp_size : Z; mp_live : bool }.

Definition used (l : list mapping) : Z := foldr (λ m s, mp_size m + s) 0 l.

(** The first live mapping of [h] is released. *)
Fixpoint mark (h : Z) (l : list mapping) : option (list mapping) :=
  match l with
  | [] => None
  | x :: l =>
      if decide (mp_host x = h ∧ mp_live x = true)
      then Some (Mapping (mp_host x) (mp_size x) false :: l)
      else cons x <$> mark h l
  end.

(** The dead mappings on top of the stack are dropped. *)
Fixpoint trim (l : list mapping) : list mapping :=
  match l with
  | [] => []
  | x :: l =>
      match trim l with
      | [] => if mp_live x then [x] else []
      | k => x :: k
      end
  end.

(** The range [h, h + sz) has an end inside the mapping. *)
Definition clash (h sz : Z) (m : mapping) : Prop :=
  cb_overlaps h sz (Cb 0 (mp_host m) (mp_size m) 0 0).
#[export] Instance clash_dec h sz m : Decision (clash h sz m).
Proof. unfold clash. apply _. Defined.

Section Spec.
Context `{HostIf}.

Definition spec_get (total h sz : Z) (l : list mapping) : Z * list mapping :=
  if decide (sz < 0 ∨ Exists (clash h sz) l) then (- EINVAL, l)
  else if decide (total - used l < sz ∨ (MAX_PCI_USER_ALLOC_COUNT ≤ length l)%nat) then (- ENOMEM, l)
  else (0, l ++ [Mapping h sz true]).

Definition spec_put (h : Z) (l : list mapping) : Z * list mapping :=
  match mark h l with Some l' => (0, trim l') | None => (- EFAULT, l) end.

(** ** The allocator that represents a stack *)

(** The entries of a stack whose first address is [m] and first window [i]. *)
Fixpoint entries (m : Z) (i : nat) (l : list mapping) : list gul_pci_alloc_cb :=
  match l with
  | [] => []
  | x :: l =>
      Cb m (mp_host x) (mp_size x) (Z.b2z (mp_live x)) (Z.of_nat i) :: entries (m + mp_size x) (S i) l
  end.

Definition mapping_ok (m : mapping) : Prop := 0 ≤ mp_size m < 2147483648.

Record represents (base total : Z) (l : list mapping) (a : gul_pci_allocator_s) : Prop := Repr {
  repr_total : pci_total_space a = total;
  repr_addr : pci_alloc_addr a = base + used l;
  repr_avail : pci_avail_space a = total - used l;
  repr_cnt : pci_alloc_cnt a = zlen l;
  repr_max : (length l ≤ MAX_PCI_USER_ALLOC_COUNT)%nat;
  repr_cbs_len : length (cbs a) = MAX_PCI_USER_ALLOC_COUNT;
  repr_cbs : take (length l) (cbs a) = entries base 0 l;
  repr_map : iatu_idx_map a =
    replicate (length l) 1 ++ replicate (MAX_PCI_USER_ALLOC_COUNT - length l) 0;
  repr_sizes : Forall mapping_ok l;
  repr_fit : used l ≤ total }.

End Spec.

(** ** Lemmas on stacks *)
Lemma used_app l k : used (l ++ k) = used l + used k.
Proof. induction l as [|x l IH]; cbn; [done|]. unfold used in *. cbn. lia. Qed.

Lemma used_nonneg l : Forall mapping_ok l → 0 ≤ used l.
Proof. induction 1 as [|x l [? ?] _ IH]; cbn; [done|]. unfold used in IH. lia. Qed.

Lemma trim_snoc l x : trim (l ++ [x]) = if mp_live x then l ++ [x] else trim l.
Proof.
  induction l as [|y l IH]; cbn; [done|]. rewrite IH. destruct (mp_live x) eqn:Hx; [|done].
  by destruct l.
Qed.

Lemma trim_idem l : trim (trim l) = trim l.
Proof.
  induction l as [|x l IH] using rev_ind; [done|]. rewrite trim_snoc.
  destruct (mp_live x) eqn:Hx; [|done]. by rewrite trim_snoc, Hx.
Qed.

(** A trimmed stack without a live mapping is empty. *)
Lemma trim_all_dead l : Forall (λ m, mp_live m = false) l → trim l = [].
Proof. induction 1 as [|x l Hx _ IH]; cbn; [done|]. by rewrite IH, Hx. Qed.

Lemma mark_inv h l l' : mark h l = Some l' →
  length l' = length l ∧ used l' = used l ∧ (Forall mapping_ok l → Forall mapping_ok l').
Proof.
  revert l'. induction l as [|x l IH]; cbn; [done|]. intros l'. case_decide.
  - intros [= <-]. cbn. split; [done|]. split; [done|].
    intros [Hx Hl]%Forall_cons. by constructor.
  - destruct (mark h l) as [k|] eqn:Hk; [|done]. intros [= <-]. cbn.
    destruct (IH k eq_refl) as (Hlen & Hu & Hok). unfold used in Hu.
    split; [lia|]. split; [lia|]. intros [Hx Hl]%Forall_cons. constructor; auto.
Qed.

Section Repr.
Context `{HostIf}.

Lemma length_entries m i l : length (entries m i l) = length l.
Proof. revert m i. induction l as [|x l IH]; intros m i; cbn; [done|]. by rewrite IH. Qed.

Lemma entries_app m i l k :
  entries m i (l ++ k) = entries m i l ++ entries (m + used l) (i + length l) k.
Proof.
  revert m i. induction l as [|x l IH]; intros m i; cbn.
  - by rewrite Z.add_0_r, Nat.add_0_r.
  - rewrite IH. unfold used. f_equal. f_equal; f_equal; lia.
Qed.

(** The search of a release, and the entry it changes. *)
Lemma find_entries h m i l :
  match list_find (λ cb, h_addr cb = h ∧ valid cb ≠ 0) (entries m i l) with
  | Some (j, cb) => ∃ l', mark h l = Some l' ∧ (j < length l)%nat ∧
      entries m i l' = <[j := Cb (m_addr cb) (h_addr cb) (size cb) 0 (iatu_idx cb)]> (entries m i l)
  | None => mark h l = None
  end.
Proof.
  revert m i. induction l as [|x l IH]; intros m i; cbn [entries list_find mark]; [done|].
  cbn [h_addr valid].
  destruct (decide (mp_host x = h ∧ Z.b2z (mp_live x) ≠ 0)) as [[Hh Hv]|Hn].
  - assert (mp_live x = true) by (by destruct (mp_live x)).
    rewrite decide_True by done. eexists. split; [done|]. split; [cbn; lia|done].
  - rewrite decide_False by (intros [? Hl]; apply Hn; by rewrite Hl).
    specialize (IH (m + mp_size x) (S i)).
    destruct (list_find _ (entries _ _ l)) as [[j cb]|]; cbn.
    + destruct IH as (l' & Hm & Hj & He). exists (x :: l'). rewrite Hm. cbn.
      split; [done|]. split; [lia|]. by rewrite He.
    + by rewrite IH.
Qed.

Lemma clash_entries h sz m i l :
  Exists (cb_overlaps h sz) (entries m i l) ↔ Exists (clash h sz) l.
Proof.
  revert m i. induction l as [|x l IH]; intros m i; cbn; [by rewrite !Exists_nil|].
  rewrite !Exists_cons, IH. done.
Qed.

(** The first free window of a map whose first [n] are taken. *)
Lemma find_window n k : list_find (λ x, x = 0) (replicate n 1 ++ replicate (S k) 0) = Some (n, 0).
Proof.
  remember (replicate (S k) 0) as z eqn:Hz.
  induction n as [|n IH]; [by rewrite Hz|]. cbn. by rewrite IH.
Qed.

(** ** The operations on a represented stack *)
Section Ops.
Context (base total : Z) (Hbase : 0 ≤ base) (Htotal : 0 ≤ total) (Hend : base + total < 4294967296).
Local Abbreviation rep := (represents base total).

Lemma repr_setup size_l mod_h mod_l : size_l = total → Z.lor (Z.shiftl mod_h 32) mod_l = base →
  rep [] (gul_setup_pci_space size_l mod_h mod_l).
Proof.
  intros -> <-. split; cbn; try done; try lia.
  - by rewrite length_replicate.
  - f_equal. lia.
Qed.

Lemma alloc_refused h addr sz l a : rep l a → 0 ≤ sz < 2147483648 →
  total - used l < sz ∨ (MAX_PCI_USER_ALLOC_COUNT ≤ length l)%nat →
  gul_ipc_pci_map_alloc h addr sz a = Some (-1, addr, a, []).
Proof.
  intros Hr Hsz Hfull. unfold gul_ipc_pci_map_alloc, u32.
  rewrite (repr_avail _ _ _ _ Hr), (repr_cnt _ _ _ _ Hr), Z.mod_small by lia.
  case_decide; [done|]. rewrite decide_True; [done|]. unfold zlen. lia.
Qed.

Lemma alloc_granted h addr sz l a : rep l a → 0 ≤ sz < 2147483648 →
  sz ≤ total - used l → (length l < MAX_PCI_USER_ALLOC_COUNT)%nat →
  ∃ a', gul_ipc_pci_map_alloc h addr sz a = Some (0, base + used l, a',
      gul_ipc_create_hugepage_outbound (GUL_OB_WIN_HUGE_PAGE_BUFS + zlen l) h (base + used l) sz) ∧
    rep (l ++ [Mapping h sz true]) a'.
Proof.
  intros [Ht Ha Hv Hc Hm Hl Hcbs Hmap Hs Hf] Hsz Hroom Hslots.
  assert (Hu := used_nonneg _ Hs).
  destruct (lookup_lt_is_Some_2 (cbs a) (length l)) as [cb Hcb]; [lia|].
  assert (Hk : ∃ k, (MAX_PCI_USER_ALLOC_COUNT - length l = S k)%nat) by (exists (Nat.pred (MAX_PCI_USER_ALLOC_COUNT - length l)); lia).
  destruct Hk as [k Hk].
  unfold gul_ipc_pci_map_alloc. rewrite Hv, Hc.
  assert (Hw : u32 sz = sz) by (apply Z.mod_small; lia). rewrite Hw.
  case_decide; [lia|]. case_decide; [unfold zlen in *; lia|]. cbn [with_space cbs pci_alloc_cnt]. rewrite Hc.
  replace (Z.to_nat (zlen l)) with (length l) by (unfold zlen; lia).
  rewrite Hcb. cbn [mbind option_bind]. unfold gul_pci_get_iatu_idx. cbn [iatu_idx_map with_space].
  rewrite Hmap, Hk, find_window.
  cbn [with_map with_cbs with_cnt with_space cbs iatu_idx_map pci_alloc_cnt].
  assert (Hneg : ¬ Z.of_nat (length l) < 0) by lia. rewrite decide_False by exact Hneg.
  rewrite list_insert_insert_eq, Ha. unfold u32, u64. rewrite !(Z.mod_small (base + used l)) by lia.
  eexists. split; [reflexivity|].
  split; cbn [pci_total_space pci_alloc_addr pci_avail_space pci_alloc_cnt cbs iatu_idx_map
              with_map with_cbs with_cnt with_space].
  - done.
  - rewrite used_app, Z.mod_small by lia. cbn. lia.
  - rewrite used_app, Z.mod_small by lia. cbn. lia.
  - rewrite zlen_app, zlen_cons, zlen_nil. lia.
  - rewrite length_app. cbn. lia.
  - by rewrite length_insert.
  - rewrite length_app, Nat.add_1_r. cbn [length].
    rewrite (take_S_r _ _ (Cb (base + used l) h sz 1 (Z.of_nat (length l))))
      by (apply list_lookup_insert_eq; lia).
    rewrite take_insert_ge, Hcbs, entries_app by done. done.
  - rewrite length_app, Nat.add_1_r. cbn [length].
    rewrite insert_app_r_alt by (by rewrite length_replicate).
    rewrite length_replicate, Nat.sub_diag. cbn.
    replace (MAX_PCI_USER_ALLOC_COUNT - S (length l))%nat with k by lia.
    change (1 :: replicate k 0) with ([1] ++ replicate k 0).
    rewrite app_assoc, <- replicate_S_end. done.
  - apply Forall_app. split; [done|]. constructor; [done|constructor].
  - rewrite used_app. cbn. lia.
Qed.

(** Dropping a dead mapping on top of the stack. *)
Lemma gc_pop l x a : rep (l ++ [x]) (with_cnt (zlen (l ++ [x])) a) → mp_live x = false →
  ∃ a', rep l (with_cnt (zlen l) a') ∧ gc_loop (S (length l)) a = gc_loop (length l) a'.
Proof.
  intros [Ht Ha Hv Hc Hm Hl Hcbs Hmap Hs Hf] Hx.
  cbn [pci_total_space pci_alloc_addr pci_avail_space pci_alloc_cnt cbs iatu_idx_map with_cnt] in *.
  rewrite length_app, Nat.add_1_r in *. cbn [length] in *.
  rewrite used_app in *. cbn in Ha, Hv, Hf.
  apply Forall_app in Hs as [Hs Hok]. apply Forall_cons in Hok as [Hok _]. unfold mapping_ok in Hok.
  assert (Hu := used_nonneg _ Hs).
  assert (Hcb : cbs a !! length l = Some (Cb (base + used l) (mp_host x) (mp_size x) 0 (Z.of_nat (length l)))).
  { rewrite <- (lookup_take_lt _ (S (length l))), Hcbs, entries_app by lia.
    rewrite lookup_app_r, length_entries, Nat.sub_diag by (by rewrite length_entries).
    cbn. by rewrite Hx. }
  assert (Hput : ∀ b, iatu_idx_map b = iatu_idx_map a →
    gul_pci_put_iatu_idx (Z.of_nat (length l)) b =
    Some (with_map (replicate (length l) 1 ++ replicate (MAX_PCI_USER_ALLOC_COUNT - length l) 0) b)).
  { intros b Hb. unfold gul_pci_put_iatu_idx. rewrite Hb, Hmap, Nat2Z.id.
    rewrite decide_True by (unfold zlen; rewrite length_app, !length_replicate; lia).
    do 2 f_equal. rewrite replicate_S_end, <- app_assoc.
    rewrite insert_app_r_alt by (by rewrite length_replicate).
    rewrite length_replicate, Nat.sub_diag. cbn.
    by replace (MAX_PCI_USER_ALLOC_COUNT - length l)%nat
      with (S (MAX_PCI_USER_ALLOC_COUNT - S (length l))) by lia. }
  assert (Htop : u64 (base + used l + mp_size x) = pci_alloc_addr a).
  { rewrite Ha. unfold u64. rewrite Z.mod_small; lia. }
  eexists. split; [|cbn [gc_loop]; rewrite Hcb; cbn [mbind option_bind valid m_addr size iatu_idx];
    rewrite decide_False by (intros Hn; by apply Hn); rewrite (decide_True _ _ Htop), Hput by done;
    reflexivity].
  split; cbn [pci_total_space pci_alloc_addr pci_avail_space pci_alloc_cnt cbs iatu_idx_map
              with_cnt with_map with_space]; try done; try lia.
  - unfold u32. rewrite Hv, Z.mod_small by lia. lia.
  - apply (f_equal (take (length l))) in Hcbs. rewrite take_take, Nat.min_l in Hcbs by lia.
    rewrite Hcbs, entries_app, take_app_le by (rewrite length_entries; lia).
    rewrite <- (length_entries base 0 l). apply firstn_all.
Qed.

Lemma gc_loop_trims l a : rep l (with_cnt (zlen l) a) →
  ∃ a', gc_loop (length l) a = Some (length (trim l), a') ∧
    rep (trim l) (with_cnt (zlen (trim l)) a').
Proof.
  revert a. induction l as [|x l IH] using rev_ind; intros a Hr; [by exists a|].
  rewrite trim_snoc, length_app, Nat.add_1_r. cbn [length]. destruct (mp_live x) eqn:Hx.
  - exists a. split; [|done]. cbn [gc_loop].
    assert (Hcb : cbs a !! length l = Some (Cb (base + used l) (mp_host x) (mp_size x) 1 (Z.of_nat (length l)))).
    { destruct Hr as [_ _ _ _ _ _ Hcbs _ _ _]. cbn [cbs with_cnt] in Hcbs.
      rewrite length_app, Nat.add_1_r in Hcbs. cbn [length] in Hcbs.
      rewrite <- (lookup_take_lt _ (S (length l))), Hcbs, entries_app by lia.
      rewrite lookup_app_r, length_entries, Nat.sub_diag by (by rewrite length_entries).
      cbn. by rewrite Hx. }
    rewrite Hcb. cbn [mbind option_bind valid]. rewrite decide_True by done.
    rewrite length_app, Nat.add_1_r. done.
  - destruct (gc_pop l x a Hr Hx) as (a1 & Hr1 & ->). by apply IH.
Qed.

(** A release follows the specification. *)
Lemma free_spec h l a : rep l a →
  match mark h l with
  | Some l' => ∃ a', gul_ipc_pci_map_free h a = Some (0, a') ∧ rep (trim l') a'
  | None => gul_ipc_pci_map_free h a = Some (-1, a)
  end.
Proof.
  intros Hr. pose proof Hr as [Ht Ha Hv Hc Hm Hl Hcbs Hmap Hs Hf].
  unfold gul_ipc_pci_map_free. rewrite Hc.
  replace (Z.to_nat (zlen l)) with (length l) by (unfold zlen; lia). rewrite Hcbs.
  assert (Hfind := find_entries h base 0 l).
  destruct (list_find _ (entries base 0 l)) as [[j cb]|]; [|by rewrite Hfind].
  destruct Hfind as (l' & Hmk & Hj & He). rewrite Hmk.
  destruct (mark_inv _ _ _ Hmk) as (Hlen & Hu & Hok).
  unfold gul_ipc_pci_map_free_gc. cbn [pci_alloc_cnt with_cbs]. rewrite Hc.
  replace (Z.to_nat (zlen l)) with (length l') by (unfold zlen; lia).
  edestruct (gc_loop_trims l') as (a' & Hg & Hr'); [|rewrite Hg; eexists; split; [done|exact Hr']].
  split; cbn [pci_total_space pci_alloc_addr pci_avail_space pci_alloc_cnt cbs iatu_idx_map with_cbs with_cnt];
    rewrite ?Hlen, ?Hu; try done; auto.
  - by rewrite length_insert.
  - rewrite He, <- Hcbs. by rewrite take_insert_lt.
Qed.

Lemma overlap_spec h sz l a : rep l a →
  gul_ipc_pci_map_is_overlap h sz a = if decide (Exists (clash h sz) l) then -1 else 0.
Proof.
  intros [Ht Ha Hv Hc Hm Hl Hcbs Hmap Hs Hf]. unfold gul_ipc_pci_map_is_overlap. rewrite Hc.
  replace (Z.to_nat (zlen l)) with (length l) by (unfold zlen; lia). rewrite Hcbs.
  apply decide_ext, clash_entries.
Qed.

End Ops.
End Repr.

(** ** The ioctl handler *)
Section Ioctl.
Context `{HostIf}.

Lemma keeps_get_chan {X} (f : ipc_world → X) ch : keeps f (get_chan ch).
Proof.
  intros w c w'. unfold get_chan. case_decide; [|done].
  destruct (asyn_chans w !! Z.to_nat ch); cbn; [by intros [= _ <-]|done].
Qed.
#[local] Hint Resolve keeps_get_chan : keeps.

(** Only the two map requests touch the allocator. *)
Lemma ioctl_keeps_allocator c k : (∀ d, c ≠ IOCTL_GUL_IPC_PUT_PCI_MAP (Some d)) →
  (∀ d, c ≠ IOCTL_GUL_IPC_GET_PCI_MAP (Some d)) → keeps pci_allocator (gul_ipc_ioctl c k).
Proof.
  intros Hput Hget.
  destruct c as [|[d|]|[d|]|[m|]|[ch|]|[ch|]|[id|]|]; cbn [gul_ipc_ioctl];
    try (by destruct (Hput d)); try (by destruct (Hget d));
    unfold get_sys_map, channel_register, register_ipc_channel_irq,
      deregister_ipc_channel_irq, set_chan, reply; keeps_tac.
Qed.

Context (base total : Z) (Hbase : 0 ≤ base) (Htotal : 0 ≤ total) (Hend : base + total < 4294967296).
Local Abbreviation rep := (represents base total).

(** What a request for a mapping answers when the allocator granted it at
    [addr], or refused it with [r]. *)
Definition get_answer (k : kernel) (d : mem_strt_addr_t) (r addr : Z) : Z * ipc_out :=
  if decide (r ≠ 0) then (r, OutNone)
  else if copy_to_user_fails k then (- EFAULT, OutNone)
  else (0, OutDesc (MemDesc (host_phys d) addr (d_size d))).

Definition window (n : nat) (h addr sz : Z) : list (reg * Z) :=
  gul_ipc_create_hugepage_outbound (GUL_OB_WIN_HUGE_PAGE_BUFS + Z.of_nat n) h addr sz.

Lemma with_allocator_id w : with_writes [] (with_allocator (pci_allocator w) w) = w.
Proof. destruct w. unfold with_writes, with_allocator. cbn. by rewrite app_nil_r. Qed.

Lemma ioctl_get_spec k d l w : rep l (pci_allocator w) → d_size d < 2147483648 →
  let '(r, l') := spec_get total (host_phys d) (d_size d) l in
  ∃ a', gul_ipc_ioctl (IOCTL_GUL_IPC_GET_PCI_MAP (Some d)) k w =
      Some (get_answer k d r (base + used l),
        with_writes (if decide (r = 0) then window (length l) (host_phys d) (base + used l) (d_size d) else [])
          (with_allocator a' w)) ∧
    rep l' a'.
Proof.
  intros Hr Hsz. unfold spec_get. cbn [gul_ipc_ioctl]. unfold get_pci_map.
  destruct (decide (d_size d < 0)) as [Hneg|Hpos].
  { rewrite decide_True by (by left). exists (pci_allocator w).
    rewrite with_allocator_id. done. }
  assert (Hu : u32 (d_size d) = d_size d) by (apply Z.mod_small; lia).
  assert (Hi : i32 (d_size d) = d_size d) by (unfold i32; rewrite Z.mod_small; lia).
  rewrite M_bind_eq. cbn [gets]. rewrite Hu, Hi, (overlap_spec base total _ _ l) by done.
  destruct (decide (Exists _ l)) as [Hc|Hc].
  { rewrite (decide_True (P := d_size d < 0 ∨ _)) by (by right).
    exists (pci_allocator w). by rewrite with_allocator_id. }
  rewrite (decide_False (P := 0 < 0)) by lia. rewrite (decide_False (P := d_size d < 0 ∨ _)) by tauto.
  destruct (decide (total - used l < d_size d ∨ _)) as [Hf|Hf]; rewrite M_bind_eq.
  - rewrite (alloc_refused base total _ _ _ l) by (done || lia).
    by exists (pci_allocator w).
  - destruct (alloc_granted base total Hbase Hend (host_phys d) (modem_phys d) (d_size d) l
      (pci_allocator w)) as (a' & Ha & Hr'); [done|lia|lia|lia|].
    rewrite Ha. exists a'. split; [|exact Hr'].
    cbn [lift]. unfold get_answer, reply. rewrite (decide_False (P := 0 ≠ 0)) by lia.
    unfold mbind, M_bind, modify. rewrite decide_False by lia. by destruct (copy_to_user_fails k).
Qed.

Lemma ioctl_put_spec k d l w : rep l (pci_allocator w) →
  let '(r, l') := spec_put (host_phys d) l in
  ∃ a', gul_ipc_ioctl (IOCTL_GUL_IPC_PUT_PCI_MAP (Some d)) k w =
      Some ((r, OutNone), with_allocator a' w) ∧ rep l' a'.
Proof.
  intros Hr. unfold spec_put. cbn [gul_ipc_ioctl]. unfold put_pci_map.
  rewrite M_bind_eq. cbn [gets].
  assert (Hf := free_spec base total Hbase Hend (host_phys d) l _ Hr).
  destruct (mark (host_phys d) l) as [l'|].
  - destruct Hf as (a' & Hf & Hr'). exists a'. by rewrite Hf.
  - exists (pci_allocator w). by rewrite Hf.
Qed.

End Ioctl.

(** ** Reachable states *)

(** A request whose size fits the [int] the allocator takes. *)
Definition request_ok (c : ipc_cmd) : Prop :=
  match c with
  | IOCTL_GUL_IPC_GET_PCI_MAP (Some d) => d_size d < 2147483648
  | _ => True
  end.

Definition ipc_step `{HostIf} (w w' : ipc_world) : Prop :=
  ∃ c k r, request_ok c ∧ gul_ipc_ioctl c k w = Some (r, w').

Section Reach.
Context `{HostIf}.
Context (base total : Z) (Hbase : 0 ≤ base) (Htotal : 0 ≤ total) (Hend : base + total < 4294967296).
Local Abbreviation rep := (represents base total).

(** The stack behind a reachable allocator has a live mapping on top. *)
Definition stack_inv (w : ipc_world) : Prop := ∃ l, rep l (pci_allocator w) ∧ trim l = l.

Lemma step_keeps_stack w w' : ipc_step w w' → stack_inv w → stack_inv w'.
Proof.
  intros (c & k & r & Hok & Hrun) (l & Hr & Ht).
  destruct c as [|[d|]|[d|]|m|ch|ch|id|];
    try (exists l; split; [|exact Ht];
         erewrite ioctl_keeps_allocator; [exact Hr|..|exact Hrun]; discriminate).
  - assert (Hp := ioctl_put_spec base total Hbase Hend k d l w Hr). unfold spec_put in Hp.
    destruct (mark (host_phys d) l) as [l'|] eqn:Hm; destruct Hp as (a' & Hp & Hr');
      rewrite Hp in Hrun; injection Hrun as _ <-.
    + exists (trim l'). by rewrite trim_idem.
    + by exists l.
  - assert (Hg := ioctl_get_spec base total Hbase Hend k d l w Hr Hok). unfold spec_get in Hg.
    destruct (decide (d_size d < 0 ∨ _)); [|destruct (decide (total - used l < d_size d ∨ _))];
      destruct Hg as (a' & Hg & Hr'); rewrite Hg in Hrun; injection Hrun as _ <-;
      [by exists l|by exists l|].
    exists (l ++ [Mapping (host_phys d) (d_size d) true]). by rewrite trim_snoc.
Qed.

Lemma reach_stack t pebm ccsr off hsz g mh ml w : Z.lor (Z.shiftl mh 32) ml = base →
  rtc ipc_step (probed t pebm ccsr off hsz g total mh ml) w → stack_inv w.
Proof.
  intros Hb Hrtc. eapply (rtc_invariant _ stack_inv); [exact Hrtc|exact step_keeps_stack|].
  exists []. split; [|done]. by apply repr_setup.
Qed.

Lemma entries_lookup m i l j cb : entries m i l !! j = Some cb →
  ∃ x, l !! j = Some x ∧ m_addr cb = m + used (take j l) ∧ size cb = mp_size x ∧
    valid cb = Z.b2z (mp_live x) ∧ iatu_idx cb = Z.of_nat (i + j).
Proof.
  revert m i j. induction l as [|y l IH]; intros m i [|j]; cbn; try done.
  - intros [= <-]. exists y. repeat split; cbn; lia.
  - intros (x & Hx & Hm & Hs & Hv & Hi)%IH. exists x. unfold used in Hm. repeat split; try done; lia.
Qed.

(** The entries of a represented allocator, one by one. *)
Lemma repr_lookup l a j cb : rep l a → (Z.of_nat j < pci_alloc_cnt a) → cbs a !! j = Some cb →
  ∃ x, l !! j = Some x ∧ m_addr cb = base + used (take j l) ∧ size cb = mp_size x ∧
    valid cb = Z.b2z (mp_live x) ∧ iatu_idx cb = Z.of_nat j.
Proof.
  intros [_ _ _ Hc _ _ Hcbs _ _ _] Hj Hl. apply (entries_lookup base 0). rewrite <- Hcbs.
  rewrite lookup_take_lt; [done|]. unfold zlen in Hc. lia.
Qed.

Lemma used_take_S l j x : l !! j = Some x → used (take (S j) l) = used (take j l) + mp_size x.
Proof. intros Hx. rewrite (take_S_r _ _ _ Hx), used_app. cbn. lia. Qed.

Lemma used_take_le l i j : Forall mapping_ok l → (i ≤ j)%nat → used (take i l) ≤ used (take j l).
Proof.
  intros Hl Hij. replace (take j l) with (take i l ++ take (j - i) (drop i l)).
  - rewrite used_app. assert (0 ≤ used (take (j - i) (drop i l))); [|lia].
    by apply used_nonneg, Forall_take, Forall_drop.
  - rewrite take_take_drop. f_equal. lia.
Qed.

End Reach.

Section Claims.
Context `{HostIf}.

(** C26: the two map requests refine the specification: on an allocator that
    represents a stack, a request answers as the specification does, programs
    the next window for the range it granted and nothing otherwise, leaves the
    rest of the device alone, and the allocator represents the new stack. *)
Theorem pci_map_refines base total l w k d :
  0 ≤ base → base + total < 4294967296 → d_size d < 2147483648 →
  represents base total l (pci_allocator w) →
  (let '(r, l') := spec_get total (host_phys d) (d_size d) l in
   ∃ a', gul_ipc_ioctl (IOCTL_GUL_IPC_GET_PCI_MAP (Some d)) k w =
      Some (get_answer k d r (base + used l),
        with_writes (if decide (r = 0) then window (length l) (host_phys d) (base + used l) (d_size d) else [])
          (with_allocator a' w)) ∧
     represents base total l' a') ∧
  (let '(r, l') := spec_put (host_phys d) l in
   ∃ a', gul_ipc_ioctl (IOCTL_GUL_IPC_PUT_PCI_MAP (Some d)) k w =
      Some ((r, OutNone), with_allocator a' w) ∧ represents base total l' a').
Proof. intros Hb He Hd Hr. split; [by apply ioctl_get_spec|by apply ioctl_put_spec]. Qed.

(** after any requests to the driver the mappings, released ones still on
    the stack included, occupy disjoint ranges of the modem's PCI space in the
    order they were granted, each with its own address window, and the space
    left is what they do not cover. *)
Theorem pci_mappings_disjoint base total t pebm ccsr off hsz g mh ml w :
  0 ≤ base → 0 ≤ total → base + total < 4294967296 → Z.lor (Z.shiftl mh 32) ml = base →
  rtc ipc_step (probed t pebm ccsr off hsz g total mh ml) w →
  let a := pci_allocator w in
  (∀ i j ci cj, (i < j)%nat → Z.of_nat j < pci_alloc_cnt a →
    cbs a !! i = Some ci → cbs a !! j = Some cj →
    base ≤ m_addr ci ∧ 0 ≤ size ci ∧ m_addr ci + size ci ≤ m_addr cj ∧ 0 ≤ size cj ∧
    m_addr cj + size cj ≤ pci_alloc_addr a ∧ iatu_idx ci ≠ iatu_idx cj) ∧
  pci_alloc_addr a + pci_avail_space a = base + total ∧ 0 ≤ pci_avail_space a.
Proof.
  intros Hb Ht He Hml Hrtc a.
  destruct (reach_stack base total Hb Ht He t pebm ccsr off hsz g mh ml w Hml Hrtc) as (l & Hr & _).
  fold a in Hr. pose proof Hr as [_ Ha Hv Hc _ _ _ _ Hs Hf]. split; [|lia].
  intros i j ci cj Hij Hj Hi Hcj.
  destruct (repr_lookup _ _ _ _ i ci Hr) as (x & Hx & Hmi & Hsi & _ & Hii); [lia|done|].
  destruct (repr_lookup _ _ _ _ j cj Hr) as (y & Hy & Hmj & Hsj & _ & Hij'); [lia|done|].
  assert (Hux := used_take_S _ _ _ Hx). assert (Huy := used_take_S _ _ _ Hy).
  assert (H1 := used_take_le l (S i) j Hs Hij). assert (H0 := used_take_le l 0 i Hs ltac:(lia)).
  assert (H2 := used_take_le l (S j) (length l) Hs (lookup_lt_Some _ _ _ Hy)).
  rewrite firstn_all in H2. rewrite Forall_lookup in Hs.
  assert (Hsx := Hs _ _ Hx). assert (Hsy := Hs _ _ Hy). unfold mapping_ok in *.
  rewrite take_0 in H0. change (used []) with 0 in H0.
  repeat split; lia.
Qed.

(** nothing is lost: once every mapping has been released, in whatever
    order, the allocator is back in its first state, with all the space and all
    the windows. *)
Theorem pci_space_reclaimed base total t pebm ccsr off hsz g mh ml w :
  0 ≤ base → 0 ≤ total → base + total < 4294967296 → Z.lor (Z.shiftl mh 32) ml = base →
  rtc ipc_step (probed t pebm ccsr off hsz g total mh ml) w →
  let a := pci_allocator w in
  (∀ i cb, Z.of_nat i < pci_alloc_cnt a → cbs a !! i = Some cb → valid cb = 0) →
  pci_alloc_cnt a = 0 ∧ pci_alloc_addr a = base ∧ pci_avail_space a = total ∧
  iatu_idx_map a = replicate MAX_PCI_USER_ALLOC_COUNT 0.
Proof.
  intros Hb Ht He Hml Hrtc a Hdead.
  destruct (reach_stack base total Hb Ht He t pebm ccsr off hsz g mh ml w Hml Hrtc) as (l & Hr & Htrim).
  fold a in Hr. assert (Hl : l = []).
  { rewrite <- Htrim. apply trim_all_dead, Forall_lookup. intros i x Hx.
    assert (Hi := lookup_lt_Some _ _ _ Hx). pose proof Hr as [_ _ _ Hc Hm Hlen _ _ _ _].
    destruct (lookup_lt_is_Some_2 (cbs a) i) as [cb Hcb]; [lia|].
    assert (Hlt : Z.of_nat i < pci_alloc_cnt a) by (unfold zlen in Hc; lia).
    destruct (repr_lookup _ _ _ _ i cb Hr Hlt Hcb) as (x' & Hx' & _ & _ & Hv & _).
    rewrite Hx in Hx'. injection Hx' as <-. rewrite (Hdead i cb Hlt Hcb) in Hv.
    by destruct (mp_live x). }
  subst l. destruct Hr as [_ Ha Hv Hc _ _ _ Hmap _ _]. cbn in *.
  rewrite Nat.sub_0_r in Hmap. repeat split; (lia || done).
Qed.

(** what the overlap check refuses: without wrap-around and for ranges that
    are not empty, a range that meets an entry without covering it.  A range
    that covers an entry, the same range included, passes. *)
Theorem overlap_check_exact h sz a :
  0 ≤ h → 0 < sz → h + sz < 18446744073709551616 →
  Forall (λ cb, 0 ≤ h_addr cb ∧ 0 < size cb ∧ h_addr cb + size cb < 18446744073709551616)
    (take (Z.to_nat (pci_alloc_cnt a)) (cbs a)) →
  gul_ipc_pci_map_is_overlap h sz a = -1 ↔
  ∃ cb, cb ∈ take (Z.to_nat (pci_alloc_cnt a)) (cbs a) ∧
    (h < h_addr cb + size cb ∧ h_addr cb < h + sz) ∧
    ¬ (h ≤ h_addr cb ∧ h_addr cb + size cb ≤ h + sz).
Proof.
  intros Hh Hsz Hw Hall. unfold gul_ipc_pci_map_is_overlap.
  assert (Hc : ∀ cb, cb ∈ take (Z.to_nat (pci_alloc_cnt a)) (cbs a) →
    cb_overlaps h sz cb ↔ (h < h_addr cb + size cb ∧ h_addr cb < h + sz) ∧
      ¬ (h ≤ h_addr cb ∧ h_addr cb + size cb ≤ h + sz)).
  { intros cb Hin. rewrite Forall_forall in Hall. specialize (Hall cb Hin).
    unfold cb_overlaps, u64. rewrite !Z.mod_small by lia. lia. }
  case_decide as Hex; rewrite Exists_exists in Hex.
  - split; [|done]. intros _. destruct Hex as (cb & Hin & Ho). exists cb.
    split; [done|]. by apply Hc.
  - split; [done|]. intros (cb & Hin & Ho). destruct Hex. exists cb. split; [done|]. by apply Hc.
Qed.

End Claims.

(** ** A PCI space above the 32-bit addresses, and concrete runs *)
Section High.
Context `{HostIf}.

(** when the modem's PCI space starts above 4 GB, the entry keeps only the
    low half of its address: releasing a mapping succeeds, but its space and
    its slot are never taken back. *)
Theorem high_base_leaks size_l mh ml h addr sz base :
  (0 < MAX_PCI_USER_ALLOC_COUNT)%nat → base = Z.lor (Z.shiftl mh 32) ml →
  4294967296 ≤ base → base + size_l < 18446744073709551616 →
  0 ≤ sz < 2147483648 → sz ≤ size_l < 4294967296 →
  ∃ a1 ws a2, gul_ipc_pci_map_alloc h addr sz (gul_setup_pci_space size_l mh ml) =
      Some (0, u32 base, a1, ws) ∧
    gul_ipc_pci_map_free h a1 = Some (0, a2) ∧
    pci_alloc_cnt a2 = 1 ∧ pci_avail_space a2 = size_l - sz ∧ pci_alloc_addr a2 = base + sz.
Proof.
  intros Hmax Hb Hlo Hhi Hsz Hsl. unfold gul_setup_pci_space. rewrite <- Hb.
  destruct MAX_PCI_USER_ALLOC_COUNT as [|n] eqn:Hn; [lia|].
  unfold gul_ipc_pci_map_alloc. rewrite Hn. cbn [pci_avail_space pci_alloc_cnt pci_alloc_addr].
  assert (Hw : u32 sz = sz) by (apply Z.mod_small; lia). rewrite Hw.
  rewrite decide_False by lia. rewrite decide_False by lia.
  unfold gul_pci_get_iatu_idx.
  cbn [with_space with_map with_cbs with_cnt cbs iatu_idx_map pci_alloc_cnt replicate list_find Z.to_nat
       lookup list_lookup mbind option_bind].
  cbn. do 3 eexists. split; [reflexivity|].
  unfold gul_ipc_pci_map_free. cbn [pci_alloc_cnt with_cbs with_cnt with_map with_space cbs].
  change (Z.to_nat (0 + 1)) with 1%nat. change (Z.to_nat 0) with 0%nat. cbn.
  rewrite decide_True by done. cbn.
  unfold gul_ipc_pci_map_free_gc. cbn [pci_alloc_cnt with_cbs with_cnt with_map with_space cbs].
  change (Z.to_nat (0 + 1)) with 1%nat. cbn.
  assert (Hne : u64 (u32 base + sz) ≠ u64 (base + sz)).
  { unfold u64. rewrite (Z.mod_small (base + sz)) by lia.
    assert (0 ≤ u32 base < 4294967296) by (apply Z.mod_pos_bound; lia).
    rewrite Z.mod_small by lia. lia. }
  rewrite decide_False by (intros Hv; by apply Hv). rewrite decide_False by exact Hne. cbn. split; [reflexivity|].
  cbn [pci_alloc_cnt pci_avail_space pci_alloc_addr with_cbs with_cnt with_map with_space].
  unfold u32, u64. rewrite !Z.mod_small by lia. done.
Qed.

End High.

Section Demo.
#[local] Existing Instance demo_host.

(** A device with 16 MB of PCI space at 0xA0000000, and a kernel where nothing
    fails. *)
Definition demo_desc : mem_strt_addr_t := MemDesc 0 0 0.
Definition demo_sys_map : sys_map_t := SysMap demo_desc demo_desc demo_desc demo_desc.
Definition demo : ipc_world :=
  probed (gul_dev_set_interrupt_capability 60 2) (0x1000, 0x2000) (0x3000, 0x1000) 0x100 0x200
    demo_sys_map 0x1000000 0 0xA0000000.
Definition demo_kernel : kernel := Kernel 1 0x500 0x600 0 false.
Definition demo_run (c : ipc_cmd) (w : ipc_world) : ipc_world :=
  match gul_ipc_ioctl c demo_kernel w with Some (_, w') => w' | None => w end.
Definition demo_get (h sz : Z) : ipc_cmd := IOCTL_GUL_IPC_GET_PCI_MAP (Some (MemDesc h 0 sz)).
Definition demo_put (h : Z) : ipc_cmd := IOCTL_GUL_IPC_PUT_PCI_MAP (Some (MemDesc h 0 0)).

Lemma demo_step c w r : request_ok c →
  fst <$> gul_ipc_ioctl c demo_kernel w = Some r → ipc_step w (demo_run c w).
Proof.
  intros Hok Hr. unfold demo_run. destruct (gul_ipc_ioctl c demo_kernel w) as [[r' w']|] eqn:Hrun; [|done].
  by exists c, demo_kernel, r'.
Defined.

Definition demo_two : ipc_world := demo_run (demo_get 0x80000000 0x2000) (demo_run (demo_get 0x70000000 0x1000) demo).
Definition demo_back : ipc_world := demo_run (demo_put 0x80000000) (demo_run (demo_put 0x70000000) demo_two).

Lemma demo_two_reach : rtc ipc_step demo demo_two.
Proof.
  eapply rtc_l; [eapply (demo_step (demo_get 0x70000000 0x1000)); [cbn; lia|vm_compute; reflexivity]|].
  apply rtc_once. eapply (demo_step (demo_get 0x80000000 0x2000)); [cbn; lia|vm_compute; reflexivity].
Defined.

Lemma demo_back_reach : rtc ipc_step demo demo_back.
Proof.
  etransitivity; [exact demo_two_reach|].
  eapply rtc_l; [eapply (demo_step (demo_put 0x70000000)); [done|vm_compute; reflexivity]|].
  apply rtc_once. eapply (demo_step (demo_put 0x80000000)); [done|vm_compute; reflexivity].
Defined.

Lemma pci_map_refines_witness :
  ∃ a', gul_ipc_ioctl (demo_get 0x70000000 0x1000) demo_kernel demo =
      Some ((0, OutDesc (MemDesc 0x70000000 0xA0000000 0x1000)),
        with_writes (window 0 0x70000000 0xA0000000 0x1000) (with_allocator a' demo)) ∧
    represents 0xA0000000 0x1000000 [Mapping 0x70000000 0x1000 true] a'.
Proof.
  destruct (pci_map_refines 0xA0000000 0x1000000 [] demo demo_kernel (MemDesc 0x70000000 0 0x1000))
    as [Hg _]; [lia|lia|cbn; lia|by apply repr_setup|]. exact Hg.
Defined.

Lemma pci_mappings_disjoint_witness :
  let a := pci_allocator demo_two in
  pci_alloc_cnt a = 2 ∧ pci_alloc_addr a + pci_avail_space a = 0xA1000000 ∧
  ∀ ci cj, cbs a !! 0%nat = Some ci → cbs a !! 1%nat = Some cj → m_addr ci + size ci ≤ m_addr cj.
Proof.
  intros a. destruct (pci_mappings_disjoint 0xA0000000 0x1000000 (gul_dev_set_interrupt_capability 60 2)
    (0x1000, 0x2000) (0x3000, 0x1000) 0x100 0x200 demo_sys_map 0 0xA0000000 demo_two) as (Hd & Hs & _);
    [lia|lia|lia|reflexivity|exact demo_two_reach|].
  split; [vm_compute; reflexivity|]. split; [exact Hs|].
  intros ci cj Hi Hj. apply (Hd 0%nat 1%nat ci cj); [lia|vm_compute; reflexivity|exact Hi|exact Hj].
Defined.

Lemma pci_space_reclaimed_witness :
  pci_alloc_cnt (pci_allocator demo_back) = 0 ∧ pci_avail_space (pci_allocator demo_back) = 0x1000000.
Proof.
  destruct (pci_space_reclaimed 0xA0000000 0x1000000 (gul_dev_set_interrupt_capability 60 2)
    (0x1000, 0x2000) (0x3000, 0x1000) 0x100 0x200 demo_sys_map 0 0xA0000000 demo_back)
    as (Hc & _ & Ha & _); [lia|lia|lia|reflexivity|exact demo_back_reach| |split; [exact Hc|exact Ha]].
  intros i cb Hi. assert (Hc : pci_alloc_cnt (pci_allocator demo_back) = 0) by (vm_compute; reflexivity).
  rewrite Hc in Hi. lia.
Defined.

Lemma overlap_check_exact_witness :
  gul_ipc_pci_map_is_overlap 0x70000800 0x1000 (pci_allocator demo_two) = -1.
Proof.
  apply overlap_check_exact; [lia|lia|lia| |].
  - apply (bool_decide_unpack _). vm_compute. reflexivity.
  - exists (Cb 0xA0000000 0x70000000 0x1000 1 0). split; [vm_compute; left|cbn; lia].
Defined.

Lemma high_base_leaks_witness :
  ∃ a1 ws a2, gul_ipc_pci_map_alloc 0x70000000 0 0x1000 (gul_setup_pci_space 0x1000000 1 0xA0000000) =
      Some (0, 0xA0000000, a1, ws) ∧
    gul_ipc_pci_map_free 0x70000000 a1 = Some (0, a2) ∧
    pci_alloc_cnt a2 = 1 ∧ pci_avail_space a2 = 0xFFF000 ∧ pci_alloc_addr a2 = 0x1A0001000.
Proof.
  apply (high_base_leaks 0x1000000 1 0xA0000000 0x70000000 0 0x1000 0x1A0000000); vm_compute; (lia || done).
Defined.

(** The same host range is granted twice, at two modem addresses: the check
    accepts a range that covers an entry. *)
Example identical_range_granted :
  let q := demo_get 0x70000000 0x1000 in
  fst <$> gul_ipc_ioctl q demo_kernel (demo_run q demo) =
    Some (0, OutDesc (MemDesc 0x70000000 0xA0001000 0x1000)).
Proof. vm_compute. reflexivity. Qed.

End Demo.
