(* ===== verification/GulIpcIrq.v ===== *)
(** * The channels of the IPC driver and their interrupt lines

    Registration takes a line from the shared table, deregistration gives it
    back.  The invariant says which lines the channels own; the other drivers of
    the device take and give back lines of their own in between. *)
From S2P Require Import Prelude GulMsi GulIpc GulIpcAlloc.
#[global] Open Scope Z_scope.

Section Irq.
Context `{HostIf}.

(** Channel [ch] holds line [i], whose entry is [e]. *)
Definition holds (w : ipc_world) (ch i : nat) (e : irq_info) : Prop :=
  ∃ c, asyn_chans w !! ch = Some c ∧ irq w !! i = Some e ∧ free e = GUL_MSI_IRQ_BUSY ∧
    irq_free (ipc_irq c) = Some GUL_MSI_IRQ_BUSY ∧ irq_index (ipc_irq c) = Some (Z.of_nat i) ∧
    irq_num (ipc_irq c) = Some (irq_val e) ∧ msi_value (ipc_irq c) = Some (msi_val e).

Definition marked_busy (w : ipc_world) (ch : nat) : Prop :=
  ∃ c, asyn_chans w !! ch = Some c ∧ irq_free (ipc_irq c) = Some GUL_MSI_IRQ_BUSY.

Record chan_inv (w : ipc_world) : Prop := ChanInv {
  inv_lines : length (irq w) = GUL_MSI_MAX_CNT;
  inv_chans : length (asyn_chans w) = IPC_MAX_CHANNEL_COUNT;
  inv_holds : ∀ ch, marked_busy w ch → ∃ i e, holds w ch i e;
  inv_distinct : ∀ ch ch' i e e', holds w ch i e → holds w ch' i e' → ch = ch' }.

(** ** What a registration does *)

(** The channel after the fields of line [i] were copied. *)
Definition bound (fd : Z) (i : nat) (e : irq_info) (txt : option Z) : ipc_chan :=
  Chan (Some fd) (IpcIrq (Some GUL_MSI_IRQ_BUSY) (Some (irq_val e)) (Some (msi_val e))
                    (Some (Z.of_nat i)) txt).

(** The state once line [i] is bound to channel [ch]. *)
Definition take_line (ch i : nat) (e : irq_info) (c : ipc_chan) (w : ipc_world) : ipc_world :=
  with_chans (<[ch := c]> (asyn_chans w)) (with_irq (<[i := set_free GUL_MSI_IRQ_BUSY e]> (irq w)) w).

(** The result after the line was found, by what the kernel does next. *)
Definition register_result (k : kernel) : Z :=
  if decide (eventfd_ctx_fileget k = 0) then - EINVAL
  else if decide (kmalloc_ptr k = 0) then 0 else request_irq_ret k.
Definition register_txt (k : kernel) (c : ipc_chan) : option Z :=
  if decide (eventfd_ctx_fileget k = 0) then irq_num_txt (ipc_irq c) else Some (kmalloc_ptr k).
Definition registered (k : kernel) : Prop :=
  eventfd_ctx_fileget k ≠ 0 ∧ kmalloc_ptr k ≠ 0 ∧ 0 ≤ request_irq_ret k.
#[local] Instance registered_dec k : Decision (registered k).
Proof. unfold registered. apply _. Defined.

Lemma register_run k (ch : nat) w c : chan_inv w → asyn_chans w !! ch = Some c →
  match find_msi (smp_processor_id k) (irq w) with
  | None => register_ipc_channel_irq k (Z.of_nat ch) w = Some (- EBUSY, w)
  | Some i => ∃ e, irq w !! i = Some e ∧ free e = GUL_MSI_IRQ_FREE ∧
      register_ipc_channel_irq k (Z.of_nat ch) w = Some (register_result k,
        let w' := take_line ch i e (bound (eventfd_ctx_fileget k) i e (register_txt k c)) w in
        if decide (registered k) then with_handlers ((irq_val e, Z.of_nat ch) :: handlers w) w' else w')
  end.
Proof.
  intros [Hlines Hchans _ _] Hc. assert (Hch := lookup_lt_Some _ _ _ Hc).
  assert (Hrun : ∀ index t, gul_dev_get_msi (smp_processor_id k) (irq w) = (index, t) →
    register_ipc_channel_irq k (Z.of_nat ch) w =
    (_ ← modify (with_irq t);
     if decide (0 ≤ index < Z.of_nat GUL_MSI_MAX_CNT) then
       e ← lift (t !! Z.to_nat index);
       let fd := eventfd_ctx_fileget k in
       let txt := irq_num_txt (ipc_irq c) in
       let q := IpcIrq (Some (free e)) (Some (irq_val e)) (Some (msi_val e)) (Some index) in
       _ ← set_chan (Z.of_nat ch) (Chan (Some fd) (q txt));
       if decide (fd ≠ 0) then
         _ ← set_chan (Z.of_nat ch) (Chan (Some fd) (q (Some (kmalloc_ptr k))));
         if decide (kmalloc_ptr k = 0) then mret 0 else
         let ret := request_irq_ret k in
         if decide (ret < 0) then mret ret else
         hs ← gets handlers;
         _ ← modify (with_handlers ((irq_val e, Z.of_nat ch) :: hs));
         mret ret
       else mret (- EINVAL)
     else mret (- EBUSY)) w).
  { intros index t Hget. unfold register_ipc_channel_irq. rewrite decide_False by lia.
    unfold get_chan. rewrite M_bind_eq, decide_True, Nat2Z.id, Hc by lia. cbn [mbind option_bind].
    rewrite M_bind_eq. cbn [gets]. by rewrite Hget. }
  assert (Hget := get_msi_find (smp_processor_id k) (irq w)).
  destruct (find_msi (smp_processor_id k) (irq w)) as [i|];
    [destruct Hget as (e & Hl & Hf & Hget)|]; rewrite (Hrun _ _ Hget); clear Hrun Hget.
  2: { rewrite M_bind_eq. cbn [modify]. rewrite decide_False by (unfold ENOENT; lia). by destruct w. }
  - assert (Hi := lookup_lt_Some _ _ _ Hl). exists e. split; [done|]. split; [done|].
    rewrite M_bind_eq. cbn [modify]. rewrite decide_True, Nat2Z.id by lia.
    rewrite M_bind_eq, list_lookup_insert_eq by done. cbn [lift].
    unfold register_result, register_txt, set_chan, bound, take_line. rewrite Nat2Z.id.
    destruct (decide (registered k)) as [(H1 & H2 & H3)|Hn].
    + rewrite !(decide_False (P := _ = 0)) by done. rewrite decide_True by done.
      unfold mbind, M_bind, modify, gets, mret, M_ret.
      rewrite decide_False by lia. cbn. by rewrite list_insert_insert_eq.
    + unfold registered in Hn. unfold mbind, M_bind, modify, gets, mret, M_ret.
      destruct (decide (eventfd_ctx_fileget k = 0)) as [Hz|Hz].
      { rewrite decide_False by (intros Hv; by apply Hv). done. }
      rewrite decide_True by done.
      destruct (decide (kmalloc_ptr k = 0)); [cbn; by rewrite list_insert_insert_eq|].
      rewrite decide_True by (destruct (decide (request_irq_ret k < 0)); [done|tauto || lia]).
      cbn. by rewrite list_insert_insert_eq.
Qed.

(** ** What a deregistration does *)

(** The channel once its line is given back. *)
Definition unbound (c : ipc_chan) : ipc_chan :=
  Chan (evt_fd_ctxt c) (IpcIrq (Some GUL_MSI_IRQ_FREE) (irq_num (ipc_irq c)) (msi_value (ipc_irq c))
    (Some 0) (irq_num_txt (ipc_irq c))).
Definition give_line (ch i : nat) (e : irq_info) (c : ipc_chan) (w : ipc_world) : ipc_world :=
  with_irq (<[i := set_free GUL_MSI_IRQ_FREE e]> (irq w))
    (with_chans (<[ch := unbound c]> (asyn_chans w))
       (with_handlers (filter (λ p, p ≠ (irq_val e, Z.of_nat ch)) (handlers w)) w)).

Lemma deregister_run (ch : nat) w c : chan_inv w → asyn_chans w !! ch = Some c →
  match irq_free (ipc_irq c) with
  | None => deregister_ipc_channel_irq (Z.of_nat ch) w = None
  | Some f =>
      if decide (f = GUL_MSI_IRQ_BUSY) then
        ∃ i e, holds w ch i e ∧ deregister_ipc_channel_irq (Z.of_nat ch) w =
          match irq_num_txt (ipc_irq c) with Some _ => Some (tt, give_line ch i e c w) | None => None end
      else deregister_ipc_channel_irq (Z.of_nat ch) w = Some (tt, w)
  end.
Proof.
  intros [Hlines Hchans Hholds _] Hc. assert (Hch := lookup_lt_Some _ _ _ Hc).
  unfold deregister_ipc_channel_irq. rewrite decide_False by lia.
  unfold get_chan. rewrite M_bind_eq, decide_True, Nat2Z.id, Hc by lia. cbn [mbind option_bind].
  rewrite M_bind_eq. destruct (irq_free (ipc_irq c)) as [f|] eqn:Hf; [|done]. cbn [lift].
  case_decide as Hb; [|done]. subst f.
  destruct (Hholds ch) as (i & e & Hh); [by exists c|]. exists i, e. split; [done|].
  destruct Hh as (c' & Hc' & Hl & Hbusy & _ & Hidx & Hnum & Hmsi).
  rewrite Hc in Hc'. injection Hc' as <-. rewrite M_bind_eq.
  destruct (irq_num_txt (ipc_irq c)) as [x|] eqn:Htxt; [|done]. cbn [lift].
  rewrite Hnum, Hidx. unfold mbind, M_bind, lift, gets, modify, set_chan.
  cbn [irq with_handlers]. rewrite (put_msi_busy _ _ e) by done. cbn [irq with_irq].
  rewrite !Nat2Z.id, list_lookup_insert_eq by (by eapply lookup_lt_Some).
  unfold give_line, unbound, modify. by rewrite Hnum, Htxt.
Qed.

(** ** The invariant *)

Lemma holds_inj w ch i j e e' : holds w ch i e → holds w ch j e' → i = j ∧ e = e'.
Proof.
  intros (c & Hc & Hi & _ & _ & Hidx & _) (c' & Hc' & Hj & _ & _ & Hidx' & _).
  rewrite Hc in Hc'. injection Hc' as <-. rewrite Hidx in Hidx'. injection Hidx' as ->%Nat2Z.inj.
  rewrite Hi in Hj. by injection Hj as ->.
Qed.

Lemma inv_same w w' : irq w' = irq w → asyn_chans w' = asyn_chans w → chan_inv w → chan_inv w'.
Proof.
  intros Hi Hc [H1 H2 H3 H4]. split; [by rewrite Hi|by rewrite Hc|..];
    unfold marked_busy, holds in *; rewrite ?Hi, ?Hc in *; [exact H3|exact H4].
Qed.

(** Changing a line no channel holds. *)
Lemma inv_line w i x : chan_inv w → (∀ ch e, ¬ holds w ch i e) →
  chan_inv (with_irq (<[i := x]> (irq w)) w).
Proof.
  intros [H1 H2 H3 H4] Hno.
  assert (Hiff : ∀ ch j e, holds (with_irq (<[i := x]> (irq w)) w) ch j e → holds w ch j e).
  { intros ch j e (c & Hc & Hj & Hb & Hf & Hidx & Hnum & Hm). cbn [asyn_chans irq with_irq] in *.
    destruct (H3 ch) as (j' & e' & Hh); [by exists c|]. pose proof Hh as (c' & Hc' & _ & _ & _ & Hidx' & _).
    rewrite Hc in Hc'. injection Hc' as <-. rewrite Hidx in Hidx'. injection Hidx' as <-%Nat2Z.inj.
    assert (i ≠ j) by (intros ->; by eapply Hno).
    rewrite list_lookup_insert_ne in Hj by done. by exists c. }
  split; cbn [irq asyn_chans with_irq]; [by rewrite length_insert|done|..].
  - intros ch Hb. destruct (H3 ch Hb) as (j & e & Hh). exists j, e.
    assert (i ≠ j) by (intros ->; by eapply Hno).
    destruct Hh as (c & Hc & Hj & Hrest). exists c. cbn [irq asyn_chans with_irq].
    by rewrite list_lookup_insert_ne.
  - intros ch ch' j e e' Hh Hh'. eapply H4; by apply Hiff.
Qed.

(** Changing a channel: it is not marked busy any more, or holds a line no
    channel held. *)
Lemma inv_chan w ch c : chan_inv w →
  (irq_free (ipc_irq c) ≠ Some GUL_MSI_IRQ_BUSY ∨
   ∃ i e, holds (with_chans (<[ch := c]> (asyn_chans w)) w) ch i e ∧ ∀ ch' e', ¬ holds w ch' i e') →
  chan_inv (with_chans (<[ch := c]> (asyn_chans w)) w).
Proof.
  intros [H1 H2 H3 H4] Hnew. set (w' := with_chans _ w).
  assert (Hother : ∀ ch' i e, ch ≠ ch' → holds w' ch' i e ↔ holds w ch' i e).
  { intros ch' i e Hne. unfold holds, w'. cbn [asyn_chans irq with_chans].
    by rewrite list_lookup_insert_ne by done. }
  split; [done|by cbn; rewrite length_insert|..].
  - intros ch' (c' & Hc' & Hb). destruct (decide (ch = ch')) as [<-|Hne].
    + destruct Hnew as [Hnb|(i & e & Hh & _)]; [|by exists i, e].
      unfold w' in Hc'. cbn [asyn_chans with_chans] in Hc'.
      apply list_lookup_insert_Some in Hc' as [(_ & <- & _)|[? _]]; done.
    + unfold w' in Hc'. cbn [asyn_chans with_chans] in Hc'.
      rewrite list_lookup_insert_ne in Hc' by done.
      destruct (H3 ch') as (i & e & Hh); [by exists c'|]. exists i, e. by apply Hother.
  - assert (Hfresh : ∀ ch' i e e', ch ≠ ch' → holds w' ch i e → holds w ch' i e' → False).
    { intros ch' i e e' Hne Hh Hh'. destruct Hnew as [Hnb|(j & e'' & Hj & Hno)].
      - destruct Hh as (c' & Hc' & _ & _ & Hb & _). unfold w' in Hc'. cbn [asyn_chans with_chans] in Hc'.
        apply list_lookup_insert_Some in Hc' as [(_ & <- & _)|[? _]]; done.
      - destruct (holds_inj _ _ _ _ _ _ Hh Hj) as [-> _]. by eapply Hno. }
    intros c1 c2 i e e' Hh1 Hh2.
    destruct (decide (ch = c1)) as [<-|Hn1], (decide (ch = c2)) as [<-|Hn2]; [done|..].
    + apply Hother in Hh2; [|done]. by destruct (Hfresh c2 i e e').
    + apply Hother in Hh1; [|done]. by destruct (Hfresh c1 i e' e).
    + apply Hother in Hh1; [|done]. apply Hother in Hh2; [|done]. by eapply H4.
Qed.

Lemma free_not_held w i e : irq w !! i = Some e → free e = GUL_MSI_IRQ_FREE →
  ∀ ch e', ¬ holds w ch i e'.
Proof.
  intros Hl Hf ch e' (c & _ & Hl' & Hb & _). rewrite Hl in Hl'. injection Hl' as <-.
  rewrite Hf in Hb. discriminate Hb.
Qed.

Lemma inv_take ch i e fd txt w : chan_inv w → (ch < length (asyn_chans w))%nat →
  irq w !! i = Some e → free e = GUL_MSI_IRQ_FREE → chan_inv (take_line ch i e (bound fd i e txt) w).
Proof.
  intros Hinv Hch Hl Hf. assert (Hi := lookup_lt_Some _ _ _ Hl).
  assert (Hno := free_not_held w i e Hl Hf).
  assert (Hinv1 := inv_line w i (set_free GUL_MSI_IRQ_BUSY e) Hinv Hno).
  unfold take_line. apply (inv_chan (with_irq _ w)); [done|]. right.
  exists i, (set_free GUL_MSI_IRQ_BUSY e). split.
  - exists (bound fd i e txt). cbn [asyn_chans irq with_chans with_irq].
    rewrite !list_lookup_insert_eq by done. done.
  - intros ch' e' (c' & Hc' & _ & _ & Hfree & Hidx & _). cbn [asyn_chans with_irq] in Hc'.
    destruct (inv_holds w Hinv ch') as (j & e'' & Hh); [by exists c'|].
    pose proof Hh as (c'' & Hc'' & _ & _ & _ & Hidx'' & _). rewrite Hc' in Hc''. injection Hc'' as <-.
    rewrite Hidx in Hidx''. injection Hidx'' as <-%Nat2Z.inj. by eapply Hno.
Qed.

Lemma inv_give ch i e c w : chan_inv w → asyn_chans w !! ch = Some c → holds w ch i e →
  chan_inv (give_line ch i e c w).
Proof.
  intros Hinv Hc Hh. unfold give_line.
  set (w1 := with_chans _ _).
  assert (Hinv1 : chan_inv w1).
  { apply (inv_chan (with_handlers _ w)); [by eapply inv_same; [..|exact Hinv]|].
    left. cbn. discriminate. }
  apply (inv_line w1 i); [done|].
  intros ch' e' Hh'. destruct (decide (ch = ch')) as [<-|Hne].
  - destruct Hh' as (c' & Hc' & _ & _ & Hb & _). unfold w1 in Hc'. cbn [asyn_chans with_chans] in Hc'.
    apply list_lookup_insert_Some in Hc' as [(_ & <- & _)|[? _]]; done.
  - assert (Hold : holds w ch' i e').
    { unfold holds, w1 in *. cbn [asyn_chans irq with_chans with_handlers] in *.
      by rewrite list_lookup_insert_ne in Hh' by done. }
    by destruct Hne; apply (inv_distinct w Hinv ch ch' i e e').
Qed.

(** ** Steps of the device *)

Lemma register_keeps_inv k ch w r w' : chan_inv w →
  register_ipc_channel_irq k ch w = Some (r, w') → chan_inv w'.
Proof.
  intros Hinv Hrun. destruct (decide (ch < 0 ∨ Z.of_nat IPC_MAX_CHANNEL_COUNT ≤ ch)) as [Hout|Hin].
  { unfold register_ipc_channel_irq in Hrun. rewrite decide_True in Hrun by done. by injection Hrun as _ <-. }
  assert (Hn : ∃ n, ch = Z.of_nat n) by (exists (Z.to_nat ch); lia). destruct Hn as [n ->].
  assert (Hlt : (n < length (asyn_chans w))%nat) by (rewrite (inv_chans w Hinv); lia).
  destruct (lookup_lt_is_Some_2 _ _ Hlt) as [c Hc].
  assert (Hreg := register_run k n w c Hinv Hc).
  destruct (find_msi _ _) as [i|]; [destruct Hreg as (e & Hl & Hf & Hreg)|];
    rewrite Hreg in Hrun; injection Hrun as _ <-; [|done].
  assert (Ht := inv_take n i e (eventfd_ctx_fileget k) (register_txt k c) w Hinv Hlt Hl Hf).
  cbv zeta. destruct (decide (registered k)); [|done]. by eapply inv_same; [..|exact Ht].
Qed.

Lemma deregister_keeps_inv ch w r w' : chan_inv w →
  deregister_ipc_channel_irq ch w = Some (r, w') → chan_inv w'.
Proof.
  intros Hinv Hrun. destruct (decide (ch < 0 ∨ Z.of_nat IPC_MAX_CHANNEL_COUNT ≤ ch)) as [Hout|Hin].
  { unfold deregister_ipc_channel_irq in Hrun. rewrite decide_True in Hrun by done. by injection Hrun as _ <-. }
  assert (Hn : ∃ n, ch = Z.of_nat n) by (exists (Z.to_nat ch); lia). destruct Hn as [n ->].
  assert (Hlt : (n < length (asyn_chans w))%nat) by (rewrite (inv_chans w Hinv); lia).
  destruct (lookup_lt_is_Some_2 _ _ Hlt) as [c Hc].
  assert (Hd := deregister_run n w c Hinv Hc).
  destruct (irq_free (ipc_irq c)) as [f|]; [|by rewrite Hd in Hrun].
  destruct (decide (f = GUL_MSI_IRQ_BUSY)) as [Hbusy|Hbusy].
  - destruct Hd as (i & e & Hh & Hd). rewrite Hd in Hrun.
    destruct (irq_num_txt (ipc_irq c)); [|done]. injection Hrun as _ <-. by apply inv_give.
  - rewrite Hd in Hrun. by injection Hrun as _ <-.
Qed.

#[local] Hint Resolve keeps_get_chan : keeps.

Lemma ioctl_keeps_inv c k w r w' : chan_inv w → gul_ipc_ioctl c k w = Some (r, w') → chan_inv w'.
Proof.
  intros Hinv Hrun.
  assert (Hkeep : (∀ ch, c ≠ IOCTL_GUL_IPC_CHANNEL_REGISTER (Some ch)) →
    (∀ ch, c ≠ IOCTL_GUL_IPC_CHANNEL_DEREGISTER (Some ch)) →
    keeps (λ w, (irq w, asyn_chans w)) (gul_ipc_ioctl c k)).
  { intros H1 H2. destruct c as [|[d|]|[d|]|[m|]|[ch|]|[ch|]|[id|]|]; cbn [gul_ipc_ioctl];
      try (by destruct (H1 ch)); try (by destruct (H2 ch));
      unfold put_pci_map, get_pci_map, get_sys_map, reply; keeps_tac. }
  destruct c as [|d|d|m|[ch|]|[ch|]|id|];
    try (injection (Hkeep ltac:(done) ltac:(done) _ _ _ Hrun) as Hi Hc; by eapply inv_same).
  - cbn [gul_ipc_ioctl] in Hrun. unfold channel_register in Hrun.
    case_decide; [by injection Hrun as _ <-|].
    apply M_bind_Some in Hrun as (ret & w1 & Hreg & Hrest).
    assert (Hinv1 := register_keeps_inv _ _ _ _ _ Hinv Hreg).
    assert (Hk : keeps id ((if decide (ret < 0) then mret (- EFAULT, OutNone) else
      c ← get_chan ch; v ← lift (msi_value (ipc_irq c)); reply k (OutMsi v)) : M ipc_world _))
      by (unfold reply; keeps_tac).
    assert (He := Hk _ _ _ Hrest). cbn in He. by subst.
  - cbn [gul_ipc_ioctl] in Hrun. apply M_bind_Some in Hrun as (u & w1 & Hd & Hrest).
    injection Hrest as _ <-. by eapply deregister_keeps_inv.
Qed.

(** A request to the IPC driver, or another driver of the device taking a line,
    or giving back one that no channel holds. *)
Inductive chan_step (w : ipc_world) : ipc_world → Prop :=
  | step_ioctl c k r w' : gul_ipc_ioctl c k w = Some (r, w') → chan_step w w'
  | step_other_get core : chan_step w (with_irq (snd (gul_dev_get_msi core (irq w))) w)
  | step_other_put i : (∀ ch e, ¬ holds w ch i e) →
      chan_step w (with_irq (gul_dev_put_msi (Z.of_nat i) (irq w)) w).

Lemma step_keeps_inv w w' : chan_step w w' → chan_inv w → chan_inv w'.
Proof.
  intros [c k r w1 Hrun|core|i Hno] Hinv.
  - by eapply ioctl_keeps_inv.
  - destruct (get_msi_cases core (irq w)) as [[-> _]|(i & e & -> & Hl & Hf & _)]; cbn [snd].
    + by apply (inv_same w).
    + apply inv_line; [done|]. by eapply free_not_held.
  - unfold gul_dev_put_msi. case_decide; [|by apply (inv_same w)].
    destruct (irq w !! _); [|by apply (inv_same w)]. case_decide; [|by apply (inv_same w)].
    rewrite Nat2Z.id. by apply inv_line.
Qed.

Lemma inv_probed irqn cpus pebm ccsr off hsz g sl mh ml :
  chan_inv (probed (gul_dev_set_interrupt_capability irqn cpus) pebm ccsr off hsz g sl mh ml).
Proof.
  assert (Hno : ∀ ch, ¬ marked_busy (probed (gul_dev_set_interrupt_capability irqn cpus) pebm ccsr off hsz g sl mh ml) ch).
  { intros ch (c & Hc & Hb). cbn [asyn_chans probed] in Hc.
    apply lookup_replicate in Hc as [-> _]. discriminate Hb. }
  split; cbn [irq asyn_chans probed].
  - unfold gul_dev_set_interrupt_capability. by rewrite length_fmap, length_seq.
  - by rewrite length_replicate.
  - intros ch Hb. by destruct (Hno ch).
  - intros ch ch' i e e' (c & Hc & _ & _ & Hf & _) _. destruct (Hno ch). by exists c.
Qed.

(** C39: through any requests to the driver, failing ones included, and whatever
    lines the other drivers take and give back, a channel marked busy holds a
    BUSY line whose number and message value it recorded, and no two channels
    hold the same line. *)
Theorem channels_hold_lines irqn cpus pebm ccsr off hsz g sl mh ml w :
  rtc chan_step (probed (gul_dev_set_interrupt_capability irqn cpus) pebm ccsr off hsz g sl mh ml) w →
  (∀ ch, marked_busy w ch → ∃ i e, holds w ch i e) ∧
  (∀ ch ch' i e e', holds w ch i e → holds w ch' i e' → ch = ch').
Proof.
  intros Hrtc. destruct (rtc_invariant _ _ _ _ Hrtc step_keeps_inv (inv_probed _ _ _ _ _ _ _ _ _ _)).
  done.
Qed.

(** a registration on which nothing fails answers with the message value of
    a line that was free, requests its interrupt for the channel, and touches no
    other channel; the deregistration that follows gives the line back, drops
    the interrupt and leaves the table of lines as it was. *)
Theorem register_deregister k k' (ch : nat) w c i :
  chan_inv w → asyn_chans w !! ch = Some c → find_msi (smp_processor_id k) (irq w) = Some i →
  registered k → copy_to_user_fails k = false →
  ∃ e w1 w2, irq w !! i = Some e ∧
    gul_ipc_ioctl (IOCTL_GUL_IPC_CHANNEL_REGISTER (Some (Z.of_nat ch))) k w = Some ((0, OutMsi (msi_val e)), w1) ∧
    holds w1 ch i (set_free GUL_MSI_IRQ_BUSY e) ∧ handlers w1 = (irq_val e, Z.of_nat ch) :: handlers w ∧
    gul_ipc_ioctl (IOCTL_GUL_IPC_CHANNEL_DEREGISTER (Some (Z.of_nat ch))) k' w1 = Some ((0, OutNone), w2) ∧
    irq w2 = irq w ∧ ¬ marked_busy w2 ch ∧ ((irq_val e, Z.of_nat ch) ∉ handlers w2) ∧
    ∀ ch', ch' ≠ ch → asyn_chans w1 !! ch' = asyn_chans w !! ch' ∧ asyn_chans w2 !! ch' = asyn_chans w !! ch'.
Proof.
  intros Hinv Hc Hfind Hk Hcopy. assert (Hch := lookup_lt_Some _ _ _ Hc).
  assert (Hreg := register_run k ch w c Hinv Hc). rewrite Hfind in Hreg.
  destruct Hreg as (e & Hl & Hf & Hreg). assert (Hi := lookup_lt_Some _ _ _ Hl).
  rewrite (decide_True _ _ Hk) in Hreg. cbv zeta in Hreg.
  destruct Hk as (Hk1 & Hk2 & Hk3).
  assert (Hret : register_result k = request_irq_ret k).
  { unfold register_result. by rewrite !decide_False by done. }
  assert (Htxt : register_txt k c = Some (kmalloc_ptr k)).
  { unfold register_txt. by rewrite decide_False by done. }
  rewrite Hret, Htxt in Hreg.
  set (w1 := with_handlers _ _) in Hreg.
  assert (Hinv1 : chan_inv w1) by (by eapply register_keeps_inv).
  assert (Hc1 : asyn_chans w1 !! ch = Some (bound (eventfd_ctx_fileget k) i e (Some (kmalloc_ptr k))))
    by (by apply list_lookup_insert_eq).
  assert (Hh1 : holds w1 ch i (set_free GUL_MSI_IRQ_BUSY e)).
  { exists (bound (eventfd_ctx_fileget k) i e (Some (kmalloc_ptr k))). split; [done|].
    split; [by apply list_lookup_insert_eq|]. done. }
  assert (Hd := deregister_run ch w1 _ Hinv1 Hc1). cbn [irq_free ipc_irq bound irq_num_txt] in Hd.
  rewrite decide_True in Hd by done. destruct Hd as (i' & e' & Hh' & Hd).
  destruct (holds_inj _ _ _ _ _ _ Hh1 Hh') as [<- <-].
  exists e, w1. eexists. split; [done|]. split.
  { cbn [gul_ipc_ioctl]. unfold channel_register. rewrite decide_False by lia.
    rewrite (M_bind_run _ _ _ _ _ Hreg). rewrite decide_False by lia.
    unfold get_chan. rewrite M_bind_eq, decide_True, Nat2Z.id, Hc1 by lia. cbn [mbind option_bind].
    unfold reply. rewrite Hcopy. done. }
  split; [done|]. split; [done|]. split.
  { cbn [gul_ipc_ioctl]. by rewrite (M_bind_run _ _ _ _ _ Hd). }
  split; [|split; [|split]].
  - cbn [irq give_line with_irq]. unfold w1. cbn [irq with_handlers take_line with_chans with_irq].
    rewrite list_insert_insert_eq, list_insert_id; [done|].
    rewrite Hl. f_equal. destruct e; cbn in *. by subst.
  - intros (c' & Hc' & Hb). unfold give_line in Hc'. cbn [asyn_chans with_irq with_chans with_handlers] in Hc'.
    apply list_lookup_insert_Some in Hc' as [(_ & <- & _)|[? _]]; [discriminate Hb|done].
  - unfold give_line. cbn [handlers with_irq with_chans with_handlers].
    intros [Hne _]%list_elem_of_filter. by apply Hne.
  - intros ch' Hne. unfold give_line, w1, take_line.
    cbn [asyn_chans with_irq with_chans with_handlers].
    by rewrite !list_lookup_insert_ne by done.
Qed.

(** when the event descriptor, the allocation or the interrupt request
    fails, the line that was taken stays BUSY and bound to the channel although
    no interrupt is requested.  A failed allocation is even reported as success,
    with the message value; after a bad descriptor on a channel never used,
    deregistering frees a pointer that was never assigned. *)
Theorem register_failure_keeps_line k k' (ch : nat) w c i :
  chan_inv w → asyn_chans w !! ch = Some c → find_msi (smp_processor_id k) (irq w) = Some i →
  ¬ registered k → copy_to_user_fails k = false →
  ∃ e w1 r o, irq w !! i = Some e ∧
    gul_ipc_ioctl (IOCTL_GUL_IPC_CHANNEL_REGISTER (Some (Z.of_nat ch))) k w = Some ((r, o), w1) ∧
    holds w1 ch i (set_free GUL_MSI_IRQ_BUSY e) ∧ handlers w1 = handlers w ∧
    (if decide (eventfd_ctx_fileget k ≠ 0 ∧ kmalloc_ptr k = 0)
     then r = 0 ∧ o = OutMsi (msi_val e) else r = - EFAULT ∧ o = OutNone) ∧
    (eventfd_ctx_fileget k = 0 → irq_num_txt (ipc_irq c) = None →
     gul_ipc_ioctl (IOCTL_GUL_IPC_CHANNEL_DEREGISTER (Some (Z.of_nat ch))) k' w1 = None).
Proof.
  intros Hinv Hc Hfind Hk Hcopy. assert (Hch := lookup_lt_Some _ _ _ Hc).
  assert (Hreg := register_run k ch w c Hinv Hc). rewrite Hfind in Hreg.
  destruct Hreg as (e & Hl & Hf & Hreg). assert (Hi := lookup_lt_Some _ _ _ Hl).
  rewrite (decide_False _ _ Hk) in Hreg. cbv zeta in Hreg.
  set (w1 := take_line _ _ _ _ _) in Hreg.
  assert (Hinv1 : chan_inv w1) by (by eapply register_keeps_inv).
  assert (Hc1 : asyn_chans w1 !! ch = Some (bound (eventfd_ctx_fileget k) i e (register_txt k c)))
    by (by apply list_lookup_insert_eq).
  assert (Hioctl : gul_ipc_ioctl (IOCTL_GUL_IPC_CHANNEL_REGISTER (Some (Z.of_nat ch))) k w =
    Some (if decide (register_result k < 0) then (- EFAULT, OutNone) else (0, OutMsi (msi_val e)), w1)).
  { cbn [gul_ipc_ioctl]. unfold channel_register. rewrite (decide_False (P := Z.of_nat ch < 0)) by lia.
    rewrite (M_bind_run _ _ _ _ _ Hreg). case_decide; [done|].
    unfold get_chan. rewrite M_bind_eq, decide_True, Nat2Z.id, Hc1 by lia. cbn [mbind option_bind].
    unfold reply. by rewrite Hcopy. }
  exists e, w1, (fst (if decide (register_result k < 0) then (- EFAULT, OutNone) else (0, OutMsi (msi_val e)))),
    (snd (if decide (register_result k < 0) then (- EFAULT, OutNone) else (0, OutMsi (msi_val e)))).
  split; [done|]. split; [by rewrite <- surjective_pairing|]. split; [|split; [done|split]].
  - exists (bound (eventfd_ctx_fileget k) i e (register_txt k c)). split; [done|].
    split; [by apply list_lookup_insert_eq|]. done.
  - unfold register_result, registered in *.
    destruct (decide (eventfd_ctx_fileget k = 0)) as [Hz|Hz].
    + by rewrite (decide_False (P := _ ∧ _)) by tauto.
    + destruct (decide (kmalloc_ptr k = 0)) as [Hm|Hm].
      * by rewrite (decide_True (P := _ ∧ _)) by tauto.
      * rewrite (decide_False (P := _ ∧ _)) by tauto. by rewrite !decide_True by lia.
  - intros Hz Htxt. assert (Hd := deregister_run ch w1 _ Hinv1 Hc1).
    cbn [irq_free ipc_irq bound irq_num_txt] in Hd. rewrite decide_True in Hd by done.
    destruct Hd as (i' & e' & _ & Hd). unfold register_txt in Hd. rewrite (decide_True _ _ Hz), Htxt in Hd.
    cbn [gul_ipc_ioctl]. by rewrite M_bind_eq, Hd.
Qed.

End Irq.

Section IrqDemo.
#[local] Existing Instance demo_host.

Definition demo_register (ch : Z) : ipc_cmd := IOCTL_GUL_IPC_CHANNEL_REGISTER (Some ch).
Definition demo_deregister (ch : Z) : ipc_cmd := IOCTL_GUL_IPC_CHANNEL_DEREGISTER (Some ch).

Lemma demo_inv : chan_inv demo.
Proof. apply inv_probed. Defined.

Definition demo_chan : ipc_world := demo_run (demo_register 2) demo.
Lemma demo_chan_reach : rtc chan_step demo demo_chan.
Proof. apply rtc_once, (step_ioctl _ (demo_register 2) demo_kernel (0, OutMsi 1)). vm_compute. reflexivity. Defined.

Lemma channels_hold_lines_witness : ∃ i e, holds demo_chan 2 i e.
Proof.
  destruct (channels_hold_lines 60 2 (0x1000, 0x2000) (0x3000, 0x1000) 0x100 0x200 demo_sys_map
    0x1000000 0 0xA0000000 demo_chan demo_chan_reach) as [Hh _].
  apply Hh. eexists. split; vm_compute; reflexivity.
Defined.

Lemma register_deregister_witness :
  ∃ w1 w2, gul_ipc_ioctl (demo_register 2) demo_kernel demo = Some ((0, OutMsi 1), w1) ∧
    gul_ipc_ioctl (demo_deregister 2) demo_kernel w1 = Some ((0, OutNone), w2) ∧ irq w2 = irq demo.
Proof.
  destruct (register_deregister demo_kernel demo_kernel 2 demo chan_unset 1 demo_inv)
    as (e & w1 & w2 & He & Hr & _ & _ & Hd & Hi & _); [reflexivity|reflexivity|cbn; split; [|split]; cbn; lia|reflexivity|].
  vm_compute in He. injection He as <-. exists w1, w2. split; [exact Hr|]. split; [exact Hd|exact Hi].
Defined.

(** A kernel where the allocation fails. *)
Definition demo_no_memory : kernel := Kernel 1 0x500 0 0 false.

Lemma register_failure_keeps_line_witness :
  ∃ w1, gul_ipc_ioctl (demo_register 2) demo_no_memory demo = Some ((0, OutMsi 1), w1) ∧ handlers w1 = [].
Proof.
  destruct (register_failure_keeps_line demo_no_memory demo_kernel 2 demo chan_unset 1 demo_inv)
    as (e & w1 & r & o & He & Hr & _ & Hh & Ho & _);
    [reflexivity|reflexivity|intros (_ & Hm & _); by apply Hm|reflexivity|].
  vm_compute in He. injection He as <-. destruct Ho as [-> ->]. exists w1. split; [exact Hr|exact Hh].
Defined.

(** Registering a channel again takes a second line; the first is never given
    back. *)
Example register_twice_leaks :
  let w := demo_run (demo_deregister 2) (demo_run (demo_register 2) (demo_run (demo_register 2) demo)) in
  free <$> irq w = [GUL_MSI_IRQ_FREE; GUL_MSI_IRQ_BUSY; GUL_MSI_IRQ_FREE; GUL_MSI_IRQ_FREE].
Proof. vm_compute. reflexivity. Qed.

(** Removing the driver before a channel was ever registered reads a field that
    was never assigned. *)
Example remove_reads_unset : gul_ipc_remove demo = None.
Proof. vm_compute. reflexivity. Qed.

End IrqDemo.
