(* ===== verification/GulImage.v ===== *)
(** * Firmware images (kernel_driver/yami/gul_base.h)

    The ELF structures both firmware loaders lay over the image, read byte by
    byte from memory, the byte swap of the big-endian image, and the alignment
    macros.  A read outside the memory, or of a byte never written, is [None]. *)
From S2P Require Import Prelude.
#[global] Open Scope Z_scope.

(** ** Words in memory: the host is little-endian *)
Definition rd16 (b : buffer) (i : Z) : option Z :=
  l ← rd b i; h ← rd b (i + 1); Some (l + 256 * h).
Definition rd32 (b : buffer) (i : Z) : option Z :=
  l ← rd16 b i; h ← rd16 b (i + 2); Some (l + 65536 * h).

(** [__be16_to_cpu] and [__be32_to_cpu]. *)
Definition be16_to_cpu (x : Z) : Z := x mod 256 * 256 + x / 256.
Definition be32_to_cpu (x : Z) : Z := be16_to_cpu (x mod 65536) * 65536 + be16_to_cpu (x / 65536).

(** ** Alignment of 32-bit words *)
Definition lnot32 (x : Z) : Z := 4294967295 - u32 x.
Definition align (x a : Z) : Z := Z.land (u32 (u32 x + u32 (a - 1))) (lnot32 (a - 1)).
Definition isaligned (x a : Z) : bool := bool_decide (Z.land (u32 x) (u32 (a - 1)) = 0).

(** ** Structures, as the fields the loaders read *)
Record file_header := FileHeader {
  fh_machine : Z; fh_entry : Z; fh_phoff : Z; fh_shoff : Z; fh_phnum : Z; fh_shnum : Z;
  fh_shstrndx : Z }.
Record program_header := ProgramHeader { prg_offset : Z; prg_vaddr : Z; prg_filesz : Z }.
Record section_header := SectionHeader {
  sec_name : Z; sec_addr : Z; sec_offset : Z; sec_size : Z; sec_info : Z }.

Definition read_file_header (b : buffer) (at_ : Z) : option file_header :=
  machine ← rd16 b (at_ + 18);
  entry ← rd32 b (at_ + 24);
  phoff ← rd32 b (at_ + 28);
  shoff ← rd32 b (at_ + 32);
  phnum ← rd16 b (at_ + 44);
  shnum ← rd16 b (at_ + 48);
  shstrndx ← rd16 b (at_ + 50);
  Some (FileHeader machine entry phoff shoff phnum shnum shstrndx).

(** Entry [i] of the table at [at_]. *)
Definition read_program_header (b : buffer) (at_ i : Z) : option program_header :=
  let p := at_ + 32 * i in
  offset ← rd32 b (p + 4); vaddr ← rd32 b (p + 8); filesz ← rd32 b (p + 16);
  Some (ProgramHeader offset vaddr filesz).

Definition read_section_header (b : buffer) (at_ i : Z) : option section_header :=
  let p := at_ + 40 * i in
  name ← rd32 b p; addr ← rd32 b (p + 12); offset ← rd32 b (p + 16);
  size ← rd32 b (p + 20); info ← rd32 b (p + 28);
  Some (SectionHeader name addr offset size info).

(** [strncmp(b + i, lit, len) == 0] for a literal without its terminator. *)
Fixpoint strncmp_eq (b : buffer) (i : Z) (lit : list Z) : option bool :=
  match lit with
  | [] => Some true
  | c :: lit => x ← rd b i; if decide (x = c) then strncmp_eq b (i + 1) lit else Some false
  end.

(** [strcmp(b + i, lit) == 0]: the terminator is compared too. *)
Definition strcmp_eq (b : buffer) (i : Z) (lit : list Z) : option bool :=
  strncmp_eq b i (lit ++ [0]).

(** ** Lemmas *)

(** Reads of a part of memory that two memories share. *)
Definition same_on (lo hi : Z) (b b' : buffer) : Prop := ∀ i, lo ≤ i < hi → rd b i = rd b' i.

Lemma rd16_same lo hi b b' i : same_on lo hi b b' → lo ≤ i → i + 2 ≤ hi → rd16 b i = rd16 b' i.
Proof. intros Hs H1 H2. unfold rd16. by rewrite !Hs by lia. Qed.
Lemma rd32_same lo hi b b' i : same_on lo hi b b' → lo ≤ i → i + 4 ≤ hi → rd32 b i = rd32 b' i.
Proof. intros Hs H1 H2. unfold rd32. by rewrite !(rd16_same lo hi b b') by (done || lia). Qed.
Lemma read_section_header_same lo hi b b' p i : same_on lo hi b b' →
  lo ≤ p + 40 * i → p + 40 * i + 40 ≤ hi → read_section_header b p i = read_section_header b' p i.
Proof.
  intros Hs H1 H2. unfold read_section_header. by rewrite !(rd32_same lo hi b b') by (done || lia).
Qed.
Lemma strncmp_eq_same lo hi lit b b' i : same_on lo hi b b' → lo ≤ i → i + zlen lit ≤ hi →
  strncmp_eq b i lit = strncmp_eq b' i lit.
Proof.
  intros Hs. revert i. induction lit as [|c lit IH]; intros i H1 H2; [done|]. cbn [strncmp_eq].
  rewrite zlen_cons in H2. pose proof (zlen_nonneg lit). rewrite Hs by lia.
  destruct (rd b' i) as [x|]; [|done]. cbn [mbind option_bind]. case_decide; [|done]. apply IH; lia.
Qed.

(** Swapping the bytes of a word twice gives it back. *)
Lemma be16_to_cpu_range x : 0 ≤ x < 65536 → 0 ≤ be16_to_cpu x < 65536.
Proof. unfold be16_to_cpu. intros. Z.to_euclidean_division_equations; lia. Qed.
Lemma be16_to_cpu_twice x : 0 ≤ x < 65536 → be16_to_cpu (be16_to_cpu x) = x.
Proof. unfold be16_to_cpu. intros. Z.to_euclidean_division_equations; lia. Qed.
Lemma be32_to_cpu_range x : 0 ≤ x < 4294967296 → 0 ≤ be32_to_cpu x < 4294967296.
Proof.
  intros Hx. unfold be32_to_cpu.
  assert (H1 := be16_to_cpu_range (x mod 65536) ltac:(apply Z.mod_pos_bound; lia)).
  assert (H2 := be16_to_cpu_range (x / 65536) ltac:(Z.to_euclidean_division_equations; lia)). lia.
Qed.
Lemma be32_to_cpu_twice x : 0 ≤ x < 4294967296 → be32_to_cpu (be32_to_cpu x) = x.
Proof.
  intros Hx. unfold be32_to_cpu at 1.
  assert (Hl : 0 ≤ x mod 65536 < 65536) by (apply Z.mod_pos_bound; lia).
  assert (Hh : 0 ≤ x / 65536 < 65536) by (Z.to_euclidean_division_equations; lia).
  assert (H1 := be16_to_cpu_range _ Hl). assert (H2 := be16_to_cpu_range _ Hh).
  assert (Hm : be32_to_cpu x mod 65536 = be16_to_cpu (x / 65536)).
  { unfold be32_to_cpu. rewrite Z.add_comm, Z.mod_add by lia. by apply Z.mod_small. }
  assert (Hd : be32_to_cpu x / 65536 = be16_to_cpu (x mod 65536)).
  { unfold be32_to_cpu. rewrite Z.add_comm, Z.div_add by lia. rewrite Z.div_small by lia. lia. }
  rewrite Hm, Hd, !be16_to_cpu_twice by done. Z.to_euclidean_division_equations; lia.
Qed.

(** Rounding up to a power of two. *)
Lemma align_spec x k : 0 ≤ k < 32 → 0 ≤ x → x + (2 ^ k - 1) < 4294967296 →
  align x (2 ^ k) = (x + (2 ^ k - 1)) / 2 ^ k * 2 ^ k.
Proof.
  intros Hk Hx Hb. assert (Hp : 0 < 2 ^ k) by (apply Z.pow_pos_nonneg; lia).
  assert (Hp32 : 2 ^ k ≤ 2 ^ 31) by (apply Z.pow_le_mono_r; lia). change (2 ^ 31) with 2147483648 in Hp32.
  unfold align, lnot32, u32. rewrite (Z.mod_small x), (Z.mod_small (2 ^ k - 1)), Z.mod_small by lia.
  set (y := x + (2 ^ k - 1)) in *.
  assert (Hones : 4294967295 - (2 ^ k - 1) = Z.ldiff (Z.ones 32) (Z.ones k)).
  { replace (2 ^ k - 1) with (Z.ones k) by (rewrite Z.ones_equiv; lia). change 4294967295 with (Z.ones 32).
    apply Z.sub_nocarry_ldiff, Z.bits_inj'. intros i Hi.
    rewrite Z.ldiff_spec, Z.bits_0, !Z.testbit_ones_nonneg by lia.
    destruct (i <? k) eqn:H1, (i <? 32) eqn:H2; try done. lia. }
  rewrite Hones. transitivity (Z.ldiff (Z.land y (Z.ones 32)) (Z.ones k)).
  { apply Z.bits_inj'. intros i Hi. rewrite Z.land_spec, !Z.ldiff_spec, Z.land_spec. by destruct (Z.testbit y i). }
  rewrite Z.land_ones, Z.mod_small by (change (2 ^ 32) with 4294967296; lia).
  rewrite Z.ldiff_ones_r, Z.shiftl_mul_pow2, Z.shiftr_div_pow2 by lia. done.
Qed.

(** Reading bytes gives words of the right width. *)
Definition bytes_mem (b : buffer) : Prop := ∀ i x, rd b i = Some x → is_byte x.

Lemma bytes_mem_forall b : Forall (λ c, ∀ x, c = Some x → is_byte x) b ↔ bytes_mem b.
Proof.
  unfold bytes_mem, rd. rewrite Forall_lookup. split.
  - intros Hb i x. case_decide; [|done]. destruct (b !! Z.to_nat i) as [c|] eqn:Hc; [|done].
    cbn. intros ->. by eapply Hb.
  - intros Hb n c Hc x ->. apply (Hb (Z.of_nat n)). rewrite decide_True by lia. by rewrite Nat2Z.id, Hc.
Qed.
Lemma rd16_range b i x : bytes_mem b → rd16 b i = Some x → 0 ≤ x < 65536.
Proof.
  intros Hb. unfold rd16. destruct (rd b i) as [l|] eqn:Hl; [|done].
  destruct (rd b (i + 1)) as [h|] eqn:Hh; [|done]. intros [= <-].
  apply Hb in Hl, Hh. unfold is_byte in *. lia.
Qed.
Lemma rd32_range b i x : bytes_mem b → rd32 b i = Some x → 0 ≤ x < 4294967296.
Proof.
  intros Hb. unfold rd32. destruct (rd16 b i) as [l|] eqn:Hl; [|done].
  destruct (rd16 b (i + 2)) as [h|] eqn:Hh; [|done]. intros [= <-].
  apply rd16_range in Hl, Hh; [lia|done..].
Qed.
Lemma bytes_mem_blit b i l b' : bytes_mem b → Forall is_byte l → blit b i (init l) = Some b' → bytes_mem b'.
Proof.
  rewrite <- !bytes_mem_forall. intros Hb Hl. unfold blit. case_decide; [|done]. intros [= <-].
  rewrite !Forall_app. split; [by apply Forall_take|]. split; [|by apply Forall_drop].
  unfold init. rewrite Forall_fmap. eapply Forall_impl; [exact Hl|]. by intros x Hx y [= <-].
Qed.

(** Slices and stores of a memory, by their cells. *)
Lemma sub_Some b i n c : sub b i n = Some c ↔
  0 ≤ i ∧ 0 ≤ n ∧ i + n ≤ zlen b ∧ c = take (Z.to_nat n) (drop (Z.to_nat i) b).
Proof.
  unfold sub. case_decide as Hd; split.
  - intros [= <-]. tauto.
  - by intros (_ & _ & _ & ->).
  - done.
  - intros (? & ? & ? & _). by exfalso; apply Hd.
Qed.
Lemma sub_zlen b i n c : sub b i n = Some c → zlen c = n.
Proof.
  rewrite sub_Some. intros (Hi & Hn & Hb & ->). unfold zlen in *.
  rewrite length_take, length_drop. lia.
Qed.
Lemma sub_split b i n m c : 0 ≤ n → 0 ≤ m → sub b i (n + m) = Some c →
  sub b i n = Some (take (Z.to_nat n) c) ∧ sub b (i + n) m = Some (drop (Z.to_nat n) c).
Proof.
  rewrite !sub_Some. intros Hn Hm (Hi & _ & Hb & ->).
  rewrite take_take, Nat.min_l by lia. rewrite skipn_firstn_comm, drop_drop.
  repeat split; try lia. f_equal; [|f_equal]; lia.
Qed.
Lemma same_on_lookup lo hi b b' (i : nat) : length b = length b' → same_on lo hi b b' →
  0 ≤ lo → lo ≤ Z.of_nat i < hi → b !! i = b' !! i.
Proof.
  intros Hl Hs Hlo Hi. specialize (Hs (Z.of_nat i) Hi). unfold rd in Hs.
  rewrite !decide_True, !Nat2Z.id in Hs by lia.
  destruct (b !! i) as [x|] eqn:Hx; destruct (b' !! i) as [y|] eqn:Hy; cbn in Hs; subst; try done.
  - apply lookup_lt_Some in Hx. apply lookup_ge_None in Hy. lia.
  - apply lookup_lt_Some in Hy. apply lookup_ge_None in Hx. lia.
Qed.
Lemma sub_same lo hi b b' i n : length b = length b' → same_on lo hi b b' →
  0 ≤ lo → lo ≤ i → i + n ≤ hi → sub b i n = sub b' i n.
Proof.
  intros Hl Hs H0 H1 H2. unfold sub, zlen. rewrite <- Hl. case_decide as Hd; [|done]. f_equal.
  apply list_eq. intros j. destruct (decide (j < Z.to_nat n)%nat) as [Hj|Hj].
  - rewrite !lookup_take_lt, !lookup_drop by done. apply (same_on_lookup lo hi); done || lia.
  - by rewrite !lookup_take_ge by lia.
Qed.
Lemma same_on_refl lo hi b : same_on lo hi b b.
Proof. by intros i _. Qed.
Lemma same_on_trans lo hi b c d : same_on lo hi b c → same_on lo hi c d → same_on lo hi b d.
Proof. intros H1 H2 i Hi. by rewrite H1, H2. Qed.
Lemma same_on_sub lo hi lo' hi' b c : same_on lo hi b c → lo ≤ lo' → hi' ≤ hi → same_on lo' hi' b c.
Proof. intros Hs H1 H2 i Hi. apply Hs. lia. Qed.

(** What a store leaves: the cells stored, and the others as they were. *)
Lemma blit_sub b i s b' : blit b i s = Some b' → sub b' i (zlen s) = Some s.
Proof.
  unfold blit. case_decide as Hd; [|done]. intros [= <-]. apply sub_exact; [|done].
  unfold zlen in *. rewrite length_take. lia.
Qed.
Lemma blit_rd b i s b' j : blit b i s = Some b' → j < i ∨ i + zlen s ≤ j → rd b' j = rd b j.
Proof.
  unfold blit. case_decide as Hd; [|done]. intros [= <-] Hj. unfold rd. case_decide; [|done]. f_equal.
  assert (Hlt : length (take (Z.to_nat i) b) = Z.to_nat i) by (rewrite length_take; unfold zlen in *; lia).
  destruct Hj as [Hj|Hj].
  - rewrite lookup_app_l by lia. by rewrite lookup_take_lt by lia.
  - rewrite lookup_app_r by (unfold zlen in *; lia). rewrite lookup_app_r by (unfold zlen in *; lia).
    rewrite lookup_drop. f_equal. unfold zlen in *; lia.
Qed.
