(* ===== verification/GulScratch.v ===== *)
(** * Scratch memory of the modems
      (kernel_driver/yami/gul_base.c, gul_pci.c)

    One piece of host memory is shared out: the module's parameters fix the size
    of a modem's part, each device maps its part, and a bump allocator cuts it
    into the regions of the sub-drivers.  A second bump allocator hands out PCI
    addresses to the modem. *)
From S2P Require Import Prelude GulMsi.
#[global] Open Scope Z_scope.

(** Numbers that come from the kernel or from headers outside this repository. *)
Class ScratchIf := {
  PAGE_SHIFT : Z;
  GUL_EP_CORE_MAX : Z;
  GUL_SCRATCH_DMA_BUF_END_ADDR : Z;
  PCI_OUTBOUND_WINDOW_BASE_ADDR : Z;
  GUL_OB_WIN_SCRATCH_BUF : Z }.

Section Scratch.
Context `{ScratchIf, HostIf}.

(** ** Sizes *)
Definition PAGE_SIZE : Z := 2 ^ PAGE_SHIFT.
Definition GUL_CORE_LOG_BUF_SIZE : Z := 4 * 1024.
Definition GUL_EP_LOGGER_SIZE : Z := GUL_EP_CORE_MAX * GUL_CORE_LOG_BUF_SIZE.
Definition GUL_MAX_IMAGE_SIZE : Z := 4 * 1024 * 1024 - GUL_EP_LOGGER_SIZE.
Definition GUL_VSPA_SCRATCH_BUF_MAX_SIZE : Z := 10 * 1024 * 1024.
Definition GUL_VSPA_OVERLAY_SIZE : Z := 2 * 1024 * 1024.

(** [ALIGN(x, PAGE_SIZE)] on an [int]. *)
Definition page_align (x : Z) : Z := i32 (x + (PAGE_SIZE - 1) - (x + (PAGE_SIZE - 1)) mod PAGE_SIZE).

(** The module's parameters, all [int] but the address. *)
Record params := Params {
  modem_num : Z; global_scratch_buf_size : Z; scratch_buf_phys_addr : Z;
  modem_share_buf_size : Z; modem_host_data_size : Z; modem_rf_data_size : Z }.

Definition fixed_sizes : Z :=
  GUL_MAX_IMAGE_SIZE + GUL_EP_LOGGER_SIZE + GUL_VSPA_SCRATCH_BUF_MAX_SIZE + GUL_VSPA_OVERLAY_SIZE.

(** The sizing part of [gul_pcidev_init]: the parameters as the devices will use
    them, or the refusal. *)
Definition gul_pcidev_init_sizes (p : params) : Z + params :=
  if decide (global_scratch_buf_size p = 0 ∨ scratch_buf_phys_addr p = 0) then inl (- EINVAL) else
  let share := page_align (modem_share_buf_size p) in
  let rf := page_align (modem_rf_data_size p) in
  let size := i32 (fixed_sizes + share + rf) in
  let host :=
    if decide (modem_host_data_size p = 0) then
      let per_modem := Z.quot (global_scratch_buf_size p) (modem_num p) in
      if decide (size < per_modem) then
        let host := i32 (per_modem - size) in
        if decide (0x100000 < host) then host - 0x100000 else host
      else modem_host_data_size p
    else modem_host_data_size p in
  let host := page_align host in
  let size := page_align (i32 (size + host)) in
  if decide (global_scratch_buf_size p < i32 (modem_num p * size)) then inl (- EINVAL) else
  inr (Params (modem_num p) (global_scratch_buf_size p) (scratch_buf_phys_addr p) share host rf).

(** ** A device's part *)

Inductive scratch_id :=
  | GUL_SCRATCH_MODEM_SHARE | GUL_HOST_DATA | GUL_RF_DATA | GUL_FIRMWARE
  | GUL_SCRATCH_DBG_LOGGER | GUL_VSPA_FW | GUL_VSPA_OVERLAY.
#[export] Instance scratch_id_eq : EqDecision scratch_id.
Proof. solve_decision. Defined.

Record mem_region := Region { phys_addr : Z; vaddr : Z; size : Z }.
Record scratch_allocator := Scr {
  host_phys : Z; host_vaddr : Z; mod_phys : Z; mod_phys_current : Z; mod_phys_end : Z; scr_size : Z }.

(** The array of regions is zeroed with its device. *)
Record scratch := Scratch { regions : scratch_id → mem_region; allocator : scratch_allocator }.

Definition no_region : mem_region := Region 0 0 0.

(** [memremap] maps host addresses, [0] is its failure; [modinfo] is what
    [gul_modinfo_init] returns.  The result is the value returned and, once the
    memory was mapped, the allocator, the registers written and whether the
    memory is still mapped. *)
Definition gul_scratch_buf_init (memremap : Z → Z → Z) (modinfo id : Z) (p : params)
  : Z * option (scratch * list (reg * Z) * bool) :=
  let size := page_align (i32 (fixed_sizes + modem_share_buf_size p + modem_host_data_size p +
                               modem_rf_data_size p)) in
  let phys := u64 (scratch_buf_phys_addr p + i32 (id * size)) in
  if decide (u64 (scratch_buf_phys_addr p + global_scratch_buf_size p) < phys) then (- ENOMEM, None) else
  let v := memremap phys size in
  if decide (v = 0) then (- ENOMEM, None) else
  let start := u64 (GUL_SCRATCH_DMA_BUF_END_ADDR - size) in
  let a := Scr phys v start start (u64 (start + size)) (u64 size) in
  (0, Some (Scratch (λ _, no_region) a,
            ls_pcie_iatu_outbound_set GUL_OB_WIN_SCRATCH_BUF PCIE_ATU_TYPE_MEM
              (mod_phys a) (host_phys a) (scr_size a),
            bool_decide (modinfo = 0))).

Definition scratch_buf_allocator (id : scratch_id) (n : Z) (s : scratch) : option mem_region * scratch :=
  let r := regions s id in
  let a := allocator s in
  if decide (size r ≠ 0) then (Some r, s) else
  if decide (u64 (mod_phys_end a - mod_phys_current a) < u64 n) then (None, s) else
  let offset := u64 (mod_phys_current a - mod_phys a) in
  let r := Region (u64 (mod_phys a + offset)) (u64 (host_vaddr a + offset)) (u64 n) in
  (Some r, Scratch (λ j, if decide (j = id) then r else regions s j)
     (Scr (host_phys a) (host_vaddr a) (mod_phys a) (u64 (mod_phys_current a + n))
        (mod_phys_end a) (scr_size a))).

(** The requests of [allocate_scratch_buf_regions], in its order; what the calls
    return is not looked at. *)
Definition scratch_requests (p : params) : list (scratch_id * Z) :=
  (if decide (modem_share_buf_size p ≠ 0) then [(GUL_SCRATCH_MODEM_SHARE, modem_share_buf_size p)] else []) ++
  (if decide (modem_host_data_size p ≠ 0) then [(GUL_HOST_DATA, modem_host_data_size p)] else []) ++
  (if decide (modem_rf_data_size p ≠ 0) then [(GUL_RF_DATA, modem_rf_data_size p)] else []) ++
  [(GUL_FIRMWARE, GUL_MAX_IMAGE_SIZE); (GUL_SCRATCH_DBG_LOGGER, GUL_EP_LOGGER_SIZE);
   (GUL_VSPA_FW, GUL_VSPA_SCRATCH_BUF_MAX_SIZE); (GUL_VSPA_OVERLAY, GUL_VSPA_OVERLAY_SIZE)].

Definition allocate_scratch_buf_regions (p : params) (s : scratch) : scratch :=
  foldl (λ s r, snd (scratch_buf_allocator (fst r) (snd r) s)) s (scratch_requests p).

(** [gul_init_ep_logger]: the buffer of each core, and the words handed to the
    modem (address and length). *)
Definition gul_init_ep_logger (numcores : nat) (s : scratch) : option (list (Z * Z * Z)) * scratch :=
  match scratch_buf_allocator GUL_SCRATCH_DBG_LOGGER GUL_EP_LOGGER_SIZE s with
  | (None, s) => (None, s)
  | (Some r, s) =>
      (Some ((λ i, (u64 (vaddr r + Z.of_nat i * GUL_CORE_LOG_BUF_SIZE),
                    u32 (phys_addr r + Z.of_nat i * GUL_CORE_LOG_BUF_SIZE),
                    GUL_CORE_LOG_BUF_SIZE)) <$> seq 0 numcores), s)
  end.

(** ** PCI addresses for the modem *)
Record pcie_window := Window { win_start : Z; win_current : Z; win_limit : Z }.
Definition gul_init_ep_pcie_allocator : pcie_window :=
  Window PCI_OUTBOUND_WINDOW_BASE_ADDR PCI_OUTBOUND_WINDOW_BASE_ADDR 0xE0000000.
Definition gul_alloc_ep_pcie_addr (n : Z) (w : pcie_window) : Z * pcie_window :=
  let a := win_current w in
  if decide (win_limit w < u32 (a + n)) then (u32 (-1), w)
  else (a, Window (win_start w) (u32 (a + n)) (win_limit w)).

End Scratch.

(** ** Lemmas: a run of the allocator packs its requests *)
Section Packing.
Context `{ScratchIf}.

Fixpoint total (l : list (scratch_id * Z)) : Z := match l with [] => 0 | r :: l => snd r + total l end.
Lemma total_app l k : total (l ++ k) = total l + total k.
Proof. induction l as [|r l IH]; cbn; [done|]. rewrite IH. lia. Qed.
Lemma total_nonneg l : Forall (λ r, 0 < snd r) l → 0 ≤ total l.
Proof. induction 1; cbn; lia. Qed.
Lemma total_take_le l a : Forall (λ r, 0 < snd r) l → total (take a l) ≤ total l.
Proof.
  intros Hl. rewrite <- (take_drop a l) at 2. rewrite total_app.
  assert (Hd := total_nonneg (drop a l) ltac:(by apply Forall_drop)). lia.
Qed.
Lemma total_take_S l a r : l !! a = Some r → total (take (S a) l) = total (take a l) + snd r.
Proof. intros Hr. rewrite (take_S_r _ _ r) by done. rewrite total_app. cbn. lia. Qed.
Lemma total_take_mono l a b : Forall (λ r, 0 < snd r) l → (a ≤ b)%nat → total (take a l) ≤ total (take b l).
Proof.
  intros Hl Hab. replace (take a l) with (take a (take b l)).
  - apply total_take_le. by apply Forall_take.
  - rewrite take_take. f_equal. lia.
Qed.

(** The addresses of a device's part do not wrap. *)
Definition sound (a : scratch_allocator) (cap : Z) : Prop :=
  0 ≤ mod_phys a ∧ 0 ≤ host_vaddr a ∧ 0 ≤ cap ∧ mod_phys a + cap < 18446744073709551616 ∧
  host_vaddr a + cap < 18446744073709551616 ∧ mod_phys_end a = mod_phys a + cap.

(** Region [k] starts where the first [k] end. *)
Definition region_at (a : scratch_allocator) (off n : Z) : mem_region :=
  Region (mod_phys a + off) (host_vaddr a + off) n.

Lemma alloc_one s i n off cap : sound (allocator s) cap → size (regions s i) = 0 →
  mod_phys_current (allocator s) = mod_phys (allocator s) + off → 0 ≤ off → 0 < n → off + n ≤ cap →
  scratch_buf_allocator i n s =
    (Some (region_at (allocator s) off n),
     Scratch (λ j, if decide (j = i) then region_at (allocator s) off n else regions s j)
       (Scr (host_phys (allocator s)) (host_vaddr (allocator s)) (mod_phys (allocator s))
          (mod_phys (allocator s) + (off + n)) (mod_phys_end (allocator s)) (scr_size (allocator s)))).
Proof.
  intros (Hm & Hv & Hc & Hm' & Hv' & He) Hfree Hcur Hoff Hn Hcap. unfold scratch_buf_allocator.
  rewrite decide_False by (rewrite Hfree; lia). rewrite Hcur, He. unfold u64.
  rewrite (Z.mod_small n), (Z.mod_small (mod_phys (allocator s) + cap - _)) by lia.
  rewrite decide_False by lia. unfold region_at.
  replace (mod_phys (allocator s) + off - mod_phys (allocator s)) with off by lia.
  rewrite (Z.mod_small off), !Z.mod_small by lia. by rewrite Z.add_assoc.
Qed.

Lemma alloc_all l : ∀ s off cap, sound (allocator s) cap → NoDup (fst <$> l) →
  Forall (λ r, 0 < snd r) l → Forall (λ r, size (regions s (fst r)) = 0) l →
  mod_phys_current (allocator s) = mod_phys (allocator s) + off → 0 ≤ off → off + total l ≤ cap →
  let s' := foldl (λ s r, snd (scratch_buf_allocator (fst r) (snd r) s)) s l in
  (∀ a r, l !! a = Some r →
     regions s' (fst r) = region_at (allocator s) (off + total (take a l)) (snd r)) ∧
  (∀ j, j ∉ (fst <$> l) → regions s' j = regions s j).
Proof.
  induction l as [|[i n] l IH]; intros s off cap Hsnd Hnd Hpos Hfree Hcur Hoff Hcap; [done|].
  apply NoDup_cons in Hnd as [Hi Hnd]. apply Forall_cons in Hpos as [Hn Hpos].
  apply Forall_cons in Hfree as [Hf Hfree]. cbn [fst snd total] in *.
  assert (Htot := total_nonneg l Hpos). cbn [foldl fst snd].
  rewrite (alloc_one s i n off cap Hsnd Hf Hcur Hoff Hn) by lia. cbn [snd].
  set (s1 := Scratch _ _). destruct (IH s1 (off + n) cap) as [IHr IHo]; [done|done|done| |done|lia|lia|].
  { apply Forall_forall. intros r Hr. cbn [s1 regions]. rewrite decide_False.
    - by rewrite Forall_forall in Hfree; apply Hfree.
    - intros Heq. apply Hi. rewrite <- Heq. by apply list_elem_of_fmap_2. }
  split.
  - intros [|a] r Hr; cbn [lookup list_lookup] in Hr.
    + injection Hr as <-. cbn [fst snd]. rewrite IHo by done. cbn [s1 regions].
      rewrite decide_True by done. f_equal; cbn; lia.
    + rewrite (IHr a r Hr). unfold region_at. cbn [s1 allocator host_vaddr mod_phys take total snd].
      f_equal; lia.
  - intros j [Hj1 Hj2]%not_elem_of_cons. rewrite IHo by done. cbn [s1 regions]. by rewrite decide_False.
Qed.

End Packing.

(** ** From the parameters to the regions *)
Section Layout.
Context `{ScratchIf}.

(** Parameters no sum of which leaves [int]; the numbers of the platform. *)
Record sane (p : params) : Prop := {
  sane_page : 0 ≤ PAGE_SHIFT ≤ 16;
  sane_cores : 0 < GUL_EP_CORE_MAX < 1024;
  sane_end : 2147483648 ≤ GUL_SCRATCH_DMA_BUF_END_ADDR < 18446744073709551616;
  sane_num : 0 < modem_num p;
  sane_sizes : 0 ≤ modem_share_buf_size p ∧ 0 ≤ modem_host_data_size p ∧ 0 ≤ modem_rf_data_size p;
  sane_sum : modem_num p * (fixed_sizes + modem_share_buf_size p + modem_host_data_size p +
                            modem_rf_data_size p + 4 * PAGE_SIZE) < 2147483648;
  sane_global : 0 ≤ global_scratch_buf_size p ∧
    global_scratch_buf_size p + modem_num p * (4 * PAGE_SIZE) < 2147483648;
  sane_phys : 0 ≤ scratch_buf_phys_addr p ∧
    scratch_buf_phys_addr p + global_scratch_buf_size p < 18446744073709551616 }.

Lemma page_size_pos : 0 ≤ PAGE_SHIFT ≤ 16 → 0 < PAGE_SIZE ≤ 65536.
Proof.
  intros Hp. unfold PAGE_SIZE. split; [apply Z.pow_pos_nonneg; lia|].
  change 65536 with (2 ^ 16). apply Z.pow_le_mono_r; lia.
Qed.

Lemma i32_small x : -2147483648 ≤ x < 2147483648 → i32 x = x.
Proof. intros. unfold i32. rewrite Z.mod_small by lia. lia. Qed.

Lemma page_align_bounds x : 0 ≤ PAGE_SHIFT ≤ 16 → 0 ≤ x → x + PAGE_SIZE < 2147483648 →
  x ≤ page_align x < x + PAGE_SIZE.
Proof.
  intros Hp Hx Hb. assert (Hps := page_size_pos Hp). unfold page_align.
  assert (Hm := Z.mod_pos_bound (x + (PAGE_SIZE - 1)) PAGE_SIZE (proj1 Hps)).
  rewrite i32_small by lia. lia.
Qed.

Lemma fixed_sizes_eq : fixed_sizes = 16777216.
Proof. unfold fixed_sizes, GUL_MAX_IMAGE_SIZE, GUL_VSPA_SCRATCH_BUF_MAX_SIZE, GUL_VSPA_OVERLAY_SIZE. lia. Qed.

(** The sizes the devices get: rounded up, and together within the memory. *)
Lemma init_sizes_spec p q : sane p → gul_pcidev_init_sizes p = inr q →
  let sum := fixed_sizes + modem_share_buf_size q + modem_host_data_size q + modem_rf_data_size q in
  0 ≤ modem_share_buf_size q ∧ 0 ≤ modem_host_data_size q ∧ 0 ≤ modem_rf_data_size q ∧
  modem_num q = modem_num p ∧ scratch_buf_phys_addr q = scratch_buf_phys_addr p ∧
  global_scratch_buf_size q = global_scratch_buf_size p ∧
  sum + PAGE_SIZE < 2147483648 ∧ modem_num p * page_align sum ≤ global_scratch_buf_size p.
Proof.
  intros Hs. destruct Hs as [Hpg Hco _ Hnum (Hsh & Hho & Hrf) Hsum [Hg0 Hg] _].
  assert (Hps := page_size_pos Hpg). unfold gul_pcidev_init_sizes.
  case_decide; [done|]. rewrite fixed_sizes_eq in *.
  assert (Hle : ∀ x, 0 ≤ x → x ≤ modem_num p * x) by (intros; nia).
  assert (H1 : 16777216 + modem_share_buf_size p + modem_host_data_size p + modem_rf_data_size p +
    4 * PAGE_SIZE < 2147483648) by (eapply Z.le_lt_trans; [apply Hle; lia|exact Hsum]).
  assert (Hal := λ x, page_align_bounds x Hpg).
  assert (Bsh := Hal (modem_share_buf_size p) Hsh). destruct Bsh as [Bsh Bsh']; [lia|].
  assert (Brf := Hal (modem_rf_data_size p) Hrf). destruct Brf as [Brf Brf']; [lia|].
  set (share := page_align (modem_share_buf_size p)) in *. set (rf := page_align (modem_rf_data_size p)) in *.
  rewrite (i32_small (16777216 + share + rf)) by lia.
  match goal with |- context [page_align (if decide (modem_host_data_size p = 0) then ?a else ?b)] =>
    set (host := if decide (modem_host_data_size p = 0) then a else b) end.
  assert (Bhost : 0 ≤ host ∧ modem_num p * (16777216 + share + rf + host + 2 * PAGE_SIZE) < 2147483648).
  { assert (Hsmall : host = modem_host_data_size p → 0 ≤ host ∧
      modem_num p * (16777216 + share + rf + host + 2 * PAGE_SIZE) < 2147483648).
    { intros ->. split; [done|].
      eapply Z.le_lt_trans; [apply Z.mul_le_mono_nonneg_l; [lia|]|exact Hsum]. lia. }
    unfold host in *. clear host. case_decide as Hz; [|by apply Hsmall].
    assert (Hq := Z.quot_div_nonneg (global_scratch_buf_size p) (modem_num p) Hg0 Hnum). rewrite Hq in *.
    assert (Hd := Z.mul_div_le (global_scratch_buf_size p) (modem_num p) Hnum).
    assert (Hd0 : 0 ≤ global_scratch_buf_size p / modem_num p) by (apply Z.div_pos; lia).
    set (per := global_scratch_buf_size p / modem_num p) in *.
    assert (Hper := Hle per Hd0).
    case_decide as Hlt; [|by apply Hsmall]. rewrite i32_small by lia.
    clear Hsmall. split; [case_decide; lia|]. apply Z.le_lt_trans with (modem_num p * (per + 2 * PAGE_SIZE)).
    - apply Z.mul_le_mono_nonneg_l; [lia|]. case_decide; lia.
    - lia. }
  destruct Bhost as [Hh0 Bhost].
  assert (H2 : 16777216 + share + rf + host + 2 * PAGE_SIZE < 2147483648)
    by (eapply Z.le_lt_trans; [apply Hle; lia|exact Bhost]).
  destruct (Hal host Hh0) as [Bho Bho']; [lia|]. set (host' := page_align host) in *.
  rewrite (i32_small (16777216 + share + rf + host')) by lia.
  destruct (Hal (16777216 + share + rf + host')) as [Bs Bs']; [lia|lia|].
  assert (Hprod : 0 ≤ modem_num p * page_align (16777216 + share + rf + host') < 2147483648).
  { split; [apply Z.mul_nonneg_nonneg; lia|].
    eapply Z.le_lt_trans; [apply Z.mul_le_mono_nonneg_l; [lia|]|exact Bhost]. lia. }
  rewrite i32_small by lia. case_decide as Hfit; [done|]. intros [= <-]. cbn.
  replace (16777216 + share + host' + rf) with (16777216 + share + rf + host') by lia.
  split_and!; lia.
Qed.

Lemma requests_pos q : 0 < GUL_EP_CORE_MAX < 1024 → 0 ≤ modem_share_buf_size q →
  0 ≤ modem_host_data_size q → 0 ≤ modem_rf_data_size q → Forall (λ r, 0 < snd r) (scratch_requests q).
Proof.
  intros. unfold scratch_requests. rewrite !Forall_app. split_and!.
  1-3: case_decide; [apply Forall_singleton; cbn; lia|constructor].
  unfold GUL_MAX_IMAGE_SIZE, GUL_EP_LOGGER_SIZE, GUL_CORE_LOG_BUF_SIZE, GUL_VSPA_SCRATCH_BUF_MAX_SIZE,
    GUL_VSPA_OVERLAY_SIZE. repeat (constructor; [cbn; lia|]). constructor.
Qed.
Lemma requests_nodup q : NoDup (fst <$> scratch_requests q).
Proof.
  unfold scratch_requests. repeat case_decide; cbn; apply (bool_decide_eq_true_1 (NoDup _)); reflexivity.
Qed.
Lemma requests_total q : total (scratch_requests q) =
  fixed_sizes + modem_share_buf_size q + modem_host_data_size q + modem_rf_data_size q.
Proof. unfold scratch_requests, fixed_sizes. rewrite !total_app. repeat case_decide; cbn; lia. Qed.

(** What the regions of one device satisfy. *)
Definition laid_out (q : params) (s : scratch) : Prop :=
  let a := allocator s in
  let s' := allocate_scratch_buf_regions q s in
  (∀ i n, (i, n) ∈ scratch_requests q → let r := regions s' i in
     size r = n ∧ mod_phys a ≤ phys_addr r ∧ phys_addr r + n ≤ mod_phys_end a ∧
     phys_addr r - mod_phys a = vaddr r - host_vaddr a) ∧
  (∀ i n j m, (i, n) ∈ scratch_requests q → (j, m) ∈ scratch_requests q → i ≠ j →
     phys_addr (regions s' i) + n ≤ phys_addr (regions s' j) ∨
     phys_addr (regions s' j) + m ≤ phys_addr (regions s' i)).

Lemma allocate_laid_out q s cap : sound (allocator s) cap → (∀ i, size (regions s i) = 0) →
  mod_phys_current (allocator s) = mod_phys (allocator s) → total (scratch_requests q) ≤ cap →
  Forall (λ r, 0 < snd r) (scratch_requests q) → laid_out q s.
Proof.
  intros Hsnd Hfree Hcur Hcap Hpos.
  destruct (alloc_all (scratch_requests q) s 0 cap Hsnd (requests_nodup q) Hpos) as [Hall _];
    [by apply Forall_true|lia|lia|lia|].
  change (foldl _ s (scratch_requests q)) with (allocate_scratch_buf_regions q s) in Hall.
  set (l := scratch_requests q) in *.
  assert (Hend : mod_phys_end (allocator s) = mod_phys (allocator s) + cap) by apply Hsnd.
  split.
  - intros i n Hin. apply list_elem_of_lookup_1 in Hin as [a Ha]. specialize (Hall a (i, n) Ha).
    cbn [fst snd] in Hall. cbv zeta. rewrite Hall. unfold region_at; cbn.
    assert (Ht := total_take_le l (S a) Hpos). rewrite (total_take_S l a (i, n) Ha) in Ht. cbn in Ht.
    assert (H0 := total_nonneg (take a l) ltac:(by apply Forall_take)). lia.
  - intros i n j m Hi Hj Hij. apply list_elem_of_lookup_1 in Hi as [a Ha].
    apply list_elem_of_lookup_1 in Hj as [b Hb]. rewrite (Hall a (i, n) Ha : regions _ i = _).
    rewrite (Hall b (j, m) Hb : regions _ j = _). unfold region_at; cbn [phys_addr fst snd].
    assert (Hab : a ≠ b) by (intros ->; congruence).
    destruct (decide (a < b)%nat) as [Hlt|Hge].
    + left. assert (Ht := total_take_mono l (S a) b Hpos ltac:(lia)).
      rewrite (total_take_S l a (i, n) Ha) in Ht. cbn in Ht. lia.
    + right. assert (Ht := total_take_mono l (S b) a Hpos ltac:(lia)).
      rewrite (total_take_S l b (j, m) Hb) in Ht. cbn in Ht. lia.
Qed.

End Layout.

(** ** Claims *)

(** C27: The scratch memory is shared out soundly, for sane parameters (no sum of which
    leaves an int or the addresses), if the module accepts them and every part can be
    mapped: there is a size [n] such that every device of the module gets its own [n]
    bytes of the memory the parameters name, and in it every region the sub-drivers ask
    for, of the size asked for, with host and modem addresses in step, no two
    overlapping; the address window of the modem is set on exactly these bytes.
    (Parameters the module accepts although they are not sane are the subject of a
    finding, gul_pci.c:1159.) *)
Theorem scratch_layout `{ScratchIf, HostIf} (memremap : Z → Z → Z) (p q : params) :
  sane p → gul_pcidev_init_sizes p = inr q →
  (∀ a n, n < 2147483648 → 0 < memremap a n ∧ memremap a n + n < 18446744073709551616) →
  ∃ n, 0 < n ∧ modem_num p * n ≤ global_scratch_buf_size p ∧
  ∀ id, 0 ≤ id < modem_num p → ∃ s, gul_scratch_buf_init memremap 0 id q =
      (0, Some (s, ls_pcie_iatu_outbound_set GUL_OB_WIN_SCRATCH_BUF PCIE_ATU_TYPE_MEM
                     (mod_phys (allocator s)) (host_phys (allocator s)) n, true)) ∧
    host_phys (allocator s) = scratch_buf_phys_addr p + id * n ∧ scr_size (allocator s) = n ∧
    laid_out q s.
Proof.
  intros Hs Hq Hmap. destruct (init_sizes_spec p q Hs Hq) as (Hsh & Hho & Hrf & Hnum & Hph & Hgl & Hsum & Hfit).
  destruct Hs as [Hpg Hco Hend Hn0 _ _ [Hg0 Hg] [Hp0 Hp]].
  set (sum := fixed_sizes + _ + _ + _) in *. assert (Hps := page_size_pos Hpg).
  assert (Hsum0 : 16777216 ≤ sum) by (unfold sum; rewrite fixed_sizes_eq; lia).
  destruct (page_align_bounds sum Hpg) as [Ha Ha']; [lia|lia|]. set (n := page_align sum) in *.
  exists n. split; [lia|]. split; [done|]. intros id Hid.
  assert (Hidn : 0 ≤ id * n ∧ id * n + n ≤ global_scratch_buf_size p) by nia.
  unfold gul_scratch_buf_init. fold sum. rewrite (i32_small sum) by lia. fold n.
  rewrite Hph, Hgl. rewrite (i32_small (id * n)) by lia. unfold u64.
  rewrite !(Z.mod_small (scratch_buf_phys_addr p + _)) by lia. rewrite decide_False by lia.
  destruct (Hmap (scratch_buf_phys_addr p + id * n) n) as [Hv Hv']; [lia|].
  rewrite decide_False by lia.
  rewrite (Z.mod_small (GUL_SCRATCH_DMA_BUF_END_ADDR - n)), !Z.mod_small by lia.
  rewrite bool_decide_true by done. cbn [mod_phys host_phys scr_size].
  match goal with |- context [(Some (?x, _, true))] => exists x end.
  split; [reflexivity|]. cbn [allocator host_phys scr_size]. split; [done|]. split; [done|].
  apply (allocate_laid_out q _ n); cbn [allocator regions no_region size mod_phys mod_phys_current].
  - unfold sound; cbn. lia.
  - done.
  - done.
  - rewrite requests_total. fold sum. lia.
  - by apply requests_pos.
Qed.

(** the PCI addresses of the modem are handed out in order, up to the limit,
    as long as the sum of pointer and size stays below 2^32; a larger size is
    accepted too, returns an address below the limit and moves the pointer
    back. *)
Theorem pcie_addresses `{ScratchIf} (n : Z) (w : pcie_window) :
  0 ≤ win_current w ≤ win_limit w → win_limit w < 4294967296 → 0 ≤ n < 4294967296 →
  gul_alloc_ep_pcie_addr n w =
  if decide (win_current w + n < 4294967296) then
    if decide (win_current w + n ≤ win_limit w)
    then (win_current w, Window (win_start w) (win_current w + n) (win_limit w))
    else (4294967295, w)
  else (win_current w, Window (win_start w) (win_current w + n - 4294967296) (win_limit w)).
Proof.
  intros Hc Hl Hn. unfold gul_alloc_ep_pcie_addr.
  destruct (decide (win_current w + n < 4294967296)) as [H1|H1].
  - assert (Hu : u32 (win_current w + n) = win_current w + n) by (unfold u32; rewrite Z.mod_small; lia).
    rewrite Hu. repeat case_decide; done || lia.
  - assert (Hu : u32 (win_current w + n) = win_current w + n - 4294967296)
      by (unfold u32; symmetry; apply Z.mod_unique_pos with 1; lia).
    rewrite Hu. by rewrite decide_False by lia.
Qed.

(** ** A platform *)
#[local] Instance demo_scratch : ScratchIf := {|
  PAGE_SHIFT := 12; GUL_EP_CORE_MAX := 8; GUL_SCRATCH_DMA_BUF_END_ADDR := 0xE0000000;
  PCI_OUTBOUND_WINDOW_BASE_ADDR := 0xA0000000; GUL_OB_WIN_SCRATCH_BUF := 3 |}.
#[local] Instance demo_host : HostIf := {|
  GUL_MSI_MAX_CNT := 8; IPC_MAX_CHANNEL_COUNT := 4; MAX_PCI_USER_ALLOC_COUNT := 4;
  GUL_OB_WIN_HUGE_PAGE_BUFS := 2; MPIC_MSIIR_SRS_BIT := 29; MPIC_MSIIR_IBS_BIT := 24;
  PCIE_ATU_REGION_OUTBOUND := 0; PCIE_ATU_TYPE_MEM := 0; PCIE_ATU_ENABLE := 0x80000000 |}.
Definition demo_params : params := Params 2 0x10000000 0x90000000 0x2000001 0 0x1000.

Lemma scratch_layout_witness :
  ∃ q n, gul_pcidev_init_sizes demo_params = inr q ∧ 0 < n ∧ 2 * n ≤ 0x10000000 ∧
  ∀ id, 0 ≤ id < 2 → ∃ s, gul_scratch_buf_init (λ _ _, 0x1000) 0 id q =
      (0, Some (s, ls_pcie_iatu_outbound_set 3 PCIE_ATU_TYPE_MEM
                     (mod_phys (allocator s)) (host_phys (allocator s)) n, true)) ∧
    host_phys (allocator s) = 0x90000000 + id * n ∧ scr_size (allocator s) = n ∧ laid_out q s.
Proof.
  exists (Params 2 0x10000000 0x90000000 0x2001000 (0x8000000 - 0x3002000 - 0x100000) 0x1000).
  destruct (scratch_layout (λ _ _, 0x1000) demo_params
    (Params 2 0x10000000 0x90000000 0x2001000 (0x8000000 - 0x3002000 - 0x100000) 0x1000))
    as (n & Hn & Hfit & Hall).
  - split; try (vm_compute; split; discriminate); try (vm_compute; reflexivity);
      try (split; vm_compute; (discriminate || reflexivity)).
    repeat split; discriminate.
  - vm_compute. reflexivity.
  - intros a n Hn. split; [reflexivity|lia].
  - exists n. split; [vm_compute; reflexivity|]. split; [exact Hn|]. split; [exact Hfit|exact Hall].
Defined.

Lemma pcie_addresses_witness :
  gul_alloc_ep_pcie_addr 0x60000000 (Window 0xA0000000 0xB0000000 0xE0000000) =
    (0xB0000000, Window 0xA0000000 0x10000000 0xE0000000).
Proof.
  apply (pcie_addresses 0x60000000 (Window 0xA0000000 0xB0000000 0xE0000000));
    [split; discriminate|reflexivity|split; [discriminate|reflexivity]].
Defined.
