(* ===== verification/GulBoot.v ===== *)
(** * Booting the modem's cores (kernel_driver/yami/gul_boot.c, gul_base.c)

    The firmware file is loaded into the scratch region, its ELF program headers
    are turned into the scatter-gather table of the boot header, and the preamble
    is written last; then the driver waits for the modem's handshake.  [None] is
    undefined behaviour: a read outside the region, or freeing memory that was
    not allocated. *)
From S2P Require Import Prelude GulMsi GulImage GulScratch.
From stdpp Require Import strings pretty.
#[global] Open Scope Z_scope.

(** The word that starts the boot ROM comes from a header outside this
    repository; the rest are the build's and the module's choices. *)
Class BootIf := {
  PREAMBLE : Z;
  GUL_QDMA_FOR_BOOT_ENABLE : bool;
  DMEM_ADDRESS : Z;
  is_la1238 : bool }.

Definition EIO : Z := 5.
Definition ENOEXEC : Z := 8.
Definition ENOBUFS : Z := 105.
Definition POWERPC_MACH_CODE : Z := 0x14.
Definition GEUL_RSVD : Z := 0.
Definition GEUL_MAX_SEG_ENTRIES : Z := 8.
Definition GEUL_USE_QDMA : Z := 0.
Definition GEUL_USE_MEMCOPY : Z := 1.
Definition FIRMWARE_NAME_SIZE : Z := 128.
Definition FIRMWARE_RTOS_WARMUP : string := "geul_e200_warmup.elf".

(** The fields of the boot header, as the words stored in it. *)
Record sg_entry := Sg { len : Z; resv : Z; src : Z; dest : Z }.
Record boot_header := Hdr {
  preamble : Z; bl_entry : Z; flags : Z; sgentries : Z; sgtbl : list sg_entry }.

Definition set_sgtbl (t : list sg_entry) (h : boot_header) : boot_header :=
  Hdr (preamble h) (bl_entry h) (flags h) (sgentries h) t.
Definition set_sgentries (n : Z) (h : boot_header) : boot_header :=
  Hdr (preamble h) (bl_entry h) (flags h) n (sgtbl h).
Definition set_entry (e f : Z) (h : boot_header) : boot_header :=
  Hdr (preamble h) e f (sgentries h) (sgtbl h).
Definition set_preamble (v : Z) (h : boot_header) : boot_header :=
  Hdr v (bl_entry h) (flags h) (sgentries h) (sgtbl h).

(** [filp_open] on a path ([0] for a file, else the error), and [request_firmware]. *)
Record files := Files { filp_open : string → Z; request_firmware : string → Z + list Z }.

(** The device: its scratch memory, the bytes of the firmware region, the boot
    header, and what it remembers of the image. *)
Record gul_boot := GulDev {
  scr : scratch; fw_mem : buffer; header : boot_header; fw_name : string; fw_size : Z }.

Definition with_scr (s : scratch) (g : gul_boot) : gul_boot :=
  GulDev s (fw_mem g) (header g) (fw_name g) (fw_size g).
Definition with_mem (b : buffer) (g : gul_boot) : gul_boot :=
  GulDev (scr g) b (header g) (fw_name g) (fw_size g).
Definition with_header (h : boot_header) (g : gul_boot) : gul_boot :=
  GulDev (scr g) (fw_mem g) h (fw_name g) (fw_size g).
Definition with_fw (n : string) (z : Z) (g : gul_boot) : gul_boot :=
  GulDev (scr g) (fw_mem g) (header g) n z.

Section Boot.
Context `{ScratchIf, BootIf}.
Variable fs : files.

(** ** The image *)

(** The path is built in a local array of [FIRMWARE_NAME_SIZE] characters. *)
Definition check_file (name : string) : option Z :=
  if decide (name = ""%string) then Some (- EINVAL) else
  let path := "/lib/firmware/" +:+ name in
  if decide (FIRMWARE_NAME_SIZE ≤ Z.of_nat (String.length path)) then None else
  Some (filp_open fs path).

(** The buffer is [buf] from [at_] on.  The last component is [*fw_size], unchanged ([None]) unless the file was
    copied. *)
Definition gul_udev_load_firmware (buf : buffer) (at_ buff_sz : Z) (name : string)
  : option (Z * buffer * option Z) :=
  match request_firmware fs name with
  | inl rc => Some (rc, buf, None)
  | inr data =>
      let size := i32 (zlen data) in
      if decide (buff_sz < size) then Some (- ENOBUFS, buf, None) else
      buf ← memcpy buf at_ (init data) 0 size; Some (0, buf, Some size)
  end.

(** Entry [prog_num] of the program headers in host order. *)
Definition program (b : buffer) (pg_hd_off prog_num : Z) : option program_header :=
  p ← read_program_header b pg_hd_off prog_num;
  Some (ProgramHeader (be32_to_cpu (prg_offset p)) (be32_to_cpu (prg_vaddr p))
          (be32_to_cpu (prg_filesz p))).

Definition sg_of (fw_phys : Z) (vaddr : Z) (p : program_header) : sg_entry :=
  Sg (be32_to_cpu (align (prg_filesz p) 4)) (be32_to_cpu GEUL_RSVD)
     (be32_to_cpu (u32 (fw_phys + prg_offset p))) (be32_to_cpu vaddr).

(** The loop from [prog_num], [n] headers left. *)
Fixpoint load_programs (n : nat) (b : buffer) (fw_phys pg_hd_off size prog_num prog_idx : Z)
  (t : list sg_entry) : option (Z * Z * list sg_entry) :=
  match n with
  | O => Some (0, prog_idx, t)
  | S n =>
      p ← program b pg_hd_off prog_num;
      if decide (prg_filesz p = 0)
      then load_programs n b fw_phys pg_hd_off size (prog_num + 1) prog_idx t else
      if decide (size < prg_filesz p) then Some (- ENOMEM, prog_idx, t) else
      let vma := if GUL_QDMA_FOR_BOOT_ENABLE && bool_decide (prog_idx = 0)
                 then DMEM_ADDRESS else prg_vaddr p in
      if decide (GEUL_MAX_SEG_ENTRIES - 1 < prog_idx) then Some (- ENOMEM, prog_idx, t) else
      t ← (if decide (prog_idx < zlen t)
           then Some (<[Z.to_nat prog_idx := sg_of fw_phys vma p]> t) else None);
      load_programs n b fw_phys pg_hd_off size (prog_num + 1) (prog_idx + 1) t
  end.

Definition fw_read_and_load_program (b : buffer) (fw_phys pg_hd_off ph_num size : Z) (h : boot_header)
  : option (Z * boot_header) :=
  '(r, idx, t) ← load_programs (Z.to_nat ph_num) b fw_phys pg_hd_off size 0 0 (sgtbl h);
  let h := set_sgtbl t h in
  Some (if decide (r = 0) then (0, set_sgentries (be32_to_cpu idx) h) else (r, h)).

(** A wrong machine code frees the region, which [kvmalloc] never returned. *)
Definition gul_load_boot_images (b : buffer) (fw_phys size : Z) (h : boot_header)
  : option (Z * boot_header) :=
  hd ← read_file_header b 0;
  let h := set_entry (fh_entry hd)
    (be32_to_cpu (if GUL_QDMA_FOR_BOOT_ENABLE then GEUL_USE_QDMA else GEUL_USE_MEMCOPY)) h in
  if decide (be16_to_cpu (fh_machine hd) ≠ POWERPC_MACH_CODE) then None else
  '(r, h) ← fw_read_and_load_program b fw_phys (be32_to_cpu (fh_phoff hd))
              (be16_to_cpu (fh_phnum hd)) size h;
  Some (if decide (r ≠ 0) then - EIO else 0, h).

(** ** The whole load; [warmup] and [firmware_name] are the module's *)
Variables (id : Z) (warmup : bool) (firmware_name : string).
Local Abbreviation D := (M gul_boot).

(** The file that is there: the device's own, or the common one. *)
Definition choose_image : option (Z * string) :=
  let own := if warmup then "geul_e200-warmup_" +:+ pretty id +:+ ".elf"
             else "geul_e200_" +:+ pretty id +:+ ".elf" in
  rc ← (if is_la1238 then Some 1 else check_file own);
  if decide (rc ≠ 0) then
    let common := if warmup then FIRMWARE_RTOS_WARMUP else firmware_name in
    rc ← check_file common; Some (rc, common)
  else Some (0, own).

Definition gul_load_rtos_img : D Z :=
  r ← (λ g, let '(r, s) := scratch_buf_allocator GUL_FIRMWARE GUL_MAX_IMAGE_SIZE (scr g) in
            Some (r, with_scr s g));
  r ← lift r;
  let size := i32 (GulScratch.size r) in
  '(rc, name) ← lift choose_image;
  if decide (rc ≠ 0) then mret rc else
  g ← gets (λ g, g);
  '(rc, b, n) ← lift (gul_udev_load_firmware (fw_mem g) 0 size name);
  _ ← modify (with_mem b);
  if decide (rc < 0) then mret rc else
  '(rc, h) ← lift (gul_load_boot_images b (phys_addr r) (u32 size) (header g));
  _ ← modify (with_header h);
  if decide (rc ≠ 0) then mret rc else
  n ← lift n;
  _ ← modify (with_fw name n);
  _ ← modify (λ g, with_header (set_preamble PREAMBLE (header g)) g);
  mret 0.

End Boot.

(** ** The handshake *)

(** One wait and one read of the two registers (offset, size). *)
Class Handshake (C : Type) := { hs_read : C → C * (Z * Z) }.

Definition GUL_HOST_BOOT_HSHAKE_RETRIES : nat := 600.

Section Handshake.
Context {C : Type} `{Handshake C}.

Fixpoint hs_loop (retries : nat) (c : C) (hif : Z * Z) : C * (Z * Z) :=
  match retries with
  | O => (c, hif)
  | S retries =>
      if decide (snd hif = 0) then let '(c, hif) := hs_read c in hs_loop retries c hif else (c, hif)
  end.

(** The value returned, and the offset and size kept by the device. *)
Definition gul_do_reset_handshake (kept : Z * Z) (c : C) : Z * (Z * Z) * C :=
  let '(c, hif) := hs_read c in
  let '(c, hif) := hs_loop GUL_HOST_BOOT_HSHAKE_RETRIES c hif in
  if decide (snd hif = 0) then (- EBUSY, kept, c) else (0, hif, c).

End Handshake.
