(* ===== verification/GulBootCorrect.v ===== *)
(** * The boot table, the preamble and the handshake

    Theorems on GulBoot: the scatter-gather table the boot ROM gets is the list
    of the image's segments, the boot ROM is started only after a complete load,
    and the handshake waits a bounded time. *)
From S2P Require Import Prelude GulMsi GulImage GulScratch GulBoot.
From stdpp Require Import strings pretty.
#[global] Open Scope Z_scope.

(** ** The table *)
Section Table.
Context `{BootIf}.

(** The segments of the image: its program headers with a size. *)
Definition segments (ps : list program_header) : list program_header :=
  filter (λ p, prg_filesz p ≠ 0) ps.

Lemma segments_empty p ps : prg_filesz p = 0 → segments (p :: ps) = segments ps.
Proof. intros Hz. unfold segments. rewrite filter_cons. case_decide; done. Qed.
Lemma segments_cons p ps : prg_filesz p ≠ 0 → segments (p :: ps) = p :: segments ps.
Proof. intros Hz. unfold segments. rewrite filter_cons. case_decide; done. Qed.

(** The segments up to the first that is larger than the region. *)
Fixpoint fitting (size : Z) (qs : list program_header) : list program_header :=
  match qs with
  | [] => []
  | q :: qs => if decide (size < prg_filesz q) then [] else q :: fitting size qs
  end.

(** What the boot ROM is told of segment [i]: where its bytes are, rounded up to
    words, and where they go. *)
Definition segment_entry (fw_phys : Z) (i : Z) (q : program_header) : sg_entry :=
  Sg (be32_to_cpu ((prg_filesz q + 3) / 4 * 4)) 0 (be32_to_cpu (u32 (fw_phys + prg_offset q)))
     (be32_to_cpu (if GUL_QDMA_FOR_BOOT_ENABLE && bool_decide (i = 0) then DMEM_ADDRESS else prg_vaddr q)).

Fixpoint entries (fw_phys : Z) (i : Z) (qs : list program_header) : list sg_entry :=
  match qs with [] => [] | q :: qs => segment_entry fw_phys i q :: entries fw_phys (i + 1) qs end.

Lemma entries_length fw qs : ∀ i, length (entries fw i qs) = length qs.
Proof. induction qs as [|q qs IH]; intros i; cbn; [done|]. by rewrite IH. Qed.
Lemma fitting_le size qs : (length (fitting size qs) ≤ length qs)%nat.
Proof. induction qs as [|q qs IH]; cbn; [done|]. case_decide; cbn; lia. Qed.

Lemma sg_of_entry fw vma i q : 0 ≤ prg_filesz q → prg_filesz q + 3 < 4294967296 →
  vma = (if GUL_QDMA_FOR_BOOT_ENABLE && bool_decide (i = 0) then DMEM_ADDRESS else prg_vaddr q) →
  sg_of fw vma q = segment_entry fw i q.
Proof.
  intros H0 H3 ->. unfold sg_of, segment_entry. change 4 with (2 ^ 2) at 1.
  by rewrite align_spec by (cbn; lia).
Qed.

(** The loop, with [done] segments stored. *)
Lemma load_programs_spec b fw off size n : ∀ num ps done t,
  mapM (program b off) (seqZ num (Z.of_nat n)) = Some ps →
  Forall (λ p, 0 ≤ prg_filesz p) ps → size + 3 < 4294967296 →
  GEUL_MAX_SEG_ENTRIES ≤ zlen done + zlen t →
  let good := take (8 - length done) (fitting size (segments ps)) in
  zlen done ≤ 8 →
  load_programs n b fw off size num (zlen done) (done ++ t) =
  Some (if decide (length good = length (segments ps)) then 0 else - ENOMEM,
        zlen done + zlen good,
        done ++ entries fw (zlen done) good ++ drop (length good) t).
Proof.
  induction n as [|n IH]; intros num ps done t Hps Hnn Hsz Ht good Hd;
    unfold GEUL_MAX_SEG_ENTRIES in *.
  { change (Z.of_nat 0) with 0 in Hps. rewrite seqZ_nil in Hps by done. injection Hps as <-.
    subst good. unfold segments. rewrite filter_nil. cbn [fitting]. rewrite take_nil. cbn. unfold zlen; cbn. by rewrite Z.add_0_r. }
  rewrite seqZ_cons in Hps by lia. cbn [mapM] in Hps.
  destruct (program b off num) as [p|] eqn:Hp; [|done]. cbn [mbind option_bind] in Hps.
  replace (Z.pred (Z.of_nat (S n))) with (Z.of_nat n) in Hps by lia.
  replace (Z.succ num) with (num + 1) in Hps by lia.
  destruct (mapM _ _) as [ps'|] eqn:Hps'; [|done]. injection Hps as <-.
  apply Forall_cons in Hnn as [Hp0 Hnn]. cbn [load_programs]. rewrite Hp. cbn [mbind option_bind].
  subst good. destruct (decide (prg_filesz p = 0)) as [Hz|Hz].
  { rewrite segments_empty by done. by apply IH. }
  rewrite segments_cons by done. cbn [fitting length].
  destruct (decide (size < prg_filesz p)) as [Hbig|Hfit].
  { rewrite take_nil. cbn. unfold zlen; cbn. by rewrite Z.add_0_r. }
  change GEUL_MAX_SEG_ENTRIES with 8.
  destruct (decide (8 - 1 < zlen done)) as [Hfull|Hroom].
  { replace (8 - length done)%nat with O by (unfold zlen in *; lia). cbn.
    unfold zlen; cbn. by rewrite Z.add_0_r. }
  destruct t as [|e t]; [rewrite zlen_nil in Ht; lia|]. rewrite zlen_cons in Ht.
  rewrite (decide_True (P := zlen done < zlen (done ++ e :: t)))
    by (rewrite zlen_app, zlen_cons; pose proof (zlen_nonneg t); lia).
  cbn [mbind option_bind].
  unfold zlen at 2. rewrite Nat2Z.id, insert_mid by done.
  erewrite (sg_of_entry _ _ (zlen done) p) by (done || lia).
  set (x := segment_entry fw (zlen done) p).
  replace (done ++ x :: t) with ((done ++ [x]) ++ t) by by rewrite <- app_assoc.
  replace (zlen done + 1) with (zlen (done ++ [x])) by (rewrite zlen_app; done).
  rewrite (IH (num + 1) ps' (done ++ [x]) t Hps' Hnn Hsz)
    by (rewrite zlen_app, zlen_cons, zlen_nil; lia).
  replace (8 - length done)%nat with (S (8 - length (done ++ [x])))
    by (rewrite length_app; cbn; unfold zlen in *; lia).
  cbn [take length entries drop app]. rewrite (zlen_app done [x]), (zlen_cons p).
  change (zlen [x]) with 1.
  rewrite <- app_assoc, Z.add_assoc. cbn [app].
  destruct (decide (length _ = _)), (decide (S _ = S _)); done || lia.
Qed.

End Table.

(** One call that fills the table. *)
Section Load.
Context `{ScratchIf, BootIf}.

Lemma load_table (b : buffer) (fw_phys off n size : Z) (h : boot_header) (ps : list program_header) :
  mapM (program b off) (seqZ 0 n) = Some ps → Forall (λ p, 0 ≤ prg_filesz p) ps →
  0 ≤ n → size + 3 < 4294967296 → GEUL_MAX_SEG_ENTRIES ≤ zlen (sgtbl h) →
  let good := take 8 (fitting size (segments ps)) in
  let h' := set_sgtbl (entries fw_phys 0 good ++ drop (length good) (sgtbl h)) h in
  fw_read_and_load_program b fw_phys off n size h =
  Some (if decide (length good = length (segments ps)) then (0, set_sgentries (be32_to_cpu (zlen good)) h')
        else (- ENOMEM, h')).
Proof.
  intros Hps Hnn Hn Hsz Ht good h'. unfold fw_read_and_load_program.
  replace n with (Z.of_nat (Z.to_nat n)) in Hps by lia.
  assert (Hl := load_programs_spec b fw_phys off size (Z.to_nat n) 0 ps [] (sgtbl h) Hps Hnn Hsz Ht).
  cbn [length app] in Hl. rewrite zlen_nil in Hl. rewrite (Hl ltac:(lia)). cbn [mbind option_bind].
  change (8 - 0)%nat with 8%nat. fold good. rewrite Z.add_0_l. fold h'. by destruct (decide (length good = _)).
Qed.

(** A load that succeeds has read every header. *)
Lemma load_programs_read b fw off size n : ∀ num idx t idx' t',
  load_programs n b fw off size num idx t = Some (0, idx', t') →
  ∃ ps, mapM (program b off) (seqZ num (Z.of_nat n)) = Some ps.
Proof.
  induction n as [|n IH]; intros num idx t idx' t' Hl; [by eexists|].
  rewrite seqZ_cons by lia. replace (Z.pred (Z.of_nat (S n))) with (Z.of_nat n) by lia.
  replace (Z.succ num) with (num + 1) by lia. cbn [load_programs mapM] in *.
  destruct (program b off num) as [p|]; [|done]. cbn [mbind option_bind] in *.
  assert (Hr : ∀ idx t, load_programs n b fw off size (num + 1) idx t = Some (0, idx', t') →
    ∃ ps, (mapM (program b off) (seqZ (num + 1) (Z.of_nat n)) ≫= λ k, mret (p :: k)) = Some ps).
  { intros i u Hu. destruct (IH _ _ _ _ _ Hu) as [ps ->]. by eexists. }
  repeat (case_decide; [exact (Hr _ _ Hl) || done|]). done.
Qed.

Lemma program_nonneg b off n p : bytes_mem b → program b off n = Some p → 0 ≤ prg_filesz p.
Proof.
  intros Hb. unfold program, read_program_header.
  destruct (rd32 b (off + 32 * n + 4)), (rd32 b (off + 32 * n + 8)), (rd32 b (off + 32 * n + 16)) as [x|] eqn:Hx;
    try done. intros [= <-]. cbn. apply be32_to_cpu_range. by eapply rd32_range.
Qed.
Lemma programs_nonneg b off l ps : bytes_mem b → mapM (program b off) l = Some ps →
  Forall (λ p, 0 ≤ prg_filesz p) ps.
Proof.
  intros Hb Hps%mapM_Some_1. eapply Forall2_Forall_r; [exact Hps|]. apply Forall_true.
  intros n p Hp. by eapply program_nonneg.
Qed.
End Load.

(** the boot table is the image's list of segments: the nonempty program
    headers, in order and without gaps, each with its bytes' place in the region
    and its length rounded up to words.  The load fails exactly when there are
    more than eight or one is larger than the region; then the segments before it
    are already in the table, and the number of entries is not written. *)
Theorem boot_table `{BootIf} (b : buffer) (fw_phys off n size : Z) (h : boot_header) (ps : list program_header) :
  mapM (program b off) (seqZ 0 n) = Some ps → Forall (λ p, 0 ≤ prg_filesz p) ps →
  0 ≤ n → size + 3 < 4294967296 → GEUL_MAX_SEG_ENTRIES ≤ zlen (sgtbl h) →
  let good := take 8 (fitting size (segments ps)) in
  let h' := set_sgtbl (entries fw_phys 0 good ++ drop (length good) (sgtbl h)) h in
  fw_read_and_load_program b fw_phys off n size h =
  Some (if decide (length good = length (segments ps)) then (0, set_sgentries (be32_to_cpu (zlen good)) h')
        else (- ENOMEM, h')).
Proof.
  apply load_table.
Qed.

(** The image in the memory [b] and the header that describes it to the boot ROM. *)
Definition describes `{BootIf} (fw_phys : Z) (b : buffer) (old h : boot_header) : Prop :=
  ∃ hd ps, read_file_header b 0 = Some hd ∧ be16_to_cpu (fh_machine hd) = POWERPC_MACH_CODE ∧
    mapM (program b (be32_to_cpu (fh_phoff hd))) (seqZ 0 (be16_to_cpu (fh_phnum hd))) = Some ps ∧
    zlen (segments ps) ≤ GEUL_MAX_SEG_ENTRIES ∧
    bl_entry h = fh_entry hd ∧ sgentries h = be32_to_cpu (zlen (segments ps)) ∧
    sgtbl h = entries fw_phys 0 (segments ps) ++ drop (length (segments ps)) (sgtbl old).

Lemma fitting_all size qs : length (fitting size qs) = length qs → fitting size qs = qs.
Proof.
  induction qs as [|q qs IH]; [done|]. cbn [fitting]. case_decide; [done|].
  cbn. intros [= Hl]. by rewrite IH.
Qed.

(** A successful load describes the image; any other leaves the preamble. *)
Lemma load_images `{ScratchIf, BootIf} b fw_phys size h rc h' : bytes_mem b →
  size + 3 < 4294967296 → GEUL_MAX_SEG_ENTRIES ≤ zlen (sgtbl h) →
  gul_load_boot_images b fw_phys size h = Some (rc, h') →
  preamble h' = preamble h ∧ (rc = 0 → describes fw_phys b h h').
Proof.
  intros Hb Hsz Ht. unfold gul_load_boot_images.
  destruct (read_file_header b 0) as [hd|] eqn:Hhd; [|done]. cbn [mbind option_bind].
  case_decide as Hm; [done|]. assert (Hm' : be16_to_cpu (fh_machine hd) = POWERPC_MACH_CODE) by lia.
  match goal with |- context [fw_read_and_load_program _ _ _ _ _ ?x] => set (h0 := x) end.
  set (off := be32_to_cpu (fh_phoff hd)). set (n := be16_to_cpu (fh_phnum hd)).
  assert (Hn : 0 ≤ n).
  { unfold read_file_header in Hhd. destruct (rd16 b (0 + 44)) as [x|] eqn:Hx.
    - apply rd16_range in Hx; [|done].
      repeat match type of Hhd with (?o ≫= _) = _ => destruct o; [|done]; cbn [mbind option_bind] in Hhd end.
      injection Hhd as <-. subst n. cbn. by apply be16_to_cpu_range.
    - repeat match type of Hhd with (?o ≫= _) = _ => destruct o; [|done]; cbn [mbind option_bind] in Hhd end.
      done. }
  destruct (mapM (program b off) (seqZ 0 n)) as [ps|] eqn:Hps.
  - assert (Hnn := programs_nonneg _ _ _ _ Hb Hps).
    rewrite (load_table b fw_phys off n size h0 ps Hps Hnn Hn Hsz Ht). cbn [mbind option_bind].
    set (good := take 8 (fitting size (segments ps))). case_decide as Hg; intros [= <- <-]; split; try done.
    intros _. assert (Hgood : good = segments ps ∧ zlen (segments ps) ≤ 8).
    { assert (Hf := fitting_le size (segments ps)). subst good. rewrite length_take in Hg.
      rewrite (fitting_all size (segments ps)) by lia. rewrite take_ge by lia.
      split; [done|unfold zlen; lia]. }
    destruct Hgood as [-> Hle]. exists hd, ps. done.
  - unfold fw_read_and_load_program. assert (Hr := load_programs_read b fw_phys off size (Z.to_nat n) 0 0 (sgtbl h0)).
    destruct (load_programs _ _ _ _ _ _ _ _) as [[[r idx] t]|] eqn:Hl; [|done]. cbn [mbind option_bind].
    case_decide as Hr0.
    + subst r. destruct (Hr idx t eq_refl) as [ps Hps']. rewrite Z2Nat.id in Hps' by done. congruence.
    + cbn [mbind option_bind]. intros [= <- <-]. split; [done|]. case_decide; done.
Qed.

Lemma rd_blit_front b l b' i x : blit b 0 (init l) = Some b' → l !! i = Some x → rd b' (Z.of_nat i) = Some x.
Proof.
  unfold blit. case_decide as H; [|done]. intros [= <-] Hx. apply lookup_lt_Some in Hx as Hlt.
  cbn [Z.to_nat take app]. rewrite rd_app_l by (rewrite zlen_init; unfold zlen; lia). by apply rd_init.
Qed.

(** C28: the boot ROM is released last: a load that succeeds has put the whole
    file at the front of the firmware region, has described it in the header
    (entry point, all segments, their number) and has then written the preamble;
    a load that fails leaves the preamble and the device's record of its image as
    they were. *)
Theorem boot_release `{ScratchIf, BootIf} (fs : files) (id : Z) (warmup : bool) (firmware_name : string)
  (g g' : gul_boot) (rc : Z) :
  bytes_mem (fw_mem g) → (∀ name data, request_firmware fs name = inr data → Forall is_byte data ∧ zlen data < 2147483648) →
  (∀ name rc, request_firmware fs name = inl rc → rc < 0) →
  0 ≤ GulScratch.size (regions (scr g) GUL_FIRMWARE) < 2147483648 - 3 → 3 ≤ GUL_MAX_IMAGE_SIZE →
  0 < GUL_EP_CORE_MAX → GEUL_MAX_SEG_ENTRIES ≤ zlen (sgtbl (header g)) →
  gul_load_rtos_img fs id warmup firmware_name g = Some (rc, g') →
  if decide (rc = 0) then
    ∃ name data fw_phys, request_firmware fs name = inr data ∧ fw_name g' = name ∧ fw_size g' = zlen data ∧
      (∀ i x, data !! i = Some x → rd (fw_mem g') (Z.of_nat i) = Some x) ∧
      fw_phys = phys_addr (regions (scr g') GUL_FIRMWARE) ∧
      describes fw_phys (fw_mem g') (header g) (header g') ∧ preamble (header g') = PREAMBLE
  else preamble (header g') = preamble (header g) ∧ fw_name g' = fw_name g ∧ fw_size g' = fw_size g.
Proof.
  intros Hb Hfiles Herr Hsz Hmax Hcores Ht. unfold gul_load_rtos_img. rewrite M_bind_eq.
  destruct (scratch_buf_allocator GUL_FIRMWARE GUL_MAX_IMAGE_SIZE (scr g)) as [o s] eqn:Ha.
  destruct o as [r|]; [|done].
  assert (Hr : regions s GUL_FIRMWARE = r ∧ 0 ≤ GulScratch.size r < 2147483648 - 3).
  { unfold scratch_buf_allocator in Ha. repeat case_decide; simplify_eq; [done|].
    cbn. split; [by rewrite decide_True|]. unfold GUL_MAX_IMAGE_SIZE, GUL_EP_LOGGER_SIZE,
      GUL_CORE_LOG_BUF_SIZE in *. unfold u64. rewrite Z.mod_small by lia. lia. }
  destruct Hr as [Hr Hrsz]. rewrite M_bind_eq. cbn [lift].
  assert (Hi : i32 (GulScratch.size r) = GulScratch.size r) by (apply i32_small; lia). rewrite Hi.
  assert (Hu : u32 (GulScratch.size r) = GulScratch.size r) by (unfold u32; rewrite Z.mod_small; lia).
  rewrite Hu, M_bind_eq. unfold lift at 1. destruct (choose_image _ _ _ _) as [[rc0 name]|]; [|done].
  destruct (decide (rc0 ≠ 0)) as [Hne|_].
  { intros [= <- <-]. rewrite decide_False by (intros ->; done). done. }
  rewrite M_bind_eq. cbn [gets fw_mem with_scr]. rewrite M_bind_eq. unfold lift at 1, gul_udev_load_firmware.
  destruct (request_firmware fs name) as [e|data] eqn:Hreq.
  { rewrite M_bind_eq. cbn [modify]. apply Herr in Hreq. rewrite decide_True by done.
    intros [= <- <-]. rewrite decide_False by lia. done. }
  destruct (Hfiles _ _ Hreq) as [Hbytes Hlen]. pose proof (zlen_nonneg data).
  rewrite (i32_small (zlen data)) by lia. case_decide.
  { rewrite M_bind_eq. cbn [modify]. rewrite decide_True by done. intros [= <- <-]. done. }
  unfold memcpy. rewrite <- (zlen_init data) at 1. rewrite sub_all. cbn [mbind option_bind].
  destruct (blit (fw_mem g) 0 (init data)) as [b|] eqn:Hblit; [|done]. cbn [mbind option_bind].
  assert (Hb' := bytes_mem_blit _ _ _ _ Hb Hbytes Hblit).
  rewrite M_bind_eq. cbn [modify]. rewrite decide_False by lia. rewrite M_bind_eq. unfold lift at 1.
  cbn [header with_mem with_scr].
  destruct (gul_load_boot_images b _ _ _) as [[rc1 h]|] eqn:Hload; [|done].
  assert (H3 : GulScratch.size r + 3 < 4294967296) by lia.
  destruct (load_images _ _ _ _ _ _ Hb' H3 Ht Hload) as [Hp Hd].
  rewrite M_bind_eq. cbn [modify]. destruct (decide (rc1 ≠ 0)) as [Hne|Hz].
  { intros [= <- <-]. rewrite decide_False by (intros ->; done). done. }
  rewrite !M_bind_eq. cbn [lift modify]. rewrite !M_bind_eq. cbn [modify]. intros [= <- <-].
  rewrite decide_True by done. exists name, data, (phys_addr r). cbn.
  split_and!; try done; [|by rewrite Hr|by apply Hd; lia]. intros i x. by eapply rd_blit_front.
Qed.

(** ** The handshake *)
Section Wait.
Context {C : Type} `{Handshake C}.

(** The first [n] reads of the registers, and what is left of the modem. *)
Fixpoint reads (n : nat) (c : C) : list (Z * Z) :=
  match n with O => [] | S n => let '(c, r) := hs_read c in r :: reads n c end.

Fixpoint after_reads (n : nat) (c : C) : C :=
  match n with O => c | S n => after_reads n (fst (hs_read c)) end.

Lemma hs_loop_reads n : ∀ c r, snd r = 0 →
  match list_find (λ r, snd r ≠ 0) (reads n c) with
  | Some (i, r') => hs_loop n c r = (after_reads (S i) c, r')
  | None => fst (hs_loop n c r) = after_reads n c ∧ snd (snd (hs_loop n c r)) = 0
  end.
Proof.
  induction n as [|n IH]; intros c r Hr; [done|]. cbn [hs_loop reads after_reads]. rewrite decide_True by done.
  destruct (hs_read c) as [c' r'] eqn:Hc. cbn [list_find fst]. destruct (decide (snd r' ≠ 0)) as [Hz|Hz].
  - destruct n; cbn [hs_loop]; [done|]. by rewrite decide_False by done.
  - specialize (IH c' r' ltac:(lia)). by destruct (list_find _ (reads n c')) as [[i x]|].
Qed.

End Wait.

(** the handshake reads the modem's registers until a reading has a nonzero
    size, and at most 601 times: it succeeds with the first such reading and keeps
    its offset and size, and otherwise fails with EBUSY and keeps what the device
    had. *)
Theorem handshake_waits {C} `{Handshake C} (kept : Z * Z) (c : C) :
  gul_do_reset_handshake kept c =
  match list_find (λ r, snd r ≠ 0) (reads 601 c) with
  | Some (i, r) => (0, r, after_reads (S i) c)
  | None => (- EBUSY, kept, after_reads 601 c)
  end.
Proof.
  unfold gul_do_reset_handshake. change 601%nat with (S GUL_HOST_BOOT_HSHAKE_RETRIES).
  generalize GUL_HOST_BOOT_HSHAKE_RETRIES as n. intros n. cbn [reads after_reads].
  destruct (hs_read c) as [c1 r1]. cbn [list_find fst]. destruct (decide (snd r1 ≠ 0)) as [Hz|Hz].
  - destruct n; cbn [hs_loop]; [|rewrite decide_False by done]; by rewrite decide_False by done.
  - assert (Hl := hs_loop_reads n c1 r1 ltac:(lia)).
    destruct (list_find (λ r, snd r ≠ 0) (reads n c1)) as [[i x]|] eqn:Hf; cbn [fmap option_fmap option_map prod_map].
    + rewrite Hl. apply list_find_Some in Hf as (_ & Hx & _). by rewrite decide_False by done.
    + destruct (hs_loop n c1 r1) as [c2 r2]. cbn [fst snd] in Hl. destruct Hl as [-> Hl].
      by rewrite decide_True by done.
Qed.

(** ** An image of two segments *)
Definition demo_word (x : Z) : list Z := [x / 16777216; x / 65536 mod 256; x / 256 mod 256; x mod 256].
Definition demo_ph (offset vaddr filesz : Z) : list Z :=
  demo_word 1 ++ demo_word offset ++ demo_word vaddr ++ demo_word vaddr ++ demo_word filesz ++
  demo_word filesz ++ demo_word 5 ++ demo_word 4.
(** A header for [machine] with three program headers, the second empty, and
    eleven bytes of program. *)
Definition demo_elf (machine : Z) : list Z :=
  replicate 18 0 ++ [0; machine] ++ demo_word 1 ++ demo_word 0xE0100000 ++ demo_word 52 ++ demo_word 0 ++
  demo_word 0 ++ [0; 52; 0; 32; 0; 3] ++ replicate 6 0 ++
  demo_ph 148 0xE0100000 6 ++ demo_ph 0 0 0 ++ demo_ph 154 0xE01F8000 5 ++ seqZ 1 11.
#[local] Instance demo_boot_if : BootIf := {|
  PREAMBLE := 0xCAFE; GUL_QDMA_FOR_BOOT_ENABLE := false; DMEM_ADDRESS := 0; is_la1238 := false |}.
#[local] Instance demo_scratch_if : ScratchIf := {|
  PAGE_SHIFT := 12; GUL_EP_CORE_MAX := 8; GUL_SCRATCH_DMA_BUF_END_ADDR := 0xE0000000;
  PCI_OUTBOUND_WINDOW_BASE_ADDR := 0xA0000000; GUL_OB_WIN_SCRATCH_BUF := 3 |}.
Definition demo_files : files :=
  Files (λ n, if decide (n = "/lib/firmware/geul.elf"%string) then 0 else -2)
        (λ n, if decide (n = "geul.elf"%string) then inr (demo_elf 20) else inl (-2)).
Definition demo_region : mem_region := Region 0xB0000000 0x1000 256.
Definition demo_header : boot_header := Hdr 0 0 0 0 (replicate 8 (Sg 0 0 0 0)).
Definition demo_dev : gul_boot :=
  GulDev (Scratch (λ _, demo_region) (Scr 0 0 0 0 0 0)) (zeros 256) demo_header "" 0.

Lemma demo_elf_bytes : Forall is_byte (demo_elf 20).
Proof. apply (bool_decide_eq_true_1 (Forall (λ x, 0 ≤ x < 256) _)). vm_compute. reflexivity. Qed.

Lemma boot_table_witness :
  fw_read_and_load_program (init (demo_elf 20)) 0xB0000000 52 3 256 demo_header =
  Some (0, set_sgentries (be32_to_cpu 2) (set_sgtbl
    ([Sg (be32_to_cpu 8) 0 (be32_to_cpu 0xB0000094) (be32_to_cpu 0xE0100000);
      Sg (be32_to_cpu 8) 0 (be32_to_cpu 0xB000009A) (be32_to_cpu 0xE01F8000)] ++
     replicate 6 (Sg 0 0 0 0)) demo_header)).
Proof.
  rewrite (boot_table (init (demo_elf 20)) 0xB0000000 52 3 256 demo_header
    [ProgramHeader 148 0xE0100000 6; ProgramHeader 0 0 0; ProgramHeader 154 0xE01F8000 5]).
  - vm_compute. reflexivity.
  - vm_compute. reflexivity.
  - repeat constructor; discriminate.
  - discriminate.
  - reflexivity.
  - discriminate.
Defined.

Lemma boot_release_witness :
  ∃ g', gul_load_rtos_img demo_files 3 false "geul.elf" demo_dev = Some (0, g') ∧
  ∃ name data fw_phys, request_firmware demo_files name = inr data ∧ fw_name g' = name ∧ fw_size g' = zlen data ∧
    (∀ i x, data !! i = Some x → rd (fw_mem g') (Z.of_nat i) = Some x) ∧
    fw_phys = phys_addr (regions (scr g') GUL_FIRMWARE) ∧
    describes fw_phys (fw_mem g') demo_header (header g') ∧ preamble (header g') = PREAMBLE.
Proof.
  eexists. split; [vm_compute; reflexivity|].
  refine (boot_release demo_files 3 false "geul.elf" demo_dev _ 0 _ _ _ _ _ _ _ _).
  - apply bytes_mem_forall. apply Forall_replicate. by intros x [= <-].
  - intros name data Hd. unfold demo_files in Hd; cbn [request_firmware] in Hd. case_decide; [|done].
    injection Hd as <-. split; [exact demo_elf_bytes|vm_compute; reflexivity].
  - intros name e Hd. unfold demo_files in Hd; cbn [request_firmware] in Hd. case_decide; [done|].
    injection Hd as <-. reflexivity.
  - split; [discriminate|reflexivity].
  - discriminate.
  - reflexivity.
  - discriminate.
  - vm_compute. reflexivity.
Defined.
