(* ===== verification/GulBootTest.v ===== *)
(** * The loader of the boot ROM's test build (kernel_driver/yami/gul_boot.c)

    In the build that tests the boot ROM the segments of the image are stored as in
    GulBoot.v, then three more entries that copy earlier ones, and a table of words the
    ROM is to write.  The table of entries is the list of the header, whose length is
    the header's own. *)
From S2P Require Import Prelude GulMsi GulImage GulScratch GulBoot.
#[global] Open Scope Z_scope.

(** [struct cfword], and the table: eight words, sixteen values each. *)
Definition cfw_at (i v : Z) : Z * Z := (0xf9e00200 + 4 * i, v).
Definition cfw : list (Z * Z) :=
  flat_map (λ v, (λ i, cfw_at i v) <$> seqZ 0 8) (seqZ 1 15) ++
  imap (λ i v, cfw_at (Z.of_nat i) v)
    [0x11111111; 0x22222222; 0x33333333; 0x44444444; 0xaaaaaaaa; 0xbbbbbbbb; 0xcccccccc; 0xdddddddd].

(** The boot header of this build. *)
Record test_header := TestHdr { t_hdr : boot_header; cfword_count : Z; cfwrd : list (Z * Z) }.

Section BootTest.
Context `{ScratchIf, BootIf}.

(** As the loader's loop, but the first program by its number goes to the data memory. *)
Fixpoint test_programs (n : nat) (b : buffer) (fw_phys pg_hd_off size prog_num prog_idx : Z)
  (t : list sg_entry) : option (Z * Z * list sg_entry) :=
  match n with
  | O => Some (0, prog_idx, t)
  | S n =>
      p ← program b pg_hd_off prog_num;
      if decide (prg_filesz p = 0)
      then test_programs n b fw_phys pg_hd_off size (prog_num + 1) prog_idx t else
      let vma := if GUL_QDMA_FOR_BOOT_ENABLE && bool_decide (prog_num = 0) then DMEM_ADDRESS else prg_vaddr p in
      if decide (size < prg_filesz p) then Some (- ENOMEM, prog_idx, t) else
      if decide (GEUL_MAX_SEG_ENTRIES - 1 < prog_idx) then Some (- ENOMEM, prog_idx, t) else
      t ← (if decide (prog_idx < zlen t) then Some (<[Z.to_nat prog_idx := sg_of fw_phys vma p]> t) else None);
      test_programs n b fw_phys pg_hd_off size (prog_num + 1) (prog_idx + 1) t
  end.

(** Entry [idx]: the source of entry [from], for another place.  The bound is not looked
    at. *)
Definition copy_entry (idx : Z) (from : nat) (dest_ : Z) (t : list sg_entry) : option (list sg_entry) :=
  e ← t !! from;
  if decide (idx < zlen t)
  then Some (<[Z.to_nat idx := Sg (be32_to_cpu 0x1000) (be32_to_cpu GEUL_RSVD) (src e) (be32_to_cpu dest_)]> t) else None.

Definition bootrom_test_read_and_load_program (b : buffer) (fw_phys pg_hd_off ph_num size : Z) (h : test_header)
  : option (Z * test_header) :=
  '(r, idx, t) ← test_programs (Z.to_nat ph_num) b fw_phys pg_hd_off size 0 0 (sgtbl (t_hdr h));
  if decide (r ≠ 0) then Some (r, TestHdr (set_sgtbl t (t_hdr h)) (cfword_count h) (cfwrd h)) else
  t ← copy_entry idx 2 0xe0602000 t;
  t ← copy_entry (idx + 1) 3 0xe0601000 t;
  t ← copy_entry (idx + 2) 0 0xe0301000 t;
  let hd := set_sgentries (be32_to_cpu (idx + 3)) (set_sgtbl t (t_hdr h)) in
  Some (0, TestHdr hd (be32_to_cpu 0x80) ((λ w, (be32_to_cpu w.1, be32_to_cpu w.2)) <$> cfw)).

(** ** Theorems *)

Lemma cfw_words : length cfw = 128%nat ∧ Forall (λ w, 0xf9e00200 ≤ w.1 < 0xf9e00220 ∧ 0 ≤ w.2 < 2 ^ 32) cfw.
Proof. split; [reflexivity|]. apply Forall_forall. intros w Hw. unfold cfw in Hw. vm_compute in Hw.
  repeat (apply elem_of_cons in Hw as [-> |Hw]; [cbn; lia|]). by apply not_elem_of_nil in Hw.
Qed.

(** The programs that are stored. *)
Definition stored (ps : list program_header) : list program_header := filter (λ p, prg_filesz p ≠ 0) ps.

Lemma test_programs_count b fw off size n : ∀ num idx t idx' t' ps,
  mapM (program b off) (seqZ num (Z.of_nat n)) = Some ps → 0 ≤ idx →
  test_programs n b fw off size num idx t = Some (0, idx', t') → idx' = idx + zlen (stored ps) ∧ zlen t' = zlen t.
Proof.
  induction n as [|n IH]; intros num idx t idx' t' ps Hps Hi Hr.
  { rewrite seqZ_nil in Hps by done. injection Hps as <-. injection Hr as <- <-. unfold stored. rewrite filter_nil. split; [unfold zlen; cbn; lia|done]. }
  rewrite seqZ_cons in Hps by lia. cbn [mapM] in Hps. cbn [test_programs] in Hr.
  destruct (program b off num) as [p|] eqn:Hp; [|done]. cbn [mbind option_bind] in Hps, Hr.
  replace (Z.pred (Z.of_nat (S n))) with (Z.of_nat n) in Hps by lia. replace (Z.succ num) with (num + 1) in Hps by lia.
  destruct (mapM _ _) as [qs|] eqn:Hqs; [|done]. injection Hps as <-. unfold stored.
  destruct (decide (prg_filesz p = 0)) as [Hz|Hz].
  { rewrite filter_cons_False by tauto. by eapply IH. }
  rewrite filter_cons_True by done. destruct (decide (size < prg_filesz p)); [done|].
  destruct (decide (GEUL_MAX_SEG_ENTRIES - 1 < idx)); [done|]. destruct (decide (idx < zlen t)); [|done].
  cbn [mbind option_bind] in Hr. assert (Hi1 : 0 ≤ idx + 1) by lia. destruct (IH _ _ _ _ _ _ Hqs Hi1 Hr) as [-> Ht].
  rewrite zlen_cons. split; [unfold stored; lia|]. rewrite Ht. unfold zlen. by rewrite length_insert.
Qed.

(** With the table of eight entries of the loader, a test image of six segments or
    more makes the copies run over the end of the table. *)
Theorem test_load_overruns (b : buffer) (fw_phys off n size : Z) (h : test_header) (ps : list program_header) :
  mapM (program b off) (seqZ 0 n) = Some ps → 0 ≤ n → zlen (sgtbl (t_hdr h)) = GEUL_MAX_SEG_ENTRIES → 6 ≤ zlen (stored ps) →
  match bootrom_test_read_and_load_program b fw_phys off n size h with Some (r, _) => r ≠ 0 | None => True end.
Proof.
  intros Hps Hn Ht H6. unfold bootrom_test_read_and_load_program.
  destruct (test_programs _ _ _ _ _ _ _ _) as [[[r idx] t]|] eqn:E; [|done]. cbn [mbind option_bind].
  destruct (decide (r ≠ 0)) as [|Hr]; [done|]. assert (r = 0) as -> by lia.
  destruct (test_programs_count b fw_phys off size (Z.to_nat n) 0 0 (sgtbl (t_hdr h)) idx t ps) as [Hi Hl]; [by rewrite Z2Nat.id|lia|done|].
  unfold GEUL_MAX_SEG_ENTRIES in Ht.
  assert (Hlast : ∀ k t1 from d, zlen t1 = zlen t → 8 ≤ idx + k → copy_entry (idx + k) from d t1 = None).
  { intros k t1 from d Hz Hk. unfold copy_entry. destruct (t1 !! from) as [e|]; [|done]. cbn [mbind option_bind]. by rewrite decide_False by lia. }
  assert (Hkeep : ∀ k t1 t2 from d, copy_entry k from d t1 = Some t2 → zlen t2 = zlen t1).
  { intros k t1 t2 from d Hc. unfold copy_entry in Hc. destruct (t1 !! from) as [e|]; [|done]. cbn [mbind option_bind] in Hc.
    case_decide; [|done]. injection Hc as <-. unfold zlen. by rewrite length_insert. }
  destruct (copy_entry idx 2 _ t) as [t1|] eqn:E1; [|done]. cbn [mbind option_bind]. apply Hkeep in E1.
  destruct (copy_entry (idx + 1) 3 _ t1) as [t2|] eqn:E2; [|done]. cbn [mbind option_bind]. apply Hkeep in E2.
  by rewrite (Hlast 2) by lia.
Qed.

(** With five segments at most, and at least one entry to copy in each place, the table
    holds three entries more, and the header all words. *)
Theorem test_load_stores (b : buffer) (fw_phys off n size : Z) (h : test_header) (ps : list program_header) r h' :
  mapM (program b off) (seqZ 0 n) = Some ps → 0 ≤ n → bootrom_test_read_and_load_program b fw_phys off n size h = Some (r, h') → r = 0 →
  sgentries (t_hdr h') = be32_to_cpu (zlen (stored ps) + 3) ∧ length (cfwrd h') = 128%nat ∧ zlen (sgtbl (t_hdr h')) = zlen (sgtbl (t_hdr h)) ∧
  zlen (stored ps) + 3 ≤ zlen (sgtbl (t_hdr h)).
Proof.
  intros Hps Hn Hr ->. unfold bootrom_test_read_and_load_program in Hr.
  destruct (test_programs _ _ _ _ _ _ _ _) as [[[r idx] t]|] eqn:E; [|done]. cbn [mbind option_bind] in Hr.
  destruct (decide (r ≠ 0)) as [Hr0|Hr0]; [by injection Hr as -> _|]. assert (r = 0) as -> by lia.
  destruct (test_programs_count b fw_phys off size (Z.to_nat n) 0 0 (sgtbl (t_hdr h)) idx t ps) as [Hi Hl]; [by rewrite Z2Nat.id|lia|done|].
  assert (Hkeep : ∀ k t1 t2 from d, copy_entry k from d t1 = Some t2 → zlen t2 = zlen t1 ∧ k < zlen t1).
  { intros k t1 t2 from d Hc. unfold copy_entry in Hc. destruct (t1 !! from) as [e|]; [|done]. cbn [mbind option_bind] in Hc.
    case_decide; [|done]. injection Hc as <-. unfold zlen in *. by rewrite length_insert. }
  destruct (copy_entry idx 2 _ t) as [t1|] eqn:E1; [|done]. cbn [mbind option_bind] in Hr. apply Hkeep in E1 as [L1 _].
  destruct (copy_entry (idx + 1) 3 _ t1) as [t2|] eqn:E2; [|done]. cbn [mbind option_bind] in Hr. apply Hkeep in E2 as [L2 _].
  destruct (copy_entry (idx + 2) 0 _ t2) as [t3|] eqn:E3; [|done]. cbn [mbind option_bind] in Hr. apply Hkeep in E3 as [L3 B3].
  apply (inj Some) in Hr. apply (f_equal snd) in Hr. cbn [snd] in Hr. subst h'.
  cbn [t_hdr cfwrd sgtbl sgentries set_sgentries set_sgtbl].
  split; [by rewrite Hi|]. split; [by rewrite length_fmap, (proj1 cfw_words)|]. split; [congruence|]. lia.
Qed.
End BootTest.
