(* ===== verification/GulTti.v ===== *)
(** * TTI devices (kernel_driver/yami/gul_tti.c, gul_base.c)

    Each modem has a few devices that pass its timing interrupt to user space:
    through a wait queue and, when one was given, an eventfd.  The device
    structures are allocated at probe and live in [heap]; a slot of the modem's
    array points to one.  [None] is undefined behaviour: the use of a structure
    that was freed, of a field never written, of a missing file. *)
From S2P Require Import Prelude GulMsi.
From stdpp Require Import gmap.
#[global] Open Scope Z_scope.

Definition ENODEV : Z := 19.

(** What [eventfd_ctx_fileget] makes of a descriptor: there is no file, the file
    is not an eventfd (an error pointer), or its context. *)
Inductive efd := NoFile | ErrPtr | Ctx (c : Z).

(** [evt_fd_ctxt]: unset after [kmalloc]; then NULL or a pointer. *)
Record tti_priv := Tti {
  irq : Z; msi_index : option Z; tti_id : option Z; tti_irq_status : Z; evt_fd_ctxt : option (option efd) }.

Definition set_status (v : Z) (p : tti_priv) : tti_priv :=
  Tti (irq p) (msi_index p) (tti_id p) v (evt_fd_ctxt p).
Definition set_id (v : Z) (p : tti_priv) : tti_priv :=
  Tti (irq p) (msi_index p) (Some v) (tti_irq_status p) (evt_fd_ctxt p).
Definition set_ctxt (c : option efd) (p : tti_priv) : tti_priv :=
  Tti (irq p) (msi_index p) (tti_id p) (tti_irq_status p) (Some c).

(** The slots of one modem, the structures, the interrupts the kernel has for
    them (number and structure), the interrupt lines of the device, and the
    eventfds: references held and signals sent, in order. *)
Record tti_world := World {
  slots : list (option nat); heap : gmap nat tti_priv; next : nat;
  requested : list (Z * nat); msi : list irq_info; held : list Z; signals : list Z }.

Definition with_slots (l : list (option nat)) (w : tti_world) : tti_world :=
  World l (heap w) (next w) (requested w) (msi w) (held w) (signals w).
Definition with_heap (h : gmap nat tti_priv) (w : tti_world) : tti_world :=
  World (slots w) h (next w) (requested w) (msi w) (held w) (signals w).
Definition with_next (n : nat) (w : tti_world) : tti_world :=
  World (slots w) (heap w) n (requested w) (msi w) (held w) (signals w).
Definition with_requested (l : list (Z * nat)) (w : tti_world) : tti_world :=
  World (slots w) (heap w) (next w) l (msi w) (held w) (signals w).
Definition with_msi (t : list irq_info) (w : tti_world) : tti_world :=
  World (slots w) (heap w) (next w) (requested w) t (held w) (signals w).
Definition with_held (l : list Z) (w : tti_world) : tti_world :=
  World (slots w) (heap w) (next w) (requested w) (msi w) l (signals w).
Definition with_signals (l : list Z) (w : tti_world) : tti_world :=
  World (slots w) (heap w) (next w) (requested w) (msi w) (held w) l.

(** What the kernel does during one call. *)
Record tti_kernel := Kernel {
  has_node : bool; kmalloc : nat → bool; of_irq_get : nat → Z; device_create : nat → bool;
  core : Z; request_irq : Z; fget : Z → efd; copied : bool }.

Local Abbreviation T := (M tti_world).

Definition undefined {A} : T A := λ _, None.
Definition deref (p : nat) : T tti_priv := λ w, match heap w !! p with Some x => Some (x, w) | None => None end.
Definition update (p : nat) (f : tti_priv → tti_priv) : T unit :=
  x ← deref p; modify (λ w, with_heap (<[p := f x]> (heap w)) w).
Definition kfree (p : nat) : T unit := _ ← deref p; modify (λ w, with_heap (delete p (heap w)) w).
(** [free_irq] of an interrupt that was not requested does nothing. *)
Definition free_irq (n : Z) (p : nat) : T unit :=
  modify (λ w, with_requested (filter (λ r, r ≠ (n, p)) (requested w)) w).


(** One reference less. *)
Fixpoint drop_ref (c : Z) (l : list Z) : list Z :=
  match l with [] => [] | x :: l => if decide (x = c) then l else x :: drop_ref c l end.

Section Tti.
Variables (k : tti_kernel) (disable_sideband : bool).

(** ** Probe *)

(** The interrupt of device [i]; a line that is not there is an access outside
    the table. *)
Definition tti_irq (i : nat) : T (Z * option Z) :=
  if disable_sideband then
    λ w, let '(index, t) := gul_dev_get_msi (core k) (msi w) in
         if decide (0 ≤ index) then
           match t !! Z.to_nat index with
           | Some e => Some ((irq_val e, Some index), with_msi t w)
           | None => None
           end
         else None
  else mret (of_irq_get k i, None).

(** The loop from device [i], [n] left: how many were set up, or -ENOMEM. *)
Fixpoint start_loop (n i : nat) : T (Z + nat) :=
  match n with
  | O => mret (inr i)
  | S n =>
      if negb (kmalloc k i) then mret (inl (- ENOMEM)) else
      '(irq_no, index) ← tti_irq i;
      if decide (irq_no < 0) then mret (inr i) else
      p ← gets next;
      _ ← modify (with_next (S p));
      _ ← modify (λ w, with_heap (<[p := Tti irq_no index None 0 None]> (heap w)) w);
      _ ← modify (λ w, with_slots (<[i := Some p]> (slots w)) w);
      if negb (device_create k i) then _ ← kfree p; mret (inr i)
      else start_loop n (S i)
  end.

Definition tti_dev_start (tti_per_dev : nat) : T Z :=
  if negb disable_sideband && negb (has_node k) then mret (- ENODEV) else
  r ← start_loop tti_per_dev 0;
  mret match r with inl rc => rc | inr O => - ENODEV | inr _ => 0 end.

(** ** Removal *)
Fixpoint stop_loop (n i : nat) : T unit :=
  match n with
  | O => mret tt
  | S n =>
      s ← gets (λ w, mjoin (slots w !! i));
      _ ← match s with
          | None => mret tt
          | Some p =>
              x ← deref p;
              _ ← (if decide (tti_irq_status x ≠ 0) then _ ← free_irq (irq x) p; update p (set_status 0) else mret tt);
              _ ← kfree p;
              modify (λ w, with_slots (<[i := None]> (slots w)) w)
          end;
      stop_loop n (S i)
  end.
Definition tti_dev_stop (tti_per_dev : nat) : T unit := stop_loop tti_per_dev 0.

(** ** Requests of user space: the device's structure, the id and the descriptor *)
Definition tti_register_irq (p : nat) (ttid eventfd : Z) : T Z :=
  _ ← update p (set_id ttid);
  _ ← update p (set_ctxt None);
  x ← deref p;
  if decide (irq x = 0) then mret (- EINVAL) else
  let fresh := bool_decide (tti_irq_status x = 0) in
  if decide (fresh = true ∧ request_irq k < 0) then mret (request_irq k) else
  _ ← (if fresh then
         _ ← modify (λ w, with_requested ((irq x, p) :: requested w) w); update p (set_status 1)
       else mret tt);
  let rc := if fresh then request_irq k else 0 in
  if decide (0 < eventfd) then
    match fget k eventfd with
    | NoFile => undefined
    | ErrPtr => _ ← update p (set_ctxt (Some ErrPtr)); mret rc
    | Ctx c => _ ← modify (λ w, with_held (c :: held w) w);
               _ ← update p (set_ctxt (Some (Ctx c))); mret rc
    end
  else mret rc.

Definition tti_deregister_irq (p : nat) : T unit :=
  x ← deref p;
  _ ← free_irq (irq x) p;
  _ ← update p (set_status 0);
  c ← lift (evt_fd_ctxt x);
  match c with
  | None => mret tt
  | Some (Ctx c) => _ ← modify (λ w, with_held (drop_ref c (held w)) w); update p (set_ctxt None)
  | Some _ => undefined
  end.

(** An interrupt of the device [p]. *)
Definition tti_irq_handler (p : nat) : T unit :=
  x ← deref p;
  c ← lift (evt_fd_ctxt x);
  match c with
  | None => mret tt
  | Some (Ctx c) => modify (λ w, with_signals (signals w ++ [c]) w)
  | Some _ => undefined
  end.

Inductive tti_cmd := IOCTL_GUL_MODEM_TTI_REGISTER (ttid eventfd : Z) | IOCTL_GUL_MODEM_TTI_DEREGISTER | TTI_OTHER.

Definition gul_tti_dev_ioctl (p : nat) (cmd : tti_cmd) : T Z :=
  match cmd with
  | IOCTL_GUL_MODEM_TTI_REGISTER ttid eventfd =>
      if negb (copied k) then mret (- EFAULT) else tti_register_irq p ttid eventfd
  | IOCTL_GUL_MODEM_TTI_DEREGISTER =>
      if negb (copied k) then mret (- EFAULT) else _ ← tti_deregister_irq p; mret 0
  | TTI_OTHER => mret (- ENOTTY)
  end.

End Tti.

(** ** What the structures and the kernel agree on *)

(** A structure of the heap: its status says whether its interrupt is requested,
    and a requested one has a context that was written and can be signalled. *)
Definition good_priv (req : list (Z * nat)) (p : nat) (x : tti_priv) : Prop :=
  match evt_fd_ctxt x with Some (Some NoFile) | Some (Some ErrPtr) => False | _ => True end ∧
  ((tti_irq_status x = 0 ∧ (irq x, p) ∉ req) ∨
   (tti_irq_status x = 1 ∧ (irq x, p) ∈ req ∧ is_Some (evt_fd_ctxt x))).

Record tti_inv (w : tti_world) : Prop := {
  inv_slots : ∀ i p, slots w !! i = Some (Some p) → is_Some (heap w !! p);
  inv_distinct : ∀ i j p, slots w !! i = Some (Some p) → slots w !! j = Some (Some p) → i = j;
  inv_heap : ∀ p x, heap w !! p = Some x → (p < next w)%nat ∧ (∃ i, slots w !! i = Some (Some p)) ∧
    good_priv (requested w) p x;
  inv_requested : ∀ n p, (n, p) ∈ requested w → ∃ x, heap w !! p = Some x ∧ irq x = n }.

(** One use of the devices; [None] is a crash.  The kernel gives descriptors their
    meaning; a device is deregistered only after it was registered. *)
Definition lawful (k : tti_kernel) (x : tti_priv) (cmd : tti_cmd) : Prop :=
  match cmd with
  | IOCTL_GUL_MODEM_TTI_REGISTER _ fd => 0 < fd → ∃ c, fget k fd = Ctx c
  | IOCTL_GUL_MODEM_TTI_DEREGISTER => is_Some (evt_fd_ctxt x)
  | TTI_OTHER => True
  end ∧ request_irq k ≤ 0.
Inductive tti_step (w : tti_world) : option tti_world → Prop :=
  | step_ioctl k i p x cmd : slots w !! i = Some (Some p) → heap w !! p = Some x → lawful k x cmd →
      tti_step w (snd <$> gul_tti_dev_ioctl k p cmd w)
  | step_irq n p : (n, p) ∈ requested w → tti_step w (snd <$> tti_irq_handler p w).

Lemma deref_run w p x : heap w !! p = Some x → deref p w = Some (x, w).
Proof. intros Hx. unfold deref. by rewrite Hx. Qed.
Lemma update_run w p x f : heap w !! p = Some x →
  update p f w = Some (tt, with_heap (<[p := f x]> (heap w)) w).
Proof. intros Hx. unfold update. by rewrite M_bind_eq, (deref_run w p x Hx). Qed.

(** Changing one structure, and requests for it only. *)
Lemma inv_change w p x y req : tti_inv w → heap w !! p = Some x → good_priv req p y →
  irq y = irq x →
  (∀ n q, q ≠ p → (n, q) ∈ req ↔ (n, q) ∈ requested w) → (∀ n, (n, p) ∈ req → n = irq x) →
  tti_inv (with_requested req (with_heap (<[p := y]> (heap w)) w)).
Proof.
  intros [Hs Hd Hh Hr] Hx Hy Hirq Hreq Hp. split; cbn [slots heap next requested with_requested with_heap].
  - intros i q Hi. destruct (decide (q = p)) as [->|Hne]; [by rewrite lookup_insert_eq|].
    rewrite lookup_insert_ne by done. by eapply Hs.
  - exact Hd.
  - intros q z. destruct (decide (q = p)) as [->|Hne].
    + rewrite lookup_insert_eq. intros [= <-]. destruct (Hh p x Hx) as (Hlt & Hslot & _). done.
    + rewrite lookup_insert_ne by done. intros Hz. destruct (Hh q z Hz) as (Hlt & Hslot & Hc & Hg).
      split; [done|]. split; [done|]. split; [done|]. by rewrite !Hreq.
  - intros n q Hq. destruct (decide (q = p)) as [->|Hne].
    + exists y. rewrite lookup_insert_eq. split; [done|]. rewrite Hirq. by apply eq_sym, Hp.
    + apply Hreq in Hq; [|done]. destruct (Hr n q Hq) as (z & Hz & Hn). exists z. by rewrite lookup_insert_ne.
Qed.
Lemma inv_ext w w' : slots w' = slots w → heap w' = heap w → next w' = next w → requested w' = requested w →
  tti_inv w → tti_inv w'.
Proof. intros H1 H2 H3 H4 [Hs Hd Hh Hr]. split; rewrite ?H1, ?H2, ?H3, ?H4; done. Qed.

Lemma inv_req w p x : tti_inv w → heap w !! p = Some x → ∀ n, (n, p) ∈ requested w → n = irq x.
Proof. intros Hinv Hx n Hn. destruct (inv_requested w Hinv n p Hn) as (z & Hz & <-). congruence. Qed.

Lemma register_safe k w p x ttid fd : tti_inv w → heap w !! p = Some x →
  lawful k x (IOCTL_GUL_MODEM_TTI_REGISTER ttid fd) →
  ∃ rc w', tti_register_irq k p ttid fd w = Some (rc, w') ∧ tti_inv w'.
Proof.
  intros Hinv Hx [Hfd Hrq]. destruct (inv_heap w Hinv p x Hx) as (_ & _ & Hc & Hst).
  unfold tti_register_irq. rewrite M_bind_eq, (update_run w p x) by done.
  set (x1 := set_id ttid x). set (w1 := with_heap _ w).
  assert (Hx1 : heap w1 !! p = Some x1) by (cbn; by rewrite lookup_insert_eq).
  rewrite M_bind_eq, (update_run w1 p x1) by done. set (x2 := set_ctxt None x1). set (w2 := with_heap _ w1).
  assert (Hx2 : heap w2 !! p = Some x2) by (cbn; by rewrite lookup_insert_eq).
  assert (Hw2 : heap w2 = <[p := x2]> (heap w)) by (cbn; by rewrite insert_insert_eq).
  assert (Hchg : ∀ req y, good_priv req p y → irq y = irq x →
    (∀ n q, q ≠ p → (n, q) ∈ req ↔ (n, q) ∈ requested w) → (∀ n, (n, p) ∈ req → n = irq x) →
    ∀ w', slots w' = slots w → heap w' = <[p := y]> (heap w) → next w' = next w → requested w' = req → tti_inv w').
  { intros req y Hg Hi Ho Hp w' E1 E2 E3 E4.
    apply (inv_ext (with_requested req (with_heap (<[p := y]> (heap w)) w))); [done..|]. by apply (inv_change w p x). }
  assert (Hreq := inv_req w p x Hinv Hx).
  assert (Hkeep : tti_inv w2).
  { apply (Hchg (requested w) x2); try done. split; [done|]. cbn. naive_solver. }
  rewrite M_bind_eq, (deref_run w2 p x2) by done. change (irq x2) with (irq x).
  case_decide; [by eexists _, w2|]. change (tti_irq_status x2) with (tti_irq_status x).
  case_decide as Hfail; [by eexists _, w2|].
  set (req := if bool_decide (tti_irq_status x = 0) then (irq x, p) :: requested w else requested w).
  set (x3 := if bool_decide (tti_irq_status x = 0) then set_status 1 x2 else x2).
  assert (Hmid : ∃ w3, (if bool_decide (tti_irq_status x = 0) then
      _ ← modify (λ w, with_requested ((irq x, p) :: requested w) w); update p (set_status 1)
    else mret tt) w2 = Some (tt, w3) ∧ slots w3 = slots w ∧ heap w3 = <[p := x3]> (heap w) ∧
    next w3 = next w ∧ requested w3 = req).
  { unfold req, x3. case_bool_decide.
    - rewrite M_bind_eq. cbn [modify]. rewrite (update_run _ p x2) by done. eexists. split; [reflexivity|].
      split; [done|]. split; [|done]. cbn. by rewrite !insert_insert_eq.
    - exists w2. done. }
  destruct Hmid as (w3 & H3 & E1 & E2 & E3 & E4). rewrite M_bind_eq, H3.
  assert (Hx3 : heap w3 !! p = Some x3) by (rewrite E2; by rewrite lookup_insert_eq).
  assert (Hg3 : ∀ c, match c with Some NoFile | Some ErrPtr => False | _ => True end →
    good_priv req p (set_ctxt c x3) ∧ irq x3 = irq x).
  { intros c Hcc. unfold good_priv, req, x3. case_bool_decide as Hz; (split; [split|done]); cbn.
    1, 3: by destruct c as [[]|].
    - right. split; [done|]. split; [left|by eexists].
    - destruct Hst as [[? _]|(? & ? & _)]; [done|]. right. split; [done|]. split; [done|]. by eexists. }
  assert (Hx3c : x3 = set_ctxt None x3) by (unfold x3; by case_bool_decide).
  assert (Hother : (∀ n q, q ≠ p → (n, q) ∈ req ↔ (n, q) ∈ requested w) ∧ (∀ n, (n, p) ∈ req → n = irq x)).
  { unfold req. case_bool_decide; split; try done; intros n; [intros q|]; rewrite elem_of_cons; naive_solver. }
  destruct Hother as [Ho Hp].
  destruct (decide (0 < fd)) as [Hpos|Hpos].
  - destruct (Hfd Hpos) as [c ->]. rewrite M_bind_eq. cbn [modify].
    rewrite M_bind_eq, (update_run _ p x3) by done. eexists _, _. split; [reflexivity|].
    destruct (Hg3 (Some (Ctx c)) I) as [Hg Hi]. eapply (Hchg req _ Hg); try done.
    cbn. by rewrite E2, insert_insert_eq.
  - eexists _, w3. split; [reflexivity|]. destruct (Hg3 None I) as [Hg Hi]. rewrite <- Hx3c in Hg.
    by eapply (Hchg req x3 Hg).
Qed.

Lemma deregister_safe w p x : tti_inv w → heap w !! p = Some x → is_Some (evt_fd_ctxt x) →
  ∃ w', tti_deregister_irq p w = Some (tt, w') ∧ tti_inv w'.
Proof.
  intros Hinv Hx [c Hcx]. destruct (inv_heap w Hinv p x Hx) as (_ & _ & Hc & Hst). rewrite Hcx in Hc.
  unfold tti_deregister_irq. rewrite M_bind_eq, (deref_run w p x Hx), M_bind_eq. cbn [free_irq modify].
  set (req := filter (λ r, r ≠ (irq x, p)) (requested w)). set (w1 := with_requested req w).
  rewrite M_bind_eq, (update_run w1 p x) by done. set (x1 := set_status 0 x). set (w2 := with_heap _ w1).
  assert (Hreq := inv_req w p x Hinv Hx).
  assert (Hchg : ∀ y, tti_irq_status y = 0 → irq y = irq x →
    match evt_fd_ctxt y with Some (Some NoFile) | Some (Some ErrPtr) => False | _ => True end →
    ∀ w', slots w' = slots w → heap w' = <[p := y]> (heap w) → next w' = next w → requested w' = req → tti_inv w').
  { intros y Hs Hi Hcy w' E1 E2 E3 E4.
    apply (inv_ext (with_requested req (with_heap (<[p := y]> (heap w)) w))); [done..|].
    apply (inv_change w p x); try done.
    - split; [done|]. left. split; [done|]. unfold req. rewrite list_elem_of_filter, Hi. naive_solver.
    - intros n q Hq. unfold req. rewrite list_elem_of_filter. naive_solver.
    - intros n. unfold req. rewrite list_elem_of_filter. naive_solver. }
  rewrite M_bind_eq, Hcx. cbn [lift]. destruct c as [[| |c]|]; try done.
  - rewrite M_bind_eq. cbn [modify]. rewrite (update_run _ p x1) by (cbn; by rewrite lookup_insert_eq).
    eexists. split; [reflexivity|]. eapply (Hchg (set_ctxt None x1)); try done. cbn. by rewrite !insert_insert_eq.
  - exists w2. split; [done|]. eapply (Hchg x1); try done. cbn. by rewrite Hcx.
Qed.

Lemma handler_safe w n p : tti_inv w → (n, p) ∈ requested w →
  ∃ w', tti_irq_handler p w = Some (tt, w') ∧ tti_inv w'.
Proof.
  intros Hinv Hn. destruct (inv_requested w Hinv n p Hn) as (x & Hx & <-).
  destruct (inv_heap w Hinv p x Hx) as (_ & _ & Hc & [[_ Hni]|(_ & _ & [c Hcx])]); [done|].
  unfold tti_irq_handler. rewrite M_bind_eq, (deref_run w p x Hx), M_bind_eq, Hcx. cbn [lift].
  rewrite Hcx in Hc. destruct c as [[| |c]|]; try done; eexists; (split; [reflexivity|]); [|done].
  by apply (inv_ext w).
Qed.

Lemma step_safe w r : tti_inv w → tti_step w r → ∃ w', r = Some w' ∧ tti_inv w'.
Proof.
  intros Hinv [k i p x cmd Hi Hx Hl|n p Hn].
  - destruct cmd as [ttid fd| |]; cbn [gul_tti_dev_ioctl].
    + destruct (copied k); cbn [negb]; [|by exists w].
      destruct (register_safe k w p x ttid fd Hinv Hx Hl) as (rc & w' & -> & Hw'). by exists w'.
    + destruct (copied k); cbn [negb]; [|by exists w].
      destruct Hl as [Hl _]. destruct (deregister_safe w p x Hinv Hx Hl) as (w' & Hd & Hw').
      exists w'. by rewrite M_bind_eq, Hd.
    + by exists w.
  - destruct (handler_safe w n p Hinv Hn) as (w' & -> & Hw'). by exists w'.
Qed.

(** ** Probe and removal *)

Lemma inv_new w i e : tti_inv w → slots w !! i = Some None →
  tti_inv (with_slots (<[i := Some (next w)]> (slots w))
    (with_heap (<[next w := Tti e.1 e.2 None 0 None]> (heap w)) (with_next (S (next w)) w))).
Proof.
  intros [Hs Hd Hh Hr] Hi. assert (Hlt := lookup_lt_Some _ _ _ Hi).
  assert (Hfresh : heap w !! next w = None).
  { destruct (heap w !! next w) as [x|] eqn:Hx; [|done]. apply Hh in Hx as [Hlt' _]. lia. }
  assert (Hold : ∀ j p, slots w !! j = Some (Some p) → p ≠ next w ∧ i ≠ j).
  { intros j p Hj. destruct (Hs j p Hj) as [x Hx]. split; [congruence|]. intros ->. congruence. }
  split; cbn [slots heap next requested with_requested with_heap with_slots with_next].
  - intros j p. destruct (decide (i = j)) as [<-|Hne].
    + rewrite list_lookup_insert_eq by done. intros [= <-]. by rewrite lookup_insert_eq.
    + rewrite list_lookup_insert_ne by done. intros Hj. destruct (Hold _ _ Hj) as [Hp _].
      rewrite lookup_insert_ne by done. by eapply Hs.
  - intros j j' p. destruct (decide (i = j)) as [<-|Hj], (decide (i = j')) as [<-|Hj'];
      rewrite ?list_lookup_insert_eq by done; rewrite ?list_lookup_insert_ne by done; [done|..].
    + intros [= <-] H2. by destruct (Hold _ _ H2).
    + intros H1 [= <-]. by destruct (Hold _ _ H1).
    + by apply Hd.
  - intros p x. destruct (decide (p = next w)) as [->|Hne].
    + rewrite lookup_insert_eq. intros [= <-]. split; [lia|].
      split; [exists i; by rewrite list_lookup_insert_eq|]. split; [done|]. left. split; [done|].
      intros Hin. apply Hr in Hin as (z & Hz & _). congruence.
    + rewrite lookup_insert_ne by done. intros Hx. destruct (Hh p x Hx) as (Hp & [j Hj] & Hg).
      split; [lia|]. split; [|done]. exists j. destruct (Hold _ _ Hj) as [_ Hij].
      by rewrite list_lookup_insert_ne.
  - intros n p Hn. destruct (Hr n p Hn) as (x & Hx & Hnx). exists x. rewrite lookup_insert_ne by congruence. done.
Qed.

Lemma start_inv k sb n : (∀ j, device_create k j = true) → ∀ i w r w', tti_inv w →
  (∀ j, (i ≤ j < i + n)%nat → slots w !! j = Some None) →
  start_loop k sb n i w = Some (r, w') → tti_inv w'.
Proof.
  intros Hdc. induction n as [|n IH]; intros i w r w' Hinv Hfree; cbn [start_loop]; [by intros [= <- <-]|].
  destruct (kmalloc k i); cbn [negb]; [|by intros [= <- <-]].
  rewrite M_bind_eq. destruct (tti_irq k sb i w) as [[[irq_no index] w1]|] eqn:Hirq; [|done].
  assert (Hw1 : slots w1 = slots w ∧ tti_inv w1).
  { unfold tti_irq in Hirq. destruct sb; [|injection Hirq as _ _ <-; done].
    destruct (gul_dev_get_msi _ _) as [idx t]. case_decide; [|done].
    destruct (t !! Z.to_nat idx); [|done]. injection Hirq as _ _ <-. split; [done|]. by apply (inv_ext w). }
  destruct Hw1 as [Hs1 Hinv1]. destruct (decide (irq_no < 0)); [by intros [= <- <-]|].
  rewrite !M_bind_eq. cbn [gets modify]. rewrite Hdc. cbn [negb]. rewrite !M_bind_eq. cbn [modify]. rewrite !M_bind_eq.
  cbn [modify slots with_heap with_next heap]. apply (IH (S i)).
  - apply (inv_new w1 i (irq_no, index) Hinv1). rewrite Hs1. apply Hfree. lia.
  - intros j Hj. cbn [slots with_slots with_heap with_next]. rewrite list_lookup_insert_ne by lia. rewrite Hs1. apply Hfree. lia.
Qed.

Lemma inv_remove w i p req : tti_inv w → slots w !! i = Some (Some p) →
  (∀ n q, (n, q) ∈ req ↔ (n, q) ∈ requested w ∧ q ≠ p) →
  ∀ w', slots w' = <[i := None]> (slots w) → heap w' = delete p (heap w) → next w' = next w → requested w' = req →
  tti_inv w'.
Proof.
  intros [Hs Hd Hh Hr] Hi Hreq w' E1 E2 E3 E4. assert (Hlt := lookup_lt_Some _ _ _ Hi).
  assert (Hold : ∀ j q, <[i := None]> (slots w) !! j = Some (Some q) → slots w !! j = Some (Some q) ∧ q ≠ p).
  { intros j q. destruct (decide (i = j)) as [<-|Hne]; [by rewrite list_lookup_insert_eq|].
    rewrite list_lookup_insert_ne by done. intros Hj. split; [done|]. intros ->. by apply Hne, (Hd i j p). }
  split; rewrite ?E1, ?E2, ?E3, ?E4.
  - intros j q [Hj Hq]%Hold. rewrite lookup_delete_ne by done. by eapply Hs.
  - intros j j' q [Hj _]%Hold [Hj' _]%Hold. by apply (Hd j j' q).
  - intros q x. rewrite lookup_delete_Some. intros [Hq Hx]. destruct (Hh q x Hx) as (Hn & [j Hj] & Hc & Hg).
    split; [done|]. split.
    + exists j. rewrite list_lookup_insert_ne; [done|]. intros ->. congruence.
    + split; [done|]. rewrite !Hreq. naive_solver.
  - intros n q [Hn Hq]%Hreq. destruct (Hr n q Hn) as (x & Hx & Hnx). exists x. by rewrite lookup_delete_ne.
Qed.

(** Stopping devices [i .. i+n-1] empties their slots and keeps the rest. *)
Lemma stop_safe n : ∀ i w, tti_inv w → ∃ w', stop_loop n i w = Some (tt, w') ∧ tti_inv w' ∧
  length (slots w') = length (slots w) ∧
  (∀ j, slots w' !! j = if decide (i ≤ j < i + n)%nat then (λ _, None) <$> slots w !! j else slots w !! j).
Proof.
  induction n as [|n IH]; intros i w Hinv; cbn [stop_loop].
  { exists w. repeat (split; [done|]). intros j. by rewrite decide_False by lia. }
  assert (Hone : ∃ w1, (s ← gets (λ w, mjoin (slots w !! i));
      match s with
      | None => mret tt
      | Some p => x ← deref p;
          _ ← (if decide (tti_irq_status x ≠ 0) then _ ← free_irq (irq x) p; update p (set_status 0) else mret tt);
          _ ← kfree p; modify (λ w, with_slots (<[i := None]> (slots w)) w)
      end) w = Some (tt, w1) ∧ tti_inv w1 ∧ slots w1 = <[i := None]> (slots w)).
  { rewrite M_bind_eq. cbn [gets]. destruct (slots w !! i) as [[p|]|] eqn:Hi; cbn [mjoin option_join].
    - destruct (inv_slots w Hinv i p Hi) as [x Hx]. destruct (inv_heap w Hinv p x Hx) as (_ & _ & _ & Hst).
      assert (Hreq := inv_req w p x Hinv Hx). rewrite M_bind_eq, (deref_run w p x Hx).
      destruct (decide (tti_irq_status x ≠ 0)) as [Hne|Heq].
      + rewrite M_bind_eq, M_bind_eq. cbn [free_irq modify]. rewrite (update_run _ p x) by done.
        rewrite M_bind_eq. unfold kfree. rewrite M_bind_eq, (deref_run _ p (set_status 0 x)) by (cbn; by rewrite lookup_insert_eq).
        cbn [modify]. eexists. split; [reflexivity|]. split; [|done].
        eapply (inv_remove w i p (filter (λ r, r ≠ (irq x, p)) (requested w))); try done.
        * intros m q. rewrite list_elem_of_filter. split; [|naive_solver]. intros [Hq Hm]. split; [done|].
          intros ->. apply Hq. by rewrite (Hreq m Hm).
        * cbn. by rewrite delete_insert_eq.
      + rewrite M_bind_eq. unfold mret at 1, M_ret. rewrite M_bind_eq. unfold kfree. rewrite M_bind_eq, (deref_run w p x Hx).
        cbn [modify]. eexists. split; [reflexivity|]. split; [|done].
        eapply (inv_remove w i p (requested w)); try done. intros m q. split; [|naive_solver]. intros Hm.
        split; [done|]. intros ->. destruct Hst as [[_ Hni]|[Hs1 _]]; [|lia]. apply Hni. by rewrite <- (Hreq m Hm).
    - exists w. split; [done|]. split; [done|]. symmetry. by apply list_insert_id.
    - exists w. split; [done|]. split; [done|]. symmetry. apply list_insert_ge. by apply lookup_ge_None_1. }
  destruct Hone as (w1 & H1 & Hinv1 & Hs1). destruct (IH (S i) w1 Hinv1) as (w2 & H2 & Hinv2 & Hlen & Hs2).
  exists w2. split.
  - revert H1. rewrite !M_bind_eq. cbn [gets]. intros H1. rewrite M_bind_eq, H1. exact H2.
  - split; [done|]. rewrite Hlen, Hs1, length_insert. split; [done|]. intros j. rewrite Hs2, Hs1.
    destruct (decide (i = j)) as [<-|Hne].
    + rewrite (decide_False (P := (S i ≤ i < S i + n)%nat)) by lia. rewrite decide_True by lia.
      destruct (decide (i < length (slots w))%nat) as [Hlt|Hge].
      * rewrite list_lookup_insert_eq by done. destruct (lookup_lt_is_Some_2 _ _ Hlt) as [s ->]. done.
      * rewrite !(lookup_ge_None_2 _ i) by (rewrite ?length_insert; lia). done.
    + rewrite !list_lookup_insert_ne by done. case_decide; case_decide; done || lia.
Qed.

(** A modem whose slots are still empty. *)
Definition fresh (n : nat) (t : list irq_info) : tti_world := World (replicate n None) ∅ 0 [] t [] [].

Lemma inv_fresh n t : tti_inv (fresh n t).
Proof.
  split; cbn.
  - intros i p Hi. by apply lookup_replicate in Hi as [? _].
  - intros i j p Hi. by apply lookup_replicate in Hi as [? _].
  - intros p x. by rewrite lookup_empty.
  - intros m p Hm. by apply elem_of_nil in Hm.
Qed.

Section Lifecycle.
Context (k : tti_kernel) (sb : bool) (n : nat) (t : list irq_info).

(** The states in which user space and the interrupts can find the devices. *)
Definition tti_reachable (w : tti_world) : Prop :=
  ∃ rc w0, tti_dev_start k sb n (fresh n t) = Some (rc, w0) ∧ rtc (λ w w', tti_step w (Some w')) w0 w ∧
    length (slots w) = n.
End Lifecycle.

(** C31: after a probe in which no device node was refused, no sequence of lawful
    registrations, deregistrations and interrupts uses a structure that is gone or
    a field never written, and the removal then gives back every interrupt and
    every structure.  Registering is lawful with no descriptor or an eventfd, and
    deregistering only after registering. *)
Theorem tti_lifecycle (k : tti_kernel) (sb : bool) (n : nat) (t : list irq_info) (w : tti_world) :
  (∀ j, device_create k j = true) → tti_reachable k sb n t w →
  (∀ r, tti_step w r → is_Some r) ∧
  ∃ w', tti_dev_stop n w = Some (tt, w') ∧ requested w' = [] ∧ heap w' = ∅ ∧ slots w' = replicate n None.
Proof.
  intros Hdc (rc & w0 & Hstart & Hrun & Hlen).
  assert (Hinv0 : tti_inv w0).
  { unfold tti_dev_start in Hstart. destruct (negb sb && negb (has_node k)).
    { injection Hstart as _ <-. apply inv_fresh. }
    rewrite M_bind_eq in Hstart. destruct (start_loop k sb n 0 (fresh n t)) as [[r w1]|] eqn:Hl; [|done].
    injection Hstart as _ <-. eapply (start_inv k sb n Hdc 0); [apply (inv_fresh n t)| |exact Hl].
    intros j Hj. cbn. by apply lookup_replicate_2; lia. }
  assert (Hinv : tti_inv w).
  { eapply rtc_invariant; [exact Hrun| |exact Hinv0]. intros a b Hab Ha.
    destruct (step_safe a _ Ha Hab) as (b' & [= <-] & Hb). done. }
  split. { intros r Hr. destruct (step_safe w r Hinv Hr) as (w' & -> & _). by eexists. }
  destruct (stop_safe n 0 w Hinv) as (w' & Hw' & Hinv' & Hlen' & Hs). exists w'. split; [exact Hw'|].
  assert (Hslots : slots w' = replicate n None).
  { apply list_eq. intros j. rewrite Hs. case_decide as Hj.
    - destruct (lookup_lt_is_Some_2 (slots w) j ltac:(lia)) as [s ->]. by rewrite lookup_replicate_2 by lia.
    - rewrite !lookup_ge_None_2; rewrite ?length_replicate; done || lia. }
  assert (Hheap : heap w' = ∅).
  { apply map_empty. intros p. destruct (heap w' !! p) as [x|] eqn:Hx; [|done].
    destruct (inv_heap w' Hinv' p x Hx) as (_ & [i Hi] & _). rewrite Hslots in Hi.
    by apply lookup_replicate in Hi as [? _]. }
  split; [|done]. destruct (requested w') as [|[m p] l] eqn:Hr; [done|]. exfalso.
  destruct (inv_requested w' Hinv' m p) as (x & Hx & _); [rewrite Hr; left|]. rewrite Hheap in Hx.
  by rewrite lookup_empty in Hx.
Qed.

(** a descriptor that is not open crashes the registration, and one that is
    not an eventfd is accepted and crashes at the next interrupt. *)
Theorem tti_bad_descriptor (k : tti_kernel) (w : tti_world) (p : nat) (x : tti_priv) (ttid fd : Z) :
  heap w !! p = Some x → tti_irq_status x = 0 → irq x ≠ 0 → request_irq k = 0 → copied k = true → 0 < fd →
  (fget k fd = NoFile → gul_tti_dev_ioctl k p (IOCTL_GUL_MODEM_TTI_REGISTER ttid fd) w = None) ∧
  (fget k fd = ErrPtr → ∃ w', gul_tti_dev_ioctl k p (IOCTL_GUL_MODEM_TTI_REGISTER ttid fd) w = Some (0, w') ∧
     (irq x, p) ∈ requested w' ∧ tti_irq_handler p w' = None).
Proof.
  intros Hx Hst Hirq Hrq Hcp Hfd. cbn [gul_tti_dev_ioctl]. rewrite Hcp. cbn [negb].
  unfold tti_register_irq. rewrite M_bind_eq, (update_run w p x) by done.
  set (w1 := with_heap _ w). set (x1 := set_id ttid x).
  rewrite M_bind_eq, (update_run w1 p x1) by (cbn; by rewrite lookup_insert_eq).
  set (w2 := with_heap _ w1). set (x2 := set_ctxt None x1).
  assert (Hx2 : heap w2 !! p = Some x2) by (cbn; by rewrite lookup_insert_eq).
  rewrite M_bind_eq, (deref_run w2 p x2 Hx2). change (irq x2) with (irq x).
  change (tti_irq_status x2) with (tti_irq_status x).
  rewrite (decide_False (P := irq x = 0)) by done. rewrite bool_decide_true by done.
  rewrite (decide_False (P := true = true ∧ request_irq k < 0)) by lia.
  rewrite M_bind_eq, M_bind_eq. cbn [modify]. rewrite (update_run _ p x2) by done.
  set (w3 := with_heap _ _). rewrite decide_True by done.
  assert (Hx3 : heap w3 !! p = Some (set_status 1 x2)) by (cbn; by rewrite lookup_insert_eq).
  split; intros ->; [done|]. rewrite Hrq, M_bind_eq, (update_run w3 p _ _ Hx3). eexists. split; [reflexivity|].
  split; [cbn; left|]. unfold tti_irq_handler.
  rewrite M_bind_eq, (deref_run _ p (set_ctxt (Some ErrPtr) (set_status 1 x2))) by (cbn; by rewrite lookup_insert_eq).
  done.
Qed.

(** A device whose node is refused after the first stays in its slot although its
    structure is freed: the removal uses it. *)
Lemma start_then_stop_crashes : ∃ k w, tti_dev_start k false 2 (fresh 2 []) = Some (0, w) ∧ tti_dev_stop 2 w = None.
Proof.
  exists (Kernel true (λ _, true) (λ i, 40 + Z.of_nat i) (λ i, bool_decide (i = 0%nat)) 0 0 (λ _, NoFile) true).
  eexists. split; vm_compute; reflexivity.
Qed.

(** ** Two devices, one of them registered with an eventfd *)
Definition demo_kernel : tti_kernel :=
  Kernel true (λ _, true) (λ i, 40 + Z.of_nat i) (λ _, true) 0 0
    (λ fd, if decide (fd = 7) then Ctx 70 else if decide (fd = 8) then ErrPtr else NoFile) true.
Definition demo_world : tti_world :=
  default (fresh 0 []) (snd <$> tti_dev_start demo_kernel false 2 (fresh 2 [])).
Definition demo_registered : tti_world :=
  default (fresh 0 []) (snd <$> gul_tti_dev_ioctl demo_kernel 0 (IOCTL_GUL_MODEM_TTI_REGISTER 0 7) demo_world).

Lemma tti_lifecycle_witness :
  (∀ r, tti_step demo_registered r → is_Some r) ∧
  ∃ w', tti_dev_stop 2 demo_registered = Some (tt, w') ∧ requested w' = [] ∧ heap w' = ∅ ∧ slots w' = replicate 2 None.
Proof.
  apply (tti_lifecycle demo_kernel false 2 []); [reflexivity|]. exists 0, demo_world.
  split; [vm_compute; reflexivity|]. split; [|reflexivity]. apply rtc_once.
  exact (step_ioctl demo_world demo_kernel 0 0 (Tti 40 None None 0 None) (IOCTL_GUL_MODEM_TTI_REGISTER 0 7)
    eq_refl eq_refl (conj (λ _, ex_intro _ 70 eq_refl) (Z.le_refl 0))).
Defined.

Lemma tti_bad_descriptor_witness :
  gul_tti_dev_ioctl demo_kernel 1 (IOCTL_GUL_MODEM_TTI_REGISTER 0 9) demo_world = None ∧
  ∃ w', gul_tti_dev_ioctl demo_kernel 1 (IOCTL_GUL_MODEM_TTI_REGISTER 0 8) demo_world = Some (0, w') ∧
    (41, 1%nat) ∈ requested w' ∧ tti_irq_handler 1 w' = None.
Proof.
  split.
  - apply (proj1 (tti_bad_descriptor demo_kernel demo_world 1 (Tti 41 None None 0 None) 0 9
      eq_refl eq_refl ltac:(discriminate) eq_refl eq_refl eq_refl)). reflexivity.
  - apply (proj2 (tti_bad_descriptor demo_kernel demo_world 1 (Tti 41 None None 0 None) 0 8
      eq_refl eq_refl ltac:(discriminate) eq_refl eq_refl eq_refl)). reflexivity.
Defined.
