(* ===== verification/GulBase.v ===== *)
(** * Bringing a modem up and taking it down (kernel_driver/yami/gul_base.c)

    The probe of a modem runs a fixed sequence of steps and then the probes of
    the sub-drivers; a failure undoes the stage reached.  A call of another part
    of the driver is an event of a log: what it returns, and what it does to the
    table of interrupt lines, are the class [BaseCalls]. *)
From S2P Require Import Prelude GulMsi.
From Stdlib Require Import Ascii.
From stdpp Require Import strings.
#[global] Open Scope Z_scope.

(** ** Sub-drivers *)
Inductive gul_subdrv_type_t :=
  | GUL_SUBDRV_TYPE_NONE | GUL_SUBDRV_TYPE_VSPA | GUL_SUBDRV_TYPE_IPC | GUL_SUBDRV_TYPE_WDOG
  | GUL_SUBDRV_TYPE_RFIC | GUL_SUBDRV_TYPE_DCS | GUL_SUBDRV_TYPE_TVD | GUL_SUBDRV_TYPE_CLI
  | GUL_SUBDRV_TYPE_HAWK | GUL_SUBDRV_TYPE_USIM.
#[export] Instance gul_subdrv_type_eq : EqDecision gul_subdrv_type_t.
Proof. solve_decision. Defined.

(** Which operations an entry of the table has. *)
Record gul_sub_driver := SubDriver {
  name : string; type : gul_subdrv_type_t;
  probe : bool; remove : bool; mod_init : bool; mod_exit : bool }.

(** The options of the build that add entries. *)
Record build := Build {
  DCS_DRVR_ENABLED : bool; RF_DRVR_ENABLED : bool; HAWK_DRVR_ENABLED : bool;
  YUCCA_RF_DRVR_ENABLED : bool; USIM_DRVR_ENABLED : bool; LA1224 : bool }.

(** The table ends with an empty entry, which its size counts. *)
Definition sub_drvs_g (b : build) : list gul_sub_driver :=
  [SubDriver "WDOG" GUL_SUBDRV_TYPE_WDOG true false true true;
   SubDriver "TVD" GUL_SUBDRV_TYPE_TVD true true true true] ++
  (if DCS_DRVR_ENABLED b then [SubDriver "DCS_HS" GUL_SUBDRV_TYPE_DCS true true true true] else []) ++
  [SubDriver "VSPA" GUL_SUBDRV_TYPE_VSPA true true false false;
   SubDriver "IPC" GUL_SUBDRV_TYPE_IPC true true true true] ++
  (if RF_DRVR_ENABLED b then [SubDriver "RFIC" GUL_SUBDRV_TYPE_RFIC true true true true] else []) ++
  [SubDriver "CLI" GUL_SUBDRV_TYPE_CLI true true true true] ++
  (if HAWK_DRVR_ENABLED b then [SubDriver "HAWK" GUL_SUBDRV_TYPE_HAWK true true false false] else []) ++
  (if YUCCA_RF_DRVR_ENABLED b then [SubDriver "YUCCA_RFIC" GUL_SUBDRV_TYPE_RFIC true true false false] else []) ++
  (if USIM_DRVR_ENABLED b then [SubDriver "USIM" GUL_SUBDRV_TYPE_USIM true true false false] else []) ++
  [SubDriver "" GUL_SUBDRV_TYPE_NONE false false false false].

(** ** Fuses *)
Inductive soc_fuse :=
  | FUSE_LA1200 | FUSE_LA1201 | FUSE_LA1212 | FUSE_LA1214 | FUSE_LA1215 | FUSE_LA1216
  | FUSE_LA1223 | FUSE_LA1225 | FUSE_LA1234 | FUSE_LA1235 | FUSE_LA1236 | FUSE_LA1218
  | FUSE_LA1238 | FUSE_LA1232 | FUSE_RESV | FUSE_LA1224 | FUSE_INVALID | FUSE_OTHER (v : Z).
#[export] Instance soc_fuse_eq : EqDecision soc_fuse.
Proof. solve_decision. Defined.

Definition FUSE_PERSONALITY_SHIFT : Z := 12.
Definition fuse_of (v : Z) : soc_fuse :=
  default (FUSE_OTHER v)
    ([FUSE_LA1200; FUSE_LA1201; FUSE_LA1212; FUSE_LA1214; FUSE_LA1215; FUSE_LA1216; FUSE_LA1223;
      FUSE_LA1225; FUSE_LA1234; FUSE_LA1235; FUSE_LA1236; FUSE_LA1218; FUSE_LA1238; FUSE_LA1232;
      FUSE_RESV; FUSE_LA1224; FUSE_INVALID] !! Z.to_nat v).

(** [reg] is the fuse status register. *)
Definition get_fuse_val (reg : Z) : soc_fuse :=
  let personality := Z.shiftr (u32 reg) FUSE_PERSONALITY_SHIFT in
  if decide (personality = 0) then FUSE_INVALID else fuse_of personality.

(** Both checks return a [char]. *)
Definition gul_hsdcs_check (f : soc_fuse) : Z :=
  match f with
  | FUSE_LA1215 | FUSE_LA1225 | FUSE_LA1235 | FUSE_LA1216 | FUSE_LA1218 | FUSE_LA1236
  | FUSE_LA1238 | FUSE_LA1224 => 0
  | _ => -1
  end.
Definition gul_lsdcs_check (f : soc_fuse) : Z :=
  match f with
  | FUSE_LA1212 | FUSE_LA1214 | FUSE_LA1223 | FUSE_LA1232 | FUSE_LA1234 | FUSE_LA1216
  | FUSE_LA1218 | FUSE_LA1236 | FUSE_LA1238 | FUSE_LA1224 => 0
  | _ => -1
  end.

(** ** The options of the module and the board *)
Record opts := Opts {
  warmup : bool; warmup_temp : Z; warmup_timeout : Z; warmup_poll_intvl : Z;
  vspa_disable : bool; rfic_disable : bool; tvd_disable : bool; wdog_disable : bool;
  disable_sideband : bool; modem_share_buf_size : Z; modem_host_uart : Z;
  board_rev : ascii; soc_is_reva : bool; soc_is_revb : bool; fuse_reg : Z;
  (** whether [char] is unsigned, as on arm64 *)
  char_unsigned : bool }.
(** A value stored in a [char]. *)
Definition char_of (o : opts) (x : Z) : Z := if char_unsigned o then u8 x else x.

(** ** Events and the state *)
Inductive event :=
  | ScratchInit | ScratchRegions | TtiStart | LoadImage | Handshake | InitHif | EpLogger | InitSysfs
  | StatsInit | RegisterEpStats | OutboundMsi | Probe (n : string) | ModemReady | ProbeComplete
  | WarmupComplete | PciDomain | ShareArea
  | Remove (n : string) | FreeIrq (irq : Z) | StatsExit | RemoveSysfs | ModinfoExit | Memunmap
  | TtiStop | FreeDma | ModInit (n : string) | ModExit (n : string)
  | Write (r : string) (v : Z).
#[export] Instance event_eq : EqDecision event.
Proof. solve_decision. Defined.

(** The globals of the device that the sequence itself sets, and the word of the
    host interface (modem memory, which the code does not clear) that names the TTI
    line. *)
Record base := Base {
  log : list event; irq : list irq_info; hsdcs_enable : Z;
  e200_load_status : bool; share_buf_size : Z; share_buf_phys_addr : Z; hif_msi_tti : Z }.

Definition add_event (e : event) (t : list irq_info) (w : base) : base :=
  Base (log w ++ [e]) t (hsdcs_enable w) (e200_load_status w) (share_buf_size w) (share_buf_phys_addr w) (hif_msi_tti w).
Definition set_irq (t : list irq_info) (w : base) : base :=
  Base (log w) t (hsdcs_enable w) (e200_load_status w) (share_buf_size w) (share_buf_phys_addr w) (hif_msi_tti w).
Definition set_hsdcs (v : Z) (w : base) : base :=
  Base (log w) (irq w) v (e200_load_status w) (share_buf_size w) (share_buf_phys_addr w) (hif_msi_tti w).
Definition set_e200 (b : bool) (w : base) : base :=
  Base (log w) (irq w) (hsdcs_enable w) b (share_buf_size w) (share_buf_phys_addr w) (hif_msi_tti w).
Definition set_share_size (v : Z) (w : base) : base :=
  Base (log w) (irq w) (hsdcs_enable w) (e200_load_status w) v (share_buf_phys_addr w) (hif_msi_tti w).
Definition set_share_addr (v : Z) (w : base) : base :=
  Base (log w) (irq w) (hsdcs_enable w) (e200_load_status w) (share_buf_size w) v (hif_msi_tti w).
Definition set_msi_tti (v : Z) (w : base) : base :=
  Base (log w) (irq w) (hsdcs_enable w) (e200_load_status w) (share_buf_size w) (share_buf_phys_addr w) v.

(** What a call returns after the calls before it (for [ShareArea], nonzero when
    there is no region), the lines it leaves, and the line TTI took. *)
Class BaseCalls := {
  ret : list event → event → Z;
  lines : event → list irq_info → list irq_info;
  tti_msi_index : Z;
  share_phys : Z }.

Local Abbreviation B := (M base).

Section Base.
Context `{BaseCalls} (o : opts) (b : build).

Definition call (e : event) : B Z :=
  λ w, Some (ret (log w) e, add_event e (lines e (irq w)) w).
Definition call_ (e : event) : B unit := _ ← call e; mret tt.
(** A register write, or a call with no result that only concerns the log. *)
Definition writel (r : string) (v : Z) : B unit :=
  λ w, let w := add_event (Write r v) (irq w) w in
       Some (tt, if decide (r = "msi_tti"%string) then set_msi_tti v w else w).

(** ** Which sub-drivers run; [true] is the code's 0 *)
Definition gul_subdrv_check_fail (d : gul_sub_driver) : bool :=
  (vspa_disable o && bool_decide (type d = GUL_SUBDRV_TYPE_VSPA)) ||
  (rfic_disable o && bool_decide (type d = GUL_SUBDRV_TYPE_RFIC)) ||
  (tvd_disable o && bool_decide (type d = GUL_SUBDRV_TYPE_TVD)) ||
  (wdog_disable o && bool_decide (type d = GUL_SUBDRV_TYPE_WDOG)).

(** Nonzero when the sub-driver is not probed.  The check of the converters
    clears [hsdcs_enable] when its [char] compares equal to -1. *)
Definition dcs_check : B bool :=
  let fuse := get_fuse_val (fuse_reg o) in
  if decide (fuse = FUSE_INVALID) then mret false else
  en ← gets hsdcs_enable;
  hs ← (if decide (en = 1) then
          let hs := char_of o (gul_hsdcs_check fuse) in
          _ ← (if decide (hs = -1) then modify (set_hsdcs 0) else mret tt); mret hs
        else mret (char_of o (-1)));
  let ls := char_of o (gul_lsdcs_check fuse) in
  mret (negb (bool_decide (hs = 0) || bool_decide (ls = 0))).

Definition gul_warmup_subdrv_probe_check_fail (d : gul_sub_driver) : B bool :=
  if warmup o then
    mret match type d with
         | GUL_SUBDRV_TYPE_DCS => negb (soc_is_reva o)
         | GUL_SUBDRV_TYPE_WDOG | GUL_SUBDRV_TYPE_VSPA => false
         | _ => true
         end
  else if decide (type d = GUL_SUBDRV_TYPE_DCS) then
    if decide (board_rev o ≠ "A"%char ∧ board_rev o ≠ "B"%char ∧ soc_is_revb o = true) then dcs_check
    else mret false
  else mret (gul_subdrv_check_fail d).

(** ** Taking down *)
Inductive gul_init_stage :=
  | GUL_DMA_INIT_STAGE | GUL_SCRATCH_DMA_INIT_STAGE | GUL_SYSFS_INIT_STAGE
  | GUL_HANDSHAKE_INIT_STAGE | GUL_IRQ_INIT_STAGE | GUL_SUBDRV_PROBE_STAGE.

(** Entries [i], [i-1], ... 0. *)
Fixpoint cleanup_loop (i : nat) : B unit :=
  d ← lift (sub_drvs_g b !! i);
  _ ← (if gul_subdrv_check_fail d then mret tt
       else if remove d then call_ (Remove (name d)) else mret tt);
  match i with O => mret tt | S i => cleanup_loop i end.
Definition gul_base_cleanup_subdrv (drv_index : nat) : B unit := cleanup_loop drv_index.

(** The loop over the lines: each busy one [keep] does not spare is released. *)
Fixpoint free_lines (keep : Z) (i : Z) (t : list irq_info) : list irq_info * list event :=
  match t with
  | [] => ([], [])
  | e :: t =>
      let '(t, l) := free_lines keep (i + 1) t in
      if decide (free e = GUL_MSI_IRQ_BUSY ∧ i ≠ keep)
      then (set_free GUL_MSI_IRQ_FREE e :: t, FreeIrq (irq_val e) :: l) else (e :: t, l)
  end.
Definition release_lines (keep : Z) : B unit :=
  modify (λ w, let '(t, l) := free_lines keep 0 (irq w) in
    set_irq t (Base (log w ++ l) (irq w) (hsdcs_enable w) (e200_load_status w) (share_buf_size w)
                    (share_buf_phys_addr w) (hif_msi_tti w))).

(** The cases of the switch, each falling through to the next; [-1] is no line. *)
Definition deinit_dma : B unit := call_ FreeDma.
Definition deinit_scratch : B unit :=
  _ ← call_ ModinfoExit; _ ← call_ Memunmap; _ ← call_ TtiStop; deinit_dma.
Definition deinit_sysfs : B unit := _ ← call_ StatsExit; _ ← call_ RemoveSysfs; deinit_scratch.
Definition gul_base_deinit (stage : gul_init_stage) (drv_index : nat) : B unit :=
  match stage with
  | GUL_SUBDRV_PROBE_STAGE =>
      _ ← gul_base_cleanup_subdrv drv_index; _ ← release_lines (-1); deinit_sysfs
  | GUL_SYSFS_INIT_STAGE => deinit_sysfs
  | GUL_IRQ_INIT_STAGE | GUL_HANDSHAKE_INIT_STAGE | GUL_SCRATCH_DMA_INIT_STAGE => deinit_scratch
  | GUL_DMA_INIT_STAGE => deinit_dma
  end.

(** ** Bringing up: the value returned, the stage and the index at the end *)
Local Abbreviation outcome := (Z * gul_init_stage * nat)%type.

(** A step that fails ends the sequence. *)
Definition step (e : event) (stage : gul_init_stage) (k : B outcome) : B outcome :=
  rc ← call e; if decide (rc ≠ 0) then mret (rc, stage, O) else k.

(** The loop over the table from entry [i], [ds] left. *)
Fixpoint probe_loop (i : nat) (ds : list gul_sub_driver) (k : B outcome) : B outcome :=
  match ds with
  | [] => k
  | d :: ds =>
      skip ← gul_warmup_subdrv_probe_check_fail d;
      match skip, probe d with
      | false, true =>
          rc ← call (Probe (name d));
          if decide (rc ≠ 0) then mret (rc, GUL_SUBDRV_PROBE_STAGE, i) else probe_loop (S i) ds k
      | _, _ => probe_loop (S i) ds k
      end
  end.

Definition write_warmup : B unit :=
  if warmup o then
    _ ← writel "warmup_temp" (warmup_temp o); _ ← writel "warmup_timeout" (warmup_timeout o);
    writel "warmup_poll_intvl" (warmup_poll_intvl o)
  else mret tt.

(** The numbers of the boards come from a header outside this repository: the
    write records the letter that selects them. *)
Definition write_board : B unit :=
  if LA1224 b then
    writel "host_board_rev"
      (if decide (board_rev o ∈ ["A"; "B"; "C"]%char) then Z.of_nat (nat_of_ascii (board_rev o)) else 0)
  else mret tt.

(** After the sub-drivers.  A missing share area leaves the result 0. *)
Definition probe_end : B outcome :=
  _ ← writel "PCIE_ABSERR" 0x9401;
  _ ← call_ ModemReady;
  _ ← call_ ProbeComplete;
  _ ← (if warmup o then mret tt else call_ WarmupComplete);
  _ ← call_ PciDomain;
  _ ← (if decide (modem_share_buf_size o ≠ 0) then
         rc ← call ShareArea; if decide (rc ≠ 0) then mret tt else modify (set_share_addr share_phys)
       else modify (set_share_addr 0));
  mret (0, GUL_SUBDRV_PROBE_STAGE, length (sub_drvs_g b)).

Definition probe_hif : B outcome :=
  _ ← modify (set_e200 true);
  step InitHif GUL_HANDSHAKE_INIT_STAGE (
  _ ← write_warmup;
  _ ← writel "modem_host_uart" (modem_host_uart o);
  _ ← writel "disable_sideband" (if disable_sideband o then 1 else 0);
  _ ← (if disable_sideband o then writel "msi_tti" (u32 tti_msi_index) else mret tt);
  _ ← write_board;
  _ ← call_ EpLogger;
  step InitSysfs GUL_SYSFS_INIT_STAGE (
  _ ← call_ StatsInit;
  step RegisterEpStats GUL_SYSFS_INIT_STAGE (
  _ ← call_ OutboundMsi;
  probe_loop 0 (sub_drvs_g b) probe_end))).

Definition gul_base_bring_up : B outcome :=
  step ScratchInit GUL_SCRATCH_DMA_INIT_STAGE (
  _ ← call_ ScratchRegions;
  _ ← modify (set_share_size (modem_share_buf_size o));
  step TtiStart GUL_SCRATCH_DMA_INIT_STAGE (
  step LoadImage GUL_SCRATCH_DMA_INIT_STAGE (
  step Handshake GUL_HANDSHAKE_INIT_STAGE probe_hif))).

Definition gul_base_probe : B Z :=
  '(rc, stage, i) ← gul_base_bring_up;
  _ ← (if decide (rc ≠ 0) then gul_base_deinit stage i else mret tt);
  mret rc.

(** ** Removal *)
Fixpoint remove_loop (ds : list gul_sub_driver) : B unit :=
  match ds with
  | [] => mret tt
  | d :: ds =>
      _ ← (if gul_subdrv_check_fail d then mret tt
           else if remove d then call_ (Remove (name d)) else mret tt);
      remove_loop ds
  end.
Definition gul_subdrv_remove : B unit := remove_loop (sub_drvs_g b).

Definition gul_base_remove : B Z :=
  _ ← call_ ModinfoExit;
  _ ← call_ Memunmap;
  _ ← gul_subdrv_remove;
  msi_tti ← gets hif_msi_tti;
  _ ← (if disable_sideband o then modify (λ w, set_irq (gul_dev_put_msi (i32 msi_tti) (irq w)) w) else mret tt);
  _ ← release_lines msi_tti;
  _ ← call_ RemoveSysfs;
  _ ← call_ FreeDma;
  _ ← call_ StatsExit;
  _ ← call_ TtiStop;
  _ ← modify (set_e200 false);
  mret 0.

(** ** Loading and unloading the module *)
Fixpoint mod_init_loop (ds : list gul_sub_driver) : B Z :=
  match ds with
  | [] => mret 0
  | d :: ds =>
      if gul_subdrv_check_fail d then mod_init_loop ds
      else if mod_init d then
        rc ← call (ModInit (name d)); if decide (rc ≠ 0) then mret rc else mod_init_loop ds
      else mod_init_loop ds
  end.
Definition gul_subdrv_mod_init : B Z := mod_init_loop (sub_drvs_g b).

Fixpoint mod_exit_loop (ds : list gul_sub_driver) : B unit :=
  match ds with
  | [] => mret tt
  | d :: ds =>
      _ ← (if gul_subdrv_check_fail d then mret tt
           else if mod_exit d then call_ (ModExit (name d)) else mret tt);
      mod_exit_loop ds
  end.
Definition gul_subdrv_mod_exit : B unit := mod_exit_loop (reverse (sub_drvs_g b)).

End Base.
