(* ===== verification/GulBaseCorrect.v ===== *)
(** * The probe as a ladder, and what removal leaves

    The specification of GulBase is a list of steps, each with the stage its
    failure undoes; the code runs it, and the undoing is a list computed from
    the stage reached. *)
From Stdlib Require Import Ascii.
From stdpp Require Import strings.
From S2P Require Import Prelude GulMsi GulBase.
#[global] Open Scope Z_scope.

(** ** The specification *)
Section Spec.
Context `{BaseCalls} (o : opts) (b : build).

(** A step, and the stage and index its failure undoes; [None]: it cannot fail. *)
Abbreviation script := (list (event * option (gul_init_stage * nat))).

(** The steps that are run, and the failure that ended them. *)
Fixpoint run_script (h : list event) (s : script) : list event * option (Z * gul_init_stage * nat) :=
  match s with
  | [] => ([], None)
  | (e, on_fail) :: s =>
      let '(l, r) := run_script (h ++ [e]) s in
      match on_fail with
      | Some (stage, i) => if decide (ret h e ≠ 0) then ([e], Some (ret h e, stage, i)) else (e :: l, r)
      | None => (e :: l, r)
      end
  end.

Definition hs_capable : bool := bool_decide (gul_hsdcs_check (get_fuse_val (fuse_reg o)) = 0).
Definition ls_capable : bool := bool_decide (gul_lsdcs_check (get_fuse_val (fuse_reg o)) = 0).

(** Whether the converters are skipped, and [hsdcs_enable] afterwards. *)
Definition dcs_skips (en : Z) : bool * Z :=
  if decide (get_fuse_val (fuse_reg o) = FUSE_INVALID) then (false, en)
  else (negb ((bool_decide (en = 1) && hs_capable) || ls_capable),
        if bool_decide (en = 1) && negb hs_capable && negb (char_unsigned o) then 0 else en).

Definition skips (en : Z) (d : gul_sub_driver) : bool * Z :=
  if warmup o then
    (match type d with
     | GUL_SUBDRV_TYPE_DCS => negb (soc_is_reva o)
     | GUL_SUBDRV_TYPE_WDOG | GUL_SUBDRV_TYPE_VSPA => false
     | _ => true end, en)
  else if decide (type d = GUL_SUBDRV_TYPE_DCS) then
    if decide (board_rev o ≠ "A"%char ∧ board_rev o ≠ "B"%char ∧ soc_is_revb o = true)
    then dcs_skips en else (false, en)
  else (gul_subdrv_check_fail o d, en).

Fixpoint subdriver_script (en : Z) (i : nat) (ds : list gul_sub_driver) : script :=
  match ds with
  | [] => []
  | d :: ds =>
      (if negb (fst (skips en d)) && probe d
       then [(Probe (name d), Some (GUL_SUBDRV_PROBE_STAGE, i))] else []) ++
      subdriver_script (snd (skips en d)) (S i) ds
  end.

(** Events that cannot fail. *)
Definition quiet (l : list event) : script := (λ e, (e, None)) <$> l.

Definition hif_events : list event :=
  (if warmup o then [Write "warmup_temp" (warmup_temp o); Write "warmup_timeout" (warmup_timeout o);
     Write "warmup_poll_intvl" (warmup_poll_intvl o)] else []) ++
  [Write "modem_host_uart" (modem_host_uart o)] ++
  [Write "disable_sideband" (if disable_sideband o then 1 else 0)] ++
  (if disable_sideband o then [Write "msi_tti" (u32 tti_msi_index)] else []) ++
  (if LA1224 b then [Write "host_board_rev"
     (if decide (board_rev o ∈ ["A"; "B"; "C"]%char) then Z.of_nat (nat_of_ascii (board_rev o)) else 0)]
   else []) ++ [EpLogger].

Definition end_events : list event :=
  [Write "PCIE_ABSERR" 0x9401] ++ [ModemReady] ++ [ProbeComplete] ++
  (if warmup o then [] else [WarmupComplete]) ++ [PciDomain] ++
  (if decide (modem_share_buf_size o ≠ 0) then [ShareArea] else []).

Definition probe_script (en : Z) : script :=
  (ScratchInit, Some (GUL_SCRATCH_DMA_INIT_STAGE, O)) :: quiet [ScratchRegions] ++
  (TtiStart, Some (GUL_SCRATCH_DMA_INIT_STAGE, O)) ::
  (LoadImage, Some (GUL_SCRATCH_DMA_INIT_STAGE, O)) ::
  (Handshake, Some (GUL_HANDSHAKE_INIT_STAGE, O)) ::
  (InitHif, Some (GUL_HANDSHAKE_INIT_STAGE, O)) :: quiet hif_events ++
  (InitSysfs, Some (GUL_SYSFS_INIT_STAGE, O)) :: quiet [StatsInit] ++
  (RegisterEpStats, Some (GUL_SYSFS_INIT_STAGE, O)) :: quiet [OutboundMsi] ++
  subdriver_script en 0 (sub_drvs_g b) ++ quiet end_events.

(** The table of lines after the calls of a log. *)
Definition event_lines (e : event) (t : list irq_info) : list irq_info :=
  match e with Write _ _ => t | _ => lines e t end.
Definition table (t : list irq_info) (l : list event) : list irq_info := foldl (λ t e, event_lines e t) t l.

(** The word of the host interface that names the TTI line, after the events of a log. *)
Definition event_msi (e : event) (m : Z) : Z :=
  match e with Write r v => if decide (r = "msi_tti"%string) then v else m | _ => m end.
Definition msi_after (m : Z) (l : list event) : Z := foldl (λ m e, event_msi e m) m l.

(** The sub-drivers taken down after a failure at entry [i]: from the failing one
    down to the first, whether they were probed or not. *)
Definition removed (ds : list gul_sub_driver) : list event :=
  (λ d, Remove (name d)) <$> filter (λ d, gul_subdrv_check_fail o d = false ∧ remove d = true) ds.

(** The lines a release asks the kernel to free. *)
Definition freed (keep : Z) (t : list irq_info) : list event :=
  concat (imap (λ j e, if decide (free e = GUL_MSI_IRQ_BUSY ∧ Z.of_nat j ≠ keep)
                       then [FreeIrq (irq_val e)] else []) t).

Definition undo_scratch : list event := [ModinfoExit; Memunmap; TtiStop; FreeDma].
Definition undo (stage : gul_init_stage) (i : nat) (t : list irq_info) : list event :=
  match stage with
  | GUL_SUBDRV_PROBE_STAGE =>
      let l := removed (reverse (take (S i) (sub_drvs_g b))) in
      l ++ freed (-1) (table t l) ++ [StatsExit; RemoveSysfs] ++ undo_scratch
  | GUL_SYSFS_INIT_STAGE => [StatsExit; RemoveSysfs] ++ undo_scratch
  | GUL_IRQ_INIT_STAGE | GUL_HANDSHAKE_INIT_STAGE | GUL_SCRATCH_DMA_INIT_STAGE => undo_scratch
  | GUL_DMA_INIT_STAGE => [FreeDma]
  end.

End Spec.

(** ** Runs *)
Section Runs.
Context `{BaseCalls} (o : opts) (b : build).

Lemma msi_app m l k : msi_after m (l ++ k) = msi_after (msi_after m l) k.
Proof. apply foldl_app. Qed.
Lemma table_app t l k : table t (l ++ k) = table (table t l) k.
Proof. apply foldl_app. Qed.

Lemma dcs_check_skips w :
  dcs_check o w = Some (fst (dcs_skips o (hsdcs_enable w)), set_hsdcs (snd (dcs_skips o (hsdcs_enable w))) w).
Proof.
  assert (Hid : w = set_hsdcs (hsdcs_enable w) w) by by destruct w.
  unfold dcs_check, dcs_skips. case_decide as Hi; [cbn [fst snd]; by rewrite <- Hid|].
  rewrite M_bind_eq. cbn [gets fst snd].
  assert (Hu : ∀ x, char_of o x = 0 ↔ x = 0 ∨ (char_unsigned o = true ∧ x mod 256 = 0)).
  { intros x. unfold char_of. destruct (char_unsigned o); [|naive_solver].
    unfold u8. split; [naive_solver|]. intros [->|[_ Hx]]; done. }
  assert (Hc : ∀ x, x = 0 ∨ x = -1 → bool_decide (char_of o x = 0) = bool_decide (x = 0)).
  { intros x Hx. apply bool_decide_ext. rewrite Hu. split; [|naive_solver].
    intros [?|[_ Hm]]; [done|]. destruct Hx as [->| ->]; [done|]. discriminate Hm. }
  assert (Hhs : ∀ f, gul_hsdcs_check f = 0 ∨ gul_hsdcs_check f = -1) by (intros []; cbn; auto).
  assert (Hls : ∀ f, gul_lsdcs_check f = 0 ∨ gul_lsdcs_check f = -1) by (intros []; cbn; auto).
  set (f := get_fuse_val (fuse_reg o)) in *.
  destruct (decide (hsdcs_enable w = 1)) as [He|He].
  - rewrite (bool_decide_true _ He). cbn [andb].
    assert (Hm : char_of o (gul_hsdcs_check f) = -1 ↔ hs_capable o = false ∧ char_unsigned o = false).
    { unfold hs_capable. fold f. rewrite bool_decide_eq_false. unfold char_of. destruct (char_unsigned o).
      - split; [|naive_solver]. unfold u8. intros Hx. assert (Hp := Z.mod_pos_bound (gul_hsdcs_check f) 256). lia.
      - destruct (Hhs f) as [-> | ->]; naive_solver. }
    rewrite M_bind_eq, M_bind_eq. destruct (decide (char_of o (gul_hsdcs_check f) = -1)) as [Hx|Hx].
    + apply Hm in Hx as [Hn Hch]. cbn [modify]. unfold mret at 1, M_ret. rewrite Hc, Hc by done.
      rewrite Hn, Hch. cbn [negb andb]. unfold hs_capable in Hn. fold f in Hn. by rewrite Hn.
    + unfold mret at 1 2, M_ret. rewrite Hc, Hc by done.
      destruct (hs_capable o) eqn:Hn, (char_unsigned o) eqn:Hch; cbn [negb andb];
        try (rewrite <- Hid; unfold hs_capable in Hn; fold f in Hn; by rewrite Hn).
      exfalso. apply Hx, Hm. done.
  - rewrite (bool_decide_false _ He). cbn [andb]. rewrite M_bind_eq. unfold mret at 1, M_ret.
    rewrite !Hc by (done || by right). by rewrite <- Hid.
Qed.

Lemma check_skips d w : gul_warmup_subdrv_probe_check_fail o d w =
  Some (fst (skips o (hsdcs_enable w) d), set_hsdcs (snd (skips o (hsdcs_enable w) d)) w).
Proof.
  assert (Hid : w = set_hsdcs (hsdcs_enable w) w) by by destruct w.
  unfold gul_warmup_subdrv_probe_check_fail, skips. destruct (warmup o); [cbn; by rewrite <- Hid|].
  case_decide; [|cbn; by rewrite <- Hid]. case_decide; [apply dcs_check_skips|cbn; by rewrite <- Hid].
Qed.

(** A block that logs [l] and leaves the converters' switch. *)
Definition emits (m : M base unit) (l : list event) : Prop :=
  ∀ w, ∃ w', m w = Some (tt, w') ∧ log w' = log w ++ l ∧ irq w' = table (irq w) l ∧
    hsdcs_enable w' = hsdcs_enable w ∧ hif_msi_tti w' = msi_after (hif_msi_tti w) l.

Lemma emits_ret : emits (mret tt) [].
Proof. intros w. exists w. by rewrite app_nil_r. Qed.
Lemma emits_call e : (∀ r v, e ≠ Write r v) → emits (call_ e) [e].
Proof. intros He w. eexists. split; [reflexivity|]. destruct e; try done. by destruct (He r v). Qed.
Lemma emits_writel r v : emits (writel r v) [Write r v].
Proof.
  intros w. eexists. split; [reflexivity|]. unfold msi_after. cbn [foldl event_msi]. by case_decide.
Qed.
Lemma emits_modify f : (∀ w, log (f w) = log w ∧ irq (f w) = irq w ∧ hsdcs_enable (f w) = hsdcs_enable w ∧
    hif_msi_tti (f w) = hif_msi_tti w) →
  emits (modify f) [].
Proof. intros Hf w. eexists. split; [reflexivity|]. rewrite app_nil_r. apply Hf. Qed.
Lemma emits_bind m l k l' : emits m l → emits k l' → emits (_ ← m; k) (l ++ l').
Proof.
  intros Hm Hk w. destruct (Hm w) as (w1 & H1 & Hl1 & Hi1 & He1 & Hh1).
  destruct (Hk w1) as (w2 & H2 & Hl2 & Hi2 & He2 & Hh2). exists w2.
  rewrite M_bind_eq, H1, H2, Hl2, Hl1, Hi2, Hi1, He2, Hh2, Hh1. by rewrite app_assoc, table_app, msi_app.
Qed.
Lemma emits_if (c : bool) m l m' l' : emits m l → emits m' l' →
  emits (if c then m else m') (if c then l else l').
Proof. by destruct c. Qed.

(** A sequence that runs a script. *)
Definition follows (k : M base (Z * gul_init_stage * nat)) (s : Z → list (event * option (gul_init_stage * nat))) : Prop :=
  ∀ w, let '(l, r) := run_script (log w) (s (hsdcs_enable w)) in
    ∃ w', k w = Some (default (0, GUL_SUBDRV_PROBE_STAGE, length (sub_drvs_g b)) r, w') ∧
      log w' = log w ++ l ∧ irq w' = table (irq w) l ∧ hif_msi_tti w' = msi_after (hif_msi_tti w) l.

Lemma run_quiet es : ∀ h s, run_script h (quiet es ++ s) =
  (es ++ fst (run_script (h ++ es) s), snd (run_script (h ++ es) s)).
Proof.
  induction es as [|e es IH]; intros h s; cbn [quiet fmap list_fmap app run_script].
  - rewrite app_nil_r. by destruct (run_script h s).
  - change (list_fmap _ _ _ es) with (quiet es). rewrite IH, <- app_assoc. done.
Qed.

Lemma follows_block m es k s : emits m es → follows k s →
  follows (_ ← m; k) (λ en, quiet es ++ s en).
Proof.
  intros Hm Hk w. destruct (Hm w) as (w1 & H1 & Hl1 & Hi1 & He1 & Hh1). specialize (Hk w1).
  rewrite run_quiet, <- Hl1, <- He1. destruct (run_script (log w1) _) as [l r]. cbn [fst snd].
  destruct Hk as (w2 & H2 & Hl2 & Hi2 & Hh2). exists w2. rewrite M_bind_eq, H1, H2, Hl2, Hl1, Hi2, Hi1, Hh2, Hh1.
  by rewrite app_assoc, table_app, msi_app.
Qed.

(** A call that fails ends the sequence. *)
Lemma follows_call e stage i k s : (∀ r v, e ≠ Write r v) → follows k s →
  follows (rc ← call e; if decide (rc ≠ 0) then mret (rc, stage, i) else k) (λ en, (e, Some (stage, i)) :: s en).
Proof.
  intros He Hk w. cbn [run_script]. set (w1 := add_event e (lines e (irq w)) w).
  assert (Hc : call e w = Some (ret (log w) e, w1)) by done.
  assert (Hi : irq w1 = table (irq w) [e]) by (destruct e; try done; by destruct (He r v)).
  assert (Hh : msi_after (hif_msi_tti w) [e] = hif_msi_tti w) by (destruct e; try done; by destruct (He r v)).
  specialize (Hk w1). change (log w1) with (log w ++ [e]) in Hk. change (hsdcs_enable w1) with (hsdcs_enable w) in Hk.
  destruct (run_script (log w ++ [e]) _) as [l r]. case_decide as Hr.
  - exists w1. rewrite M_bind_eq, Hc. by rewrite decide_True.
  - destruct Hk as (w2 & H2 & Hl2 & Hi2 & Hh2). exists w2. rewrite M_bind_eq, Hc.
    rewrite (decide_False (P := ret (log w) e ≠ 0)) by (intros Hn; by apply Hn). rewrite H2, Hl2, Hi2, Hi, Hh2.
    change (hif_msi_tti w1) with (hif_msi_tti w). rewrite <- Hh at 1.
    by rewrite <- app_assoc, <- table_app, <- msi_app.
Qed.
Lemma follows_step e stage k s : (∀ r v, e ≠ Write r v) → follows k s →
  follows (step e stage k) (λ en, (e, Some (stage, O)) :: s en).
Proof. apply follows_call. Qed.

Lemma follows_probe_loop ds k s : (follows k (λ _, s)) → ∀ i,
  follows (probe_loop o i ds k) (λ en, subdriver_script o en i ds ++ s).
Proof.
  intros Hk. induction ds as [|d ds IH]; intros i; [exact Hk|]. intros w. cbn [subdriver_script probe_loop].
  set (w1 := set_hsdcs (snd (skips o (hsdcs_enable w) d)) w).
  assert (Hc : gul_warmup_subdrv_probe_check_fail o d w = Some (fst (skips o (hsdcs_enable w) d), w1)) by apply check_skips.
  assert (Hrest := IH (S i) w1).
  assert (Hcall := follows_call (Probe (name d)) GUL_SUBDRV_PROBE_STAGE i _ _ ltac:(done) (IH (S i)) w1).
  change (log w1) with (log w) in *. change (irq w1) with (irq w) in *.
  change (hif_msi_tti w1) with (hif_msi_tti w) in *.
  change (hsdcs_enable w1) with (snd (skips o (hsdcs_enable w) d)) in *.
  rewrite <- app_assoc, M_bind_eq, Hc.
  destruct (fst (skips o (hsdcs_enable w) d)), (probe d); cbn [negb andb app]; done.
Qed.

Lemma follows_end : follows (probe_end o b) (λ _, quiet (end_events o)).
Proof.
  assert (Hend : emits (_ ← writel "PCIE_ABSERR" 0x9401; _ ← call_ ModemReady; _ ← call_ ProbeComplete;
    _ ← (if warmup o then mret tt else call_ WarmupComplete); _ ← call_ PciDomain;
    (if decide (modem_share_buf_size o ≠ 0) then
       rc ← call ShareArea; if decide (rc ≠ 0) then mret tt else modify (set_share_addr share_phys)
     else modify (set_share_addr 0))) (end_events o)).
  { unfold end_events. apply emits_bind; [apply emits_writel|].
    do 2 (apply emits_bind; [by apply emits_call|]).
    apply emits_bind; [apply emits_if; [apply emits_ret|by apply emits_call]|].
    apply emits_bind; [by apply emits_call|]. destruct (decide _); [|by apply emits_modify].
    intros w. rewrite M_bind_eq. cbn [call]. destruct (decide (ret _ _ ≠ 0)); by eexists. }
  intros w. destruct (Hend w) as (w1 & H1 & Hl & Hi & _ & Hh).
  rewrite <- (app_nil_r (quiet _)), run_quiet. cbn [run_script fst snd default]. rewrite app_nil_r.
  exists w1. split; [|done]. unfold probe_end. revert H1. rewrite !M_bind_eq.
  repeat match goal with |- context [match ?m ?w with Some _ => _ | None => None end] =>
    rewrite ?M_bind_eq; destruct (m w) as [[[] ?]|]; [rewrite ?M_bind_eq|done] end.
  intros [= ->]. done.
Qed.

Lemma follows_eq k s s' : follows k s → (∀ en, s en = s' en) → follows k s'.
Proof. intros Hk Hs w. rewrite <- Hs. apply Hk. Qed.

Lemma quiet_app l l' : quiet (l ++ l') = quiet l ++ quiet l'.
Proof. apply fmap_app. Qed.

Lemma follows_hif : follows (probe_hif o b) (λ en,
  (InitHif, Some (GUL_HANDSHAKE_INIT_STAGE, O)) :: quiet (hif_events o b) ++
  (InitSysfs, Some (GUL_SYSFS_INIT_STAGE, O)) :: quiet [StatsInit] ++
  (RegisterEpStats, Some (GUL_SYSFS_INIT_STAGE, O)) :: quiet [OutboundMsi] ++
  subdriver_script o en 0 (sub_drvs_g b) ++ quiet (end_events o)).
Proof.
  unfold probe_hif. apply (follows_block _ []); [by apply emits_modify|]. apply follows_step; [done|].
  eapply follows_eq.
  - eapply follows_block; [apply emits_if; [|apply emits_ret]|].
    { eapply emits_bind; [apply emits_writel|]. eapply emits_bind; apply emits_writel. }
    do 2 (eapply follows_block; [apply emits_writel|]).
    eapply follows_block; [apply emits_if; [apply emits_writel|apply emits_ret]|].
    eapply follows_block; [apply emits_if; [apply emits_writel|apply emits_ret]|].
    eapply follows_block; [by apply emits_call|]. apply follows_step; [done|].
    eapply follows_block; [by apply emits_call|]. apply follows_step; [done|].
    eapply follows_block; [by apply emits_call|]. apply follows_probe_loop, follows_end.
  - intros en. cbn beta. unfold hif_events. rewrite !quiet_app, <- !app_assoc. done.
Qed.

Lemma follows_bring_up : follows (gul_base_bring_up o b) (probe_script o b).
Proof.
  unfold gul_base_bring_up, probe_script. apply follows_step; [done|].
  eapply follows_block; [by apply emits_call|]. apply (follows_block _ []); [by apply emits_modify|].
  do 3 (apply follows_step; [done|]). apply follows_hif.
Qed.

(** The stage and the index of a failure are those of a step. *)
Lemma run_script_failure s : ∀ h l rc stage i, run_script h s = (l, Some (rc, stage, i)) →
  rc ≠ 0 ∧ ∃ e, (e, Some (stage, i)) ∈ s.
Proof.
  induction s as [|[e f] s IH]; intros h l rc stage i; cbn [run_script]; [done|].
  destruct (run_script (h ++ [e]) s) as [l1 r1] eqn:Hr. intros Heq.
  assert (Hrest : r1 = Some (rc, stage, i) → rc ≠ 0 ∧ ∃ e0, (e0, Some (stage, i)) ∈ (e, f) :: s).
  { intros ->. destruct (IH _ _ _ _ _ Hr) as (Hrc & e0 & He). split; [done|]. exists e0. by right. }
  destruct f as [[st j]|]; [|injection Heq as _ ->; by apply Hrest]. case_decide as Hrc.
  - injection Heq as _ <- <- <-. split; [done|]. exists e. by left.
  - injection Heq as _ ->. by apply Hrest.
Qed.

Lemma subdriver_script_index ds : ∀ en i e stage j, (e, Some (stage, j)) ∈ subdriver_script o en i ds →
  (j < i + length ds)%nat.
Proof.
  induction ds as [|d ds IH]; intros en i e stage j; cbn [subdriver_script length]; [by intros ?%elem_of_nil|].
  rewrite elem_of_app. intros [Hin|Hin]; [|apply IH in Hin; lia].
  destruct (_ && _); [|by apply elem_of_nil in Hin]. apply list_elem_of_singleton in Hin. injection Hin as _ _ ->. lia.
Qed.

Lemma quiet_no_fail l e st j : (e, Some (st, j)) ∉ quiet l.
Proof. unfold quiet. intros (x & Hx & _)%list_elem_of_fmap. done. Qed.

Lemma sub_drvs_ne : (0 < length (sub_drvs_g b))%nat.
Proof. unfold sub_drvs_g. rewrite !length_app. cbn. lia. Qed.

Lemma probe_script_index en e stage j : (e, Some (stage, j)) ∈ probe_script o b en →
  (j < length (sub_drvs_g b))%nat.
Proof.
  assert (H0 := sub_drvs_ne). unfold probe_script.
  repeat first [rewrite elem_of_cons | rewrite elem_of_app]. intros Hin.
  repeat (destruct Hin as [Hin|Hin]; [first [by apply quiet_no_fail in Hin | injection Hin as _ _ ->; lia |
    apply subdriver_script_index in Hin; lia]|]).
  by apply quiet_no_fail in Hin.
Qed.

(** ** Taking down *)
Lemma emits_removed i : (i < length (sub_drvs_g b))%nat →
  emits (cleanup_loop o b i) (removed o (reverse (take (S i) (sub_drvs_g b)))).
Proof.
  induction i as [|i IH]; intros Hi; cbn [cleanup_loop].
  all: match goal with |- context [sub_drvs_g b !! ?k] =>
    destruct (lookup_lt_is_Some_2 (sub_drvs_g b) k Hi) as [d Hd]; rewrite Hd end.
  all: rewrite (take_S_r _ _ d Hd), reverse_snoc; unfold removed; rewrite filter_cons.
  all: intros w; rewrite M_bind_eq; cbn [lift]; revert w.
  all: assert (Hone : emits (if gul_subdrv_check_fail o d then mret tt
         else if remove d then call_ (Remove (name d)) else mret tt)
         (if decide (gul_subdrv_check_fail o d = false ∧ remove d = true) then [Remove (name d)] else []))
    by (destruct (gul_subdrv_check_fail o d), (remove d); case_decide; try naive_solver;
        first [apply emits_ret | by apply emits_call]).
  - intros w. destruct (Hone w) as (w1 & H1 & Hl1). exists w1. rewrite M_bind_eq, H1.
    split; [done|]. case_decide; done.
  - assert (Hb := emits_bind _ _ _ _ Hone (IH ltac:(lia))).
    intros w. destruct (Hb w) as (w1 & H1 & Hl1). exists w1. split; [exact H1|].
    case_decide; done.
Qed.

End Runs.

(** ** Releasing the lines *)
Section Lines.
Context `{BaseCalls} (o : opts) (b : build).

Lemma free_lines_lookup keep t : ∀ i j, fst (free_lines keep i t) !! j =
  (λ e, if decide (free e = GUL_MSI_IRQ_BUSY ∧ i + Z.of_nat j ≠ keep) then set_free GUL_MSI_IRQ_FREE e else e) <$> t !! j.
Proof.
  induction t as [|e t IH]; intros i j; [done|]. cbn [free_lines].
  specialize (IH (i + 1)). destruct (free_lines keep (i + 1) t) as [t' l]. cbn [fst] in IH.
  destruct j as [|j].
  - change (Z.of_nat 0) with 0. rewrite Z.add_0_r. cbn [lookup list_lookup fmap option_fmap option_map].
    by case_decide.
  - replace (i + Z.of_nat (S j)) with (i + 1 + Z.of_nat j) by lia. rewrite <- IH. by case_decide.
Qed.

Lemma free_lines_events keep t : snd (free_lines keep 0 t) = freed keep t.
Proof.
  assert (Hg : ∀ i, snd (free_lines keep i t) =
    concat (imap (λ j e, if decide (free e = GUL_MSI_IRQ_BUSY ∧ i + Z.of_nat j ≠ keep)
                         then [FreeIrq (irq_val e)] else []) t)).
  { induction t as [|e t IH]; intros i; [done|]. cbn [free_lines imap concat].
    specialize (IH (i + 1)). destruct (free_lines keep (i + 1) t) as [t' l]. cbn [snd] in IH.
    change (Z.of_nat 0) with 0. rewrite Z.add_0_r. rewrite (imap_ext _ (λ j e, if decide (free e = GUL_MSI_IRQ_BUSY ∧ i + 1 + Z.of_nat j ≠ keep)
      then [FreeIrq (irq_val e)] else [])).
    - rewrite <- IH. by case_decide.
    - intros j e' _. cbn. by replace (i + Z.of_nat (S j)) with (i + 1 + Z.of_nat j) by lia. }
  apply Hg.
Qed.

Lemma release_emits keep w : release_lines keep w =
  Some (tt, Base (log w ++ freed keep (irq w)) (fst (free_lines keep 0 (irq w)))
              (hsdcs_enable w) (e200_load_status w) (share_buf_size w) (share_buf_phys_addr w) (hif_msi_tti w)).
Proof. unfold release_lines, modify. rewrite <- free_lines_events. by destruct (free_lines keep 0 (irq w)). Qed.

Lemma emits_undo_scratch : emits deinit_scratch undo_scratch.
Proof. do 3 (apply (emits_bind _ [_]); [by apply emits_call|]). by apply emits_call. Qed.
Lemma emits_undo_sysfs : emits deinit_sysfs ([StatsExit; RemoveSysfs] ++ undo_scratch).
Proof. do 2 (apply (emits_bind _ [_]); [by apply emits_call|]). apply emits_undo_scratch. Qed.

(** Calls that leave the lines alone: all but those of the sub-drivers and of TTI. *)
Definition quiet_calls : Prop :=
  ∀ e t, e ∈ [ModinfoExit; Memunmap; RemoveSysfs; FreeDma; StatsExit; TtiStop] → lines e t = t.

Lemma deinit_undo stage i w : (i < length (sub_drvs_g b))%nat →
  ∃ w', gul_base_deinit o b stage i w = Some (tt, w') ∧ log w' = log w ++ undo o b stage i (irq w) ∧
    (quiet_calls → stage = GUL_SUBDRV_PROBE_STAGE → Forall (λ e, free e ≠ GUL_MSI_IRQ_BUSY) (irq w')).
Proof.
  intros Hi. destruct stage; cbn [gul_base_deinit undo].
  1: { assert (Hd : emits deinit_dma [FreeDma]) by by apply emits_call. destruct (Hd w) as (w1 & H1 & Hl & _). by exists w1. }
  1, 3, 4: destruct (emits_undo_scratch w) as (w1 & H1 & Hl & _); by exists w1.
  1: destruct (emits_undo_sysfs w) as (w1 & H1 & Hl & _); by exists w1.
  destruct (emits_removed o b i Hi w) as (w1 & H1 & Hl1 & Hi1 & _).
  set (w2 := Base (log w1 ++ freed (-1) (irq w1)) (fst (free_lines (-1) 0 (irq w1)))
    (hsdcs_enable w1) (e200_load_status w1) (share_buf_size w1) (share_buf_phys_addr w1) (hif_msi_tti w1)).
  destruct (emits_undo_sysfs w2) as (w3 & H3 & Hl3 & Hi3 & _). exists w3.
  rewrite M_bind_eq. unfold gul_base_cleanup_subdrv. rewrite H1, M_bind_eq, release_emits. fold w2.
  split; [exact H3|]. rewrite Hl3, Hi3. cbn [w2 log irq]. rewrite Hl1, <- Hi1, <- !app_assoc. split; [done|].
  intros Hq _. assert (Hid : ∀ t, table t ([StatsExit; RemoveSysfs] ++ undo_scratch) = t).
  { intros t. cbn [app undo_scratch table foldl event_lines]. by rewrite !Hq by set_solver. }
  rewrite Hid. apply Forall_lookup. intros j e. rewrite free_lines_lookup.
  destruct (irq w1 !! j) as [e0|]; [|done]. intros [= <-]. case_decide as Hb; [done|]. intros Hf. apply Hb. lia.
Qed.

End Lines.

(** ** Claims *)

(** C30: probing a modem runs the steps of the table in order, the enabled
    sub-drivers last, and stops at the first that fails; then exactly the stage
    reached is undone: from the scratch memory on, from the sysfs files on, or
    from the sub-drivers on, and the failure is returned. *)
Theorem probe_is_ladder `{BaseCalls} (o : opts) (b : build) (w : base) :
  let '(l, r) := run_script (log w) (probe_script o b (hsdcs_enable w)) in
  ∃ w', gul_base_probe o b w = Some (match r with Some (rc, _, _) => rc | None => 0 end, w') ∧
    log w' = log w ++ l ++
      match r with Some (_, stage, i) => undo o b stage i (table (irq w) l) | None => [] end.
Proof.
  assert (Hf := follows_bring_up o b w).
  destruct (run_script (log w) (probe_script o b (hsdcs_enable w))) as [l r] eqn:Hr.
  destruct Hf as (w1 & H1 & Hl & Hi & _). unfold gul_base_probe. rewrite M_bind_eq, H1.
  destruct r as [[[rc stage] i]|]; cbn [default from_option id].
  - apply run_script_failure in Hr as (Hrc & e & He). apply probe_script_index in He.
    destruct (deinit_undo o b stage i w1 He) as (w2 & H2 & Hl2 & _). exists w2.
    rewrite M_bind_eq. rewrite decide_True by done. rewrite H2. split; [done|]. by rewrite Hl2, Hl, Hi, app_assoc.
  - exists w1. split; [done|]. by rewrite app_nil_r.
Qed.

Section Removal.
Context `{BaseCalls} (o : opts) (b : build).

Lemma emits_remove_loop ds : emits (remove_loop o ds) (removed o ds).
Proof.
  unfold removed. induction ds as [|d ds IH]; [apply emits_ret|]. cbn [remove_loop]. rewrite filter_cons.
  assert (Hb := λ m l Hm, emits_bind m l _ _ Hm IH).
  destruct (gul_subdrv_check_fail o d), (remove d); case_decide; try naive_solver;
    first [exact (Hb _ _ emits_ret) | apply (Hb _ [_]); by apply emits_call].
Qed.

Lemma put_msi_not_busy i t j e : i = Z.of_nat j → gul_dev_put_msi i t !! j = Some e → free e ≠ GUL_MSI_IRQ_BUSY.
Proof.
  intros ->. unfold gul_dev_put_msi. destruct (t !! Z.to_nat (Z.of_nat j)) as [e0|] eqn:Ht; rewrite Nat2Z.id in Ht.
  - apply lookup_lt_Some in Ht as Hlt. rewrite decide_True by (unfold zlen; lia). rewrite Nat2Z.id. case_decide as Hb.
    + rewrite list_lookup_insert_eq by done. by intros [= <-].
    + rewrite Ht. by intros [= <-].
  - case_decide; rewrite Ht; done.
Qed.
End Removal.

(** A script that fails nowhere runs all its steps. *)
Lemma run_script_all `{BaseCalls} s : ∀ h l, run_script h s = (l, None) → l = fst <$> s.
Proof.
  induction s as [|[e f] s IH]; intros h l; cbn [run_script]; [by intros [= <-]|].
  destruct (run_script (h ++ [e]) s) as [l1 r1] eqn:Hr. intros Heq.
  assert (Hcase : e :: l1 = l ∧ r1 = None)
    by (destruct f as [[st k]|]; [case_decide; [done|]|]; by simplify_eq).
  destruct Hcase as [<- ->]. cbn. f_equal. by apply IH with (h ++ [e]).
Qed.

(** Of the steps of the probe only the one for TTI writes the word. *)
Lemma probe_script_msi `{BaseCalls} (o : opts) (b : build) en m :
  msi_after m (fst <$> probe_script o b en) = if disable_sideband o then u32 tti_msi_index else m.
Proof.
  assert (Hquiet : ∀ l, fst <$> quiet l = l)
    by (intros l; unfold quiet; rewrite <- list_fmap_compose; apply list_fmap_id).
  assert (Hsub : ∀ ds en i m, msi_after m (fst <$> subdriver_script o en i ds) = m).
  { induction ds as [|d ds IH]; intros en' i m'; [done|]. cbn [subdriver_script].
    rewrite fmap_app, msi_app, IH. by destruct (_ && _). }
  assert (Hother : ∀ e l m', (∀ v, e ≠ Write "msi_tti" v) → msi_after m' (e :: l) = msi_after m' l).
  { intros e l m' He. unfold msi_after. cbn [foldl]. f_equal. destruct e; try done. cbn [event_msi].
    rewrite decide_False; [done|]. intros ->. by eapply He. }
  assert (Htti : ∀ v l m', msi_after m' (Write "msi_tti" v :: l) = msi_after v l) by done.
  unfold probe_script. repeat first [rewrite fmap_cons | rewrite fmap_app]. rewrite !Hquiet.
  unfold hif_events, end_events.
  destruct (warmup o), (disable_sideband o), (LA1224 b), (decide (modem_share_buf_size o ≠ 0)); cbn [app fst];
    repeat first [rewrite Htti | rewrite Hother by done | rewrite msi_app | rewrite Hsub]; done.
Qed.

Lemma removed_msi `{BaseCalls} (o : opts) ds m : msi_after m (removed o ds) = m.
Proof. unfold removed. induction (filter _ ds) as [|d l IH]; [done|]. exact IH. Qed.

(** C32: Removing a modem. (1) A successful probe leaves the word of the host interface
    that names the TTI line as the index of that line if disable_sideband is set, and as
    the memory held it otherwise. (2) Provided the calls other than those of the
    sub-drivers leave the table of lines alone (and, with disable_sideband, the word is
    an index), the removal returns 0 after it unmapped the scratch memory, took down
    every enabled sub-driver in the order of the table, asked the kernel to free exactly
    the lines still busy, except the one the word names, and gave back the rest;
    afterwards no line is busy, except, without disable_sideband, the line the word
    happens to name, if it was busy, whoever holds it (finding gul_base.c:1520). *)
Theorem remove_releases `{BaseCalls} (o : opts) (b : build) :
  quiet_calls →
  (∀ w w', gul_base_probe o b w = Some (0, w') →
     hif_msi_tti w' = if disable_sideband o then u32 tti_msi_index else hif_msi_tti w) ∧
  (∀ w, let m := hif_msi_tti w in
     (disable_sideband o = true → 0 ≤ m < 2147483648) →
     let t0 := table (irq w) ([ModinfoExit; Memunmap] ++ removed o (sub_drvs_g b)) in
     let t := if disable_sideband o then gul_dev_put_msi m t0 else t0 in
     ∃ w', gul_base_remove o b w = Some (0, w') ∧ e200_load_status w' = false ∧
       log w' = log w ++ ([ModinfoExit; Memunmap] ++ removed o (sub_drvs_g b)) ++ freed m t ++
                [RemoveSysfs; FreeDma; StatsExit; TtiStop] ∧
       (∀ j e, irq w' !! j = Some e ∧ free e = GUL_MSI_IRQ_BUSY ↔
               disable_sideband o = false ∧ Z.of_nat j = m ∧ t0 !! j = Some e ∧ free e = GUL_MSI_IRQ_BUSY)).
Proof.
  intros Hq. split.
  { intros w w' Hrun. assert (Hf := follows_bring_up o b w).
    destruct (run_script (log w) (probe_script o b (hsdcs_enable w))) as [l r] eqn:Hr.
    destruct Hf as (w1 & H1 & _ & _ & Hh). unfold gul_base_probe in Hrun. rewrite M_bind_eq, H1 in Hrun.
    destruct r as [[[rc stage] i]|]; cbn [default from_option id] in Hrun.
    - exfalso. apply run_script_failure in Hr as (Hrc & _). rewrite M_bind_eq in Hrun.
      destruct (_ : option (unit * base)) as [[]|] in Hrun; [|done]. by injection Hrun.
    - cbn in Hrun. injection Hrun as <-. apply run_script_all in Hr as ->. by rewrite Hh, probe_script_msi. }
  intros w m Hm t0 t. unfold gul_base_remove, gul_subdrv_remove.
  assert (Hfront : emits (_ ← call_ ModinfoExit; _ ← call_ Memunmap; remove_loop o (sub_drvs_g b))
    ([ModinfoExit; Memunmap] ++ removed o (sub_drvs_g b))).
  { do 2 (apply (emits_bind _ [_]); [by apply emits_call|]). apply emits_remove_loop. }
  assert (Hback : emits (_ ← call_ RemoveSysfs; _ ← call_ FreeDma; _ ← call_ StatsExit; call_ TtiStop)
    [RemoveSysfs; FreeDma; StatsExit; TtiStop]).
  { do 3 (apply (emits_bind _ [_]); [by apply emits_call|]). by apply emits_call. }
  destruct (Hfront w) as (w1 & H1 & Hl1 & Hi1 & _ & Hh1). fold t0 in Hi1.
  assert (Hm1 : hif_msi_tti w1 = m).
  { rewrite Hh1, msi_app. change (msi_after _ [ModinfoExit; Memunmap]) with m. apply removed_msi. }
  set (w2 := set_irq t w1).
  assert (Hput : (if disable_sideband o then modify (λ w, set_irq (gul_dev_put_msi (i32 m) (irq w)) w)
    else mret tt) w1 = Some (tt, w2)).
  { unfold w2, t. rewrite <- Hi1. destruct (disable_sideband o); [|by destruct w1].
    by replace (i32 m) with m by (unfold i32; rewrite Z.mod_small; lia). }
  set (w3 := Base (log w2 ++ freed m (irq w2)) (fst (free_lines m 0 (irq w2)))
    (hsdcs_enable w2) (e200_load_status w2) (share_buf_size w2) (share_buf_phys_addr w2) (hif_msi_tti w2)).
  assert (H3 : release_lines m w2 = Some (tt, w3)) by apply release_emits.
  destruct (Hback w3) as (w4 & H4 & Hl4 & Hi4 & _). exists (set_e200 false w4).
  split; [|split; [done|split]].
  - revert H1 H4. rewrite !M_bind_eq. destruct (call_ ModinfoExit w) as [[? wa]|]; [|done].
    rewrite !M_bind_eq. destruct (call_ Memunmap wa) as [[? wb]|]; [|done]. intros H1. rewrite M_bind_eq, H1.
    rewrite M_bind_eq. cbn [gets]. rewrite Hm1. rewrite M_bind_eq, Hput, M_bind_eq, H3. rewrite !M_bind_eq.
    destruct (call_ RemoveSysfs w3) as [[? wc]|]; [|done]. rewrite !M_bind_eq.
    destruct (call_ FreeDma wc) as [[? wd]|]; [|done]. rewrite !M_bind_eq.
    destruct (call_ StatsExit wd) as [[? we]|]; [|done]. intros H4. by rewrite M_bind_eq, H4.
  - change (log (set_e200 false w4)) with (log w4). rewrite Hl4. cbn [w3 w2 log irq set_irq].
    by rewrite Hl1, <- !app_assoc.
  - change (irq (set_e200 false w4)) with (irq w4). rewrite Hi4.
    assert (Hid : ∀ t, table t [RemoveSysfs; FreeDma; StatsExit; TtiStop] = t).
    { intros t'. cbn [table foldl event_lines]. by rewrite !Hq by set_solver. }
    rewrite Hid. intros j e. cbn [w3 w2 irq set_irq]. rewrite free_lines_lookup. unfold t. split.
    + destruct (_ !! j) as [e0|] eqn:Ht; [|by intros [? _]]. cbn [fmap option_fmap option_map].
      intros [[= Hu] Hb]. destruct (decide (free e0 = GUL_MSI_IRQ_BUSY ∧ 0 + Z.of_nat j ≠ m)) as [Hc|Hc]; [by subst e|].
      subst e0. assert (Hj : Z.of_nat j = m) by (destruct (decide (Z.of_nat j = m)); [done|]; exfalso; apply Hc; split; [done|lia]).
      destruct (disable_sideband o); [|done]. exfalso. rewrite <- Hj in Ht. by apply (put_msi_not_busy _ t0 j) in Ht.
    + intros (Hd & Hj & Ht & Hb). rewrite Hd, Ht. cbn [fmap option_fmap option_map]. rewrite decide_False; [done|]. intros [_ Hn]. lia.
Qed.

(** on a board past revision B with a chip of revision B the converters are
    probed exactly when the fuses are unreadable, or the chip has the low-speed
    ones, or it has the high-speed ones and they are enabled; where [char] is
    unsigned the switch of the high-speed converters stays on for a chip that
    has none. *)
Theorem dcs_policy `{BaseCalls} (o : opts) (d : gul_sub_driver) (w : base) :
  warmup o = false → type d = GUL_SUBDRV_TYPE_DCS →
  board_rev o ≠ "A"%char → board_rev o ≠ "B"%char → soc_is_revb o = true →
  ∃ skip en, gul_warmup_subdrv_probe_check_fail o d w = Some (skip, set_hsdcs en w) ∧
    (skip = false ↔ get_fuse_val (fuse_reg o) = FUSE_INVALID ∨ ls_capable o = true ∨
                    (hsdcs_enable w = 1 ∧ hs_capable o = true)) ∧
    (en ≠ hsdcs_enable w ↔ get_fuse_val (fuse_reg o) ≠ FUSE_INVALID ∧ hsdcs_enable w = 1 ∧
                           hs_capable o = false ∧ char_unsigned o = false).
Proof.
  intros Hw Hd Ha Hb Hr. rewrite check_skips. unfold skips. rewrite Hw, !decide_True by done. unfold dcs_skips.
  eexists _, _. split; [reflexivity|]. case_decide as Hi; cbn [fst snd]; [tauto|].
  destruct (hs_capable o), (ls_capable o), (char_unsigned o), (decide (hsdcs_enable w = 1)) as [He|He];
    rewrite ?(bool_decide_true _ He), ?(bool_decide_false _ He); cbn [andb orb negb]; naive_solver lia.
Qed.

(** ** A module with two busy lines *)
#[local] Instance demo_calls : BaseCalls := {|
  ret h e := if decide (e = Probe "CLI"%string) then -5 else 0;
  lines e t := match e with Probe "IPC" => <[1%nat := Irq 41 1 GUL_MSI_IRQ_BUSY 0]> t | _ => t end;
  tti_msi_index := 0; share_phys := 0 |}.
Definition demo_opts : opts :=
  Opts false 0 0 0 false false false false false 0 0 "C" false true 0x6000 true.
Definition demo_build : build := Build true false false false false false.
Definition demo_base : base :=
  Base [] [Irq 40 0 GUL_MSI_IRQ_BUSY 0; Irq 41 1 GUL_MSI_IRQ_BUSY 0; Irq 42 2 GUL_MSI_IRQ_FREE 0] 1 true 0 0 0.

(** The probe fails in the sixth sub-driver: the lines are released and all that
    have a removal are taken down, the failing one included. *)
Example demo_probe_fails :
  (λ r, (fst <$> r, drop 18 <$> (log ∘ snd <$> r))) (gul_base_probe demo_opts demo_build demo_base) =
  (Some (-5), Some [Probe "CLI"; Remove "CLI"; Remove "IPC"; Remove "VSPA"; Remove "DCS_HS"; Remove "TVD";
     FreeIrq 40; FreeIrq 41; StatsExit; RemoveSysfs; ModinfoExit; Memunmap; TtiStop; FreeDma]).
Proof. vm_compute. reflexivity. Qed.

Lemma remove_releases_witness :
  ∃ w', gul_base_remove demo_opts demo_build demo_base = Some (0, w') ∧ e200_load_status w' = false ∧
    log w' = [ModinfoExit; Memunmap; Remove "TVD"; Remove "DCS_HS"; Remove "VSPA"; Remove "IPC"; Remove "CLI";
              FreeIrq 41; RemoveSysfs; FreeDma; StatsExit; TtiStop] ∧
    (∀ j e, irq w' !! j = Some e ∧ free e = GUL_MSI_IRQ_BUSY ↔
            false = false ∧ Z.of_nat j = 0 ∧ irq demo_base !! j = Some e ∧ free e = GUL_MSI_IRQ_BUSY).
Proof.
  refine (proj2 (remove_releases demo_opts demo_build _) demo_base _).
  - intros e t He. repeat (apply elem_of_cons in He as [->|He]; [reflexivity|]). by apply elem_of_nil in He.
  - discriminate.
Defined.

Lemma dcs_policy_witness :
  ∃ skip en, gul_warmup_subdrv_probe_check_fail demo_opts (SubDriver "DCS_HS" GUL_SUBDRV_TYPE_DCS true true true true)
      demo_base = Some (skip, set_hsdcs en demo_base) ∧
    (skip = false ↔ get_fuse_val 0x6000 = FUSE_INVALID ∨ ls_capable demo_opts = true ∨
                    (1 = 1 ∧ hs_capable demo_opts = true)) ∧
    (en ≠ 1 ↔ get_fuse_val 0x6000 ≠ FUSE_INVALID ∧ 1 = 1 ∧ hs_capable demo_opts = false ∧ true = false).
Proof.
  apply (dcs_policy demo_opts (SubDriver "DCS_HS" GUL_SUBDRV_TYPE_DCS true true true true) demo_base);
    (reflexivity || discriminate).
Defined.
