(* ===== verification/GulHif.v ===== *)
(** * The host interface, the message window and the board (kernel_driver/yami/gul_base.c)

    What the host writes into the structure it shares with the modem when the modem is
    up, the window of the modem's messages, the board's revision and the reset of the
    JTAG port.  The layout of the structure and the numbers of the interface come from a
    header outside this repository: [HifIf]. *)
From S2P Require Import Prelude GulMsi GulScratch GulTti GulBase.
From Stdlib Require Import Ascii.
From stdpp Require Import strings.
#[global] Open Scope Z_scope.

(** [SET_HIF_HOST_RDY] makes the next word of the host from the last one. *)
Class HifIf := {
  sizeof_hif : Z; hif_version : Z;
  HIF_HOST_READY_HOST_REGIONS : Z; HIF_HOST_DISABLE_TBGEN2 : Z;
  SET_HIF_HOST_RDY : Z → Z → Z; SPLIT_VA32_L : Z → Z; SPLIT_VA32_H : Z → Z;
  GUL_USER_HUGE_PAGE_ADDR : Z; GUL_EP_TOHOST_MSI_PHY_ADDR : Z; GUL_EP_TO_HOST_MSI_SIZE : Z;
  GUL_OB_WIN_MSI : Z; MSI_IRQ_COUNT : nat }.

(** What the driver relies on: an address is its two words, and a bit set stays set. *)
Class HifLaws `{HifIf} := {
  split_whole x : 0 ≤ x < 2 ^ 64 → SPLIT_VA32_H x * 2 ^ 32 + SPLIT_VA32_L x = x;
  rdy_keeps w b : Z.land w (SET_HIF_HOST_RDY w b) = w }.

Inductive host_mem := HOST_MEM_SCRATCH_BUF | HOST_MEM_HUGE_PAGE_BUF.
#[export] Instance host_mem_eq : EqDecision host_mem.
Proof. solve_decision. Defined.

(** A region as announced, and the words of the structure that the host writes. *)
Record host_mem_region := HostMem { mod_phys_l : Z; mod_phys_h : Z; size_l : Z }.
Record gul_hif := Hif {
  hif_ver : Z; status : Z; host_ready : Z; host_regions : host_mem → host_mem_region;
  modem_share_area_size : Z; hif_host_data_size : Z; hif_rf_data_size : Z;
  spi_access_disabled : Z; msi_regs : list (Z * Z) }.

Definition set_hif_status (v : Z) (h : gul_hif) : gul_hif :=
  Hif (hif_ver h) v (host_ready h) (host_regions h) (modem_share_area_size h) (hif_host_data_size h)
    (hif_rf_data_size h) (spi_access_disabled h) (msi_regs h).
Definition set_ready (v : Z) (h : gul_hif) : gul_hif :=
  Hif (hif_ver h) (status h) v (host_regions h) (modem_share_area_size h) (hif_host_data_size h)
    (hif_rf_data_size h) (spi_access_disabled h) (msi_regs h).
Definition set_region (k : host_mem) (r : host_mem_region) (h : gul_hif) : gul_hif :=
  Hif (hif_ver h) (status h) (host_ready h) (λ j, if decide (j = k) then r else host_regions h j)
    (modem_share_area_size h) (hif_host_data_size h) (hif_rf_data_size h) (spi_access_disabled h) (msi_regs h).
Definition set_sizes (share host rf : Z) (h : gul_hif) : gul_hif :=
  Hif (hif_ver h) (status h) (host_ready h) (host_regions h) share host rf (spi_access_disabled h) (msi_regs h).
Definition set_spi (v : Z) (h : gul_hif) : gul_hif :=
  Hif (hif_ver h) (status h) (host_ready h) (host_regions h) (modem_share_area_size h) (hif_host_data_size h)
    (hif_rf_data_size h) v (msi_regs h).
Definition set_msi_regs (l : list (Z * Z)) (h : gul_hif) : gul_hif :=
  Hif (hif_ver h) (status h) (host_ready h) (host_regions h) (modem_share_area_size h) (hif_host_data_size h)
    (hif_rf_data_size h) (spi_access_disabled h) l.

Section Hif.
Context `{HifIf, HostIf}.

(** ** Bringing the interface up *)

Definition gul_set_host_ready (set_bit : Z) (h : gul_hif) : gul_hif :=
  set_ready (SET_HIF_HOST_RDY (host_ready h) set_bit) h.

(** The status word is written whether the versions agree or not. *)
Definition gul_verify_hif_compatibility (h : gul_hif) : Z * gul_hif :=
  let h' := set_hif_status 0xcafebabe h in
  (if decide (hif_ver h = hif_version) then 0 else - EINVAL, h').

(** What the devices' table holds of this modem, and the parameters of the module. *)
Record hif_opts := HifOpts {
  g_scratch_buf_size : Z; g_share_buf_size : Z; o_host_data_size : Z; o_rf_data_size : Z;
  tbgen2_disable : bool; o_rfic_disable : bool; hif_size : Z }.

Definition region_words (addr size : Z) : host_mem_region :=
  HostMem (SPLIT_VA32_L addr) (SPLIT_VA32_H addr) (u32 size).

Definition hif_init_region_addrs (o : hif_opts) (a : scratch_allocator) (h : gul_hif) : gul_hif :=
  let h := set_region HOST_MEM_SCRATCH_BUF (region_words (mod_phys a) (g_scratch_buf_size o)) h in
  let h := set_sizes (u32 (g_share_buf_size o)) (u32 (o_host_data_size o)) (u32 (o_rf_data_size o)) h in
  let h := set_region HOST_MEM_HUGE_PAGE_BUF
             (region_words GUL_USER_HUGE_PAGE_ADDR (mod_phys a - GUL_USER_HUGE_PAGE_ADDR)) h in
  let h := gul_set_host_ready HIF_HOST_READY_HOST_REGIONS h in
  if tbgen2_disable o then gul_set_host_ready HIF_HOST_DISABLE_TBGEN2 h else h.

Definition gul_init_hif (o : hif_opts) (a : scratch_allocator) (h : gul_hif) : Z * gul_hif :=
  if decide (sizeof_hif ≠ hif_size o) then (- EINVAL, h) else
  let '(rc, h) := gul_verify_hif_compatibility h in
  if decide (rc ≠ 0) then (rc, h) else
  let h := hif_init_region_addrs o a h in
  (0, if o_rfic_disable o then set_spi 1 h else h).

(** ** The window of the scratch memory *)
Definition gul_scratch_outbound_create `{ScratchIf} (a : scratch_allocator) : Z * list (reg * Z) :=
  (0, ls_pcie_iatu_outbound_set GUL_OB_WIN_SCRATCH_BUF PCIE_ATU_TYPE_MEM (mod_phys a) (host_phys a) (scr_size a)).

(** ** The window of the modem's messages *)

(** The values of the lines from [val] on, in an unsigned word. *)
Fixpoint msi_table (n : nat) (off val : Z) : list (Z * Z) :=
  match n with O => [] | S n => (off, val) :: msi_table n off (u32 (val + 1)) end.

(** The address and the data are those the kernel gave the device, as read from its
    configuration: low and high word, and the data. *)
Definition gul_create_outbound_msi (addr_l addr_h msi_val : Z) (h : gul_hif) : list (reg * Z) * gul_hif :=
  let msg_addr := Z.lor addr_l (Z.shiftl addr_h 32) in
  (ls_pcie_iatu_outbound_set GUL_OB_WIN_MSI PCIE_ATU_TYPE_MEM GUL_EP_TOHOST_MSI_PHY_ADDR msg_addr GUL_EP_TO_HOST_MSI_SIZE,
   set_msi_regs (msi_table MSI_IRQ_COUNT (u32 (GUL_EP_TOHOST_MSI_PHY_ADDR - GUL_USER_HUGE_PAGE_ADDR)) msi_val) h).

End Hif.

(** ** The buffer for transfers *)

(** [GUL_SUBDRV_DMA_REGION_IDX]: the number of the region after those of the BARs. *)
Definition GUL_MEM_REGION_BAR_END : Z := 4.
Definition GUL_DMA_REGIONS : nat := 5.
Definition GUL_SUBDRV_DMA_REGION_IDX (type : Z) : Z := type - GUL_MEM_REGION_BAR_END - 1.
Record dma_info := Dma { host_buf : mem_region; ep_pcie_addr : Z; ep_bufs : list mem_region }.
Definition no_dma : dma_info := Dma no_region 0 (replicate GUL_DMA_REGIONS no_region).

Definition gul_get_scratch_region (s : scratch) (id : scratch_id) : mem_region := regions s id.
(** [None] is a place outside the array. *)
Definition gul_get_dma_region (type : Z) (d : dma_info) : option mem_region :=
  let idx := GUL_SUBDRV_DMA_REGION_IDX type in
  if decide (0 ≤ idx) then ep_bufs d !! Z.to_nat idx else None.
(** What is given back to the kernel, and the structure after it. *)
Definition gul_free_dma_buf (d : dma_info) : Z * list mem_region * dma_info :=
  if decide (vaddr (host_buf d) ≠ 0) then (0, [host_buf d], no_dma) else (0, [], d).

(** ** The board *)

(** The last character; an empty string has none. *)
Definition last_char (s : string) : option ascii := String.get (String.length s - 1) s.

(** The model in the device tree: the root node may be missing, or have no model.  The
    name is kept from the first call on; [None] is a read before the string. *)
Definition gul_get_host_board_rev (disable_sideband : bool) (root : option (option string)) (ver : option string)
  : option (ascii * option string) :=
  if disable_sideband then Some ("F"%char, ver) else
  match ver with
  | Some s => c ← last_char s; Some (c, ver)
  | None =>
      let s := default "Unknown"%string (mjoin root) in
      if decide (s = "Unknown"%string) then Some ("U"%char, Some s)
      else c ← last_char s; Some (c, Some s)
  end.

(** ** The reset of the JTAG port *)

(** What is done to the pin, and to the counts of the nodes of the device tree. *)
Inductive errata_op :=
  | ModemGet | ModemPut | NodeGet | NodePut
  | Request (g : Z) | Output (g v : Z) | SetValue (g v : Z) | Delay (ms : Z) | Input (g : Z) | FreePin (g : Z).
#[export] Instance errata_op_eq : EqDecision errata_op.
Proof. solve_decision. Defined.

(** The device tree and the answers for the pin. *)
Record errata_env := ErrataEnv {
  dn_modem : bool; errata_node : bool; errata_gpio : Z; pin_valid : bool;
  r_request : Z; r_output : Z; r_input : Z }.

(** One round of the loop. *)
Definition pulse (g : Z) : list errata_op := [SetValue g 0; Delay 10; SetValue g 1; Delay 10].

(** [of_find_node_by_name] gives the reference of the node it starts at back. *)
Definition gul_errata_a010867 (e : errata_env) : Z * list errata_op :=
  let start := if dn_modem e then [ModemGet; ModemPut] else [] in
  if negb (errata_node e) then (- GulTti.ENODEV, start) else
  let start := start ++ [NodeGet] in
  if negb (pin_valid e) then (- EINVAL, start) else
  let g := errata_gpio e in
  if decide (r_request e ≠ 0) then (r_request e, start) else
  let start := start ++ [Request g; Delay 1] in
  if decide (r_output e < 0) then (r_output e, start ++ [FreePin g]) else
  (r_input e,
   start ++ [Output g 0; SetValue g 1] ++ concat (replicate 10 (pulse g)) ++ [Input g; FreePin g]).

(** ** Theorems *)

Section Correct.
Context `{HifLaws, HostIf}.

(** The address a region was announced with. *)
Definition announced (r : host_mem_region) : Z := mod_phys_h r * 2 ^ 32 + mod_phys_l r.

(** When the interface comes up, the modem is told of two regions without a gap: the
    one for the pages of the users begins at their address and ends where the scratch
    memory begins, which has the size of this modem's part; no word of the host's
    readiness is taken back, and the words of the messages are as before. *)
Theorem hif_regions_adjacent (o : hif_opts) (a : scratch_allocator) (h h' : gul_hif) :
  0 ≤ GUL_USER_HUGE_PAGE_ADDR ≤ mod_phys a → mod_phys a - GUL_USER_HUGE_PAGE_ADDR < 2 ^ 32 → mod_phys a < 2 ^ 64 →
  0 ≤ g_scratch_buf_size o < 2 ^ 32 →
  gul_init_hif o a h = (0, h') →
  let scr := host_regions h' HOST_MEM_SCRATCH_BUF in
  let huge := host_regions h' HOST_MEM_HUGE_PAGE_BUF in
  announced huge = GUL_USER_HUGE_PAGE_ADDR ∧ announced huge + size_l huge = announced scr ∧
  announced scr = mod_phys a ∧ size_l scr = g_scratch_buf_size o ∧
  Z.land (host_ready h) (host_ready h') = host_ready h ∧ msi_regs h' = msi_regs h ∧ hif_ver h = hif_version.
Proof.
  intros Ha Hd Hm Hs Hi. unfold gul_init_hif in Hi. case_decide as Hz; [discriminate|].
  unfold gul_verify_hif_compatibility in Hi. destruct (decide (hif_ver h = hif_version)) as [Hv|]; [|by case_decide].
  rewrite decide_False in Hi by tauto. injection Hi as <-.
  assert (Hland : ∀ w b c, Z.land w (SET_HIF_HOST_RDY (SET_HIF_HOST_RDY w b) c) = w).
  { intros w b c. rewrite <- (rdy_keeps w b) at 1. rewrite <- Z.land_assoc, rdy_keeps. apply rdy_keeps. }
  assert (Hr : SPLIT_VA32_H (mod_phys a) * 2 ^ 32 + SPLIT_VA32_L (mod_phys a) = mod_phys a) by (apply split_whole; lia).
  assert (Hr2 : SPLIT_VA32_H GUL_USER_HUGE_PAGE_ADDR * 2 ^ 32 + SPLIT_VA32_L GUL_USER_HUGE_PAGE_ADDR = GUL_USER_HUGE_PAGE_ADDR)
    by (apply split_whole; lia).
  unfold announced. assert (Hu : u32 (mod_phys a - GUL_USER_HUGE_PAGE_ADDR) = mod_phys a - GUL_USER_HUGE_PAGE_ADDR)
    by (unfold u32; apply Z.mod_small; lia).
  assert (Hs' : u32 (g_scratch_buf_size o) = g_scratch_buf_size o) by (unfold u32; apply Z.mod_small; lia).
  unfold hif_init_region_addrs, gul_set_host_ready.
  destruct (o_rfic_disable o), (tbgen2_disable o); cbn [set_spi set_ready set_region set_sizes set_hif_status host_regions
    host_ready msi_regs decide host_mem_eq region_words mod_phys_h mod_phys_l size_l];
  rewrite ?(decide_False (P := HOST_MEM_SCRATCH_BUF = HOST_MEM_HUGE_PAGE_BUF)), ?decide_True by done;
  cbn [region_words mod_phys_h mod_phys_l size_l]; rewrite ?Hu, ?Hs'; repeat split; try lia; auto using rdy_keeps.
Qed.

(** A refusal leaves all but the status word alone. *)
Lemma hif_refused (o : hif_opts) (a : scratch_allocator) (h h' : gul_hif) rc :
  gul_init_hif o a h = (rc, h') → rc ≠ 0 → rc = - EINVAL ∧ (h' = h ∨ h' = set_hif_status 0xcafebabe h).
Proof.
  unfold gul_init_hif. case_decide; [intros [= <- <-]; auto|]. unfold gul_verify_hif_compatibility.
  destruct (decide (hif_ver h = hif_version)); [rewrite decide_False by tauto; by intros [= <- _]|].
  rewrite decide_True by done. intros [= <- <-]. auto.
Qed.

(** Line [i] raises its message by the first value and [i], in 32 bits. *)
Lemma msi_table_lookup n : ∀ off v i, 0 ≤ v < 2 ^ 32 → (i < n)%nat → msi_table n off v !! i = Some (off, u32 (v + Z.of_nat i)).
Proof.
  induction n as [|n IH]; intros off v i Hv Hi; [lia|]. destruct i as [|i]; cbn [msi_table lookup list_lookup].
  - do 2 f_equal. unfold u32. rewrite Z.add_0_r, Z.mod_small; lia.
  - rewrite IH; [|unfold u32; apply Z.mod_pos_bound; lia|lia]. do 2 f_equal. unfold u32.
    rewrite Z.add_mod_idemp_l by lia. f_equal. lia.
Qed.
Lemma outbound_msi_lines al ah v h i : 0 ≤ v < 2 ^ 32 → (i < MSI_IRQ_COUNT)%nat →
  msi_regs (gul_create_outbound_msi al ah v h).2 !! i =
    Some (u32 (GUL_EP_TOHOST_MSI_PHY_ADDR - GUL_USER_HUGE_PAGE_ADDR), u32 (v + Z.of_nat i)).
Proof. intros. by apply msi_table_lookup. Qed.

End Correct.

(** A board whose model is not known is revision U in the first call, and n from then
    on. *)
Lemma unknown_board_changes root : mjoin root = None →
  ∃ ver, gul_get_host_board_rev false root None = Some ("U"%char, ver) ∧
    gul_get_host_board_rev false root ver = Some ("n"%char, ver).
Proof. intros Hr. exists (Some "Unknown"%string). cbn. rewrite Hr. by split. Qed.

(** A known one stays what it was. *)
Lemma known_board_stays root c ver : gul_get_host_board_rev false root None = Some (c, ver) → c ≠ "U"%char →
  gul_get_host_board_rev false root ver = Some (c, ver).
Proof.
  unfold gul_get_host_board_rev. case_decide; [by intros [= <- _]|]. destruct (last_char _) as [d|] eqn:Hd; [|done].
  cbn [mbind option_bind]. intros [= <- <-] _. by rewrite Hd.
Qed.

#[local] Ltac hif_leaf := repeat split; try (by left); try (by right); try (intros; try done; try lia); try done.

(** How the pin is left: the values driven, and whether it is held. *)
Definition driven (l : list errata_op) : list Z :=
  omap (λ o, match o with Output _ v | SetValue _ v => Some v | _ => None end) l.
Fixpoint count_op (f : errata_op → bool) (l : list errata_op) : nat :=
  match l with [] => O | o :: l => if f o then S (count_op f l) else count_op f l end.
Definition is_request (o : errata_op) : bool := match o with Request _ => true | _ => false end.
Definition is_free (o : errata_op) : bool := match o with FreePin _ => true | _ => false end.
Definition is_get (o : errata_op) : bool := match o with NodeGet => true | _ => false end.
Definition is_put (o : errata_op) : bool := match o with NodePut => true | _ => false end.

Lemma count_op_app o l k : count_op o (l ++ k) = (count_op o l + count_op o k)%nat.
Proof. induction l as [|x l IH]; cbn; [done|]. rewrite IH. by destruct (o x). Qed.
Lemma driven_app l k : driven (l ++ k) = driven l ++ driven k.
Proof. apply omap_app. Qed.

(** The pin is driven high and low ten times, when nothing fails, and left an input; a
    pin that was requested is freed on every path.  The reference of the node found is
    never given back. *)
Theorem errata_sequence (e : errata_env) :
  let '(rc, l) := gul_errata_a010867 e in
  count_op is_request l = count_op is_free l ∧
  (errata_node e = true → count_op is_get l = 1%nat ∧ count_op is_put l = 0%nat) ∧
  (driven l = [] ∨ driven l = [0; 1] ++ concat (replicate 10 [0; 1])) ∧
  (rc = 0 → last l = Some (FreePin (errata_gpio e)) ∧ driven l ≠ []).
Proof.
  destruct e as [m n g v rq ro ri]. unfold gul_errata_a010867.
  cbn [dn_modem errata_node errata_gpio pin_valid r_request r_output r_input]. set (ps := concat (replicate 10 (pulse g))).
  assert (Hps : count_op is_request ps = 0%nat ∧ count_op is_free ps = 0%nat ∧ count_op is_get ps = 0%nat ∧
    count_op is_put ps = 0%nat ∧ driven ps = concat (replicate 10 [0; 1])) by (repeat split).
  clearbody ps. destruct Hps as (P1 & P2 & P3 & P4 & P5).
  destruct n; cbn [negb]; [|by destruct m; hif_leaf].
  destruct v; cbn [negb]; [|by destruct m; hif_leaf].
  case_decide; [by destruct m; hif_leaf|].
  case_decide.
  { destruct m; hif_leaf. }
  rewrite !count_op_app, !driven_app, P1, P2, P3, P4, P5, !last_app. destruct m; hif_leaf.
Qed.

(** ** An interface *)
#[local] Instance hif_example : HifIf := {|
  sizeof_hif := 4096; hif_version := 0x10002; HIF_HOST_READY_HOST_REGIONS := 2; HIF_HOST_DISABLE_TBGEN2 := 16;
  SET_HIF_HOST_RDY := Z.lor; SPLIT_VA32_L := λ x, x mod 2 ^ 32; SPLIT_VA32_H := λ x, x / 2 ^ 32;
  GUL_USER_HUGE_PAGE_ADDR := 0xA0000000; GUL_EP_TOHOST_MSI_PHY_ADDR := 0xC0000000; GUL_EP_TO_HOST_MSI_SIZE := 4096;
  GUL_OB_WIN_MSI := 1; MSI_IRQ_COUNT := 8 |}.
#[local] Instance hif_example_laws : HifLaws.
Proof.
  split; cbn.
  - intros x Hx. rewrite Z.mul_comm. symmetry. apply Z.div_mod. lia.
  - intros w b. apply Z.bits_inj'. intros i Hi. rewrite Z.land_spec, Z.lor_spec. by destruct (Z.testbit w i).
Qed.
Definition hif_opts_example : hif_opts := HifOpts 0x4000000 0 0 0 true true 4096.
Definition hif_start : gul_hif := Hif 0x10002 0 1 (λ _, HostMem 0 0 0) 0 0 0 0 [].
Lemma hif_regions_adjacent_witness :
  announced (host_regions (gul_init_hif hif_opts_example (Scr 0 0 0xDC000000 0xDC000000 0xE0000000 0x4000000) hif_start).2
    HOST_MEM_SCRATCH_BUF) = 0xDC000000.
Proof.
  refine (proj1 (proj2 (proj2 (hif_regions_adjacent hif_opts_example (Scr 0 0 0xDC000000 0xDC000000 0xE0000000 0x4000000)
    hif_start _ _ _ _ _ _)))); [cbn; lia..|]. reflexivity.
Defined.
