(* ===== verification/GulIrqMux.v ===== *)
(** * The demultiplexer of the modem's interrupts (kernel_driver/yami/gul_irq_mux.c)

    The words of the events behind one interrupt of the modem, the lines the kernel makes
    of them, and the handler.  The masks and offsets come from a header outside this
    repository.  [None] is a NULL dereference or freeing twice. *)
From S2P Require Import Prelude GulMsi.
#[global] Open Scope Z_scope.

Class MuxIf := {
  NIRQ_MASK : Z; NIRQ_WORDS_MASK : Z; IRQ_EVT_EN_OFFSET : Z; GUL_EVT_BTS_PER_WRD : Z; GUL_RAISE_CLR_EVT : Z;
  IRQ_NOREQUEST : Z; IRQ_NOPROBE : Z; IRQ_NOAUTOEN : Z }.

(** The structure: where the words of each kind begin, counted from the first, and the
    first line. *)
Record irq_mux := IrqMux { irq_base : Z; evt_cfg : Z; evt_en : Z; evt_sts : Z; evt_clr : Z; mux_irqs : Z }.

Section Mux.
Context `{MuxIf}.

(** The words of the events, by place. *)
Definition evt_words := Z → Z.
Definition put_word (a v : Z) (m : evt_words) : evt_words := λ b, if decide (b = a) then v else m b.

(** [irq_alloc_descs] answers with the first line, or an error. *)
Definition gul_init_irq_mux (cfg irq_alloc_descs : Z) (x : irq_mux) : Z * irq_mux :=
  let num_irq_words := Z.land (u32 cfg) NIRQ_WORDS_MASK in
  let en := 0 + IRQ_EVT_EN_OFFSET in
  let sts := en + num_irq_words in
  let clr := sts + num_irq_words in
  (irq_alloc_descs, IrqMux irq_alloc_descs 0 en sts clr (mux_irqs x)).

(** The word is read, one bit of it changed, and written. *)
Definition gul_set_imask (x : irq_mux) (irq : Z) (set_flg : bool) (m : evt_words) : evt_words :=
  let irq_bit := i32 (irq - irq_base x) in
  let a := evt_en x + Z.quot irq_bit GUL_EVT_BTS_PER_WRD in
  let bit := Z.rem irq_bit GUL_EVT_BTS_PER_WRD in
  let v := u32 (m a) in
  put_word a (u32 (if set_flg then Z.setbit v bit else Z.clearbit v bit)) m.
Definition gul_irq_mask (x : irq_mux) (irq : Z) : evt_words → evt_words := gul_set_imask x irq false.
Definition gul_irq_unmask (x : irq_mux) (irq : Z) : evt_words → evt_words := gul_set_imask x irq true.

(** What the kernel keeps of a line: its chip, and its flags. *)
Record irq_desc := Desc { chip_of_mux : bool; flags_of : Z }.
Definition modify_status (clr set f : Z) : Z := Z.lor (Z.ldiff f clr) set.

Definition chip_line (d : irq_desc) : irq_desc :=
  let set := Z.lor (Z.lor IRQ_NOREQUEST IRQ_NOPROBE) IRQ_NOAUTOEN in
  let f := modify_status IRQ_NOREQUEST 0 (flags_of d) in
  Desc true (modify_status IRQ_NOREQUEST (Z.ldiff set IRQ_NOREQUEST) f).
Fixpoint chip_loop (n : nat) (irq : Z) (m : Z → irq_desc) : Z → irq_desc :=
  match n with
  | O => m
  | S n => chip_loop n (irq + 1) (λ q, if decide (q = irq) then chip_line (m q) else m q)
  end.
Definition gul_set_irq_chip (x : irq_mux) (m : Z → irq_desc) : Z → irq_desc :=
  chip_loop (Z.to_nat (mux_irqs x)) (irq_base x) m.

(** ** The handler *)

(** What it does: a line handled, and the word that tells the modem. *)
Inductive mux_event := HandleIrq (irq : Z) | RaiseClr (v : Z).
Definition gul_irq_processed : list mux_event := [RaiseClr GUL_RAISE_CLR_EVT].

(** The bits from [i] on, [n] left.  The words are locals; [None] in one is a local
    without a value, and a bit of it that is looked at has none either. *)
Fixpoint evt_loop (n : nat) (i : Z) (sts en base : option Z) : option (list mux_event * bool) :=
  match n with
  | O => Some ([], false)
  | S n =>
      s ← sts; e ← en;
      '(l, b) ← evt_loop n (i + 1) sts en base;
      if decide (Z.land (Z.land s (Z.shiftl 1 i)) e ≠ 0)
      then q ← base; Some (HandleIrq (q + i) :: gul_irq_processed ++ l, true) else Some (l, b)
  end.

(** The number of lines and the words are those of the code that is left: none, and not
    set. *)
Definition gul_irq_handler : option (list mux_event * bool) :=
  let num_irq := 0 in
  let sts_bits := if decide (num_irq < GUL_EVT_BTS_PER_WRD) then num_irq else GUL_EVT_BTS_PER_WRD in
  evt_loop (Z.to_nat sts_bits) 0 None None None.

(** ** Request and release *)

(** The device's structure of the demultiplexer, which nothing in the code sets, and
    what was freed. *)
Inductive mux_free := FreeDescs (base n : Z) | FreeMap | FreeMux.
Record mux_dev := MuxDev { gul_irq_priv : option irq_mux; live : bool; freed : list mux_free }.

(** [request_irq] answers; [inr] says that the window of the messages is to be made. *)
Definition gul_request_irq (request_irq : Z) (w : mux_dev) : option ((Z + unit) * mux_dev) :=
  let num_irq := 8 in
  if decide (request_irq = 0) then Some (inr tt, w) else
  x ← gul_irq_priv w;
  if negb (live w) then None else
  Some (inl request_irq, MuxDev None false (freed w ++ [FreeDescs (irq_base x) num_irq; FreeMux])).

(** The pointer stays in the device. *)
Definition gul_clean_request_irq (cfg : Z) (w : mux_dev) : option (Z * mux_dev) :=
  let num_irq := Z.shiftr (Z.land (u32 cfg) NIRQ_MASK) 8 in
  match gul_irq_priv w with
  | None => Some (0, w)
  | Some x =>
      if negb (live w) then None else
      let descs := if decide (num_irq ≠ 0 ∧ irq_base x ≠ 0) then [FreeDescs (irq_base x) num_irq] else [] in
      Some (0, MuxDev (gul_irq_priv w) false (freed w ++ descs ++ [FreeMap; FreeMux]))
  end.

End Mux.

(** ** Theorems *)
Section Correct.
Context `{MuxIf}.

(** A line of the demultiplexer is bit [irq - base] of the words of its kind. *)
Definition enabled (x : irq_mux) (irq : Z) (m : evt_words) : bool :=
  Z.testbit (m (evt_en x + (irq - irq_base x) / GUL_EVT_BTS_PER_WRD)) ((irq - irq_base x) mod GUL_EVT_BTS_PER_WRD).

Lemma u32_bit x b : 0 ≤ b < 32 → Z.testbit (u32 x) b = Z.testbit x b.
Proof. intros Hb. unfold u32. change 4294967296 with (2 ^ 32). apply Z.mod_pow2_bits_low. lia. Qed.

(** Masking and unmasking change the line asked for and no other. *)
Theorem imask_one_line (x : irq_mux) (irq q : Z) (set_flg : bool) (m : evt_words) :
  0 < GUL_EVT_BTS_PER_WRD ≤ 32 → irq_base x ≤ irq → irq - irq_base x < 2 ^ 31 → irq_base x ≤ q →
  enabled x q (gul_set_imask x irq set_flg m) = if decide (q = irq) then set_flg else enabled x q m.
Proof.
  intros Hw Hge Hlt Hq. unfold enabled, gul_set_imask, put_word.
  assert (i32 (irq - irq_base x) = irq - irq_base x) as -> by (unfold i32; rewrite Z.mod_small; lia).
  rewrite Z.quot_div_nonneg, Z.rem_mod_nonneg by lia. set (n := GUL_EVT_BTS_PER_WRD) in *.
  assert (Hi := Z.div_mod (irq - irq_base x) n ltac:(lia)). assert (Hj := Z.div_mod (q - irq_base x) n ltac:(lia)).
  assert (Bi := Z.mod_pos_bound (irq - irq_base x) n ltac:(lia)). assert (Bj := Z.mod_pos_bound (q - irq_base x) n ltac:(lia)).
  set (a := (irq - irq_base x) / n) in *. set (b := (irq - irq_base x) mod n) in *.
  set (a' := (q - irq_base x) / n) in *. set (b' := (q - irq_base x) mod n) in *. clearbody a b a' b'.
  destruct (decide (evt_en x + a' = evt_en x + a)) as [Ha|Ha].
  - assert (a' = a) as -> by lia. rewrite u32_bit by lia.
    assert (Hmb : Z.testbit (u32 (m (evt_en x + a))) b' = Z.testbit (m (evt_en x + a)) b') by (apply u32_bit; lia).
    destruct set_flg; rewrite ?Z.setbit_eqb, ?Z.clearbit_eqb, Hmb by lia.
    + destruct (decide (q = irq)) as [->|Hne]; [replace b' with b by nia; by rewrite Z.eqb_refl|].
      rewrite (proj2 (Z.eqb_neq b b')) by nia. done.
    + destruct (decide (q = irq)) as [->|Hne]; [replace b' with b by nia; by rewrite Z.eqb_refl, andb_false_r|].
      rewrite (proj2 (Z.eqb_neq b b')) by nia. apply andb_true_r.
  - rewrite decide_False; [done|]. intros ->. apply Ha. f_equal. nia.
Qed.

(** Each line can be requested and is not probed; the other lines of the kernel are left
    as they were. *)
Lemma chip_loop_spec n : ∀ irq m q,
  chip_loop n irq m q = if decide (irq ≤ q < irq + Z.of_nat n) then chip_line (m q) else m q.
Proof.
  induction n as [|n IH]; intros irq m q; cbn [chip_loop]; [by rewrite decide_False by lia|].
  rewrite IH. destruct (decide (q = irq)) as [->|Hne].
  - rewrite decide_False by lia. by rewrite decide_True by lia.
  - case_decide; [by rewrite decide_True by lia|by rewrite decide_False by lia].
Qed.
Theorem chips_usable (x : irq_mux) (m : Z → irq_desc) (q : Z) : 0 ≤ mux_irqs x →
  irq_base x ≤ q < irq_base x + mux_irqs x → Z.land IRQ_NOPROBE IRQ_NOREQUEST = 0 →
  let d := gul_set_irq_chip x m q in
  chip_of_mux d = true ∧ Z.land (flags_of d) IRQ_NOREQUEST = 0 ∧ Z.land IRQ_NOPROBE (flags_of d) = IRQ_NOPROBE.
Proof.
  intros Hn Hq Hd. unfold gul_set_irq_chip. rewrite chip_loop_spec, decide_True by lia. cbn [chip_line chip_of_mux flags_of].
  split; [done|]. unfold modify_status. split; apply Z.bits_inj'; intros i Hi;
    assert (Hdi : Z.testbit (Z.land IRQ_NOPROBE IRQ_NOREQUEST) i = false) by (rewrite Hd; apply Z.bits_0); rewrite Z.land_spec in Hdi;
    repeat rewrite ?Z.land_spec, ?Z.lor_spec, ?Z.ldiff_spec; rewrite ?Z.bits_0;
    destruct (Z.testbit IRQ_NOPROBE i), (Z.testbit IRQ_NOREQUEST i), (Z.testbit IRQ_NOAUTOEN i), (Z.testbit (flags_of (m q)) i); done.
Qed.

(** The handler looks at no event: whatever the modem raised, it handles nothing and
    tells the modem nothing. *)
Lemma irq_handler_deaf : 0 < GUL_EVT_BTS_PER_WRD → gul_irq_handler = Some ([], false).
Proof. intros Hw. unfold gul_irq_handler. by rewrite decide_True. Qed.

(** The device's structure is never set, so an interrupt line that is refused is a NULL
    dereference; and a second release of a structure frees it twice. *)
Lemma refused_line_crashes rc l : rc ≠ 0 → gul_request_irq rc (MuxDev None l []) = None.
Proof. intros Hr. unfold gul_request_irq. by rewrite decide_False. Qed.
Lemma released_twice cfg x w : gul_clean_request_irq cfg (MuxDev (Some x) true []) = Some w →
  gul_clean_request_irq cfg w.2 = None.
Proof. unfold gul_clean_request_irq; cbn [gul_irq_priv live negb]. by intros [= <-]. Qed.
End Correct.

#[local] Instance mux_example : MuxIf := {|
  NIRQ_MASK := 0xFF00; NIRQ_WORDS_MASK := 0xFF; IRQ_EVT_EN_OFFSET := 1; GUL_EVT_BTS_PER_WRD := 32; GUL_RAISE_CLR_EVT := 1;
  IRQ_NOREQUEST := 2048; IRQ_NOPROBE := 1024; IRQ_NOAUTOEN := 4096 |}.
Definition mux_of_example : irq_mux := (gul_init_irq_mux 2 100 (IrqMux 0 0 0 0 0 40)).2.
Lemma imask_one_line_witness :
  enabled mux_of_example 135 (gul_set_imask mux_of_example 135 true (λ _, 0)) = true.
Proof. rewrite (imask_one_line mux_of_example 135 135 true (λ _, 0)); [reflexivity|cbn; lia..]. Defined.
