(* ===== verification/GulPci.v ===== *)
(** * The PCI driver: module, probe and removal of a device
      (kernel_driver/yami/gul_pci.c; the memory regions of gul_base.c)

    A PCI device is named by its [dev_name].  What the kernel and the other parts
    of the driver are asked, and what they answered, is the log of the world; the
    answers are the class [PciCalls].  The kernel threads that take a device off
    the bus are entries of [threads], run by a step of their own, since the probe
    and the removal do not wait for them.  The offsets and sizes of the regions
    come from a header the repository does not contain: [PciIf]. *)
From S2P Require Import Prelude GulMsi GulScratch.
From stdpp Require Import strings gmap.
#[global] Open Scope Z_scope.

Definition MAX_MODEM : nat := 4.
Definition EINTR : Z := 4.
Definition ENODEV : Z := 19.

(** ** Calls *)
Inductive pci_call :=
  | EnableDevice (d : string) | DisableDevice (d : string)
  | RequestRegions (d : string) | ReleaseRegions (d : string)
  | SetMaster (d : string) | DmaMask (d : string) (bits : Z) | SetPayload (d : string) (v : Z)
  | Kzalloc (d : string) | Ioremap (d : string) (i : nat) | Iounmap (d : string) (i : nat)
  | MsiControl (d : string) | AllocVectors (d : string) | DisableMsi (d : string)
  | Errata (d : string) | BaseProbe (d : string) | BaseRemove (d : string)
  | GetDevice (d : string) | PutDevice (d : string) | KthreadRun (slot : Z)
  | StopAndRemove (d : string) | WdogStatus (id : Z) | WdogDomain (id : Z) | WdogReset (id : Z) | Rescan
  (* the module *)
  | ClassCreate | ClassDestroy | InitSysfs | RemoveSysfs | SubdrvInit | SubdrvExit
  | InitTti | RemoveTti | WarmupStatus (i : nat) | RegisterDriver | UnregisterDriver.
#[export] Instance pci_call_eq : EqDecision pci_call.
Proof. solve_decision. Defined.

(** The region offsets and sizes, in the order CCSR, DCSR, PEBM, FECA. *)
Class PciIf := {
  GUL_MEM_REGION_CCSR_OFFSET : Z; GUL_MEM_REGION_DCSR_OFFSET : Z;
  GUL_MEM_REGION_PEBM_OFFSET : Z; GUL_MEM_REGION_FECA_OFFSET : Z;
  GUL_MMAP_CCSR_OFFSET : Z; GUL_MMAP_DCSR_SIZE : Z; GUL_MMAP_PEBM_SIZE : Z;
  GUL_MEM_REGION_FECA_MEM_SIZE : Z;
  (* whether the build has the erratum of the board *)
  ERRATA_A010867 : bool }.

(** The answer to a call after those before it; the base address registers, the
    first interrupt and the bus of a device; the processors. *)
Class PciCalls := {
  answer : list (pci_call * Z) → pci_call → Z;
  pci_resource_start : string → nat → Z;
  pdev_irq : string → Z;
  num_possible_cpus : Z;
  (* [pdev->bus->self], [bus->parent] set, [pci_is_pcie], DEVCAP *)
  bus_self : string → option string; bus_parent : string → bool;
  is_pcie : string → bool; devcap : string → Z }.

(** ** State *)
Record mem_region_info := Mem { mphys : Z; msize : Z; mvaddr : Z }.
Record gul_dev := GulDev {
  pdev : string; gid : Z; mem_regions : list mem_region_info; msi_en : bool; girq : list irq_info }.
Record gul_global := Global { active : bool; gname : string }.
Record gul_modem_dev_id := ModemId {
  mpdev : option string; is_pci_dev_removed : Z; remove_in_progress : Z }.

(** [gul_dev_id_g], the two tables by modem, the devices allocated by address,
    [pcidev_list], the driver data of the devices, the threads not yet run, the
    devices bound to the driver, and the log. *)
Record pciw := Pciw {
  gul_dev_id_g : Z; g_gul_global : list gul_global; gul_dev_id : list gul_modem_dev_id;
  heap : gmap nat gul_dev; pcidev_list : list nat; drvdata : gmap string nat;
  threads : list Z; bound : list string; klog : list (pci_call * Z) }.

Definition pciw_0 : pciw :=
  Pciw 0 (replicate MAX_MODEM (Global false "")) (replicate MAX_MODEM (ModemId None 0 0))
    ∅ [] ∅ [] [] [].

Section Pci.
Context `{HostIf, PciIf, PciCalls, ScratchIf}.
Local Abbreviation P := (M pciw).

Definition set_dev_id_g (v : Z) (w : pciw) : pciw :=
  Pciw v (g_gul_global w) (gul_dev_id w) (heap w) (pcidev_list w) (drvdata w) (threads w) (bound w) (klog w).
Definition set_globals (v : list gul_global) (w : pciw) : pciw :=
  Pciw (gul_dev_id_g w) v (gul_dev_id w) (heap w) (pcidev_list w) (drvdata w) (threads w) (bound w) (klog w).
Definition set_ids (v : list gul_modem_dev_id) (w : pciw) : pciw :=
  Pciw (gul_dev_id_g w) (g_gul_global w) v (heap w) (pcidev_list w) (drvdata w) (threads w) (bound w) (klog w).
Definition set_heap (v : gmap nat gul_dev) (w : pciw) : pciw :=
  Pciw (gul_dev_id_g w) (g_gul_global w) (gul_dev_id w) v (pcidev_list w) (drvdata w) (threads w) (bound w) (klog w).
Definition set_list (v : list nat) (w : pciw) : pciw :=
  Pciw (gul_dev_id_g w) (g_gul_global w) (gul_dev_id w) (heap w) v (drvdata w) (threads w) (bound w) (klog w).
Definition set_drvdata (v : gmap string nat) (w : pciw) : pciw :=
  Pciw (gul_dev_id_g w) (g_gul_global w) (gul_dev_id w) (heap w) (pcidev_list w) v (threads w) (bound w) (klog w).
Definition set_threads (v : list Z) (w : pciw) : pciw :=
  Pciw (gul_dev_id_g w) (g_gul_global w) (gul_dev_id w) (heap w) (pcidev_list w) (drvdata w) v (bound w) (klog w).
Definition set_bound (v : list string) (w : pciw) : pciw :=
  Pciw (gul_dev_id_g w) (g_gul_global w) (gul_dev_id w) (heap w) (pcidev_list w) (drvdata w) (threads w) v (klog w).
Definition set_klog (v : list (pci_call * Z)) (w : pciw) : pciw :=
  Pciw (gul_dev_id_g w) (g_gul_global w) (gul_dev_id w) (heap w) (pcidev_list w) (drvdata w) (threads w) (bound w) v.

Definition kcall (c : pci_call) : P Z := λ w,
  let r := answer (klog w) c in Some (r, set_klog (klog w ++ [(c, r)]) w).
Definition kcall_ (c : pci_call) : P unit := _ ← kcall c; mret tt.

(** A device that is still allocated: a read of freed memory is undefined. *)
Definition get_dev (a : nat) : P gul_dev := λ w, match heap w !! a with Some g => Some (g, w) | None => None end.
Definition put_dev (a : nat) (g : gul_dev) : P unit := modify (λ w, set_heap (<[a := g]> (heap w)) w).

(** ** Numbering the modems *)

(** The first entry with this name. *)
Definition dev_index (n : string) (t : list gul_global) : option nat :=
  fst <$> list_find (λ g, gname g = n) t.

Definition get_gul_dev_id_pcidevname (pci_addr_count : Z) (d : string) : P Z :=
  t ← gets g_gul_global;
  match dev_index d t with
  | Some i => mret (Z.of_nat i)
  | None =>
      if decide (pci_addr_count ≠ 0) then mret (-1) else
      n ← gets gul_dev_id_g;
      if decide (1 ≤ n) then mret (-1) else
      if decide (Z.of_nat MAX_MODEM ≤ n) then mret (-1) else
      _ ← modify (set_dev_id_g (n + 1));
      mret n
  end.

(** [get_gul_dev_byname]: the name of a device is its prefix and number. *)
Definition get_gul_dev_byname (n : Z) : P (option nat) :=
  l ← gets pcidev_list;
  h ← gets heap;
  mret (snd <$> list_find (λ a, gid <$> (h !! a) = Some n) l).

(** ** The memory regions *)
Definition bar_regions (d : string) : list mem_region_info :=
  [Mem (pci_resource_start d 0%nat + GUL_MEM_REGION_CCSR_OFFSET) GUL_MMAP_CCSR_OFFSET 0;
   Mem (pci_resource_start d (if decide (GUL_MEM_REGION_DCSR_OFFSET = 0) then 1%nat else 0%nat)
        + GUL_MEM_REGION_DCSR_OFFSET) GUL_MMAP_DCSR_SIZE 0;
   Mem (pci_resource_start d 2%nat + GUL_MEM_REGION_PEBM_OFFSET) GUL_MMAP_PEBM_SIZE 0;
   Mem (pci_resource_start d 2%nat + GUL_MEM_REGION_FECA_OFFSET) GUL_MEM_REGION_FECA_MEM_SIZE 0].

Definition set_vaddr (v : Z) (m : mem_region_info) : mem_region_info := Mem (mphys m) (msize m) v.

(** A region without an address or a size is left alone. *)
Fixpoint map_loop (d : string) (i : nat) (rs : list mem_region_info) : P (Z * list mem_region_info) :=
  match rs with
  | [] => mret (0, [])
  | m :: rs =>
      if decide (mphys m ≠ 0 ∧ page_align (i32 (msize m)) ≠ 0) then
        vaddr ← kcall (Ioremap d i);
        if decide (vaddr = 0) then mret (- ENOMEM, m :: rs) else
        '(rc, rs) ← map_loop d (S i) rs;
        mret (rc, set_vaddr vaddr m :: rs)
      else
        '(rc, rs) ← map_loop d (S i) rs;
        mret (rc, m :: rs)
  end.
Definition gul_map_mem_regions (a : nat) : P Z :=
  g ← get_dev a;
  '(rc, rs) ← map_loop (pdev g) 0 (mem_regions g);
  _ ← put_dev a (GulDev (pdev g) (gid g) rs (msi_en g) (girq g));
  mret rc.

Fixpoint unmap_loop (d : string) (i : nat) (rs : list mem_region_info) : P unit :=
  match rs with
  | [] => mret tt
  | m :: rs =>
      _ ← (if decide (mvaddr m ≠ 0) then kcall_ (Iounmap d i) else mret tt);
      unmap_loop d (S i) rs
  end.
Definition gul_unmap_mem_regions (a : nat) : P unit :=
  g ← get_dev a;
  _ ← unmap_loop (pdev g) 0 (mem_regions g);
  put_dev a (GulDev (pdev g) (gid g) (set_vaddr 0 <$> mem_regions g) (msi_en g) (girq g)).

(** ** Interrupts *)

(** [gul_dev_set_interrupt_capability] in the mode the driver asks for.  The
    control register of the device is written through the mapped CCSR. *)
Definition set_multiple_msi (a : nat) : P Z :=
  g ← get_dev a;
  ccsr ← lift (mem_regions g !! 0%nat);
  if decide (mvaddr ccsr = 0) then lift None else
  _ ← kcall_ (MsiControl (pdev g));
  ret ← kcall (AllocVectors (pdev g));
  if decide (ret < Z.of_nat GUL_MSI_MAX_CNT) then mret (- EINTR) else
  _ ← put_dev a (GulDev (pdev g) (gid g) (mem_regions g) true
                   (gul_dev_set_interrupt_capability (pdev_irq (pdev g)) num_possible_cpus));
  mret 0.

Definition gul_dev_reset_interrupt_capability (a : nat) : P unit :=
  g ← get_dev a;
  if (msi_en g : bool) then
    _ ← kcall_ (DisableMsi (pdev g));
    put_dev a (GulDev (pdev g) (gid g) (mem_regions g) false (girq g))
  else mret tt.

(** The largest payload both ends support, set at both; the caller ignores the
    result.  A device without a bridge above it is a read through NULL. *)
Definition PCI_EXP_DEVCAP_PAYLOAD : Z := 7.
Definition pcidev_tune_caps (d : string) : P Z :=
  parent ← lift (bus_self d);
  if (bus_parent parent : bool) then mret (- EINVAL) else
  if negb (is_pcie parent && is_pcie d) then mret (- EINVAL) else
  let rc_sup := Z.land (devcap parent) PCI_EXP_DEVCAP_PAYLOAD in
  let ep_sup := Z.land (devcap d) PCI_EXP_DEVCAP_PAYLOAD in
  let rc_sup := if decide (ep_sup < rc_sup) then ep_sup else rc_sup in
  _ ← kcall_ (SetPayload parent (Z.shiftl rc_sup 5));
  _ ← kcall_ (SetPayload d (Z.shiftl rc_sup 5));
  mret 0.

(** ** Probe *)
Definition kfree (a : nat) : P unit := modify (λ w, set_heap (delete a (heap w)) w).
Definition gul_dev_free (a : nat) : P unit :=
  g ← get_dev a;
  _ ← modify (λ w, set_list (filter (λ b, b ≠ a) (pcidev_list w)) w);
  _ ← modify (λ w, set_drvdata (delete (pdev g) (drvdata w)) w);
  kfree a.

(** The failure of the regions or of the interrupts. *)
Definition priv_init_out (a : nat) : P (option nat) :=
  _ ← gul_unmap_mem_regions a; _ ← kfree a; mret None.

Definition gul_pci_priv_init (d : string) (gul_id : Z) : P (option nat) :=
  ok ← kcall (Kzalloc d);
  if decide (ok = 0) then mret None else
  a ← gets (λ w, fresh (dom (heap w)));
  _ ← put_dev a (GulDev d gul_id (bar_regions d) false []);
  _ ← modify (λ w, set_ids (<[Z.to_nat gul_id := ModemId (Some d) 0 0]> (gul_dev_id w)) w);
  _ ← modify (λ w, set_globals (<[Z.to_nat gul_id := Global true d]> (g_gul_global w)) w);
  rc ← gul_map_mem_regions a;
  if decide (rc ≠ 0) then priv_init_out a else
  rc ← set_multiple_msi a;
  if decide (rc < 0) then priv_init_out a else
  _ ← modify (λ w, set_list (pcidev_list w ++ [a]) w);
  mret (Some a).

(** The labels: each one falls into the next. *)
Definition err2 (d : string) (dev_id : Z) (rc : Z) : P Z :=
  _ ← kcall_ (DisableDevice d);
  _ ← kcall_ (GetDevice d);
  p ← kcall (KthreadRun dev_id);
  _ ← (if decide (p < 0) then mret tt else modify (λ w, set_threads (threads w ++ [dev_id]) w));
  mret rc.
Definition err3 (d : string) (dev_id : Z) (rc : Z) : P Z :=
  _ ← kcall_ (ReleaseRegions d); err2 d dev_id rc.
Definition err4 (d : string) (a : option nat) (dev_id : Z) (rc : Z) : P Z :=
  _ ← (match a with Some a => gul_dev_free a | None => mret tt end); err3 d dev_id rc.
Definition err5 (d : string) (a : nat) (dev_id : Z) (rc : Z) : P Z :=
  _ ← gul_unmap_mem_regions a; _ ← gul_dev_reset_interrupt_capability a; err4 d (Some a) dev_id rc.

Definition errata (d : string) : P Z := if ERRATA_A010867 then kcall (Errata d) else mret 0.

Definition probe_base (d : string) (a : nat) (dev_id : Z) : P Z :=
  rc ← errata d;
  if decide (rc ≠ 0 ∧ rc ≠ - ENODEV) then err5 d a dev_id rc else
  rc ← kcall (BaseProbe d);
  if decide (rc ≠ 0) then err5 d a dev_id rc else
  _ ← modify (λ w, set_drvdata (<[d := a]> (drvdata w)) w);
  mret rc.

Definition dma_masks (d : string) : P Z :=
  rc ← kcall (DmaMask d 64);
  if decide (rc ≠ 0) then kcall (DmaMask d 32) else mret rc.

Definition gul_pcidev_probe (pci_addr_count : Z) (d : string) : P Z :=
  i ← get_gul_dev_id_pcidevname pci_addr_count d;
  if decide (i = -1) then mret 0 else
  rc ← kcall (EnableDevice d);
  if decide (rc ≠ 0) then mret rc else
  rc ← kcall (RequestRegions d);
  if decide (rc ≠ 0) then err2 d 0 rc else
  _ ← kcall_ (SetMaster d);
  rc ← dma_masks d;
  if decide (rc ≠ 0) then err3 d 0 rc else
  _ ← pcidev_tune_caps d;
  a ← gul_pci_priv_init d i;
  match a with
  | None => err4 d None 0 (- ENOMEM)
  | Some a => g ← get_dev a; probe_base d a (gid g)
  end.

(** ** Removal *)
Definition gul_pcidev_remove (d : string) : P unit :=
  m ← gets (λ w, drvdata w !! d);
  match m with
  | None => mret tt
  | Some a =>
      g ← get_dev a;
      id ← gets (λ w, gul_dev_id w !! Z.to_nat (gid g));
      id ← lift id;
      if decide (remove_in_progress id ≠ 0) then mret tt else
      _ ← modify (λ w, set_ids (<[Z.to_nat (gid g) := ModemId (mpdev id) (is_pci_dev_removed id) 1]> (gul_dev_id w)) w);
      _ ← kcall_ (BaseRemove d);
      _ ← gul_unmap_mem_regions a;
      _ ← gul_dev_reset_interrupt_capability a;
      _ ← kcall_ (ReleaseRegions d);
      _ ← kcall_ (DisableDevice d);
      _ ← kcall_ (WdogStatus (gid g));
      _ ← kcall_ (WdogDomain (gid g));
      _ ← kcall_ (GetDevice d);
      p ← kcall (KthreadRun (gid g));
      _ ← (if decide (p < 0) then mret tt else modify (λ w, set_threads (threads w ++ [gid g]) w));
      gul_dev_free a
  end.

(** [pci_stop_and_remove_bus_device_locked]: the driver's removal if the device
    is bound to it. *)
Definition stop_and_remove (d : string) : P unit :=
  _ ← kcall_ (StopAndRemove d);
  b ← gets bound;
  if decide (d ∈ b) then
    _ ← modify (λ w, set_bound (filter (λ x, x ≠ d) b) w);
    gul_pcidev_remove d
  else mret tt.

(** The body of a thread: the slot is looked at when it runs. *)
Definition gul_remove_pci_dev (slot : Z) : P Z :=
  id ← gets (λ w, gul_dev_id w !! Z.to_nat slot);
  id ← lift id;
  match mpdev id with
  | None => mret (-1)
  | Some d =>
      _ ← stop_and_remove d;
      _ ← kcall_ (PutDevice d);
      id ← gets (λ w, gul_dev_id w !! Z.to_nat slot);
      id ← lift id;
      _ ← modify (λ w, set_ids (<[Z.to_nat slot := ModemId (mpdev id) 1 0]> (gul_dev_id w)) w);
      mret 0
  end.

Definition gul_pcidev_reset_device (gul_id : Z) : P unit :=
  id ← gets (λ w, gul_dev_id w !! Z.to_nat gul_id);
  id ← lift id;
  d ← lift (mpdev id);
  _ ← stop_and_remove d;
  _ ← kcall_ (WdogReset gul_id);
  kcall_ Rescan.

(** What the kernel does with the driver: it probes a device that is not bound,
    unbinds one that is, and lets a thread run. *)
Definition bind (pci_addr_count : Z) (d : string) : P Z :=
  rc ← gul_pcidev_probe pci_addr_count d;
  _ ← (if decide (rc = 0) then modify (λ w, set_bound (d :: bound w) w) else mret tt);
  mret rc.
Definition run_thread : P Z :=
  l ← gets threads;
  match l with
  | [] => mret 0
  | s :: l => _ ← modify (set_threads l); gul_remove_pci_dev s
  end.

(** ** The module *)
Definition SVR_LS1043A_FAMILY : Z := 0x87920000.
Definition SVR_LS1046A_FAMILY : Z := 0x87070000.
Definition SVR_FAMILY_MASK : Z := 0xffff0000.

(** The register of the host, when the device tree has one of the known nodes,
    it can be mapped, and it is little-endian. *)
Inductive guts := NoNode | NoMap | Guts (little_endian : bool) (svr : Z).
Definition fsl_get_svr (g : guts) : Z :=
  match g with
  | NoNode => 0
  | NoMap => u32 (- ENOMEM)
  | Guts little_endian svr => if little_endian then u32 svr else 0
  end.

(** On two hosts the buffers of the queue and buffer managers must lie below. *)
Definition dpaa_conflict (svr_family scratch : Z) (bufs : list (Z * Z)) : bool :=
  if decide (svr_family = SVR_LS1046A_FAMILY ∨ svr_family = SVR_LS1043A_FAMILY)
  then existsb (λ b, bool_decide (scratch < u64 (fst b + snd b))) bufs else false.

Fixpoint name_loop (i : nat) (l : list (option string)) : P unit :=
  match l with
  | [] => mret tt
  | o :: l =>
      _ ← (match o with
           | Some n =>
               _ ← modify (λ w, let t := g_gul_global w in
                     set_globals (alter (λ g, Global (active g) n) i t) w);
               modify (λ w, set_dev_id_g (gul_dev_id_g w + 1) w)
           | None => mret tt
           end);
      name_loop (S i) l
  end.

Fixpoint warmup_loop (i n : nat) : P unit :=
  match n with O => mret tt | S n => _ ← kcall_ (WarmupStatus i); warmup_loop (S i) n end.

(** The parameters of the module the sequence looks at. *)
Record mod_params := ModParams {
  pci_addr_array : list (option string); sizes : params; svr_guts : guts; dpaa_bufs : list (Z * Z);
  vspa_fw_name_prefix : string; hsdcs_enable : Z; warmup_timeout : Z }.

Definition out1 (err : Z) : P Z :=
  _ ← kcall_ RemoveSysfs; _ ← kcall_ ClassDestroy; mret err.

Definition init_tail (m : mod_params) (num : Z) : P Z :=
  c ← kcall ClassCreate;
  if decide (c < 0) then mret 0 else
  _ ← kcall_ InitSysfs;
  err ← kcall SubdrvInit;
  if decide (err ≠ 0) then out1 err else
  err ← kcall InitTti;
  if decide (err ≠ 0) then out1 err else
  _ ← (if decide (hsdcs_enable m = 1 ∧ warmup_timeout m ≠ 0)
       then warmup_loop 0 (Nat.min (Z.to_nat num) MAX_MODEM) else mret tt);
  kcall RegisterDriver.

Definition gul_pcidev_init (m : mod_params) : P Z :=
  let count := zlen (pci_addr_array m) in
  if decide (Z.of_nat MAX_MODEM < count) then mret (- EINVAL) else
  let num := if decide (count ≠ 0) then count else modem_num (sizes m) in
  _ ← name_loop 0 (pci_addr_array m);
  let p := GulScratch.Params num (global_scratch_buf_size (sizes m)) (scratch_buf_phys_addr (sizes m))
             (modem_share_buf_size (sizes m)) (modem_host_data_size (sizes m)) (modem_rf_data_size (sizes m)) in
  if decide (global_scratch_buf_size p = 0 ∨ scratch_buf_phys_addr p = 0) then mret (- EINVAL) else
  if dpaa_conflict (Z.land (fsl_get_svr (svr_guts m)) SVR_FAMILY_MASK) (scratch_buf_phys_addr p) (dpaa_bufs m)
  then mret (- EINVAL) else
  match gul_pcidev_init_sizes p with
  | inl e => mret e
  | inr _ => if decide (vspa_fw_name_prefix m = "") then mret (- EINVAL) else init_tail m num
  end.

Definition gul_pcidev_exit : P unit :=
  _ ← kcall_ UnregisterDriver;
  _ ← kcall_ SubdrvExit;
  _ ← kcall_ RemoveTti;
  _ ← kcall_ ClassDestroy;
  kcall_ RemoveSysfs.

End Pci.
