(* ===== verification/GulPciCorrect.v ===== *)
(** * The PCI driver: theorems

    What a device holds of the kernel is read off the log of the calls and their
    answers.  A probe that succeeds holds everything, one that fails nothing. *)
From S2P Require Import Prelude GulMsi GulScratch GulPci.
From stdpp Require Import strings gmap.
#[global] Open Scope Z_scope.

(** ** The ledger *)
Inductive res := Enabled | Regions | Vectors | Mapped (i : nat).
#[export] Instance res_eq : EqDecision res.
Proof. solve_decision. Defined.

(** What a call and its answer do to a resource of [d]: taken, given back, or
    nothing. *)
Definition effect (d : string) (r : res) (e : pci_call * Z) : option bool :=
  match r, e with
  | Enabled, (EnableDevice d', v) => if decide (d' = d ∧ v = 0) then Some true else None
  | Enabled, (DisableDevice d', _) => if decide (d' = d) then Some false else None
  | Regions, (RequestRegions d', v) => if decide (d' = d ∧ v = 0) then Some true else None
  | Regions, (ReleaseRegions d', _) => if decide (d' = d) then Some false else None
  | Vectors, (AllocVectors d', v) => if decide (d' = d ∧ 0 < v) then Some true else None
  | Vectors, (DisableMsi d', _) => if decide (d' = d) then Some false else None
  | Mapped i, (Ioremap d' j, v) => if decide (d' = d ∧ j = i ∧ v ≠ 0) then Some true else None
  | Mapped i, (Iounmap d' j, _) => if decide (d' = d ∧ j = i) then Some false else None
  | _, _ => None
  end.
Definition held (l : list (pci_call * Z)) (d : string) (r : res) : bool :=
  fold_left (λ b e, default b (effect d r e)) l false.

Lemma held_snoc l e d r : held (l ++ [e]) d r = default (held l d r) (effect d r e).
Proof. unfold held. by rewrite fold_left_app. Qed.

(** Whether region [j] of a device is mapped. *)
Definition mapped (rs : list mem_region_info) (j : nat) : bool :=
  match rs !! j with Some m => bool_decide (mvaddr m ≠ 0) | None => false end.

(** What a device that is up holds. *)
Definition holds (en rg vec : bool) (mp : nat → bool) (r : res) : bool :=
  match r with Enabled => en | Regions => rg | Vectors => vec | Mapped j => mp j end.
Definition nothing : nat → bool := λ _, false.

(** ** Assertions *)
Section At.
Context `{HostIf, PciIf, PciCalls, ScratchIf} (d : string).

Record At (hp : gmap nat gul_dev) (ls : list nat) (dv : gmap string nat) (h : res → bool) (w : pciw) : Prop := {
  at_heap : heap w = hp; at_list : pcidev_list w = ls; at_drv : drvdata w = dv;
  at_held : ∀ r, held (klog w) d r = h r }.

Lemma at_eq hp ls dv h h' w : (∀ r, h r = h' r) → At hp ls dv h w → At hp ls dv h' w.
Proof. intros Hh [? ? ? Hr]. split; try done. intros r. by rewrite <- Hh. Qed.

Definition upd (c : pci_call) (v : Z) (h : res → bool) : res → bool :=
  λ r, default (h r) (effect d r (c, v)).

Lemma kcall_at hp ls dv h c :
  hoare False (At hp ls dv h) (kcall c) (λ v, At hp ls dv (upd c v h)).
Proof.
  intros w [Hh Hl Hd Hr]. unfold kcall. split; cbn -[held]; try done.
  intros r. rewrite held_snoc, Hr. done.
Qed.

(** A call that is no business of the ledger. *)
Lemma kcall_plain hp ls dv h c : (∀ v r, effect d r (c, v) = None) →
  hoare False (At hp ls dv h) (kcall c) (λ _, At hp ls dv h).
Proof.
  intros Hc w Hw. pose proof (kcall_at hp ls dv h c w Hw) as Hk.
  destruct (kcall c w) as [[v w']|]; [|done]. eapply at_eq; [|exact Hk].
  intros r. unfold upd. by rewrite Hc.
Qed.
Lemma kcall__plain hp ls dv h c : (∀ v r, effect d r (c, v) = None) →
  hoare False (At hp ls dv h) (kcall_ c) (λ _, At hp ls dv h).
Proof.
  intros Hc. unfold kcall_. eapply hoare_bind; [by apply kcall_plain|]. intros v w Hw. exact Hw.
Qed.

(** A call that always gives a resource back. *)
Lemma kcall__gives hp ls dv h h' c : (∀ v r, upd c v h r = h' r) →
  hoare False (At hp ls dv h) (kcall_ c) (λ _, At hp ls dv h').
Proof.
  intros Hc. unfold kcall_. eapply hoare_bind; [apply kcall_at|]. intros v w Hw.
  eapply at_eq; [|exact Hw]. apply Hc.
Qed.

Lemma get_at hp ls dv h a g : hp !! a = Some g →
  hoare False (At hp ls dv h) (get_dev a) (λ g' w, g' = g ∧ At hp ls dv h w).
Proof. intros Ha w Hw. unfold get_dev. rewrite (at_heap _ _ _ _ _ Hw), Ha. by split. Qed.

Lemma put_at hp ls dv h a g :
  hoare False (At hp ls dv h) (put_dev a g) (λ _, At (<[a := g]> hp) ls dv h).
Proof. intros w [Hh Hl Hd Hr]. split; cbn -[held]; try done; by rewrite Hh. Qed.

Lemma mod_at hp ls dv h f : (∀ w, heap (f w) = heap w ∧ pcidev_list (f w) = pcidev_list w ∧
    drvdata (f w) = drvdata w ∧ klog (f w) = klog w) →
  hoare False (At hp ls dv h) (modify f) (λ _, At hp ls dv h).
Proof.
  intros Hf w [Hh Hl Hd Hr]. destruct (Hf w) as (Hf1 & Hf2 & Hf3 & Hf4).
  split; cbn -[held]; try congruence.
Qed.

(** ** The regions *)
Definition mapping (i : nat) (rs : list mem_region_info) (h : res → bool) (r : res) : bool :=
  match r with Mapped j => if decide (i ≤ j)%nat then mapped rs (j - i) else h r | r => h r end.

Definition set_mapped (i : nat) (b : bool) (h : res → bool) (r : res) : bool :=
  if decide (r = Mapped i) then b else h r.

Lemma mapping_ext i rs h h' r : (∀ r, h r = h' r) → mapping i rs h r = mapping i rs h' r.
Proof. intros Hh. destruct r as [| | |j]; cbn [mapping]; try done. by destruct (decide _). Qed.

Lemma mapping_step i m rs h r :
  mapping (S i) rs (set_mapped i (bool_decide (mvaddr m ≠ 0)) h) r = mapping i (m :: rs) h r.
Proof.
  destruct r as [| | |j]; cbn [mapping]; try done. unfold set_mapped.
  destruct (decide (S i ≤ j)%nat); destruct (decide (i ≤ j)%nat); try lia.
  - unfold mapped. by replace (j - i)%nat with (S (j - S i)) by lia.
  - assert (j = i) as -> by lia. rewrite decide_True by done. unfold mapped. by rewrite Nat.sub_diag.
  - rewrite decide_False; [done|]. intros [= ->]. lia.
Qed.

Lemma mapping_nil i h r : mapping (S i) [] (set_mapped i false h) r = mapping i [] h r.
Proof.
  destruct r as [| | |j]; cbn [mapping]; try done. unfold set_mapped.
  destruct (decide (S i ≤ j)%nat); destruct (decide (i ≤ j)%nat); try (lia || done).
  - assert (j = i) as -> by lia. by rewrite decide_True.
  - rewrite decide_False; [done|]. intros [= ->]. lia.
Qed.

(** Nothing is mapped yet. *)
Lemma mapping_zero i rs h r : Forall (λ m, mvaddr m = 0) rs →
  (∀ j, (i ≤ j)%nat → h (Mapped j) = false) → mapping i rs h r = h r.
Proof.
  intros Hrs Hh. destruct r as [| | |j]; cbn [mapping]; try done.
  destruct (decide _); [|done]. rewrite Hh by done. unfold mapped.
  destruct (rs !! _) as [m|] eqn:Hm; [|done]. rewrite Forall_lookup in Hrs. by rewrite (Hrs _ _ Hm).
Qed.

Lemma map_loop_at hp ls dv rs : ∀ i h,
  Forall (λ m, mvaddr m = 0) rs → (∀ j, (i ≤ j)%nat → h (Mapped j) = false) →
  hoare False (At hp ls dv h) (map_loop d i rs) (λ r w, let '(rc, rs') := r in
    At hp ls dv (mapping i rs' h) w ∧ length rs' = length rs ∧ (rc = 0 ∨ rc = - ENOMEM) ∧
    (rc = 0 → ∀ m, head rs = Some m → mphys m ≠ 0 ∧ page_align (i32 (msize m)) ≠ 0 → mapped rs' 0 = true)).
Proof.
  induction rs as [|m rs IH]; intros i h Hrs Hh; cbn [map_loop].
  - intros w Hw. split; [|split; [done|split; [by left|done]]]. eapply at_eq; [|exact Hw].
    intros r. symmetry. by apply mapping_zero.
  - pose proof Hrs as Hall. apply Forall_cons in Hrs as [Hm Hrs]. case_decide as He.
    + eapply hoare_bind; [apply kcall_at|]. intros v. cbn beta.
      destruct (decide (v = 0)) as [Hv|Hv].
      * intros w Hw. split; [|split; [done|split; [by right|intros Hc; unfold ENOMEM in Hc; lia]]].
        eapply at_eq; [|exact Hw]. clear Hw. intros r. rewrite mapping_zero by done.
        unfold upd. destruct r; try done. cbn. rewrite decide_False; [done|tauto].
      * apply (hoare_weaken _ (At hp ls dv (set_mapped i true h)) _ _ (λ r w, let '(rc, rs') := r in
          At hp ls dv (mapping i rs' h) w ∧ length rs' = length (m :: rs) ∧ (rc = 0 ∨ rc = - ENOMEM) ∧ mapped rs' 0 = true)).
        { intros w Hw. eapply at_eq; [|exact Hw]. clear Hw. intros r. unfold upd, set_mapped. destruct r as [| | |j]; try done.
          cbn. destruct (decide (Mapped j = Mapped i)) as [[= ->]|Hj]; [by rewrite decide_True|].
          rewrite decide_False; [done|]. intros (_ & -> & _). by apply Hj. }
        { intros [rc rs'] w (? & ? & ? & ?). done. }
        eapply hoare_bind; [apply (IH (S i)); [done|]|].
        { intros j Hj. unfold set_mapped. rewrite decide_False by (intros [= ->]; lia). apply Hh. lia. }
        intros [rc rs'] w (Hw & Hl & Hrc & _). split; [|split; [by cbn; f_equal|split; [done|]]].
        -- eapply at_eq; [|exact Hw]. intros r. rewrite <- mapping_step. apply mapping_ext. intros r'.
           unfold set_mapped. destruct (decide _); [|done]. symmetry. by apply bool_decide_eq_true_2.
        -- unfold mapped. cbn. by apply bool_decide_eq_true_2.
    + eapply hoare_bind; [apply (IH (S i) h); [done|intros j Hj; apply Hh; lia]|].
      intros [rc rs'] w (Hw & Hl & Hrc & _). split; [|split; [by cbn; f_equal|split; [done|]]].
      * eapply at_eq; [|exact Hw]. intros r. rewrite <- mapping_step. apply mapping_ext. intros r'.
        unfold set_mapped. destruct (decide _) as [->|]; [|done]. rewrite Hh by lia. by rewrite Hm.
      * intros _ m' [= <-] He'. done.
Qed.

Lemma unmap_loop_at hp ls dv rs : ∀ i h,
  (∀ j, h (Mapped (i + j)) = mapped rs j) →
  hoare False (At hp ls dv h) (unmap_loop d i rs) (λ _, At hp ls dv (mapping i [] h)).
Proof.
  induction rs as [|m rs IH]; intros i h Hh; cbn [unmap_loop].
  - intros w Hw. eapply at_eq; [|exact Hw]. intros r. symmetry. apply mapping_zero; [done|].
    intros j Hj. specialize (Hh (j - i)%nat). by replace (i + (j - i))%nat with j in Hh by lia.
  - apply (hoare_bind _ (λ _, At hp ls dv (set_mapped i false h))).
    + destruct (decide (mvaddr m ≠ 0)) as [Hm|Hm].
      * apply kcall__gives. intros v r. unfold upd, set_mapped. destruct r as [| | |j]; try done. cbn.
        destruct (decide (Mapped j = Mapped i)) as [[= ->]|Hj]; [by rewrite decide_True|].
        rewrite decide_False; [done|]. intros [_ ->]. by apply Hj.
      * intros w Hw. eapply at_eq; [|exact Hw]. intros r. unfold set_mapped. destruct (decide _) as [->|]; [|done].
        specialize (Hh 0%nat). rewrite Nat.add_0_r in Hh. rewrite Hh. unfold mapped. cbn. by apply bool_decide_eq_false_2.
    + intros _. eapply hoare_weaken; [done| |apply (IH (S i))].
      * intros ? w Hw. eapply at_eq; [|exact Hw]. intros r. apply mapping_nil.
      * intros j. unfold set_mapped. rewrite decide_False by (intros [= Hj]; lia).
        specialize (Hh (S j)). by replace (S i + j)%nat with (i + S j)%nat by lia.
Qed.

(** ** The parts of the probe *)
Definition with_regions (rs : list mem_region_info) (g : gul_dev) : gul_dev :=
  GulDev (pdev g) (gid g) rs (msi_en g) (girq g).

Lemma map_regions_at hp ls dv h a g m rs :
  hp !! a = Some g → pdev g = d → mem_regions g = m :: rs → Forall (λ m, mvaddr m = 0) (m :: rs) →
  mphys m ≠ 0 → page_align (i32 (msize m)) ≠ 0 → (∀ j, h (Mapped j) = false) →
  hoare False (At hp ls dv h) (gul_map_mem_regions a) (λ rc w, ∃ rs',
    At (<[a := with_regions rs' g]> hp) ls dv (mapping 0 rs' h) w ∧
    (rc = 0 ∨ rc = - ENOMEM) ∧ (rc = 0 → mapped rs' 0 = true)).
Proof.
  intros Ha Hg Hm Hv Hp Hs Hh. unfold gul_map_mem_regions.
  eapply hoare_bind; [by apply get_at|]. intros g'. apply hoare_pre. intros ->. rewrite Hg, Hm.
  eapply hoare_bind; [apply map_loop_at; [done|intros j _; apply Hh]|]. intros [rc rs'].
  intros w (Hw & _ & Hrc & Hz).
  apply (hoare_bind _ (λ _, At (<[a := with_regions rs' g]> hp) ls dv (mapping 0 rs' h)) (At hp ls dv (mapping 0 rs' h)));
    [unfold with_regions; rewrite Hg; apply put_at| |exact Hw].
  intros u w' Hw'. exists rs'. split; [exact Hw'|]. split; [done|]. intros Hc. by apply (Hz Hc m).
Qed.

Lemma unmap_regions_at hp ls dv h a g :
  hp !! a = Some g → pdev g = d → (∀ j, h (Mapped j) = mapped (mem_regions g) j) →
  hoare False (At hp ls dv h) (gul_unmap_mem_regions a)
    (λ _, At (<[a := with_regions (set_vaddr 0 <$> mem_regions g) g]> hp) ls dv (mapping 0 [] h)).
Proof.
  intros Ha Hg Hh. unfold gul_unmap_mem_regions.
  eapply hoare_bind; [by apply get_at|]. intros g'. apply hoare_pre. intros ->.
  eapply hoare_bind; [rewrite Hg; by apply unmap_loop_at|]. intros u. apply put_at.
Qed.

(** The kernel gives all the vectors asked for, or none. *)
Definition vectors_all_or_none : Prop := (0 < GUL_MSI_MAX_CNT)%nat ∧ ∀ l,
  answer l (AllocVectors d) ≤ 0 ∨ Z.of_nat GUL_MSI_MAX_CNT ≤ answer l (AllocVectors d).

Lemma kcall_answer hp ls dv h c :
  hoare False (At hp ls dv h) (kcall c) (λ v w, (∃ l, v = answer l c) ∧ At hp ls dv (upd c v h) w).
Proof.
  intros w Hw. pose proof (kcall_at hp ls dv h c w Hw) as Hk. unfold kcall in *. split; [by eexists|exact Hk].
Qed.

Lemma multiple_msi_at hp ls dv h a g : vectors_all_or_none →
  hp !! a = Some g → pdev g = d → mapped (mem_regions g) 0 = true →
  hoare False (At hp ls dv h) (set_multiple_msi a) (λ rc w,
    (rc = 0 ∧ ∃ t, At (<[a := GulDev d (gid g) (mem_regions g) true t]> hp) ls dv
       (λ r, if decide (r = Vectors) then true else h r) w) ∨
    (rc < 0 ∧ At hp ls dv h w)).
Proof.
  intros [Hc Hall] Ha Hg Hm. unfold set_multiple_msi.
  eapply hoare_bind; [by apply get_at|]. intros g'. apply hoare_pre. intros ->.
  unfold mapped in Hm. destruct (mem_regions g !! 0%nat) as [m0|] eqn:Hm0; [|done].
  apply bool_decide_eq_true in Hm.
  eapply (hoare_bind _ (λ v w, v = m0 ∧ At hp ls dv h w)); [by intros w Hw|]. intros v. apply hoare_pre. intros ->.
  rewrite decide_False by done. rewrite Hg.
  eapply hoare_bind; [apply kcall__plain; by intros ? []|]. intros u. cbn beta.
  eapply hoare_bind; [apply kcall_answer|]. intros v. cbn beta. apply hoare_pre. intros [l ->].
  specialize (Hall l). case_decide as Hlt.
  - intros w Hw. right. split; [unfold EINTR; lia|]. eapply at_eq; [|exact Hw]. clear Hw.
    intros r. unfold upd. destruct r; try done. cbn. by rewrite decide_False by (intros [_ ?]; lia).
  - eapply hoare_bind; [apply put_at|]. intros u' w Hw. left. split; [done|]. eexists.
    eapply at_eq; [|exact Hw]. clear Hw. intros r. unfold upd. destruct r; try done. cbn. by rewrite (decide_True (P := d = d ∧ _)) by (split; [done|lia]).
Qed.

Lemma kfree_at hp ls dv h a g : hp !! a = None →
  hoare False (At (<[a := g]> hp) ls dv h) (kfree a) (λ _, At hp ls dv h).
Proof.
  intros Ha w [Hh Hl Hd Hr]. split; cbn -[held]; try done. rewrite Hh. by rewrite delete_insert_id.
Qed.

(** The regions of the new device are unmapped and it is freed. *)
Lemma priv_out_at hp ls dv h a g rs : hp !! a = None → pdev g = d → mem_regions g = rs →
  (∀ j, h (Mapped j) = false) →
  hoare False (At (<[a := g]> hp) ls dv (mapping 0 rs h)) (priv_init_out a)
    (λ o w, o = None ∧ At hp ls dv h w).
Proof.
  intros Ha Hg Hm Hh. unfold priv_init_out.
  eapply hoare_bind; [apply (unmap_regions_at _ _ _ _ _ g); [by rewrite lookup_insert_eq|done|]|].
  { intros j. cbn. rewrite Hm. by rewrite Nat.sub_0_r. }
  intros u. rewrite insert_insert_eq.
  eapply hoare_bind; [by apply kfree_at|]. intros u' w Hw. split; [done|].
  eapply at_eq; [|exact Hw]. clear Hw. by intros [].
Qed.

(** What the kernel gives a device for the probe to be defined: a bridge above
    it, and a CCSR with an address. *)
Record probable : Prop := {
  p_vectors : vectors_all_or_none;
  p_bridge : is_Some (bus_self d);
  p_ccsr : pci_resource_start d 0%nat + GUL_MEM_REGION_CCSR_OFFSET ≠ 0;
  p_size : page_align (i32 GUL_MMAP_CCSR_OFFSET) ≠ 0 }.

Lemma priv_init_at hp ls dv i : probable →
  hoare False (At hp ls dv (holds true true false nothing)) (gul_pci_priv_init d i) (λ o w,
    match o with
    | None => At hp ls dv (holds true true false nothing) w
    | Some a => ∃ g, hp !! a = None ∧ pdev g = d ∧ gid g = i ∧ msi_en g = true ∧
        mapped (mem_regions g) 0 = true ∧
        At (<[a := g]> hp) (ls ++ [a]) dv (holds true true true (mapped (mem_regions g))) w
    end).
Proof.
  intros [Hv _ Hc Hs]. unfold gul_pci_priv_init.
  eapply hoare_bind; [apply kcall_plain; by intros ? []|]. intros ok. cbn beta.
  case_decide; [by intros ? ?|].
  apply (hoare_bind _ (λ a w, hp !! a = None ∧ At hp ls dv (holds true true false nothing) w)).
  { intros w Hw. split; [|exact Hw]. rewrite <- (at_heap _ _ _ _ _ Hw). apply not_elem_of_dom, is_fresh. }
  intros a. apply hoare_pre. intros Ha.
  eapply hoare_bind; [apply put_at|]. intros u. cbn beta.
  eapply hoare_bind; [by apply mod_at|]. intros u1. cbn beta.
  eapply hoare_bind; [by apply mod_at|]. intros u2. cbn beta.
  set (g := GulDev d i (bar_regions d) false []).
  eapply hoare_bind; [eapply (map_regions_at _ _ _ _ a g); [by rewrite lookup_insert_eq|done|reflexivity|by repeat constructor|done|done|done]|].
  intros rc w (rs & Hw & Hrc & Hz). revert w Hw. rewrite insert_insert_eq.
  change (hoare False (At (<[a := with_regions rs g]> hp) ls dv (mapping 0 rs (holds true true false nothing)))
    (if decide (rc ≠ 0) then priv_init_out a else
     rc ← set_multiple_msi a;
     if decide (rc < 0) then priv_init_out a else
     _ ← modify (λ w, set_list (pcidev_list w ++ [a]) w);
     mret (Some a))
    (λ o w, match o with
      | None => At hp ls dv (holds true true false nothing) w
      | Some a => ∃ g, hp !! a = None ∧ pdev g = d ∧ gid g = i ∧ msi_en g = true ∧
          mapped (mem_regions g) 0 = true ∧
          At (<[a := g]> hp) (ls ++ [a]) dv (holds true true true (mapped (mem_regions g))) w
      end)).
  case_decide as Hr.
  - eapply hoare_weaken; [done| |by eapply (priv_out_at _ _ _ _ a (with_regions rs g) rs)].
    by intros o w [-> Hw].
  - assert (rc = 0) as -> by lia. specialize (Hz eq_refl).
    eapply hoare_bind; [apply (multiple_msi_at _ _ _ _ a (with_regions rs g)); [done|by rewrite lookup_insert_eq|done|done]|].
    intros rc w [[-> [t Hw]]|[Hlt Hw]].
    + rewrite decide_False by lia. rewrite insert_insert_eq in Hw.
      destruct Hw as [Hh Hl Hd Hr']. cbn -[held].
      exists (GulDev d i rs true t). do 4 (split; [done|]). split; [exact Hz|].
      split; cbn -[held]; [exact Hh|by rewrite Hl|exact Hd|].
      intros r. rewrite Hr'. destruct r as [| | |j]; try done. cbn. by rewrite Nat.sub_0_r.
    + rewrite decide_True by lia.
      pose proof (priv_out_at hp ls dv (holds true true false nothing) a (with_regions rs g) rs Ha eq_refl eq_refl (λ _, eq_refl) w Hw) as Ho.
      destruct (priv_init_out a w) as [[o w']|]; [|done]. destruct Ho as [-> Ho]. exact Ho.
Qed.

(** The labels give back what was taken, the last first. *)
Lemma err2_at hp ls dv s rc : hoare False (At hp ls dv (holds true false false nothing)) (err2 d s rc)
  (λ r w, r = rc ∧ At hp ls dv (holds false false false nothing) w).
Proof.
  unfold err2. eapply hoare_bind; [apply (kcall__gives _ _ _ _ (holds false false false nothing))|].
  { intros v []; unfold upd; cbn; try done. by rewrite decide_True. }
  intros u. eapply hoare_bind; [apply kcall__plain; by intros ? []|]. intros u1. cbn beta.
  eapply hoare_bind; [apply kcall_plain; by intros ? []|]. intros p. cbn beta.
  apply (hoare_bind _ (λ _, At hp ls dv (holds false false false nothing))).
  - case_decide; [by intros ? ?|by apply mod_at].
  - by intros u2 w Hw.
Qed.

Lemma err3_at hp ls dv s rc : hoare False (At hp ls dv (holds true true false nothing)) (err3 d s rc)
  (λ r w, r = rc ∧ At hp ls dv (holds false false false nothing) w).
Proof.
  unfold err3. eapply hoare_bind; [apply (kcall__gives _ _ _ _ (holds true false false nothing))|].
  { intros v []; unfold upd; cbn; try done. by rewrite decide_True. }
  intros u. apply err2_at.
Qed.

Lemma filter_ne (a : nat) (l : list nat) : a ∉ l → filter (λ b, b ≠ a) l = l.
Proof.
  induction l as [|b l IH]; intros Hn; [done|]. apply not_elem_of_cons in Hn as [Hb Hn].
  rewrite filter_cons_True by congruence. by rewrite IH.
Qed.

Lemma dev_free_at hp ls dv h a g : hp !! a = None → a ∉ ls → dv !! d = None → pdev g = d →
  hoare False (At (<[a := g]> hp) (ls ++ [a]) dv h) (gul_dev_free a) (λ _, At hp ls dv h).
Proof.
  intros Ha Hl Hd Hg. unfold gul_dev_free.
  eapply hoare_bind; [apply get_at; by rewrite lookup_insert_eq|]. intros g'. apply hoare_pre. intros ->.
  apply (hoare_bind _ (λ _, At (<[a := g]> hp) ls dv h)).
  { intros w [Hh Hls Hdv Hr]. split; cbn -[held]; try done. rewrite Hls, filter_app, filter_cons_False, app_nil_r by tauto.
    by apply filter_ne. }
  intros u. apply (hoare_bind _ (λ _, At (<[a := g]> hp) ls dv h)).
  { intros w [Hh Hls Hdv Hr]. split; cbn -[held]; try done. rewrite Hdv, Hg. by apply delete_id. }
  intros u1. by apply kfree_at.
Qed.

Lemma err5_at hp ls dv a g s rc : hp !! a = None → a ∉ ls → dv !! d = None → pdev g = d → msi_en g = true →
  hoare False (At (<[a := g]> hp) (ls ++ [a]) dv (holds true true true (mapped (mem_regions g)))) (err5 d a s rc)
    (λ r w, r = rc ∧ At hp ls dv (holds false false false nothing) w).
Proof.
  intros Ha Hl Hd Hg Hm. unfold err5.
  eapply hoare_bind; [apply (unmap_regions_at _ _ _ _ _ g); [by rewrite lookup_insert_eq|done|done]|].
  intros u. cbn beta. rewrite insert_insert_eq. set (g1 := with_regions _ g).
  apply (hoare_bind _ (λ _, At (<[a := GulDev d (gid g) (mem_regions g1) false (girq g)]> hp) (ls ++ [a]) dv
    (holds true true false nothing))).
  - unfold gul_dev_reset_interrupt_capability.
    eapply hoare_bind; [apply get_at; by rewrite lookup_insert_eq|]. intros g'. apply hoare_pre. intros ->.
    change (msi_en g1) with (msi_en g). rewrite Hm. change (pdev g1) with (pdev g). rewrite Hg.
    eapply hoare_bind; [apply (kcall__gives _ _ _ _ (holds true true false nothing))|].
    { intros v []; unfold upd; cbn; try done. by rewrite decide_True. }
    intros u1. eapply hoare_weaken; [done| |apply put_at]. intros u2 w. by rewrite insert_insert_eq.
  - intros u1. unfold err4. eapply hoare_bind; [by apply dev_free_at|]. intros u2. apply err3_at.
Qed.

(** What a probe leaves: everything held by a listed device, or nothing. *)
Definition up (hp : gmap nat gul_dev) (ls : list nat) (dv : gmap string nat) (w : pciw) : Prop :=
  ∃ a g, hp !! a = None ∧ pdev g = d ∧ mapped (mem_regions g) 0 = true ∧
    At (<[a := g]> hp) (ls ++ [a]) (<[d := a]> dv) (holds true true true (mapped (mem_regions g))) w.

Lemma probe_base_at hp ls dv a g s : hp !! a = None → a ∉ ls → dv !! d = None → pdev g = d → msi_en g = true →
  mapped (mem_regions g) 0 = true →
  hoare False (At (<[a := g]> hp) (ls ++ [a]) dv (holds true true true (mapped (mem_regions g)))) (probe_base d a s)
    (λ rc w, if decide (rc = 0) then up hp ls dv w else At hp ls dv (holds false false false nothing) w).
Proof.
  intros Ha Hl Hd Hg Hm H0'. unfold probe_base.
  apply (hoare_bind _ (λ _, At (<[a := g]> hp) (ls ++ [a]) dv (holds true true true (mapped (mem_regions g))))).
  { unfold errata. destruct ERRATA_A010867; [apply kcall_plain; by intros ? []|by intros ? ?]. }
  intros rc. case_decide as Hrc.
  { eapply hoare_weaken; [done| |by apply err5_at]. intros r w [-> Hw]. by rewrite decide_False by tauto. }
  eapply hoare_bind; [apply kcall_plain; by intros ? []|]. intros rc'. cbn beta.
  destruct (decide (rc' ≠ 0)) as [Hr|Hr].
  { eapply hoare_weaken; [done| |by apply err5_at]. intros r w [-> Hw]. by rewrite decide_False. }
  apply (hoare_bind _ (λ _, At (<[a := g]> hp) (ls ++ [a]) (<[d := a]> dv) (holds true true true (mapped (mem_regions g))))).
  { intros w [Hh Hls Hdv Hr']. split; cbn -[held]; try done. by rewrite Hdv. }
  intros u w Hw. cbn. rewrite decide_True by lia. by exists a, g.
Qed.

Lemma tune_at hp ls dv h : is_Some (bus_self d) →
  hoare False (At hp ls dv h) (pcidev_tune_caps d) (λ _, At hp ls dv h).
Proof.
  intros [p Hp]. unfold pcidev_tune_caps. rewrite Hp.
  eapply (hoare_bind _ (λ v w, v = p ∧ At hp ls dv h w)); [by intros w Hw|]. intros v. apply hoare_pre. intros ->.
  destruct (bus_parent p); [by intros ? ?|]. destruct (negb _); [by intros ? ?|].
  do 2 (eapply hoare_bind; [apply kcall__plain; by intros ? []|]; intros ?; cbn beta). by intros ? ?.
Qed.

Lemma probe_at hp ls dv c : probable → (∀ a, a ∈ ls → is_Some (hp !! a)) → dv !! d = None →
  hoare False (At hp ls dv (holds false false false nothing)) (gul_pcidev_probe c d)
    (λ rc w, At hp ls dv (holds false false false nothing) w ∨ (rc = 0 ∧ up hp ls dv w)).
Proof.
  intros Hp Hls Hd. unfold gul_pcidev_probe.
  set (Q := λ (rc : Z) w, At hp ls dv (holds false false false nothing) w ∨ (rc = 0 ∧ up hp ls dv w)).
  apply (hoare_bind _ (λ _, At hp ls dv (holds false false false nothing))).
  { unfold get_gul_dev_id_pcidevname. eapply (hoare_bind _ (λ _, At hp ls dv (holds false false false nothing))); [by intros ? ?|].
    intros t. destruct (dev_index d t); [by intros ? ?|]. case_decide; [by intros ? ?|].
    eapply (hoare_bind _ (λ _, At hp ls dv (holds false false false nothing))); [by intros ? ?|]. intros n.
    do 2 (case_decide; [by intros ? ?|]). eapply hoare_bind; [by apply mod_at|]. by intros ? ? ?. }
  intros i. case_decide; [intros w Hw; by left|].
  eapply hoare_bind; [apply kcall_at|]. intros rc. cbn beta. destruct (decide (rc ≠ 0)) as [Hr|Hr].
  { intros w Hw. left. eapply at_eq; [|exact Hw]. clear Hw. intros []; unfold upd; cbn; try done. by rewrite decide_False by tauto. }
  apply (hoare_weaken _ (At hp ls dv (holds true false false nothing)) _ _ Q); [|done|].
  { intros w Hw. eapply at_eq; [|exact Hw]. clear Hw. intros []; unfold upd; cbn; try done. rewrite decide_True; [done|split; [done|lia]]. }
  eapply hoare_bind; [apply kcall_at|]. intros rc1. cbn beta. destruct (decide (rc1 ≠ 0)) as [Hr1|Hr1].
  { eapply hoare_weaken; [| |apply err2_at]; [|intros r w [_ Hw]; by left].
    intros w Hw. eapply at_eq; [|exact Hw]. clear Hw. intros []; unfold upd; cbn; try done. by rewrite decide_False by tauto. }
  apply (hoare_weaken _ (At hp ls dv (holds true true false nothing)) _ _ Q); [|done|].
  { intros w Hw. eapply at_eq; [|exact Hw]. clear Hw. intros []; unfold upd; cbn; try done. rewrite decide_True; [done|split; [done|lia]]. }
  eapply hoare_bind; [apply kcall__plain; by intros ? []|]. intros u. cbn beta.
  apply (hoare_bind _ (λ _, At hp ls dv (holds true true false nothing))).
  { unfold dma_masks. eapply hoare_bind; [apply kcall_plain; by intros ? []|]. intros r. cbn beta.
    case_decide; [apply kcall_plain; by intros ? []|by intros ? ?]. }
  intros rc2. case_decide.
  { eapply hoare_weaken; [done| |apply err3_at]. intros r w [_ Hw]. by left. }
  eapply hoare_bind; [apply tune_at, Hp|]. intros u1. cbn beta.
  eapply hoare_bind; [by apply priv_init_at|]. intros [a|]; cbn beta iota.
  - intros w (g & Ha & Hg & Hi & Hm & H0' & Hw). revert w Hw.
    change (hoare False (At (<[a := g]> hp) (ls ++ [a]) dv (holds true true true (mapped (mem_regions g))))
      (g ← get_dev a; probe_base d a (gid g)) Q).
    eapply hoare_bind; [apply get_at; by rewrite lookup_insert_eq|]. intros g'. apply hoare_pre. intros ->.
    eapply hoare_weaken; [done| |apply probe_base_at; try done].
    + intros r w Hw. cbn beta in Hw. unfold Q. destruct (decide (r = 0)); [by right|by left].
    + intros Hin. destruct (Hls a Hin) as [? Hs]. by rewrite Ha in Hs.
  - unfold err4. eapply (hoare_bind _ (λ _, At hp ls dv (holds true true false nothing))); [by intros ? ?|]. intros u2.
    eapply hoare_weaken; [done| |apply err3_at]. intros r w [_ Hw]. by left.
Qed.
End At.

(** ** Removal *)
Section Removal.
Context `{HostIf, PciIf, PciCalls, ScratchIf}.

(** The calls and the devices leave the rest of the world alone. *)
Lemma keeps_kcall {X} (f : pciw → X) c : (∀ l w, f (set_klog l w) = f w) → keeps f (kcall c).
Proof. intros Hf w r w' [= _ <-]. apply Hf. Qed.
Lemma keeps_get_dev {X} (f : pciw → X) a : keeps f (get_dev a).
Proof. intros w g w'. unfold get_dev. destruct (heap w !! a); [|done]. by intros [= _ <-]. Qed.
Hint Resolve keeps_get_dev : keeps.
Hint Extern 1 (keeps _ (kcall _)) => apply keeps_kcall; reflexivity : keeps.
Lemma keeps_unmap_loop d rs : ∀ i, keeps bound (unmap_loop d i rs).
Proof. induction rs as [|m rs IH]; intros i; cbn [unmap_loop]; keeps_tac. Qed.
Hint Resolve keeps_unmap_loop : keeps.
Lemma keeps_remove d : keeps bound (gul_pcidev_remove d).
Proof. unfold gul_pcidev_remove. keeps_tac. Qed.

(** No entry of the table goes away. *)
Definition slots (w : pciw) : nat := length (gul_dev_id w).
Lemma keeps_slots_unmap d rs : ∀ i, keeps slots (unmap_loop d i rs).
Proof. induction rs as [|m rs IH]; intros i; cbn [unmap_loop]; keeps_tac. Qed.
Hint Resolve keeps_slots_unmap : keeps.
Hint Extern 1 (keeps slots (modify _)) =>
  apply keeps_modify; intros ?; unfold slots; cbn; by rewrite ?length_insert : keeps.
Lemma keeps_slots d : keeps slots (gul_pcidev_remove d).
Proof. unfold gul_pcidev_remove. keeps_tac. Qed.

(** A device that is up: bound to its structure, and holding everything. *)
Definition is_up (d : string) (a : nat) (g : gul_dev) (w : pciw) : Prop :=
  heap w !! a = Some g ∧ pdev g = d ∧ drvdata w !! d = Some a ∧ msi_en g = true ∧
  ∀ r, held (klog w) d r = holds true true true (mapped (mem_regions g)) r.

(** The structures, the driver data and the ledger after its removal. *)
Definition taken_down (d : string) (a : nat) (w w' : pciw) : Prop :=
  heap w' = delete a (heap w) ∧ pcidev_list w' = filter (λ b, b ≠ a) (pcidev_list w) ∧
  drvdata w' = delete d (drvdata w) ∧ ∀ r, held (klog w') d r = false.

Lemma remove_run d a g w id : is_up d a g w →
  gul_dev_id w !! Z.to_nat (gid g) = Some id → remove_in_progress id = 0 →
  ∃ w', gul_pcidev_remove d w = Some (tt, w') ∧ taken_down d a w w' ∧ bound w' = bound w ∧ slots w' = slots w.
Proof.
  intros (Ha & Hg & Hd & Hm & Hr) Hid Hp.
  assert (Hrun : hoare False (At d (heap w) (pcidev_list w) (drvdata w) (holds true true true (mapped (mem_regions g)))) (
      _ ← kcall_ (BaseRemove d); _ ← gul_unmap_mem_regions a; _ ← gul_dev_reset_interrupt_capability a;
      _ ← kcall_ (ReleaseRegions d); _ ← kcall_ (DisableDevice d); _ ← kcall_ (WdogStatus (gid g));
      _ ← kcall_ (WdogDomain (gid g)); _ ← kcall_ (GetDevice d); p ← kcall (KthreadRun (gid g));
      _ ← (if decide (p < 0) then mret tt else modify (λ w, set_threads (threads w ++ [gid g]) w));
      gul_dev_free a) (λ _ w', taken_down d a w w')).
  { eapply hoare_bind; [apply kcall__plain; by intros ? []|]. intros u. cbn beta.
    eapply hoare_bind; [by apply (unmap_regions_at _ _ _ _ _ _ g)|]. intros u1. cbn beta. set (g1 := with_regions _ g).
    eapply (hoare_bind _ (λ _, At d (<[a := GulDev d (gid g) (mem_regions g1) false (girq g)]> (heap w)) (pcidev_list w)
      (drvdata w) (holds true true false nothing))).
    { unfold gul_dev_reset_interrupt_capability.
      eapply hoare_bind; [apply get_at; by rewrite lookup_insert_eq|]. intros g'. apply hoare_pre. intros ->.
      change (msi_en g1) with (msi_en g). rewrite Hm. change (pdev g1) with (pdev g). rewrite Hg.
      eapply hoare_bind; [apply (kcall__gives _ _ _ _ _ (holds true true false nothing))|].
      { intros v []; unfold upd; cbn; try done. by rewrite decide_True. }
      intros u2. eapply hoare_weaken; [done| |apply put_at]. intros u3 w'. by rewrite insert_insert_eq. }
    intros u2. eapply hoare_bind; [apply (kcall__gives _ _ _ _ _ (holds true false false nothing))|].
    { intros v []; unfold upd; cbn; try done. by rewrite decide_True. }
    intros u3. cbn beta. eapply hoare_bind; [apply (kcall__gives _ _ _ _ _ (holds false false false nothing))|].
    { intros v []; unfold upd; cbn; try done. by rewrite decide_True. }
    intros u4. cbn beta. do 3 (eapply hoare_bind; [apply kcall__plain; by intros ? []|]; intros ?; cbn beta).
    eapply hoare_bind; [apply kcall_plain; by intros ? []|]. intros p. cbn beta.
    eapply hoare_bind; [instantiate (1 := λ _, At d (<[a := GulDev d (gid g) (mem_regions g1) false (girq g)]> (heap w)) (pcidev_list w)
      (drvdata w) (holds false false false nothing)); case_decide; [by intros ? ?|by apply mod_at]|].
    intros u5. unfold gul_dev_free. eapply hoare_bind; [apply get_at; by rewrite lookup_insert_eq|].
    intros g'. apply hoare_pre. intros -> w' [Hh Hl Hdv Hr']. unfold kfree. cbv [mbind M_bind modify].
    unfold taken_down. cbn [heap pcidev_list drvdata klog set_heap set_list set_drvdata].
    rewrite Hh, Hl, Hdv, delete_insert_eq. split; [done|]. split; [done|]. split; [done|].
    intros r. rewrite Hr'. by destruct r. }
  set (w1 := set_ids (<[Z.to_nat (gid g) := ModemId (mpdev id) (is_pci_dev_removed id) 1]> (gul_dev_id w)) w).
  specialize (Hrun w1 ltac:(by split)).
  assert (Hdo : ∃ w', gul_pcidev_remove d w = Some (tt, w') ∧ taken_down d a w w').
  { unfold gul_pcidev_remove.
    rewrite (M_bind_run _ _ w (Some a) w) by (unfold gets; by rewrite Hd).
    rewrite (M_bind_run _ _ w g w) by (unfold get_dev; by rewrite Ha).
    rewrite (M_bind_run _ _ w (Some id) w) by (unfold gets; by rewrite Hid).
    rewrite (M_bind_run _ _ w id w) by done. rewrite decide_False by lia.
    rewrite (M_bind_run _ _ w tt w1) by done.
    lazymatch type of Hrun with match ?m with _ => _ end => destruct m as [[[] w']|] eqn:Hm'; [|done] end.
    by exists w'. }
  destruct Hdo as (w' & Hdo & Ht). exists w'. split; [done|]. split; [done|]. split; [by apply keeps_remove in Hdo|by apply keeps_slots in Hdo].
Qed.


(** The removal of a device that is up. *)
Theorem remove_gives_back d a g w id : is_up d a g w →
  gul_dev_id w !! Z.to_nat (gid g) = Some id → remove_in_progress id = 0 →
  ∃ w', gul_pcidev_remove d w = Some (tt, w') ∧ taken_down d a w w'.
Proof. intros Hu Hid Hp. destruct (remove_run d a g w id Hu Hid Hp) as (w' & Hw & Ht & _). by exists w'. Qed.

(** Calls for another device are no business of this one. *)
Definition foreign (d0 : string) (c : pci_call) : Prop := ∀ v r, effect d0 r (c, v) = None.
Lemma held_foreign d0 l l' r : Forall (λ e, foreign d0 (fst e)) l' → held (l ++ l') d0 r = held l d0 r.
Proof.
  revert l. induction l' as [|[c v] l' IH]; intros l Hf; [by rewrite app_nil_r|].
  apply Forall_cons in Hf as [Hc Hf]. rewrite (cons_middle _ l l'), app_assoc, IH, held_snoc by done. by rewrite Hc.
Qed.

(** The first failure of a probe, on the device not yet having its structure. *)
Lemma probe_refused_run c d i rc w :
  dev_index d (g_gul_global w) = Some i →
  (∀ l, answer l (EnableDevice d) = 0) → (∀ l, answer l (RequestRegions d) = rc) → rc ≠ 0 →
  (∀ l, 0 ≤ answer l (KthreadRun 0)) →
  ∃ l, gul_pcidev_probe c d w = Some (rc, set_threads (threads w ++ [0]) (set_klog (klog w ++ l) w)) ∧
    ∀ d0, d0 ≠ d → Forall (λ e, foreign d0 (fst e)) l.
Proof.
  intros Hi He Hq Hrc Hk. unfold gul_pcidev_probe, get_gul_dev_id_pcidevname, err2, kcall_, kcall.
  cbv [mbind M_bind gets modify]. rewrite Hi. cbn [mret M_ret].
  rewrite decide_False by lia. rewrite He. rewrite decide_False by tauto. rewrite Hq. rewrite decide_True by done.
  cbn [klog set_klog]. rewrite decide_False by (apply Zle_not_lt, Hk). cbn. rewrite <- !app_assoc.
  eexists. split; [reflexivity|]. intros d0 Hd. repeat constructor; intros v []; cbn; try done;
    rewrite decide_False by (intros Hx; apply Hd; destruct_and?; congruence); done.
Qed.

(** C11: the failed probe of another device takes the first modem down.  Until
    the device has its structure the error exit starts the removal thread for
    modem 0: with the regions of [d] refused, the thread removes [d0], which was
    up. *)
Theorem failed_probe_removes_modem_0 c d d0 i rc a g w :
  dev_index d (g_gul_global w) = Some i →
  (∀ l, answer l (EnableDevice d) = 0) → (∀ l, answer l (RequestRegions d) = rc) → rc ≠ 0 →
  (∀ l, 0 ≤ answer l (KthreadRun 0)) → threads w = [] →
  is_up d0 a g w → gid g = 0 → gul_dev_id w !! 0%nat = Some (ModemId (Some d0) 0 0) → d0 ∈ bound w → d ≠ d0 →
  ∃ w1 w2, bind c d w = Some (rc, w1) ∧ heap w1 = heap w ∧ run_thread w1 = Some (0, w2) ∧
    d0 ∉ bound w2 ∧ heap w2 = delete a (heap w) ∧ drvdata w2 !! d0 = None ∧ ∀ r, held (klog w2) d0 r = false.
Proof.
  intros Hi He Hq Hrc Hk Hth Hup Hg0 Hid Hb Hne.
  destruct (probe_refused_run c d i rc w Hi He Hq Hrc Hk) as (l & Hp & Hf). specialize (Hf d0 ltac:(done)).
  set (w1 := set_threads (threads w ++ [0]) (set_klog (klog w ++ l) w)) in *.
  assert (Hbind : bind c d w = Some (rc, w1)).
  { unfold bind. rewrite (M_bind_run _ _ _ _ _ Hp). by rewrite decide_False. }
  set (w2 := set_bound (filter (λ x, x ≠ d0) (bound w))
    (set_klog (klog w ++ l ++ [(StopAndRemove d0, answer (klog w ++ l) (StopAndRemove d0))]) (set_threads [] w))).
  assert (Hup2 : is_up d0 a g w2).
  { destruct Hup as (Ha & Hg & Hd & Hm & Hr). repeat split; try done. intros r.
    change (klog w2) with (klog w ++ l ++ [(StopAndRemove d0, answer (klog w ++ l) (StopAndRemove d0))]).
    rewrite held_foreign; [apply Hr|]. apply Forall_app. split; [done|]. repeat constructor. by intros v []. }
  destruct (remove_run d0 a g w2 (ModemId (Some d0) 0 0) Hup2) as (w3 & H3 & (T1 & T2 & T3 & T4) & T5 & T6);
    [by rewrite Hg0|done|].
  assert (Hlen : is_Some (gul_dev_id w3 !! 0%nat)).
  { apply lookup_lt_is_Some. change (0 < slots w3)%nat. rewrite T6. unfold slots. cbn.
    apply lookup_lt_is_Some. by rewrite Hid. }
  destruct Hlen as [id Hid3].
  exists w1. eexists. split; [done|]. split; [done|]. split; [|split; [|split; [|split]]].
  - unfold run_thread. rewrite (M_bind_run _ _ w1 [0] w1) by (unfold gets; cbn; by rewrite Hth).
    rewrite (M_bind_run _ _ w1 tt (set_threads [] w1)) by done.
    unfold gul_remove_pci_dev.
    rewrite (M_bind_run _ _ _ (Some (ModemId (Some d0) 0 0)) (set_threads [] w1)) by (unfold gets; by rewrite <- Hid).
    rewrite (M_bind_run _ _ _ (ModemId (Some d0) 0 0) (set_threads [] w1)) by done. cbn [mpdev].
    assert (Hs : stop_and_remove d0 (set_threads [] w1) = Some (tt, w3)).
    { unfold stop_and_remove, kcall_, kcall. cbv [mbind M_bind gets modify mret M_ret].
      cbn [bound set_klog set_threads]. rewrite decide_True by done. rewrite <- H3. unfold w2. cbn. by rewrite <- app_assoc. }
    rewrite (M_bind_run _ _ _ _ _ Hs). unfold kcall_, kcall. cbv [mbind M_bind gets modify mret M_ret].
    cbn [gul_dev_id set_klog lift]. change (gul_dev_id (set_klog _ w3)) with (gul_dev_id w3). 
    match goal with |- context [gul_dev_id w3 !! ?k] => change (gul_dev_id w3 !! k) with (gul_dev_id w3 !! 0%nat) end.
    rewrite Hid3. cbn [lift]. reflexivity.
  - cbn. rewrite T5. cbn. intros Hin. apply list_elem_of_filter in Hin. tauto.
  - cbn. by rewrite T1.
  - cbn. rewrite T3. by rewrite lookup_delete_eq.
  - intros r. cbn [klog set_klog set_ids]. rewrite held_snoc, T4. by destruct r.
Qed.
(** Without a list of addresses, a first device that cannot be enabled uses up
    the only number: from then on every probe returns 0 and does nothing. *)
Theorem first_failure_locks_out d d' rc w : g_gul_global w = replicate MAX_MODEM (Global false "") →
  gul_dev_id_g w = 0 → d ≠ "" → d' ≠ "" → answer (klog w) (EnableDevice d) = rc → rc ≠ 0 →
  ∃ w1, gul_pcidev_probe 0 d w = Some (rc, w1) ∧ gul_pcidev_probe 0 d' w1 = Some (0, w1).
Proof.
  intros Ht Hn Hd Hd' He Hrc.
  assert (Hnone : ∀ n, n ≠ "" → dev_index n (replicate MAX_MODEM (Global false "")) = None).
  { intros n Hne. unfold dev_index. rewrite (proj2 (list_find_None _ _)); [done|].
    apply Forall_replicate. cbn. congruence. }
  exists (set_klog (klog w ++ [(EnableDevice d, rc)]) (set_dev_id_g 1 w)).
  unfold gul_pcidev_probe, get_gul_dev_id_pcidevname, kcall. split.
  - cbv [mbind M_bind gets modify]. rewrite Ht, Hnone, (decide_False (P := 0 ≠ 0)) by tauto. cbv beta. rewrite Hn.
    change (Z.of_nat MAX_MODEM) with 4. rewrite !(decide_False (P := (_ ≤ 0))) by lia. cbn [mret M_ret].
    rewrite decide_False by lia. cbn [klog set_dev_id_g]. rewrite He.
    by rewrite decide_True.
  - cbv [mbind M_bind gets modify]. cbn [g_gul_global set_klog set_dev_id_g]. rewrite Ht, Hnone by done. done.
Qed.

(** ** The module *)

(** A device class that cannot be created is reported as success: nothing is
    registered, and the module stays loaded. *)
Theorem class_failure_hidden m n w : answer (klog w) ClassCreate < 0 →
  init_tail m n w = Some (0, set_klog (klog w ++ [(ClassCreate, answer (klog w) ClassCreate)]) w).
Proof.
  intros Hc. unfold init_tail, kcall. cbv [mbind M_bind]. by rewrite decide_True.
Qed.

(** TTI devices that cannot be set up take the class and the attributes down
    again, but not the sub-drivers. *)
Theorem tti_failure_leaves_subdrivers m n w rc : (∀ l, 0 ≤ answer l ClassCreate) →
  (∀ l, answer l SubdrvInit = 0) → (∀ l, answer l InitTti = rc) → rc ≠ 0 →
  ∃ w', init_tail m n w = Some (rc, w') ∧
    fst <$> klog w' = (fst <$> klog w) ++ [ClassCreate; InitSysfs; SubdrvInit; InitTti; RemoveSysfs; ClassDestroy].
Proof.
  intros Hc Hs Ht Hrc. unfold init_tail, out1, kcall_, kcall. cbv [mbind M_bind].
  rewrite decide_False by (apply Zle_not_lt, Hc). cbn [mret M_ret]. rewrite Hs. rewrite decide_False by tauto.
  rewrite Ht. rewrite decide_True by done. eexists. split; [reflexivity|]. cbn [klog set_klog].
  by rewrite !fmap_app, <- !app_assoc.
Qed.
End Removal.

(** ** A host with two modems *)
#[local] Instance demo_scratch : ScratchIf := {|
  PAGE_SHIFT := 12; GUL_EP_CORE_MAX := 8; GUL_SCRATCH_DMA_BUF_END_ADDR := 0xE0000000;
  PCI_OUTBOUND_WINDOW_BASE_ADDR := 0xA0000000; GUL_OB_WIN_SCRATCH_BUF := 3 |}.
#[local] Instance demo_host : HostIf := {|
  GUL_MSI_MAX_CNT := 8; IPC_MAX_CHANNEL_COUNT := 4; MAX_PCI_USER_ALLOC_COUNT := 4;
  GUL_OB_WIN_HUGE_PAGE_BUFS := 2; MPIC_MSIIR_SRS_BIT := 29; MPIC_MSIIR_IBS_BIT := 24;
  PCIE_ATU_REGION_OUTBOUND := 0; PCIE_ATU_TYPE_MEM := 0; PCIE_ATU_ENABLE := 0x80000000 |}.
#[local] Instance demo_if : PciIf := {|
  GUL_MEM_REGION_CCSR_OFFSET := 0; GUL_MEM_REGION_DCSR_OFFSET := 0; GUL_MEM_REGION_PEBM_OFFSET := 0;
  GUL_MEM_REGION_FECA_OFFSET := 0x1000000; GUL_MMAP_CCSR_OFFSET := 0x4000000; GUL_MMAP_DCSR_SIZE := 0x100000;
  GUL_MMAP_PEBM_SIZE := 0x100000; GUL_MEM_REGION_FECA_MEM_SIZE := 0x2000000; ERRATA_A010867 := false |}.
(** The second modem's regions are taken by another driver. *)
#[local] Instance demo_calls : PciCalls := {|
  answer _ c := match c with
    | Kzalloc _ => 1 | Ioremap _ _ => 0x1000 | AllocVectors _ => 8
    | RequestRegions d => if decide (d = "modem1") then -16 else 0
    | _ => 0
    end;
  pci_resource_start _ i := 0x40000000 + Z.of_nat i * 0x10000000;
  pdev_irq _ := 60; num_possible_cpus := 4;
  bus_self _ := Some "bridge"; bus_parent _ := false; is_pcie _ := true;
  devcap d := if decide (d = "bridge") then 2 else 1 |}.
Definition demo_start : pciw :=
  set_globals [Global false "modem0"; Global false "modem1"; Global false ""; Global false ""] (set_dev_id_g 2 pciw_0).

Lemma demo_probable : probable "modem0".
Proof. split; [|by exists "bridge"|by vm_compute|by vm_compute]. split; [cbn; lia|]. intros l. right. by vm_compute. Defined.


(** The first modem is up. *)
Definition demo_one_up : pciw := match bind 2 "modem0" demo_start with Some (_, w) => w | None => pciw_0 end.
Definition demo_dev : gul_dev := default (GulDev "" 0 [] false []) (heap demo_one_up !! 0%nat).

Lemma failed_probe_removes_modem_0_witness : ∃ w1 w2,
  bind 2 "modem1" demo_one_up = Some (-16, w1) ∧ run_thread w1 = Some (0, w2) ∧ "modem0" ∉ bound w2.
Proof.
  destruct (failed_probe_removes_modem_0 2 "modem1" "modem0" 1 (-16) 0 demo_dev demo_one_up)
    as (w1 & w2 & Hb & _ & Ht & Hn & _).
  - vm_compute. reflexivity.
  - intros l. reflexivity.
  - intros l. reflexivity.
  - discriminate.
  - intros l. cbn. lia.
  - vm_compute. reflexivity.
  - repeat split; [vm_compute; reflexivity..|]. intros [| | |[|[|[|[|j]]]]]; vm_compute; reflexivity.
  - vm_compute. reflexivity.
  - vm_compute. reflexivity.
  - apply (bool_decide_unpack _). vm_compute. exact I.
  - discriminate.
  - exists w1, w2. split; [exact Hb|]. split; [exact Ht|exact Hn].
Defined.
