(* ===== verification/GulTtiDev.v ===== *)
(** * The class of the timing devices and reading from one (kernel_driver/yami/gul_base.c)

    The numbers, the class and the slots that the module sets up for all modems before
    any is probed, and what a read of a device does: it sleeps until the next interrupt.
    A slot of the array is what [kmalloc] left there until it is written. *)
From S2P Require Import Prelude GulMsi GulTti GulPci.
From Stdlib Require Import Ascii.
#[global] Open Scope Z_scope.

(** ** The class *)

Inductive tti_slot := Garbage | Null | Slots (n : Z).
#[export] Instance tti_slot_eq : EqDecision tti_slot.
Proof. solve_decision. Defined.

(** The numbers registered, whether the class exists, and the array: unset, NULL or its
    slots. *)
Record tti_class := TtiClass {
  chrdev : option Z; class : bool; dev_data : option (option (list tti_slot)); tti_per_dev : Z }.
Record tti_answers := TtiAnswers {
  alloc_chrdev_region : Z; class_create : bool; kmalloc_data : bool; kzalloc_slots : nat → bool }.

(** The number of devices of a modem: what the parameter of the module says, but for the
    boards of this build. *)
Definition devices_per_modem (la1224 disable_sideband : bool) (rev : ascii) (per : Z) : Z :=
  if la1224 then
    if negb disable_sideband then if decide (rev = "C"%char) then 3 else per else 1
  else per.

(** The slots of the modems from [j] on, [n] left. *)
Fixpoint slots_loop (ok : nat → bool) (per : Z) (n j : nat) (l : list tti_slot) (err : Z) : list tti_slot * Z :=
  match n with
  | O => (l, err)
  | S n => if ok j then slots_loop ok per n (S j) (<[j := Slots per]> l) err else (<[j := Null]> l, - ENOMEM)
  end.

Definition init_tti_dev (la1224 disable_sideband : bool) (rev : ascii) (k : tti_answers) (w : tti_class) : Z * tti_class :=
  let per := devices_per_modem la1224 disable_sideband rev (tti_per_dev w) in
  let err := alloc_chrdev_region k in
  let numbers := if decide (err = 0) then Some (Z.of_nat MAX_MODEM * per) else chrdev w in
  if negb (kmalloc_data k) then (- ENOMEM, TtiClass numbers (class_create k) (Some None) per) else
  let '(l, err) := slots_loop (kzalloc_slots k) per MAX_MODEM 0 (replicate MAX_MODEM Garbage) err in
  (err, TtiClass numbers (class_create k) (Some (Some l)) per).

(** [None] is the use of a slot that was never written, or of an array that is not
    there. *)
Definition remove_tti_dev (w : tti_class) : option tti_class :=
  d ← dev_data w; l ← d;
  if decide (Garbage ∈ (l : list tti_slot)) then None else Some (TtiClass None false None (tti_per_dev w)).

(** ** Open, read *)

(** The file's device: that of the character device opened, until it is released. *)
Definition gul_tti_dev_open (cdev : nat) (private_data : option nat) : Z * option nat := (0, Some cdev).
Definition gul_tti_dev_release (private_data : option nat) : Z * option nat := (0, None).

(** A read sleeps in the queue of the device until it is woken, without a look at
    anything that happened before. *)
Inductive wq_call := LockQueue | PrepareSwait | UnlockQueue | Schedule | FinishSwait.
Definition read_sleep : list wq_call :=
  [LockQueue; PrepareSwait; UnlockQueue; Schedule; LockQueue; FinishSwait; UnlockQueue].
(** The end of [gul_tti_dev_read]: an [int] of the counter is stored, and the size of
    the counter, eight, is returned.  The counter is a word of a structure that
    [kmalloc] made. *)
Definition read_result (tti_count : Z) (put_user : Z) : Z * option Z :=
  if decide (put_user = 0) then (8, Some (i32 tti_count)) else (put_user, None).
Definition gul_tti_dev_read (tti_count put_user : Z) : list wq_call * (Z * option Z) :=
  (read_sleep, read_result tti_count put_user).

(** ** Theorems *)

Lemma slots_loop_length ok per n : ∀ j l err, length (slots_loop ok per n j l err).1 = length l.
Proof.
  induction n as [|n IH]; intros j l err; cbn; [done|]. destruct (ok j); [|cbn; apply length_insert].
  by rewrite IH, length_insert.
Qed.
Lemma slots_loop_err ok per n : ∀ j l err, (slots_loop ok per n j l err).2 =
  if forallb ok (seq j n) then err else - ENOMEM.
Proof.
  induction n as [|n IH]; intros j l err; cbn [slots_loop seq forallb]; [done|].
  destruct (ok j); [|done]. by rewrite IH.
Qed.
Lemma slots_loop_good ok per n : ∀ j l err i, forallb ok (seq j n) = true → (j ≤ i < j + n)%nat → (i < length l)%nat →
  (slots_loop ok per n j l err).1 !! i = Some (Slots per).
Proof.
  induction n as [|n IH]; intros j l err i Hok Hi Hl; [lia|]. cbn [seq forallb] in Hok. cbn [slots_loop].
  apply andb_true_iff in Hok as [Hj Hok]. rewrite Hj. destruct (decide (i = j)) as [->|Hne].
  - clear IH Hok. assert (Hkeep : ∀ n k m err, (j < k)%nat → (slots_loop ok per n k m err).1 !! j = m !! j).
    { clear. induction n as [|n IH]; intros k m err Hk; cbn; [done|]. destruct (ok k); cbn [fst].
      - rewrite IH by lia. apply list_lookup_insert_ne. lia.
      - apply list_lookup_insert_ne. lia. }
    rewrite Hkeep by lia. by apply list_lookup_insert_eq.
  - apply IH; [done|lia|by rewrite length_insert].
Qed.

(** What the module set up can be taken down: when the setting up succeeds the numbers
    are registered and every modem has its slots, and the removal leaves nothing. *)
Theorem tti_class_balanced la ds rev k w : (init_tti_dev la ds rev k w).1 = 0 →
  let w' := (init_tti_dev la ds rev k w).2 in
  chrdev w' = Some (4 * tti_per_dev w') ∧ dev_data w' = Some (Some (replicate 4 (Slots (tti_per_dev w')))) ∧
  remove_tti_dev w' = Some (TtiClass None false None (tti_per_dev w')).
Proof.
  unfold init_tti_dev. set (per := devices_per_modem la ds rev (tti_per_dev w)).
  destruct (kmalloc_data k); cbn [negb]; [|done].
  destruct (slots_loop _ _ _ _ _ _) as [l err] eqn:E. cbn [fst snd chrdev tti_per_dev dev_data]. intros ->.
  assert (He := slots_loop_err (kzalloc_slots k) per MAX_MODEM 0 (replicate MAX_MODEM Garbage) (alloc_chrdev_region k)).
  rewrite E in He. cbn [snd] in He. destruct (forallb _ _) eqn:Hall; [|done].
  rewrite decide_True by done. split; [done|].
  assert (l = replicate 4 (Slots per)) as ->.
  { assert (Hlen := slots_loop_length (kzalloc_slots k) per MAX_MODEM 0 (replicate MAX_MODEM Garbage) (alloc_chrdev_region k)).
    rewrite E in Hlen. cbn [fst] in Hlen. rewrite length_replicate in Hlen.
    apply list_eq_same_length with (n := MAX_MODEM); [by rewrite length_replicate|done|].
    intros i x y Hi Hx Hy. assert (Hg := slots_loop_good (kzalloc_slots k) per MAX_MODEM 0 (replicate MAX_MODEM Garbage)
      (alloc_chrdev_region k) i Hall ltac:(lia) ltac:(by rewrite length_replicate)).
    rewrite E in Hg. cbn [fst] in Hg. apply lookup_replicate in Hy as [-> _]. congruence. }
  split; [done|]. reflexivity.
Qed.

(** When it fails nothing is taken down: a class that was made, and numbers registered
    by then, stay; the module's removal is not run. *)
Lemma tti_class_leaks la ds rev k w : (init_tti_dev la ds rev k w).1 ≠ 0 → class_create k = true →
  class (init_tti_dev la ds rev k w).2 = true ∧
  (alloc_chrdev_region k = 0 → is_Some (chrdev (init_tti_dev la ds rev k w).2)).
Proof.
  unfold init_tti_dev. destruct (kmalloc_data k); cbn [negb].
  - destruct (slots_loop _ _ _ _ _ _) as [l err]. cbn [fst snd class chrdev]. intros _ Hc. split; [done|].
    intros ->. rewrite decide_True by done. eauto.
  - cbn [fst snd class chrdev]. intros _ Hc. split; [done|]. intros ->. rewrite decide_True by done. eauto.
Qed.
