(* ===== verification/GulWdog.v ===== *)
(** * The watchdog driver and its library
      (kernel_driver/yami/gul_wdog.c, lib/wdog/gul_wdog_lib.c)

    One device per modem: an interrupt that reports the death of the modem, a
    reset line, and the status user space waits for.  The calls of the kernel and
    their answers are a log; the answers are [WdogCalls].  The work an interrupt
    schedules is run by a step of its own.  A field of a [kmalloc]ed structure
    that is not assigned yet is [None]; the array of the instances has one
    element, and an index past it is undefined. *)
From S2P Require Import Prelude GulMsi GulPci.
From stdpp Require Import strings.
#[global] Open Scope Z_scope.

Definition WDOG_MODEM_NOT_READY : Z := 0.
Definition WDOG_MODEM_READY : Z := 1.
Definition WDOG_MODEM_HSDCS_ERR : Z := 2.
Definition WDOG_MODEM_WARMUP_RESET : Z := 3.
Definition PCI_DOMAIN_NR_INVALID : Z := -1.
Definition MODEM_WDOG_OPEN_FAIL : Z := 1.
Definition MODEM_WDOG_WRITE_FAIL : Z := 2.

(** ** Calls *)
Inductive wdog_call :=
  | RequestIrq (i : nat) | FreeIrq (i : nat)
  | FilesLookup (fd : Z) | EventfdGet (fd : Z) | EventfdPut (c : Z) | EventfdSignal (c : Z)
  | OfNode (i : nat) | OfIrq (i : nat) | OfGpio (i : nat)
  | GpioRequest (i : nat) | GpioOutput (i : nat) | GpioFree (i : nat) | GpioSet (i : nat) (v : Z)
  | KmallocDev (i : nat) | KmallocData (i : nat) | KfreeDev (i : nat) | KfreeData (i : nat)
  | CdevAdd (i : nat) | CdevDel (i : nat) | DeviceCreate (i : nat) | DeviceDestroy (i : nat)
  | ReadRemoved (i : nat) | WarmupFlags (i : nat) | PciReset (i : nat) | Wake (i : nat)
  | CopyFromUser | CopyToUser | PutUser | CancelWork (i : nat)
  | AllocChrdev | ClassCreate | UnregisterChrdev | ClassDestroy.
#[export] Instance wdog_call_eq : EqDecision wdog_call.
Proof. solve_decision. Defined.

(** The answer to a call after those before it; [disable_sideband]; the bit of the
    warm-up flags the modem sets for a reset, from an absent header. *)
Class WdogCalls := {
  wanswer : list (wdog_call * Z) → wdog_call → Z;
  disable_sideband : bool;
  GUL_WDOG_WARMUP_MODEM_RESET : Z }.

(** ** State *)

(** [struct wdog] of the requests. *)
Record wdog := Wdog { wdogid : Z; dev_wdog_handle : Z; wdog_eventfd : Z; req_status : Z; req_domain : Z }.
Definition wdog_0 : wdog := Wdog 0 0 0 0 0.

(** [evt_fd_ctxt]: [None] before the first registration, [Some None] for NULL.
    [wq_ready]: the wait queue and its lock are initialised. *)
Record wdog_priv := Priv {
  irq : Z; irq_status_flag : Z; gpio : Z; wdog_modem_status : Z; domain_nr : Z;
  uspace_registered : bool; evt_fd_ctxt : option (option Z); wq_ready : bool }.

(** [wdog_dev_data_g] with what it points to, [wdog_probed_once],
    [wdog_handler_notifier], [warmup_flag], the work not yet run, the log. *)
Record wdw := Wdw {
  wdog_dev_data_g : list (option wdog_priv); wdog_probed_once : list bool;
  wdog_handler_notifier : list Z; warmup_flag : list bool; works : list nat; wlog : list (wdog_call * Z) }.

Definition wdw_0 : wdw :=
  Wdw (replicate MAX_MODEM None) (replicate MAX_MODEM false) (replicate MAX_MODEM 0)
    (replicate MAX_MODEM false) [] [].

Section Wdog.
Context `{WdogCalls}.
Local Abbreviation W := (M wdw).

Definition set_data (v : list (option wdog_priv)) (w : wdw) : wdw :=
  Wdw v (wdog_probed_once w) (wdog_handler_notifier w) (warmup_flag w) (works w) (wlog w).
Definition set_probed (v : list bool) (w : wdw) : wdw :=
  Wdw (wdog_dev_data_g w) v (wdog_handler_notifier w) (warmup_flag w) (works w) (wlog w).
Definition set_notifier (v : list Z) (w : wdw) : wdw :=
  Wdw (wdog_dev_data_g w) (wdog_probed_once w) v (warmup_flag w) (works w) (wlog w).
Definition set_warmup (v : list bool) (w : wdw) : wdw :=
  Wdw (wdog_dev_data_g w) (wdog_probed_once w) (wdog_handler_notifier w) v (works w) (wlog w).
Definition set_works (v : list nat) (w : wdw) : wdw :=
  Wdw (wdog_dev_data_g w) (wdog_probed_once w) (wdog_handler_notifier w) (warmup_flag w) v (wlog w).
Definition set_wlog (v : list (wdog_call * Z)) (w : wdw) : wdw :=
  Wdw (wdog_dev_data_g w) (wdog_probed_once w) (wdog_handler_notifier w) (warmup_flag w) (works w) v.

Definition wcall (c : wdog_call) : W Z := λ w,
  let r := wanswer (wlog w) c in Some (r, set_wlog (wlog w ++ [(c, r)]) w).
Definition wcall_ (c : wdog_call) : W unit := _ ← wcall c; mret tt.

(** The instance of modem [i]: through NULL it is undefined. *)
Definition get_priv (i : nat) : W wdog_priv := λ w,
  match mjoin (wdog_dev_data_g w !! i) with Some p => Some (p, w) | None => None end.
Definition put_priv (i : nat) (p : wdog_priv) : W unit :=
  modify (λ w, set_data (<[i := Some p]> (wdog_dev_data_g w)) w).
(** [&wdog_dev->wdog_priv_t[wdogid]]. *)
Definition priv_at (i : nat) (id : Z) : W wdog_priv := if decide (id = 0) then get_priv i else lift None.

Definition set_flag (v : Z) (p : wdog_priv) : wdog_priv :=
  Priv (irq p) v (gpio p) (wdog_modem_status p) (domain_nr p) (uspace_registered p) (evt_fd_ctxt p) (wq_ready p).
Definition set_status (v : Z) (p : wdog_priv) : wdog_priv :=
  Priv (irq p) (irq_status_flag p) (gpio p) v (domain_nr p) (uspace_registered p) (evt_fd_ctxt p) (wq_ready p).
Definition set_domain (v : Z) (p : wdog_priv) : wdog_priv :=
  Priv (irq p) (irq_status_flag p) (gpio p) (wdog_modem_status p) v (uspace_registered p) (evt_fd_ctxt p) (wq_ready p).
Definition set_uspace (v : bool) (p : wdog_priv) : wdog_priv :=
  Priv (irq p) (irq_status_flag p) (gpio p) (wdog_modem_status p) (domain_nr p) v (evt_fd_ctxt p) (wq_ready p).
Definition set_evt (v : option Z) (p : wdog_priv) : wdog_priv :=
  Priv (irq p) (irq_status_flag p) (gpio p) (wdog_modem_status p) (domain_nr p) (uspace_registered p) (Some v) (wq_ready p).
Definition set_wq (p : wdog_priv) : wdog_priv :=
  Priv (irq p) (irq_status_flag p) (gpio p) (wdog_modem_status p) (domain_nr p) (uspace_registered p) (evt_fd_ctxt p) true.

(** [eventfd_ctx_put], [eventfd_signal]: not on an error pointer. *)
Definition ctx_call (f : Z → wdog_call) (c : Z) : W unit := if decide (c < 0) then lift None else wcall_ (f c).

(** ** Interrupt and event *)
Definition wdog_irq_handler (i : nat) : W unit :=
  p ← get_priv i;
  if decide (wdog_modem_status p ≠ WDOG_MODEM_READY) then mret tt
  else modify (λ w, set_works (works w ++ [i]) w).

(** The context of the caller's eventfd: a number without a file is a call
    through NULL; a file that is no eventfd gives an error pointer. *)
Definition eventfd_of (fd : Z) : W (option Z) :=
  if decide (0 < fd) then
    f ← wcall (FilesLookup fd);
    if decide (f = 0) then lift None else c ← wcall (EventfdGet fd); mret (Some c)
  else mret None.

(** The error exit of the registration. *)
Definition register_err (i : nat) (ret : Z) : W Z :=
  p ← get_priv i;
  evt ← lift (evt_fd_ctxt p);
  _ ← (match evt with
       | Some c => _ ← ctx_call EventfdPut c; put_priv i (set_evt None p)
       | None => mret tt
       end);
  mret ret.

Definition wdog_register_irq (i : nat) (t : wdog) : W Z :=
  p ← priv_at i (wdogid t);
  _ ← put_priv i (set_evt None p);
  evt ← eventfd_of (wdog_eventfd t);
  let p := set_evt evt p in
  _ ← put_priv i p;
  if decide (irq p ≠ 0) then
    if decide (irq_status_flag p = 0) then
      ret ← wcall (RequestIrq i);
      if decide (ret < 0) then register_err i ret else
      _ ← put_priv i (set_flag 1 p); mret 0
    else mret 0
  else register_err i (- EINVAL).

Definition wdog_deregister_irq (i : nat) (t : wdog) : W unit :=
  p ← priv_at i (wdogid t);
  _ ← (if decide (irq_status_flag p ≠ 0) then
         _ ← put_priv i (set_flag 0 p); wcall_ (FreeIrq i)
       else mret tt);
  p ← get_priv i;
  evt ← lift (evt_fd_ctxt p);
  match evt with
  | Some c => _ ← ctx_call EventfdPut c; put_priv i (set_evt None p)
  | None => mret tt
  end.

(** ** Reset *)

(** [while (is_pci_dev_removed == 0) udelay(100)]: no bound of its own; [fuel] is
    the number of looks, and running out of it is [None]. *)
Fixpoint wait_removed (fuel : nat) (i : nat) : W unit :=
  match fuel with
  | O => lift None
  | S fuel => r ← wcall (ReadRemoved i); if decide (r = 0) then wait_removed fuel i else mret tt
  end.

Definition wdog_reset_modem (fuel i : nat) (t : wdog) : W unit :=
  if decide (Z.of_nat MAX_MODEM ≤ wdogid t) then mret tt else
  p ← priv_at i (wdogid t);
  _ ← wait_removed fuel i;
  if decide (gpio p ≠ 0) then _ ← wcall_ (GpioSet i 0); wcall_ (GpioSet i 1) else mret tt.

Definition wdog_reset_modem_ext (fuel i : nat) : W unit :=
  _ ← get_priv i;
  _ ← wdog_reset_modem fuel i wdog_0;
  p ← get_priv i;
  if decide (irq_status_flag p ≠ 0) then wdog_deregister_irq i wdog_0 else mret tt.

(** ** Status *)

(** [swake_up_all_locked] under its lock, which must be initialised. *)
Definition wake (i : nat) : W unit := p ← get_priv i; if (wq_ready p : bool) then wcall_ (Wake i) else lift None.

Definition wdog_set_modem_status (id status : Z) : W Z :=
  if decide (Z.of_nat MAX_MODEM ≤ id) then mret (- ENODEV) else
  if decide (id < 0) then lift None else
  let i := Z.to_nat id in
  d ← gets (λ w, mjoin (wdog_dev_data_g w !! i));
  match d with
  | None => mret (- ENODEV)
  | Some p => _ ← put_priv i (set_status status p); _ ← wake i; mret 0
  end.

Definition wdog_set_pci_domain_nr (id domain : Z) : W Z :=
  if decide (Z.of_nat MAX_MODEM ≤ id) then mret (- ENODEV) else
  if decide (id < 0) then lift None else
  let i := Z.to_nat id in
  d ← gets (λ w, mjoin (wdog_dev_data_g w !! i));
  match d with
  | None => mret (- ENODEV)
  | Some p => _ ← put_priv i (set_domain domain p); mret 0
  end.

Definition wdog_get_modem_status (i : nat) (t : wdog) : W wdog :=
  p ← priv_at i (wdogid t);
  mret (Wdog (wdogid t) (dev_wdog_handle t) (wdog_eventfd t) (wdog_modem_status p) (req_domain t)).
Definition wdog_get_pci_domain_nr (i : nat) (t : wdog) : W wdog :=
  p ← priv_at i (wdogid t);
  mret (Wdog (wdogid t) (dev_wdog_handle t) (wdog_eventfd t) (req_status t) (domain_nr p)).

Definition gul_reset_modem (i : nat) (status : Z) : W Z :=
  p ← get_priv i;
  _ ← put_priv i (set_status status p);
  _ ← modify (λ w, set_works (works w ++ [i]) w);
  mret 0.

(** [read]: after the wake-up, the status; the count is that of another field. *)
Definition gul_wdog_dev_read (i : nat) : W (Z * Z) :=
  p ← get_priv i;
  rc ← wcall PutUser;
  mret (if decide (rc = 0) then 8 else rc, wdog_modem_status p).

(** ** Requests *)
Inductive wdog_cmd :=
  | IOCTL_GUL_MODEM_WDOG_REGISTER | IOCTL_GUL_MODEM_WDOG_DEREGISTER | IOCTL_GUL_MODEM_WDOG_RESET
  | IOCTL_GUL_MODEM_WDOG_GET_STATUS | IOCTL_GUL_MODEM_WDOG_GET_DOMAIN | WdogOther.

(** The answer copied back, with the caller's structure as it was when the copy
    fails. *)
Definition answer_user (t t' : wdog) : W (Z * wdog) :=
  r ← wcall CopyToUser; mret (if decide (r ≠ 0) then (- EFAULT, t) else (0, t')).

Definition gul_wdog_dev_ioctl (fuel i : nat) (cmd : wdog_cmd) (t : wdog) : W (Z * wdog) :=
  match cmd with
  | WdogOther => mret (- ENOTTY, t)
  | _ =>
      r ← wcall CopyFromUser;
      if decide (r ≠ 0) then mret (- EFAULT, t) else
      match cmd with
      | IOCTL_GUL_MODEM_WDOG_REGISTER =>
          p ← get_priv i;
          _ ← put_priv i (set_uspace true p);
          _ ← modify (λ w, set_notifier (<[i := 1]> (wdog_handler_notifier w)) w);
          ret ← wdog_register_irq i t;
          mret (ret, t)
      | IOCTL_GUL_MODEM_WDOG_DEREGISTER =>
          _ ← wdog_deregister_irq i t;
          _ ← modify (λ w, set_notifier (<[i := 0]> (wdog_handler_notifier w)) w);
          mret (0, t)
      | IOCTL_GUL_MODEM_WDOG_RESET => _ ← wdog_reset_modem fuel i t; mret (0, t)
      | IOCTL_GUL_MODEM_WDOG_GET_STATUS => t' ← wdog_get_modem_status i t; answer_user t t'
      | IOCTL_GUL_MODEM_WDOG_GET_DOMAIN => t' ← wdog_get_pci_domain_nr i t; answer_user t t'
      | WdogOther => mret (0, t)
      end
  end.

(** ** The work *)
Definition new_status (flags cur : Z) : Z :=
  if decide (Z.land flags GUL_WDOG_WARMUP_MODEM_RESET ≠ 0) then WDOG_MODEM_WARMUP_RESET
  else if decide (cur = WDOG_MODEM_HSDCS_ERR) then cur else WDOG_MODEM_NOT_READY.

Definition clear_warmup (i : nat) : W unit := modify (λ w, set_warmup (<[i := false]> (warmup_flag w)) w).

Definition modem_worker (i : nat) : W unit :=
  flags ← wcall (WarmupFlags i);
  p ← get_priv i;
  let p := set_status (new_status (u32 flags) (wdog_modem_status p)) p in
  _ ← put_priv i p;
  warm ← gets (λ w, nth i (warmup_flag w) false);
  if (uspace_registered p : bool) then
    evt ← lift (evt_fd_ctxt p);
    _ ← (match evt with Some c => ctx_call EventfdSignal c | None => mret tt end);
    _ ← (if (warm : bool) then clear_warmup i else mret tt);
    wake i
  else
    if decide (warm = true ∨ wdog_modem_status p = WDOG_MODEM_HSDCS_ERR) then
      _ ← clear_warmup i; wcall_ (PciReset i)
    else mret tt.

Definition run_work : W unit :=
  l ← gets works;
  match l with
  | [] => mret tt
  | i :: l => _ ← modify (set_works l); modem_worker i
  end.

(** ** Probe and removal *)

(** [gpio_request] and the direction; on the first failure nothing is held. *)
Definition wdog_gpio_config (i : nat) (g : Z) : W Z :=
  if decide (g ≠ 0) then
    ret ← wcall (GpioRequest i);
    if decide (ret ≠ 0) then mret ret else
    ret ← wcall (GpioOutput i);
    if decide (ret < 0) then _ ← wcall_ (GpioFree i); mret ret else mret ret
  else mret (- EINVAL).

Definition probe_out_irq (i : nat) (flag rc : Z) : W Z :=
  _ ← (if decide (flag ≠ 0) then wcall_ (FreeIrq i) else mret tt);
  _ ← wcall_ (KfreeDev i);
  mret rc.
Definition probe_out_gpio (i : nat) (g flag rc : Z) : W Z :=
  _ ← (if decide (g ≠ 0) then wcall_ (GpioFree i) else mret tt); probe_out_irq i flag rc.
Definition probe_out_device (i : nat) (g flag rc : Z) : W Z :=
  _ ← wcall_ (CdevDel i);
  _ ← wcall_ (KfreeData i);
  _ ← modify (λ w, set_data (<[i := None]> (wdog_dev_data_g w)) w);
  probe_out_gpio i g flag rc.

(** The device once its structures are there. *)
Definition wdog_probe_device (i : nat) (irq_no g : Z) : W Z :=
  _ ← put_priv i (Priv irq_no 0 g WDOG_MODEM_NOT_READY PCI_DOMAIN_NR_INVALID false None false);
  warm ← gets (λ w, nth i (warmup_flag w) false);
  _ ← (if (warm : bool) then wdog_register_irq i wdog_0 else mret 0);
  _ ← wcall_ (CdevAdd i);
  dev ← wcall (DeviceCreate i);
  p ← get_priv i;
  if decide (dev = 0) then probe_out_device i g (irq_status_flag p) (- ENODEV) else
  _ ← put_priv i (set_wq p);
  mret 0.

Definition wdog_probe (i : nat) : W Z :=
  if (disable_sideband : bool) then mret 0 else
  node ← wcall (OfNode i);
  if decide (node = 0) then mret (- ENODEV) else
  once ← gets (λ w, nth i (wdog_probed_once w) false);
  if (once : bool) then _ ← get_priv i; mret 0 else
  _ ← modify (λ w, set_probed (<[i := true]> (wdog_probed_once w)) w);
  ok ← wcall (KmallocDev i);
  if decide (ok = 0) then mret (- ENOMEM) else
  irq_no ← wcall (OfIrq i);
  if decide (irq_no < 0) then probe_out_irq i 0 (- EINVAL) else
  g ← wcall (OfGpio i);
  if decide (g < 0) then probe_out_irq i 0 (- EINVAL) else
  rc ← wdog_gpio_config i g;
  if decide (rc < 0) then probe_out_gpio i g 0 (- ENODEV) else
  ok ← wcall (KmallocData i);
  if decide (ok = 0) then probe_out_gpio i g 0 (- ENOMEM) else
  wdog_probe_device i irq_no g.

Definition create_wdog_cdevs : W Z :=
  r ← wcall AllocChrdev;
  if decide (r < 0) then mret (-1) else
  c ← wcall ClassCreate;
  if decide (c = 0) then _ ← wcall_ UnregisterChrdev; mret (-1) else mret 0.
Definition wdog_init : W Z := rc ← create_wdog_cdevs; mret (if decide (rc < 0) then rc else 0).

Fixpoint exit_loop (fuel : nat) (i n : nat) : W unit :=
  match n with
  | O => mret tt
  | S n =>
      d ← gets (λ w, mjoin (wdog_dev_data_g w !! i));
      _ ← (match d with
           | None => mret tt
           | Some _ =>
               _ ← wdog_reset_modem fuel i wdog_0;
               p ← get_priv i;
               _ ← (if decide (irq_status_flag p ≠ 0) then wcall_ (FreeIrq i) else mret tt);
               _ ← (if decide (gpio p ≠ 0) then wcall_ (GpioFree i) else mret tt);
               _ ← wcall_ (DeviceDestroy i);
               _ ← wcall_ (CdevDel i);
               _ ← wcall_ (CancelWork i);
               _ ← wcall_ (KfreeDev i);
               wcall_ (KfreeData i)
           end);
      exit_loop fuel (S i) n
  end.
Definition wdog_exit (fuel : nat) : W Z :=
  _ ← exit_loop fuel 0 MAX_MODEM; _ ← wcall_ ClassDestroy; _ ← wcall_ UnregisterChrdev; mret 0.

End Wdog.
