(* ===== verification/GulWdogCorrect.v ===== *)
(** * The watchdog driver: theorems *)
From S2P Require Import Prelude GulMsi GulPci GulWdog.
From stdpp Require Import strings.
#[global] Open Scope Z_scope.

(** ** The ledger of the interrupt lines *)

(** Whether modem [i] holds its interrupt; [None] once it was requested while it
    was held, or given back while it was not. *)
Definition irq_effect (i : nat) (b : option bool) (e : wdog_call * Z) : option bool :=
  match e with
  | (RequestIrq j, r) => if decide (j = i ∧ 0 ≤ r) then (if decide (b = Some false) then Some true else None) else b
  | (FreeIrq j, _) => if decide (j = i) then (if decide (b = Some true) then Some false else None) else b
  | _ => b
  end.
Definition irq_held (l : list (wdog_call * Z)) (i : nat) : option bool := fold_left (irq_effect i) l (Some false).

Lemma irq_held_snoc l e i : irq_held (l ++ [e]) i = irq_effect i (irq_held l i) e.
Proof. unfold irq_held. by rewrite fold_left_app. Qed.

(** What the driver thinks. *)
Definition flag_of (w : wdw) (i : nat) : bool :=
  match mjoin (wdog_dev_data_g w !! i) with Some p => bool_decide (irq_status_flag p ≠ 0) | None => false end.

(** The ledger agrees with the flags, and a modem not probed has no instance. *)
Record irq_inv (w : wdw) : Prop := {
  i_held : ∀ i, irq_held (wlog w) i = Some (flag_of w i);
  i_fresh : ∀ i, nth i (wdog_probed_once w) false = false → mjoin (wdog_dev_data_g w !! i) = None;
  i_data : length (wdog_dev_data_g w) = MAX_MODEM;
  i_probed : length (wdog_probed_once w) = MAX_MODEM }.

Lemma irq_inv_0 : irq_inv wdw_0.
Proof. by split; [intros [|[|[|[|i]]]]|intros [|[|[|[|i]]]]|..]. Qed.

Section Inv.
Context `{WdogCalls}.

(** The instance of modem [i] is [p]. *)
Definition inst (i : nat) (p : wdog_priv) (w : wdw) : Prop :=
  irq_inv w ∧ wdog_dev_data_g w !! i = Some (Some p).

Lemma get_inst i : hoare True irq_inv (get_priv i) (inst i).
Proof.
  intros w Hw. unfold get_priv. destruct (wdog_dev_data_g w !! i) as [[p|]|] eqn:Hp; cbn; try done.
Qed.
Lemma at_inst i id : hoare True irq_inv (priv_at i id) (inst i).
Proof. unfold priv_at. case_decide; [apply get_inst|by intros w Hw]. Qed.
Lemma inst_get i p : hoare True (inst i p) (get_priv i) (λ q w, q = p ∧ inst i p w).
Proof. intros w [Hw Hp]. unfold get_priv. by rewrite Hp. Qed.

(** Calls that are no request and no release. *)
Definition plain (c : wdog_call) : Prop := ∀ r i b, irq_effect i b (c, r) = b.

Lemma held_inv w w' : irq_inv w → wdog_probed_once w' = wdog_probed_once w →
  (∀ i, mjoin (wdog_dev_data_g w !! i) = None → mjoin (wdog_dev_data_g w' !! i) = None) →
  length (wdog_dev_data_g w') = length (wdog_dev_data_g w) →
  (∀ i, irq_held (wlog w') i = Some (flag_of w' i)) → irq_inv w'.
Proof.
  intros [Hh Hf Hd Hp] Hpr Hn Hl Hh'. split; [done| |by rewrite Hl|by rewrite Hpr].
  intros i. rewrite Hpr. intros Hi. by apply Hn, Hf.
Qed.

Lemma wcall_inv c : plain c → hoare True irq_inv (wcall c) (λ _, irq_inv).
Proof.
  intros Hc w Hw. eapply held_inv; [exact Hw|done..|]. intros i. cbn -[irq_held]. rewrite irq_held_snoc, Hc. apply Hw.
Qed.
Lemma wcall_inst c i p : plain c → hoare True (inst i p) (wcall c) (λ _, inst i p).
Proof. intros Hc w [Hw Hp]. split; [by apply (wcall_inv c Hc w Hw)|done]. Qed.
Lemma wcall__inv c : plain c → hoare True irq_inv (wcall_ c) (λ _, irq_inv).
Proof. intros Hc. eapply hoare_bind; [by apply wcall_inv|]. intros r w Hw. exact Hw. Qed.
Lemma wcall__inst c i p : plain c → hoare True (inst i p) (wcall_ c) (λ _, inst i p).
Proof. intros Hc. eapply hoare_bind; [by apply wcall_inst|]. intros r w Hw. exact Hw. Qed.

Lemma flag_insert w i p j : is_Some (wdog_dev_data_g w !! i) →
  flag_of (set_data (<[i := Some p]> (wdog_dev_data_g w)) w) j =
  if decide (j = i) then bool_decide (irq_status_flag p ≠ 0) else flag_of w j.
Proof.
  intros Hi. unfold flag_of. cbn. case_decide as Hj.
  - subst j. rewrite list_lookup_insert_eq; [done|]. by apply lookup_lt_is_Some.
  - by rewrite list_lookup_insert_ne by congruence.
Qed.

Lemma insert_none w i (p q : wdog_priv) j : wdog_dev_data_g w !! i = Some (Some p) →
  mjoin (wdog_dev_data_g w !! j) = None → mjoin (<[i := Some q]> (wdog_dev_data_g w) !! j) = None.
Proof.
  intros Hi Hj. destruct (decide (i = j)) as [->|Hne]; [by rewrite Hi in Hj|]. by rewrite list_lookup_insert_ne.
Qed.

(** Writing an instance without touching its flag. *)
Lemma put_inst i p q : irq_status_flag q = irq_status_flag p →
  hoare True (inst i p) (put_priv i q) (λ _, inst i q).
Proof.
  intros Hf w [Hw Hp]. split; cbn -[irq_held].
  - eapply held_inv; [exact Hw|done|intros j; by apply (insert_none w i p)|apply length_insert|].
    intros j. rewrite flag_insert by eauto. cbn [wlog set_data]. rewrite (i_held w Hw j). f_equal.
    case_decide as Hj; [|done]. subst j. unfold flag_of. rewrite Hp. cbn. by rewrite Hf.
  - apply list_lookup_insert_eq. by apply lookup_lt_Some in Hp.
Qed.

(** The request, with the flag set when it is granted. *)
Lemma request_inst i p q : irq_status_flag p = 0 → irq_status_flag q = 1 →
  hoare True (inst i p) (wcall (RequestIrq i)) (λ ret w,
    if decide (ret < 0) then inst i p w
    else match put_priv i q w with Some (_, w') => inst i q w' | None => False end).
Proof.
  intros Hp0 Hq w [Hw Hp]. unfold wcall. cbn -[irq_held decide]. case_decide as Hr.
  - split; [|done]. eapply held_inv; [exact Hw|done..|]. intros j. cbn -[irq_held]. rewrite irq_held_snoc. cbn.
    rewrite decide_False by lia. apply Hw.
  - split; cbn -[irq_held]; [|apply list_lookup_insert_eq; by apply lookup_lt_Some in Hp].
    eapply held_inv; [exact Hw|done|intros j; by apply (insert_none w i p)|apply length_insert|].
    intros j. cbn -[irq_held]. rewrite irq_held_snoc. cbn -[irq_held]. rewrite (i_held w Hw j).
    unfold flag_of. cbn. destruct (decide (j = i)) as [->|Hj].
    + rewrite list_lookup_insert_eq by (by apply lookup_lt_Some in Hp). rewrite Hp. cbn. rewrite Hp0, Hq. cbn.
      by rewrite decide_True by (split; [done|lia]).
    + rewrite list_lookup_insert_ne by congruence. by rewrite decide_False by (intros [? _]; congruence).
Qed.

(** The release, after the flag is cleared. *)
Lemma free_inst i p q : irq_status_flag p ≠ 0 → irq_status_flag q = 0 →
  hoare True (inst i p) (_ ← put_priv i q; wcall_ (FreeIrq i)) (λ _, inst i q).
Proof.
  intros Hp0 Hq w [Hw Hp]. unfold wcall_, wcall. cbv [mbind M_bind put_priv modify mret M_ret]. cbn -[irq_held].
  split; cbn -[irq_held]; [|apply list_lookup_insert_eq; by apply lookup_lt_Some in Hp].
  eapply held_inv; [exact Hw|done|intros j; by apply (insert_none w i p)|apply length_insert|].
  intros j. cbn -[irq_held]. rewrite irq_held_snoc. cbn -[irq_held]. rewrite (i_held w Hw j).
  unfold flag_of. cbn. destruct (decide (j = i)) as [->|Hj].
  - rewrite list_lookup_insert_eq by (by apply lookup_lt_Some in Hp). rewrite Hp. cbn. rewrite Hq.
    rewrite bool_decide_eq_true_2 by done. by rewrite decide_True.
  - rewrite list_lookup_insert_ne by congruence. by rewrite decide_False by congruence.
Qed.

Lemma ctx_inst (f : Z → wdog_call) c i p : plain (f c) → hoare True (inst i p) (ctx_call f c) (λ _, inst i p).
Proof. intros Hf. unfold ctx_call. case_decide; [by intros w Hw|by apply wcall__inst]. Qed.

(** ** Every operation keeps the ledger in step with the flags *)
Definition keeps_irq {A} (m : M wdw A) : Prop := hoare True irq_inv m (λ _, irq_inv).
Local Ltac pl := by intros ? ? ?.

Lemma inst_inv {A} i p (m : M wdw A) (Q : A → wdw → Prop) :
  hoare True irq_inv m Q → hoare True (inst i p) m Q.
Proof. intros Hm w [Hw _]. by apply Hm. Qed.

Lemma eventfd_inst fd i p : hoare True (inst i p) (eventfd_of fd) (λ _, inst i p).
Proof.
  unfold eventfd_of. case_decide; [|by intros w Hw].
  eapply hoare_bind; [apply wcall_inst; pl|]. intros f. cbn beta. case_decide; [by intros w Hw|].
  eapply hoare_bind; [apply wcall_inst; pl|]. intros c w Hw. exact Hw.
Qed.

Lemma register_err_inv i ret : keeps_irq (register_err i ret).
Proof.
  unfold register_err. eapply hoare_bind; [apply get_inst|]. intros p.
  eapply (hoare_bind _ (λ _, inst i p)); [intros w Hw; by destruct (evt_fd_ctxt p)|]. intros [c|].
  - eapply (hoare_bind _ (λ _, irq_inv)); [|by intros ? w Hw].
    eapply hoare_bind; [by apply ctx_inst; pl|]. intros u. cbn beta.
    eapply hoare_weaken; [done| |by apply put_inst]. by intros ? w [Hw _].
  - eapply (hoare_bind _ (λ _, irq_inv)); [by intros w [Hw _]|by intros ? w Hw].
Qed.

Lemma register_inv i t : keeps_irq (wdog_register_irq i t).
Proof.
  unfold wdog_register_irq. eapply hoare_bind; [apply at_inst|]. intros p.
  eapply hoare_bind; [by apply (put_inst _ _ (set_evt None p))|]. intros u. cbn beta.
  eapply hoare_bind; [apply eventfd_inst|]. intros evt. cbn beta zeta.
  eapply hoare_bind; [by apply (put_inst _ _ (set_evt evt p))|]. intros u1. cbn beta.
  case_decide; [|apply inst_inv, register_err_inv].
  case_decide as Hf; [|by intros w [Hw _]].
  eapply hoare_bind; [by apply (request_inst i (set_evt evt p) (set_flag 1 (set_evt evt p)))|]. intros ret.
  cbn beta. case_decide; [apply inst_inv, register_err_inv|].
  intros w Hw. rewrite M_bind_eq. destruct (put_priv i _ w) as [[v w']|]; [|done]. by destruct Hw.
Qed.

Lemma deregister_inv i t : keeps_irq (wdog_deregister_irq i t).
Proof.
  unfold wdog_deregister_irq. eapply hoare_bind; [apply at_inst|]. intros p.
  apply (hoare_bind _ (λ _, irq_inv)).
  { case_decide; [|by intros w [Hw _]]. eapply hoare_weaken; [done| |by apply (free_inst i p (set_flag 0 p))].
    by intros ? w [Hw _]. }
  intros u. eapply hoare_bind; [apply get_inst|]. intros p1.
  eapply (hoare_bind _ (λ _, inst i p1)); [intros w Hw; by destruct (evt_fd_ctxt p1)|]. intros [c|]; [|by intros w [Hw _]].
  eapply hoare_bind; [by apply ctx_inst; pl|]. intros u1. cbn beta.
  eapply hoare_weaken; [done| |by apply put_inst]. by intros ? w [Hw _].
Qed.

Lemma wait_inst fuel i j p : hoare True (inst j p) (wait_removed fuel i) (λ _, inst j p).
Proof.
  induction fuel as [|fuel IH]; cbn [wait_removed]; [by intros w Hw|].
  eapply hoare_bind; [apply wcall_inst; pl|]. intros r. cbn beta. case_decide; [apply IH|by intros w Hw].
Qed.

Lemma reset_inv fuel i t : keeps_irq (wdog_reset_modem fuel i t).
Proof.
  unfold wdog_reset_modem. case_decide; [by intros w Hw|].
  eapply hoare_bind; [apply at_inst|]. intros p. eapply hoare_bind; [apply wait_inst|]. intros u. cbn beta.
  case_decide; [|by intros w [Hw _]]. apply inst_inv.
  eapply hoare_bind; [apply wcall__inv; pl|]. intros u1. apply wcall__inv; pl.
Qed.

Lemma reset_ext_inv fuel i : keeps_irq (wdog_reset_modem_ext fuel i).
Proof.
  unfold wdog_reset_modem_ext. eapply hoare_bind; [apply get_inst|]. intros p. apply inst_inv.
  eapply hoare_bind; [apply reset_inv|]. intros u. cbn beta.
  eapply hoare_bind; [apply get_inst|]. intros p1. apply inst_inv. case_decide; [apply deregister_inv|by intros w Hw].
Qed.

Lemma wake_inv i : keeps_irq (wake i).
Proof.
  unfold wake. eapply hoare_bind; [apply get_inst|]. intros p. apply inst_inv.
  destruct (wq_ready p); [apply wcall__inv; pl|by intros w Hw].
Qed.
Lemma modify_inv (f : wdw → wdw) : (∀ w, wlog (f w) = wlog w ∧ wdog_dev_data_g (f w) = wdog_dev_data_g w ∧
    wdog_probed_once (f w) = wdog_probed_once w) →
  keeps_irq (modify f).
Proof.
  intros Hf w Hw. destruct (Hf w) as (Hl & Hd & Hp). cbn.
  eapply held_inv; [exact Hw|done|by rewrite Hd..|]. intros i. unfold flag_of. rewrite Hl, Hd. apply Hw.
Qed.

(** Writing one field of an instance that is there. *)
Lemma put_found {A} i p q (k : M wdw A) w : mjoin (wdog_dev_data_g w !! i) = Some p →
  irq_status_flag q = irq_status_flag p → keeps_irq k → irq_inv w →
  match (_ ← put_priv i q; k) w with Some (_, w') => irq_inv w' | None => True end.
Proof.
  intros Hp Hf Hk Hw. assert (Hi : inst i p w).
  { split; [done|]. destruct (wdog_dev_data_g w !! i) as [[p'|]|]; cbn in Hp; congruence. }
  pose proof (put_inst i p q Hf w Hi) as Hq. rewrite M_bind_eq.
  destruct (put_priv i q w) as [[u w']|]; [|done]. destruct Hq as [Hq _]. by apply Hk.
Qed.

Lemma set_status_inv id s : keeps_irq (wdog_set_modem_status id s).
Proof.
  unfold wdog_set_modem_status. case_decide; [by intros w Hw|]. case_decide; [by intros w Hw|].
  intros w Hw. rewrite M_bind_eq. unfold gets. cbv beta zeta iota.
  destruct (mjoin (wdog_dev_data_g w !! Z.to_nat id)) as [p|] eqn:Hp; [|exact Hw].
  apply (put_found _ p); try done. eapply hoare_bind; [apply wake_inv|]. by intros u w' Hw'.
Qed.
Lemma set_domain_inv id v : keeps_irq (wdog_set_pci_domain_nr id v).
Proof.
  unfold wdog_set_pci_domain_nr. case_decide; [by intros w Hw|]. case_decide; [by intros w Hw|].
  intros w Hw. rewrite M_bind_eq. unfold gets. cbv beta zeta iota.
  destruct (mjoin (wdog_dev_data_g w !! Z.to_nat id)) as [p|] eqn:Hp; [|exact Hw].
  apply (put_found _ p); try done. by intros w1 Hw1.
Qed.

Lemma ioctl_inv fuel i cmd t : keeps_irq (gul_wdog_dev_ioctl fuel i cmd t).
Proof.
  unfold gul_wdog_dev_ioctl. destruct cmd; try (by intros w Hw);
    (eapply hoare_bind; [apply wcall_inv; pl|]; intros r; cbn beta; case_decide; [by intros w Hw|]).
  - eapply hoare_bind; [apply get_inst|]. intros p. cbn beta.
    eapply hoare_bind; [by apply (put_inst _ _ (set_uspace true p))|]. intros u. cbn beta. apply inst_inv.
    eapply hoare_bind; [by apply modify_inv|]. intros u1. cbn beta.
    eapply hoare_bind; [apply register_inv|]. by intros ret w Hw.
  - eapply hoare_bind; [apply deregister_inv|]. intros u. cbn beta.
    eapply hoare_bind; [by apply modify_inv|]. by intros u1 w Hw.
  - eapply hoare_bind; [apply reset_inv|]. by intros u w Hw.
  - unfold wdog_get_modem_status, answer_user. eapply (hoare_bind _ (λ _, irq_inv)).
    + eapply hoare_bind; [apply at_inst|]. by intros p w [Hw _].
    + intros t'. eapply hoare_bind; [apply wcall_inv; pl|]. by intros v w Hw.
  - unfold wdog_get_pci_domain_nr, answer_user. eapply (hoare_bind _ (λ _, irq_inv)).
    + eapply hoare_bind; [apply at_inst|]. by intros p w [Hw _].
    + intros t'. eapply hoare_bind; [apply wcall_inv; pl|]. by intros v w Hw.
Qed.

Lemma handler_inv i : keeps_irq (wdog_irq_handler i).
Proof.
  unfold wdog_irq_handler. eapply hoare_bind; [apply get_inst|]. intros p. apply inst_inv.
  case_decide; [by intros w Hw|by apply modify_inv].
Qed.

Lemma worker_inv i : keeps_irq (modem_worker i).
Proof.
  unfold modem_worker. eapply hoare_bind; [apply wcall_inv; pl|]. intros flags. cbn beta.
  eapply hoare_bind; [apply get_inst|]. intros p. cbn beta zeta.
  eapply hoare_bind; [by apply put_inst|]. intros u. cbn beta. set (q := set_status _ p).
  eapply (hoare_bind _ (λ _, inst i q)); [by intros w Hw|]. intros warm.
  destruct (uspace_registered q).
  - eapply (hoare_bind _ (λ _, inst i q)); [intros w Hw; by destruct (evt_fd_ctxt q)|]. intros evt.
    eapply (hoare_bind _ (λ _, inst i q)); [destruct evt; [by apply ctx_inst; pl|by intros w Hw]|]. intros u1.
    apply inst_inv. eapply (hoare_bind _ (λ _, irq_inv)); [|intros u2; apply wake_inv].
    destruct (warm : bool); [by apply modify_inv|by intros w Hw].
  - apply inst_inv. case_decide; [|by intros w Hw].
    eapply hoare_bind; [by apply modify_inv|]. intros u1. apply wcall__inv; pl.
Qed.

Lemma run_work_inv : keeps_irq run_work.
Proof.
  unfold run_work. eapply (hoare_bind _ (λ _, irq_inv)); [by intros w Hw|]. intros [|i l]; [by intros w Hw|].
  eapply hoare_bind; [by apply modify_inv|]. intros u. apply worker_inv.
Qed.

Lemma gul_reset_inv i s : keeps_irq (gul_reset_modem i s).
Proof.
  unfold gul_reset_modem. eapply hoare_bind; [apply get_inst|]. intros p.
  eapply hoare_bind; [by apply put_inst|]. intros u. apply inst_inv.
  eapply hoare_bind; [by apply modify_inv|]. by intros u1 w Hw.
Qed.

Lemma read_inv i : keeps_irq (gul_wdog_dev_read i).
Proof.
  unfold gul_wdog_dev_read. eapply hoare_bind; [apply get_inst|]. intros p. apply inst_inv.
  eapply hoare_bind; [apply wcall_inv; pl|]. by intros rc w Hw.
Qed.

(** *** Probe *)

(** Modem [i] is marked as probed and has no instance. *)
Definition blank (i : nat) (w : wdw) : Prop :=
  irq_inv w ∧ nth i (wdog_probed_once w) false = true ∧ wdog_dev_data_g w !! i = Some None.

Lemma wcall_blank c i : plain c → hoare True (blank i) (wcall c) (λ _, blank i).
Proof. intros Hc w (Hw & Hp & Hd). split; [by apply (wcall_inv c Hc w Hw)|done]. Qed.
Lemma wcall__blank c i : plain c → hoare True (blank i) (wcall_ c) (λ _, blank i).
Proof. intros Hc. eapply hoare_bind; [by apply wcall_blank|]. intros r w Hw. exact Hw. Qed.

Lemma out_irq_blank i rc : hoare True (blank i) (probe_out_irq i 0 rc) (λ _, irq_inv).
Proof.
  unfold probe_out_irq. eapply (hoare_bind _ (λ _, blank i)); [by intros w Hw|]. intros u.
  eapply hoare_bind; [apply wcall__blank; pl|]. by intros u1 w [Hw _].
Qed.
Lemma out_gpio_blank i g rc : hoare True (blank i) (probe_out_gpio i g 0 rc) (λ _, irq_inv).
Proof.
  unfold probe_out_gpio. eapply (hoare_bind _ (λ _, blank i)); [case_decide; [apply wcall__blank; pl|by intros w Hw]|].
  intros u. apply out_irq_blank.
Qed.

(** The device taken away again, with the interrupt if it was there. *)
Lemma out_device_inst i p g rc : hoare True (inst i p) (probe_out_device i g (irq_status_flag p) rc) (λ _, irq_inv).
Proof.
  unfold probe_out_device, probe_out_gpio, probe_out_irq.
  eapply hoare_bind; [apply wcall__inst; pl|]. intros u. cbn beta.
  eapply hoare_bind; [apply wcall__inst; pl|]. intros u1. cbn beta.
  (* between the removal of the instance and the release of the line *)
  set (Q := λ w, wdog_dev_data_g w !! i = Some None ∧
     (∀ j, irq_held (wlog w) j = Some (if decide (j = i) then bool_decide (irq_status_flag p ≠ 0) else flag_of w j)) ∧
     (∀ j, nth j (wdog_probed_once w) false = false → mjoin (wdog_dev_data_g w !! j) = None) ∧
     length (wdog_dev_data_g w) = MAX_MODEM ∧ length (wdog_probed_once w) = MAX_MODEM).
  eapply (hoare_bind _ (λ _, Q)).
  { intros w [Hw Hp]. assert (Hlt := lookup_lt_Some _ _ _ Hp). cbn -[irq_held]. unfold Q. cbn -[irq_held].
    split; [by apply list_lookup_insert_eq|]. split; [|split; [|split; [rewrite length_insert; apply Hw|apply Hw]]].
    - intros j. rewrite (i_held w Hw). f_equal. destruct (decide (j = i)) as [->|Hj]; unfold flag_of; cbn.
      + by rewrite Hp.
      + by rewrite list_lookup_insert_ne by congruence.
    - intros j Hj. destruct (decide (i = j)) as [->|Hne]; [by rewrite list_lookup_insert_eq|].
      rewrite list_lookup_insert_ne by done. by apply Hw. }
  intros u2.
  assert (Hplain : ∀ c, plain c → hoare True Q (wcall_ c) (λ _, Q)).
  { intros c Hc w (H1 & H2 & H3). unfold wcall_, wcall. cbv [mbind M_bind mret M_ret]. unfold Q. cbn -[irq_held].
    split; [done|]. split; [|done]. intros j. rewrite irq_held_snoc, Hc. apply H2. }
  eapply (hoare_bind _ (λ _, Q)); [case_decide; [apply Hplain; pl|by intros w Hw]|]. intros u3.
  assert (Hdone : ∀ w, Q w → irq_status_flag p = 0 → irq_inv w).
  { intros w (H1 & H2 & H3 & H4 & H5) Hz. split; try done. intros j. rewrite H2. f_equal. destruct (decide (j = i)) as [->|Hj]; [|done].
    unfold flag_of. rewrite H1. cbn. by rewrite Hz. }
  eapply (hoare_bind _ (λ _, irq_inv)).
  - case_decide as Hf; [|intros w Hw; apply Hdone; [exact Hw|lia]].
    intros w (H1 & H2 & H3 & H4 & H5). unfold wcall_, wcall. cbv [mbind M_bind mret M_ret]. cbn -[irq_held].
    split; try done. intros j. cbn -[irq_held]. rewrite irq_held_snoc. cbn -[irq_held]. rewrite H2. unfold flag_of. cbn.
    destruct (decide (i = j)) as [->|Hj].
    + rewrite !(decide_True (P := j = j)) by done. rewrite bool_decide_eq_true_2, decide_True by done. by rewrite H1.
    + by rewrite decide_False by congruence.
  - intros u4. eapply hoare_bind; [apply wcall__inv; pl|]. by intros u5 w Hw.
Qed.

Lemma probe_device_inv i irq_no g : hoare True (blank i) (wdog_probe_device i irq_no g) (λ _, irq_inv).
Proof.
  unfold wdog_probe_device. set (p0 := Priv irq_no 0 g _ _ _ _ _).
  eapply (hoare_bind _ (λ _, inst i p0)).
  { intros w (Hw & Hp & Hd). assert (Hlt := lookup_lt_Some _ _ _ Hd). cbn -[irq_held]. split; [|by apply list_lookup_insert_eq].
    split; cbn -[irq_held]; [|..|by rewrite length_insert; apply Hw|apply Hw].
    - intros j. rewrite flag_insert by eauto. cbn [wlog set_data]. rewrite (i_held w Hw). f_equal.
      case_decide as Hj; [|done]. subst j. unfold flag_of. by rewrite Hd.
    - intros j Hj. destruct (decide (i = j)) as [->|Hne]; [congruence|].
      rewrite list_lookup_insert_ne by done. by apply Hw. }
  intros u. eapply (hoare_bind _ (λ _, inst i p0)); [by intros w Hw|]. intros warm.
  eapply (hoare_bind _ (λ _, irq_inv)).
  { destruct (warm : bool); [apply inst_inv, register_inv|by intros w [Hw _]]. }
  intros r. eapply hoare_bind; [apply wcall__inv; pl|]. intros u1. cbn beta.
  eapply hoare_bind; [apply wcall_inv; pl|]. intros dev. cbn beta.
  eapply hoare_bind; [apply get_inst|]. intros p. cbn beta.
  case_decide; [apply out_device_inst|].
  eapply hoare_bind; [by apply (put_inst _ _ (set_wq p))|]. by intros u2 w [Hw _].
Qed.

Lemma probe_inv i : (i < MAX_MODEM)%nat → keeps_irq (wdog_probe i).
Proof.
  intros Hi. unfold wdog_probe. destruct disable_sideband; [by intros w Hw|].
  eapply hoare_bind; [apply wcall_inv; pl|]. intros node. cbn beta. case_decide; [by intros w Hw|].
  eapply (hoare_bind _ (λ once w, irq_inv w ∧ once = nth i (wdog_probed_once w) false)); [by intros w Hw|].
  intros [|].
  { eapply (hoare_bind _ (λ _, irq_inv)); [|by intros p w Hw].
    intros w [Hw _]. pose proof (get_inst i w Hw) as Hg. destruct (get_priv i w) as [[p w']|]; [by destruct Hg|done]. }
  eapply (hoare_bind _ (λ _, blank i)).
  { intros w [Hw Hn]. cbn. split; [|split].
    - split; cbn -[irq_held]; [apply Hw| |apply Hw|by rewrite length_insert; apply Hw].
      intros j Hj. destruct (decide (j = i)) as [->|Hne]; [by apply Hw|]. apply Hw.
      by rewrite <- !(nth_lookup _ _ false) || (rewrite !nth_lookup in *; rewrite list_lookup_insert_ne in Hj by congruence).
    - cbn. rewrite nth_lookup, list_lookup_insert_eq; [done|]. rewrite (i_probed w Hw). lia.
    - cbn. pose proof (i_fresh w Hw i (eq_sym Hn)) as Hf.
      destruct (lookup_lt_is_Some_2 (wdog_dev_data_g w) i) as [o Ho]; [rewrite (i_data w Hw); lia|].
      rewrite Ho in Hf |- *. by destruct o. }
  intros u. eapply hoare_bind; [apply wcall_blank; pl|]. intros ok. cbn beta. case_decide; [by intros w [Hw _]|].
  eapply hoare_bind; [apply wcall_blank; pl|]. intros irq_no. cbn beta. case_decide; [apply out_irq_blank|].
  eapply hoare_bind; [apply wcall_blank; pl|]. intros g. cbn beta. case_decide; [apply out_irq_blank|].
  eapply (hoare_bind _ (λ _, blank i)).
  { unfold wdog_gpio_config. case_decide; [|by intros w Hw].
    eapply hoare_bind; [apply wcall_blank; pl|]. intros r. cbn beta. case_decide; [by intros w Hw|].
    eapply hoare_bind; [apply wcall_blank; pl|]. intros r1. cbn beta. case_decide; [|by intros w Hw].
    eapply hoare_bind; [apply wcall__blank; pl|]. by intros u1 w Hw. }
  intros rc. case_decide; [apply out_gpio_blank|].
  eapply hoare_bind; [apply wcall_blank; pl|]. intros ok1. cbn beta. case_decide; [apply out_gpio_blank|].
  apply probe_device_inv.
Qed.

(** ** The system *)

(** The operations of the driver while it is loaded, in any order: probes, the
    interrupt, the work, requests and readers of user space, the other parts of
    the host driver. *)
Inductive wdog_step : wdw → wdw → Prop :=
  | ws_probe i r w w' : (i < MAX_MODEM)%nat → wdog_probe i w = Some (r, w') → wdog_step w w'
  | ws_irq i w w' : wdog_irq_handler i w = Some (tt, w') → wdog_step w w'
  | ws_work w w' : run_work w = Some (tt, w') → wdog_step w w'
  | ws_ioctl fuel i cmd t r w w' : gul_wdog_dev_ioctl fuel i cmd t w = Some (r, w') → wdog_step w w'
  | ws_read i r w w' : gul_wdog_dev_read i w = Some (r, w') → wdog_step w w'
  | ws_status id s r w w' : wdog_set_modem_status id s w = Some (r, w') → wdog_step w w'
  | ws_domain id v r w w' : wdog_set_pci_domain_nr id v w = Some (r, w') → wdog_step w w'
  | ws_reset i s r w w' : gul_reset_modem i s w = Some (r, w') → wdog_step w w'
  | ws_reset_ext fuel i w w' : wdog_reset_modem_ext fuel i w = Some (tt, w') → wdog_step w w'
  | ws_warmup v w : wdog_step w (set_warmup v w).

Lemma step_inv w w' : irq_inv w → wdog_step w w' → irq_inv w'.
Proof.
  assert (Hk : ∀ A (m : M wdw A) a w0 w1, keeps_irq m → m w0 = Some (a, w1) → irq_inv w0 → irq_inv w1).
  { intros A m a w0 w1 Hm Hr Hi. specialize (Hm w0 Hi). by rewrite Hr in Hm. }
  intros Hi Hs. destruct Hs; eauto using probe_inv, handler_inv, run_work_inv, ioctl_inv, read_inv, set_status_inv,
    set_domain_inv, gul_reset_inv, reset_ext_inv.
  by apply (modify_inv (set_warmup v)) in Hi.
Qed.

(** C12: in every state the driver can reach, and for every modem, the interrupt
    is held exactly while the flag says so: it is never requested twice and
    never given back without being held. *)
Theorem wdog_irq_once w i : rtc wdog_step wdw_0 w → irq_held (wlog w) i = Some (flag_of w i).
Proof.
  intros Hr. assert (Hi : irq_inv w); [|apply Hi].
  apply (rtc_invariant _ irq_inv _ _ Hr); [intros w0 w1 Hs Hw; by apply (step_inv w0)|apply irq_inv_0].
Qed.

(** ** Waiting for the removal *)

(** The looks: [k] of them see the modem still there, the next one does not. *)
Lemma wait_run i w k fuel : (k < fuel)%nat →
  (∀ l, (length l < length (wlog w) + k)%nat → wanswer l (ReadRemoved i) = 0) →
  (∀ l, (length (wlog w) + k ≤ length l)%nat → wanswer l (ReadRemoved i) ≠ 0) →
  ∃ l, wait_removed fuel i w = Some (tt, set_wlog (wlog w ++ l) w) ∧ length l = S k.
Proof.
  revert w fuel. induction k as [|k IH]; intros w [|fuel] Hk Hz Hn; try lia; cbn [wait_removed];
    unfold wcall; cbv [mbind M_bind].
  - rewrite decide_False by (apply Hn; lia). by eexists.
  - rewrite (Hz (wlog w)) by lia. rewrite decide_True by done.
    destruct (IH (set_wlog (wlog w ++ [(ReadRemoved i, 0)]) w) fuel) as (l & Hl & Hlen); cbn [wlog set_wlog];
      [lia|intros l Hl; apply Hz; rewrite length_app in Hl; cbn in Hl; lia
      |intros l Hl; apply Hn; rewrite length_app in Hl; cbn in Hl; lia|].
    exists ((ReadRemoved i, 0) :: l). rewrite Hl. cbn [length]. rewrite Hlen. split; [|done].
    cbn [wlog set_wlog]. by rewrite <- app_assoc.
Qed.

Lemma wait_forever fuel i w : (∀ l, wanswer l (ReadRemoved i) = 0) → wait_removed fuel i w = None.
Proof.
  intros Hz. revert w. induction fuel as [|fuel IH]; intros w; cbn [wait_removed]; [done|].
  unfold wcall. cbv [mbind M_bind]. rewrite Hz. rewrite decide_True by done. apply IH.
Qed.

(** The reset line is pulsed once the modem is off the bus, however many looks
    that takes; a modem that never goes away keeps the caller for ever. *)
Theorem reset_waits i p w : wdog_dev_data_g w !! i = Some (Some p) → gpio p ≠ 0 →
  (∀ k fuel, (k < fuel)%nat →
    (∀ l, (length l < length (wlog w) + k)%nat → wanswer l (ReadRemoved i) = 0) →
    (∀ l, (length (wlog w) + k ≤ length l)%nat → wanswer l (ReadRemoved i) ≠ 0) →
    ∃ w', wdog_reset_modem fuel i wdog_0 w = Some (tt, w') ∧
      fst <$> drop (length (wlog w) + S k) (wlog w') = [GpioSet i 0; GpioSet i 1]) ∧
  ((∀ l, wanswer l (ReadRemoved i) = 0) → ∀ fuel, wdog_reset_modem fuel i wdog_0 w = None).
Proof.
  intros Hp Hg. unfold wdog_reset_modem. cbn [wdogid wdog_0]. change (Z.of_nat MAX_MODEM) with 4.
  assert (Hat : priv_at i 0 w = Some (p, w)).
  { unfold priv_at. cbn [decide]. rewrite decide_True by done. unfold get_priv. by rewrite Hp. }
  split.
  - intros k fuel Hk Hz Hn. destruct (wait_run i w k fuel Hk Hz Hn) as (l & Hl & Hlen).
    rewrite (decide_False (P := 4 ≤ 0)) by lia.
    rewrite (M_bind_run _ _ _ _ _ Hat), (M_bind_run _ _ _ _ _ Hl), decide_True by done.
    eexists. split; [reflexivity|]. cbn [wlog set_wlog]. rewrite <- app_assoc, <- app_assoc.
    rewrite app_assoc, drop_app_length'; [done|]. rewrite length_app. lia.
  - intros Hz fuel. rewrite (decide_False (P := 4 ≤ 0)) by lia. rewrite (M_bind_run _ _ _ _ _ Hat). rewrite M_bind_eq. by rewrite wait_forever.
Qed.

(** ** Failed probes *)

(** A modem whose interrupt is not in the device tree cannot be probed twice: the
    second probe goes through the pointer the first one did not set. *)
Theorem second_probe_crashes i w : disable_sideband = false → (i < MAX_MODEM)%nat → irq_inv w →
  nth i (wdog_probed_once w) false = false →
  (∀ l, wanswer l (OfNode i) ≠ 0) → (∀ l, wanswer l (KmallocDev i) ≠ 0) → (∀ l, wanswer l (OfIrq i) < 0) →
  ∃ w', wdog_probe i w = Some (- EINVAL, w') ∧ wdog_probe i w' = None.
Proof.
  intros Hs Hi Hw Hn Hnode Hk Hirq. unfold wdog_probe. rewrite Hs.
  unfold probe_out_irq, wcall_, wcall. cbv [mbind M_bind gets modify].
  rewrite (decide_False (P := wanswer (wlog w) (OfNode i) = 0)) by apply Hnode.
  cbn [wdog_probed_once set_wlog]. rewrite Hn.
  rewrite decide_False by apply Hk. rewrite decide_True by apply Hirq. cbn [mret M_ret].
  rewrite decide_False by tauto. cbn [mret M_ret].
  eexists. split; [reflexivity|]. rewrite decide_False by apply Hnode.
  cbn [wdog_probed_once set_wlog set_probed].
  rewrite nth_lookup, list_lookup_insert_eq by (rewrite (i_probed w Hw); lia). cbn [default].
  unfold get_priv. cbn [wdog_dev_data_g set_wlog set_probed]. 
  pose proof (i_fresh w Hw i Hn) as Hf. cbn [id]. cbn [wdog_dev_data_g set_wlog set_probed].
  by destruct (wdog_dev_data_g w !! i) as [[p|]|].
Qed.

(** A reset line another driver has is given back by the failed probe. *)
Theorem foreign_gpio_freed i w g : g ≠ 0 → wanswer (wlog w) (GpioRequest i) < 0 →
  ∃ rc w' w'', wdog_gpio_config i g w = Some (rc, w') ∧ rc < 0 ∧
    probe_out_gpio i g 0 (- ENODEV) w' = Some (- ENODEV, w'') ∧
    GpioFree i ∈ (fst <$> wlog w'') ∧ fst <$> wlog w' = (fst <$> wlog w) ++ [GpioRequest i].
Proof.
  intros Hg Hr. unfold wdog_gpio_config, probe_out_gpio, probe_out_irq, wcall_, wcall. cbv [mbind M_bind].
  rewrite decide_True by done. rewrite decide_True by lia. cbn [mret M_ret].
  eexists _, _, _. split; [reflexivity|]. split; [done|]. split; [by rewrite decide_True by done|].
  cbn [wlog set_wlog]. rewrite !fmap_app. split; [|done]. cbn. set_solver.
Qed.
End Inv.
