(* ===== verification/GulWdogLib.v ===== *)
(** * The watchdog library (lib/wdog/gul_wdog_lib.c)

    The calls of user space over the requests of the driver.  [WdogUser] is what
    the library asks of the system; the driver of GulWdog.v with the files of the
    PCI bus is an instance of it.  A request that never returns is [None]. *)
From S2P Require Import Prelude GulMsi GulPci GulWdog GulWdogCorrect.
From stdpp Require Import strings.
#[global] Open Scope Z_scope.

Class WdogUser (E : Type) := {
  (* [open("/dev/gulwdogdev<id>")], [eventfd], [close] *)
  u_open : E → Z → E * Z;
  u_eventfd : E → E * Z;
  u_close : E → Z → E * Z;
  u_ioctl : E → Z → wdog_cmd → wdog → option (E * Z * wdog);
  u_read : E → Z → option (E * Z);
  (* the file [remove] of the device in a domain, and the file [rescan]: the open,
     and the write of one byte *)
  u_open_remove : E → Z → E * Z;
  u_open_rescan : E → E * Z;
  u_write : E → Z → E * Z;
  u_sleep : E → E }.

Record wlib (E : Type) := Wlib { uenv : E; req : wdog }.
Arguments Wlib {E}. Arguments uenv {E}. Arguments req {E}.

Section Lib.
Context {E : Type} `{WdogUser E}.
Local Abbreviation L := (M (wlib E)).

Definition sys {A} (f : E → E * A) : L A := λ w, let '(e, a) := f (uenv w) in Some (a, Wlib e (req w)).
Definition set_req (f : wdog → wdog) : L unit := modify (λ w, Wlib (uenv w) (f (req w))).
(** A request on the device of the structure, which the driver may write. *)
Definition ioctl (cmd : wdog_cmd) : L Z := λ w,
  match u_ioctl (uenv w) (dev_wdog_handle (req w)) cmd (req w) with
  | Some (e, r, t) => Some (r, Wlib e t)
  | None => None
  end.

Definition libwdog_register (modem_id : Z) : L Z :=
  _ ← set_req (λ t, Wdog 0 (dev_wdog_handle t) (wdog_eventfd t) (req_status t) (req_domain t));
  fd ← sys (λ e, u_open e modem_id);
  _ ← set_req (λ t, Wdog (wdogid t) fd (wdog_eventfd t) (req_status t) (req_domain t));
  if decide (fd < 0) then mret (- MODEM_WDOG_OPEN_FAIL) else
  efd ← sys u_eventfd;
  _ ← set_req (λ t, Wdog (wdogid t) (dev_wdog_handle t) efd (req_status t) (req_domain t));
  ioctl IOCTL_GUL_MODEM_WDOG_REGISTER.

Definition libwdog_deregister : L Z :=
  ret ← ioctl IOCTL_GUL_MODEM_WDOG_DEREGISTER;
  if decide (ret < 0) then mret ret else
  efd ← gets (λ w, wdog_eventfd (req w));
  _ ← (if decide (0 ≤ efd) then
         _ ← sys (λ e, u_close e efd);
         set_req (λ t, Wdog (wdogid t) (dev_wdog_handle t) (-1) (req_status t) (req_domain t))
       else mret tt);
  fd ← gets (λ w, dev_wdog_handle (req w));
  sys (λ e, u_close e fd).

Definition libwdog_readwait (fd : Z) : L Z := λ w,
  match u_read (uenv w) fd with Some (e, r) => Some (r, Wlib e (req w)) | None => None end.
Definition libwdog_reset_modem : L Z := ioctl IOCTL_GUL_MODEM_WDOG_RESET.
Definition libwdog_get_modem_status : L Z := ioctl IOCTL_GUL_MODEM_WDOG_GET_STATUS.
Definition get_pci_domain_nr : L Z := ioctl IOCTL_GUL_MODEM_WDOG_GET_DOMAIN.

(** A domain that is not known is no error. *)
Definition libwdog_remove_modem : L Z :=
  ret ← get_pci_domain_nr;
  if decide (ret < 0) then mret ret else
  d ← gets (λ w, req_domain (req w));
  if decide (d < 0) then mret ret else
  fd ← sys (λ e, u_open_remove e d);
  if decide (fd < 0) then mret (- MODEM_WDOG_OPEN_FAIL) else
  ret ← sys (λ e, u_write e fd);
  _ ← sys (λ e, u_close e fd);
  mret ret.

Definition libwdog_rescan_modem : L Z :=
  fd ← sys u_open_rescan;
  if decide (fd < 0) then mret (- MODEM_WDOG_OPEN_FAIL) else
  ret ← sys (λ e, u_write e fd);
  _ ← sys (λ e, u_close e fd);
  mret (if decide (ret ≤ 0) then - MODEM_WDOG_WRITE_FAIL else ret).

(** A scan and a look at the status. *)
Definition scan : L Z :=
  ret ← libwdog_rescan_modem;
  if decide (ret < 0) then mret ret else libwdog_get_modem_status.

(** [while (timeout--)]. *)
Fixpoint scan_loop (timeout : nat) (ret : Z) : L Z :=
  match timeout with
  | O => mret ret
  | S timeout =>
      ret ← scan;
      if decide (ret < 0) then mret ret else
      st ← gets (λ w, req_status (req w));
      if decide (st = WDOG_MODEM_READY) then mret ret else
      _ ← sys (λ e, (u_sleep e, tt));
      scan_loop timeout ret
  end.

Definition libwdog_rescan_modem_blocking (timeout : Z) : L Z :=
  if decide (0 < timeout) then scan_loop (Z.to_nat timeout) 0 else
  ret ← libwdog_rescan_modem;
  if decide (ret < 0) then mret ret else
  _ ← sys (λ e, (u_sleep e, tt));
  libwdog_get_modem_status.

(** The result of the removal is not looked at. *)
Definition libwdog_reinit_modem (timeout : Z) : L Z :=
  _ ← libwdog_remove_modem;
  ret ← libwdog_reset_modem;
  if decide (ret < 0) then mret ret else
  _ ← sys (λ e, (u_sleep e, tt));
  libwdog_rescan_modem_blocking timeout.

(** ** The scan *)

(** A step of the scan, for a state: the state after it if the scan and the look
    succeed. *)
Definition scanned (w w' : wlib E) : Prop := ∃ r, scan w = Some (r, w') ∧ 0 ≤ r.
Definition slept (w : wlib E) : wlib E := Wlib (u_sleep (uenv w)) (req w).

Inductive scans : nat → wlib E → wlib E → Prop :=
  | scans_0 w : scans 0 w w
  | scans_S n w w1 w' : scanned w w1 → req_status (req w1) ≠ WDOG_MODEM_READY →
      scans n (slept w1) w' → scans (S n) w w'.

(** waiting for a modem: as long as the requests are answered, the call
    returns after at most [timeout] scans; it stops at the first scan that finds
    the modem ready, and a modem that never is does not make it fail. *)
Theorem rescan_blocking_stops timeout w r w' : 0 < timeout →
  libwdog_rescan_modem_blocking timeout w = Some (r, w') → 0 ≤ r →
  (∃ n w1, (n < Z.to_nat timeout)%nat ∧ scans n w w1 ∧ scanned w1 w' ∧
     req_status (req w') = WDOG_MODEM_READY) ∨
  scans (Z.to_nat timeout) w w'.
Proof.
  intros Ht. unfold libwdog_rescan_modem_blocking. rewrite decide_True by done.
  generalize 0 at 1. generalize (Z.to_nat timeout). clear Ht timeout. intros n. revert w.
  induction n as [|n IH]; intros w ret; cbn [scan_loop].
  - intros [= <- <-] _. right. constructor.
  - rewrite M_bind_eq. destruct (scan w) as [[r1 w1]|] eqn:Hs; [|done].
    case_decide; [intros [= <- <-] Hp; lia|]. unfold gets at 1. rewrite M_bind_eq. cbv beta zeta iota.
    case_decide as Hst.
    + intros [= <- <-] _. left. exists 0%nat, w. split; [lia|]. split; [constructor|].
      split; [exists r1; split; [done|lia]|done].
    + assert (Hc : scanned w w1) by (exists r1; split; [done|lia]).
      intros Hr Hpos. destruct (IH (slept w1) r1 Hr Hpos) as [(k & w2 & Hk & Hsc & Hrest)|Hsc].
      * left. exists (S k), w2. split; [lia|]. split; [by econstructor|done].
      * right. by econstructor.
Qed.
End Lib.

(** ** Over the driver *)
Section Driver.
Context `{WdogCalls} (fuel : nat) (i : nat).

(** The files of the PCI bus, whatever they do to the rest of the system. *)
Variables (bus_remove bus_rescan : wdw → Z → wdw * Z).

(** The device of modem [i], behind any number; the first byte written goes to
    the file that was opened. *)
#[export] Instance driver_user : WdogUser wdw := {|
  u_open w _ := (w, 3); u_eventfd w := (w, 4); u_close w _ := (w, 0);
  u_ioctl w _ cmd t := match gul_wdog_dev_ioctl fuel i cmd t w with
                       | Some ((r, t'), w') => Some (w', r, t') | None => None end;
  u_read w _ := match gul_wdog_dev_read i w with Some ((r, _), w') => Some (w', r) | None => None end;
  u_open_remove w d := bus_remove w d; u_open_rescan w := bus_rescan w 0;
  u_write w _ := (w, 1); u_sleep w := w |}.

(** re-initialising a modem that cannot be removed never returns: the library
    is told that the removal failed, asks for the reset all the same, and the
    driver waits for a removal that does not come. *)
Theorem reinit_hangs (w : wlib wdw) p timeout :
  wdog_dev_data_g (uenv w) !! i = Some (Some p) → wdogid (req w) = 0 → 0 ≤ domain_nr p →
  (∀ l, wanswer l CopyFromUser = 0) → (∀ l, wanswer l CopyToUser = 0) →
  (∀ e d, bus_remove e d = (e, -1)) → (∀ l, wanswer l (ReadRemoved i) = 0) →
  (∃ w', libwdog_remove_modem w = Some (- MODEM_WDOG_OPEN_FAIL, w')) ∧
  libwdog_reinit_modem timeout w = None.
Proof.
  intros Hp Hid Hd Hf Ht Hb Hz.
  assert (Hat : ∀ e, wdog_dev_data_g e !! i = Some (Some p) → priv_at i 0 e = Some (p, e)).
  { intros e He. unfold priv_at. rewrite decide_True by done. unfold get_priv. by rewrite He. }
  assert (Hdom : ∀ e t, wdog_dev_data_g e !! i = Some (Some p) → wdogid t = 0 →
    ∃ l, gul_wdog_dev_ioctl fuel i IOCTL_GUL_MODEM_WDOG_GET_DOMAIN t e =
      Some ((0, Wdog (wdogid t) (dev_wdog_handle t) (wdog_eventfd t) (req_status t) (domain_nr p)), set_wlog l e)).
  { intros e t He H0. unfold gul_wdog_dev_ioctl, wdog_get_pci_domain_nr, answer_user.
    rewrite M_bind_eq. unfold wcall at 1. rewrite Hf. rewrite (decide_False (P := 0 ≠ 0)) by tauto.
    rewrite M_bind_eq, M_bind_eq, H0, Hat by done. cbn [mret M_ret]. rewrite M_bind_eq. unfold wcall. rewrite Ht. by eexists. }
  assert (Hrem : ∃ l, libwdog_remove_modem w = Some (- MODEM_WDOG_OPEN_FAIL,
    Wlib (set_wlog l (uenv w)) (Wdog (wdogid (req w)) (dev_wdog_handle (req w)) (wdog_eventfd (req w)) (req_status (req w)) (domain_nr p)))).
  { destruct (Hdom (uenv w) (req w) Hp Hid) as [l Hl]. exists l.
    unfold libwdog_remove_modem, get_pci_domain_nr, ioctl, sys, gets. cbn [u_ioctl driver_user u_open_remove].
    cbv [mbind M_bind]. rewrite Hl. cbn [uenv req req_domain]. rewrite (decide_False (P := 0 < 0)) by lia.
    rewrite (decide_False (P := domain_nr p < 0)) by lia. rewrite Hb. by rewrite decide_True by lia. }
  destruct Hrem as [l Hrem]. split; [by eexists|].
  unfold libwdog_reinit_modem. rewrite (M_bind_run _ _ _ _ _ Hrem). rewrite M_bind_eq.
  unfold libwdog_reset_modem, ioctl. cbn [u_ioctl driver_user uenv req dev_wdog_handle].
  unfold gul_wdog_dev_ioctl. rewrite M_bind_eq. unfold wcall at 1. cbn [wlog set_wlog]. rewrite Hf.
  rewrite decide_False by tauto. rewrite M_bind_eq.
  unfold wdog_reset_modem. cbn [wdogid]. rewrite Hid. change (Z.of_nat MAX_MODEM) with 4.
  rewrite (decide_False (P := 4 ≤ 0)) by lia. rewrite M_bind_eq, Hat by done.
  rewrite M_bind_eq. by rewrite wait_forever.
Qed.
End Driver.

(** ** A modem that is there *)

(** Three looks, then the modem is gone; every line is granted. *)
#[local] Instance demo_calls : WdogCalls := {|
  wanswer l c := match c with
    | OfNode _ | KmallocDev _ | KmallocData _ | DeviceCreate _ | FilesLookup _ => 1
    | OfIrq _ => 40 | OfGpio _ => 12 | EventfdGet fd => fd | _ => 0 end;
  disable_sideband := false; GUL_WDOG_WARMUP_MODEM_RESET := 2 |}.

Definition demo_probed : wdw := match wdog_probe 0 wdw_0 with Some (_, w) => w | None => wdw_0 end.
Definition demo_up : wdw := match wdog_set_pci_domain_nr 0 1 demo_probed with Some (_, w) => w | None => wdw_0 end.
Definition demo_registered : wdw :=
  match gul_wdog_dev_ioctl 0 0 IOCTL_GUL_MODEM_WDOG_REGISTER (Wdog 0 3 4 0 0) demo_up with Some (_, w) => w | None => wdw_0 end.

Lemma wdog_irq_once_witness : irq_held (wlog demo_registered) 0 = Some true ∧ irq_held (wlog demo_registered) 1 = Some false.
Proof.
  assert (Hr : rtc wdog_step wdw_0 demo_registered).
  { eapply rtc_l; [apply (ws_probe 0 0 _ demo_probed); [unfold MAX_MODEM; lia|vm_compute; reflexivity]|].
    eapply rtc_l; [apply (ws_domain 0 1 0 _ demo_up); vm_compute; reflexivity|].
    eapply rtc_l; [apply (ws_ioctl 0 0 IOCTL_GUL_MODEM_WDOG_REGISTER (Wdog 0 3 4 0 0) (0, Wdog 0 3 4 0 0) _ demo_registered); vm_compute; reflexivity|].
    apply rtc_refl. }
  split; [rewrite (wdog_irq_once demo_registered 0 Hr)|rewrite (wdog_irq_once demo_registered 1 Hr)]; vm_compute; reflexivity.
Defined.

Lemma reinit_hangs_witness :
  @libwdog_reinit_modem _ (driver_user 1000 0 (λ e _, (e, -1)) (λ e _, (e, 5))) 60 (Wlib demo_registered (Wdog 0 3 4 0 0)) = None.
Proof.
  refine (proj2 (reinit_hangs 1000 0 (λ e _, (e, -1)) (λ e _, (e, 5)) (Wlib demo_registered (Wdog 0 3 4 0 0))
    (Priv 40 1 12 0 1 true (Some (Some 4)) true) 60 _ _ _ _ _ _ _)); try reflexivity. cbn. lia.
Defined.

(** A system whose second scan finds the modem. *)
#[local] Instance demo_user : WdogUser nat := {|
  u_open e _ := (e, 3); u_eventfd e := (e, 4); u_close e _ := (e, 0);
  u_ioctl e _ _ t := Some (e, 0, Wdog (wdogid t) (dev_wdog_handle t) (wdog_eventfd t) (if decide (e = 1%nat) then 1 else 0) 0);
  u_read e _ := Some (e, 8); u_open_remove e _ := (e, 5); u_open_rescan e := (e, 6); u_write e _ := (e, 1);
  u_sleep e := S e |}.

Lemma rescan_blocking_stops_witness : ∃ w',
  libwdog_rescan_modem_blocking 5 (Wlib 0%nat wdog_0) = Some (0, w') ∧ req_status (req w') = WDOG_MODEM_READY.
Proof.
  eexists. split; [vm_compute; reflexivity|].
  destruct (rescan_blocking_stops 5 (Wlib 0%nat wdog_0) 0 (Wlib 1%nat (Wdog 0 0 0 1 0))) as [(n & w1 & _ & _ & _ & Hs)|Hs];
    [lia|vm_compute; reflexivity|lia|reflexivity|reflexivity].
Defined.
