(* ===== verification/GulTvd.v ===== *)
(** * The thermal and voltage driver (kernel_driver/yami/gul_tvd.c, uapi/gul_tvd_ioctl.h)

    Three sensors (of the modem, of the RF card and of the host) with thresholds,
    a hysteresis and events.  The memory shared with the modem, the memory of the
    caller and the kernel are reached by calls: a log, with the answers given by
    [TvdCalls].  Several requests read the caller's structure in place instead of
    the copy they took, so that each such read is a call of its own ([GetUser]).
    The union of the temperatures and a few codes come from a header that is not
    in the repository: [TvdIf].  [None] is undefined behaviour. *)
From S2P Require Import Prelude GulMsi GulPci.
#[global] Open Scope Z_scope.

(** ** Constants *)
Definition TVD_MIN_THRESHOLD : Z := 1.
Definition TVD_MAX_THRESHOLD : Z := 2.
Definition TVD_MIN_HYSTERESIS : Z := 1.
Definition TVD_MAX_HYSTERESIS : Z := 10.
Definition INVALID_TEMP_COMB : Z := 0x88888888.
Definition MAX_ATTEMPT : nat := 5.
Definition MAX_TEMP_MONITORING_SITE_ENABLED : nat := 3.
Definition TEMP_KELVIN_TO_CELSIUS (val : Z) : Z := Z.land val 0x1FF - 273.
Definition swap_data (data : Z) : Z :=
  Z.lor (Z.land (Z.shiftr data 16) 0xFFFF) (Z.land (Z.shiftl data 16) 0xFFFF0000).
Definition DEFAULT_MAX_MTD_THRESHOLD : Z := 2.
Definition DEFAULT_MTD_THRESHOLD_1 : Z := 60.
Definition DEFAULT_MTD_THRESHOLD_2 : Z := 80.
Definition DEFAULT_MAX_CTD_THRESHOLD : Z := 2.
Definition DEFAULT_CTD_THRESHOLD_1 : Z := 60.
Definition DEFAULT_CTD_THRESHOLD_2 : Z := 80.
Definition DEFAULT_MTD_HYSTERESIS : Z := 2.
Definition DEFAULT_CTD_HYSTERESIS : Z := 2.
Definition MTD_TEMP_INVALID : Z := -70.
Definition VSPA_TEMP : Z := 0.
Definition FECA_TEMP : Z := 1.
Definition PCI_TEMP : Z := 2.
Definition DIODE_TEMP : Z := 3.
Definition COMBINED_TEMP : Z := 4.
Definition CTD_EVENT : Z := 1.
Definition MTD_EVENT : Z := 2.
Definition BOTH_CTD_MTD_EVENT : Z := 3.
Definition RTD_EVENT : Z := 4.
Definition EAGAIN : Z := 11.

(** ** Calls *)

(** The fields of the caller's [struct tvd] that are read; those written. *)
Inductive user_field :=
  | tvdid | mtd_site | tvd_eventfd
  | mtd_threshold_count | mtd_threshold (k : nat) | ctd_threshold_count | ctd_threshold (k : nat)
  | rtd_threshold_count | rtd_threshold (k : nat) | mtd_hysteresis_val | ctd_hysteresis_val.
Inductive user_out :=
  | thermal_id | ctd_type | ctd_temp | mtd_type | mtd_temp | rtd_type | rtd_temp
  | get_mtd_curr_temp | get_ctd_curr_temp | get_rtd_curr_temp.

(** The fields of the memory shared with a modem. *)
Inductive hif_field :=
  | tvd_mtdEvent | tvd_rtdEvent | tvd_mtdPowerEvent
  | hif_mtd_count | hif_mtd_threshold (k : nat) | hif_rtd_count | hif_rtd_threshold (k : nat)
  | mtd_hysteresisVal | mtd_curentTemp | power_info_fh | power_info_sh | rtd_curentTemp
  | mtd_event_temp | mtd_event_id | rtd_event_temp | rtd_event_id
  | msi_mtd_tvd | msi_mtd_tvd_curentTemp | msi_rtd_tvd_curentTemp | msi_mtd_power_info.
Inductive host_msi := HOST_MSI_TMU | HOST_MSI_MTD_POWER | HOST_MSI_RTD.

(** [union mtdpowerInfo]: the two halves as stored, or the error. *)
Inductive power := Halves (fh sh : Z) | PowerErr (e : Z).

(** Interrupts: [temp] for the second one, of the answers. *)
Inductive tvd_call :=
  | RequestIrq (temp : bool) (i : nat) | FreeIrq (temp : bool) (i : nat)
  | FilesLookup (fd : Z) | EventfdGet (fd : Z) | EventfdPut (c : Z) | EventfdSignal (c : Z)
  | CopyFromUser | GetUser (f : user_field) | PutUser (f : user_out) (v : Z) | PutPower (p : power)
  | HifRead (i : nat) (f : hif_field) | HifWrite (i : nat) (f : hif_field) (v : Z)
  | RaiseMsi (i : nat) (m : host_msi) | ReadTmu (i site : nat)
  | WaitTemp (i : nat) | WaitEvent (i : nat) | Wake (temp : bool) (i : nat)
  | CtdRegister | CtdDeregister | CtdHysteresis (v : Z) | CtdThreshold (cnt : Z) (th : list Z)
  | CtdGetTemp | CtdTemp
  | AllocChrdev | UnregisterChrdev | ClassCreate | ClassDestroy | KmallocTvd | KfreeTvd
  | KmallocData (i : nat) | KfreeData (i : nat) | CdevAdd (i : nat) | CdevDel (i : nat)
  | DeviceCreate (i : nat) | DeviceDestroy (i : nat).

(** [cpu_of i]: the core whose lines modem [i] takes. *)
Class TvdCalls := { tanswer : list (tvd_call * Z) → tvd_call → Z; cpu_of : nat → Z }.

(** What the absent headers define: the parts of the union of temperatures (by
    site, up to the diode), the change of byte order, the codes of the shared
    memory. *)
Class TvdIf := {
  temp_part : Z → Z → Z; set_temp_part : Z → Z → Z → Z; cpu_to_be32 : Z → Z;
  TEMP_ADJUST : Z; INVALID_CTD_TEMP : Z;
  TVD_MTD_CURENT_TEMP_REQUESTED : Z; TVD_RTD_CURENT_TEMP_REQUESTED : Z;
  TVD_MTD_POWER_INFO_REQUESTED : Z; TVD_MTD_HYSTERESIS_UPDATE_REQUESTED : Z }.

(** ** State *)

(** The integers of [struct tvd_priv_data], by name. *)
Inductive tvd_field :=
  | msi_index | irq | msi_temp_index | irq_temp | irq_status_flag | irq_temp_flag | tvd_id
  | mtd_event_type | mtd_cur_temp | rtd_event_type | rtd_cur_temp | ctd_event_type | ctd_cur_temp
  | mtd_event_flag | ctd_event_flag | rtd_event_flag | mtd_power_event_flag
  | get_mtd_cur_temp | get_ctd_cur_temp | get_rtd_cur_temp.
#[export] Instance tvd_field_eq : EqDecision tvd_field.
Proof. solve_decision. Defined.

Record tvd_priv := Priv { ints : tvd_field → Z; evt_fd_ctxt : option Z; wq_ready : bool }.
Definition upd (f : tvd_field) (v : Z) (p : tvd_priv) : tvd_priv :=
  Priv (λ g, if decide (g = f) then v else ints p g) (evt_fd_ctxt p) (wq_ready p).
Definition set_evt (c : option Z) (p : tvd_priv) : tvd_priv := Priv (ints p) c (wq_ready p).
Definition set_wq (p : tvd_priv) : tvd_priv := Priv (ints p) (evt_fd_ctxt p) true.
(** After [memset]. *)
Definition priv_0 : tvd_priv := Priv (λ _, 0) None false.

(** [g_tvd_dev] with its instances and its [gul_dev] pointers (set or NULL),
    [tvd_dev_data_g], the [tvd_priv] pointers of the modems, their interrupt
    lines, the log. *)
Record tvdw := Tvdw {
  g_tvd_dev : option (list tvd_priv); gul_dev : list bool; tvd_dev_data_g : list bool;
  tvd_privs : list bool; irq_lines : list (list irq_info); tlog : list (tvd_call * Z) }.

Section Tvd.
Context `{TvdCalls, TvdIf}.
Local Abbreviation T := (M tvdw).

Definition set_dev (v : option (list tvd_priv)) (w : tvdw) : tvdw :=
  Tvdw v (gul_dev w) (tvd_dev_data_g w) (tvd_privs w) (irq_lines w) (tlog w).
Definition set_gul (v : list bool) (w : tvdw) : tvdw :=
  Tvdw (g_tvd_dev w) v (tvd_dev_data_g w) (tvd_privs w) (irq_lines w) (tlog w).
Definition set_data (v : list bool) (w : tvdw) : tvdw :=
  Tvdw (g_tvd_dev w) (gul_dev w) v (tvd_privs w) (irq_lines w) (tlog w).
Definition set_privs (v : list bool) (w : tvdw) : tvdw :=
  Tvdw (g_tvd_dev w) (gul_dev w) (tvd_dev_data_g w) v (irq_lines w) (tlog w).
Definition set_lines (v : list (list irq_info)) (w : tvdw) : tvdw :=
  Tvdw (g_tvd_dev w) (gul_dev w) (tvd_dev_data_g w) (tvd_privs w) v (tlog w).
Definition set_tlog (v : list (tvd_call * Z)) (w : tvdw) : tvdw :=
  Tvdw (g_tvd_dev w) (gul_dev w) (tvd_dev_data_g w) (tvd_privs w) (irq_lines w) v.

Definition tcall (c : tvd_call) : T Z := λ w,
  let r := tanswer (tlog w) c in Some (r, set_tlog (tlog w ++ [(c, r)]) w).
Definition tcall_ (c : tvd_call) : T unit := _ ← tcall c; mret tt.

(** An instance, and one of its fields. *)
Definition get_priv (i : nat) : T tvd_priv := λ w,
  match g_tvd_dev w ≫= (.!! i) with Some p => Some (p, w) | None => None end.
Definition put_priv (i : nat) (g : tvd_priv → tvd_priv) : T unit :=
  modify (λ w, set_dev (alter g i <$> g_tvd_dev w) w).
Definition get (i : nat) (f : tvd_field) : T Z := p ← get_priv i; mret (ints p f).
Definition set (i : nat) (f : tvd_field) (v : Z) : T unit := _ ← get_priv i; put_priv i (upd f v).

(** An index of the arrays of [MAX_MODEM] elements. *)
Definition index (id : Z) : T nat :=
  if decide (0 ≤ id < Z.of_nat MAX_MODEM) then mret (Z.to_nat id) else lift None.
(** [tvd_dev->gul_dev[i]], whose shared memory is then used. *)
Definition need_dev (i : nat) : T unit :=
  d ← gets (λ w, nth i (gul_dev w) false); if (d : bool) then mret tt else lift None.

(** Not on an error pointer. *)
Definition ctx_call (f : Z → tvd_call) (c : Z) : T unit := if decide (c < 0) then lift None else tcall_ (f c).
Definition signal (i : nat) : T unit :=
  p ← get_priv i;
  match evt_fd_ctxt p with Some c => ctx_call EventfdSignal c | None => mret tt end.
(** [swake_up_all_locked] on a queue, which must be initialised. *)
Definition wake (temp : bool) (i : nat) : T unit :=
  p ← get_priv i; if (wq_ready p : bool) then tcall_ (Wake temp i) else lift None.

(** ** Interrupts *)
Definition tvd_irq_handler (i : nat) : T unit :=
  _ ← set i mtd_event_flag 1;
  _ ← set i rtd_event_flag 1;
  _ ← wake false i;
  signal i.

Definition tvd_temp_irq_handler (i : nat) : T unit := wake true i.

Definition tvd_register_irq (i : nat) : T Z :=
  n ← get i irq;
  flag ← get i irq_status_flag;
  if decide (n ≠ 0) then
    if decide (flag = 0) then
      ret ← tcall (RequestIrq false i);
      if decide (ret < 0) then mret ret else _ ← set i irq_status_flag 1; mret ret
    else mret 0
  else mret (- EINVAL).

Definition tvd_deregister_irq (i : nat) : T unit :=
  flag ← get i irq_status_flag;
  if decide (flag ≠ 0) then _ ← set i irq_status_flag 0; tcall_ (FreeIrq false i) else mret tt.

(** The second interrupt, requested at the first need; [inr] when it is there. *)
Definition temp_irq (i : nat) : T (Z + unit) :=
  n ← get i irq_temp;
  flag ← get i irq_temp_flag;
  if decide (n ≠ 0) then
    if decide (flag = 0) then
      ret ← tcall (RequestIrq true i);
      if decide (ret < 0) then mret (inl ret) else _ ← set i irq_temp_flag 1; mret (inr tt)
    else mret (inr tt)
  else mret (inl (- EINVAL)).

(** ** Thresholds and hysteresis

    [src]: where a request reads its structure, the caller's memory or a copy. *)
Definition threshold_in_range (i : Z) : Prop := ¬ (TVD_MAX_THRESHOLD < i ∨ i < TVD_MIN_THRESHOLD).
Definition hysteresis_in_range (v : Z) : Prop := ¬ (TVD_MAX_HYSTERESIS < v ∨ v < TVD_MIN_HYSTERESIS).

Definition live (f : user_field) : T Z := tcall (GetUser f).
Definition fixed (t : user_field → Z) (f : user_field) : T Z := mret (t f).

(** [for ( ; i > 0; i--) hif->threshold[i-1] = threshold[i-1]]. *)
Fixpoint copy_thresholds (src : user_field → T Z) (uf : nat → user_field) (hf : nat → hif_field) (d i : nat) : T unit :=
  match i with
  | O => mret tt
  | S k => v ← src (uf k); _ ← tcall_ (HifWrite d (hf k) (i32 v)); copy_thresholds src uf hf d k
  end.

Definition mtd_update_threshold (src : user_field → T Z) (d : nat) : T Z :=
  _ ← need_dev d;
  i ← src mtd_threshold_count;
  if decide (threshold_in_range (i32 i)) then
    count ← src mtd_threshold_count;
    _ ← tcall_ (HifWrite d hif_mtd_count (i32 count));
    _ ← copy_thresholds src mtd_threshold hif_mtd_threshold d (Z.to_nat (i32 i));
    _ ← tcall_ (RaiseMsi d HOST_MSI_TMU);
    mret 0
  else mret (- EINVAL).

Definition rtd_update_threshold (src : user_field → T Z) (d : nat) : T Z :=
  _ ← need_dev d;
  i ← src rtd_threshold_count;
  if decide (threshold_in_range (i32 i)) then
    count ← src rtd_threshold_count;
    _ ← tcall_ (HifWrite d hif_rtd_count (i32 count));
    _ ← copy_thresholds src rtd_threshold hif_rtd_threshold d (Z.to_nat (i32 i));
    mret 0
  else mret (- EINVAL).

Definition mtd_update_hysteresis (src : user_field → T Z) (d : nat) : T Z :=
  _ ← need_dev d;
  val ← src mtd_hysteresis_val;
  if decide (hysteresis_in_range (i32 val)) then
    v ← src mtd_hysteresis_val;
    _ ← tcall_ (HifWrite d mtd_hysteresisVal (i32 v));
    _ ← tcall_ (HifWrite d tvd_mtdEvent TVD_MTD_HYSTERESIS_UPDATE_REQUESTED);
    _ ← tcall_ (RaiseMsi d HOST_MSI_TMU);
    mret 0
  else mret (- EINVAL).

Definition ctd_update_hysteresis (src : user_field → T Z) : T Z :=
  val ← src ctd_hysteresis_val;
  if decide (hysteresis_in_range (i32 val)) then tcall (CtdHysteresis (i32 val)) else mret (- EINVAL).

(** The local structure starts as zeros; its count is read before the one that
    is checked. *)
Fixpoint ctd_thresholds (src : user_field → T Z) (i : nat) (th : list Z) : T (list Z) :=
  match i with
  | O => mret th
  | S k => v ← src (ctd_threshold k); ctd_thresholds src k (<[k := i32 v]> th)
  end.
Definition ctd_update_threshold (src : user_field → T Z) : T Z :=
  cnt ← src ctd_threshold_count;
  i ← src ctd_threshold_count;
  if decide (threshold_in_range (i32 i)) then
    th ← ctd_thresholds src (Z.to_nat (i32 i)) (replicate 2 0);
    tcall (CtdThreshold (i32 cnt) th)
  else mret (- EINVAL).

(** ** Temperatures *)
Definition TMU_ADJUST_TEMP_HOST_CTXT (x : Z) : Z := x + TEMP_ADJUST.
Definition TMU_ADJUST_TEMP_MDM_CTXT (x : Z) : Z := x - TEMP_ADJUST.

Definition mtd_get_site_temp (word site : Z) (is_remote_temp : bool) : Z :=
  let word := if is_remote_temp then word else cpu_to_be32 word in
  if decide (site = FECA_TEMP ∨ site = PCI_TEMP ∨ site = DIODE_TEMP) then
    TMU_ADJUST_TEMP_HOST_CTXT (temp_part site word)
  else if decide (site = COMBINED_TEMP) then i32 word
  else TMU_ADJUST_TEMP_HOST_CTXT (temp_part VSPA_TEMP word).

(** Asking the modem once: not when the last request is still there. *)
Definition ask_modem (i : nat) (f : hif_field) (code : Z) (m : host_msi) : T unit :=
  ev ← tcall (HifRead i f);
  if decide (ev ≠ code) then _ ← tcall_ (HifWrite i f code); tcall_ (RaiseMsi i m) else mret tt.

(** The result and the temperature, 0 (the caller's initial value) where it is
    not stored. *)
Definition mtd_get_temp (tvd site : Z) : T (Z * Z) :=
  i ← index tvd;
  _ ← need_dev i;
  r ← temp_irq i;
  match r with
  | inl e => mret (e, 0)
  | inr _ =>
      _ ← ask_modem i tvd_mtdEvent TVD_MTD_CURENT_TEMP_REQUESTED HOST_MSI_TMU;
      remain ← tcall (WaitTemp i);
      if decide (remain = 0) then
        mret (-1, if decide (site = COMBINED_TEMP) then i32 INVALID_TEMP_COMB else MTD_TEMP_INVALID)
      else
        t ← tcall (HifRead i mtd_curentTemp);
        let v := mtd_get_site_temp t site false in
        _ ← set i get_mtd_cur_temp v;
        mret (0, v)
  end.

Fixpoint poll_site (n : nat) (i site : nat) : T (option Z) :=
  match n with
  | O => mret None
  | S n =>
      valid ← tcall (ReadTmu i site);
      if decide (Z.land (u32 valid) 0x80000000 = 0) then poll_site n i site else mret (Some (u32 valid))
  end.

(** One site: the word with its part, and the error so far. *)
Definition read_site (i site : nat) (word ret : Z) : T (Z * Z) :=
  r ← poll_site MAX_ATTEMPT i site;
  let '(temp, ret) := match r with Some v => (TEMP_KELVIN_TO_CELSIUS v, ret) | None => (MTD_TEMP_INVALID, -1) end in
  mret (set_temp_part (Z.of_nat site) (TMU_ADJUST_TEMP_MDM_CTXT temp) word, ret).

(** The sites from [site] on, [n] of them at most. *)
Fixpoint read_sites (single_site : bool) (i n site : nat) (word ret : Z) : T (Z * Z) :=
  match n with
  | O => mret (word, ret)
  | S n =>
      '(word, ret) ← read_site i site word ret;
      if single_site then mret (word, ret) else read_sites single_site i n (S site) word ret
  end.

(** A single site that is negative reads below the registers. *)
Definition mtd_get_temp_nowait (tvd site : Z) (single_site : bool) : T (Z * Z) :=
  i ← index tvd;
  _ ← need_dev i;
  first ← (if single_site then if decide (site < 0) then lift None else mret (Z.to_nat site) else mret 0%nat);
  '(word, ret) ← read_sites single_site i (MAX_TEMP_MONITORING_SITE_ENABLED - first) first INVALID_TEMP_COMB 0;
  _ ← tcall_ (HifWrite i mtd_curentTemp word);
  t ← tcall (HifRead i mtd_curentTemp);
  let v := mtd_get_site_temp t site true in
  _ ← set i get_mtd_cur_temp v;
  mret (if decide (ret < 0) then -1 else 0, v).

(** [None] for the union where it was not stored. *)
Definition mtd_get_power_info (tvd : Z) : T (Z * option power) :=
  i ← index tvd;
  _ ← need_dev i;
  r ← temp_irq i;
  match r with
  | inl e => mret (e, None)
  | inr _ =>
      _ ← ask_modem i tvd_mtdPowerEvent TVD_MTD_POWER_INFO_REQUESTED HOST_MSI_MTD_POWER;
      remain ← tcall (WaitTemp i);
      if decide (remain = 0) then mret (- EINVAL, Some (PowerErr (- EINVAL)))
      else
        fh ← tcall (HifRead i power_info_fh);
        sh ← tcall (HifRead i power_info_sh);
        mret (0, Some (Halves (swap_data (u32 fh)) (swap_data (u32 sh))))
  end.

Definition rtd_get_temp (tvd : Z) : T Z :=
  i ← index tvd;
  _ ← need_dev i;
  r ← temp_irq i;
  match r with
  | inl e => mret e
  | inr _ =>
      _ ← ask_modem i tvd_rtdEvent TVD_RTD_CURENT_TEMP_REQUESTED HOST_MSI_RTD;
      remain ← tcall (WaitTemp i);
      if decide (remain = 0) then mret MTD_TEMP_INVALID
      else t ← tcall (HifRead i rtd_curentTemp); _ ← set i get_rtd_cur_temp t; mret t
  end.

(** The call gives its result and, by [CtdTemp], what it stored. *)
Definition get_ctd_temp : T Z :=
  ret ← tcall CtdGetTemp;
  temp ← tcall CtdTemp;
  if decide (ret = - EAGAIN) then
    ret ← tcall CtdGetTemp;
    temp ← tcall CtdTemp;
    mret (if decide (ret < 0) then INVALID_CTD_TEMP else temp)
  else mret (if Z.testbit ret 31 then INVALID_CTD_TEMP else temp).

(** ** Events *)
Fixpoint ctd_cbk_from (event temp : Z) (i n : nat) : T unit :=
  match n with
  | O => mret tt
  | S n =>
      d ← gets (λ w, nth i (tvd_dev_data_g w) false);
      _ ← (if (d : bool) then
             _ ← set i ctd_event_flag 1;
             _ ← set i ctd_event_type event;
             _ ← set i ctd_cur_temp temp;
             _ ← signal i;
             wake false i
           else mret tt);
      ctd_cbk_from event temp (S i) n
  end.
Definition ctd_cbk (event temp : Z) : T unit := ctd_cbk_from event temp 0 MAX_MODEM.

Definition put (f : user_out) (v : Z) : T Z := tcall (PutUser f v).

(** The three reports, each with the result of its last write; [rc] before them.
    [c]: the instance whose flag the report of the host clears. *)
Definition report_ctd (i c : nat) (rc : Z) : T (Z * bool) :=
  flag ← get i ctd_event_flag;
  if decide (flag = 1) then
    _ ← set c ctd_event_flag 0;
    _ ← put thermal_id CTD_EVENT;
    ty ← get i ctd_event_type;
    _ ← put ctd_type ty;
    te ← get i ctd_cur_temp;
    rc ← put ctd_temp te;
    mret (rc, true)
  else mret (rc, false).

Definition report_mtd (i : nat) (rc : Z) : T (Z * bool) :=
  flag ← get i mtd_event_flag;
  if decide (flag = 1) then
    _ ← set i mtd_event_flag 0;
    word ← tcall (HifRead i mtd_event_temp);
    site ← live mtd_site;
    _ ← set i mtd_cur_temp (mtd_get_site_temp word (u32 site) false);
    ev ← tcall (HifRead i mtd_event_id);
    _ ← set i mtd_event_type ev;
    _ ← put thermal_id MTD_EVENT;
    te ← get i mtd_cur_temp;
    _ ← put mtd_temp te;
    ty ← get i mtd_event_type;
    rc ← put mtd_type ty;
    mret (rc, true)
  else mret (rc, false).

(** The values of the report are those of instance 0. *)
Definition report_rtd (i : nat) (rc : Z) : T Z :=
  flag ← get i rtd_event_flag;
  if decide (flag = 1) then
    _ ← set i rtd_event_flag 0;
    te ← tcall (HifRead i rtd_event_temp);
    _ ← set i rtd_cur_temp te;
    ev ← tcall (HifRead i rtd_event_id);
    _ ← set i rtd_event_type ev;
    if decide (ev ≠ 0) then
      _ ← put thermal_id RTD_EVENT;
      te ← get 0 rtd_cur_temp;
      _ ← put rtd_temp te;
      ty ← get 0 rtd_event_type;
      rc ← put rtd_type ty;
      _ ← tcall_ (HifWrite i rtd_event_id 0);
      mret rc
    else mret rc
  else mret rc.

(** After the wake-up.  [c] as above. *)
Definition report_events (i c : nat) : T Z :=
  cf ← get i ctd_event_flag;
  mf ← get i mtd_event_flag;
  rc ← (if decide (cf = 1 ∧ mf = 1) then put thermal_id BOTH_CTD_MTD_EVENT else mret 0);
  '(rc, ctd_flag) ← report_ctd i c rc;
  '(rc, mtd_flag) ← report_mtd i rc;
  cf ← get i ctd_event_flag;
  mf ← get i mtd_event_flag;
  rc ← (if decide ((cf = 1 ∧ mf = 1) ∨ (ctd_flag = true ∧ mtd_flag = true))
        then put thermal_id BOTH_CTD_MTD_EVENT else mret rc);
  report_rtd i rc.

Definition get_thermal_event : T unit :=
  id ← live tvdid;
  i ← index (i32 id);
  _ ← need_dev i;
  _ ← tcall_ (WaitEvent i);
  _ ← report_events i i;
  mret tt.

(** The read clears the flag of instance 0, whatever the modem. *)
Definition gul_tvd_dev_read : T Z :=
  id ← live tvdid;
  i ← index (i32 id);
  _ ← need_dev i;
  _ ← tcall_ (WaitEvent i);
  rc ← report_events i 0;
  mret (if decide (rc = 0) then 8 else rc).

(** ** Requests *)
Inductive tvd_cmd :=
  | IOCTL_GUL_TVD_GET_THERMAL_EVENT | IOCTL_GUL_TVD_MTD_GET_TEMP | IOCTL_GUL_TVD_CTD_GET_TEMP
  | IOCTL_GUL_TVD_PROGRAM_CTD_THRESHOLD | IOCTL_GUL_TVD_PROGRAM_MTD_THRESHOLD
  | IOCTL_GUL_TVD_PROGRAM_CTD_HYSTERESIS | IOCTL_GUL_TVD_PROGRAM_MTD_HYSTERESIS
  | IOCTL_GUL_TVD_REGISTER_EVEFD | IOCTL_GUL_TVD_DEREGISTER_EVEFD | IOCTL_GUL_TVD_RTD_GET_TEMP
  | IOCTL_GUL_TVD_PROGRAM_RTD_THRESHOLD | IOCTL_GUL_TVD_MTD_GET_POWER_INFO | TvdOther.

(** The copy of the caller's structure, as it is at that moment. *)
Definition copy_from_user : T (Z * (user_field → Z)) :=
  r ← tcall CopyFromUser;
  t ← gets (λ w f, tanswer (tlog w) (GetUser f));
  mret (r, t).

(** The context of the caller's eventfd. *)
Definition eventfd_of (fd : Z) : T (option Z) :=
  if decide (0 < fd) then
    f ← tcall (FilesLookup fd);
    if decide (f = 0) then lift None else c ← tcall (EventfdGet fd); mret (Some c)
  else mret None.

Definition register_evefd (t : user_field → Z) : T Z :=
  if decide (Z.of_nat MAX_MODEM ≤ u32 (t tvdid)) then mret (- EFAULT) else
  i ← index (u32 (t tvdid));
  _ ← put_priv i (set_evt None);
  c ← eventfd_of (i32 (t tvd_eventfd));
  _ ← put_priv i (set_evt c);
  mret 0.

Definition deregister_evefd (t : user_field → Z) : T Z :=
  i ← index (u32 (t tvdid));
  p ← get_priv i;
  _ ← (match evt_fd_ctxt p with
       | Some c => _ ← ctx_call EventfdPut c; put_priv i (set_evt None)
       | None => mret tt
       end);
  mret 0.

(** [tvd_ptr->tvdid], read in the caller's memory. *)
Definition live_id : T Z := id ← live tvdid; mret (u32 id).

(** The answer of a sensor kept in the instance, and read back from the one the
    caller names by then. *)
Definition keep_temp (f : tvd_field) (i : nat) (v : Z) (out : user_out) : T unit :=
  _ ← set i f v;
  id ← live_id;
  i ← index id;
  v ← get i f;
  _ ← put out v;
  mret tt.

Definition request (cmd : tvd_cmd) (r : Z) (t : user_field → Z) : T Z :=
  match cmd with
  | IOCTL_GUL_TVD_REGISTER_EVEFD => register_evefd t
  | IOCTL_GUL_TVD_DEREGISTER_EVEFD => deregister_evefd t
  | IOCTL_GUL_TVD_GET_THERMAL_EVENT => _ ← get_thermal_event; mret 0
  | IOCTL_GUL_TVD_PROGRAM_MTD_THRESHOLD =>
      id ← live_id; d ← index id; mtd_update_threshold live d
  | IOCTL_GUL_TVD_PROGRAM_CTD_THRESHOLD => ctd_update_threshold live
  | IOCTL_GUL_TVD_PROGRAM_RTD_THRESHOLD => d ← index (u32 (t tvdid)); rtd_update_threshold (fixed t) d
  | IOCTL_GUL_TVD_MTD_GET_TEMP =>
      id ← live_id; site ← live mtd_site;
      '(_, v) ← mtd_get_temp id (u32 site);
      _ ← put get_mtd_curr_temp v; mret 0
  | IOCTL_GUL_TVD_MTD_GET_POWER_INFO =>
      id ← live_id;
      '(ret, p) ← mtd_get_power_info id;
      p ← lift p;
      _ ← tcall_ (PutPower p); mret ret
  | IOCTL_GUL_TVD_CTD_GET_TEMP =>
      id ← live_id; i ← index id;
      v ← get_ctd_temp;
      _ ← keep_temp get_ctd_cur_temp i v get_ctd_curr_temp; mret 0
  | IOCTL_GUL_TVD_RTD_GET_TEMP =>
      id ← live_id; i ← index id;
      id' ← live_id;
      v ← rtd_get_temp id';
      _ ← keep_temp get_rtd_cur_temp i v get_rtd_curr_temp; mret r
  | IOCTL_GUL_TVD_PROGRAM_MTD_HYSTERESIS =>
      id ← live_id; d ← index id; mtd_update_hysteresis live d
  | IOCTL_GUL_TVD_PROGRAM_CTD_HYSTERESIS => ctd_update_hysteresis live
  | TvdOther => mret 0
  end.

(** The temperature of the RF card is answered whether or not the copy was made. *)
Definition gul_tvd_dev_ioctl (cmd : tvd_cmd) : T Z :=
  match cmd with
  | TvdOther => mret (- ENOTTY)
  | _ =>
      '(r, t) ← copy_from_user;
      match cmd with
      | IOCTL_GUL_TVD_RTD_GET_TEMP => request cmd r t
      | _ => if decide (r ≠ 0) then mret (- EFAULT) else request cmd r t
      end
  end.

(** ** Probe and removal *)
Definition create_tvd_cdevs (i : nat) : T Z :=
  _ ← tcall_ (CdevAdd i);
  dev ← tcall (DeviceCreate i);
  mret (if decide (dev = 0) then -1 else 0).

(** An interrupt line of the modem and its interrupt; none left is an access
    before the table. *)
Definition take_line (i : nat) : T (Z * Z) :=
  t ← gets (λ w, nth i (irq_lines w) []);
  let '(n, t') := gul_dev_get_msi (cpu_of i) t in
  _ ← modify (λ w, set_lines (<[i := t']> (irq_lines w)) w);
  if decide (0 ≤ n) then e ← lift (t' !! Z.to_nat n); mret (n, irq_val e) else lift None.
Definition put_line (i : nat) (n : Z) : T unit :=
  modify (λ w, set_lines (alter (gul_dev_put_msi n) i (irq_lines w)) w).

Definition probe_err (i : nat) (ret : Z) : T Z :=
  _ ← tcall_ (KfreeData i);
  _ ← modify (λ w, set_data (<[i := false]> (tvd_dev_data_g w)) w);
  _ ← modify (λ w, set_privs (<[i := false]> (tvd_privs w)) w);
  mret ret.

Definition free_temp_irq (i : nat) : T unit :=
  flag ← get i irq_temp_flag;
  if decide (flag ≠ 0) then tcall_ (FreeIrq true i) else mret tt.
Definition put_lines (i : nat) : T unit :=
  n ← get i msi_index; _ ← put_line i n;
  n ← get i msi_temp_index; put_line i n.

Definition probe_out (i : nat) (ret : Z) : T Z :=
  _ ← put_lines i;
  _ ← tvd_deregister_irq i;
  _ ← free_temp_irq i;
  _ ← tcall_ (CdevDel i);
  _ ← tcall_ (DeviceDestroy i);
  probe_err i ret.

Definition default_mtd (f : user_field) : Z :=
  match f with
  | mtd_threshold_count => DEFAULT_MAX_MTD_THRESHOLD
  | mtd_threshold 0 => DEFAULT_MTD_THRESHOLD_1
  | mtd_threshold _ => DEFAULT_MTD_THRESHOLD_2
  | mtd_hysteresis_val => DEFAULT_MTD_HYSTERESIS
  | _ => 0
  end.

(** The lines and the shared memory. *)
Definition probe_lines (i : nat) : T unit :=
  _ ← tcall_ (HifWrite i tvd_mtdEvent 0);
  _ ← tcall_ (HifWrite i tvd_rtdEvent 0);
  _ ← tcall_ (HifWrite i tvd_mtdPowerEvent 0);
  '(m, n) ← take_line i;
  _ ← set i msi_index m; _ ← set i irq n;
  '(mt, n) ← take_line i;
  _ ← set i msi_temp_index mt; _ ← set i irq_temp n;
  _ ← set i irq_status_flag 0;
  _ ← set i irq_temp_flag 0;
  _ ← set i mtd_event_flag 0;
  _ ← set i ctd_event_flag 0;
  _ ← set 0 rtd_event_flag 0;
  _ ← set i mtd_power_event_flag 0;
  _ ← tcall_ (HifWrite i msi_mtd_tvd m);
  _ ← tcall_ (HifWrite i msi_mtd_tvd_curentTemp mt);
  _ ← tcall_ (HifWrite i msi_rtd_tvd_curentTemp mt);
  tcall_ (HifWrite i msi_mtd_power_info mt).

(** The device is there: interrupt and defaults. *)
Definition probe_start (i : nat) : T Z :=
  _ ← modify (λ w, set_privs (<[i := true]> (tvd_privs w)) w);
  _ ← put_priv i set_wq;
  ret ← tvd_register_irq i;
  if decide (ret < 0) then probe_out i ret else
  ret ← mtd_update_threshold (fixed default_mtd) i;
  if decide (ret < 0) then probe_out i ret else
  ret ← mtd_update_hysteresis (fixed default_mtd) i;
  if decide (ret < 0) then probe_out i ret else mret 0.

Definition tvd_probe (i : nat) : T Z :=
  _ ← get_priv i;
  _ ← modify (λ w, set_gul (<[i := true]> (gul_dev w)) w);
  _ ← probe_lines i;
  ok ← tcall (KmallocData i);
  if decide (ok = 0) then mret (- ENOMEM) else
  _ ← set i tvd_id (Z.of_nat i);
  _ ← modify (λ w, set_data (<[i := true]> (tvd_dev_data_g w)) w);
  ret ← create_tvd_cdevs i;
  if decide (ret < 0) then probe_err i ret else probe_start i.

Definition tvd_remove (i : nat) : T Z :=
  there ← gets (λ w, nth i (tvd_privs w) false);
  if (there : bool) then
    _ ← tvd_deregister_irq i;
    _ ← free_temp_irq i;
    _ ← put_lines i;
    _ ← tcall_ (DeviceDestroy i);
    _ ← tcall_ (CdevDel i);
    probe_err i 0
  else mret 0.

Definition default_ctd (f : user_field) : Z :=
  match f with
  | ctd_threshold_count => DEFAULT_MAX_CTD_THRESHOLD
  | ctd_threshold 0 => DEFAULT_CTD_THRESHOLD_1
  | ctd_threshold _ => DEFAULT_CTD_THRESHOLD_2
  | ctd_hysteresis_val => DEFAULT_CTD_HYSTERESIS
  | _ => 0
  end.

(** The exits of the initialisation, from the last label back. *)
Definition init_err (ret : Z) : T Z := _ ← tcall_ UnregisterChrdev; mret ret.
Definition init_out (ret : Z) : T Z :=
  _ ← tcall_ ClassDestroy; _ ← tcall_ KfreeTvd; init_err ret.
Definition init_out_class (ret : Z) : T Z := _ ← tcall_ CtdDeregister; init_out ret.

Definition tvd_init : T Z :=
  ret ← tcall AllocChrdev;
  if decide (ret < 0) then mret ret else
  ok ← tcall KmallocTvd;
  if decide (ok = 0) then init_err ret else
  c ← tcall ClassCreate;
  if decide (c = 0) then init_out (-1) else
  ret ← tcall CtdRegister;
  if decide (ret < 0) then init_out_class ret else
  ret ← ctd_update_hysteresis (fixed default_ctd);
  if decide (ret < 0) then init_out_class ret else
  ret ← ctd_update_threshold (fixed default_ctd);
  if decide (ret < 0) then init_out_class ret else
  _ ← modify (set_dev (Some (replicate MAX_MODEM priv_0)));
  mret ret.

Definition tvd_exit : T Z :=
  _ ← tcall_ CtdDeregister;
  _ ← tcall_ ClassDestroy;
  _ ← tcall_ KfreeTvd;
  _ ← modify (set_dev None);
  _ ← tcall_ UnregisterChrdev;
  mret 0.

End Tvd.
