(* ===== verification/GulTvdCorrect.v ===== *)
(** * The thermal and voltage driver: theorems *)
From S2P Require Import Prelude GulMsi GulPci GulTvd UsimEventCorrect.
#[global] Open Scope Z_scope.

Section TvdCorrect.
Context `{TvdCalls, TvdIf}.
Local Abbreviation T := (M tvdw).

(** ** Runs whose new calls satisfy a predicate *)
Section Emits.
Context (P : tvd_call → Prop).

Definition sends {A} (m : T A) : Prop :=
  ∀ w a w', m w = Some (a, w') → ∃ l, tlog w' = tlog w ++ l ∧ Forall (λ e, P (fst e)) l.

Lemma sends_nil {A} (m : T A) : (∀ w a w', m w = Some (a, w') → tlog w' = tlog w) → sends m.
Proof. intros Hm w a w' Hw. exists []. by rewrite (Hm _ _ _ Hw), app_nil_r. Qed.

Lemma sends_ret {A} (a : A) : sends (mret a).
Proof. apply sends_nil. by intros w b w' [= _ <-]. Qed.
Lemma sends_lift {A} (o : option A) : sends (lift o).
Proof. apply sends_nil. intros w a w'. unfold lift. by destruct o; [intros [= _ <-]|]. Qed.
Lemma sends_gets {A} (f : tvdw → A) : sends (gets f).
Proof. apply sends_nil. by intros w a w' [= _ <-]. Qed.
Lemma sends_modify (f : tvdw → tvdw) : (∀ w, tlog (f w) = tlog w) → sends (modify f).
Proof. intros Hf. apply sends_nil. intros w a w' [= _ <-]. apply Hf. Qed.
Lemma sends_get_priv i : sends (get_priv i).
Proof. apply sends_nil. intros w a w'. unfold get_priv. by destruct (_ ≫= _); [intros [= _ <-]|]. Qed.

Lemma sends_bind {A B} (m : T A) (k : A → T B) : sends m → (∀ a, sends (k a)) → sends (m ≫= k).
Proof.
  intros Hm Hk w b w' (a & w1 & H1 & H2)%M_bind_Some.
  destruct (Hm _ _ _ H1) as (l1 & E1 & F1), (Hk _ _ _ _ H2) as (l2 & E2 & F2).
  exists (l1 ++ l2). split; [by rewrite E2, E1, app_assoc|by apply Forall_app].
Qed.

Lemma sends_tcall c : P c → sends (tcall c).
Proof. intros Hc w a w' [= <- <-]. eexists. split; [done|]. by apply Forall_singleton. Qed.
Lemma sends_tcall_ c : P c → sends (tcall_ c).
Proof. intros Hc. apply sends_bind; [by apply sends_tcall|]. intros ?. apply sends_ret. Qed.

Lemma sends_Forall {A} (m : T A) w a w' : sends m → m w = Some (a, w') →
  Forall (λ e, P (fst e)) (tlog w) → Forall (λ e, P (fst e)) (tlog w').
Proof. intros Hm Hw F. destruct (Hm _ _ _ Hw) as (l & -> & Fl). by apply Forall_app. Qed.

End Emits.

Create HintDb tvd.
#[local] Hint Resolve sends_ret sends_lift sends_gets sends_get_priv : tvd.

(** One step per construct; the calls are left to the hypotheses and [side]. *)
Ltac sends_tac side :=
  repeat first
  [ solve [auto with tvd]
  | apply sends_modify; intros ?; reflexivity
  | apply sends_tcall; side | apply sends_tcall_; side
  | apply sends_bind; [|intros ?]
  | match goal with |- sends _ (if ?b then _ else _) => destruct b end
  | match goal with |- sends _ (match ?x with _ => _ end) => destruct x end ].

(** ** What is programmed is in range *)
Definition bounded (c : tvd_call) : Prop :=
  match c with
  | HifWrite _ hif_mtd_count v | HifWrite _ hif_rtd_count v => TVD_MIN_THRESHOLD ≤ v ≤ TVD_MAX_THRESHOLD
  | HifWrite _ (hif_mtd_threshold k) _ | HifWrite _ (hif_rtd_threshold k) _ => Z.of_nat k < TVD_MAX_THRESHOLD
  | HifWrite _ mtd_hysteresisVal v | CtdHysteresis v => TVD_MIN_HYSTERESIS ≤ v ≤ TVD_MAX_HYSTERESIS
  | CtdThreshold cnt th => TVD_MIN_THRESHOLD ≤ cnt ≤ TVD_MAX_THRESHOLD ∧ zlen th = TVD_MAX_THRESHOLD
  | _ => True
  end.

(** A source whose fields read the same again at once. *)
Definition steady (src : user_field → T Z) : Prop :=
  ∀ f w v w1 v' w2, src f w = Some (v, w1) → src f w1 = Some (v', w2) → v' = v.
Definition quiet (src : user_field → T Z) : Prop := ∀ f, sends bounded (src f).

Lemma fixed_steady t : steady (fixed t).
Proof. by intros f w v w1 v' w2 [= <- <-] [= <- _]. Qed.
Lemma fixed_quiet t : quiet (fixed t).
Proof. intros f. apply sends_ret. Qed.
Lemma live_quiet : quiet live.
Proof. intros f. by apply sends_tcall. Qed.

(** Between two copies of a structure its owner leaves it alone. *)
Definition patient_user : Prop :=
  ∀ l c r f, c ≠ CopyFromUser → tanswer (l ++ [(c, r)]) (GetUser f) = tanswer l (GetUser f).

Lemma live_steady : patient_user → steady live.
Proof. intros Hp f w v w1 v' w2 [= <- <-] [= <- _]. cbn. by apply Hp. Qed.

#[local] Hint Resolve fixed_quiet live_quiet : tvd.

(** A field read twice is one value. *)
Lemma sends_twice {B} src f (k : Z → Z → T B) : steady src → quiet src →
  (∀ v, sends bounded (k v v)) → sends bounded (v ← src f; v' ← src f; k v v').
Proof.
  intros Hs Hq Hk w b w' (v & w1 & H1 & (v' & w2 & H2 & H3)%M_bind_Some)%M_bind_Some.
  rewrite (Hs _ _ _ _ _ _ H1 H2) in H3.
  destruct (Hq _ _ _ _ H1) as (l1 & E1 & F1), (Hq _ _ _ _ H2) as (l2 & E2 & F2),
    (Hk _ _ _ _ H3) as (l3 & E3 & F3).
  exists (l1 ++ l2 ++ l3). rewrite E3, E2, E1, <- !app_assoc. split; [done|by rewrite !Forall_app].
Qed.

Lemma copy_bounded src uf hf d i : quiet src → (∀ k v, (k < i)%nat → bounded (HifWrite d (hf k) v)) →
  sends bounded (copy_thresholds src uf hf d i).
Proof.
  intros Hq. induction i as [|k IH]; intros Hb; cbn [copy_thresholds]; [apply sends_ret|].
  apply sends_bind; [apply Hq|intros v]. apply sends_bind; [apply sends_tcall_, Hb; lia|intros _].
  apply IH. intros j v' Hj. apply Hb. lia.
Qed.

Lemma need_dev_bounded d : sends bounded (need_dev d).
Proof. unfold need_dev. sends_tac idtac. Qed.
#[local] Hint Resolve need_dev_bounded : tvd.

(** A value checked, then read again. *)
Lemma sends_check {B} src f (P : Z → Prop) `{HP : ∀ z, Decision (P z)} (k : Z → Z → T B) e :
  steady src → quiet src → (∀ v, P v → sends bounded (k v v)) → sends bounded e →
  sends bounded (v ← src f; if decide (P v) then v' ← src f; k v v' else e).
Proof.
  intros Hs Hq Hk He w b w' (v & w1 & H1 & H2)%M_bind_Some.
  destruct (Hq _ _ _ _ H1) as (l1 & E1 & F1).
  assert (∃ l, tlog w' = tlog w1 ++ l ∧ Forall (λ e, bounded (fst e)) l) as (l2 & E2 & F2).
  { destruct (decide (P v)) as [Hv|]; [|by eapply He].
    apply M_bind_Some in H2 as (v' & w2 & H3 & H4).
    rewrite (Hs _ _ _ _ _ _ H1 H3) in H4.
    destruct (Hq _ _ _ _ H3) as (l2 & E2 & F2), (Hk _ Hv _ _ _ H4) as (l3 & E3 & F3).
    exists (l2 ++ l3). rewrite E3, E2, <- app_assoc. split; [done|by rewrite Forall_app]. }
  exists (l1 ++ l2). rewrite E2, E1, app_assoc. split; [done|by rewrite Forall_app].
Qed.

Lemma mtd_threshold_bounded src d : steady src → quiet src → sends bounded (mtd_update_threshold src d).
Proof.
  intros Hs Hq. apply sends_bind; [auto with tvd|intros _].
  apply (sends_check _ _ (λ i, threshold_in_range (i32 i)) (λ i count, _)); [done..| |apply sends_ret].
  intros v Hv. unfold threshold_in_range, TVD_MAX_THRESHOLD, TVD_MIN_THRESHOLD in Hv.
  apply sends_bind; [apply sends_tcall_; cbn; unfold TVD_MAX_THRESHOLD, TVD_MIN_THRESHOLD; lia|intros _].
  apply sends_bind; [apply copy_bounded; [done|]; intros k u Hk; cbn; unfold TVD_MAX_THRESHOLD; lia|intros _].
  sends_tac ltac:(done).
Qed.

Lemma rtd_threshold_bounded src d : steady src → quiet src → sends bounded (rtd_update_threshold src d).
Proof.
  intros Hs Hq. apply sends_bind; [auto with tvd|intros _].
  apply (sends_check _ _ (λ i, threshold_in_range (i32 i)) (λ i count, _)); [done..| |apply sends_ret].
  intros v Hv. unfold threshold_in_range, TVD_MAX_THRESHOLD, TVD_MIN_THRESHOLD in Hv.
  apply sends_bind; [apply sends_tcall_; cbn; unfold TVD_MAX_THRESHOLD, TVD_MIN_THRESHOLD; lia|intros _].
  apply sends_bind; [apply copy_bounded; [done|]; intros k u Hk; cbn; unfold TVD_MAX_THRESHOLD; lia|intros _].
  apply sends_ret.
Qed.

Lemma mtd_hysteresis_bounded src d : steady src → quiet src → sends bounded (mtd_update_hysteresis src d).
Proof.
  intros Hs Hq. apply sends_bind; [auto with tvd|intros _].
  apply (sends_check _ _ (λ i, hysteresis_in_range (i32 i)) (λ i v, _)); [done..| |apply sends_ret].
  intros v Hv. unfold hysteresis_in_range, TVD_MAX_HYSTERESIS, TVD_MIN_HYSTERESIS in Hv.
  apply sends_bind; [apply sends_tcall_; cbn; unfold TVD_MAX_HYSTERESIS, TVD_MIN_HYSTERESIS; lia|intros _].
  sends_tac ltac:(done).
Qed.

Lemma ctd_hysteresis_bounded src : quiet src → sends bounded (ctd_update_hysteresis src).
Proof.
  intros Hq. apply sends_bind; [apply Hq|intros v].
  destruct (decide (hysteresis_in_range (i32 v))) as [Hv|]; [|apply sends_ret].
  unfold hysteresis_in_range, TVD_MAX_HYSTERESIS, TVD_MIN_HYSTERESIS in Hv.
  apply sends_tcall; cbn; unfold TVD_MAX_HYSTERESIS, TVD_MIN_HYSTERESIS; lia.
Qed.

Lemma ctd_thresholds_emits src (k : list Z → T Z) i : quiet src → ∀ th, length th = 2%nat →
  (∀ th', length th' = 2%nat → sends bounded (k th')) → sends bounded (th' ← ctd_thresholds src i th; k th').
Proof.
  intros Hq. induction i as [|j IH]; intros th Hth Hk; cbn [ctd_thresholds]; [by apply (Hk th)|].
  intros w b w' (th' & w1 & (v & w2 & H1 & H2)%M_bind_Some & H3)%M_bind_Some.
  destruct (Hq _ _ _ _ H1) as (l1 & E1 & F1).
  destruct (IH (<[j := i32 v]> th) ltac:(by rewrite length_insert) Hk w2 b w') as (l2 & E2 & F2).
  { rewrite M_bind_eq, H2. exact H3. }
  exists (l1 ++ l2). rewrite E2, E1, app_assoc. split; [done|by rewrite Forall_app].
Qed.

Lemma ctd_threshold_bounded src : steady src → quiet src → sends bounded (ctd_update_threshold src).
Proof.
  intros Hs Hq. apply (sends_twice _ _ (λ cnt i, _)); [done..|].
  intros v. destruct (decide (threshold_in_range (i32 v))) as [Hv|]; [|apply sends_ret].
  unfold threshold_in_range, TVD_MAX_THRESHOLD, TVD_MIN_THRESHOLD in Hv.
  apply ctd_thresholds_emits; [done..|]. intros th Hth. apply sends_tcall.
  cbn. unfold zlen, TVD_MAX_THRESHOLD, TVD_MIN_THRESHOLD. rewrite Hth. lia.
Qed.

(** The operations that program nothing. *)
Lemma index_bounded id : sends bounded (index id).
Proof. unfold index. sends_tac idtac. Qed.
Lemma set_bounded i f v : sends bounded (set i f v).
Proof. unfold set, put_priv. sends_tac idtac. Qed.
Lemma get_bounded i f : sends bounded (get i f).
Proof. unfold get. sends_tac idtac. Qed.
#[local] Hint Resolve index_bounded set_bounded get_bounded : tvd.
Lemma put_bounded f v : sends bounded (put f v).
Proof. by apply sends_tcall. Qed.
Lemma live_bounded f : sends bounded (live f).
Proof. by apply sends_tcall. Qed.
Lemma signal_bounded i : sends bounded (signal i).
Proof. unfold signal, ctx_call. sends_tac ltac:(done). Qed.
Lemma wake_bounded b i : sends bounded (wake b i).
Proof. unfold wake. sends_tac ltac:(done). Qed.
#[local] Hint Resolve put_bounded live_bounded signal_bounded wake_bounded : tvd.
Lemma temp_irq_bounded i : sends bounded (temp_irq i).
Proof. unfold temp_irq. sends_tac ltac:(done). Qed.
Lemma ask_bounded i f code m : bounded (HifWrite i f code) → sends bounded (ask_modem i f code m).
Proof. intros Hf. unfold ask_modem. sends_tac ltac:(done). Qed.
Lemma poll_bounded n i site : sends bounded (poll_site n i site).
Proof. induction n; cbn [poll_site]; sends_tac ltac:(done). Qed.
#[local] Hint Resolve temp_irq_bounded poll_bounded : tvd.
Lemma sites_bounded b i n site word ret : sends bounded (read_sites b i n site word ret).
Proof.
  revert site word ret. induction n as [|n IH]; intros; cbn [read_sites]; unfold read_site; sends_tac ltac:(done).
Qed.
#[local] Hint Resolve sites_bounded : tvd.
#[local] Hint Extern 1 (sends bounded (ask_modem _ _ _ _)) => apply ask_bounded; done : tvd.

Lemma mtd_temp_bounded tvd site : sends bounded (mtd_get_temp tvd site).
Proof. unfold mtd_get_temp. sends_tac ltac:(done). Qed.
Lemma nowait_bounded tvd site b : sends bounded (mtd_get_temp_nowait tvd site b).
Proof. unfold mtd_get_temp_nowait. sends_tac ltac:(done). Qed.
Lemma power_bounded tvd : sends bounded (mtd_get_power_info tvd).
Proof. unfold mtd_get_power_info. sends_tac ltac:(done). Qed.
Lemma rtd_temp_bounded tvd : sends bounded (rtd_get_temp tvd).
Proof. unfold rtd_get_temp. sends_tac ltac:(done). Qed.
Lemma ctd_temp_bounded : sends bounded get_ctd_temp.
Proof. unfold get_ctd_temp. sends_tac ltac:(done). Qed.
Lemma events_bounded i c : sends bounded (report_events i c).
Proof. unfold report_events, report_ctd, report_mtd, report_rtd. sends_tac ltac:(done). Qed.
#[local] Hint Resolve mtd_temp_bounded power_bounded rtd_temp_bounded ctd_temp_bounded events_bounded : tvd.
Lemma event_bounded : sends bounded get_thermal_event.
Proof. unfold get_thermal_event. sends_tac ltac:(done). Qed.
Lemma read_bounded : sends bounded gul_tvd_dev_read.
Proof. unfold gul_tvd_dev_read. sends_tac ltac:(done). Qed.
Lemma cbk_bounded ev te i n : sends bounded (ctd_cbk_from ev te i n).
Proof. revert i. induction n; intros i; cbn [ctd_cbk_from]; sends_tac ltac:(done). Qed.
#[local] Hint Resolve event_bounded read_bounded cbk_bounded mtd_threshold_bounded rtd_threshold_bounded
  mtd_hysteresis_bounded ctd_hysteresis_bounded ctd_threshold_bounded fixed_steady : tvd.

Lemma copy_user_bounded : sends bounded copy_from_user.
Proof. unfold copy_from_user. sends_tac ltac:(done). Qed.
Lemma eventfd_bounded fd : sends bounded (eventfd_of fd).
Proof. unfold eventfd_of. sends_tac ltac:(done). Qed.
#[local] Hint Resolve copy_user_bounded eventfd_bounded : tvd.
Lemma register_bounded t : sends bounded (register_evefd t).
Proof. unfold register_evefd, put_priv. sends_tac ltac:(done). Qed.
Lemma deregister_bounded t : sends bounded (deregister_evefd t).
Proof. unfold deregister_evefd, ctx_call, put_priv. sends_tac ltac:(done). Qed.
Lemma live_id_bounded : sends bounded live_id.
Proof. unfold live_id. sends_tac ltac:(done). Qed.
#[local] Hint Resolve register_bounded deregister_bounded live_id_bounded : tvd.
Lemma keep_bounded f i v out : sends bounded (keep_temp f i v out).
Proof. unfold keep_temp. sends_tac ltac:(done). Qed.
#[local] Hint Resolve keep_bounded : tvd.

Lemma request_bounded cmd r t : patient_user → sends bounded (request cmd r t).
Proof.
  intros Hp. assert (Hs := live_steady Hp). destruct cmd; cbn [request]; sends_tac ltac:(done).
Qed.
Lemma ioctl_bounded cmd : patient_user → sends bounded (gul_tvd_dev_ioctl cmd).
Proof.
  intros Hp. assert (Hr := λ c r t, request_bounded c r t Hp).
  destruct cmd; cbn [gul_tvd_dev_ioctl]; sends_tac ltac:(done); apply Hr.
Qed.

Lemma deregister_irq_bounded i : sends bounded (tvd_deregister_irq i).
Proof. unfold tvd_deregister_irq. sends_tac ltac:(done). Qed.
Lemma register_irq_bounded i : sends bounded (tvd_register_irq i).
Proof. unfold tvd_register_irq. sends_tac ltac:(done). Qed.
Lemma free_temp_bounded i : sends bounded (free_temp_irq i).
Proof. unfold free_temp_irq. sends_tac ltac:(done). Qed.
Lemma put_lines_bounded i : sends bounded (put_lines i).
Proof. unfold put_lines, put_line. sends_tac ltac:(done). Qed.
Lemma take_line_bounded i : sends bounded (take_line i).
Proof. unfold take_line. sends_tac ltac:(done). Qed.
Lemma probe_err_bounded i r : sends bounded (probe_err i r).
Proof. unfold probe_err. sends_tac ltac:(done). Qed.
#[local] Hint Resolve deregister_irq_bounded register_irq_bounded free_temp_bounded put_lines_bounded
  take_line_bounded probe_err_bounded : tvd.
Lemma probe_out_bounded i r : sends bounded (probe_out i r).
Proof. unfold probe_out. sends_tac ltac:(done). Qed.
Lemma probe_lines_bounded i : sends bounded (probe_lines i).
Proof. unfold probe_lines. sends_tac ltac:(done). Qed.
#[local] Hint Resolve probe_out_bounded probe_lines_bounded : tvd.
Lemma probe_start_bounded i : sends bounded (probe_start i).
Proof. unfold probe_start, put_priv. sends_tac ltac:(done). Qed.
#[local] Hint Resolve probe_start_bounded : tvd.
Lemma probe_bounded i : sends bounded (tvd_probe i).
Proof. unfold tvd_probe, create_tvd_cdevs. sends_tac ltac:(done). Qed.
Lemma remove_bounded i : sends bounded (tvd_remove i).
Proof. unfold tvd_remove. sends_tac ltac:(done). Qed.
Lemma init_bounded : sends bounded tvd_init.
Proof. unfold tvd_init, init_out_class, init_out, init_err. sends_tac ltac:(done). Qed.
Lemma exit_bounded : sends bounded tvd_exit.
Proof. unfold tvd_exit. sends_tac ltac:(done). Qed.

(** ** The system: the operations in any order *)
Inductive tvd_step : relation tvdw :=
  | step_ioctl cmd r w w' : gul_tvd_dev_ioctl cmd w = Some (r, w') → tvd_step w w'
  | step_read r w w' : gul_tvd_dev_read w = Some (r, w') → tvd_step w w'
  | step_dump id site b r w w' : mtd_get_temp_nowait id site b w = Some (r, w') → tvd_step w w'
  | step_irq i w w' : tvd_irq_handler i w = Some (tt, w') → tvd_step w w'
  | step_temp_irq i w w' : tvd_temp_irq_handler i w = Some (tt, w') → tvd_step w w'
  | step_ctd ev te w w' : ctd_cbk ev te w = Some (tt, w') → tvd_step w w'
  | step_probe i r w w' : tvd_probe i w = Some (r, w') → tvd_step w w'
  | step_remove i r w w' : tvd_remove i w = Some (r, w') → tvd_step w w'
  | step_init r w w' : tvd_init w = Some (r, w') → tvd_step w w'
  | step_exit r w w' : tvd_exit w = Some (r, w') → tvd_step w w'.

Lemma irq_handler_bounded i : sends bounded (tvd_irq_handler i).
Proof. unfold tvd_irq_handler. sends_tac ltac:(done). Qed.

Lemma step_emits w w' : patient_user → tvd_step w w' →
  ∃ l, tlog w' = tlog w ++ l ∧ Forall (λ e, bounded (fst e)) l.
Proof.
  intros Hp. destruct 1.
  - by eapply ioctl_bounded.
  - by eapply read_bounded.
  - by eapply nowait_bounded.
  - by eapply irq_handler_bounded.
  - by eapply wake_bounded.
  - by eapply cbk_bounded.
  - by eapply probe_bounded.
  - by eapply remove_bounded.
  - by eapply init_bounded.
  - by eapply exit_bounded.
Qed.

Definition in_range (w : tvdw) : Prop := Forall (λ e, bounded (fst e)) (tlog w).

(** C13: whatever the callers ask, and in any order with probes, removals and
    interrupts, the counts of thresholds, the indices written and the hysteresis
    given to the modem and to the host's sensor are within their limits, as long
    as a caller leaves its structure alone during a request. *)
Theorem thermal_limits w0 w : patient_user → in_range w0 → rtc tvd_step w0 w → in_range w.
Proof.
  intros Hp Hin Hr. apply (rtc_invariant _ in_range _ _ Hr); [|done].
  intros a b Hs Ha. destruct (step_emits _ _ Hp Hs) as (l & E & F). unfold in_range. rewrite E.
  by apply Forall_app.
Qed.

(** ** Events *)

(** The last identifier stored in the caller's structure. *)
Definition last_id (t0 : Z) (l : list (tvd_call * Z)) : Z :=
  foldl (λ t e, match fst e with PutUser thermal_id v => v | _ => t end) t0 l.
Lemma last_id_snoc t0 l e : last_id t0 (l ++ [e]) =
  match fst e with PutUser thermal_id v => v | _ => last_id t0 l end.
Proof. unfold last_id. by rewrite foldl_app. Qed.

(** Instance [i] is [p], and the caller has the identifier [t]. *)
Definition At (t0 : Z) (i : nat) (p : tvd_priv) (t : Z) (w : tvdw) : Prop :=
  get_priv i w = Some (p, w) ∧ last_id t0 (tlog w) = t.

Section At.
Context (t0 : Z) (i : nat).
Local Abbreviation A := (At t0 i).

Lemma get_inst_at p t f : hoare True (A p t) (get i f) (λ v w, v = ints p f ∧ A p t w).
Proof. intros w [Hp Ht]. unfold get. by rewrite M_bind_eq, Hp. Qed.

Lemma get_other p t j f : hoare True (A p t) (get j f) (λ _, A p t).
Proof. intros w Hw. unfold get, get_priv. rewrite M_bind_eq. by destruct (_ ≫= _). Qed.

Lemma get_set j p w p' : get_priv j w = Some (p', w) →
  get_priv i w = Some (p, w) → ∀ g, get_priv i (set_dev (alter g j <$> g_tvd_dev w) w) =
    Some (if decide (j = i) then g p else p, set_dev (alter g j <$> g_tvd_dev w) w).
Proof.
  unfold get_priv. intros _ Hp g. destruct w as [[ps|] ? ? ? ? ?]; [|done]. cbn in *.
  destruct (ps !! i) as [q|] eqn:E; [|done]. injection Hp as ->. case_decide as Hj.
  - subst j. by rewrite list_lookup_alter_eq, E.
  - by rewrite list_lookup_alter_ne, E.
Qed.

Lemma set_at p t f v : hoare True (A p t) (set i f v) (λ _, A (upd f v p) t).
Proof.
  intros w [Hp Ht]. unfold set. rewrite M_bind_eq, Hp. cbn.
  split; [|done]. by rewrite (get_set i p w p), decide_True.
Qed.

Lemma set_other p t c f v : c ≠ i → hoare True (A p t) (set c f v) (λ _, A p t).
Proof.
  intros Hc w [Hp Ht]. unfold set. rewrite M_bind_eq. destruct (get_priv c w) as [[q w']|] eqn:E; [|done].
  assert (w' = w) as ->. { unfold get_priv in E. destruct (_ ≫= _); congruence. }
  cbn. split; [|done]. by rewrite (get_set c p w q), decide_False.
Qed.

Lemma call_at p t c : hoare True (A p t) (tcall c)
  (λ _, A p (match c with PutUser thermal_id v => v | _ => t end)).
Proof.
  intros w [Hp Ht]. cbn. split; [by unfold get_priv in *; cbn in *; destruct (_ ≫= _); simplify_eq|].
  cbn. rewrite last_id_snoc. cbn. destruct c; try done. by destruct f.
Qed.
Lemma call__at p t c : hoare True (A p t) (tcall_ c)
  (λ _, A p (match c with PutUser thermal_id v => v | _ => t end)).
Proof.
  eapply hoare_bind; [apply call_at|]. intros a w Hw. exact Hw.
Qed.

(** A step of a run, with what it leaves. *)
Ltac at_step :=
  eapply hoare_bind;
  [first [apply get_inst_at|apply set_at|apply call_at|apply call__at]|];
  intros ?; try (apply hoare_pre; intros ->).

(** What each report leaves: the flags and the identifier. *)
Lemma report_ctd_at c p t rc : hoare True (A p t) (report_ctd i c rc)
  (λ r w, r.2 = bool_decide (ints p ctd_event_flag = 1) ∧
     A (if decide (ints p ctd_event_flag = 1 ∧ c = i) then upd ctd_event_flag 0 p else p)
       (if decide (ints p ctd_event_flag = 1) then CTD_EVENT else t) w).
Proof.
  at_step. destruct (decide (ints p ctd_event_flag = 1)) as [Hf|Hf].
  - eapply (hoare_bind _ (λ _, A (if decide (c = i) then upd ctd_event_flag 0 p else p) t)).
    { destruct (decide (c = i)) as [->|Hc]; [apply set_at|by apply set_other]. }
    intros ?. repeat at_step. intros w Hw. cbn. rewrite bool_decide_true by done. split; [done|].
    destruct (decide (c = i)); [rewrite decide_True by done|rewrite decide_False by tauto]; exact Hw.
  - intros w Hw. cbn. rewrite bool_decide_false by done. split; [done|]. rewrite decide_False by tauto. exact Hw.
Qed.

(** [q] is [p] with one flag lowered. *)
Definition lowered (f : tvd_field) (p q : tvd_priv) : Prop :=
  ints q f = (if decide (ints p f = 1) then 0 else ints p f) ∧
  ∀ g, g ∈ [ctd_event_flag; mtd_event_flag; rtd_event_flag] → g ≠ f → ints q g = ints p g.

Lemma report_mtd_at p t rc : hoare True (A p t) (report_mtd i rc)
  (λ r w, r.2 = bool_decide (ints p mtd_event_flag = 1) ∧
     ∃ q, lowered mtd_event_flag p q ∧
       A q (if decide (ints p mtd_event_flag = 1) then MTD_EVENT else t) w).
Proof.
  at_step. destruct (decide (ints p mtd_event_flag = 1)) as [Hf|Hf].
  - repeat at_step. intros w Hw. cbn. rewrite bool_decide_true by done. split; [done|].
    eexists. split; [|exact Hw]. split; [by rewrite decide_True; [reflexivity|]|].
    intros g Hg Hn. set_unfold in Hg; destruct_or?; by subst g.
  - intros w Hw. cbn. rewrite bool_decide_false by done. split; [done|]. exists p. split; [|done].
    split; [by rewrite decide_False|done].
Qed.

Lemma report_rtd_at p t rc : hoare True (A p t) (report_rtd i rc)
  (λ _ w, ∃ q, lowered rtd_event_flag p q ∧
     A q (if decide (ints p rtd_event_flag = 1 ∧ ints q rtd_event_type ≠ 0) then RTD_EVENT else t) w).
Proof.
  at_step. destruct (decide (ints p rtd_event_flag = 1)) as [Hf|Hf].
  - at_step. at_step. at_step. at_step. at_step.
    match goal with |- context [upd rtd_event_type ?ev ?p1] =>
      assert (lowered rtd_event_flag p (upd rtd_event_type ev p1)) as Hq end.
    { split; [by rewrite decide_True; [reflexivity|]|]. intros g Hg Hn. set_unfold in Hg; destruct_or?; by subst g. }
    case_decide as Hev.
    + at_step. eapply hoare_bind; [apply get_other|]. intros ?. at_step.
      eapply hoare_bind; [apply get_other|]. intros ?. repeat at_step. intros w Hw.
      eexists. split; [exact Hq|]. by rewrite decide_True.
    + intros w Hw. eexists. split; [exact Hq|]. rewrite decide_False; [done|]. cbn. naive_solver.
  - intros w Hw. exists p. split; [split; [by rewrite decide_False|done]|]. by rewrite decide_False by tauto.
Qed.

(** The identifier a caller ends up with: the event of the RF card hides the
    others. *)
Definition event_id (p q : tvd_priv) (t : Z) : Z :=
  if decide (ints p rtd_event_flag = 1 ∧ ints q rtd_event_type ≠ 0) then RTD_EVENT
  else if decide (ints p ctd_event_flag = 1) then
    if decide (ints p mtd_event_flag = 1) then BOTH_CTD_MTD_EVENT else CTD_EVENT
  else if decide (ints p mtd_event_flag = 1) then MTD_EVENT else t.

(** [q] has the flags of [p] lowered, that of the host only where [own]. *)
Definition handled (own : bool) (p q : tvd_priv) : Prop :=
  ints q mtd_event_flag ≠ 1 ∧ ints q rtd_event_flag ≠ 1 ∧
  (if own then ints q ctd_event_flag ≠ 1 else ints q ctd_event_flag = ints p ctd_event_flag).

Lemma hoare_ex {X B} (P : X → tvdw → Prop) (m : T B) Q :
  (∀ x, hoare True (P x) m Q) → hoare True (λ w, ∃ x, P x w) m Q.
Proof. intros Hm w [x Hw]. by apply (Hm x). Qed.

(** An identifier stored on a condition. *)
Lemma put_if_at φ `{Decision φ} p t v rc : hoare True (A p t)
  (if decide φ then put thermal_id v else mret rc) (λ _, A p (if decide φ then v else t)).
Proof. case_decide; [apply call_at|]. intros w Hw. exact Hw. Qed.

Lemma report_events_at c p t : hoare True (A p t) (report_events i c)
  (λ _ w, ∃ q, handled (bool_decide (c = i)) p q ∧ A q (event_id p q t) w).
Proof.
  at_step. at_step. eapply hoare_bind; [apply put_if_at|]. intros rc1.
  eapply hoare_bind; [apply report_ctd_at|]. intros [rc2 b]. cbn [fst snd]. apply hoare_pre. intros ->.
  eapply hoare_bind; [apply report_mtd_at|]. intros [rc3 b]. cbn [fst snd]. apply hoare_pre. intros ->.
  set (p1 := if decide (_ ∧ c = i) then upd _ _ _ else p).
  assert (ints p1 mtd_event_flag = ints p mtd_event_flag ∧ ints p1 rtd_event_flag = ints p rtd_event_flag) as [Hm Hr]
    by (unfold p1; by case_decide).
  assert (Hc : if bool_decide (c = i) then ints p1 ctd_event_flag ≠ 1 else ints p1 ctd_event_flag = ints p ctd_event_flag).
  { unfold p1. case_bool_decide; case_decide; try tauto. by cbn. }
  apply hoare_ex. intros q. apply hoare_pre. intros [Hq1 Hq2]. rewrite Hm in *.
  at_step. at_step. eapply hoare_bind; [apply put_if_at|]. intros rc4.
  eapply hoare_weaken; [exact (λ w x, x)| |apply report_rtd_at].
  intros _ w (r & [Hr1 Hr2] & Hw). exists r.
  rewrite Hq2 in Hr1, Hw by (done || set_solver). rewrite Hr in *.
  assert (Hmf : ints q mtd_event_flag ≠ 1) by (rewrite Hq1; destruct (decide (ints p mtd_event_flag = 1)); lia).
  split; [split_and!|].
  - by rewrite Hr2; [|set_solver|].
  - rewrite Hr1. destruct (decide (ints p rtd_event_flag = 1)); lia.
  - rewrite Hr2, Hq2 by (done || set_solver). exact Hc.
  - unfold event_id. revert Hw. repeat case_decide; rewrite ?bool_decide_eq_true in *; tauto.
Qed.

End At.

(** The instance behind a request, up to the wake-up. *)
Lemma waits {B} i c p t t0 (k : Z → B) (w : tvdw) r w' :
  i32 (tanswer (tlog w) (GetUser tvdid)) = Z.of_nat i → At t0 i p t w →
  (id ← live tvdid; j ← index (i32 id); _ ← need_dev j; _ ← tcall_ (WaitEvent j);
   rc ← report_events j (c j); mret (k rc)) w = Some (r, w') →
  ∃ q, handled (bool_decide (c i = i)) p q ∧ At t0 i q (event_id p q t) w'.
Proof.
  intros Hid Hw Hrun. assert (Hl := call_at t0 i p t (GetUser tvdid) w Hw).
  unfold live in Hrun. rewrite M_bind_eq in Hrun. cbn [tcall] in Hrun. cbn in Hl.
  unfold index in Hrun. rewrite Hid in Hrun. case_decide; [|done]. rewrite M_bind_eq in Hrun. cbn [mret M_ret] in Hrun.
  rewrite Nat2Z.id in Hrun. unfold need_dev in Hrun.
  apply M_bind_Some in Hrun as (u & w1 & E1 & (u2 & w2 & E2 & (rc & w3 & E3 & E4)%M_bind_Some)%M_bind_Some).
  injection E4 as <- <-. assert (w1 = set_tlog (tlog w ++ [(GetUser tvdid, tanswer (tlog w) (GetUser tvdid))]) w) as ->.
  { revert E1. rewrite M_bind_eq. cbn. by destruct (nth i _ _); intros [= <-]. }
  assert (Hw2 := call__at t0 i p t (WaitEvent i) _ Hl). rewrite E2 in Hw2.
  assert (Hw3 := report_events_at t0 i (c i) p t _ Hw2). by rewrite E3 in Hw3.
Qed.

(** a request for the events of a modem takes each of them once: its three
    flags are down afterwards, and the caller's identifier says which of them were
    up.  It names the host and the modem together, but an event of the RF card
    hides both. *)
Theorem thermal_event_reported i p t0 w w' :
  i32 (tanswer (tlog w) (GetUser tvdid)) = Z.of_nat i → get_priv i w = Some (p, w) →
  get_thermal_event w = Some (tt, w') →
  ∃ q, get_priv i w' = Some (q, w') ∧
    ints q ctd_event_flag ≠ 1 ∧ ints q mtd_event_flag ≠ 1 ∧ ints q rtd_event_flag ≠ 1 ∧
    last_id t0 (tlog w') = event_id p q (last_id t0 (tlog w)).
Proof.
  intros Hid Hp Hrun.
  destruct (waits i id p (last_id t0 (tlog w)) t0 (λ _, tt) w tt w')
    as (q & (Hm & Hr & Hc) & Hq & Hl); [done..|].
  rewrite bool_decide_true in Hc by done. naive_solver.
Qed.

(** The read of another modem than the first leaves the event of the host up: it
    reports it again at every event to come. *)
Theorem host_event_sticks i p t0 w r w' : i ≠ 0%nat →
  i32 (tanswer (tlog w) (GetUser tvdid)) = Z.of_nat i → get_priv i w = Some (p, w) →
  gul_tvd_dev_read w = Some (r, w') →
  ∃ q, get_priv i w' = Some (q, w') ∧ ints q ctd_event_flag = ints p ctd_event_flag ∧
    last_id t0 (tlog w') = event_id p q (last_id t0 (tlog w)).
Proof.
  intros Hi Hid Hp Hrun.
  destruct (waits i (λ _, 0%nat) p (last_id t0 (tlog w)) t0 (λ rc, if decide (rc = 0) then 8 else rc) w r w')
    as (q & (Hm & Hr & Hc) & Hq & Hl); [done..|].
  rewrite bool_decide_false in Hc by done. naive_solver.
Qed.

(** Without memory for its structure the initialisation undoes itself and reports
    the success of the step before; the probe then goes through NULL. *)
Theorem init_hides_failure i w : g_tvd_dev w = None →
  let l := tlog w ++ [(AllocChrdev, tanswer (tlog w) AllocChrdev)] in
  0 ≤ tanswer (tlog w) AllocChrdev → tanswer l KmallocTvd = 0 →
  ∃ w', tvd_init w = Some (tanswer (tlog w) AllocChrdev, w') ∧ tvd_probe i w' = None.
Proof.
  intros Hg l Hret Hk. eexists. split.
  - unfold tvd_init. rewrite M_bind_eq. cbn [tcall]. rewrite decide_False by lia.
    rewrite M_bind_eq. cbn [tcall]. cbn. fold l. rewrite Hk. cbn. reflexivity.
  - unfold tvd_probe. rewrite M_bind_eq. unfold get_priv. cbn. by rewrite Hg.
Qed.

End TvdCorrect.

(** ** Witnesses *)

(** A caller that asks for two thresholds of modem 0, over a kernel without
    failures. *)
Definition demo_tvd : TvdCalls := {|
  tanswer _ c := match c with
    | GetUser mtd_threshold_count => 2 | GetUser (mtd_threshold k) => 70 + Z.of_nat k
    | KmallocTvd | KmallocData _ | ClassCreate | DeviceCreate _ | WaitTemp _ => 1
    | HifRead _ rtd_event_id => 2 | HifRead _ mtd_event_temp => 0x11223344
    | _ => 0 end;
  cpu_of _ := 0 |}.
Definition demo_if : TvdIf := {|
  temp_part s w := Z.land (Z.shiftr w (8 * s)) 255; set_temp_part s v w := Z.lor w (Z.shiftl (Z.land v 255) (8 * s));
  cpu_to_be32 w := w; TEMP_ADJUST := 50; INVALID_CTD_TEMP := 255;
  TVD_MTD_CURENT_TEMP_REQUESTED := 1; TVD_RTD_CURENT_TEMP_REQUESTED := 1;
  TVD_MTD_POWER_INFO_REQUESTED := 1; TVD_MTD_HYSTERESIS_UPDATE_REQUESTED := 2 |}.
Definition demo_lines : list irq_info := [Irq 40 1 GUL_MSI_IRQ_FREE 0; Irq 41 2 GUL_MSI_IRQ_FREE 0].
Definition tvdw_0 : tvdw :=
  Tvdw None (replicate MAX_MODEM false) (replicate MAX_MODEM false) (replicate MAX_MODEM false)
    (replicate MAX_MODEM demo_lines) [].

(** The state after an operation. *)
Definition after {A} (m : M tvdw A) (w : tvdw) : tvdw := match m w with Some (_, w') => w' | None => w end.
Definition tvd_ready : tvdw := after (@tvd_probe demo_tvd demo_if 0) (after (@tvd_init demo_tvd) tvdw_0).
Definition tvd_asked : tvdw := after (@gul_tvd_dev_ioctl demo_tvd demo_if IOCTL_GUL_TVD_PROGRAM_MTD_THRESHOLD) tvd_ready.

Lemma thermal_limits_witness :
  in_range tvd_asked ∧ (HifWrite 0 hif_mtd_count 2, 0) ∈ tlog tvd_asked ∧ (HifWrite 0 (hif_mtd_threshold 1) 71, 0) ∈ tlog tvd_asked.
Proof.
  split.
  - apply (@thermal_limits demo_tvd demo_if tvdw_0); [by intros l c r f _|constructor|].
    eapply rtc_l; [apply (@step_init _ _ 0); vm_compute; reflexivity|].
    eapply rtc_l; [apply (@step_probe _ _ 0 0); vm_compute; reflexivity|].
    eapply rtc_l; [apply (@step_ioctl _ _ IOCTL_GUL_TVD_PROGRAM_MTD_THRESHOLD 0); vm_compute; reflexivity|].
    apply rtc_refl.
  - split; vm_compute; repeat (first [apply list_elem_of_here|apply list_elem_of_further]).
Defined.

(** A caller that changes its structure between the check and the second look has
    a thousand thresholds announced to the modem. *)
Definition racing_tvd : TvdCalls := {|
  tanswer l c := match c with
    | GetUser mtd_threshold_count => match last l with Some (GetUser mtd_threshold_count, _) => 1000 | _ => 1 end
    | _ => @tanswer demo_tvd l c end;
  cpu_of _ := 0 |}.
Example mtd_count_raced :
  (HifWrite 0 hif_mtd_count 1000, 0) ∈
    tlog (after (@gul_tvd_dev_ioctl racing_tvd demo_if IOCTL_GUL_TVD_PROGRAM_MTD_THRESHOLD) tvd_ready).
Proof. vm_compute. repeat (first [apply list_elem_of_here|apply list_elem_of_further]). Qed.

(** The interrupt of modem 0 and an event of the host, then the request. *)
Definition tvd_hot : tvdw :=
  after (@ctd_cbk demo_tvd 1 90) (after (@tvd_irq_handler demo_tvd 0) tvd_ready).
Definition hot_priv : tvd_priv := default priv_0 (g_tvd_dev tvd_hot ≫= (.!! 0%nat)).
Lemma thermal_event_reported_witness :
  ints hot_priv ctd_event_flag = 1 ∧ ints hot_priv mtd_event_flag = 1 ∧
  ∃ q, let w' := after (@get_thermal_event demo_tvd demo_if) tvd_hot in
    get_priv 0 w' = Some (q, w') ∧
    ints q ctd_event_flag ≠ 1 ∧ ints q mtd_event_flag ≠ 1 ∧ ints q rtd_event_flag ≠ 1 ∧
    last_id 0 (tlog w') = event_id hot_priv q (last_id 0 (tlog tvd_hot)).
Proof.
  split; [reflexivity|]. split; [reflexivity|].
  apply (@thermal_event_reported demo_tvd demo_if 0 hot_priv 0 tvd_hot); vm_compute; reflexivity.
Defined.
