(* ===== verification/GulDcs.v ===== *)
(** * The data converter driver (kernel_driver/yami/gul_dcs.c, gul_dcs.h)

    The clocks, the firmware and the calibration of the converters, and the thread
    that recalibrates them as the chip heats up.  A modem is seen through
    [DcsEnv]: an access of a word of its register space, of the shared memory, and
    its temperature.  A delay is part of the access that follows it.  The firmware
    comes from GulBoot, into the region of GulScratch.  [None] is undefined
    behaviour: a NULL or freed structure. *)
From S2P Require Import Prelude GulMsi GulPci GulImage GulScratch GulBoot.
From Stdlib Require Import Ascii.
From stdpp Require Import strings.
#[global] Open Scope Z_scope.

(** ** Constants (gul_dcs.h, in its order) *)
Definition HSDCS_INITIAL_CAL_RETRIES : nat := 5.
Definition HSDCS_DO_INC_RECAL : Z := 1.
Definition HSDCS_DO_FULL_RECAL : Z := 2.
Definition DCS_HS_FIRMWARE_NAME : string := "adc_cal.bin".
Definition DCS_HS_FIRMWARE_NAME_B0 : string := "adc_cal_b0.bin".
Definition DCS_HS_MAGIC : Z := 0xcafebabe.
Definition HSDCS_MIN_REQUIRED_MAJOR : Z := 2.
Definition HSDCS_MIN_REQUIRED_MINOR : Z := 18.
Definition HSDCS_MIN_REQURED_SUBVER : Z := 1.
Definition HSDCS_SET_BIT_POS (x bitpos : Z) : Z := Z.lor x (Z.shiftl 1 bitpos).
Definition HSDCS_CLEAR_BIT_POS (x bitpos : Z) : Z := Z.land x (Z.lnot (Z.shiftl 1 bitpos)).
Definition HSDCS_CHECK_BIT_POS (x bitpos : Z) : bool := negb (Z.land x (Z.shiftl 1 bitpos) =? 0).
Definition HSADC_CAL_BIT_POS_0 : Z := 0.
Definition HSADC_CAL_BIT_POS19 : Z := 19.
Definition HSADC_CAL_BIT_POS20 : Z := 20.
Definition HSDCS_BYTE_MASK : Z := 0xff.
Definition HSDCS_BIT0F_MASK : Z := 0x0f.
Definition DCS_CLK_GEN_OFFSET : Z := 0x1380000.
Definition DCS_PLL_STATUS_CHK : Z := Z.lor (Z.shiftl 1 23) (Z.shiftl 1 30).
Definition DCS_PLL_WAIT_TIMEOUT : nat := 256.
Definition DCS_PLL_STP_REQ : Z := Z.shiftl 1 26.
Definition DCS_PLLRSTCTL_OFFSET : Z := 0x400.
Definition DCS_PLLCR0_OFFSET : Z := 0x404.
Definition DCS_PLLCR1_OFFSET : Z := 0x408.
Definition DCS_PLLCR6_OFFSET : Z := 0x41C.
Definition DCS_PLLCR10_OFFSET : Z := 0x4d0.
Definition DCS_PLLCR11_OFFSET : Z := 0x4d4.
Definition DCS_PLL_RECONF_SEQ_VAL_400 : Z := 0x44800030.
Definition DCS_PLL_RECONF_SEQ_VAL_408 : Z := 0x8b300008.
Definition DCS_PLL_RECONF_SEQ_VAL_41C : Z := 0x01300000.
Definition DCS_PLL_RECONF_SEQ_VAL_4D0 : Z := 0x38040000.
Definition DCS_PLL_RECONF_SEQ_VAL_4D4 : Z := 0x00130000.
Definition DCS_PLL_RECONF_SEQ_VAL2_400 : Z := 0x80000000.
Definition SCFG_REG_OFFSET : Z := 0x1E10000.
Definition DISABLE_DCS_HS_AXIQ_CLK : Z := Z.shiftl 1 2.
Definition DISABLE_DCS_HS_PCLK : Z := Z.shiftl 1 14.
Definition ENABLE_ALL_CONFIG_CTRL5 : Z := 0x1fffff.
Definition ENABLE_DEFAULT_CONFIG_CTRL0 : Z := 0x8107ff80.
Definition SCFG_CONFIG_CTRL0_OFFSET : Z := 0x0.
Definition SCFG_CONFIG_CTRL1_OFFSET : Z := 0x4.
Definition SCFG_CONFIG_CTRL2_OFFSET : Z := 0x8.
Definition SCFG_CONFIG_CTRL5_OFFSET : Z := 0x24.
Definition SCFG_CONFIG_CTRL6_OFFSET : Z := 0x28.
Definition CAL_REF_REG_VAL_RA : Z := 0xfc0.
Definition CLK_CTRL_REG_VAL : Z := 0xeb.
Definition DCS_HS_CCSR_OFFSET : Z := 0x1290000.
Definition DCSCORE_PROG_START_VAL : Z := 0.
Definition DCSCORE_RESET : Z := Z.shiftl 1 0.
Definition DCSCORE_FREEZE : Z := Z.shiftl 1 1.
Definition DCSCORE_PROGRAM_MODE : Z := Z.shiftl 1 2.
Definition DCSCORE_PROGRAM_RESET : Z := Z.shiftl 1 3.
Definition HSDCS_RETRIES : nat := 20.
Definition DAC_ENABLE_NONE : Z := 0x0.
Definition DAC_ENABLE_1 : Z := 0x3.
Definition DAC_ENABLE_2 : Z := 0xC.
Definition DAC_ENABLE_BOTH : Z := Z.lor DAC_ENABLE_1 DAC_ENABLE_2.
Definition ADC_ENABLE_1 : Z := 0x3.
Definition ADC_ENABLE_2 : Z := 0xC.
Definition ADC_ENABLE_BOTH : Z := Z.lor ADC_ENABLE_1 ADC_ENABLE_2.
Definition ADC_16G_EN_MASK : Z := 0x1f.
Definition HS_DCS_SRAM_CLK_EN : Z := Z.shiftl 1 17.
Definition HSADC0_LOW_PWR_CFG_LDO : Z := 1.
Definition HSADC1_LOW_PWR_CFG_LDO : Z := Z.shiftl 1 7.
Definition HSADC0_LOW_PWR_TBGEN2_CTRL : Z := 0x011244F0.
Definition HSADC1_LOW_PWR_TBGEN2_CTRL : Z := 0x01124540.
Definition HSADC_LOW_PWR_TBGEN2_CFG_BIT_POS : Z := 8.
Definition DISABLE_LOWPWR : Z := 1.
Definition ENABLE_LOWPWR : Z := 2.
Definition TBGEN_STORE : Z := 1.
Definition TBGEN_RESTORE : Z := 2.
Definition HSADC_FAST_RECAL_CLEAR_MASK : Z := 0xFFFF07FF.
Definition HSADC_RECALIBRATION_SELECT : Z := 12.
Definition HSADC_START_RECALIBRATION : Z := Z.shiftl 1 11.
Definition HSADC_TEMP_COMP_EN : Z := Z.shiftl 1 16.
Definition HSADC_TEMP_COMP_READ_MASK : Z := 0xFE00FFFF.
Definition HSADC_TEMP_COMP_BIT_POS : Z := 16.
Definition HSADC_TEMP_COMP_ACTED_READ_MASK : Z := 0x03FE0000.
Definition HSADC_TEMP_COMP_ACTED_READ_BITPOS : Z := 17.
Definition HSADC_TEMP_COMP_ORG_CALC_MASK : Z := 0x0001FF00.
Definition HSADC_TEMP_COMP_ORG_CALC_READ_BITPOS : Z := 8.
Definition HSADC_TEMP_CONV_KELVIN : Z := 273.
Definition THRESHOLD_INCREMENTAL_RECAL : Z := 30.
Definition THRESHOLD_FULL_RECAL : Z := 70.
Definition HSDCS_ADC0_IQ_CHAN_MASK : Z := 0x03.
Definition HSDCS_ADC1_IQ_CHAN_MASK : Z := 0x0C.
Definition HSDCS_TEMP_THRESHOLD_LOW : Z := -30.
Definition HSDCS_TEMP_THRESHOLD_HIGH : Z := 105.
Definition HSDCS_TMON_RETRY_COUNT : nat := 500.
Definition HSDCS_REG0_RESP_ACK : Z := 1.
Definition HSDCS_REG0_RESP_INIT_DONE : Z := Z.shiftl 1 4.
Definition LS_LLCP_PLAT_CLKDIV2 : Z := Z.shiftl 1 1.
Definition LS0_AXIQ_TX_CLK_DIS : Z := Z.shiftl 1 8.
Definition LS0_AXIQ_RX_CLK_DIS : Z := Z.shiftl 1 9.
Definition LS1_AXIQ_TX_CLK_DIS : Z := Z.shiftl 1 10.
Definition LS1_AXIQ_RX_CLK_DIS : Z := Z.shiftl 1 11.
Definition LS0_DCS_PCLK_DIS : Z := Z.shiftl 1 12.
Definition LS1_DCS_PCLK_DIS : Z := Z.shiftl 1 13.
Definition HS_DCS_OUT_OF_RESET : Z := Z.shiftl 1 1.
Definition EPERM : Z := 1.
Definition EILSEQ : Z := 84.
Definition ECANCELED : Z := 125.

(** The registers of the converters ([struct hsdcs_regs_map]), by their offset. *)
Definition hs (offset : Z) : Z := DCS_HS_CCSR_OFFSET + offset.
Definition ip_ver_info := hs 0x0.
Definition wr_rw_test_reg := hs 0x4.
Definition clk_ctrl := hs 0x8.
Definition adc_dac_reg_ctrl := hs 0xc.
Definition adc_dac_reg_gr_status := hs 0x10.
Definition adc_enable_ctrl := hs 0x14.
Definition adc_cal_comp_stat := hs 0x18.
Definition dac_enable_ctrl := hs 0x1c.
Definition dac_ready_stat := hs 0x20.
Definition dcs_ctrl := hs 0x24.
Definition dcs_prog_wrt_data := hs 0x28.
Definition dcs_prog_strt_addr := hs 0x30.
Definition low_pwr_cfg := hs 0x34.
Definition dcs_mailbox_reg0 := hs 0x38.
Definition dcs_mailbox_reg1 := hs 0x3c.
Definition dcs_mailbox_reg2 := hs 0x40.
Definition dcs_mailbox_reg0_resp := hs 0x48.
Definition dcs_mailbox_reg2_resp := hs 0x50.
Definition fw_ver_info := hs 0x54.
Definition dac1_rst_ctrl := hs 0x80.
Definition dac2_rst_ctrl := hs 0x100.
Definition scfg (offset : Z) : Z := SCFG_REG_OFFSET + offset.

(** ** The board and the environment *)

(** The revision of the chip, the kind of its converters, the letter of the board,
    the build (LA1224), and the parameters of the module; [warm]: the modem is
    warming up. *)
Record dcs_opts := DcsOpts {
  rev_a : bool; rev_b : bool; hsdcs_no : bool; board : ascii; bnrg : bool;
  hsdcs_enable : bool; hsadc_mask : Z; hsdac_mask : Z; hsdcs_sps : Z; ls_dac_sps : Z; ls_adc_sps : Z;
  lsdcs_disable : bool; lsdac_mask : Z; lsadc_mask : Z; tbgen2_disable : bool; warm : bool }.

(** The words shared with the modem that the driver stores in; the flags of the
    host's readiness. *)
Inductive dcs_hif := eventid | hif_hsdcs_sps | hif_ls_dac_sps | hif_ls_adc_sps | hif_lsdac_mask | hif_lsadc_mask | msi_dcs.
Inductive dcs_ready := HIF_HOST_READY_HS_TBGEN2 | HIF_HOST_READY_DCS_HS | HIF_HOST_READY_DCS_LS.

(** Codes of the shared memory, from a header outside the repository. *)
Class DcsIf := {
  HSDCS_SPS_983 : Z; HSDCS_SPS_1966 : Z;
  LS_DAC_SPS_491 : Z; LS_DAC_SPS_245 : Z; LS_DAC_SPS_122 : Z; LS_DAC_SPS_61 : Z;
  LS_ADC_SPS_245 : Z; LS_ADC_SPS_122 : Z; LS_ADC_SPS_61 : Z; GUL_MSI_MAX_CNT : Z;
  HSADC_EVENT_RECAL_REQUESTED_ANT0 : Z; HSADC_EVENT_RECAL_REQUESTED_ANT1 : Z;
  HSADC_EVENT_RECAL_REQUESTED_ANT0_1 : Z; HSADC_EVENT_RECAL_FAILED_ANT0 : Z;
  HSADC_EVENT_RECAL_FAILED_ANT1 : Z; HSADC_EVENT_RECAL_FAILED_ANT0_1 : Z;
  HSADC_EVENT_RECAL_REQ_ACK_ANT0 : Z; HSADC_EVENT_RECAL_REQ_ACK_ANT1 : Z;
  HSADC_EVENT_RECAL_REQ_ACK_ANT0_1 : Z; HSADC_EVENT_RECAL_REQ_DENIED : Z;
  HSADC_EVENT_RECAL_COMPLETED : Z; HSADC_EVENT_RECAL_COMPLETED2 : Z }.

(** A modem by its number: its registers by address, its words of shared memory,
    the interrupt raised in it, its temperature ([mtd_get_temp_nowait]: result and
    value stored), an allocation. *)
Class DcsEnv (E : Type) := {
  d_readl : nat → Z → E → Z * E;
  d_writel : nat → Z → Z → E → E;
  d_hif_read : nat → dcs_hif → E → Z * E;
  d_hif_write : nat → dcs_hif → Z → E → E;
  d_ready : nat → dcs_ready → E → E;
  d_msi : nat → E → E;
  d_temp : nat → E → option ((Z * Z) * E);
  d_alloc : E → bool * E }.

(** ** State *)
Record dcs_dev := DcsDev {
  name : string; hsdcs_regs : bool;
  fullrecal_cnt : Z; fastrecal_cnt : Z; temp_comp_cnt : Z;
  hsdcs_inc_recal_enabled : Z; hsdcs_full_recal_enabled : Z;
  ihsdcs_lastime_inc_cal_temp : Z; ihsdcs_lastime_full_cal_temp : Z; ihsdcs_current_temp : Z }.
Definition dcs_0 : dcs_dev := DcsDev "" false 0 0 0 0 0 0 0 0.
Inductive dcs_ptr := NoDev | FreedDev | Dev (d : dcs_dev).

Definition set_name (v : string) (d : dcs_dev) : dcs_dev :=
  DcsDev v (hsdcs_regs d) (fullrecal_cnt d) (fastrecal_cnt d) (temp_comp_cnt d) (hsdcs_inc_recal_enabled d)
    (hsdcs_full_recal_enabled d) (ihsdcs_lastime_inc_cal_temp d) (ihsdcs_lastime_full_cal_temp d) (ihsdcs_current_temp d).
Definition set_regs (d : dcs_dev) : dcs_dev :=
  DcsDev (name d) true (fullrecal_cnt d) (fastrecal_cnt d) (temp_comp_cnt d) (hsdcs_inc_recal_enabled d)
    (hsdcs_full_recal_enabled d) (ihsdcs_lastime_inc_cal_temp d) (ihsdcs_lastime_full_cal_temp d) (ihsdcs_current_temp d).
Definition set_counts (a b c : Z) (d : dcs_dev) : dcs_dev :=
  DcsDev (name d) (hsdcs_regs d) a b c (hsdcs_inc_recal_enabled d)
    (hsdcs_full_recal_enabled d) (ihsdcs_lastime_inc_cal_temp d) (ihsdcs_lastime_full_cal_temp d) (ihsdcs_current_temp d).
Definition set_enabled (i f : Z) (d : dcs_dev) : dcs_dev :=
  DcsDev (name d) (hsdcs_regs d) (fullrecal_cnt d) (fastrecal_cnt d) (temp_comp_cnt d) i f
    (ihsdcs_lastime_inc_cal_temp d) (ihsdcs_lastime_full_cal_temp d) (ihsdcs_current_temp d).
Definition set_last_inc (v : Z) (d : dcs_dev) : dcs_dev :=
  DcsDev (name d) (hsdcs_regs d) (fullrecal_cnt d) (fastrecal_cnt d) (temp_comp_cnt d) (hsdcs_inc_recal_enabled d)
    (hsdcs_full_recal_enabled d) v (ihsdcs_lastime_full_cal_temp d) (ihsdcs_current_temp d).
Definition set_last_full (v : Z) (d : dcs_dev) : dcs_dev :=
  DcsDev (name d) (hsdcs_regs d) (fullrecal_cnt d) (fastrecal_cnt d) (temp_comp_cnt d) (hsdcs_inc_recal_enabled d)
    (hsdcs_full_recal_enabled d) (ihsdcs_lastime_inc_cal_temp d) v (ihsdcs_current_temp d).
Definition set_current (v : Z) (d : dcs_dev) : dcs_dev :=
  DcsDev (name d) (hsdcs_regs d) (fullrecal_cnt d) (fastrecal_cnt d) (temp_comp_cnt d) (hsdcs_inc_recal_enabled d)
    (hsdcs_full_recal_enabled d) (ihsdcs_lastime_inc_cal_temp d) (ihsdcs_lastime_full_cal_temp d) v.

(** The globals, shared by all modems. *)
Record dcs_globals := DcsGlobals {
  tdd_ctrl1_state_g : Z; tdd_ctrl2_state_g : Z; dac_txi_txq_mask : Z; adc_rxi_rxq_mask : Z;
  trigger_inc_recal : Z; trigger_full_recal : Z; rcu_depth : Z }.

(** The environment; the globals; per modem the structure, the firmware region
    with its bytes, the listing for the thread, and what was brought up. *)
Record dcsw (E : Type) := Dcsw {
  denv : E; globals : dcs_globals; dcs_priv : list dcs_ptr; regions_of : list (scratch * buffer);
  dev_list : list bool; lsdcs_load_status : list bool; hsdcs_load_status : list bool }.
Arguments Dcsw {E}.
Arguments denv {E}. Arguments globals {E}. Arguments dcs_priv {E}. Arguments regions_of {E}.
Arguments dev_list {E}. Arguments lsdcs_load_status {E}. Arguments hsdcs_load_status {E}.

Section Dcs.
Context `{ScratchIf, DcsIf} {E : Type} `{DcsEnv E} (o : dcs_opts) (fs : files).
Local Abbreviation D := (M (dcsw E)).

Definition with_env (v : E) (w : dcsw E) : dcsw E :=
  Dcsw v (globals w) (dcs_priv w) (regions_of w) (dev_list w) (lsdcs_load_status w) (hsdcs_load_status w).
Definition with_globals (v : dcs_globals) (w : dcsw E) : dcsw E :=
  Dcsw (denv w) v (dcs_priv w) (regions_of w) (dev_list w) (lsdcs_load_status w) (hsdcs_load_status w).
Definition with_priv (v : list dcs_ptr) (w : dcsw E) : dcsw E :=
  Dcsw (denv w) (globals w) v (regions_of w) (dev_list w) (lsdcs_load_status w) (hsdcs_load_status w).
Definition with_regions (v : list (scratch * buffer)) (w : dcsw E) : dcsw E :=
  Dcsw (denv w) (globals w) (dcs_priv w) v (dev_list w) (lsdcs_load_status w) (hsdcs_load_status w).
Definition with_list (v : list bool) (w : dcsw E) : dcsw E :=
  Dcsw (denv w) (globals w) (dcs_priv w) (regions_of w) v (lsdcs_load_status w) (hsdcs_load_status w).
Definition with_ls (v : list bool) (w : dcsw E) : dcsw E :=
  Dcsw (denv w) (globals w) (dcs_priv w) (regions_of w) (dev_list w) v (hsdcs_load_status w).
Definition with_hs (v : list bool) (w : dcsw E) : dcsw E :=
  Dcsw (denv w) (globals w) (dcs_priv w) (regions_of w) (dev_list w) (lsdcs_load_status w) v.

Definition readl (i : nat) (a : Z) : D Z := λ w, let '(v, e) := d_readl i a (denv w) in Some (u32 v, with_env e w).
Definition temperature (i : nat) : D (Z * Z) := λ w,
  match d_temp i (denv w) with Some (r, e) => Some (r, with_env e w) | None => None end.
Definition get_region (i : nat) : D (scratch * buffer) := λ w,
  match regions_of w !! i with Some x => Some (x, w) | None => None end.
Definition alloc : D bool := λ w, let '(b, e) := d_alloc (denv w) in Some (b, with_env e w).
Definition env_op (f : E → E) : D unit := modify (λ w, with_env (f (denv w)) w).
Definition writel (i : nat) (a v : Z) : D unit := env_op (d_writel i a (u32 v)).
Definition hif_read (i : nat) (f : dcs_hif) : D Z := λ w, let '(v, e) := d_hif_read i f (denv w) in Some (v, with_env e w).
Definition hif_write (i : nat) (f : dcs_hif) (v : Z) : D unit := env_op (d_hif_write i f v).
Definition set_host_rdy (i : nat) (r : dcs_ready) : D unit := env_op (d_ready i r).
Definition raise_msi (i : nat) : D unit := env_op (d_msi i).

(** The structure of a modem, and its registers once they are known. *)
Definition get_dev (i : nat) : D dcs_dev := λ w,
  match dcs_priv w !! i with Some (Dev d) => Some (d, w) | _ => None end.
Definition put_dev (i : nat) (p : dcs_ptr) : D unit := modify (λ w, with_priv (<[i := p]> (dcs_priv w)) w).
Definition on_dev (i : nat) (f : dcs_dev → dcs_dev) : D unit := d ← get_dev i; put_dev i (Dev (f d)).
Definition need_regs (i : nat) : D unit := d ← get_dev i; if (hsdcs_regs d : bool) then mret tt else lift None.
(** [kfree(dcs_dev)]: the pointer stays; NULL may be freed. *)
Definition kfree_dev (i : nat) : D unit := λ w,
  match dcs_priv w !! i with
  | Some (Dev _) => put_dev i FreedDev w
  | Some NoDev => Some (tt, w)
  | _ => None
  end.

Definition get_globals : D dcs_globals := gets globals.
Definition put_tdd (a b : Z) : D unit :=
  modify (λ w, let g := globals w in with_globals (DcsGlobals a b (dac_txi_txq_mask g) (adc_rxi_rxq_mask g)
    (trigger_inc_recal g) (trigger_full_recal g) (rcu_depth g)) w).
Definition put_dac_mask (v : Z) : D unit :=
  modify (λ w, let g := globals w in with_globals (DcsGlobals (tdd_ctrl1_state_g g) (tdd_ctrl2_state_g g) v
    (adc_rxi_rxq_mask g) (trigger_inc_recal g) (trigger_full_recal g) (rcu_depth g)) w).
Definition put_adc_mask (v : Z) : D unit :=
  modify (λ w, let g := globals w in with_globals (DcsGlobals (tdd_ctrl1_state_g g) (tdd_ctrl2_state_g g)
    (dac_txi_txq_mask g) v (trigger_inc_recal g) (trigger_full_recal g) (rcu_depth g)) w).
Definition put_triggers (a b : Z) : D unit :=
  modify (λ w, let g := globals w in with_globals (DcsGlobals (tdd_ctrl1_state_g g) (tdd_ctrl2_state_g g)
    (dac_txi_txq_mask g) (adc_rxi_rxq_mask g) a b (rcu_depth g)) w).
Definition put_rcu (v : Z) : D unit :=
  modify (λ w, let g := globals w in with_globals (DcsGlobals (tdd_ctrl1_state_g g) (tdd_ctrl2_state_g g)
    (dac_txi_txq_mask g) (adc_rxi_rxq_mask g) (trigger_inc_recal g) (trigger_full_recal g) v) w).

(** [while (retries) { ...; retries--; val = readl(a); if (ok(val)) break; }]: the
    last value, [val] where there was no look. *)
Fixpoint poll (n : nat) (i : nat) (a : Z) (ok : Z → bool) (val : Z) : D Z :=
  match n with
  | O => mret val
  | S n => v ← readl i a; if ok v then mret v else poll n i a ok v
  end.
Definition has (mask v : Z) : bool := negb (Z.land v mask =? 0).

(** ** Clocks and firmware *)
Definition hsdcs_check_clk_983 (i : nat) : D bool :=
  pll_val ← readl i (DCS_CLK_GEN_OFFSET + DCS_PLLCR0_OFFSET);
  mret (has (Z.shiftl 1 14) pll_val && has (Z.shiftl 1 15) pll_val).

Definition hsdcs_release_core (i : nat) : D unit :=
  _ ← need_regs i;
  _ ← writel i dcs_ctrl (Z.lor DCSCORE_FREEZE DCSCORE_RESET);
  _ ← writel i dcs_ctrl DCSCORE_FREEZE;
  writel i dcs_ctrl 0.

Definition hsdcs_pre_init_fw (i : nat) : D unit :=
  _ ← need_regs i;
  _ ← writel i dcs_ctrl (Z.lor (Z.lor DCSCORE_FREEZE DCSCORE_PROGRAM_MODE) DCSCORE_PROGRAM_RESET);
  _ ← writel i dcs_ctrl (Z.lor DCSCORE_FREEZE DCSCORE_PROGRAM_MODE);
  writel i dcs_prog_strt_addr DCSCORE_PROG_START_VAL.

(** The words of [b] from [at_], [n] of them. *)
Fixpoint write_words (i : nat) (b : buffer) (at_ : Z) (n : nat) : D unit :=
  match n with
  | O => mret tt
  | S n => v ← lift (rd32 b at_); _ ← writel i dcs_prog_wrt_data v; write_words i b (at_ + 4) n
  end.

Definition hsdcs_load_firmware (i : nat) (b : buffer) (size : Z) : D Z :=
  fast ← hsdcs_check_clk_983 i;
  _ ← need_regs i;
  _ ← writel i dcs_mailbox_reg2 (if (fast : bool) then 0x03d8 else 0x07ae);
  let l_size := i32 (align size 4) in
  _ ← hsdcs_pre_init_fw i;
  _ ← write_words i b 0 (Z.to_nat (Z.quot l_size 4));
  _ ← hsdcs_release_core i;
  mret 0.

Definition hsdcs_fw_load_verify (i : nat) (b : buffer) (size : Z) : D Z :=
  r ← hsdcs_load_firmware i b size; mret (if decide (r ≠ 0) then - ENOMEM else 0).

Definition hsdcs_write_firmware (i : nat) : D Z :=
  d ← get_dev i;
  '(s, b) ← get_region i;
  let '(r, s) := scratch_buf_allocator GUL_FIRMWARE GUL_MAX_IMAGE_SIZE s in
  _ ← modify (λ w, with_regions (<[i := (s, b)]> (regions_of w)) w);
  match r with
  | None => mret (- ENOMEM)
  | Some r =>
      '(rc, b, n) ← lift (gul_udev_load_firmware fs b 0 (i32 (GulScratch.size r)) (name d));
      _ ← modify (λ w, with_regions (<[i := (s, b)]> (regions_of w)) w);
      if decide (rc < 0) then mret (- ENOENT) else
      n ← lift n;
      hsdcs_fw_load_verify i b n
  end.

(** A bit of a clock's register, cleared when it is set. *)
Definition enable_clk (i : nat) (bit : Z) : D Z :=
  clk_status ← readl i (scfg SCFG_CONFIG_CTRL6_OFFSET);
  _ ← (if has bit clk_status then writel i (scfg SCFG_CONFIG_CTRL6_OFFSET) (Z.land clk_status (Z.lnot bit)) else mret tt);
  mret 0.
Definition hsdcs_enable_pclk (i : nat) : D Z := enable_clk i DISABLE_DCS_HS_PCLK.
Definition hsdcs_enable_axiq_clk (i : nat) : D Z := enable_clk i DISABLE_DCS_HS_AXIQ_CLK.
Definition hsdcs_enable_pclk_axiq (i : nat) : D Z :=
  rc ← hsdcs_enable_pclk i;
  if decide (rc ≠ 0) then mret rc else hsdcs_enable_axiq_clk i.

(** ** Low power *)

(** One of the two control registers: the bit as asked, written only on a change. *)
Definition low_pow_bit (i : nat) (a v : Z) (low : bool) : D unit :=
  let set := HSDCS_CHECK_BIT_POS v HSADC_LOW_PWR_TBGEN2_CFG_BIT_POS in
  if low then
    if set then mret tt else writel i a (HSDCS_SET_BIT_POS v HSADC_LOW_PWR_TBGEN2_CFG_BIT_POS)
  else
    if set then writel i a (HSDCS_CLEAR_BIT_POS v HSADC_LOW_PWR_TBGEN2_CFG_BIT_POS) else mret tt.

(** The saved value written back where the register differs. *)
Definition restore_tdd (i : nat) (a saved : Z) : D unit :=
  v ← readl i a; if decide (v ≠ saved) then writel i a saved else mret tt.

Definition hsdcs_adc_low_pow_conf (i : nat) (low_enb_dis tbgen_rw : Z) : D unit :=
  tdd_ctrl1 ← readl i HSADC0_LOW_PWR_TBGEN2_CTRL;
  tdd_ctrl2 ← readl i HSADC1_LOW_PWR_TBGEN2_CTRL;
  _ ← (if decide (tbgen_rw = TBGEN_STORE) then put_tdd tdd_ctrl1 tdd_ctrl2 else mret tt);
  let low := bool_decide (low_enb_dis = ENABLE_LOWPWR) in
  _ ← low_pow_bit i HSADC0_LOW_PWR_TBGEN2_CTRL tdd_ctrl1 low;
  _ ← low_pow_bit i HSADC1_LOW_PWR_TBGEN2_CTRL tdd_ctrl2 low;
  if decide (tbgen_rw = TBGEN_RESTORE) then
    g ← get_globals;
    _ ← restore_tdd i HSADC0_LOW_PWR_TBGEN2_CTRL (tdd_ctrl1_state_g g);
    restore_tdd i HSADC1_LOW_PWR_TBGEN2_CTRL (tdd_ctrl2_state_g g)
  else mret tt.

(** ** Temperature *)

(** The result, and the temperature stored, which is stored also when it is out of
    range. *)
Definition hsdcs_get_curr_temperature (i : nat) : D (Z * Z) :=
  '(rc, t) ← temperature i;
  if decide (rc < 0) then mret (-1, t) else
  mret (if decide (t < HSDCS_TEMP_THRESHOLD_LOW ∨ HSDCS_TEMP_THRESHOLD_HIGH < t) then -1 else 0, t).

Definition hsdcs_write_temp_compensation (i : nat) : D unit :=
  _ ← need_regs i;
  val ← readl i dcs_mailbox_reg2;
  let val := Z.land val HSADC_TEMP_COMP_READ_MASK in
  '(rc, cur_temp) ← hsdcs_get_curr_temperature i;
  if decide (rc < 0) then mret tt else
  let cur_temp := Z.shiftl (cur_temp + HSADC_TEMP_CONV_KELVIN) HSADC_TEMP_COMP_BIT_POS in
  _ ← writel i dcs_mailbox_reg2 (Z.lor val cur_temp);
  on_dev i (λ d, set_counts (fullrecal_cnt d) (fastrecal_cnt d) (u32 (temp_comp_cnt d + 1)) d).

(** The temperature acted on, 0 when there was none, and that of the calibration. *)
Definition hsdcs_read_temp_compensation (i : nat) : D (Z * Z) :=
  _ ← need_regs i;
  val ← readl i dcs_mailbox_reg0_resp;
  let last := Z.shiftr (Z.land val HSADC_TEMP_COMP_ACTED_READ_MASK) HSADC_TEMP_COMP_ACTED_READ_BITPOS in
  let last := if decide (last ≠ 0) then last - HSADC_TEMP_CONV_KELVIN else last in
  let org := Z.shiftr (Z.land val HSADC_TEMP_COMP_ORG_CALC_MASK) HSADC_TEMP_COMP_ORG_CALC_READ_BITPOS in
  mret (last, org - HSADC_TEMP_CONV_KELVIN).

(** ** Calibration *)

(** The answer to a calibration request, from the request to the completion bit:
    the word of the mailbox as left, or the failure. *)
Definition cal_handshake (i : nat) (val2 : Z) : D (option unit) :=
  _ ← writel i dcs_mailbox_reg1 val2;
  val ← poll HSDCS_RETRIES i dcs_mailbox_reg0_resp (has HSDCS_REG0_RESP_ACK) 0;
  if negb (has HSDCS_REG0_RESP_ACK val) then mret None else
  _ ← writel i dcs_mailbox_reg1 (HSDCS_CLEAR_BIT_POS val2 HSADC_CAL_BIT_POS_0);
  val ← poll HSDCS_RETRIES i dcs_mailbox_reg0_resp (has HSDCS_REG0_RESP_INIT_DONE) 0;
  if negb (has HSDCS_REG0_RESP_INIT_DONE val) then mret None else mret (Some tt).

(** The channels still busy, and the ones that are done. *)
Definition cal_results (i : nat) (done_ : Z → bool) : D (Z * Z) :=
  val ← poll HSDCS_RETRIES i dcs_mailbox_reg2_resp (λ v, Z.land v HSDCS_BYTE_MASK =? 0) 0;
  cal_status ← poll HSDCS_RETRIES i adc_cal_comp_stat done_ 0;
  mret (val, cal_status).

Definition hsdcs_adc_full_recal (i : nat) : D Z :=
  _ ← need_regs i;
  _ ← hsdcs_adc_low_pow_conf i DISABLE_LOWPWR TBGEN_STORE;
  val2 ← readl i dcs_mailbox_reg1;
  let val2 := HSDCS_SET_BIT_POS val2 HSADC_CAL_BIT_POS_0 in
  let val2 := HSDCS_SET_BIT_POS val2 HSADC_CAL_BIT_POS19 in
  let val2 := HSDCS_CLEAR_BIT_POS val2 HSADC_CAL_BIT_POS20 in
  r ← cal_handshake i val2;
  ret ← match r with
        | None => mret (- EBUSY)
        | Some _ =>
            g ← get_globals;
            let m := adc_rxi_rxq_mask g in
            '(val, cal_status) ← cal_results i (λ v, Z.land v m =? m);
            mret (if has m val || negb (Z.land cal_status m =? m) then - EBUSY else 0)
        end;
  _ ← hsdcs_adc_low_pow_conf i ENABLE_LOWPWR TBGEN_RESTORE;
  _ ← on_dev i (λ d, set_counts (u32 (fullrecal_cnt d + 1)) (fastrecal_cnt d) (temp_comp_cnt d) d);
  mret ret.

(** Looking at the counter of calibrations, in the upper half, until it has grown. *)
Definition counter (v : Z) : Z := Z.land v 0xffff0000.

Definition hsdcs_adc_fast_recal (i : nat) (chan : Z) : D Z :=
  _ ← need_regs i;
  _ ← hsdcs_adc_low_pow_conf i DISABLE_LOWPWR TBGEN_STORE;
  val ← readl i dcs_mailbox_reg2_resp;
  let cal1 := counter val in
  oval ← readl i dcs_mailbox_reg1;
  let val := Z.lor (u32 (Z.shiftl chan HSADC_RECALIBRATION_SELECT)) HSADC_START_RECALIBRATION in
  let oval := Z.lor (Z.land oval HSADC_FAST_RECAL_CLEAR_MASK) val in
  let oval := HSDCS_CLEAR_BIT_POS oval HSADC_CAL_BIT_POS19 in
  let oval := HSDCS_CLEAR_BIT_POS oval HSADC_CAL_BIT_POS20 in
  _ ← writel i dcs_mailbox_reg1 oval;
  val ← poll HSDCS_RETRIES i dcs_mailbox_reg2_resp (λ v, cal1 <? counter v) 0;
  ret ← (if cal1 <? counter val then
           val ← readl i dcs_mailbox_reg1;
           _ ← writel i dcs_mailbox_reg1 (Z.land val (Z.lnot (Z.land val HSADC_START_RECALIBRATION)));
           mret 0
         else mret (- EBUSY));
  _ ← hsdcs_adc_low_pow_conf i ENABLE_LOWPWR TBGEN_RESTORE;
  _ ← on_dev i (λ d, set_counts (fullrecal_cnt d) (u32 (fastrecal_cnt d + 1)) (temp_comp_cnt d) d);
  mret ret.

Definition hsdcs_do_initial_cal (i : nat) : D Z :=
  _ ← need_regs i;
  val2 ← readl i dcs_mailbox_reg1;
  r ← cal_handshake i (HSDCS_SET_BIT_POS val2 HSADC_CAL_BIT_POS_0);
  match r with
  | None => mret (- EBUSY)
  | Some _ =>
      _ ← (if rev_b o then
             v ← readl i low_pwr_cfg;
             writel i low_pwr_cfg (Z.lor (Z.lor v HSADC0_LOW_PWR_CFG_LDO) HSADC1_LOW_PWR_CFG_LDO)
           else mret tt);
      '(val, cal_status) ← cal_results i (has HSDCS_BIT0F_MASK);
      g ← get_globals;
      mret (if has HSDCS_BYTE_MASK val || negb (Z.land cal_status HSDCS_BIT0F_MASK =? adc_rxi_rxq_mask g)
            then - EBUSY else 0)
  end.

(** [switch (hsadc_mask)]: the word enabled and the mask kept; [both] for both. *)
Definition adc_masks (both : Z) (second : Z) : option (Z * Z) :=
  if decide (hsadc_mask o = 0x1) then Some (ADC_ENABLE_1, ADC_ENABLE_1)
  else if decide (hsadc_mask o = 0x2) then Some (ADC_ENABLE_2, second)
  else if decide (hsadc_mask o = 0x3) then Some (both, both) else None.
Definition enable_adc (i : nat) (m : option (Z * Z)) : D Z :=
  match m with
  | Some (en, mask) => _ ← writel i adc_enable_ctrl en; _ ← put_adc_mask mask; mret 0
  | None => mret (- EBUSY)
  end.

(** Before the calibration: the first revision, and the second with its
    temperature. *)
Definition init_adc_a (i : nat) : D Z :=
  r ← enable_adc i (adc_masks ADC_16G_EN_MASK ADC_ENABLE_2);
  if decide (r ≠ 0) then mret r else
  _ ← writel i adc_dac_reg_ctrl 0x1;
  _ ← writel i (hs CAL_REF_REG_VAL_RA) 0x03;
  _ ← writel i adc_dac_reg_ctrl 0x0;
  _ ← writel i dcs_mailbox_reg0 0x17f;
  mret 0.
Definition init_adc_b (i : nat) : D Z :=
  r ← enable_adc i (adc_masks ADC_ENABLE_BOTH ADC_ENABLE_2);
  if decide (r ≠ 0) then mret r else
  _ ← writel i dcs_mailbox_reg0 0x1ff;
  val ← readl i dcs_mailbox_reg1;
  _ ← writel i dcs_mailbox_reg1 (Z.lor val HSADC_TEMP_COMP_EN);
  _ ← hsdcs_write_temp_compensation i;
  '(rc, _) ← hsdcs_get_curr_temperature i;
  if decide (rc < 0) then
    '(rc, _) ← hsdcs_get_curr_temperature i;
    mret (if decide (rc < 0) then - EINVAL else 0)
  else mret 0.

(** The attempts: the result of the last. *)
Fixpoint initial_cals (n : nat) (i : nat) (ret : Z) : D Z :=
  match n with
  | O => mret ret
  | S n => ret ← hsdcs_do_initial_cal i; if decide (ret = 0) then mret 0 else initial_cals n i ret
  end.

(** After it. *)
Definition init_adc_done (i : nat) : D Z :=
  r ← (if rev_b o then
         '(rc, t) ← hsdcs_get_curr_temperature i;
         if decide (rc < 0) then mret (- EINVAL) else
         _ ← on_dev i (λ d, set_enabled 1 1 (set_last_full t d)); mret 0
       else mret 0);
  if decide (r ≠ 0) then mret r else
  _ ← (if rev_b o then hsdcs_adc_low_pow_conf i ENABLE_LOWPWR TBGEN_STORE else mret tt);
  if rev_a o then enable_adc i (adc_masks ADC_ENABLE_BOTH ADC_ENABLE_1) else mret 0.

Definition hsdcs_init_adc (i : nat) : D Z :=
  _ ← need_regs i;
  r ← (if rev_a o then init_adc_a i else init_adc_b i);
  if decide (r ≠ 0) then mret r else
  ret ← initial_cals HSDCS_INITIAL_CAL_RETRIES i 0;
  if decide (ret ≠ 0) then mret ret else init_adc_done i.

(** ** Bringing the converters up *)
Definition hsdcs_init_clk (i : nat) : D unit :=
  _ ← need_regs i;
  _ ← writel i clk_ctrl CLK_CTRL_REG_VAL;
  if tbgen2_disable o then mret tt else set_host_rdy i HIF_HOST_READY_HS_TBGEN2.

Definition hsdcs_dac1_dac2_rst (i : nat) : D Z :=
  _ ← need_regs i;
  _ ← writel i adc_dac_reg_ctrl 0x01;
  v ← readl i adc_dac_reg_gr_status;
  if decide (v = 0) then mret (- EBUSY) else
  _ ← (if rev_a o then
         _ ← writel i dac1_rst_ctrl 0x06; _ ← writel i dac1_rst_ctrl 0x07;
         _ ← writel i dac2_rst_ctrl 0x06; writel i dac2_rst_ctrl 0x07
       else mret tt);
  _ ← writel i adc_dac_reg_ctrl 0x0;
  v ← readl i adc_dac_reg_gr_status;
  mret (if decide (v ≠ 0) then - EBUSY else 0).

Definition hsdcs_init_dac (i : nat) : D Z :=
  _ ← need_regs i;
  let '(mask, ret) :=
    if decide (hsdac_mask o = 0x0) then (DAC_ENABLE_NONE, 0)
    else if decide (hsdac_mask o = 0x1) then (DAC_ENABLE_1, 0)
    else if decide (hsdac_mask o = 0x2) then (DAC_ENABLE_2, 0)
    else if decide (hsdac_mask o = 0x3) then (DAC_ENABLE_BOTH, 0)
    else (DAC_ENABLE_NONE, - EINVAL) in
  _ ← put_dac_mask mask;
  _ ← writel i dac_enable_ctrl mask;
  mret ret.

Definition hsdcs_init_adc_dac (i : nat) : D Z :=
  _ ← need_regs i;
  _ ← writel i clk_ctrl 0xeb;
  ret ← hsdcs_init_dac i;
  if decide (ret ≠ 0) then mret ret else
  ret ← hsdcs_init_adc i;
  if decide (ret ≠ 0) then mret ret else
  g ← get_globals;
  let m := dac_txi_txq_mask g in
  val ← readl i dac_ready_stat;
  val ← poll HSDCS_RETRIES i dac_ready_stat (λ v, Z.land v m =? m) val;
  if negb (Z.land val m =? m) then mret (- EBUSY) else hsdcs_dac1_dac2_rst i.

Definition hsdcs_out_of_reset (i : nat) : D Z :=
  val ← readl i (scfg SCFG_CONFIG_CTRL6_OFFSET);
  _ ← writel i (scfg SCFG_CONFIG_CTRL6_OFFSET) (Z.lor val HS_DCS_OUT_OF_RESET);
  mret 0.

Definition hsdcs_sps_config (i : nat) : D Z :=
  pll_val ← readl i (DCS_CLK_GEN_OFFSET + DCS_PLLCR0_OFFSET);
  let new :=
    if decide (hsdcs_sps o = HSDCS_SPS_983) then Some (Z.lor (Z.lor pll_val (Z.shiftl 1 14)) (Z.shiftl 1 15))
    else if decide (hsdcs_sps o = HSDCS_SPS_1966) then
      Some (Z.lor (Z.land pll_val (Z.lnot (Z.shiftl 1 14))) (Z.shiftl 1 15))
    else None in
  match new with
  | None => mret (-1)
  | Some v =>
      _ ← hif_write i hif_hsdcs_sps (hsdcs_sps o);
      _ ← writel i (DCS_CLK_GEN_OFFSET + DCS_PLLCR0_OFFSET) v;
      mret 0
  end.

Definition hsdcs_scfg_config (i : nat) : D unit :=
  if hsdcs_enable o && rev_b o then
    val ← readl i (scfg SCFG_CONFIG_CTRL2_OFFSET);
    _ ← writel i (scfg SCFG_CONFIG_CTRL2_OFFSET) (Z.lor val HS_DCS_SRAM_CLK_EN);
    _ ← hsdcs_out_of_reset i;
    _ ← hsdcs_enable_pclk_axiq i;
    mret tt
  else mret tt.

(** The version of the firmware, once it is up: its three numbers. *)
Definition fw_version (val : Z) : Z * Z * Z :=
  (Z.land (Z.shiftr val 16) HSDCS_BYTE_MASK, Z.land (Z.shiftr val 8) HSDCS_BYTE_MASK, Z.land val HSDCS_BYTE_MASK).
Definition fw_too_old (v : Z * Z * Z) : Prop :=
  let '(maj, min, sub) := v in
  maj < HSDCS_MIN_REQUIRED_MAJOR ∨ (maj = HSDCS_MIN_REQUIRED_MAJOR ∧ min < HSDCS_MIN_REQUIRED_MINOR) ∨
  (maj = HSDCS_MIN_REQUIRED_MAJOR ∧ min = HSDCS_MIN_REQUIRED_MINOR ∧ sub < HSDCS_MIN_REQURED_SUBVER).
#[global] Instance fw_too_old_dec v : Decision (fw_too_old v).
Proof. destruct v as [[??]?]. unfold fw_too_old. apply _. Defined.

(** From the firmware on. *)
Definition macro_firmware (i : nat) : D Z :=
  _ ← writel i fw_ver_info 0;
  r ← hsdcs_write_firmware i;
  if decide (r ≠ 0) then _ ← kfree_dev i; mret (- ENOMEM) else
  val ← readl i fw_ver_info;
  val ← (if decide (val = 0) then poll HSDCS_RETRIES i fw_ver_info (λ v, negb (v =? 0)) val else mret val);
  if decide (val = 0 ∧ rev_a o = false) then mret (- ENOEXEC) else
  if decide (rev_b o = true ∧ fw_too_old (if decide (val = 0) then (0, 0, 0) else fw_version val))
  then mret (- ENOEXEC) else
  rc ← hsdcs_init_adc_dac i;
  if decide (rc = 0) then _ ← set_host_rdy i HIF_HOST_READY_DCS_HS; mret 0 else mret rc.

Definition hsdcs_macro_init (i : nat) : D Z :=
  _ ← on_dev i set_regs;
  _ ← hsdcs_init_clk i;
  if negb (hsdcs_enable o) then mret 1 else
  if warm o then mret 1 else
  if hsdcs_no o then mret 1 else
  _ ← on_dev i (set_name (if rev_b o then DCS_HS_FIRMWARE_NAME_B0 else DCS_HS_FIRMWARE_NAME));
  _ ← readl i ip_ver_info;
  _ ← readl i wr_rw_test_reg;
  _ ← writel i wr_rw_test_reg DCS_HS_MAGIC;
  rw ← readl i wr_rw_test_reg;
  if decide (rw = DCS_HS_MAGIC) then macro_firmware i else mret (- ENODEV).

(** ** The low-speed converters *)
Definition lsdcs_sps_config (i : nat) : D Z :=
  if decide (ls_dac_sps o ∈ [LS_DAC_SPS_491; LS_DAC_SPS_245; LS_DAC_SPS_122; LS_DAC_SPS_61]) then
    _ ← hif_write i hif_ls_dac_sps (ls_dac_sps o);
    if decide (ls_adc_sps o ∈ [LS_ADC_SPS_245; LS_ADC_SPS_122; LS_ADC_SPS_61]) then
      _ ← hif_write i hif_ls_adc_sps (ls_adc_sps o); mret 0
    else mret (-1)
  else mret (-1).

Definition lsdcs_masks (i : nat) : D Z :=
  if lsdcs_disable o then mret 0 else
  if decide (Z.lor (lsdac_mask o) 0xf = 0xf) then
    _ ← hif_write i hif_lsdac_mask (lsdac_mask o);
    if decide (Z.lor (lsadc_mask o) 0xf = 0xf) then
      _ ← hif_write i hif_lsadc_mask (lsadc_mask o);
      _ ← set_host_rdy i HIF_HOST_READY_DCS_LS; mret 0
    else mret (-1)
  else mret (-1).

Definition lsdcs_enable (i : nat) : D Z :=
  r ← (if rev_b o then
         r ← lsdcs_sps_config i;
         if decide (r ≠ 0) then mret (-1) else
         val ← readl i (scfg SCFG_CONFIG_CTRL1_OFFSET);
         _ ← writel i (scfg SCFG_CONFIG_CTRL1_OFFSET) (Z.lor val LS_LLCP_PLAT_CLKDIV2);
         val ← readl i (scfg SCFG_CONFIG_CTRL5_OFFSET);
         _ ← writel i (scfg SCFG_CONFIG_CTRL5_OFFSET) (Z.lor val ENABLE_ALL_CONFIG_CTRL5);
         _ ← writel i (scfg SCFG_CONFIG_CTRL0_OFFSET) ENABLE_DEFAULT_CONFIG_CTRL0; mret 0
       else
         val ← readl i (scfg SCFG_CONFIG_CTRL6_OFFSET);
         _ ← writel i (scfg SCFG_CONFIG_CTRL6_OFFSET)
           (Z.land val (Z.lnot (Z.lor (Z.lor (Z.lor (Z.lor (Z.lor LS0_DCS_PCLK_DIS LS1_DCS_PCLK_DIS)
              LS0_AXIQ_TX_CLK_DIS) LS1_AXIQ_TX_CLK_DIS) LS0_AXIQ_RX_CLK_DIS) LS1_AXIQ_RX_CLK_DIS)));
         _ ← writel i (scfg SCFG_CONFIG_CTRL5_OFFSET) ENABLE_ALL_CONFIG_CTRL5; mret 0);
  if decide (r ≠ 0) then mret r else lsdcs_masks i.

(** ** The clock generator *)
Definition dcs_pll_check (i : nat) : D Z :=
  v ← poll DCS_PLL_WAIT_TIMEOUT i (DCS_CLK_GEN_OFFSET + DCS_PLLRSTCTL_OFFSET) (has DCS_PLL_STATUS_CHK) 0;
  mret (if has DCS_PLL_STATUS_CHK v then 0 else - EPERM).

(** The word that is polled: the base is a pointer to 32-bit words, so that the
    offset counts four times. *)
Definition PLLRSTCTL_polled : Z := DCS_CLK_GEN_OFFSET + 4 * DCS_PLLRSTCTL_OFFSET.

(** [while (retry_count--)]: the last value and the count as the loop leaves it. *)
Fixpoint stp_poll (n : nat) (i : nat) (pll_val : Z) : D (Z * Z) :=
  match n with
  | O => mret (pll_val, -1)
  | S n =>
      if negb (has DCS_PLL_STP_REQ pll_val) then mret (pll_val, Z.of_nat n) else
      v ← readl i PLLRSTCTL_polled; stp_poll n i v
  end.

Definition dcs_pll_reconf (i : nat) : D Z :=
  _ ← writel i (DCS_CLK_GEN_OFFSET + DCS_PLLRSTCTL_OFFSET) DCS_PLL_RECONF_SEQ_VAL_400;
  v ← readl i PLLRSTCTL_polled;
  '(v, count) ← stp_poll DCS_PLL_WAIT_TIMEOUT i v;
  if decide (has DCS_PLL_STP_REQ v = true ∧ count ≠ 0) then mret (- EBUSY) else
  _ ← writel i (DCS_CLK_GEN_OFFSET + DCS_PLLCR1_OFFSET) DCS_PLL_RECONF_SEQ_VAL_408;
  _ ← writel i (DCS_CLK_GEN_OFFSET + DCS_PLLCR6_OFFSET) DCS_PLL_RECONF_SEQ_VAL_41C;
  _ ← writel i (DCS_CLK_GEN_OFFSET + DCS_PLLCR10_OFFSET) DCS_PLL_RECONF_SEQ_VAL_4D0;
  _ ← writel i (DCS_CLK_GEN_OFFSET + DCS_PLLCR11_OFFSET) DCS_PLL_RECONF_SEQ_VAL_4D4;
  _ ← writel i (DCS_CLK_GEN_OFFSET + DCS_PLLRSTCTL_OFFSET) DCS_PLL_RECONF_SEQ_VAL2_400;
  mret 0.

Definition dcs_pll_init (i : nat) : D Z :=
  r ← dcs_pll_check i;
  if decide (r ≠ 0) then mret (- ECANCELED) else
  if rev_b o then
    r ← hsdcs_sps_config i;
    if decide (r ≠ 0) then mret (- ECANCELED) else
    r ← dcs_pll_reconf i;
    mret (if decide (r ≠ 0) then - ECANCELED else 0)
  else mret 0.

(** ** The recalibration, as agreed with the modem *)

(** A calibration, the event that tells its end and the interrupt. *)
Definition cal_step (i : nat) (cal : D Z) (failed ok_ : Z) : D unit :=
  ret ← cal;
  _ ← hif_write i eventid (if decide (ret ≠ 0) then failed else ok_);
  raise_msi i.

(** The answer to the event found; [true] ends the exchange. *)
Definition cal_event (i : nat) (ev : Z) : D bool :=
  if decide (ev ∈ [HSADC_EVENT_RECAL_REQUESTED_ANT0; HSADC_EVENT_RECAL_REQUESTED_ANT1;
       HSADC_EVENT_RECAL_REQUESTED_ANT0_1; HSADC_EVENT_RECAL_FAILED_ANT0;
       HSADC_EVENT_RECAL_FAILED_ANT1; HSADC_EVENT_RECAL_FAILED_ANT0_1]) then mret false
  else if decide (ev = HSADC_EVENT_RECAL_REQ_ACK_ANT0) then
    _ ← cal_step i (hsdcs_adc_fast_recal i HSDCS_ADC0_IQ_CHAN_MASK)
          HSADC_EVENT_RECAL_FAILED_ANT0 HSADC_EVENT_RECAL_REQUESTED_ANT1; mret false
  else if decide (ev = HSADC_EVENT_RECAL_REQ_ACK_ANT1) then
    _ ← cal_step i (hsdcs_adc_fast_recal i HSDCS_ADC1_IQ_CHAN_MASK)
          HSADC_EVENT_RECAL_FAILED_ANT1 HSADC_EVENT_RECAL_COMPLETED; mret false
  else if decide (ev = HSADC_EVENT_RECAL_REQ_DENIED) then mret false
  else if decide (ev = HSADC_EVENT_RECAL_COMPLETED ∨ ev = HSADC_EVENT_RECAL_COMPLETED2) then mret true
  else if decide (ev = HSADC_EVENT_RECAL_REQ_ACK_ANT0_1) then
    _ ← cal_step i (hsdcs_adc_full_recal i)
          HSADC_EVENT_RECAL_FAILED_ANT0_1 HSADC_EVENT_RECAL_COMPLETED2; mret false
  else mret false.

Fixpoint cal_loop (n : nat) (i : nat) : D unit :=
  match n with
  | O => mret tt
  | S n =>
      ev ← hif_read i eventid;
      stop ← cal_event i ev;
      if (stop : bool) then mret tt else cal_loop n i
  end.

(** The counter advances twice a round: half of the 501 looks it seems to be. *)
Definition cal_looks : nat := S (Nat.div2 HSDCS_TMON_RETRY_COUNT).
Definition hsdcs_raise_modem_cal_req (i : nat) (caltype : Z) : D unit :=
  _ ← (if decide (caltype = HSDCS_DO_INC_RECAL) then hif_write i eventid HSADC_EVENT_RECAL_REQUESTED_ANT0
       else if decide (caltype = HSDCS_DO_FULL_RECAL) then hif_write i eventid HSADC_EVENT_RECAL_REQUESTED_ANT0_1
       else mret tt);
  _ ← raise_msi i;
  cal_loop cal_looks i.

(** ** The thread *)

(** The two checks of a temperature. *)
Definition check_full (i : nat) (t : Z) : D unit :=
  d ← get_dev i;
  g ← get_globals;
  if decide (hsdcs_full_recal_enabled d ≠ 0 ∧
             (t ≠ ihsdcs_lastime_full_cal_temp d ∨ trigger_full_recal g ≠ 0) ∧
             (THRESHOLD_FULL_RECAL ≤ Z.abs (t - ihsdcs_lastime_full_cal_temp d) ∨ trigger_full_recal g ≠ 0))
  then
    _ ← hsdcs_raise_modem_cal_req i HSDCS_DO_FULL_RECAL;
    _ ← on_dev i (λ d, set_last_inc t (set_last_full t d));
    g ← get_globals; put_triggers (trigger_inc_recal g) 0
  else mret tt.
Definition check_inc (i : nat) (t : Z) : D unit :=
  d ← get_dev i;
  g ← get_globals;
  if decide (hsdcs_inc_recal_enabled d ≠ 0 ∧
             (t ≠ ihsdcs_lastime_inc_cal_temp d ∨ trigger_inc_recal g ≠ 0) ∧
             (THRESHOLD_INCREMENTAL_RECAL ≤ Z.abs (t - ihsdcs_lastime_inc_cal_temp d) ∨ trigger_inc_recal g ≠ 0))
  then
    _ ← hsdcs_raise_modem_cal_req i HSDCS_DO_INC_RECAL;
    _ ← on_dev i (set_last_inc t);
    g ← get_globals; put_triggers 0 (trigger_full_recal g)
  else mret tt.

Definition rcu_read_lock : D unit := g ← get_globals; put_rcu (rcu_depth g + 1).
Definition rcu_read_unlock : D unit := g ← get_globals; put_rcu (rcu_depth g - 1).

(** One modem; [tvd]: its thermal driver is there.  A temperature that cannot be
    had skips the unlock. *)
Definition tmon_modem (i : nat) (tvd : bool) : D unit :=
  _ ← rcu_read_lock;
  listed ← gets (λ w, nth i (dev_list w) false);
  p ← gets (λ w, nth i (dcs_priv w) NoDev);
  if negb listed || (match p with NoDev => true | _ => false end) || negb tvd then rcu_read_unlock else
  _ ← hsdcs_write_temp_compensation i;
  '(rc, t) ← hsdcs_get_curr_temperature i;
  if decide (rc < 0) then mret tt else
  _ ← on_dev i (set_current t);
  _ ← check_full i t;
  _ ← check_inc i t;
  rcu_read_unlock.

(** A round of the thread over the modems. *)
Fixpoint tmon_from (i n : nat) (tvd : nat → bool) : D unit :=
  match n with O => mret tt | S n => _ ← tmon_modem i (tvd i); tmon_from (S i) n tvd end.
Definition hsdcs_tempmonitor (tvd : nat → bool) : D unit := tmon_from 0 MAX_MODEM tvd.

(** The requests of the modem and of sysfs. *)
Definition hsdcs_adc_set_tmon_tri : D unit := g ← get_globals; put_triggers 1 (trigger_full_recal g).
Definition hsdcs_adc_set_tmon_tri_full : D unit := g ← get_globals; put_triggers (trigger_inc_recal g) 1.
Definition hsdcs_adc_en_dis_fullcal (i : nat) (v : Z) : D unit :=
  on_dev i (λ d, set_enabled (hsdcs_inc_recal_enabled d) (u8 v) d).
Definition hsdcs_adc_en_dis_inc_cal (i : nat) (v : Z) : D unit :=
  on_dev i (λ d, set_enabled (u8 v) (hsdcs_full_recal_enabled d) d).

(** ** Probe and removal *)

(** After the high-speed converters came up. *)
Definition probe_finish (i : nat) : D Z :=
  _ ← modify (λ w, with_hs (<[i := true]> (hsdcs_load_status w)) w);
  _ ← on_dev i (set_counts 0 0 0);
  if hsdcs_enable o && rev_b o then
    _ ← hif_write i msi_dcs GUL_MSI_MAX_CNT;
    '(rc, t) ← hsdcs_get_curr_temperature i;
    if decide (rc < 0) then mret (- EINVAL) else
    _ ← on_dev i (set_last_inc t);
    _ ← modify (λ w, with_list (<[i := true]> (dev_list w)) w);
    mret 0
  else mret 0.

(** The high-speed converters. *)
Definition probe_hs (i : nat) : D Z :=
  rc ← hsdcs_out_of_reset i;
  if decide (rc ≠ 0) then mret rc else
  rc ← hsdcs_enable_pclk_axiq i;
  if decide (rc ≠ 0) then mret rc else
  _ ← hsdcs_scfg_config i;
  rc ← hsdcs_macro_init i;
  if decide (rc = 1) then mret 0 else if decide (rc < 0) then mret rc else probe_finish i.

(** The low-speed ones, on the boards that have them. *)
Definition has_lsdcs : bool :=
  negb (bnrg o) || negb (hsdcs_enable o) || rev_a o || bool_decide (board o = "C"%char) || bool_decide (board o = "F"%char).

(** A failure that frees the structure. *)
Definition probe_freed (i : nat) (rc : Z) : D Z := _ ← kfree_dev i; mret rc.

Definition dcs_probe (i : nat) : D Z :=
  ok ← alloc;
  if negb ok then mret (- ENOMEM) else
  _ ← put_dev i (Dev dcs_0);
  if decide (MAX_MODEM ≤ i)%nat then probe_freed i (- ECANCELED) else
  r ← dcs_pll_init i;
  if decide (r ≠ 0) then probe_freed i (- ECANCELED) else
  r ← (if rev_a o || negb (hsdcs_no o) then hsdcs_enable_pclk_axiq i else mret 0);
  if decide (r ≠ 0) then probe_freed i (- ECANCELED) else
  if has_lsdcs then
    r ← lsdcs_enable i;
    if decide (r ≠ 0) then probe_freed i (- ECANCELED) else
    _ ← modify (λ w, with_ls (<[i := true]> (lsdcs_load_status w)) w);
    probe_hs i
  else probe_hs i.

Definition dcs_remove (i : nat) : D Z :=
  _ ← (if hsdcs_enable o && rev_b o then modify (λ w, with_list (<[i := false]> (dev_list w)) w) else mret tt);
  _ ← kfree_dev i;
  _ ← put_dev i NoDev;
  _ ← modify (λ w, with_hs (<[i := false]> (hsdcs_load_status w)) w);
  _ ← modify (λ w, with_ls (<[i := false]> (lsdcs_load_status w)) w);
  mret 0.

End Dcs.
