(* ===== verification/GulDcsCorrect.v ===== *)
(** * The data converter driver: theorems *)
From S2P Require Import Prelude GulMsi GulPci GulImage GulScratch GulBoot GulDcs UsimEventCorrect.
#[global] Open Scope Z_scope.

(** A modem some of whose words are memory: [peek] is their content, for the
    addresses [plain] holds of. *)
Class DcsMem (E : Type) `{DcsEnv E} := {
  peek : E → nat → Z → Z;
  plain : Z → Prop;
  peek_word e i a : plain a → 0 ≤ peek e i a < 4294967296;
  read_peek e i a : plain a → fst (d_readl i a e) = peek e i a;
  read_keeps e i a j b : plain b → peek (snd (d_readl i a e)) j b = peek e j b;
  write_peek e i a v : plain a → 0 ≤ v < 4294967296 → peek (d_writel i a v e) i a = v;
  write_keeps e i a v j b : plain b → (i, a) ≠ (j, b) → peek (d_writel i a v e) j b = peek e j b }.

Section DcsCorrect.
Context `{ScratchIf, DcsIf} {E : Type} `{DcsEnv E} (o : dcs_opts) (fs : files).
Local Abbreviation W := (dcsw E).

(** ** The structure of a modem is there, with its registers *)
Definition ready (i : nat) (w : W) : Prop := ∃ d, dcs_priv w !! i = Some (Dev d) ∧ hsdcs_regs d = true.

(** What depends neither on the environment nor on the globals. *)
Definition steady (P : W → Prop) : Prop :=
  (∀ w e, P w → P (with_env e w)) ∧ (∀ w g, P w → P (with_globals g w)).

Lemma ready_steady i : steady (ready i).
Proof. by split. Qed.

Section Total.
Context (P : W → Prop) (HP : steady P).

Lemma readl_total i a : stays P (readl i a).
Proof. intros w Hw. unfold readl. destruct (d_readl i a (denv w)). by apply HP. Qed.
Lemma env_op_total f : stays P (env_op f).
Proof. apply stays_modify. intros w Hw. by apply HP. Qed.
Lemma writel_total i a v : stays P (writel i a v).
Proof. apply env_op_total. Qed.
Lemma hif_read_total i f : stays P (hif_read i f).
Proof. intros w Hw. unfold hif_read. destruct (d_hif_read i f (denv w)). by apply HP. Qed.
Lemma put_tdd_total a b : stays P (put_tdd a b).
Proof. apply stays_modify. intros w Hw. by apply HP. Qed.
Lemma put_triggers_total a b : stays P (put_triggers a b).
Proof. apply stays_modify. intros w Hw. by apply HP. Qed.

Lemma poll_total n i a ok v : stays P (poll n i a ok v).
Proof.
  revert v. induction n as [|n IH]; intros v; cbn [poll]; [apply stays_ret|].
  apply stays_bind; [apply readl_total|]. intros v'. destruct (ok v'); [apply stays_ret|apply IH].
Qed.

End Total.

#[local] Hint Resolve ready_steady put_tdd_total put_triggers_total readl_total writel_total env_op_total hif_read_total poll_total : stays.

Lemma need_regs_total i : stays (ready i) (need_regs i).
Proof. intros w (d & Hd & Hr). unfold need_regs, get_dev. rewrite M_bind_eq, Hd, Hr. by exists d. Qed.
Lemma on_dev_total i f : (∀ d, hsdcs_regs d = true → hsdcs_regs (f d) = true) → stays (ready i) (on_dev i f).
Proof.
  intros Hf w (d & Hd & Hr). unfold on_dev, get_dev. rewrite M_bind_eq, Hd. unfold put_dev. cbn.
  exists (f d). split; [|by apply Hf]. cbn. apply list_lookup_insert_eq. by eapply lookup_lt_Some.
Qed.
#[local] Hint Resolve need_regs_total : stays.
#[local] Hint Extern 1 (stays _ (on_dev _ _)) => apply on_dev_total; done : stays.

Lemma low_pow_total i a b : stays (ready i) (hsdcs_adc_low_pow_conf i a b).
Proof.
  unfold hsdcs_adc_low_pow_conf, low_pow_bit, restore_tdd, get_globals. stays_tac.
Qed.
Lemma handshake_total i v : stays (ready i) (cal_handshake i v).
Proof. unfold cal_handshake. stays_tac. Qed.
Lemma results_total i f : stays (ready i) (cal_results i f).
Proof. unfold cal_results. stays_tac. Qed.
#[local] Hint Resolve low_pow_total handshake_total results_total : stays.
Lemma full_recal_total i : stays (ready i) (hsdcs_adc_full_recal i).
Proof. unfold hsdcs_adc_full_recal, get_globals. stays_tac. Qed.
Lemma fast_recal_total i c : stays (ready i) (hsdcs_adc_fast_recal i c).
Proof. unfold hsdcs_adc_fast_recal. stays_tac. Qed.
#[local] Hint Resolve full_recal_total fast_recal_total : stays.
Lemma cal_event_total i ev : stays (ready i) (cal_event i ev).
Proof. unfold cal_event, cal_step, hif_write, raise_msi. stays_tac. Qed.
#[local] Hint Resolve cal_event_total : stays.
Lemma cal_loop_total n i : stays (ready i) (cal_loop n i).
Proof. induction n as [|n IH]; cbn [cal_loop]; stays_tac. Qed.
#[local] Hint Resolve cal_loop_total : stays.
Lemma cal_req_total i c : stays (ready i) (hsdcs_raise_modem_cal_req i c).
Proof. unfold hsdcs_raise_modem_cal_req, hif_write, raise_msi. stays_tac. Qed.

(** ** What the operations leave in the globals *)
Section Globals.
Context {X : Type} (g : dcs_globals → X).
Local Abbreviation G := (λ w : W, g (globals w)).

Lemma readl_keeps j a : keeps G (readl j a).
Proof. intros w v w'. unfold readl. destruct (d_readl j a (denv w)). by intros [= _ <-]. Qed.
Lemma env_op_keeps f : keeps G (env_op f).
Proof. by apply keeps_modify. Qed.
Lemma writel_keeps j a v : keeps G (writel j a v).
Proof. by apply keeps_modify. Qed.
Lemma hif_read_keeps j f : keeps G (hif_read j f).
Proof. intros w v w'. unfold hif_read. destruct (d_hif_read j f (denv w)). by intros [= _ <-]. Qed.
Lemma temperature_keeps j : keeps G (temperature j).
Proof. intros w v w'. unfold temperature. destruct (d_temp j (denv w)) as [[? ?]|]; [by intros [= _ <-]|done]. Qed.
Lemma get_dev_keeps j : keeps G (get_dev j).
Proof. intros w a w'. unfold get_dev. destruct (_ !! _) as [[]|]; [done..|by intros [= _ <-]|done]. Qed.
Lemma poll_keeps n j a ok v : keeps G (poll n j a ok v).
Proof.
  revert v. induction n as [|n IH]; intros v; cbn [poll]; [apply keeps_ret|].
  apply keeps_bind; [apply readl_keeps|]. intros v'. destruct (ok v'); [apply keeps_ret|apply IH].
Qed.
#[local] Hint Resolve readl_keeps env_op_keeps writel_keeps hif_read_keeps temperature_keeps get_dev_keeps poll_keeps : keeps.
Lemma on_dev_keeps j f : keeps G (on_dev j f).
Proof. unfold on_dev. apply keeps_bind; [auto with keeps|intros d; by apply keeps_modify]. Qed.
Lemma need_regs_keeps j : keeps G (need_regs j).
Proof. unfold need_regs. keeps_tac. Qed.
#[local] Hint Resolve on_dev_keeps need_regs_keeps : keeps.
Lemma handshake_keeps j v : keeps G (cal_handshake j v).
Proof. unfold cal_handshake. keeps_tac. Qed.
Lemma results_keeps j f : keeps G (cal_results j f).
Proof. unfold cal_results. keeps_tac. Qed.

End Globals.
#[local] Hint Resolve readl_keeps env_op_keeps writel_keeps hif_read_keeps temperature_keeps get_dev_keeps poll_keeps
  on_dev_keeps need_regs_keeps handshake_keeps results_keeps : keeps.

(** ** The low-power control survives a recalibration *)
Section Restore.
Context `{!DcsMem E} (i : nat).
Local Abbreviation A0 := HSADC0_LOW_PWR_TBGEN2_CTRL.
Local Abbreviation A1 := HSADC1_LOW_PWR_TBGEN2_CTRL.
Hypotheses (plain0 : plain A0) (plain1 : plain A1).

(** The two control words; the ones kept in the globals. *)
Definition tdd (w : W) : Z * Z := (peek (denv w) i A0, peek (denv w) i A1).
Definition kept (g : dcs_globals) : Z * Z := (tdd_ctrl1_state_g g, tdd_ctrl2_state_g g).
Definition saved (s : Z * Z) (w : W) : Prop := ready i w ∧ kept (globals w) = s.

Lemma saved_total {A} s (m : M W A) : stays (ready i) m → keeps (λ w, kept (globals w)) m → stays (saved s) m.
Proof.
  intros Ht Hk w [Hw Hs]. specialize (Ht w Hw). destruct (m w) as [[a w']|] eqn:E1; [|done].
  split; [done|]. by rewrite (Hk _ _ _ E1).
Qed.

(** A word that is memory: what its accesses give and leave. *)
Definition same (w w' : W) : Prop := globals w' = globals w ∧ dcs_priv w' = dcs_priv w.
Lemma same_trans w1 w2 w3 : same w1 w2 → same w2 w3 → same w1 w3.
Proof. unfold same. intuition congruence. Qed.

Lemma readl_run a w : plain a → ∃ w', readl i a w = Some (peek (denv w) i a, w') ∧ same w w' ∧
  ∀ b, plain b → peek (denv w') i b = peek (denv w) i b.
Proof.
  intros Ha. unfold readl. destruct (d_readl i a (denv w)) as [v e] eqn:E1.
  assert (Hp := read_peek (denv w) i a Ha). assert (Hk := λ b, read_keeps (denv w) i a i b).
  rewrite E1 in Hp, Hk. cbn in *. exists (with_env e w). split; [|by split; [split|]].
  rewrite Hp. unfold u32. rewrite Z.mod_small; [done|by apply peek_word].
Qed.

Lemma writel_run a v w : plain a → ∃ w', writel i a v w = Some (tt, w') ∧ same w w' ∧
  peek (denv w') i a = u32 v ∧ ∀ b, plain b → b ≠ a → peek (denv w') i b = peek (denv w) i b.
Proof.
  intros Ha. eexists. split; [reflexivity|]. split; [by split|]. cbn. split; [apply write_peek; [done|unfold u32; apply Z.mod_pos_bound; lia]|].
  intros b Hb Hn. apply write_keeps; [done|]. by intros [= ->].
Qed.

Lemma restore_run a v w : plain a → 0 ≤ v < 4294967296 → ∃ w', restore_tdd i a v w = Some (tt, w') ∧ same w w' ∧
  peek (denv w') i a = v ∧ ∀ b, plain b → b ≠ a → peek (denv w') i b = peek (denv w) i b.
Proof.
  intros Ha Hv. unfold restore_tdd. destruct (readl_run a w Ha) as (w1 & H1' & Hs & Hk).
  rewrite (M_bind_run _ _ _ _ _ H1'). destruct (decide _) as [Hn|Hn].
  - destruct (writel_run a v w1 Ha) as (w2 & H2' & Hs2 & Hp & Hk2). exists w2. split; [done|].
    split; [by eapply same_trans|]. split; [by rewrite Hp; unfold u32; rewrite Z.mod_small|].
    intros b Hb Hbn. by rewrite Hk2, Hk.
  - exists w1. split; [done|]. split; [done|]. split; [|intros b Hb _; by apply Hk].
    rewrite Hk by done. destruct (decide (peek (denv w) i a = v)); done.
Qed.

Lemma low_pow_bit_run a v low w : ∃ w', low_pow_bit i a v low w = Some (tt, w') ∧ same w w'.
Proof. unfold low_pow_bit. repeat case_match; (eexists; split; [reflexivity|by split]). Qed.

Lemma disable_saves w : ready i w → ∃ w',
  hsdcs_adc_low_pow_conf i DISABLE_LOWPWR TBGEN_STORE w = Some (tt, w') ∧ saved (tdd w) w'.
Proof.
  intros Hw. unfold hsdcs_adc_low_pow_conf.
  destruct (readl_run A0 w plain0) as (w1 & R1 & [G1 P1] & K1). rewrite (M_bind_run _ _ _ _ _ R1).
  destruct (readl_run A1 w1 plain1) as (w2 & R2 & [G2 P2] & K2). rewrite (M_bind_run _ _ _ _ _ R2).
  rewrite M_bind_eq. cbn [decide TBGEN_STORE]. rewrite decide_True by done. unfold put_tdd at 1. cbv [modify].
  set (w3 := with_globals _ w2).
  destruct (low_pow_bit_run A0 (peek (denv w) i A0) (bool_decide (DISABLE_LOWPWR = ENABLE_LOWPWR)) w3)
    as (w4 & R4 & [G4 P4]). rewrite (M_bind_run _ _ _ _ _ R4).
  destruct (low_pow_bit_run A1 (peek (denv w1) i A1) (bool_decide (DISABLE_LOWPWR = ENABLE_LOWPWR)) w4)
    as (w5 & R5 & [G5 P5]). rewrite (M_bind_run _ _ _ _ _ R5). rewrite decide_False by done.
  exists w5. split; [done|]. split.
  - destruct Hw as (d & Hd & Hr). exists d. by rewrite P5, P4; cbn; rewrite P2, P1.
  - rewrite G5, G4. cbn. by rewrite K1.
Qed.

Definition is_word (s : Z) : Prop := 0 ≤ s < 4294967296.
Lemma enable_restores s w : saved s w → is_word s.1 → is_word s.2 → ∃ w',
  hsdcs_adc_low_pow_conf i ENABLE_LOWPWR TBGEN_RESTORE w = Some (tt, w') ∧ ready i w' ∧ tdd w' = s.
Proof.
  intros [Hw Hs] H1' H2'. unfold hsdcs_adc_low_pow_conf.
  destruct (readl_run A0 w plain0) as (w1 & R1 & S1 & K1). rewrite (M_bind_run _ _ _ _ _ R1).
  destruct (readl_run A1 w1 plain1) as (w2 & R2 & S2 & K2). rewrite (M_bind_run _ _ _ _ _ R2).
  rewrite M_bind_eq, decide_False by done. cbn [mret M_ret].
  destruct (low_pow_bit_run A0 (peek (denv w) i A0) (bool_decide (ENABLE_LOWPWR = ENABLE_LOWPWR)) w2)
    as (w4 & R4 & S4). rewrite (M_bind_run _ _ _ _ _ R4).
  destruct (low_pow_bit_run A1 (peek (denv w1) i A1) (bool_decide (ENABLE_LOWPWR = ENABLE_LOWPWR)) w4)
    as (w5 & R5 & S5). rewrite (M_bind_run _ _ _ _ _ R5). rewrite decide_True by done.
  assert (Hsame : same w w5) by eauto using same_trans.
  rewrite (M_bind_run _ _ w5 (globals w5) w5) by done. destruct Hsame as [G P].
  rewrite G. rewrite <- Hs in H1', H2' |- *. cbn [fst snd] in *.
  destruct (restore_run A0 _ w5 plain0 H1') as (w6 & R6 & S6 & V6 & K6). rewrite (M_bind_run _ _ _ _ _ R6).
  destruct (restore_run A1 _ w6 plain1 H2') as (w7 & R7 & S7 & V7 & K7). exists w7. split; [done|]. split.
  - destruct Hw as (d & Hd & Hr). exists d. by rewrite (proj2 S7), (proj2 S6), P.
  - unfold tdd. by rewrite V7, K7, V6.
Qed.

(** The end of both calibrations. *)
Lemma recal_end s f (ret : Z) : is_word s.1 → is_word s.2 → (∀ d, hsdcs_regs d = true → hsdcs_regs (f d) = true) →
  hoare False (saved s)
    (_ ← hsdcs_adc_low_pow_conf i ENABLE_LOWPWR TBGEN_RESTORE; _ ← on_dev i f; mret ret)
    (λ _ w, ready i w ∧ tdd w = s).
Proof.
  intros H1' H2' Hf w Sv. destruct (enable_restores _ w Sv H1' H2') as (w3 & R3 & Rd & Hs3).
  rewrite (M_bind_run _ _ _ _ _ R3). assert (Ho := on_dev_total i f Hf w3 Rd).
  rewrite M_bind_eq. destruct (on_dev i f w3) as [[[] w4]|] eqn:E4; [|done].
  split; [done|]. rewrite <- Hs3. unfold on_dev in E4.
  apply M_bind_Some in E4 as (d & w5 & E5 & [= <-]). unfold get_dev in E5.
  destruct (_ !! _) as [[]|]; [done..|by injection E5 as _ <-|done].
Qed.

(** A step that keeps what was saved. *)
Ltac saved_step :=
  eapply hoare_bind; [apply saved_total; [solve [stays_tac]|solve [keeps_tac]]|]; intros ?.

Lemma recal_run (rest : M W Z) w :
  (∀ s, is_word s.1 → is_word s.2 → hoare False (saved s) rest (λ _ w, ready i w ∧ tdd w = s)) → ready i w →
  ∃ ret w', (_ ← need_regs i; _ ← hsdcs_adc_low_pow_conf i DISABLE_LOWPWR TBGEN_STORE; rest) w = Some (ret, w') ∧
    ready i w' ∧ tdd w' = tdd w.
Proof.
  intros Hr Hw.
  assert (Hn : need_regs i w = Some (tt, w)).
  { destruct Hw as (d & Hd & Hg). unfold need_regs, get_dev. by rewrite M_bind_eq, Hd, Hg. }
  rewrite (M_bind_run _ _ _ _ _ Hn). destruct (disable_saves w Hw) as (w1 & R1 & Sv).
  rewrite (M_bind_run _ _ _ _ _ R1). specialize (Hr (tdd w)). cbn [fst snd tdd] in Hr.
  specialize (Hr ltac:(by apply peek_word) ltac:(by apply peek_word) w1 Sv).
  destruct (rest w1) as [[ret w2]|]; [|done]. by exists ret, w2.
Qed.

(** C14: a recalibration, full or incremental, ends on every modem whatever its
    firmware answers, and leaves the two words that control the low-power mode as
    it found them, when these words are memory. *)
Theorem recal_restores m w : m = hsdcs_adc_full_recal i ∨ (∃ c, m = hsdcs_adc_fast_recal i c) → ready i w →
  ∃ ret w', m w = Some (ret, w') ∧ ready i w' ∧ tdd w' = tdd w.
Proof.
  intros [-> | [c ->]] Hw.
  - apply recal_run; [|done]. intros s H1' H2'. unfold get_globals. do 3 saved_step. by apply recal_end.
  - apply recal_run; [|done]. intros s H1' H2'. do 5 saved_step. by apply recal_end.
Qed.

(** ** The temperature in its field *)
Lemma temp_field_mask x : 0 ≤ x < 512 → Z.land (Z.shiftl x 16) HSADC_TEMP_COMP_READ_MASK = 0.
Proof.
  intros Hx. apply Z.bits_inj'. intros k Hk. rewrite Z.land_spec, Z.bits_0.
  destruct (decide (k < 16)); [by rewrite Z.shiftl_spec_low by lia|]. rewrite Z.shiftl_spec by lia.
  destruct (decide (25 ≤ k)) as [Hh|Hh].
  - replace (Z.testbit x (k - 16)) with false; [done|]. symmetry.
    destruct (decide (x = 0)) as [->|]; [apply Z.bits_0|]. apply Z.bits_above_log2; [lia|].
    apply Z.log2_lt_pow2; [lia|]. eapply Z.lt_le_trans; [apply Hx|]. change 512 with (2 ^ 9).
    apply Z.pow_le_mono_r; lia.
  - apply andb_false_intro2. assert (k = 16 ∨ k = 17 ∨ k = 18 ∨ k = 19 ∨ k = 20 ∨ k = 21 ∨ k = 22 ∨ k = 23 ∨ k = 24)
      as Hc by lia. by repeat destruct Hc as [-> | Hc]; [..|subst k].
Qed.

(** The word written for a temperature: the field, the rest, the range. *)
Lemma temp_word old x : 0 ≤ x < 512 →
  let v := Z.lor (Z.land old HSADC_TEMP_COMP_READ_MASK) (Z.shiftl x 16) in
  Z.land (Z.shiftr v 16) 511 = x ∧ Z.land v HSADC_TEMP_COMP_READ_MASK = Z.land old HSADC_TEMP_COMP_READ_MASK ∧
  is_word v.
Proof.
  intros Hx v. assert (Hm := temp_field_mask x Hx).
  assert (Hr : Z.land v HSADC_TEMP_COMP_READ_MASK = Z.land old HSADC_TEMP_COMP_READ_MASK).
  { unfold v. rewrite Z.land_lor_distr_l, Hm, Z.lor_0_r, <- Z.land_assoc. by rewrite Z.land_diag. }
  assert (Ha : 0 ≤ Z.land old HSADC_TEMP_COMP_READ_MASK ≤ HSADC_TEMP_COMP_READ_MASK).
  { apply Z.ldiff_le; [done|]. apply Z.bits_inj'. intros k Hk. rewrite Z.ldiff_spec, Z.land_spec, Z.bits_0.
    by destruct (Z.testbit old k), (Z.testbit HSADC_TEMP_COMP_READ_MASK k). }
  assert (Hl : Z.land (Z.land old HSADC_TEMP_COMP_READ_MASK) (Z.shiftl x 16) = 0).
  { rewrite <- Z.land_assoc, (Z.land_comm HSADC_TEMP_COMP_READ_MASK), Hm. apply Z.land_0_r. }
  split; [|split; [done|]].
  - unfold v. rewrite Z.shiftr_lor, Z.shiftr_shiftl_l, Z.sub_diag, Z.shiftl_0_r by lia.
    rewrite Z.land_lor_distr_l. rewrite Z.shiftr_land. change (Z.shiftr HSADC_TEMP_COMP_READ_MASK 16) with 0xFE00.
    rewrite <- Z.land_assoc. change (Z.land 0xFE00 511) with 0. rewrite Z.land_0_r, Z.lor_0_l.
    change 511 with (Z.ones 9). rewrite Z.land_ones by lia. apply Z.mod_small. lia.
  - unfold is_word, v. rewrite <- Z.lxor_lor by done. rewrite <- Z.add_nocarry_lxor by done.
    rewrite Z.shiftl_mul_pow2 by lia. unfold HSADC_TEMP_COMP_READ_MASK in *. lia.
Qed.

(** a temperature the driver accepts is written into its nine bits of the
    mailbox word in kelvin, fits there, and leaves the other bits alone. *)
Theorem temp_comp_written w rc t e' : plain dcs_mailbox_reg2 → ready i w →
  let w1 := default w (snd <$> readl i dcs_mailbox_reg2 w) in
  d_temp i (denv w1) = Some ((rc, t), e') → 0 ≤ rc → HSDCS_TEMP_THRESHOLD_LOW ≤ t ≤ HSDCS_TEMP_THRESHOLD_HIGH →
  ∃ w', hsdcs_write_temp_compensation i w = Some (tt, w') ∧
    let v := peek (denv w') i dcs_mailbox_reg2 in
    Z.land (Z.shiftr v HSADC_TEMP_COMP_BIT_POS) 511 = t + HSADC_TEMP_CONV_KELVIN ∧
    Z.land v HSADC_TEMP_COMP_READ_MASK = Z.land (peek (denv w) i dcs_mailbox_reg2) HSADC_TEMP_COMP_READ_MASK.
Proof.
  intros Hp (d & Hd & Hr) w1 Ht Hrc Hrange.
  unfold HSDCS_TEMP_THRESHOLD_LOW, HSDCS_TEMP_THRESHOLD_HIGH in Hrange. unfold hsdcs_write_temp_compensation.
  assert (Hn : need_regs i w = Some (tt, w)) by (unfold need_regs, get_dev; by rewrite M_bind_eq, Hd, Hr).
  rewrite (M_bind_run _ _ _ _ _ Hn). destruct (readl_run _ w Hp) as (w2 & R2 & [G2 P2] & K2).
  rewrite (M_bind_run _ _ _ _ _ R2). assert (w1 = w2) as -> by (unfold w1; by rewrite R2).
  assert (Hg : hsdcs_get_curr_temperature i w2 = Some ((0, t), with_env e' w2)).
  { unfold hsdcs_get_curr_temperature, temperature. rewrite M_bind_eq, Ht. rewrite decide_False by lia.
    cbn. rewrite decide_False; [done|]. unfold HSDCS_TEMP_THRESHOLD_LOW, HSDCS_TEMP_THRESHOLD_HIGH. lia. }
  rewrite (M_bind_run _ _ _ _ _ Hg). rewrite decide_False by done.
  destruct (writel_run dcs_mailbox_reg2 (Z.lor (Z.land (peek (denv w) i dcs_mailbox_reg2) HSADC_TEMP_COMP_READ_MASK)
    (Z.shiftl (t + HSADC_TEMP_CONV_KELVIN) HSADC_TEMP_COMP_BIT_POS)) (with_env e' w2) Hp) as (w3 & R3 & [G3 P3] & V3 & _).
  rewrite (M_bind_run _ _ _ _ _ R3). unfold on_dev, get_dev. rewrite M_bind_eq, P3. cbn [dcs_priv with_env].
  rewrite P2, Hd. eexists. split; [reflexivity|]. cbn [denv with_priv]. rewrite V3.
  destruct (temp_word (peek (denv w) i dcs_mailbox_reg2) (t + HSADC_TEMP_CONV_KELVIN)) as (F1 & F2 & F3);
    [unfold HSADC_TEMP_CONV_KELVIN; lia|].
  unfold u32. rewrite Z.mod_small by exact F3. done.
Qed.

End Restore.

(** ** The clock generator is stopped unseen *)

Lemma readl_eq i a w : readl i a w = Some (u32 (fst (d_readl i a (denv w))), with_env (snd (d_readl i a (denv w))) w).
Proof. unfold readl. by destruct (d_readl i a (denv w)). Qed.

Lemma stp_clear n i v w : has DCS_PLL_STP_REQ v = false → stp_poll (S n) i v w = Some ((v, Z.of_nat n), w).
Proof. intros Hv. cbn [stp_poll]. by rewrite Hv. Qed.

(** Whether the reconfiguration goes on is decided by the word at four times the
    offset of the register: as long as that one has the bit clear it succeeds,
    whatever the register itself says. *)
Theorem pll_stop_not_seen i w : (∀ e, has DCS_PLL_STP_REQ (u32 (fst (d_readl i PLLRSTCTL_polled e))) = false) →
  ∃ w', dcs_pll_reconf i w = Some (0, w').
Proof.
  intros Hc. unfold dcs_pll_reconf. change DCS_PLL_WAIT_TIMEOUT with (S 255). rewrite M_bind_eq. cbn [writel env_op modify].
  rewrite (M_bind_run _ _ _ _ _ (readl_eq _ _ _)), (M_bind_run _ _ _ _ _ (stp_clear _ _ _ _ (Hc _))).
  rewrite decide_False by (rewrite Hc; by intros []). eexists. reflexivity.
Qed.

(** ** A failed probe *)

Lemma poll_never i a ok n v w : ok v = false → (∀ e, ok (u32 (fst (d_readl i a e))) = false) →
  ∃ v' e', poll n i a ok v w = Some (v', with_env e' w) ∧ ok v' = false.
Proof.
  intros Hv Hn. revert v w Hv. induction n as [|n IH]; intros v w Hv; cbn [poll].
  - exists v, (denv w). by destruct w.
  - rewrite (M_bind_run _ _ _ _ _ (readl_eq _ _ _)), Hn.
    destruct (IH (u32 (fst (d_readl i a (denv w)))) (with_env (snd (d_readl i a (denv w))) w) (Hn _)) as (v' & e' & -> & Hv').
    by exists v', e'.
Qed.

(** C16: a modem whose clock generator never locks makes the probe fail after the
    structure is freed, with the pointer left in the device: the removal that
    follows a failed probe frees it again. *)
Theorem failed_dcs_probe_frees_twice i w : (i < MAX_MODEM)%nat → (i < length (dcs_priv w))%nat →
  fst (d_alloc (denv w)) = true →
  (∀ e, has DCS_PLL_STATUS_CHK (u32 (fst (d_readl i (DCS_CLK_GEN_OFFSET + DCS_PLLRSTCTL_OFFSET) e))) = false) →
  ∃ w', dcs_probe o fs i w = Some (- ECANCELED, w') ∧ dcs_remove o i w' = None.
Proof.
  intros Hi Hl Ha Hn. unfold dcs_probe. rewrite M_bind_eq. unfold alloc.
  destruct (d_alloc (denv w)) as [ok e]. cbn in Ha. subst ok. cbn [negb].
  rewrite M_bind_eq. cbn [put_dev modify]. rewrite decide_False by lia.
  set (w1 := with_priv _ _).
  destruct (poll_never i (DCS_CLK_GEN_OFFSET + DCS_PLLRSTCTL_OFFSET) (has DCS_PLL_STATUS_CHK) DCS_PLL_WAIT_TIMEOUT 0 w1
    eq_refl Hn) as (v & e' & Hp & Hv).
  assert (Hinit : dcs_pll_init o i w1 = Some (- ECANCELED, with_env e' w1)).
  { unfold dcs_pll_init, dcs_pll_check. rewrite !M_bind_eq, Hp, Hv. done. }
  rewrite (M_bind_run _ _ _ _ _ Hinit). rewrite decide_True by done.
  assert (Hd : dcs_priv (with_env e' w1) !! i = Some (Dev dcs_0)) by (cbn; by apply list_lookup_insert_eq).
  unfold probe_freed, kfree_dev. rewrite M_bind_eq, Hd. eexists. split; [reflexivity|].
  unfold dcs_remove. rewrite M_bind_eq. set (w2 := with_priv _ _).
  assert (Hf : ∀ w3, dcs_priv w3 = dcs_priv w2 → (kfree_dev i : M W unit) w3 = None).
  { intros w3 E3. unfold kfree_dev. rewrite E3. cbn. rewrite list_insert_insert_eq.
    by rewrite list_lookup_insert_eq. }
  destruct (hsdcs_enable o && rev_b o); cbn [modify mret M_ret]; rewrite M_bind_eq, Hf; done.
Qed.

(** ** Both converters of the first revision *)

Definition adc_mask (m : Z) (w : W) : Prop := adc_rxi_rxq_mask (globals w) = m.

Lemma adc_mask_keeps {A} m (x : M W A) : keeps (λ w, adc_rxi_rxq_mask (globals w)) x → hoare True (adc_mask m) x (λ _, adc_mask m).
Proof. intros Hk w Hw. specialize (Hk w). destruct (x w) as [[a w']|]; [|done]. unfold adc_mask in *. by rewrite (Hk a w'). Qed.

Lemma initial_cal_fails i m : Z.land m HSDCS_BIT0F_MASK ≠ m →
  hoare True (adc_mask m) (hsdcs_do_initial_cal o i) (λ r w, r ≠ 0 ∧ adc_mask m w).
Proof.
  intros Hm. unfold hsdcs_do_initial_cal.
  eapply hoare_bind; [apply adc_mask_keeps; keeps_tac|intros ?].
  eapply hoare_bind; [apply adc_mask_keeps; keeps_tac|intros v].
  eapply hoare_bind; [apply adc_mask_keeps; unfold cal_handshake; keeps_tac|intros [[]|]]; [|by intros w Hw].
  eapply hoare_bind; [apply adc_mask_keeps; keeps_tac|intros ?].
  eapply hoare_bind; [apply adc_mask_keeps; unfold cal_results; keeps_tac|intros [val st]].
  intros w Hw. cbn. split; [|done]. unfold adc_mask in Hw. rewrite Hw.
  destruct (Z.land st HSDCS_BIT0F_MASK =? m) eqn:E1; [|by rewrite orb_true_r].
  apply Z.eqb_eq in E1. destruct Hm. rewrite <- E1, <- Z.land_assoc. done.
Qed.

Lemma initial_cals_fail i m n ret : Z.land m HSDCS_BIT0F_MASK ≠ m → n ≠ 0%nat ∨ ret ≠ 0 →
  hoare True (adc_mask m) (initial_cals o n i ret) (λ r _, r ≠ 0).
Proof.
  intros Hm. revert ret. induction n as [|n IH]; intros ret Hr; cbn [initial_cals].
  - intros w Hw. cbn. by destruct Hr.
  - eapply hoare_bind; [by apply initial_cal_fails|]. intros r. apply hoare_pre. intros Hne.
    rewrite decide_False by done. apply IH. by right.
Qed.

(** with both converters of the first revision enabled, the calibration at
    start-up fails whatever the hardware answers: the mask that is compared has a
    fifth bit, the status only four. *)
Theorem reva_both_never_calibrates i : rev_a o = true → hsadc_mask o = 0x3 →
  hoare True (λ _, True) (hsdcs_init_adc o i) (λ r _, r ≠ 0).
Proof.
  intros Ha Hm. unfold hsdcs_init_adc, init_adc_a, adc_masks. rewrite Ha, Hm. cbn [decide].
  eapply (hoare_bind _ (λ _ _, True)); [by intros w _; destruct (need_regs i w) as [[? ?]|]|intros _].
  eapply (hoare_bind _ (λ _, adc_mask 0x1f)).
  { intros w _. cbn. done. }
  intros r. destruct (decide (r ≠ 0)) as [Hr|Hr]; [by intros w _|].
  eapply hoare_bind; [apply initial_cals_fail; [done|by left]|].
  intros ret. destruct (decide (ret ≠ 0)) as [Hne|Hne]; [by intros w _|]. intros w Hw. done.
Qed.


(** ** The thread and its lock *)
Section Thread.
Local Abbreviation depth := (λ w : W, rcu_depth (globals w)).
#[local] Hint Resolve full_recal_total fast_recal_total cal_event_total cal_loop_total cal_req_total : stays.

Lemma put_tdd_depth a b : keeps depth (put_tdd a b).
Proof. by apply keeps_modify. Qed.
Lemma put_triggers_depth a b : keeps depth (put_triggers a b).
Proof. by apply keeps_modify. Qed.
#[local] Hint Resolve put_tdd_depth put_triggers_depth : keeps.
Lemma low_pow_depth i a b : keeps depth (hsdcs_adc_low_pow_conf i a b).
Proof. unfold hsdcs_adc_low_pow_conf, low_pow_bit, restore_tdd, get_globals. keeps_tac. Qed.
#[local] Hint Resolve low_pow_depth : keeps.
Lemma full_recal_depth i : keeps depth (hsdcs_adc_full_recal i).
Proof. unfold hsdcs_adc_full_recal, get_globals. keeps_tac. Qed.
Lemma fast_recal_depth i c : keeps depth (hsdcs_adc_fast_recal i c).
Proof. unfold hsdcs_adc_fast_recal. keeps_tac. Qed.
#[local] Hint Resolve full_recal_depth fast_recal_depth : keeps.
Lemma cal_event_depth i ev : keeps depth (cal_event i ev).
Proof. unfold cal_event, cal_step, hif_write, raise_msi. keeps_tac. Qed.
#[local] Hint Resolve cal_event_depth : keeps.
Lemma cal_loop_depth n i : keeps depth (cal_loop n i).
Proof. induction n as [|n IH]; cbn [cal_loop]; keeps_tac. Qed.
#[local] Hint Resolve cal_loop_depth : keeps.
Lemma cal_req_depth i c : keeps depth (hsdcs_raise_modem_cal_req i c).
Proof. unfold hsdcs_raise_modem_cal_req, hif_write, raise_msi. keeps_tac. Qed.
#[local] Hint Resolve cal_req_depth : keeps.

(** The modem is there and the lock is held [k] times. *)
Definition locked (i : nat) (k : Z) (w : W) : Prop := ready i w ∧ rcu_depth (globals w) = k.
Lemma locked_total {A} i k (m : M W A) : stays (ready i) m → keeps depth m → stays (locked i k) m.
Proof.
  intros Ht Hk w [Hw Hs]. specialize (Ht w Hw). destruct (m w) as [[a w']|] eqn:E1; [|done].
  split; [done|]. by rewrite (Hk _ _ _ E1).
Qed.

Lemma get_dev_total i : stays (ready i) (get_dev i).
Proof. intros w (d & Hd & Hr). unfold get_dev. rewrite Hd. by exists d. Qed.
#[local] Hint Resolve get_dev_total : stays.
Lemma checks_total i t : stays (ready i) (check_full i t) ∧ stays (ready i) (check_inc i t).
Proof. unfold check_full, check_inc, get_globals. split; stays_tac. Qed.
Lemma checks_depth i t : keeps depth (check_full i t) ∧ keeps depth (check_inc i t).
Proof. unfold check_full, check_inc, get_globals. split; keeps_tac. Qed.

(** The temperature can always be had, or never. *)
Definition temp_is (good : bool) (i : nat) : Prop :=
  ∀ e, ∃ rc t e', d_temp i e = Some ((rc, t), e') ∧
    if good then 0 ≤ rc ∧ HSDCS_TEMP_THRESHOLD_LOW ≤ t ≤ HSDCS_TEMP_THRESHOLD_HIGH else rc < 0.

Lemma curr_temp_is good i k : temp_is good i → hoare False (locked i k) (hsdcs_get_curr_temperature i)
  (λ r w, (fst r <? 0) = negb good ∧ locked i k w).
Proof.
  intros Ht w Hw. unfold hsdcs_get_curr_temperature, temperature. rewrite M_bind_eq.
  destruct (Ht (denv w)) as (rc & t & e & -> & Hg). destruct good.
  - destruct Hg as [Hrc Hrange]. rewrite decide_False by lia. cbn. split; [|done].
    rewrite decide_False by lia. done.
  - rewrite decide_True by done. by split.
Qed.

Lemma write_comp_is good i k : temp_is good i → stays (locked i k) (hsdcs_write_temp_compensation i).
Proof.
  intros Ht. unfold hsdcs_write_temp_compensation.
  apply stays_bind; [apply locked_total; [stays_tac|keeps_tac]|intros ?].
  apply stays_bind; [apply locked_total; [stays_tac|keeps_tac]|intros v].
  eapply hoare_bind; [by apply (curr_temp_is good)|]. intros [rc t]. cbn [fst]. apply hoare_pre. intros Hg.
  destruct (decide (rc < 0)); [apply stays_ret|].
  apply locked_total; [stays_tac|keeps_tac].
Qed.

(** The part under the lock, and the unlock. *)
Lemma unlock_locked i k : hoare False (locked i (k + 1)) rcu_read_unlock (λ _, locked i k).
Proof. intros w [Hr Hk]. unfold rcu_read_unlock. cbn. split; [done|]. cbn. lia. Qed.

Lemma tmon_run good i k : temp_is good i →
  hoare False (λ w, nth i (dev_list w) false = true ∧ locked i k w) (tmon_modem i true)
    (λ _, locked i (k + if good then 0 else 1)).
Proof.
  intros Ht. unfold tmon_modem.
  eapply (hoare_bind _ (λ _ w, nth i (dev_list w) false = true ∧ locked i (k + 1) w)).
  { intros w (Hl & Hr & Hk). cbn. split; [done|]. split; [done|]. cbn. lia. }
  intros ?. eapply hoare_bind; [apply hoare_gets|]. intros listed.
  eapply hoare_bind; [apply hoare_gets|]. intros p w (Hp & Hl & Hlist & Hw).
  assert (Hd : ∃ d, p = Dev d).
  { destruct Hw as [(d & Hd & _) _]. exists d. rewrite Hp. by apply nth_lookup_Some with (d := NoDev) in Hd. }
  destruct Hd as [d ->]. rewrite Hlist in Hl. rewrite Hl. cbn [negb orb]. revert w Hw Hp Hlist Hl.
  cut (hoare False (locked i (k + 1))
    (_ ← hsdcs_write_temp_compensation i; '(rc, t) ← hsdcs_get_curr_temperature i;
     if decide (rc < 0) then mret tt else
     _ ← on_dev i (set_current t); _ ← check_full i t; _ ← check_inc i t; rcu_read_unlock)
    (λ _, locked i (k + if good then 0 else 1))).
  { intros Hc w Hw _ _ _. by apply (Hc w). }
  eapply hoare_bind; [by apply (write_comp_is good)|]. intros ?.
  eapply hoare_bind; [by apply (curr_temp_is good)|]. intros [rc t]. cbn [fst]. apply hoare_pre. intros Hg.
  destruct good; cbn [negb] in Hg.
  - apply Z.ltb_ge in Hg. rewrite decide_False by lia.
    eapply hoare_bind; [apply locked_total; [stays_tac|keeps_tac]|]. intros ?.
    eapply hoare_bind; [apply locked_total; [apply checks_total|apply checks_depth]|]. intros ?.
    eapply hoare_bind; [apply locked_total; [apply checks_total|apply checks_depth]|]. intros ?.
    replace (k + 0) with k by lia. apply unlock_locked.
  - apply Z.ltb_lt in Hg. rewrite decide_True by lia. intros w Hw. exact Hw.
Qed.

(** the check of a modem by the thread always ends, recalibrations included.
    It gives back the lock it takes when the temperature can be had, and keeps it
    for ever when not. *)
Theorem tmon_lock good i w : temp_is good i → ready i w → nth i (dev_list w) false = true →
  ∃ w', tmon_modem i true w = Some (tt, w') ∧ ready i w' ∧
    rcu_depth (globals w') = rcu_depth (globals w) + if good then 0 else 1.
Proof.
  intros Ht Hr Hl. assert (Hw := tmon_run good i (rcu_depth (globals w)) Ht w (conj Hl (conj Hr eq_refl))).
  destruct (tmon_modem i true w) as [[[] w']|]; [|done]. exists w'. split; [done|exact Hw].
Qed.

End Thread.
End DcsCorrect.

(** ** Witnesses *)

(** A modem whose registers and shared words are memory, apart from the firmware's
    answers: both bits of the handshake are always set. *)
Definition demo_regs : Type := nat → Z → Z.
#[export] Instance demo_dcs : DcsEnv demo_regs := {|
  d_readl i a e := (if decide (a = dcs_mailbox_reg0_resp) then 0x11 else u32 (e i a), e);
  d_writel i a v e := λ j b, if decide (i = j ∧ a = b) then v else e j b;
  d_hif_read i f e := (0, e); d_hif_write i f v e := e; d_ready i r e := e; d_msi i e := e;
  d_temp i e := Some ((0, 45), e); d_alloc e := (true, e) |}.
#[export, refine] Instance demo_mem : DcsMem demo_regs := {|
  peek e i a := u32 (e i a); plain a := a ≠ dcs_mailbox_reg0_resp |}.
Proof.
  - intros e i a _. apply Z.mod_pos_bound. lia.
  - intros e i a Ha. cbn. by rewrite decide_False.
  - done.
  - intros e i a v Ha Hv. cbn. rewrite decide_True by done. by apply Z.mod_small.
  - intros e i a v j b _ Hn. cbn. rewrite decide_False; [done|]. by intros [-> ->].
Defined.
Definition demo_dcs_if : DcsIf := {|
  HSDCS_SPS_983 := 983; HSDCS_SPS_1966 := 1966; LS_DAC_SPS_491 := 491; LS_DAC_SPS_245 := 245; LS_DAC_SPS_122 := 122;
  LS_DAC_SPS_61 := 61; LS_ADC_SPS_245 := 245; LS_ADC_SPS_122 := 122; LS_ADC_SPS_61 := 61; GUL_MSI_MAX_CNT := 8;
  HSADC_EVENT_RECAL_REQUESTED_ANT0 := 1; HSADC_EVENT_RECAL_REQUESTED_ANT1 := 2;
  HSADC_EVENT_RECAL_REQUESTED_ANT0_1 := 3; HSADC_EVENT_RECAL_FAILED_ANT0 := 4;
  HSADC_EVENT_RECAL_FAILED_ANT1 := 5; HSADC_EVENT_RECAL_FAILED_ANT0_1 := 6;
  HSADC_EVENT_RECAL_REQ_ACK_ANT0 := 7; HSADC_EVENT_RECAL_REQ_ACK_ANT1 := 8;
  HSADC_EVENT_RECAL_REQ_ACK_ANT0_1 := 9; HSADC_EVENT_RECAL_REQ_DENIED := 10;
  HSADC_EVENT_RECAL_COMPLETED := 11; HSADC_EVENT_RECAL_COMPLETED2 := 12 |}.
Definition demo_dcsw (e : demo_regs) : dcsw demo_regs :=
  Dcsw e (DcsGlobals 0 0 0xf 0xf 0 1 0) [Dev (set_regs (set_enabled 1 1 dcs_0))] [] [true] [false] [true].
(** Low power on for one converter only. *)
Definition half_low : demo_regs := λ i a, if decide (a = HSADC0_LOW_PWR_TBGEN2_CTRL) then 0x1100 else 0.

Lemma recal_restores_witness : ∃ ret w', hsdcs_adc_full_recal 0 (demo_dcsw half_low) = Some (ret, w') ∧
  ready 0 w' ∧ tdd 0 w' = (0x1100, 0).
Proof.
  refine (recal_restores (E := demo_regs) 0 _ _ (hsdcs_adc_full_recal 0) (demo_dcsw half_low) _ _);
    [by intros ?|by intros ?|by left|by eexists].
Defined.

Lemma temp_comp_written_witness : ∃ w', hsdcs_write_temp_compensation 0 (demo_dcsw half_low) = Some (tt, w') ∧
  let v := peek (denv w') 0 dcs_mailbox_reg2 in
  Z.land (Z.shiftr v HSADC_TEMP_COMP_BIT_POS) 511 = 45 + HSADC_TEMP_CONV_KELVIN ∧
  Z.land v HSADC_TEMP_COMP_READ_MASK = Z.land (peek half_low 0 dcs_mailbox_reg2) HSADC_TEMP_COMP_READ_MASK.
Proof.
  eapply (temp_comp_written 0 (demo_dcsw half_low) 0 45); [by intros ?|by eexists|reflexivity|lia|].
  unfold HSDCS_TEMP_THRESHOLD_LOW, HSDCS_TEMP_THRESHOLD_HIGH. lia.
Defined.

Lemma tmon_lock_witness : ∃ w', @tmon_modem demo_dcs_if demo_regs demo_dcs 0 true (demo_dcsw half_low) = Some (tt, w') ∧
  ready 0 w' ∧ rcu_depth (globals w') = 0.
Proof.
  apply (tmon_lock true 0 (demo_dcsw half_low)); [|by eexists|reflexivity].
  intros e. exists 0, 45, e. split; [reflexivity|]. unfold HSDCS_TEMP_THRESHOLD_LOW, HSDCS_TEMP_THRESHOLD_HIGH. lia.
Defined.

(** A board of the first revision with both converters, and one whose clock is
    dead. *)
Definition demo_opts (a : bool) : dcs_opts :=
  DcsOpts a (negb a) false (Ascii.Ascii true false false false false false true false) true true 3 3 1966 491 245 false 15 15 false false.
Lemma reva_both_never_calibrates_witness :
  hoare True (λ _, True) (@hsdcs_init_adc demo_regs demo_dcs (demo_opts true) 0) (λ r _, r ≠ 0).
Proof. apply (reva_both_never_calibrates (demo_opts true) 0); reflexivity. Defined.

Definition dead_dcs : DcsEnv unit := {|
  d_readl i a e := (0, e); d_writel i a v e := e; d_hif_read i f e := (0, e); d_hif_write i f v e := e;
  d_ready i r e := e; d_msi i e := e; d_temp i e := Some ((0, 45), e); d_alloc e := (true, e) |}.
Definition dead_dcsw : dcsw unit :=
  Dcsw tt (DcsGlobals 0 0 0 0 0 0 0) [NoDev] [] [false] [false] [false].
#[local] Instance demo_dcs_scratch_if : ScratchIf := {|
  PAGE_SHIFT := 12; GUL_EP_CORE_MAX := 8; GUL_SCRATCH_DMA_BUF_END_ADDR := 0xE0000000;
  PCI_OUTBOUND_WINDOW_BASE_ADDR := 0xA0000000; GUL_OB_WIN_SCRATCH_BUF := 3 |}.
Definition demo_dcs_files : files := Files (λ n, -2) (λ n, inl (-2)).
Lemma failed_dcs_probe_frees_twice_witness : ∃ w',
  @dcs_probe demo_dcs_scratch_if demo_dcs_if unit dead_dcs (demo_opts false) demo_dcs_files 0 dead_dcsw = Some (- ECANCELED, w') ∧
  @dcs_remove unit (demo_opts false) 0 w' = None.
Proof.
  apply (@failed_dcs_probe_frees_twice demo_dcs_scratch_if demo_dcs_if unit dead_dcs (demo_opts false) demo_dcs_files 0 dead_dcsw);
    [unfold MAX_MODEM; lia|cbn; lia|reflexivity|intros e; reflexivity].
Defined.
