(* ===== verification/GulText.v ===== *)
(** * Text as the drivers print it

    The conversions of [sprintf] that the drivers use, on strings; a page of text is
    the list of its bytes. *)
From stdpp Require Export strings pretty.
From S2P Require Import Prelude.
#[global] Open Scope Z_scope.

(** The end of a line. *)
Definition nl : string := String (Ascii.ascii_of_nat 10) "".
Definition line (s : string) : string := s +:+ nl.

(** [%d] and [%u] of a value in range. *)
Definition dec (x : Z) : string := pretty x.

(** [%x]: the digits from the last one on, and the whole. *)
Definition hex_digit (x : Z) : Ascii.ascii :=
  Ascii.ascii_of_N (Z.to_N (if decide (x < 10) then 48 + x else 87 + x)).
Fixpoint hex_go (n : nat) (x : Z) (acc : string) : string :=
  match n with
  | O => acc
  | S n => let acc := String (hex_digit (x mod 16)) acc in if decide (x / 16 = 0) then acc else hex_go n (x / 16) acc
  end.
Definition hex (x : Z) : string := hex_go 16 x "".

(** [%10u] and [%-64s]: blanks before and behind. *)
Fixpoint blanks (n : nat) : string := match n with O => "" | S n => String (Ascii.ascii_of_nat 32) (blanks n) end.
Definition pad_left (n : nat) (s : string) : string := blanks (n - String.length s) +:+ s.
Definition pad_right (n : nat) (s : string) : string := s +:+ blanks (n - String.length s).

Definition concat_text (l : list string) : string := foldr String.append "" l.
Fixpoint bytes_of (s : string) : list Z :=
  match s with EmptyString => [] | String a s => Z.of_N (Ascii.N_of_ascii a) :: bytes_of s end.

(** [return sprintf(buf, ...)]: the length, and the page. *)
Definition sprintf (s : string) : Z * list Z := (zlen (bytes_of s), bytes_of s).

(** ** Lengths *)
Definition text_len (s : string) : Z := Z.of_nat (String.length s).

Lemma length_append (s t : string) : String.length (s +:+ t) = (String.length s + String.length t)%nat.
Proof.
  induction s as [|a s IH]; [done|]. change (S (String.length (s +:+ t)) = S (String.length s + String.length t)). by rewrite IH.
Qed.
Lemma append_nil (s : string) : s +:+ "" = s.
Proof. induction s as [|a s IH]; [done|]. change (String a (s +:+ "") = String a s). by rewrite IH. Qed.
Lemma text_len_append s t : text_len (s +:+ t) = (text_len s + text_len t)%Z.
Proof. unfold text_len. rewrite length_append. lia. Qed.
Lemma text_len_nonneg s : (0 ≤ text_len s)%Z.
Proof. unfold text_len. lia. Qed.
Lemma append_assoc (s t u : string) : (s +:+ t) +:+ u = s +:+ (t +:+ u).
Proof. induction s as [|a s IH]; [done|]. change (String a ((s +:+ t) +:+ u) = String a (s +:+ (t +:+ u))). by rewrite IH. Qed.
Lemma bytes_of_length s : length (bytes_of s) = String.length s.
Proof. induction s; cbn; congruence. Qed.
Lemma text_len_line s : text_len (line s) = text_len s + 1.
Proof. unfold line. by rewrite text_len_append. Qed.
Lemma text_len_left s t : text_len s ≤ text_len (s +:+ t).
Proof. rewrite text_len_append. assert (H := text_len_nonneg t). lia. Qed.
Lemma text_len_right s t : text_len t ≤ text_len (s +:+ t).
Proof. rewrite text_len_append. assert (H := text_len_nonneg s). lia. Qed.
