(* ===== verification/GulLog.v ===== *)
(** * The modem's log and the statistics device

    kernel_driver/yami/gul_sysfs.c has the log of each core of the modem: a ring of
    bytes in shared memory, which the modem fills with text and the host empties,
    zero marking a free byte.  gul_stats.c has a character device whose reads
    deliver the text of the registered sub-drivers piece by piece. *)
From S2P Require Import Prelude GulMsi.
#[global] Open Scope Z_scope.

(** ** The ring *)
Definition GUL_CORE_LOG_BUF_SIZE : nat := 4096.
Definition PAGE_BYTES : nat := 4096.

(** The bytes, as many as [len], and the place of the next byte to read. *)
Record ep_log := EpLog { log_buf : list Z; log_offset : nat }.
Definition log_len (l : ep_log) : nat := length (log_buf l).

(** The text at the start of [s]: [strnlen] is its length. *)
Fixpoint text_of (s : list Z) : list Z :=
  match s with [] => [] | x :: s => if decide (x = 0) then [] else x :: text_of s end.
(** [memset_io(buf + at_, 0, n)]. *)
Definition zero_at (at_ n : nat) (b : list Z) : list Z := take at_ b ++ replicate n 0 ++ drop (at_ + n) b.
Definition wrap_offset (len o : nat) : nat := if decide (len ≤ o)%nat then 0%nat else o.

Definition gul_collect_ep_log (l : ep_log) : list Z * ep_log :=
  let b := log_buf l in
  let max_len := (log_len l - log_offset l)%nat in
  let s := text_of (drop (log_offset l) b) in
  if decide (length s = 0%nat) then ([], l) else
  let b := zero_at (log_offset l) (length s) b in
  let offset := wrap_offset (log_len l) (log_offset l + length s) in
  if decide (max_len = length s) then
    let s2 := text_of b in
    (s ++ s2, EpLog (zero_at 0 (length s2) b) (wrap_offset (log_len l) (length s2)))
  else (s, EpLog b offset).

(** A text written to the start of the page: what was there stays behind it. *)
Definition over (text page : list Z) : list Z := text ++ drop (length text) page.

(** Nothing at the offset: every other place is tried, each text over the last.  The
    page and the length of the last text. *)
Fixpoint rescan (n i : nat) (l : ep_log) (page : list Z) (log_len : nat) : list Z * nat * ep_log :=
  match n with
  | O => (page, log_len, l)
  | S n =>
      if decide (nth i (log_buf l) 0 = 0) then rescan n (S i) l page log_len
      else
        let '(text, l) := gul_collect_ep_log (EpLog (log_buf l) i) in
        rescan n (S i) l (over text page) (length text)
  end.

(** The length returned, with the page. *)
Definition show_ep_log (l : ep_log) : (list Z * nat) * ep_log :=
  let '(text, l) := gul_collect_ep_log l in
  let '(page, n, l) :=
    if decide (length text = 0%nat) then rescan (log_len l) 0 l [] 0 else (text, length text, l) in
  ((page, if decide (PAGE_BYTES ≤ n)%nat then (n - 1)%nat else n), l).

(** The reset of any core's log empties the log of core 0. *)
Definition reset_ep_log (logs : list ep_log) (core_id : nat) (val : option Z) : list ep_log :=
  match val with
  | Some v =>
      if decide (v = 0) then
        match logs !! 0%nat with
        | Some l => <[0%nat := EpLog (replicate (log_len l) 0) 0]> logs
        | None => logs
        end
      else logs
  | None => logs
  end.

(** ** The statistics device *)
Definition GUL_LOG_BUF_SIZE : nat := 32 * 1024.

(** What a sub-driver registers: the text it shows, and the reset of its counters. *)
Record stats_ops (S : Type) := StatsOps { gul_show_stats : S → list Z; gul_reset_stats : S → S }.
Arguments StatsOps {S} _ _.
Arguments gul_show_stats {S} _ _.
Arguments gul_reset_stats {S} _ _.

(** The text that was collected, how much of it the reader has, and whether a
    reading is under way. *)
Record stats_desc := StatsDesc { st_log : list Z; copied_len : nat; st_status : Z }.

Section Stats.
Context {S : Type}.

Definition gul_host_add_stats (mem : bool) (ops : option (stats_ops S)) (l : list (stats_ops S)) : Z * list (stats_ops S) :=
  match ops with
  | None => (- EINVAL, l)
  | Some ops => if mem then (0, l ++ [ops]) else (- ENOMEM, l)
  end.

(** The texts of the sub-drivers, one after the other: the room is checked before
    each of them, and one that does not fit is written past the buffer. *)
Fixpoint gul_stats_collect (l : list (stats_ops S)) (st : S) (stats_len : nat) : option (list Z) :=
  match l with
  | [] => Some []
  | ops :: l =>
      if decide (GUL_LOG_BUF_SIZE < stats_len)%nat then Some [] else
      let text := gul_show_stats ops st in
      if decide (GUL_LOG_BUF_SIZE < stats_len + length text)%nat then None else
      rest ← gul_stats_collect l st (stats_len + length text); Some (text ++ rest)
  end.

Definition gul_stats_reset (l : list (stats_ops S)) (st : S) : S := foldl (λ st ops, gul_reset_stats ops st) st l.
(** Whatever was written, and however much: the result is 0. *)
Definition gul_stats_write (l : list (stats_ops S)) (st : S) : Z * S := (0, gul_stats_reset l st).

(** One read of [size] bytes: the result, and what the caller's buffer has;
    [room]: the bytes of it that can be written. *)
Definition gul_stats_read (l : list (stats_ops S)) (st : S) (room size : nat) (sd : stats_desc)
    : option ((Z * list Z) * stats_desc) :=
  sd ← (if decide (st_status sd = 0) then
          log ← gul_stats_collect l st 0; Some (StatsDesc log 0 1)
        else Some sd);
  let want := take size (drop (copied_len sd) (st_log sd)) in
  if decide (room < length want)%nat then
    Some ((- EFAULT, take room want), StatsDesc (st_log sd) (copied_len sd + room) (st_status sd))
  else
    Some ((zlen want, want),
      StatsDesc (st_log sd) (copied_len sd + length want) (if decide (length want = 0%nat) then 0 else st_status sd)).

End Stats.

(** *** The device *)

(** What the driver holds of the kernel; [gul_del_stats_list] and the exit act on
    the list and the text as well. *)
Record stats_held := StatsHeld { s_region : bool; s_device : bool; s_cdev : bool; s_log_buf : bool; s_list : bool }.
Record stats_kernel := StatsKernel { k_region : Z; k_device : bool; k_cdev : Z; k_log_buf : bool }.
Definition no_stats : stats_held := StatsHeld false false false false false.

Definition gul_stats_init (k : stats_kernel) : Z * stats_held :=
  if decide (k_region k < 0) then (k_region k, no_stats) else
  (* the result of device_create is overwritten *)
  if decide (k_cdev k ≠ 0) then (k_cdev k, StatsHeld false (k_device k) false false false) else
  if negb (k_log_buf k) then (k_cdev k, no_stats) else
  (k_cdev k, StatsHeld true (k_device k) true true true).

(** [None]: a list that was never made is walked, or something is given back that
    is not held. *)
Definition gul_stats_exit (h : stats_held) : option stats_held :=
  if s_list h && s_cdev h && s_region h then Some no_stats else None.
