(* ===== verification/GulLogCorrect.v ===== *)
(** * The modem's log and the statistics device: theorems *)
From S2P Require Import Prelude GulMsi GulLog.
#[global] Open Scope Z_scope.

(** ** Text *)
Lemma text_prefix s : ∃ r, s = text_of s ++ r.
Proof.
  induction s as [|x s (r & IH)]; [by exists []|]. cbn [text_of]. destruct (decide (x = 0)) as [-> |Hx].
  - by exists (0 :: s).
  - exists r. cbn [app]. by f_equal.
Qed.
Lemma text_app a c : text_of (a ++ c) = if decide (length (text_of a) = length a) then a ++ text_of c else text_of a.
Proof.
  induction a as [|x a IH]; [done|]. cbn [app text_of]. destruct (decide (x = 0)).
  - by rewrite decide_False by (cbn; lia).
  - rewrite IH. cbn [length]. destruct (decide (length (text_of a) = length a)).
    + by rewrite decide_True by lia.
    + by rewrite decide_False by lia.
Qed.
Lemma text_nonzero s : Forall (λ x, x ≠ 0) (text_of s).
Proof. induction s as [|x s IH]; cbn [text_of]; [done|]. case_decide; [done|by constructor]. Qed.
Lemma text_id q : Forall (λ x, x ≠ 0) q → text_of q = q.
Proof. induction 1 as [|x q Hx _ IH]; [done|]. cbn [text_of]. by rewrite decide_False, IH by done. Qed.
Lemma text_zeros n : text_of (replicate n 0) = [].
Proof. by destruct n. Qed.
Lemma text_length s : (length (text_of s) ≤ length s)%nat.
Proof. destruct (text_prefix s) as (r & Hs). rewrite Hs at 2. rewrite length_app. lia. Qed.
Lemma text_full s : length (text_of s) = length s → text_of s = s.
Proof.
  destruct (text_prefix s) as (r & Hs). intros Hl. rewrite Hs in Hl at 2. rewrite length_app in Hl.
  assert (r = []) as -> by (apply length_zero_iff_nil; lia). by rewrite Hs at 2; rewrite app_nil_r.
Qed.
Lemma text_queue q n : Forall (λ x, x ≠ 0) q → text_of (q ++ replicate n 0) = q.
Proof. intros Hq. by rewrite text_app, (text_id q) by done; rewrite decide_True, text_zeros, app_nil_r by done. Qed.

(** ** The ring from its offset on *)
Definition ring (l : ep_log) : list Z := drop (log_offset l) (log_buf l) ++ take (log_offset l) (log_buf l).
Definition log_wf (l : ep_log) : Prop := (log_offset l < log_len l)%nat.

Lemma ring_length l : length (ring l) = log_len l.
Proof. unfold ring, log_len. rewrite length_app, length_drop, length_take. lia. Qed.

(** The text read is the text of the ring from the offset on, it is cleared, and the
    offset is behind it. *)
Lemma collect_ring l t l' : log_wf l → gul_collect_ep_log l = (t, l') →
  t = text_of (ring l) ∧ log_len l' = log_len l ∧ log_offset l' = ((log_offset l + length t) mod log_len l)%nat ∧
  drop (log_offset l) (log_buf l') ++ take (log_offset l) (log_buf l') =
    replicate (length t) 0 ++ drop (length t) (ring l).
Proof.
  destruct l as [b off]. unfold log_wf, ring, gul_collect_ep_log, log_len. cbn [log_buf log_offset]. intros Hoff.
  set (a := drop off b). set (c := take off b). assert (Ha : length a = (length b - off)%nat) by apply length_drop.
  assert (Hc : length c = off) by (unfold c; rewrite length_take; lia).
  assert (Hb : b = c ++ a) by (unfold a, c; by rewrite take_drop).
  destruct (decide (length (text_of a) = 0%nat)) as [Hz|Hz].
  { intros [= <- <-]. cbn [log_buf log_offset length]. rewrite text_app, decide_False by lia.
    apply length_zero_iff_nil in Hz. split; [done|]. split; [done|].
    split; [rewrite Nat.add_0_r; by rewrite Nat.mod_small by lia|]. done. }
  assert (Hz1 : zero_at off (length (text_of a)) b = c ++ replicate (length (text_of a)) 0 ++ drop (length (text_of a)) a).
  { unfold zero_at. fold c. do 2 f_equal. unfold a. by rewrite drop_drop. }
  rewrite Hz1. destruct (decide (length b - off = length (text_of a))%nat) as [Hm|Hm]; intros [= <- <-]; cbn [log_buf log_offset].
  - assert (Hfull : text_of a = a) by (apply text_full; lia). rewrite Hfull. rewrite (drop_ge a) by done. rewrite app_nil_r.
    set (z := replicate (length a) 0).
    assert (Hs2 : text_of (c ++ z) = text_of c).
    { rewrite text_app. case_decide as Hd; [|done]. unfold z. rewrite text_zeros, app_nil_r. symmetry. by apply text_full. }
    rewrite Hs2. assert (Hn2 := text_length c).
    assert (Hrot : zero_at 0 (length (text_of c)) (c ++ z) =
              (replicate (length (text_of c)) 0 ++ drop (length (text_of c)) c) ++ z).
    { unfold zero_at. rewrite take_0. cbn [app Nat.add]. rewrite <- app_assoc. f_equal. by rewrite drop_app_le by lia. }
    rewrite Hrot. assert (Hl : length (replicate (length (text_of c)) 0 ++ drop (length (text_of c)) c) = off)
      by (rewrite length_app, length_replicate, length_drop; lia).
    split; [rewrite text_app, Hfull; by rewrite decide_True by done|].
    split; [rewrite length_app, Hl; unfold z; rewrite length_replicate; lia|].
    split; [unfold wrap_offset; rewrite decide_False by lia; rewrite length_app;
      replace (off + (length a + length (text_of c)))%nat with (length (text_of c) + 1 * length b)%nat by lia;
      rewrite Nat.Div0.mod_add; by rewrite Nat.mod_small by lia|].
    rewrite drop_app_length' by done. rewrite take_app_length' by done. rewrite length_app, replicate_add, <- app_assoc.
    unfold z. do 2 f_equal.
    rewrite drop_app_ge by lia. f_equal. lia.
  - assert (Hn := text_length a). assert (Hlt : length (text_of a) ≠ length a) by lia.
    rewrite text_app, decide_False by done. split; [done|].
    split; [rewrite !length_app, length_replicate, length_drop; lia|].
    split; [unfold wrap_offset; rewrite decide_False by lia; by rewrite Nat.mod_small by lia|].
    rewrite drop_app_length' by done. rewrite take_app_length' by done. rewrite <- app_assoc. f_equal.
    by rewrite drop_app_le by lia.
Qed.

(** ** The ring as a queue *)

(** [q] is the text that waits, in a ring that is clear behind it. *)
Definition queued (l : ep_log) (q : list Z) : Prop :=
  log_wf l ∧ Forall (λ x, x ≠ 0) q ∧ (length q < log_len l)%nat ∧ ring l = q ++ replicate (log_len l - length q) 0.

Lemma queued_text l q : queued l q → text_of (ring l) = q.
Proof. intros (_ & Hq & _ & ->). by apply text_queue. Qed.
Lemma zero_ring off (b : list Z) o : drop off b ++ take off b = replicate (length b) 0 →
  drop o b ++ take o b = replicate (length b) 0.
Proof.
  intros Hz. assert (Hb : Forall (λ x, x = 0) b).
  { rewrite <- (take_drop off b). assert (Hall : Forall (λ x, x = 0) (drop off b ++ take off b))
      by (rewrite Hz; by apply Forall_replicate). apply Forall_app in Hall. apply Forall_app. tauto. }
  symmetry. apply replicate_as_elem_of. split; [rewrite length_app, length_drop, length_take; lia|].
  rewrite Forall_forall in Hb. intros x Hx. apply Hb. rewrite <- (take_drop o b). set_solver.
Qed.

(** A read takes all that waits. *)
Lemma collect_queued l q : queued l q → ∃ l', gul_collect_ep_log l = (q, l') ∧ queued l' [] ∧ log_len l' = log_len l.
Proof.
  intros Hl. assert (Hl' := Hl). destruct Hl as (Hwf & Hq & Hlen & Hring).
  destruct (gul_collect_ep_log l) as [t l'] eqn:E.
  destruct (collect_ring l t l' Hwf E) as (-> & L & O & R). rewrite (queued_text l q Hl') in *. exists l'.
  split; [done|]. split; [|done]. rewrite Hring, drop_app_length, <- replicate_add in R.
  replace (length q + (log_len l - length q))%nat with (log_len l) in R by lia. rewrite <- L in R.
  assert (log_wf l') by (unfold log_wf; rewrite O, L; apply Nat.mod_upper_bound; unfold log_wf in Hwf; lia).
  split; [done|]. split; [done|]. split; [unfold log_wf in *; cbn [length]; lia|]. cbn [app length]. rewrite Nat.sub_0_r.
  apply zero_ring with (log_offset l). exact R.
Qed.

Lemma rescan_clear n i l page k : Forall (λ x, x = 0) (log_buf l) → rescan n i l page k = (page, k, l).
Proof.
  intros Hb. revert i. induction n as [|n IH]; intros i; cbn [rescan]; [done|].
  rewrite decide_True; [apply IH|]. rewrite nth_lookup. destruct (log_buf l !! i) eqn:E; [|done].
  by apply (Forall_lookup_1 _ _ _ _ Hb E).
Qed.
Lemma queued_clear l : queued l [] → Forall (λ x, x = 0) (log_buf l).
Proof.
  intros (_ & _ & _ & R). cbn [app length] in R. unfold ring in R.
  rewrite <- (take_drop (log_offset l) (log_buf l)). apply Forall_app.
  assert (Hall : Forall (λ x, x = 0) (replicate (log_len l - 0) 0)) by (by apply Forall_replicate).
  rewrite <- R in Hall. apply Forall_app in Hall. tauto.
Qed.
Lemma show_queued l q : queued l q → (log_len l ≤ PAGE_BYTES)%nat →
  ∃ l', show_ep_log l = ((q, length q), l') ∧ queued l' [] ∧ log_len l' = log_len l.
Proof.
  intros Hl Hp. destruct (collect_queued l q Hl) as (l' & E & Hl' & L). exists l'. split; [|done].
  unfold show_ep_log. rewrite E. assert (Hn : (length q < log_len l)%nat) by apply Hl.
  destruct (decide (length q = 0%nat)) as [Hz|Hz]; [|by rewrite decide_False by lia].
  apply length_zero_iff_nil in Hz as ->. rewrite rescan_clear; [done|].
  by apply queued_clear.
Qed.

(** The modem adds text behind what waits, where there is room; a read of the file
    shows the text of the ring.  With them go all that was written, and all that
    was shown. *)
Inductive log_step : ep_log * list Z * list Z → ep_log * list Z * list Z → Prop :=
| step_write l w s t l' :
    log_offset l' = log_offset l → log_len l' = log_len l → Forall (λ x, x ≠ 0) t →
    (length (text_of (ring l) ++ t) < log_len l)%nat →
    ring l' = (text_of (ring l) ++ t) ++ replicate (log_len l - length (text_of (ring l) ++ t)) 0 →
    log_step (l, w, s) (l', w ++ t, s)
| step_show l w s page n l' :
    show_ep_log l = ((page, n), l') → log_step (l, w, s) (l', w, s ++ take n page).

(** C21: The log ring of a core. On a ring of any bytes whose offset is inside it, a
    collection returns the text (the bytes up to the first zero) that starts at the
    offset and goes on over the end of the ring, clears exactly these bytes and moves
    the offset behind them. Suppose further that the ring starts clear, is no longer
    than a page, and that the modem only appends text without zero bytes behind the text
    that waits, leaving at least one byte free (a protocol of the firmware that this
    code does not show). Then, through any such writes and any reads of the file, what
    was shown followed by what waits is what the modem wrote, and the next read shows
    all that waits and leaves the ring clear. Of a ring that holds anything else the
    file may show text over text ([rescan_shows_last]; finding gul_sysfs.c:169). *)
Theorem log_is_fifo :
  (∀ l t l', log_wf l → gul_collect_ep_log l = (t, l') →
     t = text_of (ring l) ∧ log_wf l' ∧ log_len l' = log_len l ∧
     log_offset l' = ((log_offset l + length t) mod log_len l)%nat ∧
     drop (log_offset l) (log_buf l') ++ take (log_offset l) (log_buf l') = replicate (length t) 0 ++ drop (length t) (ring l)) ∧
  (∀ n l w s, (0 < n ≤ PAGE_BYTES)%nat → rtc log_step (EpLog (replicate n 0) 0, [], []) (l, w, s) →
     w = s ++ text_of (ring l) ∧
     ∃ l', show_ep_log l = ((text_of (ring l), length (text_of (ring l))), l') ∧ ring l' = replicate n 0).
Proof.
  split.
  { intros l t l' Hwf E. destruct (collect_ring l t l' Hwf E) as (-> & L & O & R). split; [done|]. split; [|done].
    unfold log_wf in *. rewrite O, L. apply Nat.mod_upper_bound. lia. }
  intros n l w s Hn Hrun.
  assert (Hinv : log_len l = n ∧ ∃ q, queued l q ∧ w = s ++ q).
  { refine (rtc_invariant _ (λ '(l, w, s), log_len l = n ∧ ∃ q, queued l q ∧ w = s ++ q) _ _ Hrun _ _).
    2: { split; [by unfold log_len; cbn; rewrite length_replicate|]. exists []. split; [|done].
      unfold queued, log_wf, log_len, ring. cbn [log_buf log_offset length]. rewrite length_replicate, drop_0, take_0, app_nil_r.
      split; [lia|]. split; [done|]. split; [lia|]. by rewrite Nat.sub_0_r. }
    intros [[l1 w1] s1] [[l2 w2] s2] Hstep (Hl & q & Hq & ->). inversion Hstep; subst.
    - rewrite (queued_text _ _ Hq) in *. split; [lia|]. exists (q ++ t). split; [|by rewrite app_assoc].
        destruct Hq as (Hwf & Hnz & _). split; [unfold log_wf in *; lia|]. split; [by apply Forall_app|].
        split; [lia|]. by replace (log_len l2) with (log_len l1).
    - destruct (show_queued _ _ Hq) as (l' & E & Hq' & L); [lia|]. rewrite E in *. simplify_eq.
        split; [lia|]. exists []. split; [done|]. by rewrite firstn_all, app_nil_r. }
  destruct Hinv as (Hl & q & Hq & ->). rewrite (queued_text _ _ Hq). split; [done|].
  destruct (show_queued _ _ Hq) as (l' & E & Hq' & L); [lia|]. exists l'. split; [done|].
  destruct Hq' as (_ & _ & _ & ->). cbn [app length]. by rewrite Nat.sub_0_r, L, Hl.
Qed.

(** A ring of a page that is full shows all but its last byte, and is cleared. *)
Theorem full_log_cut l : log_wf l → log_len l = PAGE_BYTES → Forall (λ x, x ≠ 0) (ring l) →
  ∃ l', show_ep_log l = ((ring l, 4095%nat), l').
Proof.
  intros Hwf Hp Hnz. destruct (gul_collect_ep_log l) as [t l'] eqn:E.
  destruct (collect_ring l t l' Hwf E) as (-> & _). exists l'. unfold show_ep_log. rewrite E, (text_id _ Hnz), ring_length, Hp.
  by rewrite decide_False by (by unfold PAGE_BYTES).
Qed.

(** Two texts behind a free byte: the second is shown over the first, and both are
    cleared. *)
Example rescan_shows_last :
  show_ep_log (EpLog [0; 65; 66; 67; 0; 68; 0] 0) = (([68; 66; 67], 1%nat), EpLog (replicate 7 0) 6).
Proof. reflexivity. Qed.

(** ** The statistics *)
Section Stats.
Context {S : Type} (l : list (stats_ops S)) (st : S).

(** Reads of the device until one says 0, the [k]th of [sizes k] bytes. *)
Fixpoint cat (fuel k : nat) (sizes : nat → nat) (sd : stats_desc) : option (list Z * stats_desc) :=
  match fuel with
  | O => None
  | Datatypes.S fuel =>
      '((r, out), sd) ← gul_stats_read l st (sizes k) (sizes k) sd;
      if decide (r = 0) then Some ([], sd) else
      '(rest, sd) ← cat fuel (1 + k) sizes sd; Some (out ++ rest, sd)
  end.

Lemma cat_from fuel : ∀ k sizes log c, (∀ k, (0 < sizes k)%nat) → (length log - c < fuel)%nat →
  ∃ sd, cat fuel k sizes (StatsDesc log c 1) = Some (drop c log, sd) ∧ st_status sd = 0.
Proof.
  induction fuel as [|fuel IH]; intros k sizes log c Hs Hf; [lia|]. cbn [cat].
  unfold gul_stats_read. cbn [st_status st_log copied_len].
  rewrite (decide_False (P := 1 = 0)) by lia. cbn [mbind option_bind st_status st_log copied_len].
  set (want := take (sizes k) (drop c log)).
  assert (Hw : length want = (sizes k `min` (length log - c))%nat) by (unfold want; by rewrite length_take, length_drop).
  rewrite decide_False by lia. cbn [mbind option_bind]. assert (Hk := Hs k). unfold zlen.
  destruct (decide (length want = 0%nat)) as [Hz|Hz].
  - rewrite decide_True by lia. eexists. split; [by rewrite (drop_ge log) by lia|]. by cbn [st_status]; try rewrite decide_True by done.
  - rewrite decide_False by lia. destruct (IH (1 + k)%nat sizes log (c + length want)%nat Hs) as (sd & E & Hsd); [lia|].
    rewrite E. cbn [mbind option_bind]. exists sd. split; [|done]. do 2 f_equal.
    rewrite <- drop_drop. unfold want at 1. rewrite Hw.
    destruct (decide (sizes k ≤ length log - c)%nat).
    + rewrite Nat.min_l by lia. by rewrite take_drop.
    + rewrite Nat.min_r by lia. rewrite take_ge by (rewrite length_drop; lia).
      rewrite (drop_ge (drop c log)) by (rewrite length_drop; lia). by rewrite app_nil_r.
Qed.

(** C22: reading the statistics device to its end gives exactly the texts of the
    sub-drivers, in the order they were registered, in pieces of whatever sizes, and
    leaves it ready for the next reading, when the texts fit the buffer. *)
Theorem stats_cat fuel sizes sd : (∀ k, (0 < sizes k)%nat) → st_status sd = 0 →
  let log := concat ((λ ops, gul_show_stats ops st) <$> l) in
  (length log ≤ GUL_LOG_BUF_SIZE)%nat → (length log < fuel)%nat →
  ∃ sd', cat fuel 0 sizes sd = Some (log, sd') ∧ st_status sd' = 0.
Proof.
  intros Hs H0 log Hlog Hf.
  assert (Hc : gul_stats_collect l st 0 = Some log).
  { assert (Hgen : ∀ ops n, (n + length (concat ((λ ops, gul_show_stats ops st) <$> ops)) ≤ GUL_LOG_BUF_SIZE)%nat →
      gul_stats_collect ops st n = Some (concat ((λ ops, gul_show_stats ops st) <$> ops))).
    { induction ops as [|o ops IH]; intros n Hn; [done|]. cbn [gul_stats_collect fmap list_fmap concat] in *.
      rewrite length_app in Hn. rewrite decide_False by lia. rewrite decide_False by lia. by rewrite IH by lia. }
    apply Hgen. exact Hlog. }
  destruct fuel as [|fuel]; [lia|].
  destruct (cat_from (1 + fuel) 0 sizes log 0 Hs) as (sd' & E & Hsd); [lia|]. rewrite drop_0 in E.
  exists sd'. split; [|done]. rewrite <- E. cbn [cat Nat.add]. unfold gul_stats_read. rewrite H0, Hc. reflexivity.
Qed.
End Stats.

(** A text past the end of the buffer. *)
Theorem stats_overrun {S} (ops : stats_ops S) l st : (GUL_LOG_BUF_SIZE < length (gul_show_stats ops st))%nat →
  gul_stats_collect (ops :: l) st 0 = None.
Proof. intros Ho. cbn [gul_stats_collect]. rewrite decide_False by (unfold GUL_LOG_BUF_SIZE; lia). by rewrite decide_True by lia. Qed.

(** when the buffer of the statistics cannot be had, the driver says it is set up
    although it has given everything back, and the exit that follows walks a list
    that was never made. *)
Theorem stats_init_hides_failure k : 0 ≤ k_region k → k_cdev k = 0 → k_log_buf k = false →
  fst (gul_stats_init k) = 0 ∧ gul_stats_exit (snd (gul_stats_init k)) = None.
Proof. intros Hr Hc Hb. unfold gul_stats_init. rewrite decide_False, decide_False, Hb by lia. cbn. by rewrite Hc. Qed.

(** ** Witnesses *)
Lemma log_is_fifo_witness :
  let w := [65; 66; 67] in
  w = ([] ++ w) ∧ ∃ l', show_ep_log (EpLog [65; 66; 67; 0] 0) = ((w, 3%nat), l') ∧ ring l' = replicate 4 0.
Proof.
  apply (proj2 log_is_fifo 4%nat (EpLog [65; 66; 67; 0] 0) [65; 66; 67] []); [unfold PAGE_BYTES; lia|].
  apply rtc_once. apply (step_write (EpLog [0; 0; 0; 0] 0) [] [] [65; 66; 67]); try reflexivity.
  - repeat constructor; discriminate.
  - vm_compute. lia.
Defined.

Lemma stats_cat_witness : ∃ sd',
  cat [StatsOps (λ _ : unit, [65; 66]) id; StatsOps (λ _, [67]) id] tt 9 0 (λ _, 2%nat) (StatsDesc [] 0 0) = Some ([65; 66; 67], sd') ∧
  st_status sd' = 0.
Proof.
  apply (stats_cat [StatsOps (λ _ : unit, [65; 66]) id; StatsOps (λ _, [67]) id] tt 9 (λ _, 2%nat) (StatsDesc [] 0 0));
    [lia|reflexivity|unfold GUL_LOG_BUF_SIZE; cbn [concat fmap list_fmap gul_show_stats app length]; lia|cbn; lia].
Defined.

Lemma stats_init_hides_failure_witness :
  fst (gul_stats_init (StatsKernel 0 true 0 false)) = 0 ∧ gul_stats_exit (snd (gul_stats_init (StatsKernel 0 true 0 false))) = None.
Proof. apply (stats_init_hides_failure (StatsKernel 0 true 0 false)); [cbn; lia|reflexivity|reflexivity]. Defined.
