(* ===== verification/GulCli.v ===== *)
(** * The command-line device and its library
      (kernel_driver/yami/gul_cli.c, lib/cli/gul_cli_lib.c)

    One character device per modem: user space sends a message to the command line
    of the modem, waits for one, and prints the log of a core.  The instances of all
    modems are one structure, [g_cli_dev], and a request says which one it means.
    The calls of the kernel and their answers are a log; the answers are [CliCalls].
    A modem whose structure was freed is [Gone]: the driver keeps its pointer. *)
From S2P Require Import Prelude GulMsi GulPci GulLog.
#[global] Open Scope Z_scope.

(** ** Calls *)
Inductive cli_reg := MsgId | Data | Data2 | Data3.
Inductive cli_call :=
  | Core | RequestIrq (i : nat) (irq : Z) | FreeIrq (i : nat) (irq : Z) | Wake (i : nat)
  | FilesLookup (fd : Z) | EventfdGet (fd : Z) | EventfdPut (c : Z) | EventfdSignal (c : Z)
  | CopyFromUser | PutUser (r : cli_reg) | Schedule (i : nat)
  | MboxRead (i : nat) (r : cli_reg) | MboxWrite (i : nat) (r : cli_reg) (v : Z) | RaiseCliMsi (i : nat) | HifMsi (i : nat) (v : Z)
  | DmesgEmit (text : list Z) | TtyGet | TtyWrite (text : list Z) | TtyPut | PrInfo (text : list Z)
  | KmallocData (i : nat) | KfreeData (i : nat) | CdevAdd (i : nat) | CdevDel (i : nat)
  | DeviceCreate (i : nat) | DeviceDestroy (i : nat)
  | AllocChrdev | UnregisterChrdev | KmallocDev | KfreeDev | ClassCreate | ClassDestroy
  (* of user space *)
  | Open (modem : Z) | Eventfd | Close (fd : Z).
#[export] Instance cli_reg_eq : EqDecision cli_reg.
Proof. solve_decision. Defined.
#[export] Instance cli_call_eq : EqDecision cli_call.
Proof. solve_decision. Defined.

(** The answer to a call after those before it; the module parameter
    [cli_dmesg_on]. *)
Class CliCalls := { canswer : list (cli_call * Z) → cli_call → Z; cli_dmesg_on : bool }.

(** ** State *)

(** [struct cli] of the requests. *)
Record cli_mbox := Mbox { msg_id : Z; mdata : Z; mdata2 : Z; mdata3 : Z }.
Record cli := Cli { cli_id : Z; cli_core_id : Z; handle : Z; event_fd : Z; mbox : cli_mbox }.

(** [wq_ready]: the wait queue and its lock are initialised. *)
Record cli_priv_data := Priv {
  msi_index : Z; irq : Z; irq_flag : Z; pid : Z; wq_ready : bool; evt_fd_ctxt : option Z }.
Definition priv_0 : cli_priv_data := Priv 0 0 0 0 false None.

(** What an entry of [gul_dev] points to. *)
Inductive dev_ptr := DevNull | Live | Gone.
#[export] Instance dev_ptr_eq : EqDecision dev_ptr.
Proof. solve_decision. Defined.

Record cli_dev := CliDev { cli_priv_d : list cli_priv_data; gul_devs : list dev_ptr }.
Definition cli_dev_0 : cli_dev := CliDev (replicate MAX_MODEM priv_0) (replicate MAX_MODEM DevNull).

(** [g_cli_dev], [cli_dev_data_g], the field [cli_priv] of the modems, their
    interrupt lines and the logs of their cores, the static buffer of the log
    request, the calls. *)
Record cliw := Cliw {
  g_cli_dev : option cli_dev; cli_dev_data_g : list bool; cli_priv : list bool;
  msis : list (list irq_info); ep_logs : list (list ep_log); cli_buf : list Z; clog : list (cli_call * Z) }.

Section Cli.
Context `{CliCalls}.
Local Abbreviation W := (M cliw).

Definition set_cli (v : option cli_dev) (w : cliw) : cliw :=
  Cliw v (cli_dev_data_g w) (cli_priv w) (msis w) (ep_logs w) (cli_buf w) (clog w).
Definition set_data (v : list bool) (w : cliw) : cliw :=
  Cliw (g_cli_dev w) v (cli_priv w) (msis w) (ep_logs w) (cli_buf w) (clog w).
Definition set_devpriv (v : list bool) (w : cliw) : cliw :=
  Cliw (g_cli_dev w) (cli_dev_data_g w) v (msis w) (ep_logs w) (cli_buf w) (clog w).
Definition set_msis (v : list (list irq_info)) (w : cliw) : cliw :=
  Cliw (g_cli_dev w) (cli_dev_data_g w) (cli_priv w) v (ep_logs w) (cli_buf w) (clog w).
Definition set_logs (v : list (list ep_log)) (w : cliw) : cliw :=
  Cliw (g_cli_dev w) (cli_dev_data_g w) (cli_priv w) (msis w) v (cli_buf w) (clog w).
Definition set_buf (v : list Z) (w : cliw) : cliw :=
  Cliw (g_cli_dev w) (cli_dev_data_g w) (cli_priv w) (msis w) (ep_logs w) v (clog w).
Definition set_clog (v : list (cli_call * Z)) (w : cliw) : cliw :=
  Cliw (g_cli_dev w) (cli_dev_data_g w) (cli_priv w) (msis w) (ep_logs w) (cli_buf w) v.

Definition ccall (c : cli_call) : W Z := λ w,
  let r := canswer (clog w) c in Some (r, set_clog (clog w ++ [(c, r)]) w).
Definition ccall_ (c : cli_call) : W unit := _ ← ccall c; mret tt.

(** [&cli_dev->cli_priv_d[id]] and its update; undefined past the array. *)
Definition get_priv (i : nat) : W cli_priv_data := λ w,
  match g_cli_dev w ≫= λ d, cli_priv_d d !! i with Some p => Some (p, w) | None => None end.
Definition put_priv (i : nat) (p : cli_priv_data) : W unit :=
  modify (λ w, set_cli ((λ d, CliDev (<[i := p]> (cli_priv_d d)) (gul_devs d)) <$> g_cli_dev w) w).
(** An index the caller gave, as the C expression takes it. *)
Definition index (v : Z) : W nat := if decide (0 ≤ v) then mret (Z.to_nat v) else lift None.
(** The modem of an instance, through its pointer. *)
Definition use_dev (i : nat) : W unit := λ w,
  match g_cli_dev w ≫= λ d, gul_devs d !! i with Some Live => Some (tt, w) | _ => None end.

Definition set_flag (v : Z) (p : cli_priv_data) : cli_priv_data :=
  Priv (msi_index p) (irq p) v (pid p) (wq_ready p) (evt_fd_ctxt p).
Definition set_evt (v : option Z) (p : cli_priv_data) : cli_priv_data :=
  Priv (msi_index p) (irq p) (irq_flag p) (pid p) (wq_ready p) v.
Definition set_line (m v : Z) (p : cli_priv_data) : cli_priv_data :=
  Priv m v 0 (pid p) (wq_ready p) (evt_fd_ctxt p).
Definition set_pid (v : Z) (p : cli_priv_data) : cli_priv_data :=
  Priv (msi_index p) (irq p) (irq_flag p) v (wq_ready p) (evt_fd_ctxt p).
Definition set_wq (p : cli_priv_data) : cli_priv_data :=
  Priv (msi_index p) (irq p) (irq_flag p) (pid p) true (evt_fd_ctxt p).

(** ** Printing *)

(** [while (printed_till_now < len)] of the kernel log: the rest of the text. *)
Fixpoint emit_rest (fuel : nat) (text : list Z) (printed : Z) : W Z :=
  match fuel with
  | O => lift None
  | S fuel =>
      if decide (printed < zlen text) then
        if decide (printed < 0) then lift None else
        n ← ccall (DmesgEmit (drop (Z.to_nat printed) text)); emit_rest fuel text (i32 (printed + n))
      else mret printed
  end.

(** That of the terminal: every write is as long as the whole text, from the place
    reached in the buffer [page]. *)
Definition CRLF : list Z := [13; 10].
Fixpoint tty_rest (fuel : nat) (page : list Z) (len printed : Z) : W Z :=
  match fuel with
  | O => lift None
  | S fuel =>
      if decide (printed < len) then
        if decide (printed < 0 ∨ zlen page < printed + len) then lift None else
        n ← ccall (TtyWrite (take (Z.to_nat len) (drop (Z.to_nat printed) page)));
        _ ← ccall_ (TtyWrite CRLF);
        tty_rest fuel page len (i32 (printed + n))
      else mret printed
  end.

Definition print_dmesg (fuel : nat) (text : list Z) : W unit :=
  if cli_dmesg_on then n ← ccall (DmesgEmit text); _ ← emit_rest fuel text n; mret tt else mret tt.
Definition print_string (fuel : nat) (page : list Z) : W Z :=
  let text := text_of page in
  _ ← print_dmesg fuel text;
  tty ← ccall TtyGet;
  if decide (tty = 0) then ccall (PrInfo text) else
  n ← ccall (TtyWrite text);
  _ ← ccall_ (TtyWrite CRLF);
  _ ← tty_rest fuel page (zlen text) n;
  _ ← ccall_ TtyPut;
  mret (zlen text).

(** ** Interrupt *)
Definition cli_irq_handler (i : nat) : W unit :=
  p ← get_priv i;
  _ ← (if (wq_ready p : bool) then ccall_ (Wake i) else lift None);
  match evt_fd_ctxt p with Some c => ccall_ (EventfdSignal c) | None => mret tt end.

Definition cli_register_irq (i : nat) : W Z :=
  p ← get_priv i;
  if decide (irq p ≠ 0) then
    if decide (irq_flag p = 0) then
      ret ← ccall (RequestIrq i (irq p));
      if decide (ret < 0) then mret ret else _ ← put_priv i (set_flag 1 p); mret ret
    else mret 0
  else mret (- EINVAL).

Definition cli_deregister_irq (i : nat) : W unit :=
  p ← get_priv i;
  if decide (irq_flag p ≠ 0) then
    _ ← put_priv i (set_flag 0 p); ccall_ (FreeIrq i (irq p))
  else mret tt.

(** ** Requests *)
Inductive cli_cmd :=
  | IOCTL_GUL_CLI_REGISTER_EVENTFD | IOCTL_GUL_CLI_DEREGISTER_EVENTFD
  | IOCTL_GUL_CLI_SEND_MSI_TO_MODEM | IOCTL_GUL_CLI_DUMP_CORE_LOG | CliOther.

(** The context of the caller's eventfd: a number without a file is a call
    through NULL; a file that is no eventfd gives an error pointer, a negative value,
    which the driver stores and uses as it does a context. *)
Definition eventfd_of (fd : Z) : W (option Z) :=
  if decide (0 < fd) then
    f ← ccall (FilesLookup fd);
    if decide (f = 0) then lift None else c ← ccall (EventfdGet fd); mret (Some c)
  else mret None.

Definition register_eventfd (t : cli) : W Z :=
  if decide (Z.of_nat MAX_MODEM ≤ cli_id t) then mret (- EFAULT) else
  i ← index (cli_id t);
  p ← get_priv i;
  _ ← put_priv i (set_evt None p);
  evt ← eventfd_of (event_fd t);
  _ ← put_priv i (set_evt evt p);
  mret 0.

Definition deregister_eventfd (t : cli) : W Z :=
  if decide (Z.of_nat MAX_MODEM ≤ cli_id t) then mret (- EFAULT) else
  i ← index (cli_id t);
  p ← get_priv i;
  _ ← (match evt_fd_ctxt p with
       | Some c => _ ← ccall_ (EventfdPut c); put_priv i (set_evt None p)
       | None => mret tt
       end);
  mret 0.

(** [now]: the structure in user memory, where the index is read again. *)
Definition send_msi (t now : cli) : W Z :=
  i ← index (cli_id now);
  _ ← use_dev i;
  _ ← ccall_ (MboxWrite i MsgId (msg_id (mbox t)));
  _ ← ccall_ (MboxWrite i Data (mdata (mbox t)));
  _ ← ccall_ (MboxWrite i Data2 (mdata2 (mbox t)));
  _ ← ccall_ (MboxWrite i Data3 (mdata3 (mbox t)));
  _ ← ccall_ (RaiseCliMsi i);
  mret 0.

(** [memcpy] of a text to the start of the static buffer. *)
Definition dump_core_log (fuel : nat) (now : cli) : W Z :=
  i ← index (cli_id now);
  _ ← use_dev i;
  core ← index (cli_core_id now);
  logs ← gets ep_logs;
  l ← lift (logs !! i ≫= λ cs, cs !! core);
  buf ← gets cli_buf;
  let '(text, l') := gul_collect_ep_log l in
  let '(page, _, l') :=
    if decide (length text = 0%nat) then rescan (log_len l) 0 l' buf 0 else (over text buf, length text, l') in
  if decide (length page ≠ length buf) then lift None else
  _ ← modify (set_logs (alter (λ cs, <[core := l']> cs) i logs));
  _ ← modify (set_buf page);
  let s := text_of page in
  if decide (length s = length page) then lift None else
  if decide (length s ≠ 0%nat) then
    _ ← print_string fuel page;
    _ ← modify (set_buf (replicate (length page) 0));
    mret 0
  else mret 0.

(** The result of an unknown request is dropped. *)
Definition gul_cli_dev_ioctl (fuel : nat) (cmd : cli_cmd) (t now : cli) : W Z :=
  match cmd with
  | CliOther => mret 0
  | _ =>
      r ← ccall CopyFromUser;
      if decide (r ≠ 0) then mret (- EFAULT) else
      match cmd with
      | IOCTL_GUL_CLI_REGISTER_EVENTFD => register_eventfd t
      | IOCTL_GUL_CLI_DEREGISTER_EVENTFD => deregister_eventfd t
      | IOCTL_GUL_CLI_SEND_MSI_TO_MODEM => send_msi t now
      | IOCTL_GUL_CLI_DUMP_CORE_LOG => dump_core_log fuel now
      | CliOther => mret 0
      end
  end.

(** [read]: it sleeps first, whatever has arrived, and then hands out the mailbox.
    The count is the size of another field. *)
Definition put_reg (i : nat) (r : cli_reg) : W (Z * Z) :=
  v ← ccall (MboxRead i r); rc ← ccall (PutUser r); mret (rc, v).
Definition gul_cli_dev_read (t : cli) : W (Z * cli_mbox) :=
  i ← index (cli_id t);
  p ← get_priv i;
  _ ← use_dev i;
  _ ← (if (wq_ready p : bool) then mret tt else lift None);
  _ ← ccall_ (Schedule i);
  '(r1, m) ← put_reg i MsgId;
  '(r2, d) ← put_reg i Data;
  '(r3, d2) ← put_reg i Data2;
  '(r4, d3) ← put_reg i Data3;
  let rc := r1 + r2 + r3 + r4 in
  mret (if decide (rc = 0) then 8 else rc, Mbox m d d2 d3).

(** ** Probe and removal *)
Definition create_cli_cdevs (i : nat) : W Z :=
  _ ← ccall_ (CdevAdd i);
  dev ← ccall (DeviceCreate i);
  mret (if decide (dev = 0) then -1 else 0).

Definition upd_data (i : nat) (v : bool) : W unit := modify (λ w, set_data (<[i := v]> (cli_dev_data_g w)) w).
Definition upd_devpriv (i : nat) (v : bool) : W unit := modify (λ w, set_devpriv (<[i := v]> (cli_priv w)) w).
Definition put_msi (i : nat) (m : Z) : W unit := modify (λ w, set_msis (alter (gul_dev_put_msi m) i (msis w)) w).
Definition get_msi (i : nat) : W Z :=
  core ← ccall Core;
  tabs ← gets msis;
  tab ← lift (tabs !! i);
  let '(m, tab) := gul_dev_get_msi core tab in
  _ ← modify (set_msis (<[i := tab]> tabs));
  mret m.
(** [gul_dev->irq[m].irq_val]. *)
Definition irq_of (i : nat) (m : Z) : W Z :=
  m ← index m;
  tabs ← gets msis;
  e ← lift (tabs !! i ≫= λ tab, tab !! m);
  mret (irq_val e).

Definition probe_err (i : nat) (ret : Z) : W Z :=
  _ ← ccall_ (KfreeData i); _ ← upd_data i false; _ ← upd_devpriv i false; mret ret.
Definition probe_out (i : nat) (ret : Z) : W Z :=
  p ← get_priv i;
  _ ← put_msi i (msi_index p);
  _ ← cli_deregister_irq i;
  _ ← ccall_ (CdevDel i);
  _ ← ccall_ (DeviceDestroy i);
  probe_err i ret.

Definition cli_probe (i : nat) : W Z :=
  p ← get_priv i;
  _ ← modify (λ w, set_cli ((λ d, CliDev (cli_priv_d d) (<[i := Live]> (gul_devs d))) <$> g_cli_dev w) w);
  m ← get_msi i;
  v ← irq_of i m;
  let p := set_line m v p in
  _ ← put_priv i p;
  _ ← ccall_ (HifMsi i m);
  data ← ccall (KmallocData i);
  if decide (data = 0) then mret (- ENOMEM) else
  let p := set_pid (Z.of_nat i) p in
  _ ← put_priv i p;
  _ ← upd_data i true;
  ret ← create_cli_cdevs i;
  if decide (ret < 0) then probe_err i ret else
  _ ← upd_devpriv i true;
  _ ← put_priv i (set_wq p);
  ret ← cli_register_irq i;
  if decide (ret < 0) then probe_out i ret else mret 0.

Definition cli_remove (i : nat) : W Z :=
  up ← gets (λ w, nth i (cli_priv w) false);
  if negb (up : bool) then mret 0 else
  _ ← cli_deregister_irq i;
  p ← get_priv i;
  _ ← (if decide (irq_flag p ≠ 0) then ccall_ (FreeIrq i (irq p)) else mret tt);
  _ ← put_msi i (msi_index p);
  _ ← ccall_ (DeviceDestroy i);
  _ ← ccall_ (CdevDel i);
  _ ← ccall_ (KfreeData i);
  _ ← upd_data i false;
  _ ← upd_devpriv i false;
  mret 0.

(** ** The module *)
Definition cli_init : W Z :=
  ret ← ccall AllocChrdev;
  if decide (ret < 0) then mret ret else
  mem ← ccall KmallocDev;
  if decide (mem = 0) then _ ← ccall_ UnregisterChrdev; mret ret else
  cls ← ccall ClassCreate;
  if decide (cls = 0) then
    _ ← ccall_ ClassDestroy; _ ← ccall_ KfreeDev; _ ← ccall_ UnregisterChrdev; mret (-1)
  else
  _ ← modify (set_cli (Some cli_dev_0));
  mret ret.
Definition cli_exit : W Z :=
  _ ← ccall_ ClassDestroy; _ ← ccall_ KfreeDev; _ ← modify (set_cli None); _ ← ccall_ UnregisterChrdev; mret 0.

(** ** The library *)
Definition CLI_OK : Z := 0.
Definition CLI_OPEN_FAIL : Z := 1.

(** A request as user space sees it: its errors are -1.  The library's structure is
    the one the driver reads. *)
Definition ioctl (fuel : nat) (cmd : cli_cmd) (t : cli) : W Z :=
  r ← gul_cli_dev_ioctl fuel cmd t t; mret (if decide (r < 0) then -1 else r).

Definition set_fd (v : Z) (t : cli) : cli := Cli (cli_id t) (cli_core_id t) (handle t) v (mbox t).

Definition libcli_register (fuel : nat) (t : cli) (modem_id core_id : Z) : W (Z * cli) :=
  fd ← ccall (Open modem_id);
  let t := Cli (u32 modem_id) (u32 core_id) fd (event_fd t) (mbox t) in
  if decide (fd < 0) then mret (- CLI_OPEN_FAIL, t) else
  efd ← ccall Eventfd;
  let t := set_fd efd t in
  if decide (efd < 0) then mret (CLI_OK, t) else
  ret ← ioctl fuel IOCTL_GUL_CLI_REGISTER_EVENTFD t;
  if decide (ret < 0) then _ ← ccall_ (Close efd); mret (ret, set_fd (-1) t) else mret (ret, t).

Definition libcli_deregister (fuel : nat) (t : cli) : W (Z * cli) :=
  t ← (if decide (0 ≤ event_fd t) then
         _ ← ioctl fuel IOCTL_GUL_CLI_DEREGISTER_EVENTFD t;
         _ ← ccall_ (Close (event_fd t));
         mret (set_fd (-1) t)
       else mret t);
  ret ← ccall (Close (handle t));
  mret (ret, t).

Definition libcli_blockforEvent_read (t : cli) : W (Z * cli) :=
  '(r, m) ← gul_cli_dev_read t;
  mret (if decide (r < 0) then -1 else r, Cli (cli_id t) (cli_core_id t) (handle t) (event_fd t) m).
Definition libcli_send_msi_sync (fuel : nat) (t : cli) : W Z := ioctl fuel IOCTL_GUL_CLI_SEND_MSI_TO_MODEM t.
Definition libcli_send_msi_async (fuel : nat) (t : cli) : W Z := ioctl fuel IOCTL_GUL_CLI_SEND_MSI_TO_MODEM t.
Definition libcli_send_msi_wait (fuel : nat) (t : cli) : W Z := ioctl fuel IOCTL_GUL_CLI_SEND_MSI_TO_MODEM t.
Definition libcli_dump_core_log (fuel : nat) (t : cli) : W Z := ioctl fuel IOCTL_GUL_CLI_DUMP_CORE_LOG t.

End Cli.
