(* ===== verification/GulCliCorrect.v ===== *)
(** * The command-line device and its library: theorems *)
From S2P Require Import Prelude GulMsi GulPci GulLog GulLogCorrect GulCli.
#[global] Open Scope Z_scope.

(** ** The ledger of the event contexts *)

(** The calls that take, use and give back a context. *)
Definition ctx_event (e : cli_call * Z) : bool :=
  match fst e with EventfdGet _ | EventfdPut _ | EventfdSignal _ => true | _ => false end.

(** The references to context [c] the driver holds; [None] once it used or gave back
    a context without one. *)
Definition ctx_effect (c : Z) (n : option Z) (e : cli_call * Z) : option Z :=
  match e with
  | (EventfdGet _, r) => if decide (r = c) then Z.succ <$> n else n
  | (EventfdPut b, _) => if decide (b = c) then k ← n; (if decide (0 < k) then Some (k - 1) else None) else n
  | (EventfdSignal b, _) => if decide (b = c) then k ← n; (if decide (0 < k) then Some k else None) else n
  | _ => n
  end.
Definition ctx_held (c : Z) (l : list (cli_call * Z)) : option Z := fold_left (ctx_effect c) l (Some 0).

(** The contexts stored in the instances. *)
Definition evts (w : cliw) : list (option Z) :=
  match g_cli_dev w with Some d => evt_fd_ctxt <$> cli_priv_d d | None => [] end.
Fixpoint refs (c : Z) (l : list (option Z)) : Z :=
  match l with [] => 0 | e :: l => (if decide (e = Some c) then 1 else 0) + refs c l end.

Lemma ctx_held_snoc c l e : ctx_held c (l ++ [e]) = ctx_effect c (ctx_held c l) e.
Proof. unfold ctx_held. by rewrite fold_left_app. Qed.
Lemma ctx_effect_other c n e : ctx_event e = false → ctx_effect c n e = n.
Proof. destruct e as [[] r]; done. Qed.
Lemma ctx_held_filter c l : ctx_held c (filter ctx_event l) = ctx_held c l.
Proof.
  unfold ctx_held. generalize (Some 0). induction l as [|e l IH]; intros n; [done|].
  rewrite filter_cons. destruct (decide (ctx_event e)) as [He|He]; cbn [fold_left]; [apply IH|].
  rewrite IH. rewrite ctx_effect_other; [done|]. by destruct (ctx_event e).
Qed.

Lemma refs_nonneg c l : 0 ≤ refs c l.
Proof. induction l as [|e l IH]; cbn [refs]; [lia|]. case_decide; lia. Qed.
Lemma refs_insert c l i e e' : l !! i = Some e →
  refs c (<[i := e']> l) = refs c l - (if decide (e = Some c) then 1 else 0) + (if decide (e' = Some c) then 1 else 0).
Proof.
  revert i. induction l as [|a l IH]; intros i Hi; [done|]. destruct i as [|i]; cbn in Hi.
  - injection Hi as ->. cbn [insert list_insert refs]. lia.
  - change (<[S i := e']> (a :: l)) with (a :: <[i := e']> l). cbn [refs]. rewrite (IH i Hi). lia.
Qed.
Lemma refs_elem c l i : l !! i = Some (Some c) → 0 < refs c l.
Proof.
  revert i. induction l as [|a l IH]; intros [|i] Hi; cbn in Hi; try done; cbn [refs].
  - injection Hi as ->. rewrite decide_True by done. assert (Hn := refs_nonneg c l). lia.
  - apply IH in Hi. case_decide; lia.
Qed.

(** Every stored context has a reference of its own; [x]: one more that is held but
    not stored. *)
Definition ctx_inv (x : option Z) (w : cliw) : Prop :=
  ∀ c, ∃ n, ctx_held c (clog w) = Some n ∧ refs c (evts w) + (if decide (x = Some c) then 1 else 0) ≤ n.
Definition stored (i : nat) (e : option Z) (w : cliw) : Prop := ctx_inv None w ∧ evts w !! i = Some e.

(** What most of the driver keeps. *)
Definition ctx_view (w : cliw) : list (option Z) * list (cli_call * Z) := (evts w, filter ctx_event (clog w)).
Lemma view_inv x w w' : ctx_view w' = ctx_view w → ctx_inv x w → ctx_inv x w'.
Proof.
  unfold ctx_view. intros [= He Hl] Hw c. destruct (Hw c) as (n & Hn & Hr). exists n.
  by rewrite <- ctx_held_filter, Hl, ctx_held_filter, He.
Qed.

Section Ctx.
Context `{CliCalls}.

Lemma keeps_inv {A} x (m : M cliw A) : keeps ctx_view m → hoare True (ctx_inv x) m (λ _, ctx_inv x).
Proof. intros Hm w Hw. destruct (m w) as [[a w']|] eqn:E; [|done]. apply view_inv with w; [by eapply Hm|done]. Qed.
Lemma keeps_stored {A} i e (m : M cliw A) : keeps ctx_view m → hoare True (stored i e) m (λ _, stored i e).
Proof.
  intros Hm w [Hw He]. destruct (m w) as [[a w']|] eqn:E; [|done]. apply Hm in E. split; [by apply view_inv with w|].
  unfold ctx_view in E. by injection E as -> _.
Qed.

Lemma ccall_view c : (∀ r, ctx_event (c, r) = false) → keeps ctx_view (ccall c).
Proof.
  intros Hc w a w' [= _ <-]. unfold ctx_view. cbn. f_equal. rewrite filter_app, filter_cons_False, filter_nil, app_nil_r; [done|].
  rewrite Hc. by intros [].
Qed.
Lemma ccall__view c : (∀ r, ctx_event (c, r) = false) → keeps ctx_view (ccall_ c).
Proof. intros Hc. unfold ccall_. apply keeps_bind; [by apply ccall_view|intros ?; apply keeps_ret]. Qed.
Lemma get_priv_view i : keeps ctx_view (get_priv i).
Proof. intros w a w'. unfold get_priv. by destruct (_ ≫= _) as [p|]; [intros [= _ <-]|]. Qed.
Lemma use_dev_view i : keeps ctx_view (use_dev i).
Proof. intros w a w'. unfold use_dev. destruct (_ ≫= _) as [[]|]; intros E; by simplify_eq. Qed.
Lemma index_view v : keeps ctx_view (index v).
Proof. unfold index. case_decide; [apply keeps_ret|apply keeps_lift]. Qed.
Lemma state_view f : (∀ w, g_cli_dev (f w) = g_cli_dev w) → (∀ w, clog (f w) = clog w) → keeps ctx_view (modify f).
Proof. intros Hg Hl. apply keeps_modify. intros w. unfold ctx_view, evts. by rewrite Hg, Hl. Qed.

End Ctx.

#[export] Hint Resolve ccall_view ccall__view get_priv_view use_dev_view index_view : keeps.
#[export] Hint Extern 1 (keeps ctx_view (modify _)) => apply state_view; done : keeps.

(** ** Every operation keeps the ledger *)
Section Ops.
Context `{CliCalls}.
Local Ltac view := repeat first
  [ progress unfold get_msi, irq_of, put_msi, upd_data, upd_devpriv, put_reg, put_priv | progress keeps_tac ].

Lemma put_get i p q w a w' : put_priv i q w = Some (a, w') → g_cli_dev w ≫= (λ d, cli_priv_d d !! i) = Some p →
  evts w' = <[i := evt_fd_ctxt q]> (evts w) ∧ clog w' = clog w.
Proof.
  unfold put_priv, modify. intros [= _ <-] Hp. unfold evts, set_cli. cbn. destruct (g_cli_dev w) as [d|]; [|done]. cbn.
  by rewrite list_fmap_insert.
Qed.
Lemma evts_lookup i w p : g_cli_dev w ≫= (λ d, cli_priv_d d !! i) = Some p ↔
  ∃ d, g_cli_dev w = Some d ∧ cli_priv_d d !! i = Some p.
Proof. destruct (g_cli_dev w) as [d|]; cbn; naive_solver. Qed.

(** The instance read, with the context it stores. *)
Lemma get_stored i : hoare True (ctx_inv None) (get_priv i) (λ p, stored i (evt_fd_ctxt p)).
Proof.
  intros w Hw. unfold get_priv. destruct (_ ≫= _) as [p|] eqn:E; [|done]. split; [done|].
  apply evts_lookup in E as (d & Hd & Hp). unfold evts. by rewrite Hd, list_lookup_fmap, Hp.
Qed.

(** A write moves the reference that is not stored into the instance. *)
Lemma put_move x i q : evt_fd_ctxt q = x ∨ evt_fd_ctxt q = None → 
  hoare True (ctx_inv x) (put_priv i q) (λ _, ctx_inv None).
Proof.
  intros Hq w Hw. unfold put_priv, modify. intros c. destruct (Hw c) as (n & Hn & Hr). exists n. split; [done|].
  rewrite (decide_False (P := None = Some c)) by done. unfold evts, set_cli in *. cbn.
  destruct (g_cli_dev w) as [d|]; cbn in *; [|repeat case_decide; lia].
  rewrite list_fmap_insert. destruct ((evt_fd_ctxt <$> cli_priv_d d) !! i) as [e|] eqn:Ei.
  - rewrite (refs_insert c _ i e) by done. destruct Hq as [-> | ->]; repeat case_decide; simplify_eq; lia.
  - rewrite list_insert_ge by (by apply lookup_ge_None). repeat case_decide; lia.
Qed.
Lemma put_same i e q : evt_fd_ctxt q = e → hoare True (stored i e) (put_priv i q) (λ _, stored i e).
Proof.
  intros Hq w [Hw He]. unfold put_priv, modify, stored.
  assert (Hev : evts (set_cli ((λ d, CliDev (<[i := q]> (cli_priv_d d)) (gul_devs d)) <$> g_cli_dev w) w) = evts w).
  { unfold evts, set_cli in *. cbn. destruct (g_cli_dev w) as [d|]; cbn in *; [|done].
    rewrite list_fmap_insert, Hq. by apply list_insert_id. }
  split; [|by rewrite Hev]. intros c. rewrite Hev. exact (Hw c).
Qed.

Lemma get_fd fd : hoare True (ctx_inv None) (ccall (EventfdGet fd)) (λ c, ctx_inv (Some c)).
Proof.
  intros w Hw. unfold ccall. intros c. destruct (Hw c) as (n & Hn & Hr). cbn [clog set_clog].
  rewrite ctx_held_snoc, Hn. cbn -[decide]. rewrite decide_False in Hr by done.
  change (evts (set_clog _ w)) with (evts w). case_decide as Hc.
  - exists (Z.succ n). split; [done|]. rewrite decide_True by (by f_equal). lia.
  - exists n. split; [done|]. rewrite decide_False by congruence. lia.
Qed.
Lemma eventfd_inv fd : hoare True (ctx_inv None) (eventfd_of fd) ctx_inv.
Proof.
  unfold eventfd_of. case_decide; [|by intros w Hw].
  eapply hoare_bind; [apply keeps_inv; view|]. intros f. cbn beta. case_decide; [by intros w Hw|].
  eapply hoare_bind; [apply get_fd|]. intros c w Hw. exact Hw.
Qed.

(** The context of an instance is used. *)
Lemma signal_inv i c : hoare True (stored i (Some c)) (ccall_ (EventfdSignal c)) (λ _, stored i (Some c)).
Proof.
  intros w [Hw He]. unfold ccall_, ccall. cbv [mbind M_bind mret M_ret]. split; [|done].
  intros b. destruct (Hw b) as (n & Hn & Hr). cbn [clog set_clog]. rewrite ctx_held_snoc, Hn. cbn -[decide].
  change (evts (set_clog _ w)) with (evts w). rewrite (decide_False (P := None = Some b)) in Hr |- * by done.
  exists n. split; [|lia]. case_decide as Hc; [|done]. subst b. apply refs_elem in He. by rewrite decide_True by lia.
Qed.
(** It is given back and forgotten. *)
Lemma put_ctx_inv i c q : evt_fd_ctxt q = None →
  hoare True (stored i (Some c)) (_ ← ccall_ (EventfdPut c); put_priv i q) (λ _, ctx_inv None).
Proof.
  intros Hq w [Hw He]. unfold ccall_, ccall, put_priv, modify. cbv [mbind M_bind mret M_ret]. intros b.
  destruct (Hw b) as (n & Hn & Hr). cbn [clog set_clog set_cli]. rewrite ctx_held_snoc, Hn. cbn -[decide].
  rewrite (decide_False (P := None = Some b)) in Hr |- * by done.
  assert (Hev : evts (set_cli ((λ d, CliDev (<[i := q]> (cli_priv_d d)) (gul_devs d)) <$> g_cli_dev w)
    (set_clog (clog w ++ [(EventfdPut c, canswer (clog w) (EventfdPut c))]) w)) = <[i := None]> (evts w)).
  { unfold evts, set_cli in *. cbn. destruct (g_cli_dev w) as [d|]; cbn in *; [|done]. by rewrite list_fmap_insert, Hq. }
  change (g_cli_dev (set_clog _ w)) with (g_cli_dev w) in *. rewrite Hev, (refs_insert b _ i (Some c)) by done.
  rewrite ?(decide_False (P := None = Some b)) by done.
  case_decide as Hc.
  - subst b. apply refs_elem in He. rewrite decide_True by lia. exists (n - 1). rewrite decide_True by done. split; [done|lia].
  - exists n. rewrite decide_False by congruence. split; [done|lia].
Qed.

Lemma emit_view fuel : ∀ text n, keeps ctx_view (emit_rest fuel text n).
Proof. induction fuel as [|fuel IH]; intros text n; cbn [emit_rest]; view; apply IH. Qed.
Lemma tty_view fuel : ∀ page len n, keeps ctx_view (tty_rest fuel page len n).
Proof. induction fuel as [|fuel IH]; intros page len n; cbn [tty_rest]; view; apply IH. Qed.
#[local] Hint Resolve emit_view tty_view : keeps.
Lemma print_view fuel page : keeps ctx_view (print_string fuel page).
Proof. unfold print_string, print_dmesg. view. Qed.
#[local] Hint Resolve print_view : keeps.
Lemma dump_view fuel now : keeps ctx_view (dump_core_log fuel now).
Proof. unfold dump_core_log. view. Qed.
Lemma send_view t now : keeps ctx_view (send_msi t now).
Proof. unfold send_msi. view. Qed.
Lemma read_view t : keeps ctx_view (gul_cli_dev_read t).
Proof. unfold gul_cli_dev_read. view. Qed.

Definition ctx_ok {A} (m : M cliw A) : Prop := hoare True (ctx_inv None) m (λ _, ctx_inv None).
Lemma view_ok {A} (m : M cliw A) : keeps ctx_view m → ctx_ok m.
Proof. apply keeps_inv. Qed.
Lemma ok_bind {A B} (m : M cliw A) (k : A → M cliw B) : ctx_ok m → (∀ a, ctx_ok (k a)) → ctx_ok (m ≫= k).
Proof. intros Hm Hk. eapply hoare_bind; [exact Hm|exact Hk]. Qed.
Lemma stored_ok {A} i e (m : M cliw A) : ctx_ok m → hoare True (stored i e) m (λ _, ctx_inv None).
Proof. intros Hm w [Hw _]. by apply Hm. Qed.

Lemma register_ok t : ctx_ok (register_eventfd t).
Proof.
  unfold register_eventfd. case_decide; [apply view_ok; view|]. apply ok_bind; [apply view_ok; view|]. intros i.
  eapply hoare_bind; [apply get_stored|]. intros p. apply stored_ok.
  eapply hoare_bind; [apply (put_move None); by left|]. intros ?. cbn beta.
  eapply hoare_bind; [apply eventfd_inv|]. intros evt. cbn beta.
  eapply hoare_bind; [apply put_move; by left|]. by intros ? w Hw.
Qed.
Lemma deregister_ok t : ctx_ok (deregister_eventfd t).
Proof.
  unfold deregister_eventfd. case_decide; [apply view_ok; view|]. apply ok_bind; [apply view_ok; view|]. intros i.
  eapply hoare_bind; [apply get_stored|]. intros p. cbn beta.
  eapply (hoare_bind _ (λ _, ctx_inv None)); [|by intros ? w Hw].
  destruct (evt_fd_ctxt p) as [c|]; [|by intros w [Hw _]]. by apply put_ctx_inv.
Qed.
Lemma irq_ok i : ctx_ok (cli_irq_handler i).
Proof.
  unfold cli_irq_handler. eapply hoare_bind; [apply get_stored|]. intros p. cbn beta.
  eapply hoare_bind; [apply keeps_stored; view|]. intros ?. cbn beta.
  destruct (evt_fd_ctxt p) as [c|]; [|by intros w [Hw _]].
  eapply hoare_weaken; [done| |apply signal_inv]. by intros ? w [Hw _].
Qed.
Lemma ioctl_ok fuel cmd t now : ctx_ok (gul_cli_dev_ioctl fuel cmd t now).
Proof.
  unfold gul_cli_dev_ioctl. destruct cmd; try (apply ok_bind; [apply view_ok; view|]; intros ?; case_decide; [apply view_ok; view|]).
  - apply register_ok.
  - apply deregister_ok.
  - apply view_ok, send_view.
  - apply view_ok, dump_view.
  - apply view_ok; view.
Qed.

(** An instance written with the context it has. *)
Lemma put_same_ok i e q : evt_fd_ctxt q = e → hoare True (stored i e) (put_priv i q) (λ _, ctx_inv None).
Proof. intros Hq. eapply hoare_weaken; [done| |by apply put_same]. by intros ? w [Hw _]. Qed.
Lemma register_irq_ok i : ctx_ok (cli_register_irq i).
Proof.
  unfold cli_register_irq. eapply hoare_bind; [apply get_stored|]. intros p. cbn beta.
  case_decide; [|by intros w [Hw _]]. case_decide; [|by intros w [Hw _]].
  eapply hoare_bind; [apply keeps_stored; view|]. intros r. cbn beta. case_decide; [by intros w [Hw _]|].
  eapply hoare_bind; [by apply put_same_ok|]. by intros ? w Hw.
Qed.
Lemma deregister_irq_ok i : ctx_ok (cli_deregister_irq i).
Proof.
  unfold cli_deregister_irq. eapply hoare_bind; [apply get_stored|]. intros p. cbn beta.
  case_decide; [|by intros w [Hw _]].
  eapply hoare_bind; [by apply put_same_ok|]. intros ?. apply view_ok. view.
Qed.
Lemma probe_ok i : ctx_ok (cli_probe i).
Proof.
  unfold cli_probe. eapply hoare_bind; [apply get_stored|]. intros p. cbn beta.
  assert (Hdev : keeps ctx_view (modify (λ w, set_cli ((λ d, CliDev (cli_priv_d d) (<[i := Live]> (gul_devs d))) <$> g_cli_dev w) w))).
  { apply keeps_modify. intros w. unfold ctx_view, evts. cbn. by destruct (g_cli_dev w). }
  do 3 (eapply hoare_bind; [apply keeps_stored; view; exact Hdev|]; intros ?; cbn beta).
  eapply hoare_bind; [by apply put_same|]. intros ?. cbn beta.
  do 2 (eapply hoare_bind; [apply keeps_stored; view|]; intros ?; cbn beta). case_decide; [by intros w [Hw _]|].
  eapply hoare_bind; [by apply put_same|]. intros ?. cbn beta.
  eapply hoare_bind; [apply keeps_stored; view|]. intros ?. cbn beta.
  eapply hoare_bind; [apply keeps_stored; unfold create_cli_cdevs; view|]. intros r. cbn beta. case_decide.
  { apply stored_ok, view_ok. unfold probe_err. view. }
  eapply hoare_bind; [apply keeps_stored; view|]. intros ?. cbn beta.
  eapply hoare_bind; [by apply put_same_ok|]. intros ?. cbn beta.
  apply ok_bind; [apply register_irq_ok|]. intros r1. case_decide; [|apply view_ok; view].
  unfold probe_out. apply ok_bind; [apply view_ok; view|]. intros p1. apply ok_bind; [apply view_ok; view|]. intros ?.
  apply ok_bind; [apply deregister_irq_ok|]. intros ?. apply view_ok. unfold probe_err. view.
Qed.
Lemma remove_ok i : ctx_ok (cli_remove i).
Proof.
  unfold cli_remove. apply ok_bind; [apply view_ok; view|]. intros up. destruct (negb up); [apply view_ok; view|].
  apply ok_bind; [apply deregister_irq_ok|]. intros ?. apply view_ok. view.
Qed.

Lemma reset_ok x : (∀ c, refs c x = 0) → ∀ f : cliw → cliw, (∀ w, evts (f w) = x) → (∀ w, clog (f w) = clog w) →
  ctx_ok (modify f).
Proof.
  intros Hx f He Hl w Hw c. destruct (Hw c) as (n & Hn & Hr). exists n. unfold modify. rewrite He, Hl, Hx.
  split; [done|]. assert (H0 := refs_nonneg c (evts w)). lia.
Qed.
Lemma init_ok : ctx_ok cli_init.
Proof.
  unfold cli_init. apply ok_bind; [apply view_ok; view|]. intros r. case_decide; [apply view_ok; view|].
  apply ok_bind; [apply view_ok; view|]. intros mem. case_decide; [apply view_ok; view|].
  apply ok_bind; [apply view_ok; view|]. intros cls. case_decide; [apply view_ok; view|].
  apply ok_bind; [|intros ?; apply view_ok; view]. apply (reset_ok (replicate MAX_MODEM None)); [|done..].
  intros c. cbn. repeat case_decide; done.
Qed.
Lemma exit_ok : ctx_ok cli_exit.
Proof.
  unfold cli_exit. do 2 (apply ok_bind; [apply view_ok; view|]; intros ?).
  apply ok_bind; [by apply (reset_ok [])|]. intros ?. apply view_ok. view.
Qed.
End Ops.

(** ** Any sequence of operations *)

(** [CGone]: the structure of a modem is freed. *)
Inductive cli_op :=
  | CInit | CExit | CProbe (i : nat) | CRemove (i : nat) | CGone (i : nat) | CIrq (i : nat) | CRead (t : cli)
  | CIoctl (cmd : cli_cmd) (t now : cli).

Section Run.
Context `{CliCalls}.

Definition modem_gone (i : nat) : M cliw unit :=
  modify (λ w, set_cli ((λ d, CliDev (cli_priv_d d)
    (alter (λ p, if decide (p = Live) then Gone else p) i (gul_devs d))) <$> g_cli_dev w) w).
Definition run_op (fuel : nat) (o : cli_op) : M cliw unit :=
  match o with
  | CInit => _ ← cli_init; mret tt
  | CExit => _ ← cli_exit; mret tt
  | CProbe i => _ ← cli_probe i; mret tt
  | CRemove i => _ ← cli_remove i; mret tt
  | CGone i => modem_gone i
  | CIrq i => cli_irq_handler i
  | CRead t => _ ← gul_cli_dev_read t; mret tt
  | CIoctl cmd t now => _ ← gul_cli_dev_ioctl fuel cmd t now; mret tt
  end.
Fixpoint run_ops (fuel : nat) (l : list cli_op) : M cliw unit :=
  match l with [] => mret tt | o :: l => _ ← run_op fuel o; run_ops fuel l end.

Lemma run_op_ok fuel o : ctx_ok (run_op fuel o).
Proof.
  assert (Hd : ∀ A (m : M cliw A), ctx_ok m → ctx_ok (_ ← m; mret tt)).
  { intros A m Hm. apply ok_bind; [done|]. by intros ? w Hw. }
  destruct o; cbn [run_op]; try apply Hd.
  - apply init_ok. - apply exit_ok. - apply probe_ok. - apply remove_ok.
  - apply view_ok, keeps_modify. intros w. unfold ctx_view, evts. cbn. by destruct (g_cli_dev w).
  - apply irq_ok. - apply view_ok, read_view. - apply ioctl_ok.
Qed.
(** The operations up to the first that is undefined: the state before it. *)
Fixpoint run_until (fuel : nat) (l : list cli_op) (w : cliw) : cliw :=
  match l with
  | [] => w
  | o :: l => match run_op fuel o w with Some (_, w') => run_until fuel l w' | None => w end
  end.
Lemma run_until_ok fuel l : ∀ w, ctx_inv None w → ctx_inv None (run_until fuel l w).
Proof.
  induction l as [|o l IH]; intros w Hw; cbn [run_until]; [done|]. assert (Hok := run_op_ok fuel o w Hw).
  destruct (run_op fuel o w) as [[u w']|]; [by apply IH|done].
Qed.

(** What [eventfd_ctx_fileget] never returned is not held, and was not used. *)
Lemma never_got c l : ∀ n, (∀ fd, (EventfdGet fd, c) ∉ l) → ctx_held c l = Some n →
  n = 0 ∧ ∀ r, (EventfdSignal c, r) ∉ l ∧ (EventfdPut c, r) ∉ l.
Proof.
  induction l as [|e l IH] using rev_ind; intros n Hg Hn.
  { injection Hn as <-. split; [done|]. intros r. split; apply not_elem_of_nil. }
  rewrite ctx_held_snoc in Hn.
  assert (Hg' : ∀ fd, (EventfdGet fd, c) ∉ l) by (intros fd Hin; apply (Hg fd), elem_of_app; by left).
  assert (Hl : ∃ k, ctx_held c l = Some k).
  { destruct (ctx_held c l) as [k|]; [by eexists|]. destruct e as [[] r]; cbn in Hn; repeat case_decide; done. }
  destruct Hl as [k Hk]. destruct (IH k Hg' Hk) as [-> Hu]. rewrite Hk in Hn.
  assert (He : ∀ fd, e ≠ (EventfdGet fd, c)) by (intros fd ->; apply (Hg fd), elem_of_app; right; by apply list_elem_of_singleton).
  assert (Hun : n = 0 ∧ ∀ r, e ≠ (EventfdSignal c, r) ∧ e ≠ (EventfdPut c, r)).
  { destruct e as [[] r0]; cbn -[decide] in Hn; try (by injection Hn as <-); revert Hn; case_decide; subst; cbn; try done;
      try (by intros [= <-]; split; [done|]; intros r; split; congruence). by destruct (He fd). }
  destruct Hun as [-> Hne]. split; [done|]. intros r. destruct (Hu r) as [H1 H2]. destruct (Hne r) as [H3 H4].
  rewrite !elem_of_app, !list_elem_of_singleton. naive_solver.
Qed.

(** C19: Event contexts of the command-line driver are accounted for. Let any probes,
    removals, interrupts and requests of any callers run, failing ones included, up to
    the first one that is undefined (a message to a modem that is gone, a descriptor
    without a file). Whatever the driver stores, signals or gives back as a context was
    returned to it by [eventfd_ctx_fileget], is signalled or given back only while that
    reference is held, and everything an instance stores has a reference of its own. The
    driver does not look whether what it was returned is a context: for a descriptor
    that is no eventfd it holds, stores and signals an error pointer in the same way
    ([error_pointer_signalled]). *)
Theorem cli_contexts_sound fuel l w c : clog w = [] → evts w = [] → let w' := run_until fuel l w in
  (∃ n, ctx_held c (clog w') = Some n ∧ refs c (evts w') ≤ n) ∧
  ((∀ fd, (EventfdGet fd, c) ∉ clog w') →
   Some c ∉ evts w' ∧ ∀ r, (EventfdSignal c, r) ∉ clog w' ∧ (EventfdPut c, r) ∉ clog w').
Proof.
  intros Hl He w'. assert (Hw : ctx_inv None w).
  { intros b. exists 0. rewrite Hl, He. split; [done|]. cbn. rewrite decide_False by done. lia. }
  destruct (run_until_ok fuel l w Hw c) as (n & Hn & Hr). fold w' in Hn, Hr. rewrite decide_False in Hr by done.
  split; [exists n; split; [done|lia]|]. intros Hg. destruct (never_got c (clog w') n Hg Hn) as [-> Hu]. split; [|done].
  intros [i Hi]%list_elem_of_lookup. apply refs_elem in Hi. lia.
Qed.

(** ** Printing *)

(** A terminal and a kernel log that take at least one byte of a text and no more
    than there is; what they do with the end of a line does not matter. *)
Definition takes_some : Prop := ∀ l s, (0 < length s)%nat →
  1 ≤ canswer l (TtyWrite s) ≤ zlen s ∧ 1 ≤ canswer l (DmesgEmit s) ≤ zlen s.

Lemma tty_ends fuel : ∀ page len n w, takes_some → 0 ≤ n → 2 * len ≤ zlen page < 2147483648 →
  (Z.to_nat (len - n) < fuel)%nat → ∃ r w', tty_rest fuel page len n w = Some (r, w').
Proof.
  induction fuel as [|fuel IH]; intros page len n w Ht Hn Hp Hf; [lia|]. cbn [tty_rest].
  destruct (decide (n < len)) as [Hlt|Hge]; [|by exists n, w].
  rewrite decide_False by lia. rewrite M_bind_eq. cbn [ccall].
  set (s := take _ _). assert (Hs : zlen s = len) by (unfold s, zlen in *; rewrite length_take, length_drop; lia).
  destruct (Ht (clog w) s) as [[H1 H2] _]; [unfold zlen in *; lia|].
  rewrite M_bind_eq. unfold ccall_. rewrite M_bind_eq. cbn [ccall mret M_ret].
  assert (i32 (n + canswer (clog w) (TtyWrite s)) = n + canswer (clog w) (TtyWrite s)) as -> by wrap_lia.
  apply IH; try done; lia.
Qed.
Lemma emit_ends fuel : ∀ text n w, takes_some → 0 ≤ n → 2 * zlen text < 2147483648 →
  (Z.to_nat (zlen text - n) < fuel)%nat → ∃ r w', emit_rest fuel text n w = Some (r, w').
Proof.
  induction fuel as [|fuel IH]; intros text n w Ht Hn Hp Hf; [lia|]. cbn [emit_rest].
  destruct (decide (n < zlen text)) as [Hlt|Hge]; [|by exists n, w].
  rewrite decide_False by lia. rewrite M_bind_eq. cbn [ccall].
  set (s := drop _ _). assert (Hs : zlen s = zlen text - n) by (unfold s, zlen in *; rewrite length_drop; lia).
  destruct (Ht (clog w) s) as [_ [H1 H2]]; [unfold zlen in *; lia|].
  assert (i32 (n + canswer (clog w) (DmesgEmit s)) = n + canswer (clog w) (DmesgEmit s)) as -> by wrap_lia.
  apply IH; try done; lia.
Qed.

(** Printing a text of at most half the buffer ends, however little is taken at a
    time. *)
Theorem print_string_ends fuel page w : takes_some → (0 < length (text_of page))%nat →
  2 * zlen (text_of page) ≤ zlen page < 2147483648 → (length (text_of page) < fuel)%nat →
  ∃ r w', print_string fuel page w = Some (r, w').
Proof.
  intros Ht H0 Hp Hf. unfold print_string. set (s := text_of page) in *.
  assert (Hd : ∃ w1, print_dmesg fuel s w = Some (tt, w1)).
  { unfold print_dmesg. destruct cli_dmesg_on; [|by exists w]. rewrite M_bind_eq. cbn [ccall].
    destruct (Ht (clog w) s H0) as [_ [H1 H2]]. rewrite M_bind_eq.
    edestruct (emit_ends fuel s) as (r & w1 & E); [done| | | |rewrite E; by eexists]; unfold zlen in *; lia. }
  destruct Hd as (w1 & Hd). rewrite M_bind_eq, Hd. rewrite M_bind_eq. cbn [ccall]. case_decide; [by do 2 eexists|].
  rewrite M_bind_eq. cbn [ccall]. rewrite M_bind_eq. unfold ccall_ at 1. rewrite M_bind_eq. cbn [ccall mret M_ret].
  rewrite M_bind_eq. match goal with |- context [canswer ?l (TtyWrite s)] => destruct (Ht l s H0) as [[H2 H3] _] end.
  edestruct (tty_ends fuel page (zlen s)) as (r & w2 & E); [done| | | |rewrite E; by do 2 eexists]; unfold zlen in *; lia.
Qed.

(** ** The log request *)

(** A terminal that takes what it is given. *)
Definition takes_all : Prop := ∀ l, canswer l TtyGet ≠ 0 ∧ ∀ s, canswer l (TtyWrite s) = zlen s.
(** The calls of a print. *)
Definition print_calls (q : list Z) : list cli_call :=
  if decide (length q = 0%nat) then [] else [TtyGet; TtyWrite q; TtyWrite CRLF; TtyPut].

Lemma print_all fuel page w : cli_dmesg_on = false → takes_all → (0 < fuel)%nat → (0 < length (text_of page))%nat →
  ∃ l, print_string fuel page w = Some (zlen (text_of page), set_clog (clog w ++ l) w) ∧ fst <$> l = print_calls (text_of page).
Proof.
  intros Hd Ht Hf H0. unfold print_string. set (s := text_of page) in *. unfold print_dmesg. rewrite Hd.
  rewrite M_bind_eq. cbn [mret M_ret]. rewrite M_bind_eq. cbn [ccall]. rewrite decide_False by apply Ht.
  rewrite M_bind_eq. cbn [ccall]. unfold ccall_. cbv [mbind M_bind ccall mret M_ret].
  rewrite (proj2 (Ht _)). destruct fuel as [|fuel]; [lia|]. cbn [tty_rest]. rewrite decide_False by lia.
  cbn [mret M_ret]. cbn. unfold set_clog; cbn. rewrite <- !app_assoc. eexists. split; [reflexivity|].
  unfold print_calls. rewrite decide_False by lia. reflexivity.
Qed.

(** With the buffer clear, a request prints exactly the text that waits in the log of
    the core, empties it and leaves the buffer clear. *)
Theorem dump_prints_queue fuel now w d cs l q k : cli_dmesg_on = false → takes_all →
  0 ≤ cli_id now → 0 ≤ cli_core_id now →
  g_cli_dev w = Some d → gul_devs d !! Z.to_nat (cli_id now) = Some Live →
  ep_logs w !! Z.to_nat (cli_id now) = Some cs → cs !! Z.to_nat (cli_core_id now) = Some l → queued l q →
  cli_buf w = replicate k 0 → (log_len l ≤ k)%nat → (0 < fuel)%nat →
  ∃ w' l' calls, dump_core_log fuel now w = Some (0, w') ∧ cli_buf w' = replicate k 0 ∧
    ep_logs w' = alter (λ cs, <[Z.to_nat (cli_core_id now) := l']> cs) (Z.to_nat (cli_id now)) (ep_logs w) ∧
    queued l' [] ∧ clog w' = clog w ++ calls ∧ fst <$> calls = print_calls q.
Proof.
  intros Hd Ht H0 H1 Hg Hlive Hcs Hl Hq Hb Hk Hf. destruct (collect_queued l q Hq) as (l' & E & Hq' & L).
  assert (Hlen : (length q < log_len l)%nat) by apply Hq. assert (Hnz : Forall (λ x, x ≠ 0) q) by apply Hq.
  unfold dump_core_log, index, use_dev. cbv [mbind M_bind gets lift modify].
  rewrite (decide_True (P := 0 ≤ cli_id now)), (decide_True (P := 0 ≤ cli_core_id now)) by done.
  cbv [mret M_ret]. rewrite Hg. cbn [option_bind].
  rewrite Hlive, Hcs. cbn [option_bind]. rewrite Hl, E, Hb.
  set (page := if decide (length q = 0%nat) then _ else _).
  assert (Hpage : page.1.1 = q ++ replicate (k - length q) 0 ∧ page.2 = l').
  { unfold page. destruct (decide (length q = 0%nat)) as [Hz|Hz].
    - apply length_zero_iff_nil in Hz as ->. rewrite rescan_clear; [cbn; by rewrite Nat.sub_0_r|].
      by apply (queued_clear l').
    - cbn. unfold over. by rewrite drop_replicate. }
  destruct page as [[pg n] lx]. cbn [fst snd] in Hpage. destruct Hpage as [-> ->].
  assert (Hpl : length (q ++ replicate (k - length q) 0) = k) by (rewrite length_app, length_replicate; lia).
  rewrite Hpl, length_replicate, decide_False by lia. rewrite (text_queue q), decide_False by (done || lia).
  destruct (decide (length q ≠ 0%nat)) as [Hz|Hz].
  - match goal with |- context [print_string fuel ?p ?v] => destruct (print_all fuel p v Hd Ht Hf) as (calls & Ep & Hc) end;
      [rewrite text_queue by done; lia|]. rewrite Ep. eexists _, l', calls. rewrite (text_queue q) in Hc by done. done.
  - eexists _, l', []. split; [reflexivity|]. cbn. assert (q = []) as -> by (apply length_zero_iff_nil; lia).
    cbn [app length]. rewrite Nat.sub_0_r, app_nil_r. done.
Qed.
End Run.

(** ** What goes wrong *)
Section Failures.
Context `{CliCalls}.

(** The memory for the instances cannot be had: the module is told that all is
    well, and the first probe goes through NULL. *)
Theorem cli_init_hides_failure w i : g_cli_dev w = None → 0 ≤ canswer (clog w) AllocChrdev →
  (∀ l, canswer l KmallocDev = 0) →
  ∃ w', cli_init w = Some (canswer (clog w) AllocChrdev, w') ∧ cli_probe i w' = None.
Proof.
  intros Hg Hr Hk. unfold cli_init. rewrite M_bind_eq. cbn [ccall]. rewrite decide_False by lia.
  rewrite M_bind_eq. cbn [ccall]. rewrite Hk. rewrite decide_True by done. unfold ccall_.
  cbv [mbind M_bind ccall mret M_ret]. eexists. split; [reflexivity|]. unfold cli_probe. rewrite M_bind_eq.
  unfold get_priv. cbn. by rewrite Hg.
Qed.

(** A probe without memory for the device fails with the interrupt line taken. *)
Theorem probe_keeps_line w i d p tab m e : g_cli_dev w = Some d → cli_priv_d d !! i = Some p → msis w !! i = Some tab →
  gul_dev_get_msi (canswer (clog w) Core) tab = (Z.of_nat m, e) → is_Some (e !! m) → (∀ l, canswer l (KmallocData i) = 0) →
  ∃ w', cli_probe i w = Some (- ENOMEM, w') ∧ msis w' !! i = Some e.
Proof.
  intros Hg Hp Ht Hm [x Hx] Hk. unfold cli_probe, get_msi, irq_of, get_priv, put_priv, ccall_, index.
  cbv [mbind M_bind ccall mret M_ret lift gets modify option_bind]. rewrite Hg, Hp. cbn -[decide gul_dev_get_msi].
  rewrite Ht, Hm. rewrite decide_True by lia. cbn -[decide]. rewrite list_lookup_insert_eq by (by apply lookup_lt_Some in Ht).
  rewrite Nat2Z.id, Hx. cbn -[decide]. rewrite Hk, decide_True by done. eexists. split; [reflexivity|]. cbn.
  apply list_lookup_insert_eq. by apply lookup_lt_Some in Ht.
Qed.

(** A message for a modem that is gone goes through its old pointer. *)
Theorem gone_modem_used fuel t now w d : canswer (clog w) CopyFromUser = 0 → 0 ≤ cli_id now →
  g_cli_dev w = Some d → gul_devs d !! Z.to_nat (cli_id now) = Some Gone →
  gul_cli_dev_ioctl fuel IOCTL_GUL_CLI_SEND_MSI_TO_MODEM t now w = None.
Proof.
  intros Hc Hi Hg Hd. unfold gul_cli_dev_ioctl. rewrite M_bind_eq. cbn [ccall]. rewrite Hc, decide_False by (intros ?; done).
  unfold send_msi, index, use_dev. cbv [mbind M_bind lift]. rewrite decide_True by done. cbv [mret M_ret].
  cbn [set_clog g_cli_dev]. rewrite Hg. cbn [option_bind]. by rewrite Hd.
Qed.
End Failures.

(** ** Witnesses *)

(** Everything works; file [fd] has context [10 + fd]; a terminal that takes all. *)
Definition demo_answer (l : list (cli_call * Z)) (c : cli_call) : Z :=
  match c with
  | TtyWrite s | DmesgEmit s => zlen s
  | EventfdGet fd => 10 + fd
  | FilesLookup _ | TtyGet | KmallocDev | KmallocData _ | DeviceCreate _ | ClassCreate => 1
  | Open _ | Eventfd => 5
  | _ => 0
  end.
#[export] Instance demo_cli : CliCalls := {| canswer := demo_answer; cli_dmesg_on := false |}.
Definition demo_lines : list irq_info := [Irq 70 0 GUL_MSI_IRQ_BUSY 0; Irq 71 1 GUL_MSI_IRQ_FREE 0].
Definition demo_cliw : cliw :=
  Cliw None (replicate MAX_MODEM false) (replicate MAX_MODEM false) (replicate MAX_MODEM demo_lines)
    (replicate MAX_MODEM [EpLog [66; 0; 0; 65] 3]) (replicate 8 0) [].
Definition demo_req (fd : Z) : cli := Cli 1 0 5 fd (Mbox 1 2 3 4).

(** A second registration forgets the context of the first. *)
Example reregister_leaks : match run_ops 9 [CInit; CProbe 1; CIoctl IOCTL_GUL_CLI_REGISTER_EVENTFD (demo_req 5) (demo_req 5);
    CIoctl IOCTL_GUL_CLI_REGISTER_EVENTFD (demo_req 6) (demo_req 6); CIoctl IOCTL_GUL_CLI_DEREGISTER_EVENTFD (demo_req 6) (demo_req 6);
    CRemove 1] demo_cliw with
  | Some (_, w) => ctx_held 15 (clog w) = Some 1 ∧ ctx_held 16 (clog w) = Some 0 ∧ evts w = replicate 4 None
  | None => False
  end.
Proof. vm_compute. done. Qed.

(** A request the driver does not know is answered with success. *)
Example unknown_request_accepted : gul_cli_dev_ioctl 0 CliOther (demo_req 0) (demo_req 0) demo_cliw = Some (0, demo_cliw).
Proof. reflexivity. Qed.

Definition to_modem (c : cli_call) : bool := match c with MboxWrite _ _ _ | RaiseCliMsi _ => true | _ => false end.
(** The library registers, sends and deregisters; the message reaches the mailbox of
    the modem before its interrupt. *)
Example library_session : match (_ ← cli_init; _ ← cli_probe 1; '(r, t) ← libcli_register 9 (demo_req 0) 1 0;
    r2 ← libcli_send_msi_sync 9 t; '(r3, t) ← libcli_deregister 9 t; mret (r, r2, r3, event_fd t)) demo_cliw with
  | Some (r, w) => r = (0, 0, 0, -1) ∧ filter to_modem (fst <$> clog w) =
      [MboxWrite 1 MsgId 1; MboxWrite 1 Data 2; MboxWrite 1 Data2 3; MboxWrite 1 Data3 4; RaiseCliMsi 1]
  | None => False
  end.
Proof. vm_compute. done. Qed.

(** A terminal that takes one byte at a time is given the bytes behind the text. *)
Definition slow_cli : CliCalls := {| canswer l c := match c with TtyWrite s => 1 | _ => demo_answer l c end; cli_dmesg_on := false |}.
Example tty_past_text : match print_string (H := slow_cli) 9 [65; 66; 0; 0; 67; 0] demo_cliw with
  | Some (_, w) => TtyWrite [66; 0] ∈ (fst <$> clog w)
  | None => False
  end.
Proof. vm_compute. set_solver. Qed.

Definition demo_ops : list cli_op :=
  [CInit; CProbe 1; CIoctl IOCTL_GUL_CLI_REGISTER_EVENTFD (demo_req 5) (demo_req 5); CIrq 1; CRemove 1].
Lemma cli_contexts_sound_witness : (∃ n, ctx_held 15 (clog (run_until 9 demo_ops demo_cliw)) = Some n ∧ refs 15 (evts (run_until 9 demo_ops demo_cliw)) ≤ n) ∧
  Some 16 ∉ evts (run_until 9 demo_ops demo_cliw).
Proof.
  split; [exact (proj1 (cli_contexts_sound 9 demo_ops demo_cliw 15 eq_refl eq_refl))|].
  refine (proj1 (proj2 (cli_contexts_sound 9 demo_ops demo_cliw 16 eq_refl eq_refl) _)).
  intros fd Hin.
  assert (Hf : Forall (λ e, match fst e with EventfdGet _ => snd e ≠ 16 | _ => True end) (clog (run_until 9 demo_ops demo_cliw)))
    by (vm_compute; repeat constructor; discriminate).
  rewrite Forall_forall in Hf. exact (Hf _ Hin eq_refl).
Defined.
(** A descriptor that is no eventfd: the error pointer is stored, and signalled. *)
Definition no_eventfd : CliCalls := {| canswer l c := match c with EventfdGet _ => -22 | _ => demo_answer l c end; cli_dmesg_on := false |}.
Example error_pointer_signalled : (EventfdSignal (-22), 0) ∈ clog (run_until (H := no_eventfd) 9 demo_ops demo_cliw).
Proof. apply (bool_decide_eq_true_1 (_ ∈ _)). vm_compute. reflexivity. Qed.
Lemma print_string_ends_witness : ∃ r w', print_string 9 [65; 66; 0; 0; 67; 0] demo_cliw = Some (r, w').
Proof.
  apply (print_string_ends 9 [65; 66; 0; 0; 67; 0] demo_cliw).
  - intros l s Hs. cbn. unfold zlen. lia.
  - vm_compute; lia.
  - vm_compute. split; [discriminate|reflexivity].
  - vm_compute; lia.
Defined.
Lemma demo_queue : queued (EpLog [66; 0; 0; 65] 3) [65; 66].
Proof. unfold queued, log_wf. cbn. split; [lia|]. split; [by repeat constructor|]. split; [lia|reflexivity]. Qed.
Definition demo_up : cliw := set_cli (Some (CliDev (replicate MAX_MODEM priv_0) (replicate MAX_MODEM Live))) demo_cliw.
Lemma dump_prints_queue_witness : ∃ w' l' calls, dump_core_log 9 (demo_req 0) demo_up = Some (0, w') ∧
  cli_buf w' = replicate 8 0 ∧ ep_logs w' = alter (λ cs, <[0%nat := l']> cs) 1%nat (ep_logs demo_up) ∧ queued l' [] ∧
  clog w' = [] ++ calls ∧ fst <$> calls = print_calls [65; 66].
Proof.
  refine (dump_prints_queue 9 (demo_req 0) demo_up _ [EpLog [66; 0; 0; 65] 3] _ [65; 66] 8 eq_refl _ _ _ eq_refl eq_refl eq_refl eq_refl demo_queue eq_refl _ _).
  - intros l. split; [cbn; lia|done].
  - cbn. lia.
  - cbn. lia.
  - cbn. lia.
  - lia.
Defined.
