(* ===== verification/GulModinfo.v ===== *)
(** * The modem information device (kernel_driver/yami/gul_modinfo.c)

    One miscellaneous device per modem: it tells user space where the memory of the
    modem lies, and maps the part of the scratch memory that is shared with it.  The
    structure it fills and its requests come from a header the repository does not
    contain; the addresses of the modem are taken as 32 bits wide, as the driver
    prints them.  The sources of the clocks are [ModinfoIf]. *)
From S2P Require Import Prelude GulMsi GulScratch.
From stdpp Require Import strings.
#[global] Open Scope Z_scope.

Class ModinfoIf := { LS_DCS_OUTPUT : Z; HS_DCS_OUTPUT : Z; IPG_CLK : Z }.

(** ** State *)
Inductive bar := PEBM | DCSR | CCSR | FECA.
Record range := Range { r_addr : Z; r_size : Z }.

(** What the modem wrote of its clocks into the host interface. *)
Record tbgen_clk_info := Tbgen {
  tbgen1_freq_khz : Z; tbgen1_clk_src : Z; tbgen2_freq_khz : Z; tbgen2_clk_src : Z; hsdcs_sps : Z }.

(** A modem: its number and name, its entry of [g_gul_global], its PCI regions and the
    host interface in one of them, its scratch memory. *)
Record minfo_dev := MinfoDev {
  dev_id : Z; dev_name : string; global_active : Z; global_name : string;
  bars : bar → range; hif_offset : Z; hif_size : Z; clocks : tbgen_clk_info; dev_scratch : scratch }.

(** Module parameters and the version registers. *)
Record minfo_opts := MinfoOpts {
  ls_adc_sps : Z; ls_dac_sps : Z; modem_host_uart : Z; gul_ep_get_svr : Z; gul_ep_get_soc_rev : Z }.

(** *** The answer *)
Record clk_info := Clk {
  tbgen1_freq : Z; tbgen1_src : string; tbgen2_freq : Z; tbgen2_src : string;
  clk_ls_adc : Z; clk_ls_dac : Z; clk_hs_dcs : Z }.
Record scr_info := ScrInfo { modem_phy_addr : Z; host_phy_addr : Z; region_size : Z }.
Record modinfo := Modinfo {
  mi_active : Z; mi_name : string; mi_rev : Z; mi_id : Z; mi_hif : range; mi_bars : bar → range;
  mi_scratchbuf : range; mi_clk : clk_info; mi_scratchregions : list scr_info; mi_host_uart : Z }.

(** The regions in the order of their numbers. *)
Definition scratch_ids : list scratch_id :=
  [GUL_SCRATCH_MODEM_SHARE; GUL_HOST_DATA; GUL_RF_DATA; GUL_FIRMWARE; GUL_SCRATCH_DBG_LOGGER; GUL_VSPA_FW; GUL_VSPA_OVERLAY].

Section Modinfo.
Context `{ModinfoIf, ScratchIf}.

Definition clk_src1 (v : Z) : string :=
  if decide (v = LS_DCS_OUTPUT) then "LS_DCS_OUTPUT" else if decide (v = IPG_CLK) then "IPG_CLK" else "DISABLED".
Definition clk_src2 (v : Z) : string :=
  if decide (v = HS_DCS_OUTPUT) then "HS_DCS_OUTPUT" else if decide (v = IPG_CLK) then "IPG_CLK" else "DISABLED".

(** A region: its host address from its distance to the first region. *)
Definition scr_region (s : scratch) (i : scratch_id) : scr_info :=
  let base := u32 (phys_addr (regions s GUL_SCRATCH_MODEM_SHARE)) in
  let m := u32 (phys_addr (regions s i)) in
  ScrInfo m (u64 (host_phys (allocator s) + u32 (m - base))) (GulScratch.size (regions s i)).

Definition gul_modinfo_get (o : minfo_opts) (d : minfo_dev) : modinfo :=
  let s := dev_scratch d in
  let c := clocks d in
  Modinfo (global_active d) (global_name d) (gul_ep_get_svr o) (dev_id d)
    (Range (u64 (r_addr (bars d PEBM) + hif_offset d)) (hif_size d)) (bars d)
    (Range (host_phys (allocator s)) (scr_size (allocator s)))
    (Clk (tbgen1_freq_khz c) (clk_src1 (tbgen1_clk_src c)) (tbgen2_freq_khz c) (clk_src2 (tbgen2_clk_src c))
       (ls_adc_sps o) (ls_dac_sps o) (hsdcs_sps c))
    (scr_region s <$> scratch_ids) (modem_host_uart o).

(** ** Mapping *)

(** [vm_pgoff], [vm_start], [vm_end]. *)
Record vm_area := Vma { vm_pgoff : Z; vm_start : Z; vm_end : Z }.
Definition vma_offset (v : vm_area) : Z := u64 (Z.shiftl (vm_pgoff v) PAGE_SHIFT).
Definition vma_size (v : vm_area) : Z := u64 (vm_end v - vm_start v).

(** The sizes user space may map, which lie at the start of the scratch memory. *)
Definition shared_size (p : params) : Z := modem_share_buf_size p + modem_host_data_size p + modem_rf_data_size p.

(** [remap]: what [remap_pfn_range] returns.  The result, and what was mapped. *)
Definition gul_modinfo_mmap (p : params) (gul_dev : option minfo_dev) (v : vm_area) (remap : Z) : Z * option range :=
  match gul_dev with
  | None => (- EINVAL, None)
  | Some d =>
      let host := host_phys (allocator (dev_scratch d)) in
      if decide (host ≤ vma_offset v ∧ u64 (vma_offset v + vma_size v) ≤ u64 (host + shared_size p)) then
        (remap, if decide (remap = 0) then Some (Range (vma_offset v) (vma_size v)) else None)
      else (- EINVAL, None)
  end.

(** ** Requests *)
Inductive modinfo_cmd := IOCTL_GUL_MODINFO_GET_SOCREV | IOCTL_GUL_MODINFO_GET | ModinfoOther.
Inductive modinfo_answer := SocRev (rev : Z) | Info (mi : modinfo).

(** [from], [to]: the bytes the two copies leave.  A file without a device is a read
    through NULL. *)
Definition gul_modinfo_ioctl (o : minfo_opts) (gul_dev : option minfo_dev) (cmd : modinfo_cmd) (from to : Z)
    : option (Z * option modinfo_answer) :=
  match cmd with
  | ModinfoOther => Some (- EINVAL, None)
  | IOCTL_GUL_MODINFO_GET_SOCREV =>
      if decide (from ≠ 0) then Some (- EFAULT, None) else
      _ ← gul_dev;
      if decide (to ≠ 0) then Some (- EFAULT, None) else Some (0, Some (SocRev (gul_ep_get_soc_rev o)))
  | IOCTL_GUL_MODINFO_GET =>
      if decide (from ≠ 0) then Some (- EFAULT, None) else
      d ← gul_dev;
      if decide (to ≠ 0) then Some (- EFAULT, None) else Some (0, Some (Info (gul_modinfo_get o d)))
  end.

(** ** Open and the module

    [devs]: [pcidev_list]; the files of the devices are named as the modems. *)
Definition get_gul_dev_byname (devs : list minfo_dev) (name : string) : option minfo_dev :=
  snd <$> list_find (λ d, dev_name d = name) devs.
Definition gul_modinfo_open (devs : list minfo_dev) (file_name : string) : Z * option minfo_dev :=
  match get_gul_dev_byname devs file_name with None => (- EINVAL, None) | Some d => (0, Some d) end.
Definition gul_modinfo_release (f : option minfo_dev) : Z * option minfo_dev := (0, None).

(** [gul_modinfo_miscdev]: the names registered, by modem; [register]: what
    [misc_register] returns. *)
Definition gul_modinfo_init (max_modem : nat) (register : Z) (d : minfo_dev) (misc : list (option string))
    : option (Z * list (option string)) :=
  if decide (Z.of_nat max_modem ≤ dev_id d) then Some (-1, misc) else
  if decide (dev_id d < 0) then None else
  Some (register, if decide (register = 0) then <[Z.to_nat (dev_id d) := Some (dev_name d)]> misc else misc).
Definition gul_modinfo_exit (max_modem : nat) (d : minfo_dev) (misc : list (option string))
    : option (Z * list (option string)) :=
  if decide (Z.of_nat max_modem ≤ dev_id d) then Some (-1, misc) else
  if decide (dev_id d < 0) then None else
  (* a device that is not registered is taken off a list it is not on *)
  _ ← mjoin (misc !! Z.to_nat (dev_id d));
  Some (0, <[Z.to_nat (dev_id d) := None]> misc).

End Modinfo.
