(* ===== verification/GulModinfoCorrect.v ===== *)
(** * The modem information device: theorems *)
From S2P Require Import Prelude GulMsi GulScratch GulModinfo.
From stdpp Require Import strings.
#[global] Open Scope Z_scope.

Section Map.
Context `{ScratchIf, HostIf}.

(** What the kernel checks before it asks the driver: the range of the file does not
    leave 64 bits. *)
Definition file_mmap_ok (v : vm_area) : Prop :=
  0 ≤ vm_pgoff v ∧ 0 ≤ vm_start v ≤ vm_end v ∧ vm_end v < 18446744073709551616 ∧
  Z.shiftl (vm_pgoff v) PAGE_SHIFT + (vm_end v - vm_start v) < 18446744073709551616.

Lemma vma_exact v : file_mmap_ok v → 0 ≤ PAGE_SHIFT →
  vma_offset v = Z.shiftl (vm_pgoff v) PAGE_SHIFT ∧ vma_size v = vm_end v - vm_start v ∧
  0 ≤ vma_offset v ∧ 0 ≤ vma_size v ∧ vma_offset v + vma_size v < 18446744073709551616.
Proof.
  intros (Hp & Hv & He & Hs) Hps. unfold vma_offset, vma_size, u64.
  assert (H0' : 0 ≤ Z.shiftl (vm_pgoff v) PAGE_SHIFT) by (by apply Z.shiftl_nonneg).
  rewrite !Z.mod_small by lia. lia.
Qed.

(** A modem whose part of the scratch memory was set up and shared out. *)
Record set_up (memremap : Z → Z → Z) (q : params) (id : Z) (d : minfo_dev) (s : scratch) : Prop := {
  up_init : ∃ modinfo regs up, gul_scratch_buf_init memremap modinfo id q = (0, Some (s, regs, up));
  up_regions : dev_scratch d = allocate_scratch_buf_regions q s }.

Lemma init_scratch p q memremap id s modinfo regs up : sane p → gul_pcidev_init_sizes p = inr q →
  (∀ a n, n < 2147483648 → 0 < memremap a n ∧ memremap a n + n < 18446744073709551616) → 0 ≤ id < modem_num p →
  gul_scratch_buf_init memremap modinfo id q = (0, Some (s, regs, up)) →
  let n := scr_size (allocator s) in
  sound (allocator s) n ∧ (∀ i, GulScratch.size (regions s i) = 0) ∧ mod_phys_current (allocator s) = mod_phys (allocator s) ∧
  GulScratch.total (scratch_requests q) ≤ n ∧ n < 2147483648 ∧
  0 ≤ host_phys (allocator s) ∧ host_phys (allocator s) + n < 18446744073709551616.
Proof.
  intros Hs Hq Hmap Hid Hi. destruct (init_sizes_spec p q Hs Hq) as (Hsh & Hho & Hrf & Hnum & Hph & Hgl & Hsum & Hfit).
  destruct Hs as [Hpg Hco Hend Hn0 _ _ [Hg0 Hg] [Hp0 Hp]].
  set (sum := fixed_sizes + _ + _ + _) in *. assert (Hps := page_size_pos Hpg).
  assert (Hsum0 : 16777216 ≤ sum) by (unfold sum; rewrite fixed_sizes_eq; lia).
  destruct (page_align_bounds sum Hpg) as [Ha Ha']; [lia|lia|]. set (n := page_align sum) in *.
  assert (Hidn : 0 ≤ id * n ∧ id * n + n ≤ global_scratch_buf_size p) by nia.
  unfold gul_scratch_buf_init in Hi. fold sum in Hi. rewrite (i32_small sum) in Hi by lia. fold n in Hi.
  rewrite Hph, Hgl, (i32_small (id * n)) in Hi by lia. unfold u64 in Hi.
  rewrite !(Z.mod_small (scratch_buf_phys_addr p + _)) in Hi by lia. rewrite decide_False in Hi by lia.
  destruct (Hmap (scratch_buf_phys_addr p + id * n) n) as [Hv Hv']; [lia|].
  rewrite decide_False in Hi by lia.
  rewrite (Z.mod_small (GUL_SCRATCH_DMA_BUF_END_ADDR - n)), !Z.mod_small in Hi by lia. injection Hi as <- _ _.
  cbn [allocator scr_size mod_phys mod_phys_current host_phys regions no_region GulScratch.size].
  rewrite requests_total. fold sum. split; [unfold sound; cbn; lia|]. split; [done|]. split; [done|]. lia.
Qed.

(** Sharing out moves the end of what is given away, and nothing else of the memory. *)
Lemma allocate_keeps q s : let a := allocator s in let a' := allocator (allocate_scratch_buf_regions q s) in
  host_phys a' = host_phys a ∧ mod_phys a' = mod_phys a ∧ scr_size a' = scr_size a.
Proof.
  unfold allocate_scratch_buf_regions. cbv zeta. revert s. induction (scratch_requests q) as [|[i n] l IH]; intros s; [done|].
  cbn [foldl fst snd]. destruct (IH (snd (scratch_buf_allocator i n s))) as (-> & -> & ->).
  unfold scratch_buf_allocator. by repeat case_decide.
Qed.
Lemma allocate_vaddr q s : host_vaddr (allocator (allocate_scratch_buf_regions q s)) = host_vaddr (allocator s).
Proof.
  unfold allocate_scratch_buf_regions. revert s. induction (scratch_requests q) as [|[i n] l IH]; intros s; [done|].
  cbn [foldl fst snd]. rewrite IH. unfold scratch_buf_allocator. by repeat case_decide.
Qed.
Lemma share_absent q : modem_share_buf_size q = 0 → GUL_SCRATCH_MODEM_SHARE ∉ (fst <$> scratch_requests q).
Proof. intros Hn. unfold scratch_requests. rewrite decide_False by lia. repeat case_decide; cbn; rewrite !not_elem_of_cons; by split_and!; try apply not_elem_of_nil. Qed.
Lemma last_request q : scratch_requests q !! pred (length (scratch_requests q)) = Some (GUL_VSPA_OVERLAY, GUL_VSPA_OVERLAY_SIZE).
Proof. unfold scratch_requests. by repeat case_decide. Qed.

(** The regions of such a modem lie one behind the other, from the first byte on. *)
Lemma regions_laid p q memremap id d s : sane p → gul_pcidev_init_sizes p = inr q →
  (∀ a n, n < 2147483648 → 0 < memremap a n ∧ memremap a n + n < 18446744073709551616) → 0 ≤ id < modem_num p →
  set_up memremap q id d s → ∀ k i n, scratch_requests q !! k = Some (i, n) →
  regions (dev_scratch d) i = region_at (allocator s) (GulScratch.total (take k (scratch_requests q))) n.
Proof.
  intros Hs Hq Hmap Hid [(mi & regs & up & Hi) Hd].
  destruct (init_sizes_spec p q Hs Hq) as (Hsh & Hho & Hrf & _ & _ & _ & _ & _).
  destruct (init_scratch p q memremap id s mi regs up Hs Hq Hmap Hid Hi) as (Hsnd & Hfree & Hcur & Htot & Hn & Hh & Hhn).
  assert (Hpos := requests_pos q (sane_cores p Hs) Hsh Hho Hrf).
  destruct (alloc_all (scratch_requests q) s 0 (scr_size (allocator s)) Hsnd (requests_nodup q) Hpos) as [Hall _];
    [by apply Forall_true|lia|lia|lia|].
  change (foldl _ s (scratch_requests q)) with (allocate_scratch_buf_regions q s) in Hall. rewrite <- Hd in Hall.
  intros k i n Hk. exact (Hall k (i, n) Hk).
Qed.
(** A region nobody asks for stays empty. *)
Lemma init_blank memremap modinfo id q s regs up : gul_scratch_buf_init memremap modinfo id q = (0, Some (s, regs, up)) →
  ∀ i, regions s i = no_region.
Proof. unfold gul_scratch_buf_init. case_decide; [done|]. case_decide; [done|]. by intros [= <- _ _]. Qed.
Lemma region_blank memremap q id d s i : set_up memremap q id d s → i ∉ (fst <$> scratch_requests q) →
  regions (dev_scratch d) i = no_region.
Proof.
  intros [(mi & regs & up & Hi) Hd] Hn. rewrite Hd. unfold allocate_scratch_buf_regions.
  assert (Hb := init_blank _ _ _ _ _ _ _ Hi i). clear Hi Hd. revert s Hb Hn. induction (scratch_requests q) as [|[j n] l IH]; intros s Hb Hn; [done|].
  cbn [foldl fst snd]. apply not_elem_of_cons in Hn as [Hj Hn]. cbn in Hj. apply IH; [|done].
  unfold scratch_buf_allocator. case_decide; [done|]. case_decide; [done|]. cbn [snd regions]. by rewrite decide_False.
Qed.
Lemma share_first q : modem_share_buf_size q ≠ 0 → scratch_requests q !! 0%nat = Some (GUL_SCRATCH_MODEM_SHARE, modem_share_buf_size q).
Proof. intros Hn. unfold scratch_requests. by rewrite decide_True. Qed.

(** The parts of the modems lie one behind the other, each of [n] bytes. *)
Lemma part_bounds p q : sane p → gul_pcidev_init_sizes p = inr q → ∃ n, 0 ≤ shared_size q ∧
  16777216 + shared_size q ≤ n ∧ ∀ memremap id d s, 0 ≤ id < modem_num p → set_up memremap q id d s →
    host_phys (allocator (dev_scratch d)) = scratch_buf_phys_addr p + id * n ∧ scr_size (allocator (dev_scratch d)) = n ∧
    0 ≤ scratch_buf_phys_addr p ∧ scratch_buf_phys_addr p + id * n + n < 18446744073709551616.
Proof.
  intros Hs Hq. destruct (init_sizes_spec p q Hs Hq) as (Hsh & Hho & Hrf & Hnum & Hph & Hgl & Hsum & Hfit).
  destruct Hs as [Hpg _ _ Hn0 _ _ [Hg0 Hg] [Hp0 Hp]].
  set (sum := fixed_sizes + _ + _ + _) in *. assert (Hps := page_size_pos Hpg).
  assert (Hsum0 : sum = 16777216 + shared_size q) by (unfold sum, shared_size; rewrite fixed_sizes_eq; lia).
  unfold shared_size in *.
  destruct (page_align_bounds sum Hpg) as [Ha Ha']; [lia|lia|]. set (n := page_align sum) in *.
  exists n. split; [lia|]. split; [lia|]. intros memremap id d s Hid [(mi & regs & up & Hinit) Hd].
  rewrite Hd. destruct (allocate_keeps q s) as (-> & _ & ->).
  unfold gul_scratch_buf_init in Hinit. fold sum in Hinit. rewrite (i32_small sum) in Hinit by lia. fold n in Hinit.
  assert (Hidn : 0 ≤ id * n ∧ id * n + n ≤ global_scratch_buf_size p) by nia.
  rewrite Hph, Hgl, (i32_small (id * n)) in Hinit by lia. unfold u64 in Hinit.
  rewrite !(Z.mod_small (scratch_buf_phys_addr p + _)) in Hinit by lia. rewrite decide_False in Hinit by lia.
  case_decide; [done|]. injection Hinit as <- _ _. cbn [allocator host_phys scr_size].
  rewrite (Z.mod_small n) by lia. lia.
Qed.

Lemma parts_apart a b n : 0 ≤ n → a = b ∨ a * n + n ≤ b * n ∨ b * n + n ≤ a * n.
Proof.
  intros Hn. assert (Hlt : ∀ x y, x < y → x * n + n ≤ y * n).
  { intros x y Hxy. replace (x * n + n) with ((x + 1) * n) by lia. apply Z.mul_le_mono_nonneg_r; lia. }
  destruct (Z.lt_total a b) as [?|[->|?]]; auto.
Qed.

(** The regions user space shares come first, and take up exactly the shared bytes. *)
Definition is_shared (i : scratch_id) : bool :=
  match i with GUL_SCRATCH_MODEM_SHARE | GUL_HOST_DATA | GUL_RF_DATA => true | _ => false end.
Lemma shared_prefix q : ∃ l k, scratch_requests q = l ++ k ∧ GulScratch.total l = shared_size q ∧
  Forall (λ r, is_shared (fst r) = true) l ∧ Forall (λ r, is_shared (fst r) = false) k.
Proof.
  unfold scratch_requests, shared_size. rewrite (app_assoc (if decide (modem_host_data_size q ≠ 0) then _ else _)), app_assoc.
  eexists _, _. split; [reflexivity|]. split; [rewrite !total_app; repeat case_decide; cbn; lia|].
  split; [rewrite !Forall_app; repeat case_decide; repeat constructor|repeat constructor].
Qed.
Lemma shared_offset q k i n : Forall (λ r, 0 < snd r) (scratch_requests q) → scratch_requests q !! k = Some (i, n) →
  if is_shared i then GulScratch.total (take k (scratch_requests q)) + n ≤ shared_size q
  else shared_size q ≤ GulScratch.total (take k (scratch_requests q)).
Proof.
  intros Hpos Hk. destruct (shared_prefix q) as (l & m & E & Ht & Hl & Hm). rewrite E in *.
  rewrite !Forall_forall in Hl, Hm. apply Forall_app in Hpos as [Hpl Hpm]. destruct (decide (k < length l)%nat) as [Hlt|Hge].
  - rewrite lookup_app_l in Hk by done. assert (Hs := Hl _ (list_elem_of_lookup_2 _ _ _ Hk)). cbn in Hs. rewrite Hs.
    rewrite take_app_le by lia. assert (Hle := total_take_le l (S k) Hpl). rewrite (total_take_S _ _ _ Hk) in Hle. cbn in Hle. lia.
  - rewrite lookup_app_r in Hk by lia. assert (Hs := Hm _ (list_elem_of_lookup_2 _ _ _ Hk)). cbn in Hs. rewrite Hs.
    rewrite take_app_ge by lia. rewrite total_app. assert (H0t := total_nonneg (take (k - length l) m) ltac:(by apply Forall_take)). lia.
Qed.

(** A mapping that is accepted. *)
Lemma mmap_within q d v remap r : file_mmap_ok v → 0 ≤ PAGE_SHIFT → 0 ≤ host_phys (allocator (dev_scratch d)) → 0 ≤ shared_size q →
  host_phys (allocator (dev_scratch d)) + shared_size q < 18446744073709551616 →
  gul_modinfo_mmap q (Some d) v remap = (0, Some r) →
  r = Range (Z.shiftl (vm_pgoff v) PAGE_SHIFT) (vm_end v - vm_start v) ∧ 0 ≤ r_size r ∧
  host_phys (allocator (dev_scratch d)) ≤ r_addr r ∧
  r_addr r + r_size r ≤ host_phys (allocator (dev_scratch d)) + shared_size q.
Proof.
  intros Hv Hp Hh Hs Hb. destruct (vma_exact v Hv Hp) as (Ho & Hz & H1 & H2 & H3). unfold gul_modinfo_mmap.
  unfold u64. rewrite !Z.mod_small by lia.
  case_decide as Hc; [|done]. intros [= -> Hr]. rewrite decide_True in Hr by done. injection Hr as <-.
  cbn. split; [by rewrite Ho, Hz|]. lia.
Qed.
End Map.

(** The bytes of the host's memory that are a region of a modem. *)
Definition host_region (d : minfo_dev) (i : scratch_id) : range :=
  let s := dev_scratch d in
  Range (host_phys (allocator s) + (vaddr (regions s i) - host_vaddr (allocator s))) (GulScratch.size (regions s i)).
Definition apart (r1 r2 : range) : Prop := r_addr r1 + r_size r1 ≤ r_addr r2 ∨ r_addr r2 + r_size r2 ≤ r_addr r1.
Definition inside (r1 r2 : range) : Prop := r_addr r2 ≤ r_addr r1 ∧ r_addr r1 + r_size r1 ≤ r_addr r2 + r_size r2.

(** C18: User space can map only memory it shares with a modem. For sane parameters (no
    sum of which leaves an int) that the module accepts, parts that could be mapped, and
    ranges the kernel lets through: what is mapped through the devices of two modems is
    disjoint, and what is mapped through any of them is apart from the firmware, the
    log, the vector-processor image and the overlay of every modem, where these lie once
    the scratch memory is shared out; the regions meant for user space, in contrast, lie
    in the bytes that can be mapped. *)
Theorem modinfo_mmap_isolated `{ScratchIf, HostIf} memremap p q id1 id2 d1 d2 s1 s2 v1 v2 remap1 remap2 r1 r2 :
  sane p → gul_pcidev_init_sizes p = inr q →
  (∀ a n, n < 2147483648 → 0 < memremap a n ∧ memremap a n + n < 18446744073709551616) →
  0 ≤ id1 < modem_num p → 0 ≤ id2 < modem_num p →
  set_up memremap q id1 d1 s1 → set_up memremap q id2 d2 s2 → file_mmap_ok v1 → file_mmap_ok v2 →
  gul_modinfo_mmap q (Some d1) v1 remap1 = (0, Some r1) → gul_modinfo_mmap q (Some d2) v2 remap2 = (0, Some r2) →
  (id1 ≠ id2 → apart r1 r2) ∧
  ∀ i n, (i, n) ∈ scratch_requests q → r_size (host_region d2 i) = n ∧
    if is_shared i then inside (host_region d2 i) (Range (host_phys (allocator (dev_scratch d2))) (shared_size q))
    else apart r1 (host_region d2 i).
Proof.
  intros Hs Hq Hmap Hi1 Hi2 Hp1 Hp2 Hv1 Hv2 Hm1 Hm2.
  destruct (part_bounds p q Hs Hq) as (n & Hsh & Hn & Hpart).
  destruct (Hpart memremap id1 d1 s1 Hi1 Hp1) as (E1 & S1 & B0 & B1). destruct (Hpart memremap id2 d2 s2 Hi2 Hp2) as (E2 & S2 & _ & B2).
  assert (Hps : 0 ≤ PAGE_SHIFT) by apply Hs.
  destruct (mmap_within q d1 v1 remap1 r1) as (_ & Z1 & L1 & U1); try done; [rewrite E1; nia..|].
  destruct (mmap_within q d2 v2 remap2 r2) as (_ & Z2 & L2 & U2); try done; [rewrite E2; nia..|].
  rewrite E1, E2 in *. split.
  { intros Hne. unfold apart. destruct (parts_apart id1 id2 n ltac:(lia)) as [->|[|]]; [done|left|right]; lia. }
  intros i m Hin. apply list_elem_of_lookup_1 in Hin as [k Hk].
  assert (Hlaid := regions_laid p q memremap id2 d2 s2 Hs Hq Hmap Hi2 Hp2 k i m Hk).
  destruct (init_sizes_spec p q Hs Hq) as (Hq1 & Hq2 & Hq3 & _).
  assert (Hpos := requests_pos q (sane_cores p Hs) Hq1 Hq2 Hq3).
  assert (Hoff := shared_offset q k i m Hpos Hk).
  assert (H0t := total_nonneg (take k (scratch_requests q)) ltac:(by apply Forall_take)).
  assert (Hle := total_take_le (scratch_requests q) (S k) Hpos). rewrite (total_take_S _ _ _ Hk) in Hle. cbn [snd] in Hle.
  rewrite requests_total, fixed_sizes_eq in Hle.
  assert (Hhr : host_region d2 i = Range (scratch_buf_phys_addr p + id2 * n + GulScratch.total (take k (scratch_requests q))) m).
  { unfold host_region. rewrite Hlaid, E2. destruct Hp2 as [_ Hd2]. rewrite Hd2.
    assert (Hhv : host_vaddr (allocator (allocate_scratch_buf_regions q s2)) = host_vaddr (allocator s2)) by apply allocate_vaddr.
    rewrite Hhv. cbn [region_at vaddr GulScratch.size]. f_equal. lia. }
  rewrite Hhr. split; [done|]. unfold shared_size in *. destruct (is_shared i); unfold inside, apart; cbn [r_addr r_size]; [lia|].
  destruct (parts_apart id1 id2 n ltac:(lia)) as [->|[|]]; [left; lia|left; lia|right; lia].
Qed.

(** ** What is reported *)

Section Regions.
Context `{ModinfoIf, ScratchIf}.

(** A part nothing was taken from yet, of [cap] bytes, with modem addresses of 32
    bits. *)
Record fresh_part (q : params) (s : scratch) (cap : Z) : Prop := {
  f_sound : sound (allocator s) cap;
  f_free : ∀ i, GulScratch.size (regions s i) = 0;
  f_cur : mod_phys_current (allocator s) = mod_phys (allocator s);
  f_fits : GulScratch.total (scratch_requests q) ≤ cap;
  f_pos : Forall (λ r, 0 < snd r) (scratch_requests q);
  f_mod : mod_phys (allocator s) + cap < 4294967296;
  f_host : 0 ≤ host_phys (allocator s) ∧ host_phys (allocator s) + cap < 18446744073709551616 }.

Lemma alloc_host i n s : host_phys (allocator (scratch_buf_allocator i n s).2) = host_phys (allocator s).
Proof. unfold scratch_buf_allocator. by repeat case_decide. Qed.
Lemma allocate_host l : ∀ s,
  host_phys (allocator (foldl (λ s r, snd (scratch_buf_allocator (fst r) (snd r) s)) s l)) = host_phys (allocator s).
Proof. induction l as [|r l IH]; intros s; cbn [foldl]; [done|]. by rewrite IH, alloc_host. Qed.

(** The host address reported for a region that was allocated is the one its bytes are
    mapped from, its size the one asked for, when the shared region, from which the
    distances are counted, is there. *)
Theorem modinfo_regions q s cap o d i n : fresh_part q s cap → modem_share_buf_size q ≠ 0 →
  (i, n) ∈ scratch_requests q → dev_scratch d = allocate_scratch_buf_regions q s →
  ∃ r, r ∈ mi_scratchregions (gul_modinfo_get o d) ∧ region_size r = n ∧
    modem_phy_addr r = phys_addr (regions (dev_scratch d) i) ∧
    host_phy_addr r = host_phys (allocator s) + (vaddr (regions (dev_scratch d) i) - host_vaddr (allocator s)) ∧
    host_phy_addr r + n ≤ host_phys (allocator s) + cap.
Proof.
  intros [Hsnd Hfree Hcur Hcap Hpos Hmod [Hh0 Hh]] Hsh Hin Hd.
  destruct (alloc_all (scratch_requests q) s 0 cap Hsnd (requests_nodup q) Hpos) as [Hall _];
    [by apply Forall_true|lia|lia|lia|].
  change (foldl _ s (scratch_requests q)) with (allocate_scratch_buf_regions q s) in Hall. rewrite <- Hd in Hall.
  assert (Hkept := allocate_host (scratch_requests q) s).
  change (foldl _ s (scratch_requests q)) with (allocate_scratch_buf_regions q s) in Hkept. rewrite <- Hd in Hkept.
  assert (H0q : scratch_requests q !! 0%nat = Some (GUL_SCRATCH_MODEM_SHARE, modem_share_buf_size q))
    by (unfold scratch_requests; by rewrite decide_True by done).
  assert (Hb := Hall 0%nat _ H0q). cbn [fst snd take GulScratch.total] in Hb. rewrite Z.add_0_l in Hb.
  apply list_elem_of_lookup_1 in Hin as [a Ha]. assert (Hi := Hall a (i, n) Ha). cbn [fst snd] in Hi.
  assert (Ht := GulScratch.total_take_le (scratch_requests q) (S a) Hpos). rewrite (total_take_S _ a (i, n) Ha) in Ht. cbn in Ht.
  assert (H0t := total_nonneg (take a (scratch_requests q)) ltac:(by apply Forall_take)).
  rewrite Forall_forall in Hpos. assert (Hn : 0 < n) by (apply (Hpos (i, n)); by apply list_elem_of_lookup_2 in Ha).
  assert (Hv : 0 ≤ mod_phys (allocator s) ∧ 0 ≤ host_vaddr (allocator s)) by (split; apply Hsnd).
  exists (scr_region (dev_scratch d) i). split; [apply list_elem_of_fmap_2; destruct i; set_solver|].
  unfold scr_region. rewrite Hi, Hb. unfold region_at. cbn [phys_addr vaddr GulScratch.size region_size modem_phy_addr host_phy_addr].
  rewrite Hkept. set (t := GulScratch.total (take a (scratch_requests q))) in *. unfold u32, u64. rewrite !Z.add_0_l, !Z.add_0_r.
  rewrite (Z.mod_small (mod_phys (allocator s) + t)), (Z.mod_small (mod_phys (allocator s))) by lia.
  replace (mod_phys (allocator s) + t - mod_phys (allocator s)) with t by lia. rewrite !Z.mod_small by (rewrite ?Z.mod_small; lia).
  split; [done|]. split; [done|]. split; lia.
Qed.
End Regions.

(** ** What goes wrong, and witnesses *)
#[local] Existing Instance GulScratch.demo_scratch.
#[local] Existing Instance GulScratch.demo_host.
#[export] Instance demo_minfo : ModinfoIf := {| LS_DCS_OUTPUT := 1; HS_DCS_OUTPUT := 2; IPG_CLK := 3 |}.
Definition demo_opts : minfo_opts := MinfoOpts 245 245 0 0x20 0x20.
Definition demo_mdev (id : Z) (s : scratch) : minfo_dev :=
  MinfoDev id "gul" 1 "0000:01:00.0" (λ _, Range 0 0) 0 0 (Tbgen 1 1 2 3 983) s.
Definition demo_fresh : scratch :=
  Scratch (λ _, no_region) (Scr 0x90000000 0x1000 0x70000000 0x70000000 0x72000000 0x2000000).

(** Without a shared region the distances are counted from address 0: the host address
    of the firmware is reported 0x70000000 bytes too high. *)
Example no_shared_region : scr_region (allocate_scratch_buf_regions (GulScratch.Params 2 0x10000000 0x90000000 0 0 0x1000) demo_fresh) GUL_FIRMWARE =
  ScrInfo 0x70001000 (0x90000000 + 0x70001000) GUL_MAX_IMAGE_SIZE.
Proof. reflexivity. Qed.

(** A range that leaves 64 bits would be let through by the driver itself. *)
Example wrapped_range : gul_modinfo_mmap (GulScratch.Params 2 0x10000000 0x90000000 0x1000 0 0) (Some (demo_mdev 0 demo_fresh))
    (Vma 0xFFFFFFFFFFFFF 0 0x2000) 0 = (0, Some (Range 0xFFFFFFFFFFFFF000 0x2000)).
Proof. reflexivity. Qed.

Definition demo_accepted : params := GulScratch.Params 2 0x10000000 0x90000000 0x2001000 (0x8000000 - 0x3002000 - 0x100000) 0x1000.
Definition demo_scr (id : Z) : scratch :=
  match gul_scratch_buf_init (λ _ _, 0x1000) 0 id demo_accepted with (_, Some (s, _, _)) => s | _ => demo_fresh end.
Definition demo_part (id : Z) : minfo_dev := demo_mdev id (allocate_scratch_buf_regions demo_accepted (demo_scr id)).
Lemma demo_sane : sane demo_params.
Proof.
  split; try (vm_compute; split; discriminate); try (vm_compute; reflexivity); try (split; vm_compute; (discriminate || reflexivity)).
  repeat split; discriminate.
Qed.

Lemma modinfo_mmap_isolated_witness :
  let r1 := Range 0x90000000 0x2000 in let r2 := Range 0x97F00000 0x1000 in
  gul_modinfo_mmap demo_accepted (Some (demo_part 0)) (Vma 0x90000 0x1000 0x3000) 0 = (0, Some r1) ∧
  apart r1 r2 ∧ apart r1 (host_region (demo_part 1) GUL_FIRMWARE).
Proof.
  cbv zeta. split; [vm_compute; reflexivity|].
  destruct (modinfo_mmap_isolated (λ _ _, 0x1000) demo_params demo_accepted 0 1 (demo_part 0) (demo_part 1) (demo_scr 0) (demo_scr 1)
    (Vma 0x90000 0x1000 0x3000) (Vma 0x97F00 0x1000 0x2000) 0 0 (Range 0x90000000 0x2000) (Range 0x97F00000 0x1000)) as [H1 H2].
  - exact demo_sane.
  - vm_compute. reflexivity.
  - intros a n Hn. split; [reflexivity|lia].
  - vm_compute. split; [discriminate|reflexivity].
  - vm_compute. split; [discriminate|reflexivity].
  - split; [exists 0; do 2 eexists; vm_compute; reflexivity|reflexivity].
  - split; [exists 0; do 2 eexists; vm_compute; reflexivity|reflexivity].
  - repeat split; vm_compute; (discriminate || reflexivity).
  - repeat split; vm_compute; (discriminate || reflexivity).
  - vm_compute. reflexivity.
  - vm_compute. reflexivity.
  - split; [apply H1; discriminate|]. refine (proj2 (H2 GUL_FIRMWARE GUL_MAX_IMAGE_SIZE _)). apply (list_elem_of_lookup_2 _ 3). vm_compute. reflexivity.
Defined.
Lemma modinfo_regions_witness : ∃ r,
  r ∈ mi_scratchregions (gul_modinfo_get demo_opts (demo_mdev 0 (allocate_scratch_buf_regions (GulScratch.Params 2 0x10000000 0x90000000 0x2000 0 0x1000) demo_fresh))) ∧
  region_size r = GUL_MAX_IMAGE_SIZE ∧ host_phy_addr r + GUL_MAX_IMAGE_SIZE ≤ 0x90000000 + 0x2000000.
Proof.
  destruct (modinfo_regions (GulScratch.Params 2 0x10000000 0x90000000 0x2000 0 0x1000) demo_fresh 0x2000000 demo_opts
    (demo_mdev 0 (allocate_scratch_buf_regions (GulScratch.Params 2 0x10000000 0x90000000 0x2000 0 0x1000) demo_fresh)) GUL_FIRMWARE GUL_MAX_IMAGE_SIZE)
    as (r & Hr & Hs & _ & _ & Hb).
  - split; try done; try (repeat split; vm_compute; (discriminate || reflexivity)).
    vm_compute. repeat (constructor; [reflexivity|]). constructor.
  - discriminate.
  - vm_compute. set_solver.
  - reflexivity.
  - exists r. split; [exact Hr|]. split; [exact Hs|exact Hb].
Defined.
