(* ===== verification/GulDump.v ===== *)
(** * The text of the modems' state (kernel_driver/yami/gul_pci.c, gul_base.c, gul_tvd.c)

    One file of sysfs holds a page of text on every modem.  Each line is printed at the
    end of what the page holds, whose size nothing checks while it is filled; the text is
    therefore built whole, and its length compared with the page afterwards.  What is
    printed of the memory of a modem is the answer of its information device
    (GulModinfo.v). *)
From S2P Require Import Prelude GulMsi GulText GulScratch GulTti GulBase GulModinfo.
From Stdlib Require Import Ascii.
From stdpp Require Import gmap.
#[global] Open Scope Z_scope.

(** ** Names *)

(** The converters a fuse stands for, from the version register. *)
Class DumpIf := {
  GEUL_SVR_HSDCS_MASK : Z; GEUL_SVR_HSDCS_NO : Z; GEUL_SVR_HSDCS_RXONLY : Z; GEUL_SVR_REVB : Z;
  GUL_IPC_DEVNAME_PREFIX : string }.

(** [SOC]: name, fast and slow converters, vector units, accelerator, bus. *)
Definition SOC : list (list string) :=
  [["LA1200"; "HSDCS-NO"; "LSDCS-NO"; "VSPA-NO"; "FECA"; "PCI-EP,RC"];
   ["LA1201"; "HSDCS-NO"; "LSDCS-NO"; "VSPA"; "FECA"; "PCI-EP,RC"];
   ["LA1212"; "HSDCS-NO"; "LSDCS-2T"; "VSPA"; "FECA-NO"; "PCI-EP"];
   ["LA1214"; "HSDCS-NO"; "LSDCS-4T"; "VSPA"; "FECA-NO"; "PCI-EP"];
   ["LA1215"; "HSDCS-FULL"; "LSDCS-NO"; "VSPA"; "FECA-NO"; "PCI-EP"];
   ["LA1216"; "HSDCS-RX"; "LSDCS-2T"; "VSPA"; "FECA-NO"; "PCI-EP"];
   ["LA1223"; "HSDCS-NO"; "LSDCS-4T"; "VSPA"; "FECA"; "PCI-EP,RC"];
   ["LA1225"; "HSDCS-NO"; "LSDCS-NO"; "VSPA"; "FECA"; "PCI-EP,RC"];
   ["LA1234"; "HSDCS-NO"; "LSDCS-4T"; "VSPA"; "FECA"; "PCI-EP,RC"];
   ["LA1235"; "HSDCS-FULL"; "LSDCS-NO"; "VSPA"; "FECA"; "PCI-EP,RC"];
   ["LA1236"; "HSDCS-RX"; "LSDCS-2T"; "VSPA"; "FECA"; "PCI-EP,RC"];
   ["LA1218"; "HSDCS-RX"; "LSDCS-4T"; "VSPA"; "FECA-NO"; "PCI-EP"];
   ["LA1238"; "HSDCS-RX"; "LSDCS-4T"; "VSPA"; "FECA"; "PCI-EP,RC"];
   ["LA1232"; "HSDCS-NO"; "LSDCS-2T"; "VSPA"; "FECA"; "PCI-EP,RC"];
   ["RESV"; "RESV"; "RESV"; "RESV"; "RESV"; "RESV"];
   ["LA1224"; "HSDCS-FULL"; "LSDCS-4T"; "VSPA"; "FECA"; "PCI-EP,RC"]].
Definition soc_text (fuse : Z) (column : nat) : string :=
  default "" (r ← SOC !! Z.to_nat (Z.land fuse 0xF); r !! column).
Definition SOC_DCS : list string := ["HSDCS_NO"; "HSDCS_RXONLY"; "HSDCS_FULL"].

Definition scratch_buf_id_str : list string :=
  ["MODEM_SHARE"; "HOST_DATA"; "RF_DATA"; "FIRMWARE"; "SCRATCH_DBG_LOGGER"; "VSPA_FW"; "VSPA_OVERLAY"; "SCRATCH_END"].
Definition IN_MB (x : Z) : Z := Z.quot x (1024 * 1024).

(** The numbers of the PCI link. *)
Definition PCI_EXP_LNKSTA_NLW : Z := 0x3f0.
Definition PCI_EXP_LNKSTA_NLW_SHIFT : Z := 4.
Definition PCI_EXP_LNKSTA_CLS : Z := 0xf.
Definition PCI_EXP_SPEED2STR (speed : Z) : string :=
  if decide (speed = 4) then "16 GT/s" else if decide (speed = 3) then "8 GT/s" else
  if decide (speed = 2) then "5 GT/s" else if decide (speed = 1) then "2.5 GT/s" else "Unknown speed".
Definition link_width (l : Z) : Z := Z.shiftr (Z.land l PCI_EXP_LNKSTA_NLW) PCI_EXP_LNKSTA_NLW_SHIFT.
Definition link_speed (l : Z) : string := PCI_EXP_SPEED2STR (Z.land l PCI_EXP_LNKSTA_CLS).
(** The register, or an error of its read: both end in a word of 16 bits. *)
Definition pci_current_link_speed (linksta : option Z) : Z := default (- EINVAL) linksta.

Definition SVR_FAMILIES : list (Z * string) :=
  [(0x87360000, "LX2160A_FAMILY"); (0x87920000, "LS1043A_FAMILY"); (0x87070000, "LS1046A_FAMILY");
   (0x87030000, "LS1080A_FAMILY"); (0x87010000, "LS2080A_FAMILY"); (0x87090000, "LS2088A_FAMILY")].
Definition get_host_svr_name (value : Z) : string :=
  default "Unknown" (snd <$> (snd <$> list_find (λ r, fst r = value) SVR_FAMILIES)).

(** The fuse register as a number. *)
Definition fuse_number (reg : Z) : Z :=
  let personality := Z.shiftr (u32 reg) FUSE_PERSONALITY_SHIFT in if decide (personality = 0) then 16 else personality.

(** ** One modem *)

(** What the thermal driver knows: the interrupt, the temperatures and, unless there is
    none, the power (in thousandths: current, shunt, bus, power). *)
Record tvd_values := TvdValues {
  tv_irq : Z; tv_status : Z; tv_host : Z; tv_vspa : Z; tv_feca : Z; tv_pci : Z; tv_diode : option Z;
  tv_power : option (Z * Z * Z * Z) }.
Record dump_dev := DumpDev {
  d_info : minfo_dev; d_pci_id : Z; d_width_cap : Z; d_linksta : option Z; d_pcie2 : option (Z * Z);
  d_fuse : Z; d_soc_version : Z; d_fw_name : string; d_eld : option string;
  d_lsdcs : option (Z * Z * Z * Z); d_hsdcs : option (Z * Z * Z);
  d_scratch_phys : Z; d_scratch_size : Z; d_tti : tti_world; d_tvd : option tvd_values }.
(** The host: its version and unique number, the number of modems, the sidebands. *)
Record dump_host := DumpHost {
  svr_family : Z; fact_id : Z; modem_num : Z; d_disable_sideband : bool; d_opts : minfo_opts }.

Section Dump.
Context `{ModinfoIf, ScratchIf, DumpIf}.

Definition get_hsdcs_support (rev : Z) : nat :=
  let v := Z.land rev GEUL_SVR_HSDCS_MASK in
  if decide (v = GEUL_SVR_HSDCS_NO) then 0 else if decide (v = GEUL_SVR_HSDCS_RXONLY) then 1 else 2.

(** Thousandths as [%d.%d] prints them. *)
Definition milli (x : Z) : string := dec (Z.quot x 1000) +:+ "." +:+ dec (Z.rem x 1000).

(** The structure of a slot that is set is live (the invariant of GulTti.v). *)
Fixpoint tti_lines (id : Z) (i : nat) (slots : list (option nat)) (w : tti_world) : string :=
  match slots with
  | [] => ""
  | None :: l => tti_lines id (S i) l w
  | Some p :: l =>
      match heap w !! p with
      | Some x => line (" TTI:gulttidev" +:+ dec id +:+ "-" +:+ dec (Z.of_nat i) +:+ " irq " +:+ dec (GulTti.irq x) +:+
                    " irq status=" +:+ dec (tti_irq_status x)) +:+ tti_lines id (S i) l w
      | None => tti_lines id (S i) l w
      end
  end.
Definition tti_device_dump (id : Z) (w : tti_world) : string := tti_lines id 0 (slots w) w.

Definition tvd_device_dump (id : Z) (t : option tvd_values) : string :=
  match t with
  | None => ""
  | Some t =>
      line (" TVD:gultvddev" +:+ dec id +:+ " irq " +:+ dec (tv_irq t) +:+ " irq status=" +:+ dec (tv_status t)) +:+
      line (" Host Temp: " +:+ dec (tv_host t) +:+ "°C") +:+
      line (" VSPA:" +:+ dec (tv_vspa t) +:+ "°C FECA:" +:+ dec (tv_feca t) +:+ "°C PCI:" +:+ dec (tv_pci t) +:+ "°C") +:+
      match tv_diode t with Some d => line (" Diode:" +:+ dec d +:+ "°C") | None => "" end +:+
      match tv_power t with
      | Some (c, s, b, p) => line (" Cur:" +:+ milli c +:+ "A SVolt:" +:+ milli s +:+ "V BVolt:" +:+ milli b +:+ "V Pwr:" +:+ milli p +:+ "W")
      | None => ""
      end
  end.

(** A BAR's line; its number is always that of a counter that stays 0. *)
Definition bar_line (name : string) (r : range) : string :=
  line (" (" +:+ name +:+ ") BAR:0  addr:0x" +:+ hex (r_addr r) +:+ " len:0x" +:+ hex (r_size r)).
Definition region_line (i : nat) (s : scr_info) : string :=
  line (" " +:+ pad_left 5 (dec (Z.of_nat i)) +:+ " | 0x" +:+ hex (host_phy_addr s) +:+ " |   0x" +:+ hex (modem_phy_addr s) +:+
    " | 0x" +:+ hex (region_size s) +:+ " (" +:+ dec (IN_MB (region_size s)) +:+ "MB) " +:+ default "" (scratch_buf_id_str !! i)).

Definition link_lines (d : dump_dev) : string :=
  let linkstat := u16 (pci_current_link_speed (d_linksta d)) in
  line (" LA12XX PCI (Gen3) Link Width:X" +:+ hex (d_width_cap d) +:+ " Current:X" +:+ hex (link_width linkstat) +:+
    "(" +:+ link_speed linkstat +:+ ")") +:+
  match d_pcie2 d with
  | Some (cap, sta) =>
      let linkcap := u16 cap in
      let linkstat := u16 (Z.shiftr (u32 sta) 16) in
      line (" LA12XX PCI-2 (Gen3) Link Width:X" +:+ hex (link_width linkcap) +:+ " Current:X" +:+ hex (link_width linkstat) +:+
        "(" +:+ link_speed linkstat +:+ ")")
  | None => line " LA12XX PCI-2 (Gen3): Not enabled"
  end.
Definition version_line (h : dump_host) (d : dump_dev) : string :=
  let fuse := fuse_number (d_fuse d) in
  let svr := gul_ep_get_svr (d_opts h) in
  if decide (fuse = 16) then " Ver: 0x" +:+ hex svr +:+ ", Fuse: 0x0!!!"
  else line (" Ver: 0x" +:+ hex svr +:+ "[" +:+ soc_text fuse 0 +:+ ":" +:+
         (if decide (Z.land (d_soc_version d) GEUL_SVR_REVB = GEUL_SVR_REVB) then "B0" else "A0") +:+ "], Fuse: 0x" +:+ hex fuse +:+
         " [" +:+ default "" (SOC_DCS !! get_hsdcs_support svr) +:+ "] " +:+ soc_text fuse 2 +:+ " " +:+ soc_text fuse 4).
Definition converter_lines (d : dump_dev) : string :=
  " DCS(LS): " +:+
  match d_lsdcs d with
  | Some (adc, dac, adcm, dacm) =>
      "ON" +:+ line (" ADC SPS=" +:+ dec adc +:+ ", DAC SPS=" +:+ dec dac +:+ ", lsadc_mask 0x" +:+ hex adcm +:+ ", lsdac_mask 0x" +:+ hex dacm)
  | None => "OFF"
  end +:+
  " DCS(HS): " +:+
  match d_hsdcs d with
  | Some (sps, adcm, dacm) => "ON" +:+ line (" ADC & DAC SPS=" +:+ dec sps +:+ ", hsadc_mask 0x" +:+ hex adcm +:+ ", hsdac_mask 0x" +:+ hex dacm)
  | None => "OFF"
  end.
Definition memory_lines (d : dump_dev) (mi : modinfo) : string :=
  let a := allocator (dev_scratch (d_info d)) in
  nl +:+ line (" Scratch Buf:Used = " +:+ dec (IN_MB (u64 (mod_phys_current a - mod_phys a))) +:+ "MB, Total = " +:+
    dec (IN_MB (scr_size a)) +:+ "MB") +:+
  concat_text (zip_with (λ n b, bar_line n (bars (d_info d) b)) ["CCSR"; "DCSR"; "PEBM"; "FECA"] [CCSR; DCSR; PEBM; FECA]) +:+
  line (" (HIF) Start:  addr:0x" +:+ hex (r_addr (mi_hif mi)) +:+ " len:0x" +:+ hex (r_size (mi_hif mi))) +:+
  line (" Modem log to Host Status: " +:+ (if decide (mi_host_uart mi ≠ 0) then "Enable" else "Disable")) +:+
  nl +:+ line (" Scratch:  Phy addr:0x" +:+ hex (d_scratch_phys d) +:+ " Size:0x" +:+ hex (d_scratch_size d) +:+ " (" +:+
    dec (IN_MB (d_scratch_size d)) +:+ "MB)") +:+
  line " Region| Host Phy Addr|Modem Phy Addr| Size" +:+
  concat_text (imap region_line (mi_scratchregions mi)).

(** What [gul_device_dump] adds; the length at the end is that of the page, [before]
    being there already. *)
Definition device_text (h : dump_host) (d : dump_dev) : string :=
  let i := d_info d in
  let mi := gul_modinfo_get (d_opts h) i in
  line (" Modem ID=" +:+ dec (dev_id i) +:+ ", Name:" +:+ dev_name i +:+ " PCI-ID:" +:+ hex (d_pci_id d) +:+ ", PCI_ADDR:" +:+ global_name i) +:+
  line (" ARM HOST SVR(0x" +:+ hex (svr_family h) +:+ ")-Unique-ID=0x" +:+ hex (u32 (fact_id h))) +:+
  link_lines d +:+ version_line h d +:+
  line (" e200: (" +:+ d_fw_name d +:+ ")") +:+
  match d_eld d with Some e => line (" VSPA: (" +:+ e +:+ ")") | None => "" end +:+
  converter_lines d +:+
  line (" TBGen1 Freq = " +:+ dec (tbgen1_freq (mi_clk mi)) +:+ " KHz (" +:+ tbgen1_src (mi_clk mi) +:+ ")") +:+
  line (" TBGen2 Freq = " +:+ dec (tbgen2_freq (mi_clk mi)) +:+ " KHz (" +:+ tbgen2_src (mi_clk mi) +:+ ")") +:+
  line ("Sideband signals " +:+ (if d_disable_sideband h then "disabled" else "enabled")) +:+
  memory_lines d mi +:+
  nl +:+ line (" IPC:" +:+ GUL_IPC_DEVNAME_PREFIX +:+ dev_name i) +:+
  (if decide (modem_num h < 4) then tti_device_dump (dev_id i) (d_tti d) else "") +:+
  tvd_device_dump (dev_id i) (d_tvd d) +:+
  nl +:+ " -*-*-*-".
Definition gul_device_dump (h : dump_host) (d : dump_dev) (buf : string) : Z * string :=
  let buf := buf +:+ device_text h d in
  let buf := buf +:+ line (dec (Z.of_nat (String.length buf))) in
  (Z.of_nat (String.length buf), buf).

(** ** All modems *)

(** After a modem the loop stops when the page is full, or nearly so with many modems. *)
Definition stop_here (h : dump_host) (buf : string) : bool :=
  bool_decide (PAGE_SIZE < text_len buf) || (bool_decide (2 < modem_num h) && bool_decide (3000 < text_len buf)).
Fixpoint devices_loop (h : dump_host) (l : list dump_dev) (buf : string) : string :=
  match l with
  | [] => buf
  | d :: l =>
      let buf := if decide (global_active (d_info d) ≠ 0) then snd (gul_device_dump h d buf) else buf in
      if stop_here h buf then buf else devices_loop h l buf
  end.

(** [board]: the line of the board, where the build has one.  The text is what is
    written to the page from its start; its terminator follows. *)
Definition gul_show_global_status (version board : string) (gul_dev_id_g : Z) (h : dump_host) (l : list dump_dev)
  : Z * string :=
  let buf := line ("*" +:+ version) +:+ board +:+ line (" No. of LA12xx Devices Detected = " +:+ dec gul_dev_id_g) in
  let buf := devices_loop h l buf +:+ " " +:+ nl in
  (if decide (PAGE_SIZE < text_len buf) then PAGE_SIZE else text_len buf, buf).

(** The page holds the text and its terminator. *)
Definition page_holds (buf : string) : Prop := (text_len buf + 1 ≤ PAGE_SIZE)%Z.

End Dump.

(** ** A dump of memory *)

(** [%02x] of a byte; [%08lx] of an address. *)
Definition hex02 (x : Z) : string := String (hex_digit (x / 16 mod 16)) (String (hex_digit (x mod 16)) "").
Fixpoint zeros (n : nat) : string := match n with O => "" | S n => String "0" (zeros n) end.
Definition hex08 (x : Z) : string := let s := hex x in zeros (8 - String.length s) +:+ s.

(** A row from [start] on; [c] are the bytes left.  [None] is a read behind them. *)
Fixpoint hex_row (n : nat) (start p sz : Z) (c : list Z) : option (string * list Z) :=
  match n with
  | O => Some (nl, c)
  | S n =>
      '(s, c) ← (if decide (start < p ∨ p + sz ≤ start) then Some ("..", c)
                 else match c with [] => None | x :: c => Some (hex02 (u8 x), c) end);
      let start := start + 1 in
      if decide (start mod 16 = 0) then Some (s +:+ nl, c) else
      '(t, c) ← hex_row n start p sz c;
      Some (s +:+ (if decide (start mod 2 = 0) then " " else "") +:+ (if decide (start mod 4 = 0) then " " else "") +:+ t, c)
  end.
(** The rows from [start] on, [n] left. *)
Fixpoint hex_rows (n : nat) (start p sz : Z) (c : list Z) : option (list string) :=
  match n with
  | O => Some []
  | S n =>
      '(t, c) ← hex_row 16 start p sz c;
      l ← hex_rows n (start + 16) p sz c;
      Some ((hex08 start +:+ ": " +:+ t) :: l)
  end.
(** The rows of [sz] bytes at [p]; [c] are the bytes. *)
Definition gul_hexdump (p sz : Z) (c : list Z) : option (list string) :=
  let start := Z.ldiff p 15 in
  let end_ := Z.ldiff (p + sz + 15) 15 in
  hex_rows (Z.to_nat ((end_ - start) / 16)) start p sz c.

(** ** Theorems *)

Section Status.
Context `{ModinfoIf, ScratchIf, DumpIf}.

(** What one modem adds at most to a text of at most [top], with the number printed last. *)
Definition adds_at_most (h : dump_host) (top n : Z) (d : dump_dev) : Prop :=
  ∀ buf, text_len buf ≤ top → text_len (snd (gul_device_dump h d buf)) ≤ text_len buf + n.
Definition stop_limit (h : dump_host) : Z := if decide (2 < modem_num h)%Z then Z.min 3000 PAGE_SIZE else PAGE_SIZE.

Lemma devices_loop_bound h top n l : 0 ≤ n → stop_limit h ≤ top → Forall (adds_at_most h top n) l →
  ∀ buf, text_len buf ≤ top →
  text_len (devices_loop h l buf) ≤ top + n ∧ ∃ t, devices_loop h l buf = buf +:+ t.
Proof.
  intros Hn Htop. induction 1 as [|d l Hd Hl IH]; intros buf Hbuf; cbn [devices_loop].
  { split; [lia|]. exists "". by rewrite append_nil. }
  set (buf' := if decide _ then _ else buf).
  assert (Hb : (text_len buf' ≤ text_len buf + n)%Z) by (subst buf'; case_decide; [by apply Hd|lia]).
  assert (Ht : ∃ t, buf' = buf +:+ t).
  { subst buf'. case_decide; [|exists ""; by rewrite append_nil].
    cbn. rewrite append_assoc. eauto. }
  clearbody buf'. destruct Ht as [t ->]. destruct (stop_here h (buf +:+ t)) eqn:Hs; [split; [lia|eauto]|].
  destruct (IH (buf +:+ t)) as [IHb [u IHu]]; [|split; [done|rewrite IHu, append_assoc; eauto]].
  unfold stop_here in Hs. apply orb_false_iff in Hs as [H1' H2']. apply bool_decide_eq_false in H1'.
  unfold stop_limit in *. destruct (decide (2 < modem_num h)) as [Hm|Hm]; [|lia].
  rewrite bool_decide_eq_true_2 in H2' by done. cbn [andb] in H2'. apply bool_decide_eq_false in H2'. lia.
Qed.

(** The size that is returned never exceeds the page.  What is printed may: the loop
    looks at the length between two modems, so the text is at most one modem's longer
    than its limit, which is the page itself with one or two modems. *)
Theorem global_status_bounded (version board : string) (g n : Z) (h : dump_host) (l : list dump_dev) :
  let head := line ("*" +:+ version) +:+ board +:+ line (" No. of LA12xx Devices Detected = " +:+ dec g) in
  let top := Z.max (text_len head) (stop_limit h) in
  0 ≤ n → Forall (adds_at_most h top n) l →
  let '(r, buf) := gul_show_global_status version board g h l in
  r = Z.min (text_len buf) PAGE_SIZE ∧ text_len buf ≤ top + n + 2 ∧ ∃ t, buf = head +:+ t.
Proof.
  intros head top Hn Hl. unfold gul_show_global_status. fold head.
  destruct (devices_loop_bound h top n l Hn ltac:(lia) Hl head ltac:(lia)) as [Hb [t Ht]].
  rewrite text_len_append. assert (Hsp : text_len (" " +:+ nl) = 2) by reflexivity. rewrite !Hsp.
  split; [case_decide; lia|]. split; [lia|]. rewrite Ht, append_assoc. eauto.
Qed.

End Status.

(** ** Two modems *)
#[local] Instance demo_dump_scratch : ScratchIf := {|
  PAGE_SHIFT := 12; GUL_EP_CORE_MAX := 5; GUL_SCRATCH_DMA_BUF_END_ADDR := 0xE0000000;
  PCI_OUTBOUND_WINDOW_BASE_ADDR := 0xA0000000; GUL_OB_WIN_SCRATCH_BUF := 2 |}.
#[local] Instance demo_dump_minfo : ModinfoIf := {| LS_DCS_OUTPUT := 1; HS_DCS_OUTPUT := 2; IPG_CLK := 3 |}.
#[local] Instance demo_dump : DumpIf := {|
  GEUL_SVR_HSDCS_MASK := 0x30; GEUL_SVR_HSDCS_NO := 0; GEUL_SVR_HSDCS_RXONLY := 0x10; GEUL_SVR_REVB := 0x20;
  GUL_IPC_DEVNAME_PREFIX := "gulipc" |}.
Definition demo_region (i : scratch_id) : mem_region := Region 0xD8000000 0xFFFF800012000000 0x400000.
Definition demo_minfo_dev (i : Z) : minfo_dev :=
  MinfoDev i "gul0" 1 "0000:01:00.0" (λ _, Range 0x9250000000 0x4000000) 0x100000 0x4000
    (Tbgen 983040 1 983040 2 0) (Scratch demo_region (Scr 0x2360000000 0xFFFF800012000000 0xD8000000 0xDC000000 0xE0000000 0x8000000)).
Definition demo_tti_world (n : nat) : tti_world :=
  World (replicate n (Some 0%nat)) {[ 0%nat := Tti 77 None None 0 None ]} 1 [] [] [] [].
Definition demo_dump_dev (fw : string) (per i : Z) : dump_dev :=
  DumpDev (demo_minfo_dev i) 0x1c12 4 (Some 0x43) (Some (0x43, 0x430000)) 0xF000 0x20 fw (Some fw)
    (Some (2, 2, 3, 3)) (Some (1, 3, 3)) 0x2360000000 0x8000000 (demo_tti_world (Z.to_nat per))
    (Some (TvdValues 80 1 45 50 51 52 (Some 49) (Some (1200, 12, 12000, 14400)))).
Definition demo_host (n : Z) : dump_host := DumpHost 0x87360000 0x1234 n false (MinfoOpts 1 1 0 0x87020020 0x20).
Definition demo_status (fw : string) (per : Z) : Z * string :=
  gul_show_global_status "LA12xx" " NXP" 2 (demo_host 2) [demo_dump_dev fw per 0; demo_dump_dev fw per 1].

(** With names of usual length the page holds the text of two modems; with firmware in a
    directory of its own, and eight timing devices, the text is longer than the page. *)
Lemma two_modems_fit : page_holds (demo_status "geul_e200.elf" 3).2.
Proof. unfold page_holds. vm_compute. discriminate. Qed.
Lemma status_overruns_page : ¬ page_holds (demo_status (concat_text (replicate 10 "firmware/v")) 8).2.
Proof. unfold page_holds. vm_compute. intros Hl. by apply Hl. Qed.

(** The numbers that are printed below the limit have four digits. *)
Lemma dec_short x : 0 ≤ x < 9999 → text_len (dec x) ≤ 4.
Proof.
  assert (Hall : forallb (λ n, (String.length (dec (Z.of_nat n)) <=? 4)%nat) (seq 0 (Z.to_nat 9999)) = true) by (vm_compute; reflexivity).
  intros Hx. rewrite forallb_forall in Hall. specialize (Hall (Z.to_nat x)). rewrite Z2Nat.id in Hall by lia.
  unfold text_len. assert (Hl : (String.length (dec x) <= 4)%nat) by (apply Nat.leb_le, Hall, in_seq; lia). lia.
Qed.
Definition demo_head : string :=
  line ("*" +:+ "LA12xx") +:+ " NXP" +:+ line (" No. of LA12xx Devices Detected = " +:+ dec 2).
Lemma demo_adds i : i = 0 ∨ i = 1 →
  adds_at_most (demo_host 2) (Z.max (text_len demo_head) (stop_limit (demo_host 2))) 2000 (demo_dump_dev "geul_e200.elf" 3 i).
Proof.
  intros Hi buf Hb. assert (Htop : Z.max (text_len demo_head) (stop_limit (demo_host 2)) = 4096) by (vm_compute; reflexivity).
  rewrite Htop in Hb. cbn [gul_device_dump snd]. set (d := device_text _ _).
  assert (Hd : text_len d ≤ 1900) by (subst d; destruct Hi as [-> | ->]; vm_compute; discriminate). clearbody d.
  unfold line. rewrite !text_len_append. fold (text_len (buf +:+ d)). assert (Hs := text_len_nonneg (buf +:+ d)).
  assert (Hs' := text_len_append buf d). assert (H5 := dec_short (text_len (buf +:+ d)) ltac:(lia)).
  change (text_len nl) with 1. lia.
Qed.
Lemma global_status_bounded_witness :
  (demo_status "geul_e200.elf" 3).1 = Z.min (text_len (demo_status "geul_e200.elf" 3).2) PAGE_SIZE.
Proof.
  exact (proj1 (global_status_bounded "LA12xx" " NXP" 2 2000 (demo_host 2)
    [demo_dump_dev "geul_e200.elf" 3 0; demo_dump_dev "geul_e200.elf" 3 1] ltac:(lia)
    (proj2 (Forall_cons _ _ _) (conj (demo_adds 0 (or_introl eq_refl))
      (proj2 (Forall_cons _ _ _) (conj (demo_adds 1 (or_intror eq_refl)) (Forall_nil_2 _))))))).
Defined.

(** ** The rows of a dump of memory *)

(** The characters of a row of which [n] bytes are left. *)
Fixpoint row_len (n : nat) : nat :=
  match n with
  | O => 0
  | S O => 3
  | S n => 2 + (if decide (n mod 2 = 0)%nat then 1 else 0) + (if decide (n mod 4 = 0)%nat then 1 else 0) + row_len n
  end.
(** The bytes from [start] on that lie in the memory dumped. *)
Definition bytes_left (start p sz : Z) : Z := Z.max 0 (p + sz - Z.max start p).

Lemma hex02_length x : String.length (hex02 x) = 2%nat.
Proof. reflexivity. Qed.
Lemma hex_go_length n : ∀ x acc, (String.length (hex_go n x acc) ≤ n + String.length acc)%nat.
Proof.
  induction n as [|n IH]; intros x acc; cbn [hex_go]; [lia|]. case_decide; [cbn; lia|].
  etransitivity; [apply IH|]. cbn. lia.
Qed.
Lemma zeros_length n : String.length (zeros n) = n.
Proof. induction n; cbn; congruence. Qed.
Lemma hex08_length x : (String.length (hex08 x) ≤ 16)%nat.
Proof. unfold hex08. rewrite length_append, zeros_length. assert (H := hex_go_length 16 x ""). unfold hex. cbn [String.length] in H. lia. Qed.

Lemma hex_row_total k p sz n : (0 < n)%nat → ∀ start c, start = 16 * k + 16 - Z.of_nat n → (n ≤ 16)%nat →
  zlen c = bytes_left start p sz → 0 ≤ sz →
  ∃ t c', hex_row n start p sz c = Some (t, c') ∧ zlen c' = bytes_left (16 * k + 16) p sz ∧ String.length t = row_len n.
Proof.
  induction n as [|n IH]; intros Hpos start c Hs Hn Hc Hsz; [lia|]. cbn [hex_row].
  assert (Hbyte : ∃ s c', (if decide (start < p ∨ p + sz ≤ start) then Some ("..", c)
      else match c with [] => None | x :: c => Some (hex02 (u8 x), c) end) = Some (s, c') ∧
      String.length s = 2%nat ∧ zlen c' = bytes_left (start + 1) p sz).
  { unfold bytes_left in *. case_decide as Hd; [exists "..", c; repeat split; unfold bytes_left; lia|].
    destruct c as [|x c]; [exfalso; unfold zlen in Hc; cbn in Hc; lia|]. rewrite zlen_cons in Hc.
    exists (hex02 (u8 x)), c. repeat split. lia. }
  destruct Hbyte as (s & c1 & -> & Hlen & Hc1). cbn [mbind option_bind].
  destruct n as [|n].
  - rewrite decide_True by (subst start; replace (16 * k + 16 - Z.of_nat 1 + 1) with ((k + 1) * 16) by lia; apply Z.mod_mul; lia).
    exists (s +:+ nl), c1. split; [done|]. split; [rewrite Hc1; f_equal; lia|]. rewrite length_append, Hlen. reflexivity.
  - assert (Hmod : ∀ m, (m = 2 ∨ m = 4 ∨ m = 16)%Z → (start + 1) mod m = (16 - Z.of_nat (S n)) mod m).
    { intros m Hm. replace (start + 1) with (16 - Z.of_nat (S n) + (16 / m) * k * m).
      - apply Z_mod_plus_full.
      - destruct Hm as [-> |[-> | ->]]; cbn [Z.div Z.div_eucl]; change (16 / 2) with 8; change (16 / 4) with 4; change (16 / 16) with 1; lia. }
    rewrite !Hmod by tauto.
    rewrite decide_False by (rewrite Z.mod_small; lia).
    destruct (IH ltac:(lia) (start + 1) c1) as (t & c' & -> & Hc' & Ht); [lia|lia|done|done|]. cbn [mbind option_bind].
    eexists _, c'. split; [done|]. split; [done|]. rewrite !length_append, Hlen, Ht.
    change (row_len (S (S n))) with (2 + (if decide (S n mod 2 = 0)%nat then 1 else 0) + (if decide (S n mod 4 = 0)%nat then 1 else 0) + row_len (S n))%nat.
    assert (Hcase : ∀ m, (m = 2 ∨ m = 4)%nat → ((16 - Z.of_nat (S n)) mod Z.of_nat m = 0 ↔ (S n mod m = 0)%nat)).
    { clear -Hn. intros m Hm. do 15 (destruct n as [|n]; [destruct Hm as [-> | ->]; vm_compute; by split|]). lia. }
    assert (H2 := Hcase 2%nat ltac:(tauto)). assert (H4 := Hcase 4%nat ltac:(tauto)).
    change (Z.of_nat 2) with 2 in H2. change (Z.of_nat 4) with 4 in H4.
    destruct (decide ((16 - Z.of_nat (S n)) mod 2 = 0)), (decide ((16 - Z.of_nat (S n)) mod 4 = 0)),
      (decide (S n mod 2 = 0)%nat), (decide (S n mod 4 = 0)%nat); try tauto; cbn [String.length]; lia.
Qed.

Lemma hex_rows_total p sz n : 0 ≤ sz → ∀ k c, zlen c = bytes_left (16 * k) p sz →
  ∃ l, hex_rows n (16 * k) p sz c = Some l ∧ length l = n ∧ Forall (λ r, (String.length r + 1 ≤ 64)%nat) l.
Proof.
  intros Hsz. induction n as [|n IH]; intros k c Hc; [by exists []|]. cbn [hex_rows].
  destruct (hex_row_total k p sz 16 ltac:(lia) (16 * k) c) as (t & c' & -> & Hc' & Ht); [lia|lia|done|done|].
  cbn [mbind option_bind]. replace (16 * k + 16) with (16 * (k + 1)) in * by lia.
  destruct (IH (k + 1) c' Hc') as (l & -> & Hl & Hf). cbn [mbind option_bind]. eexists. split; [done|].
  split; [cbn; by rewrite Hl|]. constructor; [|done]. rewrite !length_append, Ht. assert (H8 := hex08_length (16 * k)).
  change (row_len 16) with 43%nat. cbn [String.length]. lia.
Qed.

(** A dump of memory prints the rows that cover it and reads its bytes and no other,
    and every row with its terminator fits the array of 64 characters it is built in. *)
Theorem hexdump_fits (p sz : Z) (c : list Z) : 0 ≤ p → 0 ≤ sz → zlen c = sz →
  ∃ rows, gul_hexdump p sz c = Some rows ∧ Forall (λ r, (String.length r + 1 ≤ 64)%nat) rows ∧
    16 * zlen rows = Z.ldiff (p + sz + 15) 15 - Z.ldiff p 15.
Proof.
  intros Hp Hsz Hc. unfold gul_hexdump. change 15 with (Z.ones 4). rewrite !Z.ldiff_ones_r by lia.
  rewrite !Z.shiftl_mul_pow2, !Z.shiftr_div_pow2 by lia. change (2 ^ 4) with 16. change (Z.ones 4) with 15.
  assert (Hd := Z.div_mod p 16 ltac:(lia)). assert (Hm := Z.mod_pos_bound p 16 ltac:(lia)).
  assert (Hd2 := Z.div_mod (p + sz + 15) 16 ltac:(lia)). assert (Hm2 := Z.mod_pos_bound (p + sz + 15) 16 ltac:(lia)).
  set (a := p / 16) in *. set (b := (p + sz + 15) / 16) in *. clearbody a b.
  replace (b * 16 - a * 16) with ((b - a) * 16) by lia. rewrite Z.div_mul by lia.
  replace (a * 16) with (16 * a) by lia.
  destruct (hex_rows_total p sz (Z.to_nat (b - a)) Hsz a c) as (l & Hl & Hlen & Hf); [unfold bytes_left; lia|].
  exists l. split; [done|]. split; [done|]. unfold zlen. rewrite Hlen. lia.
Qed.
Lemma hexdump_fits_witness : ∃ rows, gul_hexdump 5 3 [1; 2; 3] = Some rows ∧
  Forall (λ r, (String.length r + 1 ≤ 64)%nat) rows ∧ 16 * zlen rows = Z.ldiff (5 + 3 + 15) 15 - Z.ldiff 5 15.
Proof. apply (hexdump_fits 5 3 [1; 2; 3]); [lia|lia|reflexivity]. Defined.
