(* ===== verification/GulStatsText.v ===== *)
(** * The counters of the sub-drivers as text (kernel_driver/yami/gul_rfic.c, gul_base.c,
      gul_main_vspa.c)

    What the RF driver, the modem and the vector units hand to the statistics device of
    GulLog.v: a text of their counters, and its reset.  How many users, commands and cores
    there are comes from a header outside this repository. *)
From S2P Require Import Prelude GulText GulLog.
#[global] Open Scope Z_scope.

Class RfCounts := { RF_TOTAL_USERS : nat; RF_SW_CMD_MAX_COUNT : nat; E200_CORE_COUNT : nat; GUL_VSPA_CORES : nat; GUL_AVI_STATS_ENABLE : bool;
  bit_EP_CONTROL_IRQ_STATS : Z; bit_HOST_CONTROL_RFIC_STATS : Z }.

(** ** Counters *)

(** The counters of the modem's RF task: single ones, by user, by command, and by both. *)
Inductive rf_scalar :=
  | core_task_state | core_task_local_cmd_count | core_task_remote_cmd_count | rfic_test | local_invalid_cmd_count
  | local_desc_errors | remote_desc_errors | core_task_local_cmd_errors | core_task_remote_cmd_error
  | local_queue_recv_failed | local_resp_send_failed | local_sw_cmd_timeout_count | local_queue_send_failed
  | local_event_send_failed | remote_event_failure | sqt_pending_cmd | sqt_pending_cmd_trx_type
  | sqt_pending_cmd_pending_trx_count | sqt_pending_cmd_inserted_fpga
  | vcxo_index | rx_gain_lut_index | rx_gain_beam_mask | bbk_index_rx | bbk_index_tx | tx_gain_lut_index.
Inductive rf_row :=
  | init_state | remote_isr_hit_count | remote_isr_event_send_failed | remote_isr_enqueue_failed
  | remote_invalid_cmd_count | remote_queue_recv_failed | desc_latest_result
  | sqt_rejected_cmd | sqt_completed_cmd | sqt_error_cmd.
Inductive rf_table := remote_cmd_timeout | cmd_counts | cmd_complete_counts | cmd_latencies | max_cmd_latencies.
Record rf_ep_stats := RfEpStats { one : rf_scalar → Z; row : rf_row → nat → Z; table : rf_table → nat → nat → Z }.
Record rf_host_stats := RfHostStats { sw_cmds_tx : Z; sw_cmds_failed : Z; sw_cmds_timed_out : Z; sw_cmds_desc_busy : Z }.
(** The counters of the modem itself, by vector core the mailboxes' (sent and received,
    of two). *)
Record gul_stats := GulStats { avi : nat → Z * Z * Z * Z; timer_irq_cnt : Z; msi_irq_cnt : Z; spinlock_count : Z }.
Record counters := Counters {
  stats_control : Z; ep_stats : rf_ep_stats; host_stats : rf_host_stats; gstats : gul_stats; vspa_loading_count : nat → Z }.

(** [stats_control & (1 << bit)]. *)
Definition shown (bit : Z) (w : counters) : bool := negb (bool_decide (Z.land (stats_control w) (Z.shiftl 1 bit) = 0)).

(** ** Lines *)
Definition u (x : Z) : string := dec (u32 x).
Definition val_line (name : string) (x : Z) : string := line (name +:+ " = " +:+ u x).
Definition row_line (name : string) (i : nat) (x : Z) : string := line (name +:+ " = " +:+ u (Z.of_nat i) +:+ ", " +:+ u x).
Definition table_line (name : string) (i j : nat) (x : Z) : string :=
  line (name +:+ " = " +:+ u (Z.of_nat i) +:+ ", " +:+ u (Z.of_nat j) +:+ ", " +:+ u x).
(** Printed unless it is zero. *)
Definition unless_zero (x : Z) (s : string) : string := if decide (x = 0) then "" else s.
Definition each (n : nat) (f : nat → string) : string := concat_text (f <$> seq 0 n).

Section Text.
Context `{RfCounts}.

(** ** The RF driver *)

Definition users_line (e : rf_ep_stats) (name : string) (r : rf_row) : string :=
  each RF_TOTAL_USERS (λ i, unless_zero (row e r i) (row_line name i (row e r i))).
Definition scalar_line (e : rf_ep_stats) (name : string) (c : rf_scalar) : string := val_line name (one e c).
Definition error_line (e : rf_ep_stats) (name : string) (c : rf_scalar) : string := unless_zero (one e c) (val_line name (one e c)).
Definition cell (e : rf_ep_stats) (name : string) (t : rf_table) (i j : nat) : string :=
  unless_zero (table e t i j) (table_line name i j (table e t i j)).
Definition cells (f : nat → nat → string) : string := each RF_TOTAL_USERS (λ i, each RF_SW_CMD_MAX_COUNT (f i)).
Definition command_cell (e : rf_ep_stats) (name : string) (r : rf_row) (j : nat) : string :=
  unless_zero (row e r j) (row_line name j (row e r j)).

Definition host_text (h : rf_host_stats) : string :=
  nl +:+ line "RFIC: ##### HOST stats  ######" +:+
  val_line "sw_cmds_tx" (sw_cmds_tx h) +:+ val_line "sw_cmds_failed" (sw_cmds_failed h) +:+
  val_line "sw_cmds_timed_out" (sw_cmds_timed_out h) +:+ val_line "sw_cmds_desc_busy" (sw_cmds_desc_busy h).
Definition errors_text (e : rf_ep_stats) : string :=
  error_line e "local invalid commands" local_invalid_cmd_count +:+ error_line e "local desc errors" local_desc_errors +:+
  error_line e "remote desc errors" remote_desc_errors +:+ users_line e "remote invalid commands" remote_invalid_cmd_count +:+
  error_line e "core task local cmd errors" core_task_local_cmd_errors +:+
  error_line e "core task remote cmd errors" core_task_remote_cmd_error +:+
  error_line e "local queue recv failed" local_queue_recv_failed +:+
  users_line e "remote queue recv failed" remote_queue_recv_failed +:+
  error_line e "local resp send failed" local_resp_send_failed +:+ error_line e "local sw cmd timeout" local_sw_cmd_timeout_count +:+
  error_line e "local queue send failed" local_queue_send_failed +:+ error_line e "local event send failed" local_event_send_failed +:+
  error_line e "remote event failed" remote_event_failure.
Definition sqt_text (e : rf_ep_stats) : string :=
  unless_zero (one e sqt_pending_cmd)
    (scalar_line e "sqt_pending_cmd" sqt_pending_cmd +:+ scalar_line e "sqt_pending_cmd_trx_type" sqt_pending_cmd_trx_type +:+
     scalar_line e "sqt_pending_cmd_pending_trx_count" sqt_pending_cmd_pending_trx_count +:+
     scalar_line e "sqt_pending_cmd_inserted_fpga" sqt_pending_cmd_inserted_fpga) +:+
  each RF_SW_CMD_MAX_COUNT (λ j, command_cell e "sqt_rejected_cmd" sqt_rejected_cmd j +:+
    command_cell e "sqt_completed_cmd" sqt_completed_cmd j +:+ command_cell e "sqt_error_cmd" sqt_error_cmd j).
Definition commands_text (e : rf_ep_stats) : string :=
  cells (λ i j, cell e "cmd counts" cmd_counts i j +:+ cell e "cmd complete counts" cmd_complete_counts i j) +:+
  cells (λ i j, cell e "cmd latency" cmd_latencies i j +:+ cell e "max cmd latency" max_cmd_latencies i j).
Definition index_line (e : rf_ep_stats) (name : string) (c : rf_scalar) : string := line (name +:+ ": " +:+ u (one e c)).
Definition modem_text (e : rf_ep_stats) : string :=
  nl +:+ line "RFIC: ##### Modem stats  ######" +:+
  each E200_CORE_COUNT (λ i, row_line "init state" i (row e init_state i)) +:+
  scalar_line e "core task state" core_task_state +:+
  users_line e "remote isr hit count" remote_isr_hit_count +:+
  users_line e "remote isr event send failed" remote_isr_event_send_failed +:+
  users_line e "remote isr enqueue failed" remote_isr_enqueue_failed +:+
  cells (cell e "remote cmd timeout" remote_cmd_timeout) +:+
  scalar_line e "core task local cmd count" core_task_local_cmd_count +:+
  scalar_line e "core task remote cmd count" core_task_remote_cmd_count +:+
  scalar_line e "rfic test status" rfic_test +:+
  errors_text e +:+
  each RF_TOTAL_USERS (λ i, row_line "desc result" i (row e desc_latest_result i)) +:+
  sqt_text e +:+ commands_text e +:+
  index_line e "vcxo_index" vcxo_index +:+ index_line e "rx_gain_lut_index" rx_gain_lut_index +:+
  index_line e "rx_gain_beam_mask" rx_gain_beam_mask +:+ index_line e "bbk_index_rx" bbk_index_rx +:+
  index_line e "bbk_index_tx" bbk_index_tx +:+ index_line e "tx_gain_lut_index" tx_gain_lut_index.

Definition rfic_show_stats (w : counters) : list Z :=
  if shown bit_HOST_CONTROL_RFIC_STATS w then bytes_of (host_text (host_stats w) +:+ modem_text (ep_stats w)) else [].
Definition no_ep_stats : rf_ep_stats := RfEpStats (λ _, 0) (λ _ _, 0) (λ _ _ _, 0).
Definition rfic_reset_stats (w : counters) : counters :=
  Counters (stats_control w) no_ep_stats (RfHostStats 0 0 0 0) (gstats w) (vspa_loading_count w).
Definition rfic_stats_ops : stats_ops counters := StatsOps rfic_show_stats rfic_reset_stats.

(** ** The modem *)

Definition avi_text (g : gul_stats) (i : nat) : string :=
  let '(t0, t1, r0, r1) := avi g i in
  let l name x := line ("VSPA[" +:+ dec (Z.of_nat i) +:+ "] avi_E200_" +:+ name +:+ "_count=" +:+ u x) in
  l "mbox0_tx" t0 +:+ l "mbox1_tx" t1 +:+ l "mbox0_rx" r0 +:+ l "mbox1_rx" r1.
Definition gul_ep_show_stats (w : counters) : list Z :=
  let irq := shown bit_EP_CONTROL_IRQ_STATS w in
  let g := gstats w in
  bytes_of (line "GUL End Point Stats:" +:+
    (if irq && GUL_AVI_STATS_ENABLE then each GUL_VSPA_CORES (avi_text g) else "") +:+
    nl +:+ line "GUL Modem Stats:" +:+
    (if irq then line ("timer_irq_cnt " +:+ dec (i32 (timer_irq_cnt g))) +:+ line ("msi_irq_cnt " +:+ dec (i32 (msi_irq_cnt g))) +:+
       line ("spinlock_count " +:+ dec (i32 (spinlock_count g))) else "")).
Definition gul_ep_reset_stats (w : counters) : counters :=
  Counters (stats_control w) (ep_stats w) (host_stats w) (GulStats (λ _, (0, 0, 0, 0)) 0 0 0) (vspa_loading_count w).
Definition ep_stats_ops : stats_ops counters := StatsOps gul_ep_show_stats gul_ep_reset_stats.

(** ** A vector unit: its counter is reset, and never shown *)
Definition vspa_show_stats (w : counters) : list Z := [].
Definition vspa_reset_stats (n : nat) (w : counters) : counters :=
  Counters (stats_control w) (ep_stats w) (host_stats w) (gstats w) (λ i, if decide (i = n) then 0 else vspa_loading_count w i).
Definition vspa_stats_ops (n : nat) : stats_ops counters := StatsOps vspa_show_stats (vspa_reset_stats n).

(** The registrations, in the list of the device. *)
Definition gul_register_ep_stats_ops (mem : bool) := gul_host_add_stats mem (Some ep_stats_ops).
Definition gul_rfic_stats_init (mem : bool) := gul_host_add_stats mem (Some rfic_stats_ops).
Definition gul_vspa_stats_init (mem : bool) (n : nat) := gul_host_add_stats mem (Some (vspa_stats_ops n)).

End Text.

(** ** Theorems *)
Section Correct.
Context `{RfCounts}.

Lemma each_empty n f : (∀ i, f i = "") → each n f = "".
Proof.
  intros Hf. unfold each. generalize 0%nat. induction n as [|n IH]; intros k; cbn; [done|]. rewrite Hf. apply IH.
Qed.
Lemma each_long n f c : 0 ≤ c → (∀ i, c ≤ text_len (f i)) → Z.of_nat n * c ≤ text_len (each n f).
Proof.
  intros Hc Hf. unfold each. generalize 0%nat. induction n as [|n IH]; intros k; [unfold text_len; lia|].
  cbn [seq fmap list_fmap concat_text foldr]. rewrite text_len_append. specialize (IH (S k)). specialize (Hf k).
  unfold concat_text in IH. lia.
Qed.

(** The text of counters that are all zero: the errors and the commands leave no line. *)
Definition zero_modem_text : string :=
  nl +:+ line "RFIC: ##### Modem stats  ######" +:+ each E200_CORE_COUNT (λ i, row_line "init state" i 0) +:+
  val_line "core task state" 0 +:+ val_line "core task local cmd count" 0 +:+ val_line "core task remote cmd count" 0 +:+
  val_line "rfic test status" 0 +:+ each RF_TOTAL_USERS (λ i, row_line "desc result" i 0) +:+
  line ("vcxo_index" +:+ ": " +:+ u 0) +:+ line ("rx_gain_lut_index" +:+ ": " +:+ u 0) +:+
  line ("rx_gain_beam_mask" +:+ ": " +:+ u 0) +:+ line ("bbk_index_rx" +:+ ": " +:+ u 0) +:+
  line ("bbk_index_tx" +:+ ": " +:+ u 0) +:+ line ("tx_gain_lut_index" +:+ ": " +:+ u 0).
Lemma cells_empty f : (∀ i j, f i j = "") → cells f = "".
Proof. intros Hf. unfold cells. apply each_empty. intros i. by apply each_empty. Qed.
Lemma zero_text : modem_text no_ep_stats = zero_modem_text.
Proof.
  unfold modem_text, errors_text, sqt_text, commands_text, users_line.
  rewrite !cells_empty by done. rewrite !(each_empty RF_TOTAL_USERS (λ i, unless_zero _ _)) by done.
  rewrite (each_empty RF_SW_CMD_MAX_COUNT) by done. reflexivity.
Qed.

(** Writing to the statistics of the RF driver empties them: what is shown next is
    the heads, the zero totals and the state lines, whatever was counted before; whether
    it is shown is not changed. *)
Theorem reset_shows_zero (w : counters) :
  rfic_show_stats (rfic_reset_stats w) =
  if shown bit_HOST_CONTROL_RFIC_STATS w then bytes_of (host_text (RfHostStats 0 0 0 0) +:+ zero_modem_text) else [].
Proof.
  unfold rfic_show_stats. change (shown bit_HOST_CONTROL_RFIC_STATS (rfic_reset_stats w)) with (shown bit_HOST_CONTROL_RFIC_STATS w).
  cbn [rfic_reset_stats ep_stats host_stats]. by rewrite zero_text.
Qed.

Lemma u_nonneg x : 0 ≤ text_len (u x).
Proof. apply text_len_nonneg. Qed.
Lemma table_line_long name i j x : text_len name + 8 ≤ text_len (table_line name i j x).
Proof.
  unfold table_line. rewrite text_len_line, !text_len_append. change (text_len " = ") with 3. change (text_len ", ") with 2.
  assert (H1 := u_nonneg (Z.of_nat i)). assert (H2 := u_nonneg (Z.of_nat j)). assert (H3 := u_nonneg x). lia.
Qed.
Lemma cell_long e name t i j : table e t i j ≠ 0 → text_len name + 8 ≤ text_len (cell e name t i j).
Proof. intros Hn. unfold cell, unless_zero. rewrite decide_False by done. apply table_line_long. Qed.
Lemma commands_long e : (∀ t i j, t ≠ remote_cmd_timeout → table e t i j ≠ 0) →
  Z.of_nat RF_TOTAL_USERS * (Z.of_nat RF_SW_CMD_MAX_COUNT * 87) ≤ text_len (commands_text e).
Proof.
  intros Hall. unfold commands_text. rewrite text_len_append.
  assert (H1 : Z.of_nat RF_TOTAL_USERS * (Z.of_nat RF_SW_CMD_MAX_COUNT * 45) ≤
    text_len (cells (λ i j, cell e "cmd counts" cmd_counts i j +:+ cell e "cmd complete counts" cmd_complete_counts i j))).
  { unfold cells. apply each_long; [lia|]. intros i. apply each_long; [lia|]. intros j. rewrite text_len_append.
    assert (Ha := cell_long e "cmd counts" cmd_counts i j ltac:(by apply Hall)).
    assert (Hb := cell_long e "cmd complete counts" cmd_complete_counts i j ltac:(by apply Hall)).
    change (text_len "cmd counts") with 10 in Ha. change (text_len "cmd complete counts") with 19 in Hb. lia. }
  assert (H2 : Z.of_nat RF_TOTAL_USERS * (Z.of_nat RF_SW_CMD_MAX_COUNT * 42) ≤
    text_len (cells (λ i j, cell e "cmd latency" cmd_latencies i j +:+ cell e "max cmd latency" max_cmd_latencies i j))).
  { unfold cells. apply each_long; [lia|]. intros i. apply each_long; [lia|]. intros j. rewrite text_len_append.
    assert (Ha := cell_long e "cmd latency" cmd_latencies i j ltac:(by apply Hall)).
    assert (Hb := cell_long e "max cmd latency" max_cmd_latencies i j ltac:(by apply Hall)).
    change (text_len "cmd latency") with 11 in Ha. change (text_len "max cmd latency") with 15 in Hb. lia. }
  lia.
Qed.

(** The text of the RF driver is not bounded by the buffer of the statistics: once
    every user has run every command, 87 characters are written for each pair, and with
    377 pairs the collection writes past the 32 KiB. *)
Theorem rf_text_overruns (w : counters) (l : list (stats_ops counters)) :
  shown bit_HOST_CONTROL_RFIC_STATS w = true →
  (∀ t i j, t ≠ remote_cmd_timeout → table (ep_stats w) t i j ≠ 0) →
  377 ≤ Z.of_nat RF_TOTAL_USERS * Z.of_nat RF_SW_CMD_MAX_COUNT →
  gul_stats_collect (rfic_stats_ops :: l) w 0 = None.
Proof.
  intros Hs Hall Hn. cbn [gul_stats_collect rfic_stats_ops gul_show_stats]. rewrite decide_False by lia.
  unfold rfic_show_stats. rewrite Hs, bytes_of_length. rewrite decide_True; [done|].
  assert (Hc := commands_long (ep_stats w) Hall).
  assert (Hle : text_len (commands_text (ep_stats w)) ≤ text_len (host_text (host_stats w) +:+ modem_text (ep_stats w))).
  { unfold modem_text.
    repeat (lazymatch goal with |- _ ≤ text_len (commands_text _ +:+ _) => fail | |- _ => etransitivity; [|apply text_len_right] end).
    apply text_len_left. }
  rewrite Nat2Z.inj_lt. unfold text_len in *. change (Z.of_nat GUL_LOG_BUF_SIZE) with 32768. nia.
Qed.

(** Writing to the device resets what is registered, whatever is written. *)
Lemma write_resets_all n w :
  gul_stats_write [ep_stats_ops; rfic_stats_ops; vspa_stats_ops n] w =
    (0, Counters (stats_control w) no_ep_stats (RfHostStats 0 0 0 0) (GulStats (λ _, (0, 0, 0, 0)) 0 0 0)
          (λ i, if decide (i = n) then 0 else vspa_loading_count w i)).
Proof. reflexivity. Qed.
End Correct.

#[local] Instance rf_counts_example : RfCounts := {|
  RF_TOTAL_USERS := 7; RF_SW_CMD_MAX_COUNT := 60; E200_CORE_COUNT := 6; GUL_VSPA_CORES := 8; GUL_AVI_STATS_ENABLE := true;
  bit_EP_CONTROL_IRQ_STATS := 0; bit_HOST_CONTROL_RFIC_STATS := 8 |}.
Definition busy_counters : counters :=
  Counters 0x101 (RfEpStats (λ _, 0) (λ _ _, 0) (λ _ _ _, 1)) (RfHostStats 1 0 0 0) (GulStats (λ _, (0, 0, 0, 0)) 0 0 0) (λ _, 0).
Lemma rf_text_overruns_witness : gul_stats_collect [rfic_stats_ops] busy_counters 0 = None.
Proof. apply (rf_text_overruns busy_counters []); [reflexivity|by intros|cbn; lia]. Defined.
(** After a reset the texts of all three fit. *)
Lemma reset_text_fits :
  is_Some (gul_stats_collect [ep_stats_ops; rfic_stats_ops; vspa_stats_ops 0] (rfic_reset_stats busy_counters) 0).
Proof. vm_compute. eauto. Qed.
