(* ===== verification/AppCli.v ===== *)
(** * The shell of the modem (app/cli/gul_cli.c, physical_mem.c)

    A program of user space that reads a line, tells from its end how it is to be run, and
    leaves it in the memory of the modem, whose place the information device gives
    (GulModinfo.v); then it sends a message through the library of GulCli.v.  [None] is
    undefined behaviour: a write outside an array, or the use of a character that was
    never stored. *)
From S2P Require Import Prelude GulMsi GulScratch GulLog GulCli GulModinfo GulModinfoCorrect.
#[global] Open Scope Z_scope.

Definition MAX_CMD_LEN : Z := 128.
Inductive cmd_mode := SYNC_MODE | ASYNC_MODE | WAIT_MODE.
#[export] Instance cmd_mode_eq : EqDecision cmd_mode.
Proof. solve_decision. Defined.

(** ** The line *)

(** A line in its array, and [strlen]. *)
Fixpoint strlen (l : list Z) : option Z :=
  match l with [] => None | c :: l => if decide (c = 0) then Some 0 else n ← strlen l; Some (n + 1) end.
Definition at_ (l : list Z) (i : Z) : option Z := if decide (0 ≤ i) then l !! Z.to_nat i else None.
Definition put_at (i v : Z) (l : list Z) : option (list Z) :=
  if decide (0 ≤ i < zlen l) then Some (<[Z.to_nat i := v]> l) else None.
Definition wait_word : list Z := [119; 97; 105; 116].
Definition test_word : list Z := [116; 101; 115; 116].

(** The mode and the line without its ending; [inl] ends the program. *)
Definition select_cmd_mode (l : list Z) : option (unit + cmd_mode * list Z) :=
  cmd_len ← strlen l;
  let has c i := bool_decide (at_ l (cmd_len - i) = Some c) in
  if bool_decide (3 < cmd_len) && has 45 3 && has 115 2 then
    l ← put_at (cmd_len - 4) 0 l; Some (inr (SYNC_MODE, l))
  else if bool_decide (3 < cmd_len) && has 38 2 then
    l ← put_at (cmd_len - 3) 0 l; Some (inr (ASYNC_MODE, l))
  else if decide (take 4 l = wait_word) then
    if decide (cmd_len < 7) then Some (inl tt) else Some (inr (WAIT_MODE, l))
  else
    l ← put_at (cmd_len - 1) 0 l; Some (inr (SYNC_MODE, l)).

(** [memmove(time_str, cmd_line + 5, cmd_len - 6)] and [atoi(time_str)]: the array has 32
    characters, none of them set. *)
Definition blank (c : Z) : bool := bool_decide (c = 32 ∨ 9 ≤ c ≤ 13).
Definition digit (c : Z) : bool := bool_decide (48 ≤ c ≤ 57).
Fixpoint atoi_digits (b : buffer) (v : Z) : option Z :=
  match b with
  | Some c :: b => if digit c then atoi_digits b (10 * v + (c - 48)) else Some v
  | _ => None
  end.
Fixpoint atoi (b : buffer) : option Z :=
  match b with
  | Some c :: b' =>
      if blank c then atoi b'
      else if decide (c = 45) then v ← atoi_digits b' 0; Some (- v)
      else if decide (c = 43) then atoi_digits b' 0 else atoi_digits b 0
  | _ => None
  end.
Definition wait_seconds (l : list Z) : option Z :=
  cmd_len ← strlen l;
  time_str ← memcpy (undef 32) 0 (init l) 5 (cmd_len - 6);
  atoi time_str.

(** ** Mapping physical memory *)

Definition APP_PAGE_SIZE : Z := 4096.
(** What is asked of the kernel: the pages, and how far into them the region lies. *)
Record mem_map := MemMap { map_page : Z; mm_size : Z; virt_off : Z }.
Definition map_physical_region (physical_addr size : Z) : mem_map :=
  let end_addr := u64 (physical_addr + size - 1) in
  let start_page := Z.ldiff physical_addr (APP_PAGE_SIZE - 1) in
  let end_page := Z.ldiff end_addr (APP_PAGE_SIZE - 1) in
  MemMap start_page (u64 (end_page - start_page + APP_PAGE_SIZE)) (Z.land physical_addr (APP_PAGE_SIZE - 1)).
(** The file of the memory is opened by the first user and closed by the last. *)
Definition open_dev_mem (refs : Z) : bool * Z := (bool_decide (refs = 0), refs + 1).
Definition close_dev_mem (refs : Z) : bool * Z := (bool_decide (refs - 1 = 0), refs - 1).

(** ** The command *)

(** The message numbers come from a header outside this repository. *)
Class CliMsgs := { GUL_CLI_MSG_ID_GENERIC : Z; GUL_CLI_MSG_ID_L1REFAPP : Z }.

(** Where the command is stored, for the host and for the modem. *)
Definition command_place (mi : modinfo) : option (Z * Z) :=
  r ← mi_scratchregions mi !! 0%nat;
  Some (u64 (host_phy_addr r + (r_size (mi_scratchbuf mi) - MAX_CMD_LEN)),
        u32 (modem_phy_addr r + (r_size (mi_scratchbuf mi) - MAX_CMD_LEN))).

Section Send.
Context `{CliCalls, CliMsgs}.
Local Abbreviation W := (M cliw).

(** [info]: the answer of the information device, none if it cannot be opened or asked;
    [cmd]: the array of [MAX_CMD_LEN] characters; [cmd_line]: that of the options.  The
    bytes stored in the memory, and the seconds slept. *)
Definition send_cli_cmdline (fuel : nat) (info : option modinfo) (mode : cmd_mode) (core_id : Z) (cmd_line cmd : list Z) (t : cli)
  : W (cli * list (Z * list Z) * option Z) :=
  _ ← lift (strlen cmd_line);
  match info with
  | None => mret (t, [], None)
  | Some mi =>
      '(host, modem) ← lift (command_place mi);
      bytes ← lift (if decide (MAX_CMD_LEN ≤ zlen cmd) then Some (take (Z.to_nat MAX_CMD_LEN) cmd) else None);
      let id := if decide (take 4 cmd = test_word) then GUL_CLI_MSG_ID_GENERIC else GUL_CLI_MSG_ID_L1REFAPP in
      let t := Cli (cli_id t) (cli_core_id t) (handle t) (event_fd t) (Mbox id modem core_id (mdata3 (mbox t))) in
      s ← match mode with
          | SYNC_MODE => _ ← libcli_send_msi_sync fuel t; mret None
          | ASYNC_MODE => _ ← libcli_send_msi_async fuel t; mret None
          | WAIT_MODE => v ← lift (wait_seconds cmd_line); mret (Some v)
          end;
      mret (t, [(host, bytes)], s)
  end.
End Send.

(** ** Theorems *)

Definition line_buf (l : list Z) : list Z := l ++ [10] ++ replicate (127 - length l) 0.

Lemma strlen_app l k : Forall (λ c, c ≠ 0) l → strlen (l ++ 0 :: k) = Some (zlen l).
Proof.
  induction 1 as [|c l Hc Hl IH]; [done|]. cbn [app strlen]. rewrite decide_False by done. rewrite IH.
  cbn [mbind option_bind]. rewrite zlen_cons. f_equal. lia.
Qed.
Lemma line_len l : Forall (λ c, c ≠ 0) l → zlen l < 127 → strlen (line_buf l) = Some (zlen l + 1).
Proof.
  intros Hl Hn. unfold line_buf, zlen in *. replace (127 - length l)%nat with (S (126 - length l)) by lia.
  cbn [replicate]. change (l ++ [10] ++ 0 :: replicate (126 - length l) 0) with (l ++ 10 :: 0 :: replicate (126 - length l) 0).
  replace (l ++ 10 :: 0 :: replicate (126 - length l) 0) with ((l ++ [10]) ++ 0 :: replicate (126 - length l) 0) by (by rewrite <- app_assoc).
  rewrite strlen_app by (apply Forall_app; split; [done|repeat constructor; lia]).
  unfold zlen. rewrite length_app. f_equal. cbn. lia.
Qed.

(** Mapping a region maps every byte of it, and whole pages. *)
Theorem region_is_mapped (a n : Z) : 0 ≤ a → 0 < n → a + n + APP_PAGE_SIZE < 2 ^ 64 →
  let m := map_physical_region a n in
  map_page m + virt_off m = a ∧ virt_off m + n ≤ mm_size m ∧ map_page m mod APP_PAGE_SIZE = 0 ∧ mm_size m mod APP_PAGE_SIZE = 0.
Proof.
  intros Ha Hn Hb. unfold map_physical_region. cbn [map_page virt_off mm_size]. unfold APP_PAGE_SIZE in *. change (4096 - 1) with (Z.ones 12).
  unfold u64. rewrite (Z.mod_small (a + n - 1)) by lia. rewrite !Z.ldiff_ones_r, Z.land_ones by lia.
  rewrite !Z.shiftl_mul_pow2, !Z.shiftr_div_pow2 by lia. change (2 ^ 12) with 4096.
  assert (H1 := Z.div_mod a 4096 ltac:(lia)). assert (H2 := Z.div_mod (a + n - 1) 4096 ltac:(lia)).
  assert (B1 := Z.mod_pos_bound a 4096 ltac:(lia)). assert (B2 := Z.mod_pos_bound (a + n - 1) 4096 ltac:(lia)).
  assert (Hle : a / 4096 ≤ (a + n - 1) / 4096) by (apply Z.div_le_mono; lia).
  set (x := a / 4096) in *. set (y := (a + n - 1) / 4096) in *. clearbody x y.
  rewrite (Z.mod_small (y * 4096 - x * 4096 + 4096)) by (set (r := a mod 4096) in *; set (q := (a + n - 1) mod 4096) in *; clearbody r q; lia). replace (y * 4096 - x * 4096 + 4096) with ((y - x + 1) * 4096) by lia.
  rewrite !Z.mod_mul by lia. lia.
Qed.

(** Waiting never works: the time is copied without an end, so that what follows its last
    digit was never stored. *)
Lemma atoi_digits_undef l n : ∀ v, Forall (λ c, digit c = true) l → atoi_digits (init l ++ replicate n None) v = None.
Proof.
  induction l as [|c l IH]; intros v Hl; cbn; [by destruct n|]. apply Forall_cons in Hl as [Hc Hl]. rewrite Hc. by apply IH.
Qed.
Lemma no_char (k : list Z) i c : 0 ≤ i < zlen k → c ∉ k → bool_decide (at_ (line_buf k) i = Some c) = false.
Proof.
  intros Hi Hc. apply bool_decide_eq_false. unfold at_. rewrite decide_True by lia. unfold line_buf.
  rewrite lookup_app_l by (unfold zlen in Hi; lia). intros Hk. apply Hc. by eapply list_elem_of_lookup_2.
Qed.
Theorem wait_is_undefined (l : list Z) : Forall (λ c, digit c = true) l → 0 < zlen l ≤ 26 →
  let k := wait_word ++ [32] ++ l in
  select_cmd_mode (line_buf k) = Some (inr (WAIT_MODE, line_buf k)) ∧ wait_seconds (line_buf k) = None.
Proof.
  intros Hl Hn k.
  assert (Hd : ∀ c, c ∈ l → 48 ≤ c ≤ 57).
  { intros c Hc. rewrite Forall_forall in Hl. specialize (Hl c Hc). unfold digit in Hl. by apply bool_decide_eq_true in Hl. }
  assert (Hin : ∀ c, c ∈ k → c ∈ [119; 97; 105; 116; 32] ∨ 48 ≤ c ≤ 57).
  { intros c Hc. subst k. rewrite app_assoc in Hc. apply elem_of_app in Hc as [Hc|Hc]; [by left|right; auto]. }
  assert (Hk : Forall (λ c, c ≠ 0) k) by (apply Forall_forall; intros c Hc; apply Hin in Hc as [Hc|Hc]; [|lia];
    intros ->; revert Hc; apply (bool_decide_eq_true_1 (0 ∉ _)); reflexivity).
  assert (Hz : zlen k = 5 + zlen l) by (subst k; unfold zlen; cbn; lia).
  assert (H45 : 45 ∉ k) by (intros Hc; apply Hin in Hc as [Hc|Hc]; [|lia]; revert Hc; apply (bool_decide_eq_true_1 (45 ∉ _)); reflexivity).
  assert (H38 : 38 ∉ k) by (intros Hc; apply Hin in Hc as [Hc|Hc]; [|lia]; revert Hc; apply (bool_decide_eq_true_1 (38 ∉ _)); reflexivity).
  assert (Hlen := line_len k Hk ltac:(lia)). split.
  - unfold select_cmd_mode. rewrite Hlen. cbn [mbind option_bind]. rewrite (no_char k _ 45), (no_char k _ 38) by (done || lia).
    rewrite !andb_false_r. rewrite decide_True by done. by rewrite decide_False by lia.
  - unfold wait_seconds. rewrite Hlen. cbn [mbind option_bind]. replace (zlen k + 1 - 6) with (zlen l) by lia.
    assert (Hm : memcpy (undef 32) 0 (init (line_buf k)) 5 (zlen l) = Some (init l ++ replicate (32 - length l) None)).
    { unfold memcpy, sub. rewrite decide_True by (rewrite zlen_init; unfold line_buf, zlen in *; rewrite length_app; lia).
      replace (take (Z.to_nat (zlen l)) (drop (Z.to_nat 5) (init (line_buf k)))) with (init l).
      - cbn [mbind option_bind]. unfold blit. rewrite decide_True by (rewrite zlen_init; change (zlen (undef 32)) with 32; lia).
        cbn [Z.to_nat take app Nat.add]. unfold undef. rewrite drop_replicate, length_init. done.
      - subst k. unfold line_buf, init. rewrite <- fmap_drop, <- fmap_take. f_equal. unfold zlen. rewrite Nat2Z.id.
        set (tail := replicate _ 0). change (drop (Z.to_nat 5) ((wait_word ++ [32] ++ l) ++ [10] ++ tail)) with (l ++ [10] ++ tail).
        by rewrite take_app_length. }
    rewrite Hm. cbn [mbind option_bind]. destruct l as [|c l]; [unfold zlen in Hn; cbn in Hn; lia|].
    cbn [init fmap list_fmap app atoi]. assert (Hc := Hd c ltac:(by left)).
    assert (blank c = false) as -> by (unfold blank; apply bool_decide_eq_false; lia).
    rewrite !decide_False by lia. exact (atoi_digits_undef (c :: l) _ 0 Hl).
Qed.

(** The other endings: a line that ends in [ -s] is run and waited for without it, one
    that ends in [ &] is not waited for, and any other loses its newline. *)
Lemma ending_examples :
  select_cmd_mode (line_buf [108; 115; 32; 45; 115]) = Some (inr (SYNC_MODE, [108; 115; 0; 45; 115] ++ [10] ++ replicate 122 0)) ∧
  select_cmd_mode (line_buf [108; 115; 32; 38]) = Some (inr (ASYNC_MODE, [108; 115; 0; 38] ++ [10] ++ replicate 123 0)) ∧
  select_cmd_mode (line_buf [108; 115]) = Some (inr (SYNC_MODE, [108; 115; 0] ++ replicate 125 0)).
Proof. repeat split. Qed.
(** The end of the input is a line without characters: its newline, that is not there,
    is taken off before the array. *)
Lemma end_of_input : select_cmd_mode (replicate 128 0) = None.
Proof. reflexivity. Qed.

(** ** Where a command lies *)
Section Place.
Context `{ModinfoIf, ScratchIf, HostIf}.

(** C29: Where the shell leaves a command: for sane parameters that the module accepts
    and a part that could be mapped, the host writes it to the last but 127 byte of the
    modem's part of the scratch memory, which is not in the memory shared with user
    space but behind the start of the vector units' overlay, the last region. The modem
    is told the same byte if there is a shared region ([modem_share_buf_size] is not 0);
    without one it is told only the offset, which is another byte. *)
Theorem command_in_overlay (memremap : Z → Z → Z) (p q : params) (id : Z) (o : minfo_opts) (d : minfo_dev) (s : scratch) :
  sane p → gul_pcidev_init_sizes p = inr q →
  (∀ a n, n < 2147483648 → 0 < memremap a n ∧ memremap a n + n < 18446744073709551616) → 0 ≤ id < modem_num p →
  set_up memremap q id d s →
  let a := allocator s in
  let off := scr_size a - MAX_CMD_LEN in
  command_place (gul_modinfo_get o d) =
    Some (host_phys a + off, u32 ((if decide (modem_share_buf_size q = 0) then 0 else mod_phys a) + off)) ∧
  0 ≤ off ∧ shared_size q ≤ off ∧ phys_addr (regions (dev_scratch d) GUL_VSPA_OVERLAY) ≤ mod_phys a + off.
Proof.
  intros Hs Hq Hmap Hid Hup a off. assert (Hlaid := regions_laid p q memremap id d s Hs Hq Hmap Hid Hup).
  assert (Hfirst : phys_addr (regions (dev_scratch d) GUL_SCRATCH_MODEM_SHARE) = if decide (modem_share_buf_size q = 0) then 0 else mod_phys a).
  { case_decide as Hz.
    - rewrite (region_blank memremap q id d s) by (done || by apply share_absent). done.
    - rewrite (Hlaid 0%nat _ _ (share_first q Hz)). apply Z.add_0_r. }
  destruct Hup as [(mi & regs & up & Hi) Hd]. destruct (init_sizes_spec p q Hs Hq) as (Hsh & Hho & Hrf & _ & _ & _ & _ & _).
  destruct (init_scratch p q memremap id s mi regs up Hs Hq Hmap Hid Hi) as (Hsnd & Hfree & Hcur & Htot & Hn & Hh & Hhn).
  set (k := pred (length (scratch_requests q))) in *. assert (Hlast := Hlaid k _ _ (last_request q)). fold a in Hlast.
  assert (Hsum : total (take k (scratch_requests q)) + GUL_VSPA_OVERLAY_SIZE = total (scratch_requests q)).
  { assert (Ht := total_take_S (scratch_requests q) k (GUL_VSPA_OVERLAY, GUL_VSPA_OVERLAY_SIZE) (last_request q)).
    cbn [snd] in Ht. rewrite <- Ht. f_equal. apply take_ge.
    subst k. assert (scratch_requests q ≠ []) by (intros He; assert (Hl := last_request q); by rewrite He in Hl).
    destruct (scratch_requests q); [done|cbn; lia]. }
  rewrite requests_total, fixed_sizes_eq in Htot, Hsum. unfold GUL_VSPA_OVERLAY_SIZE in Hsum. fold a in Htot, Hhn, Hh, Hn.
  unfold shared_size. unfold MAX_CMD_LEN in off.
  split; [|split; [subst off; lia|split; [subst off; lia|rewrite Hlast; cbn [region_at phys_addr]; subst off; lia]]].
  unfold command_place, gul_modinfo_get. cbn [mi_scratchregions mi_scratchbuf r_size fmap list_fmap scratch_ids lookup list_lookup].
  unfold scr_region. rewrite Hfirst. cbn [host_phy_addr modem_phy_addr mbind option_bind]. rewrite Z.sub_diag.
  rewrite Hd. destruct (allocate_keeps q s) as (Eh & Em & Es). rewrite Eh, Es. fold a. fold off.
  assert (Ho : 0 ≤ off ∧ off < scr_size a) by (subst off; lia). unfold MAX_CMD_LEN. change (scr_size a - 128) with off.
  change (u32 0) with 0. rewrite Z.add_0_r. unfold u64 at 2. rewrite (Z.mod_small (host_phys a)) by lia.
  f_equal. f_equal; [unfold u64; apply Z.mod_small; lia|]. unfold u32. rewrite Z.add_mod_idemp_l by lia. done.
Qed.
End Place.

#[local] Existing Instance GulScratch.demo_scratch.
#[local] Existing Instance GulScratch.demo_host.
Definition place_scratch : scratch :=
  match gul_scratch_buf_init (λ _ _, 0x1000) 0 1 demo_accepted with (_, Some (s, _, _)) => s | _ => demo_fresh end.
Definition place_dev : minfo_dev := demo_mdev 1 (allocate_scratch_buf_regions demo_accepted place_scratch).
Lemma command_in_overlay_witness :
  command_place (gul_modinfo_get demo_opts place_dev) =
    Some (host_phys (allocator place_scratch) + (scr_size (allocator place_scratch) - MAX_CMD_LEN),
          u32 (mod_phys (allocator place_scratch) + (scr_size (allocator place_scratch) - MAX_CMD_LEN))).
Proof.
  refine (proj1 (command_in_overlay (λ _ _, 0x1000) demo_params demo_accepted 1 demo_opts place_dev place_scratch demo_sane _ _ _ _)).
  - vm_compute. reflexivity.
  - intros a n Hn. split; [reflexivity|lia].
  - vm_compute. split; [discriminate|reflexivity].
  - split; [exists 0; do 2 eexists; vm_compute; reflexivity|reflexivity].
Defined.
