(* ===== verification/AppCalTable.v ===== *)
(** * The calibration table of an RF chip, saved and restored (app/rfic/cal_table_util.c)

    A program of user space that asks sysfs where the table lies, maps the memory and
    writes it to a file, or a file to it.  [virt] is what is mapped from the table on,
    and a read of memory that is not mapped kills the program ([None]). *)
From S2P Require Import Prelude.
#[global] Open Scope Z_scope.

Definition PAGE_SIZE : Z := 4096.
Definition FILE_PATH_LEN : Z := 150.

(** ** The answer of sysfs *)

(** [strtoull(s, &end, 10)]: blanks, a sign, digits, with the largest value on overflow;
    without digits the end is the start. *)
Definition is_digit (c : Z) : bool := bool_decide (48 ≤ c ≤ 57).
Definition is_blank (c : Z) : bool := bool_decide (c = 32 ∨ 9 ≤ c ≤ 13).
Fixpoint skip_blanks (l : list Z) : list Z :=
  match l with c :: l' => if is_blank c then skip_blanks l' else l | [] => [] end.
Fixpoint digits (l : list Z) (v : Z) : Z * list Z :=
  match l with
  | c :: l' => if is_digit c then digits l' (10 * v + (c - 48)) else (v, l)
  | [] => (v, [])
  end.
Definition ULLONG_MAX : Z := 18446744073709551615.
Definition strtoull (l : list Z) : Z * list Z :=
  let s := skip_blanks l in
  let '(neg, s) := match s with 45 :: s => (true, s) | 43 :: s => (false, s) | _ => (false, s) end in
  match s with
  | c :: _ =>
      if is_digit c then
        let '(v, rest) := digits s 0 in
        ((if decide (ULLONG_MAX < v) then ULLONG_MAX else if neg then u64 (- v) else v), rest)
      else (0, l)
  | [] => (0, l)
  end.

(** [strchr(s, '[')], behind the bracket. *)
Fixpoint after_bracket (l : list Z) : option (list Z) :=
  match l with [] => None | c :: l => if decide (c = 91) then Some l else after_bracket l end.
(** The loop over the two numbers, which are 0 when they are missing. *)
Definition parse_answer (s : list Z) : Z * Z :=
  match after_bracket s with
  | None => (0, 0)
  | Some s =>
      let '(addr, s) := strtoull s in
      match after_bracket s with None => (addr, 0) | Some s => (addr, fst (strtoull s)) end
  end.
(** Rounded up, by one page too many for a whole number of pages. *)
Definition map_size (size : Z) : Z := u64 ((size / PAGE_SIZE + 1) * PAGE_SIZE).
(** Where the mapping begins, and how far into it the table lies. *)
Definition map_start (addr : Z) : Z := Z.ldiff addr (PAGE_SIZE - 1).
Definition table_off (addr : Z) : Z := Z.land addr (PAGE_SIZE - 1).

(** [sprintf(file_name, "%scal_table_%s", path, xcvr)] into [FILE_PATH_LEN] characters,
    with the lengths the program allows. *)
Definition args_ok (xcvr path : list Z) : bool := bool_decide (zlen xcvr ≤ 4) && bool_decide (zlen path ≤ 136).
Definition file_name_fits (xcvr path : list Z) : bool := bool_decide (zlen path + 10 + zlen xcvr + 1 ≤ FILE_PATH_LEN).

(** ** From the file to the memory *)

(** One read of [n] bytes at [pos]: what the page buffer holds after it. *)
Definition read_page (file : list Z) (pos n : Z) (buf : buffer) : option buffer :=
  blit buf 0 (init (take (Z.to_nat n) (drop (Z.to_nat pos) file))).

(** The loop: [i] is a [char] ([wrap] takes it to its range), [errno] what the calls
    leave there.  [inl] is the end of the program with an error. *)
Record wstate := WState { w_i : Z; w_rem : Z; w_total : Z; w_buf : buffer; w_virt : buffer }.
Section Write.
Variables (wrap : Z → Z) (file : list Z) (no_of_pages : Z) (errno : Z → Z).
Definition write_step (s : wstate) : option (unit + wstate) :=
  let '(rem, cur) := if decide (PAGE_SIZE < w_rem s) then (w_rem s - PAGE_SIZE, PAGE_SIZE) else (0, w_rem s) in
  buf ← read_page file (w_total s) cur (w_buf s);
  if decide (errno (w_i s) ≠ 0) then Some (inl tt) else
  virt ← memcpy (w_virt s) (w_total s) buf 0 cur;
  Some (inr (WState (wrap (w_i s + 1)) rem (w_total s + cur) buf virt)).
(** [None] inside is fuel that ran out. *)
Fixpoint write_loop (fuel : nat) (s : wstate) : option (option (unit + wstate)) :=
  if decide (w_i s < no_of_pages) then
    match fuel with
    | O => Some None
    | S fuel =>
        r ← write_step s;
        match r with inl e => Some (Some (inl e)) | inr s => write_loop fuel s end
    end
  else Some (Some (inr s)).
End Write.

(** [size] is the rounded one.  The outcome as in the loop, with the memory. *)
Definition write_cal_table (wrap : Z → Z) (errno : Z → Z) (fuel : nat) (size : Z) (file : list Z) (virt : buffer)
  : option (option (unit + buffer)) :=
  let no_of_pages := size / PAGE_SIZE + 1 in
  r ← write_loop wrap file no_of_pages errno fuel (WState 0 size 0 (undef PAGE_SIZE) virt);
  Some (match r with None => None | Some (inl e) => Some (inl e) | Some (inr s) => Some (inr (w_virt s)) end).

(** ** From the memory to the file *)

(** The kernel stops at the end of what is mapped; what the file held behind the bytes
    written stays there.  The result is not looked at, but [errno] is. *)
Definition read_cal_table (errno size : Z) (virt : list Z) (file : list Z) : unit + list Z :=
  let bytes := take (Z.to_nat size) virt in
  if decide (errno ≠ 0) then inl tt else inr (bytes ++ drop (length bytes) file).

(** ** Theorems *)

Definition sunsigned (x : Z) : Z := u8 x.

(** The first pages are in the memory, and the rest is as it was. *)
Definition restored (k : Z) (m m' : list Z) : list Z := take (Z.to_nat k) m ++ drop (Z.to_nat k) m'.

Lemma read_page_full file pos buf : 0 ≤ pos → pos + PAGE_SIZE ≤ zlen file → zlen buf = PAGE_SIZE →
  read_page file pos PAGE_SIZE buf = Some (init (take (Z.to_nat PAGE_SIZE) (drop (Z.to_nat pos) file))).
Proof.
  intros Hp Hf Hb. unfold read_page, blit. set (l := take _ _).
  assert (Hl : length l = Z.to_nat PAGE_SIZE).
  { subst l. rewrite length_take, length_drop. unfold zlen in Hf. lia. }
  unfold zlen in *. rewrite length_init. rewrite decide_True by lia. rewrite Hl. cbn [Z.to_nat take].
  rewrite drop_ge by lia. by rewrite app_nil_r.
Qed.
Lemma restored_step k m m' : 0 ≤ k → k + PAGE_SIZE ≤ zlen m → length m' = length m →
  memcpy (init (restored k m m')) k (init (take (Z.to_nat PAGE_SIZE) (drop (Z.to_nat k) m))) 0 PAGE_SIZE =
    Some (init (restored (k + PAGE_SIZE) m m')).
Proof.
  intros Hk Hm Hlen. unfold memcpy, sub. set (l := take _ (drop _ m)).
  assert (Hl : length l = Z.to_nat PAGE_SIZE) by (subst l; rewrite length_take, length_drop; unfold zlen in Hm; lia).
  unfold zlen in *. rewrite length_init, Hl. rewrite decide_True by (unfold PAGE_SIZE in *; lia).
  change (drop (Z.to_nat 0) (init l)) with (init l). cbn [mbind option_bind]. rewrite take_ge by (rewrite length_init; lia).
  assert (Hr : length (restored k m m') = length m).
  { unfold restored. rewrite length_app, length_take, length_drop. unfold PAGE_SIZE in *. lia. }
  unfold blit, zlen. rewrite !length_init, Hr, Hl. rewrite decide_True by (unfold PAGE_SIZE in *; lia). f_equal.
  unfold init. rewrite <- fmap_take, <- fmap_drop, <- !fmap_app. f_equal. unfold restored.
  rewrite take_app_le by (rewrite length_take; unfold PAGE_SIZE in *; lia). rewrite take_take, Nat.min_id.
  rewrite drop_app_ge by (rewrite length_take; unfold PAGE_SIZE in *; lia). rewrite length_take, drop_drop.
  replace (Z.to_nat (k + PAGE_SIZE)) with (Z.to_nat k + Z.to_nat PAGE_SIZE)%nat by (unfold PAGE_SIZE in *; lia).
  rewrite <- (take_take_drop m). subst l. rewrite <- app_assoc. do 2 f_equal.
  f_equal. unfold PAGE_SIZE in *. lia.
Qed.

Lemma restored_all m m' : length m' = length m → restored (zlen m) m m' = m.
Proof.
  intros Hl. unfold restored, zlen. rewrite Nat2Z.id. rewrite (take_ge m), drop_ge by lia. apply app_nil_r.
Qed.
Lemma restored_none m m' : restored 0 m m' = m'.
Proof. reflexivity. Qed.

Lemma blit_none b i : 0 ≤ i ≤ zlen b → blit b i [] = Some b.
Proof.
  intros Hi. unfold blit. rewrite decide_True by (change (zlen (A := option Z) []) with 0; lia).
  cbn [app length]. by rewrite Nat.add_0_r, take_drop.
Qed.
Lemma read_page_none file pos buf : read_page file pos 0 buf = Some buf.
Proof. apply blit_none. assert (H := zlen_nonneg buf). lia. Qed.
Lemma memcpy_none b i buf : 0 ≤ i ≤ zlen b → memcpy b i buf 0 0 = Some b.
Proof.
  intros Hi. unfold memcpy, sub. rewrite decide_True by (assert (H := zlen_nonneg buf); lia). by apply blit_none.
Qed.

(** The loop in the middle: [j] pages done of [n]. *)
Lemma write_loop_pages m m' n : length m' = length m → zlen m = Z.of_nat n * PAGE_SIZE → Z.of_nat n + 1 < 256 →
  ∀ d j buf fuel, (j + d = n)%nat → zlen buf = PAGE_SIZE → (d < fuel)%nat →
  ∃ s, write_loop sunsigned m (Z.of_nat n + 1) (λ _, 0) fuel
    (WState (Z.of_nat j) (Z.of_nat d * PAGE_SIZE) (Z.of_nat j * PAGE_SIZE) buf (init (restored (Z.of_nat j * PAGE_SIZE) m m')))
    = Some (Some (inr s)) ∧ w_virt s = init m.
Proof.
  intros Hlen Hm Hn. induction d as [|d IH]; intros j buf fuel Hjd Hbuf Hf.
  - destruct fuel as [|fuel]; [lia|]. cbn [write_loop w_i]. rewrite decide_True by lia.
    unfold write_step. cbn [w_rem w_total w_buf w_virt w_i]. rewrite decide_False by (unfold PAGE_SIZE; lia).
    change (Z.of_nat 0 * PAGE_SIZE) with 0. rewrite read_page_none. cbn [mbind option_bind]. rewrite decide_False by lia.
    rewrite memcpy_none by (replace (Z.of_nat j * PAGE_SIZE) with (zlen m) by lia; rewrite restored_all, zlen_init by done; unfold zlen; lia).
    cbn [mbind option_bind].
    replace (sunsigned (Z.of_nat j + 1)) with (Z.of_nat n + 1) by (unfold sunsigned, u8; rewrite Z.mod_small; lia).
    destruct fuel; cbn [write_loop w_i]; rewrite decide_False by lia; eexists; (split; [done|]); cbn [w_virt];
      replace (Z.of_nat j * PAGE_SIZE) with (zlen m) by lia; by rewrite restored_all.
  - destruct fuel as [|fuel]; [lia|]. cbn [write_loop w_i]. rewrite decide_True by lia.
    unfold write_step. cbn [w_rem w_total w_buf w_virt w_i].
    assert (Hpage : Z.of_nat j * PAGE_SIZE + PAGE_SIZE ≤ zlen m) by (unfold PAGE_SIZE in *; lia).
    assert (Hcur : (if decide (PAGE_SIZE < Z.of_nat (S d) * PAGE_SIZE) then (Z.of_nat (S d) * PAGE_SIZE - PAGE_SIZE, PAGE_SIZE)
      else (0, Z.of_nat (S d) * PAGE_SIZE)) = (Z.of_nat d * PAGE_SIZE, PAGE_SIZE)).
    { unfold PAGE_SIZE. case_decide; f_equal; lia. }
    rewrite Hcur. rewrite read_page_full by (unfold PAGE_SIZE in *; lia). cbn [mbind option_bind].
    rewrite decide_False by lia. rewrite restored_step by (unfold PAGE_SIZE in *; lia). cbn [mbind option_bind].
    replace (sunsigned (Z.of_nat j + 1)) with (Z.of_nat (S j)) by (unfold sunsigned, u8; rewrite Z.mod_small; lia).
    replace (Z.of_nat j * PAGE_SIZE + PAGE_SIZE) with (Z.of_nat (S j) * PAGE_SIZE) by lia.
    apply IH; [lia| |lia]. rewrite zlen_init. unfold zlen in *. rewrite length_take, length_drop. unfold PAGE_SIZE in *. lia.
Qed.

(** C15: A calibration table that was saved can be restored, on a host whose char is
    unsigned, under four conditions: the table begins a page, its size as the program
    rounds it is that of the memory mapped and a whole number of pages below 255, no
    call fails, and every read returns as many bytes as asked for. Then writing the file
    that was saved makes any memory of that size equal to the saved one, whatever the
    file held before and behind it. (Outside of these conditions it may fail: see
    [large_table_hangs], [unaligned_table_faults] and [short_file_repeats].) *)
Theorem cal_table_roundtrip (m m' old file : list Z) (n fuel : nat) :
  zlen m = Z.of_nat n * PAGE_SIZE → length m' = length m → Z.of_nat n < 255 → (n < fuel)%nat →
  read_cal_table 0 (zlen m) m old = inr file →
  write_cal_table sunsigned (λ _, 0) fuel (zlen m) file (init m') = Some (Some (inr (init m))).
Proof.
  intros Hm Hlen Hn Hf Hr. unfold read_cal_table in Hr. rewrite decide_False in Hr by lia. injection Hr as <-.
  rewrite take_ge by (unfold zlen; lia). unfold write_cal_table. rewrite Hm, Z.div_mul by (unfold PAGE_SIZE; lia).
  set (tail := drop _ old).
  assert (Hext : ∀ k fuel s, w_total s + w_rem s = zlen m → 0 ≤ w_total s → 0 ≤ w_rem s →
    write_loop sunsigned (m ++ tail) k (λ _, 0) fuel s = write_loop sunsigned m k (λ _, 0) fuel s).
  { clear. intros k. induction fuel as [|fuel IH]; intros s Hs H0 H1; cbn [write_loop]; case_decide; try done.
    unfold write_step. assert (Hcut : ∀ a, 0 ≤ a ≤ w_rem s → read_page (m ++ tail) (w_total s) a (w_buf s) = read_page m (w_total s) a (w_buf s)).
    { intros a Ha. unfold read_page. do 2 f_equal. rewrite drop_app_le by (unfold zlen in Hs; lia).
      apply take_app_le. rewrite length_drop. unfold zlen in Hs. lia. }
    destruct (decide (PAGE_SIZE < w_rem s)).
    - rewrite Hcut by (unfold PAGE_SIZE in *; lia). destruct (read_page _ _ _ _) as [b|]; [|done]. cbn [mbind option_bind].
      rewrite decide_False by lia. destruct (memcpy _ _ _ _ _) as [v|]; [|done]. cbn [mbind option_bind].
      apply IH; cbn; unfold PAGE_SIZE in *; lia.
    - rewrite Hcut by lia. destruct (read_page _ _ _ _) as [b|]; [|done]. cbn [mbind option_bind].
      rewrite decide_False by lia. destruct (memcpy _ _ _ _ _) as [v|]; [|done]. cbn [mbind option_bind].
      apply IH; cbn; lia. }
  rewrite Hext by (cbn; unfold PAGE_SIZE in *; lia).
  destruct (write_loop_pages m m' n Hlen Hm ltac:(lia) n 0 (undef PAGE_SIZE) fuel) as (s & Hs & Hv); [lia|reflexivity|lia|].
  change (Z.of_nat 0) with 0 in Hs. rewrite Z.mul_0_l, restored_none in Hs. rewrite Hs. cbn [mbind option_bind]. by rewrite Hv.
Qed.
Lemma cal_table_roundtrip_witness :
  write_cal_table sunsigned (λ _, 0) 9 (zlen (replicate 8192 5)) (replicate 8192 5 ++ drop 8192 (replicate 9000 1)) (init (replicate 8192 0)) =
    Some (Some (inr (init (replicate 8192 5)))).
Proof.
  apply (cal_table_roundtrip (replicate 8192 5) (replicate 8192 0) (replicate 9000 1) (replicate 8192 5 ++ drop 8192 (replicate 9000 1)) 2 9).
  - vm_compute. reflexivity.
  - vm_compute. reflexivity.
  - lia.
  - lia.
  - vm_compute. reflexivity.
Defined.

(** A table of 255 pages or more is never written to its end: the counter of the loop
    wraps before the number of pages. *)
Theorem large_table_hangs (errno : Z → Z) (fuel : nat) (size : Z) (file : list Z) (virt : buffer) :
  256 ≤ size / PAGE_SIZE + 1 → ∀ v, write_cal_table sunsigned errno fuel size file virt ≠ Some (Some (inr v)).
Proof.
  intros Hn v. unfold write_cal_table.
  assert (Hloop : ∀ fuel s, 0 ≤ w_i s < 256 → ∀ s', write_loop sunsigned file (size / PAGE_SIZE + 1) errno fuel s ≠ Some (Some (inr s'))).
  { clear -Hn. induction fuel as [|fuel IH]; intros s Hi s'; cbn [write_loop]; rewrite decide_True by lia; [done|].
    unfold write_step. destruct (if decide (PAGE_SIZE < w_rem s) then _ else _) as [rem cur].
    destruct (read_page _ _ _ _) as [b|]; [|done]. cbn [mbind option_bind]. case_decide; [done|].
    destruct (memcpy _ _ _ _ _) as [b2|]; [|done]. cbn [mbind option_bind]. apply IH. cbn [w_i]. unfold sunsigned, u8.
    apply Z.mod_pos_bound. lia. }
  specialize (Hloop fuel (WState 0 size 0 (undef PAGE_SIZE) virt) ltac:(cbn; lia)).
  destruct (write_loop _ _ _ _ _ _) as [[[e|s]|]|]; cbn [mbind option_bind]; try done. by destruct (Hloop s).
Qed.

(** A table that does not begin a page is written behind the mapping; a file shorter
    than the table repeats its last page; and the longest arguments that are let through
    do not leave room for the terminator of the name. *)
Lemma unaligned_table_faults :
  write_cal_table sunsigned (λ _, 0) 9 4096 (replicate 4096 5) (undef (4096 - table_off 0x10010)) = None.
Proof. vm_compute. reflexivity. Qed.
Lemma short_file_repeats :
  write_cal_table sunsigned (λ _, 0) 9 8192 (replicate 4096 5) (init (replicate 8192 0)) = Some (Some (inr (init (replicate 8192 5)))).
Proof. vm_compute. reflexivity. Qed.
Lemma longest_path_overruns xcvr path : zlen xcvr = 4 → zlen path = 136 → args_ok xcvr path = true ∧ file_name_fits xcvr path = false.
Proof.
  intros Hx Hp. unfold args_ok, file_name_fits. rewrite Hx, Hp. by split.
Qed.
(** The answer of the driver, read as it was printed. *)
Lemma answer_example : parse_answer [112; 91; 52; 48; 57; 54; 93; 32; 91; 49; 50; 51; 93] = (4096, 123).
Proof. reflexivity. Qed.
