(* ===== verification/GulL3.v ===== *)
(** * Cache locking (kernel_driver/l3_cache_locking/l3_cache_locking.c)

    A miscellaneous device by which user space, or the parameters of the module, lock
    ways of the third-level cache: the driver checks the request and passes it to the
    firmware by one call, the arguments in registers.  What the firmware answers, which
    ranges are memory, and the other answers of the kernel are [L3Calls]; the calls
    made are a log. *)
From S2P Require Import Prelude GulMsi.
#[global] Open Scope Z_scope.

Definition EIO : Z := 5.
Definition SIP_SMC64_CACHE_LOCKING : Z := 0xC200FF20.
Definition SIP_SMC64_CACHE_WAYS_SHIFT : Z := 16.

(** [x0] to [x4]; the registers behind them are passed as they are. *)
Record smc_regs := Regs { x0 : Z; x1 : Z; x2 : Z; x3 : Z; x4 : Z }.
Inductive l3_call := Smc (r : smc_regs) | MiscRegister | MiscDeregister.

(** [smc_x1]: the second register after the call. *)
Class L3Calls := {
  smc_x1 : list l3_call → smc_regs → Z;
  memblock_is_region_memory : Z → Z → bool;
  misc_register : Z }.

(** [struct cache_locking_data]. *)
Record cache_locking_data := Locking { enable : Z; ways : Z; base0 : Z; base1 : Z; base2 : Z; base3 : Z }.

Section L3.
Context `{L3Calls}.
Local Abbreviation L := (M (list l3_call)).

Definition smc_call (r : smc_regs) : L Z := λ l, Some (smc_x1 l r, l ++ [Smc r]).
Definition is_valid (phyaddr size : Z) : bool := memblock_is_region_memory phyaddr size || bool_decide (phyaddr = 0).

(** The sizes of the first two and of the last two regions. *)
Definition region_sizes (w : Z) : Z * Z :=
  if decide (w ≤ 4) then (0x80000, 0x80000)
  else if decide (w = 8) then (0x100000, 0x100000)
  else if decide (w = 12) then (0x100000, 0x200000) else (0, 0).

Definition smc_x0 (w : Z) : Z := Z.lor SIP_SMC64_CACHE_LOCKING (u32 (Z.shiftl w SIP_SMC64_CACHE_WAYS_SHIFT)).

(** The call and its result. *)
Definition configure (r : smc_regs) : L Z := x ← smc_call r; mret (if decide (x = 0) then 0 else -1).

Definition enable_l3_cache_locking (w b0 b1 b2 b3 : Z) : L Z :=
  if decide (w ≠ 1 ∧ w ≠ 2 ∧ w ≠ 4 ∧ w ≠ 8 ∧ w ≠ 12) then mret (-1) else
  let '(size1, size2) := region_sizes w in
  if decide (1 ≤ w ∧ is_valid b0 size1 = false) then mret (-1) else
  if decide (2 ≤ w ∧ is_valid b1 size1 = false) then mret (-1) else
  if decide (4 ≤ w ∧ is_valid b2 size2 = false) then mret (-1) else
  if decide (4 ≤ w ∧ is_valid b3 size2 = false) then mret (-1) else
  configure (Regs (smc_x0 w) b0 b1 b2 b3).

(** The number of ways is not looked at. *)
Definition disable_l3_cache_locking (w : Z) : L Z := configure (Regs (smc_x0 w) 0 0 0 0).

(** [magic]: the type of the request is the driver's; [ok], [fault]: what [access_ok]
    and the copy say. *)
Inductive l3_cmd := CACHE_LOCKING_IOC | L3Other (magic : bool).
#[export] Instance l3_cmd_eq : EqDecision l3_cmd.
Proof. solve_decision. Defined.
Definition cache_locking_ioctl (cmd : l3_cmd) (ok fault : bool) (data : cache_locking_data) : L Z :=
  if decide (cmd = L3Other false) then mret (- ENOTTY) else
  if negb ok then mret (- EFAULT) else
  match cmd with
  | CACHE_LOCKING_IOC =>
      if fault then mret (- EIO) else
      if decide (enable data ≠ 0)
      then enable_l3_cache_locking (u32 (ways data)) (base0 data) (base1 data) (base2 data) (base3 data)
      else disable_l3_cache_locking (ways data)
  | L3Other _ => mret (- ENOTTY)
  end.

(** ** The module: its parameters are a request *)
Definition init (p : cache_locking_data) : L Z :=
  _ ← modify (λ l, l ++ [MiscRegister]);
  if decide (misc_register ≠ 0) then mret misc_register else
  if decide (ways p ≠ 0) then enable_l3_cache_locking (ways p) (base0 p) (base1 p) (base2 p) (base3 p) else mret 0.
Definition fini (p : cache_locking_data) : L Z :=
  _ ← modify (λ l, l ++ [MiscDeregister]);
  if decide (ways p ≠ 0) then disable_l3_cache_locking (ways p) else mret 0.

(** ** Theorems *)

(** The ways a call locks. *)
Definition smc_ways (r : smc_regs) : Z := Z.land (Z.shiftr (x0 r) SIP_SMC64_CACHE_WAYS_SHIFT) 0xFF.
(** The function it calls. *)
Definition smc_function (r : smc_regs) : Z := Z.land (x0 r) 0xFF00FFFF.

(** A call that locks [w] ways: of the driver's function, and each of the regions that
    many ways are locked for is memory, or none. *)
Definition region_ok (b size : Z) : Prop := b = 0 ∨ memblock_is_region_memory b size = true.
Record lock_ok (r : smc_regs) : Prop := {
  l_function : smc_function r = SIP_SMC64_CACHE_LOCKING;
  l_ways : smc_ways r ∈ [1; 2; 4; 8; 12];
  l_first : region_ok (x1 r) (fst (region_sizes (smc_ways r)));
  l_second : 2 ≤ smc_ways r → region_ok (x2 r) (fst (region_sizes (smc_ways r)));
  l_others : 4 ≤ smc_ways r → region_ok (x3 r) (snd (region_sizes (smc_ways r))) ∧
                              region_ok (x4 r) (snd (region_sizes (smc_ways r))) }.

Lemma valid_ok b size : is_valid b size = false ∨ region_ok b size.
Proof.
  unfold is_valid, region_ok. destruct (memblock_is_region_memory b size); [by right; right|].
  destruct (decide (b = 0)) as [->|Hb]; [by right; left|]. left. by rewrite bool_decide_eq_false_2.
Qed.

Lemma guard_valid (c w b size : Z) : ¬ (c ≤ w ∧ is_valid b size = false) → c ≤ w → region_ok b size.
Proof. intros Hn Hw. destruct (valid_ok b size) as [Hv|Hv]; [by destruct Hn|done]. Qed.

Lemma enable_spec w b0 b1 b2 b3 l : ∃ r l', enable_l3_cache_locking w b0 b1 b2 b3 l = Some (r, l') ∧
    ((r = -1 ∧ l' = l) ∨
     ∃ regs, regs = Regs (smc_x0 w) b0 b1 b2 b3 ∧ l' = l ++ [Smc regs] ∧ lock_ok regs ∧ smc_ways regs = w ∧
       r = if decide (smc_x1 l regs = 0) then 0 else -1).
Proof.
  unfold enable_l3_cache_locking.
  destruct (decide (w ≠ 1 ∧ w ≠ 2 ∧ w ≠ 4 ∧ w ≠ 8 ∧ w ≠ 12)) as [|Hin]; [do 2 eexists; split; [reflexivity|by left]|].
  assert (Hcase : w ∈ [1; 2; 4; 8; 12]) by (rewrite !elem_of_cons; lia). clear Hin.
  destruct (region_sizes w) as [s1 s2] eqn:Es.
  do 4 (let Hc := fresh in case_decide as Hc; [do 2 eexists; split; [reflexivity|by left]|let Hv := fresh "Hv" in assert (Hv := guard_valid _ _ _ _ Hc); clear Hc]).
  do 2 eexists. split; [reflexivity|]. right. eexists. split; [reflexivity|]. split; [reflexivity|].
  assert (Hw : smc_ways (Regs (smc_x0 w) b0 b1 b2 b3) = w ∧ smc_function (Regs (smc_x0 w) b0 b1 b2 b3) = SIP_SMC64_CACHE_LOCKING ∧ 1 ≤ w)
    by (unfold smc_ways, smc_function; cbn [x0]; repeat (apply elem_of_cons in Hcase as [-> |Hcase]; [split_and!; (reflexivity || lia)|]); by apply not_elem_of_nil in Hcase).
  destruct Hw as (Hw & Hf & H1'). split; [|done]. split; rewrite ?Hw, ?Es; cbn [x1 x2 x3 x4 fst snd]; auto.
Qed.

(** A call that locks soundly, or one that locks nothing. *)
Definition call_ok (c : l3_call) : Prop :=
  match c with Smc r => lock_ok r ∨ (x1 r = 0 ∧ x2 r = 0 ∧ x3 r = 0 ∧ x4 r = 0) | _ => True end.

Inductive l3_op := LInit (p : cache_locking_data) | LFini (p : cache_locking_data)
  | LIoctl (cmd : l3_cmd) (ok fault : bool) (data : cache_locking_data).
Definition run_op (o : l3_op) : L Z :=
  match o with
  | LInit p => init p
  | LFini p => fini p
  | LIoctl cmd ok fault data => cache_locking_ioctl cmd ok fault data
  end.
Fixpoint run_ops (l : list l3_op) : L (list Z) :=
  match l with [] => mret [] | o :: l => r ← run_op o; rs ← run_ops l; mret (r :: rs) end.

Lemma enable_calls w b0 b1 b2 b3 : hoare False (Forall call_ok) (enable_l3_cache_locking w b0 b1 b2 b3) (λ r l, Forall call_ok l ∧ (r = 0 ∨ r = -1)).
Proof.
  intros l Hl. destruct (enable_spec w b0 b1 b2 b3 l) as (r & l' & -> & [[-> ->]|(regs & -> & -> & Hr & _ & ->)]).
  - split; [done|by right].
  - split; [apply Forall_app; split; [done|]; apply Forall_singleton; by left|case_decide; [by left|by right]].
Qed.
Lemma disable_calls w : hoare False (Forall call_ok) (disable_l3_cache_locking w) (λ r l, Forall call_ok l ∧ (r = 0 ∨ r = -1)).
Proof.
  intros l Hl. unfold disable_l3_cache_locking, configure, smc_call. rewrite M_bind_eq. cbn [mret M_ret].
  split; [|case_decide; [by left|by right]]. apply Forall_app. split; [done|]. apply Forall_singleton. by right.
Qed.
Lemma op_calls o : hoare False (Forall call_ok) (run_op o) (λ _, Forall call_ok).
Proof.
  assert (He : ∀ w b0 b1 b2 b3, hoare False (Forall call_ok) (enable_l3_cache_locking w b0 b1 b2 b3) (λ _, Forall call_ok)).
  { intros. eapply hoare_weaken; [done| |apply enable_calls]. by intros ? ? [? _]. }
  assert (Hd : ∀ w, hoare False (Forall call_ok) (disable_l3_cache_locking w) (λ _, Forall call_ok)).
  { intros. eapply hoare_weaken; [done| |apply disable_calls]. by intros ? ? [? _]. }
  assert (Hm : ∀ c, call_ok c → hoare False (Forall call_ok) (modify (λ l, l ++ [c])) (λ _, Forall call_ok)).
  { intros c Hc l Hl. cbn. apply Forall_app. by split; [|apply Forall_singleton]. }
  destruct o as [p|p|cmd ok fault data]; cbn [run_op].
  - unfold init. eapply hoare_bind; [by apply Hm|]. intros ?. cbn beta. repeat case_decide; try (by intros l Hl). apply He.
  - unfold fini. eapply hoare_bind; [by apply Hm|]. intros ?. cbn beta. case_decide; [apply Hd|by intros l Hl].
  - unfold cache_locking_ioctl. case_decide; [by intros l Hl|]. destruct (negb ok); [by intros l Hl|].
    destruct cmd; [|by intros l Hl]. destruct fault; [by intros l Hl|]. case_decide; [apply He|apply Hd].
Qed.

(** C20: whatever is asked of the device and of the module, in any order, every call of
    the firmware locks nothing, or is one of its locking function, with a number of
    ways it knows and with regions that are memory or absent, as many as these ways
    need; and every request returns. *)
Theorem l3_calls_sound ops l : Forall call_ok l → ∃ rs l', run_ops ops l = Some (rs, l') ∧ length rs = length ops ∧ Forall call_ok l'.
Proof.
  revert l. induction ops as [|o ops IH]; intros l Hl; [by exists [], l|]. cbn [run_ops].
  assert (Ho := op_calls o l Hl). rewrite M_bind_eq. destruct (run_op o l) as [[r l1]|]; [|done].
  destruct (IH l1 Ho) as (rs & l2 & E & Hlen & H2). rewrite M_bind_eq, E. exists (r :: rs), l2. cbn. auto.
Qed.

(** When the parameters of the module are refused, it fails to load with its device
    registered. *)
Theorem init_failure_leaves_device p l : misc_register = 0 → ways p = 3 → 
  init p l = Some (-1, l ++ [MiscRegister]).
Proof. intros Hm Hw. unfold init. rewrite M_bind_eq. cbn [modify]. by rewrite Hm, Hw. Qed.

(** Unlocking with 256 ways calls another function of the firmware. *)
Theorem unlock_other_function l : ∃ r r', disable_l3_cache_locking 256 l = Some (r', l ++ [Smc r]) ∧ smc_function r = 0xC300FF20.
Proof. do 2 eexists. split; [reflexivity|reflexivity]. Qed.

(** Regions the ways do not need are passed on unchecked. *)
Theorem one_way_passes_others b l : memblock_is_region_memory b 0x80000 = true → ∃ r,
  enable_l3_cache_locking 1 b 1 2 3 l = Some (r, l ++ [Smc (Regs 0xC201FF20 b 1 2 3)]).
Proof.
  intros Hb. unfold enable_l3_cache_locking. rewrite decide_False by lia. cbn [region_sizes].
  destruct (region_sizes 1) as [s1 s2] eqn:Es. injection Es as <- <-.
  rewrite decide_False by (unfold is_valid; rewrite Hb; by intros [_ ?]).
  do 3 (rewrite decide_False by lia). eexists. reflexivity.
Qed.
End L3.

(** ** Witnesses *)
#[export] Instance demo_l3 : L3Calls :=
  {| smc_x1 _ _ := 0; memblock_is_region_memory b n := bool_decide (0x80000000 ≤ b ∧ b + n ≤ 0x90000000); misc_register := 0 |}.
Lemma l3_calls_sound_witness : ∃ rs l',
  run_ops [LInit (Locking 0 2 0x80000000 0x80080000 0 0); LIoctl CACHE_LOCKING_IOC true false (Locking 1 4 0x80000000 0 0 0x1000);
           LIoctl CACHE_LOCKING_IOC true false (Locking 0 2 0 0 0 0)] [] = Some (rs, l') ∧ rs = [0; -1; 0] ∧ Forall call_ok l'.
Proof.
  destruct (l3_calls_sound [LInit (Locking 0 2 0x80000000 0x80080000 0 0); LIoctl CACHE_LOCKING_IOC true false (Locking 1 4 0x80000000 0 0 0x1000);
           LIoctl CACHE_LOCKING_IOC true false (Locking 0 2 0 0 0 0)] [] ltac:(constructor)) as (rs & l' & E & _ & Hc).
  exists rs, l'. split; [exact E|]. split; [|exact Hc]. vm_compute in E. by injection E as <- _.
Defined.
