(* ===== verification/GulGpio.v ===== *)
(** * The pins of the modem and its timer
      (kernel_driver/yami/gul_modem_gpio.c, lib/modemgpio/modem_gpio.c,
       lib/mpic/mpic_gb_timestamp.c)

    The registers of the four controllers of pins, which the driver and a library of
    user space reach through mappings of the same memory, and the timer the library
    reads.  What a register holds is a number of 32 bits. *)
From S2P Require Import Prelude GulMsi.
#[global] Open Scope Z_scope.

Inductive gpio_reg := gp_dir | gp_odr | gp_dat | gp_ier | gp_imr | gp_icr | gp_ibe.
#[export] Instance gpio_reg_eq : EqDecision gpio_reg.
Proof. solve_decision. Defined.
Inductive gpio_type := GPIO_INPUT | GPIO_OUTPUT | GPIO_OPENDRAIN.

(** The registers, by controller. *)
Definition gpio_mem := Z → gpio_reg → Z.
Local Abbreviation G := (M gpio_mem).
Definition ioread32 (c : Z) (r : gpio_reg) : G Z := gets (λ m, m c r).
Definition iowrite32 (c : Z) (r : gpio_reg) (v : Z) : G unit :=
  modify (λ m c' r', if decide (c' = c ∧ r' = r) then v else m c' r').

(** [BITS(pin)]: a pin past 31 is a shift by a negative count. *)
Definition GPIO_PIN_MAX : Z := 31.
Definition BITS (pin : Z) : option Z := if decide (0 ≤ pin ≤ GPIO_PIN_MAX) then Some (Z.shiftl 1 (GPIO_PIN_MAX - pin)) else None.
Definition clear_bits (v b : Z) : Z := Z.land v (Z.lxor 0xFFFFFFFF b).

(** ** The driver *)
Definition GPIO_TYPE_NOT_SET : Z := -1.
Definition GPIO_SUCCESS : Z := 0.

Definition modem_gpio_init (gpio pin : Z) (t : gpio_type) : G Z :=
  b ← lift (BITS (u8 pin));
  _ ← (match t with
       | GPIO_INPUT =>
           dir ← ioread32 gpio gp_dir; ibe ← ioread32 gpio gp_ibe;
           _ ← iowrite32 gpio gp_dir (clear_bits dir b); iowrite32 gpio gp_ibe (Z.lor ibe b)
       | GPIO_OUTPUT =>
           dir ← ioread32 gpio gp_dir; ibe ← ioread32 gpio gp_ibe;
           _ ← iowrite32 gpio gp_dir (Z.lor dir b); iowrite32 gpio gp_ibe (Z.lor ibe b)
       | GPIO_OPENDRAIN => odr ← ioread32 gpio gp_odr; iowrite32 gpio gp_odr (Z.lor odr b)
       end);
  mret GPIO_SUCCESS.

Definition modem_gpio_setdata (gpio pin val : Z) : G Z :=
  b ← lift (BITS (u8 pin));
  dir ← ioread32 gpio gp_dir;
  if decide (Z.land dir b ≠ 0) then
    dat ← ioread32 gpio gp_dat;
    _ ← iowrite32 gpio gp_dat (if decide (val ≠ 0) then Z.lor dat b else clear_bits dat b);
    mret GPIO_SUCCESS
  else mret GPIO_TYPE_NOT_SET.

Definition modem_gpio_getdata (gpio : Z) : G (Z * Z) := d ← ioread32 gpio gp_dat; mret (GPIO_SUCCESS, d).

(** ** The library *)
Definition PIN_NOT_SUPPORTED : Z := -1.
Definition PIN_TYPE_NOT_SET : Z := -2.
Definition CTRL_NOT_SUPPORTED : Z := -3.
Definition GPIO4 : Z := 3.

Definition lib_is_pin_supported (pin : Z) : Z := if decide (pin ≤ GPIO_PIN_MAX) then 0 else PIN_NOT_SUPPORTED.
Definition lib_is_ctrl_supported (c : Z) : Z := if decide (0 ≤ c ∧ c ≤ GPIO4) then 0 else CTRL_NOT_SUPPORTED.

(** *** Mapping the registers: the calls, with their answers from user space *)
Inductive gpio_call := OpenDev (modem : Z) | IoctlModinfo (fd : Z) | Close (fd : Z) | OpenMem | Mmap (fd size addr : Z) | Munmap (addr size : Z).
#[export] Instance gpio_call_eq : EqDecision gpio_call.
Proof. solve_decision. Defined.
Local Abbreviation history := (list (gpio_call * Z)).

(** The answers of the system; [ccsr m] is what [gul_modinfo_get] gives of modem [m]: the
    physical address of its registers and their size. *)
Class GpioSys := { gsys : history → gpio_call → Z; ccsr : Z → Z * Z }.
Record gpio_lib := GpioLib { gpio_devmem_fd : Z; map_base_gpio : Z; virt_addr_gpio : Z; ccsr_size : Z; glog : history }.
Definition GPIO_BASE_ADDR : Z := 0x1130000.
Definition GPIO_REG_OFFSET : Z := 0x4000.

(** What a descriptor was opened on, and the live mappings of [/dev/mem], the last one
    first: where they are, how long, and what they show. *)
Definition opener (h : history) (fd : Z) : option gpio_call :=
  foldl (λ o '(c, r), match c with
    | OpenDev _ | OpenMem => if decide (r = fd) then Some c else o
    | Close f => if decide (f = fd) then None else o
    | _ => o end) None h.
Fixpoint mappings_from (h seen : history) (ms : list (Z * Z * Z)) : list (Z * Z * Z) :=
  match h with
  | [] => ms
  | (c, r) :: h => mappings_from h (seen ++ [(c, r)]) (match c with
      | Mmap fd n a => if decide (r ≠ -1 ∧ opener seen fd = Some OpenMem) then (r, n, a) :: ms else ms
      | Munmap b _ => if decide (r ≠ -1) then filter (λ m, m.1.1 ≠ b) ms else ms
      | _ => ms end)
  end.
Definition mappings (h : history) : list (Z * Z * Z) := mappings_from h [] [].
(** The physical address behind an address of the program. *)
Definition translate (h : history) (v : Z) : option Z :=
  match list_find (λ m, m.1.1 ≤ v < m.1.1 + m.1.2) (mappings h) with
  | Some (_, (b, _, a)) => Some (a + (v - b))
  | None => None
  end.

(** The library and the words of the physical memory, by their addresses. *)
Record pins := Pins { lib : gpio_lib; words : Z → Z }.

Section Lib.
Context `{GpioSys}.
Local Abbreviation P := (M pins).
Definition set_lib (f : gpio_lib → gpio_lib) : P unit := modify (λ w, Pins (f (lib w)) (words w)).
Definition gcall (c : gpio_call) : P Z := λ w,
  let l := lib w in let r := gsys (glog l) c in
  Some (r, Pins (GpioLib (gpio_devmem_fd l) (map_base_gpio l) (virt_addr_gpio l) (ccsr_size l) (glog l ++ [(c, r)])) (words w)).

(** The result, and the structure, which is clear if nothing is stored in it. *)
Definition get_ccsr_base_addr (modem_id : Z) : P (Z * (Z * Z)) :=
  fd ← gcall (OpenDev modem_id);
  if decide (fd = -1) then mret (-1, (0, 0)) else
  ret ← gcall (IoctlModinfo fd);
  dev ← gets (λ w, opener (glog (lib w)) fd);
  _ ← gcall (Close fd);
  mret (if decide (ret < 0) then (-1, (0, 0)) else (0, match dev with Some (OpenDev m) => ccsr m | _ => (0, 0) end)).

(** The descriptor stays open when the mapping fails. *)
Definition lib_open_modem_gpio (modem_id : Z) : P Z :=
  '(rc, (addr, size)) ← get_ccsr_base_addr modem_id;
  if decide (rc ≠ 0) then mret (-1) else
  _ ← set_lib (λ l, GpioLib (gpio_devmem_fd l) (map_base_gpio l) (virt_addr_gpio l) size (glog l));
  fd ← gcall OpenMem;
  _ ← set_lib (λ l, GpioLib fd (map_base_gpio l) (virt_addr_gpio l) (ccsr_size l) (glog l));
  if decide (fd = -1) then mret (-1) else
  base ← gcall (Mmap fd size addr);
  _ ← set_lib (λ l, GpioLib (gpio_devmem_fd l) base (virt_addr_gpio l) (ccsr_size l) (glog l));
  if decide (base = -1) then mret (-1) else
  _ ← set_lib (λ l, GpioLib (gpio_devmem_fd l) (map_base_gpio l) (base + GPIO_BASE_ADDR) (ccsr_size l) (glog l));
  mret 0.
Definition lib_close_modem_gpio : P Z :=
  l ← gets lib;
  r ← gcall (Munmap (map_base_gpio l) (ccsr_size l));
  if decide (r = -1) then mret (-1) else
  l ← gets lib; _ ← gcall (Close (gpio_devmem_fd l)); mret 0.

(** *** The registers through the mapping; an address that is not mapped faults *)
Definition reg_offset (r : gpio_reg) : Z :=
  match r with gp_dir => 0 | gp_odr => 4 | gp_dat => 8 | gp_ier => 12 | gp_imr => 16 | gp_icr => 20 | gp_ibe => 24 end.
Definition reg_at (gpio : Z) (r : gpio_reg) : P Z :=
  l ← gets lib;
  lift (translate (glog l) (virt_addr_gpio l + gpio * GPIO_REG_OFFSET + reg_offset r)).
Definition load_reg (gpio : Z) (r : gpio_reg) : P Z := a ← reg_at gpio r; gets (λ w, words w a).
Definition store_reg (gpio : Z) (r : gpio_reg) (v : Z) : P unit :=
  a ← reg_at gpio r; modify (λ w, Pins (lib w) (λ a', if decide (a' = a) then v else words w a')).

Definition lib_modem_gpio_init (gpio pin : Z) (t : gpio_type) : P Z :=
  if decide (lib_is_ctrl_supported gpio ≠ 0) then mret CTRL_NOT_SUPPORTED else
  if decide (lib_is_pin_supported pin ≠ 0) then mret PIN_NOT_SUPPORTED else
  b ← lift (BITS pin);
  _ ← (match t with
       | GPIO_INPUT =>
           dir ← load_reg gpio gp_dir; ibe ← load_reg gpio gp_ibe;
           _ ← store_reg gpio gp_dir (clear_bits dir b); store_reg gpio gp_ibe (Z.lor ibe b)
       | GPIO_OUTPUT =>
           dir ← load_reg gpio gp_dir; ibe ← load_reg gpio gp_ibe;
           _ ← store_reg gpio gp_dir (Z.lor dir b); store_reg gpio gp_ibe (Z.lor ibe b)
       | GPIO_OPENDRAIN => odr ← load_reg gpio gp_odr; store_reg gpio gp_odr (Z.lor odr b)
       end);
  mret 0.

Definition lib_modem_gpio_setdata (gpio pin val : Z) : P Z :=
  if decide (lib_is_ctrl_supported gpio ≠ 0) then mret CTRL_NOT_SUPPORTED else
  if decide (lib_is_pin_supported pin ≠ 0) then mret PIN_NOT_SUPPORTED else
  b ← lift (BITS pin);
  dir ← load_reg gpio gp_dir;
  if decide (Z.land dir b ≠ 0) then
    dat ← load_reg gpio gp_dat;
    _ ← store_reg gpio gp_dat (if decide (val ≠ 0) then Z.lor dat b else clear_bits dat b);
    mret 0
  else mret PIN_TYPE_NOT_SET.

(** [None] for the value: it is not written. *)
Definition lib_modem_gpio_getdata (gpio : Z) : P (Z * option Z) :=
  if decide (lib_is_ctrl_supported gpio ≠ 0) then mret (CTRL_NOT_SUPPORTED, None) else
  d ← load_reg gpio gp_dat; mret (0, Some d).
End Lib.

(** ** The timer

    Two registers count down, the second one when the first wraps; [hi] and [lo] are
    what the two reads give. *)
Definition MPIC_TIMER_CLOCK : Z := 76800000.
Definition MPIC_TIMER_COUNT_TO_US (count : Z) : Z := count / (MPIC_TIMER_CLOCK / 1000000).
Definition bswap32 (x : Z) : Z :=
  Z.lor (Z.lor (Z.shiftl (Z.land x 0xFF) 24) (Z.shiftl (Z.land x 0xFF00) 8))
        (Z.lor (Z.land (Z.shiftr x 8) 0xFF00) (Z.land (Z.shiftr x 24) 0xFF)).
Definition get_mpic_current_count (hi lo : Z) : Z :=
  let count_hi := Z.land (bswap32 hi) 0x7FFFFFFF in
  let count_lo := bswap32 lo in
  let timer_count := u32 (0x7FFFFFFF - count_hi) in
  let timer_count := u64 (timer_count * 0xFFFFFFFF) in
  let timer_count := u64 (timer_count + (0xFFFFFFFF - count_lo)) in
  MPIC_TIMER_COUNT_TO_US timer_count.

(** *** Its mapping: [open], [mmap], [munmap] *)
Definition open_mpic_gbtimer (fd base : Z) : Z := if decide (fd = -1) then -1 else if decide (base = -1) then -1 else 0.
Definition close_mpic_gbtimer (r : Z) : Z := if decide (r = -1) then -1 else 0.

(** ** Theorems: pins *)

(** Numbers of 32 bits. *)
Definition word_mem (m : gpio_mem) : Prop := ∀ c r, 0 ≤ m c r < 4294967296.
(** The bit of a pin in a register. *)
Definition pin_bit (m : gpio_mem) (c : Z) (r : gpio_reg) (pin : Z) : bool := Z.testbit (m c r) (GPIO_PIN_MAX - pin).

Lemma bits_some pin : 0 ≤ pin ≤ 31 → BITS pin = Some (Z.shiftl 1 (31 - pin)).
Proof. intros Hp. unfold BITS. by rewrite decide_True by (unfold GPIO_PIN_MAX; lia). Qed.
Lemma shiftl_1_bit k j : 0 ≤ k → Z.testbit (Z.shiftl 1 k) j = bool_decide (j = k).
Proof.
  intros Hk. rewrite Z.shiftl_1_l. destruct (decide (j = k)) as [->|Hj].
  - rewrite bool_decide_eq_true_2 by done. by rewrite Z.pow2_bits_true.
  - rewrite bool_decide_eq_false_2 by done. by apply Z.pow2_bits_false.
Qed.
Lemma or_bit v k j : 0 ≤ k → Z.testbit (Z.lor v (Z.shiftl 1 k)) j = Z.testbit v j || bool_decide (j = k).
Proof. intros Hk. by rewrite Z.lor_spec, shiftl_1_bit. Qed.
Lemma clear_bit v k j : 0 ≤ k → 0 ≤ j < 32 → Z.testbit (clear_bits v (Z.shiftl 1 k)) j = Z.testbit v j && negb (bool_decide (j = k)).
Proof.
  intros Hk Hj. unfold clear_bits. rewrite Z.land_spec, Z.lxor_spec, shiftl_1_bit by done.
  assert (Hones : Z.testbit 0xFFFFFFFF j = true) by (change 0xFFFFFFFF with (Z.ones 32); by apply Z.ones_spec_low).
  by rewrite Hones.
Qed.
Lemma land_bit_zero v k : 0 ≤ k → (Z.land v (Z.shiftl 1 k) ≠ 0 ↔ Z.testbit v k = true).
Proof.
  intros Hk. split.
  - intros Hne. destruct (Z.testbit v k) eqn:E; [done|]. destruct Hne. apply Z.bits_inj'. intros j Hj.
    rewrite Z.land_spec, Z.bits_0, shiftl_1_bit by done. case_bool_decide; [subst; by rewrite E|by rewrite andb_false_r].
  - intros Hb Hz. assert (Hbit : Z.testbit (Z.land v (Z.shiftl 1 k)) k = true)
      by (rewrite Z.land_spec, Hb, shiftl_1_bit by done; by rewrite bool_decide_eq_true_2).
    rewrite Hz, Z.bits_0 in Hbit. done.
Qed.

(** The library, once the registers at [A] are mapped: where the controllers' registers
    are, and what its operations do to them. *)
Section Mapped.
Context `{GpioSys}.
Definition reg_addr (A gpio : Z) (r : gpio_reg) : Z := A + gpio * GPIO_REG_OFFSET + reg_offset r.
Definition ready (l : gpio_lib) (A : Z) : Prop := ∀ gpio r, 0 ≤ gpio ≤ 3 →
  translate (glog l) (virt_addr_gpio l + gpio * GPIO_REG_OFFSET + reg_offset r) = Some (reg_addr A gpio r).
Definition put (a v : Z) (m : Z → Z) : Z → Z := λ a', if decide (a' = a) then v else m a'.

Context (l : gpio_lib) (A gpio pin : Z) (Hl : ready l A) (Hg : 0 ≤ gpio ≤ 3) (Hp : 0 ≤ pin ≤ 31).
Lemma load_ready r m : load_reg gpio r (Pins l m) = Some (m (reg_addr A gpio r), Pins l m).
Proof. unfold load_reg, reg_at. rewrite !M_bind_eq. cbn [gets lib]. rewrite Hl by done. reflexivity. Qed.
Lemma store_ready r v m : store_reg gpio r v (Pins l m) = Some (tt, Pins l (put (reg_addr A gpio r) v m)).
Proof. unfold store_reg, reg_at. rewrite !M_bind_eq. cbn [gets lib]. rewrite Hl by done. reflexivity. Qed.
Lemma lib_init_ready m : lib_modem_gpio_init gpio pin GPIO_OUTPUT (Pins l m) =
  let b := Z.shiftl 1 (31 - pin) in let R := reg_addr A gpio in
  Some (0, Pins l (put (R gp_ibe) (Z.lor (m (R gp_ibe)) b) (put (R gp_dir) (Z.lor (m (R gp_dir)) b) m))).
Proof.
  unfold lib_modem_gpio_init, lib_is_ctrl_supported, lib_is_pin_supported.
  rewrite (decide_True (P := 0 ≤ gpio ∧ _)), (decide_True (P := pin ≤ _)) by (unfold GPIO4, GPIO_PIN_MAX; lia).
  rewrite !(decide_False (P := 0 ≠ 0)), bits_some by lia. rewrite !M_bind_eq. cbn [lift].
  rewrite !M_bind_eq, load_ready. by rewrite M_bind_eq, load_ready, M_bind_eq, !store_ready.
Qed.
Lemma lib_setdata_ready val m : Z.testbit (m (reg_addr A gpio gp_dir)) (31 - pin) = true →
  lib_modem_gpio_setdata gpio pin val (Pins l m) =
  let b := Z.shiftl 1 (31 - pin) in let D := reg_addr A gpio gp_dat in
  Some (0, Pins l (put D (if decide (val ≠ 0) then Z.lor (m D) b else clear_bits (m D) b) m)).
Proof.
  intros Hd. unfold lib_modem_gpio_setdata, lib_is_ctrl_supported, lib_is_pin_supported.
  rewrite (decide_True (P := 0 ≤ gpio ∧ _)), (decide_True (P := pin ≤ _)) by (unfold GPIO4, GPIO_PIN_MAX; lia).
  rewrite !(decide_False (P := 0 ≠ 0)), bits_some by lia. rewrite !M_bind_eq. cbn [lift].
  rewrite !M_bind_eq, load_ready, decide_True by (apply land_bit_zero; [lia|done]).
  by rewrite M_bind_eq, load_ready, M_bind_eq, store_ready.
Qed.
Lemma lib_getdata_ready m : lib_modem_gpio_getdata gpio (Pins l m) =
  Some ((0, Some (m (reg_addr A gpio gp_dat))), Pins l m).
Proof.
  unfold lib_modem_gpio_getdata, lib_is_ctrl_supported. rewrite (decide_True (P := 0 ≤ gpio ∧ _)) by (unfold GPIO4; lia).
  rewrite decide_False by lia. by rewrite M_bind_eq, load_ready.
Qed.
End Mapped.

(** A system that opens and maps what it is asked to, and tells of every modem registers
    long enough to hold those of the pins. *)
Section Open.
Context `{GpioSys}.
Definition willing : Prop := ∀ h,
  (∀ m, gsys h (OpenDev m) ≠ -1) ∧ (∀ fd, 0 ≤ gsys h (IoctlModinfo fd)) ∧ gsys h OpenMem ≠ -1 ∧
  (∀ fd n a, gsys h (Mmap fd n a) ≠ -1) ∧ (∀ a n, gsys h (Munmap a n) ≠ -1).
Definition long_enough (modem : Z) : Prop := GPIO_BASE_ADDR + 4 * GPIO_REG_OFFSET ≤ (ccsr modem).2.

Lemma opener_snoc h c r fd : opener (h ++ [(c, r)]) fd = match c with
    | OpenDev _ | OpenMem => if decide (r = fd) then Some c else opener h fd
    | Close f => if decide (f = fd) then None else opener h fd
    | _ => opener h fd end.
Proof. unfold opener. by rewrite foldl_app. Qed.
Lemma mappings_from_snoc h c r : ∀ seen ms, mappings_from (h ++ [(c, r)]) seen ms =
  mappings_from [(c, r)] (seen ++ h) (mappings_from h seen ms).
Proof.
  induction h as [|[c' r'] h IH]; intros seen ms; [by rewrite app_nil_r|]. cbn [app mappings_from].
  rewrite IH, <- app_assoc. done.
Qed.

(** An opened library has the registers of the modem it was asked for. *)
Lemma open_ready modem l m : willing → long_enough modem →
  ∃ l', lib_open_modem_gpio modem (Pins l m) = Some (0, Pins l' m) ∧ ready l' ((ccsr modem).1 + GPIO_BASE_ADDR).
Proof.
  intros Hw Hlong. unfold lib_open_modem_gpio, get_ccsr_base_addr. destruct l as [f0 b0 v0 s0 h]. unfold gcall.
  repeat (rewrite !M_bind_eq; cbn [gets lib words glog gpio_devmem_fd map_base_gpio virt_addr_gpio ccsr_size set_lib modify]).
  set (fd := gsys h (OpenDev modem)). rewrite (decide_False (P := fd = -1)) by apply Hw.
  repeat (rewrite !M_bind_eq; cbn [gets lib words glog gpio_devmem_fd map_base_gpio virt_addr_gpio ccsr_size set_lib modify]).
  set (h1 := h ++ [_]). set (r1 := gsys h1 (IoctlModinfo fd)). rewrite (decide_False (P := r1 < 0)) by (assert (Hr := proj1 (proj2 (Hw h1)) fd); lia).
  assert (Hdev : opener (h1 ++ [(IoctlModinfo fd, r1)]) fd = Some (OpenDev modem))
    by (rewrite opener_snoc; unfold h1; by rewrite opener_snoc, decide_True).
  rewrite Hdev. cbn [mret M_ret].
  destruct (ccsr modem) as [addr size] eqn:Ec. rewrite (decide_False (P := 0 ≠ 0)) by lia.
  set (h2 := (h1 ++ _) ++ _).
  repeat (rewrite !M_bind_eq; cbn [gets lib words glog gpio_devmem_fd map_base_gpio virt_addr_gpio ccsr_size set_lib modify]).
  set (md := gsys h2 OpenMem). rewrite (decide_False (P := md = -1)) by apply Hw. set (h3 := h2 ++ [(OpenMem, md)]).
  repeat (rewrite !M_bind_eq; cbn [gets lib words glog gpio_devmem_fd map_base_gpio virt_addr_gpio ccsr_size set_lib modify]).
  set (base := gsys h3 (Mmap md size addr)). assert (Hb : base ≠ -1) by apply Hw. rewrite (decide_False (P := base = -1)) by done.
  eexists. split; [reflexivity|]. intros gpio r Hg. cbn [glog virt_addr_gpio lib fst].
  assert (Ho : opener h3 md = Some OpenMem) by (unfold h3; by rewrite opener_snoc, decide_True).
  unfold translate, mappings. rewrite mappings_from_snoc. cbn [mappings_from app]. rewrite decide_True by done.
  unfold long_enough in Hlong. rewrite Ec in Hlong. cbn [snd] in Hlong. cbn [list_find fst snd].
  unfold GPIO_BASE_ADDR, GPIO_REG_OFFSET in *.
  rewrite decide_True by (destruct r; cbn [reg_offset]; lia). f_equal. unfold reg_addr, GPIO_REG_OFFSET. lia.
Qed.
Lemma close_willing l m : willing → ∃ l', lib_close_modem_gpio (Pins l m) = Some (0, Pins l' m).
Proof.
  intros Hw. unfold lib_close_modem_gpio, gcall. rewrite M_bind_eq. cbn [gets lib]. rewrite M_bind_eq.
  rewrite decide_False by apply Hw. by eexists.
Qed.
End Open.

(** What an operation may change: the named registers of one pin. *)
Definition touches (m m' : gpio_mem) (gpio pin : Z) (f : gpio_reg → option bool) : Prop :=
  ∀ c r p, 0 ≤ p ≤ 31 → pin_bit m' c r p = if decide (c = gpio ∧ p = pin) then default (pin_bit m c r p) (f r) else pin_bit m c r p.

Lemma pin_or (v pin p : Z) : 0 ≤ pin ≤ 31 → 0 ≤ p ≤ 31 →
  Z.testbit (Z.lor v (Z.shiftl 1 (31 - pin))) (GPIO_PIN_MAX - p) = Z.testbit v (GPIO_PIN_MAX - p) || bool_decide (p = pin).
Proof. intros Hpin Hp. rewrite or_bit by lia. f_equal. apply bool_decide_ext. unfold GPIO_PIN_MAX. lia. Qed.
Lemma pin_clear (v pin p : Z) : 0 ≤ pin ≤ 31 → 0 ≤ p ≤ 31 →
  Z.testbit (clear_bits v (Z.shiftl 1 (31 - pin))) (GPIO_PIN_MAX - p) = Z.testbit v (GPIO_PIN_MAX - p) && negb (bool_decide (p = pin)).
Proof.
  intros Hpin Hp. rewrite clear_bit by (unfold GPIO_PIN_MAX; lia). do 2 f_equal. apply bool_decide_ext. unfold GPIO_PIN_MAX. lia.
Qed.

Lemma init_output gpio pin m : 0 ≤ pin ≤ 31 → ∃ m', modem_gpio_init gpio pin GPIO_OUTPUT m = Some (0, m') ∧
  touches m m' gpio pin (λ r, match r with gp_dir | gp_ibe => Some true | _ => None end).
Proof.
  intros Hp. assert (Hu : u8 pin = pin) by wrap_lia. unfold modem_gpio_init. rewrite Hu, bits_some by done.
  eexists. split; [reflexivity|]. intros c r p Hpp. unfold pin_bit. cbv beta.
  destruct (decide (c = gpio)) as [->|Hc]; [|by rewrite !decide_False by naive_solver].
  destruct r; rewrite ?(decide_False (P := gpio = gpio ∧ _)) by naive_solver; rewrite ?(decide_True (P := gpio = gpio ∧ _)) by done;
    cbn [default]; try (by case_decide); rewrite pin_or by done; rewrite ?(decide_False (P := gpio = gpio ∧ _)) by naive_solver; 
    (destruct (decide (p = pin)) as [->|Hne]; [rewrite decide_True, bool_decide_eq_true_2 by done; apply orb_true_r|
      rewrite decide_False, bool_decide_eq_false_2 by naive_solver; apply orb_false_r]).
Qed.
Lemma setdata_output gpio pin val m : 0 ≤ pin ≤ 31 → pin_bit m gpio gp_dir pin = true →
  ∃ m', modem_gpio_setdata gpio pin val m = Some (0, m') ∧
  touches m m' gpio pin (λ r, match r with gp_dat => Some (bool_decide (val ≠ 0)) | _ => None end).
Proof.
  intros Hp Hd. assert (Hu : u8 pin = pin) by wrap_lia. unfold modem_gpio_setdata. rewrite Hu, bits_some by done.
  rewrite M_bind_eq. cbn [lift]. rewrite M_bind_eq. cbn [ioread32 gets].
  rewrite decide_True by (apply land_bit_zero; [lia|exact Hd]).
  eexists. split; [reflexivity|]. intros c r p Hpp. unfold pin_bit. cbv beta.
  destruct (decide (c = gpio)) as [->|Hc]; [|by rewrite !decide_False by naive_solver].
  destruct r; rewrite ?(decide_False (P := gpio = gpio ∧ _)) by naive_solver; rewrite ?(decide_True (P := gpio = gpio ∧ _)) by done;
    cbn [default]; try (by case_decide).
  destruct (decide (val ≠ 0)) as [Hv|Hv]; [rewrite pin_or by done|rewrite pin_clear by done];
    (destruct (decide (p = pin)) as [->|Hne]; [rewrite decide_True by done|rewrite decide_False by naive_solver]).
  - rewrite !bool_decide_eq_true_2 by done. apply orb_true_r.
  - rewrite bool_decide_eq_false_2 by done. apply orb_false_r.
  - rewrite bool_decide_eq_true_2 by done. rewrite bool_decide_eq_false_2 by done. apply andb_false_r.
  - rewrite bool_decide_eq_false_2 by done. apply andb_true_r.
Qed.

(** a pin made an output and driven reads back as driven, and of all pins of all
    controllers nothing else changes in any register but its direction and its input
    buffer. *)
Theorem gpio_drive gpio pin val m : 0 ≤ pin ≤ 31 → ∃ m' d,
  (r1 ← modem_gpio_init gpio pin GPIO_OUTPUT; r2 ← modem_gpio_setdata gpio pin val;
   '(r3, d) ← modem_gpio_getdata gpio; mret (r1, r2, r3, d)) m = Some ((0, 0, 0, d), m') ∧
  Z.testbit d (GPIO_PIN_MAX - pin) = bool_decide (val ≠ 0) ∧
  touches m m' gpio pin (λ r, match r with gp_dir | gp_ibe => Some true | gp_dat => Some (bool_decide (val ≠ 0)) | _ => None end).
Proof.
  intros Hp. destruct (init_output gpio pin m Hp) as (m1 & E1 & T1).
  destruct (setdata_output gpio pin val m1 Hp) as (m2 & E2 & T2); [by rewrite T1, decide_True by done|].
  exists m2, (m2 gpio gp_dat). rewrite M_bind_eq, E1, M_bind_eq, E2. split; [reflexivity|]. split.
  - assert (Hd := T2 gpio gp_dat pin Hp). by rewrite decide_True in Hd by done.
  - intros c r p Hpp. rewrite T2, T1 by done. destruct (decide (c = gpio ∧ p = pin)); [|done]. destruct r; done.
Qed.

(** A pin that is an input is not driven; a pin past 31 is a shift by a negative
    count. *)
Theorem input_not_driven gpio pin val m : 0 ≤ pin ≤ 31 → pin_bit m gpio gp_dir pin = false →
  modem_gpio_setdata gpio pin val m = Some (GPIO_TYPE_NOT_SET, m).
Proof.
  intros Hp Hd. assert (Hu : u8 pin = pin) by wrap_lia. unfold modem_gpio_setdata. rewrite Hu, bits_some by done.
  rewrite M_bind_eq. cbn [lift]. rewrite M_bind_eq. cbn [ioread32 gets]. rewrite decide_False; [done|].
  intros Hne. apply land_bit_zero in Hne; [|lia]. unfold pin_bit, GPIO_PIN_MAX in Hd. congruence.
Qed.
Theorem pin_past_31 gpio pin t m : 31 < pin < 256 → modem_gpio_init gpio pin t m = None.
Proof.
  intros Hp. assert (Hu : u8 pin = pin) by wrap_lia. unfold modem_gpio_init, BITS. rewrite Hu.
  by rewrite decide_False by (unfold GPIO_PIN_MAX; lia).
Qed.

(** ** Theorems: the timer *)

Lemma bswap_bit x j : 0 ≤ j < 32 → Z.testbit (bswap32 x) j = Z.testbit x (24 - 8 * (j / 8) + j mod 8).
Proof.
  intros Hj. assert (Hin : In j (seqZ 0 32)) by (apply list_elem_of_In, elem_of_seqZ; lia).
  change (seqZ 0 32) with (ltac:(let l := eval vm_compute in (seqZ 0 32) in exact l)) in Hin. clear Hj.
  unfold bswap32. repeat destruct Hin as [<- |Hin]; [..|done];
    rewrite !Z.lor_spec, ?Z.shiftl_spec, ?Z.land_spec, ?Z.shiftr_spec, ?Z.land_spec, ?Z.shiftr_spec by lia;
    cbn; rewrite ?andb_false_r, ?andb_true_r, ?orb_false_r; reflexivity.
Qed.

Lemma bswap_word x : 0 ≤ bswap32 x < 4294967296.
Proof.
  assert (Hn : 0 ≤ bswap32 x) by (unfold bswap32; repeat (apply Z.lor_nonneg; split); try (apply Z.shiftl_nonneg); apply Z.land_nonneg; by right).
  split; [done|]. change 4294967296 with (2 ^ 32). destruct (decide (bswap32 x = 0)) as [->|Hz]; [done|].
  apply Z.log2_lt_pow2; [lia|]. apply Z.nle_gt. intros Hl. assert (Hb := Z.bit_log2 (bswap32 x) ltac:(lia)).
  set (j := Z.log2 (bswap32 x)) in *. clearbody j. unfold bswap32 in Hb.
  rewrite !Z.lor_spec, !Z.shiftl_spec, !Z.land_spec in Hb by lia.
  assert (Hm : ∀ a i, 0 ≤ a < 2 ^ 16 → 16 ≤ i → Z.testbit a i = false).
  { intros a i Ha Hi. destruct (decide (a = 0)) as [->|Ha0]; [apply Z.bits_0|]. apply Z.bits_above_log2; [lia|].
    assert (Hlog := proj1 (Z.log2_lt_pow2 a 16 ltac:(lia)) ltac:(lia)). lia. }
  assert (Hm8 : ∀ i, 8 ≤ i → Z.testbit 255 i = false).
  { intros i Hi. change 255 with (Z.ones 8). apply Z.ones_spec_high. lia. }
  rewrite (Hm8 (j - 24)), (Hm8 j), (Hm 65280 (j - 8)), (Hm 65280 j) in Hb by lia.
  rewrite !andb_false_r in Hb. done.
Qed.
Lemma bswap_bswap x : 0 ≤ x < 4294967296 → bswap32 (bswap32 x) = x.
Proof.
  intros Hx. apply Z.bits_inj'. intros j Hj. destruct (decide (j < 32)) as [Hlt|Hge].
  - rewrite bswap_bit by lia. assert (0 ≤ 24 - 8 * (j / 8) + j mod 8 < 32) by (Z.to_euclidean_division_equations; lia).
    rewrite bswap_bit by done. f_equal. Z.to_euclidean_division_equations; lia.
  - assert (Hh : ∀ y, 0 ≤ y < 4294967296 → Z.testbit y j = false).
    { intros y Hy. destruct (decide (y = 0)) as [->|Hy0]; [apply Z.bits_0|]. apply Z.bits_above_log2; [lia|].
      assert (Hl := proj1 (Z.log2_lt_pow2 y 32 ltac:(lia)) ltac:(lia)). lia. }
    by rewrite (Hh x), (Hh _ (bswap_word _)).
Qed.

(** The two registers, in the order of the modem's bytes, [t] ticks after the start. *)
Definition gtccr_hi (t : Z) : Z := bswap32 (0x7FFFFFFF - t / 4294967296).
Definition gtccr_lo (t : Z) : Z := bswap32 (0xFFFFFFFF - t mod 4294967296).

(** What a reading gives, when the two reads see the ticks [t] and [u]: every wrap of
    the lower register loses a tick, and a microsecond is taken for 76 ticks, not 76.8. *)
Theorem mpic_count t u : 0 ≤ t < 2 ^ 63 → 
  get_mpic_current_count (gtccr_hi t) (gtccr_lo u) = (t / 4294967296 * 4294967295 + u mod 4294967296) / 76.
Proof.
  intros Ht. change (2 ^ 63) with 9223372036854775808 in Ht. unfold get_mpic_current_count, gtccr_hi, gtccr_lo.
  assert (Hq : 0 ≤ t / 4294967296 < 2147483648) by (Z.to_euclidean_division_equations; lia).
  assert (Hr := Z.mod_pos_bound u 4294967296 ltac:(lia)).
  assert (Hl : ∀ x, Z.land x 0x7FFFFFFF = x mod 2147483648) by (intros x; change 0x7FFFFFFF with (Z.ones 31); by rewrite Z.land_ones by lia).
  rewrite !bswap_bswap, Hl by lia. rewrite (Z.mod_small (0x7FFFFFFF - _)) by lia.
  replace (0x7FFFFFFF - (0x7FFFFFFF - t / 4294967296)) with (t / 4294967296) by lia.
  replace (0xFFFFFFFF - (0xFFFFFFFF - u mod 4294967296)) with (u mod 4294967296) by lia.
  unfold u32, u64. rewrite (Z.mod_small (t / 4294967296)) by lia. rewrite (Z.mod_small (_ * _)) by lia.
  rewrite Z.mod_small by lia. reflexivity.
Qed.

(** Readings that see one moment each never go back. *)
Theorem mpic_monotone t u : 0 ≤ t ≤ u → u < 2 ^ 63 →
  get_mpic_current_count (gtccr_hi t) (gtccr_lo t) ≤ get_mpic_current_count (gtccr_hi u) (gtccr_lo u).
Proof.
  intros Ht Hu. rewrite !mpic_count by lia. apply Z.div_le_mono; [lia|].
  assert (Hm := Z.mod_pos_bound t 4294967296 ltac:(lia)). assert (Hn := Z.mod_pos_bound u 4294967296 ltac:(lia)).
  assert (Ed := Z.div_mod t 4294967296 ltac:(lia)). assert (Ee := Z.div_mod u 4294967296 ltac:(lia)). 
  assert (Hle : t / 4294967296 ≤ u / 4294967296) by (apply Z.div_le_mono; lia).
  destruct (decide (t / 4294967296 = u / 4294967296)) as [He|Hne]; [rewrite He in *; lia|]. lia.
Qed.

(** A wrap between the two reads takes the clock back to its start; a second is more
    than a million microseconds. *)
Example mpic_torn_read : get_mpic_current_count (gtccr_hi 4294967295) (gtccr_lo 4294967295) = 56512727 ∧
  get_mpic_current_count (gtccr_hi 4294967295) (gtccr_lo 4294967296) = 0.
Proof. by vm_compute. Qed.
Example mpic_fast : get_mpic_current_count (gtccr_hi 76800000) (gtccr_lo 76800000) = 1010526.
Proof. by vm_compute. Qed.

(** ** Witnesses *)
Definition demo_gpio : gpio_mem := λ _ r, match r with gp_dir => 0x80000000 | _ => 0 end.
Lemma gpio_drive_witness : ∃ m' d,
  (r1 ← modem_gpio_init 1 5 GPIO_OUTPUT; r2 ← modem_gpio_setdata 1 5 1;
   '(r3, d) ← modem_gpio_getdata 1; mret (r1, r2, r3, d)) demo_gpio = Some ((0, 0, 0, d), m') ∧ Z.testbit d 26 = true.
Proof.
  destruct (gpio_drive 1 5 1 demo_gpio ltac:(lia)) as (m' & d & E & Hd & _). exists m', d. split; [exact E|exact Hd].
Defined.
Lemma mpic_monotone_witness : get_mpic_current_count (gtccr_hi 4294967295) (gtccr_lo 4294967295) ≤
  get_mpic_current_count (gtccr_hi 4294967396) (gtccr_lo 4294967396).
Proof. apply (mpic_monotone 4294967295 4294967396); lia. Defined.
Lemma mpic_count_witness : get_mpic_current_count (gtccr_hi 76800000) (gtccr_lo 76800000) = 1010526.
Proof. rewrite (mpic_count 76800000 76800000) by lia. reflexivity. Defined.
