(* ===== verification/GulUserLibs.v ===== *)
(** * The thermal and TTI libraries (lib/tvd/gul_tvd_lib.c, lib/tti/gul_tti_lib.c)

    User space over the requests of the two drivers.  The system calls and their
    answers are a log, the answers are [UserCalls]; the descriptors that are open, and
    the mappings, are part of the state.  The addresses the modem information reports
    come from the structure of GulModinfo.v. *)
From S2P Require Import Prelude GulMsi GulPci.
#[global] Open Scope Z_scope.

Inductive tvd_req :=
  | IOCTL_GUL_TVD_REGISTER_EVEFD | IOCTL_GUL_TVD_DEREGISTER_EVEFD | IOCTL_GUL_TVD_GET_THERMAL_EVENT
  | IOCTL_GUL_TVD_PROGRAM_MTD_THRESHOLD | IOCTL_GUL_TVD_PROGRAM_RTD_THRESHOLD | IOCTL_GUL_TVD_PROGRAM_CTD_THRESHOLD
  | IOCTL_GUL_TVD_MTD_GET_POWER_INFO | IOCTL_GUL_TVD_MTD_GET_TEMP | IOCTL_GUL_TVD_CTD_GET_TEMP
  | IOCTL_GUL_TVD_RTD_GET_TEMP | IOCTL_GUL_TVD_PROGRAM_MTD_HYSTERESIS | IOCTL_GUL_TVD_PROGRAM_CTD_HYSTERESIS.
Inductive user_call :=
  | OpenTvd (modem : Z) | OpenTti (modem ttid : Z) | OpenModem (modem : Z) | OpenMem
  | Eventfd | Close (fd : Z) | Read (fd : Z)
  | TvdIoctl (fd : Z) (r : tvd_req) | TtiRegister (fd efd : Z) | TtiDeregister (fd : Z) | ModinfoGet (fd : Z)
  | Malloc | Mmap (fd size off : Z) | Munmap (addr size : Z) | ReadReg (addr : Z) | Sleep
  | EpollCreate | EpollAdd (ep fd : Z) | EpollWait (ep : Z) | TimeOfDay.

(** [modinfo_ccsr]: what the modem information says of the registers, as address and
    size. *)
Class UserCalls := { uanswer : list (user_call * Z) → user_call → Z; modinfo_ccsr : Z * Z }.

(** [MAP_FAILED]. *)
Definition MAP_FAILED : Z := -1.

(** The descriptors and mappings the process has, and the globals of the TTI library:
    [addr] (0: NULL), [ccsr_info] and [tti_fd], by modem. *)
Record user := User {
  fds : list Z; maps : list (Z * Z); addr : Z → Z; ccsr_info : Z → option (Z * Z); tti_fd : Z → Z;
  ulog : list (user_call * Z) }.
Definition user_0 : user := User [] [] (λ _, 0) (λ _, None) (λ _, 0) [].

Section User.
Context `{UserCalls}.
Local Abbreviation U := (M user).

Definition set_fds (v : list Z) (w : user) : user := User v (maps w) (addr w) (ccsr_info w) (tti_fd w) (ulog w).
Definition set_maps (v : list (Z * Z)) (w : user) : user := User (fds w) v (addr w) (ccsr_info w) (tti_fd w) (ulog w).
Definition set_addr (m v : Z) (w : user) : user :=
  User (fds w) (maps w) (λ n, if decide (n = m) then v else addr w n) (ccsr_info w) (tti_fd w) (ulog w).
Definition set_ccsr (m : Z) (v : Z * Z) (w : user) : user :=
  User (fds w) (maps w) (addr w) (λ n, if decide (n = m) then Some v else ccsr_info w n) (tti_fd w) (ulog w).
Definition set_tti_fd (m v : Z) (w : user) : user :=
  User (fds w) (maps w) (addr w) (ccsr_info w) (λ n, if decide (n = m) then v else tti_fd w n) (ulog w).

Definition ucall (c : user_call) : U Z := λ w,
  let r := uanswer (ulog w) c in
  Some (r, User (fds w) (maps w) (addr w) (ccsr_info w) (tti_fd w) (ulog w ++ [(c, r)])).
(** A call that gives a descriptor; [close]: it is gone whatever the answer. *)
Definition opened (c : user_call) : U Z :=
  fd ← ucall c;
  _ ← (if decide (0 ≤ fd) then modify (λ w, set_fds (fd :: fds w) w) else mret tt);
  mret fd.
Fixpoint remove1 (fd : Z) (l : list Z) : list Z :=
  match l with [] => [] | x :: l => if decide (x = fd) then l else x :: remove1 fd l end.
Definition close (fd : Z) : U Z := _ ← modify (λ w, set_fds (remove1 fd (fds w)) w); ucall (Close fd).

(** ** The thermal library *)
Definition TVD_OK : Z := 0.
Definition TVD_OPEN_FAIL : Z := 1.
Record tvd := Tvd { tvdid : Z; dev_tvd_handle : Z; tvd_eventfd : Z }.

Definition open_devtvd (modem_id : Z) : U Z := opened (OpenTvd modem_id).

Definition libtvd_register (t : tvd) (modem_id : Z) : U (Z * tvd) :=
  fd ← open_devtvd modem_id;
  if decide (fd < 0) then mret (- TVD_OPEN_FAIL, Tvd modem_id fd (tvd_eventfd t)) else
  efd ← opened Eventfd;
  if decide (efd < 0) then mret (TVD_OK, Tvd modem_id fd efd) else
  ret ← ucall (TvdIoctl fd IOCTL_GUL_TVD_REGISTER_EVEFD);
  if decide (ret < 0) then _ ← close efd; mret (ret, Tvd modem_id fd (-1)) else mret (ret, Tvd modem_id fd efd).

Definition libtvd_deregister (t : tvd) : U (Z * tvd) :=
  t ← (if decide (0 ≤ tvd_eventfd t) then
         _ ← ucall (TvdIoctl (dev_tvd_handle t) IOCTL_GUL_TVD_DEREGISTER_EVEFD);
         _ ← close (tvd_eventfd t);
         mret (Tvd (tvdid t) (dev_tvd_handle t) (-1))
       else mret t);
  ret ← close (dev_tvd_handle t);
  mret (ret, t).

Definition libtvd_blockforEvent_read (fd : Z) : U Z := ucall (Read fd).
Definition libtvd_get_thermal_event (fd : Z) : U Z := ucall (TvdIoctl fd IOCTL_GUL_TVD_GET_THERMAL_EVENT).
Definition libtvd_mtd_threshold_update (fd : Z) : U Z := ucall (TvdIoctl fd IOCTL_GUL_TVD_PROGRAM_MTD_THRESHOLD).
Definition libtvd_rtd_threshold_update (fd : Z) : U Z := ucall (TvdIoctl fd IOCTL_GUL_TVD_PROGRAM_RTD_THRESHOLD).
Definition libtvd_ctd_threshold_update (fd : Z) : U Z := ucall (TvdIoctl fd IOCTL_GUL_TVD_PROGRAM_CTD_THRESHOLD).
Definition libtvd_mtd_get_power_info (fd : Z) : U Z := ucall (TvdIoctl fd IOCTL_GUL_TVD_MTD_GET_POWER_INFO).
Definition libtvd_mtd_get_temp (fd : Z) : U Z := ucall (TvdIoctl fd IOCTL_GUL_TVD_MTD_GET_TEMP).
Definition libtvd_ctd_get_temp (fd : Z) : U Z := ucall (TvdIoctl fd IOCTL_GUL_TVD_CTD_GET_TEMP).
Definition libtvd_rtd_get_temp (fd : Z) : U Z := ucall (TvdIoctl fd IOCTL_GUL_TVD_RTD_GET_TEMP).
Definition libtvd_mtd_hysteresis_update (fd : Z) : U Z := ucall (TvdIoctl fd IOCTL_GUL_TVD_PROGRAM_MTD_HYSTERESIS).
Definition libtvd_ctd_hysteresis_update (fd : Z) : U Z := ucall (TvdIoctl fd IOCTL_GUL_TVD_PROGRAM_CTD_HYSTERESIS).

(** ** The TTI library *)
Record tti := Tti { ttid : Z; dev_tti_handle : Z; tti_eventfd : Z }.

Definition open_devtti (t : tti) (modem_id : Z) : U Z := opened (OpenTti modem_id (ttid t)).

(** The descriptor of the events stays open when the request fails. *)
Definition tti_request (t : tti) (fd efd : Z) : U (Z * tti) :=
  ret ← ucall (TtiRegister fd efd);
  _ ← (if decide (ret < 0) then close fd else mret 0);
  mret (ret, Tti (ttid t) fd efd).
Definition modem_tti_register (t : tti) (modem_id tti_event_flag : Z) : U (Z * tti) :=
  fd ← open_devtti t modem_id;
  if decide (fd < 0) then mret (-2, Tti (ttid t) fd (tti_eventfd t)) else
  if decide (tti_event_flag ≠ 0) then
    efd ← opened Eventfd;
    if decide (efd < 0) then _ ← close fd; mret (efd, Tti (ttid t) fd efd) else tti_request t fd efd
  else tti_request t fd (tti_eventfd t).

Definition modem_tti_deregister (t : tti) : U (Z * tti) :=
  ret ← ucall (TtiDeregister (dev_tti_handle t));
  if decide (ret < 0) then mret (ret, t) else
  t ← (if decide (0 ≤ tti_eventfd t) then _ ← close (tti_eventfd t); mret (Tti (ttid t) (dev_tti_handle t) (-1)) else mret t);
  ret ← close (dev_tti_handle t);
  mret (ret, t).

(** *** The registers of the modem *)
Definition mmap (fd size off : Z) : U Z :=
  a ← ucall (Mmap fd size off);
  _ ← (if decide (a = MAP_FAILED) then mret tt else modify (λ w, set_maps ((a, size) :: maps w) w));
  mret a.
Fixpoint unmap1 (a : Z) (l : list (Z * Z)) : list (Z * Z) :=
  match l with [] => [] | (b, n) :: l => if decide (a = b) then l else (b, n) :: unmap1 a l end.
Definition munmap (a size : Z) : U Z := _ ← modify (λ w, set_maps (unmap1 a (maps w)) w); ucall (Munmap a size).

(** An array by modem: undefined past its end. *)
Definition modem_ok (m : Z) : U unit := if decide (0 ≤ m < Z.of_nat MAX_MODEM) then mret tt else lift None.

(** [malloc] is not checked; [addr == MAP_FAILED] compares the array, not its element,
    and is never true. *)
Definition get_ccsr_addr (modem_id : Z) : U Z :=
  _ ← modem_ok modem_id;
  a ← gets (λ w, addr w modem_id);
  if decide (a ≠ 0) then mret a else
  fd ← opened (OpenModem modem_id);
  if decide (fd = -1) then mret 0 else
  ret ← ucall (ModinfoGet fd);
  if decide (ret < 0) then _ ← close fd; mret 0 else
  known ← gets (λ w, ccsr_info w modem_id);
  _ ← (match known with
       | Some _ => mret tt
       | None => p ← ucall Malloc; if decide (p = 0) then lift None else mret tt
       end);
  _ ← modify (set_ccsr modem_id modinfo_ccsr);
  _ ← close fd;
  fd ← opened OpenMem;
  _ ← modify (set_tti_fd modem_id fd);
  if decide (fd = -1) then mret 0 else
  a ← mmap fd (snd modinfo_ccsr) (fst modinfo_ccsr);
  _ ← modify (set_addr modem_id a);
  mret a.

Definition unmap_tbgen_addr (modem_id : Z) : U unit :=
  _ ← modem_ok modem_id;
  a ← gets (λ w, addr w modem_id);
  if decide (a = 0) then mret tt else
  info ← gets (λ w, ccsr_info w modem_id);
  info ← lift info;
  _ ← munmap a (snd info);
  _ ← modify (set_addr modem_id 0);
  fd ← gets (λ w, tti_fd w modem_id);
  _ ← close fd;
  mret tt.

(** *** The frequency of the generators, from two looks at their counters *)
Definition TBGEN1_BASE_ADDR : Z := 0x1120000.
Definition TBGEN2_BASE_ADDR : Z := 0x1124000.
Definition TBGEN_TIME_STAMP_REGISTER : Z := 0x20.
Definition tbgen_look (base : Z) : U (Z * Z) :=
  t1 ← ucall (ReadReg (base + TBGEN1_BASE_ADDR + TBGEN_TIME_STAMP_REGISTER));
  t2 ← ucall (ReadReg (base + TBGEN2_BASE_ADDR + TBGEN_TIME_STAMP_REGISTER));
  _ ← ucall Sleep;
  mret (u32 t1, u32 t2).
(** The counts it prints, of the two generators. *)
Definition get_tbgen_counter_freq (offset size : Z) : U (Z * option (Z * Z)) :=
  fd ← opened OpenMem;
  if decide (fd = -1) then mret (-1, None) else
  a ← mmap fd size offset;
  if decide (a = MAP_FAILED) then _ ← close fd; mret (-1, None) else
  '(a1, a2) ← tbgen_look a;
  '(b1, b2) ← tbgen_look a;
  _ ← munmap a size;
  _ ← close fd;
  mret (0, Some (u32 (b1 - a1), u32 (b2 - a2))).

Definition get_tbgen_freq_info (modem_id : Z) : U Z :=
  fd ← opened (OpenModem modem_id);
  if decide (fd = -1) then mret (-1) else
  ret ← ucall (ModinfoGet fd);
  if decide (ret < 0) then _ ← close fd; mret (-1) else
  _ ← get_tbgen_counter_freq (fst modinfo_ccsr) (snd modinfo_ccsr);
  _ ← close fd;
  mret 0.

(** ** Theorems *)

(** What a process holds. *)
Definition held (w : user) : list Z * list (Z * Z) := (fds w, maps w).

Lemma remove_head fd l : remove1 fd (fd :: l) = l.
Proof. cbn. by rewrite decide_True. Qed.
Lemma remove_negative fd l : fd < 0 → Forall (λ x, 0 ≤ x) l → remove1 fd l = l.
Proof. intros Hf. induction 1 as [|x l Hx Hl IH]; cbn; [done|]. rewrite decide_False by lia. by rewrite IH. Qed.

(** The calls: each leaves the descriptors and mappings as it should. *)
Definition ends {A} (m : U A) (P : A → list Z * list (Z * Z) → Prop) (h : list Z * list (Z * Z)) : Prop :=
  ∀ w, held w = h → ∃ a w', m w = Some (a, w') ∧ P a (held w').
Lemma ends_bind {A B} (m : U A) (k : A → U B) P Q h : ends m P h → (∀ a h', P a h' → ends (k a) Q h') → ends (m ≫= k) Q h.
Proof.
  intros Hm Hk w Hw. destruct (Hm w Hw) as (a & w1 & E & Ha). rewrite M_bind_eq, E. by apply (Hk a (held w1)).
Qed.
Lemma ends_ret {A} (a : A) (P : A → list Z * list (Z * Z) → Prop) h : P a h → ends (mret a) P h.
Proof. intros Ha w <-. by exists a, w. Qed.
Lemma ends_call c h : ends (ucall c) (λ _ h', h' = h) h.
Proof. intros w Hw. by do 2 eexists. Qed.
Lemma ends_open c F M : ends (opened c) (λ fd h', h' = (if decide (0 ≤ fd) then fd :: F else F, M)) (F, M).
Proof.
  intros w [= <- <-]. unfold opened. rewrite M_bind_eq. cbn [ucall]. case_decide as Hfd; (do 2 eexists; split; [reflexivity|]).
  - by rewrite decide_True.
  - by rewrite decide_False.
Qed.
Lemma ends_close fd F M : ends (close fd) (λ _ h', h' = (remove1 fd F, M)) (F, M).
Proof. intros w [= <- <-]. do 2 eexists. split; reflexivity. Qed.
Lemma ends_weaken {A} (m : U A) (P Q : A → list Z * list (Z * Z) → Prop) h : (∀ a h', P a h' → Q a h') → ends m P h → ends m Q h.
Proof. intros HPQ Hm w Hw. destruct (Hm w Hw) as (a & w' & E & Ha). exists a, w'. auto. Qed.

Local Ltac end_call := eapply ends_bind; [first [apply ends_call|apply ends_open|apply ends_close]|intros ? ? ->].

(** The descriptors a registration leaves. *)
Definition tvd_fds (t : tvd) : list Z :=
  (if decide (0 ≤ tvd_eventfd t) then [tvd_eventfd t] else []) ++ (if decide (0 ≤ dev_tvd_handle t) then [dev_tvd_handle t] else []).
Lemma tvd_register_holds t modem_id F M : tvd_eventfd t < 0 →
  ends (libtvd_register t modem_id) (λ r h, h = (tvd_fds r.2 ++ F, M)) (F, M).
Proof.
  intros Ht. unfold libtvd_register, open_devtvd, tvd_fds. end_call. case_decide; cbn [fst].
  { apply ends_ret. cbn [tvd_eventfd dev_tvd_handle snd app]. by rewrite !decide_False by lia. }
  end_call. rewrite !(decide_True (P := 0 ≤ a)) by lia. case_decide; cbn [fst].
  { apply ends_ret. cbn [tvd_eventfd dev_tvd_handle snd app].
    rewrite !(decide_False (P := 0 ≤ a0)), !(decide_True (P := 0 ≤ a)) by lia.
    done. }
  rewrite !(decide_True (P := 0 ≤ a0)) by lia. end_call. case_decide.
  - end_call. apply ends_ret. rewrite remove_head. cbn [tvd_eventfd dev_tvd_handle snd app]. by rewrite !(decide_True (P := 0 ≤ a)) by lia.
  - apply ends_ret. cbn [tvd_eventfd dev_tvd_handle snd app]. by rewrite !(decide_True (P := 0 ≤ a0)), !(decide_True (P := 0 ≤ a)) by lia.
Qed.
Lemma tvd_deregister_frees t F M : Forall (λ x, 0 ≤ x) F → ends (libtvd_deregister t) (λ _ h, h = (F, M)) (tvd_fds t ++ F, M).
Proof.
  intros HF. unfold libtvd_deregister, tvd_fds. apply (ends_bind _ _ (λ r h, dev_tvd_handle r = dev_tvd_handle t ∧
    h = ((if decide (0 ≤ dev_tvd_handle t) then [dev_tvd_handle t] else []) ++ F, M))).
  - case_decide; [|by apply ends_ret]. end_call. cbn [app]. end_call. apply ends_ret. by rewrite remove_head.
  - intros t' h [-> ->]. end_call. apply ends_ret. case_decide; cbn [app]; [by rewrite remove_head|].
    by rewrite remove_negative by (done || lia).
Qed.

(** whatever the driver and the kernel answer, registering for thermal events and
    deregistering leaves the process with the descriptors it had. *)
Theorem tvd_session_balanced t modem_id F M : Forall (λ x, 0 ≤ x) F → tvd_eventfd t < 0 →
  ends ('(_, t) ← libtvd_register t modem_id; libtvd_deregister t) (λ _ h, h = (F, M)) (F, M).
Proof.
  intros HF Ht. eapply ends_bind; [by apply tvd_register_holds|]. intros [r t'] h ->. by apply tvd_deregister_frees.
Qed.

(** A request that fails leaves the descriptor of the events open. *)
Theorem tti_register_leaks t modem_id flag F M fd efd ret : flag ≠ 0 → 0 ≤ fd → 0 ≤ efd → ret < 0 →
  (∀ l, uanswer l (OpenTti modem_id (ttid t)) = fd ∧ uanswer l Eventfd = efd ∧ uanswer l (TtiRegister fd efd) = ret) → efd ≠ fd →
  ends (modem_tti_register t modem_id flag) (λ r h, r.1 = ret ∧ h = (efd :: F, M)) (F, M).
Proof.
  intros Hf Hfd Hefd Hret Ha Hne w [= <- <-]. unfold modem_tti_register, open_devtti, opened, tti_request, close.
  cbv [mbind M_bind ucall modify mret M_ret]. cbn -[decide].
  rewrite (proj1 (Ha _)). rewrite (decide_True (P := 0 ≤ fd)), (decide_False (P := fd < 0)), (decide_True (P := flag ≠ 0)) by lia.
  cbn -[decide]. rewrite (proj1 (proj2 (Ha _))). rewrite (decide_True (P := 0 ≤ efd)), (decide_False (P := efd < 0)) by lia. cbn -[decide].
  rewrite (proj2 (proj2 (Ha _))). rewrite (decide_True (P := ret < 0)) by lia. cbn -[decide].
  do 2 eexists. split; [reflexivity|]. split; [done|]. unfold held. cbn -[decide].
  by rewrite (decide_False (P := efd = fd)), (decide_True (P := fd = fd)) by done.
Qed.

(** A mapping that failed is kept as the address, and handed out again. *)
Theorem failed_map_handed_out modem_id w : 0 ≤ modem_id < 4 → addr w modem_id = MAP_FAILED →
  get_ccsr_addr modem_id w = Some (MAP_FAILED, w).
Proof.
  intros Hm Ha. unfold get_ccsr_addr, modem_ok. rewrite decide_True by (unfold MAX_MODEM; lia). rewrite M_bind_eq. cbn [mret M_ret].
  rewrite M_bind_eq. cbn [gets]. rewrite Ha. by rewrite decide_True by done.
Qed.
End User.

(** ** A system where all is well but the mapping of the registers *)
#[export] Instance demo_user : UserCalls :=
  {| uanswer l c := match c with OpenMem => 7 | OpenModem _ => 6 | OpenTvd _ => 5 | Eventfd => 8 | Malloc => 1 | Mmap _ _ _ => MAP_FAILED | _ => 0 end;
     modinfo_ccsr := (0x98000000, 0x4000000) |}.
Example ccsr_map_failure : match (a ← get_ccsr_addr 1; b ← get_ccsr_addr 1; mret (a, b)) user_0 with
  | Some (r, w) => r = (MAP_FAILED, MAP_FAILED) ∧ held w = ([7], [])
  | None => False
  end.
Proof. vm_compute. done. Qed.
Lemma tvd_session_balanced_witness : ∃ a w', ('(_, t) ← libtvd_register (Tvd 0 0 (-1)) 1; libtvd_deregister t) user_0 = Some (a, w') ∧ held w' = ([], []).
Proof.
  assert (Hr := tvd_session_balanced (Tvd 0 0 (-1)) 1 [] [] ltac:(constructor) ltac:(reflexivity)). exact (Hr user_0 eq_refl).
Defined.
Lemma failed_map_handed_out_witness : get_ccsr_addr 1 (User [7] [] (λ _, MAP_FAILED) (λ _, None) (λ _, 7) []) =
  Some (MAP_FAILED, User [7] [] (λ _, MAP_FAILED) (λ _, None) (λ _, 7) []).
Proof. apply (failed_map_handed_out 1 (User [7] [] (λ _, MAP_FAILED) (λ _, None) (λ _, 7) [])); [lia|reflexivity]. Defined.
Definition refusing_driver : UserCalls :=
  {| uanswer l c := match c with OpenTti _ _ => 5 | Eventfd => 6 | TtiRegister _ _ => -1 | _ => 0 end; modinfo_ccsr := (0, 0) |}.
Lemma tti_register_leaks_witness :
  ends (modem_tti_register (H := refusing_driver) (Tti 0 0 (-1)) 1 1) (λ r h, r.1 = -1 ∧ h = ([6], [])) ([], []).
Proof. apply (tti_register_leaks (H := refusing_driver) (Tti 0 0 (-1)) 1 1 [] [] 5 6 (-1)); first [lia|done]. Defined.
