(* ===== verification/GulIpcDev.v ===== *)
(** * The IPC devices and their texts (kernel_driver/yami/gul_ipc.c)

    Probe and removal of the IPC device of a modem, with the minor numbers all modems
    share, and the texts the driver shows.  The allocator and the channels of a device
    are GulIpc.v; here a device is what the kernel holds of it.  A device whose memory
    was freed is no longer in [heap], and a use of it is undefined.  The calls of the
    kernel are a log, with the answers of [IpcDevCalls]. *)
From S2P Require Import Prelude GulMsi GulPci GulIpc GulText.
From stdpp Require Import gmap.
#[global] Open Scope Z_scope.

Definition GUL_IPC_INIT_WAIT_RETRIES : nat := 50.
Definition GUL_MINOR_START : nat := 0.

Inductive ipc_call :=
  | Kmalloc (m : nat) | Kfree (a : nat) | DeviceCreate (m minor : nat) | DeviceDestroy (m minor : nat)
  | ModRdy (m : nat) | ScheduleTimeout | CdevAdd (m minor : nat) | CdevDel (a : nat)
  | AddStats (m : nat) | DeregisterChannels (a : nat) | SetupPciSpace (m : nat)
  | GeulSignature (m : nat) | HostSignature (m : nat) | AllocChrdev | UnregisterChrdev.

(** [IS_ERR] of the answer to [DeviceCreate] is its sign. *)
Class IpcDevCalls := { ianswer : list (ipc_call * Z) → ipc_call → Z }.

(** ** State *)

(** A device: its modem and minor number. *)
Record gul_ipc_dev := IpcDev { i_modem : nat; i_minor : nat }.
(** [in_use_minor], [ipc_minor_index]; the devices allocated; [ipc_priv] of the modems;
    the numbers of the character devices that are registered, with their device; the
    modems whose statistics are enabled; the calls. *)
Record ipcd := Ipcd {
  in_use_minor : list bool; ipc_minor_index : nat; heap : gmap nat gul_ipc_dev; ipc_priv : gmap nat nat;
  cdevs : list (nat * nat); ipc_stats : list nat; ilog : list (ipc_call * Z) }.
Definition ipcd_0 : ipcd := Ipcd (replicate MAX_MODEM false) GUL_MINOR_START ∅ ∅ [] [] [].

Section IpcDev.
Context `{IpcDevCalls}.
Local Abbreviation I := (M ipcd).

Definition set_minors (v : list bool) (w : ipcd) : ipcd :=
  Ipcd v (ipc_minor_index w) (heap w) (ipc_priv w) (cdevs w) (ipc_stats w) (ilog w).
Definition set_index (v : nat) (w : ipcd) : ipcd :=
  Ipcd (in_use_minor w) v (heap w) (ipc_priv w) (cdevs w) (ipc_stats w) (ilog w).
Definition set_heap (v : gmap nat gul_ipc_dev) (w : ipcd) : ipcd :=
  Ipcd (in_use_minor w) (ipc_minor_index w) v (ipc_priv w) (cdevs w) (ipc_stats w) (ilog w).
Definition set_priv (v : gmap nat nat) (w : ipcd) : ipcd :=
  Ipcd (in_use_minor w) (ipc_minor_index w) (heap w) v (cdevs w) (ipc_stats w) (ilog w).
Definition set_cdevs (v : list (nat * nat)) (w : ipcd) : ipcd :=
  Ipcd (in_use_minor w) (ipc_minor_index w) (heap w) (ipc_priv w) v (ipc_stats w) (ilog w).
Definition set_stats (v : list nat) (w : ipcd) : ipcd :=
  Ipcd (in_use_minor w) (ipc_minor_index w) (heap w) (ipc_priv w) (cdevs w) v (ilog w).
Definition icall (c : ipc_call) : I Z := λ w,
  let r := ianswer (ilog w) c in
  Some (r, Ipcd (in_use_minor w) (ipc_minor_index w) (heap w) (ipc_priv w) (cdevs w) (ipc_stats w) (ilog w ++ [(c, r)])).
Definition icall_ (c : ipc_call) : I unit := _ ← icall c; mret tt.
Definition get_dev (a : nat) : I gul_ipc_dev := λ w, match heap w !! a with Some d => Some (d, w) | None => None end.

(** The first minor number that is free. *)
Definition free_minor (l : list bool) : option nat := fst <$> list_find (λ b, b = false) l.

(** [while (!ready && retries)]: the retries that are left; at none, one more look. *)
Fixpoint wait_ready (m retries : nat) : I nat :=
  r ← icall (ModRdy m);
  if decide (r ≠ 0) then mret retries else
  match retries with
  | O => mret 0%nat
  | S retries => _ ← icall_ ScheduleTimeout; wait_ready m retries
  end.
Definition is_ready (m retries : nat) : I bool :=
  match retries with
  | O => r ← icall (ModRdy m); mret (bool_decide (r ≠ 0))
  | S _ => mret true
  end.

(** The label [fail], once the device node is there: what was set before it stays. *)
Definition ipc_fail (m a minor : nat) (ret : Z) : I Z :=
  _ ← icall_ (DeviceDestroy m minor);
  _ ← icall_ (Kfree a);
  _ ← modify (λ w, set_heap (delete a (heap w)) w);
  mret ret.

Definition gul_ipc_create_cdev (m a minor : nat) : I Z :=
  ret ← icall (CdevAdd m minor);
  _ ← (if decide (ret = 0) then modify (λ w, set_cdevs ((minor, a) :: cdevs w) w) else mret tt);
  mret ret.

Definition gul_ipc_probe (m : nat) : I Z :=
  minors ← gets in_use_minor;
  match free_minor minors with
  | None => mret (- ENODEV)
  | Some minor =>
      _ ← modify (set_index minor);
      mem ← icall (Kmalloc m);
      if decide (mem = 0) then mret (- ENOMEM) else
      a ← gets (λ w, fresh (dom (heap w)));
      _ ← modify (λ w, set_heap (<[a := IpcDev m minor]> (heap w)) w);
      node ← icall (DeviceCreate m minor);
      if decide (node < 0) then
        _ ← icall_ (Kfree a); _ ← modify (λ w, set_heap (delete a (heap w)) w); mret node
      else
      retries ← wait_ready m GUL_IPC_INIT_WAIT_RETRIES;
      ready ← is_ready m retries;
      if negb ready then ipc_fail m a minor (- EBUSY) else
      ret ← gul_ipc_create_cdev m a minor;
      if decide (ret ≠ 0) then ipc_fail m a minor ret else
      _ ← modify (λ w, set_priv (<[m := a]> (ipc_priv w)) w);
      _ ← modify (λ w, set_minors (<[minor := true]> (in_use_minor w)) w);
      ret ← icall (AddStats m);
      if decide (ret < 0) then ipc_fail m a minor ret else
      _ ← modify (λ w, set_stats (m :: ipc_stats w) w);
      _ ← icall_ (SetupPciSpace m);
      mret ret
  end.

Definition gul_ipc_remove (m : nat) : I Z :=
  p ← gets (λ w, ipc_priv w !! m);
  match p with
  | None => mret 0
  | Some a =>
      d ← get_dev a;
      _ ← icall_ (DeregisterChannels a);
      _ ← icall_ (CdevDel a);
      _ ← modify (λ w, set_cdevs (filter (λ c, c.2 ≠ a) (cdevs w)) w);
      _ ← icall_ (DeviceDestroy m (i_minor d));
      _ ← modify (λ w, set_minors (<[i_minor d := false]> (in_use_minor w)) w);
      _ ← icall_ (Kfree a);
      _ ← modify (λ w, set_heap (delete a (heap w)) w);
      _ ← modify (λ w, set_priv (delete m (ipc_priv w)) w);
      mret 0
  end.

(** The device of an open file; that of a modem by name, once the modem signed its
    data.  A modem without a device is a read through NULL. *)
Definition gul_ipc_open (minor : nat) : I (option nat) :=
  l ← gets cdevs;
  match list_find (λ c, c.1 = minor) l with
  | Some (_, (_, a)) => _ ← get_dev a; mret (Some a)
  | None => mret None
  end.
Definition gul_ipc_release : I (option nat) := mret None.
Definition is_geul_modem_initialized (a : nat) : I bool :=
  d ← get_dev a;
  s ← icall (GeulSignature (i_modem d));
  if decide (s ≠ 0) then _ ← icall_ (HostSignature (i_modem d)); mret true else mret false.
Definition gul_ipc_get_handle (m : option nat) : I (option nat) :=
  match m with
  | None => mret None
  | Some m =>
      p ← gets (λ w, ipc_priv w !! m);
      a ← lift p;
      ok ← is_geul_modem_initialized a;
      mret (if (ok : bool) then Some a else None)
  end.

Definition gul_ipc_init : I Z :=
  _ ← modify (set_index GUL_MINOR_START); icall AllocChrdev.
Definition gul_ipc_exit : I Z := _ ← icall_ UnregisterChrdev; mret 0.
End IpcDev.

(** ** The texts *)

(** [struct gul_ipc_ch_stats], [struct gul_ipc_stats]. *)
Record gul_ipc_ch_stats := ChStats {
  num_of_msg_recved : Z; num_of_msg_sent : Z; total_msg_length : Z; c_input_invalid : Z; c_channel_invalid : Z;
  c_not_implemented : Z; c_mem_invalid : Z; c_channel_full : Z; c_channel_empty : Z; c_buf_list_full : Z;
  c_buf_list_empty : Z; c_host_buf_alloc_fail : Z; c_ioctl_fail : Z; c_efd_reg_fail : Z }.
Definition ch_stats_0 : gul_ipc_ch_stats := ChStats 0 0 0 0 0 0 0 0 0 0 0 0 0 0.
Record gul_ipc_stats := IpcStats {
  err_instance_invalid : Z; err_md_sz_mismatch : Z; err_mem_invalid : Z; err_input_invalid : Z;
  ipc_ch_stats : list gul_ipc_ch_stats }.
Definition CHANNELS_IN_USE : nat := 8.

Definition tab : string := String (Ascii.ascii_of_nat 9) "".
Definition _dump_stats_per_channel (s : gul_ipc_ch_stats) : string :=
  line ("IPC: recvd = " +:+ pad_left 8 (dec (num_of_msg_recved s)) +:+ "  sent = " +:+ pad_left 8 (dec (num_of_msg_sent s))) +:+
  line ("IPC: total_message_len = " +:+ dec (total_msg_length s)) +:+
  line (tab +:+ "IPC: input_invalid: " +:+ dec (c_input_invalid s)) +:+
  line (tab +:+ "IPC: channel_invalid: " +:+ dec (c_channel_invalid s)) +:+
  line (tab +:+ "IPC: Not implemented: " +:+ dec (c_not_implemented s)) +:+
  line (tab +:+ "IPC: invalid_memory: " +:+ dec (c_mem_invalid s)) +:+
  line (tab +:+ "IPC: channel_full: " +:+ dec (c_channel_full s)) +:+
  line (tab +:+ "IPC: channel_empty: " +:+ dec (c_channel_empty s)) +:+
  line (tab +:+ "IPC: buf_full: " +:+ dec (c_buf_list_full s)) +:+
  line (tab +:+ "IPC: buf_empty: " +:+ dec (c_buf_list_empty s)) +:+
  line (tab +:+ "IPC: Buf_alloc_failed: " +:+ dec (c_host_buf_alloc_fail s)) +:+
  line (tab +:+ "IPC: ioctl_failed: " +:+ dec (c_ioctl_fail s)) +:+
  line (tab +:+ "IPC: eventfd_reg_failed: " +:+ dec (c_efd_reg_fail s)).

(** Two of the counters under the heading of the modem are those of the host. *)
Definition common_stats (h m : gul_ipc_stats) : string :=
  nl +:+ line "IPC: ##### HOST common stats  ######" +:+
  line ("IPC: Invalid Instance = " +:+ dec (err_instance_invalid h)) +:+
  line ("IPC: Metadata Size mismatch = " +:+ dec (err_md_sz_mismatch h)) +:+
  line ("IPC: Invalid Memory= " +:+ dec (err_mem_invalid h)) +:+
  line ("IPC: Invalid input = " +:+ dec (err_input_invalid h)) +:+
  nl +:+ line "IPC: ##### MODEM common stats ######" +:+
  line ("IPC: Invalid Instance = " +:+ dec (err_instance_invalid m)) +:+
  line ("IPC: Metadata Size mismatch = " +:+ dec (err_md_sz_mismatch m)) +:+
  line ("IPC: Invalid Memory= " +:+ dec (err_mem_invalid h)) +:+
  line ("IPC: Invalid input = " +:+ dec (err_input_invalid h)).
Definition channel_stats (h m : gul_ipc_stats) (i : nat) : string :=
  line ("IPC: ---- For Channel " +:+ dec (Z.of_nat i) +:+ " ---") +:+
  line "IPC: ##### HOST Stats ######" +:+ _dump_stats_per_channel (nth i (ipc_ch_stats h) ch_stats_0) +:+ nl +:+
  line "IPC: ##### MODEM Stats ######" +:+ _dump_stats_per_channel (nth i (ipc_ch_stats m) ch_stats_0) +:+
  line "IPC: -------------------------".
Definition ipc_show_stats (enabled : bool) (h m : gul_ipc_stats) : Z * list Z :=
  if negb enabled then (0, []) else
  sprintf (common_stats h m +:+
    line "IPC: ---------------------------------" +:+
    line "IPC: ---- Per Channel Stats ----------" +:+
    line "IPC: ---------------------------------" +:+
    concat_text (channel_stats h m <$> seq 0 CHANNELS_IN_USE)).
Definition stats_0 (n : nat) : gul_ipc_stats := IpcStats 0 0 0 0 (replicate n ch_stats_0).
(** Both sides are cleared. *)
Definition ipc_reset_stats (s : gul_ipc_stats * gul_ipc_stats) : gul_ipc_stats * gul_ipc_stats :=
  (stats_0 (length (ipc_ch_stats s.1)), stats_0 (length (ipc_ch_stats s.2))).

Definition in_mb (x : Z) : Z := Z.quot x (1024 * 1024).
(** An entry is shown with the place of a window, not with the window it has. *)
Definition cb_line (map : list Z) (i : nat) (cb : gul_pci_alloc_cb) : string :=
  line (" iatu_id:" +:+ dec (nth i map 0) +:+ ": 0x" +:+ hex (h_addr cb) +:+ ":0x" +:+ hex (u32 (GulIpc.size cb)) +:+ " (" +:+ dec (in_mb (GulIpc.size cb)) +:+ "MB)").
Definition gul_ipc_pci_map_dump (a : gul_pci_allocator_s) : string :=
  line (" ipc_pci avail_space:0x" +:+ hex (pci_avail_space a) +:+ " total :0x" +:+ hex (pci_total_space a) +:+ " (" +:+ dec (in_mb (pci_total_space a)) +:+ "MB)") +:+
  line (" ipc_pci alloc addr:0x" +:+ hex (pci_alloc_addr a) +:+ " cnt :" +:+ dec (pci_alloc_cnt a)) +:+
  concat_text (imap (cb_line (iatu_idx_map a)) (take (Z.to_nat (pci_alloc_cnt a)) (cbs a))).

(** A channel whose state nothing assigned is a use of an indeterminate value; [txt]:
    the name of its interrupt. *)
Definition chan_line (txt : Z → string) (i : nat) (c : ipc_chan) : option string :=
  f ← irq_free (ipc_irq c);
  if decide (f ≠ GUL_MSI_IRQ_BUSY) then Some "" else
  idx ← irq_index (ipc_irq c); v ← msi_value (ipc_irq c); t ← irq_num_txt (ipc_irq c);
  Some (line (" IPC ch(" +:+ dec (Z.of_nat i) +:+ ") irq " +:+ dec idx +:+ ", msi " +:+ dec v +:+ ", " +:+ txt t)).
(** [None] for the device: its name is read through NULL before it is looked at. *)
Definition gul_ipc_show (gul_id : Z) (txt : Z → string) (dev : option (string * ipc_world)) : option string :=
  '(name, w) ← dev;
  let hp := hugepg_start (sys_map w) in
  chans ← mapM id (imap (chan_line txt) (asyn_chans w));
  Some (line ("*****ModemID " +:+ dec gul_id +:+ " (" +:+ name +:+ ")") +:+
    line (" hugepg host:0x" +:+ hex (host_phys hp) +:+ " modem:0x" +:+ hex (modem_phys hp) +:+ " size :0x" +:+ hex (d_size hp)) +:+
    gul_ipc_pci_map_dump (pci_allocator w) +:+ concat_text chans +:+ " " +:+ nl).
