(* ===== verification/GulIpcDevCorrect.v ===== *)
(** * The IPC devices: theorems *)
From S2P Require Import Prelude GulMsi GulPci GulIpc GulText GulIpcDev.
From stdpp Require Import gmap.
#[global] Open Scope Z_scope.

(** ** Minor numbers *)

(** The devices allocated are those of the modems, one each; the minor numbers in use
    are theirs, one each. *)
Record ipc_ok (w : ipcd) : Prop := {
  o_len : length (in_use_minor w) = MAX_MODEM;
  o_priv : ∀ m a, ipc_priv w !! m = Some a → ∃ d, heap w !! a = Some d ∧ i_modem d = m;
  o_heap : ∀ a d, heap w !! a = Some d → ipc_priv w !! i_modem d = Some a;
  o_minor : ∀ a d, heap w !! a = Some d → in_use_minor w !! i_minor d = Some true;
  o_own : ∀ a b d e, heap w !! a = Some d → heap w !! b = Some e → i_minor d = i_minor e → a = b;
  o_used : ∀ k, in_use_minor w !! k = Some true → ∃ a d, heap w !! a = Some d ∧ i_minor d = k }.

Lemma ipc_ok_0 : ipc_ok ipcd_0.
Proof.
  assert (He : ∀ a, heap ipcd_0 !! a = None) by apply (lookup_empty (M := gmap nat)).
  assert (Hp : ∀ m, ipc_priv ipcd_0 !! m = None) by apply (lookup_empty (M := gmap nat)).
  split; [done|..].
  - intros m a Hd. by rewrite Hp in Hd.
  - intros a d Hd. by rewrite He in Hd.
  - intros a d Hd. by rewrite He in Hd.
  - intros a b d e Hd. by rewrite He in Hd.
  - intros k. do 4 (destruct k as [|k]; [done|]). done.
Qed.

Lemma free_minor_spec l k : free_minor l = Some k → l !! k = Some false ∧ (k < length l)%nat.
Proof.
  unfold free_minor. destruct (list_find _ l) as [[i b]|] eqn:E; [|done]. intros [= ->].
  apply list_find_Some in E as (Hl & -> & _). split; [done|]. by apply lookup_lt_Some in Hl.
Qed.

Section Ok.
Context `{IpcDevCalls}.

(** What calls keep. *)
Definition core (w : ipcd) : list bool * gmap nat gul_ipc_dev * gmap nat nat := (in_use_minor w, heap w, ipc_priv w).
Lemma ok_core w w' : core w' = core w → ipc_ok w → ipc_ok w'.
Proof. unfold core. intros [= E1 E2 E3] [Hl Hp Hh Hm Ho Hu]. split; by rewrite ?E1, ?E2, ?E3. Qed.
Lemma icall_core c : keeps core (icall c).
Proof. by intros w a w' [= _ <-]. Qed.
Lemma icall__core c : keeps core (icall_ c).
Proof. apply keeps_bind; [apply icall_core|intros ?; apply keeps_ret]. Qed.
Lemma ipc_get_dev_core a : keeps core (get_dev a).
Proof. intros w d w'. unfold get_dev. by destruct (heap w !! a); [intros [= _ <-]|]. Qed.
#[local] Hint Resolve icall_core icall__core ipc_get_dev_core : keeps.
Lemma wait_core m n : keeps core (wait_ready m n).
Proof. induction n as [|n IH]; cbn [wait_ready]; keeps_tac; apply IH. Qed.
Lemma is_ready_core m n : keeps core (is_ready m n).
Proof. destruct n; cbn [is_ready]; keeps_tac. Qed.
#[local] Hint Resolve wait_core is_ready_core : keeps.

(** The world as it was, with a device that is not yet anyone's. *)
Definition with_new (w0 : ipcd) (a m minor : nat) (w : ipcd) : Prop :=
  in_use_minor w = in_use_minor w0 ∧ heap w = <[a := IpcDev m minor]> (heap w0) ∧ ipc_priv w = ipc_priv w0.
Lemma with_new_keeps {A} w0 a m minor (x : M ipcd A) : keeps core x → hoare True (with_new w0 a m minor) x (λ _, with_new w0 a m minor).
Proof.
  intros Hx w Hw. destruct (x w) as [[r w']|] eqn:E; [|done]. apply Hx in E. unfold core in E. injection E as E1 E2 E3.
  unfold with_new in *. by rewrite E1, E2, E3.
Qed.

Lemma fail_restores w0 a m minor ret : ipc_ok w0 → heap w0 !! a = None →
  hoare True (with_new w0 a m minor) (ipc_fail m a minor ret) (λ r w, r = ret ∧ ipc_ok w ∧ core w = core w0).
Proof.
  intros H0 Ha w (E1 & E2 & E3). unfold ipc_fail, icall_, icall. cbv [mbind M_bind modify mret M_ret]. split; [done|].
  assert (E : core (set_heap (delete a (heap w)) w) = core w0).
  { unfold core, set_heap. cbn. by rewrite E1, E2, E3, delete_insert_id. }
  split; [|exact E]. by apply ok_core with w0.
Qed.

(** A probe that fails leaves all as it was; one that succeeds adds a device. *)
Lemma ipc_probe_ok m w : (∀ l, 0 ≤ ianswer l (AddStats m)) → ipc_ok w → ipc_priv w !! m = None →
  match gul_ipc_probe m w with
  | Some (r, w') => ipc_ok w' ∧ ((r < 0 ∨ r ≠ 0) ∧ core w' = core w ∨ 0 ≤ r ∧ is_Some (ipc_priv w' !! m))
  | None => True
  end.
Proof.
  intros Hst Hw Hm. unfold gul_ipc_probe. rewrite M_bind_eq. cbn [gets].
  destruct (free_minor (in_use_minor w)) as [minor|] eqn:Hfree; [|by split; [|left; split; [right|]]].
  apply free_minor_spec in Hfree as [Hfr Hlt].
  rewrite M_bind_eq. cbn [modify]. rewrite M_bind_eq. cbn [icall]. case_decide as Hmem.
  { split; [by apply ok_core with w|]. left. by split; [right|]. }
  rewrite M_bind_eq. cbn [gets]. set (a := fresh (dom _)). cbn [heap set_index] in a.
  assert (Ha : heap w !! a = None) by (apply not_elem_of_dom, is_fresh). rewrite M_bind_eq. cbn [modify].
  match goal with |- context [set_heap ?h ?v] => set (w1 := set_heap h v) end.
  assert (Hw1 : with_new w a m minor w1) by done. clearbody w1.
  assert (Hnew : ∀ A (x : M ipcd A) k v, keeps core x → x v = Some k → with_new w a m minor v → with_new w a m minor k.2).
  { intros A x [r v'] v Hx E Hv. assert (Hh := with_new_keeps w a m minor x Hx v Hv). by rewrite E in Hh. }
  rewrite M_bind_eq. destruct (icall (DeviceCreate m minor) w1) as [[node w2]|] eqn:E2; [|done].
  assert (Hw2 := Hnew _ _ _ _ (icall_core _) E2 Hw1). cbn [snd] in Hw2. clear E2. case_decide as Hnode.
  { unfold icall_, icall. cbv [mbind M_bind modify mret M_ret]. destruct Hw2 as (F1 & F2 & F3).
    match goal with |- ipc_ok ?v ∧ _ => assert (E : core v = core w) by (unfold core, set_heap; cbn; by rewrite F1, F2, F3, delete_insert_id) end.
    split; [by apply ok_core with w|]. left. split; [by left|done]. }
  rewrite M_bind_eq. destruct (wait_ready m GUL_IPC_INIT_WAIT_RETRIES w2) as [[retries w3']|] eqn:E3; [|done].
  assert (Hw3' := Hnew _ _ _ _ (wait_core _ _) E3 Hw2). cbn [snd] in Hw3'. clear E3 Hw1 Hw2.
  rewrite M_bind_eq. destruct (is_ready m retries w3') as [[ready w3]|] eqn:E3; [|done].
  assert (Hw3 := Hnew _ _ _ _ (is_ready_core _ _) E3 Hw3'). cbn [snd] in Hw3. clear E3 Hw3'.
  assert (Hfail : ∀ ret v, ret ≠ 0 → with_new w a m minor v → match ipc_fail m a minor ret v with
    | Some (r, w') => ipc_ok w' ∧ ((r < 0 ∨ r ≠ 0) ∧ core w' = core w ∨ 0 ≤ r ∧ is_Some (ipc_priv w' !! m)) | None => True end).
  { intros ret v Hr Hv. assert (Hf := fail_restores w a m minor ret Hw Ha v Hv).
    destruct (ipc_fail m a minor ret v) as [[r w']|]; [|done]. destruct Hf as (-> & Hok & Hc). split; [done|]. left. by split; [right|]. }
  destruct ready; cbn [negb]; [|by apply Hfail].
  unfold gul_ipc_create_cdev. rewrite !M_bind_eq. destruct (icall (CdevAdd m minor) w3) as [[ret w4]|] eqn:E4; [|done].
  assert (Hw4 := Hnew _ _ _ _ (icall_core _) E4 Hw3). cbn [snd] in Hw4. clear E4 Hw3. rewrite M_bind_eq.
  destruct (decide (ret = 0)) as [->|Hret].
  2: { cbn [mret M_ret]. rewrite decide_True by done. by apply Hfail. }
  cbn [modify mret M_ret]. rewrite decide_False by lia. rewrite M_bind_eq. cbn [modify]. rewrite M_bind_eq. cbn [modify].
  rewrite M_bind_eq. cbn [icall]. rewrite decide_False by (apply Z.le_ngt, Hst).
  unfold icall_, icall. cbv [mbind M_bind modify mret M_ret]. destruct Hw4 as (F1 & F2 & F3).
  split; [|right; split; [apply Hst|]; cbn; rewrite lookup_insert_eq; by eexists].
  destruct Hw as [Hl Hp Hh Hmi Ho Hu].
  assert (Hnom : ∀ b d, heap w !! b = Some d → i_modem d ≠ m) by (intros b d Hb <-; by rewrite (Hh b d Hb) in Hm).
  assert (Hnok : ∀ b d, heap w !! b = Some d → i_minor d ≠ minor) by (intros b d Hb <-; by rewrite (Hmi b d Hb) in Hfr).
  split; cbn [in_use_minor heap ipc_priv set_stats set_minors set_priv set_cdevs]; rewrite ?F1, ?F2, ?F3.
  - by rewrite length_insert.
  - intros m' b. destruct (decide (m = m')) as [<-|Hne].
    + rewrite lookup_insert_eq. intros [= <-]. eexists. by rewrite lookup_insert_eq.
    + rewrite lookup_insert_ne by done. intros Hb. destruct (Hp m' b Hb) as (d & Hd & Hdm). exists d. split; [|done].
      rewrite lookup_insert_ne by (intros ->; congruence). done.
  - intros b d Hb. destruct (decide (a = b)) as [<-|Hne].
    + rewrite lookup_insert_eq in Hb. injection Hb as <-. cbn. by rewrite lookup_insert_eq.
    + rewrite lookup_insert_ne in Hb by done. rewrite lookup_insert_ne by (by apply not_eq_sym, (Hnom b)). by apply Hh.
  - intros b d Hb. destruct (decide (a = b)) as [<-|Hne].
    + rewrite lookup_insert_eq in Hb. injection Hb as <-. cbn. by rewrite list_lookup_insert_eq.
    + rewrite lookup_insert_ne in Hb by done. rewrite list_lookup_insert_ne by (by apply not_eq_sym, (Hnok b)). by apply (Hmi b).
  - intros b c d e Hb Hc Hde. destruct (decide (a = b)) as [<-|Hb'], (decide (a = c)) as [<-|Hc']; [done|..].
    + rewrite lookup_insert_eq in Hb. rewrite lookup_insert_ne in Hc by done. injection Hb as <-. cbn in Hde. by destruct (Hnok c e Hc).
    + rewrite lookup_insert_ne in Hb by done. rewrite lookup_insert_eq in Hc. injection Hc as <-. cbn in Hde. by destruct (Hnok b d Hb).
    + rewrite lookup_insert_ne in Hb, Hc by done. by apply (Ho b c d e).
  - intros k. destruct (decide (minor = k)) as [<-|Hne].
    + intros _. exists a. eexists. by rewrite lookup_insert_eq.
    + rewrite list_lookup_insert_ne by done. intros Hk. destruct (Hu k Hk) as (b & d & Hb & Hd). exists b, d. split; [|done].
      rewrite lookup_insert_ne by (intros ->; congruence). done.
Qed.

(** A removal gives the number back. *)
Lemma ipc_remove_ok m w : ipc_ok w → ∃ w', gul_ipc_remove m w = Some (0, w') ∧ ipc_ok w' ∧ ipc_priv w' !! m = None.
Proof.
  intros Hw. unfold gul_ipc_remove. rewrite M_bind_eq. cbn [gets]. destruct (ipc_priv w !! m) as [a|] eqn:Hm.
  2: { exists w. done. }
  destruct Hw as [Hl Hp Hh Hmi Ho Hu]. destruct (Hp m a Hm) as (d & Hd & Hdm).
  rewrite M_bind_eq. unfold get_dev. rewrite Hd. unfold icall_, icall. cbv [mbind M_bind modify mret M_ret].
  eexists. split; [reflexivity|]. split; [|apply lookup_delete_eq].
  split; cbn [in_use_minor heap ipc_priv set_stats set_minors set_priv set_cdevs set_heap].
  - by rewrite length_insert.
  - intros m' b. destruct (decide (m = m')) as [<-|Hne]; [by rewrite lookup_delete_eq|]. rewrite lookup_delete_ne by done.
    intros Hb. destruct (Hp m' b Hb) as (e & He & Hem). exists e. split; [|done]. rewrite lookup_delete_ne; [done|]. intros ->. congruence.
  - intros b e Hb. apply lookup_delete_Some in Hb as [Hne Hb]. rewrite lookup_delete_ne; [by apply Hh|].
    intros Hm'. assert (Hx := Hh b e Hb). rewrite <- Hm', Hm in Hx. congruence.
  - intros b e Hb. apply lookup_delete_Some in Hb as [Hne Hb]. rewrite list_lookup_insert_ne; [by apply (Hmi b)|].
    intros Hk. by apply Hne, (Ho a b d e).
  - intros b c e f Hb Hc. apply lookup_delete_Some in Hb as [_ Hb]. apply lookup_delete_Some in Hc as [_ Hc]. by apply Ho.
  - intros k Hk. destruct (decide (i_minor d = k)) as [<-|Hne].
    + rewrite list_lookup_insert_eq in Hk; [done|]. apply lookup_lt_Some with true. by apply (Hmi a).
    + rewrite list_lookup_insert_ne in Hk by done. destruct (Hu k Hk) as (b & e & Hb & Hbe). exists b, e. split; [|done].
      rewrite lookup_delete_ne; [done|]. intros <-. congruence.
Qed.
(** Nothing a probe does is undefined. *)
Lemma icall_stays c : stays (λ _, True) (icall c).
Proof. by intros w. Qed.
Lemma icall__stays c : stays (λ _, True) (icall_ c).
Proof. by intros w. Qed.
Lemma modify_stays f : stays (λ _, True) (@modify ipcd f).
Proof. by intros w. Qed.
#[local] Hint Resolve icall_stays icall__stays modify_stays : stays.
Lemma wait_stays m n : stays (λ _, True) (wait_ready m n).
Proof. induction n as [|n IH]; cbn [wait_ready]; stays_tac; apply IH. Qed.
#[local] Hint Resolve wait_stays : stays.
Lemma probe_defined m w : is_Some (gul_ipc_probe m w).
Proof.
  assert (Hs : stays (λ _, True) (gul_ipc_probe m)) by (unfold gul_ipc_probe, is_ready, ipc_fail, gul_ipc_create_cdev; stays_tac).
  specialize (Hs w I). by destruct (gul_ipc_probe m w).
Qed.

(** ** Any number of probes and removals *)
Inductive ipc_op := DoProbe (m : nat) | DoRemove (m : nat).
Definition do_ipc (o : ipc_op) : M ipcd unit :=
  match o with
  | DoProbe m => p ← gets (λ w, ipc_priv w !! m);
      match p with Some _ => mret tt | None => _ ← gul_ipc_probe m; mret tt end
  | DoRemove m => _ ← gul_ipc_remove m; mret tt
  end.
Definition do_ops (l : list ipc_op) : M ipcd unit := foldr (λ o k, _ ← do_ipc o; k) (mret tt) l.

Lemma do_ipc_ok o w : (∀ m l, 0 ≤ ianswer l (AddStats m)) → ipc_ok w → ∃ w', do_ipc o w = Some (tt, w') ∧ ipc_ok w'.
Proof.
  intros Hs Hw. destruct o as [m|m]; cbn [do_ipc].
  - rewrite M_bind_eq. cbn [gets]. destruct (ipc_priv w !! m) as [a|] eqn:Hm; [by exists w|].
    rewrite M_bind_eq. assert (Hp := ipc_probe_ok m w (Hs m) Hw Hm). destruct (probe_defined m w) as [[r w'] E]. rewrite E in Hp |- *.
    exists w'. by split; [|apply Hp].
  - rewrite M_bind_eq. destruct (ipc_remove_ok m w Hw) as (w' & -> & Hok & _). by exists w'.
Qed.

(** While no registration of the statistics fails, no probe or removal of an IPC
    device, in any order and for any modems, is undefined, and the minor numbers marked
    in use are those of the devices the modems hold, no two modems the same. *)
Theorem ipc_minors_exclusive (l : list ipc_op) : (∀ m h, 0 ≤ ianswer h (AddStats m)) →
  ∃ w, do_ops l ipcd_0 = Some (tt, w) ∧
    (∀ k, in_use_minor w !! k = Some true ↔ ∃ m a, ipc_priv w !! m = Some a ∧ heap w !! a = Some (IpcDev m k)) ∧
    (∀ m n a b d e, ipc_priv w !! m = Some a → ipc_priv w !! n = Some b → heap w !! a = Some d → heap w !! b = Some e →
       i_minor d = i_minor e → m = n).
Proof.
  intros Hs. assert (Hr : ∀ v, ipc_ok v → ∃ w, do_ops l v = Some (tt, w) ∧ ipc_ok w).
  { induction l as [|o l IH]; intros v Hv; cbn [do_ops foldr]; [by exists v|].
    rewrite M_bind_eq. destruct (do_ipc_ok o v Hs Hv) as (v' & -> & Hv'). by apply IH. }
  destruct (Hr ipcd_0 ipc_ok_0) as (w & Ew & [Hl Hp Hh Hmi Ho Hu]). exists w. split; [done|]. split.
  - intros k. split.
    + intros Hk. destruct (Hu k Hk) as (a & d & Hd & <-). exists (i_modem d), a. split; [by apply Hh|]. by destruct d.
    + intros (m & a & _ & Ha). by apply (Hmi a _ Ha).
  - intros m n a b d e Hm Hn Hd He Hde. assert (a = b) as <- by (by apply (Ho a b d e)).
    destruct (Hp m a Hm) as (? & Hx & <-), (Hp n a Hn) as (? & Hy & <-). congruence.
Qed.

(** The state a step ends in by a name, with what is known of it. *)
Ltac name_state Hlt :=
  match goal with
  | |- context [Ipcd (in_use_minor ?v) ?b ?c ?d ?e ?f ?g] =>
      let w' := fresh "w" in let E := fresh "E" in
      set (w' := Ipcd (in_use_minor v) b c d e f g);
      assert (E : in_use_minor w' = in_use_minor v) by reflexivity; clearbody w'; rewrite <- E in Hlt; clear E
  end.

Lemma ready_at_once m n w : (∀ h, ianswer h (ModRdy m) ≠ 0) →
  wait_ready m n w = Some (n, Ipcd (in_use_minor w) (ipc_minor_index w) (heap w) (ipc_priv w) (cdevs w) (ipc_stats w)
    (ilog w ++ [(ModRdy m, ianswer (ilog w) (ModRdy m))])).
Proof. intros Hy. destruct n; cbn [wait_ready]; rewrite M_bind_eq; cbn [icall]; by rewrite decide_True by apply Hy. Qed.

(** A probe whose registration of the statistics fails frees the device it has
    already given to the modem: the modem keeps the freed device, its minor number stays
    in use and its character device registered, so that the removal of the modem and an
    open of the device use freed memory. *)
Theorem failed_stats_dangle (m k : nat) (w : ipcd) :
  (∀ h, ianswer h (Kmalloc m) ≠ 0) → (∀ h, 0 ≤ ianswer h (DeviceCreate m k)) → (∀ h, ianswer h (ModRdy m) ≠ 0) →
  (∀ h, ianswer h (CdevAdd m k) = 0) → (∀ h, ianswer h (AddStats m) < 0) → free_minor (in_use_minor w) = Some k →
  ∃ r w' a, gul_ipc_probe m w = Some (r, w') ∧ r < 0 ∧
    ipc_priv w' !! m = Some a ∧ heap w' !! a = None ∧ in_use_minor w' !! k = Some true ∧ In (k, a) (cdevs w') ∧
    gul_ipc_remove m w' = None ∧ gul_ipc_open k w' = None ∧ gul_ipc_get_handle (Some m) w' = None.
Proof.
  intros Hk Hn Hy Hc Ha Hf. assert (Hlt := proj2 (free_minor_spec _ _ Hf)).
  unfold gul_ipc_probe. rewrite M_bind_eq. cbn [gets]. rewrite Hf.
  rewrite M_bind_eq. cbn [modify]. rewrite M_bind_eq. cbn [icall]. rewrite decide_False by apply Hk.
  rewrite M_bind_eq. cbn [gets]. set (a := fresh (dom _)). clearbody a.
  rewrite M_bind_eq. cbn [modify]. match goal with |- context [set_heap ?h ?v] => set (w1 := set_heap h v) end.
  assert (H1 : in_use_minor w1 = in_use_minor w) by done. clearbody w1. rewrite <- H1 in Hlt. clear H1.
  rewrite M_bind_eq. unfold icall at 1. rewrite decide_False by (apply Z.le_ngt, Hn). name_state Hlt.
  rewrite M_bind_eq.
  rewrite ready_at_once by apply Hy. rewrite M_bind_eq. unfold GUL_IPC_INIT_WAIT_RETRIES. cbn [is_ready mret M_ret negb].
  name_state Hlt. rewrite M_bind_eq. unfold gul_ipc_create_cdev. rewrite M_bind_eq. unfold icall at 1. name_state Hlt. rewrite M_bind_eq.
  rewrite (decide_True (P := _ = 0)) by apply Hc. cbn [modify mret M_ret]. rewrite (decide_False (P := _ ≠ 0)) by (intros E; apply E, Hc).
  rewrite M_bind_eq. cbn [modify]. rewrite M_bind_eq. cbn [modify]. rewrite M_bind_eq. unfold icall at 1.
  rewrite decide_True by apply Ha. unfold ipc_fail, icall_, icall. cbv [mbind M_bind modify mret M_ret].
  do 2 eexists. exists a. split; [reflexivity|]. split; [apply Ha|].
  match goal with |- ipc_priv ?x !! _ = _ ∧ _ => set (v := x) end.
  assert (E1 : ipc_priv v !! m = Some a) by (unfold v; cbn; by rewrite lookup_insert_eq).
  assert (E2 : heap v !! a = None) by (unfold v; cbn; by rewrite lookup_delete_eq).
  assert (E3 : in_use_minor v !! k = Some true) by (unfold v; cbn; by rewrite list_lookup_insert_eq).
  assert (E4 : ∃ l, cdevs v = (k, a) :: l) by (by eexists). clearbody v. destruct E4 as [l E4].
  assert (Hg : get_dev a v = None) by (unfold get_dev; by rewrite E2).
  split; [done|]. split; [done|]. split; [done|]. split; [rewrite E4; by left|]. split; [|split].
  - unfold gul_ipc_remove. rewrite M_bind_eq. cbn [gets]. by rewrite E1, M_bind_eq, Hg.
  - unfold gul_ipc_open. rewrite M_bind_eq. cbn [gets]. rewrite E4. cbn [list_find fst]. rewrite decide_True by done. by rewrite M_bind_eq, Hg.
  - unfold gul_ipc_get_handle. rewrite M_bind_eq. cbn [gets]. rewrite E1, M_bind_eq. cbn [lift].
    rewrite M_bind_eq. unfold is_geul_modem_initialized. by rewrite M_bind_eq, Hg.
Qed.

(** A modem without a device has no handle to give: its device is read through NULL. *)
Lemma handle_without_device m w : ipc_priv w !! m = None → gul_ipc_get_handle (Some m) w = None.
Proof. intros Hm. unfold gul_ipc_get_handle. rewrite M_bind_eq. cbn [gets]. by rewrite Hm. Qed.
End Ok.

(** ** A kernel *)
Definition calls_demo (stats : Z) : IpcDevCalls :=
  {| ianswer l c := match c with AddStats _ => stats | Kmalloc _ | ModRdy _ => 1 | _ => 0 end |}.

Lemma ipc_minors_exclusive_witness :
  ∃ w, do_ops (H := calls_demo 0) [DoProbe 3; DoProbe 1; DoRemove 3; DoProbe 2] ipcd_0 = Some (tt, w) ∧
    in_use_minor w = [true; true; false; false] ∧
    (∀ k, in_use_minor w !! k = Some true ↔ ∃ m a, ipc_priv w !! m = Some a ∧ heap w !! a = Some (IpcDev m k)).
Proof.
  destruct (ipc_minors_exclusive (H := calls_demo 0) [DoProbe 3; DoProbe 1; DoRemove 3; DoProbe 2]%nat (λ _ _, Z.le_refl 0)) as (w & Ew & Hu & _).
  exists w. split; [exact Ew|]. split; [|exact Hu]. vm_compute in Ew. by injection Ew as <-.
Defined.

Lemma failed_stats_dangle_witness :
  ∃ r w' a, gul_ipc_probe (H := calls_demo (-12)) 0 ipcd_0 = Some (r, w') ∧ r < 0 ∧
    ipc_priv w' !! 0%nat = Some a ∧ heap w' !! a = None ∧ in_use_minor w' !! 0%nat = Some true ∧ In (0%nat, a) (cdevs w') ∧
    gul_ipc_remove (H := calls_demo (-12)) 0 w' = None ∧ gul_ipc_open 0 w' = None ∧
    gul_ipc_get_handle (H := calls_demo (-12)) (Some 0%nat) w' = None.
Proof. by apply (failed_stats_dangle (H := calls_demo (-12)) 0 0 ipcd_0). Defined.

(** ** The texts *)

(** The modem's own counters of bad memory and bad input are nowhere in the text. *)
Lemma common_stats_hides h m x y : common_stats h m =
  common_stats h (IpcStats (err_instance_invalid m) (err_md_sz_mismatch m) x y (ipc_ch_stats m)).
Proof. done. Qed.
(** The window an entry is shown with is the mark of a window in use. *)
Lemma dump_shows_flag map i cb x : cb_line map i cb =
  cb_line map i (Cb (m_addr cb) (h_addr cb) (GulIpc.size cb) (valid cb) x).
Proof. done. Qed.
