(* ===== verification/GulFr1.v ===== *)
(** * The RF chips of the FR1 boards (kernel_driver/yami/gul_fr1_rfic.c)

    At probe each of two chips is reset by pins, given its program and its register
    settings from two files of text, and started by commands that are polled for.  The
    registers, the memory the kernel gives and what the device tree names are [Fr1Env]:
    a log of calls with their answers.  The pins are those of GulGpio.v, the files are
    read as in GulBoot.v.  A pointer into a text is the memory from it on; waits are
    left out. *)
From S2P Require Import Prelude GulMsi GulGpio GulBoot.
From stdpp Require Import strings.
#[global] Open Scope Z_scope.

Definition ENODATA : Z := 61.
Definition GPIO2 : Z := 1.
Definition GPIO3 : Z := 2.
Definition YUC_RFIC_FW_WRITE_REG : Z := 0x6002.
Definition YUC_RFIC_TS_RETRY : nat := 16.
Definition YUC_RFIC_WORD_2 : Z := 2.
Definition YUC_RFIC_WORD_4 : Z := 4.
Definition YUC_RFIC_FW_SIZE : Z := 500 * 1024.
Definition YUC_RFIC_PROG_FW_FILE : string := "YuccaES1_prog.mem".
Definition YUC_RFIC_DATA_FW_FILE : string := "YuccaES1_init.mem".
Definition YUC_RFIC_CMD_ADDR : Z := 0x0000.
Definition YUC_RFIC_CMD_RESP_ADDR : Z := 0x000a.
Definition LLCPGA1_OFFSET : Z := 0x1100030.
Definition LLCPGA2_OFFSET : Z := 0x1104030.
Definition LLCPGA_VALUE : Z := 0xaff0.
Definition LLCP1_RFIC_OFFSET : Z := 0x1200000.
Definition LLCP2_RFIC_OFFSET : Z := 0x1210000.
Definition LLCP1_RFIC_RO_REG_CHIPID_OFFSET : Z := 0x1208200.
Definition LLCP2_RFIC_RO_REG_CHIPID_OFFSET : Z := 0x1218200.
Definition YUC_RFIC_CHIP_ID_RO_REG_VALUE : Z := 0x01a0.
Definition YUC_RFIC_CAL_RESISTOR_REFERENCE : Z := 0xff.

(** ** Text in memory *)

(** [strsep(&p, c)] from the memory at [p]: the line, the memory behind its end, and
    whether [c] ended it ([p] is then what follows, else NULL). *)
Fixpoint strsep (c : Z) (m : buffer) : option (list Z * buffer * bool) :=
  match m with
  | Some x :: m =>
      if decide (x = c) then Some ([], m, true) else
      if decide (x = 0) then Some ([], m, false) else
      '(l, m', more) ← strsep c m; Some (x :: l, m', more)
  | _ => None
  end.
(** The memory at a line that was cut off. *)
Definition mem_from (l : list Z) (m : buffer) : buffer := init l ++ Some 0 :: m.

(** [strstr(line, "//")]. *)
Fixpoint comment (l : list Z) : bool :=
  match l with
  | x :: l => match l with y :: _ => bool_decide (x = 47 ∧ y = 47) || comment l | [] => false end
  | [] => false
  end.

Definition hexval (c : Z) : option Z :=
  if decide (48 ≤ c ≤ 57) then Some (c - 48) else
  let lc := Z.lor c 32 in if decide (97 ≤ lc ≤ 102) then Some (lc - 97 + 10) else None.
(** [simple_strtoul(s, NULL, 16)] of the bytes at [s]: the prefix, and the digits up to
    the first other byte. *)
Fixpoint parse_integer (acc : Z) (s : list Z) : option Z :=
  match s with
  | [] => None
  | c :: s => match hexval c with Some d => parse_integer (u64 (acc * 16 + d)) s | None => Some acc end
  end.
Definition simple_strtoul (s : list Z) : option Z :=
  match s with
  | z :: x :: t => if decide (z = 48 ∧ Z.lor x 32 = 120) then parse_integer 0 t else parse_integer 0 s
  | _ => None
  end.

(** The loop both parsers have: a line with a comment is passed over, before the end of
    the file is looked at.  [slack]: the bytes of the memory behind the file. *)
Section Lines.
Context {W : Type} (body : list Z → buffer → M W unit) (slack : Z).
Fixpoint text_lines (n : nat) (l : list Z) (m : buffer) (more : bool) : M W unit :=
  match n with
  | O => lift None
  | S n =>
      let next := if more then '(l', m', more') ← lift (strsep 10 m); text_lines n l' m' more' else mret tt in
      if comment l then next else
      _ ← body l m;
      if more && bool_decide (zlen m ≤ slack) then mret tt else next
  end.
Definition all_lines (m : buffer) : M W unit :=
  '(l, m', more) ← lift (strsep 10 m); text_lines (S (length m)) l m' more.
End Lines.

(** ** State *)

Inductive fr1_call :=
  | Kmalloc | Kfree | Vmalloc | Kvfree | Readw (off : Z) | Writew (off v : Z) | Writel (off v : Z)
  | SetHostReady (chip : Z).

(** [struct rfic_priv]; the last pin has no value until it is assigned. *)
Record rfic_priv_t := RficPriv {
  llcp_addr : Z; yucca1_reset_gpio : Z; yucca2_reset_gpio : Z; yucca1_trx_gpio : Z; yucca2_trx_gpio : Z;
  yucca_trx_gpio : option Z }.
Inductive yucca_pin := Yucca1Reset | Yucca2Reset | Yucca1Trx | Yucca2Trx | YuccaTrx.

(** [beyond]: the stack behind the array of four characters the parsers copy to;
    [la1238]: whether the driver is built for such a board; the constants of the chip's
    own header. *)
Class Fr1Env := {
  fanswer : list (fr1_call * Z) → fr1_call → Z;
  beyond : list (fr1_call * Z) → list Z;
  la1238 : bool; modem_rf : bool; of_get_named_gpio : yucca_pin → Z; gpio_is_valid : Z → bool;
  YUC_FWCMD_GETVERSION : Z; YUC_FWCMD_CALREGULATOR : Z; YUC_FWCMD_CALRESISTOR : Z; YUC_RTC_OK : Z }.

Record fr1w := Fr1W { pins : gpio_mem; priv : option rfic_priv_t; flog : list (fr1_call * Z) }.

Section Fr1.
Context `{Fr1Env}.
Variable fs : files.
Local Abbreviation F := (M fr1w).

Definition fcall (c : fr1_call) : F Z := λ w,
  let r := fanswer (flog w) c in Some (r, Fr1W (pins w) (priv w) (flog w ++ [(c, r)])).
Definition fcall_ (c : fr1_call) : F unit := _ ← fcall c; mret tt.
Definition set_priv (p : option rfic_priv_t) : F unit := modify (λ w, Fr1W (pins w) p (flog w)).
Definition get_priv : F rfic_priv_t := p ← gets priv; lift p.
Definition on_pins {A} (g : M gpio_mem A) : F A := λ w,
  match g (pins w) with Some (a, p) => Some (a, Fr1W p (priv w) (flog w)) | None => None end.

(** ** Registers of a chip: an address is one of bytes, in 16 bits *)
Definition yuc_llcp_reg_read (addr : Z) : F Z :=
  p ← get_priv; v ← fcall (Readw (llcp_addr p + u16 (Z.shiftl addr 1))); mret (u16 v).
Definition yuc_llcp_reg_write (v addr : Z) : F unit :=
  p ← get_priv; fcall_ (Writew (llcp_addr p + u16 (Z.shiftl addr 1)) v).

(** [yuc_cmd_t] and [yuc_cmd_resp_t] as the word they are. *)
Definition yuc_cmd (len id sd rrq : Z) : Z :=
  Z.land len 15 + 16 * Z.land id 1023 + 16384 * Z.land sd 1 + 32768 * Z.land rrq 1.
Definition resp_len (r : Z) : Z := Z.land r 15.
Definition resp_id (r : Z) : Z := Z.land (Z.shiftr r 4) 1023.
Definition resp_tf (r : Z) : bool := Z.testbit r 14.
Definition resp_ew (r : Z) : bool := Z.testbit r 15.

(** The words of a command, behind the header. *)
Fixpoint write_words (addr : Z) (words : list Z) : F unit :=
  match words with
  | [] => mret tt
  | v :: words => _ ← yuc_llcp_reg_write v addr; write_words (addr + 1) words
  end.
Fixpoint read_words (addr : Z) (n : nat) : F (list Z) :=
  match n with
  | O => mret []
  | S n => v ← yuc_llcp_reg_read addr; l ← read_words (addr + 1) n; mret (v :: l)
  end.

(** The looks at the response that are left, and the last one seen. *)
Fixpoint wait_response (n : nat) (resp : Z) : F Z :=
  match n with
  | O => mret (if resp_ew resp || bool_decide (resp_id resp = 0) then - EIO else 0)
  | S n =>
      resp ← yuc_llcp_reg_read YUC_RFIC_CMD_RESP_ADDR;
      if resp_tf resp && bool_decide (resp_id resp ≠ 0) then
        if resp_ew resp then
          uErrWd ← yuc_llcp_reg_read (YUC_RFIC_CMD_RESP_ADDR + resp_len resp);
          mret (if decide (uErrWd ≠ YUC_RTC_OK) then - EIO else 0)
        else mret 0
      else wait_response n resp
  end.

(** The function writes a command or reads the words of a response, by its address. The
    number of words is one of eight bits, and of it the header holds four; behind the end
    of [words] the caller's array is overrun. *)
Definition yuc_rfic_cmd_proc (cmd_data : Z) (words : list Z) (num_words : Z) : F Z :=
  let num_words := u8 num_words in
  _ ← yuc_llcp_reg_write (yuc_cmd num_words (Z.land cmd_data 0x3ff) 0 1) YUC_RFIC_CMD_ADDR;
  _ ← write_words (YUC_RFIC_CMD_ADDR + 1) (take (Z.to_nat num_words) words);
  if decide (zlen words < num_words) then lift None else wait_response YUC_RFIC_TS_RETRY 0.
Definition yuc_rfic_cmd_resp (num_words : Z) : F (list Z) :=
  read_words (YUC_RFIC_CMD_RESP_ADDR + 1) (Z.to_nat (u8 num_words)).

(** ** The program and the settings *)

(** Four bytes are copied to an array and read as a number from there. *)
Definition twobyte (m : buffer) : F Z :=
  l ← gets flog; b ← lift (rd_bytes m 0 4); v ← lift (simple_strtoul (b ++ beyond l)); mret (u16 v).
Definition fw_line (l : list Z) (m : buffer) : F unit :=
  v ← twobyte (mem_from l m); yuc_llcp_reg_write v YUC_RFIC_FW_WRITE_REG.
(** A line without a blank: the second number is read through NULL. *)
Definition def_line (l : list Z) (m : buffer) : F unit :=
  '(off, m', more) ← lift (strsep 32 (mem_from l m));
  reg_offset ← twobyte (mem_from off m');
  if (more : bool) then v ← twobyte m'; yuc_llcp_reg_write v reg_offset else lift None.

Definition yuc_prog_rfic_fw (m : buffer) (fw_size : Z) : F Z :=
  _ ← all_lines fw_line (zlen m - fw_size) m; mret 0.
Definition yuc_prog_rfic_def (m : buffer) (fw_size : Z) : F unit := all_lines def_line (zlen m - fw_size) m.

(** A file in memory of its own, and what is done with it. *)
Definition with_file (name : string) (k : buffer → Z → F Z) : F Z :=
  p ← fcall Vmalloc;
  if decide (p = 0) then mret (- ENOMEM) else
  '(rc, m, n) ← lift (gul_udev_load_firmware fs (undef YUC_RFIC_FW_SIZE) 0 YUC_RFIC_FW_SIZE name);
  if decide (rc ≠ 0) then _ ← fcall_ Kvfree; mret rc else
  fw_size ← lift n;
  rc ← k m fw_size;
  _ ← fcall_ Kvfree; mret rc.
Definition yuc_load_rfic_img : F Z := with_file YUC_RFIC_PROG_FW_FILE yuc_prog_rfic_fw.
Definition yuc_load_rfic_def_reg (fw_name : string) : F Z :=
  with_file fw_name (λ m n, _ ← yuc_prog_rfic_def m n; mret 0).

(** ** Starting a chip *)
Definition yuc_rfic_start_fw : F Z :=
  ret ← yuc_rfic_cmd_proc YUC_FWCMD_GETVERSION [] 0;
  if decide (ret ≠ 0) then mret ret else
  words ← yuc_rfic_cmd_resp YUC_RFIC_WORD_4;
  hw ← lift (words !! 1%nat);
  mret (if decide (hw = 0) then - ENODATA else 0).
Definition yuc_rfic_APP_CalRegulator : F Z :=
  ret ← yuc_rfic_cmd_proc YUC_FWCMD_CALREGULATOR [] 0;
  if decide (ret ≠ 0) then mret ret else _ ← yuc_rfic_cmd_resp YUC_RFIC_WORD_2; mret 0.
Definition yuc_rfic_APP_CalResistor : F Z :=
  ret ← yuc_rfic_cmd_proc YUC_FWCMD_CALRESISTOR [YUC_RFIC_CAL_RESISTOR_REFERENCE] 1;
  if decide (ret ≠ 0) then mret ret else _ ← yuc_rfic_cmd_resp YUC_RFIC_WORD_2; mret 0.

(** What fails is printed, and the result is 0. *)
Definition or_stop (g : F Z) (k : F Z) : F Z := ret ← g; if decide (ret ≠ 0) then mret 0 else k.
Definition set_pin (gpio pin v : Z) : F Z := on_pins (modem_gpio_setdata gpio pin v).
Definition look_pins : F Z := '(r, _) ← on_pins (modem_gpio_getdata GPIO2); mret r.
Definition yuc_do_rfic_resetn : F Z :=
  p ← get_priv;
  or_stop look_pins (
  or_stop (set_pin GPIO2 (yucca1_reset_gpio p) 0) (
  or_stop (set_pin GPIO2 (yucca2_reset_gpio p) 0) (
  or_stop (set_pin GPIO2 (yucca1_trx_gpio p) 1) (
  or_stop (set_pin GPIO2 (yucca2_trx_gpio p) 1) (
  or_stop (if la1238 then trx ← lift (yucca_trx_gpio p); set_pin GPIO3 trx 1 else mret 0) (
  or_stop (set_pin GPIO2 (yucca1_reset_gpio p) 1) (
  or_stop (set_pin GPIO2 (yucca2_reset_gpio p) 1) (
  or_stop look_pins (mret 0))))))))).

Inductive yuc_reset_type := YUC_PO_RESET | YUC_COLD_RESET | YUC_WARM_RESET.
#[export] Instance yuc_reset_eq : EqDecision yuc_reset_type.
Proof. solve_decision. Defined.

(** The result of the settings is not looked at. *)
Definition yuc_rfic_start_up (t : yuc_reset_type) : F Z :=
  rc ← (if decide (t = YUC_PO_RESET ∨ t = YUC_COLD_RESET) then yuc_load_rfic_img else mret 0);
  if decide (rc ≠ 0) then mret rc else
  _ ← yuc_load_rfic_def_reg YUC_RFIC_DATA_FW_FILE;
  rc ← yuc_rfic_start_fw;
  if decide (rc ≠ 0) then mret rc else
  rc ← yuc_rfic_APP_CalResistor;
  if decide (rc ≠ 0) then mret rc else yuc_rfic_APP_CalRegulator.

(** ** Probe and removal *)

(** One of the chips: [None] when it is not there. *)
Definition start_yucca (pga llcp chip n : Z) : F (option Z) :=
  _ ← fcall_ (Writel pga LLCPGA_VALUE);
  p ← get_priv;
  _ ← set_priv (Some (RficPriv llcp (yucca1_reset_gpio p) (yucca2_reset_gpio p) (yucca1_trx_gpio p)
        (yucca2_trx_gpio p) (yucca_trx_gpio p)));
  chipid ← fcall (Readw chip);
  if decide (u16 chipid ≠ YUC_RFIC_CHIP_ID_RO_REG_VALUE) then mret None else
  ret ← yuc_rfic_start_up YUC_PO_RESET;
  _ ← (if decide (ret = 0) then fcall_ (SetHostReady n) else mret tt);
  mret (Some ret).

Definition free_priv : F unit := _ ← fcall_ Kfree; set_priv None.
(** The label [fail], where every probe ends. *)
Definition fail_ (ret : Z) : F Z := _ ← free_priv; mret ret.
Definition init_pin (gpio pin : Z) (k : F Z) : F Z :=
  r ← on_pins (modem_gpio_init gpio pin GPIO_OUTPUT); if decide (r ≠ 0) then fail_ 0 else k.

(** The pins as the device tree names them; the last one is asked for, and checked, on
    some boards only. *)
Definition named_pins : rfic_priv_t :=
  RficPriv 0 (of_get_named_gpio Yucca1Reset) (of_get_named_gpio Yucca2Reset) (of_get_named_gpio Yucca1Trx)
    (of_get_named_gpio Yucca2Trx) (if la1238 then Some (of_get_named_gpio YuccaTrx) else None).
Definition pins_valid (p : rfic_priv_t) : bool :=
  gpio_is_valid (yucca1_reset_gpio p) && gpio_is_valid (yucca2_reset_gpio p) && gpio_is_valid (yucca1_trx_gpio p) &&
  match yucca_trx_gpio p with Some t => gpio_is_valid t | None => true end && gpio_is_valid (yucca2_trx_gpio p).

Definition start_both : F Z :=
  ret ← yuc_do_rfic_resetn;
  if decide (ret ≠ 0) then fail_ ret else
  r1 ← start_yucca LLCPGA1_OFFSET LLCP1_RFIC_OFFSET LLCP1_RFIC_RO_REG_CHIPID_OFFSET 1;
  let ret := default ret r1 in
  r2 ← start_yucca LLCPGA2_OFFSET LLCP2_RFIC_OFFSET LLCP2_RFIC_RO_REG_CHIPID_OFFSET 2;
  fail_ (default ret r2).

Definition gul_yucca_rfic_probe : F Z :=
  mem ← fcall Kmalloc;
  if decide (mem = 0) then _ ← set_priv None; mret (- ENOMEM) else
  if negb modem_rf then fail_ 0 else
  let p := named_pins in
  _ ← set_priv (Some p);
  if negb (pins_valid p) then fail_ 0 else
  init_pin GPIO2 (yucca1_reset_gpio p) (
  init_pin GPIO2 (yucca2_reset_gpio p) (
  init_pin GPIO2 (yucca1_trx_gpio p) (
  init_pin GPIO2 (yucca2_trx_gpio p) (
  trx ← lift (yucca_trx_gpio p);
  init_pin GPIO3 trx start_both)))).

Definition gul_yucca_rfic_remove : F Z := _ ← free_priv; mret 0.
End Fr1.
