(* ===== verification/GulFr1Correct.v ===== *)
(** * The RF chips of the FR1 boards: theorems *)
From S2P Require Import Prelude GulMsi GulGpio GulBoot GulFr1.
From stdpp Require Import strings.
#[global] Open Scope Z_scope.

(** ** The loop over the lines of a file *)

(** The bytes of a line: the end of a line and of a text are not among them. *)
Definition clean (l : list Z) : Prop := Forall (λ c, c ≠ 0 ∧ c ≠ 10) l.
Definition file_of (ls : list (list Z)) : list Z := concat ((λ l, l ++ [10]) <$> ls).

Lemma strsep_end c l m : Forall (λ x, x ≠ 0 ∧ x ≠ c) l → strsep c (init l ++ Some c :: m) = Some (l, m, true).
Proof.
  induction l as [|x l IH]; intros Hl; cbn [init fmap list_fmap app strsep]; [by rewrite decide_True|].
  apply Forall_cons in Hl as [[H0 Hc] Hl]. rewrite !(decide_False (P := x = _)) by done.
  change (Some <$> l) with (init l). by rewrite (IH Hl).
Qed.

(** A line with a comment has no effect. *)
Definition on_line {W} (step : list Z → W → W) (w : W) (l : list Z) : W := if comment l then w else step l w.

Lemma file_line l ls rest : clean l →
  strsep 10 (init (file_of (l :: ls)) ++ rest) = Some (l, init (file_of ls) ++ rest, true).
Proof.
  intros Hl. unfold file_of. cbn [fmap list_fmap concat]. rewrite <- !app_assoc, !init_app, <- !app_assoc.
  cbn [init fmap list_fmap app]. by apply strsep_end.
Qed.

Lemma file_nonempty l ls : 0 < zlen (file_of (l :: ls)).
Proof.
  unfold file_of. cbn [fmap list_fmap concat]. rewrite !zlen_app. pose proof (zlen_nonneg l).
  pose proof (zlen_nonneg (concat ((λ l0, l0 ++ [10]) <$> ls))). change (zlen [10]) with 1. lia.
Qed.

(** A file whose last line is none of comments is read line by line, and nothing behind
    it; each line has the effect of its own. *)
Lemma text_lines_run {W} (body : list Z → buffer → M W unit) (Iv : W → Prop) (step : list Z → W → W) rest ls l n w :
  (∀ l m w, l ∈ ls → comment l = false → Iv w → body l m w = Some (tt, step l w) ∧ Iv (step l w)) →
  (∀ m w, comment l = false → Iv w → body l m w = Some (tt, step l w) ∧ Iv (step l w)) →
  Forall clean ls → (∀ x, last (l :: ls) = Some x → comment x = false) → (length ls < n)%nat → Iv w →
  text_lines body (zlen rest) n l (init (file_of ls) ++ rest) true w = Some (tt, foldl (on_line step) w (l :: ls)) ∧
  Iv (foldl (on_line step) w (l :: ls)).
Proof.
  revert l n w. induction ls as [|k ls IH]; intros l n w Hb Hl Hc Hlast Hn Hw.
  - destruct n as [|n]; [simpl in Hn; lia|]. specialize (Hlast l eq_refl). cbn [text_lines]. rewrite Hlast.
    destruct (Hl (init (file_of []) ++ rest) w Hlast Hw) as [E HI]. rewrite M_bind_eq, E. cbn [file_of fmap list_fmap concat init app].
    rewrite bool_decide_eq_true_2 by lia. cbn [andb mret M_ret foldl]. unfold on_line. by rewrite Hlast.
  - destruct n as [|n]; [simpl in Hn; lia|]. apply Forall_cons in Hc as [Hk Hc].
    assert (Hnext : ∀ v, Iv v → ('(l', m', more') ← lift (strsep 10 (init (file_of (k :: ls)) ++ rest));
       text_lines body (zlen rest) n l' m' more') v = Some (tt, foldl (on_line step) v (k :: ls)) ∧ Iv (foldl (on_line step) v (k :: ls))).
    { intros v Hv. rewrite M_bind_eq. unfold lift. rewrite (file_line k ls rest Hk). apply IH; try done.
      - intros l' m v' Hin. apply Hb. by right.
      - intros m v'. apply Hb. by left.
      - simpl in Hn. lia. }
    change (foldl (on_line step) w (l :: k :: ls)) with (foldl (on_line step) (on_line step w l) (k :: ls)).
    cbn [text_lines]. destruct (comment l) eqn:El.
    { replace (on_line step w l) with w by (unfold on_line; by rewrite El). by apply Hnext. }
    replace (on_line step w l) with (step l w) by (unfold on_line; by rewrite El).
    destruct (Hl (init (file_of (k :: ls)) ++ rest) w eq_refl Hw) as [E HI]. rewrite M_bind_eq, E.
    rewrite bool_decide_eq_false_2.
    2: { rewrite zlen_app, zlen_init. pose proof (file_nonempty k ls). lia. }
    by apply Hnext.
Qed.

(** All of a file that does not end in a comment. *)
Lemma all_lines_run {W} (body : list Z → buffer → M W unit) (Iv : W → Prop) (step : list Z → W → W) rest l ls w :
  (∀ k m w, k ∈ l :: ls → comment k = false → Iv w → body k m w = Some (tt, step k w) ∧ Iv (step k w)) →
  Forall clean (l :: ls) → (∀ x, last (l :: ls) = Some x → comment x = false) → Iv w →
  all_lines body (zlen rest) (init (file_of (l :: ls)) ++ rest) w = Some (tt, foldl (on_line step) w (l :: ls)) ∧
  Iv (foldl (on_line step) w (l :: ls)).
Proof.
  intros Hb Hc Hlast Hw. unfold all_lines. rewrite M_bind_eq. unfold lift at 1.
  rewrite (file_line l ls rest) by by apply Forall_cons in Hc as [? _].
  apply text_lines_run; [|intros m v; apply Hb; by left|by apply Forall_cons in Hc as [_ ?]|done| |done].
  - intros k m v Hin. apply Hb. by right.
  - rewrite length_app, length_init. assert (Hlen : ∀ ks, (length ks ≤ length (file_of ks))%nat).
    { induction ks as [|k ks IH]; [done|]. unfold file_of in *. cbn [fmap list_fmap concat]. rewrite length_app, length_app. simpl. lia. }
    specialize (Hlen (l :: ls)). simpl in Hlen. lia.
Qed.

(** A file that ends in a comment: the memory behind it is read as a line, which is
    undefined when nothing was ever written there. *)
Lemma text_lines_overrun {W} (body : list Z → buffer → M W unit) (Iv : W → Prop) (step : list Z → W → W) k ls l n w :
  (∀ j m w, j ∈ l :: ls → comment j = false → Iv w → body j m w = Some (tt, step j w) ∧ Iv (step j w)) →
  Forall clean ls → (∃ x, last (l :: ls) = Some x ∧ comment x = true) → Iv w →
  text_lines body (zlen (undef k)) n l (init (file_of ls) ++ undef k) true w = None.
Proof.
  revert l n w. induction ls as [|j ls IH]; intros l n w Hb Hc Hlast Hw; (destruct n as [|n]; [done|]); cbn [text_lines].
  - destruct Hlast as (x & [= <-] & Hx). rewrite Hx, M_bind_eq. unfold undef, file_of. cbn. by destruct (Z.to_nat k).
  - apply Forall_cons in Hc as [Hj Hc].
    assert (Hnext : ∀ v, Iv v → ('(l', m', more') ← lift (strsep 10 (init (file_of (j :: ls)) ++ undef k));
       text_lines body (zlen (undef k)) n l' m' more') v = None).
    { intros v Hv. rewrite M_bind_eq. unfold lift. rewrite (file_line j ls (undef k) Hj). apply IH; [|done|done|done].
      intros i m u Hin. apply Hb. by right. }
    destruct (comment l) eqn:El; [by apply Hnext|].
    destruct (Hb l (init (file_of (j :: ls)) ++ undef k) w ltac:(by left) El Hw) as [E HI]. rewrite M_bind_eq, E.
    rewrite bool_decide_eq_false_2; [by apply Hnext|].
    rewrite zlen_app, zlen_init. pose proof (file_nonempty j ls). lia.
Qed.

(** ** Numbers in a text *)
Definition hexb (d : Z) : Z := if decide (d < 10) then 48 + d else 87 + d.
Definition digits4 (v : Z) : list Z := [hexb (v / 4096); hexb (v / 256 mod 16); hexb (v / 16 mod 16); hexb (v mod 16)].

Lemma digit_cases (P : Z → Prop) : Forall P (seqZ 0 16) → ∀ d, 0 ≤ d < 16 → P d.
Proof. intros HP d Hd. rewrite Forall_forall in HP. apply HP, elem_of_seqZ. lia. Qed.
Lemma hexval_hexb d : 0 ≤ d < 16 → hexval (hexb d) = Some d.
Proof. revert d. apply digit_cases. change (seqZ 0 16) with [0;1;2;3;4;5;6;7;8;9;10;11;12;13;14;15]. by repeat (apply Forall_cons; split). Qed.
Lemma hexb_plain d : 0 ≤ d < 16 → hexb d ≠ 0 ∧ hexb d ≠ 10 ∧ hexb d ≠ 32 ∧ hexb d ≠ 47 ∧ Z.lor (hexb d) 32 ≠ 120.
Proof. revert d. apply digit_cases. change (seqZ 0 16) with [0;1;2;3;4;5;6;7;8;9;10;11;12;13;14;15]. by repeat (apply Forall_cons; split). Qed.

Lemma digits_range v : 0 ≤ v < 65536 →
  (0 ≤ v / 4096 < 16 ∧ 0 ≤ v / 256 mod 16 < 16 ∧ 0 ≤ v / 16 mod 16 < 16 ∧ 0 ≤ v mod 16 < 16) ∧
  v = ((v / 4096 * 16 + v / 256 mod 16) * 16 + v / 16 mod 16) * 16 + v mod 16.
Proof. intros Hv. Z.to_euclidean_division_equations; lia. Qed.

(** Four digits are the number, when the byte behind them is none. *)
Lemma strtoul_digits v c s : 0 ≤ v < 65536 → hexval c = None → simple_strtoul (digits4 v ++ c :: s) = Some v.
Proof.
  intros Hv Hc. destruct (digits_range v Hv) as [(H1 & H2 & H3 & H4) Hsum].
  unfold digits4, simple_strtoul. cbn [app]. rewrite decide_False by (intros [_ Hx]; by apply (hexb_plain _ H2)).
  cbn [parse_integer]. rewrite !hexval_hexb by done. cbn [parse_integer]. rewrite Hc. f_equal.
  unfold u64. revert H1 H2 H3 H4 Hsum.
  generalize (v / 4096) (v / 256 mod 16) (v / 16 mod 16) (v mod 16). intros a b c0 d0 **.
  rewrite (Z.mod_small (0 * 16 + a)), (Z.mod_small ((0 * 16 + a) * 16 + b)), (Z.mod_small (_ + c0)), (Z.mod_small (_ + d0)) by lia. lia.
Qed.
(** A digit there pushes the first one out of the sixteen bits. *)
Lemma strtoul_overruns v c d s e : 0 ≤ v < 65536 → hexval c = Some d → 0 ≤ d < 16 → hexval e = None →
  u16 <$> simple_strtoul (digits4 v ++ c :: e :: s) = Some (u16 (v * 16 + d)).
Proof.
  intros Hv Hc Hd He. destruct (digits_range v Hv) as [(H1 & H2 & H3 & H4) Hsum].
  unfold digits4, simple_strtoul. cbn [app]. rewrite decide_False by (intros [_ Hx]; by apply (hexb_plain _ H2)).
  cbn [parse_integer]. rewrite !hexval_hexb by done. cbn [parse_integer]. rewrite Hc. cbn [parse_integer]. rewrite He.
  cbn [fmap option_fmap option_map]. do 2 f_equal. unfold u64. revert H1 H2 H3 H4 Hsum.
  generalize (v / 4096) (v / 256 mod 16) (v / 16 mod 16) (v mod 16). intros a b c0 d0 **.
  rewrite (Z.mod_small (0 * 16 + a)), (Z.mod_small ((0 * 16 + a) * 16 + b)), (Z.mod_small (_ + c0)), (Z.mod_small (_ + d0)), (Z.mod_small (_ + d)) by lia. f_equal. lia.
Qed.

(** ** What a run does *)

(** The events of a log: what is written, and what the modem is told. *)
Inductive fr1_event := Wrote (off v : Z) | Told (chip : Z).
Definition event_of (c : fr1_call * Z) : option fr1_event :=
  match c.1 with
  | Writew off v | Writel off v => Some (Wrote off v)
  | SetHostReady n => Some (Told n)
  | _ => None
  end.
Definition events (l : list (fr1_call * Z)) : list fr1_event := omap event_of l.
Lemma events_snoc l c r : events (l ++ [(c, r)]) = events l ++ match event_of (c, r) with Some e => [e] | None => [] end.
Proof. unfold events. by rewrite omap_app. Qed.

Section Does.
Context `{Fr1Env}.
Local Abbreviation F := (M fr1w).

(** With the structure [p], a run ends with a result in [Q] and the events [evs], the
    structure and the pins as they were. *)
Definition does {A} (p : option rfic_priv_t) (g : F A) (evs : list fr1_event) (Q : A → Prop) : Prop :=
  ∀ w, priv w = p → ∃ a w', g w = Some (a, w') ∧ Q a ∧ priv w' = p ∧ pins w' = pins w ∧ events (flog w') = events (flog w) ++ evs.

Lemma does_bind {A B} p (g : F A) (k : A → F B) e1 e2 (Q1 : A → Prop) Q :
  does p g e1 Q1 → (∀ a, Q1 a → does p (k a) e2 Q) → does p (g ≫= k) (e1 ++ e2) Q.
Proof.
  intros Hg Hk w Hw. destruct (Hg w Hw) as (a & w1 & E1 & Ha & Hp & Hpins & Hl).
  destruct (Hk a Ha w1 Hp) as (b & w2 & E2 & Hb & Hp2 & Hpins2 & Hl2). exists b, w2. rewrite M_bind_eq, E1.
  split; [done|]. split; [done|]. split; [done|]. split; [congruence|]. by rewrite Hl2, Hl, app_assoc.
Qed.
(** A step without an event, and one whose events are all. *)
Lemma does_then {A B} p (g : F A) (k : A → F B) e (Q1 : A → Prop) Q :
  does p g [] Q1 → (∀ a, Q1 a → does p (k a) e Q) → does p (g ≫= k) e Q.
Proof. intros Hg Hk. by apply (does_bind p g k [] e Q1). Qed.
Lemma does_last {A B} p (g : F A) (k : A → F B) e (Q1 : A → Prop) Q :
  does p g e Q1 → (∀ a, Q1 a → does p (k a) [] Q) → does p (g ≫= k) e Q.
Proof. intros Hg Hk. rewrite <- (app_nil_r e). by apply (does_bind p g k e [] Q1). Qed.
Lemma does_ret {A} p (a : A) (Q : A → Prop) : Q a → does p (mret a) [] Q.
Proof. intros Ha w Hw. exists a, w. by rewrite app_nil_r. Qed.
Lemma does_weaken {A} p (g : F A) e (Q Q' : A → Prop) : (∀ a, Q a → Q' a) → does p g e Q → does p g e Q'.
Proof. intros HQ Hg w Hw. destruct (Hg w Hw) as (a & w' & E & Ha & Hr). exists a, w'. auto. Qed.

Lemma fcall_does p c : event_of (c, 0) = None → does p (fcall c) [] (λ r, ∃ l, r = fanswer l c).
Proof.
  intros Hc w Hw. unfold fcall. do 2 eexists. split; [reflexivity|]. split; [by eexists|]. split; [done|]. split; [done|].
  cbn [flog]. rewrite events_snoc. by replace (event_of (c, fanswer (flog w) c)) with (event_of (c, 0)) by done; rewrite Hc.
Qed.
Lemma fcall__does p c e : event_of (c, 0) = Some e → does p (fcall_ c) [e] (λ _, True).
Proof.
  intros Hc w Hw. unfold fcall_. rewrite M_bind_eq. unfold fcall. do 2 eexists. split; [reflexivity|]. split; [done|].
  split; [done|]. split; [done|]. cbn [flog]. rewrite events_snoc.
  by replace (event_of (c, fanswer (flog w) c)) with (event_of (c, 0)) by done; rewrite Hc.
Qed.
Lemma quiet__does p c : event_of (c, 0) = None → does p (fcall_ c) [] (λ _, True).
Proof. intros Hc. unfold fcall_. eapply does_then; [by apply fcall_does|]. intros ? _. by apply does_ret. Qed.
Lemma gets_does {A} p (f : fr1w → A) : does p (gets f) [] (λ a, ∃ w, priv w = p ∧ a = f w).
Proof. intros w Hw. exists (f w), w. rewrite app_nil_r. split; [done|]. split; [by exists w|done]. Qed.
Lemma lift_does {A} p (o : option A) a : o = Some a → does p (lift o) [] (λ b, b = a).
Proof. intros -> w Hw. exists a, w. by rewrite app_nil_r. Qed.
Lemma get_priv_does p : does (Some p) get_priv [] (λ q, q = p).
Proof. intros w Hw. unfold get_priv. rewrite M_bind_eq. cbn [gets]. rewrite Hw. exists p, w. by rewrite app_nil_r. Qed.

(** The place of a register of a chip. *)
Definition reg_at (base addr : Z) : Z := base + u16 (Z.shiftl addr 1).
Lemma reg_read_does p addr :
  does (Some p) (yuc_llcp_reg_read addr) [] (λ v, ∃ l, v = u16 (fanswer l (Readw (reg_at (llcp_addr p) addr)))).
Proof.
  unfold yuc_llcp_reg_read. eapply does_then; [apply get_priv_does|]. intros ? ->.
  eapply does_then; [by apply fcall_does|]. intros r (l & ->). apply does_ret. by exists l.
Qed.
Lemma reg_write_does p v addr : does (Some p) (yuc_llcp_reg_write v addr) [Wrote (reg_at (llcp_addr p) addr) v] (λ _, True).
Proof.
  unfold yuc_llcp_reg_write. eapply does_then; [apply get_priv_does|]. intros ? ->. by apply fcall__does.
Qed.

(** ** Commands *)
Definition finished (r : Z) : bool := resp_tf r && bool_decide (resp_id r ≠ 0).
Fixpoint words_at (base addr : Z) (words : list Z) : list fr1_event :=
  match words with [] => [] | v :: words => Wrote (reg_at base addr) v :: words_at base (addr + 1) words end.
Lemma write_words_does p addr words : does (Some p) (write_words addr words) (words_at (llcp_addr p) addr words) (λ _, True).
Proof.
  revert addr. induction words as [|v words IH]; intros addr; cbn [write_words words_at]; [by apply does_ret|].
  apply (does_bind _ _ _ [_]) with (λ _, True); [apply reg_write_does|]. intros _ _. apply IH.
Qed.
Lemma read_words_does p addr n : does (Some p) (read_words addr n) []
  (λ l, length l = n ∧ ∀ i v, l !! i = Some v → ∃ h, v = u16 (fanswer h (Readw (reg_at (llcp_addr p) (addr + Z.of_nat i))))).
Proof.
  revert addr. induction n as [|n IH]; intros addr; cbn [read_words]; [by apply does_ret|].
  eapply does_then; [apply reg_read_does|]. intros v (h & ->). eapply does_then; [apply IH|]. intros l [Hl Hv]. apply does_ret.
  split; [simpl; by rewrite Hl|]. intros [|i] x; cbn.
  - intros [= <-]. exists h. by rewrite Z.add_0_r.
  - intros Hx. destruct (Hv i x Hx) as (h' & ->). exists h'. do 4 f_equal. lia.
Qed.

(** What a wait of [n] looks saw: the looks [rs] at the response, of which only the last
    can be finished, what was read after them, and the result; [before]: the response
    before the first look. *)
Definition unfinished (v : Z) : Prop := finished (u16 v) = false.
Definition saw (p : rfic_priv_t) (n : nat) (before : Z) (rs : list Z) (rest : list (fr1_call * Z)) (r : Z) : Prop :=
  (∃ rs0 x, rs = rs0 ++ [x] ∧ (length rs ≤ n)%nat ∧ Forall unfinished rs0 ∧ finished (u16 x) = true ∧
     ((resp_ew (u16 x) = false ∧ rest = [] ∧ r = 0) ∨
      (resp_ew (u16 x) = true ∧ ∃ e, rest = [(Readw (reg_at (llcp_addr p) (YUC_RFIC_CMD_RESP_ADDR + resp_len (u16 x))), e)] ∧
         r = if decide (u16 e = YUC_RTC_OK) then 0 else - EIO))) ∨
  (length rs = n ∧ Forall unfinished rs ∧ rest = [] ∧
     r = let v := default before (u16 <$> last rs) in if resp_ew v || bool_decide (resp_id v = 0) then - EIO else 0).
Definition looks (p : rfic_priv_t) (rs : list Z) : list (fr1_call * Z) :=
  (λ v, (Readw (reg_at (llcp_addr p) YUC_RFIC_CMD_RESP_ADDR), v)) <$> rs.

Lemma last_cons_default (A B : Type) (f : A → B) d x (l : list A) :
  default d (f <$> last (x :: l)) = default (f x) (f <$> last l).
Proof. rewrite last_cons. by destruct (last l). Qed.

Lemma reg_read_eq p addr w : priv w = Some p → let c := Readw (reg_at (llcp_addr p) addr) in
  yuc_llcp_reg_read addr w = Some (u16 (fanswer (flog w) c), Fr1W (pins w) (priv w) (flog w ++ [(c, fanswer (flog w) c)])).
Proof. intros Hw c. unfold yuc_llcp_reg_read, get_priv, fcall. cbv [mbind M_bind gets lift mret M_ret]. by rewrite Hw at 1. Qed.

Lemma reg_write_eq p v addr w : priv w = Some p → let c := Writew (reg_at (llcp_addr p) addr) v in
  yuc_llcp_reg_write v addr w = Some (tt, Fr1W (pins w) (priv w) (flog w ++ [(c, fanswer (flog w) c)])).
Proof. intros Hw c. unfold yuc_llcp_reg_write, get_priv, fcall_, fcall. cbv [mbind M_bind gets lift mret M_ret]. by rewrite Hw at 1. Qed.

Lemma wait_spec p n before w : priv w = Some p → ∃ r w' rs rest, wait_response n before w = Some (r, w') ∧
  priv w' = priv w ∧ pins w' = pins w ∧ flog w' = flog w ++ looks p rs ++ rest ∧ saw p n before rs rest r.
Proof.
  revert before w. induction n as [|n IH]; intros before w Hw; cbn [wait_response].
  { do 2 eexists. exists [], []. split; [reflexivity|]. rewrite app_nil_r. do 3 (split; [done|]). by right. }
  rewrite M_bind_eq, (reg_read_eq p) by done. set (c := Readw _). set (v := fanswer (flog w) c). fold (finished (u16 v)).
  destruct (finished (u16 v)) eqn:Ef.
  - destruct (resp_ew (u16 v)) eqn:Ee.
    + rewrite M_bind_eq, (reg_read_eq p) by done. cbv zeta. set (c2 := Readw (reg_at _ (_ + _))). cbn [pins priv flog].
      set (x := fanswer _ c2).
      do 2 eexists. exists [v], [(c2, x)]. split; [reflexivity|]. do 2 (split; [done|]). cbn [flog]. split; [by rewrite <- app_assoc|].
      left. exists [], v. split; [done|]. split; [simpl; lia|]. split; [done|]. split; [done|]. right. split; [done|].
      exists x. split; [done|].
      destruct (decide (u16 x = YUC_RTC_OK)); [by rewrite decide_False by tauto|by rewrite decide_True].
    + do 2 eexists. exists [v], []. split; [reflexivity|]. do 2 (split; [done|]). split; [done|].
      left. exists [], v. split; [done|]. split; [simpl; lia|]. split; [done|]. split; [done|]. by left.
  - destruct (IH (u16 v) (Fr1W (pins w) (priv w) (flog w ++ [(c, v)])) Hw) as (r & w' & rs & rest & E & Hp & Hpins & Hl & Hs).
    exists r, w', (v :: rs), rest. split; [exact E|]. split; [done|]. split; [done|]. split.
    { rewrite Hl. cbn [flog]. by rewrite <- app_assoc. }
    destruct Hs as [(rs0 & x & -> & Hlen & Hu & Hs)|(Hlen & Hu & Hrest & Hr)].
    + left. exists (v :: rs0), x. split; [done|]. split; [simpl in *; lia|]. split; [by constructor|done].
    + right. split; [simpl; by rewrite Hlen|]. split; [by constructor|]. split; [done|]. by rewrite last_cons_default.
Qed.

(** The header of a command and its words, as calls. *)
Lemma write_words_eq p addr words w : priv w = Some p →
  ∃ l, write_words addr words w = Some (tt, Fr1W (pins w) (priv w) (flog w ++ l)) ∧ events l = words_at (llcp_addr p) addr words ∧
    length l = length words.
Proof.
  revert addr w. induction words as [|v words IH]; intros addr w Hw; cbn [write_words words_at].
  { exists []. rewrite app_nil_r. by destruct w. }
  rewrite M_bind_eq, (reg_write_eq p) by done. cbv zeta.
  match goal with |- ∃ l, write_words _ _ ?x = _ ∧ _ => set (w1 := x) end.
  destruct (IH (addr + 1) w1 Hw) as (l & -> & Hl & Hn).
  eexists (_ :: l). cbn [pins priv flog w1]. split; [by rewrite <- app_assoc|]. split; [by rewrite <- Hl|]. simpl. by rewrite Hn.
Qed.

(** C3: A command of the RF chip, of a number of words (of which eight bits count) that
    the caller's array holds: the header, which has room for four bits of the number, is
    written first and the words behind it, and then the response is looked at 16 times
    at most, the last look being the first one that is finished. The result is 0 for a
    response without an error, or with the error that is none; without a finished
    response it is an error only if the last one seen has no identity or an error, so
    that a command the chip is still at after 16 looks succeeds. *)
Theorem command_outcome (cmd : Z) (words : list Z) (num_words : Z) (p : rfic_priv_t) (w : fr1w) : priv w = Some p →
  u8 num_words ≤ zlen words →
  ∃ r w' sent rs rest, yuc_rfic_cmd_proc cmd words num_words w = Some (r, w') ∧ priv w' = Some p ∧
    flog w' = flog w ++ sent ++ looks p rs ++ rest ∧
    events sent = words_at (llcp_addr p) 0 (yuc_cmd (u8 num_words mod 16) cmd 0 1 :: take (Z.to_nat (u8 num_words)) words) ∧
    zlen sent = 1 + u8 num_words ∧ saw p 16 0 rs rest r.
Proof.
  intros Hw Hz. assert (Hu : 0 ≤ u8 num_words < 256) by (unfold u8; apply Z.mod_pos_bound; lia).
  unfold yuc_rfic_cmd_proc. cbv zeta. set (n := u8 num_words) in *. clearbody n. rewrite M_bind_eq.
  assert (Hh := write_words_eq p YUC_RFIC_CMD_ADDR [yuc_cmd n (Z.land cmd 0x3ff) 0 1] w Hw).
  cbn [write_words] in Hh. destruct Hh as (l0 & E0 & Hl0 & Hn0). rewrite M_bind_eq in E0.
  destruct (yuc_llcp_reg_write _ _ w) as [[[] w0]|]; [|done]. injection E0 as ->. rewrite M_bind_eq.
  destruct (write_words_eq p (YUC_RFIC_CMD_ADDR + 1) (take (Z.to_nat n) words) (Fr1W (pins w) (priv w) (flog w ++ l0)) Hw) as (l1 & -> & Hl1 & Hn1).
  rewrite decide_False by lia.
  destruct (wait_spec p YUC_RFIC_TS_RETRY 0 (Fr1W (pins w) (priv w) ((flog w ++ l0) ++ l1)) Hw) as (r & w' & rs & rest & E & Hp & _ & Hl & Hs).
  exists r, w', (l0 ++ l1), rs, rest. split; [done|]. split; [by rewrite Hp|]. split; [rewrite Hl; cbn [flog]; by rewrite <- !app_assoc|].
  split; [|split; [|exact Hs]].
  - unfold events in *. rewrite omap_app, Hl0, Hl1. cbn [words_at app]. f_equal. f_equal. unfold yuc_cmd. rewrite <- Z.land_assoc.
    change 15 with (Z.ones 4). by rewrite !Z.land_ones, Zmod_mod by lia.
  - unfold zlen in *. rewrite length_app, Hn0, Hn1, length_take. simpl. lia.
Qed.

(** A chip that answers at once: its responses are finished, without an error, and its
    version is not 0. *)
Record chip_ok (base : Z) : Prop := {
  c_done : ∀ h, finished (u16 (fanswer h (Readw (reg_at base YUC_RFIC_CMD_RESP_ADDR)))) = true;
  c_fine : ∀ h, resp_ew (u16 (fanswer h (Readw (reg_at base YUC_RFIC_CMD_RESP_ADDR)))) = false;
  c_version : ∀ h, u16 (fanswer h (Readw (reg_at base (YUC_RFIC_CMD_RESP_ADDR + 2)))) ≠ 0 }.
Definition command_events (base cmd : Z) (words : list Z) : list fr1_event :=
  words_at base 0 (yuc_cmd (zlen words) (Z.land cmd 0x3ff) 0 1 :: words).

Lemma cmd_does p cmd words n : n = zlen words → n < 256 → chip_ok (llcp_addr p) →
  does (Some p) (yuc_rfic_cmd_proc cmd words n) (command_events (llcp_addr p) cmd words) (λ r, r = 0).
Proof.
  intros -> Hz [Hd Hf _]. unfold yuc_rfic_cmd_proc, command_events, u8. cbv zeta. pose proof (zlen_nonneg words).
  rewrite Z.mod_small by lia. rewrite decide_False by lia. rewrite take_ge by (unfold zlen; lia). cbn [words_at].
  apply (does_bind _ _ _ [_]) with (λ _, True); [apply reg_write_does|]. intros _ _.
  eapply does_last; [apply write_words_does|]. intros _ _. cbn [wait_response].
  eapply does_then; [apply reg_read_does|]. intros v (h & ->). fold (finished (u16 (fanswer h (Readw (reg_at (llcp_addr p) YUC_RFIC_CMD_RESP_ADDR))))).
  rewrite Hd, Hf. by apply does_ret.
Qed.
Lemma start_fw_does p : chip_ok (llcp_addr p) →
  does (Some p) yuc_rfic_start_fw (command_events (llcp_addr p) YUC_FWCMD_GETVERSION []) (λ r, r = 0).
Proof.
  intros Hc. unfold yuc_rfic_start_fw. eapply does_last; [by apply cmd_does; [reflexivity|..]|]. intros ? ->. rewrite decide_False by lia.
  unfold yuc_rfic_cmd_resp. eapply does_then; [apply read_words_does|]. intros l [Hl Hv].
  destruct (l !! 1%nat) as [hw|] eqn:E. 2: { apply lookup_ge_None in E. rewrite Hl in E. by vm_compute in E; lia. }
  destruct (Hv 1%nat hw E) as (h & Hh). eapply does_then; [by apply lift_does|]. intros ? ->. apply does_ret.
  rewrite decide_False; [done|]. rewrite Hh. apply Hc.
Qed.
Lemma regulator_does p : chip_ok (llcp_addr p) →
  does (Some p) yuc_rfic_APP_CalRegulator (command_events (llcp_addr p) YUC_FWCMD_CALREGULATOR []) (λ r, r = 0).
Proof.
  intros Hc. unfold yuc_rfic_APP_CalRegulator. eapply does_last; [by apply cmd_does; [reflexivity|..]|]. intros ? ->. rewrite decide_False by lia.
  eapply does_then; [apply read_words_does|]. intros ? _. by apply does_ret.
Qed.
Lemma resistor_does p : chip_ok (llcp_addr p) →
  does (Some p) yuc_rfic_APP_CalResistor (command_events (llcp_addr p) YUC_FWCMD_CALRESISTOR [YUC_RFIC_CAL_RESISTOR_REFERENCE]) (λ r, r = 0).
Proof.
  intros Hc. unfold yuc_rfic_APP_CalResistor. eapply does_last; [by apply cmd_does; [reflexivity|..]|]. intros ? ->. rewrite decide_False by lia.
  eapply does_then; [apply read_words_does|]. intros ? _. by apply does_ret.
Qed.

(** ** Files *)

(** A line of a file: a number, or a register and its value, with what follows; or a
    comment. *)
Inductive item := Note (s : list Z) | Word (v : Z) (t : list Z) | Setting (a v : Z) (t : list Z).
Definition item_bytes (i : item) : list Z :=
  match i with Note s => s | Word v t => digits4 v ++ t | Setting a v t => digits4 a ++ 32 :: digits4 v ++ t end.
Definition item_event (base : Z) (i : item) : option fr1_event :=
  match i with
  | Note _ => None
  | Word v _ => Some (Wrote (reg_at base YUC_RFIC_FW_WRITE_REG) v)
  | Setting a v _ => Some (Wrote (reg_at base a) v)
  end.
Definition is_half (v : Z) : Prop := 0 ≤ v < 65536.
Definition item_ok (i : item) : Prop :=
  clean (item_bytes i) ∧
  match i with Note s => comment s = true | Word v _ => is_half v ∧ comment (item_bytes i) = false
  | Setting a v _ => is_half a ∧ is_half v ∧ comment (item_bytes i) = false end.
(** What a file of the one kind, or of the other, is. *)
Definition is_word (i : item) : Prop := match i with Setting _ _ _ => False | _ => True end.
Definition is_setting (i : item) : Prop := match i with Word _ _ => False | _ => True end.
Definition text (its : list item) : list Z := file_of (item_bytes <$> its).
Record file_ok (kind : item → Prop) (its : list item) : Prop := {
  f_items : Forall item_ok its; f_kind : Forall kind its;
  f_last : ∃ i, last its = Some i ∧ comment (item_bytes i) = false;
  f_size : zlen (text its) ≤ YUC_RFIC_FW_SIZE }.

Definition stops : Prop := ∀ h, ∃ c s, beyond h = c :: s ∧ hexval c = None.

Lemma mem_from_app l k m : mem_from (l ++ k) m = init l ++ mem_from k m.
Proof. unfold mem_from. by rewrite init_app, <- app_assoc. Qed.
Lemma rd_digits v m : rd_bytes (init (digits4 v) ++ m) 0 4 = Some (digits4 v).
Proof.
  unfold rd_bytes. rewrite (sub_exact [] (init (digits4 v)) m) by done. cbn [mbind option_bind]. apply mapM_id_init.
Qed.
Lemma twobyte_eq v m w : stops → is_half v → twobyte (init (digits4 v) ++ m) w = Some (v, w).
Proof.
  intros Hs Hv. unfold twobyte. rewrite M_bind_eq. cbn [gets]. rewrite M_bind_eq, rd_digits. cbn [lift].
  rewrite M_bind_eq. destruct (Hs (flog w)) as (c & s & -> & Hc). rewrite (strtoul_digits v c s Hv Hc). cbn [lift mret M_ret].
  unfold u16. by rewrite Z.mod_small by exact Hv.
Qed.
Lemma digits_clean v : is_half v → Forall (λ x, x ≠ 0 ∧ x ≠ 32) (digits4 v).
Proof.
  intros Hv. destruct (digits_range v Hv) as [(H1 & H2 & H3 & H4) _].
  repeat (apply Forall_cons; split; [split; by apply hexb_plain|]). done.
Qed.

(** A write of a register, as a step. *)
Definition wrote (base addr v : Z) (w : fr1w) : fr1w :=
  let c := Writew (reg_at base addr) v in Fr1W (pins w) (priv w) (flog w ++ [(c, fanswer (flog w) c)]).
Definition item_step (base : Z) (i : item) (w : fr1w) : fr1w :=
  match i with Note _ => w | Word v _ => wrote base YUC_RFIC_FW_WRITE_REG v w | Setting a v _ => wrote base a v w end.

Lemma fw_line_eq p v t m w : stops → is_half v → priv w = Some p →
  fw_line (digits4 v ++ t) m w = Some (tt, wrote (llcp_addr p) YUC_RFIC_FW_WRITE_REG v w).
Proof.
  intros Hs Hv Hw. unfold fw_line. rewrite mem_from_app, M_bind_eq, (twobyte_eq v) by done. by apply reg_write_eq.
Qed.
Lemma def_line_eq p a v t m w : stops → is_half a → is_half v → priv w = Some p →
  def_line (digits4 a ++ 32 :: digits4 v ++ t) m w = Some (tt, wrote (llcp_addr p) a v w).
Proof.
  intros Hs Ha Hv Hw. unfold def_line. rewrite mem_from_app. change (32 :: digits4 v ++ t) with ([32] ++ digits4 v ++ t).
  rewrite mem_from_app. change (init [32] ++ ?x) with (Some 32 :: x). rewrite M_bind_eq. unfold lift at 1.
  rewrite strsep_end by by apply digits_clean. rewrite M_bind_eq. unfold mem_from at 1. rewrite (twobyte_eq a) by done.
  rewrite M_bind_eq, mem_from_app, (twobyte_eq v) by done. by apply reg_write_eq.
Qed.

(** What the loop does with a line, whatever is behind it. *)
Definition line_step (body : list Z → buffer → F unit) (l : list Z) (w : fr1w) : fr1w :=
  match body l [] w with Some (_, w') => w' | None => w end.
Definition reads_items (body : list Z → buffer → F unit) (p : rfic_priv_t) (its : list item) : Prop :=
  ∀ i m w, i ∈ its → comment (item_bytes i) = false → priv w = Some p →
    body (item_bytes i) m w = Some (tt, item_step (llcp_addr p) i w).
Definition items_step (base : Z) (its : list item) (w : fr1w) : fr1w := foldl (λ w i, item_step base i w) w its.

Lemma item_step_keeps base i w : priv (item_step base i w) = priv w ∧ pins (item_step base i w) = pins w ∧
  events (flog (item_step base i w)) = events (flog w) ++ omap (item_event base) [i].
Proof.
  destruct i; cbn [item_step wrote priv pins flog]; (split; [done|split; [done|]]); [by rewrite app_nil_r|by rewrite events_snoc..].
Qed.
Lemma items_step_keeps base its w : priv (items_step base its w) = priv w ∧ pins (items_step base its w) = pins w ∧
  events (flog (items_step base its w)) = events (flog w) ++ omap (item_event base) its.
Proof.
  unfold items_step. revert w. induction its as [|i its IH]; intros w; cbn [foldl]; [by rewrite app_nil_r|].
  destruct (IH (item_step base i w)) as (-> & -> & ->). destruct (item_step_keeps base i w) as (-> & -> & ->).
  split; [done|]. split; [done|]. rewrite <- app_assoc. f_equal. by rewrite <- (omap_app _ [i] its).
Qed.

Lemma lines_step body p its w : reads_items body p its → Forall item_ok its → priv w = Some p →
  foldl (on_line (line_step body)) w (item_bytes <$> its) = items_step (llcp_addr p) its w.
Proof.
  unfold items_step. revert w. induction its as [|i its IH]; intros w Hb Hok Hw; [done|]. apply Forall_cons in Hok as [Hi Hok].
  cbn [fmap list_fmap foldl].
  assert (E : on_line (line_step body) w (item_bytes i) = item_step (llcp_addr p) i w).
  { unfold on_line. destruct (comment (item_bytes i)) eqn:Ec.
    - destruct i as [s|v t|a v t]; [done|..]; destruct Hi as [_ Hi]; destruct Hi as (? & Hi); [|destruct Hi as [_ Hi]]; by rewrite Ec in Hi.
    - unfold line_step. rewrite Hb; [done|by left|done|done]. }
  rewrite E. apply IH; [|done|by rewrite (proj1 (item_step_keeps _ _ _))]. intros j m v Hj. apply Hb. by right.
Qed.

Lemma all_items body p its rest w : reads_items body p its → Forall item_ok its → (∃ i, last its = Some i ∧ comment (item_bytes i) = false) →
  priv w = Some p → all_lines body (zlen rest) (init (text its) ++ rest) w = Some (tt, items_step (llcp_addr p) its w).
Proof.
  intros Hb Hok Hlast Hw. destruct its as [|i its]; [by destruct Hlast as (? & ? & _)|].
  rewrite <- (lines_step body p) by done. unfold text. cbn [fmap list_fmap].
  apply (all_lines_run body (λ w, priv w = Some p)); [| | |done].
  - intros k m v Hk Hc Hv. assert (Hk' : k ∈ item_bytes <$> (i :: its)) by done. apply list_elem_of_fmap in Hk' as (j & -> & Hj).
    unfold line_step. rewrite !Hb by done. split; [done|]. by rewrite (proj1 (item_step_keeps _ _ _)).
  - change (Forall clean (item_bytes <$> (i :: its))). apply Forall_fmap. eapply Forall_impl; [exact Hok|]. by intros j [Hj _].
  - intros x Hx. destruct Hlast as (j & Hj & Hc). change (last (item_bytes <$> (i :: its)) = Some x) in Hx.
    rewrite fmap_last, Hj in Hx. by injection Hx as <-.
Qed.

Lemma fw_reads p its : stops → Forall item_ok its → Forall is_word its → reads_items fw_line p its.
Proof.
  intros Hs Hok Hk i m w Hi Hc Hw. rewrite Forall_forall in Hok. rewrite Forall_forall in Hk. specialize (Hok i Hi). specialize (Hk i Hi).
  destruct i as [s|v t|a v t]; [destruct Hok as [_ Hx]; cbn in Hc, Hx; by rewrite Hx in Hc| |done]. apply fw_line_eq; try done. by destruct Hok as [_ [? _]].
Qed.
Lemma def_reads p its : stops → Forall item_ok its → Forall is_setting its → reads_items def_line p its.
Proof.
  intros Hs Hok Hk i m w Hi Hc Hw. rewrite Forall_forall in Hok. rewrite Forall_forall in Hk. specialize (Hok i Hi). specialize (Hk i Hi).
  destruct i as [s|v t|a v t]; [destruct Hok as [_ Hx]; cbn in Hc, Hx; by rewrite Hx in Hc|done|]. destruct Hok as (_ & Ha & Hv & _). by apply def_line_eq.
Qed.

(** ** A chip *)
Variable fs : files.
Definition gives (name : string) (l : list Z) : Prop := request_firmware fs name = inr l.
Definition memory : Prop := (∀ h, fanswer h Kmalloc ≠ 0) ∧ ∀ h, fanswer h Vmalloc ≠ 0.

Lemma load_file l name : gives name l → zlen l ≤ YUC_RFIC_FW_SIZE →
  gul_udev_load_firmware fs (undef YUC_RFIC_FW_SIZE) 0 YUC_RFIC_FW_SIZE name =
  Some (0, init l ++ undef (YUC_RFIC_FW_SIZE - zlen l), Some (zlen l)).
Proof.
  intros Hg Hl. pose proof (zlen_nonneg l). assert (Hi : i32 (zlen l) = zlen l).
  { unfold i32, YUC_RFIC_FW_SIZE in *. rewrite Z.mod_small; lia. }
  unfold gul_udev_load_firmware. rewrite Hg, Hi, decide_False by lia. unfold memcpy.
  rewrite <- (zlen_init l), sub_all, zlen_init. cbn [mbind option_bind].
  assert (Hu : undef YUC_RFIC_FW_SIZE = [] ++ undef (zlen l) ++ undef (YUC_RFIC_FW_SIZE - zlen l)).
  { unfold undef. cbn [app]. rewrite <- replicate_add. f_equal. lia. }
  rewrite Hu, (blit_exact [] (undef (zlen l)) _ (init l)); [done|done|].
  unfold undef. rewrite length_replicate, length_init. unfold zlen. lia.
Qed.

Lemma with_file_does p name l (k : buffer → Z → F Z) e : gives name l → zlen l ≤ YUC_RFIC_FW_SIZE → memory →
  does (Some p) (k (init l ++ undef (YUC_RFIC_FW_SIZE - zlen l)) (zlen l)) e (λ r, r = 0) →
  does (Some p) (with_file fs name k) e (λ r, r = 0).
Proof.
  intros Hg Hl [_ Hm] Hk. unfold with_file. eapply does_then; [by apply fcall_does|]. intros v (h & ->).
  rewrite decide_False by apply Hm. eapply does_then; [apply lift_does, load_file; done|]. intros ? ->.
  rewrite decide_False by lia. eapply does_then; [by apply lift_does|]. intros ? ->.
  eapply does_last; [exact Hk|]. intros ? ->. eapply does_then; [by apply quiet__does|]. intros _ _. by apply does_ret.
Qed.

Lemma img_does p prog : stops → memory → file_ok is_word prog → gives YUC_RFIC_PROG_FW_FILE (text prog) →
  does (Some p) (yuc_load_rfic_img fs) (omap (item_event (llcp_addr p)) prog) (λ r, r = 0).
Proof.
  intros Hs Hm [Hi Hk Hl Hz] Hg. unfold yuc_load_rfic_img. apply with_file_does with (text prog); [done|done|done|].
  unfold yuc_prog_rfic_fw. intros w Hw. rewrite zlen_app, zlen_init, Z.add_simpl_l, M_bind_eq.
  rewrite (all_items _ p) by (done || by apply fw_reads). destruct (items_step_keeps (llcp_addr p) prog w) as (E1 & E2 & E3).
  exists 0, (items_step (llcp_addr p) prog w). by rewrite E1.
Qed.
Lemma def_does p defs : stops → memory → file_ok is_setting defs → gives YUC_RFIC_DATA_FW_FILE (text defs) →
  does (Some p) (yuc_load_rfic_def_reg fs YUC_RFIC_DATA_FW_FILE) (omap (item_event (llcp_addr p)) defs) (λ r, r = 0).
Proof.
  intros Hs Hm [Hi Hk Hl Hz] Hg. unfold yuc_load_rfic_def_reg. apply with_file_does with (text defs); [done|done|done|].
  unfold yuc_prog_rfic_def. intros w Hw. rewrite zlen_app, zlen_init, Z.add_simpl_l, M_bind_eq.
  rewrite (all_items _ p) by (done || by apply def_reads). destruct (items_step_keeps (llcp_addr p) defs w) as (E1 & E2 & E3).
  exists 0, (items_step (llcp_addr p) defs w). by rewrite E1.
Qed.

(** All a chip is sent when it is started. *)
Definition chip_events (base : Z) (prog defs : list item) : list fr1_event :=
  omap (item_event base) prog ++ omap (item_event base) defs ++ command_events base YUC_FWCMD_GETVERSION [] ++
  command_events base YUC_FWCMD_CALRESISTOR [YUC_RFIC_CAL_RESISTOR_REFERENCE] ++ command_events base YUC_FWCMD_CALREGULATOR [].
Record files_ok (prog defs : list item) : Prop := {
  ff_stops : stops; ff_memory : memory;
  ff_prog : file_ok is_word prog; ff_defs : file_ok is_setting defs;
  ff_prog_at : gives YUC_RFIC_PROG_FW_FILE (text prog); ff_defs_at : gives YUC_RFIC_DATA_FW_FILE (text defs) }.

Lemma start_up_does p prog defs : files_ok prog defs → chip_ok (llcp_addr p) →
  does (Some p) (yuc_rfic_start_up fs YUC_PO_RESET) (chip_events (llcp_addr p) prog defs) (λ r, r = 0).
Proof.
  intros [Hs Hm Hp Hd Hpa Hda] Hc. unfold yuc_rfic_start_up, chip_events. rewrite decide_True by tauto.
  eapply does_bind; [by apply img_does|]. intros ? ->. rewrite decide_False by lia.
  eapply does_bind; [by apply def_does|]. intros ? _.
  eapply does_bind; [by apply start_fw_does|]. intros ? ->. rewrite decide_False by lia.
  eapply does_bind; [by apply resistor_does|]. intros ? ->. rewrite decide_False by lia. by apply regulator_does.
Qed.

Definition with_llcp (p : rfic_priv_t) (llcp : Z) : rfic_priv_t :=
  RficPriv llcp (yucca1_reset_gpio p) (yucca2_reset_gpio p) (yucca1_trx_gpio p) (yucca2_trx_gpio p) (yucca_trx_gpio p).
(** One of the chips, which is there. *)
Lemma yucca_starts p pga llcp chip n prog defs w : files_ok prog defs → chip_ok llcp →
  (∀ h, u16 (fanswer h (Readw chip)) = YUC_RFIC_CHIP_ID_RO_REG_VALUE) → priv w = Some p →
  ∃ w', start_yucca fs pga llcp chip n w = Some (Some 0, w') ∧ priv w' = Some (with_llcp p llcp) ∧ pins w' = pins w ∧
    events (flog w') = events (flog w) ++ [Wrote pga LLCPGA_VALUE] ++ chip_events llcp prog defs ++ [Told n].
Proof.
  intros Hf Hc Hid Hw. unfold start_yucca. rewrite M_bind_eq.
  destruct (fcall__does (Some p) (Writel pga LLCPGA_VALUE) _ eq_refl w Hw) as ([] & w1 & E1 & _ & Hp1 & Hpins1 & Hl1). rewrite E1.
  unfold get_priv. rewrite M_bind_eq. rewrite M_bind_eq. cbn [gets]. rewrite Hp1. cbn [lift]. rewrite M_bind_eq. cbn [set_priv modify].
  set (w2 := Fr1W _ _ _). change (RficPriv llcp _ _ _ _ _) with (with_llcp p llcp) in (value of w2).
  assert (Hr : does (Some (with_llcp p llcp)) (chipid ← fcall (Readw chip);
    if decide (u16 chipid ≠ YUC_RFIC_CHIP_ID_RO_REG_VALUE) then mret None else
    ret ← yuc_rfic_start_up fs YUC_PO_RESET;
    _ ← (if decide (ret = 0) then fcall_ (SetHostReady n) else mret tt); mret (Some ret))
    (chip_events llcp prog defs ++ [Told n]) (λ r, r = Some 0)).
  { eapply does_then; [by apply fcall_does|]. intros v (h & ->). rewrite decide_False by (intros Hx; by apply Hx).
    eapply does_bind; [apply (start_up_does (with_llcp p llcp)); done|]. intros ? ->. rewrite decide_True by done.
    eapply does_last; [by apply fcall__does|]. intros _ _. by apply does_ret. }
  destruct (Hr w2 eq_refl) as (r & w' & E & -> & Hp & Hpins & Hl). exists w'. split; [exact E|]. split; [done|].
  split; [by rewrite Hpins|]. rewrite Hl. cbn [flog w2]. by rewrite Hl1, <- !app_assoc.
Qed.

(** ** Pins *)

(** The pins the driver uses, with their controllers. *)
Definition pins_of (p : rfic_priv_t) : list (Z * Z) :=
  [(GPIO2, yucca1_reset_gpio p); (GPIO2, yucca2_reset_gpio p); (GPIO2, yucca1_trx_gpio p); (GPIO2, yucca2_trx_gpio p)] ++
  match yucca_trx_gpio p with Some t => [(GPIO3, t)] | None => [] end.
Definition all_bits (r : gpio_reg) (l : list (Z * Z)) (m : gpio_mem) : Prop := Forall (λ x, pin_bit m x.1 r x.2 = true) l.
Definition in_range (l : list (Z * Z)) : Prop := Forall (λ x, 0 ≤ x.2 ≤ 31) l.

Lemma touches_bit m m' gpio pin f (x : Z * Z) r : touches m m' gpio pin f → 0 ≤ x.2 ≤ 31 → pin_bit m x.1 r x.2 = true →
  f r ≠ Some false → pin_bit m' x.1 r x.2 = true.
Proof.
  intros Ht Hx Hb Hf. rewrite Ht by done. destruct (decide _) as [[E1 E2]|]; [|done]. rewrite Hb. by destruct (f r) as [[|]|].
Qed.
Lemma touches_bits m m' gpio pin f l r : touches m m' gpio pin f → in_range l → all_bits r l m → f r ≠ Some false → all_bits r l m'.
Proof.
  intros Ht Hl Hb Hf. unfold all_bits, in_range in *. rewrite Forall_forall in Hl, Hb |- *. intros x Hx.
  by eapply touches_bit; [exact Ht|apply Hl|apply Hb|].
Qed.

(** Driving an output: the outputs stay outputs, and when it is driven high those that
    are stay high. *)
Lemma or_set gpio pin v (k : F Z) outs high w : in_range outs → in_range high → (gpio, pin) ∈ outs →
  all_bits gp_dir outs (pins w) → all_bits gp_dat high (pins w) →
  ∃ w', or_stop (set_pin gpio pin v) k w = k w' ∧ priv w' = priv w ∧ flog w' = flog w ∧ all_bits gp_dir outs (pins w') ∧
    all_bits gp_dat (if decide (v ≠ 0) then (gpio, pin) :: high else []) (pins w').
Proof.
  intros Ho Hh Hin Hd Hb. assert (Hp : 0 ≤ pin ≤ 31) by (unfold in_range in Ho; rewrite Forall_forall in Ho; by apply (Ho _ Hin)).
  assert (Hdir : pin_bit (pins w) gpio gp_dir pin = true) by (unfold all_bits in Hd; rewrite Forall_forall in Hd; by apply (Hd _ Hin)).
  destruct (setdata_output gpio pin v (pins w) Hp Hdir) as (m' & E & Ht). exists (Fr1W m' (priv w) (flog w)).
  unfold or_stop, set_pin, on_pins. rewrite M_bind_eq, E, decide_False by lia. split; [done|]. split; [done|]. split; [done|].
  split; [by eapply touches_bits|]. cbn [pins]. destruct (decide (v ≠ 0)) as [Hv|]; [|constructor].
  constructor; [|eapply touches_bits; [exact Ht|done|done|cbn; by rewrite bool_decide_eq_true_2]].
  cbn. rewrite Ht, decide_True by done. cbn. by rewrite bool_decide_eq_true_2.
Qed.
Lemma or_look (k : F Z) w : or_stop look_pins k w = k w.
Proof. unfold or_stop, look_pins, on_pins. by destruct w. Qed.

Ltac drive outs high w' :=
  match goal with |- context [or_stop (set_pin ?g ?x ?v) ?k ?u] => edestruct (or_set g x v k outs high u) as (w' & -> & ? & ? & ? & ?) end.
(** The reset: all pins end up high. *)
Lemma resetn_runs p w : priv w = Some p → in_range (pins_of p) → (la1238 = true ↔ is_Some (yucca_trx_gpio p)) →
  all_bits gp_dir (pins_of p) (pins w) →
  ∃ w', yuc_do_rfic_resetn w = Some (0, w') ∧ priv w' = priv w ∧ flog w' = flog w ∧ all_bits gp_dir (pins_of p) (pins w') ∧
    all_bits gp_dat (pins_of p) (pins w').
Proof.
  intros Hw Hr Hla Hd. unfold yuc_do_rfic_resetn, get_priv. rewrite !M_bind_eq. cbn [gets]. rewrite Hw. cbn [lift]. rewrite or_look.
  assert (Hp : ∀ x, x ∈ pins_of p → 0 ≤ x.2 ≤ 31) by (by apply Forall_forall).
  drive (pins_of p) (@nil (Z * Z)) w1; [done|constructor|by left|done|constructor|].
  drive (pins_of p) (@nil (Z * Z)) w2; [done|constructor|by right; left|done|constructor|].
  drive (pins_of p) (@nil (Z * Z)) w3; [done|constructor|by right; right; left|done|constructor|].
  drive (pins_of p) [(GPIO2, yucca1_trx_gpio p)] w4;
    [done|by apply Forall_singleton, (Hp (GPIO2, _)); right; right; left|by do 3 right; left|done|done|].
  set (high := [(GPIO2, yucca2_trx_gpio p); (GPIO2, yucca1_trx_gpio p)]).
  assert (Hh : in_range high).
  { repeat (apply Forall_cons; split); [apply (Hp (GPIO2, _)); by do 3 right; left|apply (Hp (GPIO2, _)); by do 2 right; left|done]. }
  set (trx := match yucca_trx_gpio p with Some t => [(GPIO3, t)] | None => [] end).
  assert (Htrx : ∀ k : F Z, ∃ w5, or_stop (if la1238 then trx ← lift (yucca_trx_gpio p); set_pin GPIO3 trx 1 else mret 0) k w4 = k w5 ∧
    priv w5 = priv w4 ∧ flog w5 = flog w4 ∧ all_bits gp_dir (pins_of p) (pins w5) ∧ all_bits gp_dat (trx ++ high) (pins w5)).
  { intros k. destruct la1238 eqn:Ela.
    - destruct (proj1 Hla eq_refl) as [t Et].
      destruct (or_set GPIO3 t 1 k (pins_of p) high w4) as (w5 & E5 & Hw5); [done|done|by unfold pins_of; rewrite Et; do 4 right; left|done|done|].
      exists w5. rewrite Et. split; [exact E5|]. unfold trx. rewrite Et. exact Hw5.
    - exists w4. assert (Et : yucca_trx_gpio p = None) by (destruct (yucca_trx_gpio p) as [t|]; [assert (false = true) by (apply Hla; by eexists); done|done]).
      unfold trx. rewrite Et. done. }
  match goal with |- context [or_stop (if la1238 then _ else _) ?k w4] => destruct (Htrx k) as (w5 & -> & P5 & L5 & D5 & B5) end.
  assert (Hh5 : in_range (trx ++ high)).
  { apply Forall_app. split; [|done]. unfold trx. destruct (yucca_trx_gpio p) as [t|] eqn:Et; [|constructor].
    apply Forall_singleton, (Hp (GPIO3, t)). unfold pins_of. rewrite Et. by do 4 right; left. }
  drive (pins_of p) (trx ++ high) w6; [done|done|by left|done|done|].
  drive (pins_of p) ((GPIO2, yucca1_reset_gpio p) :: trx ++ high) w7;
    [done|apply Forall_cons; split; [apply (Hp (GPIO2, _)); by left|done]|by right; left|done|done|].
  rewrite or_look. exists w7. split; [done|]. split; [congruence|]. split; [congruence|]. split; [done|].
  unfold all_bits in *. match goal with B7 : Forall _ (if decide (1 ≠ 0) then (GPIO2, yucca2_reset_gpio p) :: _ else _) |- _ => rewrite Forall_forall in B7; rewrite Forall_forall; intros x Hx; apply B7 end. unfold pins_of in Hx. fold trx in Hx. unfold high.
  rewrite !elem_of_app, !elem_of_cons in *. set_solver.
Qed.

Lemma bits_incl r l k m : (∀ x, x ∈ k → x ∈ l) → all_bits r l m → all_bits r k m.
Proof. unfold all_bits. rewrite !Forall_forall. auto. Qed.
Lemma init_runs gpio pin (k : F Z) outs w : 0 ≤ pin ≤ 31 → in_range outs → all_bits gp_dir outs (pins w) →
  ∃ w', init_pin gpio pin k w = k w' ∧ priv w' = priv w ∧ flog w' = flog w ∧ all_bits gp_dir ((gpio, pin) :: outs) (pins w').
Proof.
  intros Hp Ho Hd. destruct (init_output gpio pin (pins w) Hp) as (m' & E & Ht). exists (Fr1W m' (priv w) (flog w)).
  unfold init_pin, on_pins. rewrite M_bind_eq, E, decide_False by lia. split; [done|]. split; [done|]. split; [done|].
  constructor; [cbn; by rewrite Ht, decide_True by done|]. eapply touches_bits; [exact Ht|done|done|done].
Qed.
Ltac range_tac := repeat first [apply Forall_nil_2 | apply Forall_cons_2; [cbn; lia|]].
Ltac init_one outs w' :=
  match goal with |- context [init_pin ?g ?x ?k ?u] => edestruct (init_runs g x k outs u) as (w' & -> & ? & ? & ?) end.

(** The first four pins, which every board has. *)
Lemma four_pins p k w : in_range (pins_of p) → ∃ w',
  init_pin GPIO2 (yucca1_reset_gpio p) (init_pin GPIO2 (yucca2_reset_gpio p) (
  init_pin GPIO2 (yucca1_trx_gpio p) (init_pin GPIO2 (yucca2_trx_gpio p) k))) w = k w' ∧ priv w' = priv w ∧ flog w' = flog w ∧
  all_bits gp_dir (reverse (take 4 (pins_of p))) (pins w').
Proof.
  intros Hr. assert (Hp : ∀ x, x ∈ pins_of p → 0 ≤ x.2 ≤ 31) by (by apply Forall_forall).
  assert (H1 : 0 ≤ yucca1_reset_gpio p ≤ 31) by (apply (Hp (GPIO2, _)); by left).
  assert (H2 : 0 ≤ yucca2_reset_gpio p ≤ 31) by (apply (Hp (GPIO2, _)); by right; left).
  assert (H3 : 0 ≤ yucca1_trx_gpio p ≤ 31) by (apply (Hp (GPIO2, _)); by right; right; left).
  assert (H4 : 0 ≤ yucca2_trx_gpio p ≤ 31) by (apply (Hp (GPIO2, _)); by do 3 right; left).
  init_one (@nil (Z * Z)) w1; [done|constructor|constructor|].
  init_one [(GPIO2, yucca1_reset_gpio p)] w2; [done|range_tac|done|].
  init_one [(GPIO2, yucca2_reset_gpio p); (GPIO2, yucca1_reset_gpio p)] w3; [done|range_tac|done|].
  init_one [(GPIO2, yucca1_trx_gpio p); (GPIO2, yucca2_reset_gpio p); (GPIO2, yucca1_reset_gpio p)] w4; [done|range_tac|done|].
  exists w4. split; [done|]. split; [congruence|]. split; [congruence|]. done.
Qed.

(** C17: The probe of the RF driver of the FR1 boards succeeds, and sends each of the two
    chips exactly the words of its program, the registers of its settings and the three
    commands, in this order, and tells the modem of each chip afterwards; all five pins
    end up high, and the driver's structure is gone. Conditions: the driver is built for
    LA1238 and the modem has an RF part, the pins named in the device tree are valid and
    0 to 31, memory is there, both files load and consist of well-formed lines whose
    last one is not a comment, the stack behind the four digits holds no digit, both
    chips show their identity, and their first response is finished, has no error and a
    version that is not 0. *)
Theorem fr1_probe_starts (prog defs : list item) (w : fr1w) :
  la1238 = true → modem_rf = true → pins_valid named_pins = true → in_range (pins_of named_pins) → files_ok prog defs →
  chip_ok LLCP1_RFIC_OFFSET → chip_ok LLCP2_RFIC_OFFSET →
  (∀ h c, c ∈ [LLCP1_RFIC_RO_REG_CHIPID_OFFSET; LLCP2_RFIC_RO_REG_CHIPID_OFFSET] → u16 (fanswer h (Readw c)) = YUC_RFIC_CHIP_ID_RO_REG_VALUE) →
  ∃ w', gul_yucca_rfic_probe fs w = Some (0, w') ∧ priv w' = None ∧ all_bits gp_dat (pins_of named_pins) (pins w') ∧
    events (flog w') = events (flog w) ++
      (Wrote LLCPGA1_OFFSET LLCPGA_VALUE :: chip_events LLCP1_RFIC_OFFSET prog defs ++ [Told 1]) ++
      (Wrote LLCPGA2_OFFSET LLCPGA_VALUE :: chip_events LLCP2_RFIC_OFFSET prog defs ++ [Told 2]).
Proof.
  intros Hla Hrf Hv Hr Hf Hc1 Hc2 Hid. unfold gul_yucca_rfic_probe. rewrite M_bind_eq. unfold fcall at 1.
  rewrite decide_False by apply Hf. rewrite Hrf. cbn [negb]. rewrite M_bind_eq. cbn [set_priv modify]. rewrite Hv. cbn [negb].
  match goal with |- context [init_pin _ _ _ ?u] => set (w0 := u) end.
  assert (L0 : events (flog w0) = events (flog w)) by (cbn; by rewrite events_snoc, app_nil_r).
  assert (P0 : priv w0 = Some named_pins) by done. clearbody w0.
  match goal with |- context [init_pin GPIO2 (yucca2_trx_gpio _) ?k] => destruct (four_pins named_pins k w0 Hr) as (w1 & -> & P1 & L1 & D1) end.
  assert (Et : yucca_trx_gpio named_pins = Some (of_get_named_gpio YuccaTrx)) by (cbn; by rewrite Hla).
  rewrite M_bind_eq, Et. cbn [lift].
  assert (Hr' := Hr). unfold pins_of, in_range in Hr'. rewrite Et in Hr'. apply Forall_app in Hr' as [Hr4 Ht]. apply Forall_cons in Ht as [Ht _]. cbn in Ht.
  init_one (reverse (take 4 (pins_of named_pins))) w2; [exact Ht|by apply Forall_reverse|done|].
  unfold start_both. rewrite M_bind_eq.
  destruct (resetn_runs named_pins w2) as (w3 & -> & P3 & L3 & D3 & B3); [congruence|done|by rewrite Hla, Et; split; [eexists|]| |].
  { eapply bits_incl; [|done]. unfold pins_of. rewrite Et. cbn [app take reverse]. intros x Hx. unfold reverse. cbn [rev_append].
    rewrite !elem_of_cons in *. tauto. }
  rewrite decide_False by lia. rewrite M_bind_eq.
  destruct (yucca_starts named_pins LLCPGA1_OFFSET LLCP1_RFIC_OFFSET LLCP1_RFIC_RO_REG_CHIPID_OFFSET 1 prog defs w3) as (w4 & -> & P4 & N4 & L4);
    [done|done|intros h; apply Hid; by left|congruence|]. cbn [default].
  rewrite M_bind_eq.
  destruct (yucca_starts (with_llcp named_pins LLCP1_RFIC_OFFSET) LLCPGA2_OFFSET LLCP2_RFIC_OFFSET LLCP2_RFIC_RO_REG_CHIPID_OFFSET 2 prog defs w4)
    as (w5 & -> & P5 & N5 & L5); [done|done|intros h; apply Hid; by right; left|done|]. cbn [default].
  unfold fail_, free_priv, fcall_, fcall, set_priv. cbv [mbind M_bind modify mret M_ret].
  eexists. split; [reflexivity|]. split; [done|]. cbn [pins flog]. split; [by rewrite N5, N4|].
  rewrite events_snoc. cbn [event_of fst]. rewrite app_nil_r, L5, L4. rewrite L3. 
  match goal with H : flog w2 = flog w1 |- _ => rewrite H end. rewrite L1, L0, <- (app_assoc (events (flog w))). reflexivity.
Qed.

(** In a build for another board the last pin is never given a value, and a probe that
    comes to it uses what the allocated memory held: on every board whose device tree
    has valid pins. *)
Theorem fr1_pin_unset (w : fr1w) : la1238 = false → modem_rf = true → (∀ h, fanswer h Kmalloc ≠ 0) →
  pins_valid named_pins = true → in_range (pins_of named_pins) → gul_yucca_rfic_probe fs w = None.
Proof.
  intros Hla Hrf Hk Hv Hr. unfold gul_yucca_rfic_probe. rewrite M_bind_eq. unfold fcall at 1.
  rewrite decide_False by apply Hk. rewrite Hrf. cbn [negb]. rewrite M_bind_eq. cbn [set_priv modify]. rewrite Hv. cbn [negb].
  match goal with |- context [init_pin GPIO2 (yucca2_trx_gpio _) ?k] => match goal with |- context [init_pin GPIO2 (yucca1_reset_gpio _) _ ?u] =>
    destruct (four_pins named_pins k u Hr) as (w1 & -> & _) end end.
  rewrite M_bind_eq. cbn [named_pins yucca_trx_gpio]. by rewrite Hla.
Qed.

(** ** What is passed over *)

(** The chip is still at the command: after 16 looks it has succeeded. *)
Lemma unfinished_succeeds p w v : priv w = Some p → finished (u16 v) = false → resp_ew (u16 v) = false → resp_id (u16 v) ≠ 0 →
  (∀ h, fanswer h (Readw (reg_at (llcp_addr p) YUC_RFIC_CMD_RESP_ADDR)) = v) →
  ∃ w', wait_response YUC_RFIC_TS_RETRY 0 w = Some (0, w').
Proof.
  intros Hw Hf He Hi Hv.
  assert (Hn : ∀ n b u, priv u = Some p → n ≠ O ∨ resp_ew b = false ∧ resp_id b ≠ 0 → ∃ u', wait_response n b u = Some (0, u')).
  { induction n as [|n IH]; intros b u Hu Hb; cbn [wait_response].
    - destruct Hb as [|[-> Hb]]; [done|]. rewrite bool_decide_eq_false_2 by done. by eexists.
    - rewrite M_bind_eq, (reg_read_eq p), Hv by done. fold (finished (u16 v)). rewrite Hf. apply IH; [done|by right]. }
  by apply Hn; [|left].
Qed.
(** A pin that cannot be driven ends the reset, with success. *)
Lemma reset_never_fails w r w' : yuc_do_rfic_resetn w = Some (r, w') → r = 0.
Proof.
  unfold yuc_do_rfic_resetn. intros (p & w1 & _ & E)%M_bind_Some.
  assert (Ho : ∀ g k, (∀ u x u', k u = Some (x, u') → x = 0) → ∀ u x u', or_stop g k u = Some (x, u') → x = 0).
  { intros g k Hk u x u' (y & u1 & _ & Ex)%M_bind_Some. case_decide; [by injection Ex|by eapply Hk]. }
  revert E. revert w1 r w'. do 9 (apply Ho). by intros u x u' [= <- _].
Qed.
(** The settings cannot be loaded: the chip is started all the same. *)
Lemma settings_ignored w : (∀ h, fanswer h Vmalloc = 0) → yuc_rfic_start_up fs YUC_WARM_RESET w =
  (rc ← yuc_rfic_start_fw; if decide (rc ≠ 0) then mret rc else
   rc ← yuc_rfic_APP_CalResistor; if decide (rc ≠ 0) then mret rc else yuc_rfic_APP_CalRegulator)
  (Fr1W (pins w) (priv w) (flog w ++ [(Vmalloc, 0)])).
Proof.
  intros Hv. unfold yuc_rfic_start_up. rewrite decide_False by (by intros [|]). rewrite M_bind_eq. cbn [mret M_ret]. rewrite decide_False by lia.
  rewrite M_bind_eq. unfold yuc_load_rfic_def_reg, with_file. rewrite M_bind_eq. unfold fcall at 1. by rewrite Hv, decide_True by done.
Qed.
(** A program that ends in a comment. *)
Lemma comment_at_end p prog w : stops → memory → Forall item_ok prog → Forall is_word prog → (∃ i, last prog = Some i ∧ comment (item_bytes i) = true) →
  zlen (text prog) ≤ YUC_RFIC_FW_SIZE → gives YUC_RFIC_PROG_FW_FILE (text prog) → priv w = Some p → yuc_load_rfic_img fs w = None.
Proof.
  intros Hs Hm Hok Hk (j & Hj & Hc) Hz Hg Hw. unfold yuc_load_rfic_img, with_file. rewrite M_bind_eq. unfold fcall at 1.
  rewrite decide_False by apply Hm. rewrite M_bind_eq, (load_file _ _ Hg Hz). cbn [lift]. rewrite decide_False by lia.
  rewrite M_bind_eq. cbn [lift]. rewrite M_bind_eq. unfold yuc_prog_rfic_fw. rewrite zlen_app, zlen_init, Z.add_simpl_l, M_bind_eq.
  destruct prog as [|i its]; [done|]. unfold all_lines. rewrite M_bind_eq. unfold lift at 1, text. cbn [fmap list_fmap].
  assert (Hcl : Forall clean (item_bytes <$> (i :: its))) by (apply Forall_fmap; eapply Forall_impl; [exact Hok|]; by intros ? [? _]).
  apply Forall_cons in Hcl as [Hci Hcl]. rewrite (file_line _ _ _ Hci).
  rewrite (text_lines_overrun fw_line (λ w, priv w = Some p) (line_step fw_line)); [done| |exact Hcl| |done].
  - intros k m v Hk' Hck Hv. assert (Hk2 : k ∈ item_bytes <$> (i :: its)) by done. apply list_elem_of_fmap in Hk2 as (x & -> & Hx).
    assert (Hb := fw_reads p (i :: its) Hs Hok Hk). unfold line_step. rewrite !Hb by done. split; [done|]. by rewrite (proj1 (item_step_keeps _ _ _)).
  - exists (item_bytes j). split; [|done]. change (last (item_bytes <$> (i :: its)) = Some (item_bytes j)). by rewrite fmap_last, Hj.
Qed.
End Does.

(** ** A board *)
Definition demo_fr1 (la : bool) : Fr1Env := {|
  fanswer _ c := match c with
    | Readw off =>
        if decide (off = LLCP1_RFIC_RO_REG_CHIPID_OFFSET ∨ off = LLCP2_RFIC_RO_REG_CHIPID_OFFSET) then YUC_RFIC_CHIP_ID_RO_REG_VALUE
        else if decide (off = LLCP1_RFIC_OFFSET + 24 ∨ off = LLCP2_RFIC_OFFSET + 24) then 7 else 0x4010
    | _ => 1 end;
  beyond _ := [0]; la1238 := la; modem_rf := true;
  of_get_named_gpio p := match p with Yucca1Reset => 3 | Yucca2Reset => 4 | Yucca1Trx => 5 | Yucca2Trx => 6 | YuccaTrx => 7 end;
  gpio_is_valid _ := true;
  YUC_FWCMD_GETVERSION := 1; YUC_FWCMD_CALREGULATOR := 2; YUC_FWCMD_CALRESISTOR := 3; YUC_RTC_OK := 0 |}.
Definition demo_prog : list item := [Note [47; 47; 32; 49]; Word 0x12ab []; Word 0xfff0 [13]].
Definition demo_defs : list item := [Setting 0x10 0xbeef []; Note [32; 47; 47]; Setting 0x300 1 []].
Definition demo_files : files := Files (λ _, 0)
  (λ n, if decide (n = YUC_RFIC_PROG_FW_FILE) then inr (text demo_prog) else inr (text demo_defs)).
Definition demo_fr1w (p : option rfic_priv_t) : fr1w := Fr1W (λ _ _, 0) p [].

Lemma demo_files_ok : files_ok (H := demo_fr1 true) demo_files demo_prog demo_defs.
Proof.
  split; [by intros h; exists 0, []|done| | |done|done].
  - split; [|by repeat constructor|by exists (Word 0xfff0 [13])|by vm_compute].
    repeat (apply Forall_cons; split); try apply Forall_nil_2; (split; [by repeat (apply Forall_cons; split); try apply Forall_nil_2|done]).
  - split; [|by repeat constructor|by exists (Setting 0x300 1 [])|by vm_compute].
    repeat (apply Forall_cons; split); try apply Forall_nil_2; (split; [by repeat (apply Forall_cons; split); try apply Forall_nil_2|done]).
Qed.

Lemma fr1_probe_starts_witness : ∃ w',
  gul_yucca_rfic_probe (H := demo_fr1 true) demo_files (demo_fr1w None) = Some (0, w') ∧ priv w' = None ∧
  pin_bit (pins w') GPIO2 gp_dat 3 = true ∧ pin_bit (pins w') GPIO3 gp_dat 7 = true ∧
  events (flog w') =
    [Wrote 0x1100030 0xaff0; Wrote 0x120C004 0x12ab; Wrote 0x120C004 0xfff0; Wrote 0x1200020 0xbeef; Wrote 0x1200600 1;
     Wrote 0x1200000 0x8010; Wrote 0x1200000 0x8031; Wrote 0x1200002 0xff; Wrote 0x1200000 0x8020; Told 1;
     Wrote 0x1104030 0xaff0; Wrote 0x121C004 0x12ab; Wrote 0x121C004 0xfff0; Wrote 0x1210020 0xbeef; Wrote 0x1210600 1;
     Wrote 0x1210000 0x8010; Wrote 0x1210000 0x8031; Wrote 0x1210002 0xff; Wrote 0x1210000 0x8020; Told 2].
Proof.
  destruct (fr1_probe_starts (H := demo_fr1 true) demo_files demo_prog demo_defs (demo_fr1w None)) as (w' & E & Hp & Hb & Hl).
  - reflexivity.
  - reflexivity.
  - reflexivity.
  - repeat constructor; cbn; lia.
  - apply demo_files_ok.
  - by split; intros h.
  - by split; intros h.
  - intros h c Hc. rewrite !elem_of_cons in Hc. destruct Hc as [-> |[-> |Hc]]; [reflexivity|reflexivity|by apply not_elem_of_nil in Hc].
  - exists w'. split; [exact E|]. split; [exact Hp|]. unfold all_bits in Hb. rewrite Forall_forall in Hb.
    split; [apply (Hb (GPIO2, 3)); by left|]. split; [apply (Hb (GPIO3, 7)); by do 4 right; left|]. exact Hl.
Defined.
Lemma fr1_pin_unset_witness : gul_yucca_rfic_probe (H := demo_fr1 false) demo_files (demo_fr1w None) = None.
Proof. apply (fr1_pin_unset (H := demo_fr1 false)); [reflexivity|reflexivity|done|reflexivity|]. repeat constructor; cbn; lia. Defined.
Lemma command_outcome_witness : ∃ r w' sent rs rest,
  yuc_rfic_cmd_proc (H := demo_fr1 true) 3 [0xff; 0x55] 257 (demo_fr1w (Some (RficPriv LLCP1_RFIC_OFFSET 3 4 5 6 None))) = Some (r, w') ∧
  flog w' = sent ++ looks (RficPriv LLCP1_RFIC_OFFSET 3 4 5 6 None) rs ++ rest ∧
  events sent = [Wrote 0x1200000 0x8031; Wrote 0x1200002 0xff] ∧ r = 0.
Proof.
  destruct (command_outcome (H := demo_fr1 true) 3 [0xff; 0x55] 257 (RficPriv LLCP1_RFIC_OFFSET 3 4 5 6 None)
    (demo_fr1w (Some (RficPriv LLCP1_RFIC_OFFSET 3 4 5 6 None))) eq_refl ltac:(by vm_compute)) as (r & w' & sent & rs & rest & E & _ & Hl & Hs & _).
  exists r, w', sent, rs, rest. split; [exact E|]. split; [exact Hl|]. split; [exact Hs|].
  vm_compute in E. by injection E as <- _.
Defined.
