(* ===== verification/UsimProbe.v ===== *)
(** * The device of the card reader (kernel_driver/yami/gul_usim.c)

    Probe and removal of the reader, the character device, the waits of read and poll,
    and the timer that the build can enable.  What happens on the registers is
    UsimDriver.v; here is who owns the memory, the class, the numbers and the node.  An
    object that was freed is no longer in [mem], and a use of it is undefined.  The
    calls of the kernel are a log, with the answers of [UsimCalls]. *)
From S2P Require Import Prelude GulMsi UsimDriver.
From stdpp Require Import gmap.
#[global] Open Scope Z_scope.

Inductive what := TheDev | TheSim | TheData.
Inductive usim_call :=
  | Kzalloc (k : what) | Kfree (a : nat) | InitClk | ClassCreate | ClassDestroy | AllocChrdev | UnregisterChrdev (n : Z)
  | CdevAdd (a : nat) | DeviceCreate | DeviceDestroy | DelTimer | Wait | CopyToUser | Fasync (fd mode : Z).

(** A pointer to a class as [class_create] gives it. *)
Inductive class_ptr := CNull | CErr | CPtr (n : nat).
#[export] Instance class_ptr_eq : EqDecision class_ptr.
Proof. solve_decision. Defined.

(** An answer of [ClassCreate] or [DeviceCreate] is NULL at 0 and an error below it.
    [Wait]: whether a signal came; [CopyToUser]: the bytes not copied.  [behind_status]:
    the bytes of the structure behind the status; the numbers and addresses of the
    machine. *)
Class UsimCalls := {
  uanswer : list (usim_call * Z) → usim_call → Z;
  behind_status : list (usim_call * Z) → list Z;
  chrdev : Z; usim_regs_addr : Z; usim_phy_add : Z }.

(** ** State *)

(** [struct usim_dev], [struct sim_t] with the status and the last one, and
    [struct usim_device_data]. *)
Inductive obj := UsimDev (sim : option nat) | SimStr (status last : Z) | DeviceData (dev : nat).
Record usimp := UsimP {
  mem : gmap nat obj; usim_priv : option nat; usim_dev_data_g : option nat;
  usim_dev_class : class_ptr; usim_dev_num : Z; classes : list nat; regions : list Z; nodes : list Z; cdevs : list nat;
  g_poll_timer_event : bool; ulog : list (usim_call * Z) }.
Definition usimp_0 : usimp := UsimP ∅ None None CNull 0 [] [] [] [] false [].

(** What a wait comes to. *)
Inductive waited (A : Type) := Sleeps | Woken (a : A).
Arguments Sleeps {A}. Arguments Woken {A}.

Section UsimProbe.
Context `{UsimCalls}.
Local Abbreviation U := (M usimp).

Definition set_mem (v : gmap nat obj) (w : usimp) : usimp :=
  UsimP v (usim_priv w) (usim_dev_data_g w) (usim_dev_class w) (usim_dev_num w) (classes w) (regions w) (nodes w) (cdevs w) (g_poll_timer_event w) (ulog w).
Definition set_usim_priv (v : option nat) (w : usimp) : usimp :=
  UsimP (mem w) v (usim_dev_data_g w) (usim_dev_class w) (usim_dev_num w) (classes w) (regions w) (nodes w) (cdevs w) (g_poll_timer_event w) (ulog w).
Definition set_data_g (v : option nat) (w : usimp) : usimp :=
  UsimP (mem w) (usim_priv w) v (usim_dev_class w) (usim_dev_num w) (classes w) (regions w) (nodes w) (cdevs w) (g_poll_timer_event w) (ulog w).
Definition set_class (p : class_ptr) (l : list nat) (w : usimp) : usimp :=
  UsimP (mem w) (usim_priv w) (usim_dev_data_g w) p (usim_dev_num w) l (regions w) (nodes w) (cdevs w) (g_poll_timer_event w) (ulog w).
Definition set_regions (n : Z) (l : list Z) (w : usimp) : usimp :=
  UsimP (mem w) (usim_priv w) (usim_dev_data_g w) (usim_dev_class w) n (classes w) l (nodes w) (cdevs w) (g_poll_timer_event w) (ulog w).
Definition set_nodes (l : list Z) (w : usimp) : usimp :=
  UsimP (mem w) (usim_priv w) (usim_dev_data_g w) (usim_dev_class w) (usim_dev_num w) (classes w) (regions w) l (cdevs w) (g_poll_timer_event w) (ulog w).
Definition set_ucdevs (l : list nat) (w : usimp) : usimp :=
  UsimP (mem w) (usim_priv w) (usim_dev_data_g w) (usim_dev_class w) (usim_dev_num w) (classes w) (regions w) (nodes w) l (g_poll_timer_event w) (ulog w).
Definition set_event (b : bool) (w : usimp) : usimp :=
  UsimP (mem w) (usim_priv w) (usim_dev_data_g w) (usim_dev_class w) (usim_dev_num w) (classes w) (regions w) (nodes w) (cdevs w) b (ulog w).
Definition ucall (c : usim_call) : U Z := λ w,
  let r := uanswer (ulog w) c in
  Some (r, UsimP (mem w) (usim_priv w) (usim_dev_data_g w) (usim_dev_class w) (usim_dev_num w) (classes w) (regions w) (nodes w) (cdevs w)
    (g_poll_timer_event w) (ulog w ++ [(c, r)])).
Definition ucall_ (c : usim_call) : U unit := _ ← ucall c; mret tt.

(** *** What the kernel does with its objects *)

(** The object, or NULL. *)
Definition alloc (k : what) (o : obj) : U (option nat) :=
  p ← ucall (Kzalloc k);
  if decide (p = 0) then mret None else
  a ← gets (λ w, fresh (dom (mem w)));
  _ ← modify (λ w, set_mem (<[a := o]> (mem w)) w); mret (Some a).
Definition get_obj (a : nat) : U obj := o ← gets (λ w, mem w !! a); lift o.
Definition kfree (a : nat) : U unit :=
  _ ← get_obj a; _ ← ucall_ (Kfree a); modify (λ w, set_mem (delete a (mem w)) w).
Definition class_create : U class_ptr :=
  r ← ucall ClassCreate;
  if decide (r = 0) then _ ← modify (λ w, set_class CNull (classes w) w); mret CNull else
  if decide (r < 0) then _ ← modify (λ w, set_class CErr (classes w) w); mret CErr else
  n ← gets (λ w, S (list_max (classes w)));
  _ ← modify (λ w, set_class (CPtr n) (n :: classes w) w); mret (CPtr n).
(** A pointer that is none is passed over; a class that is gone is not. *)
Definition class_destroy : U unit :=
  _ ← ucall_ ClassDestroy;
  p ← gets usim_dev_class; l ← gets classes;
  match p with
  | CPtr n => if decide (n ∈ l) then modify (λ w, set_class p (filter (.≠ n) l) w) else lift None
  | _ => mret tt
  end.
Definition class_alive (p : class_ptr) (l : list nat) : bool := match p with CPtr n => bool_decide (n ∈ l) | _ => false end.
(** A class that is none makes no device, as the answer says. *)
Definition device_create : U Z :=
  p ← gets usim_dev_class; l ← gets classes;
  if match p with CPtr _ => negb (class_alive p l) | _ => false end then lift None else
  r ← ucall DeviceCreate; n ← gets usim_dev_num;
  _ ← (if decide (0 < r) then modify (λ w, set_nodes (n :: nodes w) w) else mret tt); mret r.
(** The devices of a class are looked up in it. *)
Definition device_destroy : U unit :=
  p ← gets usim_dev_class; l ← gets classes;
  match p with
  | CNull => ucall_ DeviceDestroy
  | _ => if class_alive p l then _ ← ucall_ DeviceDestroy; n ← gets usim_dev_num; modify (λ w, set_nodes (filter (.≠ n) (nodes w)) w) else lift None
  end.
Definition unregister_chrdev_region : U unit :=
  n ← gets usim_dev_num; _ ← ucall_ (UnregisterChrdev n); modify (λ w, set_regions n (filter (.≠ n) (regions w)) w).

(** ** The character device *)
Definition create_usim_cdev (data : nat) : U Z :=
  p ← class_create;
  if decide (p = CNull) then _ ← unregister_chrdev_region; mret (-1) else
  ret ← ucall AllocChrdev;
  if decide (ret < 0) then mret ret else
  _ ← modify (λ w, set_regions chrdev (chrdev :: regions w) w);
  added ← ucall (CdevAdd data);
  _ ← (if decide (added = 0) then modify (λ w, set_ucdevs (data :: cdevs w) w) else mret tt);
  node ← device_create;
  if decide (node = 0) then _ ← class_destroy; _ ← unregister_chrdev_region; mret ret else mret ret.

Definition free_both (dev sim : nat) (ret : Z) : U Z := _ ← kfree dev; _ ← kfree sim; mret ret.
Definition gul_usim_probe (id : Z) : U Z :=
  if decide (id ≠ 0) then mret 0 else
  d ← alloc TheDev (UsimDev None);
  match d with
  | None => mret (- ENOMEM)
  | Some dev =>
      s ← alloc TheSim (SimStr 0 0);
      match s with
      | None => _ ← kfree dev; mret (- ENOMEM)
      | Some sim =>
          if decide (usim_regs_addr = 0) then free_both dev sim (- ENOMEM) else
          if decide (usim_phy_add = 0) then free_both dev sim (- ENOMEM) else
          _ ← modify (λ w, set_mem (<[dev := UsimDev (Some sim)]> (mem w)) w);
          _ ← modify (set_usim_priv (Some dev));
          _ ← ucall_ InitClk;
          x ← alloc TheData (DeviceData dev);
          match x with
          | None => free_both dev sim (- ENOMEM)
          | Some data =>
              _ ← modify (set_data_g (Some data));
              ret ← create_usim_cdev data;
              if decide (ret < 0) then free_both dev sim ret else
              _ ← modify (λ w, set_mem (<[sim := SimStr USIM_STATE_INVALIDATED USIM_STATE_INVALIDATED]> (mem w)) w);
              mret ret
          end
      end
  end.

Definition the_sim_of (dev : nat) : U nat := o ← get_obj dev; lift (match o with UsimDev s => s | _ => None end).
Definition gul_usim_remove (id : Z) : U Z :=
  if decide (id ≠ 0) then mret 0 else
  p ← gets usim_priv;
  match p with
  | None => mret 0
  | Some dev =>
      _ ← device_destroy;
      _ ← class_destroy;
      _ ← unregister_chrdev_region;
      _ ← get_obj dev; _ ← ucall_ DelTimer;
      sim ← the_sim_of dev;
      _ ← kfree sim;
      _ ← kfree dev;
      _ ← modify (set_usim_priv None);
      mret 0
  end.

(** ** Open files: the data of the file, its device and the status *)
Definition device_of (data : nat) : U (nat * nat) :=
  o ← get_obj data;
  dev ← lift (match o with DeviceData d => Some d | _ => None end);
  sim ← the_sim_of dev;
  mret (dev, sim).

(** [wait_event_interruptible]; the result is not looked at. *)
Definition wait_event {A} (k : U A) : U (waited A) :=
  e ← gets g_poll_timer_event;
  signal ← (if (e : bool) then mret 0 else ucall Wait);
  if negb e && bool_decide (signal = 0) then mret Sleeps else
  _ ← modify (set_event false); a ← k; mret (Woken a).

(** The bytes of the status, and of what is behind it. *)
Definition status_bytes (v : Z) : list Z := [v mod 256; v / 256 mod 256; v / 65536 mod 256; v / 16777216 mod 256].
Definition copy_from_status (sim : nat) (count : Z) : U (Z * list Z) :=
  o ← get_obj sim; v ← lift (match o with SimStr s _ => Some s | _ => None end);
  l ← gets ulog;
  let src := status_bytes (u32 v) ++ behind_status l in
  if decide (zlen src < count) then lift None else
  r ← ucall CopyToUser;
  mret (if decide (r ≠ 0) then (- SIM_E_ACCESS, []) else (SIM_OK, take (Z.to_nat count) src)).
Definition sim_read (data : nat) (count : Z) : U (waited (Z * list Z)) :=
  '(_, sim) ← device_of data; wait_event (copy_from_status sim count).
Definition POLLIN : Z := 1.
Definition sim_poll (data : nat) : U (waited Z) := '(_, sim) ← device_of data; wait_event (mret POLLIN).
Definition sim_fasync (data : nat) (fd mode : Z) : U Z := '(_, _) ← device_of data; ucall (Fasync fd mode).
End UsimProbe.

(** ** The timer of the build that polls the card *)
Record timed (C : Type) := Timed { reader : driver C; last_status : Z; event : bool; wakeups : nat; expires : Z; timers : nat }.
Arguments Timed {C}. Arguments reader {C}. Arguments last_status {C}. Arguments event {C}.
Arguments wakeups {C}. Arguments expires {C}. Arguments timers {C}.

Section Timer.
Context {C : Type} `{UsimHw C}.
Definition on_reader {A} (g : M (driver C) A) : M (timed C) A := λ w,
  match g (reader w) with Some (a, d) => Some (a, Timed d (last_status w) (event w) (wakeups w) (expires w) (timers w)) | None => None end.
Definition poll_timer : M (timed C) unit :=
  _ ← on_reader usim_card_detect;
  _ ← modify (λ w, Timed (reader w) (last_status w) false (wakeups w) (expires w + 5000) (timers w));
  w ← gets id;
  _ ← (if decide (last_status w ≠ status (sim (reader w)))
       then modify (λ w, Timed (reader w) (status (sim (reader w))) true (S (wakeups w)) (expires w) (timers w)) else mret tt);
  modify (λ w, Timed (reader w) (last_status w) (event w) (wakeups w) (expires w) (S (timers w))).
End Timer.
