(* ===== verification/UsimProbeCorrect.v ===== *)
(** * The device of the card reader: theorems *)
From S2P Require Import Prelude GulMsi UsimDriver UsimProbe.
From stdpp Require Import gmap.
#[global] Open Scope Z_scope.

Section Runs.
Context `{UsimCalls}.
Local Abbreviation U := (M usimp).

(** ** Runs, but for the log *)
Definition core (w : usimp) : usimp :=
  UsimP (mem w) (usim_priv w) (usim_dev_data_g w) (usim_dev_class w) (usim_dev_num w) (classes w) (regions w) (nodes w) (cdevs w) (g_poll_timer_event w) [].

(** From the state [c] the run ends, with a result and a state in [Q]. *)
Definition wp {A} (g : U A) (c : usimp) (Q : A → usimp → Prop) : Prop :=
  ∀ w, core w = c → ∃ a w', g w = Some (a, w') ∧ Q a (core w').

Lemma wp_bind {A B} (g : U A) (k : A → U B) c Q : wp g c (λ a c', wp (k a) c' Q) → wp (g ≫= k) c Q.
Proof.
  intros Hg w Hw. destruct (Hg w Hw) as (a & w1 & E & Hk). destruct (Hk w1 eq_refl) as (b & w2 & E2 & HQ).
  exists b, w2. by rewrite M_bind_eq, E.
Qed.
Lemma wp_ret {A} (a : A) c Q : Q a c → wp (mret a) c Q.
Proof. intros HQ w <-. by exists a, w. Qed.
Lemma wp_ucall x c Q : (∀ h, Q (uanswer h x) c) → wp (ucall x) c Q.
Proof. intros HQ w <-. do 2 eexists. split; [reflexivity|]. apply HQ. Qed.
Lemma wp_ucall_ x c Q : Q tt c → wp (ucall_ x) c Q.
Proof. intros HQ w <-. do 2 eexists. split; [reflexivity|]. apply HQ. Qed.
Lemma wp_gets {A} (f : usimp → A) c Q : (∀ w, f w = f (core w)) → Q (f c) c → wp (gets f) c Q.
Proof. intros Hf HQ w <-. exists (f w), w. split; [done|]. by rewrite Hf. Qed.
Lemma wp_modify f c Q : (∀ w, core (f w) = f (core w)) → Q tt (f c) → wp (modify f) c Q.
Proof. intros Hf HQ w <-. exists tt, (f w). split; [done|]. by rewrite Hf. Qed.
Lemma wp_lift {A} (o : option A) a c (Q : A → usimp → Prop) : o = Some a → Q a c → wp (lift o) c Q.
Proof. intros -> HQ w <-. by exists a, w. Qed.
Lemma wp_undefined {A} (g : U A) c w : core w = c → (∀ v, core v = c → g v = None) → g w = None.
Proof. auto. Qed.
Lemma wp_weaken {A} (g : U A) c (Q Q' : A → usimp → Prop) : (∀ a c', Q a c' → Q' a c') → wp g c Q → wp g c Q'.
Proof. intros HQ Hg w Hw. destruct (Hg w Hw) as (a & w' & E & Ha). exists a, w'. auto. Qed.

(** ** Objects *)
Lemma wp_alloc k o c Q : (∀ h, uanswer h (Kzalloc k) ≠ 0) →
  (let a := fresh (dom (mem c)) in mem c !! a = None → Q (Some a) (set_mem (<[a := o]> (mem c)) c)) → wp (alloc k o) c Q.
Proof.
  intros Hk HQ. unfold alloc. apply wp_bind, wp_ucall. intros h. rewrite decide_False by apply Hk.
  apply wp_bind, wp_gets; [done|]. apply wp_bind, wp_modify; [done|]. apply wp_ret. apply HQ, not_elem_of_dom, is_fresh.
Qed.
Lemma wp_no_memory k o c (Q : option nat → usimp → Prop) : (∀ h, uanswer h (Kzalloc k) = 0) → Q None c → wp (alloc k o) c Q.
Proof. intros Hk HQ. unfold alloc. apply wp_bind, wp_ucall. intros h. rewrite decide_True by apply Hk. by apply wp_ret. Qed.
Lemma wp_get_obj a o c Q : mem c !! a = Some o → Q o c → wp (get_obj a) c Q.
Proof. intros Ha HQ. unfold get_obj. apply wp_bind, wp_gets; [done|]. by apply wp_lift with o. Qed.
Lemma get_obj_eq a o w : mem w !! a = Some o → get_obj a w = Some (o, w).
Proof. intros Ha. unfold get_obj. rewrite M_bind_eq. cbn [gets]. by rewrite Ha. Qed.
Lemma get_obj_gone a w : mem w !! a = None → get_obj a w = None.
Proof. intros Ha. unfold get_obj. rewrite M_bind_eq. cbn [gets]. by rewrite Ha. Qed.
Lemma wp_kfree a o c Q : mem c !! a = Some o → Q tt (set_mem (delete a (mem c)) c) → wp (kfree a) c Q.
Proof. intros Ha HQ. unfold kfree. apply wp_bind, wp_get_obj with o; [done|]. apply wp_bind, wp_ucall_. by apply wp_modify. Qed.
Lemma wp_free_both d s od os r c (Q : Z → usimp → Prop) : mem c !! d = Some od → mem c !! s = Some os → d ≠ s →
  Q r (set_mem (delete s (delete d (mem c))) c) → wp (free_both d s r) c Q.
Proof.
  intros Hd Hs Hne HQ. unfold free_both. apply wp_bind, (wp_kfree _ od); [done|].
  apply wp_bind, (wp_kfree _ os); [cbn [mem set_mem]; by rewrite lookup_delete_ne|]. by apply wp_ret.
Qed.

(** ** The probe up to the character device *)

(** Memory and addresses are there. *)
Definition has_memory (k : what) : Prop := ∀ h, uanswer h (Kzalloc k) ≠ 0.
(** The objects of a probe from [w]. *)
Record probed (w : usimp) (dev sim : nat) (c : usimp) : Prop := {
  p_dev : mem w !! dev = None; p_sim : mem w !! sim = None; p_ne : dev ≠ sim;
  p_core : c = set_usim_priv (Some dev) (set_mem (<[dev := UsimDev (Some sim)]> (<[sim := SimStr 0 0]> (<[dev := UsimDev None]> (mem w)))) (core w)) }.

Lemma wp_probe w (Q : Z → usimp → Prop) : has_memory TheDev → has_memory TheSim → usim_regs_addr ≠ 0 → usim_phy_add ≠ 0 →
  (∀ dev sim c, probed w dev sim c → wp (x ← alloc TheData (DeviceData dev);
     match x with
     | None => free_both dev sim (- ENOMEM)
     | Some data =>
         _ ← modify (set_data_g (Some data));
         ret ← create_usim_cdev data;
         if decide (ret < 0) then free_both dev sim ret else
         _ ← modify (λ w, set_mem (<[sim := SimStr USIM_STATE_INVALIDATED USIM_STATE_INVALIDATED]> (mem w)) w);
         mret ret
     end) c Q) →
  wp (gul_usim_probe 0) (core w) Q.
Proof.
  intros Hd Hs Hr Hp HQ. unfold gul_usim_probe. rewrite decide_False by lia.
  apply wp_bind, wp_alloc; [done|]. intros dev Hdev. apply wp_bind, wp_alloc; [done|]. intros sim Hsim.
  rewrite !decide_False by done. apply wp_bind, wp_modify; [done|]. apply wp_bind, wp_modify; [done|]. apply wp_bind, wp_ucall_.
  apply HQ. cbn [mem set_mem core] in *. apply lookup_insert_None in Hsim as [Hsim Hne]. split; done.
Qed.

(** ** The character device *)

Lemma list_max_fresh l : S (list_max l) ∉ l.
Proof. intros Hin. assert (Hm := proj1 (list_max_le l (list_max l)) ltac:(lia)). rewrite Forall_forall in Hm. specialize (Hm _ Hin). lia. Qed.

(** With a class [p], the numbers, the node and the device of the character device. *)
Record made (data : nat) (p : class_ptr) (node : bool) (c c' : usimp) : Prop := {
  m_mem : mem c' = mem c; m_priv : usim_priv c' = usim_priv c; m_data : usim_dev_data_g c' = usim_dev_data_g c;
  m_class : usim_dev_class c' = p; m_classes : classes c' = match p with CPtr n => n :: classes c | _ => classes c end;
  m_fresh : match p with CPtr n => n ∉ classes c | _ => True end;
  m_num : usim_dev_num c' = chrdev; m_regions : regions c' = chrdev :: regions c;
  m_nodes : nodes c' = if node then chrdev :: nodes c else nodes c; m_cdevs : cdevs c' = data :: cdevs c;
  m_event : g_poll_timer_event c' = g_poll_timer_event c }.

Lemma wp_create data c (Q : Z → usimp → Prop) (e : bool) : (∀ h, if e then uanswer h ClassCreate < 0 else 0 < uanswer h ClassCreate) →
  (∀ h, 0 ≤ uanswer h AllocChrdev) → (∀ h, uanswer h (CdevAdd data) = 0) → (∀ h, uanswer h DeviceCreate ≠ 0) →
  (∀ r p node c', 0 ≤ r → (p = CErr ↔ e = true) → p ≠ CNull → ((∀ h, uanswer h DeviceCreate < 0) → node = false) →
     ((∀ h, 0 < uanswer h DeviceCreate) → node = true) → made data p node c c' → Q r c') →
  wp (create_usim_cdev data) c Q.
Proof.
  intros Hc Ha Hd Hn HQ. unfold create_usim_cdev. apply wp_bind. unfold class_create. apply wp_bind, wp_ucall. intros h.
  assert (Hrest : ∀ p c1, (p = CErr ↔ e = true) → p ≠ CNull →
    c1 = set_class p (match p with CPtr n => n :: classes c | _ => classes c end) c → match p with CPtr n => n ∉ classes c | _ => True end →
    wp (if decide (p = CNull) then _ ← unregister_chrdev_region; mret (-1) else
      ret ← ucall AllocChrdev;
      if decide (ret < 0) then mret ret else
      _ ← modify (λ w, set_regions chrdev (chrdev :: regions w) w);
      added ← ucall (CdevAdd data);
      _ ← (if decide (added = 0) then modify (λ w, set_ucdevs (data :: cdevs w) w) else mret tt);
      node ← device_create;
      if decide (node = 0) then _ ← class_destroy; _ ← unregister_chrdev_region; mret ret else mret ret) c1 Q).
  { intros p c1 Hp Hnull -> Hfresh. rewrite decide_False by done. apply wp_bind, wp_ucall. intros h1. rewrite decide_False by (apply Z.le_ngt, Ha).
    apply wp_bind, wp_modify; [done|]. apply wp_bind, wp_ucall. intros h2. rewrite decide_True by apply Hd.
    apply wp_bind, wp_modify; [done|]. apply wp_bind. unfold device_create.
    apply wp_bind, wp_gets; [done|]. apply wp_bind, wp_gets; [done|]. cbn [usim_dev_class classes set_class set_regions set_ucdevs].
    assert (El : (match p with CPtr _ => negb (class_alive p (match p with CPtr n => n :: classes c | _ => classes c end)) | _ => false end) = false).
    { destruct p; [done|done|]. cbn. rewrite bool_decide_eq_true_2; [done|by left]. }
    rewrite El. apply wp_bind, wp_ucall. intros h3. apply wp_bind, wp_gets; [done|]. cbn [usim_dev_num set_class set_regions set_ucdevs].
    apply wp_bind. destruct (decide (0 < uanswer h3 DeviceCreate)) as [Hpos|Hneg].
    - apply wp_modify; [done|]. apply wp_ret. rewrite decide_False by apply Hn. apply wp_ret.
      apply HQ with p true; [apply Ha|done|done|intros Hx; specialize (Hx h3); lia|done|]. by split.
    - apply wp_ret, wp_ret. rewrite decide_False by apply Hn. apply wp_ret.
      apply HQ with p false; [apply Ha|done|done|done|intros Hx; specialize (Hx h3); lia|]. by split. }
  specialize (Hc h). destruct e.
  - rewrite decide_False by lia. rewrite decide_True by lia. apply wp_bind, wp_modify; [done|]. apply wp_ret. by apply Hrest.
  - rewrite decide_False by lia. rewrite decide_False by lia. apply wp_bind, wp_gets; [done|]. apply wp_bind, wp_modify; [done|]. apply wp_ret.
    apply Hrest; [done|done|done|apply list_max_fresh].
Qed.

(** ** Undefined runs *)
Lemma bind_none {A B} (g : U A) (k : A → U B) w : (∀ a w', g w = Some (a, w') → k a w' = None) → (g ≫= k) w = None.
Proof. intros Hk. rewrite M_bind_eq. destruct (g w) as [[a w']|] eqn:E; [by apply Hk|done]. Qed.
Lemma ucall_mem x : keeps mem (ucall x).
Proof. by intros w a w' [= _ <-]. Qed.
Lemma ucall__mem x : keeps mem (ucall_ x).
Proof. by intros w a w' [= _ <-]. Qed.
#[local] Hint Resolve ucall_mem ucall__mem : keeps.
Lemma device_destroy_mem : keeps mem device_destroy.
Proof. unfold device_destroy. keeps_tac. Qed.
Lemma class_destroy_mem : keeps mem class_destroy.
Proof. unfold class_destroy. keeps_tac. Qed.
Lemma unregister_mem : keeps mem unregister_chrdev_region.
Proof. unfold unregister_chrdev_region. keeps_tac. Qed.
(** A removal with a device that is gone. *)
Lemma remove_dangling dev w : usim_priv w = Some dev → mem w !! dev = None → gul_usim_remove 0 w = None.
Proof.
  intros Hp Hm. unfold gul_usim_remove. rewrite decide_False by lia. rewrite M_bind_eq. cbn [gets]. rewrite Hp.
  apply bind_none. intros [] w1 E1%device_destroy_mem. apply bind_none. intros [] w2 E2%class_destroy_mem.
  apply bind_none. intros [] w3 E3%unregister_mem. rewrite M_bind_eq, get_obj_gone; [done|]. by rewrite E3, E2, E1.
Qed.
Lemma device_of_gone data dev w : mem w !! data = Some (DeviceData dev) → mem w !! dev = None → device_of data w = None.
Proof.
  intros Hd Hm. unfold device_of. rewrite M_bind_eq, (get_obj_eq _ _ _ Hd), M_bind_eq. cbn [lift].
  unfold the_sim_of. by rewrite !M_bind_eq, get_obj_gone.
Qed.

(** ** Probe and removal *)

(** Everything a probe asks for is there. *)
Record kernel_ok : Prop := {
  k_dev : has_memory TheDev; k_sim : has_memory TheSim; k_data : has_memory TheData; k_regs : usim_regs_addr ≠ 0; k_phy : usim_phy_add ≠ 0;
  k_class : ∀ h, 0 < uanswer h ClassCreate; k_alloc : ∀ h, 0 ≤ uanswer h AllocChrdev; k_cdev : ∀ h a, uanswer h (CdevAdd a) = 0;
  k_node : ∀ h, 0 < uanswer h DeviceCreate }.

(** What a probe that succeeds leaves: the three objects, and the character device. *)
Record probe_made (w : usimp) (dev sim data : nat) (p : class_ptr) (node : bool) (c : usimp) : Prop := {
  q_new : mem w !! dev = None ∧ mem w !! sim = None ∧ mem w !! data = None ∧ dev ≠ sim ∧ dev ≠ data ∧ sim ≠ data;
  q_mem : mem c = <[sim := SimStr USIM_STATE_INVALIDATED USIM_STATE_INVALIDATED]> (<[data := DeviceData dev]>
            (<[dev := UsimDev (Some sim)]> (<[sim := SimStr 0 0]> (<[dev := UsimDev None]> (mem w)))));
  q_priv : usim_priv c = Some dev;
  q_class : usim_dev_class c = p ∧ classes c = match p with CPtr n => n :: classes w | _ => classes w end ∧
    match p with CPtr n => n ∉ classes w | _ => True end;
  q_num : usim_dev_num c = chrdev; q_regions : regions c = chrdev :: regions w;
  q_nodes : nodes c = if node then chrdev :: nodes w else nodes w; q_cdevs : cdevs c = data :: cdevs w }.

Lemma wp_probe_made w (e : bool) : has_memory TheDev → has_memory TheSim → has_memory TheData → usim_regs_addr ≠ 0 → usim_phy_add ≠ 0 →
  (∀ h, if e then uanswer h ClassCreate < 0 else 0 < uanswer h ClassCreate) → (∀ h, 0 ≤ uanswer h AllocChrdev) → (∀ h a, uanswer h (CdevAdd a) = 0) →
  (∀ h, uanswer h DeviceCreate ≠ 0) →
  wp (gul_usim_probe 0) (core w) (λ r c, 0 ≤ r ∧ ∃ dev sim data p node, probe_made w dev sim data p node c ∧ (p = CErr ↔ e = true) ∧ p ≠ CNull ∧
    ((∀ h, uanswer h DeviceCreate < 0) → node = false) ∧ ((∀ h, 0 < uanswer h DeviceCreate) → node = true)).
Proof.
  intros Hd Hs Hx Hr Hp Hc Ha Hcd Hn. apply wp_probe; [done..|]. intros dev sim c [Pd Ps Pne ->].
  apply wp_bind, wp_alloc; [done|]. intros data Hdata. cbn [mem set_mem set_usim_priv] in *.
  apply lookup_insert_None in Hdata as [Hdata Hne1]. apply lookup_insert_None in Hdata as [Hdata Hne2].
  apply lookup_insert_None in Hdata as [Hdata _].
  apply wp_bind, wp_modify; [done|]. apply wp_bind, wp_create with e; [done|done|done|done|].
  intros r p node c' Hr0 Hpe Hpn Hnf Hnt [M1 M2 M3 M4 M5 M6 M7 M8 M9 M10 M11]. rewrite decide_False by lia.
  apply wp_bind, wp_modify; [done|]. apply wp_ret. split; [done|]. exists dev, sim, data, p, node.
  cbn [mem usim_priv usim_dev_data_g usim_dev_class usim_dev_num classes regions nodes cdevs set_mem set_usim_priv set_data_g core] in *.
  split; [|done]. split; cbn [mem usim_priv usim_dev_class usim_dev_num classes regions nodes cdevs]; try done. by rewrite M1.
Qed.

Lemma filter_fresh {A} `{EqDecision A} (x : A) l : x ∉ l → filter (.≠ x) (x :: l) = l.
Proof.
  intros Hx. rewrite filter_cons_False by tauto. induction l as [|y l IH]; [done|]. apply not_elem_of_cons in Hx as [Hy Hx].
  rewrite filter_cons_True by done. by rewrite IH.
Qed.

(** A probe and the removal give back the class, the numbers, the node, the device and
    its structure, and nothing else: the memory of the character device stays allocated,
    the character device registered, and an open of it uses the device that was freed. *)
Theorem usim_remove_leaks (w : usimp) : kernel_ok → chrdev ∉ regions w → chrdev ∉ nodes w →
  ∃ r w1 w2 dev sim data, gul_usim_probe 0 w = Some (r, w1) ∧ 0 ≤ r ∧ device_of data w1 = Some ((dev, sim), w1) ∧
    gul_usim_remove 0 w1 = Some (0, w2) ∧ usim_priv w2 = None ∧ classes w2 = classes w ∧ regions w2 = regions w ∧ nodes w2 = nodes w ∧
    mem w2 = <[data := DeviceData dev]> (mem w) ∧ mem w !! data = None ∧ cdevs w2 = data :: cdevs w ∧ device_of data w2 = None.
Proof.
  intros [Hd Hs Hx Hr Hp Hc Ha Hcd Hn] Hreg Hnod.
  destruct (wp_probe_made w false Hd Hs Hx Hr Hp Hc Ha Hcd (λ h, not_eq_sym (Z.lt_neq _ _ (Hn h))) w eq_refl)
    as (r & w1 & E1 & Hr0 & dev & sim & data & p & node & [(N1 & N2 & N3 & N4 & N5 & N6) Qm Qp (Qc1 & Qc2 & Qc3) Qn Qr Qno Qcd] & Hpe & Hpn & _ & Hnode).
  rewrite (Hnode Hn) in *. destruct p as [| |n]; [done|by assert (false = true) by (by apply Hpe)|].
  cbn [mem usim_priv usim_dev_class usim_dev_num classes regions nodes cdevs core] in *.
  assert (Ms : mem w1 !! sim = Some (SimStr USIM_STATE_INVALIDATED USIM_STATE_INVALIDATED)) by (by rewrite Qm, lookup_insert_eq).
  assert (Md : mem w1 !! data = Some (DeviceData dev)) by (rewrite Qm, lookup_insert_ne, lookup_insert_eq; done).
  assert (Mv : mem w1 !! dev = Some (UsimDev (Some sim))) by (rewrite Qm, lookup_insert_ne, lookup_insert_ne, lookup_insert_eq; done).
  assert (Hrem : wp (gul_usim_remove 0) (core w1) (λ z c, z = 0 ∧ usim_priv c = None ∧ classes c = classes w ∧ regions c = regions w ∧ nodes c = nodes w ∧
    mem c = <[data := DeviceData dev]> (mem w) ∧ cdevs c = data :: cdevs w)).
  { unfold gul_usim_remove. rewrite decide_False by lia. apply wp_bind, wp_gets; [done|]. cbn [usim_priv core]. rewrite Qp.
    assert (Hin : n ∈ classes w1) by (rewrite Qc2; by left).
    apply wp_bind. unfold device_destroy. apply wp_bind, wp_gets; [done|]. apply wp_bind, wp_gets; [done|]. cbn [usim_dev_class classes core]. rewrite Qc1.
    cbn [class_alive]. rewrite bool_decide_eq_true_2 by done. apply wp_bind, wp_ucall_. apply wp_bind, wp_gets; [done|]. apply wp_modify; [done|].
    apply wp_bind. unfold class_destroy. apply wp_bind, wp_ucall_. apply wp_bind, wp_gets; [done|]. apply wp_bind, wp_gets; [done|].
    cbn [usim_dev_class usim_dev_num nodes classes core set_nodes]. rewrite Qc1, decide_True by done. apply wp_modify; [done|].
    apply wp_bind. unfold unregister_chrdev_region. apply wp_bind, wp_gets; [done|]. apply wp_bind, wp_ucall_. apply wp_modify; [done|].
    cbn [usim_dev_num regions core set_nodes set_class]. rewrite Qn, Qc2, Qno, Qr, !filter_fresh by done.
    apply wp_bind, wp_get_obj with (UsimDev (Some sim)); [done|]. apply wp_bind, wp_ucall_.
    apply wp_bind. unfold the_sim_of. apply wp_bind, wp_get_obj with (UsimDev (Some sim)); [done|]. apply wp_lift with sim; [done|].
    apply wp_bind, (wp_kfree _ (SimStr USIM_STATE_INVALIDATED USIM_STATE_INVALIDATED)); [done|].
    apply wp_bind, (wp_kfree _ (UsimDev (Some sim))); [cbn [mem set_mem set_regions set_class set_nodes core]; by rewrite lookup_delete_ne|].
    apply wp_bind, wp_modify; [done|]. apply wp_ret. do 5 (split; [done|]).
    cbn [mem set_mem set_regions set_class set_nodes set_usim_priv core cdevs]. split; [|done]. rewrite Qm.
    apply map_eq. intros i. destruct (decide (i = dev)) as [->|Hi1]; [by rewrite lookup_delete_eq, lookup_insert_ne|].
    rewrite lookup_delete_ne by done. destruct (decide (i = sim)) as [->|Hi2]; [by rewrite lookup_delete_eq, lookup_insert_ne|].
    rewrite lookup_delete_ne, lookup_insert_ne by done. destruct (decide (i = data)) as [->|Hi3]; [by rewrite !lookup_insert_eq|].
    by rewrite !lookup_insert_ne. }
  destruct (Hrem w1 eq_refl) as (z & w2 & E2 & -> & R1 & R2 & R3 & R4 & R5 & R6).
  cbn [mem usim_priv classes regions nodes cdevs core] in *. exists r, w1, w2, dev, sim, data.
  split; [done|]. split; [done|]. split.
  { unfold device_of. rewrite M_bind_eq, (get_obj_eq _ _ _ Md), M_bind_eq. cbn [lift]. unfold the_sim_of.
    by rewrite !M_bind_eq, (get_obj_eq _ _ _ Mv). }
  do 8 (split; [done|]). apply device_of_gone with dev; [by rewrite R5, lookup_insert_eq|by rewrite R5, lookup_insert_ne].
Qed.

(** A probe that finds no memory for the character device, or no numbers, frees the
    device it has given to the modem: the modem keeps it, and the removal uses it. *)
Theorem failed_usim_probe_dangles (w : usimp) : has_memory TheDev → has_memory TheSim → usim_regs_addr ≠ 0 → usim_phy_add ≠ 0 →
  (∀ h, uanswer h (Kzalloc TheData) = 0) ∨
    (has_memory TheData ∧ (∀ h, 0 < uanswer h ClassCreate) ∧ ∀ h, uanswer h AllocChrdev < 0) →
  ∃ r w1 dev, gul_usim_probe 0 w = Some (r, w1) ∧ r < 0 ∧ usim_priv w1 = Some dev ∧ mem w1 !! dev = None ∧ gul_usim_remove 0 w1 = None.
Proof.
  intros Hd Hs Hr Hp Hfail.
  assert (Hwp : wp (gul_usim_probe 0) (core w) (λ r c, r < 0 ∧ ∃ dev, usim_priv c = Some dev ∧ mem c !! dev = None)).
  { apply wp_probe; [done..|]. intros dev sim c [Pd Ps Pne ->]. apply wp_bind.
    destruct Hfail as [Hno|(Hx & Hc & Ha)].
    - apply wp_no_memory; [done|]. eapply wp_free_both; [cbn; by rewrite lookup_insert_eq|cbn; by rewrite lookup_insert_ne, lookup_insert_eq|done|].
      split; [done|]. exists dev. split; [done|]. cbn. by rewrite lookup_delete_ne, lookup_delete_eq.
    - apply wp_alloc; [done|]. intros data Hdata. cbn [mem set_mem set_usim_priv core] in *.
      apply lookup_insert_None in Hdata as [Hdata Hne1]. apply lookup_insert_None in Hdata as [Hdata Hne2].
      apply wp_bind, wp_modify; [done|]. apply wp_bind. unfold create_usim_cdev. apply wp_bind. unfold class_create.
      apply wp_bind, wp_ucall. intros h. specialize (Hc h). rewrite decide_False, decide_False by lia.
      apply wp_bind, wp_gets; [done|]. apply wp_bind, wp_modify; [done|]. apply wp_ret. rewrite decide_False by done.
      apply wp_bind, wp_ucall. intros h1. specialize (Ha h1). rewrite decide_True by done. apply wp_ret. rewrite decide_True by done.
      eapply wp_free_both; cbn [mem set_mem set_class set_data_g set_usim_priv core].
      + by rewrite lookup_insert_ne, lookup_insert_eq.
      + rewrite lookup_insert_ne, lookup_insert_ne by done. by rewrite lookup_insert_eq.
      + done.
      + split; [done|]. exists dev. split; [done|]. cbn. by rewrite lookup_delete_ne, lookup_delete_eq. }
  destruct (Hwp w eq_refl) as (r & w1 & E & Hr0 & dev & Hpr & Hm). exists r, w1, dev. split; [done|]. split; [done|].
  split; [done|]. split; [done|]. by apply remove_dangling with dev.
Qed.

(** An error of [class_create], or of [device_create], is no error of the probe: it
    succeeds without a node, and with the class an error pointer the removal uses it. *)
Theorem usim_error_pointers (w : usimp) (e : bool) : has_memory TheDev → has_memory TheSim → has_memory TheData →
  usim_regs_addr ≠ 0 → usim_phy_add ≠ 0 → (∀ h, if e then uanswer h ClassCreate < 0 else 0 < uanswer h ClassCreate) →
  (∀ h, 0 ≤ uanswer h AllocChrdev) → (∀ h a, uanswer h (CdevAdd a) = 0) → (∀ h, uanswer h DeviceCreate < 0) →
  ∃ r w1, gul_usim_probe 0 w = Some (r, w1) ∧ 0 ≤ r ∧ nodes w1 = nodes w ∧ (e = true → gul_usim_remove 0 w1 = None).
Proof.
  intros Hd Hs Hx Hr Hp Hc Ha Hcd Hn.
  destruct (wp_probe_made w e Hd Hs Hx Hr Hp Hc Ha Hcd (λ h, Z.lt_neq _ _ (Hn h)) w eq_refl)
    as (r & w1 & E1 & Hr0 & dev & sim & data & p & node & [_ _ Qp (Qc1 & _ & _) _ _ Qno _] & Hpe & _ & Hnode & _).
  rewrite (Hnode Hn) in Qno. exists r, w1. split; [done|]. split; [done|]. split; [done|]. intros He.
  apply Hpe in He as ->. unfold gul_usim_remove. rewrite decide_False by lia. rewrite M_bind_eq. cbn [gets].
  cbn [usim_priv usim_dev_class core] in *. rewrite Qp. rewrite M_bind_eq. unfold device_destroy. rewrite M_bind_eq. cbn [gets].
  rewrite M_bind_eq. cbn [gets]. by rewrite Qc1.
Qed.

(** ** Waiting *)

(** The operations of the driver in the build without the timer. *)
Inductive usim_op := OpProbe (id : Z) | OpRemove (id : Z) | OpRead (data : nat) (count : Z) | OpPoll (data : nat) | OpFasync (data : nat) (fd mode : Z).
Definition do_usim (o : usim_op) : U unit :=
  match o with
  | OpProbe id => _ ← gul_usim_probe id; mret tt
  | OpRemove id => _ ← gul_usim_remove id; mret tt
  | OpRead data count => _ ← sim_read data count; mret tt
  | OpPoll data => _ ← sim_poll data; mret tt
  | OpFasync data fd mode => _ ← sim_fasync data fd mode; mret tt
  end.
(** Nothing that ran sets the event. *)
Definition unset {A} (g : U A) : Prop := ∀ w a w', g w = Some (a, w') → g_poll_timer_event w = false → g_poll_timer_event w' = false.
Lemma unset_bind {A B} (g : U A) (k : A → U B) : unset g → (∀ a, unset (k a)) → unset (g ≫= k).
Proof. intros Hg Hk w b w' (a & w1 & H1 & H2)%M_bind_Some Hw. eapply Hk; [exact H2|]. by eapply Hg. Qed.
Lemma unset_keeps {A} (g : U A) : keeps g_poll_timer_event g → unset g.
Proof. intros Hg w a w' E Hw. by rewrite (Hg _ _ _ E). Qed.
Lemma ucall_event x : keeps g_poll_timer_event (ucall x).
Proof. by intros w a w' [= _ <-]. Qed.
Lemma ucall__event x : keeps g_poll_timer_event (ucall_ x).
Proof. by intros w a w' [= _ <-]. Qed.
#[local] Hint Resolve ucall_event ucall__event : keeps.
Lemma device_of_event data : keeps g_poll_timer_event (device_of data).
Proof. unfold device_of, the_sim_of, get_obj. keeps_tac. Qed.
#[local] Hint Resolve device_of_event : keeps.
Lemma wait_unset {A} (k : U A) : keeps g_poll_timer_event k → unset (wait_event k).
Proof.
  intros Hk. unfold wait_event. apply unset_bind; [apply unset_keeps; keeps_tac|]. intros e.
  apply unset_bind; [apply unset_keeps; keeps_tac|]. intros s. destruct (negb e && _); [apply unset_keeps; keeps_tac|].
  apply unset_bind; [by intros w a w' [= _ <-]|]. intros _. apply unset_keeps. apply keeps_bind; [done|]. intros a. apply keeps_ret.
Qed.
Lemma op_unset o : unset (do_usim o).
Proof.
  destruct o as [id|id|data count|data|data fd mode]; cbn [do_usim]; (apply unset_bind; [|intros ?; apply unset_keeps; keeps_tac]).
  - apply unset_keeps. unfold gul_usim_probe, free_both, kfree, create_usim_cdev, class_create, class_destroy, device_create, unregister_chrdev_region, alloc, get_obj. keeps_tac.
  - apply unset_keeps. unfold gul_usim_remove, the_sim_of, kfree, device_destroy, class_destroy, unregister_chrdev_region, get_obj. keeps_tac.
  - unfold sim_read. apply unset_bind; [apply unset_keeps; keeps_tac|]. intros [d s]. apply wait_unset. unfold copy_from_status, get_obj. keeps_tac.
  - unfold sim_poll. apply unset_bind; [apply unset_keeps; keeps_tac|]. intros [d s]. apply wait_unset. keeps_tac.
  - apply unset_keeps. unfold sim_fasync. keeps_tac.
Qed.
Definition do_usim_all (l : list usim_op) : U unit := foldr (λ o k, _ ← do_usim o; k) (mret tt) l.

(** In the build without the timer nothing sets the event read and poll wait for:
    after any operations a read and a poll of an open device that no signal ends sleep
    for ever. *)
Theorem read_sleeps (l : list usim_op) (w : usimp) (data dev sim : nat) (count : Z) :
  do_usim_all l usimp_0 = Some (tt, w) → mem w !! data = Some (DeviceData dev) → mem w !! dev = Some (UsimDev (Some sim)) → uanswer (ulog w) Wait = 0 →
  ∃ w', sim_read data count w = Some (Sleeps, w') ∧ sim_poll data w = Some (Sleeps, w').
Proof.
  intros Hl Hd Hv Hs.
  assert (Hu : unset (do_usim_all l)).
  { clear Hl. induction l as [|o l IH]; [by intros v a v' [= _ <-]|]. apply unset_bind; [apply op_unset|done]. }
  assert (He : g_poll_timer_event w = false) by (by eapply Hu).
  assert (Ho : device_of data w = Some ((dev, sim), w)).
  { unfold device_of. rewrite M_bind_eq, (get_obj_eq _ _ _ Hd), M_bind_eq. cbn [lift]. unfold the_sim_of.
    by rewrite !M_bind_eq, (get_obj_eq _ _ _ Hv). }
  assert (Hw : ∀ A (k : U A), wait_event k w = Some (Sleeps, UsimP (mem w) (usim_priv w) (usim_dev_data_g w) (usim_dev_class w) (usim_dev_num w)
     (classes w) (regions w) (nodes w) (cdevs w) (g_poll_timer_event w) (ulog w ++ [(Wait, 0)]))).
  { intros A k. unfold wait_event. rewrite M_bind_eq. cbn [gets]. rewrite He. rewrite M_bind_eq. unfold ucall. rewrite Hs.
    rewrite He. cbn [negb andb]. by rewrite bool_decide_eq_true_2. }
  eexists. unfold sim_read, sim_poll. by rewrite !M_bind_eq, Ho, !Hw.
Qed.

(** What a read of more than the status gives away. *)
Lemma read_gives_more sim v last n w : mem w !! sim = Some (SimStr v last) → uanswer (ulog w) CopyToUser = 0 → 0 ≤ n ≤ zlen (behind_status (ulog w)) →
  ∃ w', copy_from_status sim (4 + n) w = Some ((SIM_OK, status_bytes (u32 v) ++ take (Z.to_nat n) (behind_status (ulog w))), w').
Proof.
  intros Hm Hc Hn. unfold copy_from_status. rewrite M_bind_eq, (get_obj_eq _ _ _ Hm), M_bind_eq. cbn [lift]. rewrite M_bind_eq. cbn [gets].
  assert (H4 : zlen (status_bytes (u32 v)) = 4) by done. rewrite decide_False.
  2: { rewrite zlen_app, H4. lia. }
  rewrite M_bind_eq. unfold ucall. rewrite Hc, decide_False by lia.
  eexists. cbn [mret M_ret]. assert (Hl : length (status_bytes (u32 v)) = 4%nat) by done.
  replace (Z.to_nat (4 + n)) with (length (status_bytes (u32 v)) + Z.to_nat n)%nat by lia. by rewrite take_app_add.
Qed.
End Runs.

(** ** The timer *)
Section Timer.
Context {C : Type} `{UsimHw C}.

(** The status the pin of the card stands for. *)
Lemma card_detect_runs (d : driver C) : ∃ d', usim_card_detect d = Some (tt, d') ∧
  status (sim d') = (if decide (Z.land (u32 (snd (hw_read (hw d) usim_port0_detect))) SIM_PORT_DETECT_SPDP ≠ 0) then USIM_STATE_DISCONNECTED else USIM_STATE_CONNECTED).
Proof.
  unfold usim_card_detect, detect_pin, detect_interrupt, clear_bits, set_bits, on_sim. rewrite M_bind_eq, M_bind_eq. unfold readl at 1.
  destruct (hw_read (hw d) usim_port0_detect) as [c v] eqn:Er. cbn [snd]. destruct (decide (Z.land (u32 v) SIM_PORT_DETECT_SPDP ≠ 0)) as [Hp|Hp].
  all: rewrite !M_bind_eq; unfold readl at 1; cbn [hw];
    match goal with |- context [hw_read ?x usim_port0_detect] => destruct (hw_read x usim_port0_detect) as [c2 v2] end;
    cbv [writel modify mret M_ret mbind M_bind hw sim]; unfold readl; cbn [hw];
    match goal with |- context [hw_read ?x usim_port0_detect] => destruct (hw_read x usim_port0_detect) as [c3 v3] end;
    eexists; split; reflexivity.
Qed.

(** The event is there after a tick exactly when the status changed, and a sleeper is
    woken exactly then; the timer runs on. *)
Theorem poll_timer_tick (w : timed C) : ∃ w', poll_timer w = Some (tt, w') ∧
  event w' = bool_decide (last_status w ≠ status (sim (reader w'))) ∧ last_status w' = status (sim (reader w')) ∧
  wakeups w' = (wakeups w + (if event w' then 1 else 0))%nat ∧ expires w' = expires w + 5000 ∧ timers w' = S (timers w).
Proof.
  destruct (card_detect_runs (reader w)) as (d' & E & _). unfold poll_timer, on_reader. rewrite M_bind_eq, E. rewrite M_bind_eq. cbn [modify].
  rewrite M_bind_eq. cbn [gets]. rewrite M_bind_eq. cbn [id last_status reader].
  destruct (decide (last_status w ≠ status (sim d'))) as [Hne|Heq]; cbn [modify mret M_ret]; eexists; (split; [reflexivity|]);
    cbn [event last_status reader wakeups expires timers].
  - rewrite bool_decide_eq_true_2 by done. do 3 (split; [done || lia|]). done.
  - rewrite bool_decide_eq_false_2 by done. apply dec_stable in Heq. do 3 (split; [done || lia|]). done.
Qed.
End Timer.

(** ** A kernel *)
Definition usim_demo (cls data : Z) : UsimCalls := {|
  uanswer h c := match c with ClassCreate => cls | Kzalloc TheData => data | Kzalloc _ => 1 | DeviceCreate => if decide (cls < 0) then -2 else 1 | _ => 0 end;
  behind_status _ := [7; 8]; chrdev := 240; usim_regs_addr := 1; usim_phy_add := 1 |}.

Lemma usim_remove_leaks_witness : ∃ r w1 w2 data,
  gul_usim_probe (H := usim_demo 1 1) 0 usimp_0 = Some (r, w1) ∧ 0 ≤ r ∧ gul_usim_remove (H := usim_demo 1 1) 0 w1 = Some (0, w2) ∧
  cdevs w2 = [data] ∧ device_of data w2 = None.
Proof.
  destruct (usim_remove_leaks (H := usim_demo 1 1) usimp_0) as (r & w1 & w2 & dev & sim & data & E1 & Hr & _ & E2 & _ & _ & _ & _ & _ & _ & Hc & Hd).
  - by split.
  - by apply not_elem_of_nil.
  - by apply not_elem_of_nil.
  - exists r, w1, w2, data. exact (conj E1 (conj Hr (conj E2 (conj Hc Hd)))).
Defined.
Lemma failed_usim_probe_dangles_witness : ∃ r w1 dev,
  gul_usim_probe (H := usim_demo 1 0) 0 usimp_0 = Some (r, w1) ∧ r < 0 ∧ usim_priv w1 = Some dev ∧ gul_usim_remove (H := usim_demo 1 0) 0 w1 = None.
Proof.
  destruct (failed_usim_probe_dangles (H := usim_demo 1 0) usimp_0) as (r & w1 & dev & E1 & Hr & Hp & _ & Hx); [done|done|done|done|by left|].
  exists r, w1, dev. exact (conj E1 (conj Hr (conj Hp Hx))).
Defined.
Lemma usim_error_pointers_witness : ∃ r w1,
  gul_usim_probe (H := usim_demo (-12) 1) 0 usimp_0 = Some (r, w1) ∧ 0 ≤ r ∧ nodes w1 = [] ∧ gul_usim_remove (H := usim_demo (-12) 1) 0 w1 = None.
Proof.
  destruct (usim_error_pointers (H := usim_demo (-12) 1) usimp_0 true) as (r & w1 & E1 & Hr & Hn & Hx); [done..|].
  exists r, w1. split; [exact E1|]. split; [exact Hr|]. split; [exact Hn|]. exact (Hx eq_refl).
Defined.

Lemma demo_probed : ∃ w data dev sim, do_usim_all (H := usim_demo 1 1) [OpProbe 0] usimp_0 = Some (tt, w) ∧
  mem w !! data = Some (DeviceData dev) ∧ mem w !! dev = Some (UsimDev (Some sim)).
Proof.
  destruct (wp_probe_made (H := usim_demo 1 1) usimp_0 false) with usimp_0
    as (r & w & E & _ & dev & sim & data & p & node & [(N1 & N2 & N3 & N4 & N5 & N6) Qm _ _ _ _ _ _] & _); [done..|].
  exists w, data, dev, sim. split.
  - unfold do_usim_all. cbn [foldr do_usim]. by rewrite !M_bind_eq, E.
  - cbn [mem core] in Qm. rewrite Qm. split; [by rewrite lookup_insert_ne, lookup_insert_eq|].
    by rewrite lookup_insert_ne, lookup_insert_ne, lookup_insert_eq.
Qed.
Lemma read_sleeps_witness : ∃ w w' data, do_usim_all (H := usim_demo 1 1) [OpProbe 0] usimp_0 = Some (tt, w) ∧
  sim_read (H := usim_demo 1 1) data 4 w = Some (Sleeps, w') ∧ sim_poll (H := usim_demo 1 1) data w = Some (Sleeps, w').
Proof.
  destruct demo_probed as (w & data & dev & sim & E & Hd & Hv).
  destruct (read_sleeps (H := usim_demo 1 1) [OpProbe 0] w data dev sim 4 E Hd Hv eq_refl) as (w' & H1 & H2). exists w, w', data. exact (conj E (conj H1 H2)).
Defined.
