(* ===== verification/GulVspa.v ===== *)
(** * The vector processors (kernel_driver/yami/gul_main_vspa.c)

    Each of the eight cores is loaded from an image of its own: the image is put
    into a scratch region, the table of sections is read from it, every section
    goes to the core by DMA or into overlay memory, and the core is started over
    its mailbox.  The DMA takes its data from the start of that same region, so
    a load overwrites the image it reads: both are the buffer [fw_mem].

    [None] is undefined behaviour, or a loop that does not end. *)
From S2P Require Import Prelude GulMsi GulImage GulScratch GulBoot.
From stdpp Require Import strings pretty.
#[global] Open Scope Z_scope.

(** ** Constants *)
Definition EPERM : Z := 1.
Definition EADDRNOTAVAIL : Z := 99.
Definition ETIME : Z := 62.
Definition ECOMM : Z := 70.
Definition EBADRQC : Z := 56.
Definition ETIMEDOUT : Z := 110.

Definition MAX_VSPA : nat := 8.
Definition VSPA_HALT_TIMEOUT : positive := 100000.
Definition VSPA_STARTUP_TIMEOUT : positive := 100000.
Definition VSPA_DMA_MAX_COUNTER : positive := 100.
Definition DMA_COMP_STAT_SET : Z := 1.
Definition MAX_DMA_TRANSFER : Z := 65536.
Definition PRAM_ADDR_MASK : Z := 0x0007FFFF.
Definition VSPA_DRAM_SIZE : Z := 0x00050000.
Definition DMA_BCNT_MASK : Z := 0x0001FFFF.
Definition CONTROL_REG_MASK : Z := lnot32 0x000100FF.
Definition CONTROL_PDN_EN : Z := 0x80000000.
Definition CONTROL_VCPU_RESET : Z := 0x10000.
Definition CONTROL_HOST_GO : Z := 1.
Definition MBOX_STATUS_IN_64_BIT : Z := 4.
Definition STATUS_REG_BUSY : Z := 0x100.
Definition VSPA_DMA_CHANNELS : Z := 32.
Definition GCC_MACH_CODE : Z := 0xBE.
Definition ISCAPE_MACH_CODE : Z := 0x40c8.
Definition GUL_PEBM_OVERLAY_BASE : Z := 0xE0380000.
Definition GUL_PEBM_BASE_ADDR : Z := 0xE0200000.
Definition GUL_FECA_BASE_ADDR : Z := 0xE5000000.
Definition MW_INFO_TYPE_14 : Z := 14.
Definition MW_INFO_TYPE_15 : Z := 15.
Definition DMEM_NC : Z := 0.
Definition PRAM : Z := 0x200.
Definition IPPUPRAM : Z := 0x300.
Definition AXI_NC : Z := 0x600.
Definition NO_LOAD : Z := 0xFFFFFFFF.
Definition LIBVSPA_ERR_EIO : Z := 5.
Definition LIBVSPA_ERR_ENOMEM : Z := 12.
Definition LIBVSPA_ERR_EINVOFFSET : Z := 17.
Definition VSPA_MSG_ALL : Z := 0xFFF0.
Definition VSPA_WATCHDOG_INTERVAL_DEFAULT : Z := 1000.
Definition VSPA_WARMUP_FW_NAME_PREFIX : string := "geul-vspa-warmup".

(** The bytes of an ASCII literal. *)
Definition chars (s : string) : list Z := (λ c, Z.of_nat (Ascii.nat_of_ascii c)) <$> String.list_ascii_of_string s.

(** The sections that are not sent by DMA, by the start of their names. *)
Definition vspa_loadable_section : list string := [".sync_"; ".slot_"; ".pebm_"; ".hram_"; "pebm_"].

(** ** Registers of a core, and of its debug block *)
Inductive vspa_reg :=
  | SWVERSION_REG | HWVERSION_REG | CONTROL_REG | IRQEN_REG | STATUS_REG | HOST_FLAGS0_REG | HOST_FLAGS1_REG
  | PARAM0_REG | PARAM1_REG | PARAM2_REG | DMA_DMEM_ADDR_REG | DMA_AXI_ADDR_REG | DMA_BYTE_CNT_REG
  | DMA_XFR_CTRL_REG | DMA_STAT_ABORT_REG | DMA_COMP_STAT_REG | DMA_XFRERR_STAT_REG | DMA_CFGERR_STAT_REG
  | VCPU_GO_ADDR_REG | HOST_OUT_64_MSB_REG | HOST_OUT_64_LSB_REG | HOST_IN_64_MSB_REG | HOST_IN_64_LSB_REG
  | HOST_MBOX_STATUS_REG | IPPU_HWVERSION_REG | IPPU_SWVERSION_REG
  | DBG_FIRST_REG | DBG_GDBEN_REG | DBG_RCR_REG | DBG_RCSTATUS_REG | DBG_RAVAP_REG | DBG_DVR_REG.

(** The hardware: an access of a register of core [n]; the DMA reads [fw_mem]. *)
Class VspaHw (H : Type) := {
  vspa_reg_read : nat → vspa_reg → buffer → H → Z * H;
  vspa_reg_write : nat → vspa_reg → Z → buffer → H → H }.

(** ** The state *)
Inductive vspa_state :=
  | VSPA_STATE_UNKNOWN | VSPA_STATE_POWER_DOWN | VSPA_STATE_STARTUP_ERR | VSPA_STATE_UNPROGRAMMED_IDLE
  | VSPA_STATE_UNPROGRAMMED_BUSY | VSPA_STATE_LOADING | VSPA_STATE_RUNNING_IDLE | VSPA_STATE_RUNNING_BUSY.
#[export] Instance vspa_state_eq : EqDecision vspa_state.
Proof. solve_decision. Defined.

(** The pointer to the section map: NULL, an array, or one that was freed. *)
Inductive section_map := NullMap | Map (b : buffer) | FreedMap.

Record vspa_section_info := SecInfo {
  vspa_sec_count : Z; memspace_map : buffer; vspa_memspace_count : Z; section_memspace_map : section_map }.
(** [memset(.., 0, ..)] and [kzalloc]. *)
(** Four entries of 36 bytes. *)
Definition zero_info : vspa_section_info := SecInfo 0 (zeros 144) 0 NullMap.

Record vspa_hardware := Hardware {
  param0 : Z; param1 : Z; param2 : Z; axi_data_width : Z; dma_channels : Z; gp_out_regs : Z; gp_in_regs : Z;
  dmem_bytes : Z; ippu_bytes : Z; arithmetic_units : Z }.

Record vspa_versions := Versions {
  vspa_hw_version : Z; ippu_hw_version : Z; vspa_sw_version : Z; ippu_sw_version : Z }.
Record dma_chans := Chans { spm_dma_chan : Z; bulk_dma_chan : Z; reply_dma_chan : Z; cmd_dma_chan : Z }.

(** [dma_vaddr] is the place of the staging area in [fw_mem]. *)
Record vspa_device := VspaDev {
  state : vspa_state; eld_filename : string; versions : vspa_versions; hardware : vspa_hardware;
  watchdog_interval_msecs : Z; poll_mask : Z; vspa_loading_count : Z; spm_buf_bytes : Z; spm_buf_paddr : Z;
  chans : dma_chans; legacy_cmd_dma_chan : Z; dma_vaddr : Z; vspa_sec_info : vspa_section_info }.

Definition set_state (v : vspa_state) (d : vspa_device) : vspa_device :=
  VspaDev v (eld_filename d) (versions d) (hardware d) (watchdog_interval_msecs d) (poll_mask d)
    (vspa_loading_count d) (spm_buf_bytes d) (spm_buf_paddr d) (chans d) (legacy_cmd_dma_chan d) (dma_vaddr d)
    (vspa_sec_info d).
Definition set_eld (v : string) (d : vspa_device) : vspa_device :=
  VspaDev (state d) v (versions d) (hardware d) (watchdog_interval_msecs d) (poll_mask d) (vspa_loading_count d)
    (spm_buf_bytes d) (spm_buf_paddr d) (chans d) (legacy_cmd_dma_chan d) (dma_vaddr d) (vspa_sec_info d).
Definition set_versions (v : vspa_versions) (d : vspa_device) : vspa_device :=
  VspaDev (state d) (eld_filename d) v (hardware d) (watchdog_interval_msecs d) (poll_mask d)
    (vspa_loading_count d) (spm_buf_bytes d) (spm_buf_paddr d) (chans d) (legacy_cmd_dma_chan d) (dma_vaddr d)
    (vspa_sec_info d).
Definition set_hardware (v : vspa_hardware) (d : vspa_device) : vspa_device :=
  VspaDev (state d) (eld_filename d) (versions d) v (watchdog_interval_msecs d) (poll_mask d)
    (vspa_loading_count d) (spm_buf_bytes d) (spm_buf_paddr d) (chans d) (legacy_cmd_dma_chan d) (dma_vaddr d)
    (vspa_sec_info d).
Definition set_watchdog (v : Z) (d : vspa_device) : vspa_device :=
  VspaDev (state d) (eld_filename d) (versions d) (hardware d) v (poll_mask d) (vspa_loading_count d)
    (spm_buf_bytes d) (spm_buf_paddr d) (chans d) (legacy_cmd_dma_chan d) (dma_vaddr d) (vspa_sec_info d).
Definition set_poll_mask (v : Z) (d : vspa_device) : vspa_device :=
  VspaDev (state d) (eld_filename d) (versions d) (hardware d) (watchdog_interval_msecs d) v (vspa_loading_count
    d) (spm_buf_bytes d) (spm_buf_paddr d) (chans d) (legacy_cmd_dma_chan d) (dma_vaddr d) (vspa_sec_info d).
Definition set_loading (v : Z) (d : vspa_device) : vspa_device :=
  VspaDev (state d) (eld_filename d) (versions d) (hardware d) (watchdog_interval_msecs d) (poll_mask d) v
    (spm_buf_bytes d) (spm_buf_paddr d) (chans d) (legacy_cmd_dma_chan d) (dma_vaddr d) (vspa_sec_info d).
Definition set_chans (v : dma_chans) (d : vspa_device) : vspa_device :=
  VspaDev (state d) (eld_filename d) (versions d) (hardware d) (watchdog_interval_msecs d) (poll_mask d)
    (vspa_loading_count d) (spm_buf_bytes d) (spm_buf_paddr d) v (legacy_cmd_dma_chan d) (dma_vaddr d)
    (vspa_sec_info d).
Definition set_sec_info (v : vspa_section_info) (d : vspa_device) : vspa_device :=
  VspaDev (state d) (eld_filename d) (versions d) (hardware d) (watchdog_interval_msecs d) (poll_mask d)
    (vspa_loading_count d) (spm_buf_bytes d) (spm_buf_paddr d) (chans d) (legacy_cmd_dma_chan d) (dma_vaddr d)
    v.

(** The whole of it: the hardware, the memories, the devices and which of their
    structures the driver has lost, and the modem's flags.  [region_vaddr] is the
    address of the scratch region, [img] the place of the image in it. *)
Record vspa_world (H : Type) := World {
  hw : H; fw_mem : buffer; overlay_mem : buffer; pebm_mem : buffer; feca_mem : buffer; region_vaddr : Z; img : Z;
  vspa_priv : option (list (option vspa_device)); vspa_firmware_status : list bool; host_ready : bool;
  vspa_reset_mask : Z }.
Arguments World {_} _ _ _ _ _ _ _ _ _ _ _.
Arguments hw {_} _.
Arguments fw_mem {_} _.
Arguments overlay_mem {_} _.
Arguments pebm_mem {_} _.
Arguments feca_mem {_} _.
Arguments region_vaddr {_} _.
Arguments img {_} _.
Arguments vspa_priv {_} _.
Arguments vspa_firmware_status {_} _.
Arguments host_ready {_} _.
Arguments vspa_reset_mask {_} _.
Section Setters.
Context {H : Type}.
Definition with_hw (v : H) (w : vspa_world H) : vspa_world H :=
  World v (fw_mem w) (overlay_mem w) (pebm_mem w) (feca_mem w) (region_vaddr w) (img w) (vspa_priv w)
    (vspa_firmware_status w) (host_ready w) (vspa_reset_mask w).
Definition with_fw_mem (v : buffer) (w : vspa_world H) : vspa_world H :=
  World (hw w) v (overlay_mem w) (pebm_mem w) (feca_mem w) (region_vaddr w) (img w) (vspa_priv w)
    (vspa_firmware_status w) (host_ready w) (vspa_reset_mask w).
Definition with_overlay (v : buffer) (w : vspa_world H) : vspa_world H :=
  World (hw w) (fw_mem w) v (pebm_mem w) (feca_mem w) (region_vaddr w) (img w) (vspa_priv w)
    (vspa_firmware_status w) (host_ready w) (vspa_reset_mask w).
Definition with_pebm (v : buffer) (w : vspa_world H) : vspa_world H :=
  World (hw w) (fw_mem w) (overlay_mem w) v (feca_mem w) (region_vaddr w) (img w) (vspa_priv w)
    (vspa_firmware_status w) (host_ready w) (vspa_reset_mask w).
Definition with_feca (v : buffer) (w : vspa_world H) : vspa_world H :=
  World (hw w) (fw_mem w) (overlay_mem w) (pebm_mem w) v (region_vaddr w) (img w) (vspa_priv w)
    (vspa_firmware_status w) (host_ready w) (vspa_reset_mask w).
Definition with_img (v : Z) (w : vspa_world H) : vspa_world H :=
  World (hw w) (fw_mem w) (overlay_mem w) (pebm_mem w) (feca_mem w) (region_vaddr w) v (vspa_priv w)
    (vspa_firmware_status w) (host_ready w) (vspa_reset_mask w).
Definition with_priv (v : option (list (option vspa_device))) (w : vspa_world H) : vspa_world H :=
  World (hw w) (fw_mem w) (overlay_mem w) (pebm_mem w) (feca_mem w) (region_vaddr w) (img w) v
    (vspa_firmware_status w) (host_ready w) (vspa_reset_mask w).
Definition with_status (v : list bool) (w : vspa_world H) : vspa_world H :=
  World (hw w) (fw_mem w) (overlay_mem w) (pebm_mem w) (feca_mem w) (region_vaddr w) (img w) (vspa_priv w) v
    (host_ready w) (vspa_reset_mask w).
Definition with_ready (v : bool) (w : vspa_world H) : vspa_world H :=
  World (hw w) (fw_mem w) (overlay_mem w) (pebm_mem w) (feca_mem w) (region_vaddr w) (img w) (vspa_priv w)
    (vspa_firmware_status w) v (vspa_reset_mask w).
Definition with_mask (v : Z) (w : vspa_world H) : vspa_world H :=
  World (hw w) (fw_mem w) (overlay_mem w) (pebm_mem w) (feca_mem w) (region_vaddr w) (img w) (vspa_priv w)
    (vspa_firmware_status w) (host_ready w) v.
End Setters.

(** What the kernel and the module's parameters decide. *)
Record vspa_kernel := Kernel {
  k_priv : bool; k_dma_region : bool; k_overlay_region : bool; k_dev : nat → bool; k_map : nat → bool;
  k_stats : nat → Z; k_warmup : bool; k_multi_image : bool; k_prefix : string; k_id : Z; k_files : files;
  overlay_phys : Z; dma_phys : Z }.

Section Vspa.
Context {H : Type} `{VspaHw H, ScratchIf}.
Variable k : vspa_kernel.
Local Abbreviation V := (M (vspa_world H)).

(** ** Access *)
Definition rd_reg (n : nat) (r : vspa_reg) : V Z :=
  λ w, let '(v, h) := vspa_reg_read n r (fw_mem w) (hw w) in Some (u32 v, with_hw h w).
Definition wr_reg (n : nat) (r : vspa_reg) (v : Z) : V unit :=
  modify (λ w, with_hw (vspa_reg_write n r (u32 v) (fw_mem w) (hw w)) w).

(** [max_vspadev[n]]; a NULL pointer is undefined. *)
Definition get_dev (n : nat) : V vspa_device :=
  λ w, match vspa_priv w with
       | Some l => match l !! n with Some (Some d) => Some (d, w) | _ => None end
       | None => None
       end.
Definition put_dev (n : nat) (d : option vspa_device) : V unit :=
  modify (λ w, with_priv (<[n := d]> <$> vspa_priv w) w).
Definition upd_dev (n : nat) (f : vspa_device → vspa_device) : V unit :=
  d ← get_dev n; put_dev n (Some (f d)).

(** At most [count] reads of a register of core [n], until one has a bit of
    [bits]; the result says whether one had. *)
Definition poll_step (n : nat) (r : vspa_reg) (bits : Z) (_ : unit) : V (unit + unit) :=
  v ← rd_reg n r; mret (if decide (Z.land v bits = 0) then inl tt else inr tt).
Definition poll (count : positive) (n : nat) (r : vspa_reg) (bits : Z) : V bool :=
  res ← until (poll_step n r bits) count tt;
  mret match res with inr _ => true | inl _ => false end.

(** ** The state of a core *)
Definition full_state (n : nat) : V vspa_state :=
  d ← get_dev n;
  match state d with
  | VSPA_STATE_UNPROGRAMMED_IDLE =>
      v ← rd_reg n STATUS_REG;
      mret (if decide (Z.land v STATUS_REG_BUSY = 0) then state d else VSPA_STATE_UNPROGRAMMED_BUSY)
  | VSPA_STATE_RUNNING_IDLE =>
      v ← rd_reg n STATUS_REG;
      mret (if decide (Z.land v STATUS_REG_BUSY = 0) then state d else VSPA_STATE_RUNNING_BUSY)
  | _ => mret (state d)
  end.

Definition no_sw_version (d : vspa_device) : vspa_device :=
  set_versions (Versions (vspa_hw_version (versions d)) (ippu_hw_version (versions d)) (lnot32 0) (lnot32 0)) d.

(** The value computed to stop the engine of the core is never written. *)
Definition halt_core (n : nat) : V bool :=
  val ← rd_reg n CONTROL_REG;
  _ ← wr_reg n CONTROL_REG (Z.land (Z.land val CONTROL_REG_MASK) (lnot32 CONTROL_HOST_GO));
  _ ← wr_reg n DBG_GDBEN_REG 1;
  val ← rd_reg n DBG_DVR_REG;
  _ ← wr_reg n DBG_DVR_REG (Z.lor val (2 ^ 13));
  val ← rd_reg n DBG_RAVAP_REG;
  _ ← wr_reg n DBG_RAVAP_REG (Z.lor val (2 ^ 31));
  _ ← rd_reg n CONTROL_REG;
  val ← rd_reg n DBG_RAVAP_REG;
  _ ← wr_reg n DBG_RAVAP_REG (Z.land val (lnot32 (2 ^ 31)));
  _ ← wr_reg n DBG_RCR_REG 4;
  poll VSPA_HALT_TIMEOUT n DBG_RCSTATUS_REG (2 ^ 13).

Definition powerdown (n : nat) : V Z :=
  _ ← wr_reg n IRQEN_REG 0;
  _ ← upd_dev n (λ d, set_watchdog VSPA_WATCHDOG_INTERVAL_DEFAULT (set_eld "" (no_sw_version d)));
  d ← get_dev n;
  if decide (state d = VSPA_STATE_RUNNING_IDLE) then
    halted ← halt_core n;
    if negb halted then _ ← upd_dev n (set_state VSPA_STATE_UNKNOWN); mret (- ETIME) else
    val ← rd_reg n CONTROL_REG;
    _ ← wr_reg n CONTROL_REG (Z.lor (Z.land val CONTROL_REG_MASK) CONTROL_VCPU_RESET);
    _ ← wr_reg n VCPU_GO_ADDR_REG 0;
    _ ← wr_reg n DBG_RCR_REG 2;
    _ ← upd_dev n (set_state VSPA_STATE_POWER_DOWN); mret 0
  else _ ← upd_dev n (set_state VSPA_STATE_POWER_DOWN); mret 0.

Definition powerup (n : nat) : V Z :=
  d ← get_dev n;
  if decide (state d ≠ VSPA_STATE_POWER_DOWN) then mret (- EPERM) else
  _ ← wr_reg n IRQEN_REG 0;
  _ ← upd_dev n (set_state VSPA_STATE_UNPROGRAMMED_IDLE); mret 0.

Definition startup_fail (n : nat) : V Z :=
  _ ← upd_dev n (λ d, set_state VSPA_STATE_STARTUP_ERR (no_sw_version d));
  _ ← wr_reg n IRQEN_REG 0;
  mret (- EIO).

(** The channels the core announced; an older image announces none. *)
Definition announced (chs : Z) (d : vspa_device) : dma_chans :=
  if decide (chs ≠ 0) then
    Chans (Z.land (Z.shiftr chs 24) 0xFF) (Z.land (Z.shiftr chs 16) 0xFF) (Z.land (Z.shiftr chs 8) 0xFF)
          (Z.land chs 0xFF)
  else Chans VSPA_DMA_CHANNELS 0xFF 0xFF (legacy_cmd_dma_chan d).

Definition startup (n : nat) : V Z :=
  val ← rd_reg n CONTROL_REG;
  _ ← wr_reg n CONTROL_REG (Z.lor (Z.land val CONTROL_REG_MASK) CONTROL_HOST_GO);
  _ ← upd_dev n (λ d, set_loading (u32 (vspa_loading_count d + 1)) d);
  _ ← rd_reg n SWVERSION_REG;
  _ ← rd_reg n IPPU_SWVERSION_REG;
  booted ← poll VSPA_STARTUP_TIMEOUT n HOST_MBOX_STATUS_REG MBOX_STATUS_IN_64_BIT;
  if negb booted then startup_fail n else
  msb ← rd_reg n HOST_IN_64_MSB_REG;
  chs ← rd_reg n HOST_IN_64_LSB_REG;
  if decide (msb ≠ 0xF1000000) then startup_fail n else
  _ ← rd_reg n SWVERSION_REG;
  _ ← rd_reg n IPPU_SWVERSION_REG;
  d ← get_dev n;
  _ ← wr_reg n HOST_OUT_64_MSB_REG (Z.lor (0x70 * 2 ^ 24) (spm_buf_bytes d));
  _ ← wr_reg n HOST_OUT_64_LSB_REG (spm_buf_paddr d);
  sw ← rd_reg n SWVERSION_REG;
  ippu ← rd_reg n IPPU_SWVERSION_REG;
  acked ← poll VSPA_STARTUP_TIMEOUT n HOST_MBOX_STATUS_REG MBOX_STATUS_IN_64_BIT;
  if negb acked then startup_fail n else
  msb ← rd_reg n HOST_IN_64_MSB_REG;
  _ ← rd_reg n HOST_IN_64_LSB_REG;
  if decide (msb ≠ 0xF0700000) then startup_fail n else
  _ ← rd_reg n CONTROL_REG;
  _ ← upd_dev n (λ d, set_state VSPA_STATE_RUNNING_IDLE
        (set_versions (Versions (vspa_hw_version (versions d)) (ippu_hw_version (versions d)) sw ippu)
           (set_chans (announced chs d) d)));
  mret 0.

Definition vspa_reset_stats (n : nat) : V unit := upd_dev n (set_loading 0).

(** ** DMA *)
Record vspa_dma_req := DmaReq { dmem_addr : Z; axi_addr : Z; byte_cnt : Z; xfr_ctrl : Z }.

(** What the transfer reports as an error is read and not looked at. *)
Definition dma_raw_transmit (n : nat) (dr : vspa_dma_req) : V Z :=
  _ ← wr_reg n DMA_DMEM_ADDR_REG (dmem_addr dr);
  _ ← wr_reg n DMA_AXI_ADDR_REG (axi_addr dr);
  _ ← wr_reg n DMA_BYTE_CNT_REG (byte_cnt dr);
  _ ← rd_reg n DMA_COMP_STAT_REG;
  _ ← wr_reg n DMA_XFR_CTRL_REG (xfr_ctrl dr);
  complete ← poll VSPA_DMA_MAX_COUNTER n DMA_COMP_STAT_REG DMA_COMP_STAT_SET;
  if negb complete then mret (- ETIMEDOUT) else
  _ ← rd_reg n DMA_COMP_STAT_REG;
  _ ← rd_reg n DMA_STAT_ABORT_REG;
  _ ← wr_reg n DMA_COMP_STAT_REG DMA_COMP_STAT_SET;
  _ ← rd_reg n DMA_XFRERR_STAT_REG;
  _ ← rd_reg n DMA_CFGERR_STAT_REG;
  mret 0.

(** One turn of the loop: [phys] is the place of the data in [fw_mem]. *)
Definition dma_chunk (n : nat) (phys size offset xfr : Z) : V Z :=
  let addr := Z.land offset PRAM_ADDR_MASK in
  let cnt := Z.land size DMA_BCNT_MASK in
  if decide (VSPA_DRAM_SIZE ≤ addr) then mret (- EINVAL) else
  d ← get_dev n;
  m ← gets fw_mem;
  m ← lift (memcpy m (dma_vaddr d) m phys cnt);
  _ ← modify (with_fw_mem m);
  rc ← dma_raw_transmit n (DmaReq addr (dma_phys k) cnt xfr);
  mret (if decide (rc < 0) then - ECOMM else 0).

(** The loop; [fuel] turns. *)
Fixpoint dma_loop (fuel : nat) (n : nat) (phys size offset xfr : Z) : V Z :=
  match fuel with
  | O => λ _, None
  | S fuel =>
      let cnt := if decide (MAX_DMA_TRANSFER < size) then MAX_DMA_TRANSFER else size in
      rc ← dma_chunk n phys cnt offset xfr;
      if decide (rc ≠ 0) then mret rc else
      if decide (size - cnt ≠ 0) then dma_loop fuel n (phys + cnt) (size - cnt) (u32 (offset + cnt)) xfr
      else mret 0
  end.
Definition vspa_fw_dma_write (n : nat) (phys size offset xfr : Z) : V Z :=
  dma_loop (Z.to_nat (size / MAX_DMA_TRANSFER + 1)) n phys size offset xfr.

(** ** The table of sections *)
Definition get_section_name (str sec_name_offset : Z) : Z := str + sec_name_offset.

Fixpoint starts_with_any (m : buffer) (at_ : Z) (names : list string) : option bool :=
  match names with
  | [] => Some false
  | s :: names => b ← strncmp_eq m at_ (chars s); if (b : bool) then Some true else starts_with_any m at_ names
  end.
Definition is_vspa_section_loadable (m : buffer) (sec_name : Z) : option bool :=
  starts_with_any m sec_name vspa_loadable_section.

(** A value as an [int8_t]. *)
Definition i8 (x : Z) : Z := (x + 128) mod 256 - 128.
(** The turns of a loop of an [int8_t] counter up to an unsigned bound. *)
Definition turns8 (count : Z) : nat := Z.to_nat (Z.min count 128).

Fixpoint find_section (map : buffer) (i : Z) (cnt : nat) (sec_num : Z) : option Z :=
  match cnt with
  | O => Some (-1)
  | S cnt =>
      id ← rd32 map (8 * i);
      if decide (id = sec_num) then m ← rd32 map (8 * i + 4); Some (i8 m)
      else find_section map (i + 1) cnt sec_num
  end.
Definition is_vspa_section_valid (si : vspa_section_info) (sec_num : Z) : option Z :=
  match turns8 (vspa_sec_count si), section_memspace_map si with
  | O, _ => Some (-1)
  | cnt, Map map => find_section map 0 cnt sec_num
  | _, _ => None
  end.

(** The place of the name of memory space [memspace_id], if there is one. *)
Fixpoint find_memspace (map : buffer) (i : Z) (cnt : nat) (memspace_id : Z) : option (option Z) :=
  match cnt with
  | O => Some None
  | S cnt =>
      id ← rd32 map (36 * i);
      if decide (id = u32 memspace_id) then Some (Some (36 * i + 20))
      else find_memspace map (i + 1) cnt memspace_id
  end.

(** The transfer mode a name asks for. *)
Definition mode_of_name (map : buffer) (at_ : Z) : option Z :=
  b ← strcmp_eq map at_ (chars "axim"); if (b : bool) then Some AXI_NC else
  b ← strcmp_eq map at_ (chars "dram"); if (b : bool) then Some DMEM_NC else
  b ← strcmp_eq map at_ (chars "ippu"); if (b : bool) then Some IPPUPRAM else
  b ← strcmp_eq map at_ (chars "ippu_pram"); if (b : bool) then Some IPPUPRAM else
  b ← strcmp_eq map at_ (chars "vcpu"); if (b : bool) then Some PRAM else
  b ← strcmp_eq map at_ (chars "vcpu_pram"); if (b : bool) then Some PRAM else
  Some NO_LOAD.

(** The result as the unsigned field of the request holds it. *)
Definition get_vspa_section_trans_mode (si : vspa_section_info) (memspace_id : Z) : option Z :=
  if decide (memspace_id < 0) then Some (u32 (-1)) else
  at_ ← find_memspace (memspace_map si) 0 (turns8 (vspa_memspace_count si)) memspace_id;
  match at_ with
  | None => Some NO_LOAD
  | Some at_ => mode_of_name (memspace_map si) at_
  end.

(** ** Reading .mw_info *)

(** The first section with that name among [i ..], as its place and end. *)
Fixpoint find_mw_info (m : buffer) (img sec_header_off str i : Z) (cnt : nat) : option (option (Z * Z)) :=
  match cnt with
  | O => Some None
  | S cnt =>
      s ← read_section_header m (img + sec_header_off) i;
      b ← strncmp_eq m (str + sec_name s) (chars ".mw_info");
      if (b : bool) then Some (Some (img + sec_offset s, img + sec_offset s + sec_size s))
      else find_mw_info m img sec_header_off str (i + 1) cnt
  end.

Definition add_memspace (si : vspa_section_info) (m : buffer) (at_ n : Z) : option vspa_section_info :=
  map ← memcpy (memspace_map si) (36 * vspa_memspace_count si) m at_ n;
  Some (SecInfo (vspa_sec_count si) map (vspa_memspace_count si + 1) (section_memspace_map si)).
Definition add_section (si : vspa_section_info) (m : buffer) (at_ n : Z) : option vspa_section_info :=
  match section_memspace_map si with
  | Map map =>
      map ← memcpy map (8 * vspa_sec_count si) m at_ n;
      Some (SecInfo (vspa_sec_count si + 1) (memspace_map si) (vspa_memspace_count si) (Map map))
  | _ => None
  end.

(** The loop over the records from [pos] to [fin].  A record of size 0 and of an
    unknown type makes the code loop for ever. *)
Fixpoint mw_loop (fuel : nat) (m : buffer) (pos fin : Z) (si : vspa_section_info) : option vspa_section_info :=
  if decide (fin ≤ pos) then Some si else
  match fuel with
  | O => None
  | S fuel =>
      record_size ← rd m pos;
      record_type ← rd m (pos + 4);
      if decide (record_type = 0) then Some si else
      let n := u32 (record_size - 5) in
      si ← (if decide (record_type = MW_INFO_TYPE_14) then add_memspace si m (pos + 5) n
            else if decide (record_type = MW_INFO_TYPE_15) then add_section si m (pos + 5) n
            else Some si);
      if decide (record_size = 0) then None else mw_loop fuel m (pos + record_size) fin si
  end.

Definition fw_read_and_load_sections_info (n : nat) (hd : file_header) : V Z :=
  m ← gets fw_mem;
  img ← gets img;
  s ← lift (read_section_header m (img + fh_shoff hd) (fh_shstrndx hd));
  let str := img + sec_offset s in
  found ← lift (find_mw_info m img (fh_shoff hd) str 0 (Z.to_nat (fh_shnum hd)));
  match found with
  | None => mret LIBVSPA_ERR_EIO
  | Some (pos, fin) =>
      d ← get_dev n;
      let si := vspa_sec_info d in
      if negb (k_map k n) then
        _ ← put_dev n (Some (set_sec_info (SecInfo (vspa_sec_count si) (memspace_map si)
              (vspa_memspace_count si) NullMap) d));
        mret LIBVSPA_ERR_ENOMEM
      else
        let si := SecInfo (vspa_sec_count si) (memspace_map si) (vspa_memspace_count si)
                          (Map (zeros (8 * fh_shnum hd))) in
        si ← lift (mw_loop (Z.to_nat (fin - pos)) m pos fin si);
        _ ← put_dev n (Some (set_sec_info si d));
        mret 0
  end.

(** ** Loading the sections *)

(** What the loop carries from a section to the next: the section pointer is kept
    from the last section that set it. *)
Definition copy_overlay (to : vspa_world H → buffer) (put : buffer → vspa_world H → vspa_world H)
    (at_ phys size : Z) : V unit :=
  w ← gets (λ w, w);
  b ← lift (memcpy (to w) at_ (fw_mem w) phys size);
  modify (put b).

(** A section that is not sent: its bytes may go to an overlay.  [ptr] is the
    pointer as the sections before cnt it, [None] for NULL. *)
Definition load_ignored (img : Z) (s : section_header) (size : Z) (ptr : option Z) : V (option Z) :=
  let inf := sec_info s in
  let base := u32 (overlay_phys k) in
  if decide (inf ≠ 0) then
    let ptr := img + sec_offset s in
    _ ← (if decide (base ≤ inf ∧ u32 (inf + size) < u32 (base + GUL_VSPA_OVERLAY_SIZE)) then
           copy_overlay overlay_mem with_overlay (inf - base) ptr size
         else if decide (Z.land inf GUL_PEBM_OVERLAY_BASE = GUL_PEBM_OVERLAY_BASE) then
           copy_overlay pebm_mem with_pebm (inf - GUL_PEBM_BASE_ADDR) ptr size
         else mret tt);
    mret (Some ptr)
  else if decide (Z.land (sec_addr s) GUL_FECA_BASE_ADDR = GUL_FECA_BASE_ADDR) then
    p ← lift ptr;
    _ ← copy_overlay feca_mem with_feca (sec_addr s - GUL_FECA_BASE_ADDR) p size;
    mret ptr
  else mret ptr.

(** The value the function returns, and whether the loop ends there. *)
Fixpoint load_loop (cnt : nat) (n : nat) (hd : file_header) (str fw_size axi_align i : Z) (ptr : option Z)
  : V Z :=
  match cnt with
  | O => mret 0
  | S cnt =>
      m ← gets fw_mem;
      img ← gets img;
      s ← lift (read_section_header m (img + fh_shoff hd) i);
      let size := align (sec_size s) axi_align in
      ignored ← lift (is_vspa_section_loadable m (get_section_name str (sec_name s)));
      d ← get_dev n;
      space ← lift (if (ignored : bool) then Some (-1) else is_vspa_section_valid (vspa_sec_info d) i);
      if decide (space < 0) then
        ptr ← load_ignored img s size ptr;
        load_loop cnt n hd str fw_size axi_align (i + 1) ptr
      else if decide (size = 0) then load_loop cnt n hd str fw_size axi_align (i + 1) ptr
      else if decide (fw_size < size) then mret (- LIBVSPA_ERR_ENOMEM)
      else if negb (isaligned (sec_addr s) axi_align) then mret (- LIBVSPA_ERR_EINVOFFSET)
      else
        mode ← lift (get_vspa_section_trans_mode (vspa_sec_info d) space);
        if decide (mode ≠ u32 (-1)) then
          rc ← vspa_fw_dma_write n (img + sec_offset s) size (sec_addr s) mode;
          if decide (rc < 0) then mret rc
          else load_loop cnt n hd str fw_size axi_align (i + 1) (Some (img + sec_offset s))
        else load_loop cnt n hd str fw_size axi_align (i + 1) (Some (img + sec_offset s))
  end.

(** The map is freed and the pointer to it stays. *)
Definition free_map (si : vspa_section_info) : vspa_section_info :=
  SecInfo (vspa_sec_count si) (memspace_map si) (vspa_memspace_count si)
    match section_memspace_map si with NullMap => NullMap | _ => FreedMap end.

Definition fw_read_and_load_sections (n : nat) (hd : file_header) (fw_size : Z) : V Z :=
  m ← gets fw_mem;
  img ← gets img;
  s ← lift (read_section_header m (img + fh_shoff hd) (fh_shstrndx hd));
  d ← get_dev n;
  rc ← load_loop (Z.to_nat (fh_shnum hd)) n hd (img + sec_offset s) fw_size
         (axi_data_width (hardware d) / 8) 0 None;
  _ ← upd_dev n (λ d, set_sec_info (free_map (vspa_sec_info d)) d);
  mret rc.

Definition gul_load_vspa_image (n : nat) (fw_size : Z) : V Z :=
  m ← gets fw_mem;
  img ← gets img;
  hd ← lift (read_file_header m img);
  if decide (fh_machine hd ≠ GCC_MACH_CODE ∧ fh_machine hd ≠ ISCAPE_MACH_CODE) then mret (- ENOEXEC) else
  rc ← fw_read_and_load_sections_info n hd;
  if decide (rc ≠ 0) then mret (- EIO) else
  rc ← fw_read_and_load_sections n hd fw_size;
  mret (if decide (rc ≠ 0) then - EIO else 0).

(** [PTR_ALIGN] of the scratch pointer by the data width, in bytes. *)
Definition ptr_align (p a : Z) : Z := u64 (p + (a - 1) - (p + (a - 1)) mod a).

Definition vspa_get_fw_image (n : nat) : V Z :=
  d ← get_dev n;
  _ ← modify (λ w, with_img (ptr_align (region_vaddr w + img w) (axi_data_width (hardware d)) - region_vaddr w) w);
  w ← gets (λ w, w);
  '(rc, m, size) ← lift (gul_udev_load_firmware (k_files k) (fw_mem w) (img w) GUL_VSPA_SCRATCH_BUF_MAX_SIZE
                           (eld_filename d));
  _ ← modify (with_fw_mem m);
  if decide (rc < 0) then mret (- EFAULT) else
  size ← lift size;
  rc ← gul_load_vspa_image n (u32 size);
  mret (if decide (rc < 0) then - EFAULT else 0).

(** ** Probing a core *)

(** The fields of the hardware description, from its three registers. *)
Definition hardware_of (p0 p1 p2 : Z) : vspa_hardware :=
  Hardware p0 p1 p2 (u32 (32 * 2 ^ (Z.land (Z.shiftr p1 28) 7))) (Z.land (Z.shiftr p1 16) 0xFF)
    (Z.land (Z.shiftr p1 8) 0xFF) (Z.land p1 0xFF) (Z.land (Z.shiftr p2 8) 0x3FF * 400)
    (Z.shiftr p2 31 * 4096) (Z.land p2 0xFF).

(** The name of the core's image: the modem's own when there is one. *)
Definition eld_name (n : nat) : option string :=
  let prefix := if k_warmup k then VSPA_WARMUP_FW_NAME_PREFIX else k_prefix k in
  let own := prefix +:+ pretty (Z.of_nat n) +:+ "-" +:+ pretty (k_id k) +:+ ".eld" in
  let common := prefix +:+ pretty (Z.of_nat n) +:+ ".eld" in
  if k_multi_image k then
    rc ← check_file (k_files k) own; Some (if decide (rc = 0) then own else common)
  else Some common.

Definition vspa_probe_core (n : nat) : V Z :=
  _ ← rd_reg n HWVERSION_REG;
  _ ← rd_reg n DBG_FIRST_REG;
  _ ← upd_dev n (set_state VSPA_STATE_UNKNOWN);
  p0 ← rd_reg n PARAM0_REG;
  p1 ← rd_reg n PARAM1_REG;
  p2 ← rd_reg n PARAM2_REG;
  _ ← upd_dev n (set_hardware (hardware_of p0 p1 p2));
  hv ← rd_reg n HWVERSION_REG;
  iv ← rd_reg n IPPU_HWVERSION_REG;
  _ ← upd_dev n (λ d, set_poll_mask VSPA_MSG_ALL (set_watchdog VSPA_WATCHDOG_INTERVAL_DEFAULT (set_eld ""
        (set_versions (Versions hv iv (lnot32 0) (lnot32 0)) d))));
  val ← rd_reg n CONTROL_REG;
  _ ← wr_reg n CONTROL_REG (Z.lor (Z.land val CONTROL_REG_MASK) CONTROL_PDN_EN);
  _ ← wr_reg n IRQEN_REG 0;
  _ ← upd_dev n (set_state VSPA_STATE_LOADING);
  name ← lift (eld_name n);
  _ ← upd_dev n (set_eld name);
  rc ← vspa_get_fw_image n;
  if decide (rc ≠ 0) then mret (- EBADRQC) else
  _ ← wr_reg n IPPU_SWVERSION_REG (Z.of_nat n);
  rc ← startup n;
  if decide (rc ≠ 0) then mret (- EBADRQC) else
  if decide (k_stats k n < 0) then mret (- EBADRQC) else
  _ ← wr_reg n HOST_FLAGS0_REG 0xFFFFFFFF;
  _ ← wr_reg n HOST_FLAGS1_REG 0xFFFFFFFF;
  _ ← wr_reg n STATUS_REG 0xF000;
  mret 0.

(** ** The device *)

(** [kzalloc] of the structure of a core. *)
Definition new_dev (at_ : Z) : vspa_device :=
  VspaDev VSPA_STATE_UNKNOWN "" (Versions 0 0 0 0) (Hardware 0 0 0 0 0 0 0 0 0 0) 0 0 0 0 0
    (Chans 0 0 0 0) 0 at_ zero_info.

Definition set_status (n : nat) (b : bool) : V unit :=
  modify (λ w, with_status (<[n := b]> (vspa_firmware_status w)) w).

(** The error label: the structures below [n] are freed, that of [n] is lost. *)
Fixpoint clear_status (n : nat) : V unit :=
  match n with O => mret tt | S n => _ ← set_status n false; clear_status n end.
Definition err_mem_single_out (n : nat) : V unit := _ ← clear_status n; modify (with_priv None).

Fixpoint probe_loop (cnt : nat) (n : nat) : V Z :=
  match cnt with
  | O => mret 0
  | S cnt =>
      if negb (k_dev k n) then _ ← err_mem_single_out n; mret (- ENOMEM) else
      at_ ← gets img;
      _ ← put_dev n (Some (new_dev at_));
      err ← vspa_probe_core n;
      if decide (err = - EINVAL) then mret err else
      if decide (err = - EBADRQC) then _ ← err_mem_single_out n; mret err else
      _ ← set_status n true;
      probe_loop cnt (S n)
  end.

Definition vspa_probe : V Z :=
  if negb (k_priv k) then mret 0 else
  if negb (k_dma_region k) then _ ← modify (with_priv None); mret (- EADDRNOTAVAIL) else
  if negb (k_overlay_region k) then _ ← modify (with_priv None); mret (- EADDRNOTAVAIL) else
  _ ← modify (with_priv (Some (replicate MAX_VSPA None)));
  rc ← probe_loop MAX_VSPA 0;
  if decide (rc ≠ 0) then mret rc else _ ← modify (with_ready true); mret 0.

(** The structures are freed up to the first core that has none; then the array
    pointer stays. *)
Fixpoint remove_cores (cnt : nat) (n : nat) : V bool :=
  match cnt with
  | O => mret true
  | S cnt =>
      p ← gets vspa_priv;
      l ← lift p;
      match l !! n with
      | Some (Some _) => remove_cores cnt (S n)
      | Some None => mret false
      | None => λ _, None
      end
  end.
Definition vspa_remove : V Z :=
  p ← gets vspa_priv;
  match p with
  | None => mret 0
  | Some _ => all ← remove_cores MAX_VSPA 0;
              _ ← (if (all : bool) then modify (with_priv None) else mret tt); mret 0
  end.

Definition vspa_reset_mask_set (mask : Z) : V Z := _ ← modify (with_mask mask); mret 0.

(** [__vspa_reset_set]: the cores of the mask, until one fails. *)
Fixpoint reset_loop (cnt : nat) (n : nat) (ret : Z) : V Z :=
  match cnt with
  | O => mret ret
  | S cnt =>
      _ ← upd_dev n (set_sec_info zero_info);
      mask ← gets vspa_reset_mask;
      if Z.testbit mask (Z.of_nat n) then
        ret ← powerdown n;
        if decide (ret ≠ 0) then reset_loop cnt (S n) ret else
        _ ← powerup n;
        ret ← vspa_probe_core n;
        if decide (ret ≠ 0) then mret ret else reset_loop cnt (S n) ret
      else reset_loop cnt (S n) ret
  end.
Definition vspa_reset_set (GUL_VSPA_CORE_MAX : nat) : V Z := reset_loop GUL_VSPA_CORE_MAX 0 0.

End Vspa.
