(* ===== verification/GulVspaCorrect.v ===== *)
(** * The vector processors: theorems

    The state machine of a core holds for any hardware: [core] says that of the
    whole state only the hardware and the structure of one core differ.  The
    loader is run against [Dsp], a core whose DMA engine takes the bytes it is
    pointed at, and compared with [spec_loop], which loads from an image that
    nothing overwrites. *)
From S2P Require Import Prelude GulMsi GulImage GulScratch GulBoot GulVspa.
From stdpp Require Import strings pretty.
#[global] Open Scope Z_scope.

(** ** Runs of one core *)
Section Core.
Context {H : Type} `{VspaHw H, ScratchIf}.
Variables (k : vspa_kernel) (ub : Prop).
Variables (w0 : vspa_world H) (l : list (option vspa_device)) (n : nat).

Definition core (d : vspa_device) (w : vspa_world H) : Prop :=
  (n < length l)%nat ∧ ∃ h, w = with_priv (Some (<[n := Some d]> l)) (with_hw h w0).

Lemma get_dev_core d : hoare ub (core d) (get_dev n) (λ d' w, d' = d ∧ core d w).
Proof.
  intros w (Hn & h & ->). unfold get_dev, with_priv. cbn [vspa_priv].
  rewrite list_lookup_insert_eq by done. split; [done|]. split; [done|]. by exists h.
Qed.
Lemma rd_reg_core d r : hoare ub (core d) (rd_reg n r) (λ v w, 0 ≤ v < 4294967296 ∧ core d w).
Proof.
  intros w (Hn & h & ->). unfold rd_reg. cbn [hw with_priv with_hw fw_mem].
  destruct (vspa_reg_read n r (fw_mem w0) h) as [v h']. split; [apply Z.mod_pos_bound; lia|].
  split; [done|]. by exists h'.
Qed.
Lemma wr_reg_core d r v : hoare ub (core d) (wr_reg n r v) (λ _, core d).
Proof. intros w (Hn & h & ->). split; [done|]. by eexists. Qed.
Lemma upd_dev_core d f : hoare ub (core d) (upd_dev n f) (λ _, core (f d)).
Proof.
  eapply hoare_bind; [apply get_dev_core|]. intros d'. apply hoare_pre. intros ->.
  intros w (Hn & h & ->). split; [done|]. exists h. unfold with_priv. cbn [fmap option_fmap option_map vspa_priv].
  by rewrite list_insert_insert_eq.
Qed.
Lemma poll_core d count r bits : hoare ub (core d) (poll count n r bits) (λ _, core d).
Proof.
  unfold poll. eapply hoare_bind.
  - apply (hoare_until _ _ (λ _ _, core d) (λ _, core d)). intros c s _. unfold poll_step.
    eapply hoare_bind; [apply rd_reg_core|]. intros v. apply hoare_pre. intros _ w Hw. by case_decide.
  - intros [s|r'] w Hw; exact Hw.
Qed.
End Core.

Lemma hoare_ret' {W A} ub (P : W → Prop) (a : A) Q : (∀ w, P w → Q a w) → hoare ub P (mret a) Q.
Proof. intros HQ w Hw. by apply HQ. Qed.

(** One step: an access, a choice, or the result. *)
Ltac core_step :=
  lazymatch goal with
  | |- hoare _ _ (mbind _ ?m) _ =>
      lazymatch m with
      | rd_reg _ _ => eapply hoare_bind; [apply rd_reg_core|]; let v := fresh "v" in intros v; apply hoare_pre; intros _
      | wr_reg _ _ _ => eapply hoare_bind; [apply wr_reg_core|]; intros []
      | upd_dev _ _ => eapply hoare_bind; [apply upd_dev_core|]; intros []
      | poll _ _ _ _ => eapply hoare_bind; [apply poll_core|]; intros []; cbn [negb]
      | get_dev _ => eapply hoare_bind; [apply get_dev_core|]; intros ?; apply hoare_pre; intros ->
      end
  | |- hoare _ _ (if decide ?P then _ else _) _ => destruct (decide P)
  | |- hoare _ _ (mret _) _ => apply hoare_ret'; let w := fresh "w" in intros w ?
  end; cbn beta.

(** ** The state machine of a core *)

(** The edges: what an operation returns and the state it leaves. *)
Inductive vspa_op := OpPowerdown | OpPowerup | OpStartup.
Inductive vspa_edge : vspa_op → vspa_state → Z → vspa_state → Prop :=
  | down_ok s : vspa_edge OpPowerdown s 0 VSPA_STATE_POWER_DOWN
  | down_stuck : vspa_edge OpPowerdown VSPA_STATE_RUNNING_IDLE (- ETIME) VSPA_STATE_UNKNOWN
  | up_ok : vspa_edge OpPowerup VSPA_STATE_POWER_DOWN 0 VSPA_STATE_UNPROGRAMMED_IDLE
  | up_refused s : s ≠ VSPA_STATE_POWER_DOWN → vspa_edge OpPowerup s (- EPERM) s
  | start_ok s : vspa_edge OpStartup s 0 VSPA_STATE_RUNNING_IDLE
  | start_failed s : vspa_edge OpStartup s (- EIO) VSPA_STATE_STARTUP_ERR.

Section Lifecycle.
Context {H : Type} `{VspaHw H, ScratchIf}.
Definition run_op (op : vspa_op) (n : nat) : M (vspa_world H) Z :=
  match op with OpPowerdown => powerdown n | OpPowerup => powerup n | OpStartup => startup n end.

(** What an operation keeps of the structure of the core. *)
Definition core_kept (d d' : vspa_device) : Prop :=
  hardware d' = hardware d ∧ dma_vaddr d' = dma_vaddr d ∧ vspa_sec_info d' = vspa_sec_info d ∧
  vspa_hw_version (versions d') = vspa_hw_version (versions d).

Section Steps.
Variables (ub : Prop) (w0 : vspa_world H) (l : list (option vspa_device)) (n : nat) (d : vspa_device).
Local Abbreviation edge op := (λ rc w, ∃ d', core w0 l n d' w ∧ vspa_edge op (state d) rc (state d') ∧ core_kept d d').

Lemma startup_fail_core d1 : core_kept d d1 →
  hoare ub (core w0 l n d1) (startup_fail n) (edge OpStartup).
Proof.
  intros Hk. unfold startup_fail. repeat core_step.
  eexists. split; [done|].
  split; [constructor|]. by destruct d1.
Qed.
Lemma startup_core : hoare ub (core w0 l n d) (startup n) (edge OpStartup).
Proof.
  unfold startup. do 5 core_step. core_step; [|by apply startup_fail_core; destruct d].
  do 3 (core_step); [by apply startup_fail_core; destruct d|]. do 7 core_step.
  core_step; [|by apply startup_fail_core; destruct d].
  do 3 (core_step); [by apply startup_fail_core; destruct d|].
  repeat core_step. eexists. split; [done|]. split; [constructor|]. by destruct d.
Qed.
Lemma halt_core_core d1 : hoare ub (core w0 l n d1) (halt_core n) (λ _, core w0 l n d1).
Proof. unfold halt_core. do 11 core_step. apply poll_core. Qed.
Lemma powerdown_core : hoare ub (core w0 l n d) (powerdown n) (edge OpPowerdown).
Proof.
  unfold powerdown. do 3 core_step. core_step.
  - eapply hoare_bind; [apply halt_core_core|]. intros []; cbn [negb]; repeat core_step;
      (eexists; split; [done|]; split; [|by destruct d]; destruct d; cbn in *; subst; constructor).
  - repeat core_step. eexists; split; [done|]. split; [constructor|by destruct d].
Qed.
Lemma powerup_core : hoare ub (core w0 l n d) (powerup n) (edge OpPowerup).
Proof.
  unfold powerup. core_step. core_step; repeat core_step; (eexists; split; [done|]).
  - split; [by constructor|done].
  - split; [|by destruct d]. destruct d as [s]; cbn in *. destruct (decide (s = VSPA_STATE_POWER_DOWN)) as [->|Hs].
    + constructor.
    + by exfalso.
Qed.
End Steps.

(** C7: Powering a core down, up and starting it up returns on any hardware, within
    the bounded polls, and takes the state of that core along an edge of
    [vspa_edge]: it is running exactly when start-up returned 0, and a core that
    does not halt is left unknown.  The other cores, the memories and the modem's
    flags are as they were. *)
Theorem vspa_lifecycle op n (w : vspa_world H) l d :
  vspa_priv w = Some l → l !! n = Some (Some d) →
  ∃ rc d' h, run_op op n w = Some (rc, with_priv (Some (<[n := Some d']> l)) (with_hw h w)) ∧
    vspa_edge op (state d) rc (state d') ∧ core_kept d d'.
Proof.
  intros Hw Hl. assert (Hc : core w l n d w).
  { split; [by eapply lookup_lt_Some|]. exists (hw w). rewrite list_insert_id by done. by destruct w; cbn in *; subst. }
  assert (Hrun : match run_op op n w with
    | Some (rc, w') => ∃ d', core w l n d' w' ∧ vspa_edge op (state d) rc (state d') ∧ core_kept d d'
    | None => False end).
  { destruct op; [by apply powerdown_core|by apply powerup_core|by apply startup_core]. }
  destruct (run_op op n w) as [[rc w']|]; [|done].
  destruct Hrun as (d' & (_ & h & ->) & He & Hk). by exists rc, d', h.
Qed.
End Lifecycle.

(** ** A core that does what its DMA is told *)

(** [sent]: the transfers started, as the address in the core, the control word
    and the bytes then at the source.  [base] is the physical address of the
    staging area and [stage] its place in the memory.  A transfer is found unfinished
    by [lag] looks at the status; [togo] of them are still to come. *)
Record dsp := Dsp {
  base : Z; stage : Z; lag : Z; togo : Z; dmem_r : Z; axi_r : Z; cnt_r : Z; sent : list (Z * Z * buffer) }.
Definition set_togo (t : Z) (h : dsp) : dsp := Dsp (base h) (stage h) (lag h) t (dmem_r h) (axi_r h) (cnt_r h) (sent h).

Definition dsp_write (n : nat) (r : vspa_reg) (v : Z) (m : buffer) (h : dsp) : dsp :=
  match r with
  | DMA_DMEM_ADDR_REG => Dsp (base h) (stage h) (lag h) (togo h) v (axi_r h) (cnt_r h) (sent h)
  | DMA_AXI_ADDR_REG => Dsp (base h) (stage h) (lag h) (togo h) (dmem_r h) v (cnt_r h) (sent h)
  | DMA_BYTE_CNT_REG => Dsp (base h) (stage h) (lag h) (togo h) (dmem_r h) (axi_r h) v (sent h)
  | DMA_XFR_CTRL_REG =>
      let data := default [] (sub m (stage h + (axi_r h - base h)) (cnt_r h)) in
      Dsp (base h) (stage h) (lag h) (lag h) (dmem_r h) (axi_r h) (cnt_r h) (sent h ++ [(dmem_r h, v, data)])
  | _ => h
  end.
Definition dsp_read (n : nat) (r : vspa_reg) (m : buffer) (h : dsp) : Z * dsp :=
  match r with
  | DMA_COMP_STAT_REG => if decide (togo h ≤ 0) then (DMA_COMP_STAT_SET, h) else (0, set_togo (togo h - 1) h)
  | _ => (0, h)
  end.
#[export] Instance dsp_hw : VspaHw dsp := {| vspa_reg_read := dsp_read; vspa_reg_write := dsp_write |}.

(** The transfers a section of these bytes is sent as. *)
Fixpoint transfers (cnt : nat) (addr ctrl : Z) (data : buffer) : list (Z * Z * buffer) :=
  match cnt with
  | O => []
  | S cnt => (addr, ctrl, take (Z.to_nat MAX_DMA_TRANSFER) data)
             :: transfers cnt (addr + MAX_DMA_TRANSFER) ctrl (drop (Z.to_nat MAX_DMA_TRANSFER) data)
  end.
Definition section_transfers (addr ctrl : Z) (data : buffer) : list (Z * Z * buffer) :=
  transfers (Z.to_nat ((zlen data + (MAX_DMA_TRANSFER - 1)) / MAX_DMA_TRANSFER)) addr ctrl data.

(** They carry all of the bytes, in order. *)
Lemma transfers_carry cnt : ∀ addr ctrl data, (length data ≤ cnt * Z.to_nat MAX_DMA_TRANSFER)%nat →
  concat ((λ t, snd t) <$> transfers cnt addr ctrl data) = data.
Proof.
  induction cnt as [|cnt IH]; intros addr ctrl data Hl; cbn [transfers fmap list_fmap concat snd].
  - by destruct data; [|cbn in Hl; lia].
  - rewrite IH; [apply take_drop|]. rewrite length_drop. lia.
Qed.
Lemma section_transfers_carry addr ctrl data :
  concat ((λ t, snd t) <$> section_transfers addr ctrl data) = data.
Proof.
  apply transfers_carry. unfold MAX_DMA_TRANSFER, zlen.
  assert (Hd := Z.div_mod (Z.of_nat (length data) + (65536 - 1)) 65536 ltac:(lia)).
  assert (Hm := Z.mod_pos_bound (Z.of_nat (length data) + (65536 - 1)) 65536 ltac:(lia)). lia.
Qed.

(** A section is its first chunk and the section of the rest. *)
Lemma section_transfers_short addr ctrl data : 0 < zlen data ≤ MAX_DMA_TRANSFER →
  section_transfers addr ctrl data = [(addr, ctrl, data)].
Proof.
  intros Hl. unfold section_transfers, MAX_DMA_TRANSFER in *.
  replace ((zlen data + (65536 - 1)) / 65536) with 1 by (Z.to_euclidean_division_equations; lia).
  change (Z.to_nat 1) with 1%nat. cbn [transfers]. rewrite take_ge; [done|].
  unfold zlen, MAX_DMA_TRANSFER in *. lia.
Qed.
Lemma section_transfers_long addr ctrl data : MAX_DMA_TRANSFER < zlen data →
  section_transfers addr ctrl data =
  (addr, ctrl, take (Z.to_nat MAX_DMA_TRANSFER) data)
    :: section_transfers (addr + MAX_DMA_TRANSFER) ctrl (drop (Z.to_nat MAX_DMA_TRANSFER) data).
Proof.
  intros Hl. unfold section_transfers.
  assert (Hd : zlen (drop (Z.to_nat MAX_DMA_TRANSFER) data) = zlen data - MAX_DMA_TRANSFER).
  { unfold zlen, MAX_DMA_TRANSFER in *. rewrite length_drop. lia. }
  rewrite Hd. unfold MAX_DMA_TRANSFER in Hl |- *. set (a := zlen data) in *.
  replace (Z.to_nat ((a + (65536 - 1)) / 65536)) with (S (Z.to_nat ((a - 65536 + (65536 - 1)) / 65536)))
    by (Z.to_euclidean_division_equations; lia). done.
Qed.
Lemma pram_addr_next offset : 0 ≤ offset → offset + MAX_DMA_TRANSFER < 4294967296 →
  Z.land offset PRAM_ADDR_MASK + MAX_DMA_TRANSFER < 524288 →
  Z.land (u32 (offset + MAX_DMA_TRANSFER)) PRAM_ADDR_MASK = Z.land offset PRAM_ADDR_MASK + MAX_DMA_TRANSFER.
Proof.
  unfold MAX_DMA_TRANSFER, u32. change PRAM_ADDR_MASK with (Z.ones 19). intros H0 H1. rewrite !Z.land_ones by lia.
  change (2 ^ 19) with 524288. intros H2. Z.to_euclidean_division_equations; lia.
Qed.

Section Load.
Context `{ScratchIf}.
Variables (k : vspa_kernel) (at_ : Z).

(** What of the hardware does not change. *)
Definition place (h : dsp) : Z * Z * Z := (base h, stage h, lag h).

(** From [w] to [w']: the transfers [ts] were sent and at most [top] bytes of the
    staging area were written. *)
Definition ran (top : Z) (ts : list (Z * Z * buffer)) (w w' : vspa_world dsp) : Prop :=
  ∃ m h, w' = with_fw_mem m (with_hw h w) ∧ sent h = sent (hw w) ++ ts ∧
    place h = place (hw w) ∧ length m = length (fw_mem w) ∧
    ∀ hi, same_on (at_ + top) hi m (fw_mem w).

Lemma ran_refl top w : ran top [] w w.
Proof.
  exists (fw_mem w), (hw w). rewrite app_nil_r. split; [by destruct w|]. split_and!; done.
Qed.
Lemma ran_trans top top' ts ts' w1 w2 w3 :
  ran top ts w1 w2 → ran top' ts' w2 w3 → ran (Z.max top top') (ts ++ ts') w1 w3.
Proof.
  intros (m & h & -> & Hs & Hb & Hl & Hm) (m' & h' & -> & Hs' & Hb' & Hl' & Hm'). cbn in *.
  exists m', h'. rewrite Hs', Hs, Hb', Hl', app_assoc. split_and!; try done.
  intros hi. eapply same_on_trans; [eapply same_on_sub; [apply (Hm' hi)|lia|lia]|].
  eapply same_on_sub; [apply (Hm hi)|lia|lia].
Qed.

(** The device of core [n] uses the staging area the hardware knows, and a transfer is
    done within the looks the code has. *)
Definition dsp_ok (n : nat) (d : vspa_device) (w : vspa_world dsp) : Prop :=
  get_dev n w = Some (d, w) ∧ dma_vaddr d = at_ ∧ place (hw w) = (u32 (dma_phys k), at_, lag (hw w)) ∧
  0 ≤ lag (hw w) < Zpos VSPA_DMA_MAX_COUNTER ∧ 0 ≤ at_.
Lemma ran_ok top ts n d w w' : ran top ts w w' → dsp_ok n d w → dsp_ok n d w'.
Proof.
  intros (m & h & -> & _ & Hb & _) (Hd & Ha & Hs & Hlag & H0). unfold dsp_ok. cbn.
  assert (El : lag h = lag (hw w)) by (unfold place in Hb; congruence). rewrite Hb, El.
  split_and!; try done; try apply Hlag. clear -Hd. destruct w as [? ? ? ? ? ? ? p]. unfold get_dev in *. cbn in *.
  destruct p as [l|]; [|done]. destruct (l !! n) as [[d'|]|]; try done. by injection Hd as ->.
Qed.

(** A run on this hardware, access by access. *)
Lemma wr_run {A} n r v (K : unit → M (vspa_world dsp) A) w :
  (wr_reg n r v ≫= K) w = K tt (with_hw (dsp_write n r (u32 v) (fw_mem w) (hw w)) w).
Proof. reflexivity. Qed.
Lemma rd_run {A} n r (K : Z → M (vspa_world dsp) A) w :
  (rd_reg n r ≫= K) w = let '(v, h) := dsp_read n r (fw_mem w) (hw w) in K (u32 v) (with_hw h w).
Proof. rewrite M_bind_eq. unfold rd_reg. cbn [vspa_reg_read dsp_hw]. by destruct (dsp_read n r (fw_mem w) (hw w)). Qed.
(** Everything but the looks to come. *)
Definition but_togo (w w' : vspa_world dsp) : Prop := ∃ t, w' = with_hw (set_togo t (hw w)) w.
Lemma poll_run {A} n (K : bool → M (vspa_world dsp) A) w : 0 ≤ togo (hw w) < Zpos VSPA_DMA_MAX_COUNTER →
  ∃ w', but_togo w w' ∧
    (poll VSPA_DMA_MAX_COUNTER n DMA_COMP_STAT_REG DMA_COMP_STAT_SET ≫= K) w = K true w'.
Proof.
  intros Hl.
  assert (Hu := hoare_until False (poll_step n DMA_COMP_STAT_REG DMA_COMP_STAT_SET)
    (λ k _ w', but_togo w w' ∧ 0 ≤ togo (hw w') < k) (λ _ w', but_togo w w') VSPA_DMA_MAX_COUNTER tt).
  specialize (Hu ltac:(intros k' s Hk w' [[t ->] Ht]; unfold poll_step; rewrite rd_run; cbn in Ht; cbn;
    case_decide; cbn; [by eexists|]; split; [by eexists|cbn; lia])).
  specialize (Hu w). unfold poll.
  assert (H0 : but_togo w w) by (exists (togo (hw w)); destruct w as [[]]; done). specialize (Hu (conj H0 Hl)).
  rewrite M_bind_eq, M_bind_eq. destruct (until _ _ _ w) as [[[s|r] w']|]; [|by exists w'|done].
  destruct Hu as [_ Hu]. lia.
Qed.
Ltac reg_step := first [rewrite wr_run | rewrite rd_run; cbn [dsp_read]].

(** A transfer: what the registers were given is sent, as it stands in the memory. *)
Lemma raw_transmit_sends n d a x size xfr c (w : vspa_world dsp) : dsp_ok n d w →
  sub (fw_mem w) at_ size = Some c → 0 ≤ size < 4294967296 → 0 ≤ xfr < 4294967296 → 0 ≤ a < 4294967296 →
  u32 x = u32 (dma_phys k) →
  ∃ h, dma_raw_transmit n (DmaReq a x size xfr) w = Some (0, with_hw h w) ∧ sent h = sent (hw w) ++ [(a, xfr, c)] ∧
    place h = place (hw w).
Proof.
  intros (_ & _ & Hp & Hlag & _) Hc Hs Hx Ha Hphys. assert (Hu : ∀ x, 0 ≤ x < 4294967296 → u32 x = x) by (intros; by apply Z.mod_small).
  assert (Hb : base (hw w) = u32 (dma_phys k)) by (unfold place in Hp; congruence).
  assert (Hst : stage (hw w) = at_) by (unfold place in Hp; congruence).
  unfold dma_raw_transmit. cbn [dmem_addr axi_addr byte_cnt xfr_ctrl]. rewrite !wr_run, rd_run.
  match goal with |- context [dsp_read _ _ ?m ?g] => set (h1 := g); destruct (dsp_read n DMA_COMP_STAT_REG m h1) as [v0 h2] eqn:E2 end.
  assert (H2 : ∃ t, h2 = set_togo t h1) by (cbn in E2; case_decide; injection E2 as _ <-; [by exists (togo h1)|by eexists]).
  destruct H2 as [t ->]. rewrite wr_run. match goal with |- context [(poll _ _ _ _ ≫= ?K) ?v] => set (w1 := v); destruct (poll_run n K w1) as (w2 & [t2 ->] & ->) end.
  { exact Hlag. }
  cbn [negb]. rewrite rd_run.
  match goal with |- context [dsp_read _ _ ?m ?g] => set (h3 := g); destruct (dsp_read n DMA_COMP_STAT_REG m h3) as [v3 h4] eqn:E4 end.
  assert (H4 : ∃ t, h4 = set_togo t h3) by (cbn in E4; case_decide; injection E4 as _ <-; [by exists (togo h3)|by eexists]).
  destruct H4 as [t4 ->]. rewrite !rd_run. cbn [dsp_read]. rewrite wr_run, !rd_run. cbn [dsp_read dsp_write].
  eexists. split; [reflexivity|]. subst h3 w1 h1. cbn -[sub u32]. rewrite (Hu a), (Hu size), (Hu xfr) by lia.
  rewrite Hphys, Hb, Hst, Z.sub_diag, Z.add_0_r, Hc. done.
Qed.

Lemma get_dev_mem n d m (w : vspa_world dsp) : get_dev n w = Some (d, w) →
  get_dev n (with_fw_mem m w) = Some (d, with_fw_mem m w).
Proof.
  unfold get_dev. cbn. destruct (vspa_priv w) as [l|]; [|done]. destruct (l !! n) as [[d'|]|]; try done. by intros [= ->].
Qed.
(** One chunk is sent as it stood in the memory. *)
Lemma dma_chunk_sends n d phys size offset xfr c w : dsp_ok n d w →
  sub (fw_mem w) phys size = Some c → 0 < size ≤ MAX_DMA_TRANSFER → at_ + size ≤ zlen (fw_mem w) →
  0 ≤ xfr < 4294967296 → Z.land offset PRAM_ADDR_MASK < VSPA_DRAM_SIZE →
  ∃ w', dma_chunk k n phys size offset xfr w = Some (0, w') ∧
    ran size [(Z.land offset PRAM_ADDR_MASK, xfr, c)] w w'.
Proof.
  intros (Hd & Ha & Hs & Hlag & H0) Hc Hsz Hroom Hx Haddr. unfold MAX_DMA_TRANSFER in *.
  assert (Hbl : ∃ m, blit (fw_mem w) at_ c = Some m).
  { unfold blit. rewrite decide_True by (rewrite (sub_zlen _ _ _ _ Hc); lia). by eexists. }
  destruct Hbl as [m Hm]. assert (Hcl := sub_zlen _ _ _ _ Hc).
  assert (Hmask : Z.land size DMA_BCNT_MASK = size).
  { change DMA_BCNT_MASK with (Z.ones 17). rewrite Z.land_ones by lia. apply Z.mod_small. lia. }
  assert (Ha0 : 0 ≤ Z.land offset PRAM_ADDR_MASK < 2 ^ 19).
  { change PRAM_ADDR_MASK with (Z.ones 19). rewrite Z.land_ones by lia. apply Z.mod_pos_bound. lia. }
  unfold dma_chunk. rewrite Hmask. rewrite (decide_False (P := VSPA_DRAM_SIZE ≤ _)) by lia.
  rewrite (M_bind_run _ _ _ _ _ Hd), Ha.
  unfold memcpy. rewrite M_bind_eq. unfold gets at 1. rewrite Hc. cbn [mbind option_bind].
  rewrite Hm, M_bind_eq. cbn [lift]. rewrite M_bind_eq. unfold modify at 1. rewrite M_bind_eq.
  assert (Hdata : sub (fw_mem (with_fw_mem m w)) at_ size = Some c) by (cbn; rewrite <- Hcl; by eapply blit_sub).
  change (2 ^ 19) with 524288 in Ha0.
  destruct (raw_transmit_sends n d (Z.land offset PRAM_ADDR_MASK) (dma_phys k) size xfr c (with_fw_mem m w)) as (h & Hraw & Hsent & Hp');
    [split; [by apply get_dev_mem|by split_and!; try apply Hlag]|done|lia|done|lia|done|].
  rewrite Hraw. cbn [mret M_ret]. eexists. split; [done|].
  exists m, h. cbn. split_and!; try done; [by apply blit_length in Hm|].
  intros hi i Hi. eapply blit_rd; [done|]. lia.
Qed.

(** The loop sends the section as it stood before the loop. *)
Lemma dma_loop_sends fuel : ∀ n d phys size offset xfr data w, dsp_ok n d w →
  sub (fw_mem w) phys size = Some data → 0 < size ≤ Z.of_nat fuel * MAX_DMA_TRANSFER → at_ ≤ phys →
  at_ + Z.min size MAX_DMA_TRANSFER ≤ zlen (fw_mem w) →
  0 ≤ xfr < 4294967296 → 0 ≤ offset → offset + size < 4294967296 →
  Z.land offset PRAM_ADDR_MASK + size ≤ VSPA_DRAM_SIZE →
  ∃ w', dma_loop k fuel n phys size offset xfr w = Some (0, w') ∧
    ran (Z.min size MAX_DMA_TRANSFER) (section_transfers (Z.land offset PRAM_ADDR_MASK) xfr data) w w'.
Proof.
  induction fuel as [|fuel IH]; intros n d phys size offset xfr data w Hok Hdata Hsz Hphys Hroom Hx Ho Ho' Haddr;
    [lia|].
  cbn [dma_loop]. set (cnt := if decide (MAX_DMA_TRANSFER < size) then MAX_DMA_TRANSFER else size).
  assert (Hcnt : cnt = Z.min size MAX_DMA_TRANSFER) by (unfold cnt; case_decide; lia).
  assert (Hs := sub_zlen _ _ _ _ Hdata).
  replace size with (cnt + (size - cnt)) in Hdata by lia.
  apply sub_split in Hdata as [Hfirst Hrest]; [|unfold MAX_DMA_TRANSFER in *; lia..].
  assert (Hmask : Z.land offset PRAM_ADDR_MASK < VSPA_DRAM_SIZE) by lia.
  destruct (dma_chunk_sends n d phys cnt offset xfr _ w Hok Hfirst ltac:(unfold MAX_DMA_TRANSFER in *; lia)
    ltac:(lia) Hx Hmask) as (w1 & Hrun & Hran).
  rewrite (M_bind_run _ _ _ _ _ Hrun). rewrite (decide_False (P := 0 ≠ 0)) by (intros Hn; by apply Hn).
  destruct (decide (size - cnt ≠ 0)) as [Hmore|Hend].
  - assert (Hc : cnt = MAX_DMA_TRANSFER) by lia. rewrite Hc in *. assert (Hran' := Hran).
    destruct Hran' as (m & h & -> & _ & _ & Hl & Hm).
    set (w1 := with_fw_mem m (with_hw h w)) in *.
    destruct (IH n d (phys + MAX_DMA_TRANSFER) (size - MAX_DMA_TRANSFER) (u32 (offset + MAX_DMA_TRANSFER)) xfr
      (drop (Z.to_nat MAX_DMA_TRANSFER) data) w1) as (w2 & Hrun2 & Hran2).
    + by eapply ran_ok.
    + rewrite <- Hrest. cbn. apply (sub_same (at_ + MAX_DMA_TRANSFER) (phys + size)); [done|apply Hm|..];
        destruct Hok as (_ & _ & _ & _ & Hok); unfold MAX_DMA_TRANSFER in *; lia.
    + lia.
    + unfold MAX_DMA_TRANSFER; lia.
    + cbn. unfold zlen in *. rewrite Hl. lia.
    + done.
    + apply Z.mod_pos_bound. lia.
    + unfold u32. rewrite Z.mod_small by (unfold MAX_DMA_TRANSFER in *; lia). lia.
    + rewrite pram_addr_next; unfold MAX_DMA_TRANSFER, VSPA_DRAM_SIZE in *; lia.
    + exists w2. split; [exact Hrun2|]. rewrite section_transfers_long by (unfold MAX_DMA_TRANSFER in *; lia).
      rewrite pram_addr_next in Hran2 by (unfold MAX_DMA_TRANSFER, VSPA_DRAM_SIZE in *; lia).
      eapply (ran_trans _ _ [_]) in Hran2; [|exact Hran].
      replace (Z.max _ _) with (Z.min size MAX_DMA_TRANSFER) in Hran2 by (unfold MAX_DMA_TRANSFER in *; lia).
      exact Hran2.
  - exists w1. split; [done|]. rewrite section_transfers_short by (unfold MAX_DMA_TRANSFER in *; lia).
    rewrite take_ge in Hran by (unfold zlen in *; lia). by rewrite <- Hcnt.
Qed.

Lemma fw_dma_write_sends n d phys size offset xfr data w : dsp_ok n d w →
  sub (fw_mem w) phys size = Some data → 0 < size → at_ ≤ phys →
  at_ + Z.min size MAX_DMA_TRANSFER ≤ zlen (fw_mem w) →
  0 ≤ xfr < 4294967296 → 0 ≤ offset → offset + size < 4294967296 →
  Z.land offset PRAM_ADDR_MASK + size ≤ VSPA_DRAM_SIZE →
  ∃ w', vspa_fw_dma_write k n phys size offset xfr w = Some (0, w') ∧
    ran (Z.min size MAX_DMA_TRANSFER) (section_transfers (Z.land offset PRAM_ADDR_MASK) xfr data) w w'.
Proof.
  intros Hok Hdata Hsz. apply dma_loop_sends with d; try done. split; [done|].
  unfold MAX_DMA_TRANSFER. Z.to_euclidean_division_equations; lia.
Qed.

(** ** The whole image

    What loading should do, read off an image [m0] that nothing overwrites: the
    bytes put into the two overlay memories and the transfers sent.  [None] when
    the image does not qualify: a table or a section lies below [top], the number
    of bytes staged so far, a section is malformed, or is one for FECA. *)
Definition result : Type := buffer * buffer * list (Z * Z * buffer).

Definition guard_ (P : Prop) `{Decision P} : option unit := if decide P then Some tt else None.

Definition spec_overlay (m0 : buffer) (img top : Z) (s : section_header) (sz : Z) (r : result)
  : option result :=
  let '(o, p, ts) := r in
  let base := u32 (overlay_phys k) in
  if decide (sec_info s ≠ 0) then
    _ ← guard_ (top ≤ sec_offset s);
    if decide (base ≤ sec_info s ∧ u32 (sec_info s + sz) < u32 (base + GUL_VSPA_OVERLAY_SIZE)) then
      o ← memcpy o (sec_info s - base) m0 (img + sec_offset s) sz; Some (o, p, ts)
    else if decide (Z.land (sec_info s) GUL_PEBM_OVERLAY_BASE = GUL_PEBM_OVERLAY_BASE) then
      p ← memcpy p (sec_info s - GUL_PEBM_BASE_ADDR) m0 (img + sec_offset s) sz; Some (o, p, ts)
    else Some r
  else _ ← guard_ (Z.land (sec_addr s) GUL_FECA_BASE_ADDR ≠ GUL_FECA_BASE_ADDR); Some r.

Fixpoint spec_loop (cnt : nat) (m0 : buffer) (img : Z) (hd : file_header) (si : vspa_section_info)
    (str fw_size axi_align i top : Z) (r : result) : option result :=
  match cnt with
  | O => Some r
  | S cnt =>
      _ ← guard_ (img + top ≤ img + fh_shoff hd + 40 * i);
      s ← read_section_header m0 (img + fh_shoff hd) i;
      let sz := align (sec_size s) axi_align in
      _ ← guard_ (img + top ≤ str + sec_name s);
      ignored ← is_vspa_section_loadable m0 (str + sec_name s);
      space ← (if (ignored : bool) then Some (-1) else is_vspa_section_valid si i);
      if decide (space < 0) then
        r ← spec_overlay m0 img top s sz r;
        spec_loop cnt m0 img hd si str fw_size axi_align (i + 1) top r
      else if decide (sz = 0) then spec_loop cnt m0 img hd si str fw_size axi_align (i + 1) top r
      else
        _ ← guard_ (0 < sz ≤ fw_size ∧ isaligned (sec_addr s) axi_align = true ∧ top ≤ sec_offset s ∧
                    0 ≤ sec_addr s ∧ sec_addr s + sz < 4294967296 ∧
                    Z.land (sec_addr s) PRAM_ADDR_MASK + sz ≤ VSPA_DRAM_SIZE);
        mode ← get_vspa_section_trans_mode si space;
        _ ← guard_ (0 ≤ mode < u32 (-1));
        data ← sub m0 (img + sec_offset s) sz;
        let '(o, p, ts) := r in
        spec_loop cnt m0 img hd si str fw_size axi_align (i + 1) (Z.max top (Z.min sz MAX_DMA_TRANSFER))
          (o, p, ts ++ section_transfers (Z.land (sec_addr s) PRAM_ADDR_MASK) mode data)
  end.

(** The state in between: [w0] with the results so far. *)
Definition so_far (w0 : vspa_world dsp) (top : Z) (r : result) (w : vspa_world dsp) : Prop :=
  ∃ m h, let '(o, p, ts) := r in
    w = with_overlay o (with_pebm p (with_fw_mem m (with_hw h w0))) ∧
    sent h = ts ∧ place h = place (hw w0) ∧ length m = length (fw_mem w0) ∧
    ∀ hi, same_on (at_ + top) hi m (fw_mem w0).

Lemma so_far_ran w0 top o p ts w top' ts' w' : so_far w0 top (o, p, ts) w → ran top' ts' w w' →
  so_far w0 (Z.max top top') (o, p, ts ++ ts') w'.
Proof.
  intros (m & h & -> & Hs & Hb & Hl & Hm) (m' & h' & -> & Hs' & Hb' & Hl' & Hm'). cbn in *.
  exists m', h'. rewrite Hs', Hs, Hb', Hl'. split_and!; try done.
  intros hi. eapply same_on_trans; [eapply same_on_sub; [apply (Hm' hi)|lia|lia]|].
  eapply same_on_sub; [apply (Hm hi)|lia|lia].
Qed.
Lemma so_far_ok w0 top r n d w : so_far w0 top r w → dsp_ok n d w0 → dsp_ok n d w.
Proof.
  destruct r as [[o p] ts]. intros (m & h & -> & _ & Hb & _) (Hd & Ha & Hs & Hlag & H0).
  unfold dsp_ok. cbn. assert (El : lag h = lag (hw w0)) by (unfold place in Hb; congruence). rewrite Hb, El.
  split_and!; try done; try apply Hlag. clear -Hd. destruct w0 as [? ? ? ? ? ? ? q]. unfold get_dev in *. cbn in *.
  destruct q as [l|]; [|done]. destruct (l !! n) as [[d'|]|]; try done. by injection Hd as ->.
Qed.

(** Reads above what was staged. *)
Definition same_from (lo : Z) (m m0 : buffer) : Prop := length m = length m0 ∧ ∀ hi, same_on lo hi m m0.
Lemma header_same lo m m0 p i : same_from lo m m0 → lo ≤ p + 40 * i →
  read_section_header m p i = read_section_header m0 p i.
Proof. intros [_ Hs] Hlo. by eapply (read_section_header_same lo (p + 40 * i + 40)). Qed.
Lemma starts_with_any_same lo m m0 i names : same_from lo m m0 → lo ≤ i →
  starts_with_any m i names = starts_with_any m0 i names.
Proof.
  intros [_ Hs] Hlo. induction names as [|s names IH]; [done|]. cbn [starts_with_any].
  by rewrite (strncmp_eq_same lo (i + zlen (chars s)) _ m m0), IH.
Qed.
Lemma memcpy_same lo m m0 d i j n : same_from lo m m0 → 0 ≤ lo → lo ≤ j → memcpy d i m j n = memcpy d i m0 j n.
Proof. intros [Hl Hs] H0 Hj. unfold memcpy. by rewrite (sub_same lo (j + n) m m0). Qed.

Lemma guard_Some P `{Decision P} {B} (f : unit → option B) b :
  (guard_ P ≫= f) = Some b → P ∧ f tt = Some b.
Proof. unfold guard_. by case_decide. Qed.
Lemma bind_Some' {A B} (o : option A) (f : A → option B) b :
  (o ≫= f) = Some b → ∃ a, o = Some a ∧ f a = Some b.
Proof. by destruct o; [eexists|]. Qed.

Section Loop.
Variables (w0 : vspa_world dsp) (n : nat) (d : vspa_device).
Hypotheses (Hok : dsp_ok n d w0) (Himg : at_ ≤ img w0).

Lemma so_far_parts top r w : so_far w0 top r w →
  let '(o, p, ts) := r in
  overlay_mem w = o ∧ pebm_mem w = p ∧ img w = img w0 ∧ same_from (at_ + top) (fw_mem w) (fw_mem w0).
Proof. destruct r as [[o p] ts]. by intros (m & h & -> & _ & _ & Hl & Hm). Qed.

Lemma so_far_overlay top o p ts w o' : so_far w0 top (o, p, ts) w →
  so_far w0 top (o', p, ts) (with_overlay o' w).
Proof. intros (m & h & -> & Hr). by exists m, h. Qed.
Lemma so_far_pebm top o p ts w p' : so_far w0 top (o, p, ts) w →
  so_far w0 top (o, p', ts) (with_pebm p' w).
Proof. intros (m & h & -> & Hr). by exists m, h. Qed.

Lemma load_ignored_does top s sz r r' ptr w : so_far w0 top r w → 0 ≤ top →
  spec_overlay (fw_mem w0) (img w0) top s sz r = Some r' →
  ∃ ptr' w', load_ignored k (img w0) s sz ptr w = Some (ptr', w') ∧ so_far w0 top r' w'.
Proof.
  intros Hw Ht. destruct r as [[o p] ts]. destruct (so_far_parts _ _ _ Hw) as (Ho & Hp & Hi & Hs).
  assert (H0 : 0 ≤ at_) by by destruct Hok as (_ & _ & _ & _ & ?).
  unfold spec_overlay, load_ignored. case_decide as Hinf.
  - intros [Hoff Hr]%guard_Some.
    assert (Hcp : ∀ dst i, memcpy dst i (fw_mem w) (img w0 + sec_offset s) sz =
      memcpy dst i (fw_mem w0) (img w0 + sec_offset s) sz) by (intros; apply (memcpy_same (at_ + top)); done || lia).
    case_decide as Hov; [|case_decide as Hpe].
    + apply bind_Some' in Hr as (o' & Hc & [= <-]). eexists _, _. split; [|by eapply so_far_overlay].
      unfold copy_overlay. rewrite !M_bind_eq. cbn [gets]. rewrite Ho, Hcp, Hc. done.
    + apply bind_Some' in Hr as (p' & Hc & [= <-]). eexists _, _. split; [|by eapply so_far_pebm].
      unfold copy_overlay. rewrite !M_bind_eq. cbn [gets]. rewrite Hp, Hcp, Hc. done.
    + injection Hr as <-. by eexists _, _.
  - intros [Hf [= <-]]%guard_Some. rewrite decide_False by done. by eexists _, _.
Qed.

Lemma load_loop_does cnt : ∀ hd str fw_size axi_align i top r r' ptr w, so_far w0 top r w → 0 ≤ top →
  at_ + MAX_DMA_TRANSFER ≤ zlen (fw_mem w0) →
  spec_loop cnt (fw_mem w0) (img w0) hd (vspa_sec_info d) str fw_size axi_align i top r = Some r' →
  ∃ top' w', load_loop k cnt n hd str fw_size axi_align i ptr w = Some (0, w') ∧ so_far w0 top' r' w'.
Proof.
  induction cnt as [|cnt IH]; intros hd str fw_size axi_align i top r r' ptr w Hw Ht Hroom Hspec.
  { injection Hspec as <-. by eexists _, _. }
  assert (Hparts := so_far_parts _ _ _ Hw).
  cbn [spec_loop] in Hspec. apply guard_Some in Hspec as [Hh Hspec].
  apply bind_Some' in Hspec as (s & Hs & Hspec). apply guard_Some in Hspec as [Hn Hspec].
  apply bind_Some' in Hspec as (ign & Hign & Hspec). apply bind_Some' in Hspec as (space & Hspace & Hspec).
  assert (Hd : get_dev n w = Some (d, w)) by by eapply so_far_ok in Hw as (? & _).
  assert (Him : img w = img w0 ∧ same_from (at_ + top) (fw_mem w) (fw_mem w0))
    by (destruct r as [[o p] ts]; tauto). clear Hparts. destruct Him as [Himw Hsame].
  cbn [load_loop]. rewrite (M_bind_run _ _ w _ _ eq_refl), (M_bind_run _ _ w _ _ eq_refl), Himw.
  rewrite (header_same (at_ + top) _ (fw_mem w0)) by (done || lia). rewrite Hs.
  rewrite (M_bind_run _ _ w _ _ eq_refl). unfold is_vspa_section_loadable, get_section_name in *.
  rewrite (starts_with_any_same (at_ + top) _ (fw_mem w0)) by (done || lia). rewrite Hign.
  rewrite (M_bind_run _ _ w _ _ eq_refl), (M_bind_run _ _ _ _ _ Hd), Hspace.
  rewrite (M_bind_run _ _ w _ _ eq_refl).
  set (sz := align (sec_size s) axi_align) in *.
  case_decide as Hneg.
  { apply bind_Some' in Hspec as (r1 & Hr1 & Hspec).
    destruct (load_ignored_does top s sz r r1 ptr w Hw Ht Hr1) as (ptr' & w1 & Hrun & Hw1).
    rewrite (M_bind_run _ _ _ _ _ Hrun). by eapply IH. }
  case_decide as Hz; [by eapply IH|].
  apply guard_Some in Hspec as [(Hsz & Hal & Hoff & Hv0 & Hv & Haddr) Hspec].
  apply bind_Some' in Hspec as (mode & Hmode & Hspec). apply guard_Some in Hspec as [Hm Hspec].
  apply bind_Some' in Hspec as (data & Hdata & Hspec). destruct r as [[o p] ts].
  rewrite decide_False by lia. rewrite Hal. cbn [negb]. rewrite Hmode, (M_bind_run _ _ w _ _ eq_refl).
  rewrite decide_True by lia.
  assert (Hle : length (fw_mem w) = length (fw_mem w0)) by by destruct Hsame.
  assert (H0 : 0 ≤ at_) by by destruct Hok as (_ & _ & _ & _ & ?).
  destruct (fw_dma_write_sends n d (img w0 + sec_offset s) sz (sec_addr s) mode data w) as (w1 & Hrun & Hran);
    [by eapply so_far_ok|..].
  { rewrite <- Hdata. apply (sub_same (at_ + top) (img w0 + sec_offset s + sz)); [done|apply Hsame|lia..]. }
  all: try done. all: try (unfold zlen, u32, MAX_DMA_TRANSFER in *; lia).
  { change (u32 (-1)) with 4294967295 in Hm. lia. }
  rewrite (M_bind_run _ _ _ _ _ Hrun), (decide_False (P := 0 < 0)) by lia.
  eapply IH; [by eapply so_far_ran|lia|done|exact Hspec].
Qed.
End Loop.

(** The image read from its header; [d] is the structure of the core. *)
Definition spec_image (m0 : buffer) (img : Z) (d : vspa_device) (fw_size : Z) (r : result) : option result :=
  hd ← read_file_header m0 img;
  _ ← guard_ (fh_machine hd = GCC_MACH_CODE ∨ fh_machine hd = ISCAPE_MACH_CODE);
  s ← read_section_header m0 (img + fh_shoff hd) (fh_shstrndx hd);
  let str := img + sec_offset s in
  found ← find_mw_info m0 img (fh_shoff hd) str 0 (Z.to_nat (fh_shnum hd));
  '(pos, fin) ← found;
  si ← mw_loop (Z.to_nat (fin - pos)) m0 pos fin
         (SecInfo (vspa_sec_count (vspa_sec_info d)) (memspace_map (vspa_sec_info d))
            (vspa_memspace_count (vspa_sec_info d)) (Map (zeros (8 * fh_shnum hd))));
  spec_loop (Z.to_nat (fh_shnum hd)) m0 img hd si str fw_size (axi_data_width (hardware d) / 8) 0 0 r.

Lemma mw_loop_map fuel m fin : ∀ pos si si' b, section_memspace_map si = Map b →
  mw_loop fuel m pos fin si = Some si' → ∃ b', section_memspace_map si' = Map b'.
Proof.
  induction fuel as [|fuel IH]; intros pos si si' b Hb Hl; cbn [mw_loop] in Hl; case_decide; try done.
  1,2: injection Hl as <-; by exists b.
  apply bind_Some' in Hl as (sz & _ & Hl). apply bind_Some' in Hl as (ty & _ & Hl).
  case_decide; [injection Hl as <-; by exists b|]. cbv zeta in Hl. apply bind_Some' in Hl as (si1 & Ha & Hl).
  assert (Hb1 : ∃ b', section_memspace_map si1 = Map b').
  { destruct (decide (ty = MW_INFO_TYPE_14)); [|destruct (decide (ty = MW_INFO_TYPE_15))].
    - apply bind_Some' in Ha as (mp & _ & [= <-]). by exists b.
    - unfold add_section in Ha. rewrite Hb in Ha. apply bind_Some' in Ha as (mp & _ & [= <-]). by eexists.
    - injection Ha as <-. by exists b. }
  destruct Hb1 as [b1 Hb1]. case_decide; [done|]. by eapply IH.
Qed.
Lemma put_dev_run n d d' (w : vspa_world dsp) : get_dev n w = Some (d, w) →
  ∃ l, put_dev n (Some d') w = Some (tt, with_priv (Some l) w) ∧
    get_dev n (with_priv (Some l) w) = Some (d', with_priv (Some l) w).
Proof.
  unfold get_dev, put_dev. destruct (vspa_priv w) as [l|] eqn:Hl; [|done].
  destruct (l !! n) as [[d1|]|] eqn:Hn; try done. intros _. exists (<[n := Some d']> l).
  split; [unfold modify; by rewrite Hl|]. cbn [vspa_priv with_priv].
  by rewrite list_lookup_insert_eq by by eapply lookup_lt_Some.
Qed.

Lemma load_sections_does n d hd fw_size s r' w : dsp_ok n d w → at_ ≤ img w →
  at_ + MAX_DMA_TRANSFER ≤ zlen (fw_mem w) →
  read_section_header (fw_mem w) (img w + fh_shoff hd) (fh_shstrndx hd) = Some s →
  spec_loop (Z.to_nat (fh_shnum hd)) (fw_mem w) (img w) hd (vspa_sec_info d) (img w + sec_offset s) fw_size
    (axi_data_width (hardware d) / 8) 0 0 (overlay_mem w, pebm_mem w, sent (hw w)) = Some r' →
  ∃ w', fw_read_and_load_sections k n hd fw_size w = Some (0, w') ∧ (overlay_mem w', pebm_mem w', sent (hw w')) = r' ∧
    get_dev n w' = Some (set_sec_info (free_map (vspa_sec_info d)) d, w').
Proof.
  intros Hok Hat Hroom Hs Hspec.
  assert (H0 : so_far w 0 (overlay_mem w, pebm_mem w, sent (hw w)) w).
  { exists (fw_mem w), (hw w). split; [by destruct w|]. by split_and!. }
  destruct (load_loop_does w n d Hok Hat _ hd _ _ _ _ _ _ _ None w H0 ltac:(lia) Hroom Hspec)
    as (top & w1 & Hrun & Hw1).
  assert (Hd1 := so_far_ok _ _ _ _ _ _ Hw1 Hok). destruct Hd1 as (Hd1 & _).
  destruct (put_dev_run n d (set_sec_info (free_map (vspa_sec_info d)) d) w1 Hd1) as (l & Hput & Hget).
  exists (with_priv (Some l) w1). split; [|split; [|done]].
  - unfold fw_read_and_load_sections. rewrite !(M_bind_run _ _ w _ _ eq_refl), Hs, (M_bind_run _ _ w _ _ eq_refl).
    destruct Hok as (Hd & _). rewrite (M_bind_run _ _ _ _ _ Hd), (M_bind_run _ _ _ _ _ Hrun).
    unfold upd_dev. rewrite M_bind_eq, (M_bind_run _ _ _ _ _ Hd1), Hput. done.
  - destruct r' as [[o p] ts]. destruct Hw1 as (m & h & -> & Hts & _). cbn. by rewrite Hts.
Qed.

End Load.

(** ** The table of memory spaces

    The records of .mw_info: a size byte, three more, a type byte and the body. *)
Inductive mw_record := MemSpace (body : list Z) | SecSpace (body : list Z) | OtherRecord (ty : Z) (body : list Z).
Definition rec_type (r : mw_record) : Z :=
  match r with MemSpace _ => 14 | SecSpace _ => 15 | OtherRecord ty _ => ty end.
Definition rec_body (r : mw_record) : list Z :=
  match r with MemSpace b => b | SecSpace b => b | OtherRecord _ b => b end.
Definition rec_ok (r : mw_record) : Prop :=
  match r with
  | MemSpace b => zlen b = 36
  | SecSpace b => zlen b = 8
  | OtherRecord ty b => ty ≠ 0 ∧ ty ≠ 14 ∧ ty ≠ 15 ∧ 0 < 5 + zlen b < 256
  end.
Definition encode (r : mw_record) : list Z := [5 + zlen (rec_body r); 0; 0; 0; rec_type r] ++ rec_body r.
Definition spaces (rs : list mw_record) : list (list Z) :=
  omap (λ r, match r with MemSpace b => Some b | _ => None end) rs.
Definition sections (rs : list mw_record) : list (list Z) :=
  omap (λ r, match r with SecSpace b => Some b | _ => None end) rs.

(** An array of which the first entries are filled. *)
Definition table (t : list (list Z)) (rest : buffer) : buffer := init (concat t) ++ rest.

Lemma table_add t b rest c : (∀ x, x ∈ t → zlen x = zlen b) → zlen b ≤ zlen rest →
  c = zlen t → 
  blit (table t rest) (zlen b * c) (init b) = Some (table (t ++ [b]) (drop (length b) rest)).
Proof.
  intros Ht Hr ->. unfold table. rewrite <- (take_drop (length b) rest) at 1.
  rewrite (blit_exact _ (take (length b) rest)).
  - by rewrite concat_app, init_app, <- app_assoc; cbn; rewrite app_nil_r.
  - rewrite zlen_init. clear Hr. induction t as [|x t IH]; [unfold zlen; cbn; lia|]. cbn [concat].
    rewrite zlen_app, zlen_cons, (Ht x) by set_solver. rewrite <- IH by set_solver. lia.
  - rewrite length_init, length_take. unfold zlen in Hr. lia.
Qed.

(** What the loop makes of the records, one at a time. *)
Definition add_record (r : mw_record) (t u : list (list Z)) : list (list Z) * list (list Z) :=
  match r with MemSpace b => (t ++ [b], u) | SecSpace b => (t, u ++ [b]) | OtherRecord _ _ => (t, u) end.

(** The information with the tables [t] and [u] filled into arrays of 4 and
    [cnt] entries. *)
Definition info_of (cnt : Z) (t u : list (list Z)) : vspa_section_info :=
  SecInfo (zlen u) (table t (zeros (144 - 36 * zlen t))) (zlen t) (Map (table u (zeros (8 * cnt - 8 * zlen u)))).

Lemma memcpy_from (dst : buffer) (i : Z) (c1 c2 : buffer) (b : list Z) (c3 : buffer) :
  memcpy dst i (c1 ++ c2 ++ init b ++ c3) (zlen c1 + zlen c2) (zlen b) = blit dst i (init b).
Proof.
  unfold memcpy. rewrite (app_assoc c1 c2), sub_exact with (c := init b); [done| |].
  - by rewrite zlen_app.
  - by rewrite zlen_init.
Qed.
Lemma drop_zero_cells (b : list Z) n : 0 ≤ n → drop (length b) (zeros n) = zeros (n - zlen b).
Proof. intros Hn. unfold zeros, zlen. rewrite drop_replicate. f_equal. lia. Qed.

Section Records.
Variables (cnt : Z).
Definition fits (t u : list (list Z)) : Prop :=
  (∀ x, x ∈ t → zlen x = 36) ∧ (∀ x, x ∈ u → zlen x = 8) ∧ zlen t ≤ 4 ∧ zlen u ≤ cnt.

Lemma record_read fuel a r c fin t u :
  rec_ok r → zlen a < fin →
  (let '(t', u') := add_record r t u in fits t' u') →
  mw_loop (S fuel) (a ++ init (encode r) ++ c) (zlen a) fin (info_of cnt t u) =
  (let '(t', u') := add_record r t u in
   mw_loop fuel (a ++ init (encode r) ++ c) (zlen a + zlen (encode r)) fin (info_of cnt t' u')).
Proof.
  intros Hr Hf Hfit. cbn [mw_loop]. rewrite decide_False by lia.
  unfold encode. rewrite init_app, <- app_assoc.
  set (hdr := init [5 + zlen (rec_body r); 0; 0; 0; rec_type r]).
  rewrite !(rd_app_r a) by lia. rewrite Z.sub_diag, Z.add_simpl_l.
  rewrite !(rd_app_l hdr) by done. 
  change (rd hdr 0) with (Some (5 + zlen (rec_body r))). change (rd hdr 4) with (Some (rec_type r)).
  cbn [mbind option_bind].
  assert (Hb : 0 < 5 + zlen (rec_body r) < 256) by (destruct r; cbn in *; lia).
  assert (Hn : u32 (5 + zlen (rec_body r) - 5) = zlen (rec_body r)).
  { pose proof (zlen_nonneg (rec_body r)). unfold u32. rewrite Z.mod_small; lia. }
  rewrite Hn, (decide_False (P := rec_type r = 0)) by (destruct r; cbn in *; lia).
  replace (zlen (_ ++ rec_body r)) with (5 + zlen (rec_body r)) by (rewrite zlen_app; done).
  destruct r as [b|b|ty b]; cbn [rec_type rec_body add_record rec_ok] in *.
  - destruct Hfit as (Ht & Hu & Hc & Hd). rewrite zlen_app, zlen_cons, zlen_nil in Hc.
    rewrite decide_True by done. unfold add_memspace. cbn [info_of memspace_map vspa_memspace_count].
    change 5 with (zlen hdr) at 1.
    rewrite memcpy_from, <- Hr, table_add; [|intros x Hx; rewrite Hr; apply Ht; set_solver| |done].
    + cbn [mbind option_bind vspa_sec_count section_memspace_map info_of]. rewrite decide_False by lia.
      unfold info_of. rewrite zlen_app, zlen_cons, zlen_nil, drop_zero_cells, Hr, Z.add_0_r by lia.
      by replace (144 - 36 * (zlen t + 1)) with (144 - 36 * zlen t - 36) by lia.
    + rewrite zlen_zeros; lia.
  - destruct Hfit as (Ht & Hu & Hc & Hd). rewrite zlen_app, zlen_cons, zlen_nil in Hd.
    rewrite decide_False, decide_True by done. unfold add_section.
    cbn [info_of section_memspace_map vspa_sec_count]. change 5 with (zlen hdr) at 1.
    rewrite memcpy_from, <- Hr, table_add; [|intros x Hx; rewrite Hr; apply Hu; set_solver| |done].
    + cbn [mbind option_bind memspace_map vspa_memspace_count info_of]. rewrite decide_False by lia.
      unfold info_of. rewrite zlen_app, zlen_cons, zlen_nil, drop_zero_cells, Hr, Z.add_0_r by lia.
      by replace (8 * cnt - 8 * (zlen u + 1)) with (8 * cnt - 8 * zlen u - 8) by lia.
    + rewrite zlen_zeros; lia.
  - rewrite !decide_False by (unfold MW_INFO_TYPE_14, MW_INFO_TYPE_15; lia).
    cbn [mbind option_bind]. by rewrite decide_False by lia.
Qed.

Definition encode_all (rs : list mw_record) : list Z := concat (encode <$> rs).

Lemma fits_prefix t t' u u' : fits (t ++ t') (u ++ u') → fits t u.
Proof.
  intros (Ht & Hu & Hc & Hd). rewrite zlen_app in Hc, Hd. pose proof (zlen_nonneg t'). pose proof (zlen_nonneg u').
  split_and!; [set_solver..|lia|lia].
Qed.
Lemma zlen_encode r : rec_ok r → 0 < zlen (encode r).
Proof. unfold encode. rewrite zlen_app. pose proof (zlen_nonneg (rec_body r)). unfold zlen at 1. cbn. lia. Qed.

(** The loop from the first of [rs] to its end or to the terminator. *)
Lemma records_read rs : ∀ fuel a c fin t u,
  Forall rec_ok rs → fits (t ++ spaces rs) (u ++ sections rs) → fin - zlen a ≤ Z.of_nat fuel →
  (zlen a + zlen (encode_all rs) = fin ∨
   zlen a + zlen (encode_all rs) < fin ∧ ∃ x c', c = init [x; 0; 0; 0; 0] ++ c') →
  mw_loop fuel (a ++ init (encode_all rs) ++ c) (zlen a) fin (info_of cnt t u) =
    Some (info_of cnt (t ++ spaces rs) (u ++ sections rs)).
Proof.
  induction rs as [|r rs IH]; intros fuel a c fin t u Hok Hfit Hfuel Hend.
  - unfold encode_all in *. cbn [fmap list_fmap concat] in *. rewrite zlen_nil in Hend.
    change (spaces []) with (@nil (list Z)). change (sections []) with (@nil (list Z)).
    change (init []) with (@nil (option Z)). cbn [app]. rewrite !app_nil_r.
    destruct Hend as [Hend|[Hend (x & c' & ->)]].
    + destruct fuel; cbn [mw_loop]; by rewrite decide_True by lia.
    + destruct fuel as [|fuel]; [lia|]. cbn [mw_loop]. rewrite decide_False by lia.
      rewrite !(rd_app_r a) by lia. by rewrite Z.sub_diag, Z.add_simpl_l.
  - apply Forall_cons in Hok as [Hr Hok]. assert (Hpos := zlen_encode r Hr).
    change (encode_all (r :: rs)) with (encode r ++ encode_all rs) in *.
    rewrite zlen_app in Hend. pose proof (zlen_nonneg (encode_all rs)).
    assert (Hlt : zlen a < fin) by lia. destruct fuel as [|fuel]; [lia|].
    assert (Hadd : let '(t', u') := add_record r t u in
      t ++ spaces (r :: rs) = t' ++ spaces rs ∧ u ++ sections (r :: rs) = u' ++ sections rs).
    { destruct r; cbn; by rewrite <- ?app_assoc. }
    rewrite init_app, <- app_assoc. destruct (add_record r t u) as [t' u'] eqn:Htu.
    destruct Hadd as [Ht Hu]. rewrite Ht, Hu in *. rewrite record_read; [rewrite Htu|done|done|].
    + replace (zlen a + zlen (encode r)) with (zlen (a ++ init (encode r))) by by rewrite zlen_app, zlen_init.
      rewrite app_assoc. apply IH; [done..| |]; rewrite zlen_app, zlen_init; [lia|].
      destruct Hend as [Hend|[Hend Hx]]; [left; lia|right; split; [lia|done]].
    + rewrite Htu. by eapply fits_prefix.
Qed.
End Records.

(** ** What the tables decide *)

(** A little-endian word of four bytes. *)
Definition word_le (x : list Z) : Z :=
  match x with [a; b; c; d] => a + 256 * b + 65536 * (c + 256 * d) | _ => 0 end.
Definition field (x : list Z) (i : nat) : Z := word_le (take 4 (drop i x)).

(** The memory space of section [sec] and the mode of a memory space: by the
    first entry that names it. *)
Definition space_of (u : list (list Z)) (sec : Z) : Z :=
  match list_find (λ x, field x 0 = sec) u with Some (_, x) => i8 (field x 4) | None => -1 end.

Lemma rd32_table t rest x i o n : (∀ y, y ∈ t → zlen y = Z.of_nat n) → t !! i = Some x → (o + 4 ≤ n)%nat →
  rd32 (table t rest) (Z.of_nat n * Z.of_nat i + Z.of_nat o) = Some (field x o).
Proof.
  intros Ht Hi Ho. assert (Hx : length x = n).
  { apply list_elem_of_lookup_2 in Hi. apply Ht in Hi. unfold zlen in Hi. lia. }
  assert (Hs : ∃ p a b c d q, x = p ++ [a; b; c; d] ++ q ∧ length p = o).
  { assert (Hd : (4 ≤ length (drop o x))%nat) by (rewrite length_drop; lia).
    exists (take o x). destruct (drop o x) as [|a [|b [|c [|d q]]]] eqn:Hq; cbn in Hd; try lia.
    exists a, b, c, d, q. split; [|rewrite length_take; lia].
    rewrite <- (take_drop o x) at 1. by rewrite Hq. }
  destruct Hs as (p & a & b & c & d & q & -> & Hp).
  unfold field. rewrite drop_app_length' by done. cbn [take app word_le].
  assert (Hpre : length (concat (take i t)) = (n * i)%nat).
  { apply lookup_lt_Some in Hi. clear -Ht Hi. revert t Ht Hi. induction i as [|i IH]; intros [|y t] Ht Hi; cbn in *; try lia.
    rewrite length_app, IH by (set_solver || lia). specialize (Ht y ltac:(set_solver)). unfold zlen in Ht. lia. }
  unfold table. rewrite <- (take_drop_middle t i _ Hi), concat_app. cbn [concat].
  rewrite <- !app_assoc, !init_app, <- !app_assoc, (app_assoc (init (concat _))).
  set (pre := init (concat (take i t)) ++ init p).
  assert (Hl : Z.of_nat n * Z.of_nat i + Z.of_nat o = zlen pre).
  { unfold pre. rewrite zlen_app, !zlen_init. unfold zlen. rewrite Hpre. lia. }
  rewrite Hl. unfold rd32, rd16. rewrite <- !Z.add_assoc, !(rd_app_r pre) by lia. rewrite Z.sub_diag, !Z.add_simpl_l.
  transitivity (Some ((a + 256 * b) + 65536 * (c + 256 * d))); [reflexivity|]. destruct q; cbn [take]; f_equal; lia.
Qed.

Lemma find_section_is t rest sec cnt : ∀ i : nat, (∀ y, y ∈ t → zlen y = 8) → (i + cnt)%nat = length t →
  find_section (table t rest) (Z.of_nat i) cnt sec =
  Some match list_find (λ x, field x 0 = sec) (drop i t) with Some (_, x) => i8 (field x 4) | None => -1 end.
Proof.
  induction cnt as [|cnt IH]; intros i Ht Hi; cbn [find_section].
  { by rewrite drop_ge by lia. }
  destruct (lookup_lt_is_Some_2 t i ltac:(lia)) as [x Hx].
  rewrite (drop_S _ _ _ Hx). cbn [list_find].
  assert (H0 := rd32_table t rest x i 0 8 Ht Hx ltac:(lia)).
  assert (H4 := rd32_table t rest x i 4 8 Ht Hx ltac:(lia)).
  change (Z.of_nat 8) with 8 in *. change (Z.of_nat 0) with 0 in *. change (Z.of_nat 4) with 4 in *.
  rewrite Z.add_0_r in H0. rewrite H0. cbn [mbind option_bind].
  destruct (decide (field x 0 = sec)) as [He|He].
  - by rewrite H4.
  - replace (Z.of_nat i + 1) with (Z.of_nat (S i)) by lia.
    rewrite IH by (done || lia). by destruct (list_find _ _) as [[j y]|].
Qed.
Lemma find_memspace_is t rest id cnt : ∀ i : nat, (∀ y, y ∈ t → zlen y = 36) → (i + cnt)%nat = length t →
  find_memspace (table t rest) (Z.of_nat i) cnt id =
  Some match list_find (λ x, field x 0 = u32 id) (drop i t) with
       | Some (j, _) => Some (36 * Z.of_nat (i + j) + 20) | None => None end.
Proof.
  induction cnt as [|cnt IH]; intros i Ht Hi; cbn [find_memspace].
  { by rewrite drop_ge by lia. }
  destruct (lookup_lt_is_Some_2 t i ltac:(lia)) as [x Hx].
  rewrite (drop_S _ _ _ Hx). cbn [list_find].
  assert (H0 := rd32_table t rest x i 0 36 Ht Hx ltac:(lia)).
  change (Z.of_nat 36) with 36 in *. change (Z.of_nat 0) with 0 in *.
  rewrite Z.add_0_r in H0. rewrite H0. cbn [mbind option_bind].
  destruct (decide (field x 0 = u32 id)) as [He|He].
  - by rewrite Nat.add_0_r.
  - replace (Z.of_nat i + 1) with (Z.of_nat (S i)) by lia.
    rewrite IH by (done || lia). destruct (list_find _ _) as [[j y]|]; cbn; [|done]. do 3 f_equal. lia.
Qed.

(** A string in memory up to its terminator. *)
Fixpoint c_string (l : list Z) : list Z :=
  match l with [] => [] | c :: l => if decide (c = 0) then [] else c :: c_string l end.
Lemma c_string_split l : 0 ∈ l → ∃ post, l = c_string l ++ 0 :: post ∧ 0 ∉ c_string l.
Proof.
  induction l as [|c l IH]; intros H0; [by apply not_elem_of_nil in H0|]. cbn [c_string].
  case_decide as Hc; [subst; exists l; set_solver|]. destruct IH as (post & Hl & Hn); [set_solver|].
  exists post. cbn. rewrite <- Hl. set_solver.
Qed.
Lemma strcmp_eq_is str : ∀ lit pre post, 0 ∉ str → 0 ∉ lit →
  strcmp_eq (pre ++ init (str ++ [0]) ++ post) (zlen pre) lit = Some (bool_decide (str = lit)).
Proof.
  unfold strcmp_eq. induction str as [|c str IH]; intros lit pre post Hs Hl;
    (destruct lit as [|x lit]; cbn [app strncmp_eq]; rewrite rd_app_r, Z.sub_diag by lia).
  - done.
  - change (rd (init [0] ++ post) 0) with (Some 0). cbn [mbind option_bind].
    rewrite decide_False by set_solver. by rewrite bool_decide_false.
  - change (rd (init (c :: str ++ [0]) ++ post) 0) with (Some c). cbn [mbind option_bind].
    rewrite decide_False by set_solver. by rewrite bool_decide_false.
  - change (rd (init (c :: str ++ [0]) ++ post) 0) with (Some c). cbn [mbind option_bind].
    destruct (decide (c = x)) as [->|Hcx]; [|by rewrite bool_decide_false by congruence].
    assert (H1 := IH lit (pre ++ [Some x]) post ltac:(set_solver) ltac:(set_solver)).
    rewrite zlen_app in H1. change (zlen [Some x]) with 1 in H1. rewrite <- app_assoc in H1.
    etransitivity; [exact H1|]. f_equal. apply bool_decide_ext. split; congruence.
Qed.

(** The transfer mode of a memory space of that name. *)
Definition mode_of (name : list Z) : Z :=
  if decide (name = chars "axim") then AXI_NC
  else if decide (name = chars "dram") then DMEM_NC
  else if decide (name = chars "ippu" ∨ name = chars "ippu_pram") then IPPUPRAM
  else if decide (name = chars "vcpu" ∨ name = chars "vcpu_pram") then PRAM
  else NO_LOAD.
Definition space_mode (t : list (list Z)) (space : Z) : Z :=
  match list_find (λ x, field x 0 = u32 space) t with Some (_, x) => mode_of (c_string (drop 20 x)) | None => NO_LOAD end.

Lemma mode_of_name_is str pre post : 0 ∉ str →
  mode_of_name (pre ++ init (str ++ [0]) ++ post) (zlen pre) = Some (mode_of str).
Proof.
  intros Hs. unfold mode_of_name, mode_of.
  rewrite !strcmp_eq_is by (done || (vm_compute; set_solver)). cbn [mbind option_bind].
  repeat case_bool_decide; repeat case_decide; try done; tauto.
Qed.

Lemma table_lookup_name t rest x (j : nat) : (∀ y, y ∈ t → zlen y = 36) → t !! j = Some x → 0 ∈ drop 20 x →
  mode_of_name (table t rest) (36 * Z.of_nat j + 20) = Some (mode_of (c_string (drop 20 x))).
Proof.
  intros Ht Hj H0. assert (Hx : length x = 36%nat).
  { apply list_elem_of_lookup_2 in Hj as Hj'. apply Ht in Hj'. unfold zlen in Hj'. lia. }
  destruct (c_string_split _ H0) as (post & Hp & Hn).
  unfold table. rewrite <- (take_drop_middle t j _ Hj), concat_app. cbn [concat].
  rewrite <- (take_drop 20 x) at 1. rewrite Hp at 1.
  replace (init (concat (take j t) ++ (take 20 x ++ c_string (drop 20 x) ++ 0 :: post) ++ concat (drop (S j) t)) ++ rest)
    with ((init (concat (take j t) ++ take 20 x)) ++ init (c_string (drop 20 x) ++ [0]) ++
          (init post ++ init (concat (drop (S j) t)) ++ rest)).
  2:{ rewrite !init_app, <- !app_assoc. cbn -[init]. done. }
  rewrite <- (mode_of_name_is _ (init (concat (take j t) ++ take 20 x))
    (init post ++ init (concat (drop (S j) t)) ++ rest)) by done.
  f_equal. rewrite zlen_init, zlen_app. unfold zlen at 2. rewrite length_take, Hx.
  assert (Hc : zlen (concat (take j t)) = 36 * Z.of_nat j); [|lia].
  apply lookup_lt_Some in Hj. clear -Ht Hj. revert t Ht Hj.
  induction j as [|j IH]; intros [|y t] Ht Hj; cbn [take concat length] in *; try (unfold zlen; cbn; lia).
  rewrite zlen_app, IH by (set_solver || lia). rewrite (Ht y) by set_solver. lia.
Qed.

Lemma zlen_nat {A} (l : list A) : Z.to_nat (zlen l) = length l.
Proof. unfold zlen. lia. Qed.

(** C6: The records of .mw_info decide where a section goes.  After any records
    that fit the arrays, up to the end of the section or a record of type 0, a
    section is in the memory space of the first entry that names it, and the mode
    of a memory space is that of the name of its first entry. *)
Theorem vspa_modes_decided rs cnt a c fin :
  Forall rec_ok rs → fits cnt (spaces rs) (sections rs) → zlen (sections rs) ≤ 128 →
  Forall (λ x, 0 ∈ drop 20 x) (spaces rs) →
  (zlen a + zlen (encode_all rs) = fin ∨
   zlen a + zlen (encode_all rs) < fin ∧ ∃ x c', c = init [x; 0; 0; 0; 0] ++ c') →
  ∃ si, mw_loop (Z.to_nat (fin - zlen a)) (a ++ init (encode_all rs) ++ c) (zlen a) fin
          (SecInfo 0 (zeros 144) 0 (Map (zeros (8 * cnt)))) = Some si ∧
    (∀ sec, is_vspa_section_valid si sec = Some (space_of (sections rs) sec)) ∧
    (∀ space, 0 ≤ space → get_vspa_section_trans_mode si space = Some (space_mode (spaces rs) space)).
Proof.
  intros Hok Hfit Hn Hz Hend. assert (Hf := Hfit). destruct Hf as (Ht & Hu & Hc & Hd).
  exists (info_of cnt (spaces rs) (sections rs)). split; [|split].
  - etransitivity; [|apply (records_read cnt rs (Z.to_nat (fin - zlen a)) a c fin [] [] Hok Hfit); [lia|done]]. f_equal.
    transitivity (SecInfo 0 (zeros 144) 0 (Map (zeros (8 * cnt - 0)))); [by rewrite Z.sub_0_r|reflexivity].
  - intros sec. unfold is_vspa_section_valid. cbn [info_of vspa_sec_count section_memspace_map].
    unfold turns8, space_of. rewrite Z.min_l by done. rewrite (zlen_nat (sections rs)).
    destruct (length (sections rs)) as [|l] eqn:Hl.
    + by apply nil_length_inv in Hl as ->.
    + change 0 with (Z.of_nat 0). by rewrite find_section_is by done.
  - intros space Hs. unfold get_vspa_section_trans_mode. rewrite decide_False by lia.
    cbn [info_of vspa_memspace_count memspace_map]. unfold turns8, space_mode. rewrite Z.min_l by lia.
    rewrite (zlen_nat (spaces rs)). change 0 with (Z.of_nat 0) at 1.
    rewrite find_memspace_is by done. cbn [mbind option_bind drop].
    destruct (list_find _ _) as [[j x]|] eqn:Hl; [|done].
    apply list_find_Some in Hl as (Hj & _). apply table_lookup_name; [done..|].
    rewrite Forall_lookup in Hz. by eapply Hz.
Qed.

(** The arrays do not grow: a fifth memory space is stored behind them. *)
Lemma fifth_memory_space_overflows :
  mw_loop 300 (init (encode_all (replicate 5 (MemSpace (replicate 36 1))) ++ [0; 0; 0; 0; 0])) 0 210
    (SecInfo 0 (zeros 144) 0 (Map (zeros 8))) = None.
Proof. by vm_compute. Qed.

(** ** Probing all the cores *)

Lemma keeps_until {W X S R} (f : W → X) (step : S → M W (S + R)) n :
  (∀ s, keeps f (step s)) → ∀ s, keeps f (until step n s).
Proof.
  intros Hs.
  assert (Hor : ∀ n, (∀ s, keeps f (until step n s)) → ∀ r, keeps f (or_else r (until step n))).
  { intros m Hm [s|r]; cbn [or_else]; auto with keeps. }
  induction n as [p IH|p IH|]; intros s; cbn [until]; auto.
  - apply keeps_bind; [done|]. intros r. apply keeps_bind; auto.
  - apply keeps_bind; auto.
Qed.

Section Probe.
Context {H : Type} `{VspaHw H, ScratchIf}.
Variable k : vspa_kernel.

(** What the work on core [n] keeps: the flags, and the other cores. *)
Definition others (n : nat) (w : vspa_world H) : list bool * bool * option (list (option vspa_device)) :=
  (vspa_firmware_status w, host_ready w, <[n := None]> <$> vspa_priv w).

Lemma rd_reg_others n r : keeps (others n) (rd_reg n r).
Proof. intros w v w'. unfold rd_reg. destruct (vspa_reg_read _ _ _ _). by intros [= _ <-]. Qed.
Lemma wr_reg_others n r v : keeps (others n) (wr_reg n r v).
Proof. by apply keeps_modify. Qed.
Lemma get_dev_others n : keeps (others n) (get_dev n).
Proof.
  intros w d w'. unfold get_dev. destruct (vspa_priv w) as [l|]; [|done].
  by destruct (l !! n) as [[?|]|]; [intros [= _ <-]| |].
Qed.
Lemma put_dev_others n d : keeps (others n) (put_dev n d).
Proof.
  apply keeps_modify. intros w. unfold others. cbn. destruct (vspa_priv w) as [l|]; [|done]. cbn.
  by rewrite list_insert_insert_eq.
Qed.
Hint Resolve rd_reg_others wr_reg_others get_dev_others put_dev_others : keeps.
Lemma upd_dev_others n f : keeps (others n) (upd_dev n f).
Proof. unfold upd_dev. keeps_tac. Qed.
Lemma poll_others n c r bits : keeps (others n) (poll c n r bits).
Proof. unfold poll. apply keeps_bind; [apply keeps_until; intros s; unfold poll_step|intros r']; keeps_tac. Qed.
Hint Resolve upd_dev_others poll_others : keeps.
Lemma startup_others n : keeps (others n) (startup n).
Proof. unfold startup, startup_fail. keeps_tac. Qed.
Lemma dma_write_others n phys size offset xfr : keeps (others n) (vspa_fw_dma_write k n phys size offset xfr).
Proof.
  unfold vspa_fw_dma_write. generalize (Z.to_nat (size / MAX_DMA_TRANSFER + 1)). intros fuel.
  revert phys size offset. induction fuel as [|fuel IH]; intros phys size offset; cbn [dma_loop]; [by intros w a w'|].
  apply keeps_bind; [unfold dma_chunk, dma_raw_transmit; keeps_tac|intros rc]. keeps_tac.
Qed.
Hint Resolve startup_others dma_write_others : keeps.
Lemma load_loop_others cnt : ∀ n hd str fw_size axi_align i ptr,
  keeps (others n) (load_loop k cnt n hd str fw_size axi_align i ptr).
Proof.
  induction cnt as [|cnt IH]; intros; cbn [load_loop]; [auto with keeps|].
  unfold load_ignored, copy_overlay. keeps_tac.
Qed.
Hint Resolve load_loop_others : keeps.
Lemma get_fw_image_others n : keeps (others n) (vspa_get_fw_image k n).
Proof.
  unfold vspa_get_fw_image, gul_load_vspa_image, fw_read_and_load_sections_info, fw_read_and_load_sections.
  keeps_tac.
Qed.
Hint Resolve get_fw_image_others : keeps.
Lemma probe_core_others n : keeps (others n) (vspa_probe_core k n).
Proof. unfold vspa_probe_core. keeps_tac. Qed.

Lemma get_dev_same n (w : vspa_world H) d w' : get_dev n w = Some (d, w') → w' = w.
Proof.
  unfold get_dev. destruct (vspa_priv w) as [l|]; [|done]. by destruct (l !! n) as [[?|]|]; [intros [= _ <-]| |].
Qed.

(** A core that was probed runs. *)
Lemma startup_running n (w w' : vspa_world H) : startup n w = Some (0, w') →
  ∃ d, get_dev n w' = Some (d, w') ∧ state d = VSPA_STATE_RUNNING_IDLE.
Proof.
  intros Hr. assert (Hd : ∃ l d, vspa_priv w = Some l ∧ l !! n = Some (Some d)).
  { unfold startup, upd_dev in Hr. apply M_bind_Some in Hr as (v & w1 & Hr1 & Hr).
    apply M_bind_Some in Hr as (u & w2 & Hr2 & Hr). apply M_bind_Some in Hr as (u' & w3 & Hr3 & Hr).
    apply M_bind_Some in Hr3 as (d & w4 & Hr3 & _). unfold rd_reg in Hr1. destruct (vspa_reg_read _ _ _ _) as [x h].
    injection Hr1 as <- <-. injection Hr2 as <- <-. unfold get_dev in Hr3. cbn in Hr3.
    destruct (vspa_priv w) as [l|]; [|done]. destruct (l !! n) as [[d'|]|] eqn:Hl; try done. by exists l, d'. }
  destruct Hd as (l & d & Hl & Hn).
  assert (Hc : core w l n d w).
  { split; [by eapply lookup_lt_Some|]. exists (hw w). rewrite list_insert_id by done. by destruct w; cbn in *; subst. }
  assert (Hs := startup_core False w l n d w Hc). rewrite Hr in Hs.
  destruct Hs as (d' & Hc' & He & _). exists d'. split.
  - assert (Hg := get_dev_core False w l n d' w' Hc'). destruct (get_dev n w') as [[d2 w2]|] eqn:Hg'; [|done].
    destruct Hg as [-> _]. by rewrite (get_dev_same _ _ _ _ Hg').
  - by inversion He.
Qed.
Lemma wr_reg_running n r v (w w' : vspa_world H) u :
  wr_reg n r v w = Some (u, w') → (∃ d, get_dev n w = Some (d, w) ∧ state d = VSPA_STATE_RUNNING_IDLE) →
  ∃ d, get_dev n w' = Some (d, w') ∧ state d = VSPA_STATE_RUNNING_IDLE.
Proof.
  intros [= _ <-] (d & Hd & Hs). exists d. split; [|done]. unfold get_dev in *. cbn.
  destruct (vspa_priv w) as [l|]; [|done]. by destruct (l !! n) as [[d'|]|]; [injection Hd as ->| |].
Qed.
Lemma probe_core_result n (w w' : vspa_world H) rc : vspa_probe_core k n w = Some (rc, w') →
  rc = - EBADRQC ∨ rc = 0 ∧ ∃ d, get_dev n w' = Some (d, w') ∧ state d = VSPA_STATE_RUNNING_IDLE.
Proof.
  unfold vspa_probe_core. do 16 (intros (? & ? & _ & Hr)%M_bind_Some; revert Hr).
  intros (rc1 & w1 & _ & Hr)%M_bind_Some. destruct (decide (rc1 ≠ 0)); [left; by injection Hr|].
  apply M_bind_Some in Hr as (? & ? & _ & Hr).
  apply M_bind_Some in Hr as (rc2 & w2 & Hst & Hr). destruct (decide (rc2 ≠ 0)) as [|Hz]; [left; by injection Hr|].
  assert (rc2 = 0) as -> by lia. apply startup_running in Hst.
  case_decide; [left; by injection Hr|].
  do 3 (apply M_bind_Some in Hr as (? & ? & Hw & Hr); apply wr_reg_running in Hw; [|done]; clear Hst; rename Hw into Hst).
  injection Hr as <- <-. by right.
Qed.

(** [n] cores are up. *)
Definition up_to (ready : bool) (n : nat) (w : vspa_world H) : Prop :=
  ∃ l, vspa_priv w = Some l ∧ length l = MAX_VSPA ∧
    (∀ i, (i < n)%nat → ∃ d, l !! i = Some (Some d) ∧ state d = VSPA_STATE_RUNNING_IDLE) ∧
    vspa_firmware_status w = replicate n true ++ replicate (MAX_VSPA - n) false ∧ host_ready w = ready.

Lemma up_to_next ready n d (w w1 w2 : vspa_world H) u : (n < MAX_VSPA)%nat → up_to ready n w →
  put_dev n d w = Some (u, w1) → others n w2 = others n w1 →
  (∃ d, get_dev n w2 = Some (d, w2) ∧ state d = VSPA_STATE_RUNNING_IDLE) →
  ∃ w3, set_status n true w2 = Some (tt, w3) ∧ up_to ready (S n) w3.
Proof.
  intros Hn (l & Hl & Hlen & Hrun & Hst & Hready) [= _ <-] Ho (d2 & Hd2 & Hs2). unfold others in Ho.
  injection Ho as Hst2 Hready2 Hp. cbn in *. rewrite Hl in Hp. cbn in Hp.
  destruct (vspa_priv w2) as [l2|] eqn:Hl2; [|done]. cbn in Hp. injection Hp as Hp.
  rewrite list_insert_insert_eq in Hp.
  eexists. split; [done|]. exists l2. split; [done|]. split; [|split; [|split]].
  - apply (f_equal length) in Hp. by rewrite !length_insert, Hlen in Hp.
  - intros i Hi. destruct (decide (i = n)) as [->|Hin].
    + unfold get_dev in Hd2. rewrite Hl2 in Hd2. destruct (l2 !! n) as [[d'|]|]; try done.
      injection Hd2 as ->. by exists d2.
    + apply (f_equal (lookup i)) in Hp. rewrite !list_lookup_insert_ne in Hp by done.
      rewrite Hp. apply Hrun. lia.
  - cbn. rewrite Hst2, Hst. unfold MAX_VSPA in *. replace (8 - n)%nat with (S (8 - S n)) by lia.
    cbn [replicate]. rewrite insert_mid by apply length_replicate.
    by rewrite (cons_middle true), app_assoc, <- replicate_S_end.
  - cbn. by rewrite Hready2.
Qed.

(** Nothing is up, and the devices are given up. *)
Definition down (ready : bool) (w : vspa_world H) : Prop :=
  vspa_priv w = None ∧ vspa_firmware_status w = replicate MAX_VSPA false ∧ host_ready w = ready.

Lemma clear_status_run n : ∀ r (w : vspa_world H), vspa_firmware_status w = replicate n true ++ r →
  clear_status n w = Some (tt, with_status (replicate n false ++ r) w).
Proof.
  induction n as [|n IH]; intros r w Hst; cbn [clear_status].
  - cbn in *. rewrite <- Hst. by destruct w.
  - unfold set_status. rewrite (M_bind_run _ _ _ _ _ eq_refl), Hst, replicate_S_end, <- app_assoc. cbn [app].
    rewrite insert_mid by apply length_replicate.
    rewrite (IH (false :: r)) by done. do 2 f_equal.
    by rewrite replicate_S_end, <- app_assoc.
Qed.
Lemma err_out_down ready n (w w' : vspa_world H) u :
  vspa_firmware_status w = replicate n true ++ replicate (MAX_VSPA - n) false → host_ready w = ready →
  (n ≤ MAX_VSPA)%nat → err_mem_single_out n w = Some (u, w') → down ready w'.
Proof.
  intros Hst Hr Hn. unfold err_mem_single_out. rewrite (M_bind_run _ _ _ _ _ (clear_status_run _ _ _ Hst)).
  intros [= _ <-]. split_and!; [done| |done]. unfold MAX_VSPA in *. cbn [with_priv with_status vspa_firmware_status].
  rewrite <- replicate_add. f_equal. lia.
Qed.

Lemma probe_loop_result ready cnt : ∀ n (w w' : vspa_world H) rc, (cnt + n)%nat = MAX_VSPA → up_to ready n w →
  probe_loop k cnt n w = Some (rc, w') →
  rc = 0 ∧ up_to ready MAX_VSPA w' ∨ (rc = - ENOMEM ∨ rc = - EBADRQC) ∧ down ready w'.
Proof.
  induction cnt as [|cnt IH]; intros n w w' rc Hn Hup Hrun; cbn [probe_loop] in Hrun.
  { injection Hrun as <- <-. left. by cbn in Hn; subst. }
  assert (Hup' := Hup). destruct Hup' as (l & _ & _ & _ & Hst & Hready).
  destruct (k_dev k n); cbn [negb] in Hrun.
  - apply M_bind_Some in Hrun as (at_ & w0 & [= <- <-] & Hrun).
    apply M_bind_Some in Hrun as (u & wa & Hput & Hrun). apply M_bind_Some in Hrun as (err & wb & Hcore & Hrun).
    assert (Ho := probe_core_others n wa err wb Hcore). apply probe_core_result in Hcore.
    assert (Hsame : vspa_firmware_status wb = vspa_firmware_status w ∧ host_ready wb = host_ready w).
    { injection Hput as _ <-. unfold others in Ho. by injection Ho. }
    destruct Hsame as [Hs1 Hs2].
    destruct Hcore as [->|(-> & Hg)].
    + rewrite decide_False, decide_True in Hrun by done.
      apply M_bind_Some in Hrun as (u' & w3 & Herr & [= <- <-]). right. split; [by right|].
      eapply err_out_down; [by rewrite Hs1| |unfold MAX_VSPA in *; lia|done]. by rewrite Hs2.
    + rewrite !decide_False in Hrun by done. apply M_bind_Some in Hrun as (u' & w3 & Hset & Hrun).
      destruct (up_to_next ready n _ w wa wb _ ltac:(unfold MAX_VSPA in *; lia) Hup Hput Ho Hg) as (w4 & Hset' & Hup4).
      rewrite Hset' in Hset. injection Hset as <- <-. eapply (IH (S n)); [lia|exact Hup4|exact Hrun].
  - apply M_bind_Some in Hrun as (u' & w3 & Herr & [= <- <-]).
    right. split; [by left|]. eapply err_out_down; [done..| |done]. unfold MAX_VSPA in *; lia.
Qed.

(** C5: Probing the vector processors is all or nothing, whatever the hardware does and
    the kernel grants, whenever the probe returns and no core was reported as loaded
    before. A result of 0 means that all eight cores are running, are reported as
    loaded, and the host is ready; a negative result, that no core is reported as
    loaded, the devices are gone and the host is not made ready. There is one exception,
    which the theorem states as its third case: without memory for the array of devices
    the result is 0 as well, and nothing was done. *)
Theorem vspa_probe_all_or_nothing rc (w w' : vspa_world H) :
  vspa_firmware_status w = replicate MAX_VSPA false → vspa_probe k w = Some (rc, w') →
  k_priv k = true ∧ rc = 0 ∧ up_to true MAX_VSPA w' ∨ k_priv k = true ∧ rc < 0 ∧ down (host_ready w) w' ∨
  k_priv k = false ∧ rc = 0 ∧ w' = w.
Proof.
  intros Hst Hrun. unfold vspa_probe in Hrun. destruct (k_priv k); cbn [negb] in Hrun; [|injection Hrun as <- <-; by right; right].
  destruct (k_dma_region k); cbn [negb] in Hrun; [|injection Hrun as <- <-; right; left; split; [done|]; by split_and!].
  destruct (k_overlay_region k); cbn [negb] in Hrun; [|injection Hrun as <- <-; right; left; split; [done|]; by split_and!].
  apply M_bind_Some in Hrun as (u & w1 & [= _ <-] & Hrun). apply M_bind_Some in Hrun as (rc1 & w2 & Hl & Hrun).
  apply (probe_loop_result (host_ready w)) in Hl; [|done|].
  - destruct Hl as [[-> Hup]|[Hrc Hd]].
    + rewrite decide_False in Hrun by (intros Hn; by apply Hn).
      apply M_bind_Some in Hrun as (u' & w3 & [= _ <-] & [= <- <-]).
      left. split; [done|]. split; [done|]. destruct Hup as (l & Hl1 & Hl2 & Hl3 & Hl4 & _). exists l. by split_and!.
    + rewrite decide_True in Hrun by (destruct Hrc; subst; done). injection Hrun as <- <-. right. left.
      split; [done|]. split; [by destruct Hrc; subst|done].
  - eexists. split_and!; [done|done|intros i; lia|done|done].
Qed.
End Probe.

(** ** Witnesses *)
#[local] Instance demo_scratch_if : ScratchIf := {|
  PAGE_SHIFT := 12; GUL_EP_CORE_MAX := 8; GUL_SCRATCH_DMA_BUF_END_ADDR := 0xE0000000;
  PCI_OUTBOUND_WINDOW_BASE_ADDR := 0xA0000000; GUL_OB_WIN_SCRATCH_BUF := 3 |}.

(** An image: a header, the names, three section headers, .mw_info, the code. *)
Definition le_bytes (n : nat) (x : Z) : list Z := (λ i, x / 256 ^ Z.of_nat i mod 256) <$> seq 0 n.
Definition pad (n : nat) (l : list Z) : list Z := l ++ replicate (n - length l) 0.
Definition demo_section (name addr off size : Z) : list Z :=
  le_bytes 4 name ++ le_bytes 8 0 ++ le_bytes 4 addr ++ le_bytes 4 off ++ le_bytes 4 size ++ replicate 16 0.
Definition demo_space : list Z := le_bytes 4 1 ++ replicate 16 0 ++ pad 16 (chars "vcpu").
Definition demo_records : list mw_record := [MemSpace demo_space; OtherRecord 7 [9; 9]; SecSpace (le_bytes 4 1 ++ le_bytes 4 1)].
Definition demo_code : list Z := [1; 2; 3; 4; 5; 6; 7; 8].
Definition demo_image : list Z :=
  pad 64 (replicate 18 0 ++ le_bytes 2 GCC_MACH_CODE ++ replicate 12 0 ++ le_bytes 4 160 ++ replicate 12 0 ++ le_bytes 2 3 ++ le_bytes 2 2) ++
  pad 96 (chars ".mw_info" ++ [0] ++ chars ".text" ++ [0] ++ chars ".names") ++
  demo_section 0 0 320 61 ++ demo_section 9 0x40 400 8 ++ demo_section 15 0 64 96 ++ replicate 40 0 ++
  pad 80 (encode_all demo_records) ++ demo_code.
Definition demo_dev : vspa_device :=
  set_hardware (Hardware 0 0 0 64 0 0 0 0 0 0) (new_dev 0).
Definition demo_kernel : vspa_kernel :=
  Kernel true true true (λ _, true) (λ _, true) (λ _, 0) false false "vspa" 0
    (Files (λ _, -2) (λ _, inl (-2))) 0xC0000000 0xB0000000.
Definition demo_world : vspa_world dsp :=
  World (Dsp 0xB0000000 0 7 0 0 0 0 []) (init demo_image ++ zeros 66000) [] [] [] 0 0
    (Some [Some demo_dev]) (replicate 8 false) false 0xFF.

Lemma vspa_lifecycle_witness :
  ∃ rc d' h, run_op OpStartup 0 demo_world =
      Some (rc, with_priv (Some (<[0%nat := Some d']> [Some demo_dev])) (with_hw h demo_world)) ∧
    vspa_edge OpStartup (state demo_dev) rc (state d') ∧ core_kept demo_dev d'.
Proof. apply (vspa_lifecycle OpStartup 0 demo_world [Some demo_dev] demo_dev); reflexivity. Defined.


Lemma vspa_modes_decided_witness :
  ∃ si, mw_loop 66 (init (encode_all demo_records) ++ init [5; 0; 0; 0; 0]) 0 66
          (SecInfo 0 (zeros 144) 0 (Map (zeros 24))) = Some si ∧
    (∀ sec, is_vspa_section_valid si sec = Some (space_of [le_bytes 4 1 ++ le_bytes 4 1] sec)) ∧
    (∀ space, 0 ≤ space → get_vspa_section_trans_mode si space = Some (space_mode [demo_space] space)).
Proof.
  apply (vspa_modes_decided demo_records 3 [] (init [5; 0; 0; 0; 0]) 66).
  - repeat constructor; cbn; try lia.
  - split_and!; [intros x Hx; apply list_elem_of_singleton in Hx as ->; reflexivity..| |]; unfold zlen; cbn; lia.
  - unfold zlen; cbn; lia.
  - constructor; [|constructor]. apply (bool_decide_eq_true_1 (0 ∈ drop 20 demo_space)). vm_compute. reflexivity.
  - right. split; [reflexivity|]. by exists 5, [].
Defined.

Lemma vspa_probe_all_or_nothing_witness :
  ∃ rc w', vspa_probe demo_kernel demo_world = Some (rc, w') ∧
    (true = true ∧ rc = 0 ∧ up_to true MAX_VSPA w' ∨ true = true ∧ rc < 0 ∧ down false w' ∨
     true = false ∧ rc = 0 ∧ w' = demo_world).
Proof.
  assert (Hdef : match vspa_probe demo_kernel demo_world with Some _ => true | None => false end = true)
    by (vm_compute; reflexivity).
  destruct (vspa_probe demo_kernel demo_world) as [[rc w']|] eqn:Hrun; [|discriminate Hdef].
  exists rc, w'. split; [reflexivity|].
  apply (vspa_probe_all_or_nothing demo_kernel rc demo_world w'); [vm_compute; reflexivity|exact Hrun].
Defined.
