(* ===== verification/GulRfic.v ===== *)
(** * The RF mailbox (kernel_driver/yami/gul_rfic.c, gul_rf_dspi.c)

    The driver posts a command in the modem's memory, interrupts the modem and
    polls the status word.  The structures of the mailbox come from a header the
    repository does not contain: [RficIf] gives their numbers and how a request
    lies in the words of the data array.  [RfEnv] is the modem and its SPI
    interface, which may do anything at every access.

    [None] is undefined behaviour, or a wait that does not end. *)
From S2P Require Import Prelude GulMsi GulImage GulBoot.
#[global] Open Scope Z_scope.

Definition ENODEV : Z := 19.
Definition ENOTTY : Z := 25.
Definition RF_SWCMD_TIMEOUT_RETRIES : nat := 5.
Definition PLL_AUTO_TUNE_ITER_COUNT : nat := 2.
Definition TX_RX_SWITCH_ITER_COUNT : nat := 20.

Definition DSPI_TX_FIFO_SIZE : Z := 4.
Definition DSPI_WRITE_SUCCESS : Z := 0.
Definition DSPI_TXFIFO_FULL : Z := -1.
Definition DSPI_RXFIFO_EMPTY : Z := -2.
Definition DSPI_READ_INVALID : Z := -7.
Definition DSPI_VALID_BIT_MASK : Z := 0x100.
Definition DSPI_MCR_CRXF : Z := 0x400.
Definition DSPI_SR_TCF : Z := 0x80000000.
Definition DSPI_SR_SPEF : Z := 0x00200000.
Definition DSPI_SR_RFOF : Z := 0x00080000.
Definition DSPI_SR_COUNT_RX : Z := 0xF0.
Definition DSPI_TFR_EOQ : Z := 0x08000000.
Definition DSPI_TFR_CS0 : Z := 0x00010000.
Definition DSPI_MOVANDI_READ : Z := 0.
Definition DSPI_MOVANDI_WRITE : Z := 0x8000.

(** The words of a command, before its data and in it. *)
Inductive rf_field := FCmd | FCoreId | FTimeout | FStatus | FFlags | FResult | FData (i : nat).

(** The commands with what the driver fills in. *)
Inductive rf_request :=
  | ReadReg (addrs : list Z) | WriteReg (count addr val : Z)
  | SetVcxo (index : Z) | SetTxGain (lut_index : Z) | SetRxGain (beam_mask lut_index : Z)
  | SwitchTx | SwitchRx | StartTest | EndTest | EnableDisableBgTask (en_dis : Z)
  | SetTargetBrdcastRxFe | SetTargetBrdcastTxFe
  | SetTxRxInitSeq (tx_on tx_off rx_on rx_off logen : Z) | EnableAgc
  | SetFreqTx (rf_freq_khz ref_freq_khz ppm init : Z) | GetPllLockStatus
  | SetBbkIndexTx (index : Z) | SetBbkIndexRx (index : Z) | SetPbkModeTx (mode : Z) | SetPbkModeRx (mode : Z)
  | IncPbkIndex | CfgDynamicCtrl (ops en_dis : Z)
  | WriteListToPbkMemTx (indices : list Z) | WriteListToPbkMemRx (indices : list Z) | SetConfigBeam (beam : Z).

Class RficIf := {
  RF_SW_CMD_STATUS_FREE : Z; RF_SW_CMD_STATUS_POSTED : Z; RF_SW_CMD_STATUS_DONE : Z; RF_SW_CMD_RESULT_OK : Z;
  RFIC_REMOTE_CMD_TIMEOUT : Z; RF_CMD_FLAGS_REMOTE : Z;
  MV_REG_ADDR_MASK : Z; MV_REG_VAL_MASK : Z; MAX_RW_REGS : Z; RF_BBK_LIST_MAX : Z;
  (* the code of a command, its data words, the words of the data array *)
  code : rf_request → Z; enc : rf_request → list Z; data_words : nat;
  (* the words before the data; the size of a register entry and the place of its value *)
  common : list rf_field; rf_reg_rw_data_size : Z; val_at : nat → nat }.

Inductive dspi_reg := DSPI_MCR | DSPI_SR | DSPI_TFR | DSPI_RFR.

(** The modem and the interface; [rf_interrupted] is what happens to a caller
    that waits for the lock. *)
Class RfEnv (H : Type) := {
  rf_read : rf_field → H → Z * H; rf_write : rf_field → Z → H → H; rf_irq : H → H; rf_sleep : H → H;
  rf_interrupted : H → bool * H;
  dspi_read : dspi_reg → H → Z * H; dspi_write : dspi_reg → Z → H → H }.

(** ** The state *)
Record rf_sw_cmd_desc := Desc {
  cmd : Z; core_id : Z; timeout : Z; status : Z; flags : Z; result : Z; data : list Z }.
Record rf_host_stats := Stats { sw_cmds_tx : Z; sw_cmds_failed : Z; sw_cmds_timed_out : Z; sw_cmds_desc_busy : Z }.
Record rfdev (H : Type) := Rfdev {
  env : H; cmd_local : rf_sw_cmd_desc; mdata_lock : Z; host_stats : rf_host_stats; host_ready : bool }.
Arguments Rfdev {_} _ _ _ _ _.
Arguments env {_} _.
Arguments cmd_local {_} _.
Arguments mdata_lock {_} _.
Arguments host_stats {_} _.
Arguments host_ready {_} _.

Section Rfic.
Context {H : Type} `{RfEnv H, RficIf}.
Local Abbreviation V := (M (rfdev H)).

Definition set_env (v : H) (w : rfdev H) : rfdev H := Rfdev v (cmd_local w) (mdata_lock w) (host_stats w) (host_ready w).
Definition set_cmd (v : rf_sw_cmd_desc) (w : rfdev H) : rfdev H :=
  Rfdev (env w) v (mdata_lock w) (host_stats w) (host_ready w).
Definition set_lock (v : Z) (w : rfdev H) : rfdev H := Rfdev (env w) (cmd_local w) v (host_stats w) (host_ready w).
Definition set_stats (v : rf_host_stats) (w : rfdev H) : rfdev H :=
  Rfdev (env w) (cmd_local w) (mdata_lock w) v (host_ready w).
Definition set_ready (w : rfdev H) : rfdev H := Rfdev (env w) (cmd_local w) (mdata_lock w) (host_stats w) true.

Definition rd_field (f : rf_field) : V Z :=
  λ w, let '(v, h) := rf_read f (env w) in Some (u32 v, set_env h w).
Definition wr_field (f : rf_field) (v : Z) : V unit := modify (λ w, set_env (rf_write f (u32 v) (env w)) w).
Definition upd_stats (f : rf_host_stats → rf_host_stats) : V unit := modify (λ w, set_stats (f (host_stats w)) w).

(** ** One command *)

(** The words of a command as they are copied. *)
Definition field_of (c : rf_sw_cmd_desc) (f : rf_field) : Z :=
  match f with
  | FCmd => cmd c | FCoreId => core_id c | FTimeout => timeout c | FStatus => status c | FFlags => flags c
  | FResult => result c | FData i => nth i (data c) 0
  end.
Fixpoint copy_words (c : rf_sw_cmd_desc) (fs : list rf_field) : V unit :=
  match fs with [] => mret tt | f :: fs => _ ← wr_field f (field_of c f); copy_words c fs end.

(** The wait: reads left, and whether DONE was seen. *)
Fixpoint wait_done (retries : nat) : V nat :=
  match retries with
  | O => mret O
  | S r =>
      st ← rd_field FStatus;
      if decide (st = RF_SW_CMD_STATUS_DONE) then mret (S r) else
      _ ← modify (λ w, set_env (rf_sleep (env w)) w); wait_done r
  end.

Definition rf_raise_modem_irq : V unit := modify (λ w, set_env (rf_irq (env w)) w).

(** Whether the mailbox may be used: FREE, or a DONE that came too late. *)
Definition mailbox_usable : V bool :=
  st ← rd_field FStatus;
  if decide (st ≠ RF_SW_CMD_STATUS_FREE) then
    st ← rd_field FStatus; mret (bool_decide (st = RF_SW_CMD_STATUS_DONE))
  else mret true.

Definition rf_send_swcmd (data_size : Z) : V Z :=
  usable ← mailbox_usable;
  if negb (usable : bool) then
    _ ← upd_stats (λ s, Stats (sw_cmds_tx s) (sw_cmds_failed s) (sw_cmds_timed_out s) (i32 (sw_cmds_desc_busy s + 1)));
    mret (- EBUSY)
  else
  _ ← modify (λ w, let c := cmd_local w in
        set_cmd (Desc (cmd c) (core_id c) RFIC_REMOTE_CMD_TIMEOUT RF_SW_CMD_STATUS_POSTED RF_CMD_FLAGS_REMOTE
                   (result c) (data c)) w);
  c ← gets cmd_local;
  _ ← copy_words c (common ++ (FData <$> seq 0 (Z.to_nat (data_size / 4))));
  _ ← rf_raise_modem_irq;
  retries ← wait_done RF_SWCMD_TIMEOUT_RETRIES;
  timed_out ← (if decide (retries = O) then
                 st ← rd_field FStatus; mret (bool_decide (st ≠ RF_SW_CMD_STATUS_DONE))
               else mret false);
  if (timed_out : bool) then
    _ ← upd_stats (λ s, Stats (sw_cmds_tx s) (sw_cmds_failed s) (i32 (sw_cmds_timed_out s + 1)) (sw_cmds_desc_busy s));
    _ ← wr_field FStatus RF_SW_CMD_STATUS_FREE;
    mret (- EBUSY)
  else
    _ ← upd_stats (λ s, Stats (i32 (sw_cmds_tx s + 1)) (sw_cmds_failed s) (sw_cmds_timed_out s) (sw_cmds_desc_busy s));
    ret ← rd_field FResult;
    _ ← wr_field FStatus RF_SW_CMD_STATUS_FREE;
    mret (i32 ret).

(** The answer's data words, read over the request's. *)
Fixpoint get_data_loop (i cnt : nat) : V unit :=
  match cnt with
  | O => mret tt
  | S cnt =>
      v ← rd_field (FData i);
      _ ← modify (λ w, let c := cmd_local w in
            set_cmd (Desc (cmd c) (core_id c) (timeout c) (status c) (flags c) (result c) (<[i := v]> (data c))) w);
      get_data_loop (S i) cnt
  end.
Definition rf_swcmd_get_data (data_size : Z) : V unit := get_data_loop 0 (Z.to_nat (data_size / 4)).

(** Taking the command structure, false for NULL. *)
Definition rf_get_swcmd : V bool :=
  lock ← gets mdata_lock;
  if decide (0 < lock) then
    _ ← modify (set_lock (lock - 1));
    _ ← modify (set_cmd (Desc 0 4 0 0 0 0 (replicate data_words 0))); mret true
  else
    λ w, let '(b, h) := rf_interrupted (env w) in if (b : bool) then Some (false, set_env h w) else None.

(** The write of FREE goes to the local pointer and not to the mailbox. *)
Definition rf_free_cmd : V unit :=
  _ ← modify (λ w, let c := cmd_local w in
        set_cmd (Desc (cmd c) (core_id c) (timeout c) RF_SW_CMD_STATUS_FREE (flags c) (result c) (data c)) w);
  modify (λ w, set_lock (mdata_lock w + 1) w).

(** Filling in the command: the fields of a request must lie in the data array. *)
Definition fill (r : rf_request) : V unit :=
  got ← rf_get_swcmd;
  if negb (got : bool) then lift None else
  if decide (length (enc r) ≤ data_words)%nat then
    modify (λ w, let c := cmd_local w in
      set_cmd (Desc (code r) (core_id c) (timeout c) (status c) (flags c) (result c)
                 (enc r ++ drop (length (enc r)) (data c))) w)
  else lift None.
Definition rf_command (r : rf_request) (size : Z) : V Z :=
  _ ← fill r; ret ← rf_send_swcmd size; _ ← rf_free_cmd; mret ret.
Definition sizeof (r : rf_request) : Z := 4 * zlen (enc r).

(** ** The commands *)
Definition __rf_set_vcxo_dac (index : Z) : V Z := rf_command (SetVcxo index) 4.
Definition __rf_set_tx_gain (lut_index : Z) : V Z := rf_command (SetTxGain lut_index) 4.
Definition __rf_set_rx_gain (beam_mask lut_index : Z) : V Z := rf_command (SetRxGain beam_mask lut_index) 8.
Definition __rf_switch_tx : V Z := rf_command SwitchTx 0.
Definition __rf_switch_rx : V Z := rf_command SwitchRx 0.
Definition __rf_control_stress_test (start : Z) : V Z :=
  rf_command (if decide (start ≠ 0) then StartTest else EndTest) 0.
Definition __rf_enable_disable_bg_task (start : Z) : V Z :=
  rf_command (EnableDisableBgTask start) (sizeof (EnableDisableBgTask start)).
Definition __rf_set_target_broadcast_rx_fe : V Z := rf_command SetTargetBrdcastRxFe 0.
Definition __rf_tx_rx_seq_cmd_init : V Z :=
  rf_command (SetTxRxInitSeq 30 34 12 16 3) (sizeof (SetTxRxInitSeq 30 34 12 16 3)).
Definition __rf_enable_agc : V Z := rf_command EnableAgc 0.
Definition __rf_set_freq_tx (rf_freq_khz ppm ref_freq_khz init : Z) : V Z :=
  rf_command (SetFreqTx rf_freq_khz ref_freq_khz ppm init) (sizeof (SetFreqTx rf_freq_khz ref_freq_khz ppm init)).
Definition __rf_get_pll_status : V Z := rf_command GetPllLockStatus 0.
Definition __rfic_set_beambook_index_tx (bbk_index : Z) : V Z := rf_command (SetBbkIndexTx bbk_index) 4.
Definition __rfic_set_beambook_index_rx (bbk_index : Z) : V Z := rf_command (SetBbkIndexRx bbk_index) 4.
Definition __rfic_set_target_broadcast_tx_fe : V Z := rf_command SetTargetBrdcastTxFe 0.
Definition __rfic_set_target_broadcast_rx_fe : V Z := rf_command SetTargetBrdcastRxFe 0.
Definition __rfic_set_pbk_mode_tx (mode : Z) : V Z := rf_command (SetPbkModeTx mode) 4.
Definition __rfic_set_pbk_mode_rx (mode : Z) : V Z := rf_command (SetPbkModeRx mode) 4.
Definition __rfic_increment_pbk_index : V Z := rf_command IncPbkIndex 0.
Definition __rfic_config_dynamic_controller (dynamic_op enable : Z) : V Z :=
  rf_command (CfgDynamicCtrl dynamic_op enable) 8.
(** The loop fills the list without a look at its size. *)
Definition pbk_indices (pbk_length : Z) : option (list Z) :=
  if decide (pbk_length ≤ RF_BBK_LIST_MAX) then Some (seqZ 0 pbk_length) else None.
Definition __rfic_write_list_to_pbk_memory_tx (pbk_length : Z) : V Z :=
  l ← lift (pbk_indices pbk_length); rf_command (WriteListToPbkMemTx l) (sizeof (WriteListToPbkMemTx l)).
Definition __rfic_write_list_to_pbk_memory_rx (pbk_length : Z) : V Z :=
  l ← lift (pbk_indices pbk_length); rf_command (WriteListToPbkMemRx l) (sizeof (WriteListToPbkMemRx l)).
Definition __rfic_set_beam_config (beam : Z) : V Z := rf_command (SetConfigBeam beam) (sizeof (SetConfigBeam beam)).

(** ** Sequences of commands *)

(** One after the other until one fails. *)
Fixpoint run_until (cs : list (V Z)) : V Z :=
  match cs with
  | [] => mret 0
  | c :: cs => ret ← c; if decide (ret ≠ RF_SW_CMD_RESULT_OK) then mret ret else
               match cs with [] => mret ret | _ => run_until cs end
  end.
Definition __rf_set_rx_agc_gain_index (beam_mask lut_index : Z) : V Z :=
  run_until [__rf_switch_tx; __rf_switch_rx; __rf_set_rx_gain beam_mask lut_index; __rf_switch_tx; __rf_switch_rx].
Definition __rf_set_auto_tune_pll (iter : nat) : V Z :=
  run_until (concat (replicate (iter * PLL_AUTO_TUNE_ITER_COUNT * TX_RX_SWITCH_ITER_COUNT)
                       [__rf_switch_rx; __rf_switch_tx])).

(** ** Registers over the mailbox *)
Fixpoint swab_vals (vals : list Z) : list Z :=
  match vals with [] => [] | v :: vals => Z.land (be32_to_cpu v) MV_REG_VAL_MASK :: swab_vals vals end.
Definition __rf_read_regs (addr : Z) (count : nat) : V (Z * option (list Z)) :=
  let r := ReadReg ((λ i, u16 (addr + Z.of_nat i)) <$> seq 0 count) in
  let size := 4 + Z.of_nat count * rf_reg_rw_data_size in
  _ ← fill r;
  ret ← rf_send_swcmd size;
  if decide (ret ≠ 0) then _ ← rf_free_cmd; mret (ret, None) else
  _ ← rf_swcmd_get_data size;
  c ← gets cmd_local;
  let buf := swab_vals ((λ i, nth (val_at i) (data c) 0) <$> seq 0 count) in
  _ ← rf_free_cmd; mret (ret, Some buf).

(** Every turn stores the first register into the first entry. *)
Definition __rf_write_regs (count : Z) (regs : list (Z * Z)) : V Z :=
  '(addr, val) ← lift (if decide (0 < count) then head regs else Some (0, 0));
  rf_command (WriteReg count (Z.land addr MV_REG_ADDR_MASK) (Z.land val MV_REG_VAL_MASK))
    (4 + count * rf_reg_rw_data_size).

(** ** Registers over the SPI interface (gul_rf_dspi.c) *)
Definition rd_dspi (r : dspi_reg) : V Z := λ w, let '(v, h) := dspi_read r (env w) in Some (u32 v, set_env h w).
Definition wr_dspi (r : dspi_reg) (v : Z) : V unit := modify (λ w, set_env (dspi_write r (u32 v) (env w)) w).

Definition dspi_wait_step (_ : unit) : V (unit + unit) :=
  sr ← rd_dspi DSPI_SR;
  if decide (Z.land sr DSPI_SR_TCF ≠ 0) then _ ← wr_dspi DSPI_SR (Z.lor sr DSPI_SR_TCF); mret (inr tt)
  else mret (inl tt).
(** The wait has no bound; here it has one, past which the result is [None]. *)
Definition dspi_wait_fifo (bound : positive) : V unit :=
  r ← until dspi_wait_step bound tt;
  match r with inr _ => mret tt | inl _ => lift None end.

Definition tx_full : V bool :=
  sr ← rd_dspi DSPI_SR; mret (bool_decide (DSPI_TX_FIFO_SIZE ≤ Z.shiftr (Z.land sr 0xF000) 12)).
Definition dspi_push_read (bound : positive) (data : Z) : V Z :=
  full ← tx_full;
  if (full : bool) then mret DSPI_TXFIFO_FULL else
  _ ← wr_dspi DSPI_TFR DSPI_TFR_CS0;
  _ ← wr_dspi DSPI_TFR (Z.lor DSPI_TFR_CS0 data);
  _ ← dspi_wait_fifo bound; mret DSPI_WRITE_SUCCESS.
Definition dspi_push_write (bound : positive) (addr data : Z) : V Z :=
  full ← tx_full;
  if (full : bool) then mret DSPI_TXFIFO_FULL else
  _ ← wr_dspi DSPI_TFR (Z.lor DSPI_TFR_CS0 (Z.shiftl data 8));
  _ ← wr_dspi DSPI_TFR (Z.lor (Z.lor DSPI_TFR_CS0 addr) DSPI_TFR_EOQ);
  _ ← dspi_wait_fifo bound;
  mcr ← rd_dspi DSPI_MCR;
  _ ← wr_dspi DSPI_MCR (Z.lor mcr DSPI_MCR_CRXF); mret DSPI_WRITE_SUCCESS.
Definition dspi_pop : V (Z + Z) :=
  sr ← rd_dspi DSPI_SR;
  if decide (Z.land sr DSPI_SR_COUNT_RX = 0) then mret (inl DSPI_RXFIFO_EMPTY) else
  v ← rd_dspi DSPI_RFR; mret (inr (Z.shiftr v 5)).

(** A status, or the byte read. *)
Definition read_once (bound : positive) (addr : Z) : V (Z + Z) :=
  ret ← dspi_push_read bound (u16 (Z.lor addr DSPI_MOVANDI_READ));
  if decide (ret < 0) then mret (inl ret) else
  sr ← rd_dspi DSPI_SR;
  if decide (Z.land sr (Z.lor DSPI_SR_SPEF DSPI_SR_RFOF) ≠ 0) then _ ← wr_dspi DSPI_SR sr; mret (inl (-1)) else
  dspi_pop.
Fixpoint rf_movandi_read_loop (retry : nat) (bound : positive) (addr : Z) : V (Z + Z) :=
  r ← read_once bound addr;
  match r with
  | inl ret => mret (inl ret)
  | inr v =>
      if decide (Z.land v DSPI_VALID_BIT_MASK ≠ 0) then mret (inr (u8 v)) else
      if decide (0x400 ≤ addr ∨ addr = 0x8) then
        match retry with S retry => rf_movandi_read_loop retry bound addr | O => mret (inl DSPI_READ_INVALID) end
      else mret (inl DSPI_READ_INVALID)
  end.
Definition rf_movandi_read_reg (bound : positive) (addr : Z) : V (Z + Z) := rf_movandi_read_loop 1 bound addr.
Definition rf_movandi_write_reg (bound : positive) (addr data : Z) : V Z :=
  dspi_push_write bound (u16 (Z.lor addr DSPI_MOVANDI_WRITE)) data.

(** The same register for every entry of the buffer, up to the first failure,
    which is not reported. *)
Fixpoint read_dspi_loop (bound : positive) (addr : Z) (buf : list Z) : V (list Z) :=
  match buf with
  | [] => mret []
  | b :: buf =>
      r ← rf_movandi_read_reg bound addr;
      match r with
      | inl _ => mret (b :: buf)
      | inr v => l ← read_dspi_loop bound addr buf; mret (Z.lor (Z.land b (lnot32 0xFF)) v :: l)
      end
  end.
Definition __rf_read_dspi_regs (bound : positive) (addr : Z) (buf : list Z) : V (Z * list Z) :=
  l ← read_dspi_loop bound addr buf; mret (0, l).
Fixpoint __rf_write_dspi_regs (bound : positive) (regs : list (Z * Z)) : V Z :=
  match regs with
  | [] => mret 0
  | (addr, val) :: regs =>
      ret ← rf_movandi_write_reg bound (u16 addr) (u8 val);
      if decide (ret ≠ 0) then mret 0 else __rf_write_dspi_regs bound regs
  end.
Definition rf_read_regs (bound : positive) (addr : Z) (buf : list Z) : V (Z * list Z) :=
  __rf_read_dspi_regs bound (u16 (Z.land addr MV_REG_ADDR_MASK)) buf.
Definition rf_write_regs (bound : positive) (reg : Z * Z) : V Z := __rf_write_dspi_regs bound [reg].

(** ** The requests of the device file *)
Inductive rif_cmd :=
  | RIF_READ_PHY_REGS (addr count : Z) | RIF_WRITE_PHY_REGS (addr val : Z) | RIF_START | RIF_STOP | RIF_OTHER.
(** What the kernel decides: the copies and the allocation. *)
Record rif_kernel := RifKernel { copy_in : bool; copy_out : bool; have_mem : bool }.

Definition rf_set_host_ready : V unit := modify set_ready.
(** The result, and the buffer copied out. *)
Definition gul_rfic_ioctl (k : rif_kernel) (bound : positive) (c : rif_cmd) : V (Z * option (list Z)) :=
  match c with
  | RIF_READ_PHY_REGS addr count =>
      if negb (copy_in k) then mret (- EFAULT, None) else
      if decide (MAX_RW_REGS < count) then mret (- ENOMEM, None) else
      if negb (have_mem k) then mret (- ENOMEM, None) else
      '(ret, buf) ← rf_read_regs bound addr (replicate (Z.to_nat count) 0);
      if decide (ret ≠ 0) then mret (ret, None) else
      if copy_out k then mret (ret, Some buf) else mret (- EFAULT, None)
  | RIF_WRITE_PHY_REGS addr val =>
      if copy_in k then ret ← rf_write_regs bound (addr, val); mret (ret, None) else mret (- EFAULT, None)
  | RIF_START =>
      _ ← __rf_set_target_broadcast_rx_fe;
      _ ← __rf_tx_rx_seq_cmd_init;
      _ ← __rf_enable_agc;
      _ ← __rf_switch_rx;
      _ ← rf_set_host_ready; mret (0, None)
  | RIF_STOP => mret (0, None)
  | RIF_OTHER => mret (- ENOTTY, None)
  end.

(** ** The device *)
Definition gul_rfic_init_mdata (h : H) (c : rf_sw_cmd_desc) : rfdev H := Rfdev h c 1 (Stats 0 0 0 0) false.
Definition rfic_reset_stats : V unit := upd_stats (λ _, Stats 0 0 0 0).
End Rfic.

(** ** Probing and removal

    The minors in use, and the driver's pointer: none, a device with its minor, or
    one that was freed. *)
Inductive rfdev_ptr := NoRfdev | LiveRfdev (minor : nat) | FreedRfdev (minor : nat).
Record rfic_probe_state := Probe { in_use_minor : list bool; rfdev_of : rfdev_ptr }.
Record probe_kernel := ProbeKernel { p_alloc : bool; p_device : Z; p_cdev : Z; p_stats : Z }.

Definition gul_rfic_probe (k : probe_kernel) (p : rfic_probe_state) : Z * rfic_probe_state :=
  match list_find (λ b, b = false) (in_use_minor p) with
  | None => (- ENODEV, p)
  | Some (i, _) =>
      if negb (p_alloc k) then (- ENOMEM, p) else
      if decide (p_device k < 0) then (p_device k, p) else
      if decide (p_cdev k ≠ 0) then (p_cdev k, p) else
      let p := Probe (<[i := true]> (in_use_minor p)) (LiveRfdev i) in
      if decide (p_stats k < 0) then (p_stats k, Probe (in_use_minor p) (FreedRfdev i)) else (p_stats k, p)
  end.
Definition gul_rfic_remove (p : rfic_probe_state) : option (Z * rfic_probe_state) :=
  match rfdev_of p with
  | NoRfdev => Some (0, p)
  | LiveRfdev i => Some (0, Probe (<[i := false]> (in_use_minor p)) NoRfdev)
  | FreedRfdev _ => None
  end.
