(* ===== verification/GulRficCorrect.v ===== *)
(** * The RF mailbox: theorems

    Every command returns and gives the lock back, whatever the modem does; a
    modem that answers in time gets exactly the request and its result is
    returned; one that answers late has its answer taken for the next command's. *)
From S2P Require Import Prelude GulMsi GulImage GulBoot GulRfic.
#[global] Open Scope Z_scope.

Lemma hoare_mret {W A} ub (P : W → Prop) (a : A) Q : (∀ w, P w → Q a w) → hoare ub P (mret a) Q.
Proof. intros HQ w Hw. by apply HQ. Qed.

(** ** Whatever the modem does *)
Section Any.
Context {H : Type} `{RfEnv H, RficIf}.

(** Only the environment and the command differ from [w0]. *)
Definition at_ (lock : Z) (s : rf_host_stats) (ready : bool) (w : rfdev H) : Prop :=
  mdata_lock w = lock ∧ host_stats w = s ∧ host_ready w = ready.

Section Steps.
Variables (lock : Z) (s : rf_host_stats) (ready : bool).
Local Abbreviation P := (at_ lock s ready).

Lemma rd_field_at f : hoare False P (rd_field f) (λ _, P).
Proof. intros w Hw. unfold rd_field. by destruct (rf_read f (env w)). Qed.
Lemma wr_field_at f v : hoare False P (wr_field f v) (λ _, P).
Proof. by intros w Hw. Qed.
Lemma modify_at g : (∀ w, P w → P (g w)) → hoare False P (modify g) (λ _, P).
Proof. intros Hg w Hw. by apply Hg. Qed.
Lemma gets_at {A} (f : rfdev H → A) : hoare False P (gets f) (λ _, P).
Proof. by intros w Hw. Qed.
Lemma copy_words_at c fs : hoare False P (copy_words c fs) (λ _, P).
Proof.
  induction fs as [|f fs IH]; cbn [copy_words]; [by apply hoare_mret|].
  eapply hoare_bind; [apply wr_field_at|]. intros []. apply IH.
Qed.
Lemma wait_done_at n : hoare False P (wait_done n) (λ _, P).
Proof.
  induction n as [|n IH]; cbn [wait_done]; [by apply hoare_mret|].
  eapply hoare_bind; [apply rd_field_at|]. intros st. cbn beta.
  case_decide; [by apply hoare_mret|].
  eapply hoare_bind; [by apply modify_at|]. intros []. apply IH.
Qed.
End Steps.

(** How a command is counted. *)
Inductive counted (s : rf_host_stats) : Z → rf_host_stats → Prop :=
  | was_busy : counted s (- EBUSY) (Stats (sw_cmds_tx s) (sw_cmds_failed s) (sw_cmds_timed_out s) (i32 (sw_cmds_desc_busy s + 1)))
  | was_late : counted s (- EBUSY) (Stats (sw_cmds_tx s) (sw_cmds_failed s) (i32 (sw_cmds_timed_out s + 1)) (sw_cmds_desc_busy s))
  | was_sent ret : - 2147483648 ≤ ret < 2147483648 →
      counted s ret (Stats (i32 (sw_cmds_tx s + 1)) (sw_cmds_failed s) (sw_cmds_timed_out s) (sw_cmds_desc_busy s)).

Lemma rf_send_swcmd_at lock s ready sz : hoare False (at_ lock s ready) (rf_send_swcmd sz)
  (λ ret w, ∃ s', counted s ret s' ∧ at_ lock s' ready w).
Proof.
  unfold rf_send_swcmd.
  eapply (hoare_bind _ (λ _, at_ lock s ready)).
  { unfold mailbox_usable. eapply hoare_bind; [apply rd_field_at|]. intros st. cbn beta.
    case_decide; [|by apply hoare_mret]. eapply hoare_bind; [apply rd_field_at|]. intros st'. by apply hoare_mret. }
  intros usable. destruct usable; cbn [negb].
  2:{ intros w (Hl & Hs & Hr). rewrite M_bind_eq. cbn. eexists. split; [constructor|]. by rewrite <- Hs. }
  eapply hoare_bind; [by apply modify_at|]. intros []. eapply hoare_bind; [apply gets_at|]. intros c.
  eapply hoare_bind; [apply copy_words_at|]. intros []. eapply hoare_bind; [by apply modify_at|]. intros [].
  eapply hoare_bind; [apply wait_done_at|]. intros retries.
  eapply (hoare_bind _ (λ _, at_ lock s ready)).
  { case_decide; [|by apply hoare_mret]. eapply hoare_bind; [apply rd_field_at|]. intros st. by apply hoare_mret. }
  intros late. destruct late.
  - intros w (Hl & Hs & Hr). rewrite M_bind_eq. cbn. eexists. split; [by apply was_late|]. by rewrite <- Hs.
  - intros w (Hl & Hs & Hr). rewrite M_bind_eq. unfold upd_stats at 1, modify at 1.
    rewrite M_bind_eq. unfold rd_field. cbn [env set_stats]. destruct (rf_read FResult (env w)) as [v h].
    cbn. eexists. split; [by apply was_sent; unfold i32; pose proof (Z.mod_pos_bound (u32 v + 2147483648) 4294967296); lia|].
    by rewrite <- Hs.
Qed.

(** C2: Every command of the RF driver returns, whatever the modem does: it polls at
    most six times, gives the lock back, and is counted once, as sent, timed out or
    refused. *)
Theorem rf_command_returns r sz (w : rfdev H) :
  mdata_lock w = 1 → (length (enc r) ≤ data_words)%nat →
  ∃ ret w', rf_command r sz w = Some (ret, w') ∧ mdata_lock w' = 1 ∧ host_ready w' = host_ready w ∧
    counted (host_stats w) ret (host_stats w').
Proof.
  intros Hl He.
  assert (Hh : hoare False (at_ 1 (host_stats w) (host_ready w)) (rf_command r sz)
    (λ ret w', ∃ s', counted (host_stats w) ret s' ∧ at_ 1 s' (host_ready w) w')).
  { unfold rf_command. eapply (hoare_bind _ (λ _, at_ 0 (host_stats w) (host_ready w))).
    { intros w1 (H1' & H2' & H3'). unfold fill. rewrite M_bind_eq. unfold rf_get_swcmd.
      rewrite (M_bind_run _ _ w1 _ _ eq_refl), H1'. rewrite decide_True by lia. cbn -[Nat.le]. by rewrite decide_True. }
    intros []. eapply hoare_bind; [apply rf_send_swcmd_at|]. intros ret w1 (s' & Hc & H1' & H2' & H3').
    exists s'. split; [done|]. unfold at_. cbn. by rewrite H1', H2', H3'. }
  specialize (Hh w ltac:(done)). destruct (rf_command r sz w) as [[ret w']|]; [|done].
  destruct Hh as (s' & Hc & H1' & H2' & H3'). exists ret, w'. by rewrite H2'.
Qed.
End Any.

(** ** A modem that answers *)
#[export] Instance rf_field_eq : EqDecision rf_field.
Proof. solve_decision. Defined.

(** The laws of the mailbox the driver relies on: the states are distinct words,
    and the words before the data hold the command and its status. *)
Class RficLaws `{RficIf} := {
  free_done : RF_SW_CMD_STATUS_FREE ≠ RF_SW_CMD_STATUS_DONE;
  posted_done : RF_SW_CMD_STATUS_POSTED ≠ RF_SW_CMD_STATUS_DONE;
  free_u32 : u32 RF_SW_CMD_STATUS_FREE = RF_SW_CMD_STATUS_FREE;
  done_u32 : u32 RF_SW_CMD_STATUS_DONE = RF_SW_CMD_STATUS_DONE;
  posted_u32 : u32 RF_SW_CMD_STATUS_POSTED = RF_SW_CMD_STATUS_POSTED;
  cmd_common : FCmd ∈ common; status_common : FStatus ∈ common; data_common i : FData i ∉ common }.

(** The mailbox, and the requests the modem has taken, each with the time left. *)
Record modem := Modem { word : rf_field → Z; queue : list (nat * (Z * list Z)) }.

Section Served.
Context `{RficLaws}.
(** What the modem answers, and how many waits it takes. *)
Variables (serve : Z * list Z → Z * (nat → Z)) (latency : nat).

Definition request_of (wd : rf_field → Z) : Z * list Z := (wd FCmd, (λ i, wd (FData i)) <$> seq 0 data_words).
Definition complete (s : Z * list Z) (wd : rf_field → Z) (f : rf_field) : Z :=
  match f with
  | FStatus => RF_SW_CMD_STATUS_DONE | FResult => fst (serve s) | FData i => snd (serve s) i | _ => wd f
  end.
Definition tick (m : modem) : modem :=
  match queue m with
  | (S (S n), s) :: q => Modem (word m) ((S n, s) :: q)
  | (_, s) :: q => Modem (complete s (word m)) q
  | [] => m
  end.
Definition take_request (m : modem) : modem :=
  if decide (word m FStatus = RF_SW_CMD_STATUS_POSTED) then Modem (word m) (queue m ++ [(latency, request_of (word m))])
  else m.
#[local] Instance modem_env : RfEnv modem := {|
  rf_read := λ f m, (word m f, m); rf_write := λ f v m, Modem (λ g, if decide (g = f) then v else word m g) (queue m);
  rf_irq := take_request; rf_sleep := tick; rf_interrupted := λ m, (false, m);
  dspi_read := λ _ m, (0, m); dspi_write := λ _ _ m, m |}.

Lemma rd_field_modem f (w : rfdev modem) : rd_field f w = Some (u32 (word (env w) f), w).
Proof. by destruct w. Qed.

Lemma copy_words_modem c fs : ∀ w : rfdev modem, ∃ m, copy_words c fs w = Some (tt, set_env m w) ∧
  queue m = queue (env w) ∧ ∀ f, word m f = if decide (f ∈ fs) then u32 (field_of c f) else word (env w) f.
Proof.
  induction fs as [|g fs IH]; intros w; cbn [copy_words].
  - exists (env w). split; [by destruct w|]. split; [done|]. intros f. by rewrite decide_False by set_solver.
  - unfold wr_field, modify. rewrite (M_bind_run _ _ w _ _ eq_refl).
    match goal with |- context [copy_words c fs ?x] => destruct (IH x) as (m & Hm & Hq & Hw) end.
    exists m. split; [exact Hm|]. split; [exact Hq|]. intros f. rewrite Hw. cbn.
    destruct (decide (f ∈ fs)) as [Hf|Hf]; [by rewrite decide_True by set_solver|].
    destruct (decide (f = g)) as [->|Hfg]; [by rewrite decide_True by set_solver|].
    by rewrite decide_False by set_solver.
Qed.

(** The wait ends with the request at the head of the queue, if that is in time. *)
Lemma wait_done_modem R : ∀ n s q (w : rfdev modem), queue (env w) = (n, s) :: q → (0 < n)%nat →
  u32 (word (env w) FStatus) ≠ RF_SW_CMD_STATUS_DONE →
  wait_done R w = Some (if decide (n ≤ R)%nat then ((R - n)%nat, set_env (Modem (complete s (word (env w))) q) w)
                        else (O, set_env (Modem (word (env w)) (((n - R)%nat, s) :: q)) w)).
Proof.
  induction R as [|R IH]; intros n s q w Hq Hn Hst; cbn [wait_done].
  - rewrite decide_False by lia. rewrite Nat.sub_0_r, <- Hq. by destruct w as [[]].
  - rewrite (M_bind_run _ _ _ _ _ (rd_field_modem _ _)), decide_False by done.
    unfold modify. rewrite (M_bind_run _ _ w _ _ eq_refl). cbn [rf_sleep modem_env]. unfold tick. rewrite Hq.
    destruct n as [|[|n]]; [lia| |].
    + rewrite decide_True by lia. replace (S R - 1)%nat with R by lia.
      destruct R as [|R]; [done|]. cbn [wait_done].
      rewrite (M_bind_run _ _ _ _ _ (rd_field_modem _ _)). cbn. by rewrite done_u32, decide_True.
    + rewrite (IH (S n) s q) by (done || lia). cbn.
      destruct (decide (S n ≤ R)%nat); [rewrite decide_True by lia|rewrite decide_False by lia]; done.
Qed.

(** The request as the modem sees it: the data words sent, and below them what the
    mailbox held. *)
Definition posted (code_ : Z) (l : list Z) (k : nat) (m : modem) : Z * list Z :=
  (u32 code_, (λ i, if decide (i < k)%nat then u32 (nth i l 0) else word m (FData i)) <$> seq 0 data_words).
Definition usable (m : modem) : Prop :=
  u32 (word m FStatus) = RF_SW_CMD_STATUS_FREE ∨ u32 (word m FStatus) = RF_SW_CMD_STATUS_DONE.

Lemma mailbox_usable_modem (w : rfdev modem) : usable (env w) → mailbox_usable w = Some (true, w).
Proof.
  intros Hu. unfold mailbox_usable. rewrite (M_bind_run _ _ _ _ _ (rd_field_modem _ _)).
  case_decide as Hs; [|done]. rewrite (M_bind_run _ _ _ _ _ (rd_field_modem _ _)).
  destruct Hu as [Hu|Hu]; [done|]. by rewrite Hu, bool_decide_true.
Qed.
Lemma in_words k f : f ∈ common ++ (FData <$> seq 0 k) ↔
  match f with FData i => (i < k)%nat | _ => f ∈ common end.
Proof.
  rewrite elem_of_app, list_elem_of_fmap. destruct f; split; try (intros [Hf|(i & [=] & _)]; done); try tauto.
  - intros [Hf|(j & [= ->] & Hj)]; [by apply data_common in Hf|]. apply elem_of_seq in Hj. lia.
  - intros Hi. right. exists i. split; [done|]. apply elem_of_seq. lia.
Qed.

(** What a command leaves: the result, and the modem after it. *)
Definition answered (n : nat) (s : Z * list Z) (rest : list (nat * (Z * list Z))) (st : rf_host_stats)
    (ret : Z) (w' : rfdev modem) : Prop :=
  u32 (word (env w') FStatus) = RF_SW_CMD_STATUS_FREE ∧
  if decide (n ≤ 5)%nat then
    ret = i32 (u32 (fst (serve s))) ∧ queue (env w') = rest ∧ (∀ i, word (env w') (FData i) = snd (serve s) i) ∧
    sw_cmds_tx (host_stats w') = i32 (sw_cmds_tx st + 1)
  else
    ret = - EBUSY ∧ queue (env w') = ((n - 5)%nat, s) :: rest ∧
    sw_cmds_timed_out (host_stats w') = i32 (sw_cmds_timed_out st + 1).

Lemma send_modem (k : nat) n s rest (w : rfdev modem) :
  usable (env w) → (0 < n)%nat →
  queue (env w) ++ [(latency, posted (cmd (cmd_local w)) (data (cmd_local w)) k (env w))] = (n, s) :: rest →
  ∃ ret w', rf_send_swcmd (4 * Z.of_nat k) w = Some (ret, w') ∧ mdata_lock w' = mdata_lock w ∧
    answered n s rest (host_stats w) ret w'.
Proof.
  intros Hu Hn Hq. unfold rf_send_swcmd. rewrite (M_bind_run _ _ _ _ _ (mailbox_usable_modem w Hu)). cbn [negb].
  unfold modify at 1. rewrite (M_bind_run _ _ w _ _ eq_refl).
  match goal with |- context [set_cmd ?c w] => set (c0 := c); set (w1 := set_cmd c0 w) end.
  rewrite (M_bind_run _ _ w1 _ _ eq_refl). replace (4 * Z.of_nat k / 4) with (Z.of_nat k)
    by (rewrite Z.mul_comm, Z.div_mul; lia). rewrite Nat2Z.id.
  destruct (copy_words_modem c0 (common ++ (FData <$> seq 0 k)) w1) as (m & Hcopy & Hmq & Hmw).
  change (cmd_local w1) with c0. rewrite (M_bind_run _ _ _ _ _ Hcopy).
  unfold rf_raise_modem_irq, modify at 1. rewrite (M_bind_run _ _ (set_env m w1) _ _ eq_refl).
  cbn [rf_irq modem_env env set_env].
  assert (Hst : word m FStatus = RF_SW_CMD_STATUS_POSTED).
  { rewrite Hmw, decide_True by (apply in_words, status_common). apply posted_u32. }
  assert (Hreq : request_of (word m) = posted (cmd (cmd_local w)) (data (cmd_local w)) k (env w)).
  { unfold request_of, posted. f_equal.
    - by rewrite Hmw, decide_True by (apply in_words, cmd_common).
    - apply list_fmap_ext. intros j i _. rewrite Hmw.
      destruct (decide (i < k)%nat); [by rewrite decide_True by by apply in_words|].
      by rewrite decide_False by by rewrite in_words. }
  assert (Htake : take_request m = Modem (word m) ((n, s) :: rest)).
  { unfold take_request. rewrite Hst, decide_True by done. change (queue (env w1)) with (queue (env w)) in Hmq.
    by rewrite Hreq, Hmq, Hq. }
  rewrite Htake. set (w2 := set_env (Modem (word m) ((n, s) :: rest)) (set_env m w1)).
  assert (Hnd : u32 (word (env w2) FStatus) ≠ RF_SW_CMD_STATUS_DONE).
  { cbn. rewrite Hst, posted_u32. apply posted_done. }
  change RF_SWCMD_TIMEOUT_RETRIES with 5%nat. rewrite M_bind_eq, (wait_done_modem 5 n s rest w2 eq_refl Hn Hnd).
  unfold answered. destruct (decide (n ≤ 5)%nat) as [Hin|Hout].
  - set (w3 := set_env (Modem (complete s (word (env w2))) rest) w2).
    assert (Hdone : (if decide ((5 - n)%nat = O) then
        st ← rd_field FStatus; mret (bool_decide (st ≠ RF_SW_CMD_STATUS_DONE)) else mret false) w3 = Some (false, w3)).
    { case_decide; [|done]. rewrite (M_bind_run _ _ _ _ _ (rd_field_modem _ _)). cbn.
      by rewrite done_u32, bool_decide_false by (intros Hx; by apply Hx). }
    rewrite (M_bind_run _ _ _ _ _ Hdone). eexists _, _. split; [reflexivity|]. split; [done|].
    split; [cbn; rewrite free_u32, decide_True by done; apply free_u32|]. cbn. split_and!; try done.
  - set (w3 := set_env (Modem (word (env w2)) (((n - 5)%nat, s) :: rest)) w2).
    assert (Hlate : (if decide (O = O) then
        st ← rd_field FStatus; mret (bool_decide (st ≠ RF_SW_CMD_STATUS_DONE)) else mret false) w3 = Some (true, w3)).
    { rewrite decide_True by done. rewrite (M_bind_run _ _ _ _ _ (rd_field_modem _ _)).
      by rewrite bool_decide_true. }
    rewrite (M_bind_run _ _ _ _ _ Hlate). eexists _, _. split; [reflexivity|]. split; [done|].
    split; [cbn; rewrite free_u32, decide_True by done; apply free_u32|]. done.
Qed.

Lemma posted_fill r k m :
  posted (code r) (enc r ++ drop (length (enc r)) (replicate data_words 0)) k m = posted (code r) (enc r) k m.
Proof.
  unfold posted. f_equal. apply list_fmap_ext. intros j i _. case_decide; [|done]. f_equal.
  destruct (decide (i < length (enc r))%nat) as [Hi|Hi]; [by rewrite app_nth1|].
  rewrite app_nth2, (nth_overflow (enc r)) by lia. rewrite drop_replicate, nth_lookup.
  destruct (_ !! _) as [x|] eqn:Hx; [|done]. by apply lookup_replicate in Hx as [-> _].
Qed.

Lemma command_modem r (k : nat) n s rest (w : rfdev modem) :
  usable (env w) → mdata_lock w = 1 → (length (enc r) ≤ data_words)%nat → (0 < n)%nat →
  queue (env w) ++ [(latency, posted (code r) (enc r) k (env w))] = (n, s) :: rest →
  ∃ ret w', rf_command r (4 * Z.of_nat k) w = Some (ret, w') ∧ mdata_lock w' = 1 ∧
    answered n s rest (host_stats w) ret w'.
Proof.
  intros Hu Hl He Hn Hq. unfold rf_command.
  set (w1 := set_cmd (Desc (code r) 4 0 0 0 0 (enc r ++ drop (length (enc r)) (replicate data_words 0))) (set_lock 0 w)).
  assert (Hf : fill r w = Some (tt, w1)).
  { unfold fill, rf_get_swcmd. rewrite M_bind_eq, (M_bind_run _ _ w _ _ eq_refl), Hl, decide_True by lia.
    cbn -[Nat.le]. by rewrite decide_True. }
  rewrite (M_bind_run _ _ _ _ _ Hf).
  destruct (send_modem k n s rest w1) as (ret & w2 & Hs & Hl2 & Ha); [done..|cbn; by rewrite posted_fill|].
  rewrite (M_bind_run _ _ _ _ _ Hs). eexists _, _. split; [reflexivity|]. split; [|exact Ha].
  cbn. rewrite Hl2. done.
Qed.

(** C1: A modem that answers within five waits is sent exactly the command: its code
    and data words.  The driver returns the modem's result, leaves its answer in the
    mailbox, frees the mailbox and counts the command. *)
Theorem rf_modem_answers r (k : nat) (w : rfdev modem) :
  (0 < latency ≤ 5)%nat → usable (env w) → queue (env w) = [] → mdata_lock w = 1 →
  (length (enc r) ≤ data_words)%nat →
  let req := posted (code r) (enc r) k (env w) in
  ∃ w', rf_command r (4 * Z.of_nat k) w = Some (i32 (u32 (fst (serve req))), w') ∧
    mdata_lock w' = 1 ∧ u32 (word (env w') FStatus) = RF_SW_CMD_STATUS_FREE ∧ queue (env w') = [] ∧
    (∀ i, word (env w') (FData i) = snd (serve req) i) ∧
    sw_cmds_tx (host_stats w') = i32 (sw_cmds_tx (host_stats w) + 1).
Proof.
  intros Hlat Hu Hq Hl He req.
  destruct (command_modem r k latency req [] w) as (ret & w' & Hr & Hl' & Hf & Ha); try done; [lia|by rewrite Hq|].
  rewrite decide_True in Ha by lia. destruct Ha as (-> & Hq' & Hd & Ht). exists w'. by split_and!.
Qed.

(** A modem that needs more than five waits, and not more than ten, desynchronises
    the driver: the first command fails with EBUSY although the modem carries it out,
    and the next command returns the result of the first, with its own still pending. *)
Theorem rf_late_answer r1 k1 r2 k2 (w : rfdev modem) :
  (5 < latency ≤ 10)%nat → usable (env w) → queue (env w) = [] → mdata_lock w = 1 →
  (length (enc r1) ≤ data_words)%nat → (length (enc r2) ≤ data_words)%nat →
  let req := posted (code r1) (enc r1) k1 (env w) in
  ∃ w1 w2 req2, rf_command r1 (4 * Z.of_nat k1) w = Some (- EBUSY, w1) ∧
    rf_command r2 (4 * Z.of_nat k2) w1 = Some (i32 (u32 (fst (serve req))), w2) ∧
    queue (env w2) = [(latency, req2)] ∧ fst req2 = u32 (code r2) ∧
    (∀ i, word (env w2) (FData i) = snd (serve req) i).
Proof.
  intros Hlat Hu Hq Hl He1 He2 req.
  destruct (command_modem r1 k1 latency req [] w) as (ret & w1 & Hr & Hl1 & Hf1 & Ha); try done; [lia|by rewrite Hq|].
  rewrite decide_False in Ha by lia. destruct Ha as (-> & Hq1 & _).
  set (req2 := posted (code r2) (enc r2) k2 (env w1)).
  destruct (command_modem r2 k2 (latency - 5) req [(latency, req2)] w1) as (ret & w2 & Hr2 & _ & _ & Ha);
    try done; [by left|lia|by rewrite Hq1|].
  rewrite decide_True in Ha by lia. destruct Ha as (-> & Hq2 & Hd & _). exists w1, w2, req2. by split_and!.
Qed.
End Served.

(** ** The SPI interface *)
Section Dspi.
Context {H : Type} `{RfEnv H, RficIf}.

(** A failing read is reported as success, and its entry and the later ones stay as
    they were. *)
Lemma read_dspi_hides_failures bound addr buf (w w' : rfdev H) ret l :
  rf_read_regs bound addr buf w = Some ((ret, l), w') →
  ret = 0 ∧ ∃ i, drop i l = drop i buf ∧
    (i = length buf ∨ ∃ w1 w2 e, rf_movandi_read_reg bound (u16 (Z.land addr MV_REG_ADDR_MASK)) w1 = Some (inl e, w2)).
Proof.
  unfold rf_read_regs, __rf_read_dspi_regs. generalize (u16 (Z.land addr MV_REG_ADDR_MASK)). intros a.
  intros (l0 & w0 & Hl & [= <- <- _])%M_bind_Some. split; [done|].
  revert l0 w w0 Hl. induction buf as [|b buf IH]; intros l0 w w0 Hl; cbn [read_dspi_loop] in Hl.
  { injection Hl as <- _. exists O. split; [done|by left]. }
  apply M_bind_Some in Hl as (r & w1 & Hr & Hl). destruct r as [e|v].
  - injection Hl as <- _. exists O. split; [done|]. right. by exists w, w1, e.
  - apply M_bind_Some in Hl as (l1 & w2 & Hl1 & [= <- _]). destruct (IH _ _ _ Hl1) as (i & Hd & Hi).
    exists (S i). split; [done|]. destruct Hi as [->|Hi]; [by left|by right].
Qed.

(** A transfer that never completes is waited for without end. *)
Lemma dspi_wait_hangs bound (w : rfdev H) :
  (∀ h, Z.land (u32 (fst (dspi_read DSPI_SR h))) DSPI_SR_TCF = 0) → dspi_wait_fifo bound w = None.
Proof.
  intros Hs. unfold dspi_wait_fifo. rewrite M_bind_eq.
  assert (Hu := until_spec dspi_wait_step False (λ _ _ _, True) (λ _ _, False)).
  assert (Hstep : ∀ k s (w1 : rfdev H), 0 < k → True → match dspi_wait_step s w1 with
    | Some (inl s', w') => True | Some (inr r, w') => False | None => False end).
  { intros k s w1 _ _. unfold dspi_wait_step, rd_dspi. rewrite M_bind_eq. specialize (Hs (env w1)).
    destruct (dspi_read DSPI_SR (env w1)) as [v h]. cbn [fst] in Hs. by rewrite decide_False by (intros Hx; by apply Hx). }
  specialize (Hu Hstep bound (Zpos bound) tt w ltac:(lia) I).
  by destruct (until dspi_wait_step bound tt w) as [[[u|u] w1]|].
Qed.
End Dspi.

(** ** Probing *)

(** A device that is probed and removed gives its minor back. *)
Lemma rfic_probe_remove k p rc p' : rfdev_of p = NoRfdev → 0 ≤ p_stats k →
  gul_rfic_probe k p = (rc, p') → gul_rfic_remove p' = Some (0, p).
Proof.
  intros Hp Hk Hr. unfold gul_rfic_probe in Hr.
  assert (Hsame : gul_rfic_remove p = Some (0, p)) by (unfold gul_rfic_remove; by rewrite Hp).
  destruct (list_find _ _) as [[i x]|] eqn:Hf; [|by injection Hr as <- <-].
  apply list_find_Some in Hf as (Hi & -> & _).
  destruct (p_alloc k); cbn [negb] in Hr; [|by injection Hr as <- <-].
  case_decide; [by injection Hr as <- <-|]. case_decide; [by injection Hr as <- <-|].
  rewrite decide_False in Hr by lia. injection Hr as <- <-. unfold gul_rfic_remove. cbn [rfdev_of in_use_minor].
  rewrite list_insert_insert_eq, list_insert_id by done. destruct p as [l q]. cbn in Hp. by rewrite Hp.
Qed.
(** When the statistics fail the device is freed and stays where removal finds it. *)
Lemma rfic_probe_leaves_freed k p i : list_find (λ b, b = false) (in_use_minor p) = Some (i, false) →
  p_alloc k = true → 0 ≤ p_device k → p_cdev k = 0 → p_stats k < 0 →
  gul_rfic_remove (snd (gul_rfic_probe k p)) = None.
Proof.
  intros Hf Ha Hd Hc Hs. unfold gul_rfic_probe. rewrite Hf, Ha. cbn [negb].
  rewrite (decide_False (P := p_device k < 0)) by lia.
  rewrite (decide_False (P := p_cdev k ≠ 0)) by (intros Hx; by apply Hx).
  by rewrite decide_True.
Qed.

(** ** Witnesses *)
#[local] Instance demo_rfic : RficIf := {|
  RF_SW_CMD_STATUS_FREE := 0; RF_SW_CMD_STATUS_POSTED := 1; RF_SW_CMD_STATUS_DONE := 2; RF_SW_CMD_RESULT_OK := 0;
  RFIC_REMOTE_CMD_TIMEOUT := 1000; RF_CMD_FLAGS_REMOTE := 1;
  MV_REG_ADDR_MASK := 0xFFFF; MV_REG_VAL_MASK := 0xFF; MAX_RW_REGS := 64; RF_BBK_LIST_MAX := 32;
  code := λ r, match r with SetTxGain _ => 3 | SetRxGain _ _ => 4 | _ => 9 end;
  enc := λ r, match r with SetTxGain l => [l] | SetRxGain b l => [b; l] | _ => [] end; data_words := 4;
  common := [FCmd; FCoreId; FTimeout; FStatus; FFlags; FResult]; rf_reg_rw_data_size := 8; val_at := λ i, (2 * i + 2)%nat |}.
#[local] Instance demo_laws : RficLaws.
Proof. by split; try done; [set_solver..|intros i Hi; cbn in Hi; set_solver]. Qed.
Definition demo_serve (req : Z * list Z) : Z * (nat → Z) := (fst req + 100, λ i, nth i (snd req) 0).
Definition demo_rfdev : rfdev modem :=
  gul_rfic_init_mdata (H := modem) (Modem (λ _, 0) []) (Desc 0 0 0 0 0 0 []).
#[local] Existing Instance modem_env.

Lemma rf_command_returns_witness : let e := modem_env demo_serve 3 in
  ∃ ret w', rf_command (SetTxGain 7) 4 demo_rfdev = Some (ret, w') ∧ mdata_lock w' = 1 ∧
    host_ready w' = host_ready demo_rfdev ∧ counted (host_stats demo_rfdev) ret (host_stats w').
Proof. intros e. apply rf_command_returns; [reflexivity|cbn; lia]. Defined.

Lemma rf_modem_answers_witness : let e := modem_env demo_serve 5 in
  ∃ w', rf_command (SetTxGain 7) 4 demo_rfdev = Some (103, w') ∧
    mdata_lock w' = 1 ∧ u32 (word (env w') FStatus) = 0 ∧ queue (env w') = [] ∧
    (∀ i, word (env w') (FData i) = nth i [7; 0; 0; 0] 0) ∧ sw_cmds_tx (host_stats w') = 1.
Proof.
  intros e. subst e.
  destruct (rf_modem_answers demo_serve 5 (SetTxGain 7) 1 demo_rfdev) as (w' & Hr & Hl & Hf & Hq & Hd & Ht);
    [lia|by left|reflexivity|reflexivity|cbn; lia|].
  exists w'. split; [exact Hr|]. split; [exact Hl|]. split; [exact Hf|]. split; [exact Hq|]. split; [exact Hd|exact Ht].
Defined.

Lemma rf_late_answer_witness : let e := modem_env demo_serve 7 in
  ∃ w1 w2 req2, rf_command (SetTxGain 7) 4 demo_rfdev = Some (- EBUSY, w1) ∧
    rf_command (SetRxGain 1 8) 8 w1 = Some (103, w2) ∧
    queue (env w2) = [(7%nat, req2)] ∧ fst req2 = 4 ∧ (∀ i, word (env w2) (FData i) = nth i [7; 0; 0; 0] 0).
Proof.
  intros e. subst e.
  destruct (rf_late_answer demo_serve 7 (SetTxGain 7) 1 (SetRxGain 1 8) 2 demo_rfdev)
    as (w1 & w2 & req2 & Hr1 & Hr2 & Hq & Hc & Hd); [lia|by left|reflexivity|reflexivity|cbn; lia..|].
  exists w1, w2, req2. split; [exact Hr1|]. split; [exact Hr2|]. split; [exact Hq|]. split; [exact Hc|exact Hd].
Defined.
