(* ===== verification/GulHawk.v ===== *)
(** * The performance monitor of the modem's cores (kernel_driver/yami/gul_hawk.c)

    One mailbox for all the cores, with a status and a result word for each.  Its
    structures come from a header the repository does not contain: [HawkIf] gives
    their numbers, and how the statistics lie in the words of the data array. *)
From S2P Require Import Prelude GulMsi GulRfic.
#[global] Open Scope Z_scope.

Definition HAWK_SWCMD_TIMEOUT_RETRIES : nat := 5.

(** The words of the mailbox. *)
Inductive hawk_field := HCmd | HCoreMask | HStatus (core : nat) | HResult (core : nat) | HData (i : nat).
#[export] Instance hawk_field_eq : EqDecision hawk_field.
Proof. solve_decision. Defined.

(** The events chosen, each with its counter, and what was counted. *)
Record hawk_swcmd_stat := HawkStat { events : list (Z * Z); event_mark : bool; ctrs : list (list Z) }.

Class HawkIf := {
  E200_CORE_COUNT : nat; HAWK_EVENT_MAX_COUNT : nat;
  HAWK_SW_CMD_STATUS_FREE : Z; HAWK_SW_CMD_STATUS_POSTED : Z; HAWK_SW_CMD_STATUS_DONE : Z; HAWK_SW_CMD_RESULT_OK : Z;
  HAWK_SW_CMD_MARK_SET : Z; HAWK_SW_CMD_MARK_RESET : Z; HAWK_SW_CMD_RECORD_START : Z; HAWK_SW_CMD_RECORD_STOP : Z;
  (* the words of the statistics, how many they are, and the counters among them *)
  enc_stat : hawk_swcmd_stat → list Z; stat_words : nat; ctrs_of : list Z → list (list Z);
  (* the words before the data *)
  hawk_common : list hawk_field }.

Class HawkEnv (H : Type) := {
  hawk_read : hawk_field → H → Z * H; hawk_write : hawk_field → Z → H → H; hawk_irq : H → H; hawk_sleep : H → H }.

Record hawk_sw_cmd_desc := HawkDesc { hcmd : Z; hcore_mask : Z; hstatus : list Z; hdata : list Z }.
Record hawkdev (H : Type) := Hawkdev {
  henv : H; hcmd_local : hawk_sw_cmd_desc; cmd_stat : hawk_swcmd_stat; core_mask : Z }.
Arguments Hawkdev {_} _ _ _ _.
Arguments henv {_} _.
Arguments hcmd_local {_} _.
Arguments cmd_stat {_} _.
Arguments core_mask {_} _.

Section Hawk.
Context {H : Type} `{HawkEnv H, HawkIf}.
Local Abbreviation V := (M (hawkdev H)).

Definition set_henv (v : H) (w : hawkdev H) : hawkdev H := Hawkdev v (hcmd_local w) (cmd_stat w) (core_mask w).
Definition set_hcmd (v : hawk_sw_cmd_desc) (w : hawkdev H) : hawkdev H := Hawkdev (henv w) v (cmd_stat w) (core_mask w).
Definition set_stat (v : hawk_swcmd_stat) (w : hawkdev H) : hawkdev H := Hawkdev (henv w) (hcmd_local w) v (core_mask w).
Definition set_mask (v : Z) (w : hawkdev H) : hawkdev H := Hawkdev (henv w) (hcmd_local w) (cmd_stat w) v.

Definition rd_hawk (f : hawk_field) : V Z :=
  λ w, let '(v, h) := hawk_read f (henv w) in Some (u32 v, set_henv h w).
Definition wr_hawk (f : hawk_field) (v : Z) : V unit := modify (λ w, set_henv (hawk_write f (u32 v) (henv w)) w).

Definition hawk_get_swcmd : V unit :=
  modify (set_hcmd (HawkDesc 0 0 (replicate E200_CORE_COUNT 0) (replicate stat_words 0))).
(** The write of FREE goes to the local pointer and not to the mailbox. *)
Definition hawk_free_cmd : V unit :=
  modify (λ w, let c := hcmd_local w in
    set_hcmd (HawkDesc (hcmd c) (hcore_mask c) (replicate E200_CORE_COUNT HAWK_SW_CMD_STATUS_FREE) (hdata c)) w).

Fixpoint hawk_data_loop (i cnt : nat) : V unit :=
  match cnt with
  | O => mret tt
  | S cnt =>
      v ← rd_hawk (HData i);
      _ ← modify (λ w, let c := hcmd_local w in
            set_hcmd (HawkDesc (hcmd c) (hcore_mask c) (hstatus c) (<[i := v]> (hdata c))) w);
      hawk_data_loop (S i) cnt
  end.
Definition hawk_swcmd_get_data (words : nat) : V unit := hawk_data_loop 0 words.

(** ** One command *)
Fixpoint all_free (cores : list nat) : V bool :=
  match cores with
  | [] => mret true
  | i :: cores => st ← rd_hawk (HStatus i); if decide (st = HAWK_SW_CMD_STATUS_FREE) then all_free cores else mret false
  end.
Definition hawk_field_of (c : hawk_sw_cmd_desc) (f : hawk_field) : Z :=
  match f with
  | HCmd => hcmd c | HCoreMask => hcore_mask c | HStatus i => nth i (hstatus c) 0 | HResult _ => 0
  | HData i => nth i (hdata c) 0
  end.
Fixpoint hawk_copy (c : hawk_sw_cmd_desc) (fs : list hawk_field) : V unit :=
  match fs with [] => mret tt | f :: fs => _ ← wr_hawk f (hawk_field_of c f); hawk_copy c fs end.

(** The wait: the status polled is that of core 0, whichever core is waited for. *)
Fixpoint hawk_wait (retries : nat) (st : Z) : V (nat * Z) :=
  match retries with
  | O => mret (O, st)
  | S r =>
      if decide (st = HAWK_SW_CMD_STATUS_DONE) then mret (S r, st) else
      _ ← modify (λ w, set_henv (hawk_sleep (henv w)) w);
      st ← rd_hawk (HStatus 0);
      hawk_wait r st
  end.
(** The cores of the mask, with the waits left for all of them; [ret] is the result
    so far, and the last core's is the one returned. *)
Fixpoint hawk_cores (cores : list nat) (mask : Z) (retries : nat) (ret : Z) : V Z :=
  match cores with
  | [] => mret ret
  | i :: cores =>
      if Z.testbit mask (Z.of_nat i) then
        st ← rd_hawk (HStatus i);
        '(retries, st) ← hawk_wait retries st;
        if decide (retries = O ∧ st ≠ HAWK_SW_CMD_STATUS_DONE) then mret (- EBUSY) else
        r ← rd_hawk (HResult i);
        hawk_cores cores mask retries (i32 r)
      else hawk_cores cores mask retries ret
  end.
Fixpoint free_all (cores : list nat) : V unit :=
  match cores with [] => mret tt | i :: cores => _ ← wr_hawk (HStatus i) HAWK_SW_CMD_STATUS_FREE; free_all cores end.

Definition cores_ : list nat := seq 0 E200_CORE_COUNT.
Definition hawk_send_swcmd (data_words : nat) : V Z :=
  free ← all_free cores_;
  if negb (free : bool) then mret (- EBUSY) else
  _ ← modify (λ w, let c := hcmd_local w in
        set_hcmd (HawkDesc (hcmd c) (core_mask w)
          (imap (λ i st, if Z.testbit (core_mask w) (Z.of_nat i) then HAWK_SW_CMD_STATUS_POSTED else st) (hstatus c))
          (hdata c)) w);
  c ← gets hcmd_local;
  _ ← hawk_copy c (hawk_common ++ (HData <$> seq 0 data_words));
  _ ← modify (λ w, set_henv (hawk_irq (henv w)) w);
  ret ← hawk_cores cores_ (hcore_mask c) HAWK_SWCMD_TIMEOUT_RETRIES 0;
  _ ← free_all cores_;
  mret ret.

(** ** The operations *)
Definition __hawk_event_set (event_output event : Z) : V Z :=
  s ← gets cmd_stat;
  if decide (HAWK_EVENT_MAX_COUNT ≤ length (events s))%nat then mret (-1) else
  _ ← modify (set_stat (HawkStat (events s ++ [(event_output, event)]) (event_mark s) (ctrs s))); mret 0.
Definition no_stat : hawk_swcmd_stat := HawkStat [] false [].
Definition __hawk_event_reset : V Z :=
  s ← gets cmd_stat;
  match events s with [] => mret (-1) | _ => _ ← modify (set_stat no_stat); mret 0 end.
Definition __hawk_core_mask_set (mask : Z) : V Z := _ ← modify (set_mask mask); mret 0.

(** The command with the statistics as its data. *)
Definition fill_stat (code : Z) (s : hawk_swcmd_stat) : V unit :=
  modify (λ w, let c := hcmd_local w in
    set_hcmd (HawkDesc code (hcore_mask c) (hstatus c) (enc_stat s ++ drop (length (enc_stat s)) (hdata c))) w).
Definition __hawk_mark_set (enable : bool) : V Z :=
  s ← gets cmd_stat;
  match events s with
  | [] => mret (-1)
  | _ =>
      _ ← hawk_get_swcmd;
      _ ← fill_stat (if enable then HAWK_SW_CMD_MARK_SET else HAWK_SW_CMD_MARK_RESET)
            (HawkStat (events s) enable (ctrs s));
      ret ← hawk_send_swcmd stat_words;
      _ ← (if decide (ret = 0) then modify (set_stat (HawkStat (events s) enable (ctrs s))) else mret tt);
      _ ← hawk_free_cmd; mret ret
  end.
Definition __hawk_record_set (enable : bool) : V Z :=
  s ← gets cmd_stat;
  match events s with
  | [] => mret (-1)
  | _ =>
      _ ← hawk_get_swcmd;
      _ ← fill_stat (if enable then HAWK_SW_CMD_RECORD_START else HAWK_SW_CMD_RECORD_STOP) s;
      ret ← hawk_send_swcmd stat_words;
      _ ← (if decide (enable = false ∧ ret = HAWK_SW_CMD_RESULT_OK) then
             _ ← hawk_swcmd_get_data stat_words;
             c ← gets hcmd_local;
             modify (set_stat (HawkStat (events s) (event_mark s) (ctrs_of (hdata c))))
           else mret tt);
      _ ← hawk_free_cmd; mret ret
  end.
Definition gul_hawk_init_mdata (h : H) (c : hawk_sw_cmd_desc) : hawkdev H := Hawkdev h c no_stat 0xf.
End Hawk.
