(* ===== verification/GulHawkCorrect.v ===== *)
(** * The performance monitor: theorems

    A command returns on any modem; but the wait looks at core 0 alone, whichever
    core is asked. *)
From S2P Require Import Prelude GulMsi GulRfic GulHawk.
#[global] Open Scope Z_scope.

(** ** Whatever the modem does *)
Section Any.
Context {H : Type} `{HawkEnv H, HawkIf}.
Local Abbreviation any := (λ _ : hawkdev H, True).

Lemma rd_hawk_any f : hoare False any (rd_hawk f) (λ _, any).
Proof. intros w _. unfold rd_hawk. by destruct (hawk_read f (henv w)). Qed.
Lemma all_free_any cs : hoare False any (all_free cs) (λ _, any).
Proof.
  induction cs as [|c cs IH]; cbn [all_free]; [done|]. eapply hoare_bind; [apply rd_hawk_any|].
  intros st. cbn beta. case_decide; [apply IH|by intros ? ?].
Qed.
Lemma hawk_copy_any c fs : hoare False any (hawk_copy c fs) (λ _, any).
Proof. induction fs as [|f fs IH]; cbn [hawk_copy]; [done|]. eapply (hoare_bind _ (λ _, any)); [by intros ? ?|]. intros []. apply IH. Qed.
Lemma hawk_wait_any r : ∀ st, hoare False any (hawk_wait r st) (λ _, any).
Proof.
  induction r as [|r IH]; intros st; cbn [hawk_wait]; [done|]. case_decide; [done|].
  eapply (hoare_bind _ (λ _, any)); [by intros ? ?|]. intros []. eapply hoare_bind; [apply rd_hawk_any|]. intros st'. apply IH.
Qed.
Lemma hawk_cores_any cs mask : ∀ r ret, hoare False any (hawk_cores cs mask r ret) (λ _, any).
Proof.
  induction cs as [|c cs IH]; intros r ret; cbn [hawk_cores]; [done|].
  destruct (Z.testbit mask (Z.of_nat c)); [|apply IH].
  eapply hoare_bind; [apply rd_hawk_any|]. intros st. eapply hoare_bind; [apply hawk_wait_any|]. intros [r' st'].
  cbn beta iota. case_decide; [done|]. eapply hoare_bind; [apply rd_hawk_any|]. intros v. apply IH.
Qed.
Lemma free_all_any cs : hoare False any (free_all cs) (λ _, any).
Proof. induction cs as [|c cs IH]; cbn [free_all]; [done|]. eapply (hoare_bind _ (λ _, any)); [by intros ? ?|]. intros []. apply IH. Qed.

(** A command returns whatever the modem does. *)
Lemma hawk_send_returns n (w : hawkdev H) : ∃ ret w', hawk_send_swcmd n w = Some (ret, w').
Proof.
  assert (Hh : hoare False any (hawk_send_swcmd n) (λ _, any)).
  { unfold hawk_send_swcmd. eapply hoare_bind; [apply all_free_any|]. intros b. destruct b; cbn [negb]; [|done].
    eapply (hoare_bind _ (λ _, any)); [by intros ? ?|]. intros []. eapply (hoare_bind _ (λ _, any)); [by intros ? ?|]. intros c.
    eapply hoare_bind; [apply hawk_copy_any|]. intros []. eapply (hoare_bind _ (λ _, any)); [by intros ? ?|]. intros [].
    eapply hoare_bind; [apply hawk_cores_any|]. intros ret. eapply hoare_bind; [apply free_all_any|]. by intros []. }
  specialize (Hh w I). destruct (hawk_send_swcmd n w) as [[ret w']|]; [by exists ret, w'|done].
Qed.

(** Events are kept in order up to the capacity, and a reset empties them. *)
Lemma event_set_fills es : ∀ w : hawkdev H,
  (length (events (cmd_stat w)) + length es ≤ HAWK_EVENT_MAX_COUNT)%nat →
  ∃ w', mapM (λ '(o, e), __hawk_event_set o e) es w = Some (replicate (length es) 0, w') ∧
    events (cmd_stat w') = events (cmd_stat w) ++ es.
Proof.
  induction es as [|[o e] es IH]; intros w Hl; cbn [mapM length] in *.
  { exists w. by rewrite app_nil_r. }
  set (w1 := set_stat (HawkStat (events (cmd_stat w) ++ [(o, e)]) (event_mark (cmd_stat w)) (ctrs (cmd_stat w))) w).
  assert (Hset : __hawk_event_set o e w = Some (0, w1)).
  { unfold __hawk_event_set. rewrite (M_bind_run _ _ w _ _ eq_refl), decide_False by lia. done. }
  destruct (IH w1) as (w' & Hr & He); [cbn; rewrite length_app; cbn; lia|].
  exists w'. rewrite M_bind_eq, Hset, M_bind_eq, Hr. split; [done|]. rewrite He. cbn. by rewrite <- app_assoc.
Qed.
End Any.

(** ** A modem whose cores answer after a while *)

(** Every core that was asked is done [time] waits after the interrupt. *)
Record hmodem := HModem { hword : hawk_field → Z; clock : nat }.
Class HawkLaws `{HawkIf} := {
  hposted_done : HAWK_SW_CMD_STATUS_POSTED ≠ HAWK_SW_CMD_STATUS_DONE;
  hzero_done : HAWK_SW_CMD_STATUS_DONE ≠ 0; hzero_posted : HAWK_SW_CMD_STATUS_POSTED ≠ 0;
  hdone_u32 : u32 HAWK_SW_CMD_STATUS_DONE = HAWK_SW_CMD_STATUS_DONE;
  hposted_u32 : u32 HAWK_SW_CMD_STATUS_POSTED = HAWK_SW_CMD_STATUS_POSTED;
  status_in_common i : (i < E200_CORE_COUNT)%nat → HStatus i ∈ hawk_common }.

Section Cores.
Context `{HawkLaws}.
Variables (time : nat → nat) (res : nat → Z).

Definition status_now (m : hmodem) (i : nat) : Z :=
  if decide (hword m (HStatus i) = HAWK_SW_CMD_STATUS_POSTED ∧ (time i ≤ clock m)%nat) then HAWK_SW_CMD_STATUS_DONE
  else hword m (HStatus i).
#[local] Instance hmodem_env : HawkEnv hmodem := {|
  hawk_read := λ f m, (match f with HStatus i => status_now m i | HResult i => res i | _ => hword m f end, m);
  hawk_write := λ f v m, HModem (λ g, if decide (g = f) then v else hword m g) (clock m);
  hawk_irq := λ m, HModem (hword m) 0; hawk_sleep := λ m, HModem (hword m) (S (clock m)) |}.

Lemma rd_status i (w : hawkdev hmodem) : rd_hawk (HStatus i) w = Some (u32 (status_now (henv w) i), w).
Proof. by destruct w. Qed.
Lemma rd_result i (w : hawkdev hmodem) : rd_hawk (HResult i) w = Some (u32 (res i), w).
Proof. by destruct w. Qed.

Lemma all_free_true cs (w : hawkdev hmodem) :
  (∀ i, i ∈ cs → u32 (status_now (henv w) i) = HAWK_SW_CMD_STATUS_FREE) → all_free cs w = Some (true, w).
Proof.
  induction cs as [|c cs IH]; intros Hc; cbn [all_free]; [done|].
  rewrite (M_bind_run _ _ _ _ _ (rd_status _ _)), decide_True by (apply Hc; set_solver).
  apply IH. intros i Hi. apply Hc. set_solver.
Qed.
Lemma hawk_copy_words c fs : ∀ w : hawkdev hmodem, ∃ m, hawk_copy c fs w = Some (tt, set_henv m w) ∧
  ∀ f, hword m f = if decide (f ∈ fs) then u32 (hawk_field_of c f) else hword (henv w) f.
Proof.
  induction fs as [|g fs IH]; intros w; cbn [hawk_copy].
  - exists (henv w). split; [by destruct w|]. intros f. by rewrite decide_False by set_solver.
  - unfold wr_hawk, modify. rewrite (M_bind_run _ _ w _ _ eq_refl).
    match goal with |- context [hawk_copy c fs ?x] => destruct (IH x) as (m & Hm & Hw) end.
    exists m. split; [exact Hm|]. intros f. rewrite Hw. cbn.
    destruct (decide (f ∈ fs)) as [Hf|Hf]; [by rewrite decide_True by set_solver|].
    destruct (decide (f = g)) as [->|Hfg]; [by rewrite decide_True by set_solver|].
    by rewrite decide_False by set_solver.
Qed.

(** The wait is over when core 0 is done, and otherwise only when it is out of turns. *)
Lemma hawk_wait_stuck R : ∀ st (w : hawkdev hmodem), st ≠ HAWK_SW_CMD_STATUS_DONE →
  hword (henv w) (HStatus 0) = 0 →
  hawk_wait R st w = Some ((O, if decide (R = O) then st else 0), set_henv (HModem (hword (henv w)) (clock (henv w) + R)) w).
Proof.
  induction R as [|R IH]; intros st w Hst Hz0; cbn [hawk_wait].
  - rewrite decide_True by done. rewrite Nat.add_0_r. by destruct w as [[]].
  - rewrite decide_False by done. unfold modify. rewrite (M_bind_run _ _ w _ _ eq_refl).
    rewrite (M_bind_run _ _ _ _ _ (rd_status _ _)). unfold status_now. cbn [henv set_henv hawk_sleep hmodem_env hword].
    rewrite Hz0. rewrite (decide_False (P := 0 = HAWK_SW_CMD_STATUS_POSTED ∧ _)) by (intros [Hp _]; by apply hzero_posted).
    rewrite (IH (u32 0)) by (try done; intros Hz; by apply hzero_done). cbn.
    replace (clock (henv w) + S R)%nat with (S (clock (henv w) + R)) by lia.
    rewrite (decide_False (P := S R = O)) by done. by destruct (decide (R = O)).
Qed.

Lemma hawk_cores_skip cs mask R ret (w : hawkdev hmodem) :
  (∀ i, i ∈ cs → Z.testbit mask (Z.of_nat i) = false) → hawk_cores cs mask R ret w = Some (ret, w).
Proof.
  induction cs as [|c cs IH]; intros Hc; cbn [hawk_cores]; [done|]. rewrite Hc by set_solver.
  apply IH. intros i Hi. apply Hc. set_solver.
Qed.
Lemma hawk_cores_skip_app cs cs' mask R ret (w : hawkdev hmodem) :
  (∀ i, i ∈ cs → Z.testbit mask (Z.of_nat i) = false) →
  hawk_cores (cs ++ cs') mask R ret w = hawk_cores cs' mask R ret w.
Proof.
  induction cs as [|c cs IH]; intros Hc; cbn [hawk_cores app]; [done|]. rewrite Hc by set_solver.
  apply IH. intros i Hi. apply Hc. set_solver.
Qed.

Lemma free_all_clock cs : ∀ w : hawkdev hmodem,
  ∃ w', free_all cs w = Some (tt, w') ∧ clock (henv w') = clock (henv w).
Proof.
  induction cs as [|c cs IH]; intros w; cbn [free_all]; [by exists w|].
  unfold wr_hawk, modify. rewrite (M_bind_run _ _ w _ _ eq_refl).
  match goal with |- context [free_all cs ?x] => destruct (IH x) as (w' & Hf & Hc) end.
  exists w'. by rewrite Hf, Hc.
Qed.

(** A command for core [j] alone, [j] not 0, times out however fast the core is,
    unless it is done at the first look: what is polled is the status of core 0, which
    was not asked.  The driver then frees the mailbox. *)
Theorem hawk_needs_core_0 n j (w : hawkdev hmodem) :
  (0 < j < E200_CORE_COUNT)%nat → core_mask w = 2 ^ Z.of_nat j → (0 < time j)%nat →
  (∀ i, (i < E200_CORE_COUNT)%nat → u32 (status_now (henv w) i) = HAWK_SW_CMD_STATUS_FREE) →
  hstatus (hcmd_local w) = replicate E200_CORE_COUNT 0 →
  ∃ w', hawk_send_swcmd n w = Some (- EBUSY, w') ∧ clock (henv w') = 5%nat.
Proof.
  intros Hj Hm Ht Hfree Hs. unfold hawk_send_swcmd.
  assert (Hall : all_free cores_ w = Some (true, w)).
  { apply all_free_true. intros i Hi. apply Hfree. apply elem_of_seq in Hi. lia. }
  rewrite (M_bind_run _ _ _ _ _ Hall). cbn [negb]. unfold modify at 1. rewrite (M_bind_run _ _ w _ _ eq_refl).
  match goal with |- context [set_hcmd ?c w] => set (c0 := c); set (w1 := set_hcmd c0 w) end.
  rewrite (M_bind_run _ _ w1 _ _ eq_refl). change (hcmd_local w1) with c0.
  destruct (hawk_copy_words c0 (hawk_common ++ (HData <$> seq 0 n)) w1) as (m & Hcopy & Hmw).
  rewrite (M_bind_run _ _ _ _ _ Hcopy). rewrite (M_bind_run _ _ (set_henv m w1) _ _ eq_refl).
  cbn [henv set_henv hawk_irq hmodem_env]. set (w2 := set_henv (HModem (hword m) 0) (set_henv m w1)).
  assert (Hbit : ∀ i, Z.testbit (2 ^ Z.of_nat j) (Z.of_nat i) = bool_decide (i = j)).
  { intros i. rewrite Z.pow2_bits_eqb by lia. destruct (Z.eqb_spec (Z.of_nat j) (Z.of_nat i)); [by rewrite bool_decide_true by lia|by rewrite bool_decide_false by lia]. }
  assert (Hstat : ∀ i, (i < E200_CORE_COUNT)%nat →
    hword m (HStatus i) = if decide (i = j) then HAWK_SW_CMD_STATUS_POSTED else 0).
  { intros i Hi. rewrite Hmw, decide_True by (apply elem_of_app; left; by apply status_in_common).
    subst c0. cbn [hawk_field_of hstatus]. rewrite Hm, Hs, nth_lookup, list_lookup_imap, lookup_replicate_2 by lia.
    cbn. rewrite Hbit. destruct (decide (i = j)); [by rewrite bool_decide_true, hposted_u32|by rewrite bool_decide_false]. }
  assert (Hcores : hawk_cores cores_ (2 ^ Z.of_nat j) HAWK_SWCMD_TIMEOUT_RETRIES 0 w2 =
    Some (- EBUSY, set_henv (HModem (hword m) 5) w2)).
  { assert (Hsplit : cores_ = seq 0 j ++ j :: seq (S j) (E200_CORE_COUNT - S j)).
    { unfold cores_. replace E200_CORE_COUNT with (j + S (E200_CORE_COUNT - S j))%nat at 1 by lia. by rewrite seq_app. }
    rewrite Hsplit, hawk_cores_skip_app.
    2:{ intros i Hi. apply elem_of_seq in Hi. rewrite Hbit. apply bool_decide_false. lia. }
    cbn [hawk_cores]. rewrite Hbit, bool_decide_true by done. rewrite (M_bind_run _ _ _ _ _ (rd_status _ _)).
    change (henv w2) with (HModem (hword m) 0). unfold status_now at 1. cbn [hword clock].
    rewrite (Hstat j), (decide_True (P := j = j)) by (done || lia).
    rewrite (decide_False (P := _ ∧ (time j ≤ 0)%nat)) by lia. rewrite hposted_u32.
    assert (Hw := hawk_wait_stuck 5 HAWK_SW_CMD_STATUS_POSTED w2 hposted_done).
    rewrite M_bind_eq. change HAWK_SWCMD_TIMEOUT_RETRIES with 5%nat. rewrite Hw.
    2:{ cbn. rewrite Hstat, decide_False by lia. done. }
    rewrite decide_True; [done|]. split; [done|]. intros Hz. by apply hzero_done. }
  change (hcore_mask c0) with (core_mask w). rewrite Hm, (M_bind_run _ _ _ _ _ Hcores).
  destruct (free_all_clock cores_ (set_henv (HModem (hword m) 5) w2)) as (w3 & Hf & Hc).
  rewrite (M_bind_run _ _ _ _ _ Hf). by exists w3.
Qed.
End Cores.

(** ** Witness *)
#[local] Instance demo_hawk : HawkIf := {|
  E200_CORE_COUNT := 4; HAWK_EVENT_MAX_COUNT := 4;
  HAWK_SW_CMD_STATUS_FREE := 0; HAWK_SW_CMD_STATUS_POSTED := 1; HAWK_SW_CMD_STATUS_DONE := 2; HAWK_SW_CMD_RESULT_OK := 0;
  HAWK_SW_CMD_MARK_SET := 1; HAWK_SW_CMD_MARK_RESET := 2; HAWK_SW_CMD_RECORD_START := 3; HAWK_SW_CMD_RECORD_STOP := 4;
  enc_stat := λ s, [Z.of_nat (length (events s))]; stat_words := 1; ctrs_of := λ l, [l];
  hawk_common := [HCmd; HCoreMask; HStatus 0; HStatus 1; HStatus 2; HStatus 3] |}.
#[local] Instance demo_hawk_laws : HawkLaws.
Proof.
  split; try done. intros i Hi. cbn in Hi. destruct i as [|[|[|[|i]]]]; [set_solver..|lia].
Qed.
Definition demo_hawkdev : hawkdev hmodem :=
  Hawkdev (HModem (λ _, 0) 0) (HawkDesc 3 0 [0; 0; 0; 0] [1]) (HawkStat [(0, 1)] false []) 4.

(** The third core is done after one wait, and the command times out. *)
Lemma hawk_needs_core_0_witness : let e := hmodem_env (λ _, 1%nat) (λ _, 0) in
  ∃ w', hawk_send_swcmd 1 demo_hawkdev = Some (- EBUSY, w') ∧ clock (henv w') = 5%nat.
Proof.
  intros e. subst e. apply (hawk_needs_core_0 (λ _, 1%nat) (λ _, 0) 1 2 demo_hawkdev); [cbn; lia|reflexivity|lia| |reflexivity].
  intros i _. reflexivity.
Defined.
