(* ===== verification/GulModules.v ===== *)
(** * Loading and unloading the sub-drivers (kernel_driver/yami/gul_dcs.c, gul_rfic.c, gul_hawk.c)

    What the data converters, the RF and the monitor driver set up with the module or
    with a modem, and give back.  The thread of the converters depends on an option that
    the probe of a modem may clear (GulBase.v). *)
From S2P Require Import Prelude GulMsi GulBase GulHawk.
From Stdlib Require Import Ascii.
#[global] Open Scope Z_scope.

(** ** The thread of the converters *)

(** The pointer: NULL, an error, or a thread that runs or was stopped. *)
Inductive tmon_thread := NoThread | ThreadError | Running | Stopped.
#[export] Instance tmon_thread_eq : EqDecision tmon_thread.
Proof. solve_decision. Defined.

Definition ENOEXEC : Z := 8.
Definition dcs_init (hsdcs_enable : Z) (kthread_run : bool) (hsts_tmon : tmon_thread) : Z * tmon_thread :=
  if decide (hsdcs_enable ≠ 0) then
    if kthread_run then (0, Running) else (- ENOEXEC, ThreadError)
  else (0, hsts_tmon).
(** [None] is [kthread_stop] of an error or of a thread that is gone. *)
Definition dcs_exit (hsdcs_enable : Z) (hsts_tmon : tmon_thread) : option (Z * tmon_thread) :=
  if decide (hsdcs_enable ≠ 0) then
    match hsts_tmon with
    | NoThread => Some (0, NoThread)
    | Running => Some (0, Stopped)
    | ThreadError | Stopped => None
    end
  else Some (0, hsts_tmon).

(** With the option unchanged the thread ends with the module. *)
Lemma dcs_thread_balanced en ok rc t : dcs_init en ok NoThread = (rc, t) → rc = 0 →
  ∃ t', dcs_exit en t = Some (0, t') ∧ t' ≠ Running.
Proof.
  unfold dcs_init, dcs_exit. destruct (decide (en ≠ 0)).
  - destruct ok; intros [= <- <-] Hr; [by exists Stopped|discriminate Hr].
  - intros [= <- <-] _. by exists NoThread.
Qed.

Section Outlives.
Context `{BaseCalls}.

(** The check of a modem without fast converters clears the option the exit looks at:
    on a host whose characters are signed, the thread that the module started runs on
    after the module is gone. *)
Theorem tmon_outlives_module (o : opts) (w w' : base) (skip : bool) (rc : Z) (t : tmon_thread) :
  char_unsigned o = false → hsdcs_enable w = 1 → get_fuse_val (fuse_reg o) ≠ FUSE_INVALID →
  gul_hsdcs_check (get_fuse_val (fuse_reg o)) = -1 →
  dcs_init (hsdcs_enable w) true NoThread = (rc, t) →
  dcs_check o w = Some (skip, w') →
  dcs_exit (hsdcs_enable w') t = Some (0, Running).
Proof.
  intros Hc Hen Hf Hhs Hi Hd. unfold dcs_init in Hi. rewrite Hen in Hi. cbn in Hi. injection Hi as <- <-.
  unfold dcs_check in Hd. rewrite decide_False in Hd by done. rewrite M_bind_eq in Hd. cbn [gets] in Hd.
  rewrite decide_True in Hd by done. rewrite Hhs in Hd. unfold char_of in Hd. rewrite Hc in Hd.
  rewrite (decide_True (P := -1 = -1)) in Hd by done. rewrite !M_bind_eq in Hd. cbn [modify] in Hd. injection Hd as _ <-. reflexivity.
Qed.
End Outlives.

(** ** The numbers of the RF devices *)
Record rfic_module := RficModule { rfdevnr : option Z; gul_rfic_minor : Z; gul_nr_dev : Z }.
Definition gul_rfic_init (start n : Z) (alloc_chrdev_region : Z) : Z * rfic_module :=
  (alloc_chrdev_region,
   RficModule (if decide (alloc_chrdev_region < 0) then None else Some n) start n).
Definition gul_rfic_exit (w : rfic_module) : Z * rfic_module := (0, RficModule None (gul_rfic_minor w) (gul_nr_dev w)).

(** ** The monitor of a modem *)

(** The structure the device points to, and those that were allocated and not freed. *)
Record hawk_dev (H : Type) := HawkDev { hawkdev_ptr : option (GulHawk.hawkdev H); allocated : nat }.
Arguments HawkDev {H} _ _.
Arguments hawkdev_ptr {H} _.
Arguments allocated {H} _.

Section HawkProbe.
Context {H : Type}.
Definition gul_hawk_probe (mem : bool) (h : H) (c : hawk_sw_cmd_desc) (w : hawk_dev H) : Z * hawk_dev H :=
  if negb mem then (- ENOMEM, w) else (0, HawkDev (Some (gul_hawk_init_mdata h c)) (S (allocated w))).
Definition gul_hawk_remove (w : hawk_dev H) : Z * hawk_dev H :=
  match hawkdev_ptr w with
  | Some _ => (0, HawkDev None (pred (allocated w)))
  | None => (0, w)
  end.

(** A probe and a removal leave what was allocated before, and a second removal does
    nothing. *)
Lemma hawk_balanced mem h c (w : hawk_dev H) : hawkdev_ptr w = None →
  let w' := (gul_hawk_remove (gul_hawk_probe mem h c w).2).2 in
  allocated w' = allocated w ∧ hawkdev_ptr w' = None ∧ gul_hawk_remove w' = (0, w').
Proof.
  intros Hn. unfold gul_hawk_probe. destruct mem; cbn; [done|]. unfold gul_hawk_remove. rewrite Hn. cbn. by rewrite Hn.
Qed.
End HawkProbe.

(** ** Sub-drivers that are not linked *)

(** The weak functions that stand for a sub-driver until it is linked. *)
Definition dummy_ret (rest : list event → event → Z) (l : list event) (e : event) : Z :=
  match e with Probe _ | Remove _ | ModInit _ | ModExit _ => 0 | _ => rest l e end.

Section Dummies.
Context `{BaseCalls}.
(** With nothing linked the module loads, with an event for each sub-driver that is not
    disabled. *)
Lemma dummies_load (rest : list event → event → Z) (o : opts) (b : build) (w : base) :
  ret = dummy_ret rest → ∃ w', gul_subdrv_mod_init o b w = Some (0, w') ∧
    log w' = log w ++ ((λ d, ModInit (name d)) <$> filter (λ d, gul_subdrv_check_fail o d = false ∧ mod_init d = true) (sub_drvs_g b)).
Proof.
  intros Hret. unfold gul_subdrv_mod_init. generalize (sub_drvs_g b) as ds. intros ds. revert w.
  induction ds as [|d ds IH]; intros w; cbn [mod_init_loop].
  { exists w. by rewrite app_nil_r. }
  destruct (gul_subdrv_check_fail o d) eqn:Hf.
  { destruct (IH w) as (w' & Hw & Hl). exists w'. split; [exact Hw|]. rewrite Hl, filter_cons_False by (intros [Hx _]; congruence). done. }
  destruct (mod_init d) eqn:Hm.
  - rewrite M_bind_eq. unfold call. rewrite Hret. cbn [dummy_ret]. rewrite decide_False by lia.
    destruct (IH (add_event (ModInit (name d)) (lines (ModInit (name d)) (irq w)) w)) as (w' & Hw & Hl). exists w'. split; [exact Hw|].
    rewrite Hl, filter_cons_True by done. cbn. by rewrite <- app_assoc.
  - destruct (IH w) as (w' & Hw & Hl). exists w'. split; [exact Hw|]. rewrite Hl, filter_cons_False by (intros [_ Hx]; congruence). done.
Qed.
End Dummies.

#[local] Instance quiet_calls : BaseCalls := {| ret := λ _ _, 0; lines := λ _ t, t; tti_msi_index := 0; share_phys := 0 |}.
Definition outlives_opts : opts :=
  Opts false 0 0 0 false false false false false 0 0 "U"%char false true 0x2000 false.
Definition outlives_base : base := Base [] [] 1 false 0 0 0.
Lemma tmon_outlives_module_witness : dcs_exit 0 Running = Some (0, Running).
Proof.
  refine (tmon_outlives_module outlives_opts outlives_base (Base [] [] 0 false 0 0 0) false 0 Running _ _ _ _ _ _);
    try reflexivity. discriminate.
Defined.
