(* ===== verification/GulSysfs.v ===== *)
(** * The files in sysfs

    kernel_driver/yami/gul_sysfs.c: what reading a file of a modem shows, what writing
    it does, and the groups of files.  A write that is accepted is a call of a
    sub-driver: the calls are the interface [SubCalls], which GulSubCalls instantiates
    with the models of the sub-drivers. *)
From S2P Require Import Prelude GulMsi GulLog GulText.
#[global] Open Scope Z_scope.

(** ** What the kernel's parsers make of a text

    [kstrtoul] and [kstrtou32] with base 0: the number, if the text is one;
    [sscanf] with so many [%u] or [%x] between colons: the numbers it stored. *)
Class SysText (T : Type) := {
  kstrtoul : T → option Z; kstrtou32 : T → option Z;
  sscanf_u : nat → T → list Z; sscanf_x : nat → T → list Z;
  strnlen : T → Z }.
Class SysTextLaws (T : Type) `{SysText T} := {
  kstrtou32_word t v : kstrtou32 t = Some v → 0 ≤ v < 4294967296;
  sscanf_word n t : Forall (λ v, 0 ≤ v < 4294967296) (sscanf_u n t ++ sscanf_x n t) }.

(** ** The calls *)
Inductive sub_call :=
  | RfDumpHif | RfSwitchTx | RfSwitchRx | RfReadRegs (addr len : Z) | RfWriteRegs (addr data : Z)
  | RfReadChipRegs (chip addr len : Z) | RfWriteChipRegs (chip addr data : Z)
  | RfSetVcxoDac (index : Z) | RfSetTxGain (lut_index : Z) | RfSetRxGain (beam_mask lut_index : Z)
  | RfControlStressTest (start : Z) | RfEnableDisableBgTask (start : Z)
  | RfSetFreqTx (freq ppm ref init : Z) | RfSetRxAgcGainIndex (beam_mask lut_index : Z) | RfSetAutoTunePll (iter : Z)
  | RfSetBeambookIndexTx (index : Z) | RfSetBeambookIndexRx (index : Z)
  | RfSetTargetBroadcastTxFe | RfSetTargetBroadcastRxFe | RfSetPbkModeTx (mode : Z) | RfSetPbkModeRx (mode : Z)
  | RfIncrementPbkIndex | RfConfigDynamicController (op enable : Z)
  | RfWriteListToPbkMemoryTx (len : Z) | RfWriteListToPbkMemoryRx (len : Z) | RfSetBeamConfig (beam : Z)
  | HawkEventSet (output event : Z) | HawkEventReset | HawkCoreMaskSet (mask : Z)
  | HawkMarkSet (enable : bool) | HawkRecordSet (enable : bool)
  | VspaResetMaskSet (mask : Z) | VspaResetSet
  | DcsFullRecal | DcsFastRecal (chan : Z) | DcsTmonTri | DcsTmonTriFull | DcsEnDisIncCal (v : Z) | DcsEnDisFullCal (v : Z).
(** The texts of the sub-drivers. *)
Inductive sub_show :=
  | HawkListEvents | HawkEvents | HawkCoreMask | HawkMark | HawkReport | VspaResetMask | DcsStats | DeviceDump.

(** [dcs_there]: the converters have their structure; [time_before]: whether the time
    of a test is over; [stack]: what a local variable holds that nothing was stored in. *)
Class SubCalls (S : Type) := {
  call : sub_call → M S unit;
  show_sub : sub_show → M S (Z * list Z);
  dcs_there : S → bool;
  time_before : S → bool * S;
  stack : S → Z }.

(** ** The state *)
Record sysfs (S : Type) := Sysfs {
  logs : list ep_log; log_level : list Z; core_status_flag : Z; stats_control : Z; g_warmup_status : Z;
  wdog_handler_notifier : bool; subs : S }.
Arguments Sysfs {S} _ _ _ _ _ _ _.
Arguments logs {S} _. Arguments log_level {S} _. Arguments core_status_flag {S} _.
Arguments stats_control {S} _. Arguments g_warmup_status {S} _. Arguments wdog_handler_notifier {S} _.
Arguments subs {S} _.

(** The modem the files belong to; the constants of the interface. *)
Record sysfs_dev := SysfsDev {
  gul_id : Z; pci_dev_name_ : string; soc_version : Z; soc_rev_b : bool; numcores : nat; stats_addr : Z }.
Class SysfsIf := { GUL_LOG_LEVEL_ERR : Z; GUL_LOG_LEVEL_ALL : Z; GEUL_SVR_REVB_VAL : Z }.
Definition GUL_VSPA_CORE_MAX : Z := 8.

Section Sysfs.
Context {T : Type} `{SysText T} {S : Type} `{SubCalls S, SysfsIf} (d : sysfs_dev).
Local Abbreviation V := (M (sysfs S)).

Definition with_logs (v : list ep_log) (w : sysfs S) : sysfs S :=
  Sysfs v (log_level w) (core_status_flag w) (stats_control w) (g_warmup_status w) (wdog_handler_notifier w) (subs w).
Definition with_level (v : list Z) (w : sysfs S) : sysfs S :=
  Sysfs (logs w) v (core_status_flag w) (stats_control w) (g_warmup_status w) (wdog_handler_notifier w) (subs w).
Definition with_control (v : Z) (w : sysfs S) : sysfs S :=
  Sysfs (logs w) (log_level w) (core_status_flag w) v (g_warmup_status w) (wdog_handler_notifier w) (subs w).
Definition with_warmup (v : Z) (w : sysfs S) : sysfs S :=
  Sysfs (logs w) (log_level w) (core_status_flag w) (stats_control w) v (wdog_handler_notifier w) (subs w).
Definition with_subs (v : S) (w : sysfs S) : sysfs S :=
  Sysfs (logs w) (log_level w) (core_status_flag w) (stats_control w) (g_warmup_status w) (wdog_handler_notifier w) v.
Definition on_subs {A} (m : M S A) : V A := λ w,
  match m (subs w) with Some (a, s) => Some (a, with_subs s w) | None => None end.
Definition sub (c : sub_call) : V unit := on_subs (call c).

(** ** Reading *)
Definition gul_show_e200_usage : V (Z * list Z) := mret (sprintf ("0x" +:+ line (hex (stats_addr d)))).
Definition gul_show_id : V (Z * list Z) := mret (sprintf (line (dec (gul_id d)))).
Definition show_pci_dev_name : V (Z * list Z) := mret (sprintf (line (pci_dev_name_ d))).
Definition gul_show_la12xx_version : V (Z * list Z) :=
  mret (sprintf (line (if decide (Z.land (soc_version d) GEUL_SVR_REVB_VAL = GEUL_SVR_REVB_VAL) then "B0" else "A0"))).
Definition gul_show_stats_control_mask : V (Z * list Z) := v ← gets stats_control; mret (sprintf (line (hex v))).
Definition gul_modem_warmup_status : V (Z * list Z) := v ← gets g_warmup_status; mret (sprintf (line (dec v))).
Definition gul_show_ep_log (core_id : nat) : V (Z * list Z) :=
  ls ← gets logs;
  l ← lift (ls !! core_id);
  let '((page, n), l) := show_ep_log l in
  _ ← modify (with_logs (<[core_id := l]> ls)); mret (Z.of_nat n, page).
Definition gul_show_ep_log_core_0 : V (Z * list Z) := gul_show_ep_log 0.
Definition gul_show_ep_log_core_1 : V (Z * list Z) := gul_show_ep_log 1.
Definition gul_show_ep_log_core_2 : V (Z * list Z) := gul_show_ep_log 2.
Definition gul_show_ep_log_core_3 : V (Z * list Z) := gul_show_ep_log 3.
Definition gul_show_ep_log_core_4 : V (Z * list Z) := gul_show_ep_log 4.
Definition gul_show_ep_log_core_5 : V (Z * list Z) := gul_show_ep_log 5.

Definition level_line (core : nat) (v : Z) : string :=
  line ("LA12xx[Core " +:+ dec (Z.of_nat core) +:+ "] log level - " +:+ dec v).
Definition gul_show_ep_log_level : V (Z * list Z) :=
  levels ← gets log_level;
  vs ← lift (mapM (λ core, levels !! core) (seq 0 (numcores d)));
  mret (sprintf (concat_text (imap level_line vs))).

(** *** The state of the cores, two bits each *)
Definition cal_core_mask (cores : nat) : Z := foldl (λ m i, Z.lor m (Z.shiftl 1 (2 * Z.of_nat i))) 0 (seq 0 cores).
Definition core_state (v : Z) (loop : nat) : string :=
  if Z.testbit v (2 * Z.of_nat loop) then
    if Z.testbit v (2 * Z.of_nat loop + 1) then "NOT RUNNING" else "RUNNING"
  else "HOLD-OFF".
Definition modem_alive (v : Z) : bool := bool_decide (v = cal_core_mask (numcores d)).
Definition gul_modem_status : V string :=
  v ← gets core_status_flag;
  wdog ← gets wdog_handler_notifier;
  let tab := String (Ascii.ascii_of_nat 9) "" in
  mret (nl +:+ line ("MODEM_ID: " +:+ dec (gul_id d) +:+ " NUM CORE:" +:+ dec (Z.of_nat (numcores d)) +:+
                     " STATUS:" +:+ (if modem_alive v then "ALIVE" else "NOT ALIVE")) +:+
        line ("CORE_ID" +:+ tab +:+ ": STATUS") +:+
        concat_text ((λ loop, line (dec (Z.of_nat loop) +:+ tab +:+ ": " +:+ core_state v loop)) <$> seq 0 (numcores d)) +:+
        line ("MODEM_ID: " +:+ dec (gul_id d) +:+ " WDOG_HANDLER " +:+ (if (wdog : bool) then "REGISTERED" else "NOT REGISTERED")) +:+
        nl).

(** ** Writing: the result is the length of the text, whatever came of it *)
Definition wrote (t : T) (m : V unit) : V Z := _ ← m; mret (strnlen t).

(** A number for the sub-driver; one that must be 1, or 3; one that must be 0 or 1. *)
Definition on_u32 (t : T) (k : Z → V unit) : V Z :=
  wrote t (match kstrtou32 t with Some v => k v | None => mret tt end).
Definition on_value (good : Z) (t : T) (c : V unit) : V Z :=
  on_u32 t (λ v, if decide (v = good) then c else mret tt).
Definition on_switch (t : T) (k : Z → V unit) : V Z :=
  on_u32 t (λ v, if decide (v = 0 ∨ v = 1) then k v else mret tt).
(** Two numbers, both there. *)
Definition on_pair (t : T) (k : Z → Z → V unit) : V Z :=
  wrote t (match sscanf_u 2 t with [a; b] => k a b | _ => mret tt end).

Definition gul_set_stats_control_mask (t : T) : V Z :=
  wrote t (match kstrtoul t with Some v => modify (with_control (u32 v)) | None => mret tt end).
Definition gul_set_warmup_status (status : Z) : V unit := modify (with_warmup status).
Definition gul_reset_ep_log (core_id : nat) (t : T) : V Z :=
  wrote t (modify (λ w, with_logs (reset_ep_log (logs w) core_id (kstrtoul t)) w)).
Definition gul_reset_ep_log_core_0 (t : T) : V Z := gul_reset_ep_log 0 t.
Definition gul_reset_ep_log_core_1 (t : T) : V Z := gul_reset_ep_log 1 t.
Definition gul_reset_ep_log_core_2 (t : T) : V Z := gul_reset_ep_log 2 t.
Definition gul_reset_ep_log_core_3 (t : T) : V Z := gul_reset_ep_log 3 t.
Definition gul_reset_ep_log_core_4 (t : T) : V Z := gul_reset_ep_log 4 t.
Definition gul_reset_ep_log_core_5 (t : T) : V Z := gul_reset_ep_log 5 t.
Fixpoint set_levels (n i : nat) (v : Z) : V unit :=
  match n with
  | O => mret tt
  | Datatypes.S n =>
      levels ← gets log_level;
      if decide (i < length levels)%nat then
        _ ← modify (with_level (<[i := u32 v]> levels)); set_levels n (1 + i) v
      else lift None
  end.
Definition gul_set_ep_log_level (t : T) : V Z :=
  wrote t (match kstrtoul t with
           | Some v => if decide (v < GUL_LOG_LEVEL_ERR ∨ GUL_LOG_LEVEL_ALL < v) then mret tt
                       else set_levels (numcores d) 0 v
           | None => mret tt
           end).

(** *** The RF card *)
Definition rf_dump_hif (t : T) : V Z := on_value 1 t (sub RfDumpHif).

(** One turn of the test. *)
Definition duty_step (tx_count rx_count : Z) (_ : unit) : V (unit + unit) :=
  more ← on_subs (λ s, Some (time_before s));
  if (more : bool) then
    _ ← (if decide (tx_count ≠ 0) then sub RfSwitchTx else mret tt);
    _ ← (if decide (rx_count ≠ 0) then sub RfSwitchRx else mret tt);
    mret (inl tt)
  else mret (inr tt).
(** The test lasts as long as the clock says: [None] past [bound] turns. *)
Definition rf_rxtx_duty_test (bound : positive) (t : T) : V Z :=
  wrote t (match sscanf_u 4 t with
           | [tx_count; rx_count; slot; duration] =>
               r ← until (duty_step tx_count rx_count) bound tt;
               match r with inr _ => mret tt | inl _ => lift None end
           | _ => mret tt
           end).

(** The numbers of a text whose conversion is not looked at: where one is missing the
    variable keeps what it held. *)
Definition scanned (n : nat) (t : T) : V (nat → Z) :=
  s ← gets subs; mret (λ i, nth i (sscanf_x n t) (u32 (stack s))).
Definition rf_fpga_read_regs (t : T) : V Z :=
  v ← scanned 2 t; wrote t (sub (RfReadRegs (u16 (v 0%nat)) (v 1%nat))).
Definition rf_fpga_write_regs (t : T) : V Z :=
  v ← scanned 2 t; wrote t (sub (RfWriteRegs (Z.land (v 0%nat) 0xffff) (Z.land (v 1%nat) 0xff))).
Definition rf_chip_write_regs (t : T) : V Z :=
  v ← scanned 3 t; wrote t (sub (RfWriteChipRegs (v 0%nat) (v 1%nat) (v 2%nat))).
Definition rf_chip_read_regs (t : T) : V Z :=
  v ← scanned 3 t; wrote t (sub (RfReadChipRegs (v 0%nat) (u16 (v 1%nat)) (v 2%nat))).

Definition rf_set_vcxo_dac (t : T) : V Z := on_u32 t (λ v, sub (RfSetVcxoDac (u16 v))).
Definition rf_set_tx_gain (t : T) : V Z := on_u32 t (λ v, sub (RfSetTxGain (u8 v))).
Definition rf_set_rx_gain (t : T) : V Z := on_pair t (λ a b, sub (RfSetRxGain (u8 a) (u8 b))).
Definition rf_switch_tx (t : T) : V Z := on_value 1 t (sub RfSwitchTx).
Definition rf_switch_rx (t : T) : V Z := on_value 1 t (sub RfSwitchRx).
Definition rf_stress_test_control (t : T) : V Z := on_switch t (λ v, sub (RfControlStressTest v)).
Definition rf_enable_disable_bg_task (t : T) : V Z := on_switch t (λ v, sub (RfEnableDisableBgTask v)).
Definition rf_set_freq_tx (t : T) : V Z :=
  wrote t (match sscanf_u 4 t with [f; ppm; ref; init] => sub (RfSetFreqTx f ppm ref init) | _ => mret tt end).
Definition rf_set_rx_agc_gain (t : T) : V Z := on_pair t (λ a b, sub (RfSetRxAgcGainIndex (u8 a) (u8 b))).
Definition rf_set_pll_auto_tune (t : T) : V Z := on_u32 t (λ v, sub (RfSetAutoTunePll (u8 v))).
Definition rf_set_bbk_index_tx (t : T) : V Z := on_u32 t (λ v, sub (RfSetBeambookIndexTx (u8 v))).
Definition rf_set_bbk_index_rx (t : T) : V Z := on_u32 t (λ v, sub (RfSetBeambookIndexRx (u8 v))).
Definition rf_set_trgt_brdcast_tx_fe (t : T) : V Z := on_value 1 t (sub RfSetTargetBroadcastTxFe).
Definition rf_set_trgt_brdcast_rx_fe (t : T) : V Z := on_value 1 t (sub RfSetTargetBroadcastRxFe).
Definition rf_set_pbk_mode_tx (t : T) : V Z := on_value 1 t (sub (RfSetPbkModeTx 1)).
Definition rf_set_pbk_mode_rx (t : T) : V Z := on_value 1 t (sub (RfSetPbkModeRx 1)).
Definition rf_set_sync_reset_pbk_mode_tx (t : T) : V Z := on_value 3 t (sub (RfSetPbkModeTx 3)).
Definition rf_set_sync_reset_pbk_mode_rx (t : T) : V Z := on_value 3 t (sub (RfSetPbkModeRx 3)).
Definition rf_set_inc_pbk_index (t : T) : V Z := on_value 1 t (sub RfIncrementPbkIndex).
Definition rf_set_cfg_dynamic_ctrl (t : T) : V Z := on_pair t (λ op en, sub (RfConfigDynamicController op (u8 en))).
Definition rf_set_write_list_to_pbk_memory_tx (t : T) : V Z := on_u32 t (λ v, sub (RfWriteListToPbkMemoryTx (u8 v))).
Definition rf_set_write_list_to_pbk_memory_rx (t : T) : V Z := on_u32 t (λ v, sub (RfWriteListToPbkMemoryRx (u8 v))).
Definition rf_set_cfg_beam (t : T) : V Z := on_u32 t (λ v, sub (RfSetBeamConfig (u8 v))).

(** *** The monitor, the vector processors, the converters *)
Definition hawk_event_set (t : T) : V Z := on_pair t (λ out ev, sub (HawkEventSet out ev)).
Definition hawk_event_reset (t : T) : V Z := on_value 1 t (sub HawkEventReset).
Definition hawk_core_mask_set (t : T) : V Z :=
  wrote t (match sscanf_x 1 t with [m] => sub (HawkCoreMaskSet m) | _ => mret tt end).
Definition hawk_mark_set (t : T) : V Z := on_switch t (λ v, sub (HawkMarkSet (bool_decide (v ≠ 0)))).
Definition hawk_record_set (t : T) : V Z := on_switch t (λ v, sub (HawkRecordSet (bool_decide (v ≠ 0)))).

Definition vspa_reset_mask_set (t : T) : V Z :=
  on_u32 t (λ v, if decide (v ≤ Z.shiftl 1 GUL_VSPA_CORE_MAX - 1) then sub (VspaResetMaskSet v) else mret tt).
Definition vspa_reset_set (t : T) : V Z := on_value 1 t (sub VspaResetSet).

(** The converters of the second revision, once they are up. *)
Definition if_dcs (m : V unit) : V unit :=
  s ← gets subs; if dcs_there s && soc_rev_b d then m else mret tt.
Definition hsdcs_sinfo : V (Z * list Z) :=
  s ← gets subs; if dcs_there s && soc_rev_b d then on_subs (show_sub DcsStats) else mret (0, []).
Definition hsadc_fullcal (t : T) : V Z := on_value 1 t (if_dcs (sub DcsFullRecal)).
Definition hsadc_recal (t : T) : V Z :=
  on_u32 t (λ v, if decide (1 ≤ v ∧ v ≤ 15) then if_dcs (sub (DcsFastRecal v)) else mret tt).
Definition hsadc_tmon_tri (t : T) : V Z := on_value 1 t (if_dcs (sub DcsTmonTri)).
Definition hsadc_tmon_tri_full (t : T) : V Z := on_value 1 t (if_dcs (sub DcsTmonTriFull)).
(** The value is used whether or not the text was a number. *)
Definition unchecked (t : T) : V Z := s ← gets subs; mret (default (u32 (stack s)) (kstrtou32 t)).
Definition hsadc_set_inc_cal (t : T) : V Z :=
  wrote t (if_dcs (v ← unchecked t; if decide (v = 1 ∨ v = 0) then sub (DcsEnDisIncCal v) else mret tt)).
Definition hsadc_set_full_cal (t : T) : V Z :=
  wrote t (if_dcs (v ← unchecked t; if decide (v = 1 ∨ v = 0) then sub (DcsEnDisFullCal v) else mret tt)).

(** ** The files *)
Inductive dev_attr :=
  | warmup_status | target_log_core_0 | target_log_core_1 | target_log_core_2 | target_log_core_3 | target_log_core_4 | target_log_core_5 | target_log_level | target_stats_control | e200_cpu_usage
  | gul_id_attr | pci_dev_name | la12xx_version | vspa_reset_mask | vspa_reset
  | hsdcs_recal | hsdcs_tmon_tri | hsdcs_tmon_tri_full | hsdcs_fullcal | hsdcs_stats
  | hsdcs_enable_inc_cal | hsdcs_enable_full_cal | yami_status
  | rf_dump_hif_attr | rf_rxtx_duty_test_attr | rf_fpga_read_regs_attr | rf_fpga_write_regs_attr
  | rf_chip_read_regs_attr | rf_chip_write_regs_attr | rf_vcxo | rf_tx_gain | rf_rx_gain | rf_tx_switch | rf_rx_switch
  | rf_stress_test_control_attr | rf_set_freq | rf_rx_agc_gain | rf_pll_auto_tune | rf_bbk_index_tx | rf_bbk_index_rx
  | rf_trgt_brdcast_tx_fe | rf_trgt_brdcast_rx_fe | rf_pbk_mode_tx | rf_pbk_mode_rx | rf_sync_reset_pbk_mode_tx
  | rf_sync_reset_pbk_mode_rx | rf_inc_pbk_index | rf_cfg_dynamic_ctrl | rf_write_list_to_pbk_memory_tx
  | rf_write_list_to_pbk_memory_rx | rf_cfg_beam | rf_enable_disable_bg_task_attr
  | hawk_list_events | hawk_event | hawk_reset_event | hawk_core_mask | hawk_mark | hawk_record | hawk_report.

(** The store function of a file, if it has one; [bound] for the test that lasts as
    long as the clock says. *)
Definition dev_store (bound : positive) (a : dev_attr) : option (T → V Z) :=
  match a with
  | target_log_core_0 => Some gul_reset_ep_log_core_0
  | target_log_core_1 => Some gul_reset_ep_log_core_1
  | target_log_core_2 => Some gul_reset_ep_log_core_2
  | target_log_core_3 => Some gul_reset_ep_log_core_3
  | target_log_core_4 => Some gul_reset_ep_log_core_4
  | target_log_core_5 => Some gul_reset_ep_log_core_5
  | target_log_level => Some gul_set_ep_log_level
  | target_stats_control => Some gul_set_stats_control_mask
  | vspa_reset_mask => Some vspa_reset_mask_set
  | vspa_reset => Some vspa_reset_set
  | hsdcs_recal => Some hsadc_recal
  | hsdcs_tmon_tri => Some hsadc_tmon_tri
  | hsdcs_tmon_tri_full => Some hsadc_tmon_tri_full
  | hsdcs_fullcal => Some hsadc_fullcal
  | hsdcs_enable_inc_cal => Some hsadc_set_inc_cal
  | hsdcs_enable_full_cal => Some hsadc_set_full_cal
  | rf_dump_hif_attr => Some rf_dump_hif
  | rf_rxtx_duty_test_attr => Some (rf_rxtx_duty_test bound)
  | rf_fpga_read_regs_attr => Some rf_fpga_read_regs
  | rf_fpga_write_regs_attr => Some rf_fpga_write_regs
  | rf_chip_read_regs_attr => Some rf_chip_read_regs
  | rf_chip_write_regs_attr => Some rf_chip_write_regs
  | rf_vcxo => Some rf_set_vcxo_dac
  | rf_tx_gain => Some rf_set_tx_gain
  | rf_rx_gain => Some rf_set_rx_gain
  | rf_tx_switch => Some rf_switch_tx
  | rf_rx_switch => Some rf_switch_rx
  | rf_stress_test_control_attr => Some rf_stress_test_control
  | rf_set_freq => Some rf_set_freq_tx
  | rf_rx_agc_gain => Some rf_set_rx_agc_gain
  | rf_pll_auto_tune => Some rf_set_pll_auto_tune
  | rf_bbk_index_tx => Some rf_set_bbk_index_tx
  | rf_bbk_index_rx => Some rf_set_bbk_index_rx
  | rf_trgt_brdcast_tx_fe => Some rf_set_trgt_brdcast_tx_fe
  | rf_trgt_brdcast_rx_fe => Some rf_set_trgt_brdcast_rx_fe
  | rf_pbk_mode_tx => Some rf_set_pbk_mode_tx
  | rf_pbk_mode_rx => Some rf_set_pbk_mode_rx
  | rf_sync_reset_pbk_mode_tx => Some rf_set_sync_reset_pbk_mode_tx
  | rf_sync_reset_pbk_mode_rx => Some rf_set_sync_reset_pbk_mode_rx
  | rf_inc_pbk_index => Some rf_set_inc_pbk_index
  | rf_cfg_dynamic_ctrl => Some rf_set_cfg_dynamic_ctrl
  | rf_write_list_to_pbk_memory_tx => Some rf_set_write_list_to_pbk_memory_tx
  | rf_write_list_to_pbk_memory_rx => Some rf_set_write_list_to_pbk_memory_rx
  | rf_cfg_beam => Some rf_set_cfg_beam
  | rf_enable_disable_bg_task_attr => Some rf_enable_disable_bg_task
  | hawk_event => Some hawk_event_set
  | hawk_reset_event => Some hawk_event_reset
  | hawk_core_mask => Some hawk_core_mask_set
  | hawk_mark => Some hawk_mark_set
  | hawk_record => Some hawk_record_set
  | warmup_status | e200_cpu_usage | gul_id_attr | pci_dev_name | la12xx_version | hsdcs_stats | yami_status
  | hawk_list_events | hawk_report => None
  end.

(** The texts that tell what to write. *)
Definition hint (s : string) : V (Z * list Z) := mret (sprintf (line s)).
Definition rf_dump_hif_show : V (Z * list Z) := hint "Write 1 to dump the RF HIF".
Definition rf_rxtx_duty_test_show : V (Z * list Z) := hint "<tx_cnt>:<rx_cnt>:<slot time us>:<total time in s>".
Definition rf_fpga_read_regs_show : V (Z * list Z) := hint "<0xaddr>:<0xcount>/len".
Definition rf_vcxo_show : V (Z * list Z) := hint "<Index between 0 to 255>".
Definition rf_tx_gain_show : V (Z * list Z) := hint "<lut_index>".
Definition rf_rx_gain_show : V (Z * list Z) := hint "<beam_mask>:<lut_index>".
Definition rf_tx_switch_show : V (Z * list Z) := hint "Write 1".
Definition rf_rx_switch_show : V (Z * list Z) := hint "Write 1".
Definition rf_stress_test_control_show : V (Z * list Z) := hint "Write 1 to start test, Write 0 to end test".
Definition rf_enable_disable_bg_task_show : V (Z * list Z) := hint "Write 1 to enable task, Write 0 to disable task".
Definition rf_set_freq_show : V (Z * list Z) := hint "<freq(khz)>:<ppm>:<ref_freq(khz)>:<init>".
Definition rf_rx_agc_gain_show : V (Z * list Z) := hint "<beam_mask>:<lut_index>".
Definition rf_pll_auto_tune_show : V (Z * list Z) := hint "<iter_count>".
Definition rf_bbk_index_tx_show : V (Z * list Z) := hint "<bbk_index_tx>".
Definition rf_bbk_index_rx_show : V (Z * list Z) := hint "<bbk_index_rx>".
Definition rf_trgt_brdcast_tx_fe_show : V (Z * list Z) := hint "Write 1".
Definition rf_trgt_brdcast_rx_fe_show : V (Z * list Z) := hint "Write 1".
Definition rf_pbk_mode_tx_show : V (Z * list Z) := hint "Write 1".
Definition rf_pbk_mode_rx_show : V (Z * list Z) := hint "Write 1".
Definition rf_sync_reset_pbk_mode_tx_show : V (Z * list Z) := hint "Write 3".
Definition rf_sync_reset_pbk_mode_rx_show : V (Z * list Z) := hint "Write 3".
Definition rf_inc_pbk_index_show : V (Z * list Z) := hint "Write 1".
Definition rf_write_list_to_pbk_memory_tx_show : V (Z * list Z) := hint "<pbk_length>".
Definition rf_write_list_to_pbk_memory_rx_show : V (Z * list Z) := hint "<pbk_length>".
Definition rf_cfg_beam_show : V (Z * list Z) := hint "Beam1:1, Beam2:2, Both Beams:3".
Definition rf_chip_write_regs_show : V (Z * list Z) :=
  mret (sprintf (concat_text (line <$>
    ["<0xchip_id>:<0xaddr>:<0xval>/len"; "chip_id:"; "0: MV2801 chain 0"; "1: MV2801 chain 1"; "2: MV2801 chain 2";
     "3: MV2801 chain 3"; "4: MV2801 broadcast"; "5: MV2802 chain 0"; "6: MV2802 chain 1"; "7: MV2802 broadcast";
     "8: MV2803 TX"; "9: MV2803 RX"; "a: MV2803 broadcast"]))).
Definition rf_cfg_dynamic_ctrl_show : V (Z * list Z) :=
  mret (sprintf (concat_text (line <$>
    ["<dynamic_operation>:<enable/disbale(1/0)>"; "dynamic_operations:"; "0: FPGA_PLL_AUTO_TUNE"; "1: FPGA_RX_SPI_SLOT";
     "2: FPGA_TX_SPI_SLOT"; "3: FPGA_RX_GAIN_UPDATE"; "4: FPGA_TX_GAIN_UPDATE"; "5: FPGA_LOGEN_CAL"; "6: FPGA_ALL_OPS"]))).

Definition hawk_list_events_show : V (Z * list Z) := on_subs (show_sub HawkListEvents).
Definition hawk_event_show : V (Z * list Z) := on_subs (show_sub HawkEvents).
Definition hawk_core_mask_show : V (Z * list Z) := on_subs (show_sub HawkCoreMask).
Definition hawk_mark_show : V (Z * list Z) := on_subs (show_sub HawkMark).
Definition hawk_report_show : V (Z * list Z) := on_subs (show_sub HawkReport).
Definition vspa_reset_mask_show : V (Z * list Z) := on_subs (show_sub VspaResetMask).
Definition yami_dev_status_show : V (Z * list Z) := on_subs (show_sub DeviceDump).

Definition dev_show (a : dev_attr) : option (V (Z * list Z)) :=
  match a with
  | warmup_status => Some gul_modem_warmup_status
  | target_log_core_0 => Some gul_show_ep_log_core_0
  | target_log_core_1 => Some gul_show_ep_log_core_1
  | target_log_core_2 => Some gul_show_ep_log_core_2
  | target_log_core_3 => Some gul_show_ep_log_core_3
  | target_log_core_4 => Some gul_show_ep_log_core_4
  | target_log_core_5 => Some gul_show_ep_log_core_5
  | target_log_level => Some gul_show_ep_log_level
  | target_stats_control => Some gul_show_stats_control_mask
  | e200_cpu_usage => Some gul_show_e200_usage
  | gul_id_attr => Some gul_show_id
  | pci_dev_name => Some show_pci_dev_name
  | la12xx_version => Some gul_show_la12xx_version
  | vspa_reset_mask => Some vspa_reset_mask_show
  | hsdcs_stats => Some hsdcs_sinfo
  | yami_status => Some yami_dev_status_show
  | rf_dump_hif_attr => Some rf_dump_hif_show
  | rf_rxtx_duty_test_attr => Some rf_rxtx_duty_test_show
  | rf_fpga_read_regs_attr => Some rf_fpga_read_regs_show
  | rf_fpga_write_regs_attr => Some rf_fpga_read_regs_show
  | rf_chip_read_regs_attr => Some rf_chip_write_regs_show
  | rf_chip_write_regs_attr => Some rf_chip_write_regs_show
  | rf_vcxo => Some rf_vcxo_show
  | rf_tx_gain => Some rf_tx_gain_show
  | rf_rx_gain => Some rf_rx_gain_show
  | rf_tx_switch => Some rf_tx_switch_show
  | rf_rx_switch => Some rf_rx_switch_show
  | rf_stress_test_control_attr => Some rf_stress_test_control_show
  | rf_set_freq => Some rf_set_freq_show
  | rf_rx_agc_gain => Some rf_rx_agc_gain_show
  | rf_pll_auto_tune => Some rf_pll_auto_tune_show
  | rf_bbk_index_tx => Some rf_bbk_index_tx_show
  | rf_bbk_index_rx => Some rf_bbk_index_rx_show
  | rf_trgt_brdcast_tx_fe => Some rf_trgt_brdcast_tx_fe_show
  | rf_trgt_brdcast_rx_fe => Some rf_trgt_brdcast_rx_fe_show
  | rf_pbk_mode_tx => Some rf_pbk_mode_tx_show
  | rf_pbk_mode_rx => Some rf_pbk_mode_rx_show
  | rf_sync_reset_pbk_mode_tx => Some rf_sync_reset_pbk_mode_tx_show
  | rf_sync_reset_pbk_mode_rx => Some rf_sync_reset_pbk_mode_rx_show
  | rf_inc_pbk_index => Some rf_inc_pbk_index_show
  | rf_cfg_dynamic_ctrl => Some rf_cfg_dynamic_ctrl_show
  | rf_write_list_to_pbk_memory_tx => Some rf_write_list_to_pbk_memory_tx_show
  | rf_write_list_to_pbk_memory_rx => Some rf_write_list_to_pbk_memory_rx_show
  | rf_cfg_beam => Some rf_cfg_beam_show
  | rf_enable_disable_bg_task_attr => Some rf_enable_disable_bg_task_show
  | hawk_list_events => Some hawk_list_events_show
  | hawk_event => Some hawk_event_show
  | hawk_core_mask => Some hawk_core_mask_show
  | hawk_mark => Some hawk_mark_show
  | hawk_report => Some hawk_report_show
  | vspa_reset | hsdcs_recal | hsdcs_tmon_tri | hsdcs_tmon_tri_full | hsdcs_fullcal | hsdcs_enable_inc_cal
  | hsdcs_enable_full_cal | hawk_reset_event | hawk_record => None
  end.

(** ** The groups *)
Definition gul_sysfs_entries : list dev_attr :=
  [warmup_status; target_log_core_0; target_log_core_1; target_log_core_2; target_log_core_3; target_log_level;
   target_stats_control; e200_cpu_usage; gul_id_attr; pci_dev_name; la12xx_version; vspa_reset_mask; vspa_reset;
   hsdcs_recal; hsdcs_tmon_tri; hsdcs_tmon_tri_full; hsdcs_fullcal; hsdcs_stats; hsdcs_enable_inc_cal;
   hsdcs_enable_full_cal; yami_status].
Definition gul_sysfs_entries_dynamic : list dev_attr := [target_log_core_4; target_log_core_5].
Definition gul_sysfs_entries_rf : list dev_attr :=
  [rf_dump_hif_attr; rf_rxtx_duty_test_attr; rf_fpga_read_regs_attr; rf_fpga_write_regs_attr; rf_chip_read_regs_attr;
   rf_chip_write_regs_attr; rf_vcxo; rf_tx_gain; rf_rx_gain; rf_tx_switch; rf_rx_switch; rf_stress_test_control_attr;
   rf_set_freq; rf_rx_agc_gain; rf_pll_auto_tune; rf_bbk_index_tx; rf_bbk_index_rx; rf_trgt_brdcast_tx_fe;
   rf_trgt_brdcast_rx_fe; rf_pbk_mode_tx; rf_pbk_mode_rx; rf_sync_reset_pbk_mode_tx; rf_sync_reset_pbk_mode_rx;
   rf_inc_pbk_index; rf_cfg_dynamic_ctrl; rf_write_list_to_pbk_memory_tx; rf_write_list_to_pbk_memory_rx; rf_cfg_beam;
   rf_enable_disable_bg_task_attr].
Definition gul_sysfs_entries_hawk : list dev_attr :=
  [hawk_list_events; hawk_event; hawk_reset_event; hawk_core_mask; hawk_mark; hawk_record; hawk_report].

(** Which groups there are, and what the kernel says to each. *)
Record sysfs_groups := Groups { g_main : bool; g_rf : bool; g_dynamic : bool; g_hawk : bool }.
Record sysfs_kernel := SysfsKernel { k_main : Z; k_rf : Z; k_dynamic : Z; k_hawk : Z }.
Definition gul_init_sysfs (k : sysfs_kernel) (rfic_disable : bool) : Z * sysfs_groups :=
  if decide (k_main k ≠ 0) then (k_main k, Groups false false false false) else
  if decide (rfic_disable = false ∧ k_rf k ≠ 0) then (k_rf k, Groups true false false false) else
  let rf := negb rfic_disable in
  if decide (soc_rev_b d = true ∧ k_dynamic k ≠ 0) then (k_dynamic k, Groups true rf false false) else
  if decide (k_hawk k ≠ 0) then (k_hawk k, Groups true rf (soc_rev_b d) false) else
  (0, Groups true rf (soc_rev_b d) true).
Definition gul_remove_sysfs (rfic_disable : bool) (g : sysfs_groups) : sysfs_groups :=
  Groups false (if rfic_disable then g_rf g else false) (if soc_rev_b d then false else g_dynamic g) false.

(** The files a modem has. *)
Definition files_of (g : sysfs_groups) : list dev_attr :=
  (if g_main g then gul_sysfs_entries else []) ++ (if g_rf g then gul_sysfs_entries_rf else []) ++
  (if g_dynamic g then gul_sysfs_entries_dynamic else []) ++ (if g_hawk g then gul_sysfs_entries_hawk else []).

End Sysfs.

(** ** The files of the driver itself *)
Definition yami_version_show (GUL_HOST_SW_VERSION : string) : Z * list Z := sprintf (line GUL_HOST_SW_VERSION).
(** The texts of the modems that are up, one after the other. *)
Fixpoint modem_status_show (modems : list (bool * string)) : string :=
  match modems with
  | [] => ""
  | (active, status) :: modems => (if (active : bool) then status else "") +:+ modem_status_show modems
  end.

(** The directory: none, there with or without its files, or a pointer to one that was
    given back. *)
Inductive yami_kobj := NoKobj | Kobj (files : bool) | GoneKobj.
Definition gul_init_global_sysfs (mem : bool) (group : Z) : Z * yami_kobj :=
  if negb mem then (-1, NoKobj) else if decide (group ≠ 0) then (group, GoneKobj) else (0, Kobj true).
(** [None]: a directory that is not there is used. *)
Definition gul_remove_global_sysfs (k : yami_kobj) : option yami_kobj :=
  match k with Kobj _ => Some GoneKobj | _ => None end.
