(* ===== verification/GulSubCalls.v ===== *)
(** * What the files in sysfs reach

    The instance of [GulSysfs.SubCalls] by the models of the RF driver, the
    performance monitor, the vector processors and the converters, with the texts the
    monitor and the converters print (kernel_driver/yami/gul_hawk.c, gul_dcs.c). *)
From S2P Require Import Prelude GulMsi GulImage GulScratch GulBoot GulLog GulText GulSysfs.
From S2P Require GulRfic.
From S2P Require GulHawk.
From S2P Require GulVspa.
From S2P Require GulDcs.
#[global] Open Scope Z_scope.

(** ** The texts of the monitor *)
Definition hawk_event_table : list (Z * Z * string) :=
  [(0, 0, "Nothing");
   (0, 0, "Processor cycles");
   (0, 1, "Instructions completed");
   (1, 3, "Processor cycles with 0 instructions issued");
   (1, 3, "Processor cycles with 1 instruction issued");
   (1, 3, "Processor cycles with 2 instructions issued");
   (2, 3, "Instruction words fetched");
   (2, 3, "PM_EVENT transitions");
   (2, 3, "PM_EVENT cycles");
   (0, 0, "Nothing");
   (2, 3, "Branch instructions completed");
   (2, 3, "Branch and link type instructions completed");
   (2, 3, "Conditional branch instructions completed");
   (2, 3, "Taken Branch instructions completed");
   (2, 3, "Taken Conditional Branch instructions completed");
   (2, 3, "Load instructions completed");
   (2, 3, "Store instructions completed");
   (2, 3, "Integer instructions completed");
   (2, 3, "Multiply instructions completed");
   (2, 3, "Divide instructions completed");
   (2, 3, "Divide instruction execution cycles");
   (2, 3, "EFPU FP instructions completed");
   (2, 3, "Cycles decode stalled due to no instructions available");
   (2, 3, "Cycles issue stalled, not due to empty instruction buffer");
   (2, 3, "Dcache linefills");
   (2, 3, "Dcache load hits");
   (2, 3, "Store buffer full stalls");
   (2, 3, "Icache linefills");
   (2, 3, "Number of Instruction fetches");
   (2, 3, "BIU instruction-side transfers");
   (2, 3, "BIU instruction-side cycles");
   (2, 3, "BIU data-side transfers");
   (2, 3, "BIU data-side cycles");
   (2, 3, "BIU single-beat write cycles");
   (0, 0, "PMC0 rollover");
   (0, 0, "PMC1 rollover");
   (0, 0, "PMC2 rollover");
   (0, 0, "PMC3 rollover");
   (2, 3, "Interrupts taken");
   (2, 3, "External input interrupts taken");
   (2, 3, "Critical input interrupts taken");
   (2, 3, "Cycles in which MSREE=0");
   (2, 3, "Cycles in which MSRCE=0")].

Definition tab : string := String (Ascii.ascii_of_nat 9) "".

Section Show.
Context {K : Type} `{GulHawk.HawkEnv K, GulHawk.HawkIf}.

Definition event_line (i : nat) (e : Z * Z * string) : string :=
  let '(first, last_, name) := e in
  line (" C" +:+ dec first +:+ "-" +:+ dec last_ +:+ ":" +:+ dec (Z.of_nat i) +:+ " " +:+ name).
Definition __hawk_list_events_show : Z * list Z :=
  sprintf (line "Supported Events:" +:+ concat_text (imap event_line hawk_event_table)).

(** The events chosen, each with the name that stands at its place in the list. *)
Fixpoint events_lines (i : nat) (evs : list (Z * Z)) : option string :=
  match evs with
  | [] => Some ""
  | (out, ev) :: evs =>
      '(_, name) ← hawk_event_table !! i;
      rest ← events_lines (1 + i) evs;
      Some (line ("C" +:+ dec out +:+ ":" +:+ dec ev +:+ tab +:+ name) +:+ rest)
  end.
Definition __hawk_events_show : M (GulHawk.hawkdev K) (Z * list Z) :=
  s ← gets GulHawk.cmd_stat; t ← lift (events_lines 0 (GulHawk.events s)); mret (sprintf t).

Definition __hawk_core_mask_show : M (GulHawk.hawkdev K) (Z * list Z) :=
  m ← gets GulHawk.core_mask; mret (sprintf (line (hex m))).
Definition __hawk_mark_show : M (GulHawk.hawkdev K) (Z * list Z) :=
  s ← gets GulHawk.cmd_stat;
  match GulHawk.events s with
  | [] => mret (-1, [])
  | _ => mret (sprintf (line (dec (if GulHawk.event_mark s then 1 else 0))))
  end.

(** The counters of one event on the cores of the mask, and its name, by its number. *)
Definition counter_text (s : GulHawk.hawk_swcmd_stat) (mask : Z) (i j : nat) : string :=
  if Z.testbit mask (Z.of_nat j)
  then pad_left 10 (dec (nth i (nth j (GulHawk.ctrs s) []) 0)) +:+ tab else "".
Fixpoint report_lines (s : GulHawk.hawk_swcmd_stat) (mask : Z) (i : nat) (evs : list (Z * Z)) : option string :=
  match evs with
  | [] => Some ""
  | (out, ev) :: evs =>
      '(_, name) ← hawk_event_table !! Z.to_nat ev;
      rest ← report_lines s mask (1 + i) evs;
      Some ("C" +:+ dec out +:+ ":" +:+ dec ev +:+ " = " +:+
            concat_text (counter_text s mask i <$> seq 0 GulHawk.E200_CORE_COUNT) +:+
            line (pad_right 64 name) +:+ rest)
  end.
Definition __hawk_report_show : M (GulHawk.hawkdev K) (Z * list Z) :=
  s ← gets GulHawk.cmd_stat;
  mask ← gets GulHawk.core_mask;
  t ← lift (report_lines s mask 0 (GulHawk.events s)); mret (sprintf t).
End Show.

(** ** The text of the converters *)
Section DcsShow.
Context {E : Type} `{GulDcs.DcsEnv E}.

Definition yes_no (v : Z) : string := if decide (v ≠ 0) then "Yes" else "No".
Definition recal_lines (kind : string) (enabled temp count : Z) : string :=
  line (" " +:+ kind +:+ " Recalibration enabled    : " +:+ yes_no enabled) +:+
  (if decide (enabled ≠ 0) then
     line (" " +:+ kind +:+ " Recalibrated Temperature : " +:+ dec temp +:+ "C") +:+
     line (" " +:+ kind +:+ " Recalibration Count      : " +:+ dec count)
   else "").
Definition hsdcs_show_stats (i : nat) : M (GulDcs.dcsw E) (Z * list Z) :=
  d ← GulDcs.get_dev i;
  '(last_act, org_act) ← GulDcs.hsdcs_read_temp_compensation i;
  mret (sprintf (line " " +:+
    recal_lines "Incr" (GulDcs.hsdcs_inc_recal_enabled d) (GulDcs.ihsdcs_lastime_inc_cal_temp d) (GulDcs.fastrecal_cnt d) +:+
    line " " +:+
    recal_lines "Full" (GulDcs.hsdcs_full_recal_enabled d) (GulDcs.ihsdcs_lastime_full_cal_temp d) (GulDcs.fullrecal_cnt d) +:+
    line " " +:+ line " Temperature Compensation:" +:+
    line (" Calibrated: " +:+ dec org_act +:+ "C") +:+ line (" Acted     : " +:+ dec last_act +:+ "C") +:+
    line (" Count     : " +:+ dec (GulDcs.temp_comp_cnt d)) +:+ line " " +:+
    line (" Current Temperature: " +:+ dec (GulDcs.ihsdcs_current_temp d) +:+ "C") +:+ line " ")).
End DcsShow.

(** ** The sub-drivers of a modem *)
Record subdrivers (R K V E : Type) := Subs {
  s_rf : GulRfic.rfdev R; s_hawk : GulHawk.hawkdev K; s_vspa : GulVspa.vspa_world V; s_dcs : GulDcs.dcsw E;
  s_time : list bool; s_stack : Z }.
Arguments Subs {R K V E} _ _ _ _ _ _.
Arguments s_rf {R K V E} _. Arguments s_hawk {R K V E} _. Arguments s_vspa {R K V E} _.
Arguments s_dcs {R K V E} _. Arguments s_time {R K V E} _. Arguments s_stack {R K V E} _.

(** The modem's number; which allocations the kernel grants; what starting a vector
    processor needs; the text of the device. *)
Record sub_opts := SubOpts { modem : nat; kzalloc : Z → bool; vspa_k : GulVspa.vspa_kernel; dump : Z * list Z }.

Section Calls.
Context {R K V E : Type} `{GulRfic.RfEnv R, GulRfic.RficIf, GulHawk.HawkEnv K, GulHawk.HawkIf}
  `{GulVspa.VspaHw V, ScratchIf, GulDcs.DcsEnv E} (o : sub_opts).
Local Abbreviation S := (subdrivers R K V E).

Definition zoom {A X} (get : S → A) (put : A → S → S) (m : M A X) : M S X :=
  λ s, match m (get s) with Some (x, a) => Some (x, put a s) | None => None end.
Definition rf {X} (m : M (GulRfic.rfdev R) X) : M S unit :=
  _ ← zoom s_rf (λ a s, Subs a (s_hawk s) (s_vspa s) (s_dcs s) (s_time s) (s_stack s)) m; mret tt.
Definition in_hawk {X} (m : M (GulHawk.hawkdev K) X) : M S X :=
  zoom s_hawk (λ a s, Subs (s_rf s) a (s_vspa s) (s_dcs s) (s_time s) (s_stack s)) m.
Definition in_vspa {X} (m : M (GulVspa.vspa_world V) X) : M S X :=
  zoom s_vspa (λ a s, Subs (s_rf s) (s_hawk s) a (s_dcs s) (s_time s) (s_stack s)) m.
Definition in_dcs {X} (m : M (GulDcs.dcsw E) X) : M S X :=
  zoom s_dcs (λ a s, Subs (s_rf s) (s_hawk s) (s_vspa s) a (s_time s) (s_stack s)) m.
Definition drop_result {X} (m : M S X) : M S unit := _ ← m; mret tt.

(** The buffer of a register dump is for [len] words; eight gigabytes are not granted. *)
Definition read_regs (addr len : Z) : M S unit :=
  if bool_decide (len < 2147483648) && kzalloc o (4 * len) then rf (GulRfic.__rf_read_regs addr (Z.to_nat len)) else mret tt.

Definition do_call (c : sub_call) : M S unit :=
  match c with
  | RfDumpHif | RfWriteChipRegs _ _ _ | RfReadChipRegs _ _ _ => mret tt
  | RfSwitchTx => rf GulRfic.__rf_switch_tx
  | RfSwitchRx => rf GulRfic.__rf_switch_rx
  | RfReadRegs addr len => read_regs addr len
  | RfWriteRegs addr data => rf (GulRfic.__rf_write_regs 1 [(addr, data)])
  | RfSetVcxoDac index => rf (GulRfic.__rf_set_vcxo_dac index)
  | RfSetTxGain lut => rf (GulRfic.__rf_set_tx_gain lut)
  | RfSetRxGain mask lut => rf (GulRfic.__rf_set_rx_gain mask lut)
  | RfControlStressTest start => rf (GulRfic.__rf_control_stress_test start)
  | RfEnableDisableBgTask start => rf (GulRfic.__rf_enable_disable_bg_task start)
  | RfSetFreqTx f ppm ref init => rf (GulRfic.__rf_set_freq_tx f ppm ref init)
  | RfSetRxAgcGainIndex mask lut => rf (GulRfic.__rf_set_rx_agc_gain_index mask lut)
  | RfSetAutoTunePll iter => rf (GulRfic.__rf_set_auto_tune_pll (Z.to_nat iter))
  | RfSetBeambookIndexTx index => rf (GulRfic.__rfic_set_beambook_index_tx index)
  | RfSetBeambookIndexRx index => rf (GulRfic.__rfic_set_beambook_index_rx index)
  | RfSetTargetBroadcastTxFe => rf GulRfic.__rfic_set_target_broadcast_tx_fe
  | RfSetTargetBroadcastRxFe => rf GulRfic.__rfic_set_target_broadcast_rx_fe
  | RfSetPbkModeTx mode => rf (GulRfic.__rfic_set_pbk_mode_tx mode)
  | RfSetPbkModeRx mode => rf (GulRfic.__rfic_set_pbk_mode_rx mode)
  | RfIncrementPbkIndex => rf GulRfic.__rfic_increment_pbk_index
  | RfConfigDynamicController op enable => rf (GulRfic.__rfic_config_dynamic_controller op enable)
  | RfWriteListToPbkMemoryTx len => rf (GulRfic.__rfic_write_list_to_pbk_memory_tx len)
  | RfWriteListToPbkMemoryRx len => rf (GulRfic.__rfic_write_list_to_pbk_memory_rx len)
  | RfSetBeamConfig beam => rf (GulRfic.__rfic_set_beam_config beam)
  | HawkEventSet output event => drop_result (in_hawk (GulHawk.__hawk_event_set output event))
  | HawkEventReset => drop_result (in_hawk GulHawk.__hawk_event_reset)
  | HawkCoreMaskSet mask => drop_result (in_hawk (GulHawk.__hawk_core_mask_set mask))
  | HawkMarkSet enable => drop_result (in_hawk (GulHawk.__hawk_mark_set enable))
  | HawkRecordSet enable => drop_result (in_hawk (GulHawk.__hawk_record_set enable))
  | VspaResetMaskSet mask => drop_result (in_vspa (GulVspa.vspa_reset_mask_set mask))
  | VspaResetSet => drop_result (in_vspa (GulVspa.vspa_reset_set (vspa_k o) (Z.to_nat GUL_VSPA_CORE_MAX)))
  | DcsFullRecal => drop_result (in_dcs (GulDcs.hsdcs_adc_full_recal (modem o)))
  | DcsFastRecal chan => drop_result (in_dcs (GulDcs.hsdcs_adc_fast_recal (modem o) chan))
  | DcsTmonTri => in_dcs GulDcs.hsdcs_adc_set_tmon_tri
  | DcsTmonTriFull => in_dcs GulDcs.hsdcs_adc_set_tmon_tri_full
  | DcsEnDisIncCal v => in_dcs (GulDcs.hsdcs_adc_en_dis_inc_cal (modem o) v)
  | DcsEnDisFullCal v => in_dcs (GulDcs.hsdcs_adc_en_dis_fullcal (modem o) v)
  end.

Definition do_show (c : sub_show) : M S (Z * list Z) :=
  match c with
  | HawkListEvents => mret __hawk_list_events_show
  | HawkEvents => in_hawk __hawk_events_show
  | HawkCoreMask => in_hawk __hawk_core_mask_show
  | HawkMark => in_hawk __hawk_mark_show
  | HawkReport => in_hawk __hawk_report_show
  | VspaResetMask => in_vspa (m ← gets GulVspa.vspa_reset_mask; mret (sprintf (line (hex m))))
  | DcsStats => in_dcs (hsdcs_show_stats (modem o))
  | DeviceDump => mret (dump o)
  end.

#[local] Instance sub_drivers : SubCalls S := {|
  call := do_call;
  show_sub := do_show;
  dcs_there s := match GulDcs.dcs_priv (s_dcs s) !! modem o with Some GulDcs.NoDev | None => false | _ => true end;
  time_before s := match s_time s with
                   | [] => (false, s)
                   | b :: t => (b, Subs (s_rf s) (s_hawk s) (s_vspa s) (s_dcs s) t (s_stack s))
                   end;
  stack := s_stack |}.
End Calls.
