(* ===== verification/GulSysfsCorrect.v ===== *)
(** * The files in sysfs: theorems *)
From S2P Require Import Prelude GulMsi GulScratch GulBoot GulLog GulText GulSysfs.
From S2P Require GulRfic.
From S2P Require GulHawk.
From S2P Require GulVspa.
From S2P Require GulDcs.
From S2P Require Import GulSubCalls UsimEventCorrect.
#[global] Open Scope Z_scope.

(** ** What a text can make the driver do *)
Definition word (v : Z) : Prop := 0 ≤ v < 4294967296.
Definition half (v : Z) : Prop := 0 ≤ v < 65536.
Definition bit (v : Z) : Prop := v = 0 ∨ v = 1.
Definition call_ok (c : sub_call) : Prop :=
  match c with
  | RfReadRegs addr len => half addr ∧ word len
  | RfWriteRegs addr data => half addr ∧ is_byte data
  | RfReadChipRegs chip addr len => word chip ∧ half addr ∧ word len
  | RfWriteChipRegs chip addr data => word chip ∧ word addr ∧ word data
  | RfSetVcxoDac index => half index
  | RfSetTxGain v | RfSetAutoTunePll v | RfSetBeambookIndexTx v | RfSetBeambookIndexRx v
  | RfWriteListToPbkMemoryTx v | RfWriteListToPbkMemoryRx v | RfSetBeamConfig v => is_byte v
  | RfSetRxGain a b | RfSetRxAgcGainIndex a b => is_byte a ∧ is_byte b
  | RfControlStressTest v | RfEnableDisableBgTask v | DcsEnDisIncCal v | DcsEnDisFullCal v => bit v
  | RfSetFreqTx a b c d => word a ∧ word b ∧ word c ∧ word d
  | RfSetPbkModeTx m | RfSetPbkModeRx m => m = 1 ∨ m = 3
  | RfConfigDynamicController op en => word op ∧ is_byte en
  | HawkEventSet a b => word a ∧ word b
  | HawkCoreMaskSet m => word m
  | VspaResetMaskSet m => is_byte m
  | DcsFastRecal c => 1 ≤ c ≤ 15
  | _ => True
  end.

Lemma u8_is_byte v : is_byte (u8 v).
Proof. unfold is_byte, u8. apply Z.mod_pos_bound. lia. Qed.
Lemma u16_half v : half (u16 v).
Proof. unfold half, u16. apply Z.mod_pos_bound. lia. Qed.
Lemma u32_word v : word (u32 v).
Proof. unfold word, u32. apply Z.mod_pos_bound. lia. Qed.
Lemma land_ff v : word v → is_byte (Z.land v 0xff).
Proof. intros Hv. change 0xff with (Z.ones 8). rewrite Z.land_ones by lia. apply Z.mod_pos_bound. lia. Qed.
Lemma land_ffff v : word v → half (Z.land v 0xffff).
Proof. intros Hv. change 0xffff with (Z.ones 16). rewrite Z.land_ones by lia. apply Z.mod_pos_bound. lia. Qed.
Create HintDb sysfs.
#[local] Hint Resolve u8_is_byte u16_half u32_word land_ff land_ffff : sysfs.
#[local] Hint Unfold bit : sysfs.

Section Store.
Context {T : Type} `{HT : SysText T} {HL : SysTextLaws T} {S : Type} `{HS : SubCalls S, HI : SysfsIf} (d : sysfs_dev).
Local Abbreviation V := (M (sysfs S)).

(** An assertion about the sub-drivers that every call in range keeps, and about the
    words of the log levels. *)
Context (ub : Prop) (P : S → Prop).
Hypothesis call_keeps : ∀ c, call_ok c → hoare ub P (call c) (λ _, P).
Hypothesis time_keeps : ∀ s, P s → P (snd (time_before s)).
Definition inv (w : sysfs S) : Prop := P (subs w) ∧ (ub ∨ (numcores d ≤ length (log_level w))%nat).
Local Abbreviation ok m := (hoare ub inv m (λ _, inv)).

Lemma sub_ok c : call_ok c → ok (sub c).
Proof.
  intros Hc w [Hw Hn]. unfold sub, on_subs. assert (H1 := call_keeps c Hc (subs w) Hw).
  destruct (call c (subs w)) as [[[] s]|]; [|done]. by split.
Qed.
Lemma nothing_ok : ok (mret tt).
Proof. by intros w. Qed.
Lemma wrote_ok t m : ok m → hoare ub inv (wrote t m) (λ r w, r = strnlen t ∧ inv w).
Proof. intros Hm. unfold wrote. eapply hoare_bind; [exact Hm|]. intros []. by intros w. Qed.
Lemma on_u32_ok t k : (∀ v, word v → ok (k v)) → hoare ub inv (on_u32 t k) (λ r w, r = strnlen t ∧ inv w).
Proof.
  intros Hk. apply wrote_ok. destruct (kstrtou32 t) as [v|] eqn:E; [|apply nothing_ok].
  apply Hk. by apply kstrtou32_word in E.
Qed.
Lemma on_value_ok good t m : ok m → hoare ub inv (on_value good t m) (λ r w, r = strnlen t ∧ inv w).
Proof. intros Hm. apply on_u32_ok. intros v _. case_decide; [exact Hm|apply nothing_ok]. Qed.
Lemma on_switch_ok t k : (∀ v, bit v → ok (k v)) → hoare ub inv (on_switch t k) (λ r w, r = strnlen t ∧ inv w).
Proof. intros Hk. apply on_u32_ok. intros v _. case_decide; [by apply Hk|apply nothing_ok]. Qed.
Lemma scan_u_words n t : Forall word (sscanf_u n t).
Proof. exact (proj1 (proj1 (Forall_app _ _ _) (sscanf_word n t))). Qed.
Lemma scan_x_words n t : Forall word (sscanf_x n t).
Proof. exact (proj2 (proj1 (Forall_app _ _ _) (sscanf_word n t))). Qed.
Lemma on_pair_ok t k : (∀ a b, word a → word b → ok (k a b)) → hoare ub inv (on_pair t k) (λ r w, r = strnlen t ∧ inv w).
Proof.
  intros Hk. apply wrote_ok. assert (Hw := scan_u_words 2 t).
  destruct (sscanf_u 2 t) as [|a [|b [|c l]]]; try apply nothing_ok.
  apply Forall_cons in Hw as [Ha Hw]. apply Forall_cons in Hw as [Hb _]. by apply Hk.
Qed.
Lemma if_dcs_ok m : ok m → ok (if_dcs d m).
Proof.
  intros Hm w Hw. unfold if_dcs. rewrite M_bind_eq. cbn [gets].
  destruct (dcs_there (subs w) && soc_rev_b d); [by apply Hm|done].
Qed.
Lemma scanned_word n t v w w' : scanned n t w = Some (v, w') → w' = w ∧ ∀ i, word (v i).
Proof.
  unfold scanned. cbn. intros [= <- <-]. split; [done|]. intros i. assert (Hw := scan_x_words n t).
  destruct (lt_dec i (length (sscanf_x n t))) as [Hi|Hi].
  - rewrite Forall_forall in Hw. apply Hw, list_elem_of_In, nth_In. exact Hi.
  - rewrite nth_overflow by lia. apply u32_word.
Qed.
Lemma scanned_ok n t (k : (nat → Z) → V Z) Q :
  (∀ v, (∀ i, word (v i)) → hoare ub inv (k v) Q) → hoare ub inv (v ← scanned n t; k v) Q.
Proof.
  intros Hk w Hw. rewrite M_bind_eq. destruct (scanned n t w) as [[v w']|] eqn:E; [|done].
  apply scanned_word in E as [-> Hv]. by apply Hk.
Qed.
Lemma unchecked_ok t c : (∀ v, bit v → call_ok (c v)) →
  ok (v ← unchecked t; if decide (v = 1 ∨ v = 0) then sub (c v) else mret tt).
Proof.
  intros Hc w Hw. unfold unchecked. rewrite M_bind_eq, M_bind_eq. cbn [gets]. cbn. destruct (decide _) as [Hd|]; [|done]. apply sub_ok; [|done].
  apply Hc. unfold bit. tauto.
Qed.
Lemma duty_ok bound t : ub → hoare ub inv (rf_rxtx_duty_test bound t) (λ r w, r = strnlen t ∧ inv w).
Proof.
  intros Hub. apply wrote_ok. destruct (sscanf_u 4 t) as [|a [|b [|c [|e [|? ?]]]]]; try apply nothing_ok.
  eapply hoare_bind with (R := λ r w, match r with inl _ => inv w | inr _ => inv w end).
  - apply (hoare_until ub (duty_step a b) (λ _ _, inv) (λ _, inv)). intros k [] _. unfold duty_step.
    eapply (hoare_bind _ (λ _, inv)).
    + intros w [Hw Hl]. unfold on_subs. assert (Ht := time_keeps (subs w) Hw). by destruct (time_before (subs w)).
    + intros [|]; [|by intros w].
      eapply (hoare_bind _ (λ _, inv)); [case_decide; [by apply sub_ok|apply nothing_ok]|intros []].
      eapply (hoare_bind _ (λ _, inv)); [case_decide; [by apply sub_ok|apply nothing_ok]|intros []]. by intros w.
  - intros [?|?]; [by intros w|by intros w].
Qed.
Lemma own_ok (f : sysfs S → sysfs S) :
  (∀ w, subs (f w) = subs w) → (∀ w, log_level (f w) = log_level w) → ok (modify f).
Proof. intros Hs Hl w [Hw Hn]. cbn. unfold inv. by rewrite Hs, Hl. Qed.
Lemma set_levels_ok n i v : (i + n = numcores d)%nat → ok (set_levels n i v).
Proof.
  revert i. induction n as [|n IH]; intros i Hi; cbn [set_levels]; [apply nothing_ok|].
  intros w Hw. rewrite M_bind_eq. cbn [gets]. destruct (decide (i < length (log_level w))%nat) as [Hl|Hl].
  - rewrite M_bind_eq. cbn [modify]. apply (IH (1 + i)%nat); [lia|]. destruct Hw as [Hp Hn]. split; [done|]. cbn. by rewrite length_insert.
  - destruct Hw as [_ [Hu|Hn]]; [done|lia].
Qed.

Ltac head_of t := match t with ?f _ => head_of f | _ => t end.
Ltac unfold_head := match goal with |- hoare _ _ ?m _ => let h := head_of m in unfold h end.

Ltac store_step := first
  [ apply scanned_ok; intros ??
  | apply on_value_ok | apply on_switch_ok; intros ?? | apply on_pair_ok; intros ????
  | apply on_u32_ok; intros ?? | apply wrote_ok | apply if_dcs_ok | apply nothing_ok
  | apply sub_ok; cbn [call_ok]; repeat match goal with |- _ ∧ _ => split end; auto 2 with sysfs ].

(** whatever is written to whatever file of a modem, every call that reaches a
    sub-driver has arguments of the C types of its parameters (masks and levels as the
    code limits them), the result is the
    length of the text, and nothing of the driver's own state is touched out of
    bounds.  Stated for any assertion [P] that the calls in range keep; [ub] is False
    for every file but the endless test. *)
Theorem store_calls_in_range bound a f t :
  dev_store d bound a = Some f → (a = rf_rxtx_duty_test_attr → ub) →
  hoare ub inv (f t) (λ r w, r = strnlen t ∧ inv w).
Proof.
  intros Hf Hub. destruct a; cbn in Hf; try discriminate; injection Hf as <-; unfold_head.
  all: try (by repeat store_step).
  - apply wrote_ok. destruct (kstrtoul t); [|apply nothing_ok]. case_decide; [apply nothing_ok|by apply set_levels_ok].
  - apply wrote_ok. destruct (kstrtoul t); [by apply own_ok|apply nothing_ok].
  - apply on_u32_ok. intros v Hv. destruct (decide _) as [Hm|]; [|apply nothing_ok]. apply sub_ok. cbn.
    unfold word, is_byte in *. change (Z.shiftl 1 GUL_VSPA_CORE_MAX) with 256 in Hm. lia.
  - apply on_u32_ok. intros v _. case_decide; [by apply if_dcs_ok, sub_ok|apply nothing_ok].
  - apply wrote_ok, if_dcs_ok, unchecked_ok. by intros v.
  - apply wrote_ok, if_dcs_ok, unchecked_ok. by intros v.
  - apply duty_ok. by apply Hub.
  - apply wrote_ok. assert (Hw := scan_u_words 4 t).
    destruct (sscanf_u 4 t) as [|a [|b [|c [|e [|? ?]]]]]; try apply nothing_ok.
    apply Forall_cons in Hw as [Ha Hw]. apply Forall_cons in Hw as [Hb Hw]. apply Forall_cons in Hw as [Hc Hw].
    apply Forall_cons in Hw as [He _]. by apply sub_ok.
  - apply wrote_ok. assert (Hw := scan_x_words 1 t).
    destruct (sscanf_x 1 t) as [|a [|? ?]]; try apply nothing_ok. apply Forall_cons in Hw as [Ha _]. by apply sub_ok.
Qed.
End Store.

(** ** The state of the cores *)
Lemma core_mask_S n : cal_core_mask (S n) = Z.lor (cal_core_mask n) (Z.shiftl 1 (2 * Z.of_nat n)).
Proof. unfold cal_core_mask. by rewrite seq_S, foldl_app. Qed.
Lemma core_mask_bit n k : 0 ≤ k → Z.testbit (cal_core_mask n) k = Z.even k && (k <? 2 * Z.of_nat n).
Proof.
  intros Hk. induction n as [|n IH].
  - cbn. rewrite Z.bits_0. symmetry. apply andb_false_iff. right. apply Z.ltb_ge. lia.
  - rewrite core_mask_S, Z.lor_spec, IH, Z.shiftl_1_l, Z.pow2_bits_eqb by lia.
    destruct (Z.eqb_spec (2 * Z.of_nat n) k) as [<- |Hne].
    + rewrite Z.even_mul. cbn. rewrite orb_true_r. symmetry. apply Z.ltb_lt. lia.
    + rewrite orb_false_r. destruct (Z.even k) eqn:Ev; [|done]. cbn. apply Z.even_spec in Ev as [j ->].
      destruct (Z.ltb_spec (2 * j) (2 * Z.of_nat n)), (Z.ltb_spec (2 * j) (2 * Z.of_nat (S n))); lia || done.
Qed.

(** the modem is reported alive exactly when every core is reported running and the
    word has no bit for a core that is not there. *)
Theorem modem_alive_iff (d : sysfs_dev) v : 0 ≤ v →
  modem_alive d v = true ↔
  (∀ loop, (loop < numcores d)%nat → core_state v loop = "RUNNING"%string) ∧
  (∀ k, 2 * Z.of_nat (numcores d) ≤ k → Z.testbit v k = false).
Proof.
  intros Hv. unfold modem_alive. rewrite bool_decide_eq_true. split.
  - intros ->. split.
    + intros loop Hl. unfold core_state. rewrite !core_mask_bit by lia.
      replace (Z.even (2 * Z.of_nat loop)) with true by (by rewrite Z.even_mul).
      replace (Z.even (2 * Z.of_nat loop + 1)) with false by (by rewrite Z.even_add, Z.even_mul).
      cbn. by replace (2 * Z.of_nat loop <? 2 * Z.of_nat (numcores d)) with true by (symmetry; apply Z.ltb_lt; lia).
    + intros k Hk. rewrite core_mask_bit by lia. apply andb_false_iff. right. apply Z.ltb_ge. lia.
  - intros [Hrun Hhigh]. apply Z.bits_inj'. intros k Hk. rewrite core_mask_bit by done.
    destruct (Z.ltb_spec k (2 * Z.of_nat (numcores d))) as [Hlt|Hge]; [|rewrite andb_false_r; by apply Hhigh].
    rewrite andb_true_r. assert (Hmod := Z.div_mod k 2 ltac:(lia)). assert (Hb := Z.mod_pos_bound k 2 ltac:(lia)).
    assert (Hq : 0 ≤ k / 2) by (apply Z.div_pos; lia).
    assert (Hj := Hrun (Z.to_nat (k / 2)) ltac:(lia)). unfold core_state in Hj. rewrite Z2Nat.id in Hj by done.
    destruct (Z.testbit v (2 * (k / 2))) eqn:E0; [|done]. destruct (Z.testbit v (2 * (k / 2) + 1)) eqn:E1; [done|].
    rewrite Zeven_mod.
    destruct (Z.eqb_spec (k mod 2) 0) as [Hz|Hz].
    + rewrite Hz in Hmod. rewrite <- E0. f_equal. lia.
    + rewrite <- E1. f_equal. lia.
Qed.

(** ** With the sub-drivers in place *)
Section Real.
Context {T : Type} `{HT : SysText T} `{HI : SysfsIf} {R K V E : Type}
  `{HR : GulRfic.RfEnv R, HRI : GulRfic.RficIf, HK : GulHawk.HawkEnv K, HKI : GulHawk.HawkIf}
  `{HV : GulVspa.VspaHw V, HSI : ScratchIf, HE : GulDcs.DcsEnv E} (o : sub_opts) (d : sysfs_dev).
#[local] Instance real : SubCalls (subdrivers R K V E) := sub_drivers o.

(** the file that reads registers of the RF card takes any count: one that does
    not fit the command is written past it, although the request of the device
    bounds it. *)
Theorem fpga_read_overruns t (w : sysfs (subdrivers R K V E)) addr len :
  sscanf_x 2 t = [addr; len] → len < 2147483648 → kzalloc o (4 * len) = true →
  0 < GulRfic.mdata_lock (s_rf (subs w)) →
  (GulRfic.data_words < length (GulRfic.enc
     (GulRfic.ReadReg ((λ i, u16 (u16 addr + Z.of_nat i)) <$> seq 0 (Z.to_nat len)))))%nat →
  rf_fpga_read_regs t w = None.
Proof.
  intros Ht Hlen Hk Hlock Hlong. unfold rf_fpga_read_regs, scanned. rewrite !M_bind_eq. cbn [gets].
  unfold wrote. cbn -[GulRfic.__rf_read_regs]. rewrite Ht. cbn [nth].
  rewrite M_bind_eq. unfold sub, on_subs. cbn [call real sub_drivers do_call].
  unfold read_regs. rewrite bool_decide_true, Hk by done. cbn [andb].
  unfold rf. rewrite M_bind_eq. unfold zoom. unfold GulRfic.__rf_read_regs. rewrite M_bind_eq.
  unfold GulRfic.fill, GulRfic.rf_get_swcmd. rewrite !M_bind_eq. cbn [gets]. rewrite decide_True by done. cbn.
  by rewrite decide_False by lia.
Qed.

Lemma report_lines_None s mask i evs out ev :
  (length hawk_event_table ≤ Z.to_nat ev)%nat → report_lines s mask i (evs ++ [(out, ev)]) = None.
Proof.
  intros Hev. revert i. induction evs as [|[out1 ev1] evs IH]; intros i; cbn [app report_lines].
  - by rewrite lookup_ge_None_2 by done.
  - destruct (hawk_event_table !! Z.to_nat ev1) as [[[??]?]|]; [|done]. cbn [mbind option_bind]. by rewrite IH.
Qed.

Lemma report_show_None (k : GulHawk.hawkdev K) :
  report_lines (GulHawk.cmd_stat k) (GulHawk.core_mask k) 0 (GulHawk.events (GulHawk.cmd_stat k)) = None →
  __hawk_report_show k = None.
Proof.
  intros Hn. unfold __hawk_report_show. do 2 (rewrite M_bind_eq; cbn [gets]). by rewrite M_bind_eq, Hn.
Qed.

(** an event number past the table is accepted, and the next report reads the
    table there. *)
Theorem event_report_overruns t (w : sysfs (subdrivers R K V E)) out ev :
  sscanf_u 2 t = [out; ev] → zlen hawk_event_table ≤ ev →
  (length (GulHawk.events (GulHawk.cmd_stat (s_hawk (subs w)))) < GulHawk.HAWK_EVENT_MAX_COUNT)%nat →
  ∃ w', hawk_event_set t w = Some (strnlen t, w') ∧ on_subs (show_sub HawkReport) w' = None.
Proof.
  intros Ht Hev Hroom. unfold hawk_event_set, on_pair, wrote. rewrite Ht, M_bind_eq.
  unfold sub, on_subs. cbn [call real sub_drivers do_call]. unfold drop_result. rewrite M_bind_eq.
  unfold in_hawk, zoom, GulHawk.__hawk_event_set. rewrite M_bind_eq. cbn [gets]. rewrite decide_False by lia.
  eexists. split; [reflexivity|]. cbn [show_sub real sub_drivers do_show]. unfold in_hawk, zoom.
  rewrite report_show_None; [done|]. apply report_lines_None. unfold zlen in Hev. lia.
Qed.
End Real.

(** The list of the chosen events names them by their place in it. *)
Example events_named_by_place : events_lines 0 [(1, 12)] = Some (line ("C1:12" +:+ tab +:+ "Nothing")).
Proof. reflexivity. Qed.

(** ** The groups *)

(** A removal leaves no files, whatever came of the set-up; a set-up that failed
    leaves some until then. *)
Theorem sysfs_groups_removed d k rfic : gul_remove_sysfs d rfic (snd (gul_init_sysfs d k rfic)) = Groups false false false false.
Proof.
  unfold gul_init_sysfs, gul_remove_sysfs. destruct rfic, (soc_rev_b d); repeat case_decide; cbn; by naive_solver.
Qed.
Theorem sysfs_failure_leaves_files d k rfic : k_main k = 0 → fst (gul_init_sysfs d k rfic) ≠ 0 →
  g_main (snd (gul_init_sysfs d k rfic)) = true.
Proof. unfold gul_init_sysfs. intros Hm Hf. rewrite decide_False in * by tauto. repeat case_decide; cbn in *; done. Qed.

(** ** Witnesses *)

(** Texts that are lists of numbers already, and sub-drivers that only note what
    they were asked. *)
#[local] Instance demo_text : SysText (list Z) := {|
  kstrtoul t := match t with v :: _ => Some (u64 v) | [] => None end;
  kstrtou32 t := match t with v :: _ => Some (u32 v) | [] => None end;
  sscanf_u n t := u32 <$> take n t; sscanf_x n t := u32 <$> take n t; strnlen t := zlen t |}.
#[local] Instance demo_text_laws : SysTextLaws (list Z).
Proof.
  split.
  - intros [|v t] x; cbn; [done|]. intros [= <-]. apply u32_word.
  - intros n t. apply Forall_app. split; apply Forall_fmap, Forall_true; intros; apply u32_word.
Qed.
#[local] Instance demo_calls : SubCalls (list sub_call) := {|
  call c s := Some (tt, c :: s); show_sub c s := Some ((0, []), s); dcs_there s := true; time_before s := (false, s);
  stack s := 7 |}.
#[local] Instance demo_sysfs_if : SysfsIf := {| GUL_LOG_LEVEL_ERR := 1; GUL_LOG_LEVEL_ALL := 5; GEUL_SVR_REVB_VAL := 2 |}.
Definition demo_sdev : sysfs_dev := SysfsDev 0 "0000:01:00.0" 2 true 2 0.

Lemma store_calls_in_range_witness :
  hoare False (inv demo_sdev False (Forall call_ok)) (hsadc_set_inc_cal demo_sdev [1])
    (λ r w, r = strnlen [1] ∧ inv demo_sdev False (Forall call_ok) w).
Proof.
  apply (store_calls_in_range demo_sdev False (Forall call_ok)) with (bound := 1%positive) (a := hsdcs_enable_inc_cal);
    [|done|reflexivity|discriminate].
  intros c Hc s Hs. cbn. by constructor.
Defined.

Lemma modem_alive_iff_witness : modem_alive demo_sdev 5 = true ↔
  (∀ loop, (loop < 2)%nat → core_state 5 loop = "RUNNING"%string) ∧ (∀ k, 2 * Z.of_nat 2 ≤ k → Z.testbit 5 k = false).
Proof. apply (modem_alive_iff demo_sdev 5). lia. Defined.

#[local] Instance demo_rf_env : GulRfic.RfEnv unit := {|
  GulRfic.rf_read _ _ := (0, tt); GulRfic.rf_write _ _ _ := tt; GulRfic.rf_irq _ := tt; GulRfic.rf_sleep _ := tt;
  GulRfic.rf_interrupted _ := (true, tt); GulRfic.dspi_read _ _ := (0, tt); GulRfic.dspi_write _ _ _ := tt |}.
#[local] Instance demo_rf_if : GulRfic.RficIf := {|
  GulRfic.RF_SW_CMD_STATUS_FREE := 0; GulRfic.RF_SW_CMD_STATUS_POSTED := 1; GulRfic.RF_SW_CMD_STATUS_DONE := 2;
  GulRfic.RF_SW_CMD_RESULT_OK := 0; GulRfic.RFIC_REMOTE_CMD_TIMEOUT := 1000; GulRfic.RF_CMD_FLAGS_REMOTE := 1;
  GulRfic.MV_REG_ADDR_MASK := 0xFFFF; GulRfic.MV_REG_VAL_MASK := 0xFF; GulRfic.MAX_RW_REGS := 64;
  GulRfic.RF_BBK_LIST_MAX := 32; GulRfic.code _ := 9;
  GulRfic.enc r := match r with GulRfic.ReadReg addrs => zlen addrs :: addrs | _ => [] end; GulRfic.data_words := 4;
  GulRfic.common := []; GulRfic.rf_reg_rw_data_size := 8; GulRfic.val_at i := (2 * i + 2)%nat |}.
#[local] Instance demo_hawk_env : GulHawk.HawkEnv unit := {|
  GulHawk.hawk_read _ _ := (0, tt); GulHawk.hawk_write _ _ _ := tt; GulHawk.hawk_irq _ := tt; GulHawk.hawk_sleep _ := tt |}.
#[local] Instance demo_hawk_if : GulHawk.HawkIf := {|
  GulHawk.E200_CORE_COUNT := 4; GulHawk.HAWK_EVENT_MAX_COUNT := 4; GulHawk.HAWK_SW_CMD_STATUS_FREE := 0;
  GulHawk.HAWK_SW_CMD_STATUS_POSTED := 1; GulHawk.HAWK_SW_CMD_STATUS_DONE := 2; GulHawk.HAWK_SW_CMD_RESULT_OK := 0;
  GulHawk.HAWK_SW_CMD_MARK_SET := 1; GulHawk.HAWK_SW_CMD_MARK_RESET := 2; GulHawk.HAWK_SW_CMD_RECORD_START := 3;
  GulHawk.HAWK_SW_CMD_RECORD_STOP := 4; GulHawk.enc_stat _ := []; GulHawk.stat_words := 0; GulHawk.ctrs_of l := [l];
  GulHawk.hawk_common := [] |}.
#[local] Instance demo_vspa_hw : GulVspa.VspaHw unit := {|
  GulVspa.vspa_reg_read _ _ _ _ := (0, tt); GulVspa.vspa_reg_write _ _ _ _ _ := tt |}.
#[local] Instance demo_sysfs_scratch : ScratchIf := {|
  PAGE_SHIFT := 12; GUL_EP_CORE_MAX := 8; GUL_SCRATCH_DMA_BUF_END_ADDR := 0xE0000000;
  PCI_OUTBOUND_WINDOW_BASE_ADDR := 0xA0000000; GUL_OB_WIN_SCRATCH_BUF := 3 |}.
#[local] Instance demo_dcs_regs : GulDcs.DcsEnv unit := {|
  GulDcs.d_readl _ _ _ := (0, tt); GulDcs.d_writel _ _ _ _ := tt; GulDcs.d_hif_read _ _ _ := (0, tt);
  GulDcs.d_hif_write _ _ _ _ := tt; GulDcs.d_ready _ _ _ := tt; GulDcs.d_msi _ _ := tt;
  GulDcs.d_temp _ _ := Some ((0, 45), tt); GulDcs.d_alloc _ := (true, tt) |}.
Definition demo_sub_opts : sub_opts :=
  SubOpts 0 (λ _, true) (GulVspa.Kernel true true true (λ _, true) (λ _, true) (λ _, 0) false false "" 0
                           (Files (λ _, 0) (λ _, inl (-2))) 0 0) (0, []).
Definition demo_subs : subdrivers unit unit unit unit :=
  Subs (GulRfic.Rfdev tt (GulRfic.Desc 0 0 0 0 0 0 []) 1 (GulRfic.Stats 0 0 0 0) true)
    (GulHawk.Hawkdev tt (GulHawk.HawkDesc 0 0 [] []) GulHawk.no_stat 15)
    (GulVspa.World tt [] [] [] [] 0 0 None [] false 0)
    (GulDcs.Dcsw tt (GulDcs.DcsGlobals 0 0 0 0 0 0 0) [] [] [] [] []) [] 0.
Definition demo_sysfs : sysfs (subdrivers unit unit unit unit) := Sysfs [] [0; 0] 5 0 1 false demo_subs.

Lemma fpga_read_overruns_witness : @rf_fpga_read_regs _ _ _ (real demo_sub_opts) [16; 5] demo_sysfs = None.
Proof. apply (fpga_read_overruns demo_sub_opts [16; 5] demo_sysfs 16 5); first [reflexivity|lia|vm_compute; lia]. Defined.

Lemma event_report_overruns_witness : ∃ w', @hawk_event_set _ _ _ (real demo_sub_opts) [0; 43] demo_sysfs = Some (zlen [0; 43], w') ∧
  @on_subs _ _ (@show_sub _ (real demo_sub_opts) HawkReport) w' = None.
Proof.
  apply (event_report_overruns (HT := demo_text) demo_sub_opts [0; 43] demo_sysfs 0 43); [reflexivity|vm_compute; discriminate|cbn; lia].
Defined.
