(* ===== verification/AppDevmem.v ===== *)
(** * Reading and writing a place of memory (app/devmem/devmem.c)

    A program of user space that maps the page, or the two pages, around a physical
    address and reads or writes one unit there, once or in a loop.  What is behind the
    mapping is [Bus]: memory, or the registers of a device.  [None] is an access outside
    the mapping, or a character read behind the end of an argument. *)
From S2P Require Import Prelude AppCalTable GulText.
#[global] Open Scope Z_scope.

(** ** Numbers *)

(** [strtoull(s, &end, 0)]: the value, what is left, and whether it was out of range. *)
Definition digit_val (c : Z) : Z :=
  if decide (48 ≤ c ≤ 57) then c - 48 else
  if decide (97 ≤ c ≤ 122) then c - 87 else
  if decide (65 ≤ c ≤ 90) then c - 55 else 36.
Fixpoint digits_of (base : Z) (l : list Z) (v : Z) : Z * list Z :=
  match l with
  | c :: l' => if decide (digit_val c < base) then digits_of base l' (base * v + digit_val c) else (v, l)
  | [] => (v, [])
  end.
Definition is_x (c : Z) : bool := bool_decide (c = 120 ∨ c = 88).
(** The base a number is written in, and where its digits begin. *)
Definition base_of (s : list Z) : Z * list Z :=
  match s with
  | 48 :: x :: c :: l => if is_x x && bool_decide (digit_val c < 16) then (16, c :: l) else (8, s)
  | 48 :: _ => (8, s)
  | _ => (10, s)
  end.
Definition sign (s : list Z) : bool * list Z := match s with 45 :: s => (true, s) | 43 :: s => (false, s) | _ => (false, s) end.
Definition strtoull_any (l : list Z) : Z * list Z * bool :=
  let '(neg, s) := sign (skip_blanks l) in
  let '(base, s) := base_of s in
  match s with
  | c :: _ =>
      if decide (digit_val c < base) then
        let '(v, rest) := digits_of base s 0 in
        if decide (ULLONG_MAX < v) then (ULLONG_MAX, rest, true) else (if neg then u64 (- v) else v, rest, false)
      else (0, l, false)
  | [] => (0, l, false)
  end.
(** The whole argument is a number. *)
Definition number (l : list Z) : option Z :=
  let '(v, rest, range) := strtoull_any l in
  if range : bool then None else match rest with [] => Some v | _ => None end.

(** ** The options *)

(** What [getopt] returns one after the other; for a letter it does not know, the
    argument it is at. *)
Inductive dm_opt := OptR | OptA | OptAbs | OptD | OptL (arg : list Z) | OptV | OptBad (cur : option (list Z)).
Record flags := Flags { f_readback : bool; f_align_check : bool; f_loop : Z }.
Definition help_text : list Z := [45; 45; 104; 101; 108; 112].
Definition vers_text : list Z := [45; 45; 118; 101; 114; 115].
Fixpoint options (l : list dm_opt) (f : flags) : Z + flags :=
  match l with
  | [] => inr f
  | OptR :: l => options l (Flags true (f_align_check f) (f_loop f))
  | OptA :: l => options l (Flags (f_readback f) false (f_loop f))
  | OptL arg :: l => options l (Flags (f_readback f) (f_align_check f) (i32 (strtoull_any arg).1.1))
  | (OptAbs | OptD) :: l => options l f
  | OptV :: _ => inl 0
  | OptBad None :: _ => inl 1
  | OptBad (Some s) :: _ => inl (if decide (s = help_text) then 1 else if decide (take 6 s = vers_text) then 0 else 2)
  end.
Definition flags_0 : flags := Flags false true 1.

(** ** The arguments *)
Definition tolower (c : Z) : Z := if decide (65 ≤ c ≤ 90) then c + 32 else c.
(** The second character is looked at also when the first is the end. *)
Definition access_type (s : list Z) : option Z :=
  match s with [] => None | [c] => Some (tolower c) | _ => Some 63 end.
Definition access_size (t : Z) : option Z :=
  if decide (t = 98) then Some 1 else if decide (t = 104) then Some 2 else
  if decide (t = 119) then Some 4 else if decide (t = 113) then Some 8 else None.
Definition starts_with_digit (s : list Z) : bool := match s with c :: _ => is_digit c | [] => false end.

(** The address, the type if one is given, and the data. *)
Definition arrange (args : list (list Z)) : option (list Z * option (list Z) * option (list Z)) :=
  match args with
  | [a] => Some (a, None, None)
  | [a; t] => Some (if starts_with_digit a then (a, Some t, None) else (t, Some a, None))
  | [a; t; d] => Some (if starts_with_digit a then (a, Some t, Some d) else (t, Some a, Some d))
  | _ => None
  end.

(** ** The access *)
Class Bus (H : Type) := { bus_write : H → Z → Z → Z → H; bus_read : H → Z → Z → H * Z }.

(** How the program ends: by [exit], or with what it wrote and what it read last. *)
Inductive outcome := Exit (code : Z) | Done (written read : option Z).

Section Devmem.
Context {H : Type} `{Bus H} (pagesize : Z).

(** A mapping of [size] bytes of memory from [start] on; an access of [n] bytes at [o]. *)
Record mapping := Mapping { start : Z; size : Z }.
Definition inside (p : mapping) (o n : Z) : bool := bool_decide (0 ≤ o ∧ o + n ≤ size p).
Fixpoint writes (n : nat) (p : mapping) (o sz v : Z) (h : H) : option H :=
  match n with
  | O => Some h
  | S n => if inside p o sz then writes n p o sz v (bus_write h (start p + o) sz v) else None
  end.
Fixpoint reads (n : nat) (p : mapping) (o sz v : Z) (h : H) : option (H * Z) :=
  match n with
  | O => Some (h, v)
  | S n => if inside p o sz then let '(h, v) := bus_read h (start p + o) sz in reads n p o sz v h else None
  end.

(** The page the address is in, and the next one if the access reaches into it. *)
Definition offset_of (target : Z) : Z := Z.land target (pagesize - 1).
Definition map_of (target sz : Z) : mapping :=
  Mapping (Z.ldiff target (pagesize - 1)) (if decide (pagesize < offset_of target + sz) then u32 (pagesize + pagesize) else pagesize).

Definition read_phase (f : flags) (p : mapping) (o sz : Z) (written : option Z) (h : H) : option (outcome * H) :=
  '(h, r) ← reads (Z.to_nat (f_loop f)) p o sz (u64 (-1)) h;
  Some (Done written (Some r), h).
Definition access (f : flags) (p : mapping) (o sz : Z) (data : option (list Z)) (h : H) : option (outcome * H) :=
  match data with
  | None => read_phase f p o sz None h
  | Some d =>
      match number d with
      | None => Some (Exit 2, h)
      | Some v =>
          if decide (sz < 8 ∧ Z.shiftr v (sz * 8) ≠ 0) then Some (Exit 2, h) else
          h ← writes (Z.to_nat (f_loop f)) p o sz v h;
          if f_readback f then read_phase f p o sz (Some v) h else Some (Done (Some v) None, h)
      end
  end.

(** [opened], [mapped]: what [open] and [mmap] say. *)
Definition main (opts : list dm_opt) (args : list (list Z)) (opened mapped : bool) (h : H) : option (outcome * H) :=
  match options opts flags_0 with
  | inl c => Some (Exit c, h)
  | inr f =>
      match arrange args with
      | None => Some (Exit 1, h)
      | Some (a, t, d) =>
          t ← (match t with None => Some 119 | Some s => access_type s end);
          match number a with
          | None => Some (Exit 2, h)
          | Some target =>
              match access_size t with
              | None => Some (Exit 2, h)
              | Some sz =>
                  if decide (u64 (target + sz - 1) < target) then Some (Exit 2, h) else
                  if f_align_check f && bool_decide (Z.land (offset_of target) (sz - 1) ≠ 0) then Some (Exit 2, h) else
                  if negb opened || negb mapped then Some (Exit 1, h) else
                  access f (map_of target sz) (offset_of target) sz d h
              end
          end
      end
  end.
End Devmem.

(** ** Theorems: no access outside the mapping *)

(** The sizes of pages there are, of eight bytes at least. *)
Definition page_ok (pagesize : Z) : Prop := ∃ k, 3 ≤ k ≤ 30 ∧ pagesize = 2 ^ k.

Lemma page_pow k : 0 ≤ k → 2 ^ k - 1 = Z.ones k.
Proof. intros Hk. rewrite Z.ones_equiv. lia. Qed.
Lemma offset_mod P t : page_ok P → offset_of P t = t mod P.
Proof. intros (k & Hk & ->). unfold offset_of. rewrite page_pow by lia. apply Z.land_ones. lia. Qed.
Lemma start_at P t sz : page_ok P → start (map_of P t sz) + offset_of P t = t.
Proof.
  intros Hp. rewrite offset_mod by done. destruct Hp as (k & Hk & ->). cbn [start map_of]. rewrite page_pow by lia.
  rewrite Z.ldiff_ones_r, Z.shiftr_div_pow2, Z.shiftl_mul_pow2 by lia.
  assert (Hd := Z.div_mod t (2 ^ k) ltac:(lia)). lia.
Qed.
Lemma size_cases t sz : access_size t = Some sz → sz = 1 ∨ sz = 2 ∨ sz = 4 ∨ sz = 8.
Proof. unfold access_size. repeat case_decide; intros [= <-]; auto. Qed.
Lemma access_inside P t sz : page_ok P → 1 ≤ sz ≤ 8 → inside (map_of P t sz) (offset_of P t) sz = true.
Proof.
  intros Hp Hs. unfold inside, map_of. cbn [size]. rewrite offset_mod by done. destruct Hp as (k & Hk & ->).
  assert (H8 : 2 ^ 3 ≤ 2 ^ k) by (apply Z.pow_le_mono_r; lia). assert (H30 : 2 ^ k ≤ 2 ^ 30) by (apply Z.pow_le_mono_r; lia).
  change (2 ^ 3) with 8 in H8. change (2 ^ 30) with 1073741824 in H30. generalize dependent (2 ^ k). intros P H8 H30.
  assert (Hm := Z.mod_pos_bound t P ltac:(lia)). apply bool_decide_eq_true_2. case_decide; [|lia]. unfold u32. rewrite (Z.mod_small (P + P)); lia.
Qed.

Section Total.
Context {H : Type} `{Bus H}.
Lemma writes_total n p o sz v (h : H) : inside p o sz = true → ∃ h', writes n p o sz v h = Some h'.
Proof. intros Hi. revert h. induction n as [|n IH]; intros h; cbn [writes]; [by eexists|]. rewrite Hi. apply IH. Qed.
Lemma reads_total n p o sz v (h : H) : inside p o sz = true → ∃ r, reads n p o sz v h = Some r.
Proof.
  intros Hi. revert v h. induction n as [|n IH]; intros v h; cbn [reads]; [by eexists|]. rewrite Hi. destruct (bus_read _ _ _). apply IH.
Qed.
Lemma read_phase_total f p o sz w (h : H) : inside p o sz = true → ∃ r, read_phase f p o sz w h = Some r.
Proof. intros Hi. unfold read_phase. destruct (reads_total (Z.to_nat (f_loop f)) p o sz (u64 (-1)) h Hi) as [[h' r] ->]. by eexists. Qed.
Lemma access_total f p o sz d (h : H) : inside p o sz = true → ∃ r, access f p o sz d h = Some r.
Proof.
  intros Hi. unfold access. destruct d as [d|]; [|by apply read_phase_total]. destruct (number d) as [v|]; [|by eexists].
  case_decide; [by eexists|]. destruct (writes_total (Z.to_nat (f_loop f)) p o sz v h Hi) as [h' ->].
  cbn [mbind option_bind]. destruct (f_readback f); [by apply read_phase_total|by eexists].
Qed.

Lemma access_type_some s : s ≠ [] → ∃ t, access_type s = Some t.
Proof. destruct s as [|c [|c' s]]; [done|by eexists..]. Qed.
Lemma arranged args a t d : Forall (λ s, s ≠ []) args → arrange args = Some (a, t, d) →
  ∃ c, match t with None => Some 119 | Some s => access_type s end = Some c.
Proof.
  intros Hall Harr. destruct t as [t|]; [|by eexists]. apply access_type_some.
  destruct args as [|x [|y [|z [|]]]]; cbn in Harr; [done|done| | |done];
    rewrite !Forall_cons in Hall; destruct (starts_with_digit x); injection Harr as <- <- <-; naive_solver.
Qed.

(** Whatever the options and the arguments, and whatever is behind the mapping, the
    program ends and makes no access outside the pages it has mapped, as long as no
    argument is empty. *)
Theorem devmem_ends (P : Z) (opts : list dm_opt) (args : list (list Z)) (opened mapped : bool) (h : H) :
  page_ok P → Forall (λ s, s ≠ []) args → ∃ out h', main P opts args opened mapped h = Some (out, h').
Proof.
  intros Hp Hargs. unfold main. destruct (options opts flags_0) as [c|f]; [by do 2 eexists|].
  destruct (arrange args) as [[[a t] d]|] eqn:Harr; [|by do 2 eexists].
  destruct (arranged _ _ _ _ Hargs Harr) as [c ->]. cbn [mbind option_bind].
  destruct (number a) as [target|]; [|by do 2 eexists]. destruct (access_size c) as [sz|] eqn:Hs; [|by do 2 eexists].
  apply size_cases in Hs. case_decide; [by do 2 eexists|]. destruct (_ && _); [by do 2 eexists|].
  destruct (_ || _); [by do 2 eexists|].
  destruct (access_total f (map_of P target sz) (offset_of P target) sz d h) as [[out h'] ->]; [|by do 2 eexists].
  apply access_inside; [done|lia].
Qed.
End Total.

(** ** Theorems: over memory *)

(** A byte at every address, and numbers with the lowest byte first. *)
Definition memory := Z → Z.
Fixpoint le_of (n : nat) (m : memory) (a : Z) : Z := match n with O => 0 | S n => m a + 256 * le_of n m (a + 1) end.
Definition put_le (m : memory) (a n v : Z) : memory := λ x, if decide (a ≤ x < a + n) then v / 256 ^ (x - a) mod 256 else m x.
#[export] Instance memory_bus : Bus memory :=
  {| bus_write := put_le; bus_read m a n := (m, le_of (Z.to_nat n) m a) |}.

Lemma le_of_bytes n : ∀ m a v, 0 ≤ v → (∀ i, 0 ≤ i < Z.of_nat n → m (a + i) = v / 256 ^ i mod 256) →
  le_of n m a = v mod 256 ^ Z.of_nat n.
Proof.
  induction n as [|n IH]; intros m a v Hv Hm; cbn [le_of]; [by rewrite Z.mod_1_r|].
  rewrite (IH m (a + 1) (v / 256)).
  - assert (Ha := Hm 0 ltac:(lia)). rewrite Z.add_0_r in Ha. rewrite Ha.
    rewrite Nat2Z.inj_succ, Z.pow_succ_r by lia. change (256 ^ 0) with 1. rewrite Z.div_1_r.
    rewrite Z.rem_mul_r by lia. lia.
  - apply Z.div_pos; lia.
  - intros i Hi. replace (a + 1 + i) with (a + (i + 1)) by lia. rewrite Hm by lia.
    rewrite Z.div_div by lia. by rewrite Z.pow_add_r, Z.mul_comm by lia.
Qed.
Lemma le_of_ext n (m m' : memory) a : (∀ x, m x = m' x) → le_of n m a = le_of n m' a.
Proof. intros E. revert a. induction n as [|n IH]; intros a; cbn [le_of]; [done|]. by rewrite E, IH. Qed.
Lemma read_put m a n v : 0 ≤ n → 0 ≤ v < 256 ^ n → le_of (Z.to_nat n) (put_le m a n v) a = v.
Proof.
  intros Hn Hv. rewrite (le_of_bytes _ _ _ v) by first [lia|intros i Hi; unfold put_le; rewrite decide_True by lia; by rewrite Z.add_simpl_l].
  rewrite Z2Nat.id by lia. apply Z.mod_small. lia.
Qed.
Lemma writes_memory n p o sz v (m m' : memory) : writes n p o sz v m = Some m' →
  ∀ x, m' x = if decide ((0 < n)%nat ∧ start p + o ≤ x < start p + o + sz) then v / 256 ^ (x - (start p + o)) mod 256 else m x.
Proof.
  revert m. induction n as [|n IH]; intros m; cbn [writes].
  - intros [= ->] x. by rewrite decide_False by lia.
  - destruct (inside p o sz); [|done]. intros E x. rewrite (IH _ E). cbn [bus_write memory_bus]. unfold put_le.
    repeat case_decide; first [done|lia].
Qed.
Lemma reads_memory n p o sz v (m m' : memory) r : reads n p o sz v m = Some (m', r) →
  m' = m ∧ r = match n with O => v | S _ => le_of (Z.to_nat sz) m (start p + o) end.
Proof.
  revert v. induction n as [|n IH]; intros v; cbn [reads]; [by intros [= -> ->]|].
  destruct (inside p o sz); [|done]. cbn [bus_read memory_bus]. intros E. apply IH in E as [-> ->]. by destruct n.
Qed.

(** What fits in [sz] bytes is below a power of 256. *)
Lemma fits_below v sz : 0 ≤ v ≤ ULLONG_MAX → sz = 1 ∨ sz = 2 ∨ sz = 4 ∨ sz = 8 → ¬ (sz < 8 ∧ Z.shiftr v (sz * 8) ≠ 0) → v < 256 ^ sz.
Proof.
  intros Hv Hs Hf. destruct (decide (sz = 8)) as [->|Hne]; [unfold ULLONG_MAX in Hv; lia|].
  assert (Hz : Z.shiftr v (sz * 8) = 0) by (destruct (decide (Z.shiftr v (sz * 8) = 0)); [done|destruct Hf; lia]).
  rewrite Z.shiftr_div_pow2 in Hz by lia. apply Z.div_small_iff in Hz; [|lia].
  replace (256 ^ sz) with (2 ^ (sz * 8)); [lia|]. rewrite Z.mul_comm. by rewrite Z.pow_mul_r by lia.
Qed.
Lemma digit_nonneg c : 0 ≤ digit_val c.
Proof. unfold digit_val. repeat case_decide; lia. Qed.
Lemma digits_nonneg base l v : 0 ≤ base → 0 ≤ v → 0 ≤ (digits_of base l v).1.
Proof.
  intros Hb. revert v. induction l as [|c l IH]; intros v Hv; cbn [digits_of]; [done|].
  case_decide; [|done]. apply IH. assert (Hc := digit_nonneg c). nia.
Qed.
Lemma base_nonneg s : 0 ≤ (base_of s).1.
Proof. unfold base_of. repeat (case_match; try done). Qed.
Lemma number_range l v : number l = Some v → 0 ≤ v ≤ ULLONG_MAX.
Proof.
  unfold number, strtoull_any. destruct (sign (skip_blanks l)) as [neg s].
  assert (Hb := base_nonneg s). destruct (base_of s) as [base s']. cbn [fst] in Hb.
  destruct s' as [|c s'']; [by destruct l; intros [= <-]; unfold ULLONG_MAX; lia|].
  case_decide; [|by destruct l; intros [= <-]; unfold ULLONG_MAX; lia].
  assert (Hd := digits_nonneg base (c :: s'') 0 Hb ltac:(lia)). destruct (digits_of base (c :: s'') 0) as [x rest]. cbn [fst] in Hd.
  case_decide; [done|]. destruct rest; [|by destruct neg]. intros [= <-]. unfold ULLONG_MAX, u64 in *.
  destruct neg; [|lia]. assert (Hm := Z.mod_pos_bound (- x) 18446744073709551616 ltac:(lia)). lia.
Qed.

(** On memory, with at least one turn of the loop: what is written is what is read back,
    it is the number given, and the bytes that change are the ones of the unit, which
    then hold the number with its lowest byte first. *)
Theorem devmem_readback (P : Z) (opts : list dm_opt) (args : list (list Z)) (f : flags) (m m' : memory) (w r : Z) :
  page_ok P → options opts flags_0 = inr f → 0 < f_loop f →
  main P opts args true true m = Some (Done (Some w) (Some r), m') →
  ∃ a t d target c sz, arrange args = Some (a, t, Some d) ∧ number a = Some target ∧ number d = Some w ∧
    match t with None => Some 119 | Some s => access_type s end = Some c ∧ access_size c = Some sz ∧
    r = w ∧ w < 256 ^ sz ∧
    ∀ x, m' x = if decide (target ≤ x < target + sz) then w / 256 ^ (x - target) mod 256 else m x.
Proof.
  intros Hp Ho Hl. unfold main. rewrite Ho. destruct (arrange args) as [[[a t] d]|] eqn:Harr; [|done].
  destruct (match t with None => _ | Some s => _ end) as [c|] eqn:Hc; [|done]. cbn [mbind option_bind].
  destruct (number a) as [target|] eqn:Ha; [|done]. destruct (access_size c) as [sz|] eqn:Hs; [|done].
  case_decide; [done|]. destruct (_ && _); [done|]. cbn [negb orb]. unfold access.
  destruct d as [d|]; [|unfold read_phase; destruct (reads _ _ _ _ _ _) as [[? ?]|]; discriminate].
  destruct (number d) as [v|] eqn:Hd; [|done]. case_decide as Hfit; [done|].
  destruct (writes _ _ _ _ _ _) as [m1|] eqn:Hw; [|done]. cbn [mbind option_bind].
  destruct (f_readback f); [|done]. unfold read_phase.
  destruct (reads _ _ _ _ _ _) as [[m2 r2]|] eqn:Hr; [|done]. cbn [mbind option_bind]. intros [= <- <- <-].
  assert (Hsz := size_cases _ _ Hs). assert (Hv := number_range _ _ Hd). assert (Hb := fits_below _ _ Hv Hsz Hfit).
  apply reads_memory in Hr as [-> ->]. assert (Hm := writes_memory _ _ _ _ _ _ _ Hw). rewrite start_at in * by done.
  destruct (Z.to_nat (f_loop f)) as [|n] eqn:Hn; [lia|].
  assert (Hm' : ∀ x, m1 x = put_le m target sz v x).
  { intros x. rewrite Hm. unfold put_le. repeat case_decide; first [done|lia]. }
  exists a, t, d, target, c, sz. split_and!; try done.
  rewrite (le_of_ext _ _ _ _ Hm'). apply read_put; lia.
Qed.

(** Without a turn of the loop, as after [-l 0] or a count that is negative as an [int],
    nothing is accessed, and still all ones are shown as read. *)
Theorem no_turn_shows_ones `{Bus H} (p : mapping) (f : flags) (o sz v : Z) (h : H) (d : list Z) :
  f_loop f ≤ 0 → f_readback f = true → number d = Some v → ¬ (sz < 8 ∧ Z.shiftr v (sz * 8) ≠ 0) →
  access f p o sz (Some d) h = Some (Done (Some v) (Some ULLONG_MAX), h).
Proof.
  intros Hl Hr Hd Hf. unfold access. rewrite Hd, decide_False by done. replace (Z.to_nat (f_loop f)) with 0%nat by lia. cbn [writes mbind option_bind].
  rewrite Hr. unfold read_phase. replace (Z.to_nat (f_loop f)) with 0%nat by lia. reflexivity.
Qed.

(** ** Examples and witnesses *)
Definition zero_memory : memory := λ _, 0.
(** A word across two pages, if its alignment is not looked at. *)
Example across_pages :
  match main 4096 [OptR; OptA] [bytes_of "0x1ffe"; bytes_of "w"; bytes_of "0x11223344"] true true zero_memory with
  | Some (out, m) => out = Done (Some 0x11223344) (Some 0x11223344) ∧ m 0x1ffe = 0x44 ∧ m 0x2001 = 0x11
  | None => False
  end.
Proof. vm_compute. done. Qed.
Example refused :
  fst <$> main 4096 [] [bytes_of "0x1ffe"; bytes_of "w"] true true zero_memory = Some (Exit 2) ∧
  fst <$> main 4096 [] [bytes_of "b"; bytes_of "16"; bytes_of "256"] true true zero_memory = Some (Exit 2) ∧
  fst <$> main 4096 [] [bytes_of "0xffffffffffffffff"; bytes_of "h"] true true zero_memory = Some (Exit 2) ∧
  fst <$> main 4096 [] [bytes_of "16"; bytes_of "Q"] true true zero_memory = Some (Done None (Some 0)).
Proof. split_and!; vm_compute; reflexivity. Qed.
(** An empty address is address 0; an empty type is read past its end. *)
Example empty_arguments :
  fst <$> main 4096 [] [bytes_of ""] true true zero_memory = Some (Done None (Some 0)) ∧
  main 4096 [] [bytes_of "16"; bytes_of ""] true true zero_memory = None.
Proof. split; vm_compute; reflexivity. Qed.

Lemma page_4096 : page_ok 4096.
Proof. exists 12. split; [lia|reflexivity]. Qed.
Lemma devmem_ends_witness : ∃ out h', main 4096 [OptA] [bytes_of "0x1ffe"; bytes_of "w"] true true zero_memory = Some (out, h').
Proof. apply (devmem_ends 4096 [OptA] [bytes_of "0x1ffe"; bytes_of "w"] true true zero_memory page_4096). repeat constructor; discriminate. Defined.
Lemma devmem_readback_witness : ∃ m', main 4096 [OptR] [bytes_of "0x1000"; bytes_of "w"; bytes_of "0x1234"] true true zero_memory =
    Some (Done (Some 0x1234) (Some 0x1234), m') ∧ 0x1234 < 256 ^ 4 ∧ m' 0x1001 = 0x12.
Proof.
  exists (put_le zero_memory 0x1000 4 0x1234). split; [reflexivity|].
  destruct (devmem_readback 4096 [OptR] [bytes_of "0x1000"; bytes_of "w"; bytes_of "0x1234"] (Flags true true 1) zero_memory
    (put_le zero_memory 0x1000 4 0x1234) 0x1234 0x1234 page_4096)
    as (a & t & d & target & c & sz & Harr & Ha & Hd & Hc & Hs & _ & Hb & Hm); [reflexivity|reflexivity|reflexivity|].
  injection Harr as <- <- <-. vm_compute in Ha, Hc. injection Ha as <-. injection Hc as <-. vm_compute in Hs. injection Hs as <-.
  split; [exact Hb|]. rewrite Hm. reflexivity.
Defined.
