(* ===== verification/AppTools.v ===== *)
(** * Small programs over the libraries
      (app/l3locking/l3locking.c, app/modemgpio/modem_gpio_app.c, app/bincreate/bin_create.c)

    Each turns its arguments into one request: of the cache-locking device (GulL3.v), of
    the library of the pins (GulGpio.v), or a file filled with one word.  [None] is a
    NULL argument that is read. *)
From S2P Require Import Prelude GulL3 GulGpio AppCalTable AppDevmem GulText.
#[global] Open Scope Z_scope.

(** ** Numbers *)

(** [strtol(s, NULL, base)], with the nearest value on overflow, and [atoi]. *)
Definition LONG_MAX : Z := 9223372036854775807.
Definition skip_0x (s : list Z) : list Z :=
  match s with 48 :: x :: c :: l => if is_x x && bool_decide (digit_val c < 16) then c :: l else s | _ => s end.
Definition strtol (base : Z) (l : list Z) : Z :=
  let '(neg, s) := sign (skip_blanks l) in
  let v := fst (digits_of base (if decide (base = 16) then skip_0x s else s) 0) in
  if neg : bool then Z.max (- v) (- LONG_MAX - 1) else Z.min v LONG_MAX.
Definition atoi (l : list Z) : Z := i32 (strtol 10 l).
Example numbers : atoi (bytes_of "  -12x") = -12 ∧ atoi (bytes_of "4294967295") = -1 ∧ atoi (bytes_of "x") = 0 ∧
  strtol 16 (bytes_of "0x80000000") = 0x80000000 ∧ strtol 16 (bytes_of "ffffffffffffffff") = LONG_MAX.
Proof. split_and!; vm_compute; reflexivity. Qed.

(** ** Locking cache ways *)
Module L3Locking.
Section L3.
Context `{L3Calls}.

(** What [getopt_long] returns: the number of an option with its argument, or an error. *)
Inductive l3_opt := L3Opt (n : nat) (arg : list Z) | L3Bad.
Definition set_opt (n : nat) (s : list Z) (a : cache_locking_data) : cache_locking_data :=
  match n with
  | 0%nat => Locking (atoi s) (ways a) (base0 a) (base1 a) (base2 a) (base3 a)
  | 1%nat => Locking (enable a) (atoi s) (base0 a) (base1 a) (base2 a) (base3 a)
  | 2%nat => Locking (enable a) (ways a) (u64 (strtol 16 s)) (base1 a) (base2 a) (base3 a)
  | 3%nat => Locking (enable a) (ways a) (base0 a) (u64 (strtol 16 s)) (base2 a) (base3 a)
  | 4%nat => Locking (enable a) (ways a) (base0 a) (base1 a) (u64 (strtol 16 s)) (base3 a)
  | _ => Locking (enable a) (ways a) (base0 a) (base1 a) (base2 a) (u64 (strtol 16 s))
  end.
(** The loop ends before the next option once unlocking is asked for. *)
Fixpoint read_options (l : list l3_opt) (a : cache_locking_data) : option cache_locking_data :=
  match l with
  | [] => Some a
  | o :: l =>
      if decide (enable a = 0 ∧ ways a ≠ -1) then Some a else
      match o with L3Opt n s => read_options l (set_opt n s a) | L3Bad => None end
  end.
Definition no_options : cache_locking_data := Locking (-1) (-1) 0 0 0 0.

Definition l3locking_main (opts : list l3_opt) (opened : bool) : M (list l3_call) Z :=
  match read_options opts no_options with
  | None => mret (-1)
  | Some a =>
      if decide (enable a = -1 ∨ ways a = -1) then mret (-1) else
      if negb opened then mret (-1) else
      ret ← cache_locking_ioctl CACHE_LOCKING_IOC true false a;
      mret (if decide (ret ≠ 0) then -1 else 0)
  end.

(** The program ends with 0 exactly when the firmware was called once, soundly, and
    granted the request; otherwise it ends with -1, after one call at most. *)
Theorem l3_tool (opts : list l3_opt) (opened : bool) (l : list l3_call) : ∃ r l', l3locking_main opts opened l = Some (r, l') ∧
  ((r = 0 ∧ ∃ regs, l' = l ++ [Smc regs] ∧ call_ok (Smc regs) ∧ smc_x1 l regs = 0) ∨
   (r = -1 ∧ (l' = l ∨ ∃ regs, l' = l ++ [Smc regs] ∧ call_ok (Smc regs) ∧ smc_x1 l regs ≠ 0))).
Proof.
  unfold l3locking_main. destruct (read_options opts no_options) as [a|]; [|by do 2 eexists; split; [reflexivity|auto]].
  case_decide; [by do 2 eexists; split; [reflexivity|auto]|]. destruct opened; [|by do 2 eexists; split; [reflexivity|auto]].
  cbn [negb]. unfold cache_locking_ioctl. rewrite decide_False by done. cbn [negb].
  case_decide as He; rewrite M_bind_eq.
  - destruct (enable_spec (u32 (ways a)) (base0 a) (base1 a) (base2 a) (base3 a) l) as (r & l' & -> & [[-> ->]|(regs & Eregs & -> & Hok & _ & ->)]).
    + do 2 eexists. split; [reflexivity|]. auto.
    + cbn [mret M_ret]. do 2 eexists. split; [reflexivity|]. destruct (decide (smc_x1 _ _ = 0)) as [Hz|Hz].
      * rewrite decide_False by lia. left. split; [done|]. exists regs. split_and!; [done|by left|done].
      * rewrite decide_True by lia. right. split; [done|]. right. exists regs. split_and!; [done|by left|done].
  - unfold disable_l3_cache_locking, configure, smc_call. rewrite M_bind_eq. cbn [mret M_ret].
    do 2 eexists. split; [reflexivity|]. destruct (decide (smc_x1 _ _ = 0)) as [Hz|Hz].
    + rewrite decide_False by lia. left. split; [done|]. eexists. split_and!; [done|by right|done].
    + rewrite decide_True by lia. right. split; [done|]. right. eexists. split_and!; [done|by right|done].
Qed.

(** Locking without a word of what is to be locked is granted as well: a region that is
    not given is address 0, which counts as absent. *)
Theorem locks_without_bases (l : list l3_call) : (∀ l r, smc_x1 l r = 0) →
  l3locking_main [L3Opt 0 (bytes_of "1"); L3Opt 1 (bytes_of "4")] true l = Some (0, l ++ [Smc (Regs 0xC204FF20 0 0 0 0)]).
Proof.
  intros Hs. unfold l3locking_main. replace (read_options _ _) with (Some (Locking 1 4 0 0 0 0)) by (vm_compute; reflexivity).
  assert (Hv : ∀ n, is_valid 0 n = true) by (intros n; apply orb_true_r).
  rewrite decide_False by (cbn; lia). cbn [negb]. unfold cache_locking_ioctl. rewrite decide_False by done. cbn [negb].
  rewrite decide_True by (cbn; lia). cbn [ways base0 base1 base2 base3]. change (u32 4) with 4. unfold enable_l3_cache_locking.
  rewrite decide_False by lia. cbn [region_sizes]. destruct (region_sizes 4) as [s1 s2].
  rewrite !Hv. do 4 rewrite decide_False by (intros [_ ?]; done). unfold configure, smc_call. rewrite !M_bind_eq. 
  cbn [mret M_ret]. by rewrite Hs.
Qed.
End L3.
End L3Locking.

(** ** Driving a pin *)
Module ModemGpio.
Section Gpio.
Context `{GpioSys}.

Local Abbreviation P := (M pins).
Inductive request := Init (ctrl pin dir : Z) | SetData (ctrl pin val : Z) | GetData (ctrl : Z).
(** The number of the modem is read, but not looked at.  [None]: the text of the usage
    is shown and the program ends; the outer [None] is [atoi(NULL)]. *)
Definition validate_cli_args (args : list (list Z)) : option (option request) :=
  match args with
  | [] => Some None
  | m :: rest =>
      if decide (m = [45; 104] ∨ m = [45; 72]) then Some None else
      match rest with
      | [] => None
      | api :: rest => Some (
          if decide (atoi api = 1) then
            match rest with [c; p; d] => Some (Init (i32 (atoi c - 1)) (u8 (atoi p)) (atoi d)) | _ => None end
          else if decide (atoi api = 2) then
            match rest with [c; p; v] => Some (SetData (i32 (atoi c - 1)) (u8 (atoi p)) (u32 (atoi v))) | _ => None end
          else if decide (atoi api = 3) then
            match rest with [c] => Some (GetData (i32 (atoi c - 1))) | _ => None end
          else None)
      end
  end.
(** A direction the library does not know is the last one. *)
Definition gpio_dir (d : Z) : gpio_type := if decide (d = 0) then GPIO_INPUT else if decide (d = 1) then GPIO_OUTPUT else GPIO_OPENDRAIN.

(** The result, and the value that is shown. *)
Definition run_request (q : request) : P (Z * option Z) :=
  match q with
  | Init c p d => r ← lib_modem_gpio_init c p (gpio_dir d); mret (r, None)
  | SetData c p v => r ← lib_modem_gpio_setdata c p v; mret (r, None)
  | GetData c => lib_modem_gpio_getdata c
  end.
Definition modem_gpio_main (args : list (list Z)) : P (Z * option Z) :=
  q ← lift (validate_cli_args args);
  match q with
  | None => mret (0, None)
  | Some q =>
      rc ← lib_open_modem_gpio (atoi (hd [] args));
      if decide (rc ≠ 0) then mret (-1, None) else
      '(_, shown) ← run_request q;
      rc ← lib_close_modem_gpio;
      mret (if decide (rc ≠ 0) then (-1, None) else (0, shown))
  end.

Lemma main_runs args q w r m : willing → long_enough (atoi (hd [] args)) → validate_cli_args args = Some (Some q) →
  (∀ l, ready l ((ccsr (atoi (hd [] args))).1 + GPIO_BASE_ADDR) → run_request q (Pins l (words w)) = Some (r, Pins l m)) →
  ∃ l, modem_gpio_main args w = Some ((0, r.2), Pins l m).
Proof.
  intros Hw Hlong Hq Hr. unfold modem_gpio_main. rewrite Hq, M_bind_eq. cbn [lift]. rewrite M_bind_eq. destruct w as [l0 m0]. cbn [words] in Hr.
  destruct (open_ready (atoi (hd [] args)) l0 m0 Hw Hlong) as (l1 & -> & Hready).
  rewrite decide_False by lia. rewrite M_bind_eq, (Hr l1 Hready). destruct r as [r shown]. rewrite M_bind_eq.
  destruct (close_willing l1 m Hw) as [l2 ->]. by eexists.
Qed.

(** C40: Three runs of the pin tool, one after the other, for one modem (whose number is
    not the text -h or -H), a controller 1 to 4 and a pin 0 to 31: the pin is made an
    output, driven, and the data of its controller shown. On a system where every open,
    ioctl, mmap and munmap succeeds and the registers of the modem are long enough, the
    tool reaches the registers through the mapping it made of that modem's physical
    memory: the words at the base of the pins, by controller, get the bit of the pin set
    in the direction and input-buffer registers and as asked in the data register, which
    is what is shown; no other word of the physical memory changes. (A pin number past
    255 is cut to eight bits before it is checked: [pin_256].) *)
Theorem gpio_tool_drives (id c p v : list Z) (w : pins) :
  willing → long_enough (atoi id) → id ∉ [[45; 104]; [45; 72]] → 1 ≤ atoi c ≤ 4 → 0 ≤ atoi p ≤ 31 →
  let R r := (ccsr (atoi id)).1 + GPIO_BASE_ADDR + (atoi c - 1) * GPIO_REG_OFFSET + reg_offset r in
  let b := Z.shiftl 1 (31 - atoi p) in
  ∃ w' d, (_ ← modem_gpio_main [id; bytes_of "1"; c; p; bytes_of "1"]; _ ← modem_gpio_main [id; bytes_of "2"; c; p; v]; modem_gpio_main [id; bytes_of "3"; c]) w =
    Some ((0, Some d), w') ∧
    d = (if decide (u32 (atoi v) ≠ 0) then Z.lor (words w (R gp_dat)) b else clear_bits (words w (R gp_dat)) b) ∧
    Z.testbit d (31 - atoi p) = bool_decide (u32 (atoi v) ≠ 0) ∧
    ∀ a, words w' a = if decide (a = R gp_dir ∨ a = R gp_ibe) then Z.lor (words w a) b
                      else if decide (a = R gp_dat) then d else words w a.
Proof.
  intros Hw Hlong Hid Hc Hp R b. assert (Hg : 0 ≤ atoi c - 1 ≤ 3) by lia. rewrite !not_elem_of_cons in Hid.
  assert (Hni : ¬ (id = [45; 104] ∨ id = [45; 72])) by tauto.
  assert (Hi : i32 (atoi c - 1) = atoi c - 1) by wrap_lia. assert (Hu : u8 (atoi p) = atoi p) by wrap_lia.
  set (A := (ccsr (atoi id)).1 + GPIO_BASE_ADDR) in *. change R with (reg_addr A (atoi c - 1)) in *. clear R.
  set (R := reg_addr A (atoi c - 1)) in *.
  set (m1 := put (R gp_ibe) (Z.lor (words w (R gp_ibe)) b) (put (R gp_dir) (Z.lor (words w (R gp_dir)) b) (words w))).
  assert (Hne : R gp_dir ≠ R gp_ibe ∧ R gp_dat ≠ R gp_ibe ∧ R gp_dat ≠ R gp_dir) by (unfold R, reg_addr; cbn [reg_offset]; lia).
  destruct Hne as (N1 & N2 & N3).
  destruct (main_runs [id; bytes_of "1"; c; p; bytes_of "1"] (Init (atoi c - 1) (atoi p) 1) w (0, None) m1) as [l1 R1]; [done|done| | |].
  { cbn. rewrite decide_False by done. by rewrite Hi, Hu. }
  { intros l Hl. cbn [run_request hd] in *. rewrite M_bind_eq. change (gpio_dir 1) with GPIO_OUTPUT.
    by rewrite (lib_init_ready l A). }
  assert (Hdir : Z.testbit (m1 (R gp_dir)) (31 - atoi p) = true).
  { unfold m1, put. rewrite decide_False, decide_True by done. unfold b. rewrite or_bit, bool_decide_eq_true_2 by (done || lia). apply orb_true_r. }
  set (d := if decide (u32 (atoi v) ≠ 0) then Z.lor (words w (R gp_dat)) b else clear_bits (words w (R gp_dat)) b).
  assert (Hdat : m1 (R gp_dat) = words w (R gp_dat)) by (unfold m1, put; by rewrite !decide_False by done).
  destruct (main_runs [id; bytes_of "2"; c; p; v] (SetData (atoi c - 1) (atoi p) (u32 (atoi v))) (Pins l1 m1) (0, None) (put (R gp_dat) d m1))
    as [l2 R2]; [done|done| | |].
  { cbn. rewrite decide_False by done. by rewrite Hi, Hu. }
  { intros l Hl. cbn [run_request hd words] in *. rewrite M_bind_eq, (lib_setdata_ready l A) by done.
    unfold d. rewrite <- Hdat. reflexivity. }
  destruct (main_runs [id; bytes_of "3"; c] (GetData (atoi c - 1)) (Pins l2 (put (R gp_dat) d m1)) (0, Some d) (put (R gp_dat) d m1))
    as [l3 R3]; [done|done| | |].
  { cbn. rewrite decide_False by done. by rewrite Hi. }
  { intros l Hl. cbn [run_request hd words] in *. rewrite (lib_getdata_ready l A) by done.
    change (reg_addr A (atoi c - 1) gp_dat) with (R gp_dat). unfold put at 1. by rewrite decide_True. }
  exists (Pins l3 (put (R gp_dat) d m1)), d. rewrite M_bind_eq, R1, M_bind_eq, R2. split; [exact R3|]. split; [done|]. split.
  - unfold d. case_decide as Hv.
    + rewrite bool_decide_eq_true_2 by done. unfold b. rewrite or_bit, bool_decide_eq_true_2 by (done || lia). apply orb_true_r.
    + rewrite bool_decide_eq_false_2 by (intros Hn; by apply Hn). unfold b. rewrite clear_bit, bool_decide_eq_true_2 by (done || lia). apply andb_false_r.
  - intros a. cbn [words]. unfold put, m1, put. repeat case_decide; subst; try done; naive_solver.
Qed.

(** The number of a pin is cut to eight bits before it is looked at: pin 256 is pin 0. *)
Example pin_256 : validate_cli_args (bytes_of <$> ["0"; "1"; "1"; "256"; "1"]) = Some (Some (Init 0 0 1)).
Proof. reflexivity. Qed.
(** The number of the modem alone is answered by a read through NULL. *)
Example one_argument : validate_cli_args [bytes_of "0"] = None.
Proof. reflexivity. Qed.
End Gpio.
End ModemGpio.

(** ** A file of one word *)
Module BinCreate.

(** [sscanf] with [%d] and [%x] into 32 bits: without a digit nothing is stored. *)
Definition has_digit (base : Z) (s : list Z) : bool :=
  match snd (sign (skip_blanks s)) with c :: _ => bool_decide (digit_val c < base) | [] => false end.
Definition scan (base : Z) (s : list Z) : option Z := if has_digit base s then Some (u32 (strtol base s)) else None.

Definition word_bytes (v : Z) : list Z := [v mod 256; v / 256 mod 256; v / 65536 mod 256; v / 16777216 mod 256].
(** The loop, from word [i] on. *)
Fixpoint fill (n : nat) (i v : Z) (b : buffer) : option buffer :=
  match n with
  | O => Some b
  | S n => b ← blit b (4 * i) (Prelude.init (word_bytes v)); fill n (i + 1) v b
  end.
Definition MAX_SIZE : Z := 0x10000.
(** [opened], [allocated]: what [open] and [malloc] say.  The result, and the content
    of the file if it was opened; [None] is a number that was never stored. *)
Definition bin_create_main (args : list (list Z)) (opened allocated : bool) : option (Z * option buffer) :=
  match args with
  | _ :: s :: v :: _ =>
      if negb opened then Some (1, None) else
      size ← scan 10 s;
      if decide (MAX_SIZE < size) then Some (1, Some []) else
      if negb allocated then Some (1, Some []) else
      v ← scan 16 v;
      b ← fill (Z.to_nat (size / 4)) 0 v (undef size);
      Some (0, Some b)
  | _ => Some (1, None)
  end.

Lemma fill_words v : ∀ n i (done_ rest : buffer), zlen done_ = 4 * i →
  fill n i v (done_ ++ undef (4 * Z.of_nat n) ++ rest) = Some (done_ ++ Prelude.init (concat (replicate n (word_bytes v))) ++ rest).
Proof.
  induction n as [|n IH]; intros i done_ rest Hi; [done|]. cbn [fill].
  replace (undef (4 * Z.of_nat (S n))) with (undef 4 ++ undef (4 * Z.of_nat n))
    by (unfold undef; rewrite <- replicate_add; f_equal; lia).
  rewrite <- app_assoc. rewrite (blit_exact done_ (undef 4) _ _ (4 * i)) by done. cbn [mbind option_bind].
  rewrite app_assoc. rewrite IH.
  - cbn [replicate concat]. rewrite init_app. by rewrite <- !app_assoc.
  - unfold zlen in *. rewrite length_app, length_init. cbn [word_bytes length]. lia.
Qed.

(** Of a size that is asked for, up to 64 KiB, the file holds as many copies of the word
    as fit; the bytes left over are what [malloc] gave. *)
Theorem bin_file (name s v : list Z) (more : list (list Z)) (size val : Z) :
  scan 10 s = Some size → scan 16 v = Some val → size ≤ MAX_SIZE →
  bin_create_main (name :: s :: v :: more) true true =
    Some (0, Some (Prelude.init (concat (replicate (Z.to_nat (size / 4)) (word_bytes val))) ++ undef (size mod 4))).
Proof.
  intros Hs Hv Hle. cbn [bin_create_main negb]. rewrite Hs, Hv. cbn [mbind option_bind]. rewrite decide_False by lia.
  assert (H0 : 0 ≤ size) by (revert Hs; unfold scan; case_match; [|done]; intros [= <-]; unfold u32; apply Z.mod_pos_bound; lia).
  assert (Hq := Z.div_pos size 4 H0 ltac:(lia)). assert (Hm := Z.mod_pos_bound size 4 ltac:(lia)).
  assert (E := Z.div_mod size 4 ltac:(lia)).
  replace (undef size) with ([] ++ undef (4 * Z.of_nat (Z.to_nat (size / 4))) ++ undef (size mod 4)).
  - rewrite fill_words by done. reflexivity.
  - cbn [app]. unfold undef. rewrite <- replicate_add. f_equal. lia.
Qed.
End BinCreate.

(** ** Witnesses *)
Definition t_gpio_sys : GpioSys := {| gsys _ _ := 3; ccsr m := (0x9400000000 + m * 0x10000000, 0x4000000) |}.
Lemma gpio_tool_drives_witness : let _ := t_gpio_sys in
  ∃ w' d, (_ ← ModemGpio.modem_gpio_main (bytes_of <$> ["1"; "1"; "2"; "5"; "1"]); _ ← ModemGpio.modem_gpio_main (bytes_of <$> ["1"; "2"; "2"; "5"; "1"]);
    ModemGpio.modem_gpio_main (bytes_of <$> ["1"; "3"; "2"])) (Pins (GpioLib 0 0 0 0 []) (λ _, 0)) = Some ((0, Some d), w') ∧
    d = 0x4000000 ∧ words w' 0x9411134000 = 0x4000000.
Proof.
  intros sys. destruct (ModemGpio.gpio_tool_drives (H := sys) (bytes_of "1") (bytes_of "2") (bytes_of "5") (bytes_of "1")
    (Pins (GpioLib 0 0 0 0 []) (λ _, 0))) as (w' & d & E & Hd & _ & Hm).
  - intros h. split_and!; intros; discriminate.
  - discriminate.
  - rewrite !not_elem_of_cons. split_and!; [discriminate..|apply not_elem_of_nil].
  - split; vm_compute; discriminate.
  - split; vm_compute; discriminate.
  - exists w', d. split; [exact E|]. split; [exact Hd|]. rewrite Hm. reflexivity.
Defined.
Lemma bin_file_witness : BinCreate.bin_create_main (bytes_of <$> ["f"; "10"; "0xa1b2"]) true true =
  Some (0, Some (Prelude.init [0xb2; 0xa1; 0; 0; 0xb2; 0xa1; 0; 0] ++ undef 2)).
Proof. refine (BinCreate.bin_file (bytes_of "f") (bytes_of "10") (bytes_of "0xa1b2") [] 10 0xa1b2 _ _ _); [reflexivity|reflexivity|unfold BinCreate.MAX_SIZE; lia]. Defined.
