(* ===== verification/AppUsim.v ===== *)
(** * The test program of the card library (app/usim_app/test_app.c)

    It reads commands from its input, one a line, and for some of them further words,
    and calls the library of UsimLib.v, UsimAuth.v and UsimEvent.v, with blocks of its
    own for the answers.  [None] is undefined behaviour: a word longer than its array, a
    length past the end of a block. *)
From S2P Require Import Prelude Aka UsimApdu UsimLib UsimAuth UsimEvent UsimLibCorrect UsimScript UsimEventCorrect GulImage AppCalTable AppDevmem AppTools GulText.
#[global] Open Scope Z_scope.

(** ** Input *)

(** [strlen] of an array. *)
Fixpoint strlen (b : buffer) : option Z :=
  match b with
  | [] => None
  | c :: b => c ← c; if decide (c = 0) then Some 0 else n ← strlen b; Some (n + 1)
  end.
Definition is_newline (c : Z) : bool := bool_decide (c = 10).
Fixpoint take_while (f : Z → bool) (l : list Z) : list Z :=
  match l with c :: l => if f c then c :: take_while f l else [] | [] => [] end.
(** [scanf("%ns")] and [scanf(" %255[^\n]")]: [None] at the end of the input, otherwise
    what was read, and what is left. *)
Definition scan_word (n : nat) (l : list Z) : option (list Z * list Z) :=
  let l := skip_blanks l in
  match l with [] => None | _ => let s := take n (take_while (λ c, negb (is_blank c)) l) in Some (s, drop (length s) l) end.
Definition scan_line (l : list Z) : option (list Z * list Z) :=
  let l := skip_blanks l in
  match l with [] => None | _ => let s := take 255 (take_while (λ c, negb (is_newline c)) l) in Some (s, drop (length s) l) end.

(** [sscanf(pos, "%2hhx", &x)]: without a digit [x] keeps what it held. *)
Definition scan_byte (s : list Z) (old : option Z) : option Z :=
  if BinCreate.has_digit 16 (take 2 s) then Some (u8 (strtol 16 (take 2 s))) else old.
(** The loop over the pairs of a word. *)
Fixpoint scan_bytes (old : buffer) (s : list Z) : buffer :=
  match old with [] => [] | x :: old => scan_byte s x :: scan_bytes old (drop 2 s) end.

(** ** State *)

(** The variables of [main] that the words are stored in; each keeps its content from
    one command to the next. *)
Inductive var := VRid | VPlmn | VUac | VGuti | VTac | VKsi | VKamf | VUl | VDl | VId | VEpsId | VSeaf | VAusf
  | VRandom | VAutn | VKey | VOpc.
#[export] Instance var_eq : EqDecision var.
Proof. solve_decision. Defined.
Definition var_size (v : var) : nat :=
  match v with
  | VRid => 2 | VPlmn | VTac => 3 | VUac | VUl | VDl => 4 | VGuti => 13 | VKsi | VId | VEpsId => 1
  | VKamf | VSeaf | VAusf => 32 | VRandom | VAutn | VKey | VOpc => 16
  end%nat.

(** What is shown: bytes as they lie in memory, which may never have been stored, and
    numbers. *)
Inductive item := Bytes (b : buffer) | Num (n : Z).

Record tool (E : Type) := Tool {
  ses : sess E; auth : auth_state; stdin : list Z; data : buffer; plmn_char : buffer; vars : var → buffer;
  dir_fileid : Z; shown : list item }.
Arguments Tool {E}. Arguments ses {E}. Arguments auth {E}. Arguments stdin {E}. Arguments data {E}.
Arguments plmn_char {E}. Arguments vars {E}. Arguments dir_fileid {E}. Arguments shown {E}.

Section Tool.
(** [junk] is what the length of a structure holds that was never stored. *)
Context {E : Type} `{SessEnv E} (junk : Z).
Local Abbreviation T := (M (tool E)).

Definition set_ses (s : sess E) (w : tool E) : tool E :=
  Tool s (auth w) (stdin w) (data w) (plmn_char w) (vars w) (dir_fileid w) (shown w).
Definition set_auth (a : auth_state) (w : tool E) : tool E :=
  Tool (ses w) a (stdin w) (data w) (plmn_char w) (vars w) (dir_fileid w) (shown w).
Definition set_stdin (l : list Z) (w : tool E) : tool E :=
  Tool (ses w) (auth w) l (data w) (plmn_char w) (vars w) (dir_fileid w) (shown w).
Definition set_data (b : buffer) (w : tool E) : tool E :=
  Tool (ses w) (auth w) (stdin w) b (plmn_char w) (vars w) (dir_fileid w) (shown w).
Definition set_plmn_char (b : buffer) (w : tool E) : tool E :=
  Tool (ses w) (auth w) (stdin w) (data w) b (vars w) (dir_fileid w) (shown w).
Definition set_var (v : var) (b : buffer) (w : tool E) : tool E :=
  Tool (ses w) (auth w) (stdin w) (data w) (plmn_char w) (λ x, if decide (x = v) then b else vars w x) (dir_fileid w) (shown w).
Definition set_dir (d : Z) (w : tool E) : tool E :=
  Tool (ses w) (auth w) (stdin w) (data w) (plmn_char w) (vars w) d (shown w).
Definition show (i : item) : T unit := modify (λ w,
  Tool (ses w) (auth w) (stdin w) (data w) (plmn_char w) (vars w) (dir_fileid w) (shown w ++ [i])).

Definition on_sess {A} (m : M (sess E) A) : T A := λ w,
  match m (ses w) with Some (a, s) => Some (a, set_ses s w) | None => None end.
Definition on_vtq {A} (m : M (vtq E) A) : T A := on_sess (on_lib m).

(** [hex_dump], whose length is an [int]: nothing for a negative one. *)
Definition hex_dump (b : buffer) (n : Z) : T unit :=
  l ← lift (if decide (i32 n ≤ 0) then Some [] else sub b 0 (i32 n)); show (Bytes l).
Definition dump_tlv (t : tlv) : T unit := hex_dump (t_value t) (t_length t).
Fixpoint each {A} (f : A → T unit) (l : list A) : T unit :=
  match l with [] => mret tt | x :: l => _ ← f x; each f l end.

(** A block of [malloc], in a structure whose other members were never stored. *)
Definition fresh (n : Z) : tlv := Tlv junk junk (undef n).
Definition var_now (v : var) : T buffer := gets (λ w, vars w v).

(** ** Reading files *)
Definition read_nasconfig : T unit :=
  '(ret, fs) ← on_vtq (vtq_usim_read_nasconfig (replicate 14 (fresh 4)) 1024);
  if decide (ret < 0) then mret tt else each dump_tlv fs.

(** With [debug] the schemes are shown, whatever the result. *)
Fixpoint show_schemes (n : nat) (i : Z) (s : suci_info) : T unit :=
  match n with
  | O => mret tt
  | S n =>
      _ ← show (Num (num_schemes s));
      id ← lift (sub (pub_key_id s) i 1); _ ← show (Bytes id);
      len ← lift (rd (pub_key_len s) i); _ ← show (Num len);
      k ← lift (pub_key s !! Z.to_nat i); _ ← hex_dump k len;
      show_schemes n (i + 1) s
  end.
Definition read_suci : T unit :=
  ret ← on_vtq vtq_usim_read_check_suci;
  if decide (ret = 0) then
    '(_, s) ← on_vtq (vtq_usim_read_suci_calc_info (SuciInfo junk (undef 16) (undef 16) (undef 16) (replicate 16 (undef 128))) 1024);
    dbg ← gets (λ w, debug (ses w));
    if decide (dbg ≠ 0) then
      _ ← show (Num (num_schemes s)); show_schemes (Z.to_nat (num_schemes s)) 0 s
    else mret tt
  else
    '(_, v) ← on_vtq (vtq_usim_read_suci (Lv junk (zeros 256)) 1024);
    _ ← show (Num (lv_length v)); hex_dump (lv_value v) (lv_length v).

Definition read_op_plmn : T unit :=
  '(ret, o) ← on_vtq (vtq_usim_read_op_plmn (OpPlmn (undef 3) (undef 3) (undef 3) junk));
  if decide (ret = 0) then
    _ ← hex_dump (op_plmn_id o) 3; _ ← hex_dump (start_tac o) 3; _ ← hex_dump (end_tac o) 3; show (Num (pnn_id o))
  else mret tt.

Definition read_rid : T unit :=
  '(ret, rid) ← on_vtq (vtq_usim_read_rid 0);
  if decide (ret = 0) then show (Num rid) else mret tt.
Definition write_rid (rid : Z) : T unit := _ ← on_vtq (vtq_usim_write_rid rid); mret tt.

Definition read_imsi : T unit :=
  '(ret, v) ← on_vtq (vtq_usim_read_imsi (Lv junk (undef USIM_IMSI_LENGTH)));
  if decide (ret = 0) then _ ← show (Num (lv_length v)); hex_dump (lv_value v) (lv_length v) else mret tt.

(** The five tables: the number of rows, then the rows into an array of 300. *)
Definition rows_0 : list plmn_row := replicate (Z.to_nat USIM_PLMN_MAX_LENGTH) (Row (undef 3) (undef 2)).
Definition read_table (count : Z → M (vtq E) (Z * Z)) (rows : list plmn_row → Z → M (vtq E) (Z * list plmn_row))
    (act : bool) : T unit :=
  '(ret, n) ← on_vtq (count 0);
  if decide (ret ≠ 0) then mret tt else
  _ ← show (Num n);
  '(ret, rs) ← on_vtq (rows rows_0 n);
  if decide (ret ≠ 0) then mret tt else
  each (λ r, _ ← hex_dump (plmn_id r) 3; if act then show (Bytes (act_id r)) else mret tt) (take (Z.to_nat n) rs).
Definition read_hplmnact : T unit := read_table vtq_usim_read_hplmnact_list_count vtq_usim_read_hplmnact true.
Definition read_ehplmn : T unit := read_table vtq_usim_read_ehplmn_list_count vtq_usim_read_ehplmn false.
Definition read_user_plmnact : T unit := read_table vtq_usim_read_user_plmnact_list_count vtq_usim_read_uplmnact true.
Definition read_op_plmnact : T unit := read_table vtq_usim_read_opc_plmnact_list_count vtq_usim_read_opc_plmnact true.
Definition read_fplmn : T unit := read_table vtq_usim_read_forbidden_plmn_list_count vtq_usim_read_forbidden_plmns false.

Definition append_fplmn (fplmnid : buffer) : T unit :=
  id ← lift (rd_bytes fplmnid 0 3); _ ← on_vtq (vtq_usim_append_forbidden_plmns [id]); mret tt.
Definition delete_fplmn (fplmnid : buffer) : T unit :=
  id ← lift (rd_bytes fplmnid 0 3); _ ← on_vtq (vtq_usim_delete_forbidden_plmns [id]); mret tt.

(** A field is shown if its tag is the one expected. *)
Definition show_tagged (tag : Z) (t : tlv) : T unit :=
  if decide (t_tag t = tag) then _ ← show (Num (t_length t)); dump_tlv t else mret tt.
Definition read_plmn_nn : T unit :=
  '(ret, ns) ← on_vtq (vtq_usim_read_plmn_nn [fresh 256; fresh 256] 1024);
  if decide (ret ≠ 0) then mret tt else
  match ns with [full; short] => _ ← show_tagged 0x43 full; show_tagged 0x45 short | _ => mret tt end.

Definition read_uac : T unit :=
  '(ret, b) ← on_vtq (vtq_usim_read_uac (undef 4));
  if decide (ret = 0) then hex_dump b 4 else mret tt.
Definition write_uac (uac_val : buffer) : T unit :=
  b ← lift (memcpy (undef 4) 0 uac_val 0 4); _ ← on_vtq (vtq_usim_write_uac b); show (Bytes b).
Definition read_acc : T unit :=
  '(ret, b) ← on_vtq (vtq_usim_read_acc (undef 2));
  if decide (ret = 0) then hex_dump b 2 else mret tt.

Definition read_5gs_loc_info : T unit :=
  '(ret, l) ← on_vtq (vtq_usim_read_5gs_loc_info (LocInfo (undef 13) (undef 3) (undef 3) None));
  if decide (ret ≠ 0) then mret tt else
  _ ← hex_dump (guti l) 13; _ ← hex_dump (tai_plmn l) 3; _ ← hex_dump (tai_tac l) 3; show (Bytes [status_update l]).
Definition write_5gs_loc_info (g t p : buffer) : T unit :=
  g' ← lift (memcpy (undef 13) 0 g 0 13); t' ← lift (memcpy (undef 3) 0 t 0 3); p' ← lift (memcpy (undef 3) 0 p 0 3);
  _ ← on_vtq (vtq_usim_write_5gs_loc_info (LocInfo g' p' t' (Some 0)));
  _ ← hex_dump g 13; _ ← hex_dump t 3; hex_dump p 3.

(** A field is shown if its length is one the block has room for. *)
Definition dump_within (t : tlv) (room : Z) : T unit :=
  if decide (0 < t_length t ∧ t_length t ≤ room) then dump_tlv t else mret tt.
Definition sec_rooms : list Z := [1; 32; 4; 4; 1; 1].
Definition blank_context : nas_sec_ctx := SecCtx junk junk (fresh <$> sec_rooms).
Definition show_context (c : nas_sec_ctx) : T unit := each (λ p, dump_within (fst p) (snd p)) (zip (sec_fields c) sec_rooms).
Definition read_nassecctx : T unit :=
  '(ret, c) ← on_vtq (vtq_usim_read_nas_sec_ctx blank_context 1024);
  if decide (ret ≠ 0) then mret tt else show_context c.
(** The fields of a context, each copied to a block of its own. *)
Definition sec_field (tag room : Z) (v : buffer) : option tlv :=
  b ← memcpy (undef room) 0 v 0 room; Some (Tlv tag room b).
Definition typed_context (bs : list buffer) : option nas_sec_ctx :=
  fs ← mapM (λ p, sec_field p.1.1 p.1.2 p.2) (zip (zip sec_tags sec_rooms) bs);
  Some (SecCtx NAS_SEC_CTX_TAG junk fs).
Definition write_nassecctx (ksi kamf ul dl int_id eps_id : buffer) : T unit :=
  c ← lift (typed_context [ksi; kamf; ul; dl; int_id; eps_id]);
  _ ← on_vtq (vtq_usim_write_nas_sec_ctx c 1024);
  each dump_tlv (sec_fields c).
Definition invalid_nassecctx : T unit := _ ← on_vtq vtq_usim_invalidate_nas_sec_ctx; mret tt.

Definition read_nas_auth_keys : T unit :=
  '(ret, k) ← on_vtq (vtq_usim_read_nas_auth_keys (AuthKeys (fresh 32) (fresh 32)) 1024);
  if decide (ret ≠ 0) then mret tt else
  _ ← show_tagged 0x80 (kausf k); show_tagged 0x81 (kseaf k).
Definition write_nas_auth_keys (seaf ausf : buffer) : T unit :=
  a ← lift (memcpy (undef 32) 0 ausf 0 32); s ← lift (memcpy (undef 32) 0 seaf 0 32);
  _ ← on_vtq (vtq_usim_write_nas_auth_keys (AuthKeys (Tlv 0x80 32 a) (Tlv 0x81 32 s)));
  _ ← hex_dump a 32; hex_dump s 32.

Definition read_admin : T unit :=
  '(ret, a) ← on_vtq (vtq_usim_read_admin_data (AdminData junk (undef 2) junk));
  if decide (ret ≠ 0) then mret tt else
  _ ← show (Num (ue_op_mode a)); _ ← hex_dump (addnl_info a) 2; show (Num (mnc_len a)).
Definition read_iccid : T unit :=
  '(ret, len, b) ← on_vtq (on_core (usim_read_transparent USIM_ICCID_FILEID 10 (undef 256) USIM_MF_FILEID));
  if decide (ret = 0) then hex_dump b len else mret tt.
Definition read_imeisv : T unit := _ ← on_vtq (vqa_read_usim_imeisv (Lv 16 (zeros 16))); mret tt.
Definition read_apncl : T unit :=
  '(ret, a) ← on_vtq (vtq_usim_read_acl (Acl junk (replicate (Z.to_nat ACL_MAX_LIST) (fresh 32))) 1024);
  if decide (ret ≠ 0) then mret tt else
  each (λ t, _ ← show (Num (t_tag t)); show_tagged ACL_TAG t) (take (Z.to_nat (acl_count a)) (acl_list a)).

(** The arrays that are shown are not the blocks of the answer. *)
Definition authenticate (random_value autn_value : buffer) : T unit :=
  _ ← hex_dump random_value 16; _ ← hex_dump autn_value 16;
  autn ← lift (memcpy (undef 16) 0 autn_value 0 16); random ← lift (memcpy (undef 16) 0 random_value 0 16);
  let out := Lv 16 (undef 16) in
  '(ret, _) ← on_vtq (vtq_usim_authenticate (Lv 16 random) (Lv 16 autn) out out out out);
  if decide (ret = 0) then _ ← hex_dump (undef 16) 16; _ ← hex_dump (undef 16) 16; hex_dump (undef 16) 16
  else if decide (ret = 2) then hex_dump (undef 16) 16 else mret tt.
Definition offchip_authenticate (key opc random_value autn_value : buffer) : T unit :=
  autn ← lift (memcpy (undef 16) 0 autn_value 0 16); random ← lift (memcpy (undef 16) 0 random_value 0 16);
  let out := Lv 16 (undef 16) in
  s ← gets auth;
  '(ret, o, s) ← lift (vtq_usim_offchip_authenticate key opc random autn (OffOut out (Lv 8 (undef 8)) out out) s);
  _ ← modify (set_auth s);
  if decide (ret = 0) then
    _ ← hex_dump (lv_value (off_res o)) (lv_length (off_res o)); _ ← hex_dump (lv_value (off_ck o)) (lv_length (off_ck o));
    hex_dump (lv_value (off_ik o)) (lv_length (off_ik o))
  else if decide (ret = 2) then hex_dump (lv_value (off_auts o)) (lv_length (off_auts o)) else mret tt.

Definition read_ust_table : T unit :=
  '(_, len, b) ← on_vtq (vtq_usim_read_ust (undef 20) 0);
  _ ← show (Num len); hex_dump b len.

(** ** Commands *)

(** A word of at most [n] characters into an array; at the end of the input the array
    keeps what it holds. *)
Definition next_word (n : nat) (b : buffer) : T buffer :=
  l ← gets stdin;
  match scan_word n l with
  | None => _ ← modify (set_stdin []); mret b
  | Some (s, l) => _ ← modify (set_stdin l); lift (blit b 0 (init (s ++ [0])))
  end.
(** The word for a variable, two digits for each byte; [false] is a word of another
    length. *)
Definition store_bytes (v : var) (s : list Z) : T unit := modify (λ w, set_var v (scan_bytes (vars w v) s) w).
Definition ask (v : var) : T bool :=
  d ← gets data;
  d ← next_word (if decide (v = VUl) then 127 else 128) d;
  _ ← modify (set_data d);
  n ← lift (strlen d);
  if decide (n ≠ 2 * Z.of_nat (var_size v)) then mret false else
  s ← lift (rd_bytes d 0 n);
  _ ← store_bytes v s; mret true.
Fixpoint asked (l : list var) (k : T unit) : T unit :=
  match l with [] => k | v :: l => ok ← ask v; if ok : bool then asked l k else mret tt end.
(** That of a network has an array of six characters. *)
Definition ask_plmn (n : nat) (k : T unit) : T unit :=
  d ← gets plmn_char;
  d ← next_word n d;
  _ ← modify (set_plmn_char d);
  len ← lift (strlen d);
  if decide (len ≠ 6) then mret tt else
  s ← lift (rd_bytes d 0 6);
  _ ← store_bytes VPlmn s; k.
(** That of [write_rid] is one number of four digits, stored with its low byte first. *)
Definition ask_rid (k : T unit) : T unit :=
  d ← gets data;
  d ← next_word 128 d;
  _ ← modify (set_data d);
  n ← lift (strlen d);
  if decide (n ≠ 4) then mret tt else
  s ← lift (rd_bytes d 0 4);
  _ ← (if BinCreate.has_digit 16 s
       then let v := u16 (strtol 16 s) in modify (set_var VRid [Some (v mod 256); Some (v / 256)]) else mret tt);
  k.

Definition run_command (name : string) : option (T unit) :=
  if decide (name = "power_on") then Some (_ ← on_sess usim_poweron; mret tt) else
  if decide (name = "power_off") then Some (_ ← on_sess usim_poweroff; mret tt) else
  if decide (name = "nasconfig") then Some read_nasconfig else
  if decide (name = "suci") then Some read_suci else
  if decide (name = "imsi") then Some read_imsi else
  if decide (name = "iccid") then Some read_iccid else
  if decide (name = "rid") then Some read_rid else
  if decide (name = "write_rid") then Some (ask_rid (
    b ← gets (λ w, vars w VRid); s ← lift (rd_bytes b 0 2); write_rid (nth 0 s 0 + 256 * nth 1 s 0))) else
  if decide (name = "hplmnact") then Some read_hplmnact else
  if decide (name = "ehplmn") then Some read_ehplmn else
  if decide (name = "user_plmnact") then Some read_user_plmnact else
  if decide (name = "op_plmnact") then Some read_op_plmnact else
  if decide (name = "plmn_nn") then Some read_plmn_nn else
  if decide (name = "op_plmn") then Some read_op_plmn else
  if decide (name = "fplmn") then Some read_fplmn else
  if decide (name = "append_fplmn") then Some (ask_plmn 5 (b ← var_now VPlmn; append_fplmn b)) else
  if decide (name = "delete_fplmn") then Some (ask_plmn 6 (b ← var_now VPlmn; delete_fplmn b)) else
  if decide (name = "uac") then Some read_uac else
  if decide (name = "write_uac") then Some (asked [VUac] (b ← var_now VUac; write_uac b)) else
  if decide (name = "acc") then Some read_acc else
  if decide (name = "admin") then Some read_admin else
  if decide (name = "5gs_location") then Some read_5gs_loc_info else
  if decide (name = "write_5gs_location") then Some (asked [VGuti; VTac; VPlmn]
    (g ← var_now VGuti; t ← var_now VTac; p ← var_now VPlmn; write_5gs_loc_info g t p)) else
  if decide (name = "nassecctx") then Some read_nassecctx else
  if decide (name = "write_nassecctx") then Some (asked [VKsi; VKamf; VUl; VDl; VId; VEpsId]
    (k ← var_now VKsi; a ← var_now VKamf; u ← var_now VUl; d ← var_now VDl; i ← var_now VId; e ← var_now VEpsId;
     write_nassecctx k a u d i e)) else
  if decide (name = "invalid_nassecctx") then Some invalid_nassecctx else
  if decide (name = "imeisv") then Some read_imeisv else
  if decide (name = "nas_auth_keys") then Some read_nas_auth_keys else
  if decide (name = "write_nas_auth_keys") then Some (asked [VSeaf; VAusf]
    (s ← var_now VSeaf; a ← var_now VAusf; write_nas_auth_keys s a)) else
  if decide (name = "apncl") then Some read_apncl else
  if decide (name = "authenticate") then Some (asked [VRandom; VAutn]
    (r ← var_now VRandom; a ← var_now VAutn; authenticate r a)) else
  if decide (name = "ust_table") then Some read_ust_table else
  if decide (name = "usim_state") then Some (s ← on_sess vtq_usim_check_status; show (Num s)) else
  if decide (name = "sim_status") then Some (s ← on_sess vtq_usim_get_cur_status; show (Num s)) else
  if decide (name = "status_data_dump") then Some (mret tt) else
  if decide (name = "usim_invalid") then Some (_ ← on_sess vtq_usim_invalidate; mret tt) else
  if decide (name = "offchip_auth") then Some (asked [VKey; VOpc; VRandom; VAutn]
    (k ← var_now VKey; o ← var_now VOpc; r ← var_now VRandom; a ← var_now VAutn; offchip_authenticate k o r a)) else
  None.

(** [sim.dir_fileid = dir_fileid]. *)
Definition set_sim_dir : T unit := modify (λ w,
  let s := ses w in let v := vt s in let l := core v in
  set_ses (with_vt (with_core (Lib (Sim (sim_type (sim l)) (dir_fileid w)) (aid l) (aid_len l) (env l) (wire l)) v) s) w).

(** The characters of a word, as the commands are written. *)
Definition text (s : list Z) : string := foldr (λ c t, String (Ascii.ascii_of_N (Z.to_N c)) t) EmptyString s.

(** One turn: [false] is [exit].  Nothing tells the end of the input from an empty
    line. *)
Definition turn : T bool :=
  l ← gets stdin;
  let '(line, l) := default ([], []) (scan_line l) in
  _ ← modify (set_stdin l);
  if decide (text line = "exit") then mret false else
  if decide (text line = "help") then mret true else
  let name := take_while (λ c, negb (is_blank c)) line in
  let rest := drop (length name) line in
  _ ← (if BinCreate.has_digit 16 rest then modify (set_dir (u16 (strtol 16 rest))) else mret tt);
  _ ← set_sim_dir;
  _ ← default (mret tt) (run_command (text name));
  mret true.
Fixpoint commands (fuel : nat) : T unit :=
  match fuel with O => lift None | S fuel => go ← turn; if go : bool then commands fuel else mret tt end.

(** [sim_type], [enable]: the two arguments of the program as numbers.  A registration
    that fails is reported, and the commands are read all the same. *)
Definition set_sim_type (n : Z) : T unit := modify (λ w,
  let s := ses w in let v := vt s in let l := core v in
  set_ses (with_vt (with_core (Lib (Sim n (sim_dir_fileid (sim l))) (aid l) (aid_len l) (env l) (wire l)) v) s) w).
Definition main (fuel atr_fuel : nat) (sim_type enable : Z) : T Z :=
  _ ← set_sim_type sim_type;
  _ ← on_sess (vtq_usim_debug_set enable);
  _ ← on_sess (vtq_usim_register atr_fuel sim_type);
  _ ← commands fuel;
  _ ← on_sess vtq_usim_deregister;
  mret 0.
End Tool.

(** ** Theorems: words *)

Lemma strlen_room b n : strlen b = Some n → 0 ≤ n < zlen b.
Proof.
  revert n. induction b as [|c b IH]; intros n; [done|]. cbn [strlen]. destruct c as [c|]; [|done]. cbn [mbind option_bind].
  unfold zlen in *. cbn [length]. case_decide; [intros [= <-]; lia|]. destruct (strlen b) as [k|]; [|done].
  intros [= <-]. specialize (IH k eq_refl). lia.
Qed.

(** Two digits for a byte. *)
Definition digit_text (d : Z) : Z := if decide (d < 10) then 48 + d else 87 + d.
Definition hex_text (l : list Z) : list Z := flat_map (λ b, [digit_text (b / 16); digit_text (b mod 16)]) l.
Lemma scan_two a b old : 0 ≤ a < 16 → 0 ≤ b < 16 → scan_byte [digit_text a; digit_text b] old = Some (16 * a + b).
Proof.
  intros Ha Hb.
  assert (Hall : Forall (λ x, Forall (λ y, scan_byte [digit_text x; digit_text y] old = Some (16 * x + y)) (seqZ 0 16)) (seqZ 0 16)).
  { change (seqZ 0 16) with (ltac:(let l := eval vm_compute in (seqZ 0 16) in exact l)). repeat constructor. }
  rewrite Forall_forall in Hall. specialize (Hall a ltac:(apply elem_of_seqZ; lia)). rewrite Forall_forall in Hall.
  apply Hall, elem_of_seqZ. lia.
Qed.
(** What is typed is what is stored, whatever the variable held. *)
Lemma scan_hex_text old l : length old = length l → Forall is_byte l → scan_bytes old (hex_text l) = init l.
Proof.
  revert l. induction old as [|x old IH]; intros [|b l] Hl Hb; try done. inversion Hb as [|? ? Hb0 Hb1]; subst.
  cbn [scan_bytes hex_text flat_map app].
  change (scan_byte (?a :: ?b :: ?l) x) with (scan_byte [a; b] x). rewrite scan_two.
  - rewrite <- Z.div_mod by lia. change (drop 2 (?a :: ?b :: ?l)) with l. rewrite IH by (by injection Hl || done). done.
  - unfold is_byte in Hb0. Z.to_euclidean_division_equations. lia.
  - apply Z.mod_pos_bound. lia.
Qed.

(** ** Theorems: commands *)
Section Commands.
Context {E : Type} `{SessEnv E} (junk : Z).
Local Abbreviation T := (M (tool E)).

Lemma next_word_keeps n b (w w' : tool E) d : next_word n b w = Some (d, w') →
  length d = length b ∧ ses w' = ses w ∧ plmn_char w' = plmn_char w ∧ vars w' = vars w.
Proof.
  unfold next_word. rewrite M_bind_eq. cbn [gets]. destruct (scan_word n (stdin w)) as [[s l]|].
  - rewrite M_bind_eq. cbn [modify]. unfold lift. destruct (blit b 0 (init (s ++ [0]))) as [d'|] eqn:Eb; [|done].
    intros [= -> <-]. by rewrite (blit_length _ _ _ _ Eb).
  - rewrite M_bind_eq. by intros [= <- <-].
Qed.

(** The two commands that change the list of forbidden networks never come to the
    library: the array for the word holds six characters, with its end, and the word has
    to be six long. *)
Theorem networks_never_written (name : string) (m : T unit) (w w' : tool E) r :
  name = "append_fplmn" ∨ name = "delete_fplmn" → length (plmn_char w) = 6%nat →
  run_command junk name = Some m → m w = Some (r, w') → ses w' = ses w.
Proof.
  intros Hn Hl Hm. assert (Hk : ∃ n k, m = ask_plmn n k) by (destruct Hn as [-> | ->]; injection Hm as <-; by do 2 eexists).
  destruct Hk as (n & k & ->). unfold ask_plmn. rewrite M_bind_eq. cbn [gets]. rewrite M_bind_eq.
  destruct (next_word n (plmn_char w) w) as [[d w1]|] eqn:Ew; [|done].
  destruct (next_word_keeps _ _ _ _ _ Ew) as (Hd & Hs & _). rewrite M_bind_eq. cbn [modify]. rewrite M_bind_eq. unfold lift.
  destruct (strlen d) as [len|] eqn:El; [|done]. assert (Hr := strlen_room _ _ El).
  rewrite decide_True by (unfold zlen in Hr; lia). by intros [= _ <-].
Qed.

(** A word of six characters for the second of them is stored with its end behind the
    array. *)
Theorem network_overruns (w : tool E) (s l : list Z) (k : T unit) : length (plmn_char w) = 6%nat →
  scan_word 6 (stdin w) = Some (s, l) → length s = 6%nat → ask_plmn 6 k w = None.
Proof.
  intros Hl Hs Hlen. unfold ask_plmn. rewrite M_bind_eq. cbn [gets]. rewrite M_bind_eq.
  unfold next_word. rewrite M_bind_eq. cbn [gets]. rewrite Hs, M_bind_eq. cbn [modify]. unfold lift, blit.
  rewrite decide_False; [done|]. rewrite zlen_init. unfold zlen. rewrite length_app, Hl, Hlen. cbn. lia.
Qed.

Lemma on_vtq_shows {A} (m : M (vtq E) A) (w w' : tool E) a : on_vtq m w = Some (a, w') → shown w' = shown w.
Proof. unfold on_vtq, on_sess. destruct (on_lib m (ses w)) as [[? ?]|]; [|done]. by intros [= _ <-]. Qed.
Lemma dump_16 (l : list Z) (w : tool E) : length l = 16%nat → hex_dump (init l) 16 w = show (Bytes (init l)) w.
Proof.
  intros Hl. unfold hex_dump. change (i32 16) with 16. rewrite decide_False by lia.
  replace 16 with (zlen (init l)) by (rewrite zlen_init; unfold zlen; lia). by rewrite sub_all.
Qed.
Lemma memcpy_16 (l : list Z) : length l = 16%nat → memcpy (undef 16) 0 (init l) 0 16 = Some (init l).
Proof.
  intros Hl. unfold memcpy. assert (Hz : zlen (init l) = 16) by (rewrite zlen_init; unfold zlen; lia).
  assert (Hs := sub_all (init l)). rewrite Hz in Hs. rewrite Hs. cbn [mbind option_bind]. rewrite blit_0 by (rewrite Hz, zlen_undef; lia).
  rewrite drop_ge; [by rewrite app_nil_r|]. unfold undef. rewrite length_replicate, length_init. lia.
Qed.

(** What an authentication shows of the answer of the card was never stored. *)
Theorem answer_not_shown (random autn : list Z) (w w' : tool E) r : length random = 16%nat → length autn = 16%nat →
  authenticate (init random) (init autn) w = Some (r, w') →
  ∃ l, shown w' = shown w ++ [Bytes (init random); Bytes (init autn)] ++ l ∧ ∀ i, i ∈ l → i = Bytes (undef 16).
Proof.
  intros Hr Ha. unfold authenticate. rewrite M_bind_eq, dump_16 by done. cbn [show modify]. rewrite M_bind_eq, dump_16 by done. cbn [show modify].
  rewrite !memcpy_16 by done. rewrite M_bind_eq. cbn [lift]. rewrite M_bind_eq. cbn [lift]. rewrite M_bind_eq.
  destruct (on_vtq _ _) as [[[ret o] w1]|] eqn:Ev; [|done]. assert (Hs := on_vtq_shows _ _ _ _ Ev). cbn [shown show modify] in Hs.
  assert (Hu : ∀ x : tool E, hex_dump (undef 16) 16 x = show (Bytes (undef 16)) x) by reflexivity.
  case_decide; [|case_decide].
  - rewrite M_bind_eq, Hu. cbn [show modify]. rewrite M_bind_eq, Hu. cbn [show modify]. rewrite Hu. cbn [show modify].
    intros [= _ <-]. cbn [shown]. rewrite Hs, <- !app_assoc. eexists. split; [reflexivity|].
    intros i. set_solver.
  - rewrite Hu. intros [= _ <-]. cbn [shown]. rewrite Hs, <- !app_assoc. eexists. split; [reflexivity|].
    intros i. set_solver.
  - intros [= _ <-]. rewrite Hs, <- !app_assoc. exists []. split; [reflexivity|]. intros i Hi. by apply not_elem_of_nil in Hi.
Qed.

(** The end of the input is not noticed: without the word [exit] the program reads on
    for ever. *)
Lemma end_turn (w : tool E) : scan_line (stdin w) = None → ∃ w', turn junk w = Some (true, w') ∧ stdin w' = [].
Proof.
  intros Hs. unfold turn. rewrite M_bind_eq. cbn [gets]. rewrite Hs. cbn [default]. rewrite M_bind_eq. cbn [modify].
  change (text []) with EmptyString. rewrite decide_False by discriminate. rewrite decide_False by discriminate.
  rewrite M_bind_eq. change (BinCreate.has_digit 16 _) with false. cbn [mret M_ret]. rewrite M_bind_eq. cbn [set_sim_dir modify].
  rewrite M_bind_eq. change (text _) with EmptyString. cbn [run_command default]. by eexists.
Qed.
Theorem end_never_seen (fuel : nat) (w : tool E) : scan_line (stdin w) = None → commands junk fuel w = None.
Proof.
  revert w. induction fuel as [|fuel IH]; intros w Hs; [done|]. cbn [commands]. rewrite M_bind_eq.
  destruct (end_turn w Hs) as (w' & -> & Hw). apply IH. by rewrite Hw.
Qed.

(** A field of the configuration that is longer than four bytes does not fit its block. *)
Theorem long_field_overruns (data : buffer) (n : Z) : rd data 0 = Some 0x80 → rd data 1 = Some n → 4 < n →
  tlv_fields nasconfig_fields data 0 (replicate 14 (fresh junk 4)) = None.
Proof.
  intros Ht Hl Hn. assert (Hf : tlv_field 0x80 1 data 0 (fresh junk 4) = None); [|unfold nasconfig_fields; cbn [tlv_fields replicate]; by rewrite Hf].
  unfold tlv_field. rewrite Ht. cbn [mbind option_bind]. rewrite decide_True by done. change (0 + 1) with 1. rewrite Hl.
  cbn [mbind option_bind fresh t_value]. unfold memcpy.
  destruct (sub data _ n) as [c|] eqn:Es; [|done]. cbn [mbind option_bind]. unfold blit. rewrite decide_False; [done|].
  apply sub_zlen in Es. rewrite zlen_undef by lia. lia.
Qed.

(** *** A security context, typed and shown *)
Lemma sec_field_init tag (v : list Z) : sec_field tag (zlen v) (init v) = Some (field_of tag v []).
Proof.
  unfold sec_field, memcpy, field_of. assert (Hs := sub_all (init v)). rewrite zlen_init in Hs. rewrite Hs. cbn [mbind option_bind].
  assert (Hp := zlen_nonneg v). rewrite blit_0 by (rewrite zlen_undef, zlen_init; lia). cbn [mbind option_bind].
  rewrite drop_ge; [done|]. unfold undef. rewrite length_replicate, length_init. unfold zlen. lia.
Qed.
Lemma typed_fields tags (vs : list (list Z)) : length tags = length vs →
  mapM (λ p, sec_field p.1.1 p.1.2 p.2) (zip (zip tags (zlen <$> vs)) (init <$> vs)) =
  Some (zip_with (λ f b, field_of (fst f) (snd f) b) (zip tags vs) (replicate (length vs) [])).
Proof.
  revert tags. induction vs as [|v vs IH]; intros [|t tags] Hl; try done.
  cbn [fmap list_fmap zip zip_with mapM length replicate fst snd]. rewrite sec_field_init. cbn [mbind option_bind].
  rewrite IH by (by injection Hl). done.
Qed.
Lemma shown_within tag (v : list Z) b (w : tool E) : 0 < zlen v < 2147483648 →
  dump_within (Tlv tag (zlen v) (init v ++ b)) (zlen v) w = show (Bytes (init v)) w.
Proof.
  intros Hv. unfold dump_within, dump_tlv, hex_dump. cbn [t_length t_value]. rewrite decide_True by lia.
  replace (i32 (zlen v)) with (zlen v) by wrap_lia. rewrite decide_False by lia.
  rewrite M_bind_eq. unfold lift. by rewrite (sub_exact [] (init v) b) by (by rewrite ?zlen_init).
Qed.
Lemma shown_fields x tags (vs : list (list Z)) ts (w : tool E) : Forall (λ v, 0 < zlen v < 2147483648) vs →
  length tags = length vs → length ts = length vs → ∃ w',
  each (λ p, dump_within (fst p) (snd p)) (zip (filled tags (Some <$> vs) x ts) (zlen <$> vs)) w = Some (tt, w') ∧
  shown w' = shown w ++ ((Bytes ∘ init) <$> vs).
Proof.
  intros Hv. revert tags ts w. induction Hv as [|v vs Hv Hvs IH]; intros [|t tags] [|y ts] w Ht Hy; try done.
  - exists w. cbn. by rewrite app_nil_r.
  - cbn [fmap list_fmap filled zip zip_with each fst snd]. rewrite M_bind_eq, shown_within by done. cbn [show modify].
    edestruct IH as (w' & -> & Hs); [by injection Ht|by injection Hy|]. eexists. split; [reflexivity|].
    rewrite Hs. cbn [shown]. by rewrite <- app_assoc.
Qed.

(** A security context that is typed digit by digit, whatever the variables held before,
    makes the file from which the program reads and shows the same six values. *)
Theorem context_comes_back (vs : list (list Z)) (olds : list buffer) (x : Z) (tl : buffer) (w : tool E) :
  zlen <$> vs = sec_rooms → Forall (Forall is_byte) vs → Forall2 (λ o v, length o = length v) olds vs → x ∉ sec_tags →
  ∃ c b len c' w', typed_context junk (zip_with scan_bytes olds (hex_text <$> vs)) = Some c ∧
    build_nas_sec_ctx (undef 1024) c = Some (b, len) ∧
    parse_nas_sec_ctx (take (Z.to_nat len) b ++ Some x :: tl) (blank_context junk) = Some c' ∧
    show_context c' w = Some (tt, w') ∧ shown w' = shown w ++ ((Bytes ∘ init) <$> vs).
Proof.
  intros Hz Hb Ho Hx.
  assert (Hl : length vs = 6%nat) by (rewrite <- (length_fmap zlen), Hz; reflexivity).
  assert (Ht : zip_with scan_bytes olds (hex_text <$> vs) = init <$> vs).
  { clear - Hb Ho. revert Hb. induction Ho as [|o v os vs Hov Hos IH]; intros Hb; [done|]. inversion Hb; subst.
    cbn [fmap list_fmap zip_with]. rewrite scan_hex_text, IH by done. done. }
  assert (Hr : Forall (λ v : list Z, 0 < zlen v < 33) vs).
  { assert (Hall : Forall (λ n, 0 < n < 33) (zlen <$> vs)) by (rewrite Hz; repeat constructor; lia). by rewrite Forall_fmap in Hall. }
  assert (Henc : zlen (enc_sec_ctx vs) = 57).
  { destruct vs as [|a [|b [|c [|d [|e [|f [|? ?]]]]]]]; try discriminate. unfold sec_rooms in Hz. cbn [fmap list_fmap] in Hz.
    injection Hz as Ha Hb' Hc Hd He Hf. unfold enc_sec_ctx. cbv zeta.
    cbn [sec_tags zip zip_with flat_map]. unfold enc_tlv. cbn [fst snd]. repeat rewrite ?zlen_app, ?zlen_cons, ?zlen_nil. lia. }
  destruct (shown_fields x sec_tags vs (sec_fields (blank_context junk)) w) as (w' & Hw & Hs);
    [by eapply Forall_impl; [exact Hr|]; cbn; lia|done|done|].
  eexists _, _, _, _, w'. split; [|split; [|split; [|split; [|exact Hs]]]].
  - rewrite Ht. unfold typed_context. rewrite <- Hz, typed_fields by done. reflexivity.
  - rewrite Hl. apply (build_sec_ctx_spec vs (replicate 6 []) junk 1024); rewrite ?Henc; try done; [|lia..].
    eapply Forall_impl; [exact Hr|]. cbn. lia.
  - unfold zlen at 1. rewrite Nat2Z.id, take_app_length' by (by rewrite length_init).
    apply parse_sec_ctx_spec; try done. cbn [blank_context sec_fields]. rewrite <- Hz. rewrite <- list_fmap_compose.
    apply Forall2_fmap_r, Forall_Forall2_diag, Forall_forall. intros v _. cbn. rewrite zlen_undef by apply zlen_nonneg. lia.
  - unfold show_context. cbn [sec_fields]. rewrite <- Hz. exact Hw.
Qed.
End Commands.

(** ** Witnesses *)
Definition demo_vs : list (list Z) := [[7]; replicate 32 0xA1; [0; 0; 0; 9]; [0; 0; 0; 8]; [0x21]; [0x11]].
Definition demo_auth : auth_state := AuthState [] [] [] [] [].
(** The program before its first command, a card in the reader that answers nothing. *)
Definition demo_tool (input : string) : tool slotted :=
  Tool (slotted_start (Slotted (Script []) true 0)) demo_auth (bytes_of input) (undef 128) (undef 6)
    (λ v, undef (Z.of_nat (var_size v))) 0 [].
Lemma context_comes_back_witness : ∃ c b len c' w',
  typed_context 77 (zip_with scan_bytes ((λ v, undef (zlen v)) <$> demo_vs) (hex_text <$> demo_vs)) = Some c ∧
  build_nas_sec_ctx (undef 1024) c = Some (b, len) ∧
  parse_nas_sec_ctx (take (Z.to_nat len) b ++ [Some 0xFF]) (blank_context 77) = Some c' ∧
  show_context c' (demo_tool "") = Some (tt, w') ∧ shown w' = (Bytes ∘ init) <$> demo_vs.
Proof.
  apply (context_comes_back 77 demo_vs ((λ v, undef (zlen v)) <$> demo_vs) 0xFF [] (demo_tool "")).
  - reflexivity.
  - repeat constructor; unfold is_byte; lia.
  - repeat constructor.
  - unfold sec_tags. rewrite !not_elem_of_cons. split_and!; try lia. apply not_elem_of_nil.
Defined.
Lemma networks_never_written_witness : ∃ r w', ask_plmn 5 (b ← var_now VPlmn; append_fplmn b) (demo_tool "62f210") = Some (r, w') ∧
  ses w' = ses (demo_tool "").
Proof.
  eexists _, _. split; [vm_compute; reflexivity|].
  eapply (networks_never_written 0 "append_fplmn" _ (demo_tool "62f210")); [by left|reflexivity|reflexivity|vm_compute; reflexivity].
Defined.
Lemma network_overruns_witness : ask_plmn 6 (mret tt) (demo_tool "62f210") = None.
Proof. apply (network_overruns (demo_tool "62f210") (bytes_of "62f210") [] (mret tt)); reflexivity. Defined.
Lemma end_never_seen_witness : commands 0 1000 (demo_tool "  ") = None.
Proof. apply (end_never_seen 0 1000 (demo_tool "  ")). reflexivity. Defined.
Lemma long_field_overruns_witness : tlv_fields nasconfig_fields (init [0x80; 5; 1; 2; 3; 4; 5]) 0 (replicate 14 (fresh 0 4)) = None.
Proof. apply (long_field_overruns 0 (init [0x80; 5; 1; 2; 3; 4; 5]) 5); [reflexivity|reflexivity|lia]. Defined.
(** A session: a word of the wrong length is dropped, an unknown command ignored. *)
Example session_ends : match commands 0 5 (demo_tool "rubbish 3f00
write_uac
123
exit") with Some (_, w) => (dir_fileid w, sim_dir_fileid (sim (core (vt (ses w)))), shown w) = (0x3f00, 0x3f00, []) | None => False end.
Proof. vm_compute. done. Qed.
