(* ===== verification/AppTti.v ===== *)
(** * The test program of the timing devices (app/tti/gul_tti_app.c)

    It registers for a timing device through the library of GulUserLibs.v, waits for a
    number of interrupts, by reads of the device or by events, and notes the time and the
    counter of the modem at each; then it shows the differences.  [None] is undefined
    behaviour: here, a read of the counter where nothing is mapped. *)
From S2P Require Import Prelude GulMsi GulPci GulUserLibs AppCalTable AppDevmem AppTools.
#[global] Open Scope Z_scope.

(** ** Arguments *)
Record tti_args := Args { modem_id : Z; tti_id : Z; tti_count : Z; event_flag : bool }.
Definition is_e (s : list Z) : bool := bool_decide (s = [45; 101] ∨ s = [45; 69]).
(** [None]: the usage is shown. *)
Definition validate_cli_args (args : list (list Z)) : option tti_args :=
  match args with
  | m :: t :: c :: more =>
      if decide (m = [45; 104] ∨ m = [45; 72]) then None else
      Some (Args (atoi m) (atoi t) (atoi c) (match more with e :: _ => is_e e | [] => false end))
  | _ => None
  end.

(** ** Samples *)
Record tti_stats := Stats { micro_sec : Z; st_id : Z; counter_val : Z }.
Definition no_stats : tti_stats := Stats 0 0 0.
Definition TBGEN_MASTER_COUNTER_HIGH_OFFSET : Z := 0x6F0.
Definition TBGEN_MASTER_COUNTER_LOW : Z := 0x4.

Section Tti.
Context `{UserCalls}.
Local Abbreviation U := (M user).

(** A register of a mapping that is there. *)
Definition mapped (a : Z) (l : list (Z * Z)) : Prop := Exists (λ m, m.1 ≤ a < m.1 + m.2) l.
#[export] Instance mapped_dec a l : Decision (mapped a l).
Proof. unfold mapped. apply Exists_dec. intros [b n]. cbn. solve_decision. Defined.
Definition read_counter (a : Z) : U Z :=
  l ← gets maps; if decide (mapped a l) then ucall (ReadReg a) else lift None.

Definition sample (counter id : Z) : U tti_stats :=
  usec ← ucall TimeOfDay;
  hi ← read_counter counter;
  lo ← read_counter (counter + TBGEN_MASTER_COUNTER_LOW);
  mret (Stats usec id (Z.lor (Z.shiftl (u32 hi) 32) (u32 lo))).

(** Where the counter of the generator is mapped; [None] is NULL. *)
Definition map_gul_tbgen_reg (modem tti : Z) : U (option Z) :=
  base ← get_ccsr_addr modem;
  mret (if decide (base = 0) then None
        else Some (base + (if decide (tti = 0) then TBGEN1_BASE_ADDR else TBGEN2_BASE_ADDR) + TBGEN_MASTER_COUNTER_HIGH_OFFSET)).

(** ** The loops: [n] turns, the first of them the one of entry [i] *)
Fixpoint event_loop (n i : nat) (ep efd counter id : Z) (arr : list tti_stats) : U (list tti_stats) :=
  match n with
  | O => mret arr
  | S n =>
      nfds ← ucall (EpollWait ep);
      if decide (nfds = 1) then
        s ← sample counter id;
        _ ← ucall (Read efd);
        event_loop n (S i) ep efd counter id (<[i := s]> arr)
      else event_loop n (S i) ep efd counter id arr
  end.
(** [None]: a read was not answered with the eight bytes of the counter. *)
Fixpoint read_loop (n i : nat) (fd counter id : Z) (arr : list tti_stats) : U (option (list tti_stats)) :=
  match n with
  | O => mret (Some arr)
  | S n =>
      r ← ucall (Read fd);
      if decide (r ≠ 8) then mret None else
      s ← sample counter id;
      read_loop n (S i) fd counter id (<[i := s]> arr)
  end.

(** ** What is shown *)
Definition interval (a b : tti_stats) : Z * Z := (i32 (micro_sec b - micro_sec a), u32 (counter_val b - counter_val a)).
Fixpoint report (l : list tti_stats) : list (Z * Z) :=
  match l with a :: ((b :: _) as l') => interval a b :: report l' | _ => [] end.

(** The wait by events, from the creation of the descriptor on; [None] is an error. *)
Definition by_events (n : nat) (efd counter id : Z) (arr : list tti_stats) : U (option (list tti_stats)) :=
  ep ← opened EpollCreate;
  if decide (ep < 0) then mret None else
  r ← ucall (EpollAdd ep efd);
  if decide (r = -1) then _ ← close ep; mret None else
  arr ← event_loop n 0 ep efd counter id arr;
  _ ← close ep;
  mret (Some arr).

(** The result is what is shown, or the failure.  A negative count makes a size no
    [malloc] grants, but for -1, which is an array of no entries. *)
Definition main (a : tti_args) : U (option (list (Z * Z))) :=
  if decide (2147483647 ≤ tti_count a) then lift None else
  let n := tti_count a + 1 in
  p ← (if decide (n < 0) then mret 0 else ucall Malloc);
  if decide (p = 0) then mret None else
  let arr := replicate (Z.to_nat n) no_stats in
  '(ret, t) ← modem_tti_register (Tti (tti_id a) 0 (-1)) (modem_id a) (if event_flag a then 1 else 0);
  if decide (ret < 0) then mret None else
  c ← map_gul_tbgen_reg (modem_id a) (tti_id a);
  match c with
  | None => mret None
  | Some counter =>
      r ← (if event_flag a then by_events (Z.to_nat n) (tti_eventfd t) counter (ttid t) arr
           else read_loop (Z.to_nat n) 0 (dev_tti_handle t) counter (ttid t) arr);
      match r with
      | None => _ ← modem_tti_deregister t; mret None
      | Some arr =>
          _ ← unmap_tbgen_addr (modem_id a);
          _ ← get_tbgen_freq_info (modem_id a);
          _ ← modem_tti_deregister t;
          mret (Some (report arr))
      end
  end.
End Tti.

(** ** Theorems *)
Section Correct.
Context `{UserCalls}.
Local Abbreviation U := (M user).

(** The times the kernel told, in order. *)
Definition times (l : list (user_call * Z)) : list Z := omap (λ e, match e.1 with TimeOfDay => Some e.2 | _ => None end) l.

Lemma sample_log c id (w w' : user) s : sample c id w = Some (s, w') →
  ∃ l, ulog w' = ulog w ++ l ∧ times l = [micro_sec s].
Proof.
  unfold sample, read_counter. rewrite M_bind_eq. cbn [ucall]. set (w1 := User _ _ _ _ _ _). rewrite !M_bind_eq. cbn [gets].
  case_decide; [|done]. cbn [ucall]. set (w2 := User _ _ _ _ _ _). rewrite !M_bind_eq. cbn [gets]. case_decide; [|done]. cbn [ucall].
  intros [= <- <-]. cbn [ulog w1 w2]. rewrite <- !app_assoc. eexists. split; [reflexivity|]. reflexivity.
Qed.

(** When the reads are all answered, the array holds a sample for each, in the order of
    the interrupts, and no entry is left over. *)
Theorem samples_in_order (n i : nat) (fd c id : Z) (arr arr' : list tti_stats) (w w' : user) :
  length arr = (i + n)%nat → read_loop n i fd c id arr w = Some (Some arr', w') →
  length arr' = length arr ∧ take i arr' = take i arr ∧
  ∃ l, ulog w' = ulog w ++ l ∧ times l = micro_sec <$> drop i arr'.
Proof.
  revert i arr w. induction n as [|n IH]; intros i arr w Hl; cbn [read_loop].
  - intros [= <- <-]. split_and!; [done..|]. exists []. rewrite app_nil_r, drop_ge by lia. done.
  - rewrite M_bind_eq. cbn [ucall]. set (w1 := User _ _ _ _ _ _). case_decide; [done|].
    rewrite M_bind_eq. destruct (sample c id w1) as [[s w2]|] eqn:Es; [|done].
    destruct (sample_log _ _ _ _ _ Es) as (l1 & E1 & T1). intros Er.
    destruct (IH (S i) (<[i:=s]> arr) w2) as (Hlen & Htake & l2 & E2 & T2); [rewrite length_insert; lia|done|].
    rewrite length_insert in Hlen. split; [done|].
    assert (Hi : arr' !! i = Some s).
    { rewrite <- (lookup_take_lt arr' (S i)) by lia. rewrite Htake, lookup_take_lt by lia. apply list_lookup_insert_eq. lia. }
    split.
    + assert (Hq : ∀ l : list tti_stats, take i (take (S i) l) = take i l) by (intros l; rewrite take_take; f_equal; lia).
      rewrite <- Hq, Htake, Hq. by rewrite take_insert_ge by lia.
    + exists ([(Read fd, uanswer (ulog w) (Read fd))] ++ l1 ++ l2). rewrite E2, E1. cbn [ulog w1]. rewrite <- !app_assoc. split; [done|].
      unfold times in *. rewrite !omap_app, T1, T2. cbn. rewrite (drop_S arr' s i) by done. done.
Qed.

(** The time of a sample is that within its second: what is shown as the time between
    two interrupts is that time only if no second begins in between. *)
Theorem interval_wraps (t0 t1 : Z) (a b : tti_stats) : 0 ≤ t0 ≤ t1 → t1 - t0 < 1000000 →
  micro_sec a = t0 mod 1000000 → micro_sec b = t1 mod 1000000 →
  fst (interval a b) = if decide (t0 / 1000000 = t1 / 1000000) then t1 - t0 else t1 - t0 - 1000000.
Proof.
  intros Ht Hd Ha Hb. unfold interval. cbn [fst]. rewrite Ha, Hb.
  assert (Hm0 := Z.mod_pos_bound t0 1000000 ltac:(lia)). assert (Hm1 := Z.mod_pos_bound t1 1000000 ltac:(lia)).
  assert (E0 := Z.div_mod t0 1000000 ltac:(lia)). assert (E1 := Z.div_mod t1 1000000 ltac:(lia)).
  assert (Hle : t0 / 1000000 ≤ t1 / 1000000) by (apply Z.div_le_mono; lia).
  generalize dependent (t0 mod 1000000). generalize dependent (t1 mod 1000000). generalize dependent (t0 / 1000000). generalize dependent (t1 / 1000000).
  intros q1 q0 Hle r1 Hb H1 E1 r0 Ha H0 E0. replace (i32 (r1 - r0)) with (r1 - r0) by wrap_lia. case_decide; lia.
Qed.

Local Ltac run_calls := cbv [mbind M_bind ucall modify gets mret M_ret]; cbn -[decide].
Lemma tti_register_ok (m id : Z) (w : user) : (∀ l, 0 ≤ uanswer l (OpenTti m id)) → (∀ l fd e, 0 ≤ uanswer l (TtiRegister fd e)) →
  ∃ r t w', modem_tti_register (Tti id 0 (-1)) m 0 w = Some ((r, t), w') ∧ 0 ≤ r ∧ maps w' = maps w ∧ addr w' = addr w.
Proof.
  intros Hopen Hreg. unfold modem_tti_register, open_devtti, tti_request, opened. run_calls.
  rewrite (decide_True (P := 0 ≤ uanswer _ _)) by apply Hopen. cbn -[decide].
  rewrite (decide_False (P := uanswer _ (OpenTti _ _) < 0)) by (apply Z.le_ngt, Hopen). rewrite (decide_False (P := 0 ≠ 0)) by lia. cbn -[decide].
  rewrite (decide_False (P := uanswer _ (TtiRegister _ _) < 0)) by (apply Z.le_ngt, Hreg).
  do 3 eexists. split; [reflexivity|]. split; [apply Hreg|]. done.
Qed.
Lemma map_fails (m : Z) (w : user) : 0 ≤ m < 4 → addr w m = 0 →
  (∀ l, uanswer l Malloc ≠ 0) → (∀ l, 0 ≤ uanswer l (OpenModem m)) → (∀ l fd, 0 ≤ uanswer l (ModinfoGet fd)) → (∀ l, 0 ≤ uanswer l OpenMem) →
  (∀ l fd n a, uanswer l (Mmap fd n a) = MAP_FAILED) → ∃ w', get_ccsr_addr m w = Some (MAP_FAILED, w') ∧ maps w' = maps w.
Proof.
  intros Hm Ha Hmal Hdev Hinfo Hmem Hmap. unfold get_ccsr_addr, modem_ok, opened, close, mmap.
  rewrite decide_True by (unfold MAX_MODEM; lia). run_calls. rewrite Ha. rewrite (decide_False (P := 0 ≠ 0)) by lia. cbn -[decide].
  rewrite (decide_True (P := 0 ≤ uanswer _ (OpenModem _))) by apply Hdev. cbn -[decide].
  rewrite (decide_False (P := uanswer _ (OpenModem _) = -1)) by (assert (Hd := Hdev (ulog w)); lia). cbn -[decide].
  rewrite (decide_False (P := uanswer _ (ModinfoGet _) < 0)) by (apply Z.le_ngt, Hinfo). cbn -[decide].
  destruct (ccsr_info w m) as [known|]; cbn -[decide]; rewrite ?(decide_False (P := uanswer _ Malloc = 0)) by apply Hmal; cbn -[decide];
    rewrite (decide_True (P := 0 ≤ uanswer _ OpenMem)) by apply Hmem; cbn -[decide];
    (rewrite (decide_False (P := uanswer _ OpenMem = -1)) by (match goal with |- uanswer ?l OpenMem ≠ -1 => assert (Hd := Hmem l); lia end)); cbn -[decide];
    rewrite !Hmap; rewrite !(decide_True (P := MAP_FAILED = MAP_FAILED)) by done; eexists; (split; [reflexivity|done]).
Qed.

(** A mapping of the registers that fails is not noticed: with a device that works, the
    counter is read where nothing is mapped. *)
Theorem failed_map_crashes (m t c : Z) : 0 ≤ m < 4 → 0 ≤ c < 2147483647 →
  (∀ l, uanswer l Malloc ≠ 0) → (∀ l, 0 ≤ uanswer l (OpenTti m t)) → (∀ l fd e, 0 ≤ uanswer l (TtiRegister fd e)) →
  (∀ l, 0 ≤ uanswer l (OpenModem m)) → (∀ l fd, 0 ≤ uanswer l (ModinfoGet fd)) → (∀ l, 0 ≤ uanswer l OpenMem) →
  (∀ l fd n a, uanswer l (Mmap fd n a) = MAP_FAILED) → (∀ l fd, uanswer l (Read fd) = 8) →
  main (Args m t c false) user_0 = None.
Proof.
  intros Hm Hc Hmal Hopen Hreg Hdev Hinfo Hmem Hmap Hread. unfold main. cbn [tti_count modem_id tti_id event_flag].
  rewrite decide_False by lia. rewrite decide_False by lia.
  rewrite M_bind_eq. cbn [ucall user_0 ulog fds maps addr GulUserLibs.ccsr_info GulUserLibs.tti_fd]. rewrite decide_False by apply Hmal.
  set (w1 := User _ _ _ _ _ _). rewrite M_bind_eq. destruct (tti_register_ok m t w1 Hopen Hreg) as (r & d & w2 & -> & Hr & Hm2 & Ha2).
  rewrite decide_False by lia. unfold map_gul_tbgen_reg. rewrite !M_bind_eq.
  destruct (map_fails m w2) as (w3 & -> & Hm3); [done|by rewrite Ha2|done..|].
  rewrite (decide_False (P := MAP_FAILED = 0)) by discriminate. cbn [mret M_ret]. rewrite M_bind_eq.
  destruct (Z.to_nat (c + 1)) as [|n] eqn:En; [lia|]. cbn [read_loop]. rewrite M_bind_eq. cbn [ucall]. rewrite Hread.
  rewrite decide_False by lia. rewrite M_bind_eq. unfold sample, read_counter. rewrite M_bind_eq. cbn [ucall]. rewrite !M_bind_eq.
  cbn [gets maps]. rewrite Hm3, Hm2. by rewrite decide_False by (intros Hx; by apply Exists_nil in Hx).
Qed.
End Correct.

(** ** Witnesses *)

(** A device that works; the time of a call is ten times the length of the log, and the
    registers are mapped where [base] says. *)
Definition demo_system (base : Z) : UserCalls :=
  {| uanswer l c := match c with Read _ => 8 | Mmap _ _ _ => base | TimeOfDay => 10 * zlen l | ReadReg a => a | _ => 5 end;
     modinfo_ccsr := (0x98000000, 0x4000000) |}.
Lemma failed_map_crashes_witness : main (H := demo_system MAP_FAILED) (Args 1 0 3 false) user_0 = None.
Proof. apply (failed_map_crashes (H := demo_system MAP_FAILED) 1 0 3); first [lia|intros; cbn; unfold MAP_FAILED; lia|done]. Defined.
Definition mapped_user : user := User [] [(0x1000, 0x2000)] (λ _, 0) (λ _, None) (λ _, 0) [].
Lemma samples_in_order_witness : ∃ arr w', read_loop (H := demo_system 0x1000) 2 0 5 0x1800 3 [no_stats; no_stats] mapped_user = Some (Some arr, w') ∧
  times (ulog w') = micro_sec <$> arr ∧ micro_sec <$> arr = [10; 50].
Proof.
  eexists _, _. split; [vm_compute; reflexivity|].
  destruct (samples_in_order (H := demo_system 0x1000) 2 0 5 0x1800 3 [no_stats; no_stats]
    [Stats 10 3 (Z.lor (Z.shiftl 0x1800 32) 0x1804); Stats 50 3 (Z.lor (Z.shiftl 0x1800 32) 0x1804)] mapped_user
    (User [] [(0x1000, 0x2000)] (λ _, 0) (λ _, None) (λ _, 0)
       [(Read 5, 8); (TimeOfDay, 10); (ReadReg 0x1800, 0x1800); (ReadReg 0x1804, 0x1804);
        (Read 5, 8); (TimeOfDay, 50); (ReadReg 0x1800, 0x1800); (ReadReg 0x1804, 0x1804)]))
    as (_ & _ & l & El & Ht); [reflexivity|vm_compute; reflexivity|].
  cbn [ulog mapped_user app] in El. subst l. split; [exact Ht|reflexivity].
Defined.
Lemma interval_wraps_witness : fst (interval (Stats 999500 0 0) (Stats 500 0 0)) = -999000.
Proof. rewrite (interval_wraps 999500 1000500) by (vm_compute; first [done|split; discriminate]). reflexivity. Defined.
(** The whole program on such a system: two intervals of equal length. *)
Example three_interrupts : fst <$> main (H := demo_system 0x1000) (Args 1 0 2 false) user_0 = Some (Some [(40, 0); (40, 0)]).
Proof. vm_compute. reflexivity. Qed.
