(* ===== verification/AppWdog.v ===== *)
(** * The test program of the watchdog (app/wdog/gul_wdog_app.c)

    It resets a modem at once, or waits for its watchdog and then resets it, over the
    library of GulWdogLib.v.  The events are waited for with epoll, whose answers are
    arguments.  [None] is a program that does not come back. *)
From S2P Require Import Prelude GulMsi GulPci GulWdog GulWdogCorrect GulWdogLib AppCalTable AppDevmem AppTools.
#[global] Open Scope Z_scope.

(** The modem, and whether it is reset at once; [None]: the usage is shown. *)
Definition validate_cli_args (args : list (list Z)) : option (Z * bool) :=
  match args with
  | [o; m] =>
      if decide (o ∈ [[45; 102]; [45; 70]]) then Some (atoi m, true) else
      if decide (o ∈ [[45; 119]; [45; 87]]) then Some (atoi m, false) else None
  | _ => None
  end.

Section App.
Context {E : Type} `{WdogUser E}.
Local Abbreviation L := (M (wlib E)).

(** [created], [added]: [epoll_create1] and [epoll_ctl] succeed; [epoll_wait] is the wait,
    which may take any time. *)
Variables (created added : bool) (epoll_wait : E → E * Z).

Definition REINIT_TIMEOUT : Z := 300.
(** Without epoll the program goes on as after an event.  [false]: there was none. *)
Definition wait_event : L bool :=
  if created && added then nfds ← sys epoll_wait; mret (bool_decide (nfds = 1)) else mret true.
(** The bytes that a read of the event gave; [None]: the wait was in vain. *)
Definition wait_reset : L (option Z) :=
  t ← gets req;
  if decide (wdog_eventfd t < 0) then r ← libwdog_readwait (dev_wdog_handle t); mret (Some r) else
  ok ← wait_event;
  if (ok : bool) then
    _ ← libwdog_get_modem_status; t ← gets req; r ← libwdog_readwait (wdog_eventfd t); mret (Some r)
  else mret None.
Definition run (force : bool) : L unit :=
  if force then _ ← libwdog_reinit_modem REINIT_TIMEOUT; mret tt else
  r ← wait_reset;
  if decide (r = Some 8) then _ ← libwdog_reinit_modem REINIT_TIMEOUT; mret tt else mret tt.
(** The status of the program. *)
Definition main (modem : Z) (force : bool) : L Z :=
  ret ← libwdog_register modem;
  if decide (ret < 0) then mret 1 else
  _ ← run force; _ ← libwdog_deregister; mret 0.

(** The program resets a modem only when it was told to, or after it read an event: when
    a read gives anything but the eight bytes of one, the modem is left alone. *)
Theorem no_event_no_reset (w w1 : wlib E) (r : option Z) : wait_reset w = Some (r, w1) → r ≠ Some 8 → run false w = Some (tt, w1).
Proof. intros Hw Hr. unfold run. rewrite M_bind_eq, Hw. by rewrite decide_False. Qed.

(** A failed registration is the end of the program, with its descriptors left to the
    kernel; any other end is the request to give the watchdog back. *)
Theorem ends_deregistered (modem : Z) (force : bool) (w w' : wlib E) (s : Z) : main modem force w = Some (s, w') →
  (s = 1 ∧ ∃ ret, libwdog_register modem w = Some (ret, w') ∧ ret < 0) ∨
  (s = 0 ∧ ∃ w1 ret, libwdog_deregister w1 = Some (ret, w')).
Proof.
  unfold main. rewrite M_bind_eq. destruct (libwdog_register modem w) as [[ret w1]|]; [|done].
  case_decide; [intros [= <- <-]; left; by eauto|]. rewrite M_bind_eq. destruct (run force w1) as [[[] w2]|]; [|done].
  rewrite M_bind_eq. destruct (libwdog_deregister w2) as [[ret' w3]|] eqn:E3; [|done]. intros [= <- <-]. right. by eauto.
Qed.
End App.

(** Over the driver of GulWdog.v: a forced reset of a modem that the bus does not let go
    never comes back, so that the modem is never given back either. *)
Theorem forced_reset_hangs `{WdogCalls} (fuel i : nat) (created added : bool) (epoll_wait : wdw → wdw * Z)
    (bus_remove bus_rescan : wdw → Z → wdw * Z) (modem : Z) (w : wdw) (t : wdog) (p : wdog_priv) :
  let U := driver_user fuel i bus_remove bus_rescan in
  (∃ w1 t1, @libwdog_register _ U modem (Wlib w t) = Some (0, Wlib w1 t1) ∧ wdogid t1 = 0 ∧
     wdog_dev_data_g w1 !! i = Some (Some p)) → 0 ≤ domain_nr p →
  (∀ l, wanswer l CopyFromUser = 0) → (∀ l, wanswer l CopyToUser = 0) →
  (∀ e d, bus_remove e d = (e, -1)) → (∀ l, wanswer l (ReadRemoved i) = 0) →
  @main _ U created added epoll_wait modem true (Wlib w t) = None.
Proof.
  intros U. subst U. intros (w1 & t1 & Er & Hid & Hp) Hd Hf Ht Hb Hz. unfold main. rewrite M_bind_eq, Er. rewrite decide_False by lia.
  unfold run. rewrite !M_bind_eq.
  by rewrite (proj2 (reinit_hangs fuel i bus_remove bus_rescan (Wlib w1 t1) p REINIT_TIMEOUT Hp Hid Hd Hf Ht Hb Hz)).
Qed.

(** ** Witnesses *)
#[local] Instance demo_calls : WdogCalls := {|
  wanswer l c := match c with
    | OfNode _ | KmallocDev _ | KmallocData _ | DeviceCreate _ | FilesLookup _ => 1
    | OfIrq _ => 40 | OfGpio _ => 12 | EventfdGet fd => fd | _ => 0 end;
  disable_sideband := false; GUL_WDOG_WARMUP_MODEM_RESET := 2 |}.
Lemma forced_reset_hangs_witness :
  @main _ (driver_user 1000 0 (λ e _, (e, -1)) (λ e _, (e, 5))) true true (λ e, (e, 1)) 0 true (Wlib demo_up wdog_0) = None.
Proof.
  refine (forced_reset_hangs 1000 0 true true (λ e, (e, 1)) (λ e _, (e, -1)) (λ e _, (e, 5)) 0 demo_up wdog_0
    (Priv 40 1 12 0 1 true (Some (Some 4)) true) _ _ _ _ _ _); [|vm_compute; discriminate|reflexivity..].
  eexists _, _. split; [vm_compute; reflexivity|]. split; reflexivity.
Defined.
