(* ===== verification/AppShbuf.v ===== *)
(** * The test of the shared buffer (app/modem_info/gul_shbuf_test.c)

    It asks the information device of a modem (GulModinfo.v) where the memory shared with
    the modem lies, maps it, and fills it a few times, with a look at the clock before and
    after. *)
From S2P Require Import Prelude GulMsi GulScratch GulLog GulCli GulModinfo GulModinfoCorrect AppCli AppCalTable AppDevmem AppTools.
#[global] Open Scope Z_scope.

(** ** The clock *)
Record timeval := Timeval { tv_sec : Z; tv_usec : Z }.
(** The loop that borrows from the seconds, and how many turns it has at most. *)
Fixpoint borrow (fuel : nat) (d : timeval) : option timeval :=
  match fuel with
  | O => None
  | S fuel => if decide (tv_usec d < 0) then borrow fuel (Timeval (tv_sec d - 1) (tv_usec d + 1000000)) else Some d
  end.
Definition find_time_diff (fuel : nat) (end_time start_time : timeval) : option (timeval * Z) :=
  d ← borrow fuel (Timeval (tv_sec end_time - tv_sec start_time) (tv_usec end_time - tv_usec start_time));
  Some (d, 1000000 * tv_sec d + tv_usec d).

Definition microseconds (t : timeval) : Z := 1000000 * tv_sec t + tv_usec t.
(** Of two times the kernel tells, the difference, normalised, after one turn at most. *)
Theorem time_diff_exact (fuel : nat) (e s : timeval) : (2 ≤ fuel)%nat → 0 ≤ tv_usec e < 1000000 → 0 ≤ tv_usec s < 1000000 →
  ∃ d, find_time_diff fuel e s = Some (d, microseconds e - microseconds s) ∧ 0 ≤ tv_usec d < 1000000.
Proof.
  intros Hf He Hs. destruct fuel as [|[|fuel]]; [lia..|]. unfold find_time_diff. cbn [borrow tv_usec tv_sec].
  case_decide; [rewrite decide_False by lia|]; cbn [mbind option_bind tv_sec tv_usec]; eexists;
    (split; [f_equal; f_equal; unfold microseconds; lia|cbn; lia]).
Qed.

(** ** The buffer *)

(** [strtol(s, 0, 0)]. *)
Definition strtol_any (l : list Z) : Z :=
  let '(neg, s) := sign (skip_blanks l) in
  let '(base, s) := base_of s in
  let v := fst (digits_of base s 0) in
  if neg : bool then Z.max (- v) (- LONG_MAX - 1) else Z.min v LONG_MAX.

Section Shbuf.
Context `{ModinfoIf, ScratchIf, HostIf}.

(** The place and the size: those of the arguments if there is one more than the usage
    tells of, otherwise those of the first region. *)
Definition place (args : list (list Z)) (mi : modinfo) : option (Z * Z) :=
  match args with
  | _ :: o :: s :: _ :: _ => Some (strtol_any o, strtol_any s)
  | _ => r ← mi_scratchregions mi !! 0%nat; Some (host_phy_addr r, region_size r)
  end.

(** [mmap]: the place has to be that of a page, and whole pages are mapped, here at
    [start]. *)
Definition do_mmap (q : params) (d : minfo_dev) (start offset size remap : Z) : option range :=
  if decide (Z.land offset (2 ^ PAGE_SHIFT - 1) ≠ 0) then None else
  snd (gul_modinfo_mmap q (Some d) (Vma (Z.shiftr (u64 offset) PAGE_SHIFT) start (start + page_align size)) remap).

(** The memory that is filled, if the program comes to it. *)
Definition main (o : minfo_opts) (q : params) (d : minfo_dev) (args : list (list Z)) (start remap : Z) : option range :=
  match args with
  | [] => None
  | _ =>
      '(offset, size) ← place args (gul_modinfo_get o d);
      if decide (size ≤ 0) then None else
      _ ← do_mmap q d start offset size remap;
      Some (Range offset size)
  end.

(** *** Pages *)
Lemma page_align_mod x : 0 ≤ PAGE_SHIFT ≤ 16 → 0 ≤ x → x + GulScratch.PAGE_SIZE < 2147483648 → page_align x mod GulScratch.PAGE_SIZE = 0.
Proof.
  intros Hp Hx Hb. assert (Hps := page_size_pos Hp). unfold page_align. set (P := GulScratch.PAGE_SIZE) in *. set (y := x + (P - 1)).
  assert (Hm := Z.mod_pos_bound y P ltac:(lia)). rewrite i32_small by lia.
  replace (y - y mod P) with (y / P * P) by (assert (E := Z.div_mod y P ltac:(lia)); lia). apply Z.mod_mul. lia.
Qed.
Lemma page_align_id x : 0 ≤ PAGE_SHIFT ≤ 16 → 0 ≤ x → x + GulScratch.PAGE_SIZE < 2147483648 → x mod GulScratch.PAGE_SIZE = 0 → page_align x = x.
Proof.
  intros Hp Hx Hb Hmod. assert (Hps := page_size_pos Hp). unfold page_align. set (P := GulScratch.PAGE_SIZE) in *.
  assert (Hr : (x + (P - 1)) mod P = P - 1).
  { rewrite <- Z.add_mod_idemp_l, Hmod by lia. apply Z.mod_small. lia. }
  rewrite Hr. rewrite i32_small by lia. lia.
Qed.
Lemma page_land x : 0 ≤ PAGE_SHIFT → Z.land x (2 ^ PAGE_SHIFT - 1) = x mod GulScratch.PAGE_SIZE.
Proof. intros Hp. replace (2 ^ PAGE_SHIFT - 1) with (Z.ones PAGE_SHIFT) by (rewrite Z.ones_equiv; lia). by apply Z.land_ones. Qed.

(** The shared part of a modem begins and ends at pages, if the memory does. *)
Lemma part_aligned p q memremap id s : sane p → gul_pcidev_init_sizes p = inr q → 0 ≤ id < modem_num p →
  scratch_buf_phys_addr p mod GulScratch.PAGE_SIZE = 0 →
  (∃ mi regs up, gul_scratch_buf_init memremap mi id q = (0, Some (s, regs, up))) →
  host_phys (allocator s) mod GulScratch.PAGE_SIZE = 0 ∧ modem_share_buf_size q mod GulScratch.PAGE_SIZE = 0 ∧
  page_align (modem_share_buf_size q) = modem_share_buf_size q.
Proof.
  intros Hs Hq Hid Hmod (mi & regs & up & Hi).
  destruct (init_sizes_spec p q Hs Hq) as (Hsh & Hho & Hrf & Hnum & Hph & Hgl & Hsum & Hfit).
  assert (Hpg := sane_page p Hs). assert (Hps := page_size_pos Hpg).
  assert (Hshare : modem_share_buf_size q mod GulScratch.PAGE_SIZE = 0).
  { revert Hq. unfold gul_pcidev_init_sizes. case_decide; [done|]. case_decide; [done|]. intros [= <-]. cbn [modem_share_buf_size].
    apply page_align_mod; [done|apply Hs|]. destruct Hs as [_ _ _ Hn (H1' & H2' & H3') Hb _ _]. rewrite fixed_sizes_eq in Hb. nia. }
  split; [|split; [done|apply page_align_id; try done; rewrite fixed_sizes_eq in Hsum; lia]].
  destruct Hs as [_ _ _ Hn0 _ _ [Hg0 Hg] [Hp0 Hp]]. unfold gul_scratch_buf_init in Hi.
  set (sum := fixed_sizes + _ + _ + _) in *. assert (Hsum0 : 16777216 ≤ sum) by (unfold sum; rewrite fixed_sizes_eq; lia).
  rewrite (i32_small sum) in Hi by lia. set (n := page_align sum) in *.
  destruct (page_align_bounds sum Hpg) as [Ha Ha']; [lia|lia|]. fold n in Ha, Ha'.
  assert (Hidn : 0 ≤ id * n ∧ id * n + n ≤ global_scratch_buf_size p) by nia.
  rewrite Hph, Hgl, (i32_small (id * n)) in Hi by lia. unfold u64 in Hi.
  rewrite !(Z.mod_small (scratch_buf_phys_addr p + _)) in Hi by lia. rewrite decide_False in Hi by lia.
  case_decide; [done|]. injection Hi as <- _ _. cbn [allocator host_phys].
  rewrite Z.add_mod, Hmod, Z.mul_mod by lia. assert (Hn : n mod GulScratch.PAGE_SIZE = 0) by (apply page_align_mod; [done|lia|lia]).
  by rewrite Hn, Z.mul_0_r, !Z.mod_0_l by lia.
Qed.

(** Without an address among its arguments, the program fills exactly the memory that is
    shared with the modem: what the information device reports is accepted by it, whole,
    and nothing beyond it is written. *)
Theorem shbuf_in_share (memremap : Z → Z → Z) (p q : params) (id : Z) (o : minfo_opts) (d : minfo_dev) (s : scratch)
    (args : list (list Z)) (start : Z) :
  sane p → gul_pcidev_init_sizes p = inr q →
  (∀ a n, n < 2147483648 → 0 < memremap a n ∧ memremap a n + n < 18446744073709551616) → 0 ≤ id < modem_num p →
  set_up memremap q id d s → modem_share_buf_size q ≠ 0 → scratch_buf_phys_addr p mod GulScratch.PAGE_SIZE = 0 →
  (1 ≤ length args ≤ 3)%nat → 0 ≤ start → start + modem_share_buf_size q < 18446744073709551616 →
  main o q d args start 0 = Some (Range (host_phys (allocator s)) (modem_share_buf_size q)).
Proof.
  intros Hs Hq Hmap Hid Hup Hshare Hphys Hargs Hst Hst'. assert (Hlaid := regions_laid p q memremap id d s Hs Hq Hmap Hid Hup).
  destruct Hup as [Hinit Hd]. destruct (part_aligned p q memremap id s Hs Hq Hid Hphys Hinit) as (Hhm & Hsm & Hal).
  destruct Hinit as (mi & regs & up & Hi). destruct (init_sizes_spec p q Hs Hq) as (Hsh & Hho & Hrf & _ & _ & _ & Hsum & _).
  destruct (init_scratch p q memremap id s mi regs up Hs Hq Hmap Hid Hi) as (_ & _ & _ & Htot & Hn & Hh & Hhn).
  assert (Hfirst := Hlaid 0%nat _ _ (share_first q Hshare)). destruct (allocate_keeps q s) as (Eh & _ & _). rewrite <- Hd in Eh.
  rewrite requests_total, fixed_sizes_eq in Htot. assert (Hpg := sane_page p Hs).
  assert (Hplace : place args (gul_modinfo_get o d) = Some (host_phys (allocator s), modem_share_buf_size q)).
  { assert (Hr : mi_scratchregions (gul_modinfo_get o d) !! 0%nat = Some (scr_region (dev_scratch d) GUL_SCRATCH_MODEM_SHARE)) by reflexivity.
    unfold place. destruct args as [|? [|? [|? [|]]]]; cbn in Hargs; try lia; rewrite Hr; cbn [mbind option_bind]; unfold scr_region;
      rewrite Hfirst; cbn [region_at phys_addr host_phy_addr region_size GulScratch.size]; rewrite Z.sub_diag, Eh;
      change (u32 0) with 0; rewrite Z.add_0_r; unfold u64; by rewrite Z.mod_small by lia. }
  unfold main. destruct args as [|a args]; [cbn in Hargs; lia|]. rewrite Hplace. cbn [mbind option_bind].
  rewrite decide_False by lia. unfold do_mmap. rewrite page_land, Hhm by lia. rewrite decide_False by lia.
  unfold gul_modinfo_mmap, vma_offset, vma_size. cbn [vm_pgoff vm_start vm_end]. rewrite Hal, Eh.
  set (h := host_phys (allocator s)) in *. set (n := modem_share_buf_size q) in *. unfold u64. rewrite (Z.mod_small h) by lia.
  assert (Hback : Z.shiftl (Z.shiftr h PAGE_SHIFT) PAGE_SHIFT = h).
  { rewrite Z.shiftr_div_pow2, Z.shiftl_mul_pow2 by lia. assert (E := Z.div_mod h GulScratch.PAGE_SIZE).
    unfold GulScratch.PAGE_SIZE in E, Hhm. rewrite Hhm in E. rewrite Z.mul_comm. symmetry. rewrite E at 1; [lia|]. apply Z.pow_nonzero; lia. }
  rewrite Hback. replace (start + n - start) with n by lia.
  assert (Hle : n ≤ shared_size q) by (unfold shared_size; lia).
  assert (Hub : h + shared_size q < 18446744073709551616) by (unfold shared_size; lia).
  rewrite !Z.mod_small by (rewrite ?Z.mod_small; lia). by rewrite decide_True by lia.
Qed.
End Shbuf.

#[local] Existing Instance GulScratch.demo_scratch.
#[local] Existing Instance GulScratch.demo_host.
Lemma time_diff_exact_witness : ∃ d, find_time_diff 2 (Timeval 8 5) (Timeval 7 999998) = Some (d, 7) ∧ 0 ≤ tv_usec d < 1000000.
Proof. apply (time_diff_exact 2 (Timeval 8 5) (Timeval 7 999998)); cbn; lia. Defined.
Lemma shbuf_in_share_witness : main demo_opts demo_accepted place_dev [[49]] 0x10000 0 =
  Some (Range (host_phys (allocator place_scratch)) (modem_share_buf_size demo_accepted)).
Proof.
  apply (shbuf_in_share (λ _ _, 0x1000) demo_params demo_accepted 1 demo_opts place_dev place_scratch [[49]] 0x10000 demo_sane).
  - vm_compute. reflexivity.
  - intros a n Hn. split; [reflexivity|lia].
  - vm_compute. split; [discriminate|reflexivity].
  - split; [exists 0; do 2 eexists; vm_compute; reflexivity|reflexivity].
  - discriminate.
  - reflexivity.
  - cbn. lia.
  - lia.
  - vm_compute. reflexivity.
Defined.
(** An address with its size is not enough to be used. *)
Example address_ignored (mi : modinfo) o n : place [[49]; o; n] mi = place [[49]] mi.
Proof. reflexivity. Qed.
