(* ===== verification/AppTvd.v ===== *)
(** * The thermal test program (app/tvd/gul_tvd_app.c)

    Shows the temperatures and the power of a modem over and over, or waits for thermal
    events while a thread moves the thresholds around the temperatures it reads.  The
    requests are those of lib/tvd in GulUserLibs; the members of [struct tvd] are those
    the driver of GulTvd reads and writes.  The thread and the loop of the events are
    each modelled alone: they share the structure, but the thread makes no use of the
    members an event is reported in. *)
From S2P Require Import Prelude GulMsi GulPci GulTvd GulText GulUserLibs AppCalTable AppDevmem AppTools.
#[global] Open Scope Z_scope.

(** The structure: what the program stores, what the driver stores, and the power. *)
Record tdata := TData { ins : user_field → Z; outs : user_out → Z; power_info : Z }.

(** What a request, or a read of an event, leaves in the structure; the parts of the union
    of the power, whose header is not there. *)
Class TvdSys := {
  fills : list (user_call * Z) → tvd_req → tdata → tdata; fills_read : list (user_call * Z) → tdata → tdata;
  current_val : Z → Z; shunt_volt : Z → Z; bus_volt : Z → Z; power_val : Z → Z }.

(** What is shown: a temperature, a text, or an event as its source and type. *)
Inductive item := Celsius (t : Z) | NotAvailable | Text (s : string) | Event (source type : Z).
Record app := App { usr : user; handle : tvd; data : tdata; sent : list (tvd_req * tdata); shown : list item }.

Definition MAX_TEMP_THRESHOLD : Z := 2.
Definition TEMP_HYSTERESIS : Z := 3.
Definition SET_TEMP_ABOVE_HYSTERESIS : Z := TEMP_HYSTERESIS + 1.
Definition SET_TEMP_BELOW_HYSTERESIS : Z := TEMP_HYSTERESIS + 2.
Definition INCREMENT_DECREMENT_TEMP_WITHIN_HYSTERESIS : Z := 1.
Definition INCREMENT_DECREMENT_TEMP_FROM_CURRENT_TEMP : Z := 20.
Definition RTD_TEMP_INVALID : Z := 0xffff.

#[export] Instance user_field_eq : EqDecision user_field.
Proof. solve_decision. Defined.

Section Tvd.
Context `{UserCalls, TvdSys, TvdIf}.
Local Abbreviation A := (M app).

Definition on_user {X} (m : M user X) : A X := λ w,
  match m (usr w) with Some (a, u) => Some (a, App u (handle w) (data w) (sent w) (shown w)) | None => None end.
Definition set_handle (t : tvd) : A unit := modify (λ w, App (usr w) t (data w) (sent w) (shown w)).
Definition set_data (f : tdata → tdata) : A unit := modify (λ w, App (usr w) (handle w) (f (data w)) (sent w) (shown w)).
Definition show (i : item) : A unit := modify (λ w, App (usr w) (handle w) (data w) (sent w) (shown w ++ [i])).
Definition put_in (f : user_field) (v : Z) : A unit :=
  set_data (λ d, TData (λ g, if decide (g = f) then v else ins d g) (outs d) (power_info d)).
Definition out (f : user_out) : A Z := gets (λ w, outs (data w) f).

(** A call of the library with the handle and the structure. *)
Definition request (r : tvd_req) (lib : Z → M user Z) : A Z :=
  _ ← modify (λ w, App (usr w) (handle w) (data w) (sent w ++ [(r, data w)]) (shown w));
  l ← gets (λ w, ulog (usr w));
  fd ← gets (λ w, dev_tvd_handle (handle w));
  ret ← on_user (lib fd);
  _ ← set_data (fills l r);
  mret ret.
Definition get_mtd_temp : A Z := request IOCTL_GUL_TVD_MTD_GET_TEMP libtvd_mtd_get_temp.
Definition get_ctd_temp : A Z := request IOCTL_GUL_TVD_CTD_GET_TEMP libtvd_ctd_get_temp.
Definition get_rtd_temp : A Z := request IOCTL_GUL_TVD_RTD_GET_TEMP libtvd_rtd_get_temp.
Definition pause : A unit := _ ← on_user (ucall Sleep); mret tt.

(** ** The thread that moves the thresholds *)

(** A sum of two [int]. *)
Definition int_add (a b : Z) : option Z := let s := a + b in if decide (-2147483648 ≤ s < 2147483648) then Some s else None.

(** The temperature is read, and the thresholds are put at two distances from it. *)
Definition ctd_test (lo hi : Z) : A unit :=
  _ ← get_ctd_temp;
  t ← out get_ctd_curr_temp;
  _ ← put_in ctd_threshold_count MAX_TEMP_THRESHOLD;
  a ← lift (int_add t lo); _ ← put_in (ctd_threshold 0) a;
  b ← lift (int_add t hi); _ ← put_in (ctd_threshold 1) b;
  _ ← request IOCTL_GUL_TVD_PROGRAM_CTD_THRESHOLD libtvd_ctd_threshold_update;
  pause.
Definition mtd_test (lo hi : Z) : A unit :=
  _ ← put_in mtd_site VSPA_TEMP;
  _ ← get_mtd_temp;
  t ← out get_mtd_curr_temp;
  _ ← put_in mtd_threshold_count MAX_TEMP_THRESHOLD;
  a ← lift (int_add t lo); _ ← put_in (mtd_threshold 0) a;
  b ← lift (int_add t hi); _ ← put_in (mtd_threshold 1) b;
  _ ← request IOCTL_GUL_TVD_PROGRAM_MTD_THRESHOLD libtvd_mtd_threshold_update;
  pause.
(** That of the RF card is the one read before the thread began. *)
Definition rtd_test (lo hi : Z) : A unit :=
  t ← out get_rtd_curr_temp;
  _ ← put_in rtd_threshold_count 2;
  a ← lift (int_add t lo); _ ← put_in (rtd_threshold 0) a;
  b ← lift (int_add t hi); _ ← put_in (rtd_threshold 1) b;
  _ ← request IOCTL_GUL_TVD_PROGRAM_RTD_THRESHOLD libtvd_rtd_threshold_update;
  mret tt.
Definition both_tests (lo hi : Z) : A unit := _ ← ctd_test lo hi; mtd_test lo hi.
Definition rtd_tests : A unit :=
  t ← out get_rtd_curr_temp;
  if decide (t = RTD_TEMP_INVALID) then mret tt else
  _ ← rtd_test (-10) 0; _ ← pause;
  _ ← rtd_test 0 (-10); _ ← pause;
  _ ← rtd_test 0 10; _ ← pause;
  rtd_test 10 0.
Definition test_round : A unit :=
  _ ← both_tests (- INCREMENT_DECREMENT_TEMP_FROM_CURRENT_TEMP) (- INCREMENT_DECREMENT_TEMP_WITHIN_HYSTERESIS);
  _ ← both_tests (- INCREMENT_DECREMENT_TEMP_FROM_CURRENT_TEMP) (- SET_TEMP_ABOVE_HYSTERESIS);
  _ ← both_tests INCREMENT_DECREMENT_TEMP_WITHIN_HYSTERESIS INCREMENT_DECREMENT_TEMP_FROM_CURRENT_TEMP;
  _ ← both_tests SET_TEMP_BELOW_HYSTERESIS INCREMENT_DECREMENT_TEMP_FROM_CURRENT_TEMP;
  rtd_tests.
(** The first [n] rounds of the thread, which has no end. *)
Fixpoint temp_test_thread (n : nat) : A unit := match n with O => mret tt | S n => _ ← test_round; temp_test_thread n end.

(** ** The options *)
Inductive tvd_opt := OptMtd | OptCtd | OptRf | OptPower | OptTime (arg : list Z) | OptEvent | OptUsage.
Record opts := Opts { modem_id : Z; modem_monitor : bool; cpu_monitor : bool; rf_monitor : bool; modem_power_monitor : bool;
  event_mode : bool; single_run : bool; time_delay : Z }.
Fixpoint options (l : list tvd_opt) (o : opts) : option opts :=
  match l with
  | [] => Some o
  | OptMtd :: l => options l (Opts (modem_id o) true (cpu_monitor o) (rf_monitor o) (modem_power_monitor o) (event_mode o) (single_run o) (time_delay o))
  | OptCtd :: l => options l (Opts (modem_id o) (modem_monitor o) true (rf_monitor o) (modem_power_monitor o) (event_mode o) (single_run o) (time_delay o))
  | OptRf :: l => options l (Opts (modem_id o) (modem_monitor o) (cpu_monitor o) true (modem_power_monitor o) (event_mode o) (single_run o) (time_delay o))
  | OptPower :: l => options l (Opts (modem_id o) (modem_monitor o) (cpu_monitor o) (rf_monitor o) true (event_mode o) (single_run o) (time_delay o))
  | OptTime s :: l => options l (Opts (modem_id o) (modem_monitor o) (cpu_monitor o) (rf_monitor o) (modem_power_monitor o) (event_mode o) false (atoi s))
  | OptEvent :: l => options l (Opts (modem_id o) (modem_monitor o) (cpu_monitor o) (rf_monitor o) (modem_power_monitor o) true (single_run o) (time_delay o))
  | OptUsage :: _ => None
  end.
(** [None]: the usage is shown, and the program ends well. *)
Definition validate_cli_args (args : list (list Z)) (l : list tvd_opt) : option opts :=
  match args with [] => None | m :: _ => options l (Opts (atoi m) false false false false false true 5) end.

(** ** Showing *)
(** [printf("%d.%d", v / 1000, v % 1000)]. *)
Definition decimal (v : Z) : string := dec (Z.quot v 1000) +:+ "." +:+ dec (Z.rem v 1000).
Definition power_text (p : Z) : string :=
  decimal (current_val p) +:+ "A" +:+ decimal (shunt_volt p) +:+ "V" +:+ decimal (bus_volt p) +:+ "V" +:+ decimal (power_val p) +:+ "W".

Definition show_modem : A unit :=
  _ ← put_in mtd_site COMBINED_TEMP;
  _ ← get_mtd_temp;
  t ← out get_mtd_curr_temp;
  _ ← show (Celsius (TMU_ADJUST_TEMP_HOST_CTXT (temp_part t VSPA_TEMP)));
  _ ← show (Celsius (TMU_ADJUST_TEMP_HOST_CTXT (temp_part t FECA_TEMP)));
  _ ← show (Celsius (TMU_ADJUST_TEMP_HOST_CTXT (temp_part t PCI_TEMP)));
  let d := TMU_ADJUST_TEMP_HOST_CTXT (temp_part t DIODE_TEMP) in
  show (if decide (d = MTD_TEMP_INVALID) then NotAvailable else Celsius d).
Definition show_cpu : A unit := _ ← get_ctd_temp; t ← out get_ctd_curr_temp; show (Celsius t).
Definition show_rf : A unit :=
  _ ← get_rtd_temp; t ← out get_rtd_curr_temp; if decide (t = RTD_TEMP_INVALID) then mret tt else show (Celsius t).
Definition show_power : A unit :=
  _ ← request IOCTL_GUL_TVD_MTD_GET_POWER_INFO libtvd_mtd_get_power_info;
  p ← gets (λ w, power_info (data w));
  show (if decide (p = 0) then Text "Power sensor not available / disabled!" else
        if decide (p = - EINVAL) then Text "Error: Unable to get power info." else Text (power_text p)).
Definition when (b : bool) (m : A unit) : A unit := if b then m else mret tt.
Definition poll_turn (o : opts) : A unit :=
  _ ← when (modem_monitor o) show_modem;
  _ ← when (cpu_monitor o) show_cpu;
  _ ← when (rf_monitor o) show_rf;
  when (modem_power_monitor o) show_power.
Fixpoint poll (fuel : nat) (o : opts) : A unit :=
  match fuel with
  | O => lift None
  | S fuel => _ ← poll_turn o; if single_run o then mret tt else _ ← pause; poll fuel o
  end.

(** ** Events *)

(** What is told of an event: its source, then the type or the types. *)
Definition show_event : A unit :=
  id ← out thermal_id;
  if decide (id = CTD_EVENT) then t ← out ctd_type; show (Event CTD_EVENT t) else
  if decide (id = MTD_EVENT) then t ← out mtd_type; show (Event MTD_EVENT t) else
  if decide (id = BOTH_CTD_MTD_EVENT) then
    c ← out ctd_type; _ ← show (Event CTD_EVENT c); m ← out mtd_type; show (Event MTD_EVENT m)
  else if decide (id = RTD_EVENT) then
    t ← out rtd_temp; if decide (t = RTD_TEMP_INVALID) then mret tt else e ← out rtd_type; show (Event RTD_EVENT e)
  else mret tt.
(** [None]: there is no descriptor to wait at. *)
Definition epoll_of (efd : Z) : A (option Z) :=
  if decide (efd < 0) then mret None else
  ep ← on_user (opened EpollCreate);
  if decide (ep = -1) then mret None else
  ok ← on_user (ucall (EpollAdd ep efd));
  if decide (ok = -1) then _ ← on_user (close ep); mret None else mret (if decide (ep < 0) then None else Some ep).
(** [false]: the read failed. *)
Definition event_turn (efd : Z) (ep : option Z) : A bool :=
  _ ← (match ep with
       | None => mret tt
       | Some ep => n ← on_user (ucall (EpollWait ep)); if decide (n = 1) then _ ← on_user (ucall (Read efd)); mret tt else mret tt
       end);
  l ← gets (λ w, ulog (usr w));
  fd ← gets (λ w, dev_tvd_handle (handle w));
  n ← on_user (libtvd_blockforEvent_read fd);
  _ ← set_data (fills_read l);
  if decide (n = 8) then _ ← show_event; mret true else mret false.
Fixpoint event_loop (fuel : nat) (efd : Z) (ep : option Z) : A unit :=
  match fuel with
  | O => lift None
  | S fuel => go ← event_turn efd ep; if go : bool then event_loop fuel efd ep else mret tt
  end.

(** The status the program ends with. *)
Definition program_hysteresis : A unit :=
  _ ← put_in mtd_hysteresis_val 3;
  _ ← request IOCTL_GUL_TVD_PROGRAM_MTD_HYSTERESIS libtvd_mtd_hysteresis_update;
  _ ← put_in ctd_hysteresis_val 3;
  _ ← request IOCTL_GUL_TVD_PROGRAM_CTD_HYSTERESIS libtvd_ctd_hysteresis_update;
  mret tt.
Definition by_events (fuel : nat) : A Z :=
  _ ← put_in mtd_site VSPA_TEMP;
  _ ← get_mtd_temp; _ ← get_ctd_temp; _ ← get_rtd_temp;
  efd ← gets (λ w, GulUserLibs.tvd_eventfd (handle w));
  ep ← epoll_of efd;
  _ ← event_loop fuel efd ep;
  mret 1.
Definition deregister : A unit :=
  t ← gets handle; '(_, t) ← on_user (libtvd_deregister t); set_handle t.
Definition run (fuel : nat) (o : opts) : A Z :=
  t ← gets handle;
  '(ret, t) ← on_user (libtvd_register t (modem_id o));
  _ ← set_handle t;
  if decide (ret < 0) then mret 1 else
  _ ← program_hysteresis;
  if event_mode o then by_events fuel else
  if negb (modem_monitor o || cpu_monitor o || rf_monitor o || modem_power_monitor o) then mret 0 else
  _ ← poll fuel o;
  _ ← deregister;
  mret 0.
Definition main (fuel : nat) (args : list (list Z)) (l : list tvd_opt) : A Z :=
  match validate_cli_args args l with None => mret 0 | Some o => run fuel o end.

(** ** Theorems *)

(** *** What the thread asks for *)
Definition two_thresholds (e : tvd_req * tdata) : Prop :=
  match e.1 with
  | IOCTL_GUL_TVD_PROGRAM_MTD_THRESHOLD => ins e.2 mtd_threshold_count = 2
  | IOCTL_GUL_TVD_PROGRAM_CTD_THRESHOLD => ins e.2 ctd_threshold_count = 2
  | IOCTL_GUL_TVD_PROGRAM_RTD_THRESHOLD => ins e.2 rtd_threshold_count = 2
  | _ => True
  end.
Definition counted (w : app) : Prop := Forall two_thresholds (sent w).
Local Ltac test_tac :=
  intros w Hw; cbv [both_tests ctd_test mtd_test rtd_test get_mtd_temp get_ctd_temp request pause out put_in set_data on_user ucall
    libtvd_ctd_get_temp libtvd_mtd_get_temp libtvd_ctd_threshold_update libtvd_mtd_threshold_update libtvd_rtd_threshold_update
    mbind M_bind gets modify mret M_ret lift]; cbn -[decide];
  destruct (int_add _ _); [|done]; cbn -[decide]; destruct (int_add _ _); [|done]; cbn -[decide];
  unfold counted in *; cbn [sent]; repeat (apply Forall_app; split); try exact Hw; repeat constructor; cbn; by rewrite ?decide_False, ?decide_True by done.
Lemma ctd_test_counted lo hi : hoare True counted (ctd_test lo hi) (λ _, counted).
Proof. test_tac. Qed.
Lemma mtd_test_counted lo hi : hoare True counted (mtd_test lo hi) (λ _, counted).
Proof. test_tac. Qed.
Lemma rtd_test_counted lo hi : hoare True counted (rtd_test lo hi) (λ _, counted).
Proof. test_tac. Qed.

Lemma both_tests_counted lo hi : hoare True counted (both_tests lo hi) (λ _, counted).
Proof. eapply hoare_bind; [apply ctd_test_counted|intros []; apply mtd_test_counted]. Qed.
Lemma pause_counted : hoare True counted pause (λ _, counted).
Proof. by intros w Hw. Qed.
Lemma out_counted f : hoare True counted (out f) (λ _, counted).
Proof. by intros w Hw. Qed.
Lemma round_counted : hoare True counted test_round (λ _, counted).
Proof.
  unfold test_round. do 4 (eapply hoare_bind; [apply both_tests_counted|intros []]). unfold rtd_tests.
  eapply hoare_bind; [apply out_counted|intros t; cbn beta]. case_decide; [by intros w Hw|].
  do 3 (eapply hoare_bind; [apply rtd_test_counted|intros []]; eapply hoare_bind; [apply pause_counted|intros []]).
  apply rtd_test_counted.
Qed.
Lemma thread_counted n : hoare True counted (temp_test_thread n) (λ _, counted).
Proof. induction n as [|n IH]; [by intros w Hw|]. eapply hoare_bind; [apply round_counted|by intros []]. Qed.
End Tvd.

(** *** That it goes on *)
Section Thread.
Context `{UserCalls, TvdSys, TvdIf}.

(** Temperatures that leave room for the distances. *)
Definition room (t : Z) : Prop := -2000000000 ≤ t ≤ 2000000000.
Definition tame (d : tdata) : Prop := room (outs d get_ctd_curr_temp) ∧ room (outs d get_mtd_curr_temp) ∧ room (outs d get_rtd_curr_temp).
Lemma int_add_room t d : room t → -20 ≤ d ≤ 20 → ∃ s, int_add t d = Some s.
Proof. unfold room, int_add. intros Ht Hd. cbv zeta. rewrite decide_True by lia. by eexists. Qed.
Definition tame_app (w : app) : Prop := tame (data w).
Hypothesis fills_tame : ∀ l r d, tame d → tame (fills l r d).
Local Ltac tame_tac :=
  intros Hlo Hhi w Hw; cbv [ctd_test mtd_test rtd_test get_mtd_temp get_ctd_temp request pause out put_in set_data on_user ucall
    libtvd_ctd_get_temp libtvd_mtd_get_temp libtvd_ctd_threshold_update libtvd_mtd_threshold_update libtvd_rtd_threshold_update
    mbind M_bind gets modify mret M_ret lift]; cbn -[decide].
Lemma ctd_test_goes lo hi : -20 ≤ lo ≤ 20 → -20 ≤ hi ≤ 20 → stays tame_app (ctd_test lo hi).
Proof.
  tame_tac. assert (Hf := fills_tame (ulog (usr w)) IOCTL_GUL_TVD_CTD_GET_TEMP (data w) Hw).
  destruct (int_add_room _ lo (proj1 Hf) Hlo) as [a ->]. cbn -[decide]. destruct (int_add_room _ hi (proj1 Hf) Hhi) as [b ->]. cbn -[decide].
  by apply fills_tame.
Qed.
Lemma mtd_test_goes lo hi : -20 ≤ lo ≤ 20 → -20 ≤ hi ≤ 20 → stays tame_app (mtd_test lo hi).
Proof.
  tame_tac. match goal with |- context [fills ?l ?r ?d] => assert (Hf := fills_tame l r d Hw) end.
  destruct (int_add_room _ lo (proj1 (proj2 Hf)) Hlo) as [a ->]. cbn -[decide].
  destruct (int_add_room _ hi (proj1 (proj2 Hf)) Hhi) as [b ->]. cbn -[decide]. by apply fills_tame.
Qed.
Lemma rtd_test_goes lo hi : -20 ≤ lo ≤ 20 → -20 ≤ hi ≤ 20 → stays tame_app (rtd_test lo hi).
Proof.
  tame_tac. destruct (int_add_room _ lo (proj2 (proj2 Hw)) Hlo) as [a ->]. cbn -[decide].
  destruct (int_add_room _ hi (proj2 (proj2 Hw)) Hhi) as [b ->]. cbn -[decide]. by apply fills_tame.
Qed.
Lemma pause_goes : stays tame_app pause.
Proof. by intros w Hw. Qed.

(** As long as the temperatures are not at the ends of the integers, every round of the
    thread runs through: no sum of a temperature and a distance overflows. *)
Theorem thread_goes_on n : stays tame_app (temp_test_thread n).
Proof.
  assert (Hb : ∀ lo hi, -20 ≤ lo ≤ 20 → -20 ≤ hi ≤ 20 → stays tame_app (both_tests lo hi)).
  { intros lo hi Hlo Hhi. apply stays_bind; [by apply ctd_test_goes|intros _; by apply mtd_test_goes]. }
  induction n as [|n IH]; [by intros w Hw|]. apply stays_bind; [|done].
  do 4 (apply stays_bind; [apply Hb; vm_compute; split; discriminate|intros _]). apply stays_bind; [by intros w Hw|intros t].
  case_decide; [by intros w Hw|].
  do 3 (apply stays_bind; [by apply rtd_test_goes|intros _]; apply stays_bind; [exact pause_goes|intros _]). by apply rtd_test_goes.
Qed.

(** What a request answers is not looked at: if it is refused, and leaves the structure as
    it is, the temperature of the last one is shown again. *)
Theorem refused_shown w : (∀ l r d, fills l r d = d) →
  ∃ w', show_cpu w = Some (tt, w') ∧ shown w' = shown w ++ [Celsius (outs (data w) get_ctd_curr_temp)].
Proof.
  intros Hf. unfold show_cpu. rewrite M_bind_eq. unfold get_ctd_temp, request. cbv [mbind M_bind gets modify on_user libtvd_ctd_get_temp ucall].
  cbn. rewrite Hf. by eexists.
Qed.
End Thread.

(** Digits are lost: 1.005 ampere is shown like half an ampere more. *)
Example digits_lost : decimal 1005 = "1.5" ∧ decimal 1050 = "1.50" ∧ decimal 1500 = "1.500" ∧ decimal (-1005) = "-1.-5".
Proof. split_and!; vm_compute; reflexivity. Qed.

(** *** The driver *)
Section Driver.
Context `{UserCalls, TvdSys, TvdIf, TvdCalls}.

(** Reads of the structure that give what it holds. *)
Definition reads (t : tdata) (src : user_field → M tvdw Z) : Prop := ∀ f w, ∃ w', src f w = Some (ins t f, w').
Lemma live_reads t : (∀ l f, tanswer l (GetUser f) = ins t f) → reads t live.
Proof. intros Hm f w. unfold live, tcall. rewrite Hm. by eexists. Qed.
Lemma fixed_reads t : reads t (fixed (ins t)).
Proof. by intros f w; eexists. Qed.
Lemma copy_runs t src uf hf d n w : reads t src → ∃ w', copy_thresholds src uf hf d n w = Some (tt, w').
Proof.
  intros Hr. revert w. induction n as [|n IH]; intros w; [by eexists|].
  cbn [copy_thresholds]. rewrite M_bind_eq. destruct (Hr (uf n) w) as [w1 ->]. rewrite M_bind_eq. cbn [tcall_ tcall mbind M_bind mret M_ret].
  apply IH.
Qed.
Lemma two_in_range : threshold_in_range (i32 2).
Proof. unfold threshold_in_range, TVD_MAX_THRESHOLD, TVD_MIN_THRESHOLD. change (i32 2) with 2. lia. Qed.
Lemma tcall_runs c (w : tvdw) : ∃ w', tcall_ c w = Some (tt, w').
Proof. by eexists. Qed.
Local Ltac read_tac src Hr := rewrite M_bind_eq; match goal with |- context [src ?f ?w] => destruct (Hr f w) as [? ->] end.
Local Ltac accept_tac t src Hr Hc :=
  read_tac src Hr; rewrite Hc, (decide_True (P := threshold_in_range _)) by exact two_in_range; read_tac src Hr;
  rewrite M_bind_eq; match goal with |- context [tcall_ ?c ?u] => destruct (tcall_runs c u) as [? ->] end; rewrite M_bind_eq;
  match goal with |- context [copy_thresholds ?s ?f ?h ?d ?n ?u] => destruct (copy_runs t s f h d n u Hr) as [? ->] end;
  by eexists.
Lemma mtd_accepted t src d w : reads t src → need_dev d w = Some (tt, w) → ins t mtd_threshold_count = 2 →
  ∃ w', mtd_update_threshold src d w = Some (0, w').
Proof. intros Hr Hd Hc. unfold mtd_update_threshold. rewrite M_bind_eq, Hd. accept_tac t src Hr Hc. Qed.
Lemma rtd_accepted t src d w : reads t src → need_dev d w = Some (tt, w) → ins t rtd_threshold_count = 2 →
  ∃ w', rtd_update_threshold src d w = Some (0, w').
Proof. intros Hr Hd Hc. unfold rtd_update_threshold. rewrite M_bind_eq, Hd. accept_tac t src Hr Hc. Qed.
Lemma ctd_accepted t src w : reads t src → ins t ctd_threshold_count = 2 →
  ∃ l w', ctd_update_threshold src w =
    Some (tanswer l (CtdThreshold 2 [i32 (ins t (ctd_threshold 0)); i32 (ins t (ctd_threshold 1))]), w').
Proof.
  intros Hr Hc. unfold ctd_update_threshold. do 2 read_tac src Hr. rewrite Hc, decide_True by exact two_in_range.
  change (Z.to_nat (i32 2)) with 2%nat. rewrite M_bind_eq. cbn [ctd_thresholds replicate]. do 2 read_tac src Hr.
  cbn [mret M_ret insert list_insert tcall]. change (i32 2) with 2. by do 2 eexists.
Qed.

(** With a modem that is there, and the structure of the program in the memory of the
    caller, the driver refuses no request of the thread for thresholds: those of the
    modem and of the RF card are stored, those of the host are handed to its sensor with
    both values. *)
Theorem thresholds_accepted (n : nat) (w w' : app) (r : tvd_req) (t : tdata) (d : nat) (dw : tvdw) :
  sent w = [] → temp_test_thread n w = Some (tt, w') → (r, t) ∈ sent w' →
  need_dev d dw = Some (tt, dw) → (∀ l f, tanswer l (GetUser f) = ins t f) →
  match r with
  | IOCTL_GUL_TVD_PROGRAM_MTD_THRESHOLD => ∃ dw', mtd_update_threshold live d dw = Some (0, dw')
  | IOCTL_GUL_TVD_PROGRAM_RTD_THRESHOLD => ∃ dw', rtd_update_threshold (fixed (ins t)) d dw = Some (0, dw')
  | IOCTL_GUL_TVD_PROGRAM_CTD_THRESHOLD => ∃ l dw', ctd_update_threshold live dw =
      Some (tanswer l (CtdThreshold 2 [i32 (ins t (ctd_threshold 0)); i32 (ins t (ctd_threshold 1))]), dw')
  | _ => True
  end.
Proof.
  intros Hs Hrun Hin Hdev Hmem. assert (Hc := thread_counted n w ltac:(unfold counted; rewrite Hs; constructor)). rewrite Hrun in Hc.
  unfold counted in Hc. rewrite Forall_forall in Hc. specialize (Hc _ Hin). unfold two_thresholds in Hc. cbn [fst snd] in Hc.
  destruct r; try done.
  - destruct (mtd_accepted t live d dw (live_reads t Hmem) Hdev Hc) as [l ->]. by eexists.
  - destruct (rtd_accepted t _ d dw (fixed_reads t) Hdev Hc) as [l ->]. by eexists.
  - destruct (ctd_accepted t live dw (live_reads t Hmem) Hc) as (l & w1 & ->). by do 2 eexists.
Qed.
End Driver.

(** *** The run of a poll *)
Section Poll.
Context `{UserCalls, TvdSys, TvdIf}.

(** The structure the program starts with has descriptor 0 for the events, which does not
    matter once the device is open. *)
Lemma register_runs t m u : ∃ r t' u', libtvd_register t m u = Some ((r, t'), u') ∧
  (0 ≤ r → held u' = (tvd_fds t' ++ fds u, maps u)).
Proof.
  destruct (tvd_register_holds (Tvd (tvdid t) (dev_tvd_handle t) (-1)) m (fds u) (maps u) ltac:(cbn; lia) u eq_refl) as ([r t'] & u' & E & Hh).
  cbn [snd] in Hh. unfold libtvd_register in *. rewrite M_bind_eq in *. destruct (open_devtvd m u) as [[fd u2]|]; [|done].
  case_decide; [|by do 3 eexists]. do 3 eexists. split; [reflexivity|]. unfold TVD_OPEN_FAIL. lia.
Qed.

(** What the process holds, and the handle, between the registration and its end. *)
Definition between (h : list Z * list (Z * Z)) (t : tvd) (w : app) : Prop := held (usr w) = h ∧ handle w = t.
Lemma stays_request h t r lib : (∀ fd, ∃ c, lib fd = ucall c) → stays (between h t) (request r lib).
Proof.
  intros Hl w [<- <-]. unfold request. rewrite M_bind_eq. cbn [modify]. rewrite M_bind_eq. cbn [gets]. rewrite M_bind_eq. cbn [gets].
  rewrite M_bind_eq. cbn [handle]. destruct (Hl (dev_tvd_handle (handle w))) as [c ->]. by split.
Qed.
Lemma stays_show h t i : stays (between h t) (show i).
Proof. by intros w [<- <-]. Qed.
Lemma stays_put_in h t f v : stays (between h t) (put_in f v).
Proof. by intros w [<- <-]. Qed.
Lemma stays_out h t f : stays (between h t) (out f).
Proof. by intros w [<- <-]. Qed.
#[local] Hint Resolve stays_show stays_put_in stays_out : stays.
#[local] Hint Extern 1 (stays _ (request _ _)) => (apply stays_request; intros ?; eexists; reflexivity) : stays.
Lemma stays_turn h t o : stays (between h t) (poll_turn o).
Proof.
  unfold poll_turn, when, show_modem, show_cpu, show_rf, show_power, get_mtd_temp, get_ctd_temp, get_rtd_temp. stays_tac.
Qed.
Lemma stays_hysteresis h t : stays (between h t) program_hysteresis.
Proof. unfold program_hysteresis. stays_tac. Qed.
Lemma stays_runs h t (m : M app unit) w : stays (between h t) m → held (usr w) = h → handle w = t →
  ∃ w', m w = Some (tt, w') ∧ held (usr w') = h ∧ handle w' = t.
Proof. intros Hm Hh Ht. specialize (Hm w (conj Hh Ht)). destruct (m w) as [[[] w']|]; [|done]. by exists w'. Qed.

(** A single poll comes to its end whatever the system answers, and unless the device could
    not be registered the process then has the descriptors it had before. *)
Theorem poll_ends (fuel : nat) (o : opts) (w : app) : event_mode o = false → single_run o = true → (0 < fuel)%nat →
  modem_monitor o || cpu_monitor o || rf_monitor o || modem_power_monitor o = true → Forall (λ x, 0 ≤ x) (fds (usr w)) →
  ∃ s w', run fuel o w = Some (s, w') ∧ (s = 1 ∨ s = 0 ∧ held (usr w') = held (usr w)).
Proof.
  intros He Hs Hf Hm Hfds. unfold run. rewrite M_bind_eq. cbn [gets]. rewrite M_bind_eq. unfold on_user at 1.
  destruct (register_runs (handle w) (modem_id o) (usr w)) as (r & t & u & E & Hu). rewrite E. rewrite M_bind_eq. cbn [set_handle modify].
  case_decide as Hr; [by do 2 eexists; split; [reflexivity|left]|]. specialize (Hu ltac:(lia)). rewrite He, Hm.
  cbn [negb usr handle data sent shown]. set (w1 := App u t _ _ _). change (held u) with (held (usr w1)) in Hu.
  rewrite M_bind_eq. destruct (stays_runs _ t _ _ (stays_hysteresis _ t) Hu eq_refl) as (w2 & -> & Hh2 & Ht2).
  rewrite M_bind_eq. destruct fuel as [|fuel]; [lia|]. cbn [poll]. rewrite M_bind_eq.
  destruct (stays_runs _ t _ _ (stays_turn _ t o) Hh2 Ht2) as (w3 & -> & Hh3 & Ht3). rewrite Hs. cbn [mret M_ret]. rewrite M_bind_eq.
  unfold deregister. rewrite M_bind_eq. cbn [gets]. rewrite Ht3, M_bind_eq. unfold on_user.
  destruct (tvd_deregister_frees t (fds (usr w)) (maps (usr w)) Hfds (usr w3) Hh3) as ([r4 t4] & u4 & -> & Hh4).
  cbn [set_handle modify mret M_ret]. do 2 eexists. split; [reflexivity|]. right. by split.
Qed.
End Poll.

(** ** Witnesses *)

(** A system whose sensors say 50, 45 and 30 degrees. *)
#[local] Instance demo_sys : TvdSys := {|
  fills l r d := TData (ins d) (λ f, match f with
    | get_ctd_curr_temp => 50 | get_mtd_curr_temp => 45 | get_rtd_curr_temp => 30 | f => outs d f end) (power_info d);
  fills_read l d := d; current_val p := p; shunt_volt p := p; bus_volt p := p; power_val p := p |}.
#[local] Instance demo_if : TvdIf := {|
  temp_part w s := w; set_temp_part w s v := v; cpu_to_be32 x := x; TEMP_ADJUST := 0; INVALID_CTD_TEMP := 0xffff;
  TVD_MTD_CURENT_TEMP_REQUESTED := 1; TVD_RTD_CURENT_TEMP_REQUESTED := 2; TVD_MTD_POWER_INFO_REQUESTED := 3;
  TVD_MTD_HYSTERESIS_UPDATE_REQUESTED := 4 |}.
Definition tdata_0 : tdata := TData (λ _, 0) (λ _, 0) 0.
Definition app_0 : app := App user_0 (Tvd 0 0 0) tdata_0 [] [].
Definition demo_opts : opts := Opts 1 true true true true false true 5.
Lemma poll_ends_witness : ∃ s w', run 1 demo_opts app_0 = Some (s, w') ∧ (s = 1 ∨ s = 0 ∧ held (usr w') = ([], [])).
Proof. apply (poll_ends 1 demo_opts app_0); [reflexivity|reflexivity|lia|reflexivity|constructor]. Defined.
(** What it shows. *)
Example poll_shows : match run 1 demo_opts app_0 with
  | Some (0, w) => shown w = [Celsius 45; Celsius 45; Celsius 45; Celsius 45; Celsius 50; Celsius 30; Text "Power sensor not available / disabled!"]
  | _ => False end.
Proof. vm_compute. reflexivity. Qed.
Lemma thread_goes_on_witness : ∃ w', temp_test_thread 2 app_0 = Some (tt, w').
Proof.
  assert (Ht : hoare False tame_app (temp_test_thread 2) (λ _, tame_app)).
  { apply (thread_goes_on (ltac:(intros l r d (H1 & H2 & H3); repeat split; cbn; lia)) 2). }
  specialize (Ht app_0 ltac:(repeat split; cbn; lia)). destruct (temp_test_thread 2 app_0) as [[[] w']|]; [by exists w'|done].
Defined.
#[local] Instance demo_stale : TvdSys := {|
  fills l r d := d; fills_read l d := d; current_val p := p; shunt_volt p := p; bus_volt p := p; power_val p := p |}.
Lemma refused_shown_witness : ∃ w', show_cpu app_0 = Some (tt, w') ∧ shown w' = [Celsius 0].
Proof. apply (refused_shown app_0). reflexivity. Defined.
Definition demo_round : app := match @temp_test_thread _ demo_sys 1 app_0 with Some (_, w) => w | None => app_0 end.
Definition demo_asked : tdata := snd (nth 3 (sent demo_round) (IOCTL_GUL_TVD_MTD_GET_TEMP, tdata_0)).
#[local] Instance demo_driver : TvdCalls := {| tanswer l c := match c with GetUser f => ins demo_asked f | _ => 0 end; cpu_of i := 0 |}.
Definition demo_tvdw : tvdw := Tvdw None [true] [] [] [] [].
Lemma demo_runs : @temp_test_thread _ demo_sys 1 app_0 = Some (tt, demo_round).
Proof.
  assert (Hm : match @temp_test_thread _ demo_sys 1 app_0 with Some _ => true | None => false end = true) by (vm_compute; reflexivity).
  unfold demo_round. by destruct (@temp_test_thread _ demo_sys 1 app_0) as [[[] w]|].
Qed.
Lemma entry_of {X Y} (l : list (X * Y)) n d a : fst <$> l !! n = Some a → (a, snd (nth n l d)) ∈ l.
Proof.
  intros Hl. destruct (l !! n) as [[x y]|] eqn:E; [|done]. injection Hl as ->. rewrite (nth_lookup_Some l n d _ E).
  by apply (list_elem_of_lookup_2 _ n).
Qed.
Lemma demo_entry : (IOCTL_GUL_TVD_PROGRAM_MTD_THRESHOLD, demo_asked) ∈ sent demo_round.
Proof.
  assert (Hm : fst <$> sent demo_round !! 3%nat = Some IOCTL_GUL_TVD_PROGRAM_MTD_THRESHOLD) by (vm_compute; reflexivity).
  exact (entry_of (sent demo_round) 3 _ _ Hm).
Qed.
Lemma thresholds_accepted_witness : (∃ w', mtd_update_threshold live 0 demo_tvdw = Some (0, w')) ∧
  ins demo_asked (mtd_threshold 0) = 25 ∧ ins demo_asked (mtd_threshold 1) = 44.
Proof.
  split; [|split; vm_compute; reflexivity].
  refine (@thresholds_accepted _ demo_sys _ 1 app_0 demo_round IOCTL_GUL_TVD_PROGRAM_MTD_THRESHOLD demo_asked 0 demo_tvdw _ demo_runs demo_entry _ _);
    [reflexivity|reflexivity|]. intros l f. cbn. reflexivity.
Defined.
