(* ===== verification/AppShell.v ===== *)
(** * The loop of the shell, and the training program (app/cli/gul_cli.c, clpoc_refapp.c)

    The arguments of the shell, its loop over what is typed or over the lines of a file,
    and a program that runs a script at each event of a modem.  How a line is read and
    sent is AppCli; the library and the driver are GulCli.  What the user does is a list:
    what the wait for input gives each time, and whether Ctrl+C is pressed meanwhile.
    [fuel] bounds the loops of the driver and the waits for an answer. *)
From S2P Require Import Prelude GulMsi GulScratch GulLog GulCli GulCliCorrect GulModinfo GulModinfoCorrect AppCli AppCalTable AppDevmem.
#[global] Open Scope Z_scope.

(** ** Arguments *)
Inductive cli_opt := OptModem (arg : list Z) | OptCore (arg : list Z) | OptCmd (arg : list Z) | OptFile | OptEvents | OptNoValue | OptHelp.
Record run_opt := RunOpt { modem_id : Z; core_id : Z; mode : cmd_mode; cmd_send : bool; wait_events : bool; cmd_line : list Z; command_file : bool }.
Definition run_opt_0 : run_opt := RunOpt 0 0 SYNC_MODE false false (replicate 128 0) false.
Definition strtoul (l : list Z) : Z := (strtoull_any l).1.1.
(** [snprintf(line, MAX_CMD_LEN - 1, "%s", arg)]. *)
Definition put_line (arg line : list Z) : list Z :=
  let s := take (Z.to_nat (MAX_CMD_LEN - 2)) arg in s ++ [0] ++ drop (S (length s)) line.
Fixpoint get_options (l : list cli_opt) (o : run_opt) : Z + run_opt :=
  match l with
  | [] => inr o
  | OptModem s :: l => get_options l (RunOpt (u32 (strtoul s)) (core_id o) (mode o) (cmd_send o) (wait_events o) (cmd_line o) (command_file o))
  | OptCore s :: l => get_options l (RunOpt (modem_id o) (u32 (strtoul s)) (mode o) (cmd_send o) (wait_events o) (cmd_line o) (command_file o))
  | OptCmd s :: l => get_options l (RunOpt (modem_id o) (core_id o) ASYNC_MODE true (wait_events o) (put_line s (cmd_line o)) (command_file o))
  | OptFile :: l => get_options l (RunOpt (modem_id o) (core_id o) (mode o) (cmd_send o) (wait_events o) (cmd_line o) true)
  | OptEvents :: l => get_options l (RunOpt (modem_id o) (core_id o) (mode o) (cmd_send o) true (cmd_line o) (command_file o))
  | OptNoValue :: _ => inl (-1)
  | OptHelp :: _ => inl 0
  end.
(** [cores]: how many there are, of a header that is not there. *)
Definition parse_arguments (cores : Z) (l : list cli_opt) : Z + run_opt :=
  match get_options l run_opt_0 with
  | inl s => inl s
  | inr o => if decide (4 ≤ modem_id o) then inl 0 else if decide (cores ≤ core_id o) then inl 0 else inr o
  end.

(** ** The loop *)
Record shell := Shell { sys : cliw; ct : cli; keep_running : bool; opts : run_opt; kept : list (Z * list Z); slept : list Z }.

(** What the wait for input gives: an error, nothing in time, or at most [MAX_CMD_LEN]
    characters. *)
Inductive input := SelectFails | NoInput | Typed (l : list Z).
Inductive next := Again | Leave | ExitWith (status : Z).

Section Shell.
Context `{CliCalls, CliMsgs} (fuel : nat) (info : option modinfo).
Local Abbreviation W := (M shell).

Definition on_cli {A} (m : M cliw A) : W A := λ w,
  match m (sys w) with Some (a, s) => Some (a, Shell s (ct w) (keep_running w) (opts w) (kept w) (slept w)) | None => None end.
Definition set_cli (t : cli) : W unit := modify (λ w, Shell (sys w) t (keep_running w) (opts w) (kept w) (slept w)).
Definition set_keep (b : bool) : W unit := modify (λ w, Shell (sys w) (ct w) b (opts w) (kept w) (slept w)).
Definition set_cmd (m : cmd_mode) (l : list Z) : W unit := modify (λ w, let o := opts w in
  Shell (sys w) (ct w) (keep_running w) (RunOpt (modem_id o) (core_id o) m (cmd_send o) (wait_events o) l (command_file o)) (kept w) (slept w)).
Definition now {A} (f : run_opt → A) : W A := gets (λ w, f (opts w)).

(** A command is sent; what is stored in memory, and the seconds slept, are kept. *)
Definition send (cmd : list Z) : W unit :=
  m ← now mode; core ← now core_id; l ← now cmd_line; t ← gets ct;
  '(t, bytes, s) ← on_cli (send_cli_cmdline fuel info m core l cmd t);
  modify (λ w, Shell (sys w) t (keep_running w) (opts w) (kept w ++ bytes) (slept w ++ match s with Some n => [n] | None => [] end)).
Definition dump_log : W unit := t ← gets ct; _ ← on_cli (libcli_dump_core_log fuel t); mret tt.
Definition read_event : W Z := t ← gets ct; '(r, t) ← on_cli (libcli_blockforEvent_read t); _ ← set_cli t; mret r.
(** Until a read is answered. *)
Fixpoint await (n : nat) : W unit :=
  match n with O => lift None | S n => r ← read_event; if decide (r < 0) then await n else mret tt end.

(** A line is in its array; Ctrl+C was pressed before, or not.  That is forgotten, because
    the mode is chosen then. *)
Definition run_line (interrupted : bool) (line : list Z) : W next :=
  _ ← (if interrupted then set_keep false else mret tt);
  _ ← set_keep true;
  c ← lift (select_cmd_mode line);
  match c with
  | inl _ => mret (ExitWith 0)
  | inr (m, line) =>
      _ ← set_cmd m line;
      _ ← send line;
      if decide (m = SYNC_MODE) then _ ← await fuel; _ ← dump_log; mret Again else mret Again
  end.
Definition turn (interrupted : bool) (i : input) : W next :=
  m ← now mode;
  _ ← (if decide (m = ASYNC_MODE) then mret tt else dump_log);
  _ ← set_cmd m (replicate 128 0);
  match i with
  | SelectFails => mret Leave
  | NoInput => _ ← (if interrupted then set_keep false else mret tt); mret Again
  | Typed l => let line := take 128 l ++ replicate (128 - length l) 0 in _ ← set_cmd m line; run_line interrupted line
  end.
(** [Again]: it still waits, after all that was typed. *)
Fixpoint typed_loop (l : list (bool * input)) : W next :=
  match l with
  | [] => mret Again
  | (b, i) :: l =>
      go ← gets keep_running;
      if negb go then mret Leave else
      n ← turn b i;
      match n with Again => typed_loop l | n => mret n end
  end.

(** *** Lines of a file *)

(** [fgets(line, 128, file)]: up to a newline, or 127 characters. *)
Fixpoint fgets (n : nat) (l : list Z) : list Z * list Z :=
  match n, l with
  | S n, c :: l => if decide (c = 10) then ([10], l) else let '(s, r) := fgets n l in (c :: s, r)
  | _, _ => ([], l)
  end.
(** The array keeps what lies behind the line. *)
Definition got (line s : list Z) : list Z := s ++ [0] ++ drop (S (length s)) line.
Fixpoint file_loop (n : nat) (text line : list Z) : W unit :=
  match n, text with
  | S n, _ :: _ =>
      let '(s, text) := fgets 127 text in
      let line := got line s in
      _ ← send line; _ ← await fuel; _ ← dump_log; file_loop n text line
  | _, _ => mret tt
  end.
(** [stack]: what the array holds before the first line.  [None]: the file cannot be
    opened. *)
Definition run_file (file : option (list Z)) (stack : list Z) : W next :=
  match file with
  | None => mret (ExitWith (-1))
  | Some text =>
      m ← now mode;
      _ ← (if decide (m = ASYNC_MODE) then mret tt else dump_log);
      _ ← set_cmd m (replicate 128 0);
      _ ← file_loop (length text) text stack;
      _ ← dump_log;
      mret (ExitWith 0)
  end.
Definition run_loop_for_cmd (typed : list (bool * input)) (file : option (list Z)) (stack : list Z) : W next :=
  f ← now command_file;
  if f : bool then run_file file stack else typed_loop typed.

(** ** The programs *)
Definition register : W Z :=
  t ← gets ct; m ← now modem_id; c ← now core_id;
  '(r, t) ← on_cli (libcli_register fuel t m c);
  _ ← set_cli t; mret r.
Definition deregister : W unit := t ← gets ct; '(_, t) ← on_cli (libcli_deregister fuel t); set_cli t.
(** The status, or none while it waits for input. *)
Definition main (typed : list (bool * input)) (file : option (list Z)) (stack : list Z) : W (option Z) :=
  r ← register;
  if decide (r < 0) then mret (Some 1) else
  one ← now cmd_send;
  if one : bool then
    l ← now cmd_line; _ ← send l;
    e ← now wait_events;
    _ ← (if e : bool then await fuel else mret tt);
    _ ← deregister; mret (Some 0)
  else
    n ← run_loop_for_cmd typed file stack;
    match n with
    | Again => mret None
    | Leave => _ ← deregister; mret (Some 0)
    | ExitWith s => mret (Some s)
    end.

(** The training program: a turn for each of the list, in which Ctrl+C may be pressed
    before the test; how often the script was run. *)
Fixpoint training_loop (l : list bool) (k : nat) : W (option nat) :=
  match l with
  | [] => mret None
  | stop :: l =>
      _ ← (if stop : bool then set_keep false else mret tt);
      go ← gets keep_running;
      if negb go then mret (Some k) else
      r ← read_event;
      if decide (r < 0) then mret (Some k) else training_loop l (S k)
  end.
Definition training_main (l : list bool) : W (option Z * nat) :=
  r ← register;
  if decide (r < 0) then mret (Some 1, 0%nat) else
  k ← training_loop l 0;
  match k with None => mret (None, 0%nat) | Some k => _ ← deregister; mret (Some 0, k) end.
End Shell.

(** ** Theorems *)

(** *** Arguments *)
Lemma put_line_terminated arg line : Forall (λ c, c ≠ 0) arg → ∃ n, strlen (put_line arg line) = Some n ∧ n ≤ 126.
Proof.
  intros Ha. unfold put_line. set (s := take _ arg). assert (Hs : Forall (λ c, c ≠ 0) s) by (by apply Forall_take).
  exists (zlen s). split; [exact (strlen_app s _ Hs)|]. unfold s, zlen, MAX_CMD_LEN. rewrite length_take. lia.
Qed.
Definition nonzero_args (o : cli_opt) : Prop := match o with OptCmd s => Forall (λ c, c ≠ 0) s | _ => True end.
(** Arguments that are accepted name a modem and a core there is, and a command that has
    its end in the array. *)
Theorem arguments_sound (cores : Z) (l : list cli_opt) (o : run_opt) : Forall nonzero_args l →
  parse_arguments cores l = inr o →
  0 ≤ modem_id o < 4 ∧ 0 ≤ core_id o < cores ∧ ∃ n, strlen (cmd_line o) = Some n ∧ n ≤ 126.
Proof.
  intros Hl. unfold parse_arguments. destruct (get_options l run_opt_0) as [s|o'] eqn:E; [done|].
  case_decide; [done|]. case_decide; [done|]. intros [= ->].
  assert (Hinv : ∀ l o1 o2, Forall nonzero_args l → get_options l o1 = inr o2 → 0 ≤ modem_id o1 → 0 ≤ core_id o1 →
    (∃ n, strlen (cmd_line o1) = Some n ∧ n ≤ 126) → 0 ≤ modem_id o2 ∧ 0 ≤ core_id o2 ∧ ∃ n, strlen (cmd_line o2) = Some n ∧ n ≤ 126).
  { clear. induction l as [|a l IH]; intros o1 o2 Hl Hg Hm Hc Hs; [by injection Hg as ->|].
    apply Forall_cons in Hl as [Ha Hl]. destruct a; cbn in Hg; try done; eapply IH in Hg; try done; cbn; try (by unfold u32; apply Z.mod_pos_bound).
    by apply put_line_terminated. }
  destruct (Hinv l run_opt_0 o Hl E) as (Hm & Hc & Hs); [done|done|by exists 0|]. split; [lia|split; [lia|done]].
Qed.

Section Runs.
Context `{CliCalls, CliMsgs} (fuel : nat) (info : option modinfo).

Lemma send_sent cmd w w' : send fuel info cmd w = Some (tt, w') →
  keep_running w' = keep_running w ∧ mode (opts w') = mode (opts w) ∧
  kept w' = kept w ++ match info with
    | Some mi => match command_place mi with Some (host, _) => [(host, take 128 cmd)] | None => [] end | None => [] end.
Proof.
  unfold send, now. rewrite M_bind_eq. cbn [gets]. rewrite M_bind_eq. cbn [gets]. rewrite M_bind_eq. cbn [gets]. rewrite M_bind_eq. cbn [gets].
  rewrite M_bind_eq. unfold on_cli, send_cli_cmdline. rewrite M_bind_eq. destruct (strlen _); [|done]. cbn [lift].
  destruct info as [mi|]; [|intros [= <-]; cbn; by rewrite app_nil_r].
  rewrite M_bind_eq. destruct (command_place mi) as [[host mdm]|]; [|done]. cbn [lift]. rewrite M_bind_eq.
  case_decide; [|done]. cbn [lift]. set (t := Cli _ _ _ _ _). rewrite M_bind_eq.
  match goal with |- context [?f (sys w)] => match f with match _ with SYNC_MODE => _ | ASYNC_MODE => _ | WAIT_MODE => _ end =>
    destruct (f (sys w)) as [[s u]|]; [|done] end end.
  cbn [mret M_ret modify]. intros [= <-]. cbn. auto.
Qed.
Lemma await_keeps n w w' : await n w = Some (tt, w') → keep_running w' = keep_running w ∧ kept w' = kept w.
Proof.
  revert w. induction n as [|n IH]; intros w; [done|]. cbn [await]. unfold read_event. rewrite M_bind_eq, M_bind_eq. cbn [gets].
  rewrite M_bind_eq. unfold on_cli. destruct (libcli_blockforEvent_read (ct w) (sys w)) as [[[r t] s]|]; [|done].
  rewrite M_bind_eq. cbn [set_cli modify mret M_ret]. case_decide; [|by intros [= <-]]. intros Hr. by apply IH in Hr.
Qed.
Lemma dump_keeps w w' : dump_log fuel w = Some (tt, w') → keep_running w' = keep_running w ∧ kept w' = kept w.
Proof.
  unfold dump_log. rewrite M_bind_eq. cbn [gets]. rewrite M_bind_eq. unfold on_cli.
  destruct (libcli_dump_core_log fuel (ct w) (sys w)) as [[r s]|]; [|done]. by intros [= <-].
Qed.

(** Ctrl+C that is pressed while a line is read is forgotten: after the command the loop
    goes on. *)
Theorem interrupt_forgotten (line : list Z) (w w' : shell) (b : bool) : run_line fuel info b line w = Some (Again, w') → keep_running w' = true.
Proof.
  unfold run_line. rewrite M_bind_eq. assert (Hk : ∃ w1, (if b then set_keep false else mret tt) w = Some (tt, w1)) by (destruct b; by eexists).
  destruct Hk as [w1 ->]. rewrite M_bind_eq. cbn [set_keep modify]. set (w2 := Shell _ _ _ _ _ _). rewrite M_bind_eq.
  destruct (select_cmd_mode line) as [[|[m l]]|]; cbn [lift]; [done| |done].
  rewrite M_bind_eq. cbn [set_cmd modify]. set (w3 := Shell _ _ _ _ _ _). rewrite M_bind_eq.
  destruct (send fuel info l w3) as [[[] w4]|] eqn:Es; [|done]. destruct (send_sent l w3 w4 Es) as (Hk & _ & _).
  case_decide; [|intros [= <-]; exact Hk]. rewrite M_bind_eq. destruct (await fuel w4) as [[[] w5]|] eqn:Ea; [|done].
  destruct (await_keeps _ _ _ Ea) as [Hk5 _]. rewrite M_bind_eq. destruct (dump_log fuel w5) as [[[] w6]|] eqn:Ed; [|done].
  destruct (dump_keeps _ _ Ed) as [Hk6 _]. intros [= <-]. by rewrite Hk6, Hk5, Hk.
Qed.

(** A line that fills the array leaves no room for an end, and is read behind it. *)
Theorem full_line_overruns (l : list Z) (w : shell) (b : bool) : Forall (λ c, c ≠ 0) l → (128 ≤ length l)%nat →
  turn fuel info b (Typed l) w = None.
Proof.
  intros Hl Hn. unfold turn. rewrite M_bind_eq. cbn [now gets]. rewrite M_bind_eq.
  match goal with |- match ?x with _ => _ end = None => destruct x as [[[] w1]|]; [|done] end.
  rewrite M_bind_eq. cbn [set_cmd modify]. replace (128 - length l)%nat with 0%nat by lia.
  change (replicate 0 0) with (@nil Z). rewrite app_nil_r. cbv zeta.
  rewrite M_bind_eq. cbn [set_cmd modify]. unfold run_line. rewrite M_bind_eq.
  match goal with |- context [(if b then ?x else ?y) ?u] => assert (Hk : ∃ v, (if b then x else y) u = Some (tt, v)) by (destruct b; by eexists); destruct Hk as [v ->] end.
  rewrite M_bind_eq. cbn [set_keep modify]. rewrite M_bind_eq.
  assert (Hs : strlen (take 128 l) = None).
  { assert (Ht := Forall_take _ 128 l Hl). clear - Ht. induction Ht as [|c k Hc Hk IH]; [done|]. cbn. by rewrite decide_False, IH. }
  unfold select_cmd_mode. by rewrite Hs.
Qed.

Lemma plain_line (l : list Z) : Forall (λ c, c ≠ 0) l → (3 ≤ length l < 127)%nat → 45 ∉ l → 38 ∉ l → take 4 (line_buf l) ≠ wait_word →
  select_cmd_mode (line_buf l) = Some (inr (SYNC_MODE, l ++ replicate (128 - length l) 0)).
Proof.
  intros Hl Hn H45 H38 Hw. assert (Hlen := line_len l Hl ltac:(unfold zlen; lia)).
  unfold select_cmd_mode. rewrite Hlen. cbn [mbind option_bind].
  rewrite (no_char l _ 45), (no_char l _ 38) by (done || unfold zlen; lia).
  rewrite andb_false_r. cbn [andb]. rewrite (decide_False (P := take 4 _ = wait_word)) by done.
  unfold put_at, line_buf. rewrite decide_True by (unfold zlen; rewrite !length_app, length_replicate; cbn; lia). cbn [mbind option_bind].
  replace (Z.to_nat (zlen l + 1 - 1)) with (length l + 0)%nat by (unfold zlen; lia). rewrite insert_app_r. cbn [insert list_insert app].
  by replace (128 - length l)%nat with (S (127 - length l)) by lia.
Qed.

(** A line that is typed, without an ending that says how to run it, is stored in the
    memory of the modem without its newline, and followed by zeros. *)
Theorem plain_line_stored (mi : modinfo) (host mdm : Z) (l : list Z) (w w' : shell) (b : bool) : info = Some mi →
  command_place mi = Some (host, mdm) → Forall (λ c, c ≠ 0) l → (3 ≤ length l < 127)%nat → 45 ∉ l → 38 ∉ l → take 4 (line_buf l) ≠ wait_word →
  run_line fuel info b (line_buf l) w = Some (Again, w') →
  kept w' = kept w ++ [(host, l ++ replicate (128 - length l) 0)].
Proof.
  intros Hi Hp Hl Hn H45 H38 Hw. unfold run_line. rewrite M_bind_eq.
  match goal with |- context [(if b then ?x else ?y) ?u] => assert (Hk : ∃ v, (if b then x else y) u = Some (tt, v) ∧ kept v = kept u) by (destruct b; by eexists); destruct Hk as (v & -> & Hv) end.
  rewrite M_bind_eq. cbn [set_keep modify]. rewrite M_bind_eq, plain_line by done. cbn [lift].
  rewrite M_bind_eq. cbn [set_cmd modify]. set (w3 := Shell _ _ _ _ _ _). rewrite M_bind_eq. set (line := l ++ _).
  destruct (send fuel info line w3) as [[[] w4]|] eqn:Es; [|done]. destruct (send_sent line w3 w4 Es) as (_ & _ & Hk).
  rewrite decide_True by done. rewrite M_bind_eq. destruct (await fuel w4) as [[[] w5]|] eqn:Ea; [|done].
  destruct (await_keeps _ _ _ Ea) as [_ Hk5]. rewrite M_bind_eq. destruct (dump_log fuel w5) as [[[] w6]|] eqn:Ed; [|done].
  destruct (dump_keeps _ _ Ed) as [_ Hk6]. intros [= <-]. rewrite Hk6, Hk5, Hk, Hi, Hp. cbn [kept w3]. rewrite Hv.
  rewrite take_ge; [done|]. unfold line. rewrite length_app, length_replicate. lia.
Qed.

Lemma loop_appends n text line w w' : file_loop fuel info n text line w = Some (tt, w') → ∃ rest, kept w' = kept w ++ rest.
Proof.
  revert text line w. induction n as [|n IH]; intros text line w; [intros [= <-]; exists []; by rewrite app_nil_r|].
  destruct text as [|c text]; [intros [= <-]; exists []; by rewrite app_nil_r|]. cbn [file_loop]. destruct (fgets 127 (c :: text)) as [s text'].
  cbv zeta. rewrite M_bind_eq. destruct (send fuel info _ w) as [[[] w1]|] eqn:Es; [|done]. destruct (send_sent _ _ _ Es) as (_ & _ & Hk).
  rewrite M_bind_eq. destruct (await fuel w1) as [[[] w2]|] eqn:Ea; [|done]. destruct (await_keeps _ _ _ Ea) as [_ Hk2].
  rewrite M_bind_eq. destruct (dump_log fuel w2) as [[[] w3]|] eqn:Ed; [|done]. destruct (dump_keeps _ _ Ed) as [_ Hk3].
  intros Hl. apply IH in Hl as [rest ->]. rewrite Hk3, Hk2, Hk, <- app_assoc. by eexists.
Qed.
(** A line of a file keeps its newline, and what lay in the array before it goes to the
    modem behind it. *)
Theorem file_line_stored (mi : modinfo) (host mdm : Z) (n : nat) (text stack : list Z) (w w' : shell) : info = Some mi →
  command_place mi = Some (host, mdm) → length stack = 128%nat → text ≠ [] →
  file_loop fuel info (S n) text stack w = Some (tt, w') →
  ∃ rest, let s := fst (fgets 127 text) in
    kept w' = kept w ++ (host, s ++ [0] ++ drop (S (length s)) stack) :: rest.
Proof.
  intros Hi Hp Hs Ht. destruct text as [|c text]; [done|]. cbn [file_loop].
  assert (Hf : ∀ n l, (length (fst (fgets n l)) ≤ n)%nat).
  { clear. induction n as [|n IH]; intros l; [cbn; lia|]. destruct l as [|c l]; [cbn; lia|]. cbn. case_decide; [cbn; lia|].
    specialize (IH l). destruct (fgets n l). cbn in *. lia. }
  specialize (Hf 127%nat (c :: text)). destruct (fgets 127 (c :: text)) as [s text']. cbn [fst] in *. cbv zeta.
  rewrite M_bind_eq. destruct (send fuel info (got stack s) w) as [[[] w1]|] eqn:Es; [|done]. destruct (send_sent _ _ _ Es) as (_ & _ & Hk).
  rewrite M_bind_eq. destruct (await fuel w1) as [[[] w2]|] eqn:Ea; [|done]. destruct (await_keeps _ _ _ Ea) as [_ Hk2].
  rewrite M_bind_eq. destruct (dump_log fuel w2) as [[[] w3]|] eqn:Ed; [|done]. destruct (dump_keeps _ _ Ed) as [_ Hk3].
  intros Hl. apply loop_appends in Hl as [rest ->]. exists rest. rewrite Hk3, Hk2, Hk, Hi, Hp, <- app_assoc.
  rewrite take_ge; [done|]. unfold got. rewrite !length_app, length_drop. cbn. lia.
Qed.
End Runs.

(** ** Witnesses *)
#[local] Existing Instance GulScratch.demo_scratch.
#[local] Existing Instance GulScratch.demo_host.
#[local] Instance demo_msgs : CliMsgs := {| GUL_CLI_MSG_ID_GENERIC := 1; GUL_CLI_MSG_ID_L1REFAPP := 2 |}.
Definition demo_info : modinfo := gul_modinfo_get demo_opts place_dev.
(** The command line of modem 1, registered. *)
Definition demo_shell : shell :=
  let o := RunOpt 1 0 SYNC_MODE false false (replicate 128 0) false in
  match (_ ← cli_init; cli_probe 1) demo_cliw with
  | Some (_, s) => match register 9 (Shell s (demo_req 0) true o [] []) with Some (_, w) => w | None => Shell s (demo_req 0) true o [] [] end
  | None => Shell demo_cliw (demo_req 0) true o [] []
  end.
Definition ps_line : list Z := [112; 115; 32; 50].
Example shell_runs : match turn 9 (Some demo_info) false (Typed (ps_line ++ [10])) demo_shell with
  | Some (n, w) => n = Again ∧ (snd <$> kept w) = [ps_line ++ replicate 124 0] ∧ filter to_modem (fst <$> clog (sys w)) ≠ [] | None => False end.
Proof. vm_compute. split_and!; [reflexivity|reflexivity|discriminate]. Qed.
Definition demo_place : Z := match command_place demo_info with Some (h, _) => h | None => 0 end.
Definition after_line : shell := match run_line 9 (Some demo_info) true (line_buf ps_line) demo_shell with Some (_, w) => w | None => demo_shell end.
Lemma ran_line : run_line 9 (Some demo_info) true (line_buf ps_line) demo_shell = Some (Again, after_line).
Proof.
  assert (Hm : match run_line 9 (Some demo_info) true (line_buf ps_line) demo_shell with Some (Again, _) => true | _ => false end = true) by (vm_compute; reflexivity).
  unfold after_line. by destruct (run_line 9 (Some demo_info) true (line_buf ps_line) demo_shell) as [[[] w]|].
Qed.
Lemma interrupt_forgotten_witness : keep_running after_line = true.
Proof. exact (interrupt_forgotten 9 (Some demo_info) (line_buf ps_line) demo_shell after_line true ran_line). Defined.
Lemma demo_placed : ∃ mdm, command_place demo_info = Some (demo_place, mdm).
Proof.
  assert (Hm : is_Some (command_place demo_info)) by (exists (demo_place, match command_place demo_info with Some (_, m) => m | None => 0 end); vm_compute; reflexivity).
  unfold demo_place. destruct Hm as [[h m] ->]. by eexists.
Qed.
Lemma plain_line_stored_witness : kept after_line = kept demo_shell ++ [(demo_place, ps_line ++ replicate 124 0)].
Proof.
  destruct demo_placed as [mdm Hp].
  refine (plain_line_stored 9 (Some demo_info) demo_info demo_place mdm ps_line demo_shell after_line true eq_refl Hp _ _ _ _ _ ran_line).
  - repeat constructor; discriminate.
  - cbn. lia.
  - apply (bool_decide_eq_true_1 (45 ∉ ps_line)). reflexivity.
  - apply (bool_decide_eq_true_1 (38 ∉ ps_line)). reflexivity.
  - discriminate.
Defined.
Lemma full_line_overruns_witness : turn 9 (Some demo_info) false (Typed (replicate 128 97)) demo_shell = None.
Proof. apply (full_line_overruns 9 (Some demo_info) (replicate 128 97) demo_shell false); [by apply Forall_replicate|by rewrite length_replicate]. Defined.
Lemma arguments_sound_witness : ∃ o, parse_arguments 6 [OptModem [50]; OptCore [48; 120; 53]; OptCmd ps_line] = inr o ∧ 0 ≤ modem_id o < 4 ∧ core_id o = 5.
Proof.
  eexists. split; [vm_compute; reflexivity|]. split; [|reflexivity].
  eapply (arguments_sound 6 [OptModem [50]; OptCore [48; 120; 53]; OptCmd ps_line]); [|vm_compute; reflexivity].
  repeat constructor; discriminate.
Defined.
Definition demo_file : list Z := ps_line ++ [10] ++ ps_line ++ [10].
Definition after_file : shell := match file_loop 9 (Some demo_info) 10 demo_file (replicate 128 170) demo_shell with Some (_, w) => w | None => demo_shell end.
Lemma ran_file : file_loop 9 (Some demo_info) 10 demo_file (replicate 128 170) demo_shell = Some (tt, after_file).
Proof.
  assert (Hm : match file_loop 9 (Some demo_info) 10 demo_file (replicate 128 170) demo_shell with Some _ => true | _ => false end = true) by (vm_compute; reflexivity).
  unfold after_file. by destruct (file_loop 9 (Some demo_info) 10 demo_file (replicate 128 170) demo_shell) as [[[] w]|].
Qed.
Lemma file_line_stored_witness : ∃ rest, kept after_file = kept demo_shell ++ (demo_place, ps_line ++ [10; 0] ++ replicate 122 170) :: rest.
Proof.
  destruct demo_placed as [mdm Hp].
  exact (file_line_stored 9 (Some demo_info) demo_info demo_place mdm 9 demo_file (replicate 128 170) demo_shell after_file eq_refl Hp eq_refl ltac:(discriminate) ran_file).
Defined.
(** The training program, stopped at its third turn. *)
Example trains_twice : match training_main 9 [false; false; true] (Shell (match (_ ← cli_init; cli_probe 1) demo_cliw with Some (_, s) => s | None => demo_cliw end)
    (demo_req 0) true (RunOpt 1 0 SYNC_MODE false false [] false) [] []) with
  | Some ((s, k), _) => s = Some 0 ∧ k = 2%nat | None => False end.
Proof. vm_compute. done. Qed.
